(* ===== verification/_CoqProject ===== *)
-Q . S2P
Prelude.v
Json.v
Text.v
RunState.v
RunLifecycle.v
RunView.v
Store.v
RuntimeExecutions.v
RunProjection.v
Hints.v
Bridge.v
DesiredState.v
Capacity.v
CpuReservations.v
ShareModel.v
SharePump.v
ShareFiles.v
ShareLog.v
ShareStop.v
ShareRecording.v
Tar.v
SshKey.v
BuildScheduler.v
BuildLock.v
BuildStore.v
BuildQueue.v
BuildScope.v
BuildPass.v
RegistryKeys.v
RetentionPlans.v
RetentionProjection.v
RetentionSafety.v
RegistryAdmission.v
RegistryExclusion.v
Requests.v
Interference.v
RegistryChunks.v
RegistryContent.v
RegistrySweep.v
RegistrySweepSafety.v
Access.v
ArtifactStore.v
ArtifactRoutes.v
ArtifactChanges.v
ArtifactSafety.v
ArtifactResults.v
Placement.v
RunNames.v
AdmissionStore.v
AdmissionRequests.v
AdmissionSample.v
AdmissionSafety.v
AdmissionResults.v
AdmissionReplay.v
RouteRevocation.v
AccountStore.v
AccountRequests.v
AccountSafety.v
AccountPool.v
AccountSample.v
AccountResults.v
RunEndingStore.v
RunEndingRequests.v
RunEndingSafety.v
RunEndingSample.v
RunEndingResults.v
