(* ===== verification/Prelude.v ===== *)
(** Verification of the intar control plane.

    intar runs training scenarios in virtual machines on hosts that agents manage.
    The control plane (apps/web) keeps the state of every run in a relational
    store, tells each host what to run by a versioned desired-state document, and
    projects the reports of the hosts onto the documents that browsers read. The
    hard parts are that reports arrive late, twice, out of order and from
    generations of a VM that were replaced, that several requests and the host's
    Durable Object write the same rows at once, and that a terminal must never be
    offered before the VM is proved ready. All paths below are under
    apps/web/src/.

    * Files and the code they model

    - [Prelude]: what the code uses of the language: strings with [trim],
      [split] and order, [Map] and [Set] in insertion order, stable sorting,
      doubles on integers, results of code that throws; tactics, hints and the
      lemmas the components share.
    - [Json]: JSON values and the readers of unknown values.
    - [RunState]: lib/run-state.ts and lib/verification-copy.ts. The run and VM
      documents ([RunStateDocument], [RunVmStateDocument]), phases and their
      ranks, merging of probes, [decorateVmState] and [recomputeRunState], which
      derives every presented field of a run from its VMs.
    - [RunLifecycle]: lib/run-lifecycle.ts and the report types of
      generated/bridge.ts. [applyReportedVmState] and what it calls: identity,
      order and generation checks, retired generations, quota evidence, terminal
      readiness, phases; [applyVmReportToRunState] and
      [applyHostReportToRunState] apply reports to runs.
    - [RunView]: lib/run-phase.ts, lib/run-lease.ts,
      lib/scenario-runs/saving-stage.ts, lib/scenario-run-outcome.ts and
      lib/run-probe-history.ts: what browsers are shown of a run, its lease, its
      saving stages, its outcome and the recorded probe transitions.
    - [Store]: the tables of db/schema/ that the operations below read and
      write, statements and atomic batches, uniqueness and check constraints.
    - [RuntimeExecutions]: lib/runtime-executions.ts. Executions of a domain by
      generation, active slots, creation, release, archival, state updates,
      terminal records and the statements that keep an execution in step with
      its run.
    - [RunProjection]: [persistRunState] of control-plane/host-runtime-do/base.ts
      and [requestRemovedMemberRunShutdown] of lib/organizations.ts: the
      optimistic write of a projected run, its guards, retries and effects.
    - [Hints]: lib/scenario-run-content.ts and lib/scenario-hints.ts: which hints
      and solutions a learner has revealed, may reveal and sees.
    - [Bridge]: control-plane/bridge-v8.ts: which messages of a host are
      accepted, with the defaults of older agents.
    - [DesiredState]: lib/desired-state.ts and lib/desired-state-store.ts: the
      documents that tell a host what to run, their edits, validation, normal
      form and versioned store.
    - [Capacity]: lib/runtime-capacity.ts and the arithmetic of
      control-plane/host-cpu-reservations.ts: the CPU, memory and disk a host has
      left by its last report and the reservations on it.
    - [CpuReservations]: the store operations of
      control-plane/host-cpu-reservations.ts: committing, expiring and releasing
      reservations in step with what a host is asked to run and reports.
    - [Text]: decimal digits, character classes and JSON quoting, as the
      components below print and parse them.
    - [ShareModel]: lib/run-share/shared-run-model.ts and shared-run-cast.ts: the
      viewer's state of a shared run, whose sessions share event arrays that a
      batch copies before it appends, and the cast it downloads.
    - [SharePump]: lib/run-share/shared-run-pump.ts: feeding a session's events
      to the terminal in chunks, with its callbacks.
    - [ShareFiles]: lib/run-share/protocol.ts and shared-run-poller.ts: the files
      of a share, which of them a viewer fetches, and its polling loop.
    - [ShareLog], [ShareStop], [ShareRecording]:
      control-plane/run-share-do.ts: the log of a share and its flushing into
      files that viewers read, stopping a share while writes are under way, and
      the recordings that replace the log when the run is over.
    - [Tar]: lib/tar.ts, the tar writer. [SshKey]: lib/ssh-ed25519.ts, the OpenSSH
      encoding of generated keys.
    - [BuildScheduler]: lib/build-scheduler-core.ts, the scheduling rules of image
      builds. [BuildLock]: lib/image-build-lock.ts, the leased locks.
      [BuildStore]: lib/build-scheduler.ts, every operation of the build queue as
      a program of SQL statements. [BuildQueue]: concurrent requests on the
      queue, and the builders' slots. [BuildScope]: one content hash at a time.
      [BuildPass]: an assignment pass alone, and reports.
    - [RegistryKeys]: the names of registry objects, from
      control-plane/image-registry/shared.ts, lib/image-artifact-retention.ts and
      lib/image-registry-cleanup.ts. [RetentionPlans], [RetentionProjection]:
      lib/image-artifact-retention.ts, which images, rollbacks, candidates,
      builds and cache entries are still needed, and the batch that records it;
      [RetentionSafety]: what the projection pins.
    - [RegistryAdmission]: lib/image-registry-admission.ts, the gate that keeps
      uploads and sweeps apart; [RegistryExclusion]: every sequence of its
      requests.
    - [RegistryChunks]: control-plane/image-registry/chunks.ts, the chunks and
      manifests of images; [RegistryContent]: what uploads side by side leave
      in the bucket, and what is delivered from it. A request is a program of
      [Requests] whose accesses are single reads and writes of the bucket.
    - [RegistrySweep]: lib/image-registry-cleanup.ts, the run that deletes what
      nothing needs; its [World] says what other requests do to the gate, to the
      tables and to the bucket before each of its accesses, and [sw_log] records each
      delete call. [RegistrySweepSafety]: what it promises.
    - [Requests]: programs of atomic accesses and outside calls, any number of
      which run at once, what each of them must uphold, and the events of one run
      ([traced]): its accesses with the states they found and left, and its calls.
    - [Access]: lib/scenario-runs/content-access.ts, lib/metal-placement.ts and
      the agent's identity of control-plane/image-registry/image-access.ts: who
      may use a run's content and which hosts may serve it.
    - [ArtifactStore]: control-plane/agent-run-artifacts/storage.ts, the ledgers,
      uploads, seals and stages of the artifacts a host saves;
      [ArtifactRoutes]: control-plane/agent-run-artifacts.ts, the requests;
      [ArtifactChanges], [ArtifactSafety]: what a transaction and what any
      interleaving of requests may change; [ArtifactResults]: what single
      operations achieve.
    - [Interference]: the rely-guarantee reading of [Requests], for requests that
      keep what they know while others run.
    - [Placement]: lib/scenario-hosts.ts, lib/scenario-host-readiness.ts,
      lib/personal-host-readiness.ts and the host checks of
      lib/scenario-runs/start.ts: whether a host may launch a run, and the order
      in which hosts are tried. [RunNames]: lib/scenario-runs/runtime-vm-name.ts
      and the route names of start.ts.
    - [AdmissionStore]: the batch of lib/scenario-runs/begin.ts that admits a run,
      with lib/scenario-runs/admission-guards.ts and lib/run-admission-gate.ts;
      [AdmissionRequests]: [beginScenarioRun] and [cancelAdmittedRun], whole.
      [AdmissionSample]: one platform, its concrete input. [AdmissionSafety]:
      starts side by side; [AdmissionResults], [AdmissionReplay]: what a start
      leaves, and what asking again answers.
    - [RouteRevocation]: lib/route-revocation.ts, one call per route.
    - [AccountStore]: who may act and sign in (lib/account-access.ts,
      lib/platform-admin-authority.ts) and the batches that give and take access,
      over the tables of accounts, identities, sessions, tokens and servers:
      lib/account-sign-out.ts, lib/access-revocation-store.ts,
      lib/platform-user-deletion-store.ts, lib/personal-host-retirement.ts and
      lib/account-links.ts. [AccountRequests]: the requests of these files, of
      lib/access-revocation.ts and lib/account-route-issuance.ts, and the check of
      a linked GitHub account in lib/auth.ts. [AccountSafety]: what each batch may
      change; [AccountPool]: the requests side by side; [AccountSample]: three
      accounts to try them on; [AccountResults]: what they promise.
    - [RunEndingStore]: the statements and decisions of ending runs
      (lib/scenario-runs/lifecycle.ts, storage.ts and route-cleanup.ts,
      lib/scenario-run-leases.ts, lib/scenario-run-cleanup.ts) and of what a host
      may be sent (lib/host-workload-access.ts). [RunEndingRequests]: the requests:
      [updateRunState], tearing down, expiring leases, deleting a finished run with
      lib/scenario-artifact-storage.ts, [enforceHostWorkloadAccess], and
      [cleanupRemovedHost] of lib/host-workload-retirement.ts, whose two parallel
      halves share nothing and are run in sequence. [RunEndingSafety]: what they
      keep among others; [RunEndingSample]: a started run; [RunEndingResults]: what
      they have done when they succeed.

    They meet as the code does: [RunLifecycle] works on the documents of
    [RunState]; [RunProjection] stores what [RunLifecycle] and [RunState] derive,
    in one batch with the statements of [RuntimeExecutions], over the tables of
    [Store]; [Hints] writes the hint columns of the same rows, if the revealed
    hints are still the ones it read; [DesiredState] accepts exactly the documents [Bridge] accepts;
    [CpuReservations] reads all of them. [ShareLog] writes the files that
    [ShareFiles] plans and [ShareModel] applies; [BuildStore] edits the documents
    of [DesiredState] under the locks of [BuildLock] by the rules of
    [BuildScheduler]. [RegistrySweep] takes the gate of [RegistryAdmission],
    plans by [RetentionProjection] over the desired states and the reports of the
    hosts, verifies the manifests that [RegistryChunks] stored, deletes by key and
    records the retention. [ArtifactStore] writes the documents of [RunState] and
    the statements of [RuntimeExecutions] with its own tables in one batch, under
    the conditions of [Access]. [AdmissionStore] writes the tables of [Store],
    [CpuReservations] and [DesiredState] in one batch under the conditions of
    [Access], on a host that [Placement] and [Capacity] admit. [AccountStore] has
    the account tables in full, of which the other components see the columns
    they read; a start, a route and an upload each ask it before and after.

    * State and operations

    A table is a list of rows; a statement takes a store to a store and a number
    of changes, or to the constraint it violates, and a batch runs its statements
    in turn or changes nothing. An operation that awaits is a function of the
    store it reads and the store its write meets, or takes functions ([race],
    [arrive], [settle], [later]) that stand for whatever other requests do at
    each point where it waits ([CpuReservations] has one such function for all
    its accesses, in a state monad); theorems quantify over them under a stated
    condition on the others, which a mutation of [DesiredState] is shown to keep
    in turn. Errors are values of [result]. Time is an argument.

    The build queue goes further: its operations are programs ([Prog]) whose
    statements are functions on the tables, and [BuildQueue.step] runs any number
    of them at once, one statement at a time, with the platform's outcomes (lost
    races, lost leases, timeouts) and the other writers chosen freely. What a
    request knows between two statements is carried by [BuildScope.safe], a
    rely-guarantee judgement. The Durable Object of a share is a state machine;
    a flush is left at each of its awaits ([ShareLog.Flush]) with frames, closes and
    viewers in between, and a put may fail before or after it took effect. Artifact
    requests are programs of [Requests]: the configuration runs any number of
    them, a call outside answers anything or never, a request may vanish at any
    await, and [upholds] states what every access of a program keeps. Starts of
    runs are programs of the same kind in a pool ([Interference.pool_step]) that
    numbers them, so that what one relies on of the others can be told apart from
    what it guarantees them.

    * What the theorems show

    - Runs ([RunState], [RunLifecycle], [RunView]): no terminal is offered without
      readiness, readiness requires sealed quota evidence, VM phases only
      advance, retired generations never return, teardown is absorbing, reports
      of different VMs commute, a host report is its VM reports, recomputation is
      idempotent, probe transitions are recorded once, and what is shown as
      running can be opened.
    - Store ([RuntimeExecutions], [RunProjection], [Hints]): every sequence of
      operations, however interleaved with stale reads, keeps the store's
      uniqueness; superseded generations are inert and archival is final; a
      projection or a reveal that commits was derived from the row it replaced
      and loses no other write; without contention it commits.
    - Hosts ([Bridge], [DesiredState]): accepting a message changes nothing
      but the capabilities an older agent leaves out, and does so once; accepted reports carry the evidence the projection relies on;
      desired-state mutations yield valid successors in normal form, edits land
      exactly, and concurrent mutations lose no update.
    - Capacity ([Capacity], [CpuReservations]): admissions that fit take exactly
      what they ask for and never overcommit; an expired boot is failed only
      while its host is not told to run it, whatever others write; reconciliation drops
      a reservation only when its run is settled or its teardown is proved.
    - Sharing ([ShareModel], [SharePump], [ShareFiles], [ShareLog], [ShareStop],
      [ShareRecording]): whatever is cut off and whenever they look, viewers
      apply a prefix of the log, in order and without gaps, and catch up when the
      writes stop; published files hold the log; appending in place refines
      copying; the terminal draws the log in order and to its end; after a stop
      nothing stays public but what a call that threw left; and recordings publish only
      what was shared.
    - Formats ([Tar], [SshKey]): archives and key files read back as what was
      written, and a comment cannot add a line or a field to a public key.
    - Builds ([BuildScheduler], [BuildLock], [BuildQueue], [BuildScope],
      [BuildPass]): in every interleaving at most one content hash of a scenario,
      architecture and scope is in progress and no builder holds more than two
      slots; a lease is exclusive; a report touches only its own active build; a
      pass leaves no build waiting that a builder could take.
    - Registry ([RegistryKeys], [RetentionPlans], [RetentionSafety],
      [RegistryExclusion], [RegistryContent], [RegistrySweepSafety]): however uploads
      overlap, a stored manifest has all its chunks and an agent is given nothing but
      verified bytes, and an image id fixes the bytes of its image;
      while a sweep holds the gate no writer is admitted; a sweep deletes nothing
      a reference needs, stops when a reference cannot be proven, stays within its
      bounds, keeps every manifest complete however early it stops, and calls
      itself complete only when nothing is left; retention keeps one rollback per
      scenario and exactly the builds that can be reused.
    - Artifacts ([Access], [ArtifactSafety], [ArtifactResults]): however requests
      interleave, a sealed VM is never written to again, the two ledgers list the
      same artifacts, stages and stored artifacts never move back, and uploads are
      put together from consecutive parts; an accepted manifest is recorded whole
      under keys that fit and differ, a completion seals its VM and archives the
      execution with its last one, and a timeline fits its statement budget. A
      host that placement admits may serve the run and is counted.
    - Starting runs ([Placement], [RunNames], [AdmissionSafety],
      [AdmissionResults], [AdmissionReplay]): hosts that are offered are exactly
      those the check before the commit accepts; however many runs are started at
      once, none of them reserves CPU that its host cannot schedule; a run is
      admitted with everything that belongs to it or not at all; asking again with
      the same key answers the same run; names of VMs fit and routes differ.
    - Access ([AccountSafety], [AccountPool], [AccountResults]): however
      administrators' requests interleave, one who can sign in remains; an access
      generation seen before and after held throughout; accounts are banned
      exactly while they are revoked, and a cleanup completes once; a restore gives
      a fresh start and leaves everyone else alone; a route whose owner may have
      lost access is not handed out and is asked back; the reason shown for an
      identity that cannot sign in is the reason.
    - Ending runs ([RunEndingResults]): an accepted teardown leaves none of the
      run's VMs asked for, no slot held and no terminal route unrevoked; a host is
      not sent a VM that nothing allows; a lease that ran out is cleared; what is
      deleted is over and leaves nothing in other stores. Each holds among any
      other requests that do not ask for the same VMs again.
    - [phase_guard_lasts_one_projection], [removal_in_same_millisecond_is_lost],
      [padded_hello_throws], [share_lost_head_write_loses_rows],
      [tar_name_not_utf8], [returned_build_exceeds_slots],
      [trim_on_one_host_unpins_on_another], [racing_uploads_replace],
      [refused_sweep_holds_the_gate], [lost_init_write_stays_public], [late_link_check_locks_out] and
      [expiry_erases_delete_request] are concrete runs on which the code does not do what it is meant to do.

    * Bounds and conventions

    - Retry loops recurse on the attempts the code allows: 8 for
      [persistRunState], [updateRunState] and for failing an expired run, 5 for desired states, 3
      for admitting and cancelling a run.
      Loops over text, digits and the terminal's queue take the length of what
      they consume as fuel, which is proved enough where a result is claimed.
    - Locks of the build queue exclude each other as long as their leases last;
      that is [BuildLock]'s theorem, and an assumption of [BuildQueue.step]. A
      desired-state mutation is one step there, by [DesiredState]'s theorem that
      it takes effect at its one write.
    - The identity of an execution and of a VM never changes and VM ids are not
      shared: artifact theorems take this as functions from ids, which everything
      outside the requests keeps; deleting a run with its archive is outside them.
    - Strings are lists of code units below 256. Numbers that the code keeps
      integral are [Z]; [fl] rounds where a sum may leave the exact range, and
      JSON numbers distinguish integers, fractions and infinities.
    - [null] and [undefined] are one [None] where the code does not tell them
      apart, and kept apart in [Json] and [Bridge], where it does.
    - JSON columns hold the values themselves; [JSON.parse], [JSON.stringify],
      [localeCompare], SHA-256 and encryption are parameters, with the laws they
      are documented to have as hypotheses; that SHA-256 has no collisions is never
      one of them, a theorem that depends on it names the two texts that collide instead.
    - Object storage is a list of keys and objects that one access reads or writes;
      what a bulk delete removes and what a listing shows are arguments of a sweep,
      not functions of the bucket.
    - The theorems on sweeps take of the others that none sweeps under its token,
      and that they write objects and references to them only while the gate is not its
      own, as [RegistryExclusion] proves of admitted writers; the gate may be lost at
      any access, resolved as stalled or taken by another sweep.
      The reads of a plan are one access, and a delete takes effect with the assertion
      right before it, whose heartbeat has just renewed a lease of minutes.
    - Foreign keys to users, organizations and hosts are not modelled, other than
      the cascades of executions, of sessions to tokens and of clients to grants.
    - The theorems on access quantify over what else happens to accounts
      ([AccountPool.elsewhere]): sign-ups, sign-ins, links, organizations and
      servers may change anything else, but nobody else bans, revokes, changes
      roles, or takes the GitHub identity of an administrator away. lib/auth.ts
      closes the paths of the library that would; the two places of it that remove
      an identity of a sign-up or link that failed are outside ([late_link_check_locks_out]
      is about one of them). Ids that a request creates are its own.

    * Not modelled

    The sockets, alarms and wake-ups of the host's Durable Object; the display of
    free capacity; opening terminal sessions; the HTTP service around
    run sharing; the delivery of artifacts to browsers;
    publishing, promotion and the multipart
    uploads of the image registry; scenario sources; sign-in, which is
    better-auth and OpenID Connect, with sign-ups and invitations; the relay; courses; pages,
    routes and the user interface. Compression, random bytes and the elliptic
    curve are the platform's or a library's. The Rust crates that run on hosts
    are seen only through their messages. *)
From stdpp Require Import base list strings sorting sets gmap.
From Stdlib Require Import ZArith Lia Ascii String.

Open Scope string_scope.
Open Scope list_scope.
Open Scope Z_scope.

(** * Strings

    A JavaScript string is modelled by its code units, for strings whose code
    units are below 256 (one [ascii] each). *)

Declare Scope js_scope.
Delimit Scope js_scope with js.
Notation "a =s b" := (String.eqb a b) (at level 70) : js_scope.
Open Scope js_scope.

(** White space as [String.prototype.trim] sees it below 256: TAB, LF, VT, FF,
    CR, SPACE and NO-BREAK SPACE. *)
Definition js_space (c : ascii) : bool :=
  let n := N_of_ascii c in
  (((9 <=? n) && (n <=? 13)) || (n =? 32) || (n =? 160))%N.

Fixpoint trim_start (s : string) : string :=
  match s with
  | EmptyString => EmptyString
  | String c s' => if js_space c then trim_start s' else s
  end.

Fixpoint trim_end (s : string) : string :=
  match s with
  | EmptyString => EmptyString
  | String c s' =>
      match trim_end s' with
      | EmptyString => if js_space c then EmptyString else String c EmptyString
      | t => String c t
      end
  end.

Definition trim (s : string) : string := trim_end (trim_start s).

(** [toLowerCase] on the same range: A-Z and the Latin-1 capitals. *)
Definition lower_ascii (c : ascii) : ascii :=
  let n := N_of_ascii c in
  if (((65 <=? n) && (n <=? 90)) ||
      ((192 <=? n) && (n <=? 222) && negb (n =? 215)))%N
  then ascii_of_N (n + 32) else c.

Fixpoint toLowerCase (s : string) : string :=
  match s with
  | EmptyString => EmptyString
  | String c s' => String (lower_ascii c) (toLowerCase s')
  end.

(** [a || b], [a || null] and truthiness on strings and optional strings. *)
Definition truthy (s : string) : bool := negb (s =s "").
Definition or_str (a b : string) : string := if truthy a then a else b.
Definition or_null (s : string) : option string := if truthy s then Some s else None.
Definition truthy_opt (o : option string) : bool :=
  match o with Some s => truthy s | None => false end.

(** [a ?? b]. *)
Definition nullish {A} (a : option A) (b : A) : A :=
  match a with Some x => x | None => b end.

(** [o?.trim() || null]: the reader of optional strings. *)
Definition read_opt_string (o : option string) : option string :=
  match o with Some s => or_null (trim s) | None => None end.

(** UTF-16 code-unit order, the order of [<] and of [sort()] on strings. *)
Fixpoint str_leb (a b : string) : bool :=
  match a, b with
  | EmptyString, _ => true
  | String _ _, EmptyString => false
  | String c a', String d b' =>
      if (N_of_ascii c <? N_of_ascii d)%N then true
      else if (N_of_ascii d <? N_of_ascii c)%N then false
      else str_leb a' b'
  end.

Fixpoint str_prefix (p s : string) : bool :=
  match p, s with
  | EmptyString, _ => true
  | String c p', String d s' => Ascii.eqb c d && str_prefix p' s'
  | String _ _, EmptyString => false
  end.

(** [s.split(sep)] for a separator of one code unit. *)
Fixpoint str_split (sep : ascii) (s : string) : list string :=
  match s with
  | EmptyString => [EmptyString]
  | String c s' =>
      if Ascii.eqb c sep then EmptyString :: str_split sep s'
      else match str_split sep s' with
           | p :: ps => String c p :: ps
           | [] => [String c EmptyString]
           end
  end.
Definition colon : ascii := ":"%char.
Definition newline : string := String "010"%char EmptyString.

(** The code units of a string, and strings over a character class. *)
Fixpoint code_units (s : string) : list N :=
  match s with
  | EmptyString => []
  | String c s' => N_of_ascii c :: code_units s'
  end.
Definition in_range (lo hi n : N) : bool := ((lo <=? n) && (n <=? hi))%N.

(** The strings of one code unit a string consists of. *)
Fixpoint str_chars (s : string) : list string :=
  match s with
  | EmptyString => []
  | String c s' => String c EmptyString :: str_chars s'
  end.

(** [parts.join(sep)]. *)
Fixpoint join (sep : string) (parts : list string) : string :=
  match parts with
  | [] => ""
  | [x] => x
  | x :: rest => x +:+ sep +:+ join sep rest
  end.

(** * Numbers

    Integral numbers are [Z]; [safe_integer] is [Number.isSafeInteger] on them,
    and [fl] rounds an integer to the nearest double (ties to even), so that
    [fl (a + b)] is what [a + b] evaluates to on integral doubles. *)
Definition MAX_SAFE_INTEGER : Z := 2 ^ 53 - 1.
Definition safe_integer (z : Z) : bool := (Z.abs z <=? MAX_SAFE_INTEGER).

Definition round_half_even (m p : Z) : Z :=
  let q := m / p in
  let r := m mod p in
  if 2 * r <? p then q * p
  else if p <? 2 * r then (q + 1) * p
  else if Z.even q then q * p else (q + 1) * p.

Definition fl (z : Z) : Z :=
  let e := Z.log2 (Z.abs z) - 52 in
  if e <=? 0 then z
  else Z.sgn z * round_half_even (Z.abs z) (2 ^ e).

(** * Maps, sets and sorting

    A [Map] with string keys iterates in insertion order; setting a present key
    keeps its place. *)
Fixpoint Map_get {V} (k : string) (m : list (string * V)) : option V :=
  match m with
  | [] => None
  | (k', v) :: m' => if k =s k' then Some v else Map_get k m'
  end.

Fixpoint Map_set {V} (k : string) (v : V) (m : list (string * V)) : list (string * V) :=
  match m with
  | [] => [(k, v)]
  | (k', v') :: m' => if k =s k' then (k', v) :: m' else (k', v') :: Map_set k v m'
  end.

Definition Map_new {V} (entries : list (string * V)) : list (string * V) :=
  fold_left (fun m e => Map_set (fst e) (snd e) m) entries [].

Definition str_mem (s : string) (l : list string) : bool := existsb (String.eqb s) l.

(** [[...new Set(values)]]: first occurrences, in order. *)
Definition Set_new (values : list string) : list string :=
  fold_left (fun acc v => if str_mem v acc then acc else acc ++ [v]) values [].

(** [Array.prototype.sort] is stable; [le a b] is [compare(a, b) <= 0]. *)
Fixpoint sort_insert {A} (le : A -> A -> bool) (x : A) (l : list A) : list A :=
  match l with
  | [] => [x]
  | y :: l' => if le x y then x :: l else y :: sort_insert le x l'
  end.

Definition js_sort {A} (le : A -> A -> bool) (l : list A) : list A :=
  foldr (sort_insert le) [] l.

(** [array.findIndex(p)]. *)
Fixpoint find_index {A} (p : A -> bool) (l : list A) : option nat :=
  match l with
  | [] => None
  | x :: l' => if p x then Some O else S <$> find_index p l'
  end.

(** * Results of code that can throw *)
Inductive result (E A : Type) : Type :=
| Ok (a : A)
| Err (e : E).
Arguments Ok {E A} a.
Arguments Err {E A} e.

Definition result_bind {E A B} (r : result E A) (k : A -> result E B) : result E B :=
  match r with Ok a => k a | Err e => Err e end.
Notation "x <-? r ; k" := (result_bind r (fun x => k))
  (at level 100, r at next level, right associativity) : js_scope.
Notation "'throw_if' b 'with' e ; k" := (if (b : bool) then Err e else k)
  (at level 100, b at next level, e at next level, right associativity) : js_scope.

(** * Tactics *)

(** Reflect the boolean tests of the code into propositions. *)
Ltac reflect_bools :=
  repeat match goal with
  | H : (_ && _)%bool = true |- _ => apply andb_true_iff in H; destruct H
  | H : (_ || _)%bool = false |- _ => apply orb_false_iff in H; destruct H
  | H : negb _ = true |- _ => apply negb_true_iff in H
  | H : negb _ = false |- _ => apply negb_false_iff in H
  | H : (_ =s _) = true |- _ => apply String.eqb_eq in H
  | H : (_ =s _) = false |- _ => apply String.eqb_neq in H
  | H : (_ <=? _)%Z = true |- _ => apply Z.leb_le in H
  | H : (_ <=? _)%Z = false |- _ => apply Z.leb_gt in H
  | H : (_ <? _)%Z = true |- _ => apply Z.ltb_lt in H
  | H : (_ <? _)%Z = false |- _ => apply Z.ltb_ge in H
  | H : (_ =? _)%Z = true |- _ => apply Z.eqb_eq in H
  | H : (_ =? _)%Z = false |- _ => apply Z.eqb_neq in H
  end.

(** Split a conjunction of boolean tests, and only that. *)
Ltac split_andb :=
  repeat match goal with
  | |- (_ && _)%bool = true => apply andb_true_iff; split
  end.

(** Case analysis on the next [match] or [if] of the goal, keeping equations. *)
Ltac case_step :=
  match goal with
  | |- context [match ?x with _ => _ end] =>
      lazymatch x with
      | context [match _ with _ => _ end] => fail
      | _ => destruct x eqn:?
      end
  end.

Create HintDb js.
Create Rewrite HintDb js.

(** * Lemmas: strings *)

Lemma truthy_spec s : truthy s = true <-> s <> "".
Proof. unfold truthy. rewrite negb_true_iff, String.eqb_neq. done. Qed.

Lemma or_str_truthy a b : truthy a = true -> or_str a b = a.
Proof. unfold or_str. intros ->. done. Qed.

Lemma or_str_idem a b : or_str (or_str a b) b = or_str a b.
Proof. unfold or_str. destruct (truthy a) eqn:E; [by rewrite E|]. by destruct (truthy b). Qed.

Lemma trim_end_trim_start_cons c s :
  js_space c = false -> trim_start (trim_end (String c s)) = trim_end (String c s).
Proof. intros H. cbn. destruct (trim_end s); cbn; rewrite ?H; cbn; by rewrite ?H. Qed.

Lemma trim_end_idem s : trim_end (trim_end s) = trim_end s.
Proof.
  induction s as [|c s IH]; [done|]. cbn.
  destruct (trim_end s) as [|d t] eqn:E.
  - destruct (js_space c) eqn:Hc; cbn; by rewrite ?Hc.
  - rewrite <- E in *. change (trim_end (String c (trim_end s)) = String c (trim_end s)).
    cbn. rewrite IH. by destruct (trim_end s).
Qed.

Lemma trim_start_trim_end s : trim_start (trim_end (trim_start s)) = trim_end (trim_start s).
Proof.
  induction s as [|c s IH]; [done|]. cbn [trim_start].
  destruct (js_space c) eqn:Hc; [done|]. by apply trim_end_trim_start_cons.
Qed.

Lemma trim_idem s : trim (trim s) = trim s.
Proof. unfold trim. by rewrite trim_start_trim_end, trim_end_idem. Qed.

Lemma str_leb_refl a : str_leb a a = true.
Proof. induction a as [|c a IH]; [done|]. cbn. by rewrite N.ltb_irrefl. Qed.

Lemma str_leb_total a b : str_leb a b = true \/ str_leb b a = true.
Proof.
  revert b. induction a as [|c a IH]; intros [|d b]; cbn; [by left..|by right|].
  destruct (N.ltb_spec (N_of_ascii c) (N_of_ascii d)); [by left|].
  destruct (N.ltb_spec (N_of_ascii d) (N_of_ascii c)); [by right|]. apply IH.
Qed.

Lemma N_of_ascii_inj c d : N_of_ascii c = N_of_ascii d -> c = d.
Proof. intros H. by rewrite <- (ascii_N_embedding c), H, ascii_N_embedding. Qed.

Lemma str_leb_antisym a b : str_leb a b = true -> str_leb b a = true -> a = b.
Proof.
  revert b. induction a as [|c a IH]; intros [|d b]; cbn; try done.
  destruct (N.ltb_spec (N_of_ascii c) (N_of_ascii d));
    destruct (N.ltb_spec (N_of_ascii d) (N_of_ascii c)); try done; try lia.
  intros H1 H2. rewrite (IH b) by done. f_equal. apply N_of_ascii_inj. lia.
Qed.

Lemma str_leb_trans a b c : str_leb a b = true -> str_leb b c = true -> str_leb a c = true.
Proof.
  revert b c. induction a as [|x a IH]; intros [|y b] [|z c]; cbn; try done.
  repeat match goal with |- context [(?u <? ?v)%N] => destruct (N.ltb_spec u v) end;
    try done; try lia. apply IH.
Qed.

(** * Lemmas: maps and sets *)

Lemma Map_get_set_eq {V} k (v : V) m : Map_get k (Map_set k v m) = Some v.
Proof.
  induction m as [|[k' v'] m IH]; cbn; [by rewrite String.eqb_refl|].
  destruct (k =s k') eqn:E; cbn; by rewrite E.
Qed.

Lemma Map_get_set_ne {V} k k' (v : V) m :
  k <> k' -> Map_get k (Map_set k' v m) = Map_get k m.
Proof.
  intros Hne. induction m as [|[j w] m IH]; cbn.
  - apply String.eqb_neq in Hne. by rewrite Hne.
  - destruct (k' =s j) eqn:E; cbn; [|by rewrite IH].
    apply String.eqb_eq in E as ->. apply String.eqb_neq in Hne. by rewrite Hne.
Qed.

Lemma Map_set_keys {V} k (v : V) m x :
  x ∈ (Map_set k v m).*1 <-> x = k \/ x ∈ m.*1.
Proof.
  induction m as [|[j w] m IH]; cbn; [set_solver|].
  destruct (k =s j) eqn:E; cbn; [apply String.eqb_eq in E as ->|]; set_solver.
Qed.

Lemma Map_set_nodup {V} k (v : V) m : NoDup m.*1 -> NoDup (Map_set k v m).*1.
Proof.
  induction m as [|[j w] m IH]; cbn; intros H.
  - apply NoDup_singleton.
  - apply NoDup_cons in H as [Hj Hm]. destruct (k =s j) eqn:E; cbn; [by constructor|].
    apply String.eqb_neq in E. constructor; [|by apply IH].
    rewrite Map_set_keys. intros [->|?]; [done|by apply Hj].
Qed.

Lemma str_mem_In s l : str_mem s l = true <-> In s l.
Proof.
  unfold str_mem. rewrite existsb_exists. split.
  - intros (x & Hin & E). by apply String.eqb_eq in E as ->.
  - intros Hin. exists s. by rewrite String.eqb_refl.
Qed.

Lemma str_mem_false s l : str_mem s l = false <-> ~ In s l.
Proof. rewrite <- str_mem_In. by destruct (str_mem s l). Qed.

Lemma Set_new_acc values acc x :
  In x (fold_left (fun acc v => if str_mem v acc then acc else acc ++ [v]) values acc)
  <-> In x acc \/ In x values.
Proof.
  revert acc. induction values as [|v vs IH]; intros acc; cbn; [tauto|].
  rewrite IH. destruct (str_mem v acc) eqn:E.
  - apply str_mem_In in E. split; [tauto|]. by intros [?|[<-|?]]; auto.
  - rewrite in_app_iff. cbn. tauto.
Qed.

Lemma Set_new_In values x : In x (Set_new values) <-> In x values.
Proof. unfold Set_new. rewrite Set_new_acc. cbn. tauto. Qed.

Lemma Set_new_nodup values : NoDup (Set_new values).
Proof.
  unfold Set_new. enough (forall acc, NoDup acc -> NoDup (fold_left
    (fun acc v => if str_mem v acc then acc else acc ++ [v]) values acc)) as He
    by (apply He; constructor).
  induction values as [|v vs IH]; intros acc H; cbn; [done|].
  apply IH. destruct (str_mem v acc) eqn:E; [done|]. apply NoDup_app. repeat split; [done| |].
  - intros x Hx ->%list_elem_of_singleton. apply str_mem_false in E.
    by apply E, list_elem_of_In.
  - apply NoDup_singleton.
Qed.

Lemma Map_get_In {V} k (v : V) m : Map_get k m = Some v -> In (k, v) m.
Proof.
  induction m as [|[j w] m IH]; cbn; [done|].
  destruct (k =s j) eqn:E; [apply String.eqb_eq in E as ->|]; naive_solver.
Qed.

Lemma Map_get_None {V} k (m : list (string * V)) : Map_get k m = None <-> k ∉ m.*1.
Proof.
  induction m as [|[j w] m IH]; cbn; [set_solver|].
  destruct (k =s j) eqn:E; [apply String.eqb_eq in E as ->; set_solver|].
  apply String.eqb_neq in E. rewrite IH. set_solver.
Qed.

Lemma Map_get_nodup {V} k (v : V) m : NoDup m.*1 -> (k, v) ∈ m -> Map_get k m = Some v.
Proof.
  induction m as [|[j w] m IH]; cbn; intros Hn Hin; [set_solver|].
  apply NoDup_cons in Hn as [Hj Hm]. apply elem_of_cons in Hin as [[= -> ->]|Hin].
  - by rewrite String.eqb_refl.
  - destruct (k =s j) eqn:E; [|by apply IH].
    apply String.eqb_eq in E as ->. destruct Hj. apply list_elem_of_fmap. by exists (j, v).
Qed.

Lemma Map_set_fresh {V} k (v : V) m : k ∉ m.*1 -> Map_set k v m = m ++ [(k, v)].
Proof.
  induction m as [|[j w] m IH]; cbn; intros H; [done|].
  apply not_elem_of_cons in H as [Hne H]. apply String.eqb_neq in Hne. by rewrite Hne, IH.
Qed.

(** [new Map(entries)] of entries with distinct keys is those entries. *)
Lemma Map_new_nodup {V} (l : list (string * V)) : NoDup l.*1 -> Map_new l = l.
Proof.
  unfold Map_new. enough (forall acc, NoDup (acc ++ l).*1 ->
    fold_left (fun m e => Map_set e.1 e.2 m) l acc = acc ++ l) as H by exact (H []).
  induction l as [|[k v] l IH]; intros acc Hn; cbn; [by rewrite app_nil_r|].
  rewrite Map_set_fresh.
  - rewrite IH; [by rewrite <- app_assoc|]. by rewrite <- app_assoc.
  - rewrite fmap_app in Hn. cbn in Hn. apply NoDup_app in Hn as (_ & Hd & _).
    intros Hin. apply (Hd k Hin). by left.
Qed.

Lemma find_index_Some {A} (p : A -> bool) l i :
  find_index p l = Some i -> exists x, l !! i = Some x /\ p x = true.
Proof.
  revert i. induction l as [|y l IH]; intros i H; cbn in H; [done|].
  destruct (p y) eqn:E; [injection H as <-; by exists y|].
  destruct (find_index p l); [|done]. injection H as <-. by apply IH.
Qed.

Lemma find_index_None {A} (p : A -> bool) l :
  find_index p l = None -> forall x, x ∈ l -> p x = false.
Proof.
  induction l as [|y l IH]; intros H x Hx; [set_solver|]. cbn in H.
  destruct (p y) eqn:E; [done|]. destruct (find_index p l); [done|].
  apply elem_of_cons in Hx as [->|Hx]; [done|by apply IH].
Qed.

(** Elements of a list with distinct keys are determined by their key. *)
Lemma NoDup_map_inj {A B} (g : A -> B) l x y :
  NoDup (map g l) -> In x l -> In y l -> g x = g y -> x = y.
Proof.
  intros Hn [i Hi]%list_elem_of_In%list_elem_of_lookup [j Hj]%list_elem_of_In%list_elem_of_lookup Heq.
  assert (i = j) as ->; [|congruence].
  apply (NoDup_lookup _ _ _ (g x) Hn); rewrite list_lookup_fmap; [rewrite Hi|rewrite Hj];
    cbn; by f_equal.
Qed.

(** Sublists of a list without duplicates are determined by their elements. *)
Lemma sublist_determined {A} (l l1 l2 : list A) :
  NoDup l -> l1 `sublist_of` l -> l2 `sublist_of` l ->
  (forall x, x ∈ l1 <-> x ∈ l2) -> l1 = l2.
Proof.
  revert l1 l2. induction l as [|x l IH]; intros l1 l2 Hn H1 H2 Heq.
  - apply sublist_nil_r in H1 as ->. by apply sublist_nil_r in H2 as ->.
  - apply NoDup_cons in Hn as [Hx Hn].
    assert (Hin : forall y l', l' `sublist_of` l -> y ∈ l' -> y ∈ l)
      by (intros y l' Hl Hy; eapply elem_of_submseteq; [exact Hy|by apply sublist_submseteq]).
    apply sublist_cons_r in H1 as [H1|(l1' & -> & H1)];
      apply sublist_cons_r in H2 as [H2|(l2' & -> & H2)].
    + by apply IH.
    + destruct Hx. apply (Hin _ l1 H1), Heq. by left.
    + destruct Hx. apply (Hin _ l2 H2), Heq. by left.
    + f_equal. apply IH; [done..|]. intros y.
      specialize (Heq y). rewrite !elem_of_cons in Heq.
      assert (y ∈ l1' -> y <> x) by (intros Hy ->; by apply Hx, (Hin _ l1')).
      assert (y ∈ l2' -> y <> x) by (intros Hy ->; by apply Hx, (Hin _ l2')). naive_solver.
Qed.

(** * Lemmas: stable sorting *)
Section sorting.
Context {A : Type} (le : A -> A -> bool).
Abbreviation leP := (fun x y => le x y = true).

Lemma sort_insert_perm x l : sort_insert le x l ≡ₚ x :: l.
Proof.
  induction l as [|y l IH]; cbn; [done|].
  destruct (le x y); [done|]. rewrite IH. constructor.
Qed.

Lemma js_sort_perm l : js_sort le l ≡ₚ l.
Proof. induction l as [|x l IH]; cbn; [done|]. by rewrite sort_insert_perm, IH. Qed.

Lemma sort_insert_below x l :
  Forall (fun y => le x y = true) l -> sort_insert le x l = x :: l.
Proof. destruct 1 as [|y l Hy _]; cbn; by rewrite ?Hy. Qed.

(** A list that is sorted already is left as it is. *)
Lemma js_sort_sorted_id l : StronglySorted leP l -> js_sort le l = l.
Proof.
  unfold js_sort. induction 1 as [|x l _ IH Hx]; cbn; [done|].
  rewrite IH. by apply sort_insert_below.
Qed.

Hypothesis le_total : forall x y, le x y = true \/ le y x = true.
Hypothesis le_trans : forall x y z, le x y = true -> le y z = true -> le x z = true.

Lemma sort_insert_sorted x l :
  StronglySorted leP l -> StronglySorted leP (sort_insert le x l).
Proof.
  induction 1 as [|y l Hs IH Hy]; cbn; [by repeat constructor|].
  destruct (le x y) eqn:E.
  - constructor; [by constructor|]. constructor; [done|].
    eapply Forall_impl; [exact Hy|]. cbn. eauto.
  - constructor; [done|]. rewrite sort_insert_perm. constructor; [|done].
    destruct (le_total x y); congruence.
Qed.

Lemma js_sort_sorted l : StronglySorted leP (js_sort le l).
Proof. induction l; cbn; [constructor|]. by apply sort_insert_sorted. Qed.

Lemma js_sort_idem l : js_sort le (js_sort le l) = js_sort le l.
Proof. apply js_sort_sorted_id, js_sort_sorted. Qed.

(** With an antisymmetric order the result depends on the elements only. *)
Lemma js_sort_perm_eq l l' :
  (forall x y, le x y = true -> le y x = true -> x = y) ->
  l ≡ₚ l' -> js_sort le l = js_sort le l'.
Proof.
  intros Hanti Hp.
  assert (Hall : js_sort le l ≡ₚ js_sort le l') by by rewrite !js_sort_perm.
  revert Hall. generalize (js_sort_sorted l) (js_sort_sorted l').
  generalize (js_sort le l) (js_sort le l'). clear Hp l l'.
  intros l1 l2 H1. revert l2. induction H1 as [|x l Hs IH Hx]; intros l2 H2 Hp.
  - by apply Permutation_nil_l in Hp.
  - destruct H2 as [|y l2 Hs2 Hy]; [by apply Permutation_nil_r in Hp|].
    assert (x = y) as <-.
    { assert (x ∈ y :: l2) as Hxy by (rewrite <- Hp; by left).
      assert (y ∈ x :: l) as Hyx by (rewrite Hp; by left).
      rewrite Forall_forall in Hx, Hy.
      apply elem_of_cons in Hxy as [?|Hxy]; [done|].
      apply elem_of_cons in Hyx as [?|Hyx]; [done|].
      apply Hanti; [by apply Hx|by apply Hy]. }
    f_equal. apply IH; [done|]. by apply Permutation_cons_inv in Hp.
Qed.
End sorting.

(** * Lemmas: rounding *)

Lemma fl_small z : Z.abs z < 2 ^ 53 -> fl z = z.
Proof.
  intros H. unfold fl. destruct (Z.leb_spec (Z.log2 (Z.abs z) - 52) 0) as [|Hgt]; [done|].
  destruct (Z.eq_dec z 0) as [->|Hz]; [done|].
  assert (Z.log2 (Z.abs z) < 53) by (apply Z.log2_lt_pow2; lia). lia.
Qed.

Lemma round_half_even_ge m p : 0 < p -> m - m mod p <= round_half_even m p.
Proof.
  intros Hp. unfold round_half_even.
  pose proof (Z.div_mod m p ltac:(lia)). pose proof (Z.mod_pos_bound m p Hp).
  repeat case_match; nia.
Qed.

(** Rounding never brings an unsafe sum back into the safe range. *)
Lemma fl_large z : 2 ^ 53 <= z -> 2 ^ 53 <= fl z.
Proof.
  intros H. unfold fl. rewrite (Z.abs_eq z), (Z.sgn_pos z) by lia.
  set (e := Z.log2 z - 52). destruct (Z.leb_spec e 0); [done|].
  assert (Hlog : 53 <= Z.log2 z) by (apply Z.log2_le_pow2; lia).
  assert (He : 2 ^ Z.log2 z <= z) by (apply Z.log2_spec; lia).
  assert (Hp : 0 < 2 ^ e) by (apply Z.pow_pos_nonneg; lia).
  pose proof (round_half_even_ge z (2 ^ e) Hp).
  assert (Hdiv : 2 ^ Z.log2 z = 2 ^ 52 * 2 ^ e)
    by (rewrite <- Z.pow_add_r by lia; f_equal; lia).
  assert (Hge : 2 ^ Z.log2 z <= z - z mod 2 ^ e).
  { rewrite Hdiv. pose proof (Z.div_mod z (2 ^ e) ltac:(lia)).
    assert (2 ^ 52 <= z / 2 ^ e) by (apply Z.div_le_lower_bound; lia). nia. }
  assert (2 ^ 53 <= 2 ^ Z.log2 z) by (apply Z.pow_le_mono_r; lia). lia.
Qed.

#[export] Hint Resolve String.eqb_refl str_leb_refl str_leb_total str_leb_trans : js.
#[export] Hint Rewrite trim_idem or_str_idem @Map_get_set_eq : js.
