(* ===== verification/Json.v ===== *)
(** JSON values as [JSON.parse] yields them, and the readers the control plane
    applies to values of type [unknown]. *)
From stdpp Require Import base list strings.
From Stdlib Require Import ZArith Lia Ascii String.
From S2P Require Import Prelude.

Open Scope string_scope.
Open Scope list_scope.
Open Scope Z_scope.

(** A number as the code can tell it apart: an integral double ([-0] is [0]),
    a non-integral one by its floor and whether its fraction is a half or more
    (what [Math.floor], [Math.trunc] and [Math.round] see), or an overflow to
    infinity (as in ["1e999"]). [JSON.parse] never yields NaN. *)
Inductive num : Type :=
| NInt (z : Z)
| NFrac (floor : Z) (upper : bool)
| NInf (negative : bool).

#[export] Instance num_eq_dec : EqDecision num.
Proof. solve_decision. Defined.

Inductive json : Type :=
| JNull
| JBool (b : bool)
| JNum (n : num)
| JStr (s : string)
| JArr (items : list json)
| JObj (fields : list (string * json)).

#[export] Instance json_eq_dec : EqDecision json.
Proof.
  refine (fix go (a b : json) {struct a} : {a = b} + {a <> b} :=
    match a, b with
    | JNull, JNull => left eq_refl
    | JBool x, JBool y => cast_if (decide (x = y))
    | JNum x, JNum y => cast_if (decide (x = y))
    | JStr x, JStr y => cast_if (decide (x = y))
    | JArr x, JArr y => cast_if (List.list_eq_dec go x y)
    | JObj x, JObj y =>
        cast_if (List.list_eq_dec (fun p q : string * json =>
          match p, q with
          | (k, v), (k', v') =>
              match decide (k = k') with
              | left e => match go v v' with
                          | left e' => left (f_equal2 pair e e')
                          | right n => right _
                          end
              | right n => right _
              end
          end) x y)
    | _, _ => right _
    end); congruence.
Defined.

(** [Math.trunc] and [Math.round] of a finite number. *)
Definition num_trunc (n : num) : option Z :=
  match n with
  | NInt z => Some z
  | NFrac f _ => Some (if 0 <=? f then f else f + 1)
  | NInf _ => None
  end.
Definition num_round (n : num) : option Z :=
  match n with
  | NInt z => Some z
  | NFrac f upper => Some (if upper then f + 1 else f)
  | NInf _ => None
  end.

(** [value.key] on a record: [None] is [undefined]. *)
Definition field (v : json) (k : string) : option json :=
  match v with JObj fs => Map_get k fs | _ => None end.

Definition isRecord (v : option json) : bool :=
  match v with Some (JObj _) => true | _ => false end.

(** [readString]: the trimmed text of a string that has some. *)
Definition readString (v : option json) : option string :=
  match v with Some (JStr s) => or_null (trim s) | _ => None end.
