(* ===== verification/Text.v ===== *)
(** Text of numbers and of JSON strings: the decimal digits a template literal
    prints, the [\d{1,n}] groups the code reads back with [Number], character
    classes of its regular expressions, and [JSON.stringify] on strings. *)
From stdpp Require Import base list strings pretty.
From Stdlib Require Import ZArith Lia Ascii String.
From S2P Require Import Prelude.

Open Scope string_scope.
Open Scope list_scope.
Open Scope Z_scope.

(** * Decimal digits *)

Definition digit_value (c : ascii) : option Z :=
  let n := Z.of_N (N_of_ascii c) in
  if (48 <=? n) && (n <=? 57) then Some (n - 48) else None.

(** The value of a run of digits after a prefix of value [acc]; [None] when a
    character is not a digit. *)
Fixpoint digits_value (acc : Z) (s : string) : option Z :=
  match s with
  | EmptyString => Some acc
  | String c s' =>
      match digit_value c with
      | Some d => digits_value (10 * acc + d) s'
      | None => None
      end
  end.

(** [Number] of a [\d{1,max}] group that is the whole of [s]. *)
Definition parse_digits (max : nat) (s : string) : option Z :=
  if (1 <=? String.length s)%nat && (String.length s <=? max)%nat
  then digits_value 0 s else None.

(** [/^(\d{1,max})x(\d{1,max})$/]: the two numbers of a ["COLSxROWS"] text. *)
Definition parse_size (max : nat) (s : string) : option (Z * Z) :=
  match str_split "x"%char s with
  | [a; b] =>
      match parse_digits max a, parse_digits max b with
      | Some x, Some y => Some (x, y)
      | _, _ => None
      end
  | _ => None
  end.

(** [`${cols}x${rows}`]. *)
Definition print_size (cols rows : Z) : string := pretty cols +:+ "x" +:+ pretty rows.

(** [s.length]. *)
Definition slen (s : string) : Z := Z.of_nat (String.length s).

(** * Character classes *)

Definition is_alnum (n : N) : bool :=
  in_range 48 57 n || in_range 65 90 n || in_range 97 122 n.
(** [[A-Za-z0-9_-]]. *)
Definition base64url_unit (n : N) : bool := is_alnum n || (n =? 95)%N || (n =? 45)%N.

(** [/^[class]{lo,hi}$/.test(s)]. *)
Definition matches_class (class : N -> bool) (lo hi : nat) (s : string) : bool :=
  (lo <=? String.length s)%nat && (String.length s <=? hi)%nat && forallb class (code_units s).

(** * [JSON.stringify] of a string *)

Definition hex_digit (n : N) : ascii :=
  ascii_of_N (if (n <? 10)%N then 48 + n else 87 + n)%N.

(** A code unit inside a JSON string: the short escapes, [\u00XX] for the other
    controls, and every other unit as it is. *)
Definition json_escape (c : ascii) : string :=
  let n := N_of_ascii c in
  let esc x := String "\"%char (String x EmptyString) in
  if (n =? 34)%N then esc (ascii_of_N 34)
  else if (n =? 92)%N then esc "\"%char
  else if (n =? 8)%N then esc "b"%char
  else if (n =? 12)%N then esc "f"%char
  else if (n =? 10)%N then esc "n"%char
  else if (n =? 13)%N then esc "r"%char
  else if (n =? 9)%N then esc "t"%char
  else if (n <? 32)%N then
    "\u00" +:+ String (hex_digit (n / 16)) (String (hex_digit (n mod 16)) EmptyString)
  else String c EmptyString.

Fixpoint json_escaped (s : string) : string :=
  match s with
  | EmptyString => EmptyString
  | String c s' => json_escape c +:+ json_escaped s'
  end.
Definition double_quote : string := String (ascii_of_N 34) EmptyString.
Definition quote_json (s : string) : string := double_quote +:+ json_escaped s +:+ double_quote.

(** * Lemmas *)

Lemma digit_value_pretty (n : N) :
  (n < 10)%N -> digit_value (pretty_N_char n) = Some (Z.of_N n).
Proof.
  intros H. assert (Hall : forallb (fun i => bool_decide (digit_value (pretty_N_char (N.of_nat i))
    = Some (Z.of_nat i))) (seq 0 10) = true) by (vm_compute; reflexivity).
  rewrite forallb_forall in Hall. specialize (Hall (N.to_nat n)).
  rewrite in_seq, bool_decide_eq_true, N2Nat.id, N_nat_Z in Hall. apply Hall. lia.
Qed.

Lemma digits_value_pretty_go (n : N) s :
  digits_value 0 (pretty_N_go n s) = digits_value (Z.of_N n) s.
Proof.
  revert s. induction (N.lt_wf_0 n) as [n _ IH]; intros s.
  destruct (decide (n = 0)%N) as [->|Hn]; [by rewrite pretty_N_go_0|].
  rewrite pretty_N_go_step, IH by (try lia; apply N.div_lt; lia).
  cbn [digits_value]. rewrite digit_value_pretty by (apply N.mod_lt; lia).
  f_equal. rewrite N2Z.inj_div, N2Z.inj_mod.
  pose proof (Z.div_mod (Z.of_N n) 10 ltac:(lia)). cbn in *. lia.
Qed.

Lemma digits_value_pretty z : 0 <= z -> digits_value 0 (pretty z) = Some z.
Proof.
  destruct z as [|p|p]; intros H; [done| |lia].
  change (pretty (Zpos p)) with (pretty (Npos p)). unfold pretty, pretty_N.
  rewrite decide_False by done. by rewrite digits_value_pretty_go.
Qed.

Lemma pretty_N_go_length (k : nat) (n : N) s :
  (n < 10 ^ N.of_nat k)%N ->
  (String.length (pretty_N_go n s) <= k + String.length s)%nat.
Proof.
  revert n s. induction k as [|k IH]; intros n s H.
  - assert (n = 0)%N as -> by (cbn in H; lia). by rewrite pretty_N_go_0.
  - destruct (decide (n = 0)%N) as [->|Hn]; [rewrite pretty_N_go_0; lia|].
    rewrite pretty_N_go_step by lia. etransitivity; [apply IH|cbn; lia].
    rewrite Nnat.Nat2N.inj_succ, N.pow_succ_r' in H. apply N.Div0.div_lt_upper_bound. lia.
Qed.

Lemma pretty_N_go_nonempty n s :
  (0 < n)%N \/ s <> "" -> (1 <= String.length (pretty_N_go n s))%nat.
Proof.
  revert s. induction (N.lt_wf_0 n) as [n _ IH]; intros s H.
  destruct (decide (n = 0)%N) as [->|Hn].
  - rewrite pretty_N_go_0. destruct H as [?|H]; [lia|]. destruct s; cbn; [done|lia].
  - rewrite pretty_N_go_step by lia. apply IH; [apply N.div_lt; lia|by right].
Qed.

Lemma parse_digits_pretty (max : nat) z :
  (1 <= max)%nat -> 0 <= z < 10 ^ Z.of_nat max -> parse_digits max (pretty z) = Some z.
Proof.
  intros Hm Hz. unfold parse_digits. rewrite digits_value_pretty by lia.
  assert (1 <= String.length (pretty z) <= max)%nat as [H1 H2].
  { destruct z as [|p|p]; [by split|split|lia];
      change (pretty (Zpos p)) with (pretty (Npos p)); unfold pretty, pretty_N;
      rewrite decide_False by done.
    - apply pretty_N_go_nonempty. by left.
    - etransitivity; [apply (pretty_N_go_length max)|cbn; lia].
      apply N2Z.inj_lt. rewrite N2Z.inj_pow, nat_N_Z. cbn. lia. }
  apply Nat.leb_le in H1, H2. by rewrite H1, H2.
Qed.

(** No digit is a separator, so a printed size splits where it was joined. *)
Fixpoint unit_free (c : ascii) (s : string) : bool :=
  match s with
  | EmptyString => true
  | String d s' => negb (Ascii.eqb d c) && unit_free c s'
  end.

Lemma digits_unit_free c acc s z :
  digit_value c = None -> digits_value acc s = Some z -> unit_free c s = true.
Proof.
  intros Hc. revert acc. induction s as [|d s IH]; intros acc H; [done|]. cbn in *.
  destruct (digit_value d) eqn:E; [|done]. rewrite (IH _ H), andb_true_r.
  apply negb_true_iff, Ascii.eqb_neq. intros ->. congruence.
Qed.

Lemma str_split_free c s : unit_free c s = true -> str_split c s = [s].
Proof.
  induction s as [|d s IH]; [done|]. cbn. intros [Hd Hs]%andb_true_iff.
  apply negb_true_iff in Hd. by rewrite Hd, IH.
Qed.

Lemma str_split_join c a b :
  unit_free c a = true -> str_split c (a +:+ String c b) = a :: str_split c b.
Proof.
  induction a as [|d a IH]; cbn [str_split unit_free String.append].
  { intros _. change (str_split c (String c b) = "" :: str_split c b).
    cbn [str_split]. by rewrite Ascii.eqb_refl. }
  change (String d a +:+ String c b) with (String d (a +:+ String c b)).
  cbn [str_split].
  intros [Hd Hs]%andb_true_iff. apply negb_true_iff in Hd. by rewrite Hd, IH.
Qed.

(** Reading a printed size gives the two numbers back. *)
Lemma parse_print_size (max : nat) x y :
  (1 <= max)%nat -> 0 <= x < 10 ^ Z.of_nat max -> 0 <= y < 10 ^ Z.of_nat max ->
  parse_size max (print_size x y) = Some (x, y).
Proof.
  intros Hm Hx Hy. unfold parse_size, print_size.
  assert (Hf : forall z, 0 <= z -> unit_free "x"%char (pretty z) = true).
  { intros z Hz. eapply digits_unit_free; [done|by apply digits_value_pretty]. }
  change (pretty x +:+ "x" +:+ pretty y) with (pretty x +:+ String "x"%char (pretty y)).
  rewrite str_split_join, str_split_free by (apply Hf; lia).
  by rewrite !parse_digits_pretty.
Qed.

Lemma pretty_Z_inj (x y : Z) : 0 <= x -> 0 <= y -> pretty x = pretty y -> x = y.
Proof.
  intros Hx Hy H. pose proof (digits_value_pretty x Hx) as E. rewrite H in E.
  rewrite digits_value_pretty in E by done. by injection E.
Qed.

Lemma slen_app a b : slen (a +:+ b) = slen a + slen b.
Proof. unfold slen. induction a as [|c a IH]; [done|].
  change (String.length (String c a +:+ b)) with (S (String.length (a +:+ b))).
  change (String.length (String c a)) with (S (String.length a)). lia.
Qed.

Lemma str_app_assoc (a b c : string) : a +:+ (b +:+ c) = (a +:+ b) +:+ c.
Proof.
  induction a as [|d a IH]; [done|].
  change (String d (a +:+ (b +:+ c)) = String d ((a +:+ b) +:+ c)).
  by rewrite IH.
Qed.

Lemma slen_nonneg s : 0 <= slen s.
Proof. unfold slen. lia. Qed.

Lemma slen_zero s : slen s = 0 -> s = "".
Proof. destruct s; unfold slen; cbn; [done|lia]. Qed.

Lemma pretty_free c (z : Z) :
  digit_value c = None -> c <> "-"%char -> unit_free c (pretty z) = true.
Proof.
  intros Hc Hm. destruct (Z.le_gt_cases 0 z) as [Hz|Hz].
  - eapply digits_unit_free; [done|by apply digits_value_pretty].
  - destruct z as [|p|p]; [lia|lia|].
    change (pretty (Zneg p)) with ("-" +:+ pretty (Npos p)).
    change ("-" +:+ pretty (Npos p)) with (String "-"%char (pretty (Zpos p))).
    cbn [unit_free]. apply andb_true_iff.
    split; [apply negb_true_iff, Ascii.eqb_neq; congruence|].
    eapply digits_unit_free; [done|by apply digits_value_pretty].
Qed.

Lemma unit_free_app c a b : unit_free c (a +:+ b) = unit_free c a && unit_free c b.
Proof.
  induction a as [|d a IH]; [done|].
  change (String d a +:+ b) with (String d (a +:+ b)). cbn [unit_free]. by rewrite IH, andb_assoc.
Qed.

Lemma app_free_inj c a a' b b' :
  unit_free c a = true -> unit_free c a' = true ->
  a +:+ String c b = a' +:+ String c b' -> a = a' /\ b = b'.
Proof.
  revert a'. induction a as [|d a IH]; intros [|d' a'] Ha Ha' H; cbn [unit_free] in *.
  - by injection H.
  - change (String c b = String d' (a' +:+ String c b')) in H. injection H as <- _.
    by rewrite Ascii.eqb_refl in Ha'.
  - change (String d (a +:+ String c b) = String c b') in H. injection H as <- _.
    by rewrite Ascii.eqb_refl in Ha.
  - change (String d (a +:+ String c b) = String d' (a' +:+ String c b')) in H.
    injection H as <- H. apply andb_true_iff in Ha as [_ Ha], Ha' as [_ Ha'].
    by destruct (IH a' Ha Ha' H) as [-> ->].
Qed.
