(* ===== verification/RunState.v ===== *)
(** Run state documents: apps/web/src/lib/run-state.ts and
    apps/web/src/lib/verification-copy.ts. *)
From stdpp Require Import base list strings.
From Stdlib Require Import ZArith Lia.
From S2P Require Import Prelude Json.

Open Scope string_scope.
Open Scope list_scope.
Open Scope Z_scope.

(** * Data *)

Inductive RunPhase : Type :=
| run_queued | run_provisioning | run_active_partial | run_active_full | run_solved
| run_teardown_requested | run_tearing_down | run_archiving | run_completed | run_failed.

Inductive VmPhase : Type :=
| vm_queued | vm_launching | vm_booting | vm_ready | vm_solved
| vm_destroying | vm_archived | vm_completed | vm_failed.

Inductive TerminalPhase : Type := term_pending | term_ready | term_failed.
Inductive ProbePhase : Type := probe_boot | probe_scenario.
Inductive ProvisioningStatus : Type := prov_pending | prov_provisioning | prov_queued | prov_failed.

#[export] Instance RunPhase_eq_dec : EqDecision RunPhase.
Proof. solve_decision. Defined.
#[export] Instance VmPhase_eq_dec : EqDecision VmPhase.
Proof. solve_decision. Defined.
#[export] Instance TerminalPhase_eq_dec : EqDecision TerminalPhase.
Proof. solve_decision. Defined.
#[export] Instance ProbePhase_eq_dec : EqDecision ProbePhase.
Proof. solve_decision. Defined.
#[export] Instance ProvisioningStatus_eq_dec : EqDecision ProvisioningStatus.
Proof. solve_decision. Defined.

Record ScenarioProbeStatus : Type := mkProbe {
  probe_id : string;
  probe_label : string;
  probe_kind : string;
  probe_phase : ProbePhase;
  probe_status : string;
  probe_error : option string;
  probe_value : json;
}.

Record ScenarioReplayArtifact : Type := mkArtifact {
  art_id : string;
  art_hostId : string;
  art_runId : string;
  art_vmId : string;
  art_kind : string;
  art_filename : string;
  art_contentType : string;
  art_sizeBytes : Z;
}.

Record SessionTimelineEntry : Type := mkSessionEntry {
  ses_index : Z;
  ses_startTimestampMs : Z;
  ses_durationMs : Z;
  ses_exitCode : option Z;
  ses_castFilename : string;
  ses_castArtifactId : option string;
  ses_transcriptTruncated : bool;
}.

Record TerminalTarget : Type := mkTarget {
  tgt_host : option string;
  tgt_port : Z;
  tgt_username : string;
  tgt_hostKeyOpenssh : option string;
  tgt_checkedAt : option Z;
}.

Record RuntimeConstraintsEvidence : Type := mkConstraints {
  rc_generation : string;
  rc_cpuMillis : Z;
  rc_quotaVerifiedAt : option Z;
}.

(** [VmResourceStateV3] of the bridge contract. *)
Record VmResourceState : Type := mkResourceState {
  rs_cpu_millis : Z;
  rs_cpu_quota_us : Z;
  rs_cpu_period_us : Z;
  rs_cpu_usage_usec : Z;
  rs_cpu_user_usec : Z;
  rs_cpu_system_usec : Z;
  rs_cpu_nr_periods : Z;
  rs_cpu_nr_throttled : Z;
  rs_cpu_throttled_usec : Z;
}.

Inductive ImageArchitecture : Type := arch_x86_64 | arch_aarch64.
Record ImageKey : Type := mkImageKey {
  ik_scenario : string;
  ik_vm : string;
  ik_arch : ImageArchitecture;
}.

Record VmResourcesSpec : Type := mkResourcesSpec {
  res_cpuMillis : Z;
  res_memoryMib : Z;
  res_diskMib : Z;
}.

Record RunVmProvisioningSpec : Type := mkProvisioning {
  prov_image : option string;
  prov_imageKey : option ImageKey;
  prov_imageSha256 : option string;
  prov_resources : option VmResourcesSpec;
  prov_leaseDurationSeconds : option Z;
  prov_groupName : option string;
  prov_groupId : option string;
  prov_setupKeyId : option string;
  prov_status : ProvisioningStatus;
  prov_error : option string;
}.

(** [ScenarioLaunchSummary] of scenario-model.ts, which this code only reads
    the probe descriptors of. *)
Record ProbeDescriptor : Type := mkDescriptor {
  pd_id : string;
  pd_label : string;
  pd_kind : string;
  pd_phase : ProbePhase;
}.
Record ScenarioLaunchSummary : Type := mkSummary {
  sum_scenarioVmName : string;
  sum_hostname : string;
  sum_probePhaseMap : list (string * ProbePhase);
  sum_probeDescriptors : list ProbeDescriptor;
}.

(** [vm_legacy] holds the untyped properties a stored document may still carry
    beside the typed ones. *)
Record RunVmStateDocument : Type := mkVm {
  vm_id : string;
  vm_ordinal : Z;
  vm_scenarioVmId : string;
  vm_scenarioVmName : string;
  vm_runtimeVmName : string;
  vm_hostname : string;
  vm_phase : VmPhase;
  vm_phaseTitle : string;
  vm_phaseDetail : string;
  vm_progressPercent : Z;
  vm_terminalPhase : TerminalPhase;
  vm_terminalReason : option string;
  vm_terminalObservedAt : option Z;
  vm_canOpenTerminal : bool;
  vm_bootProbes : list ScenarioProbeStatus;
  vm_scenarioProbes : list ScenarioProbeStatus;
  vm_replayArtifacts : list ScenarioReplayArtifact;
  vm_sessionTimeline : option (list SessionTimelineEntry);
  vm_hasRecording : option bool;
  vm_terminalTarget : TerminalTarget;
  vm_runtimeConstraints : option RuntimeConstraintsEvidence;
  vm_resourceState : option VmResourceState;
  vm_retiredRuntimeGenerations : option (list string);
  vm_guestIp : option string;
  vm_launchSummary : ScenarioLaunchSummary;
  vm_runtimeState : option string;
  vm_runtimeObservedAt : option Z;
  vm_vmCreatedAt : option Z;
  vm_provisioning : RunVmProvisioningSpec;
  vm_legacy : list (string * json);
}.

Record CandidateRunSourceIdentityV1 : Type := mkCandidateSource {
  cand_revision : string;
  cand_buildId : string;
}.

Record RunStateDocument : Type := mkRun {
  run_phase : RunPhase;
  run_phaseTitle : string;
  run_phaseDetail : string;
  run_progressPercent : Z;
  run_terminalPhase : TerminalPhase;
  run_canOpenTerminal : bool;
  run_canDestroy : bool;
  run_bootProbes : list ScenarioProbeStatus;
  run_scenarioProbes : list ScenarioProbeStatus;
  run_replayArtifacts : list ScenarioReplayArtifact;
  run_terminalTarget : TerminalTarget;
  run_vms : list RunVmStateDocument;
  run_candidateSource : option CandidateRunSourceIdentityV1;
}.

(** The descriptor of a phase: title, detail and progress. *)
Record PhaseDescriptor : Type := mkDescriptorOf {
  desc_title : string;
  desc_detail : string;
  desc_progressPercent : Z;
}.

(** * Verification status *)

(** [isVerificationPassed], [None] for a null or undefined status. *)
Definition isVerificationPassed (status : option string) : bool :=
  match status with
  | None => false
  | Some s =>
      str_mem (toLowerCase (trim s))
        ["pass"; "passed"; "passing"; "ready"; "ok"; "success"; "succeeded"]
  end.

Definition verificationStatusLabel (status : string) : string :=
  if isVerificationPassed (Some status) then "Verified" else "Needs repair".

(** What a learner's browser may see of a probe. *)
Definition redactProbeResults (probes : list ScenarioProbeStatus) : list ScenarioProbeStatus :=
  map (fun p => mkProbe (probe_id p) (probe_label p) (probe_kind p) (probe_phase p)
                  (probe_status p) None JNull) probes.

(** * Phase orders *)

Definition RUN_PHASE_ORDER (p : RunPhase) : Z :=
  match p with
  | run_queued => 0
  | run_provisioning => 1
  | run_active_partial => 2
  | run_active_full => 3
  | run_solved => 4
  | run_teardown_requested => 5
  | run_tearing_down => 6
  | run_archiving => 7
  | run_completed => 8
  | run_failed => 8
  end.

Definition VM_PHASE_ORDER (p : VmPhase) : Z :=
  match p with
  | vm_queued => 0
  | vm_launching => 1
  | vm_booting => 2
  | vm_ready => 3
  | vm_solved => 4
  | vm_destroying => 5
  | vm_archived => 6
  | vm_completed => 7
  | vm_failed => 7
  end.

Definition canAdvanceRunPhase (current next : RunPhase) : bool :=
  RUN_PHASE_ORDER current <=? RUN_PHASE_ORDER next.

Definition canAdvanceVmPhase (current next : VmPhase) : bool :=
  VM_PHASE_ORDER current <=? VM_PHASE_ORDER next.

Definition runPhaseAcceptsTerminalSessions (p : RunPhase) : bool :=
  match p with
  | run_active_partial | run_active_full | run_solved => true
  | _ => false
  end.

Definition runPhaseAcceptsBrowserTerminalSessions (p : RunPhase) : bool :=
  bool_decide (p = run_provisioning) || runPhaseAcceptsTerminalSessions p.

(** * Terminal targets *)

Definition defaultTerminalTarget : TerminalTarget := mkTarget None 22 "ubuntu" None None.

Definition hasTerminalEndpoint (t : TerminalTarget) : bool :=
  truthy_opt (tgt_host t) && (0 <? tgt_port t).

(** * Descriptions of phases *)

Definition describeVmPhase (phase : VmPhase) (vm : RunVmStateDocument) : PhaseDescriptor :=
  match phase with
  | vm_queued =>
      mkDescriptorOf "Queued" (or_str (vm_phaseDetail vm) "Waiting for host delivery.") 5
  | vm_launching =>
      mkDescriptorOf "Launching"
        (or_str (vm_phaseDetail vm) "The launch request is in flight to the host.") 20
  | vm_booting =>
      mkDescriptorOf "Booting"
        (or_str (vm_phaseDetail vm) "Waiting for the VM to boot and initial probes to pass.") 40
  | vm_ready =>
      mkDescriptorOf "Ready"
        (or_str (vm_phaseDetail vm)
           (if hasTerminalEndpoint (vm_terminalTarget vm)
            then "The VM is ready for shell access."
            else "The VM is running and waiting for a shell target.")) 65
  | vm_solved =>
      mkDescriptorOf "Solved"
        (or_str (vm_phaseDetail vm) "All scenario probes are passing for this VM.") 80
  | vm_destroying =>
      mkDescriptorOf "Destroying"
        (or_str (vm_phaseDetail vm) "The host is tearing this VM down.") 88
  | vm_archived =>
      mkDescriptorOf "Archived"
        (or_str (vm_phaseDetail vm) "Local teardown finished. Final artifacts are archiving.") 96
  | vm_completed =>
      mkDescriptorOf "Completed" (or_str (vm_phaseDetail vm) "This VM is fully finished.") 100
  | vm_failed =>
      mkDescriptorOf "Failed" (or_str (vm_phaseDetail vm) "The VM failed to complete.") 100
  end.

(** [a?.x || b] over optional strings. *)
Definition or_opt (a : option string) (b : string) : string :=
  match a with Some s => or_str s b | None => b end.

Definition describeRunPhase (phase : RunPhase) (vms : list RunVmStateDocument)
    (currentDetail : string) : PhaseDescriptor :=
  match phase with
  | run_queued => mkDescriptorOf "Queued" "Waiting to hand the run to a host." 5
  | run_provisioning =>
      mkDescriptorOf "Provisioning" "Launching the run VMs and waiting for them to boot." 30
  | run_active_partial =>
      mkDescriptorOf "Partially ready"
        "At least one VM is usable. Other required VMs are still catching up." 55
  | run_active_full => mkDescriptorOf "Active" "All required VMs are ready." 70
  | run_solved =>
      mkDescriptorOf "Solved" "All required VMs are passing their scenario probes." 85
  | run_teardown_requested =>
      mkDescriptorOf "Teardown requested"
        (or_str currentDetail "Waiting for the host to acknowledge teardown.") 90
  | run_tearing_down =>
      mkDescriptorOf "Tearing down" "Destroying VMs and collecting final artifacts." 94
  | run_archiving => mkDescriptorOf "Archiving" "Final run artifacts are uploading." 97
  | run_completed => mkDescriptorOf "Completed" "The run has finished cleanly." 100
  | run_failed =>
      let failedVm := List.find (fun vm => bool_decide (vm_phase vm = vm_failed)) vms in
      mkDescriptorOf "Failed"
        (or_opt (failedVm ≫= vm_terminalReason)
           (or_opt (failedVm ≫= fun vm => prov_error (vm_provisioning vm))
              (or_opt (vm_phaseDetail <$> failedVm) "The run hit a terminal failure."))) 100
  end.

(** * VM decoration *)

(** The eight untyped properties [decorateVmState] deletes. *)
Definition deletedLegacyProperties : list string :=
  ["bootEvidence"; "workerDesiredDispatchAt"; "workerDesiredDispatchVersion";
   "workerTerminalReportReceivedAt"; "workerTerminalProjectionAckAt";
   "workerTerminalReceiptToProjectionAckMs"; "workerTerminalProjectionGeneration";
   "workerTerminalDesiredVersion"].

Definition sanitizeLegacy (fields : list (string * json)) : list (string * json) :=
  List.filter (fun f => negb (str_mem (fst f) deletedLegacyProperties)) fields.

Definition sanitizedTarget (vm : RunVmStateDocument) : TerminalTarget :=
  match vm_terminalPhase vm with
  | term_ready => vm_terminalTarget vm
  | _ => mkTarget None 22 (tgt_username (vm_terminalTarget vm)) None None
  end.

(** [{ ...vm, terminalTarget }]. *)
Definition with_target (vm : RunVmStateDocument) (t : TerminalTarget) : RunVmStateDocument :=
  let '(mkVm id ord svid svn rvn hn ph pt pd pp tp tr toa cot bp sp ra st hr _ rc rs rg ip ls rst roa vca pv lg) := vm in
  mkVm id ord svid svn rvn hn ph pt pd pp tp tr toa cot bp sp ra st hr t rc rs rg ip ls rst roa vca pv lg.

Definition decorateVmState (vm : RunVmStateDocument) : RunVmStateDocument :=
  let target := sanitizedTarget vm in
  let descriptor := describeVmPhase (vm_phase vm) (with_target vm target) in
  mkVm (vm_id vm) (vm_ordinal vm) (vm_scenarioVmId vm) (vm_scenarioVmName vm)
    (vm_runtimeVmName vm) (vm_hostname vm) (vm_phase vm)
    (desc_title descriptor) (desc_detail descriptor) (desc_progressPercent descriptor)
    (vm_terminalPhase vm) (vm_terminalReason vm) (vm_terminalObservedAt vm)
    (bool_decide (vm_terminalPhase vm = term_ready) && hasTerminalEndpoint target)
    (vm_bootProbes vm) (vm_scenarioProbes vm) (vm_replayArtifacts vm)
    (vm_sessionTimeline vm) (vm_hasRecording vm) target
    (vm_runtimeConstraints vm) (vm_resourceState vm) (vm_retiredRuntimeGenerations vm)
    (vm_guestIp vm) (vm_launchSummary vm) (vm_runtimeState vm) (vm_runtimeObservedAt vm)
    (vm_vmCreatedAt vm) (vm_provisioning vm) (sanitizeLegacy (vm_legacy vm)).

(** * Run phase *)

Definition vm_in (phases : list VmPhase) (vm : RunVmStateDocument) : bool :=
  existsb (fun p => bool_decide (vm_phase vm = p)) phases.

Definition deriveRunPhase (vms : list RunVmStateDocument) (current : RunPhase) : RunPhase :=
  match vms with
  | [] => current
  | _ =>
      if bool_decide (current = run_completed) || bool_decide (current = run_failed)
      then current
      else if existsb (vm_in [vm_failed]) vms then run_failed
      else if forallb (vm_in [vm_completed; vm_failed]) vms then run_completed
      else if RUN_PHASE_ORDER run_teardown_requested <=? RUN_PHASE_ORDER current then
        if existsb (vm_in [vm_destroying]) vms then run_tearing_down
        else if existsb (vm_in [vm_archived; vm_completed]) vms then run_archiving
        else run_teardown_requested
      else if forallb (vm_in [vm_solved]) vms then run_solved
      else if forallb (vm_in [vm_ready; vm_solved]) vms then run_active_full
      else if existsb (vm_in [vm_ready; vm_solved]) vms then run_active_partial
      else if bool_decide (current = run_provisioning)
              && existsb (vm_in [vm_queued; vm_launching; vm_booting]) vms
      then run_provisioning
      else if existsb (vm_in [vm_booting]) vms then run_provisioning
      else if existsb (vm_in [vm_launching]) vms then run_provisioning
      else run_queued
  end.

Definition recomputeRunState (current : RunStateDocument) : RunStateDocument :=
  let vms := map decorateVmState (run_vms current) in
  let terminalVm :=
    match List.find (fun vm => hasTerminalEndpoint (vm_terminalTarget vm)
                            && bool_decide (vm_terminalPhase vm = term_ready)) vms with
    | Some vm => Some vm
    | None => head vms
    end in
  let terminalTarget :=
    match terminalVm with
    | Some vm => vm_terminalTarget vm
    | None => defaultTerminalTarget
    end in
  let phase := deriveRunPhase vms (run_phase current) in
  let descriptor := describeRunPhase phase vms (run_phaseDetail current) in
  mkRun phase (desc_title descriptor) (desc_detail descriptor) (desc_progressPercent descriptor)
    (if existsb (fun vm => bool_decide (vm_terminalPhase vm = term_ready)) vms then term_ready
     else if existsb (fun vm => bool_decide (vm_terminalPhase vm = term_failed)) vms
          then term_failed else term_pending)
    (existsb vm_canOpenTerminal vms)
    (negb (existsb (fun p => bool_decide (phase = p)) [run_archiving; run_completed]))
    (flat_map vm_bootProbes vms) (flat_map vm_scenarioProbes vms)
    (flat_map vm_replayArtifacts vms) terminalTarget vms (run_candidateSource current).

(** * Initial documents *)

Definition buildInitialProbe (d : ProbeDescriptor) : ScenarioProbeStatus :=
  mkProbe (pd_id d) (pd_label d) (pd_kind d) (pd_phase d) "pending" None JNull.

Record InitialVm : Type := mkInitialVm {
  in_id : string;
  in_ordinal : Z;
  in_scenarioVmId : string;
  in_scenarioVmName : string;
  in_runtimeVmName : string;
  in_hostname : string;
  in_launchSummary : ScenarioLaunchSummary;
}.

Definition probesOfPhase (ph : ProbePhase) (s : ScenarioLaunchSummary) : list ScenarioProbeStatus :=
  map buildInitialProbe
    (List.filter (fun d => bool_decide (pd_phase d = ph)) (sum_probeDescriptors s)).

Definition buildInitialVmState (input : InitialVm) : RunVmStateDocument :=
  decorateVmState
    (mkVm (in_id input) (in_ordinal input) (in_scenarioVmId input) (in_scenarioVmName input)
       (in_runtimeVmName input) (in_hostname input) vm_queued "" "" 0 term_pending None None false
       (probesOfPhase probe_boot (in_launchSummary input))
       (probesOfPhase probe_scenario (in_launchSummary input))
       [] None None defaultTerminalTarget None None None None (in_launchSummary input)
       None None None
       (mkProvisioning None None None None None None None None prov_pending None) []).

Definition buildInitialRunState (vms : list InitialVm) : RunStateDocument :=
  recomputeRunState
    (mkRun run_queued "Queued" "Waiting for host delivery." 0 term_pending false true
       [] [] [] defaultTerminalTarget (map buildInitialVmState vms) None).

(** * Probe snapshots *)

(** One entry of a probe snapshot. The outer option of [up_error] and
    [up_value] is the presence of the property; an absent, null or non-string
    error inside it is [None]. *)
Record ProbeUpdate : Type := mkProbeUpdate {
  up_id : option string;
  up_kind : option string;
  up_status : option string;
  up_error : option (option string);
  up_value : option (option json);
}.

Definition probeUpdates (probes : list ProbeUpdate) : list (string * ProbeUpdate) :=
  Map_new (omap (fun u => match up_id u with
                          | Some id => if truthy id then Some (id, u) else None
                          | None => None
                          end) probes).

(** [next.kind?.trim() || probe.kind] and the like. *)
Definition trimmed_or (o : option string) (default : string) : string :=
  match o with Some s => or_str (trim s) default | None => default end.

Definition mergeProbe (updates : list (string * ProbeUpdate)) (stickyPass : bool)
    (probe : ScenarioProbeStatus) : ScenarioProbeStatus :=
  match Map_get (probe_id probe) updates with
  | None => probe
  | Some next =>
      let nextStatus := trimmed_or (up_status next) (probe_status probe) in
      if stickyPass && isVerificationPassed (Some (probe_status probe))
         && negb (isVerificationPassed (Some nextStatus))
      then probe
      else
        mkProbe (probe_id probe) (probe_label probe)
          (trimmed_or (up_kind next) (probe_kind probe))
          (probe_phase probe) nextStatus
          (match up_error next with
           | Some e => read_opt_string e
           | None => probe_error probe
           end)
          (match up_value next with
           | Some v => nullish v JNull
           | None => probe_value probe
           end)
  end.

(** [{ ...vm, bootProbes, scenarioProbes }]. *)
Definition with_probes (vm : RunVmStateDocument) (bp sp : list ScenarioProbeStatus)
    : RunVmStateDocument :=
  let '(mkVm id ord svid svn rvn hn ph pt pd pp tp tr toa cot _ _ ra st hr tg rc rs rg ip ls rst roa vca pv lg) := vm in
  mkVm id ord svid svn rvn hn ph pt pd pp tp tr toa cot bp sp ra st hr tg rc rs rg ip ls rst roa vca pv lg.

Definition applyProbeSnapshotToVm (vm : RunVmStateDocument) (probes : list ProbeUpdate)
    : RunVmStateDocument :=
  let updates := probeUpdates probes in
  decorateVmState
    (with_probes vm (map (mergeProbe updates true) (vm_bootProbes vm))
       (map (mergeProbe updates false) (vm_scenarioProbes vm))).

(** * Lemmas *)

Ltac destruct_vm vm :=
  destruct vm as [?id ?ord ?svid ?svn ?rvn ?hn ?ph ?pt ?pd ?pp ?tp ?tr ?toa ?cot
                  ?bp ?sp ?ra ?st ?hr ?tg ?rc ?rs ?rg ?ip ?ls ?rst ?roa ?vca ?pv ?lg].

Lemma decorate_phase vm : vm_phase (decorateVmState vm) = vm_phase vm.
Proof. done. Qed.

Lemma sanitizeLegacy_idem l : sanitizeLegacy (sanitizeLegacy l) = sanitizeLegacy l.
Proof.
  unfold sanitizeLegacy. induction l as [|f l IH]; cbn [List.filter]; [done|].
  destruct (negb _) eqn:E; cbn [List.filter]; rewrite ?E, ?IH; done.
Qed.

Lemma sanitizedTarget_decorate vm : sanitizedTarget (decorateVmState vm) = sanitizedTarget vm.
Proof. destruct_vm vm. by destruct tp. Qed.

Lemma decorate_target vm : vm_terminalTarget (decorateVmState vm) = sanitizedTarget vm.
Proof. done. Qed.

(** The detail of a description is non-empty, so describing again keeps it. *)
Lemma describeVmPhase_stable ph vm vm' :
  vm_terminalTarget vm' = vm_terminalTarget vm ->
  vm_phaseDetail vm' = desc_detail (describeVmPhase ph vm) ->
  describeVmPhase ph vm' = describeVmPhase ph vm.
Proof.
  intros Ht Hd. destruct ph; cbn in *; by rewrite Hd, ?Ht, or_str_idem.
Qed.

Lemma decorateVmState_idem vm : decorateVmState (decorateVmState vm) = decorateVmState vm.
Proof.
  set (d := decorateVmState vm).
  assert (Ht : sanitizedTarget d = sanitizedTarget vm) by apply sanitizedTarget_decorate.
  assert (Hd : describeVmPhase (vm_phase d) (with_target d (sanitizedTarget d)) =
               describeVmPhase (vm_phase vm) (with_target vm (sanitizedTarget vm))).
  { apply describeVmPhase_stable; [by rewrite Ht; destruct_vm vm|]. by destruct_vm vm. }
  unfold decorateVmState at 1. rewrite Hd, Ht. unfold d, decorateVmState. cbn.
  by rewrite sanitizeLegacy_idem.
Qed.

Lemma map_decorate_idem vms :
  map decorateVmState (map decorateVmState vms) = map decorateVmState vms.
Proof. rewrite map_map. apply map_ext. apply decorateVmState_idem. Qed.

(** Deriving the phase again from the derived phase changes nothing. *)
Lemma deriveRunPhase_idem vms ph :
  deriveRunPhase vms (deriveRunPhase vms ph) = deriveRunPhase vms ph.
Proof.
  unfold deriveRunPhase. destruct vms as [|v vms]; [done|].
  generalize (v :: vms). intros l.
  destruct ph; cbn -[existsb forallb];
    repeat (case_step; cbn -[existsb forallb]; try congruence); done.
Qed.

Lemma describeRunPhase_idem ph vms detail :
  describeRunPhase ph vms (desc_detail (describeRunPhase ph vms detail)) =
  describeRunPhase ph vms detail.
Proof. destruct ph; cbn; by rewrite ?or_str_idem. Qed.

Lemma recompute_vms c : run_vms (recomputeRunState c) = map decorateVmState (run_vms c).
Proof. done. Qed.

Lemma recompute_phase c :
  run_phase (recomputeRunState c) = deriveRunPhase (map decorateVmState (run_vms c)) (run_phase c).
Proof. done. Qed.

(** A decorated VM offers a terminal only with an endpoint and readiness. *)
Lemma decorate_canOpen vm :
  vm_canOpenTerminal (decorateVmState vm) = true ->
  vm_terminalPhase vm = term_ready /\ hasTerminalEndpoint (vm_terminalTarget vm) = true.
Proof.
  destruct_vm vm. cbn. intros H. apply andb_true_iff in H as [H1 H2].
  apply bool_decide_eq_true in H1. cbn in *. subst. done.
Qed.

Lemma decorate_not_ready vm :
  vm_terminalPhase vm <> term_ready ->
  vm_canOpenTerminal (decorateVmState vm) = false /\
  tgt_host (vm_terminalTarget (decorateVmState vm)) = None /\
  tgt_hostKeyOpenssh (vm_terminalTarget (decorateVmState vm)) = None.
Proof. destruct_vm vm. by destruct tp. Qed.

(** Recomputing a run document is idempotent: the stored projection of a
    recomputed document is the document itself, phase, descriptions, probes,
    terminal and VMs included. *)
Theorem recomputeRunState_idem c :
  recomputeRunState (recomputeRunState c) = recomputeRunState c.
Proof.
  unfold recomputeRunState at 1. rewrite recompute_vms, map_decorate_idem.
  rewrite recompute_phase, deriveRunPhase_idem.
  change (run_phaseDetail (recomputeRunState c)) with
    (desc_detail (describeRunPhase
       (deriveRunPhase (map decorateVmState (run_vms c)) (run_phase c))
       (map decorateVmState (run_vms c)) (run_phaseDetail c))).
  by rewrite describeRunPhase_idem.
Qed.

(** No terminal without readiness: in a recomputed run document a VM that
    is not terminal-ready has no host, no host key and no open terminal, and
    when the run as a whole offers a terminal, its terminal phase is ready and
    its target is the routable endpoint of one of its ready VMs. *)
Theorem recompute_terminal_safe c :
  let d := recomputeRunState c in
  (forall vm, In vm (run_vms d) -> vm_terminalPhase vm <> term_ready ->
     vm_canOpenTerminal vm = false /\ tgt_host (vm_terminalTarget vm) = None /\
     tgt_hostKeyOpenssh (vm_terminalTarget vm) = None) /\
  (run_canOpenTerminal d = true ->
     run_terminalPhase d = term_ready /\
     exists vm, In vm (run_vms d) /\ vm_terminalPhase vm = term_ready /\
       hasTerminalEndpoint (vm_terminalTarget vm) = true /\
       run_terminalTarget d = vm_terminalTarget vm).
Proof.
  cbn. split.
  - intros vm Hin Hnr. apply in_map_iff in Hin as (v & <- & _).
    by apply decorate_not_ready.
  - intros Hopen. apply existsb_exists in Hopen as (v & Hin & Hv).
    assert (Hr : vm_terminalPhase v = term_ready /\
                 hasTerminalEndpoint (vm_terminalTarget v) = true).
    { apply in_map_iff in Hin as (w & <- & _). destruct (decorate_canOpen _ Hv) as [Hw He].
      cbn. unfold sanitizedTarget. by rewrite Hw. }
    destruct Hr as [Hr He]. split.
    + assert (existsb (fun vm => bool_decide (vm_terminalPhase vm = term_ready))
                (map decorateVmState (run_vms c)) = true) as ->; [|done].
      apply existsb_exists. exists v. by rewrite Hr.
    + destruct (List.find _ _) as [w|] eqn:E.
      * apply find_some in E as [Hw Hb]. apply andb_true_iff in Hb as [Hb1 Hb2].
        apply bool_decide_eq_true in Hb2. by exists w.
      * apply (List.find_none _ _ E) in Hin. by rewrite He, Hr in Hin.
Qed.

(** Teardown is one-way in the derived run phase: a completed or failed run
    keeps its phase, and a run whose teardown was requested never derives a
    phase before teardown again, whatever its VMs report. *)
Theorem deriveRunPhase_teardown_absorbing vms ph :
  (ph = run_completed \/ ph = run_failed -> deriveRunPhase vms ph = ph) /\
  (canAdvanceRunPhase run_teardown_requested ph = true ->
   canAdvanceRunPhase run_teardown_requested (deriveRunPhase vms ph) = true).
Proof.
  unfold deriveRunPhase, canAdvanceRunPhase. destruct vms as [|v vms].
  { split; [done|done]. }
  generalize (v :: vms). intros l. split; [by intros [->| ->]|].
  destruct ph; cbn -[existsb forallb]; intros H; try done;
    by repeat (case_step; cbn -[existsb forallb]).
Qed.

Lemma mergeProbe_id us b p : probe_id (mergeProbe us b p) = probe_id p.
Proof. unfold mergeProbe. by repeat case_match. Qed.

Lemma mergeProbe_sticky us p :
  isVerificationPassed (Some (probe_status p)) = true ->
  isVerificationPassed (Some (probe_status (mergeProbe us true p))) = true.
Proof.
  intros Hp. unfold mergeProbe. destruct (Map_get _ _) as [u|]; [|done].
  rewrite Hp. destruct (isVerificationPassed (Some (trimmed_or _ _))) eqn:E; cbn; [done|].
  by rewrite E || done.
Qed.

(** A passed boot probe stays passed: whatever snapshot arrives, every boot
    probe keeps its place and identity, and one that had passed still counts as
    passed. *)
Theorem boot_probe_pass_sticky vm probes :
  Forall2 (fun p q => probe_id q = probe_id p /\
             (isVerificationPassed (Some (probe_status p)) = true ->
              isVerificationPassed (Some (probe_status q)) = true))
    (vm_bootProbes vm) (vm_bootProbes (applyProbeSnapshotToVm vm probes)).
Proof.
  replace (vm_bootProbes (applyProbeSnapshotToVm vm probes)) with
    (map (mergeProbe (probeUpdates probes) true) (vm_bootProbes vm)) by by destruct_vm vm.
  induction (vm_bootProbes vm) as [|p ps IH]; cbn; constructor; [|done].
  split; [apply mergeProbe_id|apply mergeProbe_sticky].
Qed.
