(* ===== verification/RunLifecycle.v ===== *)
(** Projection of host reports into run documents:
    apps/web/src/lib/run-lifecycle.ts. *)
From stdpp Require Import base list strings.
From Stdlib Require Import ZArith Lia.
From S2P Require Import Prelude Json RunState.

Open Scope string_scope.
Open Scope list_scope.
Open Scope Z_scope.

(** * The parts of the bridge contract the projection reads *)

Inductive BridgeVmPhase : Type :=
| br_pending | br_pulling_image | br_creating_disks | br_booting | br_running | br_ready
| br_solved | br_stopping | br_stopped | br_failed | br_absent.

#[export] Instance BridgeVmPhase_eq_dec : EqDecision BridgeVmPhase.
Proof. solve_decision. Defined.

Definition bridge_phase_name (p : BridgeVmPhase) : string :=
  match p with
  | br_pending => "pending"
  | br_pulling_image => "pulling_image"
  | br_creating_disks => "creating_disks"
  | br_booting => "booting"
  | br_running => "running"
  | br_ready => "ready"
  | br_solved => "solved"
  | br_stopping => "stopping"
  | br_stopped => "stopped"
  | br_failed => "failed"
  | br_absent => "absent"
  end.

Record VmNetworkState : Type := mkNetwork {
  net_bridge_name : string;
  net_guest_ip : string;
  net_guest_cidr : string;
  net_gateway : string;
  net_ssh_host : option string;
  net_ssh_host_port : option Z;
}.

Record VmTerminalTargetReport : Type := mkTargetReport {
  tr_host : string;
  tr_port : Z;
  tr_username : string;
  tr_checked_at_unix_ms : Z;
}.

Record VmTerminalState : Type := mkTerminalState {
  ts_state : TerminalPhase;
  ts_target : option VmTerminalTargetReport;
  ts_reason : option string;
  ts_observed_at_unix_ms : Z;
}.

Record VmRuntimeConstraints : Type := mkReportedConstraints {
  vrc_generation : string;
  vrc_cpu_millis : Z;
  vrc_quota_verified_at_unix_ms : option Z;
}.

Inductive VmProbeStatus : Type := ps_unknown | ps_pass | ps_fail.
Definition probe_status_name (s : VmProbeStatus) : string :=
  match s with ps_unknown => "unknown" | ps_pass => "pass" | ps_fail => "fail" end.

(** [value] may be absent ([None]). *)
Record VmProbeSnapshot : Type := mkSnapshot {
  snap_id : string;
  snap_phase : ProbePhase;
  snap_status : VmProbeStatus;
  snap_checked_at_unix_ms : Z;
  snap_message : option string;
  snap_value : option json;
}.

(** The fields of [VmActualStateV2] the projection picks. *)
Record VmActualState : Type := mkActual {
  act_run_id : string;
  act_vm_name : string;
  act_phase : BridgeVmPhase;
  act_network : option VmNetworkState;
  act_terminal : option VmTerminalState;
  act_runtime_constraints : option VmRuntimeConstraints;
  act_resource_state : option VmResourceState;
  act_ssh_host_keys_openssh : list string;
  act_probes : list VmProbeSnapshot;
  act_error : option string;
  act_updated_at_unix_ms : Z;
}.

(** The fields of [VmReportV2] the projection reads. *)
Record VmReport : Type := mkVmReport {
  rep_run_id : string;
  rep_vm_name : string;
  rep_observed_at_unix_ms : Z;
  rep_phase : BridgeVmPhase;
  rep_network : option VmNetworkState;
  rep_terminal : option VmTerminalState;
  rep_runtime_constraints : option VmRuntimeConstraints;
  rep_resource_state : option VmResourceState;
  rep_ssh_host_keys_openssh : list string;
  rep_probes : list VmProbeSnapshot;
  rep_error : option string;
}.

(** * Phases *)

Definition bridgeVmPhaseToRunVmPhase (p : BridgeVmPhase) : VmPhase :=
  match p with
  | br_pending => vm_queued
  | br_pulling_image | br_creating_disks => vm_launching
  | br_booting | br_running => vm_booting
  | br_ready => vm_ready
  | br_solved => vm_solved
  | br_stopping => vm_destroying
  | br_stopped => vm_archived
  | br_absent => vm_completed
  | br_failed => vm_failed
  end.

Definition describeReportPhase (p : BridgeVmPhase) (vm : RunVmStateDocument) : string :=
  match p with
  | br_pending => or_str (vm_phaseDetail vm) "Waiting for host reconciliation."
  | br_pulling_image => "Host is preparing the scenario image."
  | br_creating_disks => "Host is creating VM disks."
  | br_booting | br_running => "Host reports the VM is running and boot probes are pending."
  | br_ready => "Host reports the VM is ready."
  | br_solved => "Host reports all scenario probes are passing."
  | br_stopping => "Host is stopping the VM."
  | br_stopped => "VM stopped. Waiting for final archival."
  | br_absent => "Host confirms the VM is absent."
  | br_failed => "Host reports the VM failed."
  end.

Definition probePassed (p : ScenarioProbeStatus) : bool :=
  isVerificationPassed (Some (probe_status p)).

Definition bootProbesPassing (vm : RunVmStateDocument) : bool :=
  (length (vm_bootProbes vm) =? 0)%nat || forallb probePassed (vm_bootProbes vm).

Definition deriveVmPhase (vm : RunVmStateDocument) (reportPhase : option BridgeVmPhase)
    (collectionError : option string) : VmPhase * string :=
  let bootGateSatisfied := bootProbesPassing vm in
  let scenarioPassing :=
    if (length (vm_scenarioProbes vm) =? 0)%nat then false
    else forallb probePassed (vm_scenarioProbes vm) in
  let '(phase, detail) :=
    match reportPhase with
    | Some rp =>
        if canAdvanceVmPhase (vm_phase vm) (bridgeVmPhaseToRunVmPhase rp)
        then (bridgeVmPhaseToRunVmPhase rp, describeReportPhase rp vm)
        else (vm_phase vm, vm_phaseDetail vm)
    | None => (vm_phase vm, vm_phaseDetail vm)
    end in
  let '(phase, detail) :=
    if truthy_opt collectionError && canAdvanceVmPhase phase vm_booting
    then (vm_booting, nullish collectionError "")
    else (phase, detail) in
  if scenarioPassing && canAdvanceVmPhase phase vm_solved then
    (vm_solved, "All scenario probes are passing.")
  else if bootGateSatisfied && canAdvanceVmPhase phase vm_ready then
    (vm_ready,
     if hasTerminalEndpoint (vm_terminalTarget vm)
     then "Boot probes passed. Shell target is ready."
     else "Boot probes passed. Waiting for shell target.")
  else if canAdvanceVmPhase phase vm_booting then
    (if bool_decide (phase = vm_queued) || bool_decide (phase = vm_launching)
     then vm_booting else phase, detail)
  else (phase, detail).

(** * Identity of reports *)

Definition matchesVmReportIdentity (runId runtimeVmName reportRunId reportVmName : string) : bool :=
  (runId =s reportRunId) && (runtimeVmName =s reportVmName).

Definition matchesInventoryVmIdentity (value : json) (runId runtimeVmName : string) : bool :=
  if isRecord (Some value) then
    match readString (field value "run_id"), readString (field value "vm_name") with
    | Some reportRunId, Some reportVmName =>
        matchesVmReportIdentity runId runtimeVmName reportRunId reportVmName
    | _, _ => false
    end
  else false.

(** * Runtime constraints and generations *)

Definition mergeRuntimeConstraints (current : option RuntimeConstraintsEvidence)
    (reported : option VmRuntimeConstraints) : option RuntimeConstraintsEvidence :=
  match reported with
  | None => current
  | Some r =>
      let generation := trim (vrc_generation r) in
      let fresh := Some (mkConstraints generation (vrc_cpu_millis r)
                           (vrc_quota_verified_at_unix_ms r)) in
      match current with
      | Some c =>
          let sameGeneration := negb (truthy (rc_generation c)) || (rc_generation c =s generation) in
          if sameGeneration && bool_decide (is_Some (rc_quotaVerifiedAt c))
             && (rc_cpuMillis c =? vrc_cpu_millis r)
             && bool_decide (vrc_quota_verified_at_unix_ms r = None)
          then Some c else fresh
      | None => fresh
      end
  end.

Definition resetProbes (probes : list ScenarioProbeStatus) : list ScenarioProbeStatus :=
  map (fun p => mkProbe (probe_id p) (probe_label p) (probe_kind p) (probe_phase p)
                  "pending" None JNull) probes.

(** [values.filter((v, i) => values.indexOf(v) === i)]: first occurrences. *)
Definition firstOccurrences (values : list string) : list string := Set_new values.

Definition clearedTerminalTarget (current : RunVmStateDocument) : TerminalTarget :=
  mkTarget None 22 (tgt_username (vm_terminalTarget current)) None None.

Definition resetVmForRuntimeGeneration (vm : RunVmStateDocument) : RunVmStateDocument :=
  let '(mkVm id ord svid svn rvn hn _ pt _ pp _ _ _ cot bp sp ra st hr _ rc _ rg ip ls rst roa vca pv lg) := vm in
  let retired :=
    firstOccurrences
      (nullish rg [] ++
       match rc with
       | Some c => if truthy (rc_generation c) then [rc_generation c] else []
       | None => []
       end) in
  mkVm id ord svid svn rvn hn vm_booting pt
    "A new VM generation is waiting for fresh readiness evidence." pp
    term_pending (Some "Waiting for the new VM generation to seal its CPU quota.") None cot
    (resetProbes bp) (resetProbes sp) ra st hr (clearedTerminalTarget vm)
    None None (Some retired) ip ls rst roa vca pv lg.

(** * Terminal readiness *)

(** Phase, reason, observation time and target of a VM's terminal. *)
Record TerminalProjection : Type := mkTerminalProjection {
  tpj_phase : TerminalPhase;
  tpj_reason : option string;
  tpj_observedAt : option Z;
  tpj_target : TerminalTarget;
}.

Definition currentTerminalProjection (current : RunVmStateDocument) : TerminalProjection :=
  mkTerminalProjection (vm_terminalPhase current) (vm_terminalReason current)
    (vm_terminalObservedAt current)
    (if bool_decide (vm_terminalPhase current = term_ready)
     then vm_terminalTarget current else clearedTerminalTarget current).

(** The CPU quota the run asked for is the one the host attests as sealed. *)
Definition quotaReady (expectedCpuMillis : option Z)
    (runtimeConstraints : option RuntimeConstraintsEvidence) (observedAt : Z) : bool :=
  match expectedCpuMillis, runtimeConstraints with
  | Some expected, Some rc =>
      (0 <? expected) && truthy (trim (rc_generation rc)) && (rc_cpuMillis rc =? expected)
      && match rc_quotaVerifiedAt rc with
         | Some q => (0 <? q) && (q <=? observedAt)
         | None => false
         end
  | _, _ => false
  end.

(** The first host key with text in it, trimmed. *)
Definition firstHostKey (keys : option (list string)) : option string :=
  match keys with
  | Some ks => trim <$> List.find (fun key => (0 <? String.length (trim key))%nat) ks
  | None => None
  end.

Definition projectTerminalReadiness (reported : option VmTerminalState)
    (runtimeConstraints : option RuntimeConstraintsEvidence)
    (sshHostKeysOpenssh : option (list string))
    (current : RunVmStateDocument) (reportPhase : BridgeVmPhase) : TerminalProjection :=
  match reported with
  | None => currentTerminalProjection current
  | Some rep =>
      if bool_decide (ts_state rep = term_failed) || bool_decide (reportPhase = br_failed) then
        mkTerminalProjection term_failed
          (Some (trimmed_or (ts_reason rep) "Terminal readiness failed."))
          (Some (ts_observed_at_unix_ms rep)) (clearedTerminalTarget current)
      else
        let expectedCpuMillis :=
          res_cpuMillis <$> prov_resources (vm_provisioning current) in
        let quota := quotaReady expectedCpuMillis runtimeConstraints
                       (ts_observed_at_unix_ms rep) in
        let target := if bool_decide (ts_state rep = term_ready) then ts_target rep else None in
        let hostKey := firstHostKey sshHostKeysOpenssh in
        let verifiedAt := runtimeConstraints ≫= rc_quotaVerifiedAt in
        let notReady :=
          if bool_decide (vm_terminalPhase current = term_ready)
          then currentTerminalProjection current
          else
            mkTerminalProjection term_pending
              (if bool_decide (ts_state rep = term_ready)
               then Some (if quota then "Waiting for a complete verified SSH target."
                          else "Waiting for CPU limit verification.")
               else trim <$> ts_reason rep)
              (Some (ts_observed_at_unix_ms rep)) (clearedTerminalTarget current) in
        match target with
        | Some t =>
            if truthy (trim (tr_host t)) && (0 <? tr_port t) && truthy (trim (tr_username t))
               && truthy_opt hostKey && quota
               && match verifiedAt with
                  | Some q => q <=? tr_checked_at_unix_ms t
                  | None => false
                  end
            then mkTerminalProjection term_ready None (Some (ts_observed_at_unix_ms rep))
                   (mkTarget (Some (trim (tr_host t))) (tr_port t) (trim (tr_username t))
                      hostKey (Some (tr_checked_at_unix_ms t)))
            else notReady
        | None => notReady
        end
  end.

(** * One reported VM state *)

(** [{ ...vm, terminalPhase, terminalReason, terminalObservedAt, terminalTarget,
    runtimeConstraints, resourceState }]. *)
Definition with_evidence (vm : RunVmStateDocument) (t : TerminalProjection)
    (rc' : option RuntimeConstraintsEvidence) (rs' : option VmResourceState)
    : RunVmStateDocument :=
  let '(mkVm id ord svid svn rvn hn ph pt pd pp _ _ _ cot bp sp ra st hr _ _ _ rg ip ls rst roa vca pv lg) := vm in
  mkVm id ord svid svn rvn hn ph pt pd pp (tpj_phase t) (tpj_reason t) (tpj_observedAt t) cot
    bp sp ra st hr (tpj_target t) rc' rs' rg ip ls rst roa vca pv lg.

(** [{ ...vm, guestIp, phase, phaseDetail, runtimeState, runtimeObservedAt,
    vmCreatedAt }]. *)
Definition with_report (vm : RunVmStateDocument) (ip' : option string) (ph' : VmPhase)
    (pd' : string) (rst' : option string) (roa' vca' : option Z) : RunVmStateDocument :=
  let '(mkVm id ord svid svn rvn hn _ pt _ pp tp tr toa cot bp sp ra st hr tg rc rs rg _ ls _ _ _ pv lg) := vm in
  mkVm id ord svid svn rvn hn ph' pt pd' pp tp tr toa cot bp sp ra st hr tg rc rs rg ip' ls rst'
    roa' vca' pv lg.

Definition snapshotUpdate (p : VmProbeSnapshot) : ProbeUpdate :=
  mkProbeUpdate (Some (snap_id p)) None (Some (probe_status_name (snap_status p)))
    (Some (snap_message p)) (Some (snap_value p)).

Definition currentGeneration (vm : RunVmStateDocument) : option string :=
  rc_generation <$> vm_runtimeConstraints vm.

Definition reportedGeneration (report : VmActualState) : option string :=
  read_opt_string (vrc_generation <$> act_runtime_constraints report).

(** The report is older than what the VM already shows, names a generation the
    VM has left behind, or names none while the VM has one. *)
Definition reportIgnored (vm : RunVmStateDocument) (report : VmActualState) : bool :=
  match vm_runtimeObservedAt vm with
  | Some seen => act_updated_at_unix_ms report <? seen
  | None => false
  end
  || match reportedGeneration report with
     | Some g => str_mem g (nullish (vm_retiredRuntimeGenerations vm) [])
     | None => truthy_opt (currentGeneration vm)
     end.

Definition generationChanged (vm : RunVmStateDocument) (report : VmActualState) : bool :=
  match reportedGeneration report with
  | None => false
  | Some g =>
      if truthy_opt (currentGeneration vm)
      then negb (bool_decide (currentGeneration vm = Some g))
      else bool_decide (vm_terminalPhase vm = term_ready)
           && match act_runtime_constraints report ≫= vrc_quota_verified_at_unix_ms with
              | Some q => q =? 0
              | None => true
              end
  end.

(** The VM a report of a new generation is projected onto. *)
Definition generationBase (vm : RunVmStateDocument) (report : VmActualState)
    : RunVmStateDocument :=
  if generationChanged vm report then resetVmForRuntimeGeneration vm else vm.

(** The intermediate documents of an accepted report, in the order the code
    builds them: probes merged, constraints merged, resource counters, terminal
    and the VM with that evidence. *)
Definition withProbes (vm : RunVmStateDocument) (report : VmActualState) : RunVmStateDocument :=
  applyProbeSnapshotToVm (generationBase vm report) (map snapshotUpdate (act_probes report)).

Definition mergedConstraints (vm : RunVmStateDocument) (report : VmActualState)
    : option RuntimeConstraintsEvidence :=
  mergeRuntimeConstraints (vm_runtimeConstraints (withProbes vm report))
    (act_runtime_constraints report).

Definition projectedResourceState (vm : RunVmStateDocument) (report : VmActualState)
    : option VmResourceState :=
  match act_resource_state report with
  | Some rs =>
      if bool_decide (vrc_generation <$> act_runtime_constraints report =
                      rc_generation <$> mergedConstraints vm report)
      then Some rs else vm_resourceState (withProbes vm report)
  | None => vm_resourceState (withProbes vm report)
  end.

Definition projectedTerminal (vm : RunVmStateDocument) (report : VmActualState)
    : TerminalProjection :=
  projectTerminalReadiness (act_terminal report) (mergedConstraints vm report)
    (Some (act_ssh_host_keys_openssh report)) (withProbes vm report) (act_phase report).

Definition withRuntimeEvidence (vm : RunVmStateDocument) (report : VmActualState)
    : RunVmStateDocument :=
  with_evidence (withProbes vm report) (projectedTerminal vm report)
    (mergedConstraints vm report) (projectedResourceState vm report).

(** The projection of an accepted report. *)
Definition acceptReport (vm : RunVmStateDocument) (report : VmActualState)
    : RunVmStateDocument :=
  let evidence := withRuntimeEvidence vm report in
  let derived := deriveVmPhase evidence (Some (act_phase report)) (act_error report) in
  decorateVmState
    (with_report evidence
       (match read_opt_string (net_guest_ip <$> act_network report) with
        | Some ip => Some ip
        | None => vm_guestIp (withProbes vm report)
        end)
       (fst derived) (snd derived) (Some (bridge_phase_name (act_phase report)))
       (Some (act_updated_at_unix_ms report))
       (match vm_vmCreatedAt (withProbes vm report) with
        | Some at_ => Some at_
        | None => if bool_decide (fst derived = vm_queued) then None
                  else Some (act_updated_at_unix_ms report)
        end)).

Definition applyReportedVmState (runId : string) (vm : RunVmStateDocument)
    (report : VmActualState) : RunVmStateDocument :=
  if negb (matchesVmReportIdentity runId (vm_runtimeVmName vm)
             (act_run_id report) (act_vm_name report))
  then vm
  else if reportIgnored vm report then vm
  else acceptReport vm report.

(** * Whole reports *)

Definition actualOfReport (r : VmReport) : VmActualState :=
  mkActual (rep_run_id r) (rep_vm_name r) (rep_phase r) (rep_network r) (rep_terminal r)
    (rep_runtime_constraints r) (rep_resource_state r) (rep_ssh_host_keys_openssh r)
    (rep_probes r) (rep_error r) (rep_observed_at_unix_ms r).

(** [{ ...run, vms }]. *)
Definition with_vms (c : RunStateDocument) (vms : list RunVmStateDocument) : RunStateDocument :=
  mkRun (run_phase c) (run_phaseTitle c) (run_phaseDetail c) (run_progressPercent c)
    (run_terminalPhase c) (run_canOpenTerminal c) (run_canDestroy c) (run_bootProbes c)
    (run_scenarioProbes c) (run_replayArtifacts c) (run_terminalTarget c) vms
    (run_candidateSource c).

Definition applyToVms (runId : string) (c : RunStateDocument) (report : VmActualState)
    : RunStateDocument :=
  with_vms c (map (fun vm => applyReportedVmState runId vm report) (run_vms c)).

Definition applyVmReportToRunState (runId : string) (current : RunStateDocument)
    (report : VmReport) : RunStateDocument :=
  recomputeRunState (applyToVms runId current (actualOfReport report)).

Definition applyHostReportToRunState (runId : string) (current : RunStateDocument)
    (reported : list VmActualState) : RunStateDocument :=
  recomputeRunState (fold_left (applyToVms runId) reported current).

(** * Lemmas *)

Lemma canAdvanceVmPhase_refl p : canAdvanceVmPhase p p = true.
Proof. apply Z.leb_refl. Qed.

Lemma canAdvanceVmPhase_trans p q r :
  canAdvanceVmPhase p q = true -> canAdvanceVmPhase q r = true -> canAdvanceVmPhase p r = true.
Proof. unfold canAdvanceVmPhase. rewrite !Z.leb_le. lia. Qed.

#[export] Hint Resolve canAdvanceVmPhase_refl canAdvanceVmPhase_trans : js.

Lemma deriveVmPhase_advances vm rp err :
  canAdvanceVmPhase (vm_phase vm) (fst (deriveVmPhase vm rp err)) = true.
Proof.
  unfold deriveVmPhase.
  set (first := match rp with Some _ => _ | None => _ end).
  assert (H1 : canAdvanceVmPhase (vm_phase vm) (fst first) = true).
  { unfold first. destruct rp; [case_match|]; auto with js. }
  clearbody first. destruct first as [ph1 d1]. cbn in H1.
  set (second := if truthy_opt err && _ then _ else _).
  assert (H2 : canAdvanceVmPhase (vm_phase vm) (fst second) = true).
  { unfold second. case_match eqn:E; [|done]. reflect_bools. cbn. eauto with js. }
  clearbody second. destruct second as [ph2 d2]. cbn in H2.
  repeat case_step; reflect_bools; cbn; eauto with js.
Qed.

(** The fields of a VM after an accepted report. *)
Section accepted.
Context (vm : RunVmStateDocument) (report : VmActualState).

Lemma accept_phase :
  vm_phase (acceptReport vm report) =
  fst (deriveVmPhase (withRuntimeEvidence vm report) (Some (act_phase report))
         (act_error report)).
Proof. unfold acceptReport. cbv zeta. by destruct (withRuntimeEvidence vm report). Qed.

Lemma evidence_phase : vm_phase (withRuntimeEvidence vm report) = vm_phase (generationBase vm report).
Proof.
  unfold withRuntimeEvidence, withProbes, applyProbeSnapshotToVm.
  by destruct (generationBase vm report).
Qed.

Lemma accept_constraints :
  vm_runtimeConstraints (acceptReport vm report) = mergedConstraints vm report.
Proof.
  unfold acceptReport, withRuntimeEvidence. cbv zeta.
  by destruct (withProbes vm report).
Qed.

Lemma merged_constraints_eq :
  mergedConstraints vm report =
  mergeRuntimeConstraints (vm_runtimeConstraints (generationBase vm report))
    (act_runtime_constraints report).
Proof.
  unfold mergedConstraints, withProbes, applyProbeSnapshotToVm.
  by destruct (generationBase vm report).
Qed.

Lemma accept_retired :
  vm_retiredRuntimeGenerations (acceptReport vm report) =
  vm_retiredRuntimeGenerations (generationBase vm report).
Proof.
  unfold acceptReport, withRuntimeEvidence, withProbes, applyProbeSnapshotToVm. cbv zeta.
  by destruct (generationBase vm report).
Qed.

Lemma accept_terminalPhase :
  vm_terminalPhase (acceptReport vm report) = tpj_phase (projectedTerminal vm report).
Proof.
  unfold acceptReport, withRuntimeEvidence. cbv zeta. by destruct (withProbes vm report).
Qed.

Lemma accept_target :
  vm_terminalPhase (acceptReport vm report) = term_ready ->
  vm_terminalTarget (acceptReport vm report) = tpj_target (projectedTerminal vm report).
Proof.
  rewrite accept_terminalPhase. unfold acceptReport, withRuntimeEvidence. cbv zeta.
  rewrite decorate_target. unfold sanitizedTarget.
  destruct (withProbes vm report); cbn. by intros ->.
Qed.

Lemma base_runtimeVmName : vm_runtimeVmName (generationBase vm report) = vm_runtimeVmName vm.
Proof. unfold generationBase. case_match; [|done]. by destruct vm. Qed.

Lemma accept_runtimeVmName : vm_runtimeVmName (acceptReport vm report) = vm_runtimeVmName vm.
Proof.
  rewrite <- base_runtimeVmName.
  unfold acceptReport, withRuntimeEvidence, withProbes, applyProbeSnapshotToVm. cbv zeta.
  by destruct (generationBase vm report).
Qed.

Lemma accept_provisioning : vm_provisioning (acceptReport vm report) = vm_provisioning vm.
Proof.
  transitivity (vm_provisioning (generationBase vm report)).
  - unfold acceptReport, withRuntimeEvidence, withProbes, applyProbeSnapshotToVm. cbv zeta.
    by destruct (generationBase vm report).
  - unfold generationBase. case_match; [|done]. by destruct vm.
Qed.
End accepted.

(** Case analysis on whether a report is accepted. *)
Lemma applyReported_cases runId vm report (P : RunVmStateDocument -> Prop) :
  P vm -> (reportIgnored vm report = false -> P (acceptReport vm report)) ->
  P (applyReportedVmState runId vm report).
Proof.
  intros Hsame Hacc. unfold applyReportedVmState.
  destruct (negb _); [done|]. destruct (reportIgnored vm report); auto.
Qed.

Lemma applyReported_runtimeVmName runId vm report :
  vm_runtimeVmName (applyReportedVmState runId vm report) = vm_runtimeVmName vm.
Proof. apply applyReported_cases; [done|]. intros _. apply accept_runtimeVmName. Qed.

(** VM phases only move forward: a report that does not start a new
    generation never moves a VM to an earlier phase. *)
Theorem applyReported_phase_monotone runId vm report
    (Hgen : generationChanged vm report = false) :
  canAdvanceVmPhase (vm_phase vm) (vm_phase (applyReportedVmState runId vm report)) = true.
Proof.
  apply applyReported_cases; [auto with js|]. intros _. rewrite accept_phase.
  assert (vm_phase vm = vm_phase (withRuntimeEvidence vm report)) as ->
    by (rewrite evidence_phase; unfold generationBase; by rewrite Hgen).
  apply deriveVmPhase_advances.
Qed.

(** * Generations and readiness evidence along report sequences *)

Definition retiredGenerations (vm : RunVmStateDocument) : list string :=
  nullish (vm_retiredRuntimeGenerations vm) [].

(** Retired generations are distinct, non-empty and never the current one. *)
Definition generations_fenced (vm : RunVmStateDocument) : Prop :=
  NoDup (retiredGenerations vm) /\
  (forall g, In g (retiredGenerations vm) -> truthy g = true) /\
  (forall g, currentGeneration vm = Some g -> ~ In g (retiredGenerations vm)).

(** A ready terminal has a complete, checked endpoint. *)
Definition ready_target_complete (vm : RunVmStateDocument) : Prop :=
  vm_terminalPhase vm = term_ready ->
  hasTerminalEndpoint (vm_terminalTarget vm) = true /\
  truthy (tgt_username (vm_terminalTarget vm)) = true /\
  truthy_opt (tgt_hostKeyOpenssh (vm_terminalTarget vm)) = true /\
  is_Some (tgt_checkedAt (vm_terminalTarget vm)).

Definition vm_fresh (vm : RunVmStateDocument) : Prop :=
  vm_retiredRuntimeGenerations vm = None /\ vm_runtimeConstraints vm = None /\
  vm_terminalPhase vm = term_pending.

(** Run documents the reports of a host can lead to. *)
Inductive reachable (runId : string) (start : RunStateDocument) : RunStateDocument -> Prop :=
| reach_start : reachable runId start start
| reach_vm_report c report :
    reachable runId start c -> reachable runId start (applyVmReportToRunState runId c report)
| reach_host_report c reported :
    reachable runId start c -> reachable runId start (applyHostReportToRunState runId c reported).

Lemma reset_retired vm g :
  In g (retiredGenerations (resetVmForRuntimeGeneration vm)) <->
  In g (retiredGenerations vm) \/ (currentGeneration vm = Some g /\ truthy g = true).
Proof.
  destruct_vm vm. unfold retiredGenerations, currentGeneration. cbn.
  unfold firstOccurrences. rewrite Set_new_In, in_app_iff. apply or_iff_compat_l.
  destruct rc as [c|]; cbn; [|by split; [|intros [? _]]].
  destruct (truthy (rc_generation c)) eqn:E; cbn.
  - split; [intros [<-|[]]; auto|]. intros [[= <-] _]. auto.
  - split; [done|]. intros [[= <-] ?]. congruence.
Qed.

Lemma reset_retired_nodup vm : NoDup (retiredGenerations (resetVmForRuntimeGeneration vm)).
Proof. destruct_vm vm. apply Set_new_nodup. Qed.

Lemma reset_constraints vm : vm_runtimeConstraints (resetVmForRuntimeGeneration vm) = None.
Proof. by destruct_vm vm. Qed.

Lemma merge_generation cur r :
  (rc_generation <$> mergeRuntimeConstraints cur (Some r)) = Some (trim (vrc_generation r)) \/
  exists c, cur = Some c /\ mergeRuntimeConstraints cur (Some r) = Some c /\
    truthy (rc_generation c) = false.
Proof.
  unfold mergeRuntimeConstraints. destruct cur as [c|]; [|by left].
  case_match eqn:E; [|by left]. reflect_bools.
  destruct (truthy (rc_generation c)) eqn:Et; cbn in *; [|by right; eauto].
  left. cbn. f_equal. by apply String.eqb_eq.
Qed.

Lemma reported_generation_trim report r :
  act_runtime_constraints report = Some r ->
  reportedGeneration report = or_null (trim (vrc_generation r)).
Proof. unfold reportedGeneration. by intros ->. Qed.

(** The generation after an accepted report. *)
Lemma accept_generation vm report g :
  reportIgnored vm report = false ->
  currentGeneration (acceptReport vm report) = Some g -> truthy g = true ->
  reportedGeneration report = Some g.
Proof.
  intros Hig Hcur Ht. unfold currentGeneration in Hcur.
  rewrite accept_constraints, merged_constraints_eq in Hcur.
  destruct (act_runtime_constraints report) as [r|] eqn:Er.
  - rewrite (reported_generation_trim _ _ Er).
    destruct (merge_generation (vm_runtimeConstraints (generationBase vm report)) r)
      as [Hm|(c & _ & Hm & Hf)].
    + rewrite Hm in Hcur. injection Hcur as ->. unfold or_null. by rewrite Ht.
    + rewrite Hm in Hcur. cbn in Hcur. injection Hcur as <-. congruence.
  - unfold reportIgnored, reportedGeneration in Hig. rewrite Er in Hig. cbn in Hig.
    assert (generationChanged vm report = false) as Hc
      by (unfold generationChanged, reportedGeneration; by rewrite Er).
    unfold generationBase in Hcur. rewrite Hc in Hcur. cbn in Hcur.
    apply orb_false_iff in Hig as [_ Hig]. unfold currentGeneration in Hig.
    rewrite Hcur in Hig. cbn in Hig. congruence.
Qed.

Lemma retired_grows vm report g :
  In g (retiredGenerations vm) -> In g (retiredGenerations (acceptReport vm report)).
Proof.
  unfold retiredGenerations at 2. rewrite accept_retired. fold (retiredGenerations (generationBase vm report)).
  unfold generationBase. case_match; [|done]. rewrite reset_retired. auto.
Qed.

Lemma fold_retired_grows runId reports vm g :
  In g (retiredGenerations vm) ->
  In g (retiredGenerations (fold_left (applyReportedVmState runId) reports vm)).
Proof.
  revert vm. induction reports as [|r rs IH]; intros vm H; [done|]. apply IH.
  apply applyReported_cases; [done|]. intros _. by apply retired_grows.
Qed.

Lemma accept_fenced vm report :
  reportIgnored vm report = false -> generations_fenced vm -> generations_fenced (acceptReport vm report).
Proof.
  intros Hig (Hnd & Htr & Hcur).
  assert (Hret : retiredGenerations (acceptReport vm report) =
                 retiredGenerations (generationBase vm report))
    by (unfold retiredGenerations; by rewrite accept_retired).
  assert (Hin : forall g, In g (retiredGenerations (acceptReport vm report)) ->
            In g (retiredGenerations vm) \/
            (generationChanged vm report = true /\ currentGeneration vm = Some g /\ truthy g = true)).
  { intros g. rewrite Hret. unfold generationBase. case_match; [|auto].
    rewrite reset_retired. tauto. }
  split; [|split].
  - rewrite Hret. unfold generationBase. case_match; [apply reset_retired_nodup|done].
  - intros g [Hg|(_ & _ & Hg)]%Hin; [by apply Htr|done].
  - intros g Hg Hg'. destruct (Hin g Hg') as [Hold|(Hch & Hc & Ht)].
    + assert (Hr := accept_generation _ _ _ Hig Hg (Htr _ Hold)).
      unfold reportIgnored in Hig. rewrite Hr in Hig. apply orb_false_iff in Hig as [_ Hm].
      by apply str_mem_false in Hm.
    + assert (Hr := accept_generation _ _ _ Hig Hg Ht).
      unfold generationChanged in Hch. rewrite Hr, Hc in Hch. cbn in Hch. rewrite Ht in Hch.
      by rewrite bool_decide_true in Hch.
Qed.

Lemma fresh_fenced vm : vm_fresh vm -> generations_fenced vm.
Proof.
  intros (Hr & Hc & _). unfold generations_fenced, retiredGenerations, currentGeneration.
  rewrite Hr, Hc. cbn. split; [constructor|]. naive_solver.
Qed.

(** What makes a projected terminal ready: fresh complete evidence, or an
    earlier readiness that the report does not refute. *)
Lemma project_ready reported rc keys cur rp :
  tpj_phase (projectTerminalReadiness reported rc keys cur rp) = term_ready ->
  (vm_terminalPhase cur = term_ready /\
   projectTerminalReadiness reported rc keys cur rp = currentTerminalProjection cur) \/
  exists rep t key q c res,
    reported = Some rep /\ rp <> br_failed /\ ts_state rep = term_ready /\
    ts_target rep = Some t /\ firstHostKey keys = Some key /\ truthy key = true /\
    rc = Some c /\ rc_quotaVerifiedAt c = Some q /\
    0 < q <= ts_observed_at_unix_ms rep /\ q <= tr_checked_at_unix_ms t /\
    prov_resources (vm_provisioning cur) = Some res /\ rc_cpuMillis c = res_cpuMillis res /\
    truthy (trim (tr_host t)) = true /\ 0 < tr_port t /\ truthy (trim (tr_username t)) = true /\
    tpj_target (projectTerminalReadiness reported rc keys cur rp) =
      mkTarget (Some (trim (tr_host t))) (tr_port t) (trim (tr_username t)) (Some key)
        (Some (tr_checked_at_unix_ms t)).
Proof.
  unfold projectTerminalReadiness. destruct reported as [rep|]; [|cbn; auto].
  destruct (_ || _) eqn:Ef; [done|]. apply orb_false_iff in Ef as [_ Ef].
  apply bool_decide_eq_false in Ef. cbv zeta.
  assert (Hstick : tpj_phase (if bool_decide (vm_terminalPhase cur = term_ready)
            then currentTerminalProjection cur
            else mkTerminalProjection term_pending
                (if bool_decide (ts_state rep = term_ready)
                 then Some (if quotaReady (res_cpuMillis <$> prov_resources (vm_provisioning cur)) rc
                                 (ts_observed_at_unix_ms rep)
                            then "Waiting for a complete verified SSH target."
                            else "Waiting for CPU limit verification.")
                 else trim <$> ts_reason rep)
                (Some (ts_observed_at_unix_ms rep)) (clearedTerminalTarget cur)) = term_ready ->
          vm_terminalPhase cur = term_ready).
  { case_bool_decide; done. }
  destruct (bool_decide (ts_state rep = term_ready)) eqn:Er; [|].
  2:{ intros H. left. pose proof (Hstick H) as Hc. by rewrite Hc. }
  apply bool_decide_eq_true in Er.
  destruct (ts_target rep) as [t|] eqn:Et.
  2:{ intros H. left. pose proof (Hstick H) as Hc. by rewrite Hc. }
  destruct (_ && _) eqn:Eb.
  2:{ intros H. left. pose proof (Hstick H) as Hc. by rewrite Hc. }
  intros _. right. reflect_bools.
  destruct (firstHostKey keys) as [key|] eqn:Ek; [|done].
  unfold quotaReady in *.
  destruct (prov_resources (vm_provisioning cur)) as [res|] eqn:Eres; [|done].
  destruct rc as [c|]; [|done]. cbn in *.
  destruct (rc_quotaVerifiedAt c) as [q|] eqn:Eq; [|done]. cbn in *. reflect_bools.
  exists rep, t, key, q, c, res. repeat split; auto; try lia.
Qed.

Lemma withProbes_terminalPhase vm report :
  vm_terminalPhase (withProbes vm report) = term_ready ->
  generationChanged vm report = false /\ vm_terminalPhase vm = term_ready /\
  vm_terminalTarget (withProbes vm report) = vm_terminalTarget vm.
Proof.
  unfold withProbes, applyProbeSnapshotToVm, generationBase.
  destruct (generationChanged vm report); destruct_vm vm; cbn; [done|].
  by intros ->.
Qed.

Lemma withProbes_provisioning vm report :
  vm_provisioning (withProbes vm report) = vm_provisioning vm.
Proof.
  unfold withProbes, applyProbeSnapshotToVm, generationBase. case_match; by destruct_vm vm.
Qed.

Lemma accept_ready_complete vm report :
  ready_target_complete vm -> ready_target_complete (acceptReport vm report).
Proof.
  intros Hinv Hr. rewrite (accept_target _ _ Hr). rewrite accept_terminalPhase in Hr.
  unfold projectedTerminal in *.
  destruct (project_ready _ _ _ _ _ Hr) as [[Hc ->]|Hev].
  - unfold currentTerminalProjection. rewrite bool_decide_true by done. cbn [tpj_target].
    destruct (withProbes_terminalPhase _ _ Hc) as (_ & Hv & ->). by apply Hinv.
  - destruct Hev as (rep & t & key & q & c & res & _ & _ & _ & _ & _ & Hkey & _ & _ & _ & _
                     & _ & _ & Hh & Hp & Hu & ->).
    unfold hasTerminalEndpoint. cbn. rewrite Hh, Hu, Hkey.
    repeat split; [by apply Z.ltb_lt|eauto].
Qed.

(** Properties that decoration and accepted reports preserve hold of every VM
    of every reachable document. *)
Section reachable_invariant.
Context (P : RunVmStateDocument -> Prop).
Hypothesis P_decorate : forall vm, P vm -> P (decorateVmState vm).
Hypothesis P_accept : forall vm report,
  reportIgnored vm report = false -> P vm -> P (acceptReport vm report).

Lemma applyToVms_inv runId c report :
  Forall P (run_vms c) -> Forall P (run_vms (applyToVms runId c report)).
Proof.
  intros H. cbn. apply Forall_map. eapply Forall_impl; [exact H|]. cbn.
  intros vm Hvm. apply applyReported_cases; auto.
Qed.

Lemma recompute_inv c : Forall P (run_vms c) -> Forall P (run_vms (recomputeRunState c)).
Proof. intros H. cbn. apply Forall_map. eapply Forall_impl; eauto. Qed.

Lemma reachable_inv runId start c :
  Forall P (run_vms start) -> reachable runId start c -> Forall P (run_vms c).
Proof.
  intros Hs. induction 1 as [|c report _ IH|c reported _ IH]; [done| |].
  - apply recompute_inv. by apply applyToVms_inv.
  - apply recompute_inv. revert c IH. induction reported as [|r rs IHr]; intros c IH; [done|].
    apply IHr. by apply applyToVms_inv.
Qed.
End reachable_invariant.

Lemma decorate_ready_complete vm :
  ready_target_complete vm -> ready_target_complete (decorateVmState vm).
Proof.
  intros H Hr. cbn in Hr. rewrite decorate_target. unfold sanitizedTarget. rewrite Hr. by apply H.
Qed.

(** C4. Along every sequence of VM and host reports, starting from VMs that
    have seen no runtime yet, the generations a VM has left behind are distinct
    and never its current one, and a VM whose terminal is ready has a complete
    target: a host, a positive port, a user name, a host key and the time the
    endpoint was checked. *)
Theorem reachable_vms_fenced runId start c
    (Hstart : Forall vm_fresh (run_vms start)) (Hreach : reachable runId start c) :
  Forall (fun vm => generations_fenced vm /\ ready_target_complete vm) (run_vms c).
Proof.
  revert Hreach. apply reachable_inv.
  - intros vm [H1 H2]. split; [exact H1|by apply decorate_ready_complete].
  - intros vm report Hig [H1 H2]. split; [by apply accept_fenced|by apply accept_ready_complete].
  - eapply Forall_impl; [exact Hstart|]. cbn. intros vm H. split; [by apply fresh_fenced|].
    destruct H as (_ & _ & Hp). intros Hr. congruence.
Qed.

(** A retired generation is final: once a report sequence has retired a
    generation of a VM, no later report makes it the VM's generation again. *)
Theorem retired_generation_final runId vm reports later g
    (Hfresh : vm_fresh vm)
    (Hret : In g (retiredGenerations (fold_left (applyReportedVmState runId) reports vm))) :
  let final := fold_left (applyReportedVmState runId) (reports ++ later) vm in
  In g (retiredGenerations final) /\ currentGeneration final <> Some g.
Proof.
  cbn. rewrite fold_left_app.
  assert (Hf : forall rs v, generations_fenced v ->
                 generations_fenced (fold_left (applyReportedVmState runId) rs v)).
  { induction rs as [|r rs IH]; intros v Hv; [done|]. apply IH.
    apply applyReported_cases; [done|]. intros. by apply accept_fenced. }
  pose proof (Hf reports vm (fresh_fenced _ Hfresh)) as Hmid.
  revert Hret Hmid. generalize (fold_left (applyReportedVmState runId) reports vm).
  intros mid Hret Hmid. split.
  - by apply fold_retired_grows.
  - intros Hc. destruct (Hf later mid Hmid) as (_ & _ & Hn). apply (Hn _ Hc).
    by apply fold_retired_grows.
Qed.

(** A terminal becomes ready only on sealed evidence: when a report makes a
    VM's terminal ready, the host reported a ready terminal with a target on a
    VM that has not failed, and the VM's CPU quota is attested at exactly the
    run's CPU size, no later than the observation and the endpoint check. *)
Theorem ready_requires_sealed_quota runId vm report
    (Hnot : vm_terminalPhase vm <> term_ready)
    (Hready : vm_terminalPhase (applyReportedVmState runId vm report) = term_ready) :
  exists rep t c q res,
    act_terminal report = Some rep /\ ts_state rep = term_ready /\ ts_target rep = Some t /\
    act_phase report <> br_failed /\
    vm_runtimeConstraints (applyReportedVmState runId vm report) = Some c /\
    rc_quotaVerifiedAt c = Some q /\ 0 < q <= ts_observed_at_unix_ms rep /\
    q <= tr_checked_at_unix_ms t /\
    prov_resources (vm_provisioning vm) = Some res /\ rc_cpuMillis c = res_cpuMillis res.
Proof.
  revert Hready. apply applyReported_cases; [done|]. intros _ Hr.
  rewrite accept_constraints. rewrite accept_terminalPhase in Hr.
  destruct (project_ready _ _ _ _ _ Hr) as [[Hc _]|Hev].
  - destruct (withProbes_terminalPhase _ _ Hc) as (_ & Hv & _). done.
  - destruct Hev as (rep & t & key & q & c & res & H). rewrite withProbes_provisioning in H.
    exists rep, t, c, q, res. naive_solver.
Qed.

(** Quota sealing is one-way within a generation: once the quota of a VM's
    generation is verified, every report of the same generation and CPU size
    leaves it verified, also a snapshot that carries no verification time. *)
Theorem quota_seal_sticky runId vm report c q r
    (Hc : vm_runtimeConstraints vm = Some c) (Hq : rc_quotaVerifiedAt c = Some q)
    (Hr : act_runtime_constraints report = Some r)
    (Hgen : trim (vrc_generation r) = rc_generation c) (Ht : truthy (rc_generation c) = true)
    (Hcpu : vrc_cpu_millis r = rc_cpuMillis c) :
  exists c', vm_runtimeConstraints (applyReportedVmState runId vm report) = Some c' /\
    rc_generation c' = rc_generation c /\ rc_cpuMillis c' = rc_cpuMillis c /\
    is_Some (rc_quotaVerifiedAt c').
Proof.
  apply applyReported_cases; [exists c; by rewrite Hq|]. intros _.
  assert (Hsame : generationChanged vm report = false).
  { unfold generationChanged, currentGeneration. rewrite (reported_generation_trim _ _ Hr), Hgen.
    unfold or_null. rewrite Ht, Hc. cbn. rewrite Ht. by rewrite bool_decide_true. }
  rewrite accept_constraints, merged_constraints_eq. unfold generationBase.
  rewrite Hsame, Hc, Hr. cbn. rewrite Hgen, Ht, String.eqb_refl, Hq, Hcpu, Z.eqb_refl. cbn.
  destruct (vrc_quota_verified_at_unix_ms r) as [q'|] eqn:E; cbn; [|by exists c; rewrite Hq].
  eexists. split; [done|]. cbn. eauto.
Qed.

Lemma applyReported_other runId vm report :
  vm_runtimeVmName vm <> act_vm_name report -> applyReportedVmState runId vm report = vm.
Proof.
  intros H. unfold applyReportedVmState, matchesVmReportIdentity.
  apply String.eqb_neq in H. rewrite H, andb_false_r. done.
Qed.

(** Reports about different VMs commute: the order in which a host's VM
    reports are projected does not matter. *)
Theorem reports_of_different_vms_commute runId c r1 r2
    (Hne : act_vm_name r1 <> act_vm_name r2) :
  applyToVms runId (applyToVms runId c r1) r2 = applyToVms runId (applyToVms runId c r2) r1.
Proof.
  unfold applyToVms, with_vms. cbn. f_equal. rewrite !map_map. apply map_ext. intros vm.
  destruct (decide (vm_runtimeVmName vm = act_vm_name r1)) as [E1|E1].
  - rewrite !(applyReported_other runId _ r2); [done|congruence|].
    rewrite applyReported_runtimeVmName. congruence.
  - rewrite !(applyReported_other runId _ r1); [done| |congruence].
    by rewrite applyReported_runtimeVmName.
Qed.

Lemma decorate_with_probes vm bp sp :
  decorateVmState (with_probes (decorateVmState vm) bp sp) = decorateVmState (with_probes vm bp sp).
Proof.
  transitivity (decorateVmState (decorateVmState (with_probes vm bp sp)));
    [|apply decorateVmState_idem]. by destruct_vm vm.
Qed.

Lemma decorate_reset vm bp sp :
  decorateVmState (with_probes (resetVmForRuntimeGeneration (decorateVmState vm)) bp sp) =
  decorateVmState (with_probes (resetVmForRuntimeGeneration vm) bp sp).
Proof.
  destruct_vm vm. unfold decorateVmState. cbn. rewrite sanitizeLegacy_idem. by destruct tp.
Qed.

Lemma withProbes_decorate vm report : withProbes (decorateVmState vm) report = withProbes vm report.
Proof.
  unfold withProbes, applyProbeSnapshotToVm, generationBase.
  change (generationChanged (decorateVmState vm) report) with (generationChanged vm report).
  destruct (generationChanged vm report).
  - rewrite decorate_reset. by destruct_vm vm.
  - apply decorate_with_probes.
Qed.

Lemma acceptReport_decorate vm report :
  acceptReport (decorateVmState vm) report = acceptReport vm report.
Proof.
  unfold acceptReport, withRuntimeEvidence, projectedTerminal, projectedResourceState,
    mergedConstraints. by rewrite withProbes_decorate.
Qed.

Lemma applyReported_decorate runId vm report :
  decorateVmState (applyReportedVmState runId (decorateVmState vm) report) =
  decorateVmState (applyReportedVmState runId vm report).
Proof.
  unfold applyReportedVmState. rewrite acceptReport_decorate.
  change (reportIgnored (decorateVmState vm) report) with (reportIgnored vm report).
  change (vm_runtimeVmName (decorateVmState vm)) with (vm_runtimeVmName vm).
  destruct (negb _); [apply decorateVmState_idem|].
  destruct (reportIgnored vm report); [apply decorateVmState_idem|done].
Qed.

(** Batching does not matter to the VMs: an inventory report projects the
    VMs exactly as the same VM states reported one at a time do, each with its
    own recomputation of the document. *)
Theorem host_report_as_vm_reports runId c reported :
  run_vms (applyHostReportToRunState runId c reported) =
  run_vms (recomputeRunState
    (fold_left (fun c r => recomputeRunState (applyToVms runId c r)) reported c)).
Proof.
  unfold applyHostReportToRunState. rewrite !recompute_vms.
  enough (forall c c', map decorateVmState (run_vms c) = map decorateVmState (run_vms c') ->
    map decorateVmState (run_vms (fold_left (applyToVms runId) reported c)) =
    map decorateVmState (run_vms
      (fold_left (fun c r => recomputeRunState (applyToVms runId c r)) reported c'))) by auto.
  induction reported as [|r rs IH]; intros d d' Hd; [done|]. cbn. apply IH.
  cbn. rewrite map_decorate_idem, !map_map.
  assert (Hstep : forall l, map (fun vm => decorateVmState (applyReportedVmState runId vm r)) l =
    map (fun vm => decorateVmState (applyReportedVmState runId vm r)) (map decorateVmState l)).
  { intros l. rewrite map_map. apply map_ext. intros vm. by rewrite applyReported_decorate. }
  rewrite (Hstep (run_vms d)), (Hstep (run_vms d')). by rewrite Hd.
Qed.

(** * Concrete documents and reports *)
Module Sample.
Definition summary : ScenarioLaunchSummary :=
  mkSummary "web" "web" [("boot-ok", probe_boot)]
    [mkDescriptor "boot-ok" "Boot" "exec" probe_boot;
     mkDescriptor "fixed" "Fixed" "exec" probe_scenario].

Definition provisioning : RunVmProvisioningSpec :=
  mkProvisioning None None None (Some (mkResourcesSpec 1000 512 4096)) (Some 3600)
    None None None prov_queued None.

(** A VM waiting for its host, provisioned with one CPU. *)
Definition vm0 : RunVmStateDocument :=
  mkVm "vm-1" 0 "svm" "web" "run-web" "web" vm_queued "" "" 0 term_pending None None false
    (probesOfPhase probe_boot summary) (probesOfPhase probe_scenario summary)
    [] None None defaultTerminalTarget None None None None summary None None None
    provisioning [("bootEvidence", JNull)].

Definition run0 : RunStateDocument :=
  mkRun run_provisioning "" "" 0 term_pending false true [] [] [] defaultTerminalTarget [vm0] None.

(** A ready report of generation [g], observed at [at_], with a sealed quota. *)
Definition ready_report (g : string) (at_ : Z) : VmActualState :=
  mkActual "run" "run-web" br_ready (Some (mkNetwork "br0" " 10.0.0.2 " "10.0.0.2/24" "10.0.0.1" None None))
    (Some (mkTerminalState term_ready (Some (mkTargetReport "10.1.1.1" 2222 "user" at_)) None at_))
    (Some (mkReportedConstraints g 1000 (Some (at_ - 1)))) None [" ssh-ed25519 AAAA "]
    [mkSnapshot "boot-ok" probe_boot ps_pass at_ None None] None at_.

(** A later inventory snapshot of generation [g] with no verification time. *)
Definition bare_report (g : string) (at_ : Z) : VmActualState :=
  mkActual "run" "run-web" br_running None None (Some (mkReportedConstraints g 1000 None)) None []
    [] None at_.

Definition report_of (a : VmActualState) : VmReport :=
  mkVmReport (act_run_id a) (act_vm_name a) (act_updated_at_unix_ms a) (act_phase a) (act_network a)
    (act_terminal a) (act_runtime_constraints a) (act_resource_state a)
    (act_ssh_host_keys_openssh a) (act_probes a) (act_error a).

Definition vm_sealed : RunVmStateDocument := applyReportedVmState "run" vm0 (ready_report "g1" 100).
End Sample.

Lemma applyReported_phase_monotone_witness :
  vm_phase Sample.vm0 = vm_queued /\ vm_phase Sample.vm_sealed = vm_ready /\
  canAdvanceVmPhase (vm_phase Sample.vm0) (vm_phase Sample.vm_sealed) = true.
Proof.
  split; [reflexivity|]. split; [vm_compute; reflexivity|].
  apply (applyReported_phase_monotone "run" Sample.vm0 (Sample.ready_report "g1" 100)).
  vm_compute. reflexivity.
Defined.

Lemma reachable_vms_fenced_witness :
  let c := applyHostReportToRunState "run"
             (applyVmReportToRunState "run" Sample.run0 (Sample.report_of (Sample.ready_report "g1" 100)))
             [Sample.ready_report "g2" 200; Sample.ready_report "g1" 300] in
  map vm_terminalPhase (run_vms c) = [term_ready] /\
  map retiredGenerations (run_vms c) = [["g1"]] /\
  Forall (fun vm => generations_fenced vm /\ ready_target_complete vm) (run_vms c).
Proof.
  split; [vm_compute; reflexivity|]. split; [vm_compute; reflexivity|].
  apply (reachable_vms_fenced "run" Sample.run0).
  - repeat constructor.
  - apply reach_host_report, reach_vm_report, reach_start.
Defined.

Lemma retired_generation_final_witness :
  let final := fold_left (applyReportedVmState "run")
    ([Sample.ready_report "g1" 100; Sample.ready_report "g2" 200] ++
     [Sample.ready_report "g1" 300]) Sample.vm0 in
  currentGeneration final = Some "g2" /\
  In "g1" (retiredGenerations final) /\ currentGeneration final <> Some "g1".
Proof.
  split; [vm_compute; reflexivity|].
  apply (retired_generation_final "run" Sample.vm0
           [Sample.ready_report "g1" 100; Sample.ready_report "g2" 200]
           [Sample.ready_report "g1" 300] "g1").
  - repeat constructor.
  - vm_compute. left. reflexivity.
Defined.

Lemma ready_requires_sealed_quota_witness :
  exists rep t c q res,
    act_terminal (Sample.ready_report "g1" 100) = Some rep /\ ts_state rep = term_ready /\
    ts_target rep = Some t /\ act_phase (Sample.ready_report "g1" 100) <> br_failed /\
    vm_runtimeConstraints Sample.vm_sealed = Some c /\
    rc_quotaVerifiedAt c = Some q /\ 0 < q <= ts_observed_at_unix_ms rep /\
    q <= tr_checked_at_unix_ms t /\
    prov_resources (vm_provisioning Sample.vm0) = Some res /\ rc_cpuMillis c = res_cpuMillis res.
Proof.
  apply (ready_requires_sealed_quota "run" Sample.vm0 (Sample.ready_report "g1" 100)).
  - discriminate.
  - vm_compute. reflexivity.
Defined.

Lemma quota_seal_sticky_witness :
  let c := mkConstraints "g1" 1000 (Some 99) in
  exists c', vm_runtimeConstraints
      (applyReportedVmState "run" Sample.vm_sealed (Sample.bare_report " g1" 200)) = Some c' /\
    rc_generation c' = rc_generation c /\ rc_cpuMillis c' = rc_cpuMillis c /\
    is_Some (rc_quotaVerifiedAt c').
Proof.
  apply (quota_seal_sticky "run" Sample.vm_sealed (Sample.bare_report " g1" 200)
           (mkConstraints "g1" 1000 (Some 99)) 99 (mkReportedConstraints " g1" 1000 None));
    vm_compute; reflexivity.
Defined.

Lemma reports_of_different_vms_commute_witness :
  let other := mkActual "run" "run-db" br_failed None None None None [] [] None 50 in
  applyToVms "run" (applyToVms "run" Sample.run0 (Sample.ready_report "g1" 100)) other =
  applyToVms "run" (applyToVms "run" Sample.run0 other) (Sample.ready_report "g1" 100).
Proof.
  apply (reports_of_different_vms_commute "run" Sample.run0 (Sample.ready_report "g1" 100)).
  discriminate.
Defined.
