(* ===== verification/RunView.v ===== *)
(** What learners are shown of a run, and its history:
    apps/web/src/lib/run-phase.ts, run-lease.ts, scenario-run-outcome.ts,
    scenario-runs/saving-stage.ts and run-probe-history.ts. *)
From stdpp Require Import base list strings pretty.
From Stdlib Require Import ZArith Lia.
From S2P Require Import Prelude Json RunState RunLifecycle.

Open Scope string_scope.
Open Scope list_scope.
Open Scope Z_scope.

(** * View phases (run-phase.ts) *)

Inductive RunViewPhase : Type :=
| view_launching | view_booting | view_waiting_for_target | view_running | view_solved
| view_deleting | view_archiving | view_completed | view_failed.

#[export] Instance RunViewPhase_eq_dec : EqDecision RunViewPhase.
Proof. solve_decision. Defined.

(** The optional properties of the argument: an absent one is [None]. *)
Definition hasReadyTerminal (canOpenTerminal : option bool)
    (terminalPhase : option TerminalPhase) : bool :=
  bool_decide (canOpenTerminal = Some true) || bool_decide (terminalPhase = Some term_ready).

Definition toRunViewPhase (phase : RunPhase) (canOpenTerminal : option bool)
    (terminalPhase : option TerminalPhase) : RunViewPhase :=
  match phase with
  | run_queued => view_launching
  | run_provisioning => view_booting
  | run_active_partial =>
      if hasReadyTerminal canOpenTerminal terminalPhase then view_running
      else view_waiting_for_target
  | run_active_full =>
      if hasReadyTerminal canOpenTerminal terminalPhase then view_running
      else view_waiting_for_target
  | run_teardown_requested | run_tearing_down => view_deleting
  | run_solved => view_solved
  | run_archiving => view_archiving
  | run_completed => view_completed
  | run_failed => view_failed
  end.

Definition hasVmReadyTerminal (vm : RunVmStateDocument) : bool :=
  (vm_canOpenTerminal vm || bool_decide (vm_terminalPhase vm = term_ready)) &&
  (truthy_opt (tgt_host (vm_terminalTarget vm)) && (0 <? tgt_port (vm_terminalTarget vm))).

Definition toVmViewPhase (vm : RunVmStateDocument) : RunViewPhase :=
  match vm_phase vm with
  | vm_queued | vm_launching => view_launching
  | vm_booting => view_booting
  | vm_ready => if hasVmReadyTerminal vm then view_running else view_waiting_for_target
  | vm_destroying => view_deleting
  | vm_archived => view_archiving
  | vm_solved => view_solved
  | vm_completed => view_completed
  | vm_failed => view_failed
  end.

Definition runViewPhaseTitle (phase : RunViewPhase) : string :=
  match phase with
  | view_launching => "Starting"
  | view_booting => "Preparing"
  | view_waiting_for_target => "Preparing"
  | view_running => "Running"
  | view_solved => "Solved"
  | view_deleting => "Ending"
  | view_archiving => "Saving"
  | view_completed => "Saved"
  | view_failed => "Stopped"
  end.

Definition vmViewPhaseTitle (phase : RunViewPhase) : string :=
  match phase with
  | view_launching => "Starting"
  | view_booting => "Preparing"
  | view_waiting_for_target => "Preparing"
  | view_running => "Running"
  | view_solved => "Solved"
  | view_deleting => "Ending"
  | view_archiving => "Saving"
  | view_completed => "Saved"
  | view_failed => "Stopped"
  end.

(** [{ ...run, phase, phaseTitle, vms }]: the record that is spread and the
    properties that override it. *)
Record PresentedVm : Type := mkPresentedVm {
  pvm_vm : RunVmStateDocument;
  pvm_phase : RunViewPhase;
  pvm_phaseTitle : string;
}.
Record PresentedRun : Type := mkPresentedRun {
  prun_run : RunStateDocument;
  prun_phase : RunViewPhase;
  prun_phaseTitle : string;
  prun_vms : list PresentedVm;
}.

Definition presentScenarioRun (run : RunStateDocument) : PresentedRun :=
  let phase := toRunViewPhase (run_phase run) (Some (run_canOpenTerminal run))
                 (Some (run_terminalPhase run)) in
  mkPresentedRun run phase (runViewPhaseTitle phase)
    (map (fun vm => let vmPhase := toVmViewPhase vm in
                    mkPresentedVm vm vmPhase (vmViewPhaseTitle vmPhase)) (run_vms run)).

(** The active run of a scenario page, of which only the phase is presented. *)
Definition presentScenarioDetail (activeRun : option (RunPhase * option bool * option TerminalPhase))
  : option (RunViewPhase * string) :=
  match activeRun with
  | Some (ph, canOpen, term) =>
      let phase := toRunViewPhase ph canOpen term in
      Some (match phase with view_completed | view_failed => view_running | _ => phase end,
            runViewPhaseTitle phase)
  | None => None
  end.

(** * Leases (run-lease.ts) *)

Inductive LeaseState : Type := lease_ok | lease_warning | lease_critical | lease_expired.

Definition WARNING_MS : Z := 10 * 60 * 1000.
Definition CRITICAL_MS : Z := 2 * 60 * 1000.

Record LeaseInfo : Type := mkLeaseInfo {
  lease_deadlineMs : option Z;
  lease_remainingMs : Z;
  lease_state : LeaseState;
}.

Definition earlierDeadline (createdAtMs : Z) (earliest : option Z) (seconds : option Z)
  : option Z :=
  match seconds with
  | Some s =>
      if 0 <? s then
        let deadline := createdAtMs + s * 1000 in
        match earliest with
        | None => Some deadline
        | Some e => if deadline <? e then Some deadline else Some e
        end
      else earliest
  | None => earliest
  end.

Definition computeLeaseDeadline (createdAtMs : Z) (leaseDurationsSeconds : list (option Z))
  : option Z :=
  fold_left (earlierDeadline createdAtMs) leaseDurationsSeconds None.

Definition leaseInfo (deadlineMs : option Z) (nowMs : Z) : LeaseInfo :=
  match deadlineMs with
  | None => mkLeaseInfo None 0 lease_ok
  | Some deadline =>
      let remainingMs := deadline - nowMs in
      let state :=
        if remainingMs <=? 0 then lease_expired
        else if remainingMs <=? CRITICAL_MS then lease_critical
        else if remainingMs <=? WARNING_MS then lease_warning
        else lease_ok in
      mkLeaseInfo (Some deadline) (Z.max 0 remainingMs) state
  end.

(** [String(n).padStart(2, "0")]. *)
Definition padStart2 (s : string) : string :=
  match String.length s with
  | O => "00"
  | S O => "0" +:+ s
  | _ => s
  end.

Definition formatCountdown (remainingMs : Z) : string :=
  let total := Z.max 0 (remainingMs / 1000) in
  let hours := total / 3600 in
  let minutes := (total mod 3600) / 60 in
  let seconds := total mod 60 in
  let mm := padStart2 (pretty minutes) in
  let ss := padStart2 (pretty seconds) in
  if 0 <? hours then pretty hours +:+ ":" +:+ mm +:+ ":" +:+ ss else mm +:+ ":" +:+ ss.

(** * Saving stages (scenario-runs/saving-stage.ts) *)

Inductive ScenarioRunSavingStage : Type :=
| save_requested | closing_workspace | saving_files | preparing_replay | finalizing_recap.

#[export] Instance SavingStage_eq_dec : EqDecision ScenarioRunSavingStage.
Proof. solve_decision. Defined.

Inductive ArchiveStage : Type := archive_started | raw_files_saved | replay_prepared | sealed.

Definition ARCHIVE_STAGE_RANK (s : ArchiveStage) : Z :=
  match s with archive_started => 1 | raw_files_saved => 2 | replay_prepared => 3 | sealed => 4 end.

Inductive AgentArchiveStage : Type :=
| agent_raw_files_saved | agent_replay_prepared | agent_replay_skipped.

Definition archiveStageRankForAgentStage (stage : AgentArchiveStage) : Z :=
  match stage with
  | agent_raw_files_saved => ARCHIVE_STAGE_RANK raw_files_saved
  | agent_replay_prepared | agent_replay_skipped => ARCHIVE_STAGE_RANK replay_prepared
  end.

(** [Math.min(...values)] of a non-empty list. *)
Definition Math_min (values : list Z) : option Z :=
  match values with
  | [] => None
  | v :: vs => Some (fold_left Z.min vs v)
  end.

Definition lowestArchiveStageRank (ranks : option (list (option Z))) : option Z :=
  match ranks with
  | None => None
  | Some rs =>
      let knownRanks := omap id rs in
      if (Z.of_nat (length rs) =? 0) || negb (Z.of_nat (length knownRanks) =? Z.of_nat (length rs))
      then None
      else Math_min knownRanks
  end.

Definition deriveScenarioRunSavingStage (phase : RunPhase)
    (archiveStageRanks : option (list (option Z))) : option ScenarioRunSavingStage :=
  match phase with
  | run_teardown_requested => Some save_requested
  | run_tearing_down => Some closing_workspace
  | run_archiving =>
      match lowestArchiveStageRank archiveStageRanks with
      | None => Some closing_workspace
      | Some rank =>
          if ARCHIVE_STAGE_RANK replay_prepared <=? rank then Some finalizing_recap
          else if ARCHIVE_STAGE_RANK raw_files_saved <=? rank then Some preparing_replay
          else Some saving_files
      end
  | run_queued | run_provisioning | run_active_partial | run_active_full | run_solved
  | run_completed | run_failed => None
  end.

(** * Outcomes (scenario-run-outcome.ts) *)

Inductive ScenarioRunOutcome : Type :=
| outcome_in_progress | outcome_succeeded | outcome_cancelled | outcome_failed.

Definition isSet (o : option Z) : bool := match o with Some _ => true | None => false end.

Definition deriveScenarioRunOutcome (phase : RunPhase)
    (solvedAt deleteRequestedAt failedAt : option Z) : ScenarioRunOutcome :=
  if bool_decide (phase = run_failed) || isSet failedAt then outcome_failed
  else if isSet solvedAt then outcome_succeeded
  else if isSet deleteRequestedAt
          || (RUN_PHASE_ORDER run_teardown_requested <=? RUN_PHASE_ORDER phase)
  then outcome_cancelled
  else outcome_in_progress.

Definition deriveScenarioRunSolveDurationMs (createdAt : Z) (solvedAt : option Z) : option Z :=
  match solvedAt with
  | None => None
  | Some s => Some (Z.max 0 (s - createdAt))
  end.

Definition nextSolvedAt (currentPhase nextPhase : RunPhase) (existingSolvedAt : option Z)
    (now : Z) : option Z :=
  match existingSolvedAt with
  | Some t => Some t
  | None =>
      if bool_decide (currentPhase = run_solved) || bool_decide (nextPhase = run_solved)
      then Some now else None
  end.

(** * Probe history (run-probe-history.ts) *)

Definition probePhaseName (p : ProbePhase) : string :=
  match p with probe_boot => "boot" | probe_scenario => "scenario" end.

Definition vmProbes (vm : RunVmStateDocument) : list ScenarioProbeStatus :=
  vm_bootProbes vm ++ vm_scenarioProbes vm.

Definition probeStatusEntry (p : ScenarioProbeStatus) : string :=
  probePhaseName (probe_phase p) +:+ ":" +:+ probe_id p +:+ "=" +:+ probe_status p.

Definition probeStatusSignature (vm : RunVmStateDocument) : string :=
  join "|" (js_sort str_leb (map probeStatusEntry (vmProbes vm))).

Definition probeTransitionVms (current next : RunStateDocument) : list RunVmStateDocument :=
  let previousByVm :=
    Map_new (map (fun vm => (vm_id vm, probeStatusSignature vm)) (run_vms current)) in
  List.filter (fun vm =>
    (0 <? Z.of_nat (length (vm_bootProbes vm) + length (vm_scenarioProbes vm))) &&
    negb (bool_decide (Map_get (vm_id vm) previousByVm = Some (probeStatusSignature vm))))
    (run_vms next).

(** A row of [scenario_run_probe_snapshots]; the two JSON columns hold the
    values whose text is stored. *)
Record ProbeSnapshotRow : Type := mkSnapshotRow {
  snap_id : string;
  snap_runId : string;
  snap_vmId : string;
  snap_runtimeVmName : string;
  snap_messageId : string;
  snap_collectionState : VmPhase;
  snap_summaryJson : json;
  snap_snapshotJson : json;
  snap_generatedAt : option Z;
  snap_observedAt : Z;
}.

Definition snapshotProbe (p : ScenarioProbeStatus) : json :=
  JObj [("id", JStr (probe_id p)); ("label", JStr (probe_label p)); ("kind", JStr (probe_kind p));
        ("phase", JStr (probePhaseName (probe_phase p))); ("status", JStr (probe_status p))].

Definition snapshotRow (runId : string) (observedDefault : Z) (newId : string)
    (vm : RunVmStateDocument) : ProbeSnapshotRow :=
  let probes := vmProbes vm in
  let failing := List.filter (fun p => probe_status p =s "fail") probes in
  let passing := List.filter (fun p => isVerificationPassed (Some (probe_status p))) probes in
  let observedAt := nullish (vm_runtimeObservedAt vm) observedDefault in
  mkSnapshotRow newId runId (vm_id vm) (vm_runtimeVmName vm) (pretty observedAt) (vm_phase vm)
    (JObj [("pass", JNum (NInt (Z.of_nat (length passing))));
           ("fail", JNum (NInt (Z.of_nat (length failing))));
           ("total", JNum (NInt (Z.of_nat (length probes))))])
    (JArr (map snapshotProbe probes)) (vm_runtimeObservedAt vm) observedAt.

(** [INSERT ... ON CONFLICT DO NOTHING] under the primary key and the unique
    index on (run, VM, message). *)
Definition snapshotConflict (a b : ProbeSnapshotRow) : bool :=
  (snap_id a =s snap_id b) ||
  ((snap_runId a =s snap_runId b) && (snap_vmId a =s snap_vmId b)
   && (snap_messageId a =s snap_messageId b)).

Definition insertSnapshot (table : list ProbeSnapshotRow) (row : ProbeSnapshotRow)
  : list ProbeSnapshotRow :=
  if existsb (snapshotConflict row) table then table else table ++ [row].

(** [createAppId] is the supply of identifiers, one per inserted row. *)
Definition recordProbeTransitions (createAppId : nat -> string)
    (table : list ProbeSnapshotRow) (runId : string) (current next : RunStateDocument)
    (observedAt : Z) : list ProbeSnapshotRow :=
  let changed := probeTransitionVms current next in
  fold_left insertSnapshot
    (imap (fun i vm => snapshotRow runId observedAt (createAppId i) vm) changed) table.

Record SnapshotProbe : Type := mkSnapshotProbe {
  sp_id : string;
  sp_label : string;
  sp_kind : string;
  sp_phase : ProbePhase;
  sp_status : string;
}.

Definition stringOr (v : option json) (default : string) : string :=
  match v with Some (JStr s) => s | _ => default end.

(** [raw] is [JSON.parse] of the column, [None] when that throws. An array is an
    object too, without any of the properties. *)
Definition parseSnapshotProbes (raw : option json) : list SnapshotProbe :=
  match raw with
  | Some (JArr entries) =>
      omap (fun entry =>
        match entry with
        | JObj _ | JArr _ =>
            Some (mkSnapshotProbe (stringOr (field entry "id") "") (stringOr (field entry "label") "")
                    (stringOr (field entry "kind") "")
                    (if bool_decide (field entry "phase" = Some (JStr "boot")) then probe_boot
                     else probe_scenario)
                    (stringOr (field entry "status") "unknown"))
        | _ => None
        end) entries
  | _ => []
  end.

Record ProbeTransitionRow : Type := mkTransitionRow {
  ptr_id : string;
  ptr_vmId : string;
  ptr_runtimeVmName : string;
  ptr_observedAt : Z;
  ptr_probes : list SnapshotProbe;
}.

(** [runs] holds the run and user columns of [scenario_runs]; rows with equal
    times come in table order. *)
Definition listProbeSnapshotsForUserRun (runs : list (string * string))
    (table : list ProbeSnapshotRow) (runId userId : string) : option (list ProbeTransitionRow) :=
  if existsb (fun r => (fst r =s runId) && (snd r =s userId)) runs then
    let rows := take 500 (js_sort (fun a b => snap_observedAt a <=? snap_observedAt b)
                  (List.filter (fun row => snap_runId row =s runId) table)) in
    Some (map (fun row =>
      mkTransitionRow (snap_id row) (snap_vmId row) (snap_runtimeVmName row) (snap_observedAt row)
        (parseSnapshotProbes (Some (snap_snapshotJson row)))) rows)
  else None.

(** * Theorems: what the views promise *)

Lemma existsb_map_comp {A B} (f : A -> B) (p : B -> bool) l :
  existsb p (map f l) = existsb (fun x => p (f x)) l.
Proof. induction l as [|x l IH]; cbn; [done|]. by rewrite IH. Qed.

Lemma reachable_ready_complete runId start c :
  Forall vm_fresh (run_vms start) -> reachable runId start c ->
  Forall ready_target_complete (run_vms c).
Proof.
  intros Hs. apply reachable_inv.
  - apply decorate_ready_complete.
  - intros vm report _. apply accept_ready_complete.
  - eapply Forall_impl; [exact Hs|]. intros vm (_ & _ & Hp) Hr. congruence.
Qed.

Lemma decorated_open_iff_ready vm :
  ready_target_complete vm ->
  vm_canOpenTerminal (decorateVmState vm) = bool_decide (vm_terminalPhase vm = term_ready).
Proof.
  intros H. cbn [vm_canOpenTerminal decorateVmState]. case_bool_decide as E; [|done].
  unfold sanitizedTarget. rewrite E. by destruct (H E).
Qed.

Lemma toRunViewPhase_running ph co tp :
  toRunViewPhase ph co tp = view_running <->
  (ph = run_active_partial \/ ph = run_active_full) /\ hasReadyTerminal co tp = true.
Proof.
  destruct ph; cbn; try (split; [done|]; naive_solver);
    destruct (hasReadyTerminal co tp); naive_solver.
Qed.

(** A recomputed document whose ready terminals are complete offers a terminal
    exactly when some VM's can be opened. *)
Lemma recomputed_ready_iff_open c :
  Forall ready_target_complete (run_vms c) ->
  let d := recomputeRunState c in
  hasReadyTerminal (Some (run_canOpenTerminal d)) (Some (run_terminalPhase d)) = true <->
  exists vm, In vm (run_vms d) /\ vm_canOpenTerminal vm = true.
Proof.
  intros Hall d. unfold hasReadyTerminal. rewrite orb_true_iff, !bool_decide_eq_true.
  transitivity (existsb vm_canOpenTerminal (run_vms d) = true); [|apply existsb_exists].
  split; [|intros H; left; cbn; by f_equal].
  intros [[= H]|[= H]]; [done|]. cbn in H. revert H. rewrite existsb_map_comp.
  case_match eqn:E; [intros _|case_match; done].
  apply existsb_exists in E as (vm & Hin & Hr). apply existsb_exists.
  exists (decorateVmState vm). split; [cbn; by apply in_map|].
  rewrite decorated_open_iff_ready; [done|].
  rewrite List.Forall_forall in Hall. by apply Hall.
Qed.

(** A learner is shown a running workspace exactly when there is one: along
    every sequence of reports, the presented phase of the projected run is
    "running" iff the run is active and the terminal of one of its VMs can be
    opened, and a VM presented as running has a terminal that can be opened. *)
Theorem presented_running_iff_openable runId start c
    (Hstart : Forall vm_fresh (run_vms start)) (Hreach : reachable runId start c) :
  let d := recomputeRunState c in
  (prun_phase (presentScenarioRun d) = view_running <->
   (run_phase d = run_active_partial \/ run_phase d = run_active_full) /\
   exists vm, In vm (run_vms d) /\ vm_canOpenTerminal vm = true) /\
  (forall p, In p (prun_vms (presentScenarioRun d)) -> pvm_phase p = view_running ->
   vm_canOpenTerminal (pvm_vm p) = true).
Proof.
  pose proof (reachable_ready_complete _ _ _ Hstart Hreach) as Hc. intros d. split.
  - cbn [prun_phase presentScenarioRun]. rewrite toRunViewPhase_running.
    pose proof (recomputed_ready_iff_open c Hc) as Ho. cbv zeta in Ho. fold d in Ho. tauto.
  - intros p Hin Hp. cbn [prun_vms presentScenarioRun] in Hin.
    apply in_map_iff in Hin as (vm & <- & Hin). cbn in Hp |- *.
    unfold d in Hin. rewrite recompute_vms in Hin. apply in_map_iff in Hin as (vm0 & <- & Hin).
    rewrite List.Forall_forall in Hc. specialize (Hc _ Hin).
    rewrite (decorated_open_iff_ready _ Hc).
    unfold toVmViewPhase in Hp. destruct (vm_phase _); try done.
    destruct (hasVmReadyTerminal _) eqn:E; [|done]. unfold hasVmReadyTerminal in E.
    rewrite (decorated_open_iff_ready _ Hc) in E. apply andb_true_iff in E as [E _].
    by rewrite orb_diag in E.
Qed.

(** * Theorems: leases *)

Definition leaseDeadlineOf (createdAtMs : Z) (ls : list (option Z)) (d : Z) : Prop :=
  exists s, In (Some s) ls /\ 0 < s /\ d = createdAtMs + s * 1000.

Lemma earlierDeadline_spec c acc o d :
  earlierDeadline c acc o = Some d ->
  (acc = Some d \/ exists s, o = Some s /\ 0 < s /\ d = c + s * 1000) /\
  (forall e, acc = Some e -> d <= e) /\
  (forall s, o = Some s -> 0 < s -> d <= c + s * 1000).
Proof.
  unfold earlierDeadline. intros H. repeat case_match; simplify_eq; reflect_bools;
    (split; [eauto 6|split; intros; simplify_eq; lia]).
Qed.

Lemma fold_earliest c ls acc :
  match fold_left (earlierDeadline c) ls acc with
  | Some d => (acc = Some d \/ leaseDeadlineOf c ls d) /\
              (forall e, acc = Some e -> d <= e) /\ (forall e, leaseDeadlineOf c ls e -> d <= e)
  | None => acc = None /\ forall e, ~ leaseDeadlineOf c ls e
  end.
Proof.
  unfold leaseDeadlineOf. revert acc. induction ls as [|o ls IH]; intros acc; cbn.
  - destruct acc; naive_solver.
  - specialize (IH (earlierDeadline c acc o)). destruct (fold_left _ ls _) as [d|] eqn:E.
    + destruct IH as (Hor & Hle & Hall). destruct (earlierDeadline c acc o) as [m|] eqn:Em.
      * destruct (earlierDeadline_spec _ _ _ _ Em) as (Hm & Hma & Hms).
        specialize (Hle m eq_refl). split; [|split].
        -- destruct Hor as [[= ->]|(s & ? & ? & ?)]; [|naive_solver].
           destruct Hm as [->|(s & -> & ? & ?)]; [by left|right; eauto].
        -- intros e He. specialize (Hma e He). lia.
        -- intros e (s & [->|Hin] & Hs & ->).
           ++ specialize (Hms s eq_refl Hs). lia.
           ++ apply Hall. eauto.
      * unfold earlierDeadline in Em. repeat case_match; simplify_eq; reflect_bools;
          (split; [naive_solver|split; [done|]]; intros e (s & [Hs|Hin] & ? & ->);
           [simplify_eq; lia|apply Hall; eauto]).
    + destruct IH as [Hacc Hno]. unfold earlierDeadline in Hacc.
      repeat case_match; simplify_eq; reflect_bools;
        (split; [done|]; intros e (s & [Hs|Hin] & ? & ->); [simplify_eq; lia|eapply Hno; eauto]).
Qed.

(** A run's lease is the earliest of its VMs': it shows as expired exactly
    from the moment the first lease of a VM has run out, and the deadline that
    is shown is the end of one of the VMs' leases. *)
Theorem lease_expires_with_first_vm createdAtMs leases nowMs :
  (lease_state (leaseInfo (computeLeaseDeadline createdAtMs leases) nowMs) = lease_expired <->
   exists s, In (Some s) leases /\ 0 < s /\ createdAtMs + s * 1000 <= nowMs) /\
  (forall d, lease_deadlineMs (leaseInfo (computeLeaseDeadline createdAtMs leases) nowMs) = Some d ->
   leaseDeadlineOf createdAtMs leases d /\
   lease_remainingMs (leaseInfo (computeLeaseDeadline createdAtMs leases) nowMs) = Z.max 0 (d - nowMs)).
Proof.
  unfold computeLeaseDeadline. pose proof (fold_earliest createdAtMs leases None) as H.
  destruct (fold_left _ leases None) as [d|]; cbn.
  - destruct H as ([|Hd] & _ & Hmin); [done|]. split; [|naive_solver].
    case_match; reflect_bools.
    + split; [|done]. intros _. destruct Hd as (s & ? & ? & ->). exists s. split; [done|]. lia.
    + split; [repeat case_match; done|]. intros (s & Hin & Hs & Hle).
      specialize (Hmin _ (ex_intro _ s (conj Hin (conj Hs eq_refl)))). lia.
  - destruct H as [_ Hno]. split; [|done]. split; [done|].
    intros (s & Hin & Hs & _). destruct (Hno (createdAtMs + s * 1000)). by exists s.
Qed.

(** * Theorems: saving stages *)

Definition savingStageIndex (s : ScenarioRunSavingStage) : Z :=
  match s with
  | save_requested => 0 | closing_workspace => 1 | saving_files => 2
  | preparing_replay => 3 | finalizing_recap => 4
  end.

Lemma fold_min_le v vs x : x <= fold_left Z.min vs v <-> x <= v /\ Forall (fun y => x <= y) vs.
Proof.
  revert v. induction vs as [|w vs IH]; intros v; cbn; [rewrite Forall_nil; tauto|].
  rewrite IH, Forall_cons. rewrite Z.min_glb_iff. tauto.
Qed.

Lemma omap_id_length {A} (l : list (option A)) :
  (length (omap id l) <= length l)%nat /\
  (length (omap id l) = length l -> l = map Some (omap id l)).
Proof.
  induction l as [|[x|] l [IH1 IH2]]; cbn; [done| |].
  - split; [lia|]. intros [= H]. by rewrite <- IH2.
  - split; [lia|]. intros H. lia.
Qed.

Lemma lowestArchiveStageRank_spec rs r :
  lowestArchiveStageRank (Some rs) = Some r ->
  exists v vs, rs = map Some (v :: vs) /\ r = fold_left Z.min vs v.
Proof.
  unfold lowestArchiveStageRank. destruct (omap_id_length rs) as [_ H].
  destruct (_ || _) eqn:E; [done|]. reflect_bools.
  assert (Hl : rs = map Some (omap id rs)) by (apply H; lia).
  destruct (omap id rs) as [|v vs]; cbn; [done|]. intros [= <-]. eauto.
Qed.

Lemma lowestArchiveStageRank_known v vs :
  lowestArchiveStageRank (Some (map Some (v :: vs))) = Some (fold_left Z.min vs v).
Proof.
  assert (H : forall l : list Z, omap id (map Some l) = l)
    by (induction l as [|x l IH]; cbn; [done|by rewrite IH]).
  unfold lowestArchiveStageRank. rewrite H, length_map, Z.eqb_refl. done.
Qed.

Lemma known_ranks_pointwise vs after :
  Forall2 (fun a b : option Z => forall x, a = Some x -> exists y, b = Some y /\ x <= y)
    (map Some vs) after ->
  exists ws, after = map Some ws /\ Forall2 Z.le vs ws.
Proof.
  revert after. induction vs as [|x vs IH]; intros after H;
    inversion H as [|? b ? bs Hx Hr]; subst; [by exists []|].
  destruct (Hx x eq_refl) as (y & -> & Hy). destruct (IH _ Hr) as (ws & -> & ?).
  exists (y :: ws). split; [done|by constructor].
Qed.

Lemma fold_min_mono v vs w ws :
  v <= w -> Forall2 Z.le vs ws -> fold_left Z.min vs v <= fold_left Z.min ws w.
Proof.
  intros Hvw Hws. revert v w Hvw. induction Hws as [|x y vs ws Hxy _ IH]; intros v w Hvw; [done|].
  cbn. apply IH. lia.
Qed.

(** Saving progress is the slowest VM's and never moves back: with every
    VM's archive rank at least what it was, the shown stage of an archiving run
    is the same or a later one; and the recap is only being finalized when every
    VM has at least prepared its replay. *)
Theorem saving_stage_monotone before after s
    (Hle : Forall2 (fun a b => forall x, a = Some x -> exists y, b = Some y /\ x <= y) before after)
    (Hs : deriveScenarioRunSavingStage run_archiving (Some before) = Some s) :
  exists s', deriveScenarioRunSavingStage run_archiving (Some after) = Some s' /\
    savingStageIndex s <= savingStageIndex s' /\
    (s' = finalizing_recap -> Forall (fun r => exists x, r = Some x /\ 3 <= x) after).
Proof.
  assert (Hex : exists s', deriveScenarioRunSavingStage run_archiving (Some after) = Some s')
    by (cbn -[lowestArchiveStageRank]; repeat case_match; eauto).
  destruct Hex as [s' Hs']. exists s'. split; [done|].
  unfold deriveScenarioRunSavingStage in Hs, Hs'. split.
  - destruct (lowestArchiveStageRank (Some before)) as [r|] eqn:E.
    + destruct (lowestArchiveStageRank_spec _ _ E) as (v & vs & -> & ->).
      destruct (known_ranks_pointwise _ _ Hle) as (ws' & -> & Hws).
      inversion Hws as [|? w ? ws Hvw Hr]; subst.
      rewrite lowestArchiveStageRank_known in Hs'.
      pose proof (fold_min_mono _ _ _ _ Hvw Hr).
      cbn in Hs, Hs'. repeat case_match; simplify_eq; reflect_bools; cbn; lia.
    + simplify_eq. repeat case_match; simplify_eq; cbn; lia.
  - intros ->. destruct (lowestArchiveStageRank (Some after)) as [r|] eqn:E; [|done].
    destruct (lowestArchiveStageRank_spec _ _ E) as (w & ws & -> & ->).
    destruct (_ <=? _) eqn:Er; [|by destruct (_ <=? _) in Hs']. reflect_bools.
    apply fold_min_le in Er as [Hw Hf]. apply Forall_map. cbn in Hw, Hf.
    constructor; [eauto|]. eapply Forall_impl; [exact Hf|]. cbn. eauto.
Qed.

(** * Theorems: probe history *)

(** What a heartbeat repeats of a probe. *)
Definition probeStatusOf (p : ScenarioProbeStatus) : ProbePhase * string * string :=
  (probe_phase p, probe_id p, probe_status p).

Lemma probeStatusSignature_perm vm vm' :
  map probeStatusOf (vmProbes vm) ≡ₚ map probeStatusOf (vmProbes vm') ->
  probeStatusSignature vm = probeStatusSignature vm'.
Proof.
  intros H. unfold probeStatusSignature. f_equal.
  apply js_sort_perm_eq; [apply str_leb_total|apply str_leb_trans|apply str_leb_antisym|].
  assert (He : forall l, map probeStatusEntry l =
    map (fun '(ph, id, st) => probePhaseName ph +:+ ":" +:+ id +:+ "=" +:+ st) (map probeStatusOf l))
    by (intros l; rewrite map_map; by apply map_ext).
  rewrite !He. by apply Permutation_map.
Qed.

(** Heartbeats leave no history: when every VM of the next document repeats
    the statuses of its probes, in any order and whatever values and errors they
    carry, no row is recorded. *)
Theorem heartbeat_records_nothing createAppId table runId current next observedAt
    (Hids : NoDup (map vm_id (run_vms current)))
    (Hsame : forall vm, In vm (run_vms next) -> exists vm0, In vm0 (run_vms current) /\
       vm_id vm0 = vm_id vm /\
       map probeStatusOf (vmProbes vm0) ≡ₚ map probeStatusOf (vmProbes vm)) :
  recordProbeTransitions createAppId table runId current next observedAt = table.
Proof.
  unfold recordProbeTransitions.
  enough (probeTransitionVms current next = []) as -> by done.
  unfold probeTransitionVms. rewrite Map_new_nodup by by rewrite <- list_fmap_compose.
  induction (run_vms next) as [|vm vms IH]; cbn [List.filter]; [done|].
  destruct (Hsame vm (or_introl eq_refl)) as (vm0 & Hin & Hid & Hp).
  rewrite bool_decide_true, andb_false_r; [apply IH; intros; apply Hsame; by right|].
  rewrite <- (probeStatusSignature_perm _ _ Hp), <- Hid. apply Map_get_nodup.
  - by rewrite <- list_fmap_compose.
  - apply list_elem_of_fmap. exists vm0. split; [done|]. by apply list_elem_of_In.
Qed.

Definition snapshotKey (r : ProbeSnapshotRow) : string * string * string :=
  (snap_runId r, snap_vmId r, snap_messageId r).

Lemma insertSnapshot_known table row :
  In (snapshotKey row) (map snapshotKey table) -> insertSnapshot table row = table.
Proof.
  intros (r & Hk & Hr)%in_map_iff. unfold insertSnapshot.
  assert (existsb (snapshotConflict row) table = true) as ->; [|done].
  apply existsb_exists. exists r. split; [done|]. unfold snapshotKey in Hk. simplify_eq.
  unfold snapshotConflict. rewrite H, H0, H1, !String.eqb_refl. by rewrite orb_true_r.
Qed.

Lemma insertSnapshot_key table row :
  ~ In (snap_id row) (map snap_id table) ->
  In (snapshotKey row) (map snapshotKey (insertSnapshot table row)).
Proof.
  intros Hid. unfold insertSnapshot. destruct (existsb _ table) eqn:E.
  - apply existsb_exists in E as (r & Hr & Hc). unfold snapshotConflict in Hc.
    apply orb_true_iff in Hc as [Hc|Hc]; reflect_bools.
    + destruct Hid. rewrite Hc. by apply in_map.
    + apply in_map_iff. exists r. unfold snapshotKey. by split; [congruence|].
  - rewrite map_app. apply in_or_app. right. by left.
Qed.

Lemma insertSnapshot_incl table row r :
  In r table -> In r (insertSnapshot table row).
Proof. unfold insertSnapshot. case_match; [done|]. intros. apply in_or_app. by left. Qed.

Lemma insertSnapshot_ids table row i :
  In i (map snap_id (insertSnapshot table row)) -> In i (map snap_id table) \/ i = snap_id row.
Proof.
  unfold insertSnapshot. case_match; [by left|]. rewrite map_app, in_app_iff. cbn. naive_solver.
Qed.

Lemma fold_insertSnapshot_keys rows table :
  NoDup (map snap_id rows) ->
  (forall r, In r rows -> ~ In (snap_id r) (map snap_id table)) ->
  (forall k, In k (map snapshotKey table) -> In k (map snapshotKey (fold_left insertSnapshot rows table))) /\
  (forall r, In r rows -> In (snapshotKey r) (map snapshotKey (fold_left insertSnapshot rows table))).
Proof.
  revert table. induction rows as [|row rows IH]; intros table Hn Hf; cbn; [naive_solver|].
  cbn in Hn. apply NoDup_cons in Hn as [Hni Hn].
  destruct (IH (insertSnapshot table row) Hn) as [H1 H2].
  { intros r Hr [Hin|Heq]%insertSnapshot_ids; [by apply (Hf r (or_intror Hr))|].
    apply Hni. rewrite <- Heq. apply list_elem_of_In, in_map, Hr. }
  split.
  - intros k (r & <- & Hr)%in_map_iff. apply H1, in_map. by apply insertSnapshot_incl.
  - intros r [->|Hr]; [|by apply H2]. apply H1, insertSnapshot_key, Hf. by left.
Qed.

Lemma fold_insertSnapshot_known rows table :
  (forall r, In r rows -> In (snapshotKey r) (map snapshotKey table)) ->
  fold_left insertSnapshot rows table = table.
Proof.
  induction rows as [|row rows IH]; intros H; cbn; [done|].
  rewrite insertSnapshot_known by (apply H; by left). apply IH. intros r Hr. apply H. by right.
Qed.

Lemma imap_snapshot_keys ids ids' runId t vms r :
  In r (imap (fun i vm => snapshotRow runId t (ids' i) vm) vms) ->
  exists r', In r' (imap (fun i vm => snapshotRow runId t (ids i) vm) vms) /\
    snapshotKey r = snapshotKey r'.
Proof.
  rewrite <- !list_elem_of_In. setoid_rewrite <- list_elem_of_In.
  intros (i & Hi)%list_elem_of_lookup. rewrite list_lookup_imap in Hi.
  destruct (vms !! i) as [vm|] eqn:E; cbn in Hi; [|done]. simplify_eq.
  exists (snapshotRow runId t (ids i) vm). split; [|done].
  apply list_elem_of_lookup. exists i. by rewrite list_lookup_imap, E.
Qed.

(** The stored probes are read back as they were recorded. *)
Lemma snapshotRow_readable runId t newId vm :
  parseSnapshotProbes (Some (snap_snapshotJson (snapshotRow runId t newId vm))) =
  map (fun p => mkSnapshotProbe (probe_id p) (probe_label p) (probe_kind p) (probe_phase p)
                  (probe_status p)) (vmProbes vm).
Proof.
  cbn. induction (vmProbes vm) as [|p ps IH]; cbn; [done|]. rewrite IH. by destruct (probe_phase p).
Qed.

(** History is recorded once: with fresh row identifiers, projecting the
    same transition again (a replayed report, under any identifiers) adds no
    row, and each VM whose statuses changed has a row of its observation. *)
Theorem probe_transitions_recorded_once createAppId createAppId' table runId current next observedAt
    (Hinj : forall i j, createAppId i = createAppId j -> i = j)
    (Hfresh : forall i, ~ In (createAppId i) (map snap_id table)) :
  let recorded := recordProbeTransitions createAppId table runId current next observedAt in
  recordProbeTransitions createAppId' recorded runId current next observedAt = recorded /\
  (forall vm, In vm (probeTransitionVms current next) -> exists row, In row recorded /\
     snap_runId row = runId /\ snap_vmId row = vm_id vm /\
     snap_messageId row = pretty (nullish (vm_runtimeObservedAt vm) observedAt)).
Proof.
  intros recorded. unfold recorded, recordProbeTransitions.
  set (vms := probeTransitionVms current next).
  destruct (fold_insertSnapshot_keys
    (imap (fun i vm => snapshotRow runId observedAt (createAppId i) vm) vms) table) as [_ Hk].
  { apply NoDup_alt. intros i j x Hi Hj. rewrite list_lookup_fmap, list_lookup_imap in Hi, Hj.
    destruct (vms !! i), (vms !! j); simplify_eq/=. by apply Hinj. }
  { intros r (i & Hi)%list_elem_of_In%list_elem_of_lookup. rewrite list_lookup_imap in Hi.
    destruct (vms !! i); simplify_eq/=. apply Hfresh. }
  split.
  - apply fold_insertSnapshot_known.
    intros r (r' & Hr' & ->)%(imap_snapshot_keys createAppId). by apply Hk.
  - intros vm (i & Hi)%list_elem_of_In%list_elem_of_lookup.
    assert (Hr : In (snapshotRow runId observedAt (createAppId i) vm)
                   (imap (fun i vm => snapshotRow runId observedAt (createAppId i) vm) vms)).
    { apply list_elem_of_In, list_elem_of_lookup. exists i. by rewrite list_lookup_imap, Hi. }
    apply Hk in Hr. apply in_map_iff in Hr as (row & Hrow & Hin).
    exists row. unfold snapshotKey in Hrow. cbn in Hrow. by simplify_eq.
Qed.

(** * Witnesses *)

Lemma presented_running_iff_openable_witness :
  let c := applyVmReportToRunState "run" Sample.run0
             (Sample.report_of (Sample.ready_report "g1" 100)) in
  prun_phase (presentScenarioRun (recomputeRunState c)) = view_running /\
  exists vm, In vm (run_vms (recomputeRunState c)) /\ vm_canOpenTerminal vm = true.
Proof.
  intros c. assert (Hv : prun_phase (presentScenarioRun (recomputeRunState c)) = view_running)
    by (vm_compute; reflexivity).
  split; [exact Hv|].
  apply (presented_running_iff_openable "run" Sample.run0 c); [repeat constructor| |exact Hv].
  apply reach_vm_report, reach_start.
Defined.

Lemma saving_stage_monotone_witness :
  exists s', deriveScenarioRunSavingStage run_archiving (Some [Some 3; Some 4]) = Some s' /\
    savingStageIndex preparing_replay <= savingStageIndex s' /\
    (s' = finalizing_recap -> Forall (fun r => exists x, r = Some x /\ 3 <= x) [Some 3; Some 4]).
Proof.
  apply (saving_stage_monotone [Some 2; Some 4]); [|reflexivity].
  repeat constructor; intros x [= <-]; eexists; (split; [reflexivity|lia]).
Defined.

Module HistorySample.
Definition run1 : RunStateDocument :=
  applyVmReportToRunState "run" Sample.run0 (Sample.report_of (Sample.ready_report "g1" 100)).
Definition ids (i : nat) : string := pretty i.
End HistorySample.

Lemma heartbeat_records_nothing_witness :
  recordProbeTransitions HistorySample.ids [] "run" HistorySample.run1
    (applyVmReportToRunState "run" HistorySample.run1
       (Sample.report_of (Sample.ready_report "g1" 200))) 7 = [].
Proof.
  apply heartbeat_records_nothing.
  - vm_compute. repeat constructor. apply not_elem_of_nil.
  - intros vm Hin. eexists. split; [left; reflexivity|].
    destruct Hin as [<-|[]]. split; [vm_compute; reflexivity|]. vm_compute. reflexivity.
Defined.

Lemma probe_transitions_recorded_once_witness :
  let recorded := recordProbeTransitions HistorySample.ids [] "run" Sample.run0 HistorySample.run1 7 in
  length recorded = 1%nat /\
  recordProbeTransitions (fun i => "again" +:+ pretty i) recorded "run" Sample.run0
    HistorySample.run1 7 = recorded.
Proof.
  intros recorded. split; [vm_compute; reflexivity|].
  apply (probe_transitions_recorded_once HistorySample.ids).
  - intros i j H. by apply pretty_nat_inj in H.
  - intros i [].
Defined.
