(* ===== verification/Store.v ===== *)
(** The relational store the control plane shares: the tables of
    apps/web/src/db/schema/runs.ts, runtime.ts and platform.ts that the run
    projection and the runtime executions touch, their unique indexes, and the
    batches that run on them.

    A statement is a function from the database to the changed database and the
    number of changed rows, or to the constraint it violates. A batch runs its
    statements in order and is atomic: when one fails, no change is kept. *)
From stdpp Require Import base list strings.
From Stdlib Require Import ZArith Lia.
From S2P Require Import Prelude Json RunState.

Open Scope string_scope.
Open Scope list_scope.
Open Scope Z_scope.

(** * Tables *)

Inductive ExecutionState : Type :=
| ex_queued | ex_provisioning | ex_ready | ex_archiving | ex_archived | ex_failed.
Inductive ReservationState : Type := res_pending | res_committed | res_released.
Inductive HostScope : Type := scope_platform | scope_personal | scope_organization.

#[export] Instance ExecutionState_eq_dec : EqDecision ExecutionState.
Proof. solve_decision. Defined.
#[export] Instance ReservationState_eq_dec : EqDecision ReservationState.
Proof. solve_decision. Defined.
#[export] Instance HostScope_eq_dec : EqDecision HostScope.
Proof. solve_decision. Defined.

(** [ScenarioRunHintSnapshot] of db/schema/shared.ts. *)
Inductive HintScope : Type := hint_scenario | hint_probe.
#[export] Instance HintScope_eq_dec : EqDecision HintScope.
Proof. solve_decision. Defined.
Record ScenarioRunHintSnapshot : Type := mkHint {
  hint_key : string;
  hint_scope : HintScope;
  hint_probeName : option string;
  hint_id : string;
  hint_title : option string;
  hint_bodyMarkdown : string;
}.

(** The learner content columns of [scenario_runs]. *)
Record RunContent : Type := mkContent {
  rc_hintsJson : list ScenarioRunHintSnapshot;
  rc_revealedHintsJson : list string;
  rc_solutionMarkdown : string;
  rc_solutionRevealedAt : option Z;
  rc_solutionAssisted : bool;
}.

(** [scenario_runs], the columns this code reads or writes. [sr_stateJson] is
    the stored document, [None] for a text that does not parse. *)
Record RunRow : Type := mkRunRow {
  sr_runId : string;
  sr_userId : string;
  sr_organizationId : option string;
  sr_runtimeExecutionId : option string;
  sr_hostId : string;
  sr_state : RunPhase;
  sr_stateRank : Z;
  sr_activeKey : option string;
  sr_stateJson : option RunStateDocument;
  sr_archiveEnteredAt : option Z;
  sr_deleteRequestedAt : option Z;
  sr_solvedAt : option Z;
  sr_completedAt : option Z;
  sr_failedAt : option Z;
  sr_createdAt : Z;
  sr_updatedAt : Z;
  sr_content : RunContent;
}.

(** [runtime_executions]; the provider is always [agent_kvm]. *)
Record ExecutionRow : Type := mkExecution {
  re_id : string;
  re_userId : string;
  re_organizationId : option string;
  re_hostId : option string;
  re_providerConnectionId : option string;
  re_domainKind : string;
  re_domainId : string;
  re_generation : Z;
  re_sourceExecutionId : option string;
  re_checkpointId : option string;
  re_state : ExecutionState;
  re_leaseExpiresAt : option Z;
  re_archiveRequestedAt : option Z;
  re_endedAt : option Z;
  re_createdAt : Z;
  re_updatedAt : Z;
}.

(** [active_runtime_slots]: one per user and one per execution. *)
Record SlotRow : Type := mkSlot {
  slot_userId : string;
  slot_executionId : string;
  slot_acquiredAt : Z;
}.

(** [host_resource_reservations]. *)
Record ReservationRow : Type := mkReservation {
  hr_executionId : string;
  hr_hostId : string;
  hr_cpuMillis : Z;
  hr_memoryMib : Z;
  hr_worstCaseDiskMib : Z;
  hr_state : ReservationState;
  hr_expiresAt : option Z;
  hr_releasedAt : option Z;
  hr_createdAt : Z;
  hr_updatedAt : Z;
}.

Record StoredTerminal : Type := mkStoredTerminal {
  st_host : string;
  st_port : Z;
  st_username : string;
  st_hostKeyOpenssh : string;
  st_privateKeyCiphertextB64 : string;
  st_privateKeyIvB64 : string;
}.

(** [runtime_vms]. *)
Record RuntimeVmRow : Type := mkRuntimeVm {
  rv_id : string;
  rv_executionId : string;
  rv_vmId : string;
  rv_ordinal : Z;
  rv_runtimeVmName : string;
  rv_imageKeyJson : json;
  rv_imageSha256 : string;
  rv_cpuMillis : Z;
  rv_memoryMib : Z;
  rv_diskMib : Z;
  rv_terminal : option StoredTerminal;
  rv_terminalObservedAt : option Z;
  rv_createdAt : Z;
  rv_updatedAt : Z;
}.

(** [agent_hosts], [member], [user] and [runtime_vm_actual_state]; of a VM's
    stored report the run, the VM and the generation it names. *)
Record HostRow : Type := mkHost {
  ah_id : string;
  ah_scope : HostScope;
  ah_role : string;
  ah_userId : option string;
  ah_organizationId : option string;
  ah_activeSessionId : option string;
  ah_credentialGeneration : Z;
  ah_disabled : bool;
}.
Record MemberRow : Type := mkMember {
  mb_organizationId : string;
  mb_userId : string;
}.
Record UserRow : Type := mkUser {
  us_id : string;
  us_deletedAt : option Z;
  us_banned : bool;
}.
Record ActualVmRow : Type := mkActualVm {
  av_runtimeVmId : string;
  av_executionId : string;
  av_hostId : string;
  av_reportRunId : string;
  av_reportVmName : string;
  av_reportGeneration : option string;
}.

Record Db : Type := mkDb {
  db_runs : list RunRow;
  db_executions : list ExecutionRow;
  db_slots : list SlotRow;
  db_reservations : list ReservationRow;
  db_vms : list RuntimeVmRow;
  db_hosts : list HostRow;
  db_members : list MemberRow;
  db_users : list UserRow;
  db_actual : list ActualVmRow;
}.

Definition set_runs (db : Db) rows : Db :=
  mkDb rows (db_executions db) (db_slots db) (db_reservations db) (db_vms db) (db_hosts db) (db_members db)
    (db_users db) (db_actual db).
Definition set_executions (db : Db) rows : Db :=
  mkDb (db_runs db) rows (db_slots db) (db_reservations db) (db_vms db) (db_hosts db) (db_members db)
    (db_users db) (db_actual db).
Definition set_slots (db : Db) rows : Db :=
  mkDb (db_runs db) (db_executions db) rows (db_reservations db) (db_vms db) (db_hosts db) (db_members db)
    (db_users db) (db_actual db).
Definition set_reservations (db : Db) rows : Db :=
  mkDb (db_runs db) (db_executions db) (db_slots db) rows (db_vms db) (db_hosts db) (db_members db)
    (db_users db) (db_actual db).
Definition set_vms (db : Db) rows : Db :=
  mkDb (db_runs db) (db_executions db) (db_slots db) (db_reservations db) rows (db_hosts db) (db_members db)
    (db_users db) (db_actual db).

(** * Statements and batches *)

Inductive Constraint : Type :=
| uq_runtime_executions_id
| uq_runtime_executions_domain_generation
| ck_runtime_executions_generation_positive
| uq_active_runtime_slots
| uq_scenario_runs_active_key
| uq_scenario_runs_runtime_execution
| uq_host_resource_reservations
| uq_runtime_vms.

Definition Stmt : Type := Db -> result Constraint (Db * Z).

(** A failing statement rolls the whole batch back; the result carries the
    number of rows each statement changed. *)
Fixpoint batch (stmts : list Stmt) (db : Db) : result Constraint (Db * list Z) :=
  match stmts with
  | [] => Ok (db, [])
  | s :: rest =>
      p <-? s db;
      q <-? batch rest (fst p);
      Ok (fst q, snd p :: snd q)
  end.

(** [UPDATE ... SET f WHERE p] on a list of rows. *)
Definition update_where {A} (p : A -> bool) (f : A -> A) (rows : list A) : list A :=
  map (fun r => if p r then f r else r) rows.
Definition count_where {A} (p : A -> bool) (rows : list A) : Z :=
  Z.of_nat (length (List.filter p rows)).
Definition delete_where {A} (p : A -> bool) (rows : list A) : list A :=
  List.filter (fun r => negb (p r)) rows.

Definition updateRuns (p : RunRow -> bool) (f : RunRow -> RunRow) (db : Db) : Db * Z :=
  (set_runs db (update_where p f (db_runs db)), count_where p (db_runs db)).
Definition updateExecutions (p : ExecutionRow -> bool) (f : ExecutionRow -> ExecutionRow) (db : Db)
  : Db * Z :=
  (set_executions db (update_where p f (db_executions db)), count_where p (db_executions db)).

Definition executionConflict (a b : ExecutionRow) : option Constraint :=
  if re_id a =s re_id b then Some uq_runtime_executions_id
  else if (re_domainKind a =s re_domainKind b) && (re_domainId a =s re_domainId b)
          && (re_generation a =? re_generation b)
  then Some uq_runtime_executions_domain_generation
  else None.

Definition first_conflict {A} (conflict : A -> A -> option Constraint) (x : A) (rows : list A)
  : option Constraint :=
  head (omap (conflict x) rows).

Definition insertExecution (row : ExecutionRow) (db : Db) : result Constraint Db :=
  throw_if (re_generation row <=? 0) with ck_runtime_executions_generation_positive;
  match first_conflict executionConflict row (db_executions db) with
  | Some c => Err c
  | None => Ok (set_executions db (db_executions db ++ [row]))
  end.

Definition slotConflict (a b : SlotRow) : option Constraint :=
  if (slot_userId a =s slot_userId b) || (slot_executionId a =s slot_executionId b)
  then Some uq_active_runtime_slots else None.

Definition insertSlot (row : SlotRow) (db : Db) : result Constraint Db :=
  match first_conflict slotConflict row (db_slots db) with
  | Some c => Err c
  | None => Ok (set_slots db (db_slots db ++ [row]))
  end.

Definition insertReservation (row : ReservationRow) (db : Db) : result Constraint Db :=
  throw_if existsb (fun r => hr_executionId r =s hr_executionId row) (db_reservations db)
    with uq_host_resource_reservations;
  Ok (set_reservations db (db_reservations db ++ [row])).

Definition runtimeVmConflict (a b : RuntimeVmRow) : bool :=
  (rv_id a =s rv_id b) ||
  ((rv_executionId a =s rv_executionId b) &&
   ((rv_vmId a =s rv_vmId b) || (rv_ordinal a =? rv_ordinal b)
    || (rv_runtimeVmName a =s rv_runtimeVmName b))).

Definition insertRuntimeVm (row : RuntimeVmRow) (db : Db) : result Constraint Db :=
  throw_if existsb (runtimeVmConflict row) (db_vms db) with uq_runtime_vms;
  Ok (set_vms db (db_vms db ++ [row])).

(** [INSERT INTO t SELECT ...]: the rows of the query, one by one. *)
Fixpoint insert_all {A} (insert : A -> Db -> result Constraint Db) (rows : list A) (db : Db)
  : result Constraint (Db * Z) :=
  match rows with
  | [] => Ok (db, 0)
  | r :: rest =>
      db' <-? insert r db;
      p <-? insert_all insert rest db';
      Ok (fst p, 1 + snd p)
  end.

(** Deleting executions cascades to their VMs, slots and reservations and
    clears the reference of their runs. Foreign keys to users, organizations and
    hosts are not modelled. *)
Definition deleteExecutions (p : ExecutionRow -> bool) (db : Db) : Db :=
  let gone := map re_id (List.filter p (db_executions db)) in
  mkDb
    (map (fun r =>
       if match sr_runtimeExecutionId r with Some e => str_mem e gone | None => false end
       then mkRunRow (sr_runId r) (sr_userId r) (sr_organizationId r) None (sr_hostId r) (sr_state r)
              (sr_stateRank r) (sr_activeKey r) (sr_stateJson r) (sr_archiveEnteredAt r)
              (sr_deleteRequestedAt r) (sr_solvedAt r) (sr_completedAt r) (sr_failedAt r)
              (sr_createdAt r) (sr_updatedAt r) (sr_content r)
       else r) (db_runs db))
    (delete_where p (db_executions db))
    (delete_where (fun s => str_mem (slot_executionId s) gone) (db_slots db))
    (delete_where (fun s => str_mem (hr_executionId s) gone) (db_reservations db))
    (delete_where (fun s => str_mem (rv_executionId s) gone) (db_vms db))
    (db_hosts db) (db_members db)
    (db_users db) (db_actual db).

(** [activeAccountSql]: the account exists, is not deleted and not banned. *)
Definition activeAccount (db : Db) (userId : string) : bool :=
  existsb (fun u => (us_id u =s userId) && negb (bool_decide (is_Some (us_deletedAt u)))
                    && negb (us_banned u)) (db_users db).

(** * Integrity *)

(** What the unique indexes and the check on generations guarantee. *)
Record db_wf (db : Db) : Prop := mk_db_wf {
  wf_run_ids : NoDup (map sr_runId (db_runs db));
  wf_active_keys : NoDup (omap sr_activeKey (db_runs db));
  wf_run_executions : NoDup (omap sr_runtimeExecutionId (db_runs db));
  wf_execution_ids : NoDup (map re_id (db_executions db));
  wf_generations : NoDup (map (fun e => (re_domainKind e, re_domainId e, re_generation e))
                            (db_executions db));
  wf_generations_positive : Forall (fun e => 0 < re_generation e) (db_executions db);
  wf_slot_users : NoDup (map slot_userId (db_slots db));
  wf_slot_executions : NoDup (map slot_executionId (db_slots db));
  wf_reservations : NoDup (map hr_executionId (db_reservations db));
}.

Lemma count_where_zero {A} (p : A -> bool) l : (0 <? count_where p l) = existsb p l.
Proof.
  unfold count_where. induction l as [|x l IH]; [done|]. cbn [List.filter existsb]. destruct (p x); [|done].
  cbn [length orb]. apply Z.ltb_lt. lia.
Qed.
