(* ===== verification/RuntimeExecutions.v ===== *)
(** Runtime executions, active slots and their projection from scenario runs:
    apps/web/src/lib/runtime-executions.ts on the store of [Store].

    A handler reads the database before it writes it, and other requests may run
    between the two: handlers take the database they read and the database their
    batch runs on as separate arguments. *)
From stdpp Require Import base list strings pretty relations.
From Stdlib Require Import ZArith Lia.
From S2P Require Import Prelude Json RunState Store.

Open Scope string_scope.
Open Scope list_scope.
Open Scope Z_scope.

(** * Errors *)

Record AppError : Type := appError {
  err_status : Z;
  err_code : string;
  err_message : string;
}.

Definition invalidRuntimeInput (message : string) : AppError :=
  appError 400 "runtime_execution_invalid" message.

Definition activeRuntimeSlotConflict : AppError :=
  appError 409 "runtime_active_slot_conflict" "the user already has an active scenario runtime".

Definition isActiveRuntimeSlotConflict (c : Constraint) : bool :=
  match c with
  | uq_active_runtime_slots | uq_scenario_runs_active_key => true
  | _ => false
  end.

(** What a caller sees of a failed write: an error of this module or the
    database's own. *)
Inductive StoreError : Type :=
| app_error (e : AppError)
| db_error (c : Constraint).

(** * Input validation *)

Definition requiredId (value : option string) (name : string) : result StoreError string :=
  match read_opt_string value with
  | Some s => Ok s
  | None => Err (app_error (invalidRuntimeInput (name +:+ " must be a non-empty string")))
  end.

Definition normalizedOptionalId (value : option string) : result StoreError (option string) :=
  match value with
  | None => Ok None
  | Some v => s <-? requiredId (Some v) "identifier"; Ok (Some s)
  end.

Definition positiveInteger (value : Z) (name : string) : result StoreError Z :=
  throw_if negb (safe_integer value) || (value <=? 0)
    with app_error (invalidRuntimeInput (name +:+ " must be a positive integer"));
  Ok value.

Definition nonNegativeInteger (value : Z) (name : string) : result StoreError Z :=
  throw_if negb (safe_integer value) || (value <? 0)
    with app_error (invalidRuntimeInput (name +:+ " must be a non-negative integer"));
  Ok value.

Definition validTimestamp (value : Z) (name : string) : result StoreError Z :=
  nonNegativeInteger value name.

Definition optionalTimestamp (value : option Z) (name : string) : result StoreError (option Z) :=
  match value with
  | None => Ok None
  | Some v => t <-? validTimestamp v name; Ok (Some t)
  end.

Definition validateProviderIdentity (providerConnectionId : option string)
  : result StoreError unit :=
  match providerConnectionId with
  | Some _ => Err (app_error (appError 400 "runtime_provider_identity_invalid"
      "agent runtimes cannot reference an external provider connection"))
  | None => Ok ()
  end.

Record RuntimeVmSpec : Type := mkVmSpec {
  spec_vmId : string;
  spec_ordinal : Z;
  spec_runtimeVmName : string;
  spec_imageKey : json;
  spec_imageSha256 : string;
  spec_cpuMillis : Z;
  spec_memoryMib : Z;
  spec_diskMib : Z;
}.

Record Resources : Type := mkResources {
  rsrc_cpuMillis : Z;
  rsrc_memoryMib : Z;
  rsrc_worstCaseDiskMib : Z;
}.

(** One candidate of [prepareVmRows], with the identifiers, ordinals and names
    that came before it. *)
Definition prepareVmRow (vmIds : list string) (ordinals : list Z) (runtimeNames : list string)
    (candidate : RuntimeVmSpec) : result StoreError RuntimeVmSpec :=
  vmId <-? requiredId (Some (spec_vmId candidate)) "vms[].vmId";
  runtimeVmName <-? requiredId (Some (spec_runtimeVmName candidate)) "vms[].runtimeVmName";
  ordinal <-? nonNegativeInteger (spec_ordinal candidate) "vms[].ordinal";
  throw_if str_mem vmId vmIds || existsb (Z.eqb ordinal) ordinals || str_mem runtimeVmName runtimeNames
    with app_error (invalidRuntimeInput "runtime VM ids, ordinals, and runtime names must be unique");
  throw_if negb (isRecord (Some (spec_imageKey candidate)))
    with app_error (invalidRuntimeInput "vms[].imageKey must be an object");
  imageSha256 <-? requiredId (Some (spec_imageSha256 candidate)) "vms[].imageSha256";
  cpuMillis <-? positiveInteger (spec_cpuMillis candidate) "vms[].cpuMillis";
  memoryMib <-? positiveInteger (spec_memoryMib candidate) "vms[].memoryMib";
  diskMib <-? positiveInteger (spec_diskMib candidate) "vms[].diskMib";
  Ok (mkVmSpec vmId ordinal runtimeVmName (spec_imageKey candidate) imageSha256
        cpuMillis memoryMib diskMib).

Fixpoint prepareVmRows_from (vmIds : list string) (ordinals : list Z) (names : list string)
    (input : list RuntimeVmSpec) : result StoreError (list RuntimeVmSpec) :=
  match input with
  | [] => Ok []
  | candidate :: rest =>
      vm <-? prepareVmRow vmIds ordinals names candidate;
      vms <-? prepareVmRows_from (spec_vmId vm :: vmIds) (spec_ordinal vm :: ordinals)
                (spec_runtimeVmName vm :: names) rest;
      Ok (vm :: vms)
  end.

Definition prepareVmRows (input : list RuntimeVmSpec) : result StoreError (list RuntimeVmSpec) :=
  match input with
  | [] => Err (app_error (invalidRuntimeInput "a runtime execution requires at least one VM"))
  | _ => prepareVmRows_from [] [] [] input
  end.

Definition addVmResources (total : Resources) (vm : RuntimeVmSpec) : Resources :=
  mkResources (fl (rsrc_cpuMillis total + spec_cpuMillis vm))
    (fl (rsrc_memoryMib total + spec_memoryMib vm))
    (fl (rsrc_worstCaseDiskMib total + spec_diskMib vm)).

Definition checkTotal (name : string) (value : Z) : result StoreError unit :=
  throw_if negb (safe_integer value) || (value <=? 0)
    with app_error (invalidRuntimeInput (name +:+ " total is outside the supported range"));
  Ok ().

Definition sumResources (vms : list RuntimeVmSpec) : result StoreError Resources :=
  let resources := fold_left addVmResources vms (mkResources 0 0 0) in
  _ <-? checkTotal "cpuMillis" (rsrc_cpuMillis resources);
  _ <-? checkTotal "memoryMib" (rsrc_memoryMib resources);
  _ <-? checkTotal "worstCaseDiskMib" (rsrc_worstCaseDiskMib resources);
  Ok resources.

Definition prepareReservationResources (input : option Resources) (vmResources : Resources)
  : result StoreError Resources :=
  match input with
  | None => Ok vmResources
  | Some r =>
      cpu <-? positiveInteger (rsrc_cpuMillis r) "reservationResources.cpuMillis";
      mem <-? positiveInteger (rsrc_memoryMib r) "reservationResources.memoryMib";
      disk <-? positiveInteger (rsrc_worstCaseDiskMib r) "reservationResources.worstCaseDiskMib";
      throw_if (cpu <? rsrc_cpuMillis vmResources) || (mem <? rsrc_memoryMib vmResources)
               || (disk <? rsrc_worstCaseDiskMib vmResources)
        with app_error (invalidRuntimeInput
               "reservationResources cannot be smaller than the runtime VM resources");
      Ok (mkResources cpu mem disk)
  end.

(** * Generations *)

Definition sameDomain (a b : ExecutionRow) : bool :=
  (re_domainKind a =s re_domainKind b) && (re_domainId a =s re_domainId b).

(** [NOT EXISTS newer]: no execution of the same domain has a higher
    generation. *)
Definition newestGeneration (db : Db) (e : ExecutionRow) : bool :=
  negb (existsb (fun newer => sameDomain newer e && (re_generation e <? re_generation newer))
          (db_executions db)).

(** [max(current.generation)] over the domain of an execution. *)
Definition currentGenerationOf (db : Db) (e : ExecutionRow) : Z :=
  fold_left (fun m x => if sameDomain x e then Z.max m (re_generation x) else m)
    (db_executions db) (re_generation e).

Definition loadRuntimeExecutionIdentity (db : Db) (executionId : string)
  : option (ExecutionRow * Z) :=
  match List.find (fun e => re_id e =s executionId) (db_executions db) with
  | Some e => Some (e, currentGenerationOf db e)
  | None => None
  end.

Definition runtimeGenerationStale (row : ExecutionRow * Z) : AppError :=
  appError 409 "runtime_generation_stale"
    ("runtime generation is stale for " +:+ re_domainKind (fst row) +:+ ":" +:+ re_domainId (fst row)
     +:+ "; current generation is " +:+ pretty (snd row)).

Definition requireCurrentRuntimeGeneration (db : Db) (executionId : string)
    (expectedGeneration : Z) : result StoreError (ExecutionRow * Z) :=
  id <-? requiredId (Some executionId) "executionId";
  gen <-? positiveInteger expectedGeneration "expectedGeneration";
  match loadRuntimeExecutionIdentity db id with
  | None => Err (app_error (appError 404 "runtime_execution_not_found" "runtime execution not found"))
  | Some row =>
      throw_if negb (re_generation (fst row) =? gen) || negb (snd row =? gen)
        with app_error (runtimeGenerationStale row);
      Ok row
  end.

(** The [currentGuard] sub-query: the execution still has the expected
    generation and no newer one exists. *)
Definition currentGuard (db : Db) (executionId : string) (expectedGeneration : Z) : bool :=
  existsb (fun c => (re_id c =s executionId) && (re_generation c =? expectedGeneration)
                    && newestGeneration db c) (db_executions db).

(** * Row updates *)

Definition with_exec_state (e : ExecutionRow) (host : option string) (state : ExecutionState)
    (lease archiveRequestedAt endedAt : option Z) (updatedAt : Z) : ExecutionRow :=
  mkExecution (re_id e) (re_userId e) (re_organizationId e) host (re_providerConnectionId e)
    (re_domainKind e) (re_domainId e) (re_generation e) (re_sourceExecutionId e) (re_checkpointId e)
    state lease archiveRequestedAt endedAt (re_createdAt e) updatedAt.

Definition with_active_key (r : RunRow) (key : option string) (updatedAt : Z) : RunRow :=
  mkRunRow (sr_runId r) (sr_userId r) (sr_organizationId r) (sr_runtimeExecutionId r) (sr_hostId r)
    (sr_state r) (sr_stateRank r) key (sr_stateJson r) (sr_archiveEnteredAt r)
    (sr_deleteRequestedAt r) (sr_solvedAt r) (sr_completedAt r) (sr_failedAt r) (sr_createdAt r)
    updatedAt (sr_content r).

Definition with_execution_id (r : RunRow) (id : option string) : RunRow :=
  mkRunRow (sr_runId r) (sr_userId r) (sr_organizationId r) id (sr_hostId r)
    (sr_state r) (sr_stateRank r) (sr_activeKey r) (sr_stateJson r) (sr_archiveEnteredAt r)
    (sr_deleteRequestedAt r) (sr_solvedAt r) (sr_completedAt r) (sr_failedAt r) (sr_createdAt r)
    (sr_updatedAt r) (sr_content r).

(** [coalesce(a, b)]. *)
Definition coalesce {A} (a b : option A) : option A :=
  match a with Some _ => a | None => b end.

(** * The projection of a scenario run *)

Inductive ProjectionMode : Type := mode_create | mode_update.

Definition findRun (db : Db) (runId : string) : option RunRow :=
  List.find (fun r => sr_runId r =s runId) (db_runs db).

Definition projectedState (p : RunPhase) : ExecutionState :=
  match p with
  | run_queued => ex_queued
  | run_provisioning => ex_provisioning
  | run_teardown_requested | run_tearing_down | run_archiving => ex_archiving
  | run_completed => ex_archived
  | run_failed => ex_failed
  | _ => ex_ready
  end.

(** [run.state IN ('teardown_requested', ..., 'failed')]. *)
Definition leavingState (p : RunPhase) : bool :=
  RUN_PHASE_ORDER run_teardown_requested <=? RUN_PHASE_ORDER p.

Definition projectedEndedAt (run : RunRow) : option Z :=
  match sr_state run with
  | run_completed => coalesce (sr_completedAt run) (Some (sr_updatedAt run))
  | run_failed => coalesce (sr_failedAt run) (Some (sr_updatedAt run))
  | _ => None
  end.

Definition runExecutionId (run : RunRow) : string :=
  nullish (sr_runtimeExecutionId run) (sr_runId run).

(** The execution the creation statement inserts for a run. *)
Definition initialExecution (run : RunRow) : ExecutionRow :=
  mkExecution (runExecutionId run) (sr_userId run) (sr_organizationId run) (Some (sr_hostId run))
    None "scenario" (sr_runId run) 1 None None (projectedState (sr_state run)) None
    (if leavingState (sr_state run) then Some (sr_updatedAt run) else None)
    (projectedEndedAt run) (sr_createdAt run) (sr_updatedAt run).

Definition insertInitialExecution (runId : string) : Stmt := fun db =>
  insert_all insertExecution
    (map initialExecution
       (List.filter (fun run => (sr_runId run =s runId)
          && negb (existsb (fun e => re_id e =s runExecutionId run) (db_executions db)))
          (db_runs db))) db.

(** The row with generation zero that aborts the batch when the run names an
    execution of another identity. *)
Definition mismatchSentinel (run : RunRow) : ExecutionRow :=
  mkExecution ("__scenario_projection_mismatch__:" +:+ sr_runId run) (sr_userId run)
    (sr_organizationId run) (Some (sr_hostId run)) None "scenario" (sr_runId run) 0 None None
    ex_queued None None None (sr_createdAt run) (sr_updatedAt run).

Definition identityMatches (run : RunRow) (e : ExecutionRow) : bool :=
  (re_userId e =s sr_userId run) && bool_decide (re_organizationId e = sr_organizationId run)
  && (re_domainKind e =s "scenario") && (re_domainId e =s sr_runId run) && (re_generation e =? 1).

Definition rejectMismatchedExecution (runId : string) : Stmt := fun db =>
  insert_all insertExecution
    (flat_map (fun run =>
       if sr_runId run =s runId then
         map (fun _ => mismatchSentinel run)
           (List.filter (fun e => (re_id e =s runExecutionId run) && negb (identityMatches run e))
              (db_executions db))
       else []) (db_runs db)) db.

Definition fillExecutionReference (runId : string) : Stmt := fun db =>
  let p := updateRuns
    (fun r => (sr_runId r =s runId) && negb (bool_decide (is_Some (sr_runtimeExecutionId r))))
    (fun r => with_execution_id r (Some (runExecutionId r))) db in
  throw_if negb (bool_decide (NoDup (omap sr_runtimeExecutionId (db_runs (fst p)))))
    with uq_scenario_runs_runtime_execution;
  Ok p.

(** The execution of a run follows it, unless it is archived already. *)
Definition followRun (runId : string) (run : RunRow) (e : ExecutionRow) : ExecutionRow :=
  with_exec_state e (Some (sr_hostId run)) (projectedState (sr_state run)) (re_leaseExpiresAt e)
    (if leavingState (sr_state run)
     then coalesce (re_archiveRequestedAt e) (Some (sr_updatedAt run))
     else re_archiveRequestedAt e)
    (match sr_state run with
     | run_completed | run_failed => projectedEndedAt run
     | _ => re_endedAt e
     end)
    (sr_updatedAt run).

Definition projectExecution (runId : string) : Stmt := fun db =>
  match findRun db runId with
  | Some run =>
      Ok (updateExecutions
        (fun e => bool_decide (sr_runtimeExecutionId run = Some (re_id e))
           && (re_domainKind e =s "scenario") && (re_domainId e =s runId)
           && negb (bool_decide (re_state e = ex_archived)))
        (followRun runId run) db)
  | None => Ok (db, 0)
  end.

Definition releaseInactiveSlot (runId : string) : Stmt := fun db =>
  let target :=
    match List.find (fun r => (sr_runId r =s runId) && negb (bool_decide (is_Some (sr_activeKey r))))
            (db_runs db) with
    | Some run => sr_runtimeExecutionId run
    | None => None
    end in
  let hit s := bool_decide (target = Some (slot_executionId s)) in
  Ok (set_slots db (delete_where hit (db_slots db)), count_where hit (db_slots db)).

Definition claimActiveSlot (mode : ProjectionMode) (runId : string) : Stmt := fun db =>
  insert_all insertSlot
    (omap (fun run =>
       match sr_runtimeExecutionId run with
       | Some e =>
           if (sr_runId run =s runId) && bool_decide (is_Some (sr_activeKey run))
              && existsb (fun x => (re_id x =s e) && negb (bool_decide (re_state x = ex_archived)))
                   (db_executions db)
              && negb (existsb (fun s => (slot_userId s =s sr_userId run) && (slot_executionId s =s e))
                         (db_slots db))
           then Some (mkSlot (sr_userId run) e
                  (match mode with mode_create => sr_createdAt run | mode_update => sr_updatedAt run end))
           else None
       | None => None
       end) (db_runs db)) db.

Definition scenarioRunRuntimeProjectionStatements (runId : string) (mode : ProjectionMode)
  : list Stmt :=
  (match mode with
   | mode_create => [insertInitialExecution runId; rejectMismatchedExecution runId;
                     fillExecutionReference runId]
   | mode_update => []
   end) ++
  [projectExecution runId; releaseInactiveSlot runId; claimActiveSlot mode runId].

Definition executeScenarioRunRuntimeProjection (runId : string) (statements : list Stmt)
    (mode : ProjectionMode) (db : Db) : result StoreError (Db * list Z) :=
  id <-? requiredId (Some runId) "runId";
  match batch (statements ++ scenarioRunRuntimeProjectionStatements id mode) db with
  | Ok p => Ok p
  | Err c =>
      if isActiveRuntimeSlotConflict c then Err (app_error activeRuntimeSlotConflict)
      else match c with
           | ck_runtime_executions_generation_positive =>
               Err (app_error (appError 409 "scenario_runtime_execution_identity_mismatch"
                 "the scenario run does not reference its generation-one runtime execution"))
           | _ => Err (db_error c)
           end
  end.

(** * Deleting a run *)

Definition deleteRunRows (runId : string) (userId : option string) : Stmt := fun db =>
  let hit r := (sr_runId r =s runId)
               && match userId with None => true | Some u => sr_userId r =s u end in
  Ok (set_runs db (delete_where hit (db_runs db)), count_where hit (db_runs db)).

Definition deleteOrphanExecutions (runId : string) : Stmt := fun db =>
  let hit e := (re_domainKind e =s "scenario") && (re_domainId e =s runId)
               && negb (existsb (fun r => sr_runId r =s runId) (db_runs db)) in
  Ok (deleteExecutions hit db, count_where hit (db_executions db)).

(** The result is whether a run was deleted. *)
Definition deleteScenarioRunRuntimeProjection (runId : string) (userId : option string)
    (statements : option (list Stmt)) (db : Db) : result StoreError (Db * bool) :=
  id <-? requiredId (Some runId) "runId";
  user <-? normalizedOptionalId userId;
  let deleteStatements := nullish statements [deleteRunRows id user] in
  match deleteStatements with
  | [] => Err (app_error (invalidRuntimeInput "a scenario delete requires a mutation statement"))
  | _ =>
      match batch (deleteStatements ++ [deleteOrphanExecutions id]) db with
      | Ok (db', changes) => Ok (db', 0 <? nullish (head changes) 0)
      | Err c => Err (db_error c)
      end
  end.

(** * Creating an execution *)

Record CreateRuntimeExecutionInput : Type := mkCreateInput {
  ci_executionId : option string;
  ci_userId : string;
  ci_organizationId : option string;
  ci_hostId : option string;
  ci_providerConnectionId : option string;
  ci_domainKind : string;
  ci_domainId : string;
  ci_checkpointId : option string;
  ci_leaseExpiresAt : option Z;
  ci_vms : list RuntimeVmSpec;
  ci_claimActiveSlot : bool;
  ci_reservationState : option ReservationState;
  ci_reservationExpiresAt : option Z;
  ci_reservationResources : option Resources;
  ci_now : Z;
}.

Record RuntimeExecutionHandle : Type := mkHandle {
  h_execution : ExecutionRow;
  h_vms : list RuntimeVmRow;
  h_resources : Resources;
}.

Definition runtimeVmRow (executionId : string) (now : Z) (runtimeVmId : string)
    (vm : RuntimeVmSpec) : RuntimeVmRow :=
  mkRuntimeVm runtimeVmId executionId (spec_vmId vm) (spec_ordinal vm) (spec_runtimeVmName vm)
    (spec_imageKey vm) (spec_imageSha256 vm) (spec_cpuMillis vm) (spec_memoryMib vm)
    (spec_diskMib vm) None None now now.

Definition reservationRow (executionId hostId : string) (resources : Resources)
    (state : ReservationState) (expiresAt : option Z) (now : Z) : ReservationRow :=
  mkReservation executionId hostId (rsrc_cpuMillis resources) (rsrc_memoryMib resources)
    (rsrc_worstCaseDiskMib resources) state expiresAt None now now.

Definition insertStmt {A} (insert : A -> Db -> result Constraint Db) (row : A) : Stmt := fun db =>
  db' <-? insert row db; Ok (db', 1).

(** [newExecutionId] and [newVmId] are the identifiers [createAppId] yields. *)
Definition createRuntimeExecution (newExecutionId : string) (newVmId : nat -> string)
    (input : CreateRuntimeExecutionInput) (db : Db)
  : result StoreError (Db * RuntimeExecutionHandle) :=
  givenId <-? normalizedOptionalId (ci_executionId input);
  let executionId := nullish givenId newExecutionId in
  userId <-? requiredId (Some (ci_userId input)) "userId";
  domainId <-? requiredId (Some (ci_domainId input)) "domainId";
  organizationId <-? normalizedOptionalId (ci_organizationId input);
  hostId <-? normalizedOptionalId (ci_hostId input);
  providerConnectionId <-? normalizedOptionalId (ci_providerConnectionId input);
  _ <-? validateProviderIdentity providerConnectionId;
  checkpointId <-? normalizedOptionalId (ci_checkpointId input);
  now <-? validTimestamp (ci_now input) "now";
  leaseExpiresAt <-? optionalTimestamp (ci_leaseExpiresAt input) "leaseExpiresAt";
  vms <-? prepareVmRows (ci_vms input);
  resources <-? sumResources vms;
  reservationResources <-? prepareReservationResources (ci_reservationResources input) resources;
  reservationExpiresAt <-? optionalTimestamp (ci_reservationExpiresAt input) "reservationExpiresAt";
  let execution := mkExecution executionId userId organizationId hostId providerConnectionId
    (ci_domainKind input) domainId 1 None checkpointId ex_queued leaseExpiresAt None None now now in
  let vmRows := imap (fun i vm => runtimeVmRow executionId now (newVmId i) vm) vms in
  let statements :=
    [insertStmt insertExecution execution] ++ map (insertStmt insertRuntimeVm) vmRows ++
    match hostId with
    | Some host =>
        [insertStmt insertReservation
           (reservationRow executionId host reservationResources
              (nullish (ci_reservationState input) res_pending) reservationExpiresAt now)]
    | None => []
    end ++
    (if ci_claimActiveSlot input then [insertStmt insertSlot (mkSlot userId executionId now)] else []) in
  match batch statements db with
  | Ok (db', changes) =>
      throw_if negb (nullish (head changes) 0 =? 1)
        with app_error (appError 409 "runtime_execution_authorization_changed"
               "runtime provisioning is no longer authorized");
      Ok (db', mkHandle execution vmRows resources)
  | Err c =>
      if isActiveRuntimeSlotConflict c then Err (app_error activeRuntimeSlotConflict)
      else match c with
           | uq_runtime_executions_domain_generation =>
               Err (app_error (appError 409 "runtime_generation_conflict"
                 "this runtime domain already has an initial generation"))
           | _ => Err (db_error c)
           end
  end.

(** * Releasing, archiving and updating an execution *)

(** [UPDATE scenario_runs SET active_key = NULL ...] under the guard. *)
Definition clearActiveKey (executionId : string) (gen now : Z) : Stmt := fun db =>
  Ok (updateRuns
    (fun r => bool_decide (sr_runtimeExecutionId r = Some executionId)
              && bool_decide (is_Some (sr_activeKey r)) && currentGuard db executionId gen)
    (fun r => with_active_key r None (Z.max (sr_updatedAt r + 1) now)) db).

Definition deleteSlot (executionId : string) (gen : Z) : Stmt := fun db =>
  let hit s := (slot_executionId s =s executionId) && currentGuard db executionId gen in
  Ok (set_slots db (delete_where hit (db_slots db)), count_where hit (db_slots db)).

(** [rejectIfGenerationRaced] on the database as the second look finds it. *)
Definition rejectIfGenerationRaced (db : Db) (execution : ExecutionRow * Z) (expectedGeneration : Z)
    (mutationChanges : Z) : result StoreError unit :=
  if 0 <? mutationChanges then Ok ()
  else
    match loadRuntimeExecutionIdentity db (re_id (fst execution)) with
    | None => Err (app_error (runtimeGenerationStale execution))
    | Some row =>
        throw_if negb (re_generation (fst row) =? expectedGeneration)
                 || negb (snd row =? expectedGeneration)
          with app_error (runtimeGenerationStale row);
        Ok ()
    end.

(** [later] is what other requests do before the second look; the batch's
    database is kept whatever that look decides. *)
Definition releaseActiveRuntimeSlot (executionId : string) (expectedGeneration now : Z)
    (readDb db : Db) (later : Db -> Db) : Db * result StoreError bool :=
  match
    execution <-? requireCurrentRuntimeGeneration readDb executionId expectedGeneration;
    t <-? validTimestamp now "now";
    Ok (execution, t)
  with
  | Err e => (db, Err e)
  | Ok (execution, t) =>
      match batch [clearActiveKey (re_id (fst execution)) expectedGeneration t;
                   deleteSlot (re_id (fst execution)) expectedGeneration] db with
      | Err c => (db, Err (db_error c))
      | Ok (db', changes) =>
          let total := foldr Z.add 0 changes in
          (db', _ <-? rejectIfGenerationRaced (later db') execution expectedGeneration total;
                Ok (0 <? total))
      end
  end.

Definition releaseReservation (executionId : string) (gen endedAt : Z) : Stmt := fun db =>
  let hit r := (hr_executionId r =s executionId) && negb (bool_decide (hr_state r = res_released))
               && currentGuard db executionId gen in
  Ok (set_reservations db (update_where hit
        (fun r => mkReservation (hr_executionId r) (hr_hostId r) (hr_cpuMillis r) (hr_memoryMib r)
           (hr_worstCaseDiskMib r) res_released (hr_expiresAt r)
           (coalesce (hr_releasedAt r) (Some endedAt)) (hr_createdAt r) endedAt)
        (db_reservations db)),
      count_where hit (db_reservations db)).

Definition archiveExecution (executionId : string) (gen endedAt : Z) : Stmt := fun db =>
  Ok (updateExecutions
    (fun e => (re_id e =s executionId) && (re_generation e =? gen) && newestGeneration db e)
    (fun e => with_exec_state e (re_hostId e) ex_archived (re_leaseExpiresAt e)
       (coalesce (re_archiveRequestedAt e) (Some endedAt)) (coalesce (re_endedAt e) (Some endedAt))
       endedAt) db).

Definition archiveRuntimeExecution (executionId : string) (expectedGeneration endedAt : Z)
    (readDb db : Db) : Db * result StoreError unit :=
  match
    execution <-? requireCurrentRuntimeGeneration readDb executionId expectedGeneration;
    t <-? validTimestamp endedAt "endedAt";
    Ok (execution, t)
  with
  | Err e => (db, Err e)
  | Ok (execution, t) =>
      let id := re_id (fst execution) in
      match batch [clearActiveKey id expectedGeneration t;
                   releaseReservation id expectedGeneration t;
                   deleteSlot id expectedGeneration;
                   archiveExecution id expectedGeneration t] db with
      | Err c => (db, Err (db_error c))
      | Ok (db', changes) =>
          (db', throw_if negb (nullish (changes !! 3%nat) 0 =? 1)
                  with app_error (runtimeGenerationStale execution);
                Ok ())
      end
  end.

(** [leaseExpiresAt] is [None] when the property is undefined, [Some None]
    when it is null. The state is never [archived]. *)
Definition updateRuntimeExecutionState (executionId : string) (expectedGeneration : Z)
    (state : ExecutionState) (observedAt : Z) (leaseExpiresAt : option (option Z))
    (readDb db : Db) : Db * result StoreError unit :=
  match
    execution <-? requireCurrentRuntimeGeneration readDb executionId expectedGeneration;
    t <-? validTimestamp observedAt "observedAt";
    lease <-? match leaseExpiresAt with
              | None => Ok (re_leaseExpiresAt (fst execution))
              | Some l => optionalTimestamp l "leaseExpiresAt"
              end;
    Ok (execution, t, lease)
  with
  | Err e => (db, Err e)
  | Ok (execution, t, lease) =>
      let p := updateExecutions
        (fun e => (re_id e =s re_id (fst execution)) && (re_generation e =? expectedGeneration)
           && negb (bool_decide (re_state e = ex_archived) || bool_decide (re_state e = ex_failed))
           && newestGeneration db e)
        (fun e => with_exec_state e (re_hostId e) state lease
           (if bool_decide (state = ex_archiving) then coalesce (re_archiveRequestedAt e) (Some t)
            else re_archiveRequestedAt e)
           (if bool_decide (state = ex_failed) then coalesce (re_endedAt e) (Some t)
            else re_endedAt e) t) db in
      (fst p, throw_if negb (snd p =? 1) with app_error (runtimeGenerationStale execution); Ok ())
  end.

(** * Recording a VM's terminal *)

Record TerminalInput : Type := mkTerminalInput {
  ti_host : string;
  ti_port : Z;
  ti_username : string;
  ti_hostKeyOpenssh : string;
  ti_privateKeyOpenssh : string;
}.

(** The [EXISTS] guard: the VM's execution is the expected, newest generation,
    still open, and its host serves the expected session. *)
Definition terminalWriteAllowed (db : Db) (executionId : string) (gen : Z) (hostId sessionId : string)
    (credentialGeneration : Z) : bool :=
  existsb (fun current =>
    existsb (fun host =>
      bool_decide (re_hostId current = Some (ah_id host))
      && (re_id current =s executionId) && (re_generation current =? gen)
      && (ah_id host =s hostId) && bool_decide (ah_activeSessionId host = Some sessionId)
      && (ah_credentialGeneration host =? credentialGeneration) && negb (ah_disabled host)
      && negb (bool_decide (re_state current = ex_archived) || bool_decide (re_state current = ex_failed))
      && newestGeneration db current) (db_hosts db)) (db_executions db).

(** The row the second look joins: [None] when the session is gone, else the
    observation time of the VM. *)
Definition currentTerminalObservation (db : Db) (runtimeVmId hostId sessionId : string)
    (credentialGeneration : Z) : option Z :=
  match List.find (fun vm => (rv_id vm =s runtimeVmId) &&
          existsb (fun e => (re_id e =s rv_executionId vm) &&
            existsb (fun host => bool_decide (re_hostId e = Some (ah_id host)) && (ah_id host =s hostId)
              && bool_decide (ah_activeSessionId host = Some sessionId)
              && (ah_credentialGeneration host =? credentialGeneration) && negb (ah_disabled host))
              (db_hosts db)) (db_executions db)) (db_vms db) with
  | Some vm => rv_terminalObservedAt vm
  | None => None
  end.

(** [encryptRuntimePrivateKey] is the platform's cipher: ciphertext and vector
    of a private key in its context. *)
Definition recordRuntimeVmTerminalTarget
    (encrypt : string -> string -> string -> string -> string -> string * string)
    (executionId : string) (expectedGeneration : Z) (hostId sessionId : string)
    (credentialGeneration : Z) (vmIdInput : string) (target : TerminalInput) (observedAtInput : Z)
    (readDb db : Db) (later : Db -> Db) : Db * result StoreError unit :=
  match
    execution <-? requireCurrentRuntimeGeneration readDb executionId expectedGeneration;
    vmId <-? requiredId (Some vmIdInput) "vmId";
    host <-? requiredId (Some (ti_host target)) "target.host";
    username <-? requiredId (Some (ti_username target)) "target.username";
    hostKey <-? requiredId (Some (ti_hostKeyOpenssh target)) "target.hostKeyOpenssh";
    privateKey <-? requiredId (Some (ti_privateKeyOpenssh target)) "target.privateKeyOpenssh";
    port <-? positiveInteger (ti_port target) "target.port";
    observedAt <-? validTimestamp observedAtInput "observedAt";
    match List.find (fun vm => (rv_executionId vm =s re_id (fst execution)) && (rv_vmId vm =s vmId))
            (db_vms readDb) with
    | None => Err (app_error (appError 404 "runtime_vm_not_found" "runtime VM not found"))
    | Some vm =>
        let '(ciphertext, iv) :=
          encrypt (re_id (fst execution)) vmId (rv_runtimeVmName vm) hostKey privateKey in
        Ok (execution, vm, mkStoredTerminal host port username hostKey ciphertext iv, observedAt)
    end
  with
  | Err e => (db, Err e)
  | Ok (execution, vm, terminal, observedAt) =>
      let id := re_id (fst execution) in
      let hit row := (rv_id row =s rv_id vm) && (rv_executionId row =s id)
        && (match rv_terminalObservedAt row with Some t => t <=? observedAt | None => true end)
        && terminalWriteAllowed db (rv_executionId row) expectedGeneration hostId sessionId
             credentialGeneration in
      let db' := set_vms db (update_where hit
        (fun row => mkRuntimeVm (rv_id row) (rv_executionId row) (rv_vmId row) (rv_ordinal row)
           (rv_runtimeVmName row) (rv_imageKeyJson row) (rv_imageSha256 row) (rv_cpuMillis row)
           (rv_memoryMib row) (rv_diskMib row) (Some terminal) (Some observedAt) (rv_createdAt row)
           observedAt) (db_vms db)) in
      if count_where hit (db_vms db) =? 1 then (db', Ok ())
      else
        (db', _ <-? requireCurrentRuntimeGeneration (later db') id expectedGeneration;
              throw_if nullish (currentTerminalObservation (later db') (rv_id vm) hostId sessionId
                                  credentialGeneration) (-1) <=? observedAt
                with app_error (runtimeGenerationStale execution);
              Ok ())
  end.

(** * Lemmas: statements and batches *)

Lemma update_where_none {A} (p : A -> bool) f l :
  (forall x, In x l -> p x = false) -> update_where p f l = l.
Proof.
  unfold update_where. induction l as [|x l IH]; intros H; cbn; [done|].
  rewrite (H x) by by left. rewrite IH; [done|]. intros y Hy. apply H. by right.
Qed.

Lemma delete_where_none {A} (p : A -> bool) l :
  (forall x, In x l -> p x = false) -> delete_where p l = l.
Proof.
  unfold delete_where. induction l as [|x l IH]; intros H; cbn; [done|].
  rewrite (H x) by by left. cbn. rewrite IH; [done|]. intros y Hy. apply H. by right.
Qed.

Lemma count_where_none {A} (p : A -> bool) l :
  (forall x, In x l -> p x = false) -> count_where p l = 0.
Proof.
  unfold count_where. induction l as [|x l IH]; intros H; cbn; [done|].
  rewrite (H x) by by left. apply IH. intros y Hy. apply H. by right.
Qed.

Lemma map_update_where {A B} (g : A -> B) (p : A -> bool) f l :
  (forall x, g (f x) = g x) -> map g (update_where p f l) = map g l.
Proof.
  intros H. unfold update_where. rewrite map_map. apply map_ext. intros x. by destruct (p x).
Qed.

Lemma delete_where_sublist {A B} (g : A -> B) (p : A -> bool) l :
  map g (delete_where p l) `sublist_of` map g l.
Proof.
  unfold delete_where. induction l as [|x l IH]; cbn; [constructor|].
  destruct (p x); cbn; by constructor.
Qed.

Lemma delete_where_nodup {A B} (g : A -> B) (p : A -> bool) l :
  NoDup (map g l) -> NoDup (map g (delete_where p l)).
Proof. intros H. eapply sublist_NoDup; [exact H|]. apply delete_where_sublist. Qed.

Lemma in_delete_where {A} (p : A -> bool) l x :
  In x (delete_where p l) <-> In x l /\ p x = false.
Proof. unfold delete_where. rewrite filter_In, negb_true_iff. done. Qed.

Lemma in_update_where {A} (p : A -> bool) f l x :
  In x l -> In (if p x then f x else x) (update_where p f l).
Proof. intros H. unfold update_where. apply in_map_iff. by exists x. Qed.

(** What every statement keeps, a batch keeps. *)
Lemma batch_invariant (P : Db -> Prop) stmts db db' ch :
  Forall (fun s : Stmt => forall d d' n, P d -> s d = Ok (d', n) -> P d') stmts ->
  P db -> batch stmts db = Ok (db', ch) -> P db'.
Proof.
  intros Hall. revert db ch. induction Hall as [|s rest Hs _ IH]; intros db ch HP; cbn.
  - by intros [= <- _].
  - destruct (s db) as [[d n]|] eqn:E; cbn; [|done].
    destruct (batch rest d) as [[d' n']|] eqn:E'; cbn; [|done]. intros [= <- _].
    eapply IH; [|exact E']. eapply Hs; eauto.
Qed.

Lemma insert_all_invariant {A} (P : Db -> Prop) (insert : A -> Db -> result Constraint Db) rows db db' n :
  (forall r d d', In r rows -> P d -> insert r d = Ok d' -> P d') ->
  P db -> insert_all insert rows db = Ok (db', n) -> P db'.
Proof.
  revert db n. induction rows as [|r rows IH]; intros db n Hi HP; cbn; [by intros [= <- _]|].
  destruct (insert r db) as [d|] eqn:E; cbn; [|done].
  destruct (insert_all insert rows d) as [[d' m]|] eqn:E'; cbn; [|done]. intros [= <- _].
  eapply IH; [|eapply Hi; [by left|exact HP|exact E]|exact E'].
  intros x ? ? Hx. apply Hi. by right.
Qed.

Lemma first_conflict_none {A} (conflict : A -> A -> option Constraint) x rows :
  first_conflict conflict x rows = None -> forall y, In y rows -> conflict x y = None.
Proof.
  unfold first_conflict. induction rows as [|r rows IH]; cbn; intros H y; [done|].
  destruct (conflict x r) eqn:E; [done|]. intros [<-|Hy]; [done|]. by apply IH.
Qed.

Lemma NoDup_snoc {A B} (g : A -> B) l x :
  NoDup (map g l) -> (forall y, In y l -> g x <> g y) -> NoDup (map g (l ++ [x])).
Proof.
  intros Hn Hx. rewrite map_app. apply NoDup_app. split; [done|]. split; [|apply NoDup_singleton].
  intros b (y & -> & Hy)%list_elem_of_fmap Hb%list_elem_of_singleton.
  apply (Hx y); [by apply list_elem_of_In|done].
Qed.

(** * Integrity of the store *)

Definition keeps (P : Db -> Prop) (s : Stmt) : Prop :=
  forall d d' n, P d -> s d = Ok (d', n) -> P d'.

Lemma insertExecution_wf row db db' :
  db_wf db -> insertExecution row db = Ok db' -> db_wf db'.
Proof.
  intros [] H. unfold insertExecution in H. destruct (_ <=? _) eqn:Eg; [done|].
  destruct (first_conflict _ _ _) eqn:E; [done|]. simplify_eq.
  assert (Hc := first_conflict_none _ _ _ E). reflect_bools.
  constructor; cbn; try done; try (apply NoDup_snoc; [done|]; intros y Hy Heq;
    specialize (Hc y Hy); unfold executionConflict in Hc).
  - by rewrite Heq, String.eqb_refl in Hc.
  - destruct (re_id row =s re_id y); [done|]. injection Heq as H1 H2 H3.
    by rewrite H1, H2, H3, !String.eqb_refl, Z.eqb_refl in Hc.
  - apply Forall_app. split; [done|]. by repeat constructor.
Qed.

Lemma insertSlot_wf row db db' : db_wf db -> insertSlot row db = Ok db' -> db_wf db'.
Proof.
  intros [] H. unfold insertSlot in H. destruct (first_conflict _ _ _) eqn:E; [done|]. simplify_eq.
  assert (Hc := first_conflict_none _ _ _ E).
  constructor; cbn; try done; apply NoDup_snoc; try done; intros y Hy Heq;
    specialize (Hc y Hy); unfold slotConflict in Hc; rewrite Heq, String.eqb_refl in Hc;
    by rewrite ?orb_true_r in Hc.
Qed.

Lemma insertReservation_wf row db db' : db_wf db -> insertReservation row db = Ok db' -> db_wf db'.
Proof.
  intros [] H. unfold insertReservation in H. destruct (existsb _ _) eqn:E; [done|]. simplify_eq.
  constructor; cbn; try done. apply NoDup_snoc; [done|]. intros y Hy Heq.
  assert (existsb (fun r => hr_executionId r =s hr_executionId row) (db_reservations db) = true); [|congruence].
  apply existsb_exists. exists y. split; [done|]. by rewrite Heq, String.eqb_refl.
Qed.

Lemma insertRuntimeVm_wf row db db' : db_wf db -> insertRuntimeVm row db = Ok db' -> db_wf db'.
Proof. intros [] H. unfold insertRuntimeVm in H. case_match; simplify_eq. by constructor. Qed.

Lemma insertStmt_wf {A} (insert : A -> Db -> result Constraint Db) row :
  (forall d d', db_wf d -> insert row d = Ok d' -> db_wf d') -> keeps db_wf (insertStmt insert row).
Proof.
  intros H d d' n Hd E. unfold insertStmt in E.
  destruct (insert row d) eqn:E'; cbn in E; simplify_eq. by apply (H d).
Qed.

Lemma set_slots_delete_wf p db : db_wf db -> db_wf (set_slots db (delete_where p (db_slots db))).
Proof. intros []. constructor; cbn; auto using delete_where_nodup. Qed.

(** Updates of executions that keep their identity. *)
Definition keeps_identity (f : ExecutionRow -> ExecutionRow) : Prop :=
  forall e, re_id (f e) = re_id e /\ re_domainKind (f e) = re_domainKind e /\
    re_domainId (f e) = re_domainId e /\ re_generation (f e) = re_generation e.

Lemma updateExecutions_wf p f db :
  keeps_identity f -> db_wf db -> db_wf (fst (updateExecutions p f db)).
Proof.
  intros Hf []. constructor; cbn; auto.
  - rewrite map_update_where; [done|]. intros x. by destruct (Hf x).
  - rewrite map_update_where; [done|]. intros x. by destruct (Hf x) as (_ & -> & -> & ->).
  - unfold update_where. apply Forall_map. eapply Forall_impl; [done|]. intros x Hx. cbn.
    destruct (p x); [|done]. by destruct (Hf x) as (_ & _ & _ & ->).
Qed.

Lemma with_exec_state_identity h s l a e u :
  keeps_identity (fun x => with_exec_state x (h x) (s x) (l x) (a x) (e x) (u x)).
Proof. by repeat split. Qed.

(** Updates of runs that keep their identity and at most clear their key. *)
Definition keeps_run_identity (f : RunRow -> RunRow) : Prop :=
  forall r, sr_runId (f r) = sr_runId r /\ sr_userId (f r) = sr_userId r /\
    sr_runtimeExecutionId (f r) = sr_runtimeExecutionId r /\
    (sr_activeKey (f r) = sr_activeKey r \/ sr_activeKey (f r) = None).

Lemma omap_update_sublist {A B} (g : A -> option B) (p : A -> bool) f l :
  (forall x, g (f x) = g x \/ g (f x) = None) ->
  omap g (update_where p f l) `sublist_of` omap g l.
Proof.
  intros H. unfold update_where. induction l as [|x l IH]; cbn; [constructor|].
  destruct (p x); [destruct (H x) as [->| ->]|]; destruct (g x); by try constructor.
Qed.

Lemma omap_update_same {A B} (g : A -> option B) (p : A -> bool) f l :
  (forall x, g (f x) = g x) -> omap g (update_where p f l) = omap g l.
Proof.
  intros H. unfold update_where. induction l as [|x l IH]; cbn; [done|].
  destruct (p x); rewrite ?H, IH; done.
Qed.

Lemma updateRuns_wf p f db : keeps_run_identity f -> db_wf db -> db_wf (fst (updateRuns p f db)).
Proof.
  intros Hf []. constructor; cbn; auto.
  - rewrite map_update_where; [done|]. intros x. by destruct (Hf x).
  - eapply sublist_NoDup; [exact wf_active_keys|]. apply omap_update_sublist. intros x. apply Hf.
  - rewrite omap_update_same; [done|]. intros x. apply Hf.
Qed.

Lemma insertInitialExecution_wf runId : keeps db_wf (insertInitialExecution runId).
Proof. intros d d' n. apply insert_all_invariant. intros r d1 d2 _. apply insertExecution_wf. Qed.

Lemma rejectMismatchedExecution_wf runId : keeps db_wf (rejectMismatchedExecution runId).
Proof. intros d d' n. apply insert_all_invariant. intros r d1 d2 _. apply insertExecution_wf. Qed.

Lemma fillExecutionReference_wf runId : keeps db_wf (fillExecutionReference runId).
Proof.
  intros d d' n [] H. unfold fillExecutionReference in H. cbv zeta in H.
  case_bool_decide as E; [|done]. cbn [negb] in H. unfold updateRuns in *. simplify_eq.
  cbn in E. constructor; cbn; auto.
  - by rewrite map_update_where.
  - by rewrite omap_update_same.
Qed.

Lemma projectExecution_wf runId : keeps db_wf (projectExecution runId).
Proof.
  intros d d' n Hd H. unfold projectExecution in H. destruct (findRun d runId) as [run|]; [|naive_solver].
  injection H as H _. rewrite <- H.
  match goal with |- db_wf (set_executions d (update_where ?p ?f _)) =>
    apply (updateExecutions_wf p f) end; [by repeat split|done].
Qed.

Lemma releaseInactiveSlot_wf runId : keeps db_wf (releaseInactiveSlot runId).
Proof. intros d d' n Hd H. unfold releaseInactiveSlot in H. simplify_eq. by apply set_slots_delete_wf. Qed.

Lemma claimActiveSlot_wf mode runId : keeps db_wf (claimActiveSlot mode runId).
Proof. intros d d' n. apply insert_all_invariant. intros r d1 d2 _. apply insertSlot_wf. Qed.

Lemma projectionStatements_wf runId mode :
  Forall (keeps db_wf) (scenarioRunRuntimeProjectionStatements runId mode).
Proof.
  unfold scenarioRunRuntimeProjectionStatements. apply Forall_app. split.
  - destruct mode; rewrite ?Forall_cons; auto using insertInitialExecution_wf,
      rejectMismatchedExecution_wf, fillExecutionReference_wf.
  - rewrite !Forall_cons. auto using projectExecution_wf, releaseInactiveSlot_wf, claimActiveSlot_wf.
Qed.

Lemma clearActiveKey_wf id gen now : keeps db_wf (clearActiveKey id gen now).
Proof.
  intros d d' n Hd H. unfold clearActiveKey in H. injection H as H _. rewrite <- H.
  match goal with |- db_wf (set_runs d (update_where ?p ?f _)) =>
    apply (updateRuns_wf p f) end; [|done]. intros r. cbn. auto.
Qed.

Lemma deleteSlot_wf id gen : keeps db_wf (deleteSlot id gen).
Proof. intros d d' n Hd H. unfold deleteSlot in H. simplify_eq. by apply set_slots_delete_wf. Qed.

Lemma releaseReservation_wf id gen t : keeps db_wf (releaseReservation id gen t).
Proof.
  intros d d' n [] H. unfold releaseReservation in H. simplify_eq.
  constructor; cbn; auto. by rewrite map_update_where.
Qed.

Lemma archiveExecution_wf id gen t : keeps db_wf (archiveExecution id gen t).
Proof.
  intros d d' n Hd H. unfold archiveExecution in H. injection H as H _. rewrite <- H.
  match goal with |- db_wf (set_executions d (update_where ?p ?f _)) =>
    apply (updateExecutions_wf p f) end; [by repeat split|done].
Qed.

#[export] Hint Resolve clearActiveKey_wf deleteSlot_wf releaseReservation_wf archiveExecution_wf : js.

(** * The steps of the store *)

(** [INSERT INTO scenario_runs] under its unique columns. *)
Definition insertRun (row : RunRow) : Stmt := fun db =>
  let runs := db_runs db ++ [row] in
  throw_if negb (bool_decide (NoDup (omap sr_activeKey runs))) with uq_scenario_runs_active_key;
  throw_if negb (bool_decide (NoDup (map sr_runId runs) /\ NoDup (omap sr_runtimeExecutionId runs)))
    with uq_scenario_runs_runtime_execution;
  Ok (set_runs db runs, 1).

(** Everything that writes these tables: a change of a run with its projection
    (the change keeps the run's identity and at most clears its active key), the
    creation of a run, and the handlers above on whatever they read before. *)
Inductive store_step (db : Db) : Db -> Prop :=
| step_change_run runId p f db' ch :
    keeps_run_identity f ->
    executeScenarioRunRuntimeProjection runId [fun d => Ok (updateRuns (p d) f d)] mode_update db
      = Ok (db', ch) -> store_step db db'
| step_create_run runId row db' ch :
    executeScenarioRunRuntimeProjection runId [insertRun row] mode_create db = Ok (db', ch) ->
    store_step db db'
| step_create_execution newId newVmId input db' h :
    createRuntimeExecution newId newVmId input db = Ok (db', h) -> store_step db db'
| step_release id gen now readDb later :
    store_step db (fst (releaseActiveRuntimeSlot id gen now readDb db later))
| step_archive id gen t readDb :
    store_step db (fst (archiveRuntimeExecution id gen t readDb db))
| step_update_state id gen state t lease readDb :
    store_step db (fst (updateRuntimeExecutionState id gen state t lease readDb db))
| step_record_terminal encrypt id gen host session cred vm target t readDb later :
    store_step db (fst (recordRuntimeVmTerminalTarget encrypt id gen host session cred vm target t
                          readDb db later)).

Lemma execute_invariant (P : Db -> Prop) runId stmts mode db db' ch :
  Forall (keeps P) stmts -> (forall r m, Forall (keeps P) (scenarioRunRuntimeProjectionStatements r m)) ->
  P db -> executeScenarioRunRuntimeProjection runId stmts mode db = Ok (db', ch) -> P db'.
Proof.
  intros Hs Hp HP H. unfold executeScenarioRunRuntimeProjection in H.
  destruct (requiredId (Some runId) "runId") as [id|]; cbn in H; [|done].
  destruct (batch _ db) as [p|c] eqn:E; [|by destruct c]. simplify_eq.
  eapply batch_invariant; [|exact HP|exact E]. apply Forall_app. by split.
Qed.

Lemma insertRun_wf row : keeps db_wf (insertRun row).
Proof.
  intros d d' n [] H. unfold insertRun in H. cbv zeta in H.
  case_bool_decide; [|done]. case_bool_decide; [|done]. cbn in H. simplify_eq.
  destruct_and?. by constructor.
Qed.

(** The statements of [createRuntimeExecution] are insertions. *)
Lemma create_invariant (P : Db -> Prop) newId newVmId input db db' h :
  (forall row, keeps P (insertStmt insertExecution row)) ->
  (forall row, keeps P (insertStmt insertRuntimeVm row)) ->
  (forall row, keeps P (insertStmt insertReservation row)) ->
  (forall row, keeps P (insertStmt insertSlot row)) ->
  P db -> createRuntimeExecution newId newVmId input db = Ok (db', h) -> P db'.
Proof.
  intros He Hv Hr Hs HP H. unfold createRuntimeExecution in H.
  repeat match type of H with
  | result_bind ?r _ = _ => destruct r as [?|?]; cbn [result_bind] in H; [|done]
  end. cbv zeta in H.
  destruct (batch _ db) as [[d ch]|c] eqn:E; [|by destruct c].
  destruct (negb _); [done|]. simplify_eq.
  eapply batch_invariant; [|exact HP|exact E].
  change (fun s : Stmt => forall d d' n, P d -> s d = Ok (d', n) -> P d') with (keeps P).
  apply Forall_app; split; [rewrite Forall_cons; auto|].
  apply Forall_app; split; [apply Forall_map, Forall_true; auto|].
  repeat case_match; rewrite ?Forall_app, ?Forall_cons; auto.
Qed.

Lemma release_invariant (P : Db -> Prop) id gen now readDb db later :
  (forall i g t, keeps P (clearActiveKey i g t)) -> (forall i g, keeps P (deleteSlot i g)) ->
  P db -> P (fst (releaseActiveRuntimeSlot id gen now readDb db later)).
Proof.
  intros H1 H2 HP. unfold releaseActiveRuntimeSlot.
  destruct (result_bind _ _) as [[ex t]|]; [|done].
  destruct (batch _ db) as [[d ch]|] eqn:E; cbn [fst]; [|done].
  eapply batch_invariant; [|exact HP|exact E]. rewrite !Forall_cons. auto.
  by repeat split; [apply H1|apply H2|].
Qed.

Lemma archive_invariant (P : Db -> Prop) id gen t readDb db :
  (forall i g t, keeps P (clearActiveKey i g t)) -> (forall i g t, keeps P (releaseReservation i g t)) ->
  (forall i g, keeps P (deleteSlot i g)) -> (forall i g t, keeps P (archiveExecution i g t)) ->
  P db -> P (fst (archiveRuntimeExecution id gen t readDb db)).
Proof.
  intros H1 H2 H3 H4 HP. unfold archiveRuntimeExecution.
  destruct (result_bind _ _) as [[ex u]|]; [|done]. cbv zeta.
  destruct (batch _ db) as [[d ch]|] eqn:E; cbn [fst]; [|done].
  eapply batch_invariant; [|exact HP|exact E]. rewrite !Forall_cons.
  by repeat split; [apply H1|apply H2|apply H3|apply H4|].
Qed.

(** The write of [updateRuntimeExecutionState] skips archived and failed rows. *)
Lemma update_state_invariant (P : Db -> Prop) id gen state t lease readDb db :
  (forall p f, keeps_identity f -> (forall e, p e = true -> re_state e <> ex_archived) ->
     P (fst (updateExecutions p f db))) ->
  P db -> P (fst (updateRuntimeExecutionState id gen state t lease readDb db)).
Proof.
  intros H HP. unfold updateRuntimeExecutionState.
  destruct (result_bind _ _) as [[[ex u] l]|]; [|done]. cbv zeta. cbn [fst].
  apply H; [by repeat split|]. intros e He. apply andb_true_iff in He as [He _].
  apply andb_true_iff in He as [_ He]. apply negb_true_iff, orb_false_iff in He as [He _].
  by apply bool_decide_eq_false in He.
Qed.

Lemma record_terminal_tables encrypt id gen host session cred vm target t readDb db later :
  let db' := fst (recordRuntimeVmTerminalTarget encrypt id gen host session cred vm target t
                    readDb db later) in
  exists vms, db' = set_vms db vms.
Proof.
  unfold recordRuntimeVmTerminalTarget. cbv zeta.
  destruct (result_bind _ _) as [[[[ex row] term] u]|].
  - destruct (_ =? 1); cbn [fst]; eauto.
  - exists (db_vms db). by destruct db.
Qed.

(** The store stays consistent: whatever sequence of run changes, creations,
    releases, archivals, state updates and terminal records is executed, on
    whatever these operations had read before, execution identities and
    generations stay unique and positive, each user holds at most one active
    slot and each execution at most one, and no two runs share an active key. *)
Theorem store_steps_keep_integrity db db'
    (Hwf : db_wf db) (Hsteps : rtc store_step db db') : db_wf db'.
Proof.
  induction Hsteps as [|db1 db2 db3 Hstep _ IH]; [done|]. apply IH. clear IH db3.
  destruct Hstep as [runId p f db' ch Hf H|runId row db' ch H|? ? ? ? ? H|? ? ? ? ?|? ? ? ?|? ? ? ? ? ?|].
  - eapply execute_invariant; [|apply projectionStatements_wf|exact Hwf|exact H].
    rewrite Forall_cons. split; [|done]. intros d d' n Hd [= <- _]. by apply (updateRuns_wf (p d) f).
  - eapply execute_invariant; [|apply projectionStatements_wf|exact Hwf|exact H].
    rewrite Forall_cons. split; [apply insertRun_wf|done].
  - eapply create_invariant; [| | | |exact Hwf|exact H]; intros row; apply insertStmt_wf;
      eauto using insertExecution_wf, insertRuntimeVm_wf, insertReservation_wf, insertSlot_wf.
  - apply release_invariant; auto with js.
  - apply archive_invariant; auto with js.
  - apply update_state_invariant; [|done]. intros p f Hf _. by apply updateExecutions_wf.
  - edestruct record_terminal_tables as [vms ->]. by destruct Hwf.
Qed.

(** * Archived executions *)

Definition archived_in (id : string) (db : Db) : Prop :=
  exists e, In e (db_executions db) /\ re_id e = id /\ re_state e = ex_archived.

Lemma archived_same id db db' :
  db_executions db' = db_executions db -> archived_in id db -> archived_in id db'.
Proof. unfold archived_in. by intros ->. Qed.

Lemma archived_update id p f db :
  (forall e, re_id (f e) = re_id e) ->
  (forall e, p e = true -> re_state e = ex_archived -> re_state (f e) = ex_archived) ->
  archived_in id db -> archived_in id (fst (updateExecutions p f db)).
Proof.
  intros Hid Hs (e & Hin & <- & He). exists (if p e then f e else e). cbn.
  split; [by apply in_update_where|]. destruct (p e) eqn:E; [|done]. split; [done|by apply Hs].
Qed.

Lemma archived_insert id row db db' :
  archived_in id db -> insertExecution row db = Ok db' -> archived_in id db'.
Proof.
  intros (e & Hin & He) H. unfold insertExecution in H. repeat case_match; simplify_eq.
  exists e. cbn. split; [apply in_or_app; by left|done].
Qed.

Lemma insertSlot_executions row db db' :
  insertSlot row db = Ok db' -> db_executions db' = db_executions db.
Proof. unfold insertSlot. case_match; intros; by simplify_eq. Qed.

Lemma archived_projection id r m :
  Forall (keeps (archived_in id)) (scenarioRunRuntimeProjectionStatements r m).
Proof.
  assert (Hins : forall rows d d' n, archived_in id d ->
            insert_all insertExecution rows d = Ok (d', n) -> archived_in id d').
  { intros rows d d' n. apply insert_all_invariant. intros x d1 d2 _. apply archived_insert. }
  unfold scenarioRunRuntimeProjectionStatements. apply Forall_app. split.
  - destruct m; rewrite ?Forall_cons; [|done]. split; [|split; [|split; [|done]]].
    + intros d d' n. apply Hins.
    + intros d d' n. apply Hins.
    + intros d d' n Hd H. unfold fillExecutionReference in H. case_match; [done|]. simplify_eq.
      by eapply archived_same.
  - rewrite !Forall_cons. split; [|split; [|split; [|done]]].
    + intros d d' n Hd H. unfold projectExecution in H. destruct (findRun d r) as [run|].
      2:{ by simplify_eq. }
      injection H as H _. rewrite <- H.
      match goal with |- archived_in id (set_executions d (update_where ?p ?f _)) =>
        apply (archived_update id p f) end; [done| |done].
      intros e [_ He]%andb_true_iff Ha. by apply negb_true_iff, bool_decide_eq_false in He.
    + intros d d' n Hd H. unfold releaseInactiveSlot in H. simplify_eq. by eapply archived_same.
    + intros d d' n. apply insert_all_invariant. intros x d1 d2 _ Hd H.
      eapply archived_same; [|exact Hd]. by eapply insertSlot_executions.
Qed.

(** C31. Archival is final: once an execution is archived, no later run
    projection, release, archival, state update or terminal record, including
    those that read the store before the archival, makes it anything else. *)
Theorem archived_executions_final db db' id
    (Harch : archived_in id db) (Hsteps : rtc store_step db db') : archived_in id db'.
Proof.
  induction Hsteps as [|db1 db2 db3 Hstep _ IH]; [done|]. apply IH. clear IH db3.
  destruct Hstep as [runId p f db' ch Hf H|runId row db' ch H|? ? ? ? ? H|? ? ? ? ?|? ? ? ?|? ? ? ? ? ?|].
  - eapply execute_invariant; [|apply archived_projection|exact Harch|exact H].
    rewrite Forall_cons. split; [|done]. intros d d' n Hd [= <- _]. by eapply archived_same.
  - eapply execute_invariant; [|apply archived_projection|exact Harch|exact H].
    rewrite Forall_cons. split; [|done]. intros d d' n Hd E. unfold insertRun in E.
    repeat case_match; simplify_eq. by eapply archived_same.
  - eapply create_invariant; [| | | |exact Harch|exact H]; intros row d d' n Hd E;
      unfold insertStmt in E.
    + destruct (insertExecution row d) eqn:E'; cbn in E; simplify_eq. by eapply archived_insert.
    + unfold insertRuntimeVm in E. case_match; cbn in E; simplify_eq. by eapply archived_same.
    + unfold insertReservation in E. case_match; cbn in E; simplify_eq. by eapply archived_same.
    + destruct (insertSlot row d) eqn:E'; cbn in E; simplify_eq.
      eapply archived_same; [|exact Hd]. by eapply insertSlot_executions.
  - apply release_invariant; [| |done]; unfold keeps, clearActiveKey, deleteSlot, updateRuns;
      intros; simplify_eq; by eapply archived_same.
  - apply archive_invariant; [| | | |done].
    1-3: unfold keeps, clearActiveKey, releaseReservation, deleteSlot, updateRuns;
         intros; simplify_eq; by eapply archived_same.
    intros i g u d d' n Hd E. unfold archiveExecution in E. injection E as E _. rewrite <- E.
    match goal with |- archived_in id (set_executions d (update_where ?p ?f _)) =>
      by apply (archived_update id p f) end.
  - apply update_state_invariant; [|done]. intros p f Hf Hp.
    apply archived_update; [intros e; apply Hf| |done].
    intros e He Ha. by destruct (Hp e He).
  - edestruct record_terminal_tables as [vms ->]. by eapply archived_same.
Qed.

(** * Stale generations *)

(** An execution of the domain has a higher generation. *)
Definition superseded (db : Db) (id : string) : Prop :=
  exists e newer, In e (db_executions db) /\ re_id e = id /\ In newer (db_executions db) /\
    sameDomain newer e = true /\ re_generation e < re_generation newer.

Lemma superseded_not_newest db id x :
  NoDup (map re_id (db_executions db)) -> superseded db id -> In x (db_executions db) -> re_id x = id ->
  newestGeneration db x = false.
Proof.
  intros Hn (e & newer & He & Hid & Hnw & Hs & Hg) Hx Hxid.
  assert (x = e) as ->.
  { apply (NoDup_map_inj re_id _ _ _ Hn); congruence. }
  unfold newestGeneration. apply negb_false_iff, existsb_exists. exists newer. split; [done|].
  rewrite Hs. cbn. by apply Z.ltb_lt.
Qed.

Lemma superseded_guard db id gen :
  NoDup (map re_id (db_executions db)) -> superseded db id -> currentGuard db id gen = false.
Proof.
  intros Hn Hs. unfold currentGuard. apply not_true_iff_false. rewrite existsb_exists.
  intros (x & Hx & H). reflect_bools.
  pose proof (superseded_not_newest _ _ _ Hn Hs Hx ltac:(eassumption)). congruence.
Qed.

Lemma required_execution readDb executionId gen row :
  requireCurrentRuntimeGeneration readDb executionId gen = Ok row -> re_id (fst row) = trim executionId.
Proof.
  unfold requireCurrentRuntimeGeneration, requiredId, read_opt_string, or_null.
  destruct (truthy (trim executionId)); cbn; [|done].
  destruct (positiveInteger _ _); cbn; [|done]. unfold loadRuntimeExecutionIdentity.
  destruct (List.find _ _) as [e|] eqn:E; [|done]. apply List.find_some in E as [_ E].
  destruct (_ || _); [done|]. intros [= <-]. cbn. by apply String.eqb_eq.
Qed.

Lemma set_same db :
  set_runs db (db_runs db) = db /\ set_slots db (db_slots db) = db /\
  set_reservations db (db_reservations db) = db /\ set_executions db (db_executions db) = db /\
  set_vms db (db_vms db) = db.
Proof. by destruct db. Qed.

(** Under a guard that fails, each guarded statement changes nothing. *)
Lemma guarded_noop db id gen t :
  currentGuard db id gen = false ->
  clearActiveKey id gen t db = Ok (db, 0) /\ deleteSlot id gen db = Ok (db, 0) /\
  releaseReservation id gen t db = Ok (db, 0).
Proof.
  intros Hg. destruct (set_same db) as (H1 & H2 & H3 & _).
  unfold clearActiveKey, deleteSlot, releaseReservation, updateRuns. rewrite Hg.
  rewrite !update_where_none, delete_where_none, !count_where_none, H1, H2, H3
    by (intros; by rewrite andb_false_r). done.
Qed.

Lemma archiveExecution_noop db id gen t :
  NoDup (map re_id (db_executions db)) -> superseded db id -> archiveExecution id gen t db = Ok (db, 0).
Proof.
  intros Hn Hs. unfold archiveExecution, updateExecutions. destruct (set_same db) as (_ & _ & _ & H4 & _).
  assert (Hp : forall e, In e (db_executions db) ->
    (re_id e =s id) && (re_generation e =? gen) && newestGeneration db e = false).
  { intros e He. destruct (re_id e =s id) eqn:E; [|done]. apply String.eqb_eq in E.
    by rewrite (superseded_not_newest _ _ _ Hn Hs He E), andb_false_r. }
  by rewrite update_where_none, count_where_none, H4.
Qed.

Section superseded.
Context (db readDb : Db) (executionId : string) (gen : Z).
Hypothesis Hwf : db_wf db.
Hypothesis Hs : superseded db (trim executionId).

Lemma superseded_newest x :
  In x (db_executions db) -> re_id x = trim executionId -> newestGeneration db x = false.
Proof. apply superseded_not_newest; [apply (wf_execution_ids _ Hwf)|done]. Qed.

Lemma superseded_currentGuard : currentGuard db (trim executionId) gen = false.
Proof. apply superseded_guard; [apply (wf_execution_ids _ Hwf)|done]. Qed.

Lemma archive_superseded t :
  fst (archiveRuntimeExecution executionId gen t readDb db) = db /\
  exists e, snd (archiveRuntimeExecution executionId gen t readDb db) = Err e.
Proof.
  unfold archiveRuntimeExecution.
  destruct (requireCurrentRuntimeGeneration _ _ _) as [ex|] eqn:E; cbn [result_bind]; [|eauto].
  apply required_execution in E. destruct (validTimestamp _ _) as [u|]; cbn [result_bind]; [|eauto].
  cbv zeta. rewrite E. destruct (guarded_noop db _ gen u superseded_currentGuard) as (H1 & H2 & H3).
  cbn [batch]. rewrite H1. cbn [result_bind fst snd]. rewrite H3. cbn [result_bind fst snd].
  rewrite H2. cbn [result_bind fst snd].
  rewrite archiveExecution_noop by (try apply (wf_execution_ids _ Hwf); done). cbn. eauto.
Qed.

Lemma release_superseded now later :
  fst (releaseActiveRuntimeSlot executionId gen now readDb db later) = db.
Proof.
  unfold releaseActiveRuntimeSlot.
  destruct (requireCurrentRuntimeGeneration _ _ _) as [ex|] eqn:E; cbn [result_bind]; [|done].
  apply required_execution in E. destruct (validTimestamp _ _) as [u|]; cbn [result_bind]; [|done].
  rewrite E. destruct (guarded_noop db _ gen u superseded_currentGuard) as (H1 & H2 & _).
  cbn [batch]. rewrite H1. cbn [result_bind fst snd]. rewrite H2. done.
Qed.

Lemma update_superseded state t lease :
  fst (updateRuntimeExecutionState executionId gen state t lease readDb db) = db /\
  exists e, snd (updateRuntimeExecutionState executionId gen state t lease readDb db) = Err e.
Proof.
  unfold updateRuntimeExecutionState.
  destruct (requireCurrentRuntimeGeneration _ _ _) as [ex|] eqn:E; cbn [result_bind]; [|eauto].
  apply required_execution in E. destruct (validTimestamp _ _) as [u|]; cbn [result_bind]; [|eauto].
  destruct (match lease with Some _ => _ | None => _ end) as [l|]; cbn [result_bind]; [|eauto].
  cbv zeta. destruct (set_same db) as (_ & _ & _ & H4 & _).
  unfold updateExecutions. rewrite update_where_none, count_where_none, H4; [cbn; eauto| |];
    (intros e He; rewrite E; destruct (re_id e =s _) eqn:Ei; [|done];
     apply String.eqb_eq in Ei; by rewrite (superseded_newest _ He Ei), andb_false_r).
Qed.

Lemma terminalWrite_superseded host session cred :
  terminalWriteAllowed db (trim executionId) gen host session cred = false.
Proof.
  apply not_true_iff_false. unfold terminalWriteAllowed. rewrite existsb_exists.
  intros (c & Hc & (h & _ & Hh)%existsb_exists). reflect_bools.
  pose proof (superseded_newest _ Hc ltac:(eassumption)). congruence.
Qed.

Lemma record_superseded encrypt host session cred vm target t later :
  fst (recordRuntimeVmTerminalTarget encrypt executionId gen host session cred vm target t
         readDb db later) = db.
Proof.
  unfold recordRuntimeVmTerminalTarget.
  destruct (requireCurrentRuntimeGeneration _ _ _) as [ex|] eqn:E; cbn [result_bind]; [|done].
  apply required_execution in E. destruct (result_bind _ _) as [[[[ex' row] term] u]|] eqn:Er; [|done].
  assert (ex' = ex) as ->.
  { repeat match type of Er with
    | result_bind ?r _ = _ => destruct r as [?|?]; cbn [result_bind] in Er; [|done]
    end. destruct (List.find _ _); [|done]. destruct (encrypt _ _ _ _ _). by simplify_eq. }
  cbv zeta. rewrite E.
  assert (Hd : forall x, (rv_id x =s rv_id row) && (rv_executionId x =s trim executionId)
    && match rv_terminalObservedAt x with Some t => t <=? u | None => true end
    && terminalWriteAllowed db (rv_executionId x) gen host session cred = false).
  { intros x. destruct (rv_executionId x =s trim executionId) eqn:Ex; [|by rewrite andb_false_r].
    apply String.eqb_eq in Ex. by rewrite Ex, terminalWrite_superseded, andb_false_r. }
  rewrite update_where_none, count_where_none by (intros; apply Hd).
  cbn [fst]. apply set_same.
Qed.
End superseded.

(** C22. A superseded generation is inert: once a newer execution of the domain
    exists when the write runs, archiving, releasing, updating or recording a
    terminal for the old one changes nothing, whatever was read before, and
    archiving and updating fail. *)
Theorem superseded_generation_inert db readDb executionId gen
    (Hwf : db_wf db) (Hs : superseded db (trim executionId)) :
  (forall t, fst (archiveRuntimeExecution executionId gen t readDb db) = db /\
     exists e, snd (archiveRuntimeExecution executionId gen t readDb db) = Err e) /\
  (forall now later, fst (releaseActiveRuntimeSlot executionId gen now readDb db later) = db) /\
  (forall state t lease,
     fst (updateRuntimeExecutionState executionId gen state t lease readDb db) = db /\
     exists e, snd (updateRuntimeExecutionState executionId gen state t lease readDb db) = Err e) /\
  (forall encrypt host session cred vm target t later,
     fst (recordRuntimeVmTerminalTarget encrypt executionId gen host session cred vm target t
            readDb db later) = db).
Proof.
  split; [|split; [|split]].
  - intros t. by apply archive_superseded.
  - intros now later. by apply release_superseded.
  - intros state t lease. by apply update_superseded.
  - intros. by apply record_superseded.
Qed.

(** * Active slots *)

Lemma batch_app a b db db' ch :
  batch (a ++ b) db = Ok (db', ch) ->
  exists d c1 c2, batch a db = Ok (d, c1) /\ batch b d = Ok (db', c2).
Proof.
  revert db ch. induction a as [|s a IH]; intros db ch; cbn; [eauto|].
  destruct (s db) as [[d n]|]; cbn; [|done].
  destruct (batch (a ++ b) d) as [[d' c]|] eqn:E; cbn; [|done]. intros [= -> _].
  destruct (IH _ _ E) as (m & c1 & c2 & -> & H). cbn. eauto.
Qed.

Lemma insert_all_slots rows db db' n :
  insert_all insertSlot rows db = Ok (db', n) ->
  db_slots db' = db_slots db ++ rows /\ db_runs db' = db_runs db /\
  db_executions db' = db_executions db.
Proof.
  revert db n. induction rows as [|r rows IH]; intros db n; cbn; [intros [= <- _]; by rewrite app_nil_r|].
  destruct (insertSlot r db) as [d|] eqn:E; cbn; [|done].
  destruct (insert_all insertSlot rows d) as [[d' m]|] eqn:E'; cbn; [|done]. intros [= <- _].
  destruct (IH _ _ E') as (-> & -> & ->). unfold insertSlot in E. case_match; simplify_eq.
  cbn. by rewrite <- app_assoc.
Qed.

Lemma update_projection_runs id d db' ch :
  batch (scenarioRunRuntimeProjectionStatements id mode_update) d = Ok (db', ch) ->
  db_runs db' = db_runs d.
Proof.
  apply (batch_invariant (fun x => db_runs x = db_runs d)); [|done].
  unfold scenarioRunRuntimeProjectionStatements. cbn [app]. rewrite !Forall_cons. split; [|split; [|split; [|done]]]; intros d1 d2 n Hd H.
  - unfold projectExecution in H. destruct (findRun d1 id); by simplify_eq.
  - unfold releaseInactiveSlot in H. by simplify_eq.
  - unfold claimActiveSlot in H. apply insert_all_slots in H as (_ & -> & _). done.
Qed.

(** A change of runs and the statements that follow it: the runs are changed as
    the mutation says. *)
Lemma projected_update runId (p : Db -> RunRow -> bool) f db db' ch :
  executeScenarioRunRuntimeProjection runId [fun d => Ok (updateRuns (p d) f d)] mode_update db = Ok (db', ch) ->
  db_runs db' = update_where (p db) f (db_runs db) /\ head ch = Some (count_where (p db) (db_runs db)).
Proof.
  unfold executeScenarioRunRuntimeProjection. destruct (requiredId _ _) as [id|]; [|done].
  cbn [result_bind]. destruct (batch _ db) as [q|c] eqn:E; [|by destruct c]. intros [= ->].
  cbn [app batch] in E. cbn [result_bind fst snd] in E.
  destruct (batch _ _) as [[d c]|] eqn:E' in E; cbn in E; simplify_eq.
  apply update_projection_runs in E'. by rewrite E'.
Qed.

Lemma unique_run db r1 r2 :
  db_wf db -> In r1 (db_runs db) -> In r2 (db_runs db) -> sr_runId r1 = sr_runId r2 -> r1 = r2.
Proof.
  intros [Hn _ _ _ _ _ _ _ _]. by apply NoDup_map_inj.
Qed.

(** The last two statements of the projection on a consistent store. *)
Lemma slot_statements db d db' n m mode runId run :
  db_wf db -> releaseInactiveSlot runId db = Ok (d, n) -> claimActiveSlot mode runId d = Ok (db', m) ->
  db_runs db' = db_runs db /\
  (In run (db_runs db) -> sr_runId run = runId ->
   forall e, sr_runtimeExecutionId run = Some e ->
   (sr_activeKey run = None -> forall s, In s (db_slots db') -> slot_executionId s <> e) /\
   (is_Some (sr_activeKey run) ->
    (exists x, In x (db_executions db') /\ re_id x = e /\ re_state x <> ex_archived) ->
    exists s, In s (db_slots db') /\ slot_userId s = sr_userId run /\ slot_executionId s = e)).
Proof.
  intros Hwf Hr Hc. unfold releaseInactiveSlot in Hr. cbv zeta in Hr.
  injection Hr as Hd _. unfold claimActiveSlot in Hc.
  destruct (insert_all_slots _ _ _ _ Hc) as (Hs & Hruns & Hex).
  assert (Hdr : db_runs d = db_runs db) by by rewrite <- Hd.
  assert (Hde : db_executions d = db_executions db) by by rewrite <- Hd.
  split; [congruence|]. intros Hin Hid e He. split.
  - intros Hnone s Hsin Hse. rewrite Hs in Hsin. apply in_app_or in Hsin as [Hsin|Hsin].
    + rewrite <- Hd in Hsin. cbn in Hsin. apply in_delete_where in Hsin as [_ Hk].
      destruct (List.find _ _) as [run'|] eqn:Ef.
      * apply List.find_some in Ef as [Hin' Hp]. reflect_bools.
        assert (run' = run) as -> by (eapply unique_run; eauto; congruence).
        rewrite He, bool_decide_true in Hk; congruence.
      * pose proof (List.find_none _ _ Ef _ Hin) as Hp. cbn in Hp.
        rewrite Hid, String.eqb_refl, Hnone in Hp. done.
    + apply list_elem_of_In, list_elem_of_omap in Hsin as (run' & Hin' & Ho).
      apply list_elem_of_In in Hin'. rewrite Hdr in Hin'.
      destruct (sr_runtimeExecutionId run') as [e'|]; [|done].
      destruct (_ && _) eqn:Eb; [|done]. simplify_eq. reflect_bools.
      assert (run' = run) as -> by (eapply unique_run; eauto; congruence).
      rewrite Hnone in *. by match goal with H : bool_decide (is_Some None) = true |- _ =>
        apply bool_decide_eq_true in H; destruct H end.
  - intros Hsome (x & Hx & Hxid & Hxs).
    destruct (existsb (fun s => (slot_userId s =s sr_userId run) && (slot_executionId s =s e))
                (db_slots d)) eqn:Eold.
    + apply existsb_exists in Eold as (s & Hsin & Hk). reflect_bools.
      exists s. rewrite Hs. split; [apply in_or_app; by left|done].
    + exists (mkSlot (sr_userId run) e
        (match mode with mode_create => sr_createdAt run | mode_update => sr_updatedAt run end)).
      split; [|done]. rewrite Hs. apply in_or_app. right.
      apply list_elem_of_In, list_elem_of_omap. exists run.
      split; [by rewrite Hdr; apply list_elem_of_In|].
      rewrite He, Hid, String.eqb_refl, (bool_decide_true _ Hsome), Eold.
      assert (existsb (fun x => (re_id x =s e) && negb (bool_decide (re_state x = ex_archived)))
                (db_executions d) = true) as ->; [|done].
      apply existsb_exists. exists x. rewrite <- Hex. split; [done|].
      by rewrite Hxid, String.eqb_refl, bool_decide_false.
Qed.

(** The active slot follows the run: after a run's change and its projection
    commit, a run without an active key holds no slot, and a run with one whose
    execution is not archived holds its owner's only slot. *)
Theorem projection_slot_exact runId stmts mode db db' ch run e
    (Hwf : db_wf db) (Hstmts : Forall (keeps db_wf) stmts)
    (Hok : executeScenarioRunRuntimeProjection runId stmts mode db = Ok (db', ch))
    (Hrun : In run (db_runs db')) (Hid : sr_runId run = trim runId)
    (Hexec : sr_runtimeExecutionId run = Some e) :
  (sr_activeKey run = None -> forall s, In s (db_slots db') -> slot_executionId s <> e) /\
  (is_Some (sr_activeKey run) ->
   (exists x, In x (db_executions db') /\ re_id x = e /\ re_state x <> ex_archived) ->
   (exists s, In s (db_slots db') /\ slot_userId s = sr_userId run /\ slot_executionId s = e) /\
   (forall s, In s (db_slots db') -> slot_userId s = sr_userId run -> slot_executionId s = e)).
Proof.
  assert (Hwf' : db_wf db').
  { eapply execute_invariant; [exact Hstmts|apply projectionStatements_wf|exact Hwf|exact Hok]. }
  unfold executeScenarioRunRuntimeProjection, requiredId, read_opt_string, or_null in Hok.
  destruct (truthy (trim runId)); cbn [result_bind] in Hok; [|done].
  destruct (batch _ db) as [p|c] eqn:E; [|by destruct c]. simplify_eq.
  unfold scenarioRunRuntimeProjectionStatements in E. rewrite app_assoc in E.
  destruct (batch_app _ _ _ _ _ E) as (d0 & c1 & c2 & E1 & E2).
  assert (Hwf0 : db_wf d0).
  { eapply batch_invariant; [|exact Hwf|exact E1]. apply Forall_app. split; [exact Hstmts|].
    pose proof (projectionStatements_wf (trim runId) mode) as Hp.
    by apply Forall_app in Hp as [Hp _]. }
  cbn [batch] in E2. destruct (projectExecution _ d0) as [[d1 n1]|] eqn:Ep; cbn [result_bind fst] in E2; [|done].
  pose proof (projectExecution_wf _ _ _ _ Hwf0 Ep) as Hwf1.
  destruct (releaseInactiveSlot _ d1) as [[d2 n2]|] eqn:Er; cbn [result_bind fst] in E2; [|done].
  destruct (claimActiveSlot _ _ d2) as [[d3 n3]|] eqn:Ec; cbn in E2; [|done]. simplify_eq.
  destruct (slot_statements _ _ _ _ _ _ _ run Hwf1 Er Ec) as [Hruns Hslots].
  rewrite Hruns in Hrun. destruct (Hslots Hrun Hid e Hexec) as [Ha Hb]. split; [exact Ha|].
  intros Hsome Hx. destruct (Hb Hsome Hx) as (s & Hin & Hu & Hse). split; [eauto|].
  intros s' Hin' Hu'. enough (s' = s) as -> by done.
  apply (NoDup_map_inj slot_userId _ _ _ (wf_slot_users _ Hwf')); congruence.
Qed.

(** * Witnesses *)

Module StoreSample.
Definition content : RunContent := mkContent [] [] "solution" None false.
Definition run (state : RunPhase) (key : option string) (updatedAt : Z) : RunRow :=
  mkRunRow "run" "user" None (Some "run") "host" state (RUN_PHASE_ORDER state) key None
    None None None None None 10 updatedAt content.
Definition execution (id : string) (gen : Z) (state : ExecutionState) : ExecutionRow :=
  mkExecution id "user" None (Some "host") None "scenario" "run" gen None None state None None None 10 10.
Definition db0 : Db :=
  mkDb [run run_queued (Some "user") 10] [execution "run" 1 ex_queued] [mkSlot "user" "run" 10]
    [] [] [mkHost "host" scope_platform "agent" None None (Some "session") 1 false] [] [] [].
Definition db_archived : Db :=
  mkDb [run run_active_full None 20] [execution "run" 1 ex_archived] [] [] [] [] [] [] [].
Definition db_superseded : Db :=
  mkDb [] [execution "run" 1 ex_ready; execution "run-2" 2 ex_queued] [] [] [] [] [] [] [].

Lemma wf0 : db_wf db0.
Proof. constructor; vm_compute; try (apply NoDup_singleton || apply NoDup_nil_2); by repeat constructor. Qed.
Lemma wf_superseded : db_wf db_superseded.
Proof.
  constructor; vm_compute; try apply NoDup_nil_2; try (by repeat constructor);
    (apply NoDup_cons; split; [|apply NoDup_singleton]; by intros ?%list_elem_of_singleton).
Qed.
End StoreSample.

Lemma store_steps_keep_integrity_witness :
  let db' := fst (archiveRuntimeExecution " run " 1 50 StoreSample.db0 StoreSample.db0) in
  db_slots db' = [] /\ db_wf db'.
Proof.
  intros db'. split; [vm_compute; reflexivity|].
  apply (store_steps_keep_integrity StoreSample.db0 db' StoreSample.wf0).
  apply rtc_once. apply step_archive.
Defined.

Lemma archived_executions_final_witness :
  let db' := match executeScenarioRunRuntimeProjection "run"
                     [fun d => Ok (updateRuns (fun _ => true) (fun r => with_active_key r None 30) d)]
                     mode_update StoreSample.db_archived with
             | Ok p => fst p
             | Err _ => StoreSample.db0
             end in
  archived_in "run" db'.
Proof.
  apply (archived_executions_final StoreSample.db_archived).
  - exists (StoreSample.execution "run" 1 ex_archived). split; [left; reflexivity|split; reflexivity].
  - apply rtc_once. eapply (step_change_run _ "run" (fun _ _ => true) (fun r => with_active_key r None 30)).
    + intros r. repeat split. right. reflexivity.
    + vm_compute. reflexivity.
Defined.

Lemma superseded_generation_inert_witness :
  fst (archiveRuntimeExecution "run" 1 50 (set_executions StoreSample.db0
         [StoreSample.execution "run" 1 ex_ready]) StoreSample.db_superseded) = StoreSample.db_superseded.
Proof.
  apply (superseded_generation_inert StoreSample.db_superseded).
  - exact StoreSample.wf_superseded.
  - exists (StoreSample.execution "run" 1 ex_ready), (StoreSample.execution "run-2" 2 ex_queued).
    split; [left; reflexivity|]. split; [reflexivity|]. split; [right; left; reflexivity|].
    split; [reflexivity|]. cbn. lia.
Defined.

Lemma projection_slot_exact_witness :
  exists db' ch,
    executeScenarioRunRuntimeProjection "run"
      [fun d => Ok (updateRuns (fun _ => true) (fun r => with_active_key r None 30) d)]
      mode_update StoreSample.db0 = Ok (db', ch) /\
    forall s, In s (db_slots db') -> slot_executionId s <> "run".
Proof.
  eexists _, _. split; [vm_compute; reflexivity|].
  apply (projection_slot_exact "run"
    [fun d => Ok (updateRuns (fun _ => true) (fun r => with_active_key r None 30) d)]
    mode_update StoreSample.db0 _ [1; 1; 1; 0] (StoreSample.run run_queued None 30) "run").
  - exact StoreSample.wf0.
  - apply Forall_cons. split; [|apply Forall_nil; exact I].
    intros d d' n Hd [= <- _]. apply (updateRuns_wf (fun _ => true)); [|exact Hd].
    intros r. repeat split. right. reflexivity.
  - vm_compute. reflexivity.
  - left. reflexivity.
  - reflexivity.
  - reflexivity.
  - reflexivity.
Defined.
