(* ===== verification/RunProjection.v ===== *)
(** The projection of reports into stored runs:
    apps/web/src/control-plane/host-runtime-do/base.ts, [persistRunState] and
    what it calls, on the store of [Store].

    A projection loads a run, derives the next document, and writes it under an
    optimistic guard on [updated_at], up to eight times. Other requests may
    change the store before each load ([arrive]), between load and write
    ([race]) and between a failed write and the second look ([settle]). *)
From stdpp Require Import base list strings.
From Stdlib Require Import ZArith Lia.
From S2P Require Import Prelude Json RunState RunLifecycle RunView Store RuntimeExecutions.

Open Scope string_scope.
Open Scope list_scope.
Open Scope Z_scope.

(** * Loading a run *)

Record RunProjectionRow : Type := mkProjectionRow {
  pr_runId : string;
  pr_hostId : string;
  pr_activeKey : option string;
  pr_deleteRequestedAt : option Z;
  pr_solvedAt : option Z;
  pr_completedAt : option Z;
  pr_failedAt : option Z;
  pr_createdAt : Z;
  pr_updatedAt : Z;
  pr_state : RunStateDocument;
}.

(** [raw] is the parsed column, [None] when parsing throws. *)
Definition parseRunState (raw : option RunStateDocument) : RunStateDocument :=
  match raw with
  | Some d => recomputeRunState d
  | None => buildInitialRunState []
  end.

Definition projectionRowOf (row : RunRow) : RunProjectionRow :=
  mkProjectionRow (sr_runId row) (sr_hostId row) (sr_activeKey row) (sr_deleteRequestedAt row)
    (sr_solvedAt row) (sr_completedAt row) (sr_failedAt row) (sr_createdAt row) (sr_updatedAt row)
    (parseRunState (sr_stateJson row)).

Definition loadRun (db : Db) (runId : string) : option RunProjectionRow :=
  projectionRowOf <$> findRun db runId.

Definition allVmsReportedAbsent (state : RunStateDocument) : bool :=
  (0 <? Z.of_nat (length (run_vms state))) &&
  forallb (fun vm => bool_decide (vm_runtimeState vm = Some "absent")) (run_vms state).

Definition latestVmAbsenceAt (state : RunStateDocument) : option Z :=
  let observed := omap vm_runtimeObservedAt
    (List.filter (fun vm => bool_decide (vm_runtimeState vm = Some "absent")) (run_vms state)) in
  match observed with
  | [] => None
  | t :: ts => Some (fold_left Z.max ts t)
  end.

(** * Guards of the write *)

Record ExpectedExecution : Type := mkExpectedExecution {
  xe_id : string;
  xe_ownerUserId : string;
  xe_generation : Z;
}.
Record ExpectedHostSession : Type := mkExpectedSession {
  xs_hostId : string;
  xs_activeSessionId : string;
  xs_credentialGeneration : Z;
}.

Definition executionGuard (db : Db) (run : RunRow) (x : ExpectedExecution) : bool :=
  existsb (fun e =>
    (re_id e =s xe_id x) && bool_decide (sr_runtimeExecutionId run = Some (re_id e))
    && (re_userId e =s xe_ownerUserId x) && (re_generation e =? xe_generation x)
    && bool_decide (re_hostId e = Some (sr_hostId run))
    && negb (bool_decide (re_state e = ex_archived)) && (re_domainId e =s sr_runId run)
    && newestGeneration db e) (db_executions db).

Definition activeMember (db : Db) (organizationId userId : string) : bool :=
  existsb (fun m => (mb_organizationId m =s organizationId) && (mb_userId m =s userId)
                    && activeAccount db (mb_userId m)) (db_members db).

Definition hostMayServe (db : Db) (run : RunRow) (h : HostRow) : bool :=
  match ah_scope h with
  | scope_platform => true
  | scope_personal => bool_decide (ah_userId h = Some (sr_userId run))
  | scope_organization =>
      match ah_organizationId h with
      | Some o => (ah_role h =s "agent") && bool_decide (sr_organizationId run = Some o)
                  && activeMember db o (sr_userId run)
      | None => false
      end
  end.

Definition sessionGuard (db : Db) (run : RunRow) (s : ExpectedHostSession) : bool :=
  existsb (fun h =>
    (ah_id h =s xs_hostId s) && (ah_credentialGeneration h =? xs_credentialGeneration s)
    && negb (ah_disabled h) && hostMayServe db run h
    && bool_decide (ah_activeSessionId h = Some (xs_activeSessionId s))) (db_hosts db).

Definition isActiveHostSession (db : Db) (s : ExpectedHostSession) : bool :=
  existsb (fun h =>
    (ah_id h =s xs_hostId s) && bool_decide (ah_activeSessionId h = Some (xs_activeSessionId s))
    && (ah_credentialGeneration h =? xs_credentialGeneration s) && negb (ah_disabled h)) (db_hosts db).

(** The look after a failed write: the expected execution is still the run's. *)
Definition executionStillExpected (db : Db) (runId : string) (x : ExpectedExecution) : bool :=
  existsb (fun e => existsb (fun r =>
    bool_decide (sr_runtimeExecutionId r = Some (re_id e)) && (sr_runId r =s runId)
    && (re_id e =s xe_id x) && (re_generation e =? xe_generation x)
    && (re_userId e =s xe_ownerUserId x) && negb (bool_decide (re_state e = ex_archived)))
    (db_runs db)) (db_executions db).

(** * One projection of a loaded row *)

Record PersistOptions : Type := mkPersistOptions {
  po_deleteRequestedAt : option Z;
  po_keepDeleteRequestedAt : bool;
  po_initialRow : option RunProjectionRow;
  po_expectedExecution : option ExpectedExecution;
  po_expectedHostSession : option ExpectedHostSession;
}.

(** What a projection computes from the loaded row before it writes. *)
Record Projection : Type := mkProjection {
  pj_current : RunStateDocument;
  pj_merged : RunStateDocument;
  pj_now : Z;
  pj_deleteRequestedAt : option Z;
  pj_solvedAt : option Z;
  pj_completedAt : option Z;
  pj_failedAt : option Z;
  pj_activeKey : option string;
}.

(** [{ ...recomputed, phase }]. *)
Definition with_phase (d : RunStateDocument) (phase : RunPhase) : RunStateDocument :=
  mkRun phase (run_phaseTitle d) (run_phaseDetail d) (run_progressPercent d) (run_terminalPhase d)
    (run_canOpenTerminal d) (run_canDestroy d) (run_bootProbes d) (run_scenarioProbes d)
    (run_replayArtifacts d) (run_terminalTarget d) (run_vms d) (run_candidateSource d).

Definition isTerminal (p : RunPhase) : bool :=
  bool_decide (p = run_completed) || bool_decide (p = run_failed).

Definition projectRun (deriveNextState : RunStateDocument -> RunStateDocument)
    (options : PersistOptions) (clock : Z) (row : RunProjectionRow) : Projection :=
  let current := recomputeRunState (pr_state row) in
  let recomputed := recomputeRunState (deriveNextState current) in
  let phase := if canAdvanceRunPhase (run_phase current) (run_phase recomputed)
               then run_phase recomputed else run_phase current in
  let merged := if bool_decide (phase = run_phase recomputed) then recomputed
                else with_phase recomputed phase in
  let now := Z.max clock (pr_updatedAt row + 1) in
  let deleteRequestedAt :=
    if po_keepDeleteRequestedAt options then pr_deleteRequestedAt row
    else coalesce (po_deleteRequestedAt options) (pr_deleteRequestedAt row) in
  let solvedAt := nextSolvedAt (run_phase current) (run_phase merged) (pr_solvedAt row) now in
  let completedAt :=
    if bool_decide (run_phase merged = run_completed)
    then Some (nullish (pr_completedAt row) now) else None in
  let failedAt :=
    if bool_decide (run_phase merged = run_failed)
    then Some (nullish (pr_failedAt row) now) else None in
  let nextActiveKey :=
    if isTerminal (run_phase merged) && negb (isSet deleteRequestedAt)
    then None else pr_activeKey row in
  mkProjection current merged now deleteRequestedAt solvedAt completedAt failedAt nextActiveKey.

#[export] Instance RunStateDocument_eq_dec : EqDecision RunStateDocument.
Proof.
  assert (EqDecision ScenarioProbeStatus) by solve_decision.
  assert (EqDecision ScenarioReplayArtifact) by solve_decision.
  assert (EqDecision SessionTimelineEntry) by solve_decision.
  assert (EqDecision TerminalTarget) by solve_decision.
  assert (EqDecision RuntimeConstraintsEvidence) by solve_decision.
  assert (EqDecision VmResourceState) by solve_decision.
  assert (EqDecision ImageArchitecture) by solve_decision.
  assert (EqDecision ImageKey) by solve_decision.
  assert (EqDecision VmResourcesSpec) by solve_decision.
  assert (EqDecision RunVmProvisioningSpec) by solve_decision.
  assert (EqDecision ProbeDescriptor) by solve_decision.
  assert (EqDecision ScenarioLaunchSummary) by solve_decision.
  assert (EqDecision RunVmStateDocument) by solve_decision.
  assert (EqDecision CandidateRunSourceIdentityV1) by solve_decision.
  solve_decision.
Defined.

(** The texts of two documents are equal when the documents are. *)
Definition projectionUnchanged (row : RunProjectionRow) (p : Projection) : bool :=
  bool_decide (pj_current p = pj_merged p)
  && bool_decide (pr_activeKey row = pj_activeKey p)
  && bool_decide (pr_deleteRequestedAt row = pj_deleteRequestedAt p)
  && bool_decide (pr_solvedAt row = pj_solvedAt p)
  && bool_decide (pr_completedAt row = pj_completedAt p)
  && bool_decide (pr_failedAt row = pj_failedAt p).

Definition writeProjection (p : Projection) (r : RunRow) : RunRow :=
  mkRunRow (sr_runId r) (sr_userId r) (sr_organizationId r) (sr_runtimeExecutionId r) (sr_hostId r)
    (run_phase (pj_merged p)) (RUN_PHASE_ORDER (run_phase (pj_merged p))) (pj_activeKey p)
    (Some (pj_merged p))
    (match run_phase (pj_merged p) with
     | run_archiving | run_completed | run_failed => coalesce (sr_archiveEnteredAt r) (Some (pj_now p))
     | _ => sr_archiveEnteredAt r
     end)
    (pj_deleteRequestedAt p) (pj_solvedAt p) (pj_completedAt p) (pj_failedAt p)
    (sr_createdAt r) (pj_now p) (sr_content r).

Definition writeAllowed (db : Db) (runId : string) (options : PersistOptions) (updatedAt : Z)
    (r : RunRow) : bool :=
  (sr_runId r =s runId) && (sr_updatedAt r =? updatedAt)
  && match po_expectedExecution options with Some x => executionGuard db r x | None => true end
  && match po_expectedHostSession options with Some s => sessionGuard db r s | None => true end.

Definition runMutation (runId : string) (options : PersistOptions) (updatedAt : Z) (p : Projection)
  : Stmt := fun db =>
  Ok (updateRuns (writeAllowed db runId options updatedAt) (writeProjection p) db).

(** * The retry loop *)

Inductive RunProjectionOutcome : Type :=
| outcome_updated (revision : Z)
| outcome_unchanged
| outcome_stale_session.

Inductive Effect : Type :=
| eff_course_unit_completion (runId : string) (now : Z)
| eff_probe_transitions (runId : string) (current next : RunStateDocument) (observedAt : Z)
| eff_lifecycle_timing (metric : string) (runId : string) (startedAt completedAt : Z).

Inductive PersistError : Type :=
| persist_store (e : StoreError)
| persist_cas_did_not_converge.

Definition courseCompletion (runId : string) (p : Projection) : list Effect :=
  if bool_decide (run_phase (pj_merged p) = run_completed) && isSet (pj_solvedAt p)
  then [eff_course_unit_completion runId (pj_now p)] else [].

(** What follows a committed write, in order. *)
Definition committedEffects (runId : string) (row : RunProjectionRow) (p : Projection) : list Effect :=
  courseCompletion runId p ++
  [eff_probe_transitions runId (pj_current p) (pj_merged p) (pj_now p)] ++
  (if negb (run_canOpenTerminal (pj_current p)) && run_canOpenTerminal (pj_merged p)
   then [eff_lifecycle_timing "accepted_to_terminal_ready" runId (pr_createdAt row) (pj_now p)]
   else []) ++
  match pr_deleteRequestedAt row with
  | Some requestedAt =>
      if negb (allVmsReportedAbsent (pj_current p)) && allVmsReportedAbsent (pj_merged p)
      then [eff_lifecycle_timing "teardown_requested_to_vm_absent" runId requestedAt
              (nullish (latestVmAbsenceAt (pj_merged p)) (pj_now p))]
      else []
  | None => []
  end.

Inductive Attempt : Type :=
| attempt_done (db : Db) (r : result PersistError RunProjectionOutcome) (effects : list Effect)
| attempt_retry (db : Db).

(** One attempt with the row it loaded, writing to [db]. *)
Definition persistAttempt (runId : string)
    (deriveNextState : RunStateDocument -> RunStateDocument) (options : PersistOptions) (clock : Z)
    (row : RunProjectionRow) (settle : Db -> Db) (db : Db) : Attempt :=
  let p := projectRun deriveNextState options clock row in
  if projectionUnchanged row p then attempt_done db (Ok outcome_unchanged) (courseCompletion runId p)
  else
    match executeScenarioRunRuntimeProjection runId
            [runMutation runId options (pr_updatedAt row) p] mode_update db with
    | Err e => attempt_done db (Err (persist_store e)) []
    | Ok (db', changes) =>
        if nullish (head changes) 0 =? 0 then
          let seen := settle db' in
          if match po_expectedExecution options with
             | Some x => negb (executionStillExpected seen runId x) | None => false end
          then attempt_done seen (Ok outcome_unchanged) []
          else if match po_expectedHostSession options with
                  | Some s => negb (isActiveHostSession seen s) | None => false end
          then attempt_done seen (Ok outcome_stale_session) []
          else attempt_retry seen
        else attempt_done db' (Ok (outcome_updated (pj_now p))) (committedEffects runId row p)
    end.

Section persist.
Variable runId : string.
Variable deriveNextState : RunStateDocument -> RunStateDocument.
Variable options : PersistOptions.
Variable clock : nat -> Z.
Variables arrive race settle : nat -> Db -> Db.

(** The row of an attempt: the one the caller loaded already, on the first. *)
Definition attemptRow (attempt : nat) (db : Db) : option RunProjectionRow :=
  match attempt, po_initialRow options with
  | O, Some initial => if pr_runId initial =s runId then Some initial else loadRun db runId
  | _, _ => loadRun db runId
  end.

Fixpoint persistFrom (left attempt : nat) (db : Db)
  : Db * result PersistError RunProjectionOutcome * list Effect :=
  match left with
  | O => (db, Err persist_cas_did_not_converge, [])
  | S left' =>
      let db1 := arrive attempt db in
      match attemptRow attempt db1 with
      | None => (db1, Ok outcome_unchanged, [])
      | Some row =>
          match persistAttempt runId deriveNextState options (clock attempt) row (settle attempt)
                  (race attempt db1) with
          | attempt_done db2 r effects => (db2, r, effects)
          | attempt_retry db2 => persistFrom left' (S attempt) db2
          end
      end
  end.

Definition persistRunState (db : Db) : Db * result PersistError RunProjectionOutcome * list Effect :=
  persistFrom 8 0 db.
End persist.

(** * Lemmas: the write *)

Lemma updateRuns_count p f db :
  snd (updateRuns p f db) <> 0 -> exists r, In r (db_runs db) /\ p r = true.
Proof.
  cbn. unfold count_where. destruct (List.filter p (db_runs db)) as [|r l] eqn:E; [done|].
  intros _. exists r. apply filter_In. rewrite E. by left.
Qed.

Lemma updateRuns_count_pos p f db r :
  In r (db_runs db) -> p r = true -> snd (updateRuns p f db) <> 0.
Proof.
  intros Hin Hp. cbn. unfold count_where.
  assert (In r (List.filter p (db_runs db))) as H by by apply filter_In.
  destruct (List.filter p (db_runs db)); [done|]. cbn. lia.
Qed.

(** The statements that follow the mutation leave the runs alone. *)
Lemma mutation_committed runId opts upd p db db' ch :
  executeScenarioRunRuntimeProjection runId [runMutation runId opts upd p] mode_update db = Ok (db', ch) ->
  db_runs db' = update_where (writeAllowed db runId opts upd) (writeProjection p) (db_runs db) /\
  head ch = Some (snd (updateRuns (writeAllowed db runId opts upd) (writeProjection p) db)).
Proof. apply (projected_update runId (fun d => writeAllowed d runId opts upd)). Qed.

Definition unique_runs (db : Db) : Prop := NoDup (map sr_runId (db_runs db)).

(** What other requests do keeps the run identifiers distinct. *)
Definition respectful (f : Db -> Db) : Prop := forall db, unique_runs db -> unique_runs (f db).

(** Every concurrent change of a run moves its [updated_at]. *)
Definition versioned (runId : string) (f : Db -> Db) : Prop :=
  forall db r0 r, unique_runs db -> findRun db runId = Some r0 -> In r (db_runs (f db)) ->
    sr_runId r = runId -> sr_updatedAt r = sr_updatedAt r0 -> r = r0.

(** A row the caller loaded is still the stored one wherever its [updated_at]
    is. *)
Definition initialRowCurrent (runId : string) (options : PersistOptions) (db : Db) : Prop :=
  forall initial r, po_initialRow options = Some initial -> In r (db_runs db) -> sr_runId r = runId ->
    sr_updatedAt r = pr_updatedAt initial -> projectionRowOf r = initial.

Lemma attempt_updated runId derive options clk row settle db db' rev effects :
  persistAttempt runId derive options clk row settle db =
    attempt_done db' (Ok (outcome_updated rev)) effects ->
  let p := projectRun derive options clk row in
  rev = pj_now p /\ effects = committedEffects runId row p /\
  db_runs db' = update_where (writeAllowed db runId options (pr_updatedAt row)) (writeProjection p)
                  (db_runs db) /\
  exists r, In r (db_runs db) /\ writeAllowed db runId options (pr_updatedAt row) r = true.
Proof.
  unfold persistAttempt. cbv zeta. destruct (projectionUnchanged _ _); [done|].
  destruct (executeScenarioRunRuntimeProjection _ _ _ _) as [[d ch]|] eqn:E; [|done].
  apply mutation_committed in E as [Hruns Hch]. rewrite Hch. cbn [nullish].
  destruct (_ =? 0) eqn:E0; [repeat (case_match; try done)|]. intros [= <- <- <-]. reflect_bools.
  split; [done|]. split; [done|]. split; [done|]. by apply (updateRuns_count _ (writeProjection
    (projectRun derive options clk row))).
Qed.

Lemma attempt_retry_unique runId derive options clk row settle db db' :
  respectful settle -> unique_runs db ->
  persistAttempt runId derive options clk row settle db = attempt_retry db' -> unique_runs db'.
Proof.
  intros Hset Hu. unfold persistAttempt. cbv zeta. destruct (projectionUnchanged _ _); [done|].
  destruct (executeScenarioRunRuntimeProjection _ _ _ _) as [[d ch]|] eqn:E; [|done].
  apply mutation_committed in E as [Hruns _]. destruct (_ =? 0); [|done].
  repeat (case_match; try done); intros [= <-]; apply Hset; unfold unique_runs; rewrite Hruns;
    by rewrite map_update_where.
Qed.

Lemma writeAllowed_row db runId options upd r :
  writeAllowed db runId options upd r = true -> sr_runId r = runId /\ sr_updatedAt r = upd.
Proof. unfold writeAllowed. intros H. by reflect_bools. Qed.

(** The execution and the host session the write is conditional on, of the row
    it lands on. *)
Definition guardsHold (db : Db) (options : PersistOptions) (row : RunRow) : Prop :=
  (forall x, po_expectedExecution options = Some x ->
     exists e, In e (db_executions db) /\ re_id e = xe_id x /\
       sr_runtimeExecutionId row = Some (re_id e) /\ re_userId e = xe_ownerUserId x /\
       re_generation e = xe_generation x /\ re_hostId e = Some (sr_hostId row) /\
       re_state e <> ex_archived /\ re_domainId e = sr_runId row) /\
  (forall s, po_expectedHostSession options = Some s ->
     exists h, In h (db_hosts db) /\ ah_id h = xs_hostId s /\
       ah_credentialGeneration h = xs_credentialGeneration s /\ ah_disabled h = false /\
       ah_activeSessionId h = Some (xs_activeSessionId s)).

Lemma writeAllowed_guards db runId options upd row :
  writeAllowed db runId options upd row = true -> guardsHold db options row.
Proof.
  unfold writeAllowed. intros H. split; [intros x Hx; rewrite Hx in H|intros s Hs; rewrite Hs in H].
  - apply andb_true_iff in H as [H _]. apply andb_true_iff in H as [_ H].
    apply existsb_exists in H as (e & He & H). reflect_bools.
    rewrite ?bool_decide_eq_true, ?bool_decide_eq_false in *. exists e. repeat split; done.
  - apply andb_true_iff in H as [_ H]. apply existsb_exists in H as (h & Hh & H).
    reflect_bools. rewrite ?bool_decide_eq_true in *. exists h. repeat split; done.
Qed.

(** Among rows with distinct identifiers the write lands on the run's row and on
    no other. *)
Lemma writeAllowed_lands db runId options upd p r :
  unique_runs db -> In r (db_runs db) -> writeAllowed db runId options upd r = true ->
  update_where (writeAllowed db runId options upd) (writeProjection p) (db_runs db) =
    map (fun r' => if sr_runId r' =s runId then writeProjection p r' else r') (db_runs db).
Proof.
  intros Hu Hin Hw. apply map_ext_in. intros r' Hin'.
  destruct (sr_runId r' =s runId) eqn:E.
  - apply String.eqb_eq in E. destruct (writeAllowed_row _ _ _ _ _ Hw) as [Hid _].
    assert (r' = r) as -> by (eapply (NoDup_map_inj sr_runId); [exact Hu|done|done|congruence]).
    by rewrite Hw.
  - destruct (writeAllowed db runId options upd r') eqn:E'; [|done].
    apply writeAllowed_row in E' as [E' _]. apply String.eqb_neq in E. congruence.
Qed.

Section attempts.
Variable runId : string.
Variable derive : RunStateDocument -> RunStateDocument.
Variable options : PersistOptions.
Variable clock : nat -> Z.
Variables arrive race settle : nat -> Db -> Db.

(** The store attempt [k] starts in: what the attempt before it left when it
    has to be tried again. *)
Fixpoint attemptStart (k : nat) (db : Db) : option Db :=
  match k with
  | O => Some db
  | S j =>
      d ← attemptStart j db;
      row ← attemptRow runId options j (arrive j d);
      match persistAttempt runId derive options (clock j) row (settle j) (race j (arrive j d)) with
      | attempt_retry d' => Some d'
      | attempt_done _ _ _ => None
      end
  end.

(** The store the write of attempt [k] lands on. *)
Definition storeAtWrite (k : nat) (db : Db) : option Db :=
  (fun d => race k (arrive k d)) <$> attemptStart k db.
End attempts.


(** * What a committed row promises *)

(** The columns follow the document and keep their history: a committed row
    has a later [updated_at], its state and rank are its document's, it is never
    behind the phase its previous document derives, it is marked completed or
    failed exactly in those phases, a solve time and a deletion request are never
    forgotten, and the active key is given up only by a finished run that nobody
    asked to delete. *)
Theorem committed_row_bookkeeping derive options clk row :
  let p := projectRun derive options clk (projectionRowOf row) in
  let row' := writeProjection p row in
  sr_updatedAt row < sr_updatedAt row' /\
  sr_stateRank row' = RUN_PHASE_ORDER (sr_state row') /\
  (exists d, sr_stateJson row' = Some d /\ run_phase d = sr_state row') /\
  RUN_PHASE_ORDER (run_phase (recomputeRunState (parseRunState (sr_stateJson row)))) <= sr_stateRank row' /\
  (is_Some (sr_completedAt row') <-> sr_state row' = run_completed) /\
  (is_Some (sr_failedAt row') <-> sr_state row' = run_failed) /\
  (forall t, sr_solvedAt row = Some t -> sr_solvedAt row' = Some t) /\
  (sr_state row' = run_solved -> is_Some (sr_solvedAt row')) /\
  (is_Some (sr_deleteRequestedAt row) -> is_Some (sr_deleteRequestedAt row')) /\
  (sr_activeKey row' = sr_activeKey row \/
   (sr_activeKey row' = None /\ isTerminal (sr_state row') = true /\ sr_deleteRequestedAt row' = None)).
Proof.
  cbv zeta. unfold projectRun, writeProjection. cbv zeta.
  set (cur := recomputeRunState (pr_state (projectionRowOf row))).
  set (next := recomputeRunState (derive cur)).
  set (phase := if canAdvanceRunPhase (run_phase cur) (run_phase next) then run_phase next else run_phase cur).
  assert (Hm : run_phase (if bool_decide (phase = run_phase next) then next else with_phase next phase) = phase)
    by (case_bool_decide; done).
  assert (Hadv : RUN_PHASE_ORDER (run_phase cur) <= RUN_PHASE_ORDER phase).
  { unfold phase, canAdvanceRunPhase. destruct (_ <=? _) eqn:E; reflect_bools; lia. }
  revert Hm. generalize (if bool_decide (phase = run_phase next) then next else with_phase next phase).
  intros m Hm. cbn. rewrite Hm.
  split; [lia|]. split; [done|]. split; [eauto|]. split; [exact Hadv|].
  split; [case_bool_decide; split; try done; by intros [? ?]|].
  split; [case_bool_decide; split; try done; by intros [? ?]|].
  split; [by intros t ->|].
  split; [intros ->; unfold nextSolvedAt; case_match; [done|]; by rewrite orb_true_r|].
  split; [intros [t ->]; destruct (po_keepDeleteRequestedAt options); [done|];
          by destruct (po_deleteRequestedAt options)|].
  destruct (isTerminal phase) eqn:Et; [|by left]. cbn.
  match goal with |- context [isSet ?o] => destruct o eqn:Eo end; [by left|]. by right.
Qed.

(** Without contention a projection never gives up: when no other request
    interferes and the expected execution and session hold, it returns on its
    first attempt, updated, unchanged or with an error of the store. *)
Theorem persist_uncontended runId derive options clock settle db
    (Hinit : po_initialRow options = None)
    (Hguard : forall row, findRun db runId = Some row ->
       writeAllowed db runId options (sr_updatedAt row) row = true) :
  let same := fun (_ : nat) (d : Db) => d in
  exists db' r effects,
    persistRunState runId derive options clock same same settle db = (db', r, effects) /\
    (r = Ok outcome_unchanged /\ db' = db \/
     (exists rev, r = Ok (outcome_updated rev)) \/
     (exists e, r = Err (persist_store e) /\ db' = db)).
Proof.
  intros same. unfold persistRunState. cbn [persistFrom]. cbv zeta.
  unfold attemptRow, same. rewrite Hinit. unfold loadRun.
  destruct (findRun db runId) as [row|] eqn:Ef; cbn [fmap option_fmap option_map]; [|eauto 10].
  unfold persistAttempt. cbv zeta.
  destruct (projectionUnchanged _ _); [eauto 10|].
  destruct (executeScenarioRunRuntimeProjection _ _ _ _) as [[d ch]|] eqn:E; [|eauto 12].
  apply mutation_committed in E as [_ Hch]. rewrite Hch. cbn [nullish].
  assert (Hin : In row (db_runs db)) by (unfold findRun in Ef; by apply List.find_some in Ef as [? _]).
  pose proof (updateRuns_count_pos _ (writeProjection (projectRun derive options (clock 0%nat)
    (projectionRowOf row))) db row Hin (Hguard row eq_refl)) as Hpos.
  destruct (_ =? 0) eqn:E0; [by apply Z.eqb_eq in E0|]. eauto 10.
Qed.

(** * Sample runs *)

Module ProjectionSample.
Definition options : PersistOptions := mkPersistOptions None true None None None.
Definition still (_ : nat) (d : Db) : Db := d.

(** A run that waits for its VM, as stored. *)
Definition db0 : Db :=
  mkDb [mkRunRow "run" "user" None (Some "run") "host" run_provisioning 1 (Some "user")
          (Some Sample.run0) None None None None None 10 10 StoreSample.content]
    [StoreSample.execution "run" 1 ex_provisioning] [mkSlot "user" "run" 10] [] [] [] [] [] [].

Definition project (report : VmActualState) (db : Db) : Db :=
  fst (fst (persistRunState "run"
    (fun current => applyVmReportToRunState "run" current (Sample.report_of report))
    options (fun _ => 50) still still still db)).

Definition states (db : Db) : list (RunPhase * option string) :=
  map (fun r => (sr_state r, run_phaseTitle <$> sr_stateJson r)) (db_runs db).
End ProjectionSample.

(** The phase guard lasts for one projection only: an active run whose VM
    starts a new generation keeps its phase when the first report is projected
    (with the title of the earlier phase), but the next report of the same kind
    moves the stored run back to provisioning, because the stored document is
    recomputed from its VMs before the guard compares the phases. *)
Theorem phase_guard_lasts_one_projection :
  let active := ProjectionSample.project (Sample.ready_report "g1" 100) ProjectionSample.db0 in
  let first := ProjectionSample.project (Sample.bare_report "g2" 200) active in
  let second := ProjectionSample.project (Sample.bare_report "g2" 300) first in
  ProjectionSample.states active = [(run_active_full, Some "Active")] /\
  ProjectionSample.states first = [(run_active_full, Some "Provisioning")] /\
  ProjectionSample.states second = [(run_provisioning, Some "Provisioning")] /\
  RUN_PHASE_ORDER run_provisioning < RUN_PHASE_ORDER run_active_full.
Proof. vm_compute. repeat split. Qed.

(** * A writer outside the discipline *)

(** [requestRemovedMemberRunShutdown] of lib/organizations.ts: the shutdown of
    the open runs of a removed member, at the time [now]. *)
Definition requestRemovedMemberRunShutdown (organizationId userId : string) (now : Z) (db : Db) : Db :=
  fst (updateRuns
    (fun r => bool_decide (sr_organizationId r = Some organizationId) && (sr_userId r =s userId)
      && negb (isTerminal (sr_state r))
      && negb (existsb (fun m => (mb_organizationId m =s organizationId) && (mb_userId m =s userId))
                 (db_members db)))
    (fun r => mkRunRow (sr_runId r) (sr_userId r) (sr_organizationId r) (sr_runtimeExecutionId r)
       (sr_hostId r) (sr_state r) (sr_stateRank r) (sr_activeKey r) (sr_stateJson r)
       (sr_archiveEnteredAt r) (coalesce (sr_deleteRequestedAt r) (Some now)) (sr_solvedAt r)
       (sr_completedAt r) (sr_failedAt r) (sr_createdAt r) now (sr_content r)) db).

Module RemovalSample.
(** A run of an organization, last written in the millisecond 50. *)
Definition db0 : Db :=
  mkDb [mkRunRow "run" "user" (Some "org") (Some "run") "host" run_provisioning 1 (Some "user")
          (Some Sample.run0) None None None None None 10 50 StoreSample.content]
    [StoreSample.execution "run" 1 ex_provisioning] [mkSlot "user" "run" 10] [] [] [] [] [] [].
Definition removal (_ : nat) : Db -> Db := requestRemovedMemberRunShutdown "org" "user" 50.
End RemovalSample.

(** A removal in the millisecond of the last write is lost: the shutdown of a
    removed member's run sets [updated_at] to the clock instead of moving it
    forward, so a projection that loaded the run before the removal in the same
    millisecond still passes its guard and clears the deletion request. *)
Theorem removal_in_same_millisecond_is_lost :
  let requested := RemovalSample.removal 0%nat RemovalSample.db0 in
  let '(db', r, _) := persistRunState "run"
    (fun current => applyVmReportToRunState "run" current
                      (Sample.report_of (Sample.ready_report "g1" 100)))
    ProjectionSample.options (fun _ => 50) ProjectionSample.still RemovalSample.removal
    ProjectionSample.still RemovalSample.db0 in
  map sr_deleteRequestedAt (db_runs requested) = [Some 50] /\
  r = Ok (outcome_updated 51) /\
  map sr_deleteRequestedAt (db_runs db') = [None].
Proof. vm_compute. repeat split. Qed.

(** * Witnesses *)

Lemma still_versioned runId k : versioned runId (ProjectionSample.still k).
Proof.
  intros db r0 r Hu Hf Hin Hid _. unfold findRun in Hf. apply List.find_some in Hf as [H0 Hr0].
  apply String.eqb_eq in Hr0. apply (NoDup_map_inj sr_runId _ _ _ Hu); [done|done|congruence].
Qed.


Lemma persist_uncontended_witness :
  exists db' r effects,
    persistRunState "run" (fun d => d) ProjectionSample.options (fun _ => 50) (fun _ d => d)
      (fun _ d => d) (fun _ d => d) ProjectionSample.db0 = (db', r, effects) /\
    (r = Ok outcome_unchanged /\ db' = ProjectionSample.db0 \/
     (exists rev, r = Ok (outcome_updated rev)) \/
     (exists e, r = Err (persist_store e) /\ db' = ProjectionSample.db0)).
Proof.
  apply (persist_uncontended "run" (fun d => d) ProjectionSample.options (fun _ => 50)).
  - reflexivity.
  - intros row H. vm_compute in H. injection H as <-. vm_compute. reflexivity.
Defined.
