(* ===== verification/Hints.v ===== *)
(** Hints and solutions of a run: apps/web/src/lib/scenario-run-content.ts and
    the handlers of apps/web/src/lib/scenario-hints.ts on the store. *)
From stdpp Require Import base list strings.
From Stdlib Require Import ZArith Lia.
From S2P Require Import Prelude Json RunState Store RuntimeExecutions RunProjection.

Open Scope string_scope.
Open Scope list_scope.
Open Scope Z_scope.

(** * Hint groups *)

Abbreviation hint := ScenarioRunHintSnapshot.

Definition scenarioRunHintVmName (key : string) : option string :=
  let parts := str_split colon key in
  if bool_decide (head parts = Some "probe") && (4 <=? Z.of_nat (length parts))
  then parts !! 1%nat else None.

Definition scenarioRunHintGroupKey (h : hint) : string :=
  match hint_scope h with
  | hint_scenario => "scenario"
  | hint_probe =>
      let probe := nullish (hint_probeName h) "" in
      match scenarioRunHintVmName (hint_key h) with
      | Some vmName => if truthy vmName then "probe:" +:+ vmName +:+ ":" +:+ probe
                       else "probe:" +:+ probe
      | None => "probe:" +:+ probe
      end
  end.

(** The first hint of each key. *)
Fixpoint uniqueFrom (seen : list string) (hints : list hint) : list hint :=
  match hints with
  | [] => []
  | h :: rest =>
      if str_mem (hint_key h) seen then uniqueFrom seen rest
      else h :: uniqueFrom (hint_key h :: seen) rest
  end.

Definition uniqueScenarioRunHints (hints : list hint) : list hint := uniqueFrom [] hints.

(** The loop of [canonicalRevealedScenarioRunHintKeys]: a group is blocked from
    its first hint that is not revealed. *)
Fixpoint canonicalFrom (revealed : list string) (blockedGroups : list string) (hints : list hint)
  : list string :=
  match hints with
  | [] => []
  | h :: rest =>
      let groupKey := scenarioRunHintGroupKey h in
      if str_mem groupKey blockedGroups then canonicalFrom revealed blockedGroups rest
      else if negb (str_mem (hint_key h) revealed)
      then canonicalFrom revealed (groupKey :: blockedGroups) rest
      else hint_key h :: canonicalFrom revealed blockedGroups rest
  end.

Definition canonicalRevealedScenarioRunHintKeys (hints : list hint) (revealedHintKeys : list string)
  : list string :=
  canonicalFrom revealedHintKeys [] (uniqueScenarioRunHints hints).

Definition nextScenarioRunHintKeyForGroup (hints : list hint) (canonicalRevealed : list string)
    (groupKey : string) : option string :=
  hint_key <$> List.find (fun h => (scenarioRunHintGroupKey h =s groupKey)
                                   && negb (str_mem (hint_key h) canonicalRevealed)) hints.

Definition appendRevealedScenarioRunHintKey (hints0 : list hint) (revealedHintKeys : list string)
    (hintKey : string) : list string :=
  let hints := uniqueScenarioRunHints hints0 in
  let current := canonicalRevealedScenarioRunHintKeys hints revealedHintKeys in
  if str_mem hintKey current then current
  else
    match List.find (fun h => hint_key h =s hintKey) hints with
    | None => current
    | Some h =>
        let groupNext := nextScenarioRunHintKeyForGroup hints current (scenarioRunHintGroupKey h) in
        if negb (bool_decide (groupNext = Some hintKey)) then current
        else canonicalRevealedScenarioRunHintKeys hints (current ++ [hintKey])
    end.

Inductive HintRefusal : Type := refusal_unknown | refusal_already_revealed | refusal_not_next.

Inductive ScenarioRunHintRevealDecision : Type :=
| hint_allowed (hintKey : string)
| hint_refused (reason : HintRefusal) (nextHintKey : option string).

Definition decideScenarioRunHintReveal (hints0 : list hint) (revealedHintKeys : list string)
    (requestedHintKey : string) : ScenarioRunHintRevealDecision :=
  let hints := uniqueScenarioRunHints hints0 in
  match List.find (fun h => hint_key h =s requestedHintKey) hints with
  | None => hint_refused refusal_unknown None
  | Some requested =>
      let revealed := canonicalRevealedScenarioRunHintKeys hints revealedHintKeys in
      let groupNext := nextScenarioRunHintKeyForGroup hints revealed (scenarioRunHintGroupKey requested) in
      if str_mem (hint_key requested) revealed then hint_refused refusal_already_revealed groupNext
      else if negb (bool_decide (groupNext = Some (hint_key requested)))
      then hint_refused refusal_not_next groupNext
      else hint_allowed (hint_key requested)
  end.

(** * Views *)

Record ScenarioRunHintView : Type := mkHintView {
  hv_key : string;
  hv_scope : HintScope;
  hv_probeName : option string;
  hv_id : string;
  hv_title : option string;
  hv_revealed : bool;
  hv_unlocked : bool;
  hv_bodyMarkdown : option string;
}.

Definition buildScenarioRunHintViews (hints0 : list hint) (revealedHintKeys : list string)
  : list ScenarioRunHintView :=
  let hints := uniqueScenarioRunHints hints0 in
  let revealed := canonicalRevealedScenarioRunHintKeys hints revealedHintKeys in
  let unlockedKeys := omap (fun h =>
    nextScenarioRunHintKeyForGroup hints revealed (scenarioRunHintGroupKey h)) hints in
  map (fun h =>
    let isRevealed := str_mem (hint_key h) revealed in
    mkHintView (hint_key h) (hint_scope h) (hint_probeName h) (hint_id h)
      (if isRevealed then hint_title h else None) isRevealed
      (negb isRevealed && str_mem (hint_key h) unlockedKeys)
      (if isRevealed then Some (hint_bodyMarkdown h) else None)) hints.

Definition isScenarioRunSolved (state : RunStateDocument) (solvedAt : option Z) : bool :=
  if bool_decide (is_Some solvedAt)
     || existsb (fun p => bool_decide (run_phase state = p)) [run_solved; run_archiving; run_completed]
  then true
  else (0 <? Z.of_nat (length (run_scenarioProbes state)))
       && forallb (fun p => isVerificationPassed (Some (probe_status p))) (run_scenarioProbes state).

Record ScenarioRunSolutionView : Type := mkSolutionView {
  sv_unlocked : bool;
  sv_revealed : bool;
  sv_assisted : bool;
  sv_revealedAt : option Z;
  sv_bodyMarkdown : option string;
}.

Definition buildScenarioRunSolutionView (solutionMarkdown : string) (solutionRevealedAt : option Z)
    (solutionAssisted : bool) (state : RunStateDocument) (solvedAt : option Z)
  : ScenarioRunSolutionView :=
  let revealed := bool_decide (is_Some solutionRevealedAt) in
  let unlocked := revealed || isScenarioRunSolved state solvedAt in
  mkSolutionView unlocked revealed solutionAssisted solutionRevealedAt
    (if revealed then Some solutionMarkdown else None).

(** * Handlers (scenario-hints.ts) *)

Record ScenarioRunCliMutationFence : Type := mkFence {
  fence_executionId : string;
  fence_hostId : string;
  fence_runtimeVmName : string;
  fence_jailGeneration : string;
  fence_userId : string;
}.

Definition scenarioRunCliMutationGuard (db : Db) (run : RunRow) (f : ScenarioRunCliMutationFence)
  : bool :=
  existsb (fun e =>
    activeAccount db (sr_userId run)
    && existsb (fun vm =>
         (rv_executionId vm =s re_id e)
         && existsb (fun a =>
              (av_runtimeVmId a =s rv_id vm) && (av_executionId a =s re_id e)
              && (av_hostId a =s fence_hostId f) && (av_reportRunId a =s re_id e)
              && (av_reportVmName a =s fence_runtimeVmName f)
              && bool_decide (av_reportGeneration a = Some (fence_jailGeneration f))) (db_actual db)
         && (rv_runtimeVmName vm =s fence_runtimeVmName f)) (db_vms db)
    && (re_id e =s fence_executionId f) && bool_decide (re_hostId e = Some (fence_hostId f))
    && (re_domainKind e =s "scenario") && (re_domainId e =s sr_runId run)
    && bool_decide (re_state e = ex_ready)
    && bool_decide (sr_runtimeExecutionId run = Some (re_id e))
    && bool_decide (sr_activeKey run = Some (fence_userId f))
    && negb (bool_decide (is_Some (sr_deleteRequestedAt run)))
    && newestGeneration db e) (db_executions db).

Definition staleRunCliFence : AppError :=
  appError 409 "scenario_run_cli_fence_stale"
    "scenario run changed before the CLI action could be applied".

Definition with_content (r : RunRow) (c : RunContent) (updatedAt : Z) : RunRow :=
  mkRunRow (sr_runId r) (sr_userId r) (sr_organizationId r) (sr_runtimeExecutionId r) (sr_hostId r)
    (sr_state r) (sr_stateRank r) (sr_activeKey r) (sr_stateJson r) (sr_archiveEnteredAt r)
    (sr_deleteRequestedAt r) (sr_solvedAt r) (sr_completedAt r) (sr_failedAt r) (sr_createdAt r)
    updatedAt c.

Definition findUserRun (db : Db) (runId userId : string) : option RunRow :=
  List.find (fun r => (sr_runId r =s runId) && (sr_userId r =s userId)) (db_runs db).

Definition fenceHolds (db : Db) (r : RunRow) (fence : option ScenarioRunCliMutationFence) : bool :=
  match fence with Some f => scenarioRunCliMutationGuard db r f | None => true end.

(** [race] is what other requests do between the read and the write
    ([beforeMutation] included). The record both handlers return is read from
    the store afterwards and is not part of the result. *)
Definition revealScenarioRunHintForUser (runId userId hintKey : string)
    (fence : option ScenarioRunCliMutationFence) (now : Z) (race : Db -> Db) (db : Db)
  : Db * result AppError unit :=
  match findUserRun db runId userId with
  | None => (db, Err (appError 404 "scenario_run_not_found" "scenario run not found"))
  | Some row =>
      let content := sr_content row in
      match decideScenarioRunHintReveal (rc_hintsJson content) (rc_revealedHintsJson content) hintKey with
      | hint_refused refusal_unknown _ =>
          (db, Err (appError 404 "scenario_hint_unknown" "hint not found"))
      | hint_refused refusal_already_revealed _ =>
          (db, Err (appError 409 "scenario_hint_already_revealed" "hint is already revealed"))
      | hint_refused refusal_not_next _ =>
          (db, Err (appError 409 "scenario_hint_not_next"
                      "only the next hint of its group can be revealed"))
      | hint_allowed key =>
          let revealedHintsJson := appendRevealedScenarioRunHintKey (rc_hintsJson content)
                                     (rc_revealedHintsJson content) key in
          let db1 := race db in
          let hit r := (sr_runId r =s runId) && (sr_userId r =s userId)
            && bool_decide (rc_revealedHintsJson (sr_content r) = rc_revealedHintsJson content)
            && fenceHolds db1 r fence in
          let p := updateRuns hit (fun r =>
            with_content r (mkContent (rc_hintsJson (sr_content r)) revealedHintsJson
              (rc_solutionMarkdown (sr_content r)) (rc_solutionRevealedAt (sr_content r))
              (rc_solutionAssisted (sr_content r))) now) db1 in
          (fst p, if (snd p =? 0) && bool_decide (is_Some fence) then Err staleRunCliFence else Ok ())
      end
  end.

Definition revealScenarioRunSolutionForUser (runId userId : string)
    (fence : option ScenarioRunCliMutationFence) (now : Z) (race : Db -> Db) (db : Db)
  : Db * result AppError unit :=
  match findUserRun db runId userId with
  | None => (db, Err (appError 404 "scenario_run_not_found" "scenario run not found"))
  | Some row =>
      let solved := isScenarioRunSolved (parseRunState (sr_stateJson row)) (sr_solvedAt row) in
      let db1 := race db in
      let hit r := (sr_runId r =s runId) && (sr_userId r =s userId) && fenceHolds db1 r fence in
      let p := updateRuns hit (fun r =>
        with_content r (mkContent (rc_hintsJson (sr_content r)) (rc_revealedHintsJson (sr_content r))
          (rc_solutionMarkdown (sr_content r))
          (Some (nullish (rc_solutionRevealedAt (sr_content row)) now))
          (rc_solutionAssisted (sr_content row) || negb solved)) now) db1 in
      (fst p, if (snd p =? 0) && bool_decide (is_Some fence) then Err staleRunCliFence else Ok ())
  end.

(** * The ladder specification *)

Abbreviation group := scenarioRunHintGroupKey.

(** A hint is on the revealed part of its ladder when it and every hint of its
    group before it are revealed. *)
Definition on_ladder (hints : list hint) (revealed : list string) (k : string) : Prop :=
  exists l1 h l2, hints = l1 ++ h :: l2 /\ hint_key h = k /\ In k revealed /\
    Forall (fun x => group x = group h -> In (hint_key x) revealed) l1.

Lemma canonicalFrom_spec revealed blocked hints k :
  In k (canonicalFrom revealed blocked hints) <->
  exists l1 h l2, hints = l1 ++ h :: l2 /\ hint_key h = k /\ In k revealed /\
    ~ In (group h) blocked /\ Forall (fun x => group x = group h -> In (hint_key x) revealed) l1.
Proof.
  revert blocked. induction hints as [|x hints IH]; intros blocked; cbn.
  - split; [done|]. intros (l1 & h & l2 & H & _). by destruct l1.
  - assert (Hshift : forall b, (forall g, In g blocked -> In g b) ->
      (exists l1 h l2, hints = l1 ++ h :: l2 /\ hint_key h = k /\ In k revealed /\ ~ In (group h) b /\
         (group x = group h -> In (hint_key x) revealed) /\
         Forall (fun y => group y = group h -> In (hint_key y) revealed) l1) ->
      exists l1 h l2, x :: hints = l1 ++ h :: l2 /\ hint_key h = k /\ In k revealed /\
        ~ In (group h) blocked /\ Forall (fun y => group y = group h -> In (hint_key y) revealed) l1).
    { intros b Hb (l1 & h & l2 & -> & Hk & Hr & Hg & Hx & Hl). exists (x :: l1), h, l2.
      rewrite Forall_cons. naive_solver. }
    destruct (str_mem (group x) blocked) eqn:Eb.
    + apply str_mem_In in Eb. rewrite IH. split.
      * intros (l1 & h & l2 & -> & Hk & Hr & Hg & Hl). apply (Hshift blocked); [done|].
        exists l1, h, l2. repeat split; auto. intros E. destruct Hg. by rewrite <- E.
      * intros ([|y l1] & h & l2 & H & Hk & Hr & Hg & Hl); simplify_eq/=; [done|].
        apply Forall_cons in Hl as [_ Hl]. naive_solver.
    + destruct (str_mem (hint_key x) revealed) eqn:Er; cbn [negb].
      * apply str_mem_In in Er. apply str_mem_false in Eb. cbn. rewrite IH. split.
        -- intros [<-|(l1 & h & l2 & -> & H)].
           ++ exists [], x, hints. by repeat split.
           ++ apply (Hshift blocked); [done|]. exists l1, h, l2. naive_solver.
        -- intros ([|y l1] & h & l2 & H & Hk & Hr & Hg & Hl); simplify_eq/=; [by left|].
           apply Forall_cons in Hl as [_ Hl]. right. naive_solver.
      * apply str_mem_false in Er. rewrite IH. split.
        -- intros (l1 & h & l2 & -> & Hk & Hr & Hg & Hl). cbn in Hg.
           apply (Hshift (group x :: blocked)); [cbn; auto|]. exists l1, h, l2. cbn.
           repeat split; auto. intros E. destruct Hg. by left.
        -- intros ([|y l1] & h & l2 & H & Hk & Hr & Hg & Hl); simplify_eq/=; [done|].
           apply Forall_cons in Hl as [Hx Hl]. exists l1, h, l2. repeat split; auto.
           intros [E|?]; [|done]. by apply Er, Hx.
Qed.

Lemma uniqueFrom_keys seen hints :
  NoDup (map hint_key (uniqueFrom seen hints)) /\
  (forall k, In k (map hint_key (uniqueFrom seen hints)) -> ~ In k seen).
Proof.
  revert seen. induction hints as [|h hints IH]; intros seen; cbn; [split; [constructor|done]|].
  destruct (str_mem (hint_key h) seen) eqn:E; [apply IH|]. cbn.
  destruct (IH (hint_key h :: seen)) as [Hn Hs]. apply str_mem_false in E. split.
  - constructor; [|done]. intros Hin%list_elem_of_In. apply (Hs _ Hin). by left.
  - intros k [<-|Hk]; [done|]. intros Hin. apply (Hs _ Hk). by right.
Qed.

Lemma unique_keys hints : NoDup (map hint_key (uniqueScenarioRunHints hints)).
Proof. apply uniqueFrom_keys. Qed.

Lemma uniqueFrom_id seen hints :
  NoDup (map hint_key hints) -> (forall h, In h hints -> ~ In (hint_key h) seen) ->
  uniqueFrom seen hints = hints.
Proof.
  revert seen. induction hints as [|h hints IH]; intros seen Hn Hs; cbn; [done|].
  cbn in Hn. apply NoDup_cons in Hn as [Hh Hn].
  assert (str_mem (hint_key h) seen = false) as -> by (apply str_mem_false, Hs; by left).
  f_equal. apply IH; [done|]. intros x Hx [E|Hin]; [|by apply (Hs x); [right|]].
  apply Hh. rewrite E. by apply list_elem_of_In, in_map.
Qed.

Lemma unique_idem hints :
  uniqueScenarioRunHints (uniqueScenarioRunHints hints) = uniqueScenarioRunHints hints.
Proof. apply uniqueFrom_id; [apply unique_keys|]. by intros h _ []. Qed.

Lemma canonical_spec hints revealed k :
  In k (canonicalRevealedScenarioRunHintKeys hints revealed) <->
  on_ladder (uniqueScenarioRunHints hints) revealed k.
Proof.
  unfold canonicalRevealedScenarioRunHintKeys, on_ladder. rewrite canonicalFrom_spec. naive_solver.
Qed.

Lemma canonicalFrom_sublist revealed blocked hints :
  canonicalFrom revealed blocked hints `sublist_of` map hint_key hints.
Proof.
  revert blocked. induction hints as [|h hints IH]; intros blocked; cbn; [constructor|].
  repeat case_match; by constructor.
Qed.

(** The canonical form depends only on what is on the ladders. *)
Lemma canonical_ext hints r1 r2 :
  (forall k, on_ladder (uniqueScenarioRunHints hints) r1 k <->
             on_ladder (uniqueScenarioRunHints hints) r2 k) ->
  canonicalRevealedScenarioRunHintKeys hints r1 = canonicalRevealedScenarioRunHintKeys hints r2.
Proof.
  intros H. eapply sublist_determined; [apply unique_keys|apply canonicalFrom_sublist..|].
  intros k. rewrite !list_elem_of_In. fold (canonicalRevealedScenarioRunHintKeys hints r1).
  fold (canonicalRevealedScenarioRunHintKeys hints r2). by rewrite !canonical_spec.
Qed.

Lemma canonical_unique hints revealed :
  canonicalRevealedScenarioRunHintKeys (uniqueScenarioRunHints hints) revealed =
  canonicalRevealedScenarioRunHintKeys hints revealed.
Proof. unfold canonicalRevealedScenarioRunHintKeys. by rewrite unique_idem. Qed.

(** Hints before a hint of the ladder, in its group, are on the ladder. *)
Lemma on_ladder_prefix hints revealed l1 h l2 :
  hints = l1 ++ h :: l2 ->
  Forall (fun x => group x = group h -> In (hint_key x) revealed) l1 ->
  Forall (fun x => group x = group h -> on_ladder hints revealed (hint_key x)) l1.
Proof.
  intros -> Hl. apply List.Forall_forall. intros x Hx Hg.
  apply in_split in Hx as (a & b & ->). exists a, x, (b ++ h :: l2).
  rewrite <- app_assoc. apply Forall_app in Hl as [Ha Hb]. apply Forall_cons in Hb as [Hx _].
  repeat split; auto. eapply Forall_impl; [exact Ha|]. cbn. intros y Hy E. apply Hy. congruence.
Qed.

(** The stored reveals are kept in one form: a key is kept exactly when its
    hint and all earlier hints of its group are revealed, and bringing the kept
    keys to that form again changes nothing. *)
Theorem canonical_reveals_are_ladders hints revealed :
  let kept := canonicalRevealedScenarioRunHintKeys hints revealed in
  (forall k, In k kept <-> on_ladder (uniqueScenarioRunHints hints) revealed k) /\
  canonicalRevealedScenarioRunHintKeys hints kept = kept /\ NoDup kept.
Proof.
  intros kept. split; [intros k; apply canonical_spec|]. split.
  - apply canonical_ext. intros k. split.
    + intros (l1 & h & l2 & Hh & Hk & Hin & Hl). by apply canonical_spec in Hin.
    + intros (l1 & h & l2 & Hh & Hk & Hin & Hl).
      exists l1, h, l2. split; [done|]. split; [done|]. split.
      * apply canonical_spec. by exists l1, h, l2.
      * pose proof (on_ladder_prefix _ _ _ _ _ Hh Hl) as Hp.
        eapply Forall_impl; [exact Hp|]. cbn. intros x Hx E. by apply canonical_spec, Hx.
  - eapply sublist_NoDup; [apply unique_keys|apply canonicalFrom_sublist].
Qed.

(** * Revealing the next hint *)

Lemma find_split {A} (p : A -> bool) l x :
  List.find p l = Some x ->
  exists l1 l2, l = l1 ++ x :: l2 /\ p x = true /\ Forall (fun y => p y = false) l1.
Proof.
  induction l as [|y l IH]; cbn; [done|]. destruct (p y) eqn:E.
  - intros [= ->]. exists [], l. by repeat split.
  - intros H. destruct (IH H) as (l1 & l2 & -> & Hx & Hl). exists (y :: l1), l2.
    split; [done|]. split; [done|]. by constructor.
Qed.

Lemma next_spec hints C g k :
  nextScenarioRunHintKeyForGroup hints C g = Some k ->
  exists l1 h l2, hints = l1 ++ h :: l2 /\ hint_key h = k /\ group h = g /\ ~ In k C /\
    Forall (fun x => group x = g -> In (hint_key x) C) l1.
Proof.
  unfold nextScenarioRunHintKeyForGroup. destruct (List.find _ hints) as [h|] eqn:E; [|done].
  intros [= <-]. apply find_split in E as (l1 & l2 & -> & Hh & Hl). reflect_bools.
  exists l1, h, l2. split; [done|]. split; [done|]. split; [done|]. split; [by apply str_mem_false|].
  eapply Forall_impl; [exact Hl|]. cbn. intros x Hx <-. rewrite String.eqb_refl in Hx.
  apply negb_false_iff in Hx. by apply str_mem_In.
Qed.

Lemma find_key hints k h :
  List.find (fun h => hint_key h =s k) hints = Some h -> In h hints /\ hint_key h = k.
Proof. intros [Hin Hk]%List.find_some. by apply String.eqb_eq in Hk. Qed.

(** What an allowed reveal establishes. *)
Lemma decide_allowed hints R k k' :
  decideScenarioRunHintReveal hints R k = hint_allowed k' ->
  k' = k /\ ~ In k (canonicalRevealedScenarioRunHintKeys hints R) /\
  exists h, List.find (fun h => hint_key h =s k) (uniqueScenarioRunHints hints) = Some h /\
    nextScenarioRunHintKeyForGroup (uniqueScenarioRunHints hints)
      (canonicalRevealedScenarioRunHintKeys hints R) (group h) = Some k.
Proof.
  unfold decideScenarioRunHintReveal. cbv zeta. rewrite canonical_unique.
  destruct (List.find _ _) as [h|] eqn:E; [|done].
  destruct (find_key _ _ _ E) as [_ Hk]. destruct (str_mem _ _) eqn:Em; [done|].
  case_bool_decide as En; [|done]. intros [= <-]. rewrite Hk in *.
  split; [done|]. split; [by apply str_mem_false|]. by exists h.
Qed.

Lemma append_allowed hints R k :
  decideScenarioRunHintReveal hints R k = hint_allowed k ->
  forall x, In x (appendRevealedScenarioRunHintKey hints R k) <->
    In x (canonicalRevealedScenarioRunHintKeys hints R) \/ x = k.
Proof.
  intros (_ & Hnot & h & Hf & Hnext)%decide_allowed x.
  unfold appendRevealedScenarioRunHintKey. cbv zeta. rewrite canonical_unique, Hf.
  apply str_mem_false in Hnot. rewrite Hnot, bool_decide_true by done. cbn [negb].
  rewrite canonical_unique, canonical_spec.
  set (C := canonicalRevealedScenarioRunHintKeys hints R) in *. split.
  - intros (l1 & y & l2 & _ & <- & Hin & _). apply in_app_or in Hin as [?|[->|[]]]; auto.
  - intros [Hin| ->].
    + pose proof Hin as Hc. apply canonical_spec in Hc as (l1 & y & l2 & Hy & Hk & Hr & Hl).
      exists l1, y, l2. split; [done|]. split; [done|]. split; [apply in_or_app; by left|].
      pose proof (on_ladder_prefix _ _ _ _ _ Hy Hl) as Hp.
      eapply Forall_impl; [exact Hp|]. cbn. intros z Hz E. apply in_or_app. left.
      by apply canonical_spec, Hz.
    + destruct (next_spec _ _ _ _ Hnext) as (l1 & y & l2 & Hy & Hk & Hg & _ & Hl).
      exists l1, y, l2. split; [done|]. split; [done|]. split; [apply in_or_app; right; by left|].
      eapply Forall_impl; [exact Hl|]. cbn. intros z Hz E. apply in_or_app. left. apply Hz. congruence.
Qed.

(** The decision and the update agree: an allowed reveal adds exactly the
    requested hint to the revealed ladders, and a refused one leaves them as
    they are. *)
Theorem reveal_adds_exactly_the_allowed_hint hints revealed k :
  let before := canonicalRevealedScenarioRunHintKeys hints revealed in
  let after := appendRevealedScenarioRunHintKey hints revealed k in
  match decideScenarioRunHintReveal hints revealed k with
  | hint_allowed k' => k' = k /\ ~ In k before /\ forall x, In x after <-> In x before \/ x = k
  | hint_refused _ _ => after = before
  end.
Proof.
  intros before after. destruct (decideScenarioRunHintReveal hints revealed k) as [k'|reason nk] eqn:E.
  - destruct (decide_allowed _ _ _ _ E) as (-> & Hn & _).
    split; [done|]. split; [done|]. by apply append_allowed.
  - revert E. unfold after, before, appendRevealedScenarioRunHintKey, decideScenarioRunHintReveal.
    cbv zeta. rewrite !canonical_unique. destruct (List.find _ _) as [h|] eqn:Ef.
    + destruct (find_key _ _ _ Ef) as [_ Hk]. rewrite Hk. destruct (str_mem k _); [done|].
      case_bool_decide; done.
    + intros _. by destruct (str_mem k _).
Qed.

Lemma unlocked_next hints C k :
  NoDup (map hint_key hints) ->
  In k (omap (fun h => nextScenarioRunHintKeyForGroup hints C (group h)) hints) ->
  forall h, In h hints -> hint_key h = k -> nextScenarioRunHintKeyForGroup hints C (group h) = Some k.
Proof.
  intros Hn Hin h Hh Hk. apply list_elem_of_In, list_elem_of_omap in Hin as (h' & _ & Hnext).
  destruct (next_spec _ _ _ _ Hnext) as (l1 & y & l2 & Hy & Hyk & Hg & _).
  assert (y = h) as -> by (apply (NoDup_map_inj hint_key hints); [done|rewrite Hy; apply in_elt|done|congruence]).
  by rewrite Hg.
Qed.

Lemma find_unique_key hints h :
  NoDup (map hint_key hints) -> In h hints ->
  List.find (fun x => hint_key x =s hint_key h) hints = Some h.
Proof.
  intros Hn Hin. destruct (List.find _ hints) as [x|] eqn:E.
  - destruct (find_key _ _ _ E) as [Hx Hk]. f_equal. by apply (NoDup_map_inj hint_key hints).
  - pose proof (List.find_none _ _ E _ Hin) as H. cbn in H. by rewrite String.eqb_refl in H.
Qed.

(** Sealed hints leak nothing and the offer is exact: a hint that is not
    revealed shows neither title nor body, and a hint is offered for reveal
    exactly when the reveal would be allowed. *)
Theorem hint_views_sealed_and_exact hints revealed v
    (Hv : In v (buildScenarioRunHintViews hints revealed)) :
  (hv_revealed v = false -> hv_title v = None /\ hv_bodyMarkdown v = None) /\
  (hv_unlocked v = true <->
   decideScenarioRunHintReveal hints revealed (hv_key v) = hint_allowed (hv_key v)).
Proof.
  unfold buildScenarioRunHintViews in Hv. cbv zeta in Hv. rewrite canonical_unique in Hv.
  apply in_map_iff in Hv as (h & <- & Hh). cbn. split; [by intros ->|].
  unfold decideScenarioRunHintReveal. cbv zeta. rewrite canonical_unique.
  rewrite (find_unique_key _ _ (unique_keys hints) Hh).
  set (C := canonicalRevealedScenarioRunHintKeys hints revealed).
  destruct (str_mem (hint_key h) C); cbn [negb andb]; [done|].
  case_bool_decide as En; cbn [negb].
  - split; [done|]. intros _. apply str_mem_In, list_elem_of_In, list_elem_of_omap.
    exists h. split; [by apply list_elem_of_In|done].
  - split; [|done]. intros Hin%str_mem_In. destruct En.
    by apply (unlocked_next _ _ _ (unique_keys hints) Hin).
Qed.

(** A reveal is decided on what is stored: whatever other requests do
    between the read and the write, every run the handler changes is the
    requested one, the reveal is allowed on its stored hints, and exactly the
    requested hint is added to its revealed ladders. *)
Theorem hint_reveal_atomic runId userId hintKey fence now race db
    (Hsame : forall row r, findUserRun db runId userId = Some row -> In r (db_runs (race db)) ->
       sr_runId r = runId -> rc_hintsJson (sr_content r) = rc_hintsJson (sr_content row)) :
  let db' := fst (revealScenarioRunHintForUser runId userId hintKey fence now race db) in
  forall r', In r' (db_runs db') ->
  In r' (db_runs db) \/ In r' (db_runs (race db)) \/
  exists r, In r (db_runs (race db)) /\ sr_runId r = runId /\ sr_userId r = userId /\
    let hints := rc_hintsJson (sr_content r) in
    decideScenarioRunHintReveal hints (rc_revealedHintsJson (sr_content r)) hintKey
      = hint_allowed hintKey /\
    r' = with_content r (mkContent hints
           (appendRevealedScenarioRunHintKey hints (rc_revealedHintsJson (sr_content r)) hintKey)
           (rc_solutionMarkdown (sr_content r)) (rc_solutionRevealedAt (sr_content r))
           (rc_solutionAssisted (sr_content r))) now.
Proof.
  intros db' r' Hr'. unfold db', revealScenarioRunHintForUser in Hr'.
  destruct (findUserRun db runId userId) as [row|] eqn:Ef; [|by left]. cbv zeta in Hr'.
  destruct (decideScenarioRunHintReveal _ _ _) as [k|reason nk] eqn:Ed.
  2:{ left. by destruct reason. }
  cbn [fst db_runs updateRuns set_runs] in Hr'. right.
  unfold update_where in Hr'. apply in_map_iff in Hr' as (r & <- & Hin).
  destruct (_ && _) eqn:Eb; [right|by left].
  reflect_bools. match goal with H : bool_decide _ = true |- _ => apply bool_decide_eq_true in H end.
  assert (Hh : rc_hintsJson (sr_content r) = rc_hintsJson (sr_content row)) by (by apply Hsame).
  destruct (decide_allowed _ _ _ _ Ed) as [-> _].
  exists r. cbv zeta. rewrite Hh, H1. auto.
Qed.

(** * Witnesses *)

Module HintSample.
Definition h (k : string) (s : HintScope) (p : option string) : hint := mkHint k s p k (Some k) k.
Definition hints : list hint :=
  [h "scenario:a" hint_scenario None; h "scenario:b" hint_scenario None;
   h "probe:vm:p:a" hint_probe (Some "p"); h "scenario:a" hint_scenario None].
Definition db0 : Db :=
  mkDb [mkRunRow "run" "user" None (Some "run") "host" run_active_full 3 (Some "user") None
          None None None None None 10 10 (mkContent hints ["scenario:a"; "gone"] "solution" None false)]
    [] [] [] [] [] [] [] [].
End HintSample.

Lemma hint_views_sealed_and_exact_witness :
  let v := mkHintView "scenario:b" hint_scenario None "scenario:b" None false true None in
  hv_unlocked v = true /\
  decideScenarioRunHintReveal HintSample.hints ["scenario:a"] "scenario:b" = hint_allowed "scenario:b".
Proof.
  split; [reflexivity|].
  apply (hint_views_sealed_and_exact HintSample.hints ["scenario:a"]
    (mkHintView "scenario:b" hint_scenario None "scenario:b" None false true None)); [|reflexivity].
  vm_compute. right. left. reflexivity.
Defined.

Lemma hint_reveal_atomic_witness :
  let db' := fst (revealScenarioRunHintForUser "run" "user" "scenario:b" None 20 (fun d => d) HintSample.db0) in
  map (fun r => rc_revealedHintsJson (sr_content r)) (db_runs db') = [["scenario:a"; "scenario:b"]] /\
  forall r', In r' (db_runs db') ->
    In r' (db_runs HintSample.db0) \/ In r' (db_runs HintSample.db0) \/
    exists r, In r (db_runs HintSample.db0) /\ sr_runId r = "run" /\ sr_userId r = "user" /\
    let hints := rc_hintsJson (sr_content r) in
    decideScenarioRunHintReveal hints (rc_revealedHintsJson (sr_content r)) "scenario:b"
      = hint_allowed "scenario:b" /\
    r' = with_content r (mkContent hints
           (appendRevealedScenarioRunHintKey hints (rc_revealedHintsJson (sr_content r)) "scenario:b")
           (rc_solutionMarkdown (sr_content r)) (rc_solutionRevealedAt (sr_content r))
           (rc_solutionAssisted (sr_content r))) 20.
Proof.
  split; [vm_compute; reflexivity|].
  apply (hint_reveal_atomic "run" "user" "scenario:b" None 20 (fun d => d) HintSample.db0).
  intros row r Hf [<-|[]] _. vm_compute in Hf. injection Hf as <-. reflexivity.
Defined.
