(* ===== verification/Bridge.v ===== *)
(** The bridge between the control plane and its hosts: the message validator
    apps/web/src/control-plane/bridge-v8.ts, and the slug check of
    apps/web/src/control-plane/image-registry/shared.ts it uses.

    A property that is absent is [None]. Objects have one value per key, as
    [JSON.parse] yields them. *)
From stdpp Require Import base list strings pretty.
From Stdlib Require Import ZArith Lia.
From S2P Require Import Prelude Json.

Open Scope string_scope.
Open Scope list_scope.
Open Scope Z_scope.

(** [value.key] on a value that may be [undefined]. *)
Definition prop (v : option json) (k : string) : option json :=
  match v with Some j => field j k | None => None end.

(** * Constants *)

Definition BRIDGE_PROTOCOL_VERSION : Z := 8.
Definition HOST_DESIRED_STATE_SCHEMA_VERSION : Z := 6.
Definition HOST_STATE_REPORT_SCHEMA_VERSION : Z := 7.
Definition BUILD_REPORT_SCHEMA_VERSION : Z := 1.
Definition VM_REPORT_SCHEMA_VERSION : Z := 6.

Definition MESSAGE_TYPES : list string :=
  ["client_hello"; "server_hello"; "desired_state"; "state_report"; "vm_report"; "build_report";
   "sync_request"].
Definition HOST_ROLES : list string := ["agent"; "builder"].
Definition IMAGE_ARCHITECTURES : list string := ["x86_64"; "aarch64"].
Definition DESIRED_VM_PHASES : list string := ["running"; "absent"].
Definition IMAGE_CACHE_PHASES : list string := ["missing"; "queued"; "downloading"; "ready"; "failed"].
Definition VM_PHASES : list string :=
  ["pending"; "pulling_image"; "creating_disks"; "booting"; "running"; "ready"; "solved";
   "stopping"; "stopped"; "failed"; "absent"].
Definition PROBE_PHASES : list string := ["boot"; "scenario"].
Definition VM_PROBE_STATUSES : list string := ["unknown"; "pass"; "fail"].
Definition VM_TERMINAL_STATES : list string := ["pending"; "ready"; "failed"].
Definition VM_ARCHIVE_PHASES : list string := ["none"; "pending"; "uploading"; "complete"; "failed"].
Definition BUILD_PHASES : list string :=
  ["queued"; "fetching_sources"; "building_base"; "building"; "publishing"; "uploading_logs";
   "succeeded"; "failed"].
Definition SYNC_REQUEST_REASONS : list string :=
  ["connect"; "reconnect"; "desired_version_lag"; "operator_requested"].

(** * Value checks *)

Definition is_nullish (v : option json) : bool :=
  match v with None | Some JNull => true | _ => false end.
Definition isInteger (v : option json) : bool :=
  match v with Some (JNum (NInt _)) => true | _ => false end.
Definition isNonNegativeInteger (v : option json) : bool :=
  match v with Some (JNum (NInt z)) => 0 <=? z | _ => false end.
Definition isPositiveInteger (v : option json) : bool :=
  match v with Some (JNum (NInt z)) => 0 <? z | _ => false end.
Definition isBoolean (v : option json) : bool :=
  match v with Some (JBool _) => true | _ => false end.
Definition isNumber (v : option json) (z : Z) : bool := bool_decide (v = Some (JNum (NInt z))).
Definition isText (v : option json) (s : string) : bool := bool_decide (v = Some (JStr s)).
Definition isOptionalNumber (v : option json) : bool := is_nullish v || isNonNegativeInteger v.
Definition hasText (v : option json) : bool := bool_decide (is_Some (readString v)).

(** [const x = readString(v); x !== null && SET.has(x)]. *)
Definition readIn (v : option json) (set : list string) : bool :=
  match readString v with Some s => str_mem s set | None => false end.

(** [Array.isArray(v) && v.every(p)]. *)
Definition arrayOf (p : option json -> bool) (v : option json) : bool :=
  match v with Some (JArr items) => forallb (fun x => p (Some x)) items | _ => false end.

Definition isHexDigit (n : N) : bool := in_range 48 57 n || in_range 97 102 n || in_range 65 70 n.
Definition SHA256_HEX_RE (s : string) : bool :=
  Nat.eqb (String.length s) 64 && forallb isHexDigit (code_units s).
Definition isSha256Hex (v : option json) : bool :=
  match readString v with Some s => SHA256_HEX_RE s | None => false end.
Definition isOptionalSha256Hex (v : option json) : bool := is_nullish v || isSha256Hex v.
Definition isOptionalString (v : option json) : bool := is_nullish v || hasText v.
Definition isOptionalInteger (v : option json) : bool := is_nullish v || isInteger v.
Definition isOptionalNonNegativeInteger (v : option json) : bool :=
  is_nullish v || isNonNegativeInteger v.
Definition isOptionalNonNegativeNumber (v : option json) : bool :=
  is_nullish v ||
  match v with
  | Some (JNum (NInt z)) => 0 <=? z
  | Some (JNum (NFrac floor _)) => 0 <=? floor
  | _ => false
  end.
Definition isStringArray (v : option json) : bool :=
  arrayOf (fun x => match x with Some (JStr _) => true | _ => false end) v.

(** [/^[A-Za-z0-9._-]{1,128}$/] and not a dot segment. *)
Definition isSlugChar (n : N) : bool :=
  in_range 65 90 n || in_range 97 122 n || in_range 48 57 n
  || (n =? 46)%N || (n =? 95)%N || (n =? 45)%N.
Definition isSafeBundleRev (value : string) : bool :=
  negb (value =s ".") && negb (value =s "..")
  && ((Nat.leb 1 (String.length value)) && (Nat.leb (String.length value) 128)
      && forallb isSlugChar (code_units value)).
Definition isSafeSlug (v : option json) : bool :=
  match v with Some (JStr s) => isSafeBundleRev s | _ => false end.

Definition isExecutionIdentity (v : option json) : bool :=
  hasText (prop v "owner_user_id") && hasText (prop v "runtime_execution_id")
  && match prop v "generation" with
     | Some (JNum (NInt z)) => safe_integer z && (0 <? z)
     | _ => false
     end.

(** * Payloads *)

Definition isImageKeyPayload (v : option json) : bool :=
  isRecord v && hasText (prop v "scenario") && hasText (prop v "vm")
  && readIn (prop v "arch") IMAGE_ARCHITECTURES.
Definition isOptionalImageKeyPayload (v : option json) : bool := is_nullish v || isImageKeyPayload v.

Definition isVmResourcesPayload (v : option json) : bool :=
  isRecord v && isPositiveInteger (prop v "cpu_millis")
  && isNonNegativeInteger (prop v "memory_mib") && isNonNegativeInteger (prop v "disk_mib").

Definition isDesiredCachedImagePayload (v : option json) : bool :=
  isRecord v && isImageKeyPayload (prop v "image_key") && isSha256Hex (prop v "image_id").

Definition isDesiredBuildPayload (v : option json) : bool :=
  isRecord v && hasText (prop v "build_id") && hasText (prop v "scenario_id")
  && readIn (prop v "arch") IMAGE_ARCHITECTURES && hasText (prop v "rev")
  && isSha256Hex (prop v "content_hash") && hasText (prop v "bundle_ref").

Definition isDesiredSourceCompilePayload (v : option json) : bool :=
  isRecord v && isSafeSlug (prop v "compile_id")
  && match prop v "attempt" with
     | Some (JNum (NInt z)) => (0 <=? z) && (z <=? 2 ^ 32 - 1)
     | _ => false
     end
  && isSafeSlug (prop v "rev") && isBoolean (prop v "validate_only")
  && match prop v "arch" with Some (JStr s) => str_mem s IMAGE_ARCHITECTURES | _ => false end.

Definition isGuestToolsPayload (v : option json) : bool :=
  isRecord v && isSha256Hex (prop v "tools_disk_sha256")
  && isNumber (prop v "tools_disk_size_bytes") (64 * 1024 * 1024)
  && isSha256Hex (prop v "kino_sha256") && isNumber (prop v "bootstrap_abi") 2.

Definition isDesiredVmPayload (v : option json) : bool :=
  isRecord v && isExecutionIdentity v && hasText (prop v "run_id") && hasText (prop v "vm_name")
  && readIn (prop v "desired_phase") DESIRED_VM_PHASES && hasText (prop v "vm_id")
  && isImageKeyPayload (prop v "image_key") && isSha256Hex (prop v "image_id")
  && isGuestToolsPayload (prop v "guest_tools") && isVmResourcesPayload (prop v "resources")
  && isStringArray (prop v "ssh_authorized_keys_openssh")
  && isInteger (prop v "lease_expires_at_unix_ms").

Definition isVmGuestToolsPayload (v : option json) : bool :=
  isRecord v && isSha256Hex (prop v "tools_disk_sha256") && isSha256Hex (prop v "kino_sha256")
  && isNumber (prop v "bootstrap_abi") 2 && isBoolean (prop v "verified").
Definition isOptionalVmGuestToolsPayload (v : option json) : bool :=
  is_nullish v || isVmGuestToolsPayload v.

Definition isHostCapacityPayload (v : option json) : bool :=
  isRecord v
  && isNonNegativeInteger (prop v "total_cpu_millis")
  && isNonNegativeInteger (prop v "reserved_cpu_millis")
  && isNonNegativeInteger (prop v "schedulable_cpu_millis")
  && isNonNegativeInteger (prop v "committed_cpu_millis")
  && isNonNegativeInteger (prop v "memory_total_mib")
  && isNonNegativeInteger (prop v "memory_available_mib")
  && hasText (prop v "disk_probe_path")
  && isNonNegativeInteger (prop v "disk_total_mib")
  && isNonNegativeInteger (prop v "disk_available_mib")
  && isOptionalNonNegativeNumber (prop v "load_avg_1m")
  && isOptionalNonNegativeNumber (prop v "load_avg_5m")
  && isOptionalNonNegativeNumber (prop v "load_avg_15m")
  && isOptionalString (prop v "primary_ipv4") && isOptionalString (prop v "primary_ipv6").

(** The capabilities an agent of an earlier release does not know. *)
Definition DEFAULTED_CAPABILITIES : list string :=
  ["supports_run_cli_v1"; "supports_run_cli_completion_v1"; "supports_raw_chunks_v1";
   "supports_scenario_guest_tools_v1"; "supports_jailer_v3"].

Definition isAbsentOrBoolean (v : option json) : bool :=
  match v with None => true | _ => isBoolean v end.

Definition isHostCapabilitiesPayload (v : option json) : bool :=
  isRecord v && readIn (prop v "arch") IMAGE_ARCHITECTURES
  && (bool_decide (prop v "cloud_hypervisor_sha256" = Some JNull)
      || isSha256Hex (prop v "cloud_hypervisor_sha256"))
  && isBoolean (prop v "supports_kvm") && isBoolean (prop v "supports_vsock")
  && isBoolean (prop v "supports_reflink") && isBoolean (prop v "supports_nftables")
  && isBoolean (prop v "supports_jailer_v2")
  && isBoolean (prop v "supports_template_backed_launch")
  && isBoolean (prop v "fast_template_store") && isBoolean (prop v "supports_hard_cpu_quota")
  && isBoolean (prop v "supports_landlock") && isBoolean (prop v "supports_cgroup_v2")
  && isAbsentOrBoolean (prop v "supports_raw_chunks_v1")
  && isAbsentOrBoolean (prop v "supports_scenario_guest_tools_v1")
  && isAbsentOrBoolean (prop v "supports_jailer_v3")
  && isAbsentOrBoolean (prop v "supports_run_cli_v1")
  && isAbsentOrBoolean (prop v "supports_run_cli_completion_v1").

Definition isCachedImageStatePayload (v : option json) : bool :=
  isRecord v && isImageKeyPayload (prop v "image_key") && isSha256Hex (prop v "image_id")
  && readIn (prop v "phase") IMAGE_CACHE_PHASES
  && isOptionalNonNegativeInteger (prop v "bytes_on_disk")
  && isOptionalString (prop v "error") && isInteger (prop v "updated_at_unix_ms").

Definition isVmNetworkStatePayload (v : option json) : bool :=
  isRecord v && hasText (prop v "bridge_name") && hasText (prop v "guest_ip")
  && hasText (prop v "guest_cidr") && hasText (prop v "gateway")
  && isOptionalNonNegativeInteger (prop v "ssh_host_port").
Definition isOptionalVmNetworkStatePayload (v : option json) : bool :=
  is_nullish v || isVmNetworkStatePayload v.

Definition isVmTerminalTargetPayload (v : option json) : bool :=
  isRecord v && hasText (prop v "host") && isPositiveInteger (prop v "port")
  && hasText (prop v "username") && isInteger (prop v "checked_at_unix_ms").

Definition isVmTerminalStatePayload (v : option json) : bool :=
  if negb (isRecord v) then false
  else
    match readString (prop v "state") with
    | None => false
    | Some state =>
        if negb (str_mem state VM_TERMINAL_STATES) || negb (isOptionalString (prop v "reason"))
           || negb (isInteger (prop v "observed_at_unix_ms"))
        then false
        else if state =s "ready" then isVmTerminalTargetPayload (prop v "target")
        else is_nullish (prop v "target")
    end.

Definition isVmRuntimeConstraintsPayload (v : option json) : bool :=
  isRecord v && hasText (prop v "generation") && isPositiveInteger (prop v "cpu_millis")
  && (is_nullish (prop v "quota_verified_at_unix_ms")
      || isPositiveInteger (prop v "quota_verified_at_unix_ms")).
Definition isOptionalVmRuntimeConstraintsPayload (v : option json) : bool :=
  is_nullish v || isVmRuntimeConstraintsPayload v.

Definition hasRequiredRuntimeConstraints (v : option json) (phase : string) : bool :=
  if str_mem phase ["ready"; "solved"]
  then isVmRuntimeConstraintsPayload v && isRecord v
       && isPositiveInteger (prop v "quota_verified_at_unix_ms")
  else if str_mem phase ["booting"; "running"] then isVmRuntimeConstraintsPayload v
  else isOptionalVmRuntimeConstraintsPayload v.

Definition isVmResourceStatePayload (v : option json) : bool :=
  isRecord v && isPositiveInteger (prop v "cpu_millis") && isPositiveInteger (prop v "cpu_quota_us")
  && isPositiveInteger (prop v "cpu_period_us") && isNonNegativeInteger (prop v "cpu_usage_usec")
  && isNonNegativeInteger (prop v "cpu_user_usec") && isNonNegativeInteger (prop v "cpu_system_usec")
  && isNonNegativeInteger (prop v "cpu_nr_periods") && isNonNegativeInteger (prop v "cpu_nr_throttled")
  && isNonNegativeInteger (prop v "cpu_throttled_usec").
Definition isOptionalVmResourceStatePayload (v : option json) : bool :=
  is_nullish v || isVmResourceStatePayload v.

Definition isVmSandboxStatePayload (v : option json) : bool :=
  isRecord v && isBoolean (prop v "healthy") && hasText (prop v "generation")
  && hasText (prop v "systemd_unit") && hasText (prop v "cgroup_path")
  && isBoolean (prop v "seccomp_enabled") && isBoolean (prop v "landlock_enabled")
  && isBoolean (prop v "no_new_privs").
Definition isOptionalVmSandboxStatePayload (v : option json) : bool :=
  is_nullish v || isVmSandboxStatePayload v.

Definition isVmProbeSnapshotPayload (v : option json) : bool :=
  isRecord v && hasText (prop v "id") && readIn (prop v "phase") PROBE_PHASES
  && readIn (prop v "status") VM_PROBE_STATUSES && isInteger (prop v "checked_at_unix_ms")
  && isOptionalString (prop v "message").

Definition isVmArchiveStatePayload (v : option json) : bool :=
  isRecord v && readIn (prop v "phase") VM_ARCHIVE_PHASES
  && isNonNegativeInteger (prop v "artifact_count") && isOptionalString (prop v "error").
Definition isOptionalVmArchiveStatePayload (v : option json) : bool :=
  is_nullish v || isVmArchiveStatePayload v.

(** [phase !== null && VM_PHASES.has(phase)] with the constraints the phase
    requires. *)
Definition hasVmPhaseEvidence (v : option json) : bool :=
  match readString (prop v "phase") with
  | Some phase => str_mem phase VM_PHASES
                  && hasRequiredRuntimeConstraints (prop v "runtime_constraints") phase
  | None => false
  end.

Definition isVmActualStatePayload (v : option json) : bool :=
  isRecord v && isExecutionIdentity v && hasText (prop v "run_id") && hasText (prop v "vm_name")
  && isOptionalNonNegativeInteger (prop v "desired_version")
  && isOptionalImageKeyPayload (prop v "image_key") && isOptionalSha256Hex (prop v "image_id")
  && isOptionalVmGuestToolsPayload (prop v "guest_tools")
  && isOptionalVmNetworkStatePayload (prop v "network")
  && isVmTerminalStatePayload (prop v "terminal") && hasVmPhaseEvidence v
  && isOptionalVmResourceStatePayload (prop v "resource_state")
  && isOptionalVmSandboxStatePayload (prop v "sandbox")
  && isStringArray (prop v "ssh_host_keys_openssh")
  && arrayOf isVmProbeSnapshotPayload (prop v "probes")
  && isOptionalVmArchiveStatePayload (prop v "archive")
  && isOptionalString (prop v "error") && isInteger (prop v "updated_at_unix_ms").

Definition isVmReportPayload (v : option json) (hostId : string) : bool :=
  isRecord v && isNumber (prop v "schema_version") VM_REPORT_SCHEMA_VERSION
  && isText (prop v "host_id") hostId && isExecutionIdentity v
  && hasText (prop v "run_id") && hasText (prop v "vm_name")
  && isOptionalNonNegativeInteger (prop v "desired_version")
  && isInteger (prop v "observed_at_unix_ms")
  && isOptionalVmGuestToolsPayload (prop v "guest_tools")
  && isOptionalVmNetworkStatePayload (prop v "network")
  && isVmTerminalStatePayload (prop v "terminal") && hasVmPhaseEvidence v
  && isOptionalVmResourceStatePayload (prop v "resource_state")
  && isOptionalVmSandboxStatePayload (prop v "sandbox")
  && isStringArray (prop v "ssh_host_keys_openssh")
  && arrayOf isVmProbeSnapshotPayload (prop v "probes")
  && isOptionalVmArchiveStatePayload (prop v "archive") && isOptionalString (prop v "error").

Definition isBuildReportPayload (v : option json) (hostId : string) : bool :=
  isRecord v && isNumber (prop v "schema_version") BUILD_REPORT_SCHEMA_VERSION
  && isText (prop v "host_id") hostId && hasText (prop v "build_id")
  && hasText (prop v "scenario_id") && isSha256Hex (prop v "content_hash")
  && isInteger (prop v "observed_at_unix_ms") && readIn (prop v "phase") BUILD_PHASES
  && isOptionalString (prop v "current_vm") && isOptionalInteger (prop v "started_at_unix_ms")
  && isOptionalInteger (prop v "finished_at_unix_ms") && isNonNegativeInteger (prop v "attempt")
  && isOptionalString (prop v "error").

(** * Messages *)

Definition hasV7Envelope (v : option json) : bool :=
  isNumber (prop v "protocol_version") BRIDGE_PROTOCOL_VERSION && hasText (prop v "host_id").

Definition isClientHello (v : option json) : bool :=
  isRecord v && hasText (prop v "agent_version") && readIn (prop v "role") HOST_ROLES
  && isHostCapabilitiesPayload (prop v "capabilities")
  && isOptionalNumber (prop v "last_applied_desired_version").

Definition isServerHello (v : option json) : bool :=
  isRecord v && hasText (prop v "session_id") && isNonNegativeInteger (prop v "desired_version").

(** The distinct values of an array, compared as [Set] compares strings. *)
Definition distinctValues (vs : list (option json)) : list (option json) := remove_dups vs.

Definition isDesiredState (v : option json) : bool :=
  isRecord v &&
  match readString (prop v "host_id") with
  | None => false
  | Some hostId =>
      let d := prop v "desired_state" in
      isRecord d && isNumber (prop d "schema_version") HOST_DESIRED_STATE_SCHEMA_VERSION
      && isText (prop d "host_id") hostId
      && (isText (prop d "scope") "personal" || isText (prop d "scope") "platform"
          || isText (prop d "scope") "organization")
      && hasText (prop d "owner_user_id") && isNonNegativeInteger (prop d "version")
      && isInteger (prop d "generated_at_unix_ms")
      && arrayOf isDesiredCachedImagePayload (prop d "cached_images")
      && arrayOf (fun vm => isDesiredVmPayload vm
           && (negb (isText (prop d "scope") "personal")
               || bool_decide (prop vm "owner_user_id" = prop d "owner_user_id"))) (prop d "vms")
      && match prop d "vms" with
         | Some (JArr vms) =>
             let names := map (fun vm => field vm "vm_name") vms in
             Nat.eqb (length (distinctValues names)) (length vms)
         | _ => false
         end
      && arrayOf isDesiredBuildPayload (prop d "builds")
      && match prop d "source_compiles" with
         | None => true
         | compiles => arrayOf isDesiredSourceCompilePayload compiles
         end
  end.

Definition isStateReport (v : option json) : bool :=
  isRecord v &&
  match readString (prop v "host_id") with
  | None => false
  | Some hostId =>
      let r := prop v "report" in
      isRecord r && isNumber (prop r "schema_version") HOST_STATE_REPORT_SCHEMA_VERSION
      && isBoolean (prop r "relay_connected") && isText (prop r "host_id") hostId
      && isInteger (prop r "observed_at_unix_ms")
      && isNonNegativeInteger (prop r "applied_desired_version")
      && isHostCapacityPayload (prop r "capacity")
      && isHostCapabilitiesPayload (prop r "capabilities")
      && arrayOf isCachedImageStatePayload (prop r "cached_images")
      && arrayOf isVmActualStatePayload (prop r "vms")
      && arrayOf (fun b => isBuildReportPayload b hostId) (prop r "builds")
  end.

Definition isVmReport (v : option json) : bool :=
  isRecord v &&
  match readString (prop v "host_id") with
  | None => false
  | Some hostId => isVmReportPayload (prop v "report") hostId
  end.

Definition isBuildReport (v : option json) : bool :=
  isRecord v &&
  match readString (prop v "host_id") with
  | None => false
  | Some hostId => isBuildReportPayload (prop v "report") hostId
  end.

Definition isSyncRequest (v : option json) : bool :=
  isRecord v && readIn (prop v "reason") SYNC_REQUEST_REASONS.

(** * Defaults for capabilities *)

(** The properties [{ ...v }] copies. *)
Definition spread (v : json) : list (string * json) :=
  match v with
  | JObj fs => fs
  | JArr items => imap (fun i x => (pretty i, x)) items
  | JStr s => imap (fun i c => (pretty i, JStr c)) (str_chars s)
  | _ => []
  end.

Definition defaultCapability (caps : json) (k : string) (fs : list (string * json))
  : list (string * json) :=
  Map_set k (match field caps k with Some JNull | None => JBool false | Some b => b end) fs.

Definition defaultCapabilities (caps : json) : json :=
  JObj (fold_left (fun fs k => defaultCapability caps k fs) DEFAULTED_CAPABILITIES (spread caps)).

Definition knowsAllCapabilities (caps : json) : bool :=
  forallb (fun k => bool_decide (is_Some (field caps k))) DEFAULTED_CAPABILITIES.

(** [Err tt] is the [TypeError] of reading a property of null or undefined. *)
Definition withCapabilityDefaults (v : json) : result unit json :=
  if isText (field v "type") "client_hello" then
    match field v "capabilities" with
    | None | Some JNull => Err tt
    | Some caps =>
        if knowsAllCapabilities caps then Ok v
        else Ok (JObj (Map_set "capabilities" (defaultCapabilities caps) (spread v)))
    end
  else
    match field v "report" with
    | None | Some JNull => Err tt
    | Some report =>
        match field report "capabilities" with
        | None | Some JNull => Err tt
        | Some caps =>
            if knowsAllCapabilities caps then Ok v
            else Ok (JObj (Map_set "report"
              (JObj (Map_set "capabilities" (defaultCapabilities caps) (spread report))) (spread v)))
        end
    end.

(** * Parsing *)

(** A message, [null], or the exception that escapes. *)
Inductive ParseOutcome : Type :=
| parsed (message : json)
| rejected
| threw.

Definition accept_if (b : bool) (v : json) : ParseOutcome := if b then parsed v else rejected.
Definition accept_defaulted (b : bool) (v : json) : ParseOutcome :=
  if b then match withCapabilityDefaults v with Ok v' => parsed v' | Err _ => threw end
  else rejected.

Definition parseMessageValue (v : json) : ParseOutcome :=
  if negb (isRecord (Some v)) then rejected
  else
    match readString (field v "type") with
    | None => rejected
    | Some type =>
        if negb (str_mem type MESSAGE_TYPES) then rejected
        else if negb (hasV7Envelope (Some v)) then rejected
        else if type =s "client_hello" then accept_defaulted (isClientHello (Some v)) v
        else if type =s "server_hello" then accept_if (isServerHello (Some v)) v
        else if type =s "desired_state" then accept_if (isDesiredState (Some v)) v
        else if type =s "state_report" then accept_defaulted (isStateReport (Some v)) v
        else if type =s "vm_report" then accept_if (isVmReport (Some v)) v
        else if type =s "build_report" then accept_if (isBuildReport (Some v)) v
        else accept_if (isSyncRequest (Some v)) v
    end.

Section bridge.
(** The texts, with the engine's [JSON.parse] ([None] when it throws) and
    [JSON.stringify]. *)
Variable text : Type.
Variable JSON_parse : text -> option json.
Variable JSON_stringify : json -> text.

Definition parseJson (input : text) : json := nullish (JSON_parse input) JNull.
Definition parseBridgeMessageV8 (input : text) : ParseOutcome := parseMessageValue (parseJson input).
Definition serializeBridgeMessageV8 (message : json) : text := JSON_stringify message.
End bridge.

(** * Lemmas: defaults *)

Lemma isRecord_inv v : isRecord v = true -> exists fs, v = Some (JObj fs).
Proof. destruct v as [[]|]; try done. eauto. Qed.

Lemma field_default caps j k fs :
  Map_get k (defaultCapability caps j fs) =
  if k =s j then Some (match field caps j with Some JNull | None => JBool false | Some b => b end)
  else Map_get k fs.
Proof.
  unfold defaultCapability. destruct (k =s j) eqn:E.
  - apply String.eqb_eq in E as ->. apply Map_get_set_eq.
  - apply String.eqb_neq in E. by apply Map_get_set_ne.
Qed.

Lemma default_capability_boolean v :
  isAbsentOrBoolean v = true ->
  isBoolean (Some (match v with Some JNull | None => JBool false | Some b => b end)) = true.
Proof. by destruct v as [[]|]. Qed.

(** Whatever the capabilities are, all of them are known afterwards. *)
Lemma defaults_known caps : knowsAllCapabilities (defaultCapabilities caps) = true.
Proof.
  unfold knowsAllCapabilities, defaultCapabilities, DEFAULTED_CAPABILITIES. cbn [fold_left field forallb].
  rewrite !field_default. by repeat (rewrite bool_decide_true by (vm_compute; eauto)).
Qed.

Lemma capabilities_defaulted caps :
  isHostCapabilitiesPayload (Some caps) = true ->
  isHostCapabilitiesPayload (Some (defaultCapabilities caps)) = true.
Proof.
  intros H. assert (Hr : isRecord (Some caps) = true).
  { unfold isHostCapabilitiesPayload in H. by repeat (apply andb_true_iff in H as [H _]). }
  destruct (isRecord_inv _ Hr) as [fs [= ->]].
  assert (Hsame : forall k, str_mem k DEFAULTED_CAPABILITIES = false ->
    field (defaultCapabilities (JObj fs)) k = field (JObj fs) k).
  { intros k Hk. cbn [str_mem existsb DEFAULTED_CAPABILITIES] in Hk.
    unfold defaultCapabilities, DEFAULTED_CAPABILITIES. cbn [fold_left field spread].
    rewrite !field_default. by reflect_bools; repeat case_match; reflect_bools. }
  assert (Hbool : forall k, str_mem k DEFAULTED_CAPABILITIES = true ->
    isAbsentOrBoolean (field (JObj fs) k) = true ->
    isAbsentOrBoolean (field (defaultCapabilities (JObj fs)) k) = true).
  { intros k Hk Hb. apply str_mem_In in Hk. apply default_capability_boolean in Hb.
    unfold defaultCapabilities, DEFAULTED_CAPABILITIES. cbn [fold_left field spread].
    rewrite !field_default.
    destruct Hk as [<-|[<-|[<-|[<-|[<-|[]]]]]]; cbn [String.eqb Ascii.eqb Bool.eqb]; exact Hb. }
  unfold isHostCapabilitiesPayload in *. cbn [prop] in *. reflect_bools.
  rewrite !Hsame by reflexivity. split_andb; try assumption;
    (apply Hbool; [reflexivity|assumption]).
Qed.

Lemma defaulted_fields v v' k :
  isRecord (Some v) = true -> withCapabilityDefaults v = Ok v' ->
  k <> "capabilities" -> k <> "report" -> field v' k = field v k.
Proof.
  intros [fs [= ->]]%isRecord_inv H Hc Hr. unfold withCapabilityDefaults in H.
  repeat (case_match; simplify_eq; try done); cbn [field spread]; by rewrite Map_get_set_ne.
Qed.

Lemma defaulted_record v v' :
  isRecord (Some v) = true -> withCapabilityDefaults v = Ok v' -> isRecord (Some v') = true.
Proof. intros Hv H. unfold withCapabilityDefaults in H. repeat (case_match; simplify_eq; try done). Qed.

(** The hello stays a hello, whichever branch the defaults take. *)
Lemma clientHello_defaulted v v' :
  isClientHello (Some v) = true -> withCapabilityDefaults v = Ok v' -> isClientHello (Some v') = true.
Proof.
  intros H Hd. unfold isClientHello in *. reflect_bools. cbn [prop] in *.
  rewrite (defaulted_record _ _ ltac:(eassumption) Hd).
  rewrite (defaulted_fields v v' "agent_version"), (defaulted_fields v v' "role"),
    (defaulted_fields v v' "last_applied_desired_version") by (done || eassumption).
  enough (isHostCapabilitiesPayload (field v' "capabilities") = true) as ->
    by (split_andb; done).
  match goal with H : isRecord (Some v) = true |- _ => destruct (isRecord_inv _ H) as [fs [= ->]] end.
  unfold withCapabilityDefaults in Hd. destruct (isText _ _) eqn:Et.
  - destruct (field (JObj fs) "capabilities") as [caps|] eqn:Ec; [|done].
    destruct (knowsAllCapabilities caps) eqn:Ek; destruct caps; simplify_eq; try by rewrite Ec.
    all: cbn [field spread]; rewrite Map_get_set_eq; by apply capabilities_defaulted.
  - repeat (case_match; simplify_eq; try done); cbn [field spread] in *; by rewrite Map_get_set_ne.
Qed.

Lemma stateReport_defaulted v v' :
  isStateReport (Some v) = true -> isText (field v "type") "client_hello" = false ->
  withCapabilityDefaults v = Ok v' -> isStateReport (Some v') = true.
Proof.
  intros H Ht Hd. unfold isStateReport in *. apply andb_true_iff in H as [Hr H]. cbn [prop] in *.
  rewrite (defaulted_record _ _ Hr Hd), (defaulted_fields v v' "host_id") by done.
  destruct (readString (field v "host_id")) as [host|]; [|done]. cbv zeta in *.
  destruct (isRecord_inv _ Hr) as [fs [= ->]].
  unfold withCapabilityDefaults in Hd. rewrite Ht in Hd.
  destruct (field (JObj fs) "report") as [report|] eqn:Er; [|done].
  assert (Hrep : isRecord (Some report) = true) by by repeat (apply andb_true_iff in H as [H _]).
  destruct (isRecord_inv _ Hrep) as [rs [= ->]]. cbn [prop] in *.
  destruct (field (JObj rs) "capabilities") as [caps|] eqn:Ec; [|done].
  destruct (knowsAllCapabilities caps) eqn:Ek.
  - destruct caps; simplify_eq; by rewrite Er; cbn [prop]; rewrite Ec.
  - assert (v' = JObj (Map_set "report" (JObj (Map_set "capabilities" (defaultCapabilities caps) rs)) fs))
      as -> by (destruct caps; by simplify_eq).
    cbn [field]. rewrite Map_get_set_eq. cbn [prop field isRecord].
    rewrite Map_get_set_eq, !Map_get_set_ne by done. reflect_bools.
    match goal with H : isHostCapabilitiesPayload (Some caps) = true |- _ =>
      rewrite (capabilities_defaulted _ H) end.
    split_andb; done.
Qed.

(** Defaulting a message again changes nothing. *)
Lemma defaulted_stable v v' :
  isRecord (Some v) = true -> withCapabilityDefaults v = Ok v' -> withCapabilityDefaults v' = Ok v'.
Proof.
  intros Hr Hd. pose proof (defaulted_fields v v' "type" Hr Hd ltac:(done) ltac:(done)) as Ht.
  destruct (isRecord_inv _ Hr) as [fs [= ->]].
  unfold withCapabilityDefaults in Hd |- *. rewrite Ht. destruct (isText _ _) eqn:Et.
  - destruct (field (JObj fs) "capabilities") as [caps|] eqn:Ec; [|done].
    destruct (knowsAllCapabilities caps) eqn:Ek; destruct caps; simplify_eq; rewrite ?Ec, ?Ek; try done;
      cbn [field spread]; rewrite Map_get_set_eq;
      match goal with |- context [defaultCapabilities ?c] => pose proof (defaults_known c) as Hk end;
      unfold defaultCapabilities in *; by rewrite Hk.
  - destruct (field (JObj fs) "report") as [report|] eqn:Er; [|done].
    destruct (field report "capabilities") as [caps|] eqn:Ec; [|by destruct report].
    destruct report as [| | | | |rs]; try done.
    destruct (knowsAllCapabilities caps) eqn:Ek; destruct caps; simplify_eq; rewrite ?Er, ?Ec, ?Ek; try done;
      cbn [field spread]; rewrite Map_get_set_eq; cbn [field]; rewrite Map_get_set_eq;
      match goal with |- context [defaultCapabilities ?c] => pose proof (defaults_known c) as Hk end;
      unfold defaultCapabilities in *; by rewrite Hk.
Qed.

(** * What acceptance guarantees *)

(** What the type of an accepted message was checked as. *)
Definition valid_as (type : string) (v : json) : bool :=
  isRecord (Some v) && hasV7Envelope (Some v)
  && (if type =s "client_hello" then isClientHello (Some v)
      else if type =s "server_hello" then isServerHello (Some v)
      else if type =s "desired_state" then isDesiredState (Some v)
      else if type =s "state_report" then isStateReport (Some v)
      else if type =s "vm_report" then isVmReport (Some v)
      else if type =s "build_report" then isBuildReport (Some v)
      else isSyncRequest (Some v)).

Lemma envelope_defaulted v v' :
  isRecord (Some v) = true -> withCapabilityDefaults v = Ok v' ->
  hasV7Envelope (Some v') = hasV7Envelope (Some v).
Proof.
  intros Hr Hd. unfold hasV7Envelope. cbn [prop].
  by rewrite (defaulted_fields v v' "protocol_version"), (defaulted_fields v v' "host_id").
Qed.

Lemma readString_isText v s s' : readString v = Some s -> isText v s' = true -> trim s' = s.
Proof.
  unfold isText. intros H Ht. apply bool_decide_eq_true in Ht as ->. cbn in H. unfold or_null in H.
  case_match; by simplify_eq.
Qed.

(** An accepted message is valid, has the type it was accepted as, and its
    defaults are in place. *)
Lemma parsed_valid v m :
  parseMessageValue v = parsed m ->
  exists type, readString (field m "type") = Some type /\ str_mem type MESSAGE_TYPES = true /\
    valid_as type m = true /\
    ((type =s "client_hello") || (type =s "state_report") = true -> withCapabilityDefaults m = Ok m) /\
    ((type =s "client_hello") || (type =s "state_report") = false -> m = v).
Proof.
  unfold parseMessageValue. destruct (isRecord (Some v)) eqn:Hr; [|done]. cbn [negb].
  destruct (readString (field v "type")) as [type|] eqn:Et; [|done].
  destruct (str_mem type MESSAGE_TYPES) eqn:Hm; [|done]. cbn [negb].
  destruct (hasV7Envelope (Some v)) eqn:He; [|done]. cbn [negb].
  unfold accept_if, accept_defaulted, valid_as. intros H.
  destruct (type =s "client_hello") eqn:E1.
  { destruct (isClientHello (Some v)) eqn:Ev; [|done].
    destruct (withCapabilityDefaults v) as [v'|] eqn:Ed; [|done]. simplify_eq.
    exists type. rewrite (defaulted_fields v m "type" Hr Ed) by done.
    rewrite E1, (defaulted_record _ _ Hr Ed), (envelope_defaulted _ _ Hr Ed), He,
      (clientHello_defaulted _ _ Ev Ed).
    split; [done|]. split; [done|]. split; [done|].
    split; [intros _; by apply (defaulted_stable v)|done]. }
  destruct (type =s "server_hello") eqn:E2.
  { case_match; simplify_eq. exists type. apply String.eqb_eq in E2 as ->. rewrite Hr, He.
    cbn. by repeat split. }
  destruct (type =s "desired_state") eqn:E3.
  { case_match; simplify_eq. exists type. apply String.eqb_eq in E3 as ->. rewrite Hr, He.
    cbn. by repeat split. }
  destruct (type =s "state_report") eqn:E4.
  { destruct (isStateReport (Some v)) eqn:Ev; [|done].
    destruct (withCapabilityDefaults v) as [v'|] eqn:Ed; [|done]. simplify_eq.
    assert (Hraw : isText (field v "type") "client_hello" = false).
    { destruct (isText _ _) eqn:Ex; [|done]. pose proof (readString_isText _ _ _ Et Ex) as Hx.
      apply String.eqb_neq in E1. by destruct E1. }
    exists type. rewrite (defaulted_fields v m "type" Hr Ed) by done.
    rewrite E1, E2, E3, E4, (defaulted_record _ _ Hr Ed), (envelope_defaulted _ _ Hr Ed), He,
      (stateReport_defaulted _ _ Ev Hraw Ed).
    split; [done|]. split; [done|]. split; [done|].
    split; [intros _; by apply (defaulted_stable v)|done]. }
  exists type. rewrite E1, E2, E3, E4. destruct (type =s "vm_report"); [|destruct (type =s "build_report")];
    case_match; simplify_eq; rewrite Hr, He; by repeat split.
Qed.

Lemma valid_parses type m :
  readString (field m "type") = Some type -> str_mem type MESSAGE_TYPES = true ->
  valid_as type m = true ->
  ((type =s "client_hello") || (type =s "state_report") = true -> withCapabilityDefaults m = Ok m) ->
  parseMessageValue m = parsed m.
Proof.
  intros Ht Hm Hv Hd. unfold valid_as in Hv. apply andb_true_iff in Hv as [Hv Hc].
  apply andb_true_iff in Hv as [Hr He].
  unfold parseMessageValue, accept_if, accept_defaulted. rewrite Hr, Ht, Hm, He. cbn [negb].
  destruct (type =s "client_hello"); [rewrite Hc, Hd; done|].
  destruct (type =s "server_hello"); [by rewrite Hc|].
  destruct (type =s "desired_state"); [by rewrite Hc|].
  destruct (type =s "state_report"); [rewrite Hc, Hd; done|].
  destruct (type =s "vm_report"); [by rewrite Hc|].
  destruct (type =s "build_report"); by rewrite Hc.
Qed.

(** What acceptance makes of capabilities: those it knows stay as they are, and
    capabilities that miss one have each of the defaulted ones, as sent or false. *)
Definition defaults_of (caps caps' : json) : Prop :=
  if knowsAllCapabilities caps then caps' = caps
  else forall k, field caps' k =
    if str_mem k DEFAULTED_CAPABILITIES
    then Some (match field caps k with Some JNull | None => JBool false | Some b => b end)
    else field caps k.

Lemma defaultCapabilities_of caps :
  isRecord (Some caps) = true -> defaults_of caps (if knowsAllCapabilities caps then caps else defaultCapabilities caps).
Proof.
  intros [fs [= ->]]%isRecord_inv. unfold defaults_of. destruct (knowsAllCapabilities _); [done|]. intros k.
  unfold defaultCapabilities, DEFAULTED_CAPABILITIES. cbn [fold_left field spread]. rewrite !field_default.
  unfold str_mem. cbn [existsb].
  repeat match goal with |- context [String.eqb k ?j] =>
    destruct (String.eqb_spec k j) as [->|]; [reflexivity|] end. reflexivity.
Qed.

Lemma capabilities_record v : isHostCapabilitiesPayload v = true -> isRecord v = true.
Proof. unfold isHostCapabilitiesPayload. intros H. by repeat (apply andb_true_iff in H as [H _]). Qed.

(** The capabilities of a hello and those of an inventory report. *)
Definition hello_defaulted (v m : json) : Prop :=
  field m "report" = field v "report" /\
  exists caps caps', field v "capabilities" = Some caps /\ field m "capabilities" = Some caps' /\ defaults_of caps caps'.
Definition report_defaulted (v m : json) : Prop :=
  field m "capabilities" = field v "capabilities" /\
  exists report report' caps caps', field v "report" = Some report /\ field m "report" = Some report' /\
    (forall k, k <> "capabilities" -> field report' k = field report k) /\
    field report "capabilities" = Some caps /\ field report' "capabilities" = Some caps' /\ defaults_of caps caps'.

Lemma hello_defaults v m :
  isRecord (Some v) = true -> isText (field v "type") "client_hello" = true ->
  isRecord (field v "capabilities") = true -> withCapabilityDefaults v = Ok m -> hello_defaulted v m.
Proof.
  intros [fs [= ->]]%isRecord_inv Ht Hc. unfold withCapabilityDefaults. rewrite Ht.
  destruct (field (JObj fs) "capabilities") as [caps|] eqn:Ec; [|done]. pose proof (defaultCapabilities_of caps Hc) as Hd.
  intros Hm. split.
  - destruct caps; try done; destruct (knowsAllCapabilities _); injection Hm as <-; [done|].
    cbn [field spread]. by rewrite Map_get_set_ne.
  - exists caps. eexists. split; [done|]. split; [|exact Hd].
    destruct caps; try done. destruct (knowsAllCapabilities _); injection Hm as <-; [done|].
    cbn [field spread]. by rewrite Map_get_set_eq.
Qed.

Lemma report_defaults v m :
  isRecord (Some v) = true -> isText (field v "type") "client_hello" = false ->
  isRecord (field v "report") = true -> isRecord (prop (field v "report") "capabilities") = true ->
  withCapabilityDefaults v = Ok m -> report_defaulted v m.
Proof.
  intros [fs [= ->]]%isRecord_inv Ht Hr Hc. unfold withCapabilityDefaults. rewrite Ht.
  destruct (isRecord_inv _ Hr) as [rs Ers]. rewrite Ers in Hc |- *. cbn [prop] in Hc.
  destruct (isRecord_inv _ Hc) as [cs Ecs]. rewrite Ecs.
  pose proof (defaultCapabilities_of (JObj cs) eq_refl) as Hd.
  destruct (knowsAllCapabilities (JObj cs)) eqn:Ek; intros [= <-].
  - split; [done|]. by exists (JObj rs), (JObj rs), (JObj cs), (JObj cs).
  - split; [cbn [field spread]; by rewrite Map_get_set_ne|].
    exists (JObj rs). eexists. exists (JObj cs). eexists. cbn [field spread] in *. rewrite !Map_get_set_eq.
    split_and!; [done..| |done| |exact Hd].
    + intros k Hk. cbn [field]. by rewrite Map_get_set_ne.
    + cbn [field]. by rewrite Map_get_set_eq.
Qed.


(** A VM report or a VM of an inventory, as far as evidence goes. *)
Definition vm_evidence_sound (vm : option json) : Prop :=
  (exists state, readString (prop (prop vm "terminal") "state") = Some state /\
     (state <> "ready" -> is_nullish (prop (prop vm "terminal") "target") = true) /\
     (state = "ready" -> isVmTerminalTargetPayload (prop (prop vm "terminal") "target") = true)) /\
  (forall phase, readString (prop vm "phase") = Some phase -> phase = "ready" \/ phase = "solved" ->
     isPositiveInteger (prop (prop vm "runtime_constraints") "quota_verified_at_unix_ms") = true).

Lemma terminal_sound v :
  isVmTerminalStatePayload v = true ->
  exists state, readString (prop v "state") = Some state /\
    (state <> "ready" -> is_nullish (prop v "target") = true) /\
    (state = "ready" -> isVmTerminalTargetPayload (prop v "target") = true).
Proof.
  unfold isVmTerminalStatePayload. destruct (isRecord v); [|done]. cbn [negb].
  destruct (readString (prop v "state")) as [state|]; [|done].
  destruct (_ || _); [done|]. intros H. exists state. split; [done|].
  destruct (state =s "ready") eqn:E; reflect_bools; naive_solver.
Qed.

Lemma phase_evidence_sound v :
  hasVmPhaseEvidence v = true ->
  forall phase, readString (prop v "phase") = Some phase -> phase = "ready" \/ phase = "solved" ->
    isPositiveInteger (prop (prop v "runtime_constraints") "quota_verified_at_unix_ms") = true.
Proof.
  unfold hasVmPhaseEvidence, hasRequiredRuntimeConstraints. intros H phase Hp Hor. rewrite Hp in H.
  assert (str_mem phase ["ready"; "solved"] = true) as Hs by (destruct Hor as [->| ->]; done).
  rewrite Hs in H. by reflect_bools.
Qed.

Lemma arrayOf_In p v x : arrayOf p v = true -> forall items, v = Some (JArr items) -> In x items -> p (Some x) = true.
Proof. intros H items -> Hin. cbn in H. rewrite forallb_forall in H. by apply H. Qed.

(** C40. Reports that are accepted carry sound evidence: a VM whose terminal is
    not ready has no target and one whose terminal is ready has a complete one, a
    ready or solved VM has a verified CPU quota, and every build of an inventory
    is reported by the host of the envelope. *)
Theorem accepted_reports_sound v m (Hm : parseMessageValue v = parsed m) :
  (readString (field m "type") = Some "vm_report" -> vm_evidence_sound (field m "report")) /\
  (readString (field m "type") = Some "state_report" ->
   (forall vms vm, prop (field m "report") "vms" = Some (JArr vms) -> In vm vms ->
      vm_evidence_sound (Some vm)) /\
   (forall builds b, prop (field m "report") "builds" = Some (JArr builds) -> In b builds ->
      exists host, readString (field m "host_id") = Some host /\ field b "host_id" = Some (JStr host))).
Proof.
  destruct (parsed_valid _ _ Hm) as (type & Ht & _ & Hv & _). rewrite Ht. split.
  - intros [= ->]. unfold valid_as in Hv. cbn [String.eqb Ascii.eqb Bool.eqb] in Hv. reflect_bools.
    unfold isVmReport in *. reflect_bools. cbn [prop] in *.
    destruct (readString (field m "host_id")); [|done]. unfold isVmReportPayload in *. reflect_bools.
    split; [by apply terminal_sound|by apply phase_evidence_sound].
  - intros [= ->]. unfold valid_as in Hv. cbn [String.eqb Ascii.eqb Bool.eqb] in Hv. reflect_bools.
    unfold isStateReport in *. reflect_bools. cbn [prop] in *.
    destruct (readString (field m "host_id")) as [host|]; [|done]. cbv zeta in *. reflect_bools. split.
    + intros vms vm Hvms Hin.
      match goal with H : arrayOf isVmActualStatePayload _ = true |- _ =>
        pose proof (arrayOf_In _ _ _ H _ Hvms Hin) as Hvm end.
      unfold isVmActualStatePayload in Hvm. reflect_bools.
      split; [by apply terminal_sound|by apply phase_evidence_sound].
    + intros builds b Hb Hin.
      match goal with H : arrayOf (fun b => isBuildReportPayload b host) _ = true |- _ =>
        pose proof (arrayOf_In _ _ _ H _ Hb Hin) as Hbuild end.
      unfold isBuildReportPayload in Hbuild. reflect_bools. exists host. split; [done|].
      match goal with H : isText _ host = true |- _ => by apply bool_decide_eq_true in H end.
Qed.

Lemma distinct_length (l : list (option json)) :
  (length (distinctValues l) <= length l)%nat /\ (length (distinctValues l) = length l -> NoDup l).
Proof.
  unfold distinctValues. induction l as [|x l [IH1 IH2]]; cbn; [split; [done|constructor]|].
  case_decide as E; cbn; (split; [lia|]); intros H; [lia|]. constructor; [done|]. apply IH2. lia.
Qed.

(** The text of a safe slug: up to 128 letters, digits, dots, underscores and
    dashes, and not a dot segment. *)
Definition safe_slug_text (s : string) : Prop :=
  (0 < String.length s <= 128)%nat /\ s <> "." /\ s <> ".." /\
  forall n, In n (code_units s) -> n <> 47%N /\ n <> 92%N /\ (32 < n < 128)%N.

Lemma isSafeSlug_text v : isSafeSlug v = true -> exists s, v = Some (JStr s) /\ safe_slug_text s.
Proof.
  destruct v as [[| | |s| |]|]; try done. cbn. unfold isSafeBundleRev. intros H. reflect_bools.
  exists s. split; [done|]. apply Nat.leb_le in H0, H2. split; [lia|]. split; [done|]. split; [done|].
  intros n Hn. rewrite forallb_forall in H1. specialize (H1 n Hn). unfold isSlugChar, in_range in H1.
  rewrite !orb_true_iff, !andb_true_iff, !N.leb_le, !N.eqb_eq in H1. lia.
Qed.

(** A desired state that is accepted is consistent: it is for the host of
    the envelope, its VM names are distinct, every VM of a personal host belongs
    to the host's owner, and the identifiers a builder puts into request paths
    and arguments are plain slugs without separators. *)
Theorem accepted_desired_state_consistent v m (Hm : parseMessageValue v = parsed m)
    (Htype : readString (field m "type") = Some "desired_state") :
  let d := field m "desired_state" in
  exists host vms,
    readString (field m "host_id") = Some host /\ prop d "host_id" = Some (JStr host) /\
    prop d "vms" = Some (JArr vms) /\ NoDup (map (fun vm => field vm "vm_name") vms) /\
    (prop d "scope" = Some (JStr "personal") ->
     forall vm, In vm vms -> field vm "owner_user_id" = prop d "owner_user_id") /\
    (forall compiles c, prop d "source_compiles" = Some (JArr compiles) -> In c compiles ->
     exists id rev, field c "compile_id" = Some (JStr id) /\ safe_slug_text id /\
       field c "rev" = Some (JStr rev) /\ safe_slug_text rev).
Proof.
  destruct (parsed_valid _ _ Hm) as (type & Ht & _ & Hv & _). rewrite Htype in Ht. simplify_eq.
  unfold valid_as in Hv. cbn [String.eqb Ascii.eqb Bool.eqb] in Hv. reflect_bools.
  unfold isDesiredState in *. reflect_bools. cbn [prop] in *.
  destruct (readString (field m "host_id")) as [host|]; [|done]. cbv zeta in *. reflect_bools.
  set (d := field m "desired_state") in *.
  destruct (prop d "vms") as [[| | | |vms|]|] eqn:Evms; try done. cbv zeta in *. exists host, vms.
  split; [done|].
  split; [match goal with H : isText (prop d "host_id") host = true |- _ =>
    by apply bool_decide_eq_true in H end|].
  split; [done|].
  split; [match goal with H : Nat.eqb _ _ = true |- _ => apply Nat.eqb_eq in H;
    apply distinct_length; by rewrite length_map end|].
  split.
  - intros Hp vm Hin.
    match goal with H : arrayOf _ (Some (JArr vms)) = true |- _ =>
      pose proof (arrayOf_In _ _ _ H _ eq_refl Hin) as Hvm end. cbn [prop] in Hvm. reflect_bools.
    match goal with H : (negb _ || _)%bool = true |- _ => apply orb_true_iff in H as [Hneg|Heq] end.
    + apply negb_true_iff in Hneg. unfold isText in Hneg. rewrite Hp in Hneg.
      by rewrite bool_decide_true in Hneg.
    + by apply bool_decide_eq_true in Heq.
  - intros compiles c Hc Hin. rewrite Hc in *.
    match goal with H : arrayOf isDesiredSourceCompilePayload _ = true |- _ =>
      pose proof (arrayOf_In _ _ _ H _ eq_refl Hin) as Hcomp end.
    unfold isDesiredSourceCompilePayload in Hcomp. reflect_bools. cbn [prop] in *.
    repeat match goal with H : isSafeSlug _ = true |- _ => apply isSafeSlug_text in H as (? & ? & ?) end.
    eauto 10.
Qed.

(** * Sample messages *)

Module BridgeSample.
Definition capabilities : json :=
  JObj [("arch", JStr "x86_64"); ("cloud_hypervisor_sha256", JNull); ("supports_kvm", JBool true);
        ("supports_vsock", JBool true); ("supports_reflink", JBool true);
        ("supports_nftables", JBool true); ("supports_jailer_v2", JBool true);
        ("supports_template_backed_launch", JBool true); ("fast_template_store", JBool true);
        ("supports_hard_cpu_quota", JBool true); ("supports_landlock", JBool true);
        ("supports_cgroup_v2", JBool true); ("supports_jailer_v3", JBool true)].
(** A hello of an agent that does not know the run command line. *)
Definition hello (type : string) : json :=
  JObj [("type", JStr type); ("protocol_version", JNum (NInt 8)); ("host_id", JStr "host");
        ("agent_version", JStr "1.0"); ("role", JStr "agent"); ("capabilities", capabilities)].

Definition vm_report (terminal : json) : json :=
  JObj [("type", JStr "vm_report"); ("protocol_version", JNum (NInt 8)); ("host_id", JStr "host");
        ("report", JObj [("schema_version", JNum (NInt 6)); ("host_id", JStr "host");
          ("owner_user_id", JStr "user"); ("runtime_execution_id", JStr "run");
          ("generation", JNum (NInt 1)); ("run_id", JStr "run"); ("vm_name", JStr "run-web");
          ("observed_at_unix_ms", JNum (NInt 5)); ("phase", JStr "pending"); ("terminal", terminal);
          ("ssh_host_keys_openssh", JArr []); ("probes", JArr [])])].
Definition pending_terminal : json :=
  JObj [("state", JStr "pending"); ("observed_at_unix_ms", JNum (NInt 5))].

Definition desired : json :=
  JObj [("type", JStr "desired_state"); ("protocol_version", JNum (NInt 8)); ("host_id", JStr "host");
        ("desired_state", JObj [("schema_version", JNum (NInt 6)); ("host_id", JStr "host");
          ("scope", JStr "platform"); ("owner_user_id", JStr "owner"); ("version", JNum (NInt 1));
          ("generated_at_unix_ms", JNum (NInt 5)); ("cached_images", JArr []); ("vms", JArr []);
          ("builds", JArr [])])].
End BridgeSample.

(** A hello whose type is padded with white space escapes as an exception:
    the type is trimmed to choose the checks, but the capability defaults compare
    it untrimmed, take the message for an inventory report and read the
    capabilities of a report it does not have; unpadded, the same hello is
    accepted with its defaults. *)
Theorem padded_hello_throws :
  parseMessageValue (BridgeSample.hello " client_hello") = threw /\
  exists m, parseMessageValue (BridgeSample.hello "client_hello") = parsed m /\
    prop (field m "capabilities") "supports_run_cli_v1" = Some (JBool false) /\
    prop (field m "capabilities") "supports_jailer_v3" = Some (JBool true).
Proof. split; [vm_compute; reflexivity|]. eexists. split; [vm_compute; reflexivity|done]. Qed.

(** * Witnesses *)


Lemma accepted_reports_sound_witness :
  let m := BridgeSample.vm_report BridgeSample.pending_terminal in
  parseMessageValue m = parsed m /\ vm_evidence_sound (field m "report").
Proof.
  intros m. assert (Hm : parseMessageValue m = parsed m) by (vm_compute; reflexivity).
  split; [exact Hm|]. apply (accepted_reports_sound m m Hm). vm_compute. reflexivity.
Defined.

Lemma accepted_desired_state_consistent_witness :
  exists host vms, readString (field BridgeSample.desired "host_id") = Some host /\
    NoDup (map (fun vm => field vm "vm_name") vms).
Proof.
  destruct (accepted_desired_state_consistent BridgeSample.desired BridgeSample.desired
    ltac:(vm_compute; reflexivity) ltac:(vm_compute; reflexivity)) as (host & vms & Hh & _ & _ & Hn & _).
  exists host, vms. split; [exact Hh|exact Hn].
Defined.
