(* ===== verification/DesiredState.v ===== *)
(** What a host is asked to run: the documents of
    apps/web/src/lib/desired-state.ts and their versioned store in
    apps/web/src/lib/desired-state-store.ts. *)
From stdpp Require Import base list strings sorting.
From Stdlib Require Import ZArith Lia.
From S2P Require Import Prelude Json RunState Store Bridge.

Open Scope string_scope.
Open Scope list_scope.
Open Scope Z_scope.

(** * Collation

    [String.prototype.localeCompare] belongs to the engine: its sign is a total
    preorder on strings, whatever the locale. *)
Class Collation : Type := {
  localeCompare : string -> string -> Z;
  localeCompare_total : forall a b, localeCompare a b <= 0 \/ localeCompare b a <= 0;
  localeCompare_trans : forall a b c,
    localeCompare a b <= 0 -> localeCompare b c <= 0 -> localeCompare a c <= 0;
}.

(** Comparison by code units is one. *)
#[export] Instance code_unit_collation : Collation.
Proof.
  refine {| localeCompare a b := if str_leb a b then (if str_leb b a then 0 else -1) else 1 |}.
  - intros a b. destruct (str_leb_total a b) as [E|E]; [left|right]; rewrite E; case_match; lia.
  - intros a b c Hab Hbc. cbv beta in Hab, Hbc.
    destruct (str_leb a b) eqn:E1 in Hab; [|lia]. destruct (str_leb b c) eqn:E2 in Hbc; [|lia].
    rewrite (str_leb_trans a b c) by done. destruct (str_leb c a); lia.
Defined.

(** * Documents *)

Inductive DesiredVmPhase : Type := desired_running | desired_absent.
#[export] Instance DesiredVmPhase_eq_dec : EqDecision DesiredVmPhase.
Proof. solve_decision. Defined.

Record DesiredCachedImage : Type := mkCachedImage {
  ci_image_key : ImageKey;
  ci_image_id : string;
}.
Record DesiredGuestTools : Type := mkGuestTools {
  gt_tools_disk_sha256 : string;
  gt_tools_disk_size_bytes : Z;
  gt_kino_sha256 : string;
  gt_bootstrap_abi : Z;
}.
Record DesiredVm : Type := mkDesiredVm {
  dv_vm_id : string;
  dv_owner_user_id : string;
  dv_runtime_execution_id : string;
  dv_generation : Z;
  dv_run_id : string;
  dv_vm_name : string;
  dv_desired_phase : DesiredVmPhase;
  dv_image_key : ImageKey;
  dv_image_id : string;
  dv_guest_tools : DesiredGuestTools;
  dv_resources : VmResourcesSpec;
  dv_ssh_authorized_keys_openssh : list string;
  dv_lease_expires_at_unix_ms : Z;
}.
Record DesiredBuild : Type := mkDesiredBuild {
  db_build_id : string;
  db_scenario_id : string;
  db_arch : ImageArchitecture;
  db_rev : string;
  db_content_hash : string;
  db_bundle_ref : string;
}.
Record DesiredSourceCompile : Type := mkSourceCompile {
  sc_compile_id : string;
  sc_attempt : Z;
  sc_rev : string;
  sc_validate_only : bool;
  sc_arch : ImageArchitecture;
}.

(** [ds_cached_guest_tools] and [ds_source_compiles] may be absent. *)
Record HostDesiredState : Type := mkDesiredState {
  ds_schema_version : Z;
  ds_host_id : string;
  ds_scope : HostScope;
  ds_owner_user_id : string;
  ds_version : Z;
  ds_generated_at_unix_ms : Z;
  ds_cached_images : list DesiredCachedImage;
  ds_cached_guest_tools : option (list DesiredGuestTools);
  ds_vms : list DesiredVm;
  ds_builds : list DesiredBuild;
  ds_source_compiles : option (list DesiredSourceCompile);
}.

Definition createEmptyHostDesiredState (hostId : string) (scope : HostScope) (ownerUserId : string)
    (nowUnixMs : Z) : HostDesiredState :=
  mkDesiredState HOST_DESIRED_STATE_SCHEMA_VERSION hostId scope ownerUserId 0 nowUnixMs
    [] (Some []) [] [] None.

(** * The JSON value of a document *)

Definition scopeName (s : HostScope) : string :=
  match s with
  | scope_platform => "platform" | scope_personal => "personal" | scope_organization => "organization"
  end.
Definition archName (a : ImageArchitecture) : string :=
  match a with arch_x86_64 => "x86_64" | arch_aarch64 => "aarch64" end.
Definition desiredPhaseName (p : DesiredVmPhase) : string :=
  match p with desired_running => "running" | desired_absent => "absent" end.
Definition jint (z : Z) : json := JNum (NInt z).

Definition encodeImageKey (k : ImageKey) : json :=
  JObj [("scenario", JStr (ik_scenario k)); ("vm", JStr (ik_vm k)); ("arch", JStr (archName (ik_arch k)))].
Definition encodeCachedImage (i : DesiredCachedImage) : json :=
  JObj [("image_key", encodeImageKey (ci_image_key i)); ("image_id", JStr (ci_image_id i))].
Definition encodeGuestTools (g : DesiredGuestTools) : json :=
  JObj [("tools_disk_sha256", JStr (gt_tools_disk_sha256 g));
        ("tools_disk_size_bytes", jint (gt_tools_disk_size_bytes g));
        ("kino_sha256", JStr (gt_kino_sha256 g)); ("bootstrap_abi", jint (gt_bootstrap_abi g))].
Definition encodeVm (v : DesiredVm) : json :=
  JObj [("vm_id", JStr (dv_vm_id v)); ("owner_user_id", JStr (dv_owner_user_id v));
        ("runtime_execution_id", JStr (dv_runtime_execution_id v)); ("generation", jint (dv_generation v));
        ("run_id", JStr (dv_run_id v)); ("vm_name", JStr (dv_vm_name v));
        ("desired_phase", JStr (desiredPhaseName (dv_desired_phase v)));
        ("image_key", encodeImageKey (dv_image_key v)); ("image_id", JStr (dv_image_id v));
        ("guest_tools", encodeGuestTools (dv_guest_tools v));
        ("resources", JObj [("cpu_millis", jint (res_cpuMillis (dv_resources v)));
                            ("memory_mib", jint (res_memoryMib (dv_resources v)));
                            ("disk_mib", jint (res_diskMib (dv_resources v)))]);
        ("ssh_authorized_keys_openssh", JArr (map JStr (dv_ssh_authorized_keys_openssh v)));
        ("lease_expires_at_unix_ms", jint (dv_lease_expires_at_unix_ms v))].
Definition encodeBuild (b : DesiredBuild) : json :=
  JObj [("build_id", JStr (db_build_id b)); ("scenario_id", JStr (db_scenario_id b));
        ("arch", JStr (archName (db_arch b))); ("rev", JStr (db_rev b));
        ("content_hash", JStr (db_content_hash b)); ("bundle_ref", JStr (db_bundle_ref b))].
Definition encodeSourceCompile (c : DesiredSourceCompile) : json :=
  JObj [("compile_id", JStr (sc_compile_id c)); ("attempt", jint (sc_attempt c));
        ("rev", JStr (sc_rev c)); ("validate_only", JBool (sc_validate_only c));
        ("arch", JStr (archName (sc_arch c)))].

Definition encodeDesiredState (d : HostDesiredState) : json :=
  JObj ([("schema_version", jint (ds_schema_version d)); ("host_id", JStr (ds_host_id d));
         ("scope", JStr (scopeName (ds_scope d))); ("owner_user_id", JStr (ds_owner_user_id d));
         ("version", jint (ds_version d)); ("generated_at_unix_ms", jint (ds_generated_at_unix_ms d));
         ("cached_images", JArr (map encodeCachedImage (ds_cached_images d)));
         ("vms", JArr (map encodeVm (ds_vms d))); ("builds", JArr (map encodeBuild (ds_builds d)))] ++
        match ds_cached_guest_tools d with
        | Some l => [("cached_guest_tools", JArr (map encodeGuestTools l))] | None => [] end ++
        match ds_source_compiles d with
        | Some l => [("source_compiles", JArr (map encodeSourceCompile l))] | None => [] end).

(** * Validation *)

Inductive DesiredStateError : Type :=
| not_an_object
| identity_invalid
| schema_or_ownership_invalid
| ownership_immutable
| wrong_host_owner
| host_not_enrolled
| invalid_organization_host
| lost_version_races.

(** [validateStoredHostDesiredState] on a JSON document; the message it wraps the
    document into is built and parsed as text, which reads back as the value. *)
Definition validateStoredHostDesiredState (document : json) (hostId : string) (rowVersion : Z)
  : result DesiredStateError json :=
  throw_if negb (isRecord (Some document)) with not_an_object;
  throw_if negb (isText (field document "host_id") hostId)
           || negb (isNumber (field document "version") rowVersion)
           || negb (safe_integer rowVersion) || (rowVersion <? 0)
    with identity_invalid;
  match parseMessageValue (JObj [("type", JStr "desired_state");
          ("protocol_version", jint BRIDGE_PROTOCOL_VERSION); ("host_id", JStr hostId);
          ("desired_state", document)]) with
  | parsed message =>
      throw_if negb (isText (field message "type") "desired_state") with schema_or_ownership_invalid;
      Ok (nullish (field message "desired_state") JNull)
  | _ => Err schema_or_ownership_invalid
  end.

(** * Edits of a draft *)

Definition with_images (d : HostDesiredState) l : HostDesiredState :=
  mkDesiredState (ds_schema_version d) (ds_host_id d) (ds_scope d) (ds_owner_user_id d) (ds_version d)
    (ds_generated_at_unix_ms d) l (ds_cached_guest_tools d) (ds_vms d) (ds_builds d) (ds_source_compiles d).
Definition with_tools (d : HostDesiredState) l : HostDesiredState :=
  mkDesiredState (ds_schema_version d) (ds_host_id d) (ds_scope d) (ds_owner_user_id d) (ds_version d)
    (ds_generated_at_unix_ms d) (ds_cached_images d) (Some l) (ds_vms d) (ds_builds d) (ds_source_compiles d).
Definition with_vms (d : HostDesiredState) l : HostDesiredState :=
  mkDesiredState (ds_schema_version d) (ds_host_id d) (ds_scope d) (ds_owner_user_id d) (ds_version d)
    (ds_generated_at_unix_ms d) (ds_cached_images d) (ds_cached_guest_tools d) l (ds_builds d) (ds_source_compiles d).
Definition with_builds (d : HostDesiredState) l : HostDesiredState :=
  mkDesiredState (ds_schema_version d) (ds_host_id d) (ds_scope d) (ds_owner_user_id d) (ds_version d)
    (ds_generated_at_unix_ms d) (ds_cached_images d) (ds_cached_guest_tools d) (ds_vms d) l (ds_source_compiles d).

Definition imageKeyIdentity (k : ImageKey) : string :=
  ik_scenario k +:+ newline +:+ ik_vm k +:+ newline +:+ archName (ik_arch k).
Definition cachedImageIdentity (i : DesiredCachedImage) : string :=
  imageKeyIdentity (ci_image_key i) +:+ ":" +:+ ci_image_id i.
Definition desiredVmIdentity (v : DesiredVm) : string :=
  dv_run_id v +:+ newline +:+ dv_vm_name v.
Definition desiredBuildIdentity (b : DesiredBuild) : string := db_build_id b.

(** Replace the first entry of the same identity, or append. *)
Fixpoint upsertBy {A} (same : A -> bool) (next : A) (l : list A) : list A :=
  match l with
  | [] => [next]
  | x :: rest => if same x then next :: rest else x :: upsertBy same next rest
  end.

Definition upsertDesiredCachedImage (draft : HostDesiredState) (image : DesiredCachedImage)
  : HostDesiredState :=
  with_images draft (upsertBy (fun c => cachedImageIdentity c =s cachedImageIdentity image) image
                       (ds_cached_images draft)).
Definition upsertDesiredGuestTools (draft : HostDesiredState) (pin : DesiredGuestTools)
  : HostDesiredState :=
  with_tools draft (upsertBy (fun c => gt_tools_disk_sha256 c =s gt_tools_disk_sha256 pin) pin
                      (nullish (ds_cached_guest_tools draft) [])).
Definition upsertDesiredVm (draft : HostDesiredState) (vm : DesiredVm) : HostDesiredState :=
  with_vms draft (upsertBy (fun c => desiredVmIdentity c =s desiredVmIdentity vm) vm (ds_vms draft)).
Definition upsertDesiredBuild (draft : HostDesiredState) (build : DesiredBuild) : HostDesiredState :=
  with_builds draft (upsertBy (fun c => desiredBuildIdentity c =s desiredBuildIdentity build) build
                       (ds_builds draft)).

(** [splice(findIndex(p), 1)] when the index exists. *)
Fixpoint removeFirst {A} (p : A -> bool) (l : list A) : list A :=
  match l with
  | [] => []
  | x :: rest => if p x then rest else x :: removeFirst p rest
  end.

Definition removeDesiredBuild (draft : HostDesiredState) (buildId : string)
  : HostDesiredState * bool :=
  if existsb (fun b => db_build_id b =s buildId) (ds_builds draft)
  then (with_builds draft (removeFirst (fun b => db_build_id b =s buildId) (ds_builds draft)), true)
  else (draft, false).

Definition clearDesiredCachedImages (draft : HostDesiredState) : HostDesiredState * bool :=
  match ds_cached_images draft with [] => (draft, false) | _ => (with_images draft [], true) end.
Definition clearDesiredGuestTools (draft : HostDesiredState) : HostDesiredState * bool :=
  match ds_cached_guest_tools draft with
  | None | Some [] => (draft, false)
  | _ => (with_tools draft [], true)
  end.
Definition clearDesiredVms (draft : HostDesiredState) : HostDesiredState * bool :=
  match ds_vms draft with [] => (draft, false) | _ => (with_vms draft [], true) end.
Definition clearDesiredBuilds (draft : HostDesiredState) : HostDesiredState * bool :=
  match ds_builds draft with [] => (draft, false) | _ => (with_builds draft [], true) end.

Definition with_phase_absent (v : DesiredVm) : DesiredVm :=
  mkDesiredVm (dv_vm_id v) (dv_owner_user_id v) (dv_runtime_execution_id v) (dv_generation v)
    (dv_run_id v) (dv_vm_name v) desired_absent (dv_image_key v) (dv_image_id v) (dv_guest_tools v)
    (dv_resources v) (dv_ssh_authorized_keys_openssh v) (dv_lease_expires_at_unix_ms v).

(** Change the first entry that satisfies [p]. *)
Fixpoint updateFirst {A} (p : A -> bool) (f : A -> A) (l : list A) : list A :=
  match l with
  | [] => []
  | x :: rest => if p x then f x :: rest else x :: updateFirst p f rest
  end.

Definition markDesiredVmAbsent (draft : HostDesiredState) (runId vmName : string)
  : HostDesiredState * bool :=
  let p v := (dv_run_id v =s runId) && (dv_vm_name v =s vmName) in
  if existsb p (ds_vms draft) then (with_vms draft (updateFirst p with_phase_absent (ds_vms draft)), true)
  else (draft, false).

Definition normalizeAuthorizedKeys (values : list string) : list string :=
  Set_new (List.filter truthy (map trim values)).

(** The desired VM of a run's VM, when it is provisioned completely. *)
Definition desiredVmFromRunVm (runId ownerUserId runtimeExecutionId : string) (generation : Z)
    (vm : RunVmStateDocument) (nowUnixMs : Z) (sshAuthorizedKeysOpenssh : list string)
    (guestTools : DesiredGuestTools) : option DesiredVm :=
  let provisioning := vm_provisioning vm in
  let imageSha256 := nullish (trim <$> prov_imageSha256 provisioning) "" in
  let keys := normalizeAuthorizedKeys sshAuthorizedKeysOpenssh in
  if negb (truthy (trim ownerUserId)) || negb (truthy (trim runtimeExecutionId))
     || negb (safe_integer generation) || (generation <? 1) || negb (truthy imageSha256)
     || Nat.eqb (length keys) 0
  then None
  else
    match prov_imageKey provisioning, prov_resources provisioning, prov_leaseDurationSeconds provisioning with
    | Some imageKey, Some resources, Some lease =>
        Some (mkDesiredVm (vm_id vm) ownerUserId runtimeExecutionId generation runId
                (vm_runtimeVmName vm) desired_running imageKey imageSha256 guestTools resources keys
                (nowUnixMs + lease * 1000))
    | _, _, _ => None
    end.

(** * Normal form *)

Section normal.
Context `{Collation}.

Definition uniqueLastBy {A} (identity : A -> string) (values : list A) : list A :=
  map snd (Map_new (map (fun v => (identity v, v)) values)).

Definition sortBy {A} (identity : A -> string) (values : list A) : list A :=
  js_sort (fun l r => localeCompare (identity l) (identity r) <=? 0) values.

Definition normalizeBy {A} (identity : A -> string) (values : list A) : list A :=
  sortBy identity (uniqueLastBy identity values).

Definition normalizeDesiredState (d : HostDesiredState) : HostDesiredState :=
  let sourceCompiles := normalizeBy sc_compile_id (nullish (ds_source_compiles d) []) in
  mkDesiredState (ds_schema_version d) (ds_host_id d) (ds_scope d) (ds_owner_user_id d) (ds_version d)
    (ds_generated_at_unix_ms d)
    (normalizeBy cachedImageIdentity (ds_cached_images d))
    (Some (normalizeBy gt_tools_disk_sha256 (nullish (ds_cached_guest_tools d) [])))
    (normalizeBy desiredVmIdentity (ds_vms d))
    (normalizeBy desiredBuildIdentity (ds_builds d))
    (match sourceCompiles with [] => None | _ => Some sourceCompiles end).

(** What two documents are compared by: all but version and time. The code
    compares their JSON texts, which for documents whose properties are listed in
    the order the code lists them are equal when the values are. *)
Definition comparableDesiredStatePayload (d : HostDesiredState) : HostDesiredState :=
  let n := normalizeDesiredState d in
  mkDesiredState (ds_schema_version n) (ds_host_id n) (ds_scope n) (ds_owner_user_id n) 0 0
    (ds_cached_images n) (ds_cached_guest_tools n) (ds_vms n) (ds_builds n) (ds_source_compiles n).

#[local] Instance HostDesiredState_eq_dec : EqDecision HostDesiredState.
Proof.
  assert (EqDecision ImageArchitecture) by solve_decision.
  assert (EqDecision ImageKey) by solve_decision.
  assert (EqDecision VmResourcesSpec) by solve_decision.
  assert (EqDecision DesiredCachedImage) by solve_decision.
  assert (EqDecision DesiredGuestTools) by solve_decision.
  assert (EqDecision DesiredVm) by solve_decision.
  assert (EqDecision DesiredBuild) by solve_decision.
  assert (EqDecision DesiredSourceCompile) by solve_decision.
  solve_decision.
Defined.

(** The draft a mutator is given: a copy of the document, its tools listed. *)
Definition cloneDesiredState (d : HostDesiredState) : HostDesiredState :=
  with_tools d (nullish (ds_cached_guest_tools d) []).

(** [Ok None] is the current document itself. *)
Definition mutateDesiredState (current : HostDesiredState)
    (mutator : HostDesiredState -> HostDesiredState) (nowUnixMs : Z)
  : result DesiredStateError (option HostDesiredState) :=
  let before := comparableDesiredStatePayload current in
  let draft := mutator (cloneDesiredState current) in
  throw_if negb (bool_decide (ds_scope draft = ds_scope current))
           || negb (ds_owner_user_id draft =s ds_owner_user_id current)
           || negb (ds_host_id draft =s ds_host_id current)
    with ownership_immutable;
  let normalized := normalizeDesiredState draft in
  _ <-? validateStoredHostDesiredState (encodeDesiredState normalized) (ds_host_id current)
          (ds_version current);
  let after := comparableDesiredStatePayload normalized in
  if bool_decide (before = after) then Ok None
  else Ok (Some (mkDesiredState (ds_schema_version normalized) (ds_host_id normalized)
    (ds_scope normalized) (ds_owner_user_id normalized) (ds_version current + 1) nowUnixMs
    (ds_cached_images normalized) (ds_cached_guest_tools normalized) (ds_vms normalized)
    (ds_builds normalized) (ds_source_compiles normalized))).
End normal.

(** * The store of desired states *)

Record DesiredRow : Type := mkDesiredRow {
  dr_hostId : string;
  dr_version : Z;
  dr_docJson : HostDesiredState;
  dr_createdAt : Z;
  dr_updatedAt : Z;
}.
Record DesiredDb : Type := mkDesiredDb {
  dd_rows : list DesiredRow;
  dd_hosts : list HostRow;
}.

Definition findDesired (db : DesiredDb) (hostId : string) : option DesiredRow :=
  List.find (fun r => dr_hostId r =s hostId) (dd_rows db).

Definition MUTATE_DESIRED_STATE_MAX_ATTEMPTS : nat := 5.

(** A guard on the write: its condition, and the check that reports why a write
    did not land. *)
Record HostDesiredStateWriteGuard : Type := mkWriteGuard {
  wg_condition : DesiredDb -> bool;
  wg_assertSatisfied : DesiredDb -> option DesiredStateError;
}.

Section store.
Context `{Collation}.
Variable hostId : string.
Variable nowUnixMs : Z.

(** The host's scope and owner, when it is enrolled. *)
Definition hostOwnership (db : DesiredDb) : result DesiredStateError (HostScope * string) :=
  match List.find (fun h => ah_id h =s hostId) (dd_hosts db) with
  | None => Err host_not_enrolled
  | Some h =>
      match ah_userId h with
      | None => Err host_not_enrolled
      | Some owner =>
          throw_if negb (truthy owner) with host_not_enrolled;
          throw_if bool_decide (ah_scope h = scope_organization)
                   && (negb (truthy_opt (ah_organizationId h)) || negb (ah_role h =s "agent"))
            with invalid_organization_host;
          Ok (ah_scope h, owner)
      end
  end.

(** The stored document of a row, when it is valid and the host's. *)
Definition checkedDocument (ownership : HostScope * string) (row : DesiredRow)
  : result DesiredStateError HostDesiredState :=
  _ <-? validateStoredHostDesiredState (encodeDesiredState (dr_docJson row)) hostId (dr_version row);
  throw_if negb (bool_decide (ds_scope (dr_docJson row) = fst ownership))
           || negb (ds_owner_user_id (dr_docJson row) =s snd ownership)
    with wrong_host_owner;
  Ok (dr_docJson row).

(** One document per host: inserting for a host that has one does nothing. *)
Definition insertDesired (row : DesiredRow) (db : DesiredDb) : DesiredDb * bool :=
  if existsb (fun r => dr_hostId r =s dr_hostId row) (dd_rows db) then (db, false)
  else (mkDesiredDb (dd_rows db ++ [row]) (dd_hosts db), true).

(** [race 0] is what other requests do between the read of the host and the first
    read of the document, [race n] between the read and the insertion of the n-th
    attempt. *)
Fixpoint loadFrom (race : nat -> DesiredDb -> DesiredDb) (ownership : HostScope * string)
    (left attempt : nat) (db : DesiredDb) : DesiredDb * result DesiredStateError HostDesiredState :=
  match left with
  | O => (db, Err lost_version_races)
  | S left' =>
      match findDesired db hostId with
      | Some row => (db, checkedDocument ownership row)
      | None =>
          let doc := createEmptyHostDesiredState hostId (fst ownership) (snd ownership) nowUnixMs in
          let '(db', inserted) := insertDesired
            (mkDesiredRow hostId (ds_version doc) doc nowUnixMs nowUnixMs) (race attempt db) in
          if inserted then (db', Ok doc) else loadFrom race ownership left' (S attempt) db'
      end
  end.

Definition loadOrCreateHostDesiredState (race : nat -> DesiredDb -> DesiredDb) (db : DesiredDb)
  : DesiredDb * result DesiredStateError HostDesiredState :=
  match hostOwnership db with
  | Err e => (db, Err e)
  | Ok ownership => loadFrom race ownership MUTATE_DESIRED_STATE_MAX_ATTEMPTS 1 (race O db)
  end.

Variable mutator : HostDesiredState -> HostDesiredState.
Variable initialState : option HostDesiredState.
Variable writeGuard : option HostDesiredStateWriteGuard.
Variable loadRace : nat -> nat -> DesiredDb -> DesiredDb.
Variable race : nat -> DesiredDb -> DesiredDb.

Definition writeHits (db : DesiredDb) (version : Z) (row : DesiredRow) : bool :=
  (dr_hostId row =s hostId) && (dr_version row =? version)
  && match writeGuard with Some g => wg_condition g db | None => true end.

Definition writeDesired (next : HostDesiredState) (row : DesiredRow) : DesiredRow :=
  mkDesiredRow (dr_hostId row) (ds_version next) next (dr_createdAt row) nowUnixMs.

(** The document an attempt starts from. *)
Definition attemptState (attempt : nat) (db : DesiredDb)
  : DesiredDb * result DesiredStateError HostDesiredState :=
  match attempt, initialState with
  | O, Some initial => if ds_host_id initial =s hostId then (db, Ok initial)
                       else loadOrCreateHostDesiredState (loadRace attempt) db
  | _, _ => loadOrCreateHostDesiredState (loadRace attempt) db
  end.

(** The result carries whether the document was written. *)
Fixpoint mutateFrom (left attempt : nat) (db : DesiredDb)
  : DesiredDb * result DesiredStateError (HostDesiredState * bool) :=
  match left with
  | O => (db, Err lost_version_races)
  | S left' =>
      let '(db1, loaded) := attemptState attempt db in
      match loaded with
      | Err e => (db1, Err e)
      | Ok current =>
          match mutateDesiredState current mutator nowUnixMs with
          | Err e => (db1, Err e)
          | Ok None => (db1, Ok (current, false))
          | Ok (Some next) =>
              let db2 := race attempt db1 in
              let hit := writeHits db2 (ds_version current) in
              if existsb hit (dd_rows db2)
              then (mkDesiredDb (update_where hit (writeDesired next) (dd_rows db2)) (dd_hosts db2),
                    Ok (next, true))
              else
                match writeGuard with
                | Some g =>
                    match wg_assertSatisfied g db2 with
                    | Some e => (db2, Err e)
                    | None => mutateFrom left' (S attempt) db2
                    end
                | None => mutateFrom left' (S attempt) db2
                end
          end
      end
  end.

Definition mutateStoredHostDesiredState (db : DesiredDb)
  : DesiredDb * result DesiredStateError (HostDesiredState * bool) :=
  mutateFrom MUTATE_DESIRED_STATE_MAX_ATTEMPTS 0 db.
End store.

(** * Lemmas: normal forms *)

Section normal_lemmas.
Context `{Collation}.

Lemma sortBy_total {A} (identity : A -> string) (l r : A) :
  (localeCompare (identity l) (identity r) <=? 0) = true \/
  (localeCompare (identity r) (identity l) <=? 0) = true.
Proof. rewrite !Z.leb_le. apply localeCompare_total. Qed.

Lemma sortBy_trans {A} (identity : A -> string) (a b c : A) :
  (localeCompare (identity a) (identity b) <=? 0) = true ->
  (localeCompare (identity b) (identity c) <=? 0) = true ->
  (localeCompare (identity a) (identity c) <=? 0) = true.
Proof. rewrite !Z.leb_le. apply localeCompare_trans. Qed.

(** The entries of a map of identities carry their own key. *)
Lemma Map_set_keyed {A} (identity : A -> string) v (m : list (string * A)) :
  Forall (fun e => e.1 = identity e.2) m ->
  Forall (fun e => e.1 = identity e.2) (Map_set (identity v) v m).
Proof.
  induction 1 as [|[k w] m Hk Hm IH]; cbn; [by repeat constructor|].
  destruct (identity v =s k) eqn:E; constructor; auto. by apply String.eqb_eq in E.
Qed.

Lemma uniqueLast_map {A} (identity : A -> string) values (acc : list (string * A)) :
  Forall (fun e => e.1 = identity e.2) acc -> NoDup acc.*1 ->
  let m := fold_left (fun m e => Map_set e.1 e.2 m) (map (fun v => (identity v, v)) values) acc in
  Forall (fun e => e.1 = identity e.2) m /\ NoDup m.*1.
Proof.
  revert acc. induction values as [|v values IH]; intros acc Hk Hn; cbn; [done|].
  apply IH; [by apply Map_set_keyed|by apply Map_set_nodup].
Qed.

Lemma keyed_identities {A} (identity : A -> string) (m : list (string * A)) :
  Forall (fun e => e.1 = identity e.2) m -> map identity (map snd m) = m.*1.
Proof. induction 1 as [|[k v] m Hk _ IH]; cbn; [done|]. cbn in Hk. by rewrite Hk, IH. Qed.

Lemma uniqueLastBy_nodup {A} (identity : A -> string) values :
  NoDup (map identity (uniqueLastBy identity values)).
Proof.
  unfold uniqueLastBy. destruct (uniqueLast_map identity values []) as [Hk Hn]; [constructor..|].
  by rewrite keyed_identities.
Qed.

Lemma uniqueLastBy_id {A} (identity : A -> string) values :
  NoDup (map identity values) -> uniqueLastBy identity values = values.
Proof.
  intros Hn. unfold uniqueLastBy.
  rewrite Map_new_nodup; [rewrite map_map; apply map_id|].
  assert (forall l, (map (fun v : A => (identity v, v)) l).*1 = map identity l) as ->; [|done].
  intros l. induction l as [|v l IH]; cbn; [done|]. by f_equal.
Qed.

Lemma normalizeBy_nodup {A} (identity : A -> string) values :
  NoDup (map identity (normalizeBy identity values)).
Proof.
  unfold normalizeBy, sortBy. rewrite (Permutation_map identity (js_sort_perm _ _)).
  apply uniqueLastBy_nodup.
Qed.

Lemma normalizeBy_idem {A} (identity : A -> string) values :
  normalizeBy identity (normalizeBy identity values) = normalizeBy identity values.
Proof.
  unfold normalizeBy at 1. rewrite uniqueLastBy_id by apply normalizeBy_nodup.
  unfold normalizeBy, sortBy. apply js_sort_idem; [apply sortBy_total|apply sortBy_trans].
Qed.

Lemma normalizeDesiredState_idem d :
  normalizeDesiredState (normalizeDesiredState d) = normalizeDesiredState d.
Proof.
  unfold normalizeDesiredState. cbn -[normalizeBy]. rewrite !normalizeBy_idem. f_equal.
  pose proof (normalizeBy_idem sc_compile_id (nullish (ds_source_compiles d) [])) as Hl.
  destruct (normalizeBy sc_compile_id (nullish (ds_source_compiles d) [])) as [|c l]; [done|].
  cbn -[normalizeBy]. by rewrite Hl.
Qed.

(** A list with distinct identities is only reordered. *)
Lemma normalizeBy_perm {A} (identity : A -> string) values :
  NoDup (map identity values) -> normalizeBy identity values ≡ₚ values.
Proof. intros Hn. unfold normalizeBy, sortBy. rewrite js_sort_perm. by rewrite uniqueLastBy_id. Qed.
End normal_lemmas.

(** * Lemmas: valid documents *)

(** What [validateStoredHostDesiredState] asks of a document. *)
Definition documentBodyOk (d : HostDesiredState) : Prop :=
  ds_schema_version d = HOST_DESIRED_STATE_SCHEMA_VERSION /\
  trim (ds_host_id d) = ds_host_id d /\ ds_host_id d <> "" /\ trim (ds_owner_user_id d) <> "" /\
  forallb (fun i => isDesiredCachedImagePayload (Some (encodeCachedImage i))) (ds_cached_images d) = true /\
  forallb (fun v => isDesiredVmPayload (Some (encodeVm v))
    && (negb (bool_decide (ds_scope d = scope_personal))
        || (dv_owner_user_id v =s ds_owner_user_id d))) (ds_vms d) = true /\
  NoDup (map dv_vm_name (ds_vms d)) /\
  forallb (fun b => isDesiredBuildPayload (Some (encodeBuild b))) (ds_builds d) = true /\
  forallb (fun c => isDesiredSourceCompilePayload (Some (encodeSourceCompile c)))
    (nullish (ds_source_compiles d) []) = true.

Lemma distinctValues_id (l : list (option json)) : NoDup l -> distinctValues l = l.
Proof.
  unfold distinctValues. induction 1 as [|x l Hx _ IH]; cbn; [done|].
  case_decide; [done|]. by rewrite IH.
Qed.

Lemma vm_names_distinct (vms : list DesiredVm) :
  Nat.eqb (length (distinctValues (map (fun vm => field vm "vm_name") (map encodeVm vms))))
    (length (map encodeVm vms)) = true <-> NoDup (map dv_vm_name vms).
Proof.
  rewrite Nat.eqb_eq, length_map, map_map.
  assert (Hm : map (fun v => field (encodeVm v) "vm_name") vms
    = (fun n => Some (JStr n)) <$> map dv_vm_name vms) by (induction vms; cbn; f_equal; auto).
  rewrite Hm. split.
  - intros E. apply (NoDup_fmap_1 (fun n => Some (JStr n))), distinct_length. rewrite E.
    by rewrite length_fmap, length_map.
  - intros Hn. rewrite distinctValues_id.
    + by rewrite length_fmap, length_map.
    + apply NoDup_fmap_2; [intros a b; congruence|done].
Qed.

Lemma forallb_ext {A} (p q : A -> bool) l : (forall x, p x = q x) -> forallb p l = forallb q l.
Proof. intros E. induction l as [|x l IH]; cbn; [done|]. by rewrite E, IH. Qed.

(** The message a document is checked in. *)
Abbreviation documentMessage hostId document :=
  (JObj [("type", JStr "desired_state"); ("protocol_version", jint BRIDGE_PROTOCOL_VERSION);
         ("host_id", JStr hostId); ("desired_state", document)]).

Lemma arrayOf_map {A} (p : option json -> bool) (f : A -> json) (l : list A) :
  arrayOf p (Some (JArr (map f l))) = forallb (fun x => p (Some (f x))) l.
Proof. cbn. induction l as [|x l IH]; cbn; [done|]. by rewrite IH. Qed.

Lemma source_compiles_check d :
  match field (encodeDesiredState d) "source_compiles" with
  | None => true
  | compiles => arrayOf isDesiredSourceCompilePayload compiles
  end = forallb (fun c => isDesiredSourceCompilePayload (Some (encodeSourceCompile c)))
          (nullish (ds_source_compiles d) []).
Proof.
  destruct (ds_source_compiles d) as [l|] eqn:E, (ds_cached_guest_tools d) eqn:E';
    unfold encodeDesiredState; rewrite E, E'; first [exact eq_refl | exact (arrayOf_map _ _ l)].
Qed.

Lemma vm_owner_check d v :
  negb (isText (Some (JStr (scopeName (ds_scope d)))) "personal")
  || bool_decide (field (encodeVm v) "owner_user_id" = Some (JStr (ds_owner_user_id d)))
  = negb (bool_decide (ds_scope d = scope_personal)) || (dv_owner_user_id v =s ds_owner_user_id d).
Proof.
  f_equal.
  - f_equal. unfold isText. apply bool_decide_ext. destruct (ds_scope d); split; done.
  - cbn. apply eq_true_iff_eq. rewrite bool_decide_eq_true, String.eqb_eq. split; congruence.
Qed.

Lemma known_scope d :
  isText (Some (JStr (scopeName (ds_scope d)))) "personal"
  || isText (Some (JStr (scopeName (ds_scope d)))) "platform"
  || isText (Some (JStr (scopeName (ds_scope d)))) "organization" = true.
Proof. by destruct (ds_scope d). Qed.

Lemma hasText_text s : hasText (Some (JStr s)) = true <-> trim s <> "".
Proof.
  unfold hasText, readString, or_null, truthy. rewrite bool_decide_eq_true.
  destruct (trim s =s "") eqn:E; cbn; reflect_bools; [|by eauto].
  split; [by intros []|done].
Qed.

Lemma isText_text s t : isText (Some (JStr s)) t = true <-> s = t.
Proof. unfold isText. rewrite bool_decide_eq_true. split; congruence. Qed.

Lemma isDesiredState_document d :
  isDesiredState (Some (documentMessage (ds_host_id d) (encodeDesiredState d))) = true <->
  0 <= ds_version d /\ documentBodyOk d.
Proof.
  unfold isDesiredState, documentBodyOk. cbn [prop].
  set (m := documentMessage _ _).
  assert (Hh : field m "host_id" = Some (JStr (ds_host_id d))) by done.
  assert (Hd : field m "desired_state" = Some (encodeDesiredState d)) by done.
  assert (isRecord (Some m) = true) as -> by done.
  rewrite Hh, Hd. clearbody m. cbn [prop].
  set (e := encodeDesiredState d).
  assert (isRecord (Some e) = true) as -> by done.
  assert (field e "schema_version" = Some (jint (ds_schema_version d))) as -> by done.
  assert (field e "host_id" = Some (JStr (ds_host_id d))) as -> by done.
  assert (field e "scope" = Some (JStr (scopeName (ds_scope d)))) as -> by done.
  assert (field e "owner_user_id" = Some (JStr (ds_owner_user_id d))) as -> by done.
  assert (field e "version" = Some (jint (ds_version d))) as -> by done.
  assert (field e "generated_at_unix_ms" = Some (jint (ds_generated_at_unix_ms d))) as -> by done.
  assert (field e "cached_images" = Some (JArr (map encodeCachedImage (ds_cached_images d)))) as -> by done.
  assert (field e "vms" = Some (JArr (map encodeVm (ds_vms d)))) as -> by done.
  assert (field e "builds" = Some (JArr (map encodeBuild (ds_builds d)))) as -> by done.
  subst e. rewrite source_compiles_check, known_scope, !arrayOf_map. cbn [andb].
  rewrite (forallb_ext _ (fun v => isDesiredVmPayload (Some (encodeVm v))
    && (negb (bool_decide (ds_scope d = scope_personal)) || (dv_owner_user_id v =s ds_owner_user_id d))))
    by (intros v; cbn [prop]; by rewrite vm_owner_check).
  unfold readString, or_null, truthy. destruct (trim (ds_host_id d) =s "") eqn:Eh; cbn [negb].
  - apply String.eqb_eq in Eh. split; [done|]. intros (_ & _ & Ht & Hn & _). congruence.
  - apply String.eqb_neq in Eh.
    rewrite !andb_true_iff, vm_names_distinct, hasText_text, isText_text.
    assert (isInteger (Some (jint (ds_generated_at_unix_ms d))) = true) as -> by done.
    assert (isNonNegativeInteger (Some (jint (ds_version d))) = true <-> 0 <= ds_version d) as ->
      by apply Z.leb_le.
    assert (isNumber (Some (jint (ds_schema_version d))) HOST_DESIRED_STATE_SCHEMA_VERSION = true
      <-> ds_schema_version d = HOST_DESIRED_STATE_SCHEMA_VERSION) as ->
      by (unfold isNumber, jint; rewrite bool_decide_eq_true; split; congruence).
    assert (ds_host_id d = trim (ds_host_id d) <-> trim (ds_host_id d) = ds_host_id d /\ ds_host_id d <> "")
      as -> by (split; [intros E; split; congruence|intros [? _]; congruence]).
    tauto.
Qed.

Lemma parse_document hostId e :
  parseMessageValue (documentMessage hostId e)
  = accept_if (isDesiredState (Some (documentMessage hostId e))) (documentMessage hostId e).
Proof.
  set (m := documentMessage hostId e).
  transitivity (if negb (hasV7Envelope (Some m)) then rejected else accept_if (isDesiredState (Some m)) m);
    [done|].
  destruct (hasV7Envelope (Some m)) eqn:E; cbn [negb]; [done|].
  destruct (isDesiredState (Some m)) eqn:Ed; [|done]. exfalso.
  enough (hasV7Envelope (Some m) = true) by congruence.
  unfold isDesiredState in Ed. reflect_bools. unfold hasV7Envelope. split_andb; [done|].
  unfold hasText. destruct (readString (prop (Some m) "host_id")); [|done]. by rewrite bool_decide_true.
Qed.

Lemma validate_document d hostId v j :
  validateStoredHostDesiredState (encodeDesiredState d) hostId v = Ok j <->
  j = encodeDesiredState d /\ ds_host_id d = hostId /\ ds_version d = v /\
  safe_integer v = true /\ 0 <= v /\ documentBodyOk d.
Proof.
  unfold validateStoredHostDesiredState. rewrite parse_document.
  assert (isRecord (Some (encodeDesiredState d)) = true) as -> by done. cbn [negb].
  assert (field (encodeDesiredState d) "host_id" = Some (JStr (ds_host_id d))) as -> by done.
  assert (field (encodeDesiredState d) "version" = Some (jint (ds_version d))) as -> by done.
  destruct (isText _ hostId) eqn:E1; [apply isText_text in E1 as <-|
    split; [done|intros (_ & <- & _); by rewrite (proj2 (isText_text _ _)) in E1]].
  destruct (isNumber _ v) eqn:E2; unfold isNumber, jint in E2;
    [apply bool_decide_eq_true in E2 as [= <-]|
     apply bool_decide_eq_false in E2; split; [done|intros (_ & _ & <- & _); done]].
  destruct (safe_integer (ds_version d)); [|split; [done|intros (_ & _ & _ & ? & _); done]].
  destruct (ds_version d <? 0) eqn:E3; cbn [negb orb]; reflect_bools.
  { split; [done|]. intros (_ & _ & _ & _ & ? & _). lia. }
  pose proof (isDesiredState_document d) as Hd. destruct (isDesiredState _).
  - cbn [accept_if]. assert (documentBodyOk d) by tauto.
    assert (isText (field (documentMessage (ds_host_id d) (encodeDesiredState d)) "type") "desired_state" = true)
      as -> by done. cbn [negb].
    change (field (documentMessage _ _) "desired_state") with (Some (encodeDesiredState d)). cbn [nullish].
    split; [intros [= <-]|intros (-> & _)]; tauto.
  - cbn [accept_if]. split; [done|]. intros (_ & _ & _ & _ & _ & ?). destruct Hd as [_ Hd].
    by discriminate Hd.
Qed.

(** * Mutations *)

Section mutations.
Context `{Collation}.

(** The document that holds after a mutation. *)
Definition outcomeOf (current : HostDesiredState) (o : option HostDesiredState) : HostDesiredState :=
  nullish o current.

(** A document with the version and time of its write. *)
Definition stamped (d : HostDesiredState) (version now : Z) : HostDesiredState :=
  mkDesiredState (ds_schema_version d) (ds_host_id d) (ds_scope d) (ds_owner_user_id d) version now
    (ds_cached_images d) (ds_cached_guest_tools d) (ds_vms d) (ds_builds d) (ds_source_compiles d).

Lemma normalize_stamped d v now :
  normalizeDesiredState (stamped d v now) = stamped (normalizeDesiredState d) v now.
Proof. done. Qed.

Lemma comparable_stamped d v now :
  comparableDesiredStatePayload (stamped d v now) = comparableDesiredStatePayload d.
Proof. done. Qed.

Lemma comparable_normalized d :
  comparableDesiredStatePayload (normalizeDesiredState d) = comparableDesiredStatePayload d.
Proof. unfold comparableDesiredStatePayload. by rewrite normalizeDesiredState_idem. Qed.

(** What a mutation that does not throw has checked and yields. *)
Lemma mutate_inv current mutator now o :
  mutateDesiredState current mutator now = Ok o ->
  let draft := mutator (cloneDesiredState current) in
  let n := normalizeDesiredState draft in
  ds_scope draft = ds_scope current /\ ds_owner_user_id draft = ds_owner_user_id current /\
  ds_host_id draft = ds_host_id current /\
  validateStoredHostDesiredState (encodeDesiredState n) (ds_host_id current) (ds_version current)
    = Ok (encodeDesiredState n) /\
  ((o = None /\ comparableDesiredStatePayload current = comparableDesiredStatePayload draft) \/
   (o = Some (stamped n (ds_version current + 1) now) /\
    comparableDesiredStatePayload current <> comparableDesiredStatePayload draft)).
Proof.
  unfold mutateDesiredState. cbv zeta.
  set (draft := mutator (cloneDesiredState current)). rewrite comparable_normalized.
  destruct (_ || _ || _) eqn:Hown; [done|]. reflect_bools.
  match goal with H : bool_decide _ = true |- _ => apply bool_decide_eq_true in H end.
  destruct (validateStoredHostDesiredState _ _ _) as [j|] eqn:Ev; cbn [result_bind]; [|done].
  pose proof Ev as Ej. apply validate_document in Ej as [-> _].
  case_bool_decide as E; intros [= <-]; (do 4 (split; [done|])); [by left|by right].
Qed.

Lemma stamp_valid d host v now :
  validateStoredHostDesiredState (encodeDesiredState d) host v = Ok (encodeDesiredState d) ->
  safe_integer (v + 1) = true ->
  validateStoredHostDesiredState (encodeDesiredState (stamped d (v + 1) now)) host (v + 1)
  = Ok (encodeDesiredState (stamped d (v + 1) now)).
Proof.
  rewrite !validate_document. intros (_ & ? & ? & ? & ? & Hb) Hs. repeat split; try done; lia || apply Hb.
Qed.

(** Every identity occurs once, in the order of collation. *)
Definition normalForm (d : HostDesiredState) : Prop :=
  normalizeDesiredState d = d /\ NoDup (map cachedImageIdentity (ds_cached_images d)) /\
  NoDup (map gt_tools_disk_sha256 (nullish (ds_cached_guest_tools d) [])) /\
  NoDup (map desiredVmIdentity (ds_vms d)) /\ NoDup (map desiredBuildIdentity (ds_builds d)) /\
  NoDup (map sc_compile_id (nullish (ds_source_compiles d) [])).

Lemma normalized_normalForm d : normalForm (normalizeDesiredState d).
Proof.
  split; [apply normalizeDesiredState_idem|]. unfold normalizeDesiredState.
  cbn [ds_cached_images ds_cached_guest_tools ds_vms ds_builds ds_source_compiles nullish].
  do 4 (split; [apply normalizeBy_nodup|]).
  pose proof (normalizeBy_nodup sc_compile_id (nullish (ds_source_compiles d) [])) as Hn.
  by destruct (normalizeBy sc_compile_id _).
Qed.

Lemma stamped_normalForm d v now : normalForm d -> normalForm (stamped d v now).
Proof.
  intros [Hn Hr]. split; [|exact Hr]. by rewrite normalize_stamped, Hn.
Qed.

Lemma mutate_nothing d later :
  normalForm d -> is_Some (ds_cached_guest_tools d) ->
  validateStoredHostDesiredState (encodeDesiredState d) (ds_host_id d) (ds_version d)
    = Ok (encodeDesiredState d) ->
  mutateDesiredState d (fun draft => draft) later = Ok None.
Proof.
  intros [Hn _] [tools Ht] Hv. unfold mutateDesiredState. cbv zeta.
  assert (cloneDesiredState d = d) as -> by (destruct d; cbn in *; by subst).
  rewrite bool_decide_true, !String.eqb_refl by done. cbn [negb orb]. rewrite Hn, Hv. cbn [result_bind].
  by rewrite bool_decide_true.
Qed.

(** A mutation of a host's desired state either leaves the document as it is
    or yields its successor: the next version, stamped with the time of the
    mutation, of the same host, scope and owner, in normal form (every cached
    image, tools disk, VM, build and compile once), accepted as a desired state
    of that host and version, and a fixed point of normalization: mutating it
    by nothing changes nothing. *)
Theorem mutation_yields_valid_successor current mutator now next
    (Hm : mutateDesiredState current mutator now = Ok (Some next))
    (Hsafe : safe_integer (ds_version current + 1) = true) :
  ds_version next = ds_version current + 1 /\ ds_generated_at_unix_ms next = now /\
  ds_host_id next = ds_host_id current /\ ds_scope next = ds_scope current /\
  ds_owner_user_id next = ds_owner_user_id current /\ normalForm next /\
  validateStoredHostDesiredState (encodeDesiredState next) (ds_host_id next) (ds_version next)
    = Ok (encodeDesiredState next) /\
  forall later, mutateDesiredState next (fun draft => draft) later = Ok None.
Proof.
  apply mutate_inv in Hm as (Hs & Ho & Hh & Hv & [[? _]|[[= ->] _]]); [done|].
  set (n := normalizeDesiredState (mutator (cloneDesiredState current))) in *.
  assert (Hnf : normalForm n) by apply normalized_normalForm.
  pose proof (stamp_valid _ _ _ now Hv Hsafe) as Hval.
  do 5 (split; [done|]). split; [by apply stamped_normalForm|].
  split; [by rewrite <- Hh in Hval|]. intros later.
  apply mutate_nothing; [by apply stamped_normalForm|by eexists|by rewrite <- Hh in Hval].
Qed.

Lemma outcome_vms current mutator now o :
  mutateDesiredState current mutator now = Ok o -> normalForm current ->
  ds_vms (outcomeOf current o)
  = normalizeBy desiredVmIdentity (ds_vms (mutator (cloneDesiredState current))).
Proof.
  intros Hm [Hn _]. apply mutate_inv in Hm as (_ & _ & _ & _ & [[-> E]|[-> _]]); [|done].
  apply (f_equal ds_vms) in E. unfold comparableDesiredStatePayload in E. rewrite Hn in E. exact E.
Qed.
End mutations.

Lemma filter_keeps_all {A} (p : A -> bool) l : (forall x, In x l -> p x = true) -> List.filter p l = l.
Proof.
  induction l as [|x l IH]; cbn; intros Hp; [done|]. rewrite Hp by auto. f_equal. auto.
Qed.

Lemma upsertBy_keeps {A} (identity : A -> string) x (l : list A) :
  NoDup (map identity l) ->
  upsertBy (fun c => identity c =s identity x) x l
    ≡ₚ x :: List.filter (fun c => negb (identity c =s identity x)) l /\
  NoDup (map identity (upsertBy (fun c => identity c =s identity x) x l)).
Proof.
  induction l as [|y l IH]; cbn; intros Hn; [split; [done|apply NoDup_singleton]|].
  apply NoDup_cons in Hn as [Hy Hn]. destruct (IH Hn) as [IH1 IH2].
  destruct (identity y =s identity x) eqn:E; cbn; reflect_bools.
  - assert (List.filter (fun c => negb (identity c =s identity x)) l = l) as Hf.
    { apply filter_keeps_all. intros z Hz. apply negb_true_iff, String.eqb_neq. intros Ez. apply Hy.
      rewrite E, <- Ez. by apply list_elem_of_In, in_map. }
    rewrite Hf. split; [done|]. rewrite <- E. by constructor.
  - split; [rewrite IH1; constructor|]. constructor; [|done].
    rewrite (Permutation_map identity IH1). cbn. rewrite elem_of_cons. intros [?|Hin]; [done|].
    apply Hy. apply list_elem_of_In, in_map_iff in Hin as (z & Ez & Hz). apply filter_In in Hz as [Hz _].
    rewrite <- Ez. by apply list_elem_of_In, in_map.
Qed.

Lemma updateFirst_map {A} (identity : A -> string) (p : A -> bool) f (l : list A) :
  (forall x y, p x = true -> p y = true -> identity x = identity y) -> NoDup (map identity l) ->
  updateFirst p f l = map (fun x => if p x then f x else x) l.
Proof.
  intros Hp. induction l as [|x l IH]; cbn; intros Hn; [done|].
  apply NoDup_cons in Hn as [Hx Hn]. destruct (p x) eqn:E; [|by rewrite IH].
  f_equal. clear IH Hn. induction l as [|y l IH]; cbn in *; [done|]. apply not_elem_of_cons in Hx as [Hne Hx].
  rewrite <- IH by done. destruct (p y) eqn:E'; [|done]. exfalso. by apply Hne, Hp.
Qed.

Lemma updateFirst_none {A} (p : A -> bool) f (l : list A) :
  existsb p l = false -> updateFirst p f l = l.
Proof.
  induction l as [|x l IH]; cbn; intros E; [done|]. apply orb_false_iff in E as [-> E]. by rewrite IH.
Qed.

(** Is this the VM of the run and name? *)
Definition isDesiredVmOf (runId vmName : string) (v : DesiredVm) : bool :=
  (dv_run_id v =s runId) && (dv_vm_name v =s vmName).

Lemma mark_absent_vms d runId vmName :
  NoDup (map desiredVmIdentity (ds_vms d)) ->
  ds_vms (fst (markDesiredVmAbsent d runId vmName))
  = map (fun v => if isDesiredVmOf runId vmName v then with_phase_absent v else v) (ds_vms d).
Proof.
  intros Hn. rewrite <- (updateFirst_map desiredVmIdentity); [|intros x y Hx Hy|done].
  - unfold markDesiredVmAbsent. fold (isDesiredVmOf runId vmName).
    destruct (existsb _ _) eqn:E; [done|]. cbn. symmetry. by apply updateFirst_none.
  - unfold isDesiredVmOf in *. reflect_bools. unfold desiredVmIdentity. congruence.
Qed.

Section edits.
Context `{Collation}.

(** The edits of a host's VMs land exactly: whether or not a write is
    needed, the document that holds after putting a VM lists it in place of the
    VM of the same run and name, the document that holds after a VM is marked
    absent has exactly that VM's phase changed, and no other VM is touched. *)
Theorem desired_vm_edits_exact current now (Hn : normalForm current) :
  (forall vm o, mutateDesiredState current (fun d => upsertDesiredVm d vm) now = Ok o ->
   ds_vms (outcomeOf current o)
   ≡ₚ vm :: List.filter (fun c => negb (desiredVmIdentity c =s desiredVmIdentity vm)) (ds_vms current)) /\
  (forall runId vmName o,
   mutateDesiredState current (fun d => fst (markDesiredVmAbsent d runId vmName)) now = Ok o ->
   ds_vms (outcomeOf current o)
   ≡ₚ map (fun v => if isDesiredVmOf runId vmName v then with_phase_absent v else v) (ds_vms current)).
Proof.
  pose proof Hn as (_ & _ & _ & Hvms & _). split.
  - intros vm o Ho. rewrite (outcome_vms _ _ _ _ Ho Hn). cbn [upsertDesiredVm cloneDesiredState ds_vms with_vms with_tools].
    destruct (upsertBy_keeps desiredVmIdentity vm (ds_vms current) Hvms) as [Hp Hd].
    by rewrite normalizeBy_perm.
  - intros runId vmName o Ho. rewrite (outcome_vms _ _ _ _ Ho Hn), mark_absent_vms by exact Hvms.
    apply normalizeBy_perm. rewrite map_map.
    assert (map (fun v => desiredVmIdentity (if isDesiredVmOf runId vmName v then with_phase_absent v else v))
      (ds_vms current) = map desiredVmIdentity (ds_vms current)) as Hm
      by (apply map_ext; intros v; by destruct (isDesiredVmOf runId vmName v)).
    by rewrite Hm.
Qed.
End edits.

(** * Concurrent writers *)

(** One document per host. *)
Definition keyed (db : DesiredDb) : Prop := NoDup (map dr_hostId (dd_rows db)).

(** What a writer may do to the documents of others: a document is never dropped,
    its version never falls, and under the same version it is the same. *)
Definition versionedStep (db db' : DesiredDb) : Prop :=
  keyed db -> keyed db' /\
  forall h r, findDesired db h = Some r ->
  exists r', findDesired db' h = Some r' /\ dr_version r <= dr_version r' /\
    (dr_version r' = dr_version r -> dr_docJson r' = dr_docJson r).

#[export] Instance versionedStep_preorder : PreOrder versionedStep.
Proof.
  split.
  - intros db Hk. split; [done|]. intros h r Hr. exists r. split; [done|]. split; [lia|done].
  - intros a b c Hab Hbc Hka. destruct (Hab Hka) as [Hkb H1]. destruct (Hbc Hkb) as [Hkc H2].
    split; [done|]. intros h r Hr.
    destruct (H1 h r Hr) as (r1 & Hr1 & Hv1 & Hd1). destruct (H2 h r1 Hr1) as (r2 & Hr2 & Hv2 & Hd2).
    exists r2. split; [done|]. split; [lia|]. intros E. rewrite Hd2, Hd1 by lia. done.
Qed.

Lemma findDesired_host db h r : findDesired db h = Some r -> In r (dd_rows db) /\ dr_hostId r = h.
Proof. intros E. apply find_some in E as [? E]. reflect_bools. done. Qed.

Lemma findDesired_app db h row :
  findDesired (mkDesiredDb (dd_rows db ++ [row]) (dd_hosts db)) h
  = match findDesired db h with
    | Some r => Some r
    | None => if dr_hostId row =s h then Some row else None
    end.
Proof.
  unfold findDesired. cbn. induction (dd_rows db) as [|r rows IH]; cbn; [done|].
  by destruct (dr_hostId r =s h).
Qed.

Lemma existsb_findDesired db h :
  existsb (fun r => dr_hostId r =s h) (dd_rows db) = bool_decide (is_Some (findDesired db h)).
Proof.
  unfold findDesired. induction (dd_rows db) as [|r rows IH]; cbn; [done|].
  by destruct (dr_hostId r =s h).
Qed.

Lemma insertDesired_step row db db' b :
  insertDesired row db = (db', b) ->
  versionedStep db db' /\ (b = true -> findDesired db' (dr_hostId row) = Some row).
Proof.
  unfold insertDesired. rewrite existsb_findDesired. case_bool_decide as E; intros [= <- <-].
  { split; [reflexivity|done]. }
  assert (En : findDesired db (dr_hostId row) = None) by (destruct (findDesired _ _); [by destruct E|done]).
  split; [intros Hk; split|].
  - unfold keyed. cbn. rewrite map_app. apply NoDup_app. split; [done|]. split.
    + intros h Hh Hin. cbn in Hin. apply list_elem_of_singleton in Hin as ->.
      apply list_elem_of_In, in_map_iff in Hh as (r & Er & Hr).
      unfold findDesired in En. by pose proof (find_none _ _ En r Hr) as Hf; cbn in Hf; rewrite Er, String.eqb_refl in Hf.
    + apply NoDup_singleton.
  - intros h r Hr. exists r. rewrite findDesired_app, Hr. split; [done|]. split; [lia|done].
  - intros _. by rewrite findDesired_app, En, String.eqb_refl.
Qed.

Lemma findDesired_update db h p f hosts :
  (forall r, dr_hostId (f r) = dr_hostId r) ->
  findDesired (mkDesiredDb (update_where p f (dd_rows db)) hosts) h
  = (fun r => if p r then f r else r) <$> findDesired db h.
Proof.
  intros Hf. unfold findDesired. cbn. induction (dd_rows db) as [|r rows IH]; cbn; [done|].
  assert (dr_hostId (if p r then f r else r) = dr_hostId r) as -> by (destruct (p r); auto).
  by destruct (dr_hostId r =s h).
Qed.

Lemma existsb_hit (p : DesiredRow -> bool) db h :
  keyed db -> (forall r, p r = true -> dr_hostId r = h) -> existsb p (dd_rows db) = true ->
  exists r, findDesired db h = Some r /\ p r = true.
Proof.
  unfold keyed, findDesired. intros Hk Hp. induction (dd_rows db) as [|r rows IH]; cbn in *; [done|].
  apply NoDup_cons in Hk as [Hr Hk]. intros E. apply orb_true_iff in E as [E|E].
  - rewrite (Hp r E), String.eqb_refl. eauto.
  - destruct (dr_hostId r =s h) eqn:Eh; [|by apply IH]. exfalso. reflect_bools. apply Hr. subst h.
    apply existsb_exists in E as (r' & Hin & E). rewrite <- (Hp r' E). by apply list_elem_of_In, in_map.
Qed.

Section concurrent.
Context `{Collation}.
Variable hostId : string.
Variable nowUnixMs : Z.

(** The document is the stored one. *)
Definition storedAs (db : DesiredDb) (d : HostDesiredState) : Prop :=
  exists r, findDesired db hostId = Some r /\ dr_docJson r = d /\ dr_version r = ds_version d.

Lemma checked_stored ownership db r d :
  findDesired db hostId = Some r -> checkedDocument hostId ownership r = Ok d -> storedAs db d.
Proof.
  intros Hr Hc. exists r. split; [done|].
  unfold checkedDocument in Hc. destruct (validateStoredHostDesiredState _ _ _) eqn:Ev; [|done].
  cbn [result_bind] in Hc. destruct (_ || _); [done|]. simplify_eq. split; [done|].
  by apply validate_document in Ev as (_ & _ & <- & _).
Qed.

Lemma load_step race ownership left attempt db db' res :
  (forall n d, versionedStep d (race n d)) ->
  loadFrom hostId nowUnixMs race ownership left attempt db = (db', res) ->
  versionedStep db db' /\ forall d, res = Ok d -> storedAs db' d.
Proof.
  intros Hrace. revert attempt db. induction left as [|left IH]; intros attempt db; cbn.
  { intros [= <- <-]. split; [reflexivity|done]. }
  destruct (findDesired db hostId) as [r|] eqn:Er.
  - intros [= <- <-]. split; [reflexivity|]. intros d. by apply checked_stored.
  - destruct (insertDesired _ _) as [db1 inserted] eqn:Ei.
    destruct (insertDesired_step _ _ _ _ Ei) as [Hs Hf].
    assert (Hstep : versionedStep db db1) by (by transitivity (race attempt db)).
    destruct inserted.
    + intros [= <- <-]. split; [done|]. intros d [= <-]. eexists. split; [by apply Hf|]. done.
    + intros Hl. destruct (IH _ _ Hl) as [Hs' Hr]. split; [by transitivity db1|done].
Qed.

Lemma load_or_create_step race db db' res :
  (forall n d, versionedStep d (race n d)) ->
  loadOrCreateHostDesiredState hostId nowUnixMs race db = (db', res) ->
  versionedStep db db' /\ forall d, res = Ok d -> storedAs db' d.
Proof.
  intros Hrace. unfold loadOrCreateHostDesiredState. destruct (hostOwnership _ _).
  - intros Hl. apply load_step in Hl as [Hs Hr]; [|done]. split; [|done]. by transitivity (race O db).
  - intros [= <- <-]. split; [reflexivity|done].
Qed.

Variable mutator : HostDesiredState -> HostDesiredState.
Variable initialState : option HostDesiredState.
Variable writeGuard : option HostDesiredStateWriteGuard.
Variable loadRace : nat -> nat -> DesiredDb -> DesiredDb.
Variable race : nat -> DesiredDb -> DesiredDb.

(** A document read from the store earlier: the store has it still, or a later
    version. *)
Definition readEarlier (db : DesiredDb) (d : HostDesiredState) : Prop :=
  exists r, findDesired db hostId = Some r /\ ds_version d <= dr_version r /\
    (dr_version r = ds_version d -> dr_docJson r = d).

Lemma stored_read db d : storedAs db d -> readEarlier db d.
Proof. intros (r & Hr & Hd & Hv). exists r. split; [done|]. split; [lia|done]. Qed.

Lemma read_step db db' d : keyed db -> versionedStep db db' -> readEarlier db d -> readEarlier db' d.
Proof.
  intros Hk Hs (r & Hr & Hv & Hd). destruct (Hs Hk) as [_ Hs']. destruct (Hs' _ _ Hr) as (r' & Hr' & Hv' & Hd').
  exists r'. split; [done|]. split; [lia|]. intros E. rewrite Hd', Hd by lia. done.
Qed.

Definition guardHolds (db : DesiredDb) : bool :=
  match writeGuard with Some g => wg_condition g db | None => true end.

(** The write of [next] over the stored [row] of [dbw], and nothing else. *)
Definition wroteOver (dbw db' : DesiredDb) (row : DesiredRow) (next : HostDesiredState) : Prop :=
  findDesired db' hostId = Some (writeDesired nowUnixMs next row) /\
  forall h, h <> hostId -> findDesired db' h = findDesired dbw h.

Lemma write_step db current next :
  keyed db -> readEarlier db current -> ds_version next = ds_version current + 1 ->
  let hit := writeHits hostId writeGuard db (ds_version current) in
  let db' := mkDesiredDb (update_where hit (writeDesired nowUnixMs next) (dd_rows db)) (dd_hosts db) in
  existsb hit (dd_rows db) = true ->
  versionedStep db db' /\
  exists row, findDesired db hostId = Some row /\ dr_docJson row = current /\
    guardHolds db = true /\ wroteOver db db' row next.
Proof.
  intros Hk (r & Hr & Hv & Hd) Hnext hit db' Hex.
  assert (Hhost : forall x, hit x = true -> dr_hostId x = hostId).
  { intros x Hx. unfold hit, writeHits in Hx. reflect_bools. done. }
  destruct (existsb_hit _ _ _ Hk Hhost Hex) as (row & Hrow & Hhit). simplify_eq.
  rename r into row.
  assert (Hf : forall h, findDesired db' h = (fun r => if hit r then writeDesired nowUnixMs next r else r)
    <$> findDesired db h) by (intros h; by apply findDesired_update).
  pose proof Hhit as Hparts. unfold hit, writeHits in Hparts. reflect_bools. split; [intros _; split|].
  - unfold keyed, db', update_where. cbn. rewrite map_map.
    rewrite (map_ext _ dr_hostId); [done|]. intros x. by destruct (hit x).
  - intros h x Hx. rewrite Hf, Hx. cbn. eexists. split; [done|]. destruct (hit x) eqn:Ex; [|split; [lia|done]].
    unfold hit, writeHits in Ex. reflect_bools. cbn. split; lia.
  - exists row. split; [done|]. split; [by apply Hd|]. split; [done|]. split.
    + rewrite Hf, Hr. cbn. by rewrite Hhit.
    + intros h Hne. rewrite Hf. destruct (findDesired db h) as [x|] eqn:Ex; cbn; [|done].
      destruct (hit x) eqn:Ehx; [|done]. apply findDesired_host in Ex as [_ Ex].
      pose proof (Hhost x Ehx). congruence.
Qed.

Hypothesis Hload : forall n m d, versionedStep d (loadRace n m d).
Hypothesis Hrace : forall n d, versionedStep d (race n d).

Lemma attempt_step attempt db db' res :
  (attempt = O -> forall i, initialState = Some i -> ds_host_id i = hostId -> readEarlier db i) ->
  attemptState hostId nowUnixMs initialState loadRace attempt db = (db', res) ->
  versionedStep db db' /\ forall d, res = Ok d -> readEarlier db' d.
Proof.
  intros Hinit. unfold attemptState.
  assert (Hgen : forall n, loadOrCreateHostDesiredState hostId nowUnixMs (loadRace n) db = (db', res) ->
    versionedStep db db' /\ forall d, res = Ok d -> readEarlier db' d).
  { intros n Hl. apply load_or_create_step in Hl as [Hs Hd]; [|apply Hload]. split; [done|].
    intros d Hres. by apply stored_read, Hd. }
  destruct attempt, initialState as [i|]; try apply Hgen.
  destruct (ds_host_id i =s hostId) eqn:E; [|apply Hgen]. reflect_bools.
  intros [= <- <-]. split; [reflexivity|]. intros d [= <-]. by apply Hinit.
Qed.

(** The write of a mutation: over the document that is stored when it lands. *)
Definition landed (db db' : DesiredDb) (next : HostDesiredState) : Prop :=
  exists dbw row, versionedStep db dbw /\ findDesired dbw hostId = Some row /\
    mutateDesiredState (dr_docJson row) mutator nowUnixMs = Ok (Some next) /\
    guardHolds dbw = true /\ wroteOver dbw db' row next.

Lemma mutate_version current next :
  mutateDesiredState current mutator nowUnixMs = Ok (Some next) -> ds_version next = ds_version current + 1.
Proof. intros Hm. by apply mutate_inv in Hm as (_ & _ & _ & _ & [[? _]|[[= ->] _]]). Qed.

Lemma mutateFrom_step left attempt db db' res :
  keyed db ->
  (attempt = O -> forall i, initialState = Some i -> ds_host_id i = hostId -> readEarlier db i) ->
  mutateFrom hostId nowUnixMs mutator initialState writeGuard loadRace race left attempt db = (db', res) ->
  versionedStep db db' /\
  (forall next, res = Ok (next, true) -> landed db db' next) /\
  (forall d, res = Ok (d, false) -> mutateDesiredState d mutator nowUnixMs = Ok None).
Proof.
  revert attempt db. induction left as [|left IH]; intros attempt db Hk Hinit; cbn [mutateFrom].
  { intros [= <- <-]. split; [reflexivity|done]. }
  destruct (attemptState _ _ _ _ _ _) as [db1 loaded] eqn:Ea.
  destruct (attempt_step _ _ _ _ Hinit Ea) as [Hs1 Hread].
  destruct loaded as [current|e]; [|intros [= <- <-]; done].
  destruct (mutateDesiredState current mutator nowUnixMs) as [[next|]|e] eqn:Em;
    [|intros [= <- <-]; split; [done|]; split; [done|]; by intros d [= <-]|by intros [= <- <-]].
  cbv zeta. set (db2 := race attempt db1).
  assert (Hs2 : versionedStep db db2) by (transitivity db1; [done|apply Hrace]).
  assert (Hk2 : keyed db2) by apply (Hs2 Hk).
  assert (Hcur : readEarlier db2 current)
    by (apply (read_step db1); [apply (Hs1 Hk)|apply Hrace|by apply Hread]).
  assert (Hrec : mutateFrom hostId nowUnixMs mutator initialState writeGuard loadRace race left (S attempt) db2
    = (db', res) -> versionedStep db db' /\ (forall next, res = Ok (next, true) -> landed db db' next) /\
      (forall d, res = Ok (d, false) -> mutateDesiredState d mutator nowUnixMs = Ok None)).
  { intros Hm. apply IH in Hm as (Hs & Hl & Hu); [|done|done].
    split; [by transitivity db2|]. split; [|done]. intros n Hn.
    destruct (Hl n Hn) as (dbw & row & Hw & Hrest). exists dbw, row. split; [by transitivity db2|done]. }
  destruct (existsb _ _) eqn:Ehit.
  - intros [= <- <-].
    destruct (write_step db2 current next Hk2 Hcur (mutate_version _ _ Em) Ehit)
      as (Hw & row & Hrow & Hdoc & Hg & Hwrote).
    split; [by transitivity db2|]. split; [|done]. intros n [= <-]. exists db2, row.
    by rewrite Hdoc.
  - destruct writeGuard as [g|]; [|done]. destruct (wg_assertSatisfied g db2); [|done].
    intros [= <- <-]. done.
Qed.
End concurrent.

(** C15. Concurrent mutations of a host's desired state never lose an update. If
    every other request acts on the documents by versioned steps (no document
    dropped, no version reused or lowered), so does this one, whatever it
    returns; when it reports a write, the mutator was applied to the very document
    that was stored when the write landed, the write guard held then, and the
    write replaced that document alone; when it reports none, the mutator changes
    nothing. *)
Theorem desired_state_updates_not_lost `{Collation} hostId now mutator initialState writeGuard
    (loadRace : nat -> nat -> DesiredDb -> DesiredDb) (race : nat -> DesiredDb -> DesiredDb) db
    (Hkeyed : keyed db)
    (Hload : forall n m d, versionedStep d (loadRace n m d))
    (Hrace : forall n d, versionedStep d (race n d))
    (Hinit : forall i, initialState = Some i -> ds_host_id i = hostId -> readEarlier hostId db i) :
  let '(db', res) := mutateStoredHostDesiredState hostId now mutator initialState writeGuard loadRace race db in
  versionedStep db db' /\
  (forall next, res = Ok (next, true) -> landed hostId now mutator writeGuard db db' next) /\
  (forall d, res = Ok (d, false) -> mutateDesiredState d mutator now = Ok None).
Proof.
  destruct (mutateStoredHostDesiredState _ _ _ _ _ _ _ _) as [db' res] eqn:E.
  by apply (mutateFrom_step hostId now mutator initialState writeGuard loadRace race Hload Hrace
    MUTATE_DESIRED_STATE_MAX_ATTEMPTS O).
Qed.

(** The document an enrolled host starts from: the stored one when it checks, or
    an empty one of version 0. *)
Definition startingDocument (hostId : string) (now : Z) (db : DesiredDb)
  : result DesiredStateError HostDesiredState :=
  ownership <-? hostOwnership hostId db;
  match findDesired db hostId with
  | Some row => checkedDocument hostId ownership row
  | None => Ok (createEmptyHostDesiredState hostId (fst ownership) (snd ownership) now)
  end.

Lemma load_quiet `{Collation} hostId now db current :
  startingDocument hostId now db = Ok current ->
  exists db1, loadOrCreateHostDesiredState hostId now (fun _ d => d) db = (db1, Ok current) /\
    forall h, h <> hostId -> findDesired db1 h = findDesired db h.
Proof.
  unfold startingDocument, loadOrCreateHostDesiredState. destruct (hostOwnership hostId db) as [ow|]; [|done].
  cbn [result_bind]. change MUTATE_DESIRED_STATE_MAX_ATTEMPTS with 5%nat. cbn [loadFrom].
  destruct (findDesired db hostId) as [row|] eqn:Er.
  - intros ->. by exists db.
  - intros [= <-]. unfold insertDesired. rewrite existsb_findDesired. cbn [dr_hostId]. rewrite Er.
    rewrite bool_decide_false by (by intros []). eexists. split; [done|].
    intros h Hne. rewrite findDesired_app. destruct (findDesired db h); [done|]. cbn [dr_hostId].
    by rewrite (proj2 (String.eqb_neq hostId h)) by congruence.
Qed.

Lemma existsb_found db h (p : DesiredRow -> bool) r :
  findDesired db h = Some r -> p r = true -> existsb p (dd_rows db) = true.
Proof. intros Hr Hp. apply existsb_exists. exists r. split; [by apply findDesired_host in Hr as [? _]|done]. Qed.

(** A mutation of an enrolled host's desired state that nobody races decides
    in its first attempt: it fails exactly as the mutator's result fails its
    checks, returns the document when nothing changes, and otherwise stores the
    successor as the host's document, which it returns; a host without a document
    starts from an empty one, and no other host's document is touched. *)
Theorem desired_state_mutation_uncontended `{Collation} hostId now mutator db current
    (Hkeyed : keyed db) (Hstart : startingDocument hostId now db = Ok current) :
  exists db', (forall h, h <> hostId -> findDesired db' h = findDesired db h) /\
    mutateStoredHostDesiredState hostId now mutator None None (fun _ _ d => d) (fun _ d => d) db
    = (db', match mutateDesiredState current mutator now with
            | Err e => Err e
            | Ok None => Ok (current, false)
            | Ok (Some next) => Ok (next, true)
            end) /\
    storedAs hostId db' (match mutateDesiredState current mutator now with
                         | Ok (Some next) => next
                         | _ => current
                         end).
Proof.
  destruct (load_quiet hostId now db current Hstart) as (db1 & Hl & Ho).
  assert (Hq : forall (n : nat) d, versionedStep d d) by reflexivity.
  destruct (load_or_create_step hostId now (fun _ d => d) db db1 (Ok current) Hq Hl) as [Hs Hst].
  specialize (Hst current eq_refl). pose proof Hst as (row & Hrow & Hdoc & Hver).
  unfold mutateStoredHostDesiredState. change MUTATE_DESIRED_STATE_MAX_ATTEMPTS with 5%nat.
  cbn [mutateFrom attemptState]. rewrite Hl.
  destruct (mutateDesiredState current mutator now) as [[next|]|e] eqn:Em; [|by exists db1|by exists db1].
  cbv zeta. assert (Hhit : writeHits hostId None db1 (ds_version current) row = true).
  { unfold writeHits. apply findDesired_host in Hrow as [_ <-].
    rewrite String.eqb_refl, Hver, Z.eqb_refl. done. }
  pose proof (existsb_found _ _ _ _ Hrow Hhit) as Hex. rewrite Hex.
  destruct (write_step hostId now None db1 current next (proj1 (Hs Hkeyed)) (stored_read _ _ _ Hst)
    (mutate_version _ _ _ _ Em) Hex) as (_ & row' & _ & _ & _ & Hw & Hothers).
  eexists. split; [intros h Hne; etransitivity; [exact (Hothers h Hne)|by apply Ho]|].
  split; [done|]. eexists. split; [exact Hw|done].
Qed.

(** * Sample documents and witnesses *)

Module DesiredSample.
Definition sha : string := "0123456789abcdef0123456789abcdef0123456789abcdef0123456789abcdef".
Definition tools : DesiredGuestTools := mkGuestTools sha (64 * 1024 * 1024) sha 2.
Definition vm (run name : string) : DesiredVm :=
  mkDesiredVm "vm" "owner" "execution" 1 run name desired_running (mkImageKey "s" "web" arch_x86_64)
    sha tools (mkResourcesSpec 1000 512 1024) ["ssh-ed25519 AAAA"] 9000.
Definition host : HostRow := mkHost "host" scope_platform "agent" (Some "owner") None None 1 false.
Definition document : HostDesiredState :=
  mkDesiredState 6 "host" scope_platform "owner" 3 10 [] (Some []) [vm "run" "run-db"] [] None.
Definition store : DesiredDb :=
  mkDesiredDb [mkDesiredRow "host" 3 document 1 10; mkDesiredRow "other" 0 document 1 10] [host].
(** Another request's write, between the load and the write of the first attempt. *)
Definition bump (n : nat) (db : DesiredDb) : DesiredDb :=
  match n with
  | O => fst (mutateStoredHostDesiredState "host" 15 (fun d => upsertDesiredVm d (vm "run" "run-cache"))
           None None (fun _ _ d => d) (fun _ d => d) db)
  | _ => db
  end.
Definition put (d : HostDesiredState) : HostDesiredState := upsertDesiredVm d (vm "run" "run-web").
Definition successor : HostDesiredState :=
  mkDesiredState 6 "host" scope_platform "owner" 4 20 [] (Some []) [vm "run" "run-db"; vm "run" "run-web"]
    [] None.
End DesiredSample.

Lemma mutation_yields_valid_successor_witness :
  mutateDesiredState DesiredSample.document DesiredSample.put 20 = Ok (Some DesiredSample.successor) /\
  normalForm DesiredSample.successor.
Proof.
  assert (Hm : mutateDesiredState DesiredSample.document DesiredSample.put 20
    = Ok (Some DesiredSample.successor)) by (vm_compute; reflexivity).
  split; [exact Hm|].
  exact (proj1 (proj2 (proj2 (proj2 (proj2 (proj2
    (mutation_yields_valid_successor _ _ _ _ Hm eq_refl))))))).
Defined.

Lemma sample_normalForm : normalForm DesiredSample.document.
Proof.
  split; [vm_compute; reflexivity|].
  repeat split; try apply NoDup_nil_2; vm_compute; apply NoDup_singleton.
Qed.

Lemma desired_vm_edits_exact_witness :
  ds_vms DesiredSample.successor
  ≡ₚ [DesiredSample.vm "run" "run-web"; DesiredSample.vm "run" "run-db"].
Proof.
  exact (proj1 (desired_vm_edits_exact DesiredSample.document 20 sample_normalForm)
    (DesiredSample.vm "run" "run-web") (Some DesiredSample.successor) ltac:(vm_compute; reflexivity)).
Defined.

Lemma sample_keyed : keyed DesiredSample.store.
Proof.
  apply NoDup_cons. split; [|apply NoDup_singleton]. cbn. rewrite list_elem_of_singleton. done.
Qed.

Lemma bump_versioned n db : versionedStep db (DesiredSample.bump n db).
Proof.
  destruct n; [|reflexivity]. intros Hk. unfold DesiredSample.bump.
  destruct (mutateStoredHostDesiredState _ _ _ _ _ _ _ _) as [db' res] eqn:E.
  refine (proj1 (mutateFrom_step "host" 15 _ None None (fun _ _ d => d) (fun _ d => d) _ _ _ _ _ _ _ Hk _ E) Hk);
    done || reflexivity.
Qed.

Lemma desired_state_updates_not_lost_witness :
  exists db' next,
    mutateStoredHostDesiredState "host" 20 DesiredSample.put None None (fun _ _ d => d)
      DesiredSample.bump DesiredSample.store = (db', Ok (next, true)) /\
    ds_version next = 5 /\ map dv_vm_name (ds_vms next) = ["run-cache"; "run-db"; "run-web"] /\
    landed "host" 20 DesiredSample.put None DesiredSample.store db' next.
Proof.
  pose proof (desired_state_updates_not_lost "host" 20 DesiredSample.put None None (fun _ _ d => d)
    DesiredSample.bump DesiredSample.store sample_keyed ltac:(reflexivity) bump_versioned
    ltac:(discriminate)) as Hw.
  remember (mutateStoredHostDesiredState "host" 20 DesiredSample.put None None (fun _ _ d => d)
    DesiredSample.bump DesiredSample.store) as out eqn:E. vm_compute in E. subst out.
  destruct Hw as (_ & Hl & _). do 2 eexists. split; [reflexivity|]. split; [reflexivity|].
  split; [vm_compute; reflexivity|]. by apply Hl.
Defined.

Lemma desired_state_mutation_uncontended_witness :
  storedAs "host" (fst (mutateStoredHostDesiredState "host" 20 DesiredSample.put None None (fun _ _ d => d)
    (fun _ d => d) DesiredSample.store)) DesiredSample.successor.
Proof.
  destruct (desired_state_mutation_uncontended "host" 20 DesiredSample.put DesiredSample.store
    DesiredSample.document sample_keyed ltac:(vm_compute; reflexivity)) as (db' & _ & E & Hs).
  rewrite E. cbn [fst]. vm_compute in Hs |- *. exact Hs.
Defined.
