(* ===== verification/Capacity.v ===== *)
(** What a host has left: the capacity arithmetic of
    apps/web/src/control-plane/host-cpu-reservations.ts and
    apps/web/src/lib/runtime-capacity.ts, over the report a host sent last. *)
From stdpp Require Import base list strings.
From Stdlib Require Import ZArith Lia.
From S2P Require Import Prelude Json RunState Store Bridge.

Open Scope string_scope.
Open Scope list_scope.
Open Scope Z_scope.

(** * Numbers *)

(** [values.reduce((sum, v) => sum + v, from)] on integral doubles. *)
Definition js_sum_from (from : Z) (values : list Z) : Z :=
  fold_left (fun sum v => fl (sum + v)) values from.
Definition js_sum (values : list Z) : Z := js_sum_from 0 values.

(** [a / b] as a ratio of integers, rounded to the nearest multiple of [1 / s]. *)
Definition round_ratio (a b : Z) : Z := round_half_even a b / b.

(** [Math.ceil(a / b)] for positive integral doubles: the quotient is rounded to
    a double of 53 significant bits before its ceiling is taken. *)
Definition js_div_ceil (a b : Z) : Z :=
  let q := a / b in
  if q =? 0 then (if a =? 0 then 0 else 1)
  else
    let e := Z.log2 q - 52 in
    if e <=? 0 then let s := 2 ^ (- e) in (round_ratio (a * s) b + s - 1) / s
    else let s := 2 ^ e in round_ratio a (b * s) * s.

Definition readNonNegativeInteger (v : option json) : option Z :=
  match v with
  | Some (JNum (NInt z)) => if safe_integer z && (0 <=? z) then Some z else None
  | _ => None
  end.
Definition readPositiveInteger (v : option json) : option Z :=
  match readNonNegativeInteger v with
  | Some z => if 0 <? z then Some z else None
  | None => None
  end.

(** * The CPU a run needs *)

Inductive ReservationError : Type := reservation_invalid | reservation_overflows.

Definition isPositiveSafe (n : num) : bool :=
  match n with NInt z => safe_integer z && (0 <? z) | _ => false end.
Definition num_value (n : num) : Z := match n with NInt z => z | NFrac f _ => f | NInf _ => 0 end.

Definition cpuReservationForVms (cpuMillisByVm : list num) : result ReservationError Z :=
  throw_if Nat.eqb (length cpuMillisByVm) 0 || existsb (fun n => negb (isPositiveSafe n)) cpuMillisByVm
    with reservation_invalid;
  let cpuMillis := js_sum (map num_value cpuMillisByVm) in
  throw_if negb (safe_integer cpuMillis) with reservation_overflows;
  Ok cpuMillis.

(** * What a report offers *)

Record StrictCpuCapacity : Type := mkStrictCpu {
  sc_schedulableCpuMillis : Z;
  sc_reportedCommittedCpuMillis : Z;
}.

Definition REQUIRED_CAPABILITIES : list string :=
  ["supports_kvm"; "supports_vsock"; "supports_reflink"; "supports_nftables"; "supports_jailer_v3";
   "supports_template_backed_launch"; "fast_template_store"; "supports_hard_cpu_quota";
   "supports_landlock"; "supports_cgroup_v2"].

(** [/^[a-f0-9]{64}$/]. *)
Definition isLowerSha256 (s : string) : bool :=
  Nat.eqb (String.length s) 64
  && forallb (fun n => in_range 97 102 n || in_range 48 57 n) (code_units s).

Definition strictCapable (capabilities : option json) : bool :=
  isRecord capabilities
  && forallb (fun k => bool_decide (prop capabilities k = Some (JBool true))) REQUIRED_CAPABILITIES
  && match prop capabilities "cloud_hypervisor_sha256" with
     | Some (JStr s) => isLowerSha256 s
     | _ => false
     end.

Definition strictCpuCapacity (report : option json) : option StrictCpuCapacity :=
  if negb (isRecord report)
     || negb (isNumber (prop report "schema_version") HOST_STATE_REPORT_SCHEMA_VERSION)
  then None
  else
    let capacity := prop report "capacity" in
    if negb (isRecord capacity) || negb (strictCapable (prop report "capabilities")) then None
    else
      match readNonNegativeInteger (prop capacity "schedulable_cpu_millis"),
            readNonNegativeInteger (prop capacity "committed_cpu_millis"),
            readNonNegativeInteger (prop capacity "total_cpu_millis"),
            readNonNegativeInteger (prop capacity "reserved_cpu_millis") with
      | Some schedulable, Some committed, Some total, Some reserved =>
          if (total <? fl (reserved + schedulable)) || (schedulable <? committed) then None
          else Some (mkStrictCpu schedulable committed)
      | _, _, _, _ => None
      end.

(** * The CPU ledger of a host *)

Inductive CpuReservationState : Type := cpu_pending | cpu_committed.
#[export] Instance CpuReservationState_eq_dec : EqDecision CpuReservationState.
Proof. solve_decision. Defined.

Record HostCpuReservationCapacityRow : Type := mkCapacityRow {
  cap_runId : string;
  cap_cpuMillis : Z;
  cap_state : CpuReservationState;
}.

Record HostCpuReservationCapacity : Type := mkCpuCapacity {
  cc_schedulableCpuMillis : Z;
  cc_reportedCommittedCpuMillis : Z;
  cc_controlPlanePendingCpuMillis : Z;
  cc_controlPlaneCommittedCpuMillis : Z;
  cc_effectiveCommittedCpuMillis : Z;
  cc_availableCpuMillis : Z;
}.

(** The CPU of a reported VM: attested, or else by its quota. *)
Definition effectiveReportedCpu (vm : json) : option Z :=
  match readPositiveInteger (prop (field vm "runtime_constraints") "cpu_millis") with
  | Some attested => Some attested
  | None =>
      match readPositiveInteger (prop (field vm "resource_state") "cpu_quota_us"),
            readPositiveInteger (prop (field vm "resource_state") "cpu_period_us") with
      | Some quotaUs, Some periodUs =>
          let cpu := js_div_ceil (fl (quotaUs * 1000)) periodUs in
          if safe_integer cpu then Some cpu else None
      | _, _ => None
      end
  end.

(** The run a reported VM is charged to, when it is one of [runIds]. *)
Definition chargedRun (runIds : list string) (vm : json) : option string :=
  if negb (isRecord (Some vm)) then None
  else match field vm "run_id" with
       | Some (JStr run) =>
           if negb (str_mem run runIds) || isText (field vm "phase") "absent" then None else Some run
       | _ => None
       end.

Definition addCpu (byRun : list (string * Z)) (run : string) (cpu : Z) : list (string * Z) :=
  Map_set run (fl (nullish (Map_get run byRun) 0 + cpu)) byRun.

Definition chargeVm (runIds : list string) (byRun : list (string * Z)) (vm : json)
  : list (string * Z) :=
  match chargedRun runIds vm, effectiveReportedCpu vm with
  | Some run, Some cpu => addCpu byRun run cpu
  | _, _ => byRun
  end.

Definition reportedCpuMillisByRun (report : option json) (runIds : list string)
  : list (string * Z) :=
  match prop report "vms" with
  | Some (JArr vms) =>
      if Nat.eqb (length runIds) 0 then [] else fold_left (chargeVm runIds) vms []
  | _ => []
  end.

Definition sumCpuMillis (rows : list HostCpuReservationCapacityRow) : Z :=
  js_sum (map cap_cpuMillis rows).

Definition chargedCpu (byRun : list (string * Z)) (row : HostCpuReservationCapacityRow) : Z :=
  Z.max (cap_cpuMillis row) (nullish (Map_get (cap_runId row) byRun) 0).

Definition hostCpuReservationCapacityFromSnapshot (report : option json)
    (reservations : list HostCpuReservationCapacityRow) : option HostCpuReservationCapacity :=
  match strictCpuCapacity report with
  | None => None
  | Some reported =>
      let pending := sumCpuMillis
        (List.filter (fun r => bool_decide (cap_state r = cpu_pending)) reservations) in
      let committed := sumCpuMillis
        (List.filter (fun r => bool_decide (cap_state r = cpu_committed)) reservations) in
      let byRun := reportedCpuMillisByRun report (Set_new (map cap_runId reservations)) in
      let reportedReserved := js_sum (map snd byRun) in
      let unreserved := Z.max 0 (fl (sc_reportedCommittedCpuMillis reported - reportedReserved)) in
      let effective := fl (js_sum (map (chargedCpu byRun) reservations) + unreserved) in
      Some (mkCpuCapacity (sc_schedulableCpuMillis reported) (sc_reportedCommittedCpuMillis reported)
        pending committed effective
        (Z.max 0 (fl (sc_schedulableCpuMillis reported - effective))))
  end.

(** * The resource ledger shared by all runs *)

Record RuntimeResourceDemand : Type := mkDemand {
  dm_cpuMillis : Z;
  dm_memoryMib : Z;
  dm_worstCaseDiskMib : Z;
}.

Record RuntimeReservedVmSnapshot : Type := mkReservedVm {
  rvs_execution_id : string;
  rvs_runtime_vm_name : string;
  rvs_cpu_millis : Z;
  rvs_memory_mib : Z;
}.

Record ActiveRuntimeResourceSnapshot : Type := mkSnapshot {
  snap_reservations : list ReservationRow;
  snap_reservedVms : list RuntimeReservedVmSnapshot;
}.

(** Committed reservations count, and pending ones until they expire. *)
Definition chargeable (now : Z) (r : ReservationRow) : bool :=
  match hr_state r with
  | res_committed => true
  | res_pending => match hr_expiresAt r with None => true | Some t => now <? t end
  | res_released => false
  end.

Definition loadActiveRuntimeResourceSnapshot (db : Db) (now : Z) (hostIds : list string)
  : ActiveRuntimeResourceSnapshot :=
  let scoped := Set_new hostIds in
  let counts r := chargeable now r && str_mem (hr_hostId r) scoped in
  match scoped with
  | [] => mkSnapshot [] []
  | _ => mkSnapshot (List.filter counts (db_reservations db))
           (flat_map (fun vm => map (fun _ => mkReservedVm (rv_executionId vm) (rv_runtimeVmName vm)
                                       (rv_cpuMillis vm) (rv_memoryMib vm))
              (List.filter (fun r => (hr_executionId r =s rv_executionId vm) && counts r)
                 (db_reservations db))) (db_vms db))
  end.

Definition nul : string := String.String Ascii.zero EmptyString.
Definition vmIdentity (execution name : string) : string := execution +:+ nul +:+ name.

Definition reportedEffectiveCpuMillis (vm : json) : option Z :=
  match readPositiveInteger (prop (field vm "runtime_constraints") "cpu_millis") with
  | Some effective => Some effective
  | None => readPositiveInteger (prop (field vm "resource_state") "cpu_millis")
  end.

Definition textOf (v : option json) : string := match v with Some (JStr s) => s | _ => "" end.
Definition integerOf (v : option json) : Z := match v with Some (JNum (NInt z)) => z | _ => 0 end.
Definition arrayItems (v : option json) : list json := match v with Some (JArr l) => l | _ => [] end.

(** One reported VM, charged to the execution that reserved it. *)
Definition chargeReservedVm (executions identities : list string) (byExecution : list (string * Z))
    (vm : json) : list (string * Z) :=
  let run := textOf (field vm "run_id") in
  if negb (str_mem run executions) then byExecution
  else if negb (str_mem (vmIdentity run (textOf (field vm "vm_name"))) identities) then byExecution
  else match reportedEffectiveCpuMillis vm with
       | Some cpu => addCpu byExecution run cpu
       | None => byExecution
       end.

Definition topUp (byExecution : list (string * Z)) (r : ReservationRow) : Z :=
  Z.max 0 (fl (hr_cpuMillis r - nullish (Map_get (hr_executionId r) byExecution) 0)).

(** The report is one that [Bridge] accepted: its VMs are an array and its
    capacities integers. *)
Definition availableRuntimeHostResources (hostId : string) (report : json)
    (snapshot : ActiveRuntimeResourceSnapshot) : option RuntimeResourceDemand :=
  match strictCpuCapacity (Some report) with
  | None => None
  | Some cpuCapacity =>
      let reservations := List.filter (fun r => hr_hostId r =s hostId) (snap_reservations snapshot) in
      let executions := map hr_executionId reservations in
      let reservedVms := List.filter (fun vm => str_mem (rvs_execution_id vm) executions)
                           (snap_reservedVms snapshot) in
      let identities := map (fun vm => vmIdentity (rvs_execution_id vm) (rvs_runtime_vm_name vm)) reservedVms in
      let byExecution := fold_left (chargeReservedVm executions identities)
                           (arrayItems (field report "vms")) [] in
      let cpuTopUp := js_sum (map (topUp byExecution) reservations) in
      let capacity := field report "capacity" in
      Some (mkDemand
        (Z.max 0 (fl (fl (sc_schedulableCpuMillis cpuCapacity - sc_reportedCommittedCpuMillis cpuCapacity)
                      - cpuTopUp)))
        (Z.max 0 (fl (integerOf (prop capacity "memory_available_mib")
                      - js_sum (map hr_memoryMib reservations))))
        (Z.max 0 (fl (integerOf (prop capacity "disk_available_mib")
                      - js_sum (map hr_worstCaseDiskMib reservations)))))
  end.

Definition runtimeResourcesFit (required available : RuntimeResourceDemand) : bool :=
  (dm_cpuMillis required <=? dm_cpuMillis available)
  && (dm_memoryMib required <=? dm_memoryMib available)
  && (dm_worstCaseDiskMib required <=? dm_worstCaseDiskMib available).

(** * Lemmas: sums *)

Definition exact_sum (values : list Z) : Z := foldr Z.add 0 values.

Lemma js_sum_from_cons from v values :
  js_sum_from from (v :: values) = js_sum_from (fl (from + v)) values.
Proof. done. Qed.

Lemma js_sum_from_large from values :
  Forall (Z.le 0) values -> 2 ^ 53 <= from -> 2 ^ 53 <= js_sum_from from values.
Proof.
  intros Hv. revert from. induction Hv as [|v values Hv _ IH]; intros from Hf; [done|].
  rewrite js_sum_from_cons. apply IH, fl_large. lia.
Qed.

(** A sum of non-negative numbers that comes out safe is exact. *)
Lemma js_sum_from_exact from values :
  0 <= from -> Forall (Z.le 0) values -> js_sum_from from values < 2 ^ 53 ->
  js_sum_from from values = from + exact_sum values.
Proof.
  intros Hf Hv. revert from Hf. induction Hv as [|v values Hv Hr IH]; intros from Hf H; [cbn; lia|].
  rewrite js_sum_from_cons in *. cbn [exact_sum foldr]. fold (exact_sum values).
  destruct (Z.lt_ge_cases (from + v) (2 ^ 53)) as [Hs|Hl].
  - rewrite fl_small in H |- * by lia. rewrite IH by (done || lia). lia.
  - pose proof (js_sum_from_large _ _ Hr (fl_large _ Hl)). lia.
Qed.

Lemma js_sum_exact values :
  Forall (Z.le 0) values -> js_sum values < 2 ^ 53 -> js_sum values = exact_sum values.
Proof. intros Hv Hs. unfold js_sum in *. by rewrite js_sum_from_exact. Qed.

Lemma exact_sum_nonneg values : Forall (Z.le 0) values -> 0 <= exact_sum values.
Proof. unfold exact_sum. induction 1; cbn in *; lia. Qed.

Lemma exact_sum_app l r : exact_sum (l ++ r) = exact_sum l + exact_sum r.
Proof. unfold exact_sum. induction l; cbn in *; lia. Qed.

Lemma js_sum_small values :
  Forall (Z.le 0) values -> exact_sum values < 2 ^ 53 -> js_sum values = exact_sum values.
Proof.
  unfold js_sum. enough (forall from, 0 <= from -> Forall (Z.le 0) values -> from + exact_sum values < 2 ^ 53 ->
    js_sum_from from values = from + exact_sum values) as Hgen.
  { intros Hv Hs. by rewrite Hgen. }
  intros from Hf Hv. revert from Hf. induction Hv as [|v values Hv Hr IH]; intros from Hf H; [cbn; lia|].
  cbn [exact_sum foldr] in *. fold (exact_sum values) in *. rewrite js_sum_from_cons.
  pose proof (exact_sum_nonneg _ Hr). rewrite fl_small by lia. rewrite IH by lia. lia.
Qed.

Lemma js_sum_nonneg values : Forall (Z.le 0) values -> 0 <= js_sum values.
Proof.
  intros Hv. destruct (Z.lt_ge_cases (js_sum values) (2 ^ 53)) as [Hs|]; [|lia].
  rewrite js_sum_exact by done. by apply exact_sum_nonneg.
Qed.

Lemma js_sum_nonneg_app l r :
  Forall (Z.le 0) l -> Forall (Z.le 0) r -> js_sum l < 2 ^ 53 -> js_sum l + exact_sum r < 2 ^ 53 ->
  js_sum (l ++ r) = js_sum l + exact_sum r.
Proof.
  intros Hl Hr Hs Hb. rewrite (js_sum_exact l Hl Hs) in *. rewrite <- exact_sum_app in *.
  apply js_sum_small; [by apply Forall_app|lia].
Qed.

(** A difference that is positive after rounding is exact, when it is safe. *)
Lemma fl_safe z : safe_integer z = true -> fl z = z.
Proof. intros H. unfold safe_integer, MAX_SAFE_INTEGER in H. reflect_bools. apply fl_small. lia. Qed.

Lemma safe_bounds z : safe_integer z = true -> - 2 ^ 53 < z < 2 ^ 53.
Proof. unfold safe_integer, MAX_SAFE_INTEGER. intros H. reflect_bools. lia. Qed.

(** [fl] is odd and monotone enough around the safe range. *)
Lemma fl_odd z : fl (- z) = - fl z.
Proof.
  unfold fl. rewrite Z.abs_opp. destruct (_ <=? 0); [done|]. rewrite Z.sgn_opp. lia.
Qed.

Lemma fl_positive_small z : z < 2 ^ 53 -> 0 < fl z -> fl z = z.
Proof.
  intros Hz Hp. destruct (Z.lt_ge_cases (- 2 ^ 53) z) as [|Hn]; [apply fl_small; lia|].
  exfalso. pose proof (fl_large (- z) ltac:(lia)) as Hl. rewrite fl_odd in Hl. lia.
Qed.

Lemma readNonNegative_safe v z :
  readNonNegativeInteger v = Some z -> safe_integer z = true /\ 0 <= z.
Proof.
  unfold readNonNegativeInteger. destruct v as [[]|]; try done. destruct n; try done.
  destruct (_ && _) eqn:E; [|done]. intros [= <-]. reflect_bools. done.
Qed.

Lemma readPositive_safe v z : readPositiveInteger v = Some z -> safe_integer z = true /\ 0 < z.
Proof.
  unfold readPositiveInteger. destruct (readNonNegativeInteger v) as [y|] eqn:E; [|done].
  destruct (0 <? y) eqn:Ey; [|done]. intros [= <-]. reflect_bools. by apply readNonNegative_safe in E as [? _].
Qed.

Lemma strict_bounds report c :
  strictCpuCapacity report = Some c ->
  0 <= sc_reportedCommittedCpuMillis c <= sc_schedulableCpuMillis c /\ sc_schedulableCpuMillis c < 2 ^ 53.
Proof.
  unfold strictCpuCapacity. destruct (_ || _); [done|]. cbv zeta. destruct (_ || _); [done|].
  destruct (readNonNegativeInteger (prop _ "schedulable_cpu_millis")) as [s|] eqn:Es; [|done].
  destruct (readNonNegativeInteger (prop _ "committed_cpu_millis")) as [m|] eqn:Em; [|done].
  destruct (readNonNegativeInteger (prop _ "total_cpu_millis")); [|done].
  destruct (readNonNegativeInteger (prop _ "reserved_cpu_millis")); [|done].
  destruct (_ || _) eqn:E; [done|]. intros [= <-]. cbn. reflect_bools.
  apply readNonNegative_safe in Es as [Es1 Es2]. apply readNonNegative_safe in Em as [_ Em2].
  apply safe_bounds in Es1. lia.
Qed.

(** * Lemmas: charging reported VMs *)

(** No reported VM names the run. *)
Definition unreported (run : string) (vms : list json) : Prop :=
  Forall (fun vm => field vm "run_id" <> Some (JStr run)) vms.

Lemma chargedRun_fresh runIds runIds' run vm :
  field vm "run_id" <> Some (JStr run) ->
  (forall x, x <> run -> str_mem x runIds' = str_mem x runIds) ->
  chargedRun runIds' vm = chargedRun runIds vm.
Proof.
  intros Hne Hmem. unfold chargedRun. destruct (isRecord (Some vm)); [|done]. cbn [negb].
  destruct (field vm "run_id") as [[| | |x| |]|]; try done. rewrite Hmem; [done|]. congruence.
Qed.

Lemma charge_fresh runIds runIds' run vms acc :
  unreported run vms -> (forall x, x <> run -> str_mem x runIds' = str_mem x runIds) ->
  fold_left (chargeVm runIds') vms acc = fold_left (chargeVm runIds) vms acc.
Proof.
  intros Hu Hmem. revert acc. induction Hu as [|vm vms Hvm _ IH]; intros acc; cbn; [done|].
  unfold chargeVm at 2 4. by rewrite (chargedRun_fresh runIds runIds' run) by done.
Qed.

Lemma charge_none vms acc : fold_left (chargeVm []) vms acc = acc.
Proof.
  revert acc. induction vms as [|vm vms IH]; intros acc; cbn; [done|]. rewrite <- (IH acc) at 2. f_equal.
  unfold chargeVm, chargedRun. destruct (negb _); [done|]. by destruct (field vm "run_id") as [[]|].
Qed.

Lemma reported_charge report runIds :
  reportedCpuMillisByRun report runIds = fold_left (chargeVm runIds) (arrayItems (prop report "vms")) [].
Proof.
  unfold reportedCpuMillisByRun. destruct (prop report "vms") as [[| | | |vms|]|]; try done. cbn.
  destruct runIds; [|done]. cbn. by rewrite charge_none.
Qed.

Lemma charge_unreported runIds run vms acc :
  unreported run vms -> Map_get run acc = None -> Map_get run (fold_left (chargeVm runIds) vms acc) = None.
Proof.
  intros Hu. revert acc. induction Hu as [|vm vms Hvm _ IH]; intros acc Hacc; cbn; [done|].
  apply IH. unfold chargeVm. destruct (chargedRun runIds vm) as [x|] eqn:Ex; [|done].
  destruct (effectiveReportedCpu vm); [|done]. unfold addCpu. rewrite Map_get_set_ne; [done|].
  unfold chargedRun in Ex. destruct (negb _); [done|].
  destruct (field vm "run_id") as [[| | |y| |]|]; try done. destruct (_ || _); [done|]. congruence.
Qed.

Lemma fl_nonneg z : 0 <= z -> 0 <= fl z.
Proof.
  intros Hz. destruct (Z.lt_ge_cases z (2 ^ 53)) as [|Hl]; [rewrite fl_small; lia|].
  pose proof (fl_large z Hl). lia.
Qed.

Lemma fl_below z : 0 <= z -> fl z < 2 ^ 53 -> fl z = z /\ z < 2 ^ 53.
Proof.
  intros Hz Hs. destruct (Z.lt_ge_cases z (2 ^ 53)) as [|Hl]; [split; [apply fl_small|]; lia|].
  pose proof (fl_large z Hl). lia.
Qed.

(** What is left of [total] after non-negative charges of which something fits:
    the arithmetic was exact, and a further charge that fits takes exactly itself. *)
Lemma remaining_exact total charges rest extra :
  total < 2 ^ 53 -> Forall (Z.le 0) charges -> 0 <= rest -> 0 < extra ->
  extra <= Z.max 0 (fl (total - fl (js_sum charges + rest))) ->
  fl (js_sum charges + rest) = js_sum charges + rest /\
  fl (js_sum (charges ++ [extra]) + rest) = fl (js_sum charges + rest) + extra /\
  fl (js_sum charges + rest) + extra <= total /\
  Z.max 0 (fl (total - fl (js_sum (charges ++ [extra]) + rest)))
  = Z.max 0 (fl (total - fl (js_sum charges + rest))) - extra.
Proof.
  intros Ht Hc Hr He Hfit. pose proof (js_sum_nonneg _ Hc) as Hs.
  pose proof (fl_nonneg (js_sum charges + rest) ltac:(lia)) as Hn.
  assert (Hd : fl (total - fl (js_sum charges + rest)) = total - fl (js_sum charges + rest))
    by (apply fl_positive_small; lia).
  rewrite Hd in Hfit |- *. destruct (fl_below (js_sum charges + rest)) as [Hex Hlt]; [lia..|].
  rewrite Hex in *. assert (Hone : exact_sum [extra] = extra) by (cbn; lia).
  assert (Happ : js_sum (charges ++ [extra]) = js_sum charges + extra).
  { rewrite js_sum_nonneg_app; rewrite ?Hone; try lia; [done|]. repeat constructor. lia. }
  rewrite Happ, (fl_small (js_sum charges + extra + rest)) by lia.
  rewrite (fl_small (total - (js_sum charges + extra + rest))) by lia.
  repeat split; lia.
Qed.

(** C38. Admitting a run into a host's CPU ledger never overcommits it: when a
    new run, of which the host reports no VM yet, asks for no more than is
    available, the ledger with its reservation charges exactly that much more,
    stays within the schedulable CPU and leaves exactly that much less. *)
Theorem cpu_admission_exact report rows c run cpu state
    (Hpositive : Forall (fun r => 0 < cap_cpuMillis r) rows)
    (Hcapacity : hostCpuReservationCapacityFromSnapshot report rows = Some c)
    (Hnew : unreported run (arrayItems (prop report "vms")))
    (Hcpu : 0 < cpu <= cc_availableCpuMillis c) :
  exists c', hostCpuReservationCapacityFromSnapshot report (rows ++ [mkCapacityRow run cpu state]) = Some c' /\
    cc_effectiveCommittedCpuMillis c' = cc_effectiveCommittedCpuMillis c + cpu /\
    cc_effectiveCommittedCpuMillis c' <= cc_schedulableCpuMillis c' /\
    cc_availableCpuMillis c' = cc_availableCpuMillis c - cpu.
Proof.
  unfold hostCpuReservationCapacityFromSnapshot in *.
  destruct (strictCpuCapacity report) as [s|] eqn:Es; [|done].
  pose proof (strict_bounds _ _ Es) as Hb. simplify_eq. cbn in *. eexists. split; [reflexivity|]. cbn.
  rewrite !reported_charge, (map_app cap_runId). cbn [map cap_runId].
  rewrite (charge_fresh (Set_new (map cap_runId rows)) _ run);
    [|done|intros x Hx; apply eq_true_iff_eq; rewrite !str_mem_In, !Set_new_In, in_app_iff; cbn; intuition congruence].
  rewrite reported_charge in Hcpu.
  set (byRun := fold_left _ _ []) in *.
  assert (Hget : Map_get run byRun = None) by (by apply charge_unreported).
  assert (Hlast : map (chargedCpu byRun) [mkCapacityRow run cpu state] = [cpu]).
  { cbn. unfold chargedCpu. cbn. rewrite Hget. cbn. f_equal. lia. }
  assert (Hcharges : Forall (Z.le 0) (map (chargedCpu byRun) rows)).
  { apply Forall_map. eapply Forall_impl; [exact Hpositive|]. intros r Hr. unfold chargedCpu. cbn in *. lia. }
  rewrite map_app, Hlast.
  destruct (remaining_exact (sc_schedulableCpuMillis s) _ (Z.max 0 (fl (sc_reportedCommittedCpuMillis s
    - js_sum (map snd byRun)))) cpu ltac:(lia) Hcharges ltac:(lia) ltac:(lia) ltac:(lia)) as (_ & Hadd & Hle & Hrest).
  rewrite Hrest, Hadd. repeat split; lia.
Qed.

Lemma remaining_sum total charges extra :
  total < 2 ^ 53 -> Forall (Z.le 0) charges -> 0 < extra ->
  extra <= Z.max 0 (fl (total - js_sum charges)) ->
  Z.max 0 (fl (total - js_sum (charges ++ [extra]))) = Z.max 0 (fl (total - js_sum charges)) - extra.
Proof.
  intros Ht Hc He Hfit. pose proof (js_sum_nonneg _ Hc) as Hs.
  assert (Hd : fl (total - js_sum charges) = total - js_sum charges) by (apply fl_positive_small; lia).
  rewrite Hd in *. assert (Hone : exact_sum [extra] = extra) by (cbn; lia).
  rewrite js_sum_nonneg_app; rewrite ?Hone; try lia; [|done|repeat constructor; lia].
  rewrite fl_small by lia. lia.
Qed.

(** The identities under which the VMs of a host's reservations are expected. *)
Definition reservedIdentities (hostId : string) (snapshot : ActiveRuntimeResourceSnapshot) : list string :=
  map (fun vm => vmIdentity (rvs_execution_id vm) (rvs_runtime_vm_name vm))
    (List.filter (fun vm => str_mem (rvs_execution_id vm)
       (map hr_executionId (List.filter (fun r => hr_hostId r =s hostId) (snap_reservations snapshot))))
       (snap_reservedVms snapshot)).

Definition vmKey (vm : json) : string :=
  vmIdentity (textOf (field vm "run_id")) (textOf (field vm "vm_name")).

Lemma charge_reserved_fresh executions executions' ids ids' run vms acc :
  Forall (fun vm => textOf (field vm "run_id") <> run) vms ->
  (forall x, x <> run -> str_mem x executions' = str_mem x executions) ->
  Forall (fun vm => str_mem (vmKey vm) ids' = str_mem (vmKey vm) ids) vms ->
  fold_left (chargeReservedVm executions' ids') vms acc = fold_left (chargeReservedVm executions ids) vms acc.
Proof.
  intros Hrun Hex Hids. revert acc. induction vms as [|vm vms IH]; intros acc; cbn; [done|].
  apply Forall_cons in Hrun as [Hvm Hrun]. apply Forall_cons in Hids as [Hid Hids].
  unfold chargeReservedVm at 2 4. unfold vmKey in Hid. rewrite Hex, Hid by done. by apply IH.
Qed.

Lemma charge_reserved_unreported executions ids run vms acc :
  Forall (fun vm => textOf (field vm "run_id") <> run) vms -> Map_get run acc = None ->
  Map_get run (fold_left (chargeReservedVm executions ids) vms acc) = None.
Proof.
  intros Hu. revert acc. induction Hu as [|vm vms Hvm _ IH]; intros acc Hacc; cbn; [done|].
  apply IH. unfold chargeReservedVm. destruct (negb _); [done|]. destruct (negb _); [done|].
  destruct (reportedEffectiveCpuMillis vm); [|done]. unfold addCpu. by rewrite Map_get_set_ne.
Qed.

(** Reserving resources of a host takes exactly what was asked for: when the
    demand of a new execution fits what is available on the host, of which no VM
    is reported yet, the ledger with its reservation offers exactly that much less
    CPU, memory and disk; so reservations that are admitted one after another
    never promise more than the host reported free. *)
Theorem resource_admission_exact hostId report snapshot reservedVms r a
    (Hstate : Forall (fun x => 0 < hr_cpuMillis x /\ 0 < hr_memoryMib x /\ 0 < hr_worstCaseDiskMib x)
                (r :: snap_reservations snapshot))
    (Havailable : availableRuntimeHostResources hostId report snapshot = Some a)
    (Hmemory : safe_integer (integerOf (prop (field report "capacity") "memory_available_mib")) = true)
    (Hdisk : safe_integer (integerOf (prop (field report "capacity") "disk_available_mib")) = true)
    (Hhost : hr_hostId r = hostId)
    (Hnew : Forall (fun vm => textOf (field vm "run_id") <> hr_executionId r) (arrayItems (field report "vms")))
    (Hothers : Forall (fun vm =>
       str_mem (vmKey vm) (reservedIdentities hostId (mkSnapshot (snap_reservations snapshot ++ [r]) reservedVms))
       = str_mem (vmKey vm) (reservedIdentities hostId snapshot)) (arrayItems (field report "vms")))
    (Hfit : runtimeResourcesFit
       (mkDemand (hr_cpuMillis r) (hr_memoryMib r) (hr_worstCaseDiskMib r)) a = true) :
  availableRuntimeHostResources hostId report
    (mkSnapshot (snap_reservations snapshot ++ [r]) reservedVms)
  = Some (mkDemand (dm_cpuMillis a - hr_cpuMillis r) (dm_memoryMib a - hr_memoryMib r)
            (dm_worstCaseDiskMib a - hr_worstCaseDiskMib r)).
Proof.
  unfold reservedIdentities in Hothers. unfold availableRuntimeHostResources in *.
  destruct (strictCpuCapacity (Some report)) as [s|] eqn:Es; [|done].
  pose proof (strict_bounds _ _ Es) as Hb.
  apply (f_equal (fun o => match o with Some x => x | None => a end)) in Havailable. subst a.
  unfold runtimeResourcesFit in Hfit. reflect_bools.
  cbn [dm_cpuMillis dm_memoryMib dm_worstCaseDiskMib snap_reservations snap_reservedVms] in *.
  apply Forall_cons in Hstate as [(Hc & Hm & Hd) Hrows]. apply safe_bounds in Hmemory, Hdisk.
  rewrite List.filter_app in *. cbn [List.filter] in *. rewrite (proj2 (String.eqb_eq _ _) Hhost) in *.
  set (rows := List.filter (fun r => hr_hostId r =s hostId) (snap_reservations snapshot)) in *.
  assert (Hpos : Forall (fun x => 0 < hr_cpuMillis x /\ 0 < hr_memoryMib x /\ 0 < hr_worstCaseDiskMib x) rows).
  { apply Forall_forall. intros x Hx. apply list_elem_of_In, filter_In in Hx as [Hx _].
    by rewrite Forall_forall in Hrows; apply Hrows, list_elem_of_In. }
  set (vms := arrayItems (field report "vms")) in *.
  match goal with |- context [fold_left (chargeReservedVm ?ex ?ids) vms []] =>
    rewrite (charge_reserved_fresh (map hr_executionId rows) ex
      (map (fun vm => vmIdentity (rvs_execution_id vm) (rvs_runtime_vm_name vm))
        (List.filter (fun vm => str_mem (rvs_execution_id vm) (map hr_executionId rows)) (snap_reservedVms snapshot)))
      ids (hr_executionId r)) by
      (done || (intros x Hx; apply eq_true_iff_eq; rewrite !str_mem_In, map_app, in_app_iff; cbn; intuition congruence))
  end.
  set (by_ := fold_left _ _ []) in *.
  assert (Hget : Map_get (hr_executionId r) by_ = None) by (by apply charge_reserved_unreported).
  assert (Htops : Forall (Z.le 0) (map (topUp by_) rows))
    by (apply Forall_map, Forall_true; intros x; unfold topUp; cbn; lia).
  assert (Htop : topUp by_ r = hr_cpuMillis r).
  { unfold topUp. rewrite Hget. cbn [nullish]. rewrite Z.sub_0_r. rewrite fl_small; [lia|].
    pose proof (js_sum_nonneg _ Htops). rewrite (fl_small (sc_schedulableCpuMillis s - _)) in * by lia.
    match goal with H : hr_cpuMillis r <= Z.max 0 (fl ?z) |- _ =>
      assert (fl z = z) by (apply fl_positive_small; lia) end. lia. }
  rewrite !map_app. cbn [map]. rewrite Htop.
  rewrite (fl_small (sc_schedulableCpuMillis s - _)) in * by lia.
  rewrite !remaining_sum; try done; try lia;
    apply Forall_map; eapply Forall_impl; [exact Hpos| |exact Hpos|]; cbn; lia.
Qed.

(** A run's reservation is the exact sum of what its VMs need. *)
Lemma cpuReservationForVms_ok ns n :
  cpuReservationForVms ns = Ok n ->
  n = exact_sum (map num_value ns) /\ 0 < n < 2 ^ 53 /\ Forall (fun x => isPositiveSafe x = true) ns.
Proof.
  unfold cpuReservationForVms. destruct (_ || _) eqn:E; [done|]. cbv zeta.
  destruct (safe_integer _) eqn:Es; [|done]. intros [= <-]. reflect_bools. apply safe_bounds in Es.
  assert (Hall : Forall (fun x => isPositiveSafe x = true) ns).
  { apply Forall_forall. intros x Hx%list_elem_of_In. destruct (isPositiveSafe x) eqn:Ex; [done|].
    enough (existsb (fun n => negb (isPositiveSafe n)) ns = true) by congruence.
    apply existsb_exists. exists x. by rewrite Ex. }
  assert (Hpos : Forall (fun z => 0 < z) (map num_value ns)).
  { apply Forall_map. eapply Forall_impl; [exact Hall|]. intros [z| |]; try done. cbn. intros Hz. reflect_bools. done. }
  assert (Hnn : Forall (Z.le 0) (map num_value ns)) by (eapply Forall_impl; [exact Hpos|]; cbn; lia).
  rewrite js_sum_exact by (done || lia). split; [done|]. split; [|done].
  rewrite js_sum_exact in Es by (done || lia). destruct ns as [|n0 ns]; [done|].
  apply Forall_cons in Hpos as [Hz Hl]. set (z := num_value n0) in *. set (l := map num_value ns) in *.
  assert (0 <= exact_sum l) by (apply exact_sum_nonneg; eapply Forall_impl; [exact Hl|]; cbn; lia).
  change (exact_sum (map num_value (n0 :: ns))) with (z + exact_sum l) in *. lia.
Qed.

(** * Samples and witnesses *)

Module CapacitySample.
Definition sha : string := "0123456789abcdef0123456789abcdef0123456789abcdef0123456789abcdef".
Definition jz (z : Z) : json := JNum (NInt z).
(** A host of 8 CPUs that reports one VM of [run-a], by its quota. *)
Definition report : json :=
  JObj [("schema_version", jz HOST_STATE_REPORT_SCHEMA_VERSION);
        ("capacity", JObj [("schedulable_cpu_millis", jz 7000); ("committed_cpu_millis", jz 1500);
           ("total_cpu_millis", jz 8000); ("reserved_cpu_millis", jz 1000);
           ("memory_available_mib", jz 4096); ("disk_available_mib", jz 10000)]);
        ("capabilities", JObj (("cloud_hypervisor_sha256", JStr sha)
           :: map (fun k => (k, JBool true)) REQUIRED_CAPABILITIES));
        ("vms", JArr [JObj [("run_id", JStr "run-a"); ("vm_name", JStr "run-a-web"); ("phase", JStr "ready");
           ("resource_state", JObj [("cpu_quota_us", jz 25000); ("cpu_period_us", jz 100000);
                                    ("cpu_millis", jz 250)])]])].
Definition rows : list HostCpuReservationCapacityRow :=
  [mkCapacityRow "run-a" 1000 cpu_committed; mkCapacityRow "run-b" 500 cpu_pending].
Definition capacity : HostCpuReservationCapacity := mkCpuCapacity 7000 1500 500 1000 2750 4250.
Definition reservation (execution : string) : ReservationRow :=
  mkReservation execution "host" 1000 512 1024 res_committed None None 1 1.
Definition snapshot : ActiveRuntimeResourceSnapshot :=
  mkSnapshot [reservation "run-a"] [mkReservedVm "run-a" "run-a-web" 1000 512].
End CapacitySample.

Lemma cpu_admission_exact_witness :
  hostCpuReservationCapacityFromSnapshot (Some CapacitySample.report) CapacitySample.rows
    = Some CapacitySample.capacity /\
  exists c', hostCpuReservationCapacityFromSnapshot (Some CapacitySample.report)
      (CapacitySample.rows ++ [mkCapacityRow "run-c" 4250 cpu_committed]) = Some c' /\
    cc_availableCpuMillis c' = 0.
Proof.
  assert (Hc : hostCpuReservationCapacityFromSnapshot (Some CapacitySample.report) CapacitySample.rows
    = Some CapacitySample.capacity) by (vm_compute; reflexivity).
  split; [exact Hc|].
  destruct (cpu_admission_exact (Some CapacitySample.report) CapacitySample.rows CapacitySample.capacity
    "run-c" 4250 cpu_committed ltac:(repeat constructor) Hc ltac:(repeat constructor; discriminate)
    ltac:(split; [reflexivity|discriminate])) as (c' & Hc' & _ & _ & Ha).
  exists c'. split; [exact Hc'|exact Ha].
Defined.

Lemma resource_admission_exact_witness :
  availableRuntimeHostResources "host" CapacitySample.report
    (mkSnapshot [CapacitySample.reservation "run-a"; CapacitySample.reservation "run-b"]
       (snap_reservedVms CapacitySample.snapshot ++ [mkReservedVm "run-b" "run-b-web" 1000 512]))
  = Some (mkDemand 3750 3072 7952).
Proof.
  refine (resource_admission_exact "host" CapacitySample.report CapacitySample.snapshot
    (snap_reservedVms CapacitySample.snapshot ++ [mkReservedVm "run-b" "run-b-web" 1000 512])
    (CapacitySample.reservation "run-b") (mkDemand 4750 3584 8976) _ _ _ _ _ _ _ _);
    try (vm_compute; reflexivity); repeat constructor; discriminate.
Defined.
