(* ===== verification/CpuReservations.v ===== *)
(** The CPU reservations of a host and their reconciliation with its desired and
    actual state: the store operations of
    apps/web/src/control-plane/host-cpu-reservations.ts.

    Reconciliation awaits the store many times, and other requests run between.
    An operation is a computation over a world: the store, and a clock of the
    store accesses so far; [interleave n] is what others do before access [n]. *)
From stdpp Require Import base list strings.
From Stdlib Require Import ZArith Lia.
From S2P Require Import Prelude Json RunState Store RuntimeExecutions Bridge DesiredState Capacity.

Open Scope string_scope.
Open Scope list_scope.
Open Scope Z_scope.

(** * Tables *)

(** [host_cpu_reservations], keyed by run. *)
Record CpuReservationRow : Type := mkCpuReservation {
  cr_runId : string;
  cr_hostId : string;
  cr_cpuMillis : Z;
  cr_state : CpuReservationState;
  cr_expiresAt : option Z;
  cr_createdAt : Z;
  cr_updatedAt : Z;
}.

(** [host_actual_state]; the report is the stored JSON value. *)
Record ActualStateRow : Type := mkActualState {
  as_hostId : string;
  as_appliedDesiredVersion : Z;
  as_reportJson : json;
}.

(** The tables of [Store] with the reservations and the hosts' documents.
    [cd_vmCount] is the column [vm_count] of a run, which is never updated. *)
Record CpuDb : Type := mkCpuDb {
  cd_db : Db;
  cd_cpu : list CpuReservationRow;
  cd_desired : list DesiredRow;
  cd_actual : list ActualStateRow;
  cd_vmCount : string -> Z;
}.

Definition set_cpu (db : CpuDb) rows : CpuDb :=
  mkCpuDb (cd_db db) rows (cd_desired db) (cd_actual db) (cd_vmCount db).
Definition set_db (db : CpuDb) d : CpuDb :=
  mkCpuDb d (cd_cpu db) (cd_desired db) (cd_actual db) (cd_vmCount db).

(** * Computations over the store *)

Inductive ReconcileError : Type :=
| reconcile_store (e : StoreError)
| could_not_fence (runId : string).

Record World : Type := mkWorld { w_db : CpuDb; w_accesses : nat }.
Definition M (A : Type) : Type := World -> World * result ReconcileError A.

Definition M_ret {A} (a : A) : M A := fun w => (w, Ok a).
Definition M_throw {A} (e : ReconcileError) : M A := fun w => (w, Err e).
Definition M_bind {A B} (m : M A) (k : A -> M B) : M B := fun w =>
  match m w with
  | (w', Ok a) => k a w'
  | (w', Err e) => (w', Err e)
  end.
Notation "x <-- m ; k" := (M_bind m (fun x => k)) (at level 100, m at next level, right associativity).

Section handlers.
Variable interleave : nat -> CpuDb -> CpuDb.

(** One access: others first, then a statement that reads and may change. *)
Definition access {A} (f : CpuDb -> CpuDb * result ReconcileError A) : M A := fun w =>
  let '(db', r) := f (interleave (w_accesses w) (w_db w)) in
  (mkWorld db' (S (w_accesses w)), r).
Definition query {A} (f : CpuDb -> A) : M A := access (fun db => (db, Ok (f db))).
Definition update {A} (f : CpuDb -> CpuDb * A) : M A :=
  access (fun db => let '(db', a) := f db in (db', Ok a)).

(** * Single reservations *)

Definition ofRun (hostId runId : string) (r : CpuReservationRow) : bool :=
  (cr_hostId r =s hostId) && (cr_runId r =s runId).

Definition committedRow (now : Z) (r : CpuReservationRow) : CpuReservationRow :=
  mkCpuReservation (cr_runId r) (cr_hostId r) (cr_cpuMillis r) cpu_committed None (cr_createdAt r) now.

Definition commitStmt (hostId runId : string) (now : Z) (db : CpuDb) : CpuDb * bool :=
  (set_cpu db (update_where (ofRun hostId runId) (committedRow now) (cd_cpu db)),
   existsb (ofRun hostId runId) (cd_cpu db)).

Definition commitHostCpuReservation (hostId runId : string) (now : Z) : M bool :=
  update (commitStmt hostId runId now).

Definition with_reservation (r : ReservationRow) (cpu : Z) (state : ReservationState)
    (expiresAt releasedAt : option Z) (updatedAt : Z) : ReservationRow :=
  mkReservation (hr_executionId r) (hr_hostId r) cpu (hr_memoryMib r) (hr_worstCaseDiskMib r)
    state expiresAt releasedAt (hr_createdAt r) updatedAt.

Definition releasedRow (now : Z) (r : ReservationRow) : ReservationRow :=
  with_reservation r (hr_cpuMillis r) res_released (hr_expiresAt r) (Some now) now.

Definition ofExecution (hostId executionId : string) (states : list ReservationState)
    (r : ReservationRow) : bool :=
  (hr_executionId r =s executionId) && (hr_hostId r =s hostId)
  && bool_decide (hr_state r ∈ states).

Definition updateReservations (p : ReservationRow -> bool) (f : ReservationRow -> ReservationRow)
    (db : CpuDb) : CpuDb :=
  set_db db (set_reservations (cd_db db) (update_where p f (db_reservations (cd_db db)))).

Definition pendingOf (hostId runId : string) (r : CpuReservationRow) : bool :=
  ofRun hostId runId r && bool_decide (cr_state r = cpu_pending).
Definition committedOf (hostId runId : string) (r : CpuReservationRow) : bool :=
  ofRun hostId runId r && bool_decide (cr_state r = cpu_committed).

(** Both statements are one batch. *)
Definition rollbackBatch (hostId runId : string) (now : Z) (db : CpuDb) : CpuDb * bool :=
  (updateReservations (ofExecution hostId runId [res_pending]) (releasedRow now)
     (set_cpu db (delete_where (pendingOf hostId runId) (cd_cpu db))),
   existsb (pendingOf hostId runId) (cd_cpu db)).

Definition rollbackPendingHostCpuReservation (hostId runId : string) (now : Z) : M bool :=
  update (rollbackBatch hostId runId now).

Definition releaseBatch (hostId runId executionId : string) (now : Z) (db : CpuDb) : CpuDb * bool :=
  (updateReservations (ofExecution hostId executionId [res_pending; res_committed]) (releasedRow now)
     (set_cpu db (delete_where (committedOf hostId runId) (cd_cpu db))),
   existsb (committedOf hostId runId) (cd_cpu db)).

(** [state] is what to become, [None] to keep it. *)
Definition syncStmt (executionId hostId : string) (cpuMillis : option Z)
    (state : option ReservationState) (now : Z) (db : CpuDb) : CpuDb * unit :=
  let hit := ofExecution hostId executionId [res_pending; res_committed] in
  (match state with
   | Some res_released => updateReservations hit (releasedRow now) db
   | Some res_committed =>
       updateReservations hit (fun r => with_reservation r (nullish cpuMillis (hr_cpuMillis r))
         res_committed None (hr_releasedAt r) now) db
   | _ =>
       updateReservations hit (fun r => with_reservation r (nullish cpuMillis (hr_cpuMillis r))
         (hr_state r) (hr_expiresAt r) (hr_releasedAt r) now) db
   end, tt).

Definition syncScenarioRuntimeResourceReservation (executionId hostId : string)
    (cpuMillis : option Z) (state : option ReservationState) (now : Z) : M unit :=
  update (syncStmt executionId hostId cpuMillis state now).

(** * Durable dispatch *)

Definition readNonEmptyString (s : string) : option string := or_null (trim s).

(** The distinct VM names of a run's document, or [None]. *)
Fixpoint projectedNames (vms : list RunVmStateDocument) (seen : list string) : option (list string) :=
  match vms with
  | [] => Some seen
  | vm :: rest =>
      match readNonEmptyString (vm_runtimeVmName vm) with
      | Some name => if str_mem name seen then None else projectedNames rest (seen ++ [name])
      | None => None
      end
  end.

(** The CPU of the desired VMs, when each is projected, listed once and sized. *)
Fixpoint desiredCpu (names : list string) (vms : list DesiredVm) (seen : list string) (cpu : Z)
  : option Z :=
  match vms with
  | [] => Some cpu
  | vm :: rest =>
      let millis := res_cpuMillis (dv_resources vm) in
      if negb (str_mem (dv_vm_name vm) names) || str_mem (dv_vm_name vm) seen
         || negb (safe_integer millis) || (millis <=? 0)
      then None
      else
        let cpu' := fl (cpu + millis) in
        if negb (safe_integer cpu') then None
        else desiredCpu names rest (seen ++ [dv_vm_name vm]) cpu'
  end.

Definition runningVmsOf (runId : string) (d : HostDesiredState) : list DesiredVm :=
  List.filter (fun vm => (dv_run_id vm =s runId) && bool_decide (dv_desired_phase vm = desired_running))
    (ds_vms d).

Definition pendingRunHasDurableDesiredVms (runId : string) (vmCount : Z)
    (stateJson : option RunStateDocument) (cpuMillis : Z) (desired : option HostDesiredState) : bool :=
  match desired with
  | None => false
  | Some d =>
      if vmCount <=? 0 then false
      else
        match stateJson with
        | None => false
        | Some projected =>
            match projectedNames (run_vms projected) [] with
            | None => false
            | Some names =>
                if negb (Z.of_nat (length names) =? vmCount) then false
                else
                  let desiredVms := runningVmsOf runId d in
                  if negb (Z.of_nat (length desiredVms) =? vmCount) then false
                  else match desiredCpu names desiredVms [] 0 with
                       | Some cpu => cpu =? cpuMillis
                       | None => false
                       end
            end
        end
  end.

(** * Failing a run whose admission expired *)

Definition failVm (reason : string) (now : Z) (vm : RunVmStateDocument) : RunVmStateDocument :=
  let pv := vm_provisioning vm in
  mkVm (vm_id vm) (vm_ordinal vm) (vm_scenarioVmId vm) (vm_scenarioVmName vm) (vm_runtimeVmName vm)
    (vm_hostname vm) vm_failed (vm_phaseTitle vm) reason (vm_progressPercent vm)
    term_failed (Some reason) (Some now) (vm_canOpenTerminal vm) (vm_bootProbes vm)
    (vm_scenarioProbes vm) (vm_replayArtifacts vm) (vm_sessionTimeline vm) (vm_hasRecording vm)
    (vm_terminalTarget vm) (vm_runtimeConstraints vm) (vm_resourceState vm)
    (vm_retiredRuntimeGenerations vm) (vm_guestIp vm) (vm_launchSummary vm) (vm_runtimeState vm)
    (vm_runtimeObservedAt vm) (vm_vmCreatedAt vm)
    (mkProvisioning (prov_image pv) (prov_imageKey pv) (prov_imageSha256 pv) (prov_resources pv)
       (prov_leaseDurationSeconds pv) (prov_groupName pv) (prov_groupId pv) (prov_setupKeyId pv)
       prov_failed (Some reason))
    (vm_legacy vm).

(** A document that does not parse is left as it is. *)
Definition failedUndispatchedRunStateJson (stateJson : option RunStateDocument) (reason : string)
    (now : Z) : option RunStateDocument :=
  match stateJson with
  | None => None
  | Some c =>
      Some (recomputeRunState
        (mkRun run_failed (run_phaseTitle c) reason (run_progressPercent c) (run_terminalPhase c)
           (run_canOpenTerminal c) (run_canDestroy c) (run_bootProbes c) (run_scenarioProbes c)
           (run_replayArtifacts c) (run_terminalTarget c) (map (failVm reason now) (run_vms c))
           (run_candidateSource c)))
  end.

Definition expiryReason : string :=
  "Boot admission expired before durable desired-state dispatch completed.".

Inductive Disposition : Type := disp_failed | disp_terminal | disp_durable.

Definition isNone {A} (o : option A) : bool := match o with None => true | Some _ => false end.

Definition desiredOf (hostId : string) (db : CpuDb) : option DesiredRow :=
  List.find (fun r => dr_hostId r =s hostId) (cd_desired db).

(** The document's version is still the one that was read. *)
Definition desiredFence (hostId : string) (read : option DesiredRow) (desired : list DesiredRow) : bool :=
  match read with
  | Some r => existsb (fun x => (dr_hostId x =s hostId) && (dr_version x =? dr_version r)) desired
  | None => true
  end.

Definition failRow (run : RunRow) (now : Z) (r : RunRow) : RunRow :=
  let updatedAt := Z.max now (fl (sr_updatedAt run + 1)) in
  mkRunRow (sr_runId r) (sr_userId r) (sr_organizationId r) (sr_runtimeExecutionId r) (sr_hostId r)
    run_failed (RUN_PHASE_ORDER run_failed)
    (if isNone (sr_deleteRequestedAt run) then None else sr_activeKey run)
    (failedUndispatchedRunStateJson (sr_stateJson run) expiryReason now)
    (coalesce (sr_archiveEnteredAt r) (Some updatedAt)) (sr_deleteRequestedAt r) (sr_solvedAt r)
    (sr_completedAt r) (Some updatedAt) (sr_createdAt r) updatedAt (sr_content r).

Definition failHits (hostId : string) (run : RunRow) (fence : bool) (r : RunRow) : bool :=
  (sr_runId r =s sr_runId run) && (sr_hostId r =s hostId) && (sr_updatedAt r =? sr_updatedAt run)
  && isNone (sr_completedAt r) && isNone (sr_failedAt r) && fence.

(** The mutation and the statements of the projection are one batch. *)
Definition failBatch (hostId runId : string) (run : RunRow) (read : option DesiredRow) (now : Z)
    (db : CpuDb) : CpuDb * result ReconcileError bool :=
  let fence := desiredFence hostId read (cd_desired db) in
  match executeScenarioRunRuntimeProjection runId
          [fun d => Ok (updateRuns (failHits hostId run fence) (failRow run now) d)] mode_update (cd_db db) with
  | Ok (db', changes) => (set_db db db', Ok (0 <? nullish (head changes) 0))
  | Err e => (db, Err (reconcile_store e))
  end.

(** Is the run over, or not this host's? *)
Definition runOver (hostId : string) (run : RunRow) : bool :=
  negb (sr_hostId run =s hostId) || isNone (sr_activeKey run) || negb (isNone (sr_completedAt run))
  || negb (isNone (sr_failedAt run)).

Definition FAIL_ATTEMPTS : nat := 8.

Fixpoint failFrom (hostId runId : string) (cpuMillis now : Z) (left : nat) : M Disposition :=
  match left with
  | O => M_throw (could_not_fence runId)
  | S left' =>
      found <-- query (fun db => (findRun (cd_db db) runId, cd_vmCount db runId));
      match found with
      | (None, _) => M_ret disp_terminal
      | (Some run, vmCount) =>
          if runOver hostId run then M_ret disp_terminal
          else
            desiredRow <-- query (desiredOf hostId);
            if pendingRunHasDurableDesiredVms runId vmCount (sr_stateJson run) cpuMillis
                 (dr_docJson <$> desiredRow)
            then M_ret disp_durable
            else
              updated <-- access (failBatch hostId runId run desiredRow now);
              if (updated : bool) then M_ret disp_failed
              else failFrom hostId runId cpuMillis now left'
      end
  end.

Definition failExpiredUndispatchedRun (hostId runId : string) (cpuMillis now : Z) : M Disposition :=
  failFrom hostId runId cpuMillis now FAIL_ATTEMPTS.

(** * Reconciliation *)

Record Reconciled : Type := mkReconciled {
  rec_committedRunIds : list string;
  rec_expiredRunIds : list string;
  rec_releasedRunIds : list string;
}.

Definition commitDispatched (hostId : string) (run : RunRow) (reservation : CpuReservationRow) (now : Z)
  : M unit :=
  _ <-- commitHostCpuReservation hostId (cr_runId reservation) now;
  syncScenarioRuntimeResourceReservation (nullish (sr_runtimeExecutionId run) (cr_runId reservation))
    hostId (Some (cr_cpuMillis reservation)) (Some res_committed) now.

Definition expired (now : Z) (reservation : CpuReservationRow) : bool :=
  match cr_expiresAt reservation with Some t => t <=? now | None => false end.

(** What becomes of one pending reservation: the desired state to go on with, and
    whether it was committed or expired. *)
Definition reconcilePending (hostId : string) (now : Z) (runs : list RunRow) (vmCounts : string -> Z)
    (desiredRow : option DesiredRow) (reservation : CpuReservationRow)
  : M (option DesiredRow * list string * list string) :=
  let runId := cr_runId reservation in
  let run := List.find (fun r => sr_runId r =s runId) runs in
  let rollback :=
    _ <-- rollbackPendingHostCpuReservation hostId runId now;
    M_ret (desiredRow, [], [runId]) in
  let expire :=
    if expired now reservation then
      match run with
      | Some r =>
          if runOver hostId r then rollback
          else
            disposition <-- failExpiredUndispatchedRun hostId runId (cr_cpuMillis reservation) now;
            match disposition with
            | disp_durable =>
                _ <-- commitDispatched hostId r reservation now;
                reloaded <-- query (desiredOf hostId);
                M_ret (reloaded, [runId], [])
            | _ => rollback
            end
      | None => rollback
      end
    else M_ret (desiredRow, [], []) in
  match run with
  | Some r =>
      if (sr_hostId r =s hostId)
         && pendingRunHasDurableDesiredVms runId (vmCounts runId) (sr_stateJson r)
              (cr_cpuMillis reservation) (dr_docJson <$> desiredRow)
      then
        _ <-- commitDispatched hostId r reservation now;
        M_ret (desiredRow, [runId], [])
      else expire
  | None => expire
  end.

Fixpoint reconcilePendings (hostId : string) (now : Z) (runs : list RunRow) (vmCounts : string -> Z)
    (desiredRow : option DesiredRow) (reservations : list CpuReservationRow)
  : M (list string * list string) :=
  match reservations with
  | [] => M_ret ([], [])
  | r :: rest =>
      if bool_decide (cr_state r = cpu_pending) then
        one <-- reconcilePending hostId now runs vmCounts desiredRow r;
        let '(desiredRow', committed, expired_) := one in
        more <-- reconcilePendings hostId now runs vmCounts desiredRow' rest;
        M_ret (committed ++ fst more, expired_ ++ snd more)
      else reconcilePendings hostId now runs vmCounts desiredRow rest
  end.

Definition terminalOrDeleting (run : option RunRow) : bool :=
  match run with
  | None => true
  | Some r => isNone (sr_activeKey r) || negb (isNone (sr_deleteRequestedAt r))
              || negb (isNone (sr_completedAt r)) || negb (isNone (sr_failedAt r))
  end.

Definition desiredRunning (runId : string) (d : HostDesiredState) : bool :=
  existsb (fun vm => (dv_run_id vm =s runId) && bool_decide (dv_desired_phase vm = desired_running)) (ds_vms d).
Definition actualPresent (runId : string) (report : json) : bool :=
  existsb (fun vm => isText (field vm "run_id") runId && negb (isText (field vm "phase") "absent"))
    (arrayItems (field report "vms")).

(** Teardown is proved: the host applied a document without the run and reports
    none of its VMs. *)
Definition teardownProved (runId : string) (desired : option DesiredRow) (actual : option ActualStateRow) : bool :=
  match desired, actual with
  | Some d, Some a =>
      (ds_version (dr_docJson d) <=? as_appliedDesiredVersion a)
      && negb (desiredRunning runId (dr_docJson d)) && negb (actualPresent runId (as_reportJson a))
  | _, _ => false
  end.

Fixpoint reconcileCommitted (hostId : string) (now : Z) (runs : list RunRow)
    (desired : option DesiredRow) (actual : option ActualStateRow) (reservations : list CpuReservationRow)
  : M (list string) :=
  match reservations with
  | [] => M_ret []
  | r :: rest =>
      if bool_decide (cr_state r = cpu_committed) then
        let run := List.find (fun x => sr_runId x =s cr_runId r) runs in
        let executionId := nullish (x ← run; sr_runtimeExecutionId x) (cr_runId r) in
        if terminalOrDeleting run && teardownProved (cr_runId r) desired actual then
          deleted <-- update (releaseBatch hostId (cr_runId r) executionId now);
          more <-- reconcileCommitted hostId now runs desired actual rest;
          M_ret ((if (deleted : bool) then [cr_runId r] else []) ++ more)
        else
          _ <-- syncScenarioRuntimeResourceReservation executionId hostId (Some (cr_cpuMillis r))
                  (Some res_committed) now;
          reconcileCommitted hostId now runs desired actual rest
      else reconcileCommitted hostId now runs desired actual rest
  end.

Definition reservationsOf (hostId : string) (db : CpuDb) : list CpuReservationRow :=
  List.filter (fun r => cr_hostId r =s hostId) (cd_cpu db).
Definition actualOf (hostId : string) (db : CpuDb) : option ActualStateRow :=
  List.find (fun r => as_hostId r =s hostId) (cd_actual db).

Definition reconcileHostCpuReservations (hostId : string) (now : Z) : M Reconciled :=
  reservations <-- query (reservationsOf hostId);
  match reservations with
  | [] => M_ret (mkReconciled [] [] [])
  | _ =>
      read <-- query (fun db =>
        (List.filter (fun r => str_mem (sr_runId r) (map cr_runId reservations)) (db_runs (cd_db db)),
         cd_vmCount db));
      let '(runs, vmCounts) := read in
      desiredRow <-- query (desiredOf hostId);
      pendings <-- reconcilePendings hostId now runs vmCounts desiredRow reservations;
      desired <-- query (desiredOf hostId);
      actual <-- query (actualOf hostId);
      reconciled <-- query (reservationsOf hostId);
      released <-- reconcileCommitted hostId now runs desired actual reconciled;
      M_ret (mkReconciled (fst pendings) (snd pendings) released)
  end.
End handlers.

(** * Reads and admission *)

Definition nextPendingHostCpuReservationExpiry (hostId : string) (db : CpuDb) : option Z :=
  head (js_sort Z.leb (omap cr_expiresAt
    (List.filter (fun r => (cr_hostId r =s hostId) && bool_decide (cr_state r = cpu_pending)) (cd_cpu db)))).

Definition capacityRow (r : CpuReservationRow) : HostCpuReservationCapacityRow :=
  mkCapacityRow (cr_runId r) (cr_cpuMillis r) (cr_state r).

Definition loadHostCpuReservationCapacity (hostId : string) (db : CpuDb)
  : option HostCpuReservationCapacity :=
  hostCpuReservationCapacityFromSnapshot (as_reportJson <$> actualOf hostId db)
    (map capacityRow (reservationsOf hostId db)).

(** The insertion that admits a run, under the version of the host's document;
    the run is the primary key, and the CPU must be positive. *)
Inductive CpuConstraint : Type :=
| uq_host_cpu_reservations
| ck_host_cpu_reservations_cpu_positive
| uq_resource_reservations
| nn_resource_reservations_execution_id
| ck_resource_reservations_positive.

Definition insertCpuReservation (row : CpuReservationRow) (db : CpuDb) : result CpuConstraint CpuDb :=
  throw_if cr_cpuMillis row <=? 0 with ck_host_cpu_reservations_cpu_positive;
  throw_if existsb (fun r => cr_runId r =s cr_runId row) (cd_cpu db) with uq_host_cpu_reservations;
  Ok (set_cpu db (cd_cpu db ++ [row])).

Definition admissionCpuQuotaStatement (runId userId hostId : string) (cpuMillis desiredVersion now : Z)
    (db : CpuDb) : result CpuConstraint CpuDb :=
  match List.find (fun r => (sr_runId r =s runId) && (sr_userId r =s userId) && (sr_hostId r =s hostId)
          && existsb (fun d => (dr_hostId d =s sr_hostId r) && (dr_version d =? desiredVersion)) (cd_desired db))
        (db_runs (cd_db db)) with
  | Some r => insertCpuReservation
      (mkCpuReservation (sr_runId r) (sr_hostId r) cpuMillis cpu_committed None now now) db
  | None => Ok db
  end.

Definition admissionResourceReservationStatement (runId hostId : string) (resources : RuntimeResourceDemand)
    (expiresAt : option Z) (now : Z) (db : CpuDb) : result CpuConstraint CpuDb :=
  match List.find (fun r => (sr_runId r =s runId) && (sr_hostId r =s hostId)
          && bool_decide (sr_state r = run_provisioning)) (db_runs (cd_db db)) with
  | None => Ok db
  | Some r =>
      match sr_runtimeExecutionId r with
      | None => Err nn_resource_reservations_execution_id
      | Some executionId =>
          throw_if (dm_cpuMillis resources <=? 0) || (dm_memoryMib resources <=? 0)
                   || (dm_worstCaseDiskMib resources <=? 0) with ck_resource_reservations_positive;
          match insertReservation (mkReservation executionId (sr_hostId r) (dm_cpuMillis resources)
                  (dm_memoryMib resources) (dm_worstCaseDiskMib resources) res_pending expiresAt None now now)
                  (cd_db db) with
          | Ok d => Ok (set_db db d)
          | Err _ => Err uq_resource_reservations
          end
      end
  end.

(** * Lemmas: computations that nobody interrupts *)

(** Nothing else runs: the host's lock is held and no other request writes. *)
Definition quietly (n : nat) (db : CpuDb) : CpuDb := db.

(** What a computation guarantees of the store when it returns. *)
Definition ensures {A} (m : M A) (Q : CpuDb -> A -> CpuDb -> Prop) : Prop :=
  forall w w' a, m w = (w', Ok a) -> Q (w_db w) a (w_db w').

(** One access later. *)
Definition after (w : World) (db : CpuDb) : World := mkWorld db (S (w_accesses w)).

Lemma bind_query {A B} (f : CpuDb -> A) (k : A -> M B) w :
  M_bind (query quietly f) k w = k (f (w_db w)) (after w (w_db w)).
Proof. done. Qed.

Lemma bind_update {A B} (f : CpuDb -> CpuDb * A) (k : A -> M B) w :
  M_bind (update quietly f) k w = k (snd (f (w_db w))) (after w (fst (f (w_db w)))).
Proof. unfold M_bind, update, access, quietly. by destruct (f (w_db w)). Qed.

Lemma bind_ok {A B} (m : M A) (k : A -> M B) w w' b :
  M_bind m k w = (w', Ok b) -> exists w1 a, m w = (w1, Ok a) /\ k a w1 = (w', Ok b).
Proof. unfold M_bind. destruct (m w) as [w1 [a|e]]; [|done]. eauto. Qed.

Lemma access_ok {A} (f : CpuDb -> CpuDb * result ReconcileError A) w w' a :
  access quietly f w = (w', Ok a) -> f (w_db w) = (w_db w', Ok a).
Proof. unfold access, quietly. destruct (f (w_db w)) as [db' r]. by intros [= <- ->]. Qed.

Lemma update_ok {A} (f : CpuDb -> CpuDb * A) w w' a :
  update quietly f w = (w', Ok a) -> f (w_db w) = (w_db w', a).
Proof. unfold update, access, quietly. destruct (f (w_db w)). by intros [= <- <-]. Qed.

(** * Lemmas: failing runs *)

Section quiet.
Variable hostId : string.

(** The run is gone, over, or not this host's. *)
Definition settled (id : string) (db : CpuDb) : Prop :=
  match findRun (cd_db db) id with None => True | Some r => runOver hostId r = true end.

(** What reconciliation leaves alone outside the reservations: the hosts'
    documents, and runs that are over stay over. *)
Record kept (db db' : CpuDb) : Prop := mk_kept {
  kept_desired : cd_desired db' = cd_desired db;
  kept_actual : cd_actual db' = cd_actual db;
  kept_vmCount : cd_vmCount db' = cd_vmCount db;
  kept_settled : forall id, settled id db -> settled id db';
}.

#[export] Instance kept_preorder : PreOrder kept.
Proof.
  split; [intros db; constructor; auto|]. intros a b c [] []. constructor; try congruence. auto.
Qed.

Lemma findRun_update id p f db hosts :
  (forall r, sr_runId (f r) = sr_runId r) -> db_runs hosts = update_where p f (db_runs db) ->
  findRun hosts id = (fun r => if p r then f r else r) <$> findRun db id.
Proof.
  intros Hf E. unfold findRun. rewrite E. clear E. unfold update_where.
  induction (db_runs db) as [|r rows IH]; cbn; [done|].
  assert (sr_runId (if p r then f r else r) = sr_runId r) as -> by (destruct (p r); auto).
  by destruct (sr_runId r =s id).
Qed.

Lemma failRow_over run now r : runOver hostId (failRow run now r) = true.
Proof. unfold runOver. cbn. by rewrite !orb_true_r. Qed.

Lemma failBatch_quiet runId run read now db db' a :
  failBatch hostId runId run read now db = (db', Ok a) ->
  findRun (cd_db db) runId = Some run -> runOver hostId run = false ->
  cd_cpu db' = cd_cpu db /\ kept db db' /\ (a = true -> settled runId db').
Proof.
  unfold failBatch. intros E Hrun Hover.
  destruct (executeScenarioRunRuntimeProjection _ _ _ _) as [[d ch]|] eqn:Ex; [|done].
  apply (projected_update runId (fun _ => failHits hostId run (desiredFence hostId read (cd_desired db)))) in Ex
    as [Hruns Hch]. rewrite Hch in E. cbn in E. simplify_eq. cbn.
  assert (Hfind : forall id, findRun d id = (fun r => if failHits hostId run (desiredFence hostId read (cd_desired db)) r
    then failRow run now r else r) <$> findRun (cd_db db) id) by (intros id; by apply findRun_update).
  split; [done|]. split.
  - constructor; try done. intros id. unfold settled. cbn. rewrite Hfind.
    destruct (findRun (cd_db db) id); cbn; [|done]. destruct (failHits _ _ _ _); [by rewrite failRow_over|done].
  - intros Hcount. unfold settled. cbn. rewrite Hfind, Hrun. cbn.
    assert (failHits hostId run (desiredFence hostId read (cd_desired db)) run = true) as ->; [|apply failRow_over].
    apply Z.ltb_lt in Hcount. unfold count_where in Hcount.
    destruct (List.filter _ _) as [|x l] eqn:Ef; [done|].
    assert (Hx : In x (List.filter (failHits hostId run (desiredFence hostId read (cd_desired db)))
      (db_runs (cd_db db)))) by (rewrite Ef; by left).
    apply filter_In in Hx as [_ Hx]. unfold failHits in *. unfold runOver in Hover. reflect_bools.
    rewrite String.eqb_refl, Z.eqb_refl. split_andb; try done;
      first [by apply String.eqb_eq | by destruct (sr_completedAt run) | by destruct (sr_failedAt run)].
Qed.

Definition unlessDurable (d : Disposition) (P : Prop) : Prop :=
  match d with disp_durable => True | _ => P end.

Lemma failFrom_quiet runId cpu now left :
  ensures (failFrom quietly hostId runId cpu now left)
    (fun db d db' => cd_cpu db' = cd_cpu db /\ kept db db' /\ unlessDurable d (settled runId db')).
Proof.
  induction left as [|left IH]; intros w w' d; cbn [failFrom]; [done|]. rewrite bind_query.
  destruct (findRun (cd_db (w_db w)) runId) as [run|] eqn:Hrun.
  2: { intros [= <- <-]. cbn. unfold settled. rewrite Hrun. done. }
  destruct (runOver hostId run) eqn:Eo.
  { intros [= <- <-]. cbn. unfold settled. by rewrite Hrun. }
  rewrite bind_query. destruct (pendingRunHasDurableDesiredVms _ _ _ _ _); [by intros [= <- <-]|].
  intros (w1 & a & Hacc & Hk)%bind_ok. apply access_ok in Hacc. cbn [after w_db] in Hacc.
  destruct (failBatch_quiet _ _ _ _ _ _ _ Hacc Hrun Eo) as (Hc & Hkept & Hs).
  destruct a.
  - injection Hk as <- <-. cbn. auto.
  - apply IH in Hk as (Hc' & Hkept' & Hd). split; [congruence|]. split; [|done]. by transitivity (w_db w1).
Qed.

(** * Lemmas: the fate of reservations *)

Variable now : Z.

(** What becomes of a reservation, in terms of the store afterwards: it stays, is
    committed, or goes because it expired unused and its run is settled, or because
    [released] holds of its run. *)
Definition fateOk (released : string -> Prop) (db' : CpuDb) (r : CpuReservationRow)
    (o : option CpuReservationRow) : Prop :=
  match o with
  | Some r' => r' = r \/ (cr_hostId r = hostId /\ r' = committedRow now r)
  | None => cr_hostId r = hostId /\
            ((cr_state r = cpu_pending /\ expired now r = true /\ settled (cr_runId r) db') \/
             released (cr_runId r))
  end.

(** Every reservation has such a fate, and the rest of the store is kept. *)
Definition fated (released : string -> Prop) (db db' : CpuDb) : Prop :=
  kept db db' /\
  exists fate, cd_cpu db' = omap fate (cd_cpu db) /\ forall r, In r (cd_cpu db) -> fateOk released db' r (fate r).

Lemma omap_all {A} (l : list A) : omap Some l = l.
Proof. induction l as [|x l IH]; cbn; [done|]. by f_equal. Qed.

Lemma kept_fated P db db' : kept db db' -> cd_cpu db' = cd_cpu db -> fated P db db'.
Proof. intros Hk E. split; [done|]. exists Some. split; [by rewrite omap_all|by left]. Qed.

Lemma omap_In {A} (f : A -> option A) (l : list A) y : In y (omap f l) <-> exists x, In x l /\ f x = Some y.
Proof.
  rewrite <- list_elem_of_In, list_elem_of_omap. setoid_rewrite list_elem_of_In. done.
Qed.

Lemma omap_compose {A} (f g : A -> option A) (l : list A) : omap g (omap f l) = omap (fun x => f x ≫= g) l.
Proof.
  induction l as [|x l IH]; cbn; [done|]. destruct (f x) as [y|]; cbn; [|done].
  by destruct (g y); cbn; rewrite IH.
Qed.

Lemma fated_trans P db db1 db2 : fated P db db1 -> fated P db1 db2 -> fated P db db2.
Proof.
  intros (Hk1 & f & Ef & Hf) (Hk2 & g & Eg & Hg). split; [by transitivity db1|].
  exists (fun r => f r ≫= g). split; [by rewrite Eg, Ef, omap_compose|].
  intros r Hr. specialize (Hf r Hr). destruct (f r) as [r1|] eqn:E1; cbn [mbind option_bind].
  - assert (Hr1 : In r1 (cd_cpu db1)) by (rewrite Ef; apply omap_In; eauto).
    specialize (Hg r1 Hr1). destruct Hf as [->|[Hh ->]]; [exact Hg|].
    destruct (g (committedRow now r)) as [r2|]; cbn in *.
    + right. split; [done|]. by destruct Hg as [->|[_ ->]].
    + split; [done|]. destruct Hg as (_ & [(? & _)|?]); [done|by right].
  - cbn in *. destruct Hf as (Hh & [(? & ? & Hs)|?]); (split; [done|]); [left|by right].
    split; [done|]. split; [done|]. by apply (kept_settled _ _ Hk2).
Qed.

(** A reservation that was read is the pending one of its run, if there still is
    one. *)
Definition current (reservation : CpuReservationRow) (db : CpuDb) : Prop :=
  forall r, In r (cd_cpu db) -> cr_runId r = cr_runId reservation -> cr_state r = cpu_pending -> r = reservation.

Lemma fated_In P db db' r' :
  fated P db db' -> In r' (cd_cpu db') ->
  exists r, In r (cd_cpu db) /\ (r' = r \/ (cr_hostId r = hostId /\ r' = committedRow now r)).
Proof.
  intros (_ & f & Ef & Hf) Hr. rewrite Ef in Hr. apply omap_In in Hr as (r & Hr & E).
  exists r. split; [done|]. specialize (Hf r Hr). by rewrite E in Hf.
Qed.

Lemma fated_pending P db db' r :
  fated P db db' -> In r (cd_cpu db') -> cr_state r = cpu_pending -> In r (cd_cpu db).
Proof. intros Hf Hr Hp. by destruct (fated_In _ _ _ _ Hf Hr) as (x & Hx & [->|[_ ->]]). Qed.

Lemma fated_current P db db' x : fated P db db' -> current x db -> current x db'.
Proof. intros Hf Hc r Hr He Hp. apply Hc; [by eapply fated_pending|done|done]. Qed.

Lemma omap_update {A} (p : A -> bool) f (l : list A) :
  update_where p f l = omap (fun r => Some (if p r then f r else r)) l.
Proof. induction l as [|x l IH]; cbn; [done|]. by f_equal. Qed.

Lemma omap_delete {A} (p : A -> bool) (l : list A) :
  delete_where p l = omap (fun r => if p r then None else Some r) l.
Proof.
  unfold delete_where. induction l as [|x l IH]; cbn; [done|]. by destruct (p x); cbn; rewrite IH.
Qed.

(** A store with the same runs and documents is kept. *)
Lemma kept_same db db' :
  cd_desired db' = cd_desired db -> cd_actual db' = cd_actual db -> cd_vmCount db' = cd_vmCount db ->
  db_runs (cd_db db') = db_runs (cd_db db) -> kept db db'.
Proof. intros ? ? ? Hr. constructor; try done. intros id. unfold settled, findRun. by rewrite Hr. Qed.

Lemma sync_fated P executionId cpu state db : fated P db (fst (syncStmt executionId hostId cpu state now db)).
Proof. apply kept_fated; [apply kept_same|]; by destruct state as [[]|]. Qed.

Lemma ofRun_host runId r : ofRun hostId runId r = true -> cr_hostId r = hostId /\ cr_runId r = runId.
Proof. unfold ofRun. intros H. reflect_bools. done. Qed.

Lemma commit_fated P runId db : fated P db (fst (commitStmt hostId runId now db)).
Proof.
  split; [by apply kept_same|]. eexists. split; [apply omap_update|]. intros r _. cbn.
  destruct (ofRun hostId runId r) eqn:E; [|by left]. right. split; [|done]. by apply ofRun_host in E as [? _].
Qed.

Lemma rollback_fated P runId reservation db :
  cr_runId reservation = runId -> current reservation db -> expired now reservation = true -> settled runId db ->
  fated P db (fst (rollbackBatch hostId runId now db)).
Proof.
  intros <- Hc He Hs. assert (Hk : kept db (fst (rollbackBatch hostId (cr_runId reservation) now db)))
    by by apply kept_same.
  split; [done|]. eexists. split; [apply omap_delete|]. intros r Hr. cbn -[rollbackBatch].
  destruct (pendingOf hostId (cr_runId reservation) r) eqn:E; cbn -[rollbackBatch]; [|by left].
  unfold pendingOf in E. reflect_bools.
  match goal with H : ofRun _ _ _ = true |- _ => apply ofRun_host in H as [Hh Hid] end.
  match goal with H : bool_decide _ = true |- _ => apply bool_decide_eq_true in H as Hp end.
  split; [done|]. left. rewrite (Hc r Hr Hid Hp). split; [by rewrite <- (Hc r Hr Hid Hp)|]. split; [done|].
  by apply (kept_settled _ _ Hk).
Qed.

Lemma release_fated (P : string -> Prop) runId executionId db :
  P runId -> fated P db (fst (releaseBatch hostId runId executionId now db)).
Proof.
  intros HP. split; [by apply kept_same|]. eexists. split; [apply omap_delete|]. intros r _. cbn -[releaseBatch].
  destruct (committedOf hostId runId r) eqn:E; cbn -[releaseBatch]; [|by left].
  unfold committedOf in E. reflect_bools.
  match goal with H : ofRun _ _ _ = true |- _ => apply ofRun_host in H as [Hh Hid] end.
  split; [done|]. right. by rewrite Hid.
Qed.

(** * Lemmas: the loops *)

Lemma commitDispatched_quiet P run reservation w w' u :
  cr_hostId reservation = hostId -> cr_state reservation = cpu_pending ->
  commitDispatched quietly hostId run reservation now w = (w', Ok u) ->
  fated P (w_db w) (w_db w') /\ ~ In reservation (cd_cpu (w_db w')).
Proof.
  intros Hh Hp. unfold commitDispatched, commitHostCpuReservation. rewrite bind_update.
  intros Hs. apply update_ok in Hs. cbn [after w_db] in Hs.
  set (db1 := fst (commitStmt hostId (cr_runId reservation) now (w_db w))) in *.
  assert (E : w_db w' = fst (syncStmt (nullish (sr_runtimeExecutionId run) (cr_runId reservation)) hostId
    (Some (cr_cpuMillis reservation)) (Some res_committed) now db1)) by by rewrite Hs.
  split.
  - rewrite E. apply (fated_trans _ _ db1); [apply commit_fated|apply sync_fated].
  - rewrite E. cbn. unfold update_where. intros (r & Er & _)%in_map_iff.
    destruct (ofRun hostId (cr_runId reservation) r) eqn:Eo; [by subst reservation|].
    subst r. unfold ofRun in Eo. by rewrite Hh, !String.eqb_refl in Eo.
Qed.

Lemma rollback_gone reservation db :
  cr_hostId reservation = hostId -> cr_state reservation = cpu_pending ->
  ~ In reservation (cd_cpu (fst (rollbackBatch hostId (cr_runId reservation) now db))).
Proof.
  intros Hh Hp. cbn. unfold delete_where. rewrite filter_In. unfold pendingOf, ofRun.
  rewrite Hh, Hp, !String.eqb_refl. intros [_ ?]. done.
Qed.

(** The run as it was read, or is now, when it is over. *)
Definition snapshotOk (runs : list RunRow) (id : string) (db : CpuDb) : Prop :=
  match List.find (fun r => sr_runId r =s id) runs with
  | Some r => runOver hostId r = true -> settled id db
  | None => settled id db
  end.

Lemma snapshot_kept runs id db db' : kept db db' -> snapshotOk runs id db -> snapshotOk runs id db'.
Proof.
  intros Hk. unfold snapshotOk. destruct (List.find _ _); [intros H Ho|]; intros;
    apply (kept_settled _ _ Hk); auto.
Qed.

(** What the handling of one pending reservation achieves. *)
Definition handled (P : string -> Prop) (reservation : CpuReservationRow) (db db' : CpuDb) : Prop :=
  fated P db db' /\ (In reservation (cd_cpu db') -> expired now reservation = false).

Lemma rollback_handled P reservation w :
  cr_hostId reservation = hostId -> cr_state reservation = cpu_pending -> current reservation (w_db w) ->
  expired now reservation = true -> settled (cr_runId reservation) (w_db w) ->
  handled P reservation (w_db w) (fst (rollbackBatch hostId (cr_runId reservation) now (w_db w))).
Proof.
  intros Hh Hp Hc He Hs. split; [by eapply rollback_fated|]. intros Hin. by apply rollback_gone in Hin.
Qed.

Lemma reconcilePending_quiet P runs vmCounts desiredRow reservation w w' out :
  cr_hostId reservation = hostId -> cr_state reservation = cpu_pending ->
  current reservation (w_db w) -> snapshotOk runs (cr_runId reservation) (w_db w) ->
  reconcilePending quietly hostId now runs vmCounts desiredRow reservation w = (w', Ok out) ->
  handled P reservation (w_db w) (w_db w').
Proof.
  intros Hh Hp Hc Hsnap. unfold reconcilePending. cbv zeta. unfold snapshotOk in Hsnap.
  assert (Hcommit : forall run w1 w2 x, commitDispatched quietly hostId run reservation now w1 = (w2, Ok x) ->
    fated P (w_db w) (w_db w1) -> handled P reservation (w_db w) (w_db w2)).
  { intros run w1 w2 x Hx Hf. apply (commitDispatched_quiet P) in Hx as [Hf2 Hno]; [|done..].
    split; [by eapply fated_trans|done]. }
  assert (Hrollback : forall d w1, expired now reservation = true -> settled (cr_runId reservation) (w_db w1) ->
    fated P (w_db w) (w_db w1) ->
    M_bind (rollbackPendingHostCpuReservation quietly hostId (cr_runId reservation) now)
      (fun _ => M_ret (d, [], [cr_runId reservation])) w1 = (w', Ok out) -> handled P reservation (w_db w) (w_db w')).
  { intros d w1 He Hs Hf. unfold rollbackPendingHostCpuReservation. rewrite bind_update. intros [= <- _]. cbn [after w_db].
    destruct (rollback_handled P reservation w1) as [Hf2 Hno]; try done; [by eapply fated_current|].
    split; [by eapply fated_trans|done]. }
  assert (Hself : fated P (w_db w) (w_db w)) by (apply kept_fated; reflexivity).
  destruct (List.find (fun r => sr_runId r =s cr_runId reservation) runs) as [run|].
  2: { destruct (expired now reservation) eqn:He; [by apply Hrollback|]. intros [= <- _]. by split. }
  destruct (_ && pendingRunHasDurableDesiredVms _ _ _ _ _).
  { intros (w1 & x & Hx & Hk)%bind_ok. injection Hk as <- _. by eapply Hcommit. }
  destruct (expired now reservation) eqn:He; [|intros [= <- _]; by split].
  destruct (runOver hostId run); [by apply Hrollback; auto|].
  intros (w1 & d & Hd & Hk)%bind_ok. apply failFrom_quiet in Hd as (Hcpu & Hkept & Hs).
  assert (Hf : fated P (w_db w) (w_db w1)) by by apply kept_fated.
  destruct d; cbn in Hs; try by eapply Hrollback.
  apply bind_ok in Hk as (w2 & x & Hx & Hk). rewrite bind_query in Hk. injection Hk as <- _.
  exact (Hcommit _ _ _ _ Hx Hf).
Qed.

Lemma reconcilePendings_quiet P runs vmCounts reservations desiredRow w w' out :
  Forall (fun r => cr_hostId r = hostId /\ current r (w_db w) /\ snapshotOk runs (cr_runId r) (w_db w)) reservations ->
  reconcilePendings quietly hostId now runs vmCounts desiredRow reservations w = (w', Ok out) ->
  fated P (w_db w) (w_db w') /\
  forall r, In r reservations -> cr_state r = cpu_pending -> In r (cd_cpu (w_db w')) -> expired now r = false.
Proof.
  revert desiredRow w out. induction reservations as [|r rest IH]; intros desiredRow w out Hall; cbn [reconcilePendings].
  { intros [= <- _]. split; [apply kept_fated; reflexivity|done]. }
  apply Forall_cons in Hall as [(Hh & Hc & Hs) Hall]. case_bool_decide as Hp.
  - intros (w1 & [[d1 c1] e1] & H1 & Hk)%bind_ok. apply bind_ok in Hk as (w2 & more & H2 & Hk). injection Hk as <- _.
    apply (reconcilePending_quiet P) in H1 as [Hf1 Hr]; [|done..].
    assert (Hall1 : Forall (fun r => cr_hostId r = hostId /\ current r (w_db w1) /\ snapshotOk runs (cr_runId r) (w_db w1)) rest).
    { eapply Forall_impl; [exact Hall|]. intros x (Hxh & Hxc & Hxs). split; [done|].
      split; [by eapply fated_current|]. eapply snapshot_kept; [apply Hf1|done]. }
    destruct (IH _ _ _ Hall1 H2) as [Hf2 Hrest]. split; [by eapply fated_trans|].
    intros x [<-|Hx] Hxp Hin; [|by apply Hrest]. by apply Hr; eapply fated_pending.
  - intros H1. destruct (IH _ _ _ Hall H1) as [Hf Hrest]. split; [done|].
    intros x [<-|Hx] Hxp Hin; [done|by apply Hrest].
Qed.

Lemma reconcileCommitted_quiet runs desired actual reservations w w' out :
  let P id := terminalOrDeleting (List.find (fun x => sr_runId x =s id) runs) = true /\
              teardownProved id desired actual = true in
  reconcileCommitted quietly hostId now runs desired actual reservations w = (w', Ok out) ->
  fated P (w_db w) (w_db w').
Proof.
  intros P. revert w out. induction reservations as [|r rest IH]; intros w out; cbn [reconcileCommitted].
  { intros [= <- _]. apply kept_fated; reflexivity. }
  case_bool_decide as Hc; [|by apply IH]. destruct (_ && _) eqn:E.
  - rewrite bind_update. intros (w1 & more & H1 & Hk)%bind_ok. injection Hk as <- _.
    apply andb_true_iff in E. eapply fated_trans; [|by eapply IH]. by apply release_fated.
  - unfold syncScenarioRuntimeResourceReservation. rewrite bind_update. intros H1.
    eapply fated_trans; [|by eapply IH]. apply sync_fated.
Qed.
End quiet.

(** * Reconciliation *)

Lemma find_filter {A} (p q : A -> bool) l :
  (forall x, p x = true -> q x = true) -> List.find p (List.filter q l) = List.find p l.
Proof.
  intros H. induction l as [|x l IH]; cbn; [done|]. destruct (q x) eqn:Eq; cbn; [by rewrite IH|].
  destruct (p x) eqn:Ep; [|done]. apply H in Ep. congruence.
Qed.

(** The runs read for a list of reservations include theirs. *)
Lemma snapshot_find (ids : list string) id db :
  In id ids ->
  List.find (fun r => sr_runId r =s id) (List.filter (fun r => str_mem (sr_runId r) ids) (db_runs db))
  = findRun db id.
Proof.
  intros Hid. apply find_filter. intros x Hx. apply String.eqb_eq in Hx. rewrite Hx. by apply str_mem_In.
Qed.

(** Every reservation that was read is current, and its run as read. *)
Lemma reservations_read hostId db :
  NoDup (map cr_runId (cd_cpu db)) ->
  Forall (fun r => cr_hostId r = hostId /\ current r db /\
    snapshotOk hostId (List.filter (fun x => str_mem (sr_runId x) (map cr_runId (reservationsOf hostId db)))
      (db_runs (cd_db db))) (cr_runId r) db) (reservationsOf hostId db).
Proof.
  intros Hunique. apply Forall_forall. intros r Hr%list_elem_of_In.
  assert (Hid : In (cr_runId r) (map cr_runId (reservationsOf hostId db))) by by apply in_map.
  apply filter_In in Hr as [Hr Hh]. apply String.eqb_eq in Hh. split; [done|]. split.
  - intros x Hx Heq _. by apply (NoDup_map_inj cr_runId (cd_cpu db)).
  - unfold snapshotOk. rewrite snapshot_find by done. unfold settled.
    destruct (findRun (cd_db db) (cr_runId r)) eqn:Ef; by rewrite ?Ef.
Qed.

(** When a reservation may be released: its run is over or being deleted, and the
    host has applied a document without it and reports none of its VMs. *)
Definition releasable (hostId : string) (db : CpuDb) (id : string) : Prop :=
  terminalOrDeleting (findRun (cd_db db) id) = true /\
  teardownProved id (desiredOf hostId db) (actualOf hostId db) = true.

Lemma fated_weaken hostId now (P Q : string -> Prop) db db' :
  (forall r, In r (cd_cpu db) -> cr_hostId r = hostId -> P (cr_runId r) -> Q (cr_runId r)) ->
  fated hostId now P db db' -> fated hostId now Q db db'.
Proof.
  intros HPQ (Hk & f & E & Hf). split; [done|]. exists f. split; [done|]. intros r Hr. specialize (Hf r Hr).
  unfold fateOk in *. destruct (f r); [done|]. destruct Hf as (Hh & [Hs|HP]); (split; [done|]); [by left|].
  right. by apply HPQ.
Qed.

(** Reconciling a host's CPU reservations, with the host's lock held and no
    other request writing, leaves no expired pending reservation, and decides the
    fate of every reservation soundly: it stays as it is, becomes committed with
    the CPU it had, or goes, and it goes only if it belongs to this host and
    either was pending and expired with its run afterwards failed, over or gone,
    or its run is over or being deleted and the host has applied a document
    without it and reports none of its VMs. *)
Theorem reconciliation_settles_reservations hostId now w w' res
    (Hunique : NoDup (map cr_runId (cd_cpu (w_db w))))
    (Hres : reconcileHostCpuReservations quietly hostId now w = (w', Ok res)) :
  (forall r, In r (cd_cpu (w_db w')) -> cr_hostId r = hostId -> cr_state r = cpu_pending ->
   expired now r = false) /\
  exists fate, cd_cpu (w_db w') = omap fate (cd_cpu (w_db w)) /\
    forall r, In r (cd_cpu (w_db w)) ->
    fateOk hostId now (releasable hostId (w_db w)) (w_db w') r (fate r).
Proof.
  enough (fated hostId now (releasable hostId (w_db w)) (w_db w) (w_db w') /\
    (forall r, In r (reservationsOf hostId (w_db w)) -> cr_state r = cpu_pending -> In r (cd_cpu (w_db w')) ->
     expired now r = false)) as [Hf He].
  { split; [|apply Hf]. intros r Hin Hh Hp. apply He; [|done..]. unfold reservationsOf. apply filter_In.
    split; [by eapply fated_pending|by apply String.eqb_eq]. }
  unfold reconcileHostCpuReservations in Hres. rewrite bind_query in Hres.
  destruct (reservationsOf hostId (w_db w)) as [|r0 rest] eqn:Er.
  { injection Hres as <- _. split; [apply kept_fated; reflexivity|done]. }
  rewrite <- Er in *. clear r0 rest Er. rewrite !bind_query in Hres. cbn [after w_db] in Hres.
  set (ids := map cr_runId (reservationsOf hostId (w_db w))) in *.
  set (runs := List.filter (fun r => str_mem (sr_runId r) ids) (db_runs (cd_db (w_db w)))) in *.
  apply bind_ok in Hres as (w1 & pend & H1 & Hres). rewrite !bind_query in Hres. cbn [after w_db] in Hres.
  apply bind_ok in Hres as (w2 & rel & H2 & Hres). injection Hres as <- _.
  assert (Hids : forall r, In r (cd_cpu (w_db w)) -> cr_hostId r = hostId ->
    List.find (fun x => sr_runId x =s cr_runId r) runs = findRun (cd_db (w_db w)) (cr_runId r)).
  { intros r Hr Hh. apply snapshot_find, in_map, filter_In. split; [done|by apply String.eqb_eq]. }
  apply (reconcilePendings_quiet hostId now (releasable hostId (w_db w))) in H1 as [Hf1 He].
  2: by apply reservations_read.
  cbn [after w_db] in Hf1.
  apply (reconcileCommitted_quiet hostId now) in H2. cbn [after w_db] in H2.
  pose proof Hf1 as [[Hkd Hka Hkv _] _].
  assert (Hf2 : fated hostId now (releasable hostId (w_db w)) (w_db w1) (w_db w2)).
  { eapply fated_weaken; [|exact H2]. intros r Hr Hh [Ht Hp].
    destruct (fated_In _ _ _ _ _ _ Hf1 Hr) as (x & Hx & Hrx).
    assert (Hsame : cr_runId r = cr_runId x /\ cr_hostId x = hostId) by (by destruct Hrx as [->|[? ->]]).
    destruct Hsame as [Hid Hxh]. rewrite Hid in *. rewrite Hids in Ht by done.
    unfold desiredOf, actualOf in Hp. rewrite Hkd, Hka in Hp. by split. }
  split; [by eapply fated_trans|]. intros r Hr Hp Hin. apply He; [done|done|].
  by eapply fated_pending.
Qed.

(** * Failing a run while others write *)

(** What a run keeps of the host's document: its running VMs, each one projected,
    listed once, with the CPU of the reservation in all. *)
Definition durablyDispatched (hostId runId : string) (cpuMillis : Z) (db : CpuDb) (run : RunRow) : bool :=
  pendingRunHasDurableDesiredVms runId (cd_vmCount db runId) (sr_stateJson run) cpuMillis
    (dr_docJson <$> desiredOf hostId db).

(** What others do between the accesses: a host keeps one document, which is kept or
    gets a higher version, and the VM count of a run never changes. *)
Record versionedDocuments (hostId : string) (interleave : nat -> CpuDb -> CpuDb) : Prop := mk_versionedDocuments {
  vd_unique : forall n db, NoDup (map dr_hostId (cd_desired db)) -> NoDup (map dr_hostId (cd_desired (interleave n db)));
  vd_version : forall n db d, desiredOf hostId db = Some d -> exists d', desiredOf hostId (interleave n db) = Some d' /\
    (dr_version d < dr_version d' \/ d' = d);
  vd_vmCount : forall n db, cd_vmCount (interleave n db) = cd_vmCount db;
}.

Lemma projectedNames_map f vms seen :
  (forall vm, vm_runtimeVmName (f vm) = vm_runtimeVmName vm) -> projectedNames (map f vms) seen = projectedNames vms seen.
Proof.
  intros Hf. revert seen. induction vms as [|vm vms IH]; intros seen; [done|]. cbn [map projectedNames].
  rewrite Hf. destruct (readNonEmptyString _); [|done]. by destruct (str_mem _ _).
Qed.

(** A failed document names the VMs of the run it was made from. *)
Lemma failed_dispatch runId vmCount state reason now cpuMillis desired :
  pendingRunHasDurableDesiredVms runId vmCount (failedUndispatchedRunStateJson state reason now) cpuMillis desired =
  pendingRunHasDurableDesiredVms runId vmCount state cpuMillis desired.
Proof.
  unfold pendingRunHasDurableDesiredVms, failedUndispatchedRunStateJson. destruct desired as [d|]; [|done].
  destruct (vmCount <=? 0); [done|]. destruct state as [c|]; [|done].
  rewrite recompute_vms. cbn [run_vms]. by rewrite !projectedNames_map.
Qed.

Lemma desired_fenced hostId read db d :
  NoDup (map dr_hostId (cd_desired db)) -> desiredOf hostId db = Some d ->
  desiredFence hostId (Some read) (cd_desired db) = true -> dr_version d = dr_version read.
Proof.
  intros Hn Hd (x & Hx & Heq)%existsb_exists. apply andb_true_iff in Heq as [Hh%String.eqb_eq Hv%Z.eqb_eq].
  apply find_some in Hd as [Hin Hdh%String.eqb_eq].
  by rewrite <- (NoDup_map_inj dr_hostId (cd_desired db) x d Hn Hx Hin) by congruence.
Qed.

Section interfered.
Variable interleave : nat -> CpuDb -> CpuDb.
Variables (hostId runId : string) (cpuMillis now : Z).
Hypothesis Hothers : versionedDocuments hostId interleave.

(** What the store holds when the attempts end. *)
Definition disposed (d : Disposition) (db : CpuDb) : Prop :=
  match d with
  | disp_failed => exists run, In run (db_runs (cd_db db)) /\ sr_runId run = runId /\ sr_hostId run = hostId /\
      sr_state run = run_failed /\ is_Some (sr_failedAt run) /\ sr_completedAt run = None /\
      durablyDispatched hostId runId cpuMillis db run = false
  | disp_terminal => settled hostId runId db
  | disp_durable => exists d names, desiredOf hostId db = Some d /\ runningVmsOf runId (dr_docJson d) <> [] /\
      desiredCpu names (runningVmsOf runId (dr_docJson d)) [] 0 = Some cpuMillis
  end.

Lemma failBatch_disposed run read db d db' :
  NoDup (map dr_hostId (cd_desired db)) -> desiredOf hostId db = Some d ->
  (dr_version d = dr_version read -> d = read) ->
  pendingRunHasDurableDesiredVms runId (cd_vmCount db runId) (sr_stateJson run) cpuMillis (Some (dr_docJson read)) = false ->
  sr_runId run = runId ->
  failBatch hostId runId run (Some read) now db = (db', Ok true) -> disposed disp_failed db'.
Proof.
  intros Hn Hd Hsame Hundisp Hid. unfold failBatch.
  destruct (executeScenarioRunRuntimeProjection _ _ _ _) as [[q ch]|] eqn:Ex; [|done].
  set (fence := desiredFence hostId (Some read) (cd_desired db)) in *.
  apply (projected_update runId (fun _ => failHits hostId run fence)) in Ex as [Hruns Hch].
  rewrite Hch. cbn [nullish]. intros [= <- Hcount%Z.ltb_lt]. unfold count_where in Hcount.
  destruct (List.filter _ _) as [|x l] eqn:Ef; [done|].
  assert (Hx : In x (List.filter (failHits hostId run fence) (db_runs (cd_db db)))) by (rewrite Ef; by left).
  apply filter_In in Hx as [Hx Hhit]. exists (failRow run now x). cbn [cd_db set_db disposed]. rewrite Hruns.
  split.
  { unfold update_where. apply in_map_iff. exists x. by rewrite Hhit. }
  unfold failHits in Hhit. rewrite !andb_true_iff in Hhit. destruct Hhit as [[[[[Hr%String.eqb_eq Hh%String.eqb_eq] _] Hc] _] Hf].
  split; [cbn; congruence|]. split; [done|]. split; [done|]. split; [by eexists|].
  split; [cbn; by destruct (sr_completedAt x)|]. unfold durablyDispatched.
  change (desiredOf hostId (set_db db q)) with (desiredOf hostId db). cbn [cd_vmCount set_db sr_stateJson failRow].
  rewrite failed_dispatch, Hd. rewrite (Hsame (desired_fenced _ _ _ _ Hn Hd Hf)). exact Hundisp.
Qed.

Lemma durable_disposed run vmCount db :
  pendingRunHasDurableDesiredVms runId vmCount (sr_stateJson run) cpuMillis (dr_docJson <$> desiredOf hostId db) = true ->
  disposed disp_durable db.
Proof.
  unfold pendingRunHasDurableDesiredVms, disposed. destruct (desiredOf hostId db) as [d|]; [|done]. cbn [fmap option_fmap option_map].
  destruct (vmCount <=? 0) eqn:Hpos; [done|]. destruct (sr_stateJson run) as [c|]; [|done].
  destruct (projectedNames _ _) as [names|]; [|done]. destruct (negb (_ =? vmCount)); [done|].
  destruct (negb (_ =? vmCount)) eqn:El; [done|]. destruct (desiredCpu _ _ _ _) as [cpu|] eqn:Ec; [|done].
  intros ->%Z.eqb_eq. exists d, names. split; [done|]. split; [|done]. intros E. rewrite E in El.
  apply negb_false_iff, Z.eqb_eq in El. cbn in El. apply Z.leb_gt in Hpos. lia.
Qed.

(** The accesses of one attempt. *)
Lemma query_under {A B} (f : CpuDb -> A) (k : A -> M B) w :
  M_bind (query interleave f) k w =
  k (f (interleave (w_accesses w) (w_db w))) (after w (interleave (w_accesses w) (w_db w))).
Proof. done. Qed.
Lemma access_under {A B} (f : CpuDb -> CpuDb * result ReconcileError A) (k : A -> M B) w w' b :
  M_bind (access interleave f) k w = (w', Ok b) ->
  exists db a, f (interleave (w_accesses w) (w_db w)) = (db, Ok a) /\ k a (after w db) = (w', Ok b).
Proof. unfold M_bind, access. destruct (f _) as [db [a|e]]; [|done]. eauto. Qed.

Lemma failFrom_disposed left w w' d :
  NoDup (map dr_hostId (cd_desired (w_db w))) -> is_Some (desiredOf hostId (w_db w)) ->
  failFrom interleave hostId runId cpuMillis now left w = (w', Ok d) -> disposed d (w_db w').
Proof.
  revert w. induction left as [|left IH]; intros w Hn Hs; [done|]. cbn [failFrom]. rewrite query_under.
  set (db1 := interleave (w_accesses w) (w_db w)).
  assert (Hn1 : NoDup (map dr_hostId (cd_desired db1))) by by apply (vd_unique _ _ Hothers).
  destruct Hs as [d0 Hd0]. destruct (vd_version _ _ Hothers (w_accesses w) _ _ Hd0) as (d1 & Hd1 & _). fold db1 in Hd1.
  destruct (findRun (cd_db db1) runId) as [run|] eqn:Hrun.
  2:{ intros [= <- <-]. cbn. unfold settled. by rewrite Hrun. }
  destruct (runOver hostId run) eqn:Eo.
  { intros [= <- <-]. cbn. unfold settled. by rewrite Hrun. }
  rewrite query_under. cbn [after w_accesses w_db].
  set (db2 := interleave (S (w_accesses w)) db1).
  assert (Hn2 : NoDup (map dr_hostId (cd_desired db2))) by by apply (vd_unique _ _ Hothers).
  destruct (vd_version _ _ Hothers (S (w_accesses w)) _ _ Hd1) as (d2 & Hd2 & _). fold db2 in Hd2.
  destruct (pendingRunHasDurableDesiredVms _ _ _ _ _) eqn:Ep.
  { intros [= <- <-]. cbn [w_db after]. by eapply durable_disposed. }
  rewrite Hd2 in Ep |- *. intros (db & updated & Hfail & Hk)%access_under. cbn [after w_accesses w_db] in Hfail, Hk.
  set (db3 := interleave (S (S (w_accesses w))) db2) in *.
  assert (Hn3 : NoDup (map dr_hostId (cd_desired db3))) by by apply (vd_unique _ _ Hothers).
  destruct (vd_version _ _ Hothers (S (S (w_accesses w))) _ _ Hd2) as (d3 & Hd3 & Hver). fold db3 in Hd3.
  assert (Hcount : cd_vmCount db3 = cd_vmCount db1).
  { unfold db3, db2. by rewrite !(vd_vmCount _ _ Hothers). }
  destruct updated.
  - injection Hk as <- <-. cbn [w_db after].
    apply (failBatch_disposed run d2 db3 d3); [done|done| | | |exact Hfail].
    + intros E. destruct Hver as [Hlt|E']; [lia|done].
    + by rewrite Hcount.
    + unfold findRun in Hrun. by apply find_some in Hrun as [_ ?%String.eqb_eq].
  - assert (Hkeep : cd_desired db = cd_desired db3).
    { unfold failBatch in Hfail. by destruct (executeScenarioRunRuntimeProjection _ _ _ _) as [[? ?]|]; simplify_eq. }
    apply (IH _) in Hk; [done| |].
    + cbn [w_db after]. by rewrite Hkeep.
    + cbn [w_db after]. unfold desiredOf. rewrite Hkeep. by exists d3.
Qed.

(** C34. A boot whose admission expired is failed only while it is not dispatched,
    whatever other requests write between the accesses: when the attempts end with the
    run failed, the host's document, at that moment, does not hold the run's VMs, and
    the run was still this host's and not completed; when they end with the dispatch
    found durable, the document holds running VMs of the run with the CPU of its
    reservation; and otherwise the run is gone, over, or another host's. Others keep
    one document per host, under a version that grows with it. *)
Theorem expired_run_failed_only_undispatched w w' d
  (Hone : NoDup (map dr_hostId (cd_desired (w_db w)))) (Hdocument : is_Some (desiredOf hostId (w_db w)))
  (Hres : failExpiredUndispatchedRun interleave hostId runId cpuMillis now w = (w', Ok d)) :
  disposed d (w_db w').
Proof. by eapply failFrom_disposed. Qed.
End interfered.

(** * Sample and witness *)

Module ReconcileSample.
Definition content : RunContent := mkContent [] [] "" None false.
Definition run (id : string) (state : RunPhase) (key : option string) (completed : option Z) : RunRow :=
  mkRunRow id "user" None (Some id) "host" state (RUN_PHASE_ORDER state) key (Some (buildInitialRunState []))
    None None None completed None 1 5 content.
Definition reservation (id : string) (state : CpuReservationState) (expires : option Z) : CpuReservationRow :=
  mkCpuReservation id "host" 1000 state expires 1 1.
Definition document : HostDesiredState :=
  mkDesiredState 6 "host" scope_platform "owner" 3 10 [] (Some []) [] [] None.
(** [lost] was admitted and never dispatched, [done] is over and torn down,
    [young] has still time. *)
Definition store : CpuDb :=
  mkCpuDb (mkDb [run "lost" run_provisioning (Some "user:lost") None; run "done" run_completed None (Some 4);
                 run "young" run_provisioning None None] [] [] [] [] [] [] [] [])
    [reservation "lost" cpu_pending (Some 50); reservation "done" cpu_committed None;
     reservation "young" cpu_pending (Some 500)]
    [mkDesiredRow "host" 3 document 1 10] [mkActualState "host" 3 (JObj [("vms", JArr [])])] (fun _ => 1).
Definition world : World := mkWorld store 0.
End ReconcileSample.

Lemma reconciliation_settles_reservations_witness :
  let '(w', res) := reconcileHostCpuReservations quietly "host" 100 ReconcileSample.world in
  res = Ok (mkReconciled [] ["lost"] ["done"]) /\
  map cr_runId (cd_cpu (w_db w')) = ["young"] /\
  forall r, In r (cd_cpu (w_db w')) -> cr_hostId r = "host" -> cr_state r = cpu_pending -> expired 100 r = false.
Proof.
  destruct (reconcileHostCpuReservations quietly "host" 100 ReconcileSample.world) as [w' res] eqn:E.
  pose proof E as E'. vm_compute in E'. injection E' as Ew Er.
  split; [symmetry; exact Er|]. split; [rewrite <- Ew; reflexivity|]. rewrite <- Er in E.
  refine (proj1 (reconciliation_settles_reservations "host" 100 ReconcileSample.world w' _ _ E)).
  exact (bool_decide_eq_true_1 (NoDup ["lost"; "done"; "young"]) eq_refl).
Defined.

(** The host's document gets a new version between the read and the write of the
    first attempt; the second fails the run. *)
Definition newVersion (r : DesiredRow) : DesiredRow :=
  mkDesiredRow (dr_hostId r) (dr_version r + 1) (dr_docJson r) (dr_createdAt r) (dr_updatedAt r).
Definition bumpsVersion (n : nat) (db : CpuDb) : CpuDb :=
  if (n =? 2)%nat
  then mkCpuDb (cd_db db) (cd_cpu db) (map newVersion (cd_desired db)) (cd_actual db) (cd_vmCount db)
  else db.

Lemma bumps_versioned : versionedDocuments "host" bumpsVersion.
Proof.
  constructor; intros n db; unfold bumpsVersion; destruct (n =? 2)%nat; try done; cbn [cd_desired].
  - intros Hn. by rewrite map_map.
  - intros d Hd. exists (newVersion d). split; [|left; cbn; lia]. revert Hd. unfold desiredOf. cbn [cd_desired].
    induction (cd_desired db) as [|x rows IH]; [done|]. cbn [map List.find newVersion dr_hostId].
    destruct (dr_hostId x =s "host"); [by intros [= ->]|exact IH].
  - intros d Hd. exists d. auto.
Qed.

Lemma expired_run_failed_only_undispatched_witness :
  let '(w', res) := failExpiredUndispatchedRun bumpsVersion "host" "lost" 1000 100 ReconcileSample.world in
  res = Ok disp_failed /\ w_accesses w' = 6%nat /\ disposed "host" "lost" 1000 disp_failed (w_db w').
Proof.
  destruct (failExpiredUndispatchedRun bumpsVersion "host" "lost" 1000 100 ReconcileSample.world) as [w' res] eqn:E.
  assert (Er : res = Ok disp_failed) by (rewrite <- (f_equal snd E : _ = res); vm_compute; reflexivity).
  split; [exact Er|]. split; [rewrite <- (f_equal fst E : _ = w'); vm_compute; reflexivity|].
  rewrite Er in E.
  refine (expired_run_failed_only_undispatched bumpsVersion "host" "lost" 1000 100 bumps_versioned
    ReconcileSample.world w' disp_failed _ _ E).
  - exact (bool_decide_eq_true_1 (NoDup ["host"]) eq_refl).
  - by eexists.
Defined.
