(* ===== verification/ShareModel.v ===== *)
(** The viewer's model of a public run share (lib/run-share/shared-run-model.ts
    and shared-run-cast.ts): a reducer over the messages of the share's log, and
    the asciicast recording a session's log is replayed from.

    The reducer keeps the events of a session in an array that a batch appends to
    in place once it has copied it, so arrays are locations of a store here and
    the [copied] set is threaded through the batch. [absState] reads a state off
    the store, and [spec_reduce] is the reducer that copies for every message. *)
From stdpp Require Import base list strings pretty.
From Stdlib Require Import ZArith Lia.
From S2P Require Import Prelude Json Text.

Open Scope string_scope.
Open Scope list_scope.
Open Scope Z_scope.

(** * Grids *)

Definition SHARE_ID_LEN : nat := 22.
Definition MIN_COLS : Z := 2.
Definition MIN_ROWS : Z := 1.
Definition SHARE_MAX_CELLS : Z := 1000.
Definition REPLAY_TERMINAL_COLS : Z := 120.
Definition REPLAY_TERMINAL_ROWS : Z := 30.

Definition hash_mark : string := "#".

Definition parseShareId (fragment : string) : option string :=
  let id := if str_prefix hash_mark fragment
            then String.substring 1 (String.length fragment - 1) fragment else fragment in
  if (String.length id =? SHARE_ID_LEN)%nat && forallb base64url_unit (code_units id)
  then Some id else None.

Record ShareGrid := mkShareGrid { cols : Z; rows : Z }.
#[export] Instance ShareGrid_eq_dec : EqDecision ShareGrid.
Proof. solve_decision. Defined.

Definition cells (value : json) (minimum fallback : Z) : Z :=
  match value with
  | JNum n =>
      match num_trunc n with
      | Some z => Z.min (Z.max z minimum) SHARE_MAX_CELLS
      | None => fallback
      end
  | _ => fallback
  end.

Definition clampShareGrid (cols rows : json) : ShareGrid :=
  mkShareGrid (cells cols MIN_COLS REPLAY_TERMINAL_COLS)
              (cells rows MIN_ROWS REPLAY_TERMINAL_ROWS).

Definition parseShareResize (data : json) : option ShareGrid :=
  match data with
  | JStr s =>
      match parse_size 6 s with
      | Some (c, r) => Some (clampShareGrid (JNum (NInt c)) (JNum (NInt r)))
      | None => None
      end
  | _ => None
  end.

(** * Sessions *)

Inductive ShareSessionStatus := SessLive | SessDetached | SessEnded.
Inductive ShareStatus := LinkConnecting | LinkLive | LinkRecorded | LinkReconnecting
                       | LinkStopped | LinkUnavailable.
Inductive ShareSessionPhase := PhLive | PhLoading | PhReconnecting | PhInterrupted
                             | PhStopped | PhEnded.
#[export] Instance ShareSessionStatus_eq_dec : EqDecision ShareSessionStatus.
Proof. solve_decision. Defined.
#[export] Instance ShareStatus_eq_dec : EqDecision ShareStatus.
Proof. solve_decision. Defined.

Definition shareSessionPhase (status : ShareSessionStatus) (link : ShareStatus) : ShareSessionPhase :=
  if bool_decide (status = SessEnded) then PhEnded
  else if bool_decide (link = LinkRecorded) then PhEnded
  else if bool_decide (link = LinkStopped) then PhStopped
  else if bool_decide (status = SessDetached) then PhInterrupted
  else if bool_decide (link = LinkLive) then PhLive
  else if bool_decide (link = LinkConnecting) then PhLoading else PhReconnecting.

(** [[milliseconds, code, data]]; the viewer meets codes it does not know. *)
Record ShareEvent := mkShareEvent { ev_ms : num; ev_code : string; ev_data : string }.
#[export] Instance ShareEvent_eq_dec : EqDecision ShareEvent.
Proof. solve_decision. Defined.

(** A session, over what it holds as its events: a location of the store in the
    code's states, the list itself in the states of the specification. *)
Record ShareSession (E : Type) := mkShareSession {
  s_id : string;
  s_vmId : string;
  s_mode : string;
  s_cols : Z;
  s_rows : Z;
  s_atMs : Z;
  s_midSession : bool;
  s_events : E;
  s_status : ShareSessionStatus;
  s_gapBytes : Z;
}.
Arguments mkShareSession {E} _ _ _ _ _ _ _ _ _ _.
Arguments s_id {E} _.
Arguments s_vmId {E} _.
Arguments s_mode {E} _.
Arguments s_cols {E} _.
Arguments s_rows {E} _.
Arguments s_atMs {E} _.
Arguments s_midSession {E} _.
Arguments s_events {E} _.
Arguments s_status {E} _.
Arguments s_gapBytes {E} _.

Record SharedRunMission := mkSharedRunMission {
  mi_title : string;
  mi_tagline : string;
  mi_scenario_name : string;
  mi_lecture_title : option string;
  mi_markdown : string;
  mi_objectives : list json;
  mi_vms : list (string * string);   (* id, name *)
}.

Record SharedRunState (E : Type) := mkSharedRunState {
  mission : option SharedRunMission;
  generation : option Z;
  sessions : list (ShareSession E);
  truncated : bool;
  seq : option Z;
}.
Arguments mkSharedRunState {E} _ _ _ _ _.
Arguments mission {E} _.
Arguments generation {E} _.
Arguments sessions {E} _.
Arguments truncated {E} _.
Arguments seq {E} _.

Definition createSharedRunState {E} : SharedRunState E :=
  mkSharedRunState None None [] false None.

(** [{ ...session, key: value }] and the same for a state. *)
Definition with_events {E F} (e : F) (s : ShareSession E) : ShareSession F :=
  mkShareSession (s_id s) (s_vmId s) (s_mode s) (s_cols s) (s_rows s) (s_atMs s)
    (s_midSession s) e (s_status s) (s_gapBytes s).
Definition with_status {E} (x : ShareSessionStatus) (s : ShareSession E) : ShareSession E :=
  mkShareSession (s_id s) (s_vmId s) (s_mode s) (s_cols s) (s_rows s) (s_atMs s)
    (s_midSession s) (s_events s) x (s_gapBytes s).
Definition with_gapBytes {E} (n : Z) (s : ShareSession E) : ShareSession E :=
  mkShareSession (s_id s) (s_vmId s) (s_mode s) (s_cols s) (s_rows s) (s_atMs s)
    (s_midSession s) (s_events s) (s_status s) n.
Definition with_sessions {E F} (l : list (ShareSession F)) (st : SharedRunState E)
    : SharedRunState F :=
  mkSharedRunState (mission st) (generation st) l (truncated st) (seq st).
Definition with_seq {E} (n : Z) (st : SharedRunState E) : SharedRunState E :=
  mkSharedRunState (mission st) (generation st) (sessions st) (truncated st) (Some n).

(** * Messages *)

Inductive StoredShareMessage :=
| MStart (seq : option Z) (session vm_id mode : string) (cols rows : json) (at_ms : Z)
    (mid_session resumed : bool)
| MEvents (seq : option Z) (session : string) (events : option (list ShareEvent))
| MGap (seq : option Z) (session : string) (bytes : Z)
| MEnd (seq : option Z) (session : string)
| MDetach (seq : option Z) (session : string)
| MTruncated (seq : option Z)
| MOther (seq : option Z).   (* a type a newer share sends *)

Inductive ShareUpdate :=
| UMission (mission : SharedRunMission)
| UGeneration (generation : Z)
| UStored (message : StoredShareMessage).

Definition msg_seq (m : StoredShareMessage) : option Z :=
  match m with
  | MStart n _ _ _ _ _ _ _ _ | MEvents n _ _ | MGap n _ _ | MEnd n _ | MDetach n _
  | MTruncated n | MOther n => n
  end.

(** * The reducer *)

(** The arrays of the program, and the ids whose array this batch copied. *)
Record Batch := mkBatch { arrays : list (list ShareEvent); copied : list string }.

Definition array_at (b : Batch) (l : nat) : list ShareEvent := arrays b !!! l.

(** A new array holding [l]. *)
Definition alloc (l : list ShareEvent) (b : Batch) : nat * Batch :=
  (length (arrays b), mkBatch (arrays b ++ [l]) (copied b)).

(** [events.push(event)] for each event. *)
Definition push (l : nat) (events : list ShareEvent) (b : Batch) : Batch :=
  mkBatch (<[l := array_at b l ++ events]> (arrays b)) (copied b).

(** [session.events.slice()] the first time the batch touches the session. *)
Definition ownedEvents (session : ShareSession nat) (b : Batch) : nat * Batch :=
  if str_mem (s_id session) (copied b) then (s_events session, b)
  else alloc (array_at b (s_events session))
         (mkBatch (arrays b) (copied b ++ [s_id session])).

Definition updateSession {E B} (st : SharedRunState E) (id : string)
    (update : ShareSession E -> B -> ShareSession E * B) (b : B) : SharedRunState E * B :=
  match find_index (fun s => s_id s =s id) (sessions st) with
  | None => (st, b)
  | Some index =>
      match sessions st !! index with
      | None => (st, b)
      | Some current =>
          let '(updated, b') := update current b in
          (with_sessions (<[index := updated]> (sessions st)) st, b')
      end
  end.

(** The scan from the last event back. *)
Fixpoint last_resize (reversed : list ShareEvent) : option ShareGrid :=
  match reversed with
  | [] => None
  | e :: rest =>
      if ev_code e =s "r"
      then match parseShareResize (JStr (ev_data e)) with
           | Some grid => Some grid
           | None => last_resize rest
           end
      else last_resize rest
  end.

Definition currentShareGrid (session : ShareSession (list ShareEvent)) : ShareGrid :=
  nullish (last_resize (reverse (s_events session)))
          (mkShareGrid (s_cols session) (s_rows session)).

(** The session with its events read off the store. *)
Definition absSession (b : Batch) (s : ShareSession nat) : ShareSession (list ShareEvent) :=
  with_events (array_at b (s_events s)) s.

(** The resize event a resumed session logs when the reported grid is new. *)
Definition resizeEvent (events : list ShareEvent) (grid : ShareGrid) : ShareEvent :=
  mkShareEvent (match last events with Some e => ev_ms e | None => NInt 0 end)
    "r" (print_size (cols grid) (rows grid)).

Definition startSession (st : SharedRunState nat) (session vm_id mode : string)
    (mcols mrows : json) (at_ms : Z) (mid_session : bool) (b : Batch)
    : SharedRunState nat * Batch :=
  let grid := clampShareGrid mcols mrows in
  let known := existsb (fun s => s_id s =s session) (sessions st) in
  if negb known then
    let '(l, b') := alloc [] b in
    (with_sessions (sessions st ++
       [mkShareSession session vm_id mode (cols grid) (rows grid) at_ms mid_session l SessLive 0])
       st, b')
  else
    updateSession st session (fun s b =>
      let current := currentShareGrid (absSession b s) in
      let same := (cols current =? cols grid) && (rows current =? rows grid) in
      if same then (with_status SessLive s, b)
      else
        let '(events, b1) := ownedEvents s b in
        (with_events events (with_status SessLive s),
         push events [resizeEvent (array_at b1 events) grid] b1)) b.

(** The PTY ending is final; a writer that drops after it changes nothing. *)
Definition detachSession {E} (s : ShareSession E) : ShareSession E :=
  if bool_decide (s_status s = SessEnded) then s else with_status SessDetached s.

Definition applyStored (st : SharedRunState nat) (message : StoredShareMessage) (b : Batch)
    : SharedRunState nat * Batch :=
  match message with
  | MStart _ session vm_id mode c r at_ms mid _ =>
      startSession st session vm_id mode c r at_ms mid b
  | MEvents _ session events =>
      match events with
      | None | Some [] => (st, b)
      | Some es =>
          updateSession st session (fun s b =>
            let '(events, b1) := ownedEvents s b in
            (with_events events s, push events es b1)) b
      end
  | MGap _ session bytes =>
      updateSession st session (fun s b =>
        (with_gapBytes (fl (s_gapBytes s + Z.max 0 bytes)) s, b)) b
  | MEnd _ session => updateSession st session (fun s b => (with_status SessEnded s, b)) b
  | MDetach _ session =>
      updateSession st session (fun s b => (detachSession s, b)) b
  | MTruncated _ =>
      (mkSharedRunState (mission st) (generation st) (sessions st) true (seq st), b)
  | MOther _ => (st, b)
  end.

(** [seq !== undefined && state.seq !== null && seq <= state.seq]. *)
Definition already_applied (n : option Z) (held : option Z) : bool :=
  match n, held with Some x, Some y => x <=? y | _, _ => false end.

Definition reduceShareMessage (st : SharedRunState nat) (message : ShareUpdate) (b : Batch)
    : SharedRunState nat * Batch :=
  match message with
  | UMission m =>
      (mkSharedRunState (Some m) (generation st) (sessions st) (truncated st) (seq st), b)
  | UGeneration g =>
      if bool_decide (generation st = Some g) then (st, b)
      else (mkSharedRunState (mission st) (Some g) [] false None, mkBatch (arrays b) [])
  | UStored m =>
      if already_applied (msg_seq m) (seq st) then (st, b)
      else
        let '(next, b') := applyStored st m b in
        (match msg_seq m with None => next | Some n => with_seq n next end, b')
  end.

(** One batch over the arrays of the program. *)
Definition applyShareMessages (st : SharedRunState nat) (messages : list ShareUpdate)
    (store : list (list ShareEvent)) : SharedRunState nat * list (list ShareEvent) :=
  let '(next, b) :=
    fold_left (fun '(st, b) m => reduceShareMessage st m b) messages (st, mkBatch store []) in
  (next, arrays b).

(** * Tabs *)

Definition middle_dot : string := String (Ascii.ascii_of_nat 183) EmptyString.

Record ShareTab (E : Type) := mkShareTab {
  tab_session : ShareSession E;
  tab_label : string;
  tab_vmName : string;
  tab_index : Z;
}.
Arguments mkShareTab {E} _ _ _ _.
Arguments tab_session {E} _.
Arguments tab_label {E} _.
Arguments tab_vmName {E} _.
Arguments tab_index {E} _.

Definition tab_name {E} (st : SharedRunState E) (vm : string) : string :=
  match mission st with
  | Some m => nullish (snd <$> List.find (fun v => fst v =s vm) (mi_vms m)) vm
  | None => vm
  end.

Fixpoint tabs_from {E} (st : SharedRunState E) (perVm : list (string * Z))
    (l : list (ShareSession E)) : list (ShareTab E) :=
  match l with
  | [] => []
  | session :: rest =>
      let index := nullish (Map_get (s_vmId session) perVm) 0 + 1 in
      let vmName := tab_name st (s_vmId session) in
      mkShareTab session (vmName +:+ " " +:+ middle_dot +:+ " " +:+ pretty index) vmName index
        :: tabs_from st (Map_set (s_vmId session) index perVm) rest
  end.

Definition shareTabs {E} (st : SharedRunState E) : list (ShareTab E) :=
  tabs_from st [] (sessions st).

Definition followedSession {E} (l : list (ShareSession E)) : option (ShareSession E) :=
  match List.find (fun s => negb (bool_decide (s_status s = SessEnded))) (reverse l) with
  | Some s => Some s
  | None => last l
  end.

(** * The recording of a session *)

Definition carriage_return : Ascii.ascii := Ascii.ascii_of_nat 13.
Definition line_feed : Ascii.ascii := Ascii.ascii_of_nat 10.

(** [text.replace(/\r?\n/g, "\r\n")]. *)
Fixpoint toCrlf (text : string) : string :=
  match text with
  | EmptyString => EmptyString
  | String c rest =>
      if Ascii.eqb c line_feed then String carriage_return (String line_feed (toCrlf rest))
      else
        match rest with
        | String d rest' =>
            if Ascii.eqb c carriage_return && Ascii.eqb d line_feed
            then String carriage_return (String line_feed (toCrlf rest'))
            else String c (toCrlf rest)
        | EmptyString => String c EmptyString
        end
  end.

(** A line of the cast; the interval in whole milliseconds. *)
Inductive CastLine :=
| CastHeader (cols rows : Z)
| CastEvent (interval : Z) (code text : string).

Fixpoint castEvents (browser : bool) (previous : Z) (events : list ShareEvent) : list CastLine :=
  match events with
  | [] => []
  | e :: rest =>
      let at_ := match num_round (ev_ms e) with Some ms => Z.max ms previous | None => previous end in
      let interval := at_ - previous in
      if ev_code e =s "o" then
        CastEvent interval "o" (if browser then toCrlf (ev_data e) else ev_data e)
          :: castEvents browser at_ rest
      else if ev_code e =s "r" then
        match parseShareResize (JStr (ev_data e)) with
        | None => castEvents browser previous rest
        | Some grid =>
            CastEvent interval "r" (print_size (cols grid) (rows grid))
              :: castEvents browser at_ rest
        end
      else castEvents browser previous rest
  end.

(** [JSON.stringify(Number((ms / 1000).toFixed(3)))]: the seconds, without
    trailing zeros. The double next to [ms / 1000] is that close for every
    interval below 2^42 seconds. *)
Definition print_seconds (ms : Z) : string :=
  let f := ms mod 1000 in
  let whole := pretty (ms / 1000) in
  let d1 := pretty (f / 100) in
  let d2 := pretty ((f / 10) mod 10) in
  let d3 := pretty (f mod 10) in
  if f =? 0 then whole
  else if f mod 100 =? 0 then whole +:+ "." +:+ d1
  else if f mod 10 =? 0 then whole +:+ "." +:+ d1 +:+ d2
  else whole +:+ "." +:+ d1 +:+ d2 +:+ d3.

Definition print_line (l : CastLine) : string :=
  match l with
  | CastHeader c r =>
      "{" +:+ quote_json "version" +:+ ":3," +:+ quote_json "term" +:+ ":{"
      +:+ quote_json "cols" +:+ ":" +:+ pretty c +:+ ","
      +:+ quote_json "rows" +:+ ":" +:+ pretty r +:+ "}}"
  | CastEvent i code text =>
      "[" +:+ print_seconds i +:+ "," +:+ quote_json code +:+ "," +:+ quote_json text +:+ "]"
  end.

Definition castLines (s : ShareSession (list ShareEvent)) : list CastLine :=
  let grid := clampShareGrid (JNum (NInt (s_cols s))) (JNum (NInt (s_rows s))) in
  CastHeader (cols grid) (rows grid) :: castEvents (s_mode s =s "browser") 0 (s_events s).

Definition buildShareCast (s : ShareSession (list ShareEvent)) : string :=
  match castLines s with
  | [_] => ""
  | lines => join newline (map print_line lines)
  end.

(** * The specification: every message copies what it changes *)

Definition appendEvents (es : list ShareEvent) (s : ShareSession (list ShareEvent)) :=
  with_events (s_events s ++ es) s.

Definition resumeSession (grid : ShareGrid) (s : ShareSession (list ShareEvent))
    : ShareSession (list ShareEvent) :=
  if bool_decide (currentShareGrid s = grid) then with_status SessLive s
  else appendEvents [resizeEvent (s_events s) grid] (with_status SessLive s).

(** Change the session with this id. *)
Definition on_session (id : string) (f : ShareSession (list ShareEvent) -> ShareSession (list ShareEvent))
    (st : SharedRunState (list ShareEvent)) : SharedRunState (list ShareEvent) :=
  with_sessions (map (fun s => if s_id s =s id then f s else s) (sessions st)) st.

Definition spec_apply (st : SharedRunState (list ShareEvent)) (m : StoredShareMessage)
    : SharedRunState (list ShareEvent) :=
  match m with
  | MStart _ id vm mode c r at_ms mid _ =>
      let grid := clampShareGrid c r in
      if str_mem id (map s_id (sessions st)) then on_session id (resumeSession grid) st
      else with_sessions (sessions st ++
             [mkShareSession id vm mode (cols grid) (rows grid) at_ms mid [] SessLive 0]) st
  | MEvents _ id events => on_session id (appendEvents (nullish events [])) st
  | MGap _ id bytes =>
      on_session id (fun s => with_gapBytes (fl (s_gapBytes s + Z.max 0 bytes)) s) st
  | MEnd _ id => on_session id (with_status SessEnded) st
  | MDetach _ id =>
      on_session id detachSession st
  | MTruncated _ => mkSharedRunState (mission st) (generation st) (sessions st) true (seq st)
  | MOther _ => st
  end.

Definition spec_reduce (st : SharedRunState (list ShareEvent)) (m : ShareUpdate)
    : SharedRunState (list ShareEvent) :=
  match m with
  | UMission x =>
      mkSharedRunState (Some x) (generation st) (sessions st) (truncated st) (seq st)
  | UGeneration g =>
      if bool_decide (generation st = Some g) then st
      else mkSharedRunState (mission st) (Some g) [] false None
  | UStored m =>
      if already_applied (msg_seq m) (seq st) then st
      else match msg_seq m with
           | None => spec_apply st m
           | Some n => with_seq n (spec_apply st m)
           end
  end.

(** A state with its sessions' events read off the store. *)
Definition absState (store : list (list ShareEvent)) (st : SharedRunState nat)
    : SharedRunState (list ShareEvent) :=
  with_sessions (map (absSession (mkBatch store [])) (sessions st)) st.

(** * Lemmas: grids *)

Definition grid_ok (g : ShareGrid) : Prop :=
  MIN_COLS <= cols g <= SHARE_MAX_CELLS /\ MIN_ROWS <= rows g <= SHARE_MAX_CELLS.

Lemma cells_bounds v lo fallback :
  lo <= fallback <= SHARE_MAX_CELLS -> lo <= cells v lo fallback <= SHARE_MAX_CELLS.
Proof. unfold cells. intros H. repeat case_match; lia. Qed.

Lemma clampShareGrid_ok c r : grid_ok (clampShareGrid c r).
Proof. split; apply cells_bounds; by vm_compute. Qed.

Lemma clampShareGrid_id g :
  grid_ok g -> clampShareGrid (JNum (NInt (cols g))) (JNum (NInt (rows g))) = g.
Proof. destruct g as [c r]. intros [H1 H2]. unfold clampShareGrid, cells. cbn [cols rows num_trunc] in *. f_equal; lia. Qed.

Lemma parseShareResize_print g :
  grid_ok g -> parseShareResize (JStr (print_size (cols g) (rows g))) = Some g.
Proof.
  intros H. pose proof H as [H1 H2]. unfold MIN_COLS, MIN_ROWS, SHARE_MAX_CELLS in *.
  unfold parseShareResize. rewrite parse_print_size by (cbn; lia). by rewrite clampShareGrid_id.
Qed.

Lemma resume_grid grid s : grid_ok grid -> currentShareGrid (resumeSession grid s) = grid.
Proof.
  intros H. unfold resumeSession. case_bool_decide as E; [done|].
  unfold currentShareGrid, appendEvents. cbn [s_events with_events].
  rewrite reverse_snoc. cbn [last_resize ev_code resizeEvent ev_data].
  by rewrite parseShareResize_print.
Qed.

(** * Lemmas: a batch refines the copying reducer *)

Definition key (s : ShareSession nat) : string * nat := (s_id s, s_events s).

(** What holds while a batch runs: ids are distinct, every session has an array,
    the arrays of the given store are untouched, and an array the batch owns is
    a new one that no other session has. *)
Record batch_ok (store : list (list ShareEvent)) (b : Batch) (ks : list (string * nat)) : Prop := {
  bo_ids : NoDup ks.*1;
  bo_store : store `prefix_of` arrays b;
  bo_valid : forall id l, (id, l) ∈ ks -> (l < length (arrays b))%nat;
  bo_owned : forall id l, (id, l) ∈ ks -> In id (copied b) -> (length store <= l)%nat;
  bo_alone : forall id l id', (id, l) ∈ ks -> (id', l) ∈ ks -> In id (copied b) -> id = id';
}.

Lemma array_at_prefix a k l cp :
  (l < length a)%nat -> array_at (mkBatch (a ++ k) cp) l = array_at (mkBatch a cp) l.
Proof. intros H. unfold array_at. cbn. by rewrite lookup_total_app_l. Qed.

Lemma array_at_push l es b :
  (l < length (arrays b))%nat -> array_at (push l es b) l = array_at b l ++ es.
Proof. intros H. unfold array_at, push. cbn. by rewrite list_lookup_total_insert_eq. Qed.

Lemma array_at_push_ne l l' es b : l <> l' -> array_at (push l es b) l' = array_at b l'.
Proof. intros H. unfold array_at, push. cbn. by rewrite list_lookup_total_insert_ne. Qed.

Lemma batch_ok_alloc store b ks id :
  id ∉ ks.*1 -> batch_ok store b ks ->
  batch_ok store (mkBatch (arrays b ++ [[]]) (copied b)) (ks ++ [(id, length (arrays b))]).
Proof.
  intros Hid [Hn Hp Hv Ho Ha].
  pose proof (prefix_length _ _ Hp) as Hlen. split; cbn [arrays copied].
  - rewrite fmap_app. cbn. apply NoDup_app. repeat split; [done| |apply NoDup_singleton].
    intros x Hx ->%list_elem_of_singleton. done.
  - by apply prefix_app_r.
  - intros i l. rewrite elem_of_app, list_elem_of_singleton, length_app. cbn.
    intros [H|[= -> ->]]; [apply Hv in H|]; lia.
  - intros i l. rewrite elem_of_app, list_elem_of_singleton.
    intros [H|[= -> ->]] Hc; [by eapply Ho|done].
  - intros i l j. rewrite !elem_of_app, !list_elem_of_singleton.
    intros [H|E] [H'|E'] Hc; [by eapply Ha|..]; simplify_eq; [..|done].
    + apply Hv in H. lia.
    + apply Hv in H'. lia.
Qed.

(** Owning a session's array: either it is the batch's already, or it is copied. *)
Lemma ownedEvents_ok store b ks i s l b1 :
  batch_ok store b ks -> ks !! i = Some (key s) -> ownedEvents s b = (l, b1) ->
  batch_ok store b1 (<[i := (s_id s, l)]> ks) /\
  array_at b1 l = array_at b (s_events s) /\ In (s_id s) (copied b1) /\
  (forall l', (l' < length (arrays b))%nat -> array_at b1 l' = array_at b l').
Proof.
  intros Hok Hi. unfold ownedEvents. destruct (str_mem (s_id s) (copied b)) eqn:E.
  - intros [= <- <-]. rewrite list_insert_id by done. by apply str_mem_In in E.
  - intros [= <- <-]. destruct Hok as [Hn Hp Hv Ho Ha].
    pose proof (list_elem_of_lookup_2 _ _ _ Hi) as Hin. pose proof (Hv _ _ Hin) as Hl.
    pose proof (prefix_length _ _ Hp) as Hlen.
    assert (Hsplit : forall id l', (id, l') ∈ <[i:=(s_id s, length (arrays b))]> ks ->
      (id = s_id s /\ l' = length (arrays b)) \/ (id <> s_id s /\ (id, l') ∈ ks)).
    { intros id l' [j Hj]%list_elem_of_lookup.
      destruct (decide (i = j)) as [<-|Hne].
      - rewrite list_lookup_insert_eq in Hj by (by eapply lookup_lt_Some).
        injection Hj as -> ->. by left.
      - rewrite list_lookup_insert_ne in Hj by done. right.
        split; [|by eapply list_elem_of_lookup_2]. intros ->. apply Hne.
        apply (NoDup_lookup _ _ _ (s_id s) Hn); rewrite list_lookup_fmap; [by rewrite Hi|by rewrite Hj]. }
    split_and!; cbn.
    + split; cbn.
      * rewrite list_fmap_insert. cbn. rewrite list_insert_id; [done|].
        by rewrite list_lookup_fmap, Hi.
      * by apply prefix_app_r.
      * intros id l' [[-> ->]|[_ H]]%Hsplit; rewrite length_app; cbn; [lia|apply Hv in H; lia].
      * intros id l' [[-> ->]|[Hne H]]%Hsplit; [by intros _|].
        intros [Hc|[E'|[]]]%in_app_iff; [by eapply Ho|by subst].
      * intros id l' id' [[-> ->]|[Hne H]]%Hsplit [[-> Hl']|[Hne' H']]%Hsplit; try done.
        -- apply Hv in H'. lia.
        -- subst. apply Hv in H. lia.
        -- intros [Hc|[E'|[]]]%in_app_iff; [by eapply Ha|by subst].
    + unfold array_at. cbn. rewrite lookup_total_app_r by lia. by rewrite Nat.sub_diag.
    + apply in_app_iff. right. by left.
    + intros l' Hl'. unfold array_at. cbn. by rewrite lookup_total_app_l.
Qed.

(** Appending to an owned array leaves every other session's array alone. *)
Lemma push_ok store b ks id l es :
  batch_ok store b ks -> (id, l) ∈ ks -> In id (copied b) ->
  batch_ok store (push l es b) ks /\
  array_at (push l es b) l = array_at b l ++ es /\
  (forall id' l', (id', l') ∈ ks -> id' <> id -> array_at (push l es b) l' = array_at b l').
Proof.
  intros Hok Hin Hc. pose proof Hok as [Hn Hp Hv Ho Ha]. split_and!.
  - split; cbn; [done| |..]; try done.
    + destruct Hp as [k Hk]. rewrite Hk, insert_app_r_alt by (by eapply Ho). by eexists.
    + intros i l'. rewrite length_insert. apply Hv.
  - apply array_at_push. by eapply Hv.
  - intros id' l' Hin' Hne. apply array_at_push_ne. intros <-. apply Hne. symmetry. by eapply Ha.
Qed.

Lemma absSession_arrays b cp s : absSession (mkBatch (arrays b) cp) s = absSession b s.
Proof. done. Qed.

Lemma on_session_absent id f st :
  (forall s, s ∈ sessions st -> s_id s <> id) -> on_session id f st = st.
Proof.
  intros H. destruct st as [m g ss t q]. unfold on_session, with_sessions. cbn in *. f_equal.
  rewrite <- (map_id ss) at 2. apply map_ext_in. intros s Hs%list_elem_of_In.
  apply H, String.eqb_neq in Hs. by rewrite Hs.
Qed.

(** An update of one session in the store is the update of that session's value. *)
Lemma updateSession_refines store st b id upd f st' b' :
  batch_ok store b (map key (sessions st)) ->
  (forall i s u b', sessions st !! i = Some s -> upd s b = (u, b') ->
     batch_ok store b' (<[i := key u]> (map key (sessions st))) /\
     absSession b' u = f (absSession b s) /\
     (forall t, t ∈ sessions st -> s_id t <> s_id s -> absSession b' t = absSession b t)) ->
  updateSession st id upd b = (st', b') ->
  batch_ok store b' (map key (sessions st')) /\
  absState (arrays b') st' = on_session id f (absState (arrays b) st).
Proof.
  intros Hok Hupd. unfold updateSession.
  destruct (find_index _ (sessions st)) as [i|] eqn:Ei; cycle 1.
  { intros [= <- <-]. split; [done|]. rewrite on_session_absent; [done|].
    intros x Hx. cbn in Hx. apply list_elem_of_In, in_map_iff in Hx as (s & <- & Hs).
    apply list_elem_of_In in Hs. apply (find_index_None _ _ Ei) in Hs.
    by apply String.eqb_neq in Hs. }
  apply find_index_Some in Ei as (s & Hi & Es). apply String.eqb_eq in Es. rewrite Hi.
  destruct (upd s b) as [u b1] eqn:Eu. intros [= <- <-].
  destruct (Hupd _ _ _ _ Hi Eu) as (Hok' & Habs & Hother). split.
  { cbn. by rewrite (list_fmap_insert key). }
  unfold absState, on_session, with_sessions. cbn [sessions mission generation truncated seq].
  f_equal. apply list_eq. intros j. rewrite !list_lookup_fmap.
  destruct (decide (i = j)) as [<-|Hne].
  - rewrite list_lookup_insert_eq by (by eapply lookup_lt_Some). rewrite Hi. cbn.
    rewrite Es, String.eqb_refl, !absSession_arrays. by f_equal.
  - rewrite list_lookup_insert_ne by done.
    destruct (sessions st !! j) as [t|] eqn:Ej; [|done]. cbn.
    assert (s_id t <> s_id s) as Ht.
    { intros Heq. apply Hne. eapply (NoDup_lookup _ i j (s_id s) (bo_ids _ _ _ Hok));
        rewrite !list_lookup_fmap; [by rewrite Hi|rewrite Ej; cbn; by rewrite Heq]. }
    rewrite <- Es. apply String.eqb_neq in Ht as Hb. rewrite Hb, !absSession_arrays.
    f_equal. apply Hother; [by eapply list_elem_of_lookup_2|done].
Qed.

(** A change that keeps the session's array. *)
Lemma field_refines store st b id (g : forall E, ShareSession E -> ShareSession E) st' b' :
  (forall s, key (g nat s) = key s) ->
  (forall s, absSession b (g nat s) = g _ (absSession b s)) ->
  batch_ok store b (map key (sessions st)) ->
  updateSession st id (fun s b => (g nat s, b)) b = (st', b') ->
  batch_ok store b' (map key (sessions st')) /\
  absState (arrays b') st' = on_session id (g _) (absState (arrays b) st).
Proof.
  intros Hkey Habs Hok. apply updateSession_refines; [done|].
  intros i s u b1 Hi [= <- <-]. split_and!; [|done..].
  rewrite Hkey, list_insert_id; [done|]. by rewrite list_lookup_fmap, Hi.
Qed.

(** Taking the array over and appending to it. *)
Lemma append_refines store st b i s l b1 x es :
  batch_ok store b (map key (sessions st)) -> sessions st !! i = Some s ->
  ownedEvents s b = (l, b1) ->
  batch_ok store (push l es b1)
    (<[i := key (with_events l (with_status x s))]> (map key (sessions st))) /\
  absSession (push l es b1) (with_events l (with_status x s))
    = appendEvents es (with_status x (absSession b s)) /\
  (forall t, t ∈ sessions st -> s_id t <> s_id s ->
     absSession (push l es b1) t = absSession b t) /\
  array_at b1 l = array_at b (s_events s).
Proof.
  intros Hok Hi Ho. assert (Hk : map key (sessions st) !! i = Some (key s))
    by by rewrite list_lookup_fmap, Hi.
  destruct (ownedEvents_ok _ _ _ _ _ _ _ Hok Hk Ho) as (Hok1 & Harr & Hc & Hkeep).
  assert (Hin : (s_id s, l) ∈ <[i:=(s_id s, l)]> (map key (sessions st))).
  { eapply list_elem_of_lookup_2, list_lookup_insert_eq, lookup_lt_Some, Hk. }
  destruct (push_ok _ _ _ _ _ es Hok1 Hin Hc) as (Hok2 & Hl & Hrest).
  split_and!; [done| |..|done].
  - unfold absSession at 1. cbn [s_events with_events]. by rewrite Hl, Harr.
  - intros t Ht Hne. unfold absSession. f_equal.
    apply list_elem_of_lookup in Ht as [j Hj].
    assert (Hj' : map key (sessions st) !! j = Some (key t)) by by rewrite list_lookup_fmap, Hj.
    rewrite (Hrest (s_id t)); [|eapply list_elem_of_lookup_2|done].
    + apply Hkeep. eapply (bo_valid _ _ _ Hok (s_id t)), list_elem_of_lookup_2, Hj'.
    + rewrite list_lookup_insert_ne; [exact Hj'|]. intros ->. congruence.
Qed.

Lemma grid_eqb a b : (cols a =? cols b) && (rows a =? rows b) = bool_decide (a = b).
Proof.
  destruct a as [c r], b as [c' r']. cbn. case_bool_decide as E.
  - injection E as -> ->. by rewrite !Z.eqb_refl.
  - apply andb_false_iff. destruct (Z.eqb_spec c c') as [->|]; [right|by left].
    apply Z.eqb_neq. intros ->. done.
Qed.

Lemma known_str_mem {E} (id : string) (ss : list (ShareSession E)) :
  existsb (fun s => s_id s =s id) ss = str_mem id (map s_id ss).
Proof.
  unfold str_mem. induction ss as [|s ss IH]; cbn; [done|]. by rewrite IH, String.eqb_sym.
Qed.

Lemma startSession_refines store st b n id vm mode c r at_ms mid res st' b' :
  batch_ok store b (map key (sessions st)) ->
  startSession st id vm mode c r at_ms mid b = (st', b') ->
  batch_ok store b' (map key (sessions st')) /\
  absState (arrays b') st' =
    spec_apply (absState (arrays b) st) (MStart n id vm mode c r at_ms mid res).
Proof.
  intros Hok. unfold startSession. rewrite known_str_mem. cbn [spec_apply].
  assert (map s_id (sessions (absState (arrays b) st)) = map s_id (sessions st)) as ->
    by (cbn; by rewrite map_map).
  destruct (str_mem id _) eqn:E; cbn [negb].
  - apply updateSession_refines; [done|]. intros i s u b1 Hi. cbn beta zeta.
    rewrite grid_eqb. unfold resumeSession. case_bool_decide as Hg.
    + intros [= <- <-]. split_and!; [|done..].
      rewrite list_insert_id; [done|]. by rewrite list_lookup_fmap, Hi.
    + destruct (ownedEvents s b) as [l b2] eqn:Eo. intros [= <- <-].
      destruct (append_refines _ _ _ _ _ _ _ SessLive
        [resizeEvent (array_at b2 l) (clampShareGrid c r)] Hok Hi Eo) as (H1 & H2 & H3 & H4).
      split_and!; [done| |done]. by rewrite H2, H4.
  - intros [= <- <-]. apply str_mem_false in E. cbn [sessions with_sessions]. split.
    + rewrite map_app. cbn [map key s_id s_events]. apply batch_ok_alloc; [|done].
      intros Hin. apply E. apply list_elem_of_In in Hin. by rewrite map_map in Hin.
    + unfold absState, with_sessions. cbn. f_equal. rewrite map_app. f_equal.
      * apply map_ext_in. intros s Hs%list_elem_of_In. unfold absSession. f_equal.
        apply (array_at_prefix (arrays b) [[]]), (bo_valid _ _ _ Hok (s_id s)).
        apply list_elem_of_fmap. by exists s.
      * cbn. unfold absSession, with_events, array_at. cbn.
        rewrite lookup_total_app_r by lia. by rewrite Nat.sub_diag.
Qed.

Lemma with_events_status {E} (s : ShareSession E) l : with_events l (with_status (s_status s) s) = with_events (F := nat) l s.
Proof. done. Qed.

Lemma append_nothing n id st events :
  nullish events [] = [] -> spec_apply st (MEvents n id events) = st.
Proof.
  cbn [spec_apply]. intros ->. destruct st as [m g ss t q].
  unfold on_session, with_sessions. cbn. f_equal. rewrite <- (map_id ss) at 2.
  apply map_ext. intros []. unfold appendEvents, with_events. cbn. rewrite app_nil_r. by case_match.
Qed.

Lemma applyStored_refines store st b m st' b' :
  batch_ok store b (map key (sessions st)) -> applyStored st m b = (st', b') ->
  batch_ok store b' (map key (sessions st')) /\
  absState (arrays b') st' = spec_apply (absState (arrays b) st) m.
Proof.
  intros Hok. destruct m as [n id vm mode c r a mid res|n id [[|e es]|]|n id bytes|n id|n id|n|n];
    cbn [applyStored].
  - by apply startSession_refines.
  - intros [= <- <-]. split; [done|]. by rewrite append_nothing.
  - apply updateSession_refines; [done|]. intros i s u b1 Hi. cbn beta.
    destruct (ownedEvents s b) as [l b2] eqn:Eo. intros [= <- <-].
    destruct (append_refines _ _ _ _ _ _ _ (s_status s) (e :: es) Hok Hi Eo)
      as (H1 & H2 & H3 & _). rewrite with_events_status in H1, H2. done.
  - intros [= <- <-]. split; [done|]. by rewrite append_nothing.
  - by apply (field_refines store st b id
      (fun E s => with_gapBytes (fl (s_gapBytes s + Z.max 0 bytes)) s)).
  - by apply (field_refines store st b id (fun E s => with_status SessEnded s)).
  - apply (field_refines store st b id (@detachSession));
      [intros []; unfold detachSession; cbn; by case_bool_decide..|done].
  - by intros [= <- <-].
  - by intros [= <- <-].
Qed.

Lemma reduce_refines store st b m st' b' :
  batch_ok store b (map key (sessions st)) -> reduceShareMessage st m b = (st', b') ->
  batch_ok store b' (map key (sessions st')) /\
  absState (arrays b') st' = spec_reduce (absState (arrays b) st) m.
Proof.
  intros Hok. destruct m as [x|g|m]; cbn [reduceShareMessage spec_reduce].
  - by intros [= <- <-].
  - change (generation (absState (arrays b) st)) with (generation st).
    case_bool_decide; intros [= <- <-]; [done|]. split; [|done].
    split; cbn; [constructor|apply Hok|..]; intros; by exfalso; eapply not_elem_of_nil.
  - change (seq (absState (arrays b) st)) with (seq st).
    destruct (already_applied (msg_seq m) (seq st)); [by intros [= <- <-]|].
    destruct (applyStored st m b) as [st1 b1] eqn:E. intros [= <- <-].
    destruct (applyStored_refines _ _ _ _ _ _ Hok E) as [Hok' Habs].
    rewrite <- Habs. by destruct (msg_seq m).
Qed.

Definition state_ok (store : list (list ShareEvent)) (st : SharedRunState nat) : Prop :=
  batch_ok store (mkBatch store []) (map key (sessions st)).

Lemma fold_refines store ms st b st' b' :
  batch_ok store b (map key (sessions st)) ->
  fold_left (fun '(st, b) m => reduceShareMessage st m b) ms (st, b) = (st', b') ->
  batch_ok store b' (map key (sessions st')) /\
  absState (arrays b') st' = fold_left spec_reduce ms (absState (arrays b) st).
Proof.
  revert st b. induction ms as [|m ms IH]; intros st b Hok; cbn [fold_left].
  - by intros [= <- <-].
  - destruct (reduceShareMessage st m b) as [st1 b1] eqn:E.
    destruct (reduce_refines _ _ _ _ _ _ Hok E) as [Hok1 <-]. by apply IH.
Qed.

Lemma applyShareMessages_refines store ms st st' store' :
  state_ok store st -> applyShareMessages st ms store = (st', store') ->
  absState store' st' = fold_left spec_reduce ms (absState store st) /\
  store `prefix_of` store' /\ state_ok store' st'.
Proof.
  intros Hok. unfold applyShareMessages.
  destruct (fold_left _ _ _) as [st1 b1] eqn:E. intros [= <- <-].
  destruct (fold_refines _ _ _ _ _ _ Hok E) as [[Hn Hp Hv _ _] Habs].
  split_and!; [done..|]. split; cbn; [done|done|done|by intros|by intros].
Qed.

Lemma create_ok : state_ok [] createSharedRunState.
Proof. split; cbn; [constructor|done|..]; intros; by exfalso; eapply not_elem_of_nil. Qed.

Lemma absState_prefix store store' st :
  state_ok store st -> store `prefix_of` store' -> absState store' st = absState store st.
Proof.
  intros Hok [k ->]. unfold absState, with_sessions. f_equal. apply map_ext_in.
  intros s Hs%list_elem_of_In. unfold absSession. f_equal.
  apply array_at_prefix, (bo_valid _ _ _ Hok (s_id s)). apply list_elem_of_fmap. by exists s.
Qed.

(** ** The log is applied once *)

(** The state holds the message: it was applied, or skipped for a later one. *)
Definition holds (n : Z) (st : SharedRunState (list ShareEvent)) : bool :=
  already_applied (Some n) (seq st).

Lemma seq_spec_apply st m : seq (spec_apply st m) = seq st.
Proof. destruct m; cbn; by repeat case_match. Qed.

Lemma spec_reduce_holds st m n : msg_seq m = Some n -> holds n (spec_reduce st (UStored m)) = true.
Proof.
  intros Hn. cbn. rewrite Hn. destruct (already_applied (Some n) (seq st)) eqn:E; [done|].
  unfold holds. cbn. lia.
Qed.

Lemma spec_reduce_holds_mono st m n :
  is_Some (msg_seq m) -> holds n st = true -> holds n (spec_reduce st (UStored m)) = true.
Proof.
  intros [k Hk] H. cbn. rewrite Hk. destruct (already_applied (Some k) (seq st)) eqn:E; [done|].
  unfold holds in *. cbn in *. destruct (seq st) as [z|]; [|done]. reflect_bools. lia.
Qed.

Lemma fold_holds ms st m n :
  Forall (fun m => is_Some (msg_seq m)) ms -> msg_seq m = Some n -> m ∈ ms \/ holds n st = true ->
  holds n (fold_left spec_reduce (map UStored ms) st) = true.
Proof.
  intros Hf Hn. revert st. induction Hf as [|x ms Hx Hms IH]; intros st H; cbn [map fold_left].
  - destruct H as [H|H]; [by apply not_elem_of_nil in H|done].
  - apply IH. destruct H as [[->|H]%elem_of_cons|H]; [right|by left|right].
    + by apply spec_reduce_holds.
    + by apply spec_reduce_holds_mono.
Qed.

Lemma fold_redelivered dup st :
  Forall (fun m => exists n, msg_seq m = Some n /\ holds n st = true) dup ->
  fold_left spec_reduce (map UStored dup) st = st.
Proof.
  induction 1 as [|m dup (n & Hn & Hh) _ IH]; [done|]. cbn [map fold_left spec_reduce].
  unfold holds in Hh. by rewrite Hn, Hh.
Qed.

(** ** Grids stay within the viewer's limits *)

Definition session_grid_ok (s : ShareSession (list ShareEvent)) : Prop :=
  grid_ok (mkShareGrid (s_cols s) (s_rows s)).

Lemma last_resize_ok es g : last_resize es = Some g -> grid_ok g.
Proof.
  induction es as [|e es IH]; cbn [last_resize]; [done|]. case_match; [|done].
  destruct (parseShareResize (JStr (ev_data e))) as [h|] eqn:E; [|done].
  intros [= <-]. cbn in E. repeat case_match; simplify_eq. apply clampShareGrid_ok.
Qed.

Lemma currentShareGrid_ok s : session_grid_ok s -> grid_ok (currentShareGrid s).
Proof.
  intros H. unfold currentShareGrid. destruct (last_resize _) eqn:E; [|done].
  by eapply last_resize_ok.
Qed.

Lemma on_session_grid_ok id f st :
  (forall s, s_cols (f s) = s_cols s /\ s_rows (f s) = s_rows s) ->
  Forall session_grid_ok (sessions st) -> Forall session_grid_ok (sessions (on_session id f st)).
Proof.
  intros Hf H. cbn. apply Forall_fmap. eapply Forall_impl; [exact H|]. intros s Hs. cbn.
  case_match; [|done]. unfold session_grid_ok. destruct (Hf s) as [-> ->]. done.
Qed.

Lemma spec_reduce_grid_ok st m :
  Forall session_grid_ok (sessions st) -> Forall session_grid_ok (sessions (spec_reduce st m)).
Proof.
  intros H. destruct m as [x|g|m]; cbn [spec_reduce]; [done|by case_match|].
  case_match; [done|].
  assert (Forall session_grid_ok (sessions (spec_apply st m))) as Ha.
  { destruct m; cbn [spec_apply]; try done; try (by apply on_session_grid_ok).
    - case_match.
      + apply on_session_grid_ok; [|done]. intros s. unfold resumeSession. by case_match.
      + cbn. apply Forall_app. split; [done|]. constructor; [|done].
        apply clampShareGrid_ok.
    - apply on_session_grid_ok; [|done]. intros s. unfold detachSession. by case_match. }
  by case_match.
Qed.

Lemma fold_grid_ok ms st :
  Forall session_grid_ok (sessions st) ->
  Forall session_grid_ok (sessions (fold_left spec_reduce ms st)).
Proof. revert st. induction ms as [|m ms IH]; intros st H; [done|]. by apply IH, spec_reduce_grid_ok. Qed.

(** ** The recording keeps the log's times *)

(** The events that have a line, and the times and running times of both. *)
Definition playable (e : ShareEvent) : bool :=
  (ev_code e =s "o")
  || ((ev_code e =s "r") && bool_decide (parseShareResize (JStr (ev_data e)) <> None)).

Fixpoint running_max (p : Z) (es : list ShareEvent) : list Z :=
  match es with
  | [] => []
  | e :: es =>
      let t := match num_round (ev_ms e) with Some ms => Z.max ms p | None => p end in
      t :: running_max t es
  end.

Fixpoint running_sum (p : Z) (ls : list CastLine) : list Z :=
  match ls with
  | [] => []
  | CastHeader _ _ :: ls => running_sum p ls
  | CastEvent i _ _ :: ls => p + i :: running_sum (p + i) ls
  end.

Definition interval_nonneg (l : CastLine) : Prop :=
  match l with CastHeader _ _ => True | CastEvent i _ _ => 0 <= i end.

Lemma castEvents_times browser p es :
  running_sum p (castEvents browser p es) = running_max p (List.filter playable es) /\
  Forall interval_nonneg (castEvents browser p es).
Proof.
  revert p. induction es as [|e es IH]; intros p; [by split|].
  cbn [castEvents List.filter]. unfold playable at 1.
  set (t := match num_round (ev_ms e) with Some ms => Z.max ms p | None => p end).
  assert (Hp : p + (t - p) = t) by lia.
  assert (0 <= t - p) by (unfold t; case_match; lia).
  destruct (ev_code e =s "o") eqn:Eo; cbn [orb].
  - cbn [running_sum running_max]. fold t. rewrite Hp. destruct (IH t) as [-> ?]. by repeat constructor.
  - destruct (ev_code e =s "r"); cbn [andb]; [|apply IH].
    destruct (parseShareResize (JStr (ev_data e))) as [g|] eqn:E.
    + rewrite bool_decide_eq_true_2 by done. cbn [running_sum running_max]. fold t. rewrite Hp.
      destruct (IH t) as [-> ?]. by repeat constructor.
    + rewrite bool_decide_eq_false_2 by (intros H0; by apply H0). apply IH.
Qed.

Lemma toCrlf_idem_strong (n : nat) s :
  (String.length s <= n)%nat -> toCrlf (toCrlf s) = toCrlf s.
Proof.
  revert s. induction n as [|n IH]; intros [|c s] H; cbn in H; try done; [lia|].
  assert (Hcr : forall t, toCrlf (String carriage_return (String line_feed t))
    = String carriage_return (String line_feed (toCrlf t))) by done.
  cbn [toCrlf]. destruct (Ascii.eqb c line_feed) eqn:Ec.
  { rewrite Hcr, IH by lia. done. }
  destruct s as [|d s]; [cbn; by rewrite Ec|].
  destruct (Ascii.eqb c carriage_return && Ascii.eqb d line_feed) eqn:E.
  { cbn in H. rewrite Hcr, IH by lia. done. }
  assert (IHs : toCrlf (toCrlf (String d s)) = toCrlf (String d s)) by (apply IH; lia).
  remember (toCrlf (String d s)) as t eqn:Et.
  change (toCrlf (String c t) = String c t).
  destruct t as [|d' t']; cbn [toCrlf]; rewrite Ec; [done|].
  destruct (Ascii.eqb c carriage_return && Ascii.eqb d' line_feed) eqn:E'; cycle 1.
  { f_equal. exact IHs. }
  exfalso. apply andb_true_iff in E' as [Ec' Ed']. rewrite Ec' in E. cbn in E.
  cbn [toCrlf] in Et. rewrite E in Et.
  apply Ascii.eqb_eq in Ed' as ->. destruct s as [|d2 s].
  - injection Et as Hd _. by rewrite <- Hd in E.
  - destruct (Ascii.eqb d carriage_return && Ascii.eqb d2 line_feed); [done|].
    injection Et as Hd _. by rewrite <- Hd in E.
Qed.

(** ** Tabs *)

Lemma tabs_from_index {E} (st : SharedRunState E) perVm seen l k t :
  (forall vm, nullish (Map_get vm perVm) 0 =
     Z.of_nat (length (List.filter (fun s : ShareSession E => s_vmId s =s vm) seen))) ->
  tabs_from st perVm l !! k = Some t ->
  l !! k = Some (tab_session t) /\
  tab_index t = 1 + Z.of_nat (length
    (List.filter (fun s => s_vmId s =s s_vmId (tab_session t)) (seen ++ take k l))).
Proof.
  revert perVm seen k. induction l as [|s l IH]; intros perVm seen k Hper Ht; [done|].
  destruct k as [|k]; cbn [tabs_from lookup list_lookup] in Ht |- *.
  - injection Ht as <-. cbn. rewrite app_nil_r, Hper. split; [done|lia].
  - cbn [take]. rewrite (cons_middle s seen), app_assoc. eapply IH; [|exact Ht]. intros vm.
    rewrite List.filter_app, length_app. cbn [List.filter].
    destruct (s_vmId s =s vm) eqn:Ev.
    + apply String.eqb_eq in Ev as <-. rewrite Map_get_set_eq. cbn. rewrite Hper. lia.
    + apply String.eqb_neq in Ev. rewrite Map_get_set_ne, Hper by congruence. cbn. lia.
Qed.

Lemma tabs_from_length {E} (st : SharedRunState E) perVm l : length (tabs_from st perVm l) = length l.
Proof. revert perVm. induction l as [|s l IH]; intros perVm; cbn; [done|]. by rewrite IH. Qed.

(** * Properties *)

(** C36. A batch that appends to the arrays it owns in place ends with the state
    the reducer that copies for every message ends with, and no array of the
    program from before the batch has changed: any state the caller still holds
    reads the same events as before. *)
Theorem share_batch_refines_copying store ms st st' store' :
  state_ok store st -> applyShareMessages st ms store = (st', store') ->
  absState store' st' = fold_left spec_reduce ms (absState store st) /\
  state_ok store' st' /\
  (forall held, state_ok store held -> absState store' held = absState store held).
Proof.
  intros Hok H. destruct (applyShareMessages_refines _ _ _ _ _ Hok H) as (Habs & Hp & Hok').
  split_and!; [done..|]. intros held Hh. by apply absState_prefix.
Qed.

(** Delivering messages again changes nothing: after a batch of stored
    messages, a later batch that repeats any of them (in any order) before new
    ones leaves the viewer with the sessions, the events and the sequence number
    of having been given every message once. *)
Theorem share_redelivery_draws_once store st ms dup rest st1 store1 st2 store2 stA storeA :
  state_ok store st ->
  Forall (fun m => is_Some (msg_seq m)) ms -> (forall m, m ∈ dup -> m ∈ ms) ->
  applyShareMessages st (map UStored ms) store = (st1, store1) ->
  applyShareMessages st1 (map UStored (dup ++ rest)) store1 = (st2, store2) ->
  applyShareMessages st (map UStored (ms ++ rest)) store = (stA, storeA) ->
  absState store2 st2 = absState storeA stA.
Proof.
  intros Hok Hseq Hdup H1 H2 HA.
  destruct (applyShareMessages_refines _ _ _ _ _ Hok H1) as (E1 & _ & Hok1).
  destruct (applyShareMessages_refines _ _ _ _ _ Hok1 H2) as (E2 & _ & _).
  destruct (applyShareMessages_refines _ _ _ _ _ Hok HA) as (EA & _ & _).
  rewrite E2, EA, E1, !map_app, !fold_left_app. f_equal. apply fold_redelivered.
  apply Forall_forall. intros m Hm%Hdup.
  destruct (proj1 (Forall_forall _ _) Hseq m Hm) as [n Hn]. exists n. split; [done|].
  eapply fold_holds; [done..|]. by left.
Qed.

(** Once a [start] is applied, for a new session or for one whose writer
    came back, the session is live and its current grid is the size the writer
    reported, brought within the viewer's limits; a size the log had not seen is
    in the log as a resize. *)
Theorem share_start_sets_grid store st n id vm mode c r at_ms mid res st' store' :
  state_ok store st -> already_applied n (seq st) = false ->
  applyShareMessages st [UStored (MStart n id vm mode c r at_ms mid res)] store = (st', store') ->
  exists s, s ∈ sessions (absState store' st') /\ s_id s = id /\ s_status s = SessLive /\
            currentShareGrid s = clampShareGrid c r.
Proof.
  intros Hok Hn H. destruct (applyShareMessages_refines _ _ _ _ _ Hok H) as (-> & _ & _).
  cbn [fold_left spec_reduce msg_seq]. change (seq (absState store st)) with (seq st). rewrite Hn.
  set (s0 := absState store st).
  assert (forall x : SharedRunState (list ShareEvent), sessions (match n with Some k => with_seq k x | None => x end) = sessions x)
    as Hs by (intros; by destruct n).
  rewrite Hs. cbn [spec_apply]. destruct (str_mem id _) eqn:E.
  - apply str_mem_In, in_map_iff in E as (s & Es & Hin).
    exists (resumeSession (clampShareGrid c r) s). split_and!.
    + apply list_elem_of_In, in_map_iff. exists s. by rewrite Es, String.eqb_refl.
    + rewrite <- Es. unfold resumeSession. by destruct (bool_decide _).
    + unfold resumeSession. by destruct (bool_decide _).
    + apply resume_grid, clampShareGrid_ok.
  - eexists. split; [apply elem_of_app; right; by left|]. split_and!; [done..|].
    unfold currentShareGrid. cbn [s_events reverse last_resize nullish s_cols s_rows].
    by destruct (clampShareGrid c r).
Qed.

(** Whatever the log says, no grid the viewer draws is smaller than a
    terminal's minimum or larger than 1000 cells either way, at any point of any
    sequence of messages. *)
Theorem share_grids_bounded ms st store :
  applyShareMessages createSharedRunState ms [] = (st, store) ->
  Forall (fun s => grid_ok (currentShareGrid s)) (sessions (absState store st)).
Proof.
  intros H. destruct (applyShareMessages_refines _ _ _ _ _ create_ok H) as (-> & _ & _).
  eapply Forall_impl; [apply fold_grid_ok; constructor|]. apply currentShareGrid_ok.
Qed.

(** The recording plays at the log's own times: no interval is negative, and
    the intervals up to each line add up to the latest rounded time of the events
    that have a line so far (a clock that steps back stalls). *)
Theorem share_cast_keeps_times s :
  Forall interval_nonneg (castLines s) /\
  running_sum 0 (castLines s) = running_max 0 (List.filter playable (s_events s)).
Proof.
  unfold castLines. destruct (castEvents_times (s_mode s =s "browser") 0 (s_events s)) as [H1 H2].
  split; [by constructor|exact H1].
Qed.

(** Converting line ends twice is converting them once. *)
Lemma toCrlf_idem s : toCrlf (toCrlf s) = toCrlf s.
Proof. by eapply toCrlf_idem_strong. Qed.

(** The tabs are the sessions in arrival order, each numbered by how many of its
    machine's sessions came before it. *)
Lemma shareTabs_numbered {E} (st : SharedRunState E) k s :
  sessions st !! k = Some s ->
  exists t, shareTabs st !! k = Some t /\ tab_session t = s /\
    tab_index t = 1 + Z.of_nat (length
      (List.filter (fun x => s_vmId x =s s_vmId s) (take k (sessions st)))).
Proof.
  intros Hk. assert (k < length (shareTabs st))%nat as Hlt
    by (unfold shareTabs; rewrite tabs_from_length; by eapply lookup_lt_Some).
  destruct (lookup_lt_is_Some_2 _ _ Hlt) as [t Ht]. exists t. split; [done|].
  unfold shareTabs in Ht. apply (tabs_from_index st [] []) in Ht as [H1 H2]; [|done].
  rewrite Hk in H1. injection H1 as ->. done.
Qed.

(** ** Witnesses *)

Definition w_out (ms : Z) (t : string) : ShareEvent := mkShareEvent (NInt ms) "o" t.
Definition w_start : StoredShareMessage :=
  MStart (Some 1) "s1" "vm-a" "browser" (JNum (NInt 80)) (JNum (NInt 24)) 0 false false.
Definition w_events : StoredShareMessage := MEvents (Some 2) "s1" (Some [w_out 5 "hi"]).
Definition w_more : StoredShareMessage := MEvents (Some 3) "s1" (Some [w_out 9 "there"]).

Definition w_run (ms : list StoredShareMessage) :=
  applyShareMessages createSharedRunState (map UStored ms) [].

Lemma share_batch_refines_copying_witness :
  exists st1 store1 st2 store2,
    w_run [w_start; w_events] = (st1, store1) /\
    applyShareMessages st1 [UStored w_more] store1 = (st2, store2) /\
    absState store2 st1 = absState store1 st1 /\
    map s_events (sessions (absState store2 st2)) = [[w_out 5 "hi"; w_out 9 "there"]].
Proof.
  destruct (w_run [w_start; w_events]) as [st1 store1] eqn:E1.
  destruct (applyShareMessages st1 [UStored w_more] store1) as [st2 store2] eqn:E2.
  exists st1, store1, st2, store2.
  destruct (share_batch_refines_copying _ _ _ _ _ create_ok E1) as (_ & Hok & _).
  destruct (share_batch_refines_copying _ _ _ _ _ Hok E2) as (_ & _ & Hheld).
  split_and!; [done..|by apply Hheld|].
  vm_compute in E1. injection E1 as <- <-. vm_compute in E2. injection E2 as <- <-. reflexivity.
Defined.

Lemma share_redelivery_draws_once_witness :
  let r1 := w_run [w_start; w_events] in
  let r2 := applyShareMessages r1.1 (map UStored ([w_events; w_start] ++ [w_more])) r1.2 in
  let rA := w_run ([w_start; w_events] ++ [w_more]) in
  absState r2.2 r2.1 = absState rA.2 rA.1.
Proof.
  intros r1 r2 rA.
  refine (share_redelivery_draws_once [] createSharedRunState [w_start; w_events]
    [w_events; w_start] [w_more] r1.1 r1.2 r2.1 r2.2 rA.1 rA.2 create_ok _ _
    (surjective_pairing _) (surjective_pairing _) (surjective_pairing _)).
  - repeat constructor; by eexists.
  - intros m [->|[->|[]%not_elem_of_nil]%elem_of_cons]%elem_of_cons; repeat constructor.
Defined.

Lemma share_start_sets_grid_witness :
  let r1 := w_run [w_start; w_events] in
  let r2 := applyShareMessages r1.1
    [UStored (MStart (Some 3) "s1" "vm-a" "browser" (JNum (NInt 100)) (JNum (NInt 40)) 0 false true)]
    r1.2 in
  exists s, s ∈ sessions (absState r2.2 r2.1) /\ s_id s = "s1" /\ s_status s = SessLive /\
            currentShareGrid s = mkShareGrid 100 40.
Proof.
  intros r1 r2.
  refine (share_start_sets_grid r1.2 r1.1 (Some 3) "s1" "vm-a" "browser" (JNum (NInt 100))
    (JNum (NInt 40)) 0 false true r2.1 r2.2 _ eq_refl (surjective_pairing _)).
  exact (proj2 (proj2 (applyShareMessages_refines [] _ _ _ _ create_ok (surjective_pairing r1)))).
Defined.

Lemma share_grids_bounded_witness :
  let r := w_run [MStart (Some 1) "s1" "vm-a" "native" (JNum (NInt 99999)) (JStr "tall") 0 true false] in
  Forall (fun s => grid_ok (currentShareGrid s)) (sessions (absState r.2 r.1)) /\
  map currentShareGrid (sessions (absState r.2 r.1)) = [mkShareGrid 1000 30].
Proof.
  intros r. split; [|vm_compute; reflexivity].
  exact (share_grids_bounded _ r.1 r.2 (surjective_pairing _)).
Defined.
