(* ===== verification/SharePump.v ===== *)
(** The writer of a session's events to a terminal
    (lib/run-share/shared-run-pump.ts). The terminal (xterm) is a queue of
    writes: it parses them in order, later, and calls a write's callback once it
    has parsed it, while a resize takes effect at once. The pump is the closure's
    variables beside that queue, and a run of the program interleaves [push],
    [dispose] and the terminal parsing its next write. *)
From stdpp Require Import base list strings relations.
From Stdlib Require Import ZArith Lia.
From S2P Require Import Prelude Json Text ShareModel.

Open Scope string_scope.
Open Scope list_scope.
Open Scope Z_scope.

Definition PENDING_LIMIT : Z := 2000000.
Definition CHUNK_SIZE : Z := 64000.

(** What a write's callback does. *)
Inductive Callback :=
| ThenResize (grid : ShareGrid)
| ThenRun (size : Z).

Record Write := mkWrite { w_data : string; w_callback : Callback }.

(** What the terminal has done: text it parsed, and resizes. *)
Inductive Act :=
| Parsed (data : string)
| Resized (cols rows : Z).

Record Pump := mkPump {
  p_log : list ShareEvent;
  p_end : nat;
  p_index : nat;
  p_pending : Z;
  p_disposed : bool;
  p_queue : list Write;    (* writes the terminal has not parsed *)
  p_screen : list Act;     (* what it has done *)
}.

Definition createShareEventPump : Pump := mkPump [] 0 0 0 false [] [].

(** The inner loop: output joined into one chunk, and how many events it took. *)
Fixpoint take_chunk (chunk : string) (events : list ShareEvent) : string * nat :=
  match events with
  | e :: rest =>
      if (slen chunk <? CHUNK_SIZE) && (ev_code e =s "o")
      then let '(c, n) := take_chunk (chunk +:+ ev_data e) rest in (c, S n)
      else (chunk, O)
  | [] => (chunk, O)
  end.

Definition loop_guard (p : Pump) : bool :=
  negb (p_disposed p) && (p_index p <? p_end p)%nat && (p_pending p <? PENDING_LIMIT).

Definition set_index (i : nat) (p : Pump) : Pump :=
  mkPump (p_log p) (p_end p) i (p_pending p) (p_disposed p) (p_queue p) (p_screen p).
Definition sink_write (data : string) (cb : Callback) (p : Pump) : Pump :=
  mkPump (p_log p) (p_end p) (p_index p) (p_pending p) (p_disposed p)
    (p_queue p ++ [mkWrite data cb]) (p_screen p).
Definition add_pending (n : Z) (p : Pump) : Pump :=
  mkPump (p_log p) (p_end p) (p_index p) (p_pending p + n) (p_disposed p) (p_queue p) (p_screen p).

(** One turn of the loop body at the event [log[index]]. *)
Definition loop_body (p : Pump) : Pump :=
  match drop (p_index p) (take (p_end p) (p_log p)) with
  | [] => p
  | (event :: _) as rest =>
      if ev_code event =s "r" then
        let p1 := set_index (p_index p + 1) p in
        match parseShareResize (JStr (ev_data event)) with
        | Some grid => sink_write "" (ThenResize grid) p1
        | None => p1
        end
      else
        let '(chunk, n) := take_chunk "" rest in
        if (n =? 0)%nat then set_index (p_index p + 1) p
        else
          let p1 := set_index (p_index p + n) p in
          if slen chunk =? 0 then p1
          else sink_write chunk (ThenRun (slen chunk)) (add_pending (slen chunk) p1)
  end.

Fixpoint run_loop (fuel : nat) (p : Pump) : Pump :=
  match fuel with
  | O => p
  | S fuel => if loop_guard p then run_loop fuel (loop_body p) else p
  end.

(** Every turn passes an event, so as many turns as there are events are enough. *)
Definition run (p : Pump) : Pump := run_loop (p_end p - p_index p) p.

Definition push_events (events : list ShareEvent) (until : nat) (p : Pump) : Pump :=
  run (mkPump events (Nat.min until (length events)) (p_index p) (p_pending p) (p_disposed p)
         (p_queue p) (p_screen p)).

Definition dispose (p : Pump) : Pump :=
  mkPump (p_log p) (p_end p) (p_index p) (p_pending p) true (p_queue p) (p_screen p).

Definition run_callback (cb : Callback) (p : Pump) : Pump :=
  match cb with
  | ThenResize grid =>
      if p_disposed p then p
      else mkPump (p_log p) (p_end p) (p_index p) (p_pending p) (p_disposed p) (p_queue p)
             (p_screen p ++ [Resized (cols grid) (rows grid)])
  | ThenRun size => run (add_pending (- size) p)
  end.

(** The terminal parses its next write and calls back. *)
Definition drain (p : Pump) : Pump :=
  match p_queue p with
  | [] => p
  | w :: q =>
      run_callback (w_callback w)
        (mkPump (p_log p) (p_end p) (p_index p) (p_pending p) (p_disposed p) q
           (p_screen p ++ [Parsed (w_data w)]))
  end.

(** Each [push] passes the same log, grown. *)
Inductive pump_step : Pump -> Pump -> Prop :=
| step_push p events until :
    p_log p `prefix_of` events -> pump_step p (push_events events until p)
| step_drain p w q : p_queue p = w :: q -> pump_step p (drain p)
| step_dispose p : pump_step p (dispose p).

(** * What the viewer should see *)

Inductive Item := Unit (c : Ascii.ascii) | Grid (cols rows : Z).

Definition text_items (s : string) : list Item := map Unit (String.list_ascii_of_string s).

Definition event_items (e : ShareEvent) : list Item :=
  if ev_code e =s "o" then text_items (ev_data e)
  else if ev_code e =s "r" then
    match parseShareResize (JStr (ev_data e)) with
    | Some g => [Grid (cols g) (rows g)]
    | None => []
    end
  else [].

Definition write_items (w : Write) : list Item :=
  text_items (w_data w) ++
  match w_callback w with ThenResize g => [Grid (cols g) (rows g)] | ThenRun _ => [] end.

Definition act_items (a : Act) : list Item :=
  match a with Parsed s => text_items s | Resized c r => [Grid c r] end.

Definition log_items (es : list ShareEvent) : list Item := es ≫= event_items.
Definition queue_items (q : list Write) : list Item := q ≫= write_items.
Definition screen_items (s : list Act) : list Item := s ≫= act_items.

Definition write_size (w : Write) : Z :=
  match w_callback w with ThenRun n => n | ThenResize _ => 0 end.
Definition queue_size (q : list Write) : Z := foldr Z.add 0 (map write_size q).

(** * Lemmas *)

Lemma text_items_app a b : text_items (a +:+ b) = text_items a ++ text_items b.
Proof. unfold text_items. induction a as [|c a IH]; [done|].
  change (Unit c :: map Unit (String.list_ascii_of_string (a +:+ b)) =
    Unit c :: (map Unit (String.list_ascii_of_string a) ++ map Unit (String.list_ascii_of_string b))).
  by rewrite IH.
Qed.

Lemma take_chunk_spec chunk es c n :
  take_chunk chunk es = (c, n) ->
  text_items c = text_items chunk ++ log_items (take n es) /\ (n <= length es)%nat.
Proof.
  revert chunk c n. induction es as [|e es IH]; intros chunk c n; cbn [take_chunk].
  - intros [= <- <-]. cbn. by rewrite app_nil_r.
  - destruct ((slen chunk <? CHUNK_SIZE) && (ev_code e =s "o")) eqn:E.
    + destruct (take_chunk _ es) as [c' n'] eqn:Et. intros [= <- <-].
      destruct (IH _ _ _ Et) as [-> Hn]. apply andb_true_iff in E as [_ E].
      cbn [take length]. split; [|lia]. unfold log_items. rewrite bind_cons.
      unfold event_items at 2. rewrite E, text_items_app, <- app_assoc. done.
    + intros [= <- <-]. cbn. rewrite app_nil_r. split; [done|lia].
Qed.

Lemma take_chunk_size m chunk es c n :
  Forall (fun e => slen (ev_data e) <= m) es -> take_chunk chunk es = (c, n) ->
  slen chunk < CHUNK_SIZE + m -> 0 <= m -> slen c < CHUNK_SIZE + m.
Proof.
  revert chunk c n. induction es as [|e es IH]; intros chunk c n Hf; cbn [take_chunk].
  - by intros [= <- <-].
  - apply Forall_cons in Hf as [He Hf].
    destruct ((slen chunk <? CHUNK_SIZE) && (ev_code e =s "o")) eqn:E.
    + destruct (take_chunk _ es) as [c' n'] eqn:Et. intros [= <- <-] _ Hm.
      reflect_bools. eapply (IH _ _ _ Hf Et); [rewrite slen_app; lia|done].
    + by intros [= <- <-].
Qed.

Lemma take_drop_items (es : list ShareEvent) i n :
  log_items (take i es) ++ log_items (take n (drop i es)) = log_items (take (i + n) es).
Proof.
  unfold log_items. rewrite <- bind_app. f_equal.
  rewrite <- (take_take_drop (A := ShareEvent) es i n). done.
Qed.

(** ** The invariant of the pump *)

Record pump_ok (p : Pump) : Prop := {
  po_end : (p_end p <= length (p_log p))%nat;
  po_index : (p_index p <= length (p_log p))%nat;
  po_items : p_disposed p = false ->
    screen_items (p_screen p) ++ queue_items (p_queue p) = log_items (take (p_index p) (p_log p));
  po_pending : p_pending p = queue_size (p_queue p);
  po_sizes : Forall (fun w => 0 <= write_size w) (p_queue p);
}.

(** The loop stopped because it had to. *)
Definition pump_idle (p : Pump) : Prop := loop_guard p = false.

Lemma queue_size_app q1 q2 : queue_size (q1 ++ q2) = queue_size q1 + queue_size q2.
Proof. unfold queue_size. induction q1 as [|w q1 IH]; cbn; [done|]. lia. Qed.

Lemma queue_items_app q1 q2 : queue_items (q1 ++ q2) = queue_items q1 ++ queue_items q2.
Proof. apply bind_app. Qed.

Lemma screen_items_snoc s a : screen_items (s ++ [a]) = screen_items s ++ act_items a.
Proof. unfold screen_items. rewrite bind_app. cbn. by rewrite app_nil_r. Qed.

Lemma rest_take (p : Pump) n :
  (p_index p + n <= p_end p)%nat ->
  take n (drop (p_index p) (take (p_end p) (p_log p))) = take n (drop (p_index p) (p_log p)).
Proof. intros H. rewrite skipn_firstn_comm, take_take. f_equal. lia. Qed.

Lemma rest_length (p : Pump) :
  (p_end p <= length (p_log p))%nat ->
  length (drop (p_index p) (take (p_end p) (p_log p))) = (p_end p - p_index p)%nat.
Proof. intros H. rewrite length_drop, length_take. lia. Qed.

(** Read the fields of an updated pump. *)
Ltac pump_fields :=
  cbn [p_end p_log p_index p_queue p_screen p_pending p_disposed
       sink_write add_pending set_index dispose] in *.

Lemma set_index_ok p n :
  pump_ok p -> (p_index p + n <= p_end p)%nat ->
  log_items (take n (drop (p_index p) (p_log p))) = [] -> pump_ok (set_index (p_index p + n) p).
Proof.
  intros [He Hi Hit Hp Hs] Hn Hnil. split; pump_fields; [done|lia| |done..].
  intros Hd. by rewrite (Hit Hd), <- take_drop_items, Hnil, app_nil_r.
Qed.

Lemma sink_write_ok p n data cb :
  pump_ok p -> (p_index p + n <= p_end p)%nat -> 0 <= write_size (mkWrite data cb) ->
  log_items (take n (drop (p_index p) (p_log p))) = write_items (mkWrite data cb) ->
  pump_ok (sink_write data cb
    (add_pending (write_size (mkWrite data cb)) (set_index (p_index p + n) p))).
Proof.
  intros [He Hi Hit Hp Hs] Hn Hz Hw. split; pump_fields; [done|lia|..].
  - intros Hd. rewrite queue_items_app, app_assoc, (Hit Hd), <- take_drop_items, Hw.
    f_equal. unfold queue_items. cbn. by rewrite app_nil_r.
  - rewrite queue_size_app, Hp. unfold queue_size. cbn. lia.
  - apply Forall_app. by split; [|constructor].
Qed.

(** A turn passes at least one event and keeps the invariant. *)
Lemma loop_body_ok p :
  pump_ok p -> (p_index p < p_end p)%nat ->
  pump_ok (loop_body p) /\ (p_index p < p_index (loop_body p) <= p_end p)%nat /\
  p_end (loop_body p) = p_end p /\ p_log (loop_body p) = p_log p /\
  p_disposed (loop_body p) = p_disposed p.
Proof.
  intros Hok Hlt. pose proof Hok as [He Hi Hit Hp _].
  pose proof (rest_length p He) as Hlen. unfold loop_body.
  destruct (drop (p_index p) (take (p_end p) (p_log p))) as [|e rest] eqn:Er;
    [cbn in Hlen; lia|].
  assert (H1 : take 1 (drop (p_index p) (p_log p)) = [e]) by (rewrite <- rest_take, Er by lia; done).
  assert (H1i : log_items (take 1 (drop (p_index p) (p_log p))) = event_items e)
    by (rewrite H1; unfold log_items; cbn; by rewrite app_nil_r).
  unfold event_items in H1i. destruct (ev_code e =s "r") eqn:Ecode.
  - apply String.eqb_eq in Ecode. rewrite Ecode in H1i. cbn [String.eqb] in H1i.
    change ("r" =s "o") with false in H1i. change ("r" =s "r") with true in H1i.
    destruct (parseShareResize (JStr (ev_data e))) as [g|] eqn:Eg.
    + split; [|pump_fields; split_and!; [lia..|done|done|done]].
      pose proof (sink_write_ok p 1 "" (ThenResize g) Hok ltac:(lia) ltac:(done) H1i) as Hw.
      unfold add_pending in Hw. cbn [write_size w_callback] in Hw. pump_fields.
      by rewrite Z.add_0_r in Hw.
    + split; [|pump_fields; split_and!; [lia..|done|done|done]]. apply set_index_ok; [done|lia|done].
  - destruct (take_chunk "" (e :: rest)) as [chunk n] eqn:Ec.
    destruct (take_chunk_spec _ _ _ _ Ec) as [Hc Hn]. rewrite <- Er in Hc, Hn. rewrite rest_length in Hn by done.
    rewrite rest_take in Hc by lia. change (text_items "") with (@nil Item) in Hc. cbn [app] in Hc.
    destruct (n =? 0)%nat eqn:En.
    + apply Nat.eqb_eq in En as ->. assert ((ev_code e =s "o") = false) as Eo.
      { cbn in Ec. destruct (ev_code e =s "o"); [|done]. destruct (take_chunk _ rest). done. }
      rewrite Eo in H1i. split; [|pump_fields; split_and!; [lia..|done|done|done]].
      apply set_index_ok; [done|lia|done].
    + apply Nat.eqb_neq in En. destruct (slen chunk =? 0) eqn:Es.
      * split; [|pump_fields; split_and!; [lia..|done|done|done]]. apply set_index_ok; [done|lia|].
        apply Z.eqb_eq, slen_zero in Es as ->. by rewrite <- Hc.
      * split; [|pump_fields; split_and!; [lia..|done|done|done]].
        apply (sink_write_ok p n chunk (ThenRun (slen chunk))); [done|lia|apply slen_nonneg|].
        unfold write_items. cbn [w_data w_callback]. by rewrite Hc, app_nil_r.
Qed.

Lemma loop_guard_lt p : loop_guard p = true -> (p_index p < p_end p)%nat.
Proof. unfold loop_guard. intros H. reflect_bools. by apply Nat.ltb_lt. Qed.

(** The loop ends at its guard within as many turns as events are left. *)
Lemma run_loop_ok fuel p :
  pump_ok p -> (p_end p - p_index p <= fuel)%nat ->
  pump_ok (run_loop fuel p) /\ pump_idle (run_loop fuel p) /\
  p_log (run_loop fuel p) = p_log p /\ p_end (run_loop fuel p) = p_end p /\
  p_disposed (run_loop fuel p) = p_disposed p /\ (p_index p <= p_index (run_loop fuel p))%nat.
Proof.
  revert p. induction fuel as [|fuel IH]; intros p Hok Hf; cbn [run_loop].
  - split_and!; try done. unfold pump_idle, loop_guard.
    assert ((p_index p <? p_end p)%nat = false) as -> by (apply Nat.ltb_ge; lia).
    by rewrite andb_false_r.
  - destruct (loop_guard p) eqn:Eg; [|by split_and!].
    apply loop_guard_lt in Eg as Hlt.
    destruct (loop_body_ok p Hok Hlt) as (Hok' & Hi & Hend & Hlog & Hd).
    destruct (IH (loop_body p) Hok') as (H1 & H2 & H3 & H4 & H5 & H6); [rewrite Hend; lia|].
    split_and!; try done; try congruence. lia.
Qed.

Lemma run_ok p :
  pump_ok p ->
  pump_ok (run p) /\ pump_idle (run p) /\ p_log (run p) = p_log p /\ p_end (run p) = p_end p /\
  p_disposed (run p) = p_disposed p /\ (p_index p <= p_index (run p))%nat.
Proof. intros H. by apply run_loop_ok. Qed.

Lemma push_ok_events p events until :
  pump_ok p -> p_log p `prefix_of` events ->
  pump_ok (push_events events until p) /\ pump_idle (push_events events until p).
Proof.
  intros [He Hi Hit Hp Hs] Hpre. unfold push_events.
  enough (pump_ok (mkPump events (Nat.min until (length events)) (p_index p) (p_pending p)
    (p_disposed p) (p_queue p) (p_screen p))) as H by (apply run_ok in H; tauto).
  pose proof (prefix_length _ _ Hpre). split; pump_fields; [lia|lia| |done..].
  intros Hd. rewrite (Hit Hd). destruct Hpre as [k ->]. by rewrite take_app_le by lia.
Qed.

Lemma drain_ok p : pump_ok p -> pump_idle p -> pump_ok (drain p) /\ pump_idle (drain p).
Proof.
  intros Hok Hid. pose proof Hok as [He Hi Hit Hp Hs]. unfold drain.
  destruct (p_queue p) as [|[data cb] q] eqn:Eq; [done|]. cbn [w_callback w_data].
  apply Forall_cons in Hs as [_ Hs]. change (p_pending p = write_size (mkWrite data cb) + queue_size q) in Hp.
  destruct cb as [g|n]; cbn [run_callback p_disposed write_size w_callback] in *.
  - assert (Hi' : forall s, pump_idle (mkPump (p_log p) (p_end p) (p_index p) (p_pending p)
      (p_disposed p) q s)) by done.
    destruct (p_disposed p) eqn:Ed; [split; [split; pump_fields; [done..|lia|done]|done]|].
    split; [split; pump_fields; [done..| |lia|done]|apply Hi'].
    intros _. rewrite <- (Hit eq_refl), !screen_items_snoc, <- !app_assoc.
    unfold queue_items, write_items. rewrite bind_cons. cbn [w_data w_callback act_items].
    by rewrite <- !app_assoc.
  - assert (pump_ok (add_pending (- n) (mkPump (p_log p) (p_end p) (p_index p) (p_pending p)
      (p_disposed p) q (p_screen p ++ [Parsed data])))) as H; [|apply run_ok in H; tauto].
    split; pump_fields; [done..| |lia|done]. intros Hd.
    rewrite <- (Hit Hd), screen_items_snoc, <- app_assoc.
    unfold queue_items, write_items. rewrite bind_cons. cbn [w_data w_callback act_items].
    by rewrite app_nil_r.
Qed.

Lemma pump_step_ok p p' : pump_step p p' -> pump_ok p /\ pump_idle p -> pump_ok p' /\ pump_idle p'.
Proof.
  intros [p0 events until Hpre|p0 w q Hq|p0] [Hok Hid].
  - by apply push_ok_events.
  - by apply drain_ok.
  - split; [|done]. destruct Hok as [He Hi Hit Hp Hs]. by split; pump_fields.
Qed.

Lemma pump_reachable_ok p : rtc pump_step createShareEventPump p -> pump_ok p /\ pump_idle p.
Proof.
  apply (rtc_ind_r (fun p => pump_ok p /\ pump_idle p)).
  - split; [by split|done].
  - intros p1 p2 _ Hs H. by eapply pump_step_ok.
Qed.

(** ** How much waits at the terminal *)

Definition events_within (m : Z) (es : list ShareEvent) : Prop :=
  Forall (fun e => slen (ev_data e) <= m) es.

Lemma loop_body_pending m p :
  0 <= m -> events_within m (p_log p) -> loop_guard p = true ->
  p_pending (loop_body p) < PENDING_LIMIT + CHUNK_SIZE + m.
Proof.
  intros Hm Hw Hg. assert (p_pending p < PENDING_LIMIT) by (unfold loop_guard in Hg; by reflect_bools).
  assert (0 < CHUNK_SIZE) by done. unfold loop_body.
  destruct (drop _ _) as [|e rest] eqn:Er; [lia|].
  assert (events_within m (e :: rest)) as Hr
    by (rewrite <- Er; by apply Forall_drop, Forall_take).
  repeat case_match; subst; pump_fields; try lia.
  all: pose proof (take_chunk_size m "" _ _ _ Hr ltac:(eassumption) ltac:(unfold slen; cbn; lia) Hm); lia.
Qed.

Lemma run_loop_fields fuel p :
  p_log (run_loop fuel p) = p_log p /\ p_end (run_loop fuel p) = p_end p /\
  p_disposed (run_loop fuel p) = p_disposed p.
Proof.
  revert p. induction fuel as [|fuel IH]; intros p; cbn [run_loop]; [done|].
  destruct (loop_guard p); [|done]. destruct (IH (loop_body p)) as (-> & -> & ->).
  unfold loop_body. by repeat case_match.
Qed.

Lemma run_fields p :
  p_log (run p) = p_log p /\ p_end (run p) = p_end p /\ p_disposed (run p) = p_disposed p.
Proof. apply run_loop_fields. Qed.

Lemma run_loop_pending m fuel p :
  0 <= m -> events_within m (p_log p) -> p_pending p < PENDING_LIMIT + CHUNK_SIZE + m ->
  p_pending (run_loop fuel p) < PENDING_LIMIT + CHUNK_SIZE + m.
Proof.
  intros Hm. revert p. induction fuel as [|fuel IH]; intros p Hw Hp; cbn [run_loop]; [done|].
  destruct (loop_guard p) eqn:Eg; [|done].
  apply IH; [|by apply loop_body_pending].
  destruct (run_loop_fields 1 p) as (Hlog & _). cbn [run_loop] in Hlog. rewrite Eg in Hlog.
  by rewrite Hlog.
Qed.

Lemma drain_fields p :
  p_log (drain p) = p_log p /\ p_end (drain p) = p_end p /\ p_disposed (drain p) = p_disposed p.
Proof.
  unfold drain. destruct (p_queue p) as [|[data [g|n]] q]; cbn [w_callback w_data run_callback p_disposed];
    [done|by destruct (p_disposed p)|].
  match goal with |- context [run ?x] => destruct (run_fields x) as (-> & -> & ->) end. done.
Qed.

Lemma drain_pending m p :
  0 <= m -> pump_ok p -> events_within m (p_log p) ->
  p_pending p < PENDING_LIMIT + CHUNK_SIZE + m ->
  p_pending (drain p) < PENDING_LIMIT + CHUNK_SIZE + m.
Proof.
  intros Hm [_ _ _ _ Hs] Hw Hp. unfold drain.
  destruct (p_queue p) as [|[data [g|n]] q]; cbn [w_callback w_data run_callback p_disposed];
    [done|by destruct (p_disposed p)|].
  apply Forall_cons in Hs as [Hn _]. cbn in Hn. apply run_loop_pending; pump_fields; [done..|lia].
Qed.

Lemma step_pending m p p' :
  0 <= m -> pump_step p p' -> pump_ok p ->
  (events_within m (p_log p) -> p_pending p < PENDING_LIMIT + CHUNK_SIZE + m) ->
  events_within m (p_log p') -> p_pending p' < PENDING_LIMIT + CHUNK_SIZE + m.
Proof.
  intros Hm [p0 events until Hpre|p0 w q Hq|p0] Hok IH Hw; [..|by apply IH].
  - unfold push_events in Hw |- *.
    match goal with _ : context [run ?x] |- _ => destruct (run_fields x) as (Hlog & _) end.
    rewrite Hlog in Hw. pump_fields.
    apply run_loop_pending; pump_fields; [done..|]. apply IH.
    destruct Hpre as [k ->]. by apply Forall_app in Hw as [Hw _].
  - destruct (drain_fields p0) as (Hlog & _). rewrite Hlog in Hw. by apply drain_pending; auto.
Qed.

(** ** Draining ends *)

Definition work_left (p : Pump) : nat := length (p_queue p) + (p_end p - p_index p).

Lemma loop_body_work p :
  pump_ok p -> (p_index p < p_end p)%nat -> (work_left (loop_body p) <= work_left p)%nat.
Proof.
  intros Hok Hlt. destruct (loop_body_ok p Hok Hlt) as (_ & Hi & Hend & _).
  assert (length (p_queue (loop_body p)) <= length (p_queue p) + 1)%nat.
  { unfold loop_body. repeat case_match; pump_fields; rewrite ?length_app; cbn; lia. }
  unfold work_left. lia.
Qed.

Lemma run_loop_work fuel p : pump_ok p -> (work_left (run_loop fuel p) <= work_left p)%nat.
Proof.
  revert p. induction fuel as [|fuel IH]; intros p Hok; cbn [run_loop]; [done|].
  destruct (loop_guard p) eqn:Eg; [|done]. apply loop_guard_lt in Eg as Hlt.
  destruct (loop_body_ok p Hok Hlt) as (Hok' & _). etransitivity; [by apply IH|].
  by apply loop_body_work.
Qed.

Lemma drain_work p w q :
  pump_ok p -> pump_idle p -> p_queue p = w :: q -> (work_left (drain p) < work_left p)%nat.
Proof.
  intros Hok Hid Hq. pose proof Hok as [He Hi Hit Hp Hs]. unfold drain. rewrite Hq.
  destruct w as [data [g|n]]; cbn [w_callback w_data run_callback p_disposed].
  - unfold work_left. rewrite Hq. destruct (p_disposed p); pump_fields; cbn; lia.
  - eapply Nat.le_lt_trans; [apply run_loop_work|unfold work_left; rewrite Hq; pump_fields; cbn; lia].
    rewrite Hq in Hit, Hp, Hs. apply Forall_cons in Hs as [_ Hs].
    change (p_pending p = n + queue_size q) in Hp.
    split; pump_fields; [done..| |lia|done]. intros Hd.
    rewrite <- (Hit Hd), screen_items_snoc, <- app_assoc.
    unfold queue_items, write_items. rewrite bind_cons. cbn [w_data w_callback act_items].
    by rewrite app_nil_r.
Qed.

Lemma drain_until_empty n p :
  pump_ok p -> pump_idle p -> (work_left p <= n)%nat ->
  let p' := Nat.iter n drain p in
  p_queue p' = [] /\ pump_ok p' /\ pump_idle p' /\
  p_log p' = p_log p /\ p_end p' = p_end p /\ p_disposed p' = p_disposed p.
Proof.
  revert p. induction n as [|n IH]; intros p Hok Hid Hn.
  - cbn. split_and!; try done. unfold work_left in Hn. destruct (p_queue p); [done|cbn in Hn; lia].
  - rewrite Nat.iter_succ_r. destruct (p_queue p) as [|w q] eqn:Eq.
    + assert (drain p = p) as Hd by (unfold drain; by rewrite Eq).
      assert (forall k, Nat.iter k drain p = p) as Hk by (induction k as [|k IHk]; [done|]; rewrite Nat.iter_succ_r; by rewrite Hd).
      cbn zeta. rewrite Hd, Hk. by split_and!.
    + pose proof (drain_work p w q Hok Hid Eq). destruct (drain_ok p Hok Hid) as [Hok' Hid'].
      destruct (drain_fields p) as (Hl & He & Hd).
      destruct (IH (drain p) Hok' Hid') as (H1 & H2 & H3 & H4 & H5 & H6); [lia|].
      split_and!; try done; congruence.
Qed.

(** * Properties *)

(** However pushes, the terminal's parsing and callbacks interleave, what the
    terminal has drawn followed by what waits in it is the log up to the pump's
    place: output in order, nothing twice and nothing lost, each resize after the
    output before it and ahead of the output after it. *)
Theorem pump_draws_log_in_order p :
  rtc pump_step createShareEventPump p -> p_disposed p = false ->
  screen_items (p_screen p) ++ queue_items (p_queue p)
    = log_items (take (p_index p) (p_log p)).
Proof. intros H Hd. apply pump_reachable_ok in H as [[_ _ Hit _ _] _]. by apply Hit. Qed.

(** C37. The pump never waits for nothing: from any state it can be in, letting
    the terminal parse what it holds (at most once for every queued write and
    unwritten event) draws the whole log up to where the viewer asked. *)
Theorem pump_drains_to_the_end p :
  rtc pump_step createShareEventPump p -> p_disposed p = false ->
  let p' := Nat.iter (work_left p) drain p in
  p_queue p' = [] /\ (p_end p <= p_index p')%nat /\
  screen_items (p_screen p') = log_items (take (p_index p') (p_log p)).
Proof.
  intros H Hd p'. apply pump_reachable_ok in H as [Hok Hid].
  destruct (drain_until_empty (work_left p) p Hok Hid (le_n _)) as (Hq & Hok' & Hid' & Hl & He & Hd').
  fold p' in Hq, Hok', Hid', Hl, He, Hd'. rewrite <- He, <- Hl, Hd in *.
  destruct Hok' as [_ _ Hit Hp _]. split_and!; [done| |].
  - unfold pump_idle, loop_guard in Hid'. rewrite Hd', Hp, Hq in Hid'.
    change (true && (p_index p' <? p_end p')%nat && true = false) in Hid'.
    rewrite andb_true_r in Hid'. cbn in Hid'. by apply Nat.ltb_ge.
  - rewrite <- (Hit Hd'), Hq. cbn. by rewrite app_nil_r.
Qed.

(** What waits at the terminal is bounded far below the 50 MB it would
    discard at: less than the pending limit, one chunk and the longest event. *)
Theorem pump_pending_bounded m p :
  0 <= m -> rtc pump_step createShareEventPump p -> events_within m (p_log p) ->
  0 <= p_pending p < PENDING_LIMIT + CHUNK_SIZE + m.
Proof.
  intros Hm H Hw. split.
  - apply pump_reachable_ok in H as [[_ _ _ -> Hs] _].
    unfold queue_size. induction Hs as [|w q Hw0 _ IH]; cbn; lia.
  - revert Hw. refine (rtc_ind_r (fun p => events_within m (p_log p) ->
      p_pending p < PENDING_LIMIT + CHUNK_SIZE + m) _ _ _ p H).
    + intros _. cbn. unfold PENDING_LIMIT, CHUNK_SIZE. lia.
    + intros p1 p2 Hr Hs IH. eapply step_pending; [done..|by apply pump_reachable_ok|done].
Qed.

(** ** Witnesses *)

Definition w_log : list ShareEvent :=
  [w_out 0 "ls"; mkShareEvent (NInt 3) "r" "100x40"; w_out 4 "ok"; mkShareEvent (NInt 5) "i" "typed"].

Definition w_pump : Pump := drain (push_events w_log 4 createShareEventPump).

Lemma w_pump_reachable : rtc pump_step createShareEventPump w_pump.
Proof.
  eapply rtc_l; [apply (step_push createShareEventPump w_log 4); by exists w_log|].
  apply rtc_once. eapply step_drain. reflexivity.
Qed.

Lemma pump_draws_log_in_order_witness :
  screen_items (p_screen w_pump) ++ queue_items (p_queue w_pump) =
    text_items "ls" ++ [Grid 100 40] ++ text_items "ok".
Proof. exact (pump_draws_log_in_order w_pump w_pump_reachable eq_refl). Defined.

Lemma pump_drains_to_the_end_witness :
  p_queue (Nat.iter (work_left w_pump) drain w_pump) = [] /\
  (4 <= p_index (Nat.iter (work_left w_pump) drain w_pump))%nat.
Proof.
  destruct (pump_drains_to_the_end w_pump w_pump_reachable eq_refl) as (H1 & H2 & _).
  split; [exact H1|exact H2].
Defined.

Lemma pump_pending_bounded_witness : 0 <= p_pending w_pump < PENDING_LIMIT + CHUNK_SIZE + 10.
Proof.
  apply (pump_pending_bounded 10 w_pump); [lia|exact w_pump_reachable|].
  repeat constructor; vm_compute; discriminate.
Defined.
