(* ===== verification/ShareFiles.v ===== *)
(** Reading a share's public files (lib/run-share/protocol.ts and
    shared-run-poller.ts): file names, the plan of files that brings a viewer up
    to the head, the parsers of the head, the mission and the segments, and the
    poller.

    The text of a file is its lines, a line what [JSON.parse] makes of it. A round
    of the poller runs against the answers its requests get, and [close] may be
    called while it waits for any of them: [env_closed k] says whether it has been
    by the time the k-th answer is there. What the poller tells the page is the
    list of its callbacks. *)
From stdpp Require Import base list strings pretty.
From Stdlib Require Import ZArith Lia.
From S2P Require Import Prelude Json Text ShareModel.

Open Scope string_scope.
Open Scope list_scope.
Open Scope Z_scope.

(** * Names of files *)

Definition SHARE_PAGE_PATH : string := "/watch".
Definition SHARE_CHECKPOINT_SEGMENTS : Z := 60.

Definition shareSegmentPath (generation segment : Z) : string :=
  "g" +:+ pretty generation +:+ "/" +:+ pretty segment +:+ ".jsonl".
Definition shareCheckpointPath (generation checkpoint : Z) : string :=
  "g" +:+ pretty generation +:+ "/c" +:+ pretty checkpoint +:+ ".jsonl".
Definition shareUrl (origin shareId : string) : string :=
  origin +:+ SHARE_PAGE_PATH +:+ "#" +:+ shareId.

(** [origin.replace(/\/+$/, "")]. *)
Fixpoint strip_slashes (s : string) : string :=
  match s with
  | EmptyString => EmptyString
  | String c s' =>
      match strip_slashes s' with
      | EmptyString => if Ascii.eqb c (Ascii.ascii_of_nat 47) then EmptyString else String c EmptyString
      | t => String c t
      end
  end.
Definition shareLiveUrl (origin shareId file : string) : string :=
  strip_slashes origin +:+ "/" +:+ shareId +:+ "/" +:+ file.

Record ShareHead := mkShareHead {
  h_generation : Z;
  h_segment : Z;
  h_checkpoint : Z;
  h_seq : num;
  h_truncated : bool;
  h_recorded : bool;
}.

(** * The plan *)

Inductive ShareFile := Segment (n : Z) | Checkpoint (k : Z).
Record ShareFetch := mkShareFetch { sf_file : ShareFile; sf_through : Z }.

Definition file_path (generation : Z) (f : ShareFile) : string :=
  match f with
  | Segment n => shareSegmentPath generation n
  | Checkpoint k => shareCheckpointPath generation k
  end.

(** [lo, ..., hi], empty when [hi < lo]. *)
Definition range (lo hi : Z) : list Z := seqZ lo (hi - lo + 1).

(** [Math.ceil(a / b)] for a positive [b]. *)
Definition ceil_div (a b : Z) : Z := (a + b - 1) / b.

Definition plan_segments (lo hi : Z) : list ShareFetch :=
  map (fun n => mkShareFetch (Segment n) n) (range lo hi).
Definition plan_checkpoints (lo hi : Z) : list ShareFetch :=
  map (fun k => mkShareFetch (Checkpoint k) (k * SHARE_CHECKPOINT_SEGMENTS)) (range lo hi).

Definition shareFetchPlan (applied segment checkpoint : Z) : list ShareFetch :=
  let size := SHARE_CHECKPOINT_SEGMENTS in
  let complete := Z.min (Z.max 0 checkpoint) (segment / size) in
  let first := ceil_div applied size + 1 in
  if complete <? first then plan_segments (applied + 1) segment
  else plan_segments (applied + 1) ((first - 1) * size)
       ++ plan_checkpoints first complete
       ++ plan_segments (complete * size + 1) segment.

(** * Parsers *)

Abbreviation Text := (list (option json)).

Definition parseShareSegment (text : Text) : list json :=
  omap (fun line =>
    match line with
    | Some v => match field v "type" with Some (JStr _) => Some v | _ => None end
    | None => None
    end) text.

Definition count (value : option json) (minimum : Z) : option Z :=
  match value with
  | Some (JNum (NInt z)) => if minimum <=? z then Some z else None
  | _ => None
  end.

Definition is_true (v : option json) : bool :=
  match v with Some (JBool b) => b | _ => false end.

(** [JSON.parse] of a file of one line. *)
Definition document (text : Text) : option json :=
  match text with [Some v] => Some v | _ => None end.

Definition parseHead (text : Text) : option ShareHead :=
  v ← document text;
  match count (field v "generation") 1, count (field v "segment") 0 with
  | Some g, Some s =>
      Some (mkShareHead g s (nullish (count (field v "checkpoint") 0) 0)
        (match field v "seq" with Some (JNum n) => n | _ => NInt 0 end)
        (is_true (field v "truncated")) (is_true (field v "recorded")))
  | _, _ => None
  end.

Definition text_or (v : option json) (fallback : string) : string :=
  match v with Some (JStr s) => s | _ => fallback end.
Definition array_or_empty (v : option json) : list json :=
  match v with Some (JArr l) => l | _ => [] end.

(** The VMs of a mission are used by their [id] and [name] only. *)
Definition vm_of_json (v : json) : string * string :=
  (text_or (field v "id") "", text_or (field v "name") "").

Definition parseMission (text : Text) : option SharedRunMission :=
  v ← document text;
  match field v "title" with
  | Some (JStr title) =>
      Some (mkSharedRunMission title (text_or (field v "tagline") "")
        (text_or (field v "scenario_name") "")
        (match field v "lecture_title" with Some (JStr s) => Some s | _ => None end)
        (text_or (field v "markdown") "") (array_or_empty (field v "objectives"))
        (map vm_of_json (array_or_empty (field v "vms"))))
  | _ => None
  end.

(** * The poller *)

Definition SHARE_POLL_INTERVAL_MS : Z := 1000.
Definition SHARE_RECORDED_POLL_INTERVAL_MS : Z := 30000.
Definition SHARE_RETRY_MIN_MS : Z := 1000.
Definition SHARE_RETRY_MAX_MS : Z := 30000.
Definition SHARE_FAILURES_BEFORE_UNAVAILABLE : Z := 6.

(** [random] is a multiple of 2^-53 in [0, 1), given as that multiple; the
    product is rounded once, to the nearest millisecond (halves up). *)
Definition shareRetryDelay (attempt random : Z) : Z :=
  let base := Z.min SHARE_RETRY_MAX_MS (SHARE_RETRY_MIN_MS * 2 ^ attempt) in
  (* base * (1 + (2 random / 2^53 - 1) * 3/10), over the denominator 10 * 2^53 *)
  let den := 10 * 2 ^ 53 in
  let scaled := base * (10 * 2 ^ 53 + (2 * random - 2 ^ 53) * 3) in
  (2 * scaled + den) / (2 * den).

Inductive ShareLiveStatus := LsLive | LsRecorded | LsReconnecting | LsStopped | LsUnavailable.
#[export] Instance ShareLiveStatus_eq_dec : EqDecision ShareLiveStatus.
Proof. solve_decision. Defined.

Inductive Response := NotFound | Failed | Answer (text : Text).

Record Env := mkEnv {
  env_head : nat -> Response;              (* the n-th read of head.json in the round *)
  env_mission : Response;
  env_file : nat -> string -> Response;    (* a file of the plan, at the n-th look *)
  env_closed : nat -> bool;                (* closed once the k-th answer is there *)
  env_random : Z;
}.

Inductive PollEvent :=
| OnMission (mission : SharedRunMission)
| OnGeneration (generation : Z)
| OnHead (head : ShareHead)
| OnMessages (messages : list json)
| OnStatus (status : ShareLiveStatus).

Record Poller := mkPoller {
  pl_status : option ShareLiveStatus;
  pl_failures : Z;
  pl_loaded : bool;
  pl_generation : Z;
  pl_announced : bool;
  pl_applied : Z;
  pl_awaits : nat;                (* answers waited for in this round *)
  pl_said : list PollEvent;
}.

Definition createPoller : Poller := mkPoller None 0 false 0 false 0 0 [].

(** Why a round failed: the share is gone, a file of the plan is, or another
    failed read. *)
Inductive Failure := ShareGone | SegmentGone | ReadFailed.

Definition tell (e : PollEvent) (p : Poller) : Poller :=
  mkPoller (pl_status p) (pl_failures p) (pl_loaded p) (pl_generation p) (pl_announced p)
    (pl_applied p) (pl_awaits p) (pl_said p ++ [e]).
Definition wait (p : Poller) : Poller :=
  mkPoller (pl_status p) (pl_failures p) (pl_loaded p) (pl_generation p) (pl_announced p)
    (pl_applied p) (S (pl_awaits p)) (pl_said p).
Definition set_failures (n : Z) (p : Poller) : Poller :=
  mkPoller (pl_status p) n (pl_loaded p) (pl_generation p) (pl_announced p)
    (pl_applied p) (pl_awaits p) (pl_said p).

Section poller.
Variable env : Env.

Definition closed (p : Poller) : bool := env_closed env (pl_awaits p).

Definition say (next : ShareLiveStatus) (p : Poller) : Poller :=
  if closed p || bool_decide (pl_status p = Some next) then p
  else tell (OnStatus next)
         (mkPoller (Some next) (pl_failures p) (pl_loaded p) (pl_generation p) (pl_announced p)
            (pl_applied p) (pl_awaits p) (pl_said p)).

Definition announce (p : Poller) : Poller :=
  if pl_announced p then p
  else tell (OnGeneration (pl_generation p))
         (mkPoller (pl_status p) (pl_failures p) (pl_loaded p) (pl_generation p) true
            (pl_applied p) (pl_awaits p) (pl_said p)).

(** One file's messages are handed over and counted. *)
Definition delivered (text : Text) (through : Z) (p : Poller) : Poller :=
  let p1 := tell (OnMessages (parseShareSegment text)) (announce p) in
  mkPoller (pl_status p1) 0 (pl_loaded p1) (pl_generation p1) (pl_announced p1) through
    (pl_awaits p1) (pl_said p1).

Fixpoint deliver (look : nat) (plan : list ShareFetch) (p : Poller) : Poller * option Failure :=
  match plan with
  | [] => (p, None)
  | f :: rest =>
      let p1 := wait p in
      match env_file env look (file_path (pl_generation p) (sf_file f)) with
      | NotFound => (p1, Some SegmentGone)
      | Failed => (p1, Some ReadFailed)
      | Answer text =>
          if closed p1 then (p1, None)
          else deliver look rest (delivered text (sf_through f) p1)
      end
  end.

Definition readHead (n : nat) (p : Poller) : Poller * result Failure ShareHead :=
  (wait p,
   match env_head env n with
   | NotFound => Err ShareGone
   | Failed => Err ReadFailed
   | Answer text => match parseHead text with Some h => Ok h | None => Err ReadFailed end
   end).

(** Start on the head's generation when it is another one. *)
Definition take_generation (head : ShareHead) (p : Poller) : Poller :=
  if h_generation head =? pl_generation p then p
  else mkPoller (pl_status p) (pl_failures p) (pl_loaded p) (h_generation head) false 0
         (pl_awaits p) (pl_said p).

(** The looks of a round: a missing file sends the viewer back to the head, at
    most twice, and only a new generation is another look. *)
Fixpoint looks (more : nat) (n : nat) (head : ShareHead) (p : Poller)
    : Poller * result Failure ShareHead :=
  let p0 := take_generation head p in
  match deliver n (shareFetchPlan (pl_applied p0) (h_segment head) (h_checkpoint head)) p0 with
  | (p1, None) => (p1, Ok head)
  | (p1, Some SegmentGone) =>
      match more with
      | O => (p1, Err ReadFailed)
      | S more =>
          match readHead n p1 with
          | (p2, Err e) => (p2, Err e)
          | (p2, Ok next) =>
              if closed p2 || (h_generation next =? h_generation head)
              then (p2, Err ReadFailed)
              else looks more (S n) next p2
          end
      end
  | (p1, Some e) => (p1, Err e)
  end.

(** The mission, once. *)
Definition readMission (p : Poller) : Poller * result Failure bool :=
  if pl_loaded p then (p, Ok false)
  else
    let p1 := wait p in
    match env_mission env with
    | NotFound => (p1, Err ShareGone)
    | Failed => (p1, Err ReadFailed)
    | Answer text =>
        match parseMission text with
        | None => (p1, Err ReadFailed)
        | Some mission =>
            if closed p1 then (p1, Ok true)
            else (tell (OnMission mission)
                    (mkPoller (pl_status p1) (pl_failures p1) true (pl_generation p1)
                       (pl_announced p1) (pl_applied p1) (pl_awaits p1) (pl_said p1)), Ok false)
        end
    end.

Definition read (p : Poller) : Poller * result Failure ShareHead :=
  match readHead 0 p with
  | (p1, Err e) => (p1, Err e)
  | (p1, Ok head) =>
      if closed p1 then (p1, Ok head)
      else
        match readMission p1 with
        | (p2, Err e) => (p2, Err e)
        | (p2, Ok true) => (p2, Ok head)
        | (p2, Ok false) =>
            match looks 2 1 head p2 with
            | (p3, Ok head) =>
                if closed p3 then (p3, Ok head) else (tell (OnHead head) (announce p3), Ok head)
            | failed => failed
            end
        end
  end.

(** A round, and the delay until the next one when there is one. *)
Definition run_round (p : Poller) : Poller * option Z :=
  match read p with
  | (p1, Ok head) =>
      if closed p1 then (p1, None)
      else
        (say (if h_recorded head then LsRecorded else LsLive) (set_failures 0 p1),
         Some (if h_recorded head then SHARE_RECORDED_POLL_INTERVAL_MS else SHARE_POLL_INTERVAL_MS))
  | (p1, Err e) =>
      if closed p1 then (p1, None)
      else
        match e with
        | ShareGone => (say LsStopped p1, None)
        | _ =>
            let p2 := set_failures (pl_failures p1 + 1) p1 in
            if SHARE_FAILURES_BEFORE_UNAVAILABLE <=? pl_failures p2
            then (say LsUnavailable p2, None)
            else (say LsReconnecting p2, Some (shareRetryDelay (pl_failures p2 - 1) (env_random env)))
        end
  end.
End poller.

(** [retry] outside a round: the failures and the last status are forgotten. *)
Definition retry (p : Poller) : Poller :=
  mkPoller None 0 (pl_loaded p) (pl_generation p) (pl_announced p) (pl_applied p)
    (pl_awaits p) (pl_said p).

(** * Lemmas: the plan *)

Lemma range_app a b c : a - 1 <= b -> b <= c -> range a b ++ range (b + 1) c = range a c.
Proof.
  intros H1 H2. unfold range. replace (c - a + 1) with ((b - a + 1) + (c - (b + 1) + 1)) by lia.
  rewrite (seqZ_app a (b - a + 1)) by lia. by replace (a + (b - a + 1)) with (b + 1) by lia.
Qed.

Lemma range_empty a b : b < a -> range a b = [].
Proof. intros H. apply seqZ_nil. lia. Qed.

Lemma range_snoc a b : a <= b -> range a b = range a (b - 1) ++ [b].
Proof.
  intros H. rewrite <- (range_app a (b - 1) b) by lia. f_equal.
  unfold range. replace (b - (b - 1 + 1) + 1) with 1 by lia.
  rewrite seqZ_cons by lia. cbn. f_equal. lia.
Qed.

Lemma elem_of_range a b x : x ∈ range a b <-> a <= x <= b.
Proof. unfold range. rewrite elem_of_seqZ. lia. Qed.

(** The segments a file of the plan holds. *)
Definition file_segments (f : ShareFile) : list Z :=
  match f with
  | Segment n => [n]
  | Checkpoint k =>
      range ((k - 1) * SHARE_CHECKPOINT_SEGMENTS + 1) (k * SHARE_CHECKPOINT_SEGMENTS)
  end.
Definition covered (plan : list ShareFetch) : list Z := plan ≫= (fun f => file_segments (sf_file f)).

Lemma covered_app p q : covered (p ++ q) = covered p ++ covered q.
Proof. apply bind_app. Qed.

Lemma covered_segments lo hi : covered (plan_segments lo hi) = range lo hi.
Proof.
  unfold covered, plan_segments. induction (range lo hi) as [|n l IH]; [done|].
  cbn [map]. rewrite bind_cons. cbn [sf_file file_segments]. by rewrite IH.
Qed.

Lemma covered_checkpoints lo hi :
  lo <= hi + 1 ->
  covered (plan_checkpoints lo hi)
    = range ((lo - 1) * SHARE_CHECKPOINT_SEGMENTS + 1) (hi * SHARE_CHECKPOINT_SEGMENTS).
Proof.
  intros Hle. remember (Z.to_nat (hi - lo + 1)) as n eqn:Hn. revert hi Hle Hn.
  induction n as [|n IH]; intros hi Hle Hn; unfold SHARE_CHECKPOINT_SEGMENTS in *.
  - unfold plan_checkpoints. rewrite !range_empty by lia. done.
  - unfold plan_checkpoints. rewrite range_snoc, map_app, covered_app by lia.
    change (map _ (range lo (hi - 1))) with (plan_checkpoints lo (hi - 1)).
    rewrite IH by lia. unfold covered. cbn [map]. rewrite bind_cons.
    cbn [sf_file file_segments mbind list_bind]. rewrite app_nil_r.
    unfold SHARE_CHECKPOINT_SEGMENTS. rewrite range_app by lia. done.
Qed.

(** Complete checkpoints lie within the head's segments, and the first one
    planned starts after what the viewer holds. *)
Lemma complete_within segment checkpoint :
  Z.min (Z.max 0 checkpoint) (segment / SHARE_CHECKPOINT_SEGMENTS) * 60 <= segment.
Proof. unfold SHARE_CHECKPOINT_SEGMENTS. pose proof (Z.mul_div_le segment 60). lia. Qed.

Lemma ceil_div_ge a : a <= ceil_div a SHARE_CHECKPOINT_SEGMENTS * 60.
Proof.
  unfold ceil_div, SHARE_CHECKPOINT_SEGMENTS.
  pose proof (Z.div_mod (a + 60 - 1) 60 ltac:(lia)).
  pose proof (Z.mod_pos_bound (a + 60 - 1) 60 ltac:(lia)). lia.
Qed.

(** ** Retry delays *)

Lemma shareRetryDelay_range attempt random :
  0 <= attempt -> 0 <= random < 2 ^ 53 ->
  let base := Z.min SHARE_RETRY_MAX_MS (SHARE_RETRY_MIN_MS * 2 ^ attempt) in
  7 * base <= 10 * shareRetryDelay attempt random <= 13 * base.
Proof.
  intros Ha Hr base. unfold shareRetryDelay. fold base.
  assert (1000 <= base).
  { unfold base, SHARE_RETRY_MAX_MS, SHARE_RETRY_MIN_MS.
    assert (1 <= 2 ^ attempt) by (apply (Z.pow_le_mono_r 2 0); lia). lia. }
  assert (Hb : exists q, base = 1000 * q).
  { unfold base, SHARE_RETRY_MAX_MS, SHARE_RETRY_MIN_MS.
    destruct (Z.min_spec 30000 (1000 * 2 ^ attempt)) as [[_ ->]|[_ ->]];
      [by exists 30|by exists (2 ^ attempt)]. }
  destruct Hb as [q Hq]. set (M := 2 ^ 53) in *. assert (0 < M) by done.
  set (s := base * (10 * M + (2 * random - M) * 3)).
  assert (7 * base * M <= s <= 13 * base * M) as [Hlo Hhi] by (unfold s; nia).
  split.
  - replace (7 * base) with (10 * (700 * q)) by lia. apply Z.mul_le_mono_nonneg_l; [lia|].
    apply Z.div_le_lower_bound; [lia|]. nia.
  - replace (13 * base) with (10 * (1300 * q)) by lia. apply Z.mul_le_mono_nonneg_l; [lia|].
    apply Z.lt_succ_r, Z.div_lt_upper_bound; [lia|]. nia.
Qed.

(** ** Failures *)

Lemma say_status env next p : closed env p = false -> pl_status (say env next p) = Some next.
Proof. intros H. unfold say. rewrite H. cbn [orb]. by case_bool_decide. Qed.

Lemma say_failures env next p : pl_failures (say env next p) = pl_failures p.
Proof. unfold say. by case_match. Qed.

Lemma deliver_failures env look plan p p' e :
  deliver env look plan p = (p', e) -> 0 <= pl_failures p ->
  0 <= pl_failures p' <= pl_failures p.
Proof.
  revert p. induction plan as [|f plan IH]; intros p; cbn [deliver].
  - intros [= <- _]. lia.
  - destruct (env_file _ _ _); [intros [= <- _]; cbn; lia..|].
    destruct (closed _ _); [intros [= <- _]; cbn; lia|].
    intros H Hp. apply IH in H; cbn in *; lia.
Qed.

Lemma looks_failures env more n head p p' r :
  looks env more n head p = (p', r) -> 0 <= pl_failures p -> 0 <= pl_failures p' <= pl_failures p.
Proof.
  revert n head p. induction more as [|more IH]; intros n head p; cbn [looks].
  all: assert (pl_failures (take_generation head p) = pl_failures p) as Ht
    by (unfold take_generation; by case_match).
  all: destruct (deliver _ _ _ _) as [p1 [e|]] eqn:Ed; intros H Hp;
    apply deliver_failures in Ed; [|lia| |lia]; try (injection H as <- _; lia).
  all: destruct e; try (injection H as <- _; lia).
  cbn [readHead] in H. unfold readHead in H.
  destruct (match env_head env n with NotFound => _ | _ => _ end) as [next|e] eqn:Er;
    [|injection H as <- _; cbn; lia].
  destruct (_ || _); [injection H as <- _; cbn; lia|].
  apply IH in H; cbn in *; lia.
Qed.

Lemma announce_failures p : pl_failures (announce p) = pl_failures p.
Proof. unfold announce. by case_match. Qed.

Lemma readMission_failures env p p' r :
  readMission env p = (p', r) -> pl_failures p' = pl_failures p.
Proof. unfold readMission. intros H. by repeat case_match; simplify_eq. Qed.

Lemma read_failures env p p' r :
  read env p = (p', r) -> 0 <= pl_failures p -> 0 <= pl_failures p' <= pl_failures p.
Proof.
  unfold read, readHead. intros H Hp.
  destruct (match env_head env 0 with NotFound => _ | _ => _ end) as [head|e];
    [|injection H as <- _; cbn; lia].
  destruct (closed env (wait p)); [injection H as <- _; cbn; lia|].
  destruct (readMission env (wait p)) as [p2 [[]|e]] eqn:Em; apply readMission_failures in Em;
    cbn in Em; try (injection H as <- _; lia).
  destruct (looks env 2 1 head p2) as [p3 [h|e]] eqn:El; apply looks_failures in El; try lia;
    [|injection H as <- _; lia].
  destruct (closed env p3); injection H as <- _; cbn; rewrite ?announce_failures; lia.
Qed.

(** ** What a round says, and the answers it gets *)

Definition set_status (x : option ShareLiveStatus) (p : Poller) : Poller :=
  mkPoller x (pl_failures p) (pl_loaded p) (pl_generation p) (pl_announced p) (pl_applied p)
    (pl_awaits p) (pl_said p).

(** The messages handed to the page. *)
Definition handed (said : list PollEvent) : list json :=
  said ≫= (fun e => match e with OnMessages ms => ms | _ => [] end).

Lemma handed_app a b : handed (a ++ b) = handed a ++ handed b.
Proof. apply bind_app. Qed.

Lemma announce_handed p : handed (pl_said (announce p)) = handed (pl_said p).
Proof. unfold announce. case_match; [done|]. cbn. rewrite handed_app. cbn. by rewrite app_nil_r. Qed.

(** The messages of a file, when it answers. *)
Definition file_messages (env : Env) (look : nat) (generation : Z) (f : ShareFetch) : list json :=
  match env_file env look (file_path generation (sf_file f)) with
  | Answer text => parseShareSegment text
  | _ => []
  end.

(** A delivery that nothing interrupts hands over every file of the plan in its
    order, once, and the newest segment it counts is the plan's last. *)
Lemma deliver_all env look plan p p' :
  (forall k, env_closed env k = false) -> deliver env look plan p = (p', None) ->
  handed (pl_said p') = handed (pl_said p) ++ (plan ≫= file_messages env look (pl_generation p)) /\
  pl_generation p' = pl_generation p /\
  pl_applied p' = match last plan with Some f => sf_through f | None => pl_applied p end.
Proof.
  intros Hc. revert p. induction plan as [|f plan IH]; intros p; cbn [deliver].
  - intros [= <-]. cbn. by rewrite app_nil_r.
  - destruct (env_file _ _ _) as [| |text] eqn:Ef; [done..|].
    unfold closed. rewrite Hc. intros H. apply IH in H as (Hh & Hg & Ha).
    assert (pl_generation (delivered text (sf_through f) (wait p)) = pl_generation p) as Eg
      by (unfold delivered, announce; cbn; by destruct (pl_announced p)).
    rewrite Eg in Hh, Hg. rewrite Hh, Hg, Ha. split_and!; [|done|].
    + cbn [delivered tell pl_said]. rewrite handed_app, announce_handed, <- app_assoc, bind_cons.
      f_equal. unfold file_messages at 2. rewrite Ef. cbn. by rewrite app_nil_r.
    + destruct plan as [|g plan]; [done|]. change (last (f :: g :: plan)) with (last (g :: plan)).
      destruct (last (g :: plan)) eqn:El; [done|]. by apply last_None in El.
Qed.

Lemma last_through_plan applied segment checkpoint :
  0 <= applied <= segment ->
  match last (shareFetchPlan applied segment checkpoint) with
  | Some f => sf_through f | None => applied end = segment.
Proof.
  intros H. assert (Hseg : forall lo hi, lo <= hi ->
    last (plan_segments lo hi) = Some (mkShareFetch (Segment hi) hi)).
  { intros lo hi Hl. unfold plan_segments. rewrite range_snoc, map_app by done. cbn [map]. by rewrite last_snoc. }
  assert (Hnil : forall lo hi, hi < lo -> plan_segments lo hi = [])
    by (intros; unfold plan_segments; by rewrite range_empty).
  assert (Hlast : forall (a b : list ShareFetch) x, last b = Some x -> last (a ++ b) = Some x)
    by (intros a b x Hb; by rewrite last_app, Hb).
  unfold shareFetchPlan, SHARE_CHECKPOINT_SEGMENTS. set (complete := Z.min _ _).
  assert (complete <= segment / 60) by lia.
  assert (segment / 60 * 60 <= segment) by (pose proof (Z.mul_div_le segment 60); lia).
  destruct (complete <? _) eqn:E; reflect_bools.
  - destruct (decide (applied = segment)) as [->|]; [by rewrite Hnil by lia|].
    by rewrite Hseg by lia.
  - destruct (decide (complete * 60 = segment)) as [Hs|Hs].
    + rewrite (Hnil (complete * 60 + 1)), app_nil_r by lia.
      unfold plan_checkpoints. rewrite range_snoc, map_app by done. cbn [map].
      erewrite Hlast; [|by rewrite last_snoc]. cbn. unfold SHARE_CHECKPOINT_SEGMENTS. lia.
    + erewrite Hlast; [|apply Hlast, Hseg; lia]. done.
Qed.

Lemma covered_plan applied segment checkpoint :
  0 <= applied <= segment ->
  covered (shareFetchPlan applied segment checkpoint) = range (applied + 1) segment.
Proof.
  intros H. unfold shareFetchPlan. set (complete := Z.min _ _).
  set (first := ceil_div applied SHARE_CHECKPOINT_SEGMENTS + 1).
  assert (complete * 60 <= segment) by apply complete_within.
  assert (applied <= (first - 1) * 60) by (pose proof (ceil_div_ge applied); lia).
  destruct (complete <? first) eqn:E; reflect_bools; [by apply covered_segments|].
  rewrite !covered_app, !covered_segments, covered_checkpoints by lia.
  unfold SHARE_CHECKPOINT_SEGMENTS. rewrite (range_app _ (complete * 60)) by lia.
  by rewrite range_app by lia.
Qed.

(** A checkpoint is planned only when the head says it is complete and its
    segments are all named by the head, and only when the viewer holds none. *)
Lemma planned_checkpoint applied segment checkpoint k t :
  0 <= applied -> mkShareFetch (Checkpoint k) t ∈ shareFetchPlan applied segment checkpoint ->
  1 <= k <= checkpoint /\ k * SHARE_CHECKPOINT_SEGMENTS <= segment /\
  applied <= (k - 1) * SHARE_CHECKPOINT_SEGMENTS.
Proof.
  intros Ha. assert (Hs : forall lo hi, mkShareFetch (Checkpoint k) t ∉ plan_segments lo hi).
  { intros lo hi Hin. apply list_elem_of_fmap in Hin as (n & [=] & _). }
  unfold shareFetchPlan. destruct (_ <? _) eqn:E; [by intros ?%Hs|].
  rewrite !elem_of_app. intros [?%Hs|[Hin|?%Hs]]; [done| |done].
  apply list_elem_of_fmap in Hin as (n & [= <- ->] & Hn). apply elem_of_range in Hn.
  pose proof (ceil_div_ge applied). pose proof (complete_within segment checkpoint).
  unfold SHARE_CHECKPOINT_SEGMENTS in *. lia.
Qed.

(** Nothing fails when every file of the plan answers. *)
Lemma deliver_answered env look plan p :
  (forall k, env_closed env k = false) ->
  (forall f, f ∈ plan ->
     exists t, env_file env look (file_path (pl_generation p) (sf_file f)) = Answer t) ->
  exists p', deliver env look plan p = (p', None).
Proof.
  intros Hc. revert p. induction plan as [|f plan IH]; intros p Hf; cbn [deliver]; [by eexists|].
  destruct (Hf f) as [t Ht]; [by left|]. rewrite Ht. unfold closed. rewrite Hc.
  apply IH. intros g Hg.
  assert (pl_generation (delivered t (sf_through f) (wait p)) = pl_generation p) as ->
    by (unfold delivered, announce; cbn; by destruct (pl_announced p)).
  apply Hf. by right.
Qed.

(** A round that nothing interrupts and that finds every file of a head of the
    viewer's generation ends with the viewer at the head's segment. *)
Lemma read_reaches_head env p head text :
  (forall k, env_closed env k = false) -> pl_loaded p = true ->
  env_head env 0 = Answer text -> parseHead text = Some head ->
  let p0 := take_generation head p in
  0 <= pl_applied p0 <= h_segment head ->
  (forall f, f ∈ shareFetchPlan (pl_applied p0) (h_segment head) (h_checkpoint head) ->
     exists t, env_file env 1 (file_path (h_generation head) (sf_file f)) = Answer t) ->
  exists p', read env p = (p', Ok head) /\ pl_applied p' = h_segment head.
Proof.
  intros Hc Hl Hh Hparse p0 Ha Hfiles. unfold read, readHead. rewrite Hh, Hparse.
  unfold closed at 1. rewrite Hc. unfold readMission. cbn [wait pl_loaded]. rewrite Hl.
  assert (take_generation head (wait p) = wait p0) as Ht
    by (unfold p0, take_generation; cbn; by case_match).
  assert (Hg : pl_generation (wait p0) = h_generation head).
  { unfold p0, take_generation. case_match; [|done]. cbn. lia. }
  cbn [looks]. rewrite Ht.
  destruct (deliver_answered env 1 (shareFetchPlan (pl_applied (wait p0)) (h_segment head)
    (h_checkpoint head)) (wait p0) Hc) as [p1 Hd]; [by rewrite Hg|].
  rewrite Hd. apply deliver_all in Hd as (_ & _ & Ha1); [|done]. unfold closed. rewrite Hc.
  eexists. split; [done|]. cbn [tell pl_applied].
  assert (pl_applied (announce p1) = pl_applied p1) as -> by (unfold announce; by destruct (pl_announced p1)).
  rewrite Ha1. by apply last_through_plan.
Qed.

(** The files of a plan follow one another from [a], each reaching its [through]. *)
Fixpoint plan_chain (a : Z) (plan : list ShareFetch) : Prop :=
  match plan with
  | [] => True
  | f :: rest =>
      a <= sf_through f /\ file_segments (sf_file f) = range (a + 1) (sf_through f) /\
      plan_chain (sf_through f) rest
  end.

Definition plan_end (a : Z) (plan : list ShareFetch) : Z :=
  match last plan with Some f => sf_through f | None => a end.

Lemma plan_end_cons a f plan : plan_end a (f :: plan) = plan_end (sf_through f) plan.
Proof.
  unfold plan_end. destruct plan as [|g plan]; [done|].
  change (last (f :: g :: plan)) with (last (g :: plan)).
  destruct (last (g :: plan)) eqn:E; [done|]. by apply last_None in E.
Qed.

Lemma plan_chain_app a p q : plan_chain a p -> plan_chain (plan_end a p) q -> plan_chain a (p ++ q).
Proof.
  revert a. induction p as [|f p IH]; intros a Hp Hq; cbn in *; [done|].
  rewrite plan_end_cons in Hq. destruct Hp as (H1 & H2 & H3). by auto.
Qed.

Lemma segments_chain (n : nat) lo hi :
  Z.of_nat n = hi - lo + 1 ->
  plan_chain (lo - 1) (plan_segments lo hi) /\ plan_end (lo - 1) (plan_segments lo hi) = hi.
Proof.
  revert lo. induction n as [|n IH]; intros lo Hn.
  - unfold plan_segments. rewrite range_empty by lia. cbn. unfold plan_end. cbn. split; [done|lia].
  - unfold plan_segments, range. rewrite seqZ_cons by lia. cbn [map].
    destruct (IH (Z.succ lo)) as [H1 H2]; [lia|].
    assert (plan_segments (Z.succ lo) hi =
      map (fun n => mkShareFetch (Segment n) n) (seqZ (Z.succ lo) (Z.pred (hi - lo + 1)))) as <-
      by (unfold plan_segments, range; do 2 f_equal; lia).
    rewrite plan_end_cons. cbn [plan_chain sf_through sf_file file_segments].
    replace (Z.succ lo - 1) with lo in * by lia. split_and!; [lia| |done..].
    unfold range. replace (lo - (lo - 1 + 1) + 1) with 1 by lia.
    rewrite seqZ_cons by lia. cbn. f_equal. lia.
Qed.

Lemma checkpoints_chain (n : nat) lo hi :
  Z.of_nat n = hi - lo + 1 ->
  plan_chain ((lo - 1) * SHARE_CHECKPOINT_SEGMENTS) (plan_checkpoints lo hi) /\
  plan_end ((lo - 1) * SHARE_CHECKPOINT_SEGMENTS) (plan_checkpoints lo hi)
    = hi * SHARE_CHECKPOINT_SEGMENTS.
Proof.
  unfold SHARE_CHECKPOINT_SEGMENTS. revert lo. induction n as [|n IH]; intros lo Hn.
  - unfold plan_checkpoints. rewrite range_empty by lia. unfold plan_end. cbn. split; [done|lia].
  - unfold plan_checkpoints, range. rewrite seqZ_cons by lia. cbn [map].
    destruct (IH (Z.succ lo)) as [H1 H2]; [lia|].
    assert (plan_checkpoints (Z.succ lo) hi =
      map (fun k => mkShareFetch (Checkpoint k) (k * SHARE_CHECKPOINT_SEGMENTS))
        (seqZ (Z.succ lo) (Z.pred (hi - lo + 1)))) as <-
      by (unfold plan_checkpoints, range; do 2 f_equal; lia).
    rewrite plan_end_cons. cbn [plan_chain sf_through sf_file file_segments].
    unfold SHARE_CHECKPOINT_SEGMENTS.
    replace (Z.succ lo - 1) with lo in * by lia. split_and!; [lia|done..].
Qed.

(** From wherever the viewer is, the plan starts there and follows on. *)
Lemma shareFetchPlan_chain applied segment checkpoint :
  0 <= applied -> plan_chain applied (shareFetchPlan applied segment checkpoint) /\
  (forall f, f ∈ shareFetchPlan applied segment checkpoint ->
     match sf_file f with
     | Segment n => 1 <= n <= segment
     | Checkpoint k => 1 <= k <= checkpoint /\ k * SHARE_CHECKPOINT_SEGMENTS <= segment
     end).
Proof.
  intros Ha. split.
  - unfold shareFetchPlan. set (complete := Z.min _ _).
    set (first := ceil_div applied SHARE_CHECKPOINT_SEGMENTS + 1).
    assert (complete * 60 <= segment) by apply complete_within.
    assert (applied <= (first - 1) * 60) by (pose proof (ceil_div_ge applied); lia).
    assert (Hseg : forall lo hi, lo <= hi + 1 -> plan_chain (lo - 1) (plan_segments lo hi) /\
      plan_end (lo - 1) (plan_segments lo hi) = hi)
      by (intros lo hi Hl; apply (segments_chain (Z.to_nat (hi - lo + 1))); lia).
    destruct (complete <? first) eqn:E; reflect_bools.
    + destruct (Z.le_gt_cases applied segment) as [Hle|Hgt].
      * destruct (Hseg (applied + 1) segment ltac:(lia)) as [Hc _].
        by replace (applied + 1 - 1) with applied in Hc by lia.
      * unfold plan_segments. by rewrite range_empty by lia.
    + destruct (Hseg (applied + 1) ((first - 1) * 60) ltac:(lia)) as [H1 E1].
      destruct (checkpoints_chain (Z.to_nat (complete - first + 1)) first complete ltac:(lia)) as [H2 E2].
      destruct (Hseg (complete * 60 + 1) segment ltac:(lia)) as [H3 _].
      unfold SHARE_CHECKPOINT_SEGMENTS in *.
      replace (applied + 1 - 1) with applied in * by lia.
      replace (complete * 60 + 1 - 1) with (complete * 60) in * by lia.
      apply plan_chain_app; [done|]. rewrite E1. apply plan_chain_app; [done|]. by rewrite E2.
  - intros [[n|k] t] Hin; cbn.
    + assert (Hs : forall lo hi, mkShareFetch (Segment n) t ∈ plan_segments lo hi -> lo <= n <= hi).
      { intros lo hi H. apply list_elem_of_fmap in H as (m & [= <- _] & Hm). by apply elem_of_range. }
      revert Hin. unfold shareFetchPlan. set (complete := Z.min _ _).
      assert (complete * 60 <= segment) by apply complete_within.
      pose proof (ceil_div_ge applied). unfold SHARE_CHECKPOINT_SEGMENTS in *.
      destruct (_ <? _) eqn:E; reflect_bools; [intros ?%Hs; lia|].
      rewrite !elem_of_app. intros [?%Hs|[Hin|?%Hs]]; [lia| |lia].
      by apply list_elem_of_fmap in Hin as (m & [=] & _).
    + apply planned_checkpoint in Hin; [|done]. lia.
Qed.

(** * Properties *)

(** The files planned for a viewer that holds segments 1 to [applied] of a
    generation hold, in order and once each, exactly the segments from there to
    the head's, whatever checkpoint count the head claims; a checkpoint is read
    only when it is complete, within the head's segments, and holds nothing the
    viewer has. *)
Theorem share_plan_exact applied segment checkpoint :
  0 <= applied <= segment ->
  covered (shareFetchPlan applied segment checkpoint) = range (applied + 1) segment /\
  (forall k t, mkShareFetch (Checkpoint k) t ∈ shareFetchPlan applied segment checkpoint ->
     1 <= k <= checkpoint /\ k * SHARE_CHECKPOINT_SEGMENTS <= segment /\
     applied <= (k - 1) * SHARE_CHECKPOINT_SEGMENTS).
Proof.
  intros H. split; [by apply covered_plan|]. intros k t Hin.
  by apply (planned_checkpoint _ _ _ _ t) in Hin; [|lia].
Qed.

(** A viewer that is not closed goes on polling unless it told the page that
    the share is stopped or unavailable: each round ends with a status said and,
    for the others, a next round due within 700 ms to 39 s; the count of failures
    stays below the limit while it goes on. *)
Theorem share_poll_goes_on env p p' next :
  (forall k, env_closed env k = false) -> 0 <= env_random env < 2 ^ 53 ->
  0 <= pl_failures p -> run_round env p = (p', next) ->
  match next with
  | Some delay =>
      700 <= delay <= 39000 /\ 0 <= pl_failures p' < SHARE_FAILURES_BEFORE_UNAVAILABLE /\
      (pl_status p' = Some LsLive \/ pl_status p' = Some LsRecorded
       \/ pl_status p' = Some LsReconnecting)
  | None => pl_status p' = Some LsStopped \/ pl_status p' = Some LsUnavailable
  end.
Proof.
  intros Hc Hr Hp. unfold run_round. destruct (read env p) as [p1 [head|e]] eqn:E;
    apply read_failures in E; try done; unfold closed at 1; rewrite Hc.
  - intros [= <- <-]. rewrite say_failures, say_status by apply Hc.
    unfold SHARE_RECORDED_POLL_INTERVAL_MS, SHARE_POLL_INTERVAL_MS, SHARE_FAILURES_BEFORE_UNAVAILABLE.
    destruct (h_recorded head); cbn; split_and!; try lia; auto.
  - assert (forall a, 0 <= a < 6 -> 700 <= shareRetryDelay a (env_random env) <= 39000) as Hd.
    { intros a Ha. pose proof (shareRetryDelay_range a (env_random env) ltac:(lia) Hr) as Hd.
      cbn zeta in Hd. unfold SHARE_RETRY_MAX_MS, SHARE_RETRY_MIN_MS in Hd.
      assert (1 <= 2 ^ a) by (apply (Z.pow_le_mono_r 2 0); lia). lia. }
    destruct e; cycle 1; [..|intros [= <- <-]; rewrite say_status by apply Hc; by left].
    all: cbn [set_failures pl_failures]; destruct (_ <=? _) eqn:Ef; reflect_bools;
      intros [= <- <-]; rewrite ?say_failures, say_status by apply Hc; cbn [set_failures pl_failures];
      [by right|]; unfold SHARE_FAILURES_BEFORE_UNAVAILABLE in *;
      split_and!; try lia; try (apply Hd; lia); auto.
Qed.

(** ** Witnesses *)

Lemma share_plan_exact_witness :
  covered (shareFetchPlan 5 130 2) = range 6 130 /\
  length (shareFetchPlan 5 130 2) = 66%nat.
Proof.
  split; [|vm_compute; reflexivity].
  exact (proj1 (share_plan_exact 5 130 2 ltac:(lia))).
Defined.

Definition w_env : Env := mkEnv (fun _ => Failed) Failed (fun _ _ => Failed) (fun _ => false) 0.

Lemma share_poll_goes_on_witness :
  exists p', run_round w_env createPoller = (p', Some 700) /\
    pl_status p' = Some LsReconnecting /\ pl_failures p' < SHARE_FAILURES_BEFORE_UNAVAILABLE.
Proof.
  exists (fst (run_round w_env createPoller)). split; [vm_compute; reflexivity|].
  split; [vm_compute; reflexivity|].
  apply (share_poll_goes_on w_env createPoller (fst (run_round w_env createPoller)) (Some 700));
    [done|cbn; lia|cbn; lia|vm_compute; reflexivity].
Defined.
