(* ===== verification/ShareLog.v ===== *)
(** The public share of a run (control-plane/run-share-do.ts): ingest of a
    session's frames, the stored log, the live segments, checkpoints and head it
    publishes, and the stop.

    The object's tables are the fields of [ShareDO] (the [meta] table one field
    per key, numbers with their defaults), the public bucket is an association
    list from file names to contents, and a row's body is the JSON text of its
    message, kept as the message with the length of that text. *)
From stdpp Require Import base list strings pretty relations.
From Stdlib Require Import ZArith Lia.
From S2P Require Import Prelude Json Text ShareModel ShareFiles.

Open Scope string_scope.
Open Scope list_scope.
Open Scope Z_scope.

Definition RUN_SHARE_MAX_LOG_BYTES : Z := 16 * 1024 * 1024.
Definition RUN_SHARE_MAX_PRODUCERS : nat := 64.
Definition RUN_SHARE_MAX_MESSAGE_BYTES : Z := 256 * 1024.
Definition RUN_SHARE_SEGMENT_INTERVAL_MS : Z := 1000.
Definition MAX_COLS : Z := 500.
Definition MAX_ROWS : Z := 200.
Definition INCOMPLETE_GAP : Z := 1.
Definition INCOMPLETE_TRUNCATED : Z := 2.
Definition SHARE_INGEST_CLOSE_ENDED : Z := 1000.

(** [/^[A-Za-z0-9-]{1,64}$/] and [/^[A-Za-z0-9._-]{1,128}$/]. *)
Definition SESSION_ID (s : string) : bool :=
  matches_class (fun n => is_alnum n || (n =? 45)%N) 1 64 s.
Definition VM_ID (s : string) : bool :=
  matches_class (fun n => is_alnum n || (n =? 46)%N || (n =? 95)%N || (n =? 45)%N) 1 128 s.

(** * Messages *)

(** [[at, code, data]] as it is stored. *)
Record DEvent := mkDEvent { de_at : Z; de_code : string; de_data : string }.
#[export] Instance DEvent_eq_dec : EqDecision DEvent.
Proof. solve_decision. Defined.

Inductive DMessage :=
| DStart (session vm_id mode : string) (cols rows at_ms : Z) (mid_session resumed : bool)
| DEvents (session : string) (events : list DEvent)
| DGap (session : string) (bytes : Z)
| DEnd (session : string)
| DDetach (session : string)
| DTruncated.
#[export] Instance DMessage_eq_dec : EqDecision DMessage.
Proof. solve_decision. Defined.

(** [JSON.stringify({ ...message, seq })]. *)
Definition json_bool (b : bool) : string := if b then "true" else "false".
Definition json_object (fields : list (string * string)) : string :=
  "{" +:+ join "," (map (fun '(k, v) => quote_json k +:+ ":" +:+ v) fields) +:+ "}".
Definition event_text (e : DEvent) : string :=
  "[" +:+ pretty (de_at e) +:+ "," +:+ quote_json (de_code e) +:+ "," +:+ quote_json (de_data e) +:+ "]".

Definition body_text (m : DMessage) (seq : Z) : string :=
  let tagged t rest := json_object (("type", quote_json t) :: rest ++ [("seq", pretty seq)]) in
  match m with
  | DStart s vm mode c r a mid res =>
      tagged "start" [("session", quote_json s); ("vm_id", quote_json vm); ("mode", quote_json mode);
        ("cols", pretty c); ("rows", pretty r); ("at_ms", pretty a);
        ("mid_session", json_bool mid); ("resumed", json_bool res)]
  | DEvents s es =>
      tagged "events" [("session", quote_json s);
        ("events", "[" +:+ join "," (map event_text es) +:+ "]")]
  | DGap s n => tagged "gap" [("session", quote_json s); ("bytes", pretty n)]
  | DEnd s => tagged "end" [("session", quote_json s)]
  | DDetach s => tagged "detach" [("session", quote_json s)]
  | DTruncated => tagged "truncated" []
  end.

Definition msg_session (m : DMessage) : option string :=
  match m with
  | DStart s _ _ _ _ _ _ _ | DEvents s _ | DGap s _ | DEnd s | DDetach s => Some s
  | DTruncated => None
  end.

Definition is_events (m : DMessage) : bool := match m with DEvents _ _ => true | _ => false end.
Definition is_gap (m : DMessage) : bool := match m with DGap _ _ => true | _ => false end.

(** * Reading a frame *)

Definition isCount (v : option json) : option Z :=
  match v with
  | Some (JNum (NInt z)) => if safe_integer z && (0 <=? z) then Some z else None
  | _ => None
  end.

Definition clamp (value max : Z) : Z := Z.min (Z.max value 1) max.

Definition normalizeEvent (event : json) : option DEvent :=
  match event with
  | JArr [at_; code; JStr data] =>
      match isCount (Some at_) with
      | None => None
      | Some t =>
          match code with
          | JStr c =>
              if c =s "o" then Some (mkDEvent t "o" data)
              else if negb (c =s "r") then None
              else match parse_size 5 data with
                   | None => None
                   | Some (x, y) =>
                       Some (mkDEvent t "r" (print_size (clamp x MAX_COLS) (clamp y MAX_ROWS)))
                   end
          | _ => None
          end
      end
  | _ => None
  end.

(** The loop over [raw.events], which stops at the first that is not an event. *)
Fixpoint normalizeEvents (events : list json) : option (list DEvent) :=
  match events with
  | [] => Some []
  | e :: rest =>
      match normalizeEvent e with
      | None => None
      | Some n => (cons n) <$> normalizeEvents rest
      end
  end.

(** * The object *)

Record LogRow := mkLogRow { row_seq : Z; row_session : option string; row_message : DMessage }.

Record LiveSession := mkLiveSession {
  ls_id : string;
  ls_vm_id : string;
  ls_mode : string;
  ls_at_ms : Z;
  ls_mid_session : bool;
  ls_incomplete : Z;
}.

Record ShareRecordingInput := mkShareRecordingInput {
  ri_start_ms : Z;
  ri_duration_ms : Z;
  ri_cast_key : string;
}.
Record RecordingRow := mkRecordingRow {
  rr_vm_id : string;
  rr_sessions : list ShareRecordingInput;
  rr_done : bool;
}.

Inductive FileName :=
| MissionFile
| HeadFile
| SegmentFile (generation n : Z)
| CheckpointFile (generation k : Z).
#[export] Instance FileName_eq_dec : EqDecision FileName.
Proof. solve_decision. Defined.

Definition file_name (f : FileName) : string :=
  match f with
  | MissionFile => "mission.json"
  | HeadFile => "head.json"
  | SegmentFile g n => shareSegmentPath g n
  | CheckpointFile g k => shareCheckpointPath g k
  end.

Inductive FileBody :=
| MissionBody (mission : json)
| HeadBody (head : ShareHead)
| LinesBody (messages : list (Z * DMessage)).   (* one line per message, with its seq *)

Record ShareDO := mkShareDO {
  d_share_id : option string;
  d_mission : bool;
  d_write_token_hash : option string;
  d_stopped : bool;
  d_seq : Z;
  d_total : Z;
  d_truncated : bool;
  d_flushed_seq : Z;
  d_segment : Z;
  d_checkpoint : Z;
  d_checkpoint_seq : Z;
  d_generation : Z;
  d_recording_due : bool;
  d_recorded : bool;
  d_log : list LogRow;
  d_sessions : list LiveSession;
  d_recordings : list RecordingRow;
  d_alarm : option Z;
  d_sockets : list (nat * option string);    (* producer sockets and the session of each *)
  d_bucket : list (FileName * FileBody);     (* this share's public files *)
}.

(** An object that has never been used. *)
Definition emptyDO : ShareDO :=
  mkShareDO None false None false 0 0 false 0 0 0 0 1 false false [] [] [] None [] [].

Definition live (d : ShareDO) : bool := d_mission d && negb (d_stopped d).

Definition with_log (seq total : Z) (trunc : bool) (log : list LogRow) (d : ShareDO) : ShareDO :=
  mkShareDO (d_share_id d) (d_mission d) (d_write_token_hash d) (d_stopped d) seq total trunc
    (d_flushed_seq d) (d_segment d) (d_checkpoint d) (d_checkpoint_seq d) (d_generation d)
    (d_recording_due d) (d_recorded d) log (d_sessions d) (d_recordings d) (d_alarm d)
    (d_sockets d) (d_bucket d).
Definition with_live_sessions (l : list LiveSession) (d : ShareDO) : ShareDO :=
  mkShareDO (d_share_id d) (d_mission d) (d_write_token_hash d) (d_stopped d) (d_seq d) (d_total d)
    (d_truncated d) (d_flushed_seq d) (d_segment d) (d_checkpoint d) (d_checkpoint_seq d)
    (d_generation d) (d_recording_due d) (d_recorded d) (d_log d) l (d_recordings d) (d_alarm d)
    (d_sockets d) (d_bucket d).
Definition with_recordings (l : list RecordingRow) (due : bool) (alarm : option Z) (d : ShareDO) : ShareDO :=
  mkShareDO (d_share_id d) (d_mission d) (d_write_token_hash d) (d_stopped d) (d_seq d) (d_total d)
    (d_truncated d) (d_flushed_seq d) (d_segment d) (d_checkpoint d) (d_checkpoint_seq d)
    (d_generation d) due (d_recorded d) (d_log d) (d_sessions d) l alarm
    (d_sockets d) (d_bucket d).
Definition with_alarm (alarm : option Z) (d : ShareDO) : ShareDO :=
  with_recordings (d_recordings d) (d_recording_due d) alarm d.
Definition with_sockets (l : list (nat * option string)) (d : ShareDO) : ShareDO :=
  mkShareDO (d_share_id d) (d_mission d) (d_write_token_hash d) (d_stopped d) (d_seq d) (d_total d)
    (d_truncated d) (d_flushed_seq d) (d_segment d) (d_checkpoint d) (d_checkpoint_seq d)
    (d_generation d) (d_recording_due d) (d_recorded d) (d_log d) (d_sessions d) (d_recordings d)
    (d_alarm d) l (d_bucket d).
Definition with_bucket (b : list (FileName * FileBody)) (d : ShareDO) : ShareDO :=
  mkShareDO (d_share_id d) (d_mission d) (d_write_token_hash d) (d_stopped d) (d_seq d) (d_total d)
    (d_truncated d) (d_flushed_seq d) (d_segment d) (d_checkpoint d) (d_checkpoint_seq d)
    (d_generation d) (d_recording_due d) (d_recorded d) (d_log d) (d_sessions d) (d_recordings d)
    (d_alarm d) (d_sockets d) b.

(** * Storing a message *)

Definition markIncomplete (session : string) (reason : Z) (d : ShareDO) : ShareDO :=
  with_live_sessions (map (fun s =>
    if ls_id s =s session
    then mkLiveSession (ls_id s) (ls_vm_id s) (ls_mode s) (ls_at_ms s) (ls_mid_session s)
           (Z.lor (ls_incomplete s) reason)
    else s) (d_sessions d)) d.

(** [INSERT INTO log] and the two counters. *)
Definition store (seq : Z) (session : option string) (m : DMessage) (total : Z) (d : ShareDO) : ShareDO :=
  with_log seq total (d_truncated d) (d_log d ++ [mkLogRow seq session m]) d.

Definition set_truncated (d : ShareDO) : ShareDO :=
  with_log (d_seq d) (d_total d) true (d_log d) d.

Definition schedule (now : Z) (d : ShareDO) : ShareDO :=
  match d_alarm d with
  | None => with_alarm (Some (now + RUN_SHARE_SEGMENT_INTERVAL_MS)) d
  | Some _ => d
  end.

Definition append (now : Z) (message : DMessage) (d : ShareDO) : ShareDO :=
  if negb (live d) || d_recorded d then d
  else
    let session := msg_session message in
    if d_truncated d && is_events message
    then markIncomplete (nullish session "") INCOMPLETE_TRUNCATED d
    else
      let seq := d_seq d + 1 in
      let total := d_total d + slen (body_text message seq) in
      schedule now
        (if is_events message && (RUN_SHARE_MAX_LOG_BYTES <? total) then
           store seq None DTruncated total
             (markIncomplete (nullish session "") INCOMPLETE_TRUNCATED (set_truncated d))
         else
           store seq session message total
             (if is_gap message then markIncomplete (nullish session "") INCOMPLETE_GAP d else d)).

(** * Frames of a producer *)

Definition read_attachment (ws : nat) (d : ShareDO) : option (option string) :=
  snd <$> List.find (fun '(id, _) => (id =? ws)%nat) (d_sockets d).

Definition serialize_attachment (ws : nat) (session : option string) (d : ShareDO) : ShareDO :=
  with_sockets (map (fun '(id, s) => if (id =? ws)%nat then (id, session) else (id, s)) (d_sockets d)) d.

Definition known_session (session : string) (d : ShareDO) : bool :=
  existsb (fun s => ls_id s =s session) (d_sessions d).

(** The [start] frame: checked, and its session stored the first time. *)
Definition startMessage (attached : option string) (raw : json) (d : ShareDO)
    : ShareDO * result string DMessage :=
  match field raw "session", field raw "vm_id", field raw "mode", isCount (field raw "cols"),
        isCount (field raw "rows"), isCount (field raw "at_ms"), field raw "mid_session" with
  | Some (JStr session), Some (JStr vm_id), Some (JStr mode), Some c, Some r, Some at_ms,
    Some (JBool mid) =>
      if SESSION_ID session && VM_ID vm_id && ((mode =s "browser") || (mode =s "native")) then
        if match attached with Some s => negb (s =s session) | None => false end
        then (d, Err "one session per ingest socket")
        else
          let known := known_session session d in
          (if known then d
           else with_live_sessions
                  (d_sessions d ++ [mkLiveSession session vm_id mode at_ms mid 0]) d,
           Ok (DStart session vm_id mode (clamp c MAX_COLS) (clamp r MAX_ROWS) at_ms mid known))
      else (d, Err "invalid start")
  | _, _, _, _, _, _, _ => (d, Err "invalid start")
  end.

Definition toViewerMessage (attached : option string) (raw : json) (d : ShareDO)
    : ShareDO * result string DMessage :=
  match raw with
  | JObj _ =>
      match field raw "type" with
      | Some (JStr type_) =>
          if type_ =s "start" then startMessage attached raw d
          else
            match attached with
            | None => (d, Err "start must come first")
            | Some session =>
                if type_ =s "gap" then
                  match isCount (field raw "bytes") with
                  | None => (d, Err "invalid gap")
                  | Some bytes => (d, Ok (DGap session bytes))
                  end
                else
                  match (if type_ =s "events" then field raw "events" else None) with
                  | Some (JArr events) =>
                      match normalizeEvents events with
                      | None => (d, Err "invalid event")
                      | Some es => (d, Ok (DEvents session es))
                      end
                  | _ => (d, Err "unknown ingest message")
                  end
            end
      | _ =>
          match attached with
          | None => (d, Err "start must come first")
          | Some _ => (d, Err "unknown ingest message")
          end
      end
  | _ => (d, Err "ingest frame must be an object")
  end.

(** A frame: bytes, or text of a length with what [JSON.parse] makes of it. *)
Inductive Frame := BinaryFrame | TextFrame (length : Z) (parsed : option json).

(** The close the handler asks for, if any. *)
Definition webSocketMessage (now : Z) (ws : nat) (message : Frame) (d : ShareDO)
    : ShareDO * option (Z * string) :=
  match read_attachment ws d with
  | None => (d, Some (1008, "unknown socket"))
  | Some attached =>
      match message with
      | BinaryFrame => (d, Some (1009, "ingest frame too large"))
      | TextFrame length parsed =>
          if RUN_SHARE_MAX_MESSAGE_BYTES <? length then (d, Some (1009, "ingest frame too large"))
          else
            match parsed with
            | None => (d, Some (1007, "ingest frame is not JSON"))
            | Some raw =>
                match toViewerMessage attached raw d with
                | (d1, Err reason) => (d1, Some (1008, reason))
                | (d1, Ok m) =>
                    let d2 := match m with
                              | DStart session _ _ _ _ _ _ _ => serialize_attachment ws (Some session) d1
                              | _ => d1
                              end in
                    (append now m d2, None)
                end
            end
      end
  end.

(** A producer's socket closed with [code] or failed (1006). A socket that is
    closed already keeps its attachment ([writable] is false). *)
Definition producerGone (now : Z) (ws : nat) (code : Z) (writable : bool) (d : ShareDO) : ShareDO :=
  match read_attachment ws d with
  | Some (Some session) =>
      if negb (truthy session) then d
      else
      let resumed := existsb (fun '(id, s) => negb (id =? ws)%nat &&
        match s with Some x => x =s session | None => false end) (d_sockets d) in
      let d1 := if writable then serialize_attachment ws None d else d in
      if resumed && negb (code =? SHARE_INGEST_CLOSE_ENDED) then d1
      else append now (if code =? SHARE_INGEST_CLOSE_ENDED then DEnd session else DDetach session) d1
  | _ => d
  end.

(** [/^Bearer (\S+)$/.exec(header)?.[1]]. *)
Fixpoint no_space (s : string) : bool :=
  match s with EmptyString => true | String c s' => negb (js_space c) && no_space s' end.
Definition bearer (header : string) : option string :=
  if str_prefix "Bearer " header then
    let token := String.substring 7 (String.length header - 7) header in
    if truthy token && no_space token then Some token else None
  else None.

(** The status of the answer; 101 opens the socket [ws]. [sha256Hex] is the
    platform's digest. *)
Definition ingest (sha256Hex : string -> string) (authorization : option string) (ws : nat)
    (d : ShareDO) : ShareDO * Z :=
  match d_write_token_hash d with
  | None => (d, 404)
  | Some expected =>
      if negb (truthy expected) || negb (live d) then (d, 404)
      else
        match bearer (nullish authorization "") with
        | None => (d, 401)
        | Some token =>
            if negb (sha256Hex token =s expected) then (d, 401)
            else if (RUN_SHARE_MAX_PRODUCERS <=? length (d_sockets d))%nat then (d, 429)
            else (with_sockets (d_sockets d ++ [(ws, None)]) d, 101)
        end
  end.

(** * Public files *)

Fixpoint file_get (f : FileName) (b : list (FileName * FileBody)) : option FileBody :=
  match b with
  | [] => None
  | (g, x) :: rest => if decide (f = g) then Some x else file_get f rest
  end.
Definition file_delete (p : FileName -> bool) (b : list (FileName * FileBody)) :=
  List.filter (fun '(f, _) => negb (p f)) b.
Definition file_put (f : FileName) (x : FileBody) (b : list (FileName * FileBody)) :=
  file_delete (fun g => bool_decide (g = f)) b ++ [(f, x)].

(** A write that is done, or that failed, before or after it took effect. *)
Inductive PutOutcome := PutDone | PutFailed (applied : bool).
Inductive PutError := ShareStopped | PutThrew.

(** [putFile] with nothing else running meanwhile. *)
Definition putFile (f : FileName) (x : FileBody) (o : PutOutcome) (d : ShareDO)
    : ShareDO * option PutError :=
  match d_share_id d with
  | None => (d, Some ShareStopped)
  | Some _ =>
      if d_stopped d then (d, Some ShareStopped)
      else
        let put := with_bucket (file_put f x (d_bucket d)) d in
        match o with
        | PutDone => (put, None)
        | PutFailed true => (put, Some PutThrew)
        | PutFailed false => (d, Some PutThrew)
        end
  end.

Definition lines (rows : list LogRow) : FileBody :=
  LinesBody (map (fun r => (row_seq r, row_message r)) rows).

(** [SELECT ... FROM log WHERE seq > a AND seq <= b ORDER BY seq]; the log is
    appended in the order of its sequence numbers. *)
Definition log_between (a b : Z) (log : list LogRow) : list LogRow :=
  List.filter (fun r => (a <? row_seq r) && (row_seq r <=? b)) log.
Definition log_after (a : Z) (log : list LogRow) : list LogRow :=
  List.filter (fun r => a <? row_seq r) log.

Definition commit (segment seq checkpoint checkpoint_seq : Z) (d : ShareDO) : ShareDO :=
  mkShareDO (d_share_id d) (d_mission d) (d_write_token_hash d) (d_stopped d) (d_seq d) (d_total d)
    (d_truncated d) seq segment checkpoint checkpoint_seq (d_generation d) (d_recording_due d)
    (d_recorded d) (d_log d) (d_sessions d) (d_recordings d) (d_alarm d) (d_sockets d) (d_bucket d).

(** ** A flush, await by await *)

(** The local variables of a flush: the segment it writes, the newest row of it,
    and the checkpoint the head will count. *)
Record FlushVars := mkFlushVars { fv_segment : Z; fv_newest : Z; fv_checkpoint : Z }.

(** Where a flush waits: for the write of its segment, of its checkpoint or of the
    head. [applied] tells whether the write took effect. *)
Inductive Flush :=
| FlushIdle
| FlushSegment (v : FlushVars) (rows : list LogRow) (applied : bool)
| FlushCheckpoint (v : FlushVars) (bodies : list LogRow) (applied : bool)
| FlushHead (v : FlushVars) (head : ShareHead) (applied : bool).

(** The file a flush is writing, if its write is still to take effect. *)
Definition flushFile (st : Flush) : option (FileName * FileBody) :=
  match st with
  | FlushSegment v rows false => Some (SegmentFile 1 (fv_segment v), lines rows)
  | FlushCheckpoint v bodies false => Some (CheckpointFile 1 (fv_checkpoint v), lines bodies)
  | FlushHead v head false => Some (HeadFile, HeadBody head)
  | _ => None
  end.
Definition flushApplied (st : Flush) : Flush :=
  match st with
  | FlushSegment v rows _ => FlushSegment v rows true
  | FlushCheckpoint v bodies _ => FlushCheckpoint v bodies true
  | FlushHead v head _ => FlushHead v head true
  | FlushIdle => FlushIdle
  end.

(** [putFile] up to its write. *)
Definition sendPut (d : ShareDO) (st : Flush) : Flush * option PutError :=
  match d_share_id d with
  | Some _ => if d_stopped d then (FlushIdle, Some ShareStopped) else (st, None)
  | None => (FlushIdle, Some ShareStopped)
  end.

(** Up to the write of the segment. *)
Definition flushBegin (d : ShareDO) : Flush * option PutError :=
  if d_recorded d then (FlushIdle, None)
  else
    let rows := log_after (d_flushed_seq d) (d_log d) in
    match last rows with
    | None => (FlushIdle, None)
    | Some newest => sendPut d (FlushSegment (mkFlushVars (d_segment d + 1) (row_seq newest) 0) rows false)
    end.

(** The write in flight takes effect. *)
Definition flushEffect (st : Flush) (d : ShareDO) : ShareDO * Flush :=
  match flushFile st with
  | Some (f, x) => (with_bucket (file_put f x (d_bucket d)) d, flushApplied st)
  | None => (d, st)
  end.

Definition at_checkpoint (v : FlushVars) : bool := fv_segment v mod SHARE_CHECKPOINT_SEGMENTS =? 0.
Definition sendHead (v : FlushVars) (d : ShareDO) : Flush * option PutError :=
  sendPut d (FlushHead v (mkShareHead 1 (fv_segment v) (fv_checkpoint v) (NInt (fv_newest v)) (d_truncated d) false) false).

(** A write returned: its file goes again if the share was stopped meanwhile, or the
    flush goes on to its next write, and after the head to the end. *)
Definition flushResume (st : Flush) (d : ShareDO) : ShareDO * Flush * option PutError :=
  let unless_stopped f go :=
    match d_share_id d, d_stopped d with
    | Some _, false => go
    | _, _ => (with_bucket (file_delete (fun g => bool_decide (g = f)) (d_bucket d)) d, FlushIdle, Some ShareStopped)
    end in
  match st with
  | FlushSegment v _ true =>
      unless_stopped (SegmentFile 1 (fv_segment v))
        (let v := mkFlushVars (fv_segment v) (fv_newest v) (d_checkpoint d) in
         if at_checkpoint v
         then
           let bodies := log_between (d_checkpoint_seq d) (fv_newest v) (d_log d) in
           let v := mkFlushVars (fv_segment v) (fv_newest v) (fv_checkpoint v + 1) in
           (d, fst (sendPut d (FlushCheckpoint v bodies false)), snd (sendPut d (FlushCheckpoint v bodies false)))
         else (d, fst (sendHead v d), snd (sendHead v d)))
  | FlushCheckpoint v _ true =>
      unless_stopped (CheckpointFile 1 (fv_checkpoint v)) (d, fst (sendHead v d), snd (sendHead v d))
  | FlushHead v _ true =>
      unless_stopped HeadFile
        (commit (fv_segment v) (fv_newest v)
           (if at_checkpoint v then fv_checkpoint v else d_checkpoint d)
           (if at_checkpoint v then fv_newest v else d_checkpoint_seq d) d, FlushIdle, None)
  | _ => (d, st, None)
  end.

(** ** A flush with nothing else running between its awaits *)

Definition flushPut (o : PutOutcome) (st : Flush) (d : ShareDO) : ShareDO * Flush * option PutError :=
  match o with
  | PutDone => let '(d', st') := flushEffect st d in flushResume st' d'
  | PutFailed applied => (if applied then fst (flushEffect st d) else d, FlushIdle, Some PutThrew)
  end.
Definition flushLive (o1 o2 o3 : PutOutcome) (d : ShareDO) : ShareDO * option PutError :=
  match flushBegin d with
  | (FlushIdle, e) => (d, e)
  | (st, _) =>
      match flushPut o1 st d with
      | (d1, FlushIdle, e) => (d1, e)
      | (d1, (FlushCheckpoint _ _ _) as st1, _) =>
          match flushPut o2 st1 d1 with
          | (d2, FlushIdle, e) => (d2, e)
          | (d2, st2, _) => let '(d3, _, e) := flushPut o3 st2 d2 in (d3, e)
          end
      | (d1, st1, _) => let '(d2, _, e) := flushPut o3 st1 d1 in (d2, e)
      end
  end.

(** * Start and stop of a share *)

(** [!value] on a JSON value. *)
Definition json_truthy (v : option json) : bool :=
  match v with
  | None | Some JNull | Some (JBool false) | Some (JNum (NInt 0)) => false
  | Some (JStr s) => truthy s
  | _ => true
  end.

Definition init_head : ShareHead := mkShareHead 1 0 0 (NInt 0) false false.

Definition set_share_id (id : string) (d : ShareDO) : ShareDO :=
  mkShareDO (Some id) (d_mission d) (d_write_token_hash d) (d_stopped d) (d_seq d) (d_total d)
    (d_truncated d) (d_flushed_seq d) (d_segment d) (d_checkpoint d) (d_checkpoint_seq d)
    (d_generation d) (d_recording_due d) (d_recorded d) (d_log d) (d_sessions d) (d_recordings d)
    (d_alarm d) (d_sockets d) (d_bucket d).
Definition set_shared (hash : string) (d : ShareDO) : ShareDO :=
  mkShareDO (d_share_id d) true (Some hash) (d_stopped d) (d_seq d) (d_total d)
    (d_truncated d) (d_flushed_seq d) (d_segment d) (d_checkpoint d) (d_checkpoint_seq d)
    (d_generation d) (d_recording_due d) (d_recorded d) (d_log d) (d_sessions d) (d_recordings d)
    (d_alarm d) (d_sockets d) (d_bucket d).

(** A failed write leaves the handler by its exception: [None] is no answer. *)
Definition init (body : json) (o1 o2 : PutOutcome) (d : ShareDO) : ShareDO * option Z :=
  match field body "share_id", field body "write_token_hash" with
  | Some (JStr share_id), Some (JStr hash) =>
      if matches_class base64url_unit 22 22 share_id && json_truthy (field body "mission")
         && matches_class (fun n => in_range 48 57 n || in_range 97 102 n) 64 64 hash then
        if d_stopped d then (d, Some 409)
        else
          let d0 := set_share_id share_id d in
          match putFile MissionFile (MissionBody (nullish (field body "mission") JNull)) o1 d0 with
          | (d1, Some _) => (d1, None)
          | (d1, None) =>
              match putFile HeadFile (HeadBody init_head) o2 d1 with
              | (d2, Some _) => (d2, None)
              | (d2, None) => (set_shared hash d2, Some 204)
              end
          end
      else (d, Some 400)
  | _, _ => (d, Some 400)
  end.

(** [wipe] with nothing else running meanwhile: everything but the stop mark is
    forgotten, and every file deleted. Sockets close through their own events. *)
Definition wipe (d : ShareDO) : ShareDO :=
  mkShareDO None false None true 0 0 false 0 0 0 0 1 false false [] [] [] None (d_sockets d)
    (match d_share_id d with Some _ => [] | None => d_bucket d end).

(** * The text of the files *)

Definition event_json (e : DEvent) : json :=
  JArr [JNum (NInt (de_at e)); JStr (de_code e); JStr (de_data e)].

(** The value [JSON.parse] gives for a row's body. *)
Definition message_json (line : Z * DMessage) : json :=
  let '(seq, m) := line in
  let tagged t rest := JObj (("type", JStr t) :: rest ++ [("seq", JNum (NInt seq))]) in
  match m with
  | DStart s vm mode c r a mid res =>
      tagged "start" [("session", JStr s); ("vm_id", JStr vm); ("mode", JStr mode);
        ("cols", JNum (NInt c)); ("rows", JNum (NInt r)); ("at_ms", JNum (NInt a));
        ("mid_session", JBool mid); ("resumed", JBool res)]
  | DEvents s es => tagged "events" [("session", JStr s); ("events", JArr (map event_json es))]
  | DGap s n => tagged "gap" [("session", JStr s); ("bytes", JNum (NInt n))]
  | DEnd s => tagged "end" [("session", JStr s)]
  | DDetach s => tagged "detach" [("session", JStr s)]
  | DTruncated => tagged "truncated" []
  end.

Definition head_json (h : ShareHead) : json :=
  JObj [("generation", JNum (NInt (h_generation h))); ("segment", JNum (NInt (h_segment h)));
        ("checkpoint", JNum (NInt (h_checkpoint h))); ("seq", JNum (h_seq h));
        ("truncated", JBool (h_truncated h)); ("recorded", JBool (h_recorded h))].

Definition body_lines (b : FileBody) : list (option json) :=
  match b with
  | MissionBody m => [Some m]
  | HeadBody h => [Some (head_json h)]
  | LinesBody ms => map (fun m => Some (message_json m)) ms
  end.

(** What the CDN answers for a path of the share. *)
Definition serve (b : list (FileName * FileBody)) (path : string) : Response :=
  match List.find (fun '(f, _) => file_name f =s path) b with
  | Some (_, x) => Answer (body_lines x)
  | None => NotFound
  end.

(** * Lemmas: names and contents of files *)

Definition slash : Ascii.ascii := Ascii.ascii_of_nat 47.
Definition dot : Ascii.ascii := Ascii.ascii_of_nat 46.

Lemma segment_path_inj g n g' n' : shareSegmentPath g n = shareSegmentPath g' n' -> g = g' /\ n = n'.
Proof.
  unfold shareSegmentPath. intros H. injection H as H.
  assert (forall z : Z, unit_free slash (pretty z) = true) as Hs by (intros; by apply pretty_free).
  assert (forall z : Z, unit_free dot (pretty z) = true) as Hd by (intros; by apply pretty_free).
  apply (app_free_inj slash _ _ _ _ (Hs g) (Hs g')) in H as [Hg H].
  apply (app_free_inj dot _ _ _ _ (Hd n) (Hd n')) in H as [Hn _].
  by split; apply (inj pretty).
Qed.

Lemma checkpoint_path_inj g n g' n' :
  shareCheckpointPath g n = shareCheckpointPath g' n' -> g = g' /\ n = n'.
Proof.
  unfold shareCheckpointPath. intros H. injection H as H.
  assert (forall z : Z, unit_free slash (pretty z) = true) as Hs by (intros; by apply pretty_free).
  assert (forall z : Z, unit_free dot (pretty z) = true) as Hd by (intros; by apply pretty_free).
  apply (app_free_inj slash _ _ _ _ (Hs g) (Hs g')) in H as [Hg H]. injection H as H.
  apply (app_free_inj dot _ _ _ _ (Hd n) (Hd n')) in H as [Hn _].
  by split; apply (inj pretty).
Qed.

Lemma segment_checkpoint_path g n g' k : shareSegmentPath g n <> shareCheckpointPath g' k.
Proof.
  unfold shareSegmentPath, shareCheckpointPath. intros H. injection H as H.
  assert (forall z : Z, unit_free slash (pretty z) = true) as Hs by (intros; by apply pretty_free).
  apply (app_free_inj slash _ _ _ _ (Hs g) (Hs g')) in H as [_ H].
  assert (unit_free (Ascii.ascii_of_nat 99) (pretty n +:+ ".jsonl") = true) as Hc.
  { rewrite unit_free_app. rewrite pretty_free; done. }
  rewrite H in Hc. done.
Qed.

Lemma file_name_inj f f' : file_name f = file_name f' -> f = f'.
Proof.
  destruct f, f'; cbn [file_name]; intros H; try done.
  - by apply segment_path_inj in H as [-> ->].
  - by apply segment_checkpoint_path in H.
  - by symmetry in H; apply segment_checkpoint_path in H.
  - by apply checkpoint_path_inj in H as [-> ->].
Qed.

Lemma file_get_put_eq f x b : file_get f (file_put f x b) = Some x.
Proof.
  unfold file_put. induction b as [|[g y] b IH]; cbn.
  - by rewrite decide_True.
  - destruct (bool_decide (g = f)) eqn:E; cbn; [done|].
    apply bool_decide_eq_false in E. by rewrite decide_False by congruence.
Qed.

Lemma file_get_put_ne f g x b : f <> g -> file_get f (file_put g x b) = file_get f b.
Proof.
  intros Hne. unfold file_put. induction b as [|[h y] b IH]; cbn.
  - by rewrite decide_False.
  - destruct (bool_decide (h = g)) eqn:E; cbn.
    + apply bool_decide_eq_true in E as ->. rewrite decide_False by done. exact IH.
    + destruct (decide (f = h)); [done|exact IH].
Qed.

Lemma serve_get b f : serve b (file_name f) =
  match file_get f b with Some x => Answer (body_lines x) | None => NotFound end.
Proof.
  unfold serve. induction b as [|[g x] b IH]; cbn; [done|].
  destruct (decide (f = g)) as [<-|Hne]; [by rewrite String.eqb_refl|].
  assert ((file_name g =s file_name f) = false) as ->; [|done].
  apply String.eqb_neq. intros H. apply Hne. symmetry. by apply file_name_inj.
Qed.

Lemma parseShareSegment_lines ms :
  parseShareSegment (body_lines (LinesBody ms)) = map message_json ms.
Proof.
  induction ms as [|[n m] ms IH]; [done|]. cbn [body_lines map parseShareSegment omap list_omap].
  assert (field (message_json (n, m)) "type" <> None /\
    exists t, field (message_json (n, m)) "type" = Some (JStr t)) as [_ [t Ht]]
    by (destruct m; cbn; by eauto).
  rewrite Ht. f_equal. apply IH.
Qed.

Lemma parseHead_json h :
  1 <= h_generation h -> 0 <= h_segment h -> 0 <= h_checkpoint h ->
  parseHead (body_lines (HeadBody h)) = Some h.
Proof.
  destruct h as [g s c q t r]. cbn. intros Hg Hs Hc.
  assert ((1 <=? g) = true) as -> by by apply Z.leb_le.
  assert ((0 <=? s) = true) as -> by by apply Z.leb_le.
  assert ((0 <=? c) = true) as -> by by apply Z.leb_le. done.
Qed.

(** * The published log *)

Definition row_line (r : LogRow) : Z * DMessage := (row_seq r, row_message r).

(** The live log: one row per sequence number, in order. *)
Record log_ok (d : ShareDO) : Prop := {
  lk_seqs : map row_seq (d_log d) = range 1 (d_seq d);
  lk_seq : 0 <= d_seq d;
  lk_flushed : 0 <= d_flushed_seq d <= d_seq d;
}.

(** Segment [n] holds the rows after [cut (n - 1)] up to [cut n], a checkpoint
    those of its sixty segments, and the head names what is there. *)
Record pub_ok (cut : Z -> Z) (d : ShareDO) : Prop := {
  pk_log : log_ok d;
  pk_zero : cut 0 = 0;
  pk_segment : 0 <= d_segment d;
  pk_mono : forall i j, 0 <= i <= j -> j <= d_segment d -> cut i <= cut j;
  pk_last : cut (d_segment d) = d_flushed_seq d;
  pk_checkpoint : d_checkpoint d = d_segment d / SHARE_CHECKPOINT_SEGMENTS;
  pk_checkpoint_seq : d_checkpoint_seq d = cut (SHARE_CHECKPOINT_SEGMENTS * d_checkpoint d);
  pk_segments : forall n, 1 <= n <= d_segment d ->
    file_get (SegmentFile 1 n) (d_bucket d)
      = Some (lines (log_between (cut (n - 1)) (cut n) (d_log d)));
  pk_checkpoints : forall k, 1 <= k <= d_checkpoint d ->
    file_get (CheckpointFile 1 k) (d_bucket d)
      = Some (lines (log_between (cut (SHARE_CHECKPOINT_SEGMENTS * (k - 1)))
                                 (cut (SHARE_CHECKPOINT_SEGMENTS * k)) (d_log d)));
  pk_head : exists trunc, file_get HeadFile (d_bucket d)
    = Some (HeadBody (mkShareHead 1 (d_segment d) (d_checkpoint d) (NInt (d_flushed_seq d)) trunc false));
}.

(** ** The log *)

Lemma filter_none {A} (p : A -> bool) l : (forall x, x ∈ l -> p x = false) -> List.filter p l = [].
Proof.
  induction l as [|x l IH]; intros H; cbn; [done|].
  rewrite (H x) by (by left). apply IH. intros y Hy. apply H. by right.
Qed.

Lemma filter_ext_elem {A} (p q : A -> bool) l :
  (forall x, x ∈ l -> p x = q x) -> List.filter p l = List.filter q l.
Proof.
  induction l as [|x l IH]; intros H; cbn; [done|].
  rewrite (H x) by (by left). rewrite IH; [done|]. intros y Hy. apply H. by right.
Qed.

Lemma log_seq_bound d r : log_ok d -> r ∈ d_log d -> 1 <= row_seq r <= d_seq d.
Proof.
  intros [Hs _ _] Hr. apply elem_of_range. rewrite <- Hs. apply list_elem_of_fmap. by exists r.
Qed.

(** Rows at or below a bound are not changed by rows above it. *)
Lemma log_between_snoc a b log r : b < row_seq r -> log_between a b (log ++ [r]) = log_between a b log.
Proof.
  intros H. unfold log_between. rewrite List.filter_app. cbn.
  assert ((row_seq r <=? b) = false) as -> by (by apply Z.leb_gt).
  rewrite andb_false_r. by rewrite app_nil_r.
Qed.

(** Between bounds in order, the rows split at any bound between. *)
Lemma log_between_split d a b c :
  log_ok d -> a <= b <= c ->
  log_between a b (d_log d) ++ log_between b c (d_log d) = log_between a c (d_log d).
Proof.
  intros [Hs _ _] H. revert Hs. generalize (d_seq d). unfold log_between.
  generalize 1. induction (d_log d) as [|r log IH]; intros lo hi Hs; [done|].
  cbn [map] in Hs. destruct (Z.le_gt_cases lo hi) as [Hle|Hgt];
    [|by rewrite range_empty in Hs by lia].
  assert (row_seq r = lo /\ map row_seq log = range (lo + 1) hi) as [Hr Hlog].
  { unfold range in Hs. rewrite seqZ_cons in Hs by lia. injection Hs as -> Hs. split; [done|].
    rewrite Hs. unfold range. f_equal; lia. }
  specialize (IH _ _ Hlog). cbn [List.filter]. rewrite Hr.
  assert (Hrest : b < lo -> forall x, x ∈ log -> (a <? row_seq x) && (row_seq x <=? b) = false).
  { intros Hb x Hx. assert (row_seq x ∈ range (lo + 1) hi) as [Hx1 _]%elem_of_range
      by (rewrite <- Hlog; apply list_elem_of_fmap; by exists x).
    apply andb_false_iff. right. apply Z.leb_gt. lia. }
  destruct (Z.ltb_spec a lo), (Z.leb_spec lo b), (Z.ltb_spec b lo), (Z.leb_spec lo c);
    cbn [andb app]; try lia; rewrite <- ?IH; try done.
  by rewrite (filter_none _ log (Hrest ltac:(lia))).
Qed.

Lemma log_after_between d a :
  log_ok d -> log_after a (d_log d) = log_between a (d_seq d) (d_log d).
Proof.
  intros Hok. apply filter_ext_elem. intros r Hr.
  destruct (log_seq_bound _ _ Hok Hr). assert ((row_seq r <=? d_seq d) = true) as ->
    by by apply Z.leb_le. by rewrite andb_true_r.
Qed.

Lemma log_last d r : log_ok d -> last (log_after (d_flushed_seq d) (d_log d)) = Some r ->
  row_seq r = d_seq d /\ d_flushed_seq d < d_seq d.
Proof.
  intros Hok Hl. pose proof Hok as [Hs H0 Hf].
  assert (Hin : r ∈ log_after (d_flushed_seq d) (d_log d)) by by apply last_Some_elem_of.
  unfold log_after in Hin. apply list_elem_of_In, List.filter_In in Hin as [Hin Hgt].
  apply list_elem_of_In in Hin. apply Z.ltb_lt in Hgt.
  destruct (log_seq_bound _ _ Hok Hin) as [Hb1 Hb2]. split; [|lia].
  assert (exists log0 r0, d_log d = log0 ++ [r0] /\ row_seq r0 = d_seq d) as (log0 & r0 & El & Er).
  { rewrite range_snoc in Hs by lia. destruct (d_log d) as [|x l] using rev_ind.
    - by destruct (range 1 (d_seq d - 1)).
    - rewrite map_app in Hs. apply app_inj_tail in Hs as [_ Hs]. by exists l, x. }
  unfold log_after in Hl. rewrite El, List.filter_app in Hl. cbn in Hl.
  assert ((d_flushed_seq d <? row_seq r0) = true) as E by (apply Z.ltb_lt; lia).
  rewrite E, last_snoc in Hl. by injection Hl as <-.
Qed.

(** ** Messages keep what is published *)

(** The part of the object the published files are about. *)
Definition pub_view (d : ShareDO) :=
  (d_log d, d_seq d, d_flushed_seq d, d_segment d, d_checkpoint d, d_checkpoint_seq d, d_bucket d).

Lemma pub_ok_view cut d d' : pub_view d' = pub_view d -> pub_ok cut d -> pub_ok cut d'.
Proof.
  unfold pub_view. intros Hv [[H1 H2 H3] ? ? ? ? ? ? ? ? ?]. injection Hv as E1 E2 E3 E4 E5 E6 E7.
  split; [split|..]; rewrite ?E1, ?E2, ?E3, ?E4, ?E5, ?E6, ?E7; done.
Qed.

Lemma pub_ok_snoc cut d session m total trunc :
  pub_ok cut d ->
  pub_ok cut (with_log (d_seq d + 1) total trunc
    (d_log d ++ [mkLogRow (d_seq d + 1) session m]) d).
Proof.
  intros [[Hs H0 Hf] Hz Hseg Hm Hl Hc Hcs Hsegs Hcks Hh].
  assert (Hcut : forall i, 0 <= i <= d_segment d -> cut i <= d_seq d).
  { intros i Hi. etransitivity; [apply (Hm i (d_segment d)); lia|]. lia. }
  assert (Hb : d_checkpoint d * 60 <= d_segment d)
    by (rewrite Hc; unfold SHARE_CHECKPOINT_SEGMENTS; pose proof (Z.mul_div_le (d_segment d) 60); lia).
  split; [split|..]; try done; cbn [with_log d_log d_seq d_flushed_seq d_segment d_checkpoint
    d_checkpoint_seq d_bucket]; try lia.
  - rewrite map_app, Hs. cbn. rewrite (range_snoc 1 (d_seq d + 1)) by lia. do 2 f_equal. lia.
  - intros n Hn. rewrite log_between_snoc; [by apply Hsegs|]. cbn.
    assert (cut n <= d_seq d) by (apply Hcut; lia). lia.
  - intros k Hk. rewrite log_between_snoc; [by apply Hcks|]. cbn.
    assert (cut (SHARE_CHECKPOINT_SEGMENTS * k) <= d_seq d)
      by (apply Hcut; unfold SHARE_CHECKPOINT_SEGMENTS; lia). lia.
Qed.

Lemma schedule_view now d : pub_view (schedule now d) = pub_view d.
Proof. unfold schedule. by destruct (d_alarm d). Qed.

Lemma append_pub cut now m d : pub_ok cut d -> pub_ok cut (append now m d).
Proof.
  intros Hok. unfold append.
  destruct (negb (live d) || d_recorded d); [done|].
  destruct (d_truncated d && is_events m); [by eapply pub_ok_view; [|exact Hok]|].
  eapply pub_ok_view; [apply schedule_view|].
  destruct (is_events m && _).
  - by eapply pub_ok_view; [|exact (pub_ok_snoc cut d None DTruncated
      (d_total d + slen (body_text m (d_seq d + 1))) true Hok)].
  - eapply pub_ok_view; [|exact (pub_ok_snoc cut d (msg_session m) m
      (d_total d + slen (body_text m (d_seq d + 1))) (d_truncated d) Hok)].
    by destruct (is_gap m).
Qed.

Lemma toViewerMessage_view attached raw d : pub_view (toViewerMessage attached raw d).1 = pub_view d.
Proof. unfold toViewerMessage, startMessage. by repeat case_match. Qed.

Lemma webSocketMessage_pub cut now ws f d :
  pub_ok cut d -> pub_ok cut (webSocketMessage now ws f d).1.
Proof.
  intros Hok. unfold webSocketMessage.
  destruct (read_attachment ws d) as [attached|]; [|done].
  destruct f as [|len [raw|]]; [done| |by case_match].
  destruct (_ <? _); [done|].
  pose proof (toViewerMessage_view attached raw d) as Hv.
  destruct (toViewerMessage attached raw d) as [d1 [m|e]]; cbn [fst] in *;
    (eapply pub_ok_view in Hok; [|exact Hv]); [|done].
  apply append_pub. destruct m; [by eapply pub_ok_view; [|exact Hok]|done..].
Qed.

Lemma producerGone_pub cut now ws code writable d :
  pub_ok cut d -> pub_ok cut (producerGone now ws code writable d).
Proof.
  intros Hok. unfold producerGone. destruct (read_attachment ws d) as [[s|]|]; [|done..].
  destruct (negb (truthy s)); [done|].
  assert (pub_ok cut (if writable then serialize_attachment ws None d else d)) by (destruct writable; [by eapply pub_ok_view; [|exact Hok]|done]).
  destruct (_ && _); [done|]. by apply append_pub.
Qed.

Lemma ingest_pub cut sha auth ws d : pub_ok cut d -> pub_ok cut (ingest sha auth ws d).1.
Proof. intros Hok. unfold ingest.
  repeat case_match; try done. by eapply pub_ok_view; [|exact Hok].
Qed.

(** ** A flush keeps and extends what is published *)

(** Writing a file the head does not name yet. *)
Lemma put_unnamed cut f x d :
  pub_ok cut d ->
  match f with
  | MissionFile => True
  | HeadFile => False
  | SegmentFile g n => g = 1 -> d_segment d < n
  | CheckpointFile g k => g = 1 -> d_checkpoint d < k
  end ->
  pub_ok cut (with_bucket (file_put f x (d_bucket d)) d).
Proof.
  intros [[Hs H0 Hf] Hz Hseg Hm Hl Hc Hcs Hsegs Hcks [tr Hh]] Hnew.
  assert (Hget : forall g, g <> f -> file_get g (file_put f x (d_bucket d)) = file_get g (d_bucket d))
    by (intros; by apply file_get_put_ne).
  split; [split|..]; try done; cbn [with_bucket d_log d_seq d_flushed_seq d_segment d_checkpoint
    d_checkpoint_seq d_bucket].
  - intros n Hn. rewrite Hget; [by apply Hsegs|]. intros <-. specialize (Hnew eq_refl). lia.
  - intros k Hk. rewrite Hget; [by apply Hcks|]. intros <-. specialize (Hnew eq_refl). lia.
  - exists tr. rewrite Hget; [done|]. by intros <-.
Qed.

(** The next segment ends at the newest row. *)
Definition cut_next (cut : Z -> Z) (segment seq : Z) : Z -> Z :=
  fun i => if i <=? segment then cut i else seq.

Lemma checkpoint_div s :
  0 <= s ->
  ((s + 1) mod 60 = 0 -> (s + 1) / 60 = s / 60 + 1 /\ 60 * (s / 60 + 1) = s + 1) /\
  ((s + 1) mod 60 <> 0 -> (s + 1) / 60 = s / 60).
Proof.
  intros Hs. pose proof (Z.div_mod s 60 ltac:(lia)). pose proof (Z.mod_pos_bound s 60 ltac:(lia)).
  pose proof (Z.div_mod (s + 1) 60 ltac:(lia)). pose proof (Z.mod_pos_bound (s + 1) 60 ltac:(lia)).
  split; intros; nia.
Qed.

Lemma flush_commit cut d b trunc newest :
  let n := d_segment d + 1 in
  let full := n mod SHARE_CHECKPOINT_SEGMENTS =? 0 in
  let k := if full then d_checkpoint d + 1 else d_checkpoint d in
  pub_ok cut d -> d_flushed_seq d < newest <= d_seq d ->
  (forall i, 1 <= i <= d_segment d ->
     file_get (SegmentFile 1 i) b = file_get (SegmentFile 1 i) (d_bucket d)) ->
  file_get (SegmentFile 1 n) b = Some (lines (log_between (d_flushed_seq d) newest (d_log d))) ->
  (forall i, 1 <= i <= d_checkpoint d ->
     file_get (CheckpointFile 1 i) b = file_get (CheckpointFile 1 i) (d_bucket d)) ->
  (full = true -> file_get (CheckpointFile 1 k) b
     = Some (lines (log_between (d_checkpoint_seq d) newest (d_log d)))) ->
  file_get HeadFile b = Some (HeadBody (mkShareHead 1 n k (NInt newest) trunc false)) ->
  pub_ok (cut_next cut (d_segment d) newest)
    (commit n newest k (if full then newest else d_checkpoint_seq d) (with_bucket b d)).
Proof.
  intros n full k [Hlog Hz Hseg Hm Hl Hc Hcs Hsegs Hcks _] Hlt Hb1 Hb2 Hb3 Hb4 Hb5.
  pose proof Hlog as [Hs H0 Hf]. unfold SHARE_CHECKPOINT_SEGMENTS in *.
  destruct (checkpoint_div (d_segment d) Hseg) as [Hdiv1 Hdiv2].
  assert (Hold : forall i, i <= d_segment d -> cut_next cut (d_segment d) newest i = cut i).
  { intros i Hi. unfold cut_next. by assert ((i <=? d_segment d) = true) as -> by lia. }
  assert (Hnew : cut_next cut (d_segment d) newest n = newest).
  { unfold cut_next, n. by assert ((d_segment d + 1 <=? d_segment d) = false) as -> by lia. }
  assert (Hk60 : 60 * d_checkpoint d <= d_segment d)
    by (rewrite Hc; apply Z.mul_div_le; lia).
  assert (Hkn : k = n / 60).
  { unfold k, full, n. destruct (Z.eqb_spec ((d_segment d + 1) mod 60) 0) as [E|E];
      [destruct (Hdiv1 E)|specialize (Hdiv2 E)]; lia. }
  split; cbn [commit with_bucket d_log d_seq d_flushed_seq d_segment d_checkpoint
    d_checkpoint_seq d_bucket]; unfold SHARE_CHECKPOINT_SEGMENTS.
  - split; cbn; [done|done|lia].
  - rewrite Hold by lia. done.
  - lia.
  - intros i j Hi Hj. destruct (Z.le_gt_cases j (d_segment d)).
    + rewrite !Hold by lia. by apply Hm.
    + assert (j = n) as -> by lia. rewrite Hnew. destruct (Z.le_gt_cases i (d_segment d)).
      * rewrite Hold by lia. etransitivity; [apply (Hm i (d_segment d)); lia|]. lia.
      * assert (i = n) as -> by lia. by rewrite Hnew.
  - exact Hnew.
  - exact Hkn.
  - unfold k, full in *. destruct (Z.eqb_spec (n mod 60) 0) as [E|E].
    + destruct (Hdiv1 E) as [_ E2]. replace (60 * (d_checkpoint d + 1)) with n by lia. done.
    + rewrite Hold by lia. done.
  - intros i Hi. destruct (Z.le_gt_cases i (d_segment d)).
    + rewrite Hb1, Hsegs, !Hold by lia. done.
    + assert (i = n) as -> by lia. rewrite Hnew, Hold by (unfold n; lia).
      replace (n - 1) with (d_segment d) by (unfold n; lia). by rewrite Hl.
  - intros i Hi. destruct (Z.le_gt_cases i (d_checkpoint d)).
    + rewrite Hb3, Hcks, !Hold by lia. done.
    + unfold k, full in *. destruct (Z.eqb_spec (n mod 60) 0) as [E|E]; [|lia].
      assert (i = d_checkpoint d + 1) as -> by lia. destruct (Hdiv1 E) as [_ E2].
      rewrite (Hb4 eq_refl). replace (60 * (d_checkpoint d + 1)) with n by lia.
      rewrite Hnew, Hold by lia.
      replace (d_checkpoint d + 1 - 1) with (d_checkpoint d) by lia. by rewrite <- Hcs.
  - by exists trunc.
Qed.

(** What a flush that waits for a write has written, from what was committed and the
    rows up to its newest one. *)
Definition flush_ok (d : ShareDO) (st : Flush) : Prop :=
  let segment v := fv_segment v = d_segment d + 1 /\ d_flushed_seq d < fv_newest v <= d_seq d in
  let wrote v := file_get (SegmentFile 1 (fv_segment v)) (d_bucket d)
                 = Some (lines (log_between (d_flushed_seq d) (fv_newest v) (d_log d))) in
  let checkpointed v := file_get (CheckpointFile 1 (fv_checkpoint v)) (d_bucket d)
                        = Some (lines (log_between (d_checkpoint_seq d) (fv_newest v) (d_log d))) in
  match st with
  | FlushIdle => True
  | FlushSegment v rows applied =>
      segment v /\ rows = log_between (d_flushed_seq d) (fv_newest v) (d_log d) /\ (applied = true -> wrote v)
  | FlushCheckpoint v bodies applied =>
      segment v /\ wrote v /\ at_checkpoint v = true /\ fv_checkpoint v = d_checkpoint d + 1 /\
      bodies = log_between (d_checkpoint_seq d) (fv_newest v) (d_log d) /\ (applied = true -> checkpointed v)
  | FlushHead v head applied =>
      segment v /\ wrote v /\
      (fv_checkpoint v = if at_checkpoint v then d_checkpoint d + 1 else d_checkpoint d) /\
      (at_checkpoint v = true -> checkpointed v) /\
      (exists trunc, head = mkShareHead 1 (fv_segment v) (fv_checkpoint v) (NInt (fv_newest v)) trunc false)
  end.

(** The object as a reader of the bucket sees it: once the head took effect, the
    flush is as good as recorded. *)
Definition settled (d : ShareDO) (st : Flush) : ShareDO :=
  match st with
  | FlushHead v _ true =>
      commit (fv_segment v) (fv_newest v)
        (if at_checkpoint v then fv_checkpoint v else d_checkpoint d)
        (if at_checkpoint v then fv_newest v else d_checkpoint_seq d) d
  | _ => d
  end.
Definition head_applied (st : Flush) : bool := match st with FlushHead _ _ true => true | _ => false end.

Lemma settled_same d st : head_applied st = false -> settled d st = d.
Proof. by destruct st as [|? ? []|? ? []|? ? []]. Qed.
Lemma settled_log d st : d_log (settled d st) = d_log d /\ d_seq (settled d st) = d_seq d /\ d_bucket (settled d st) = d_bucket d.
Proof. by destruct st as [|? ? []|? ? []|? ? []]. Qed.

Lemma flushBegin_ok cut d : pub_ok cut d -> flush_ok d (fst (flushBegin d)) /\ head_applied (fst (flushBegin d)) = false.
Proof.
  intros Hok. pose proof (pk_log _ _ Hok) as Hlog. unfold flushBegin, sendPut.
  destruct (d_recorded d); [done|]. destruct (last _) as [newest|] eqn:El; [|done].
  destruct (log_last _ _ Hlog El) as [Hnew Hlt].
  destruct (d_share_id d); [destruct (d_stopped d)|]; [done| |done]. cbn [fst head_applied flush_ok fv_segment fv_newest].
  split; [|done]. split; [lia|]. split; [|done]. by rewrite Hnew, log_after_between.
Qed.

(** A write that takes effect keeps the published files right, and the segments
    already there where they were. *)
Lemma flushEffect_ok cut d st d' st' :
  pub_ok cut d -> flush_ok d st -> head_applied st = false -> flushEffect st d = (d', st') ->
  flush_ok d' st' /\ exists cut', pub_ok cut' (settled d' st') /\ (forall i, i <= d_segment d -> cut' i = cut i) /\
    d_segment d <= d_segment (settled d' st').
Proof.
  intros Hok Hst Hna. unfold flushEffect. destruct st as [|v rows [|]|v bodies [|]|v head [|]]; try done; cbn [flushFile flushApplied].
  1,2,4: intros [= <- <-]; split; [done|]; exists cut; split_and!; done.
  - destruct Hst as (Hseg & -> & _). intros [= <- <-]. cbn [flush_ok settled].
    cbn [with_bucket d_log d_seq d_flushed_seq d_segment d_checkpoint d_checkpoint_seq d_bucket].
    split; [split_and!; [apply Hseg..|done|intros _; by rewrite file_get_put_eq]|].
    exists cut. split_and!; [|done|done]. apply put_unnamed; [done|]. intros _. lia.
  - destruct Hst as (Hseg & Hw & Hat & Hk & -> & _). intros [= <- <-]. cbn [flush_ok settled].
    cbn [with_bucket d_log d_seq d_flushed_seq d_segment d_checkpoint d_checkpoint_seq d_bucket].
    split; [split_and!; [apply Hseg..|by rewrite file_get_put_ne|done|done|done|intros _; by rewrite file_get_put_eq]|].
    exists cut. split_and!; [|done|done]. apply put_unnamed; [done|]. intros _. lia.
  - destruct Hst as ((Es & Hn) & Hw & Hk & Hc & tr & ->). intros [= <- <-]. cbn [flush_ok settled].
    cbn [with_bucket d_log d_seq d_flushed_seq d_segment d_checkpoint d_checkpoint_seq d_bucket].
    split.
    { split_and!; [done|lia|lia|by rewrite file_get_put_ne|done|intros Ha; rewrite file_get_put_ne by done; by apply Hc|by eexists]. }
    set (b := file_put HeadFile _ (d_bucket d)). exists (cut_next cut (d_segment d) (fv_newest v)).
    split_and!; [|intros i Hi; unfold cut_next; by assert ((i <=? d_segment d) = true) as -> by lia|cbn; lia].
    pose proof (flush_commit cut d b tr (fv_newest v)) as Hcommit. cbv zeta in Hcommit.
    unfold at_checkpoint in *. rewrite Es in *.
    assert (Ek : (if (d_segment d + 1) mod SHARE_CHECKPOINT_SEGMENTS =? 0 then fv_checkpoint v else d_checkpoint d)
      = if (d_segment d + 1) mod SHARE_CHECKPOINT_SEGMENTS =? 0 then d_checkpoint d + 1 else d_checkpoint d).
    { rewrite Hk. by destruct (_ =? 0). }
    rewrite Ek. apply Hcommit; [done|done|..]; unfold b.
    + intros i Hi. by rewrite file_get_put_ne.
    + by rewrite file_get_put_ne.
    + intros i Hi. by rewrite file_get_put_ne.
    + intros Ha. rewrite file_get_put_ne by done. rewrite Ha in Hk |- *. rewrite <- Hk. by apply Hc.
    + rewrite file_get_put_eq. by rewrite Hk, Es.
Qed.

(** A flush that goes on commits what was published, or waits for its next write. *)
Lemma flushResume_ok d st d' st' e :
  d_stopped d = false -> is_Some (d_share_id d) -> flush_ok d st -> flushResume st d = (d', st', e) ->
  flush_ok d' st' /\ settled d' st' = settled d st /\ d_stopped d' = false /\ d_share_id d' = d_share_id d.
Proof.
  intros Hs [id Hid] Hst. unfold flushResume, sendHead, sendPut. rewrite Hs, Hid.
  destruct st as [|v rows [|]|v bodies [|]|v head [|]]; cbn [fst snd]; try (by intros [= <- <- <-]).
  - destruct Hst as (Hseg & -> & Hw). unfold at_checkpoint at 1. cbn [fv_segment].
    destruct (_ mod _ =? 0) eqn:Ea; intros [= <- <- <-]; cbn [flush_ok settled fv_segment fv_newest fv_checkpoint];
      unfold at_checkpoint; cbn [fv_segment]; rewrite Ea.
    + split_and!; first [done|apply Hseg|by apply Hw].
    + split_and!; first [done|apply Hseg|by apply Hw|by eexists].
  - destruct Hst as (Hseg & Hw & Ha & Hk & -> & Hc). intros [= <- <- <-].
    cbn [flush_ok settled]. rewrite Ha. split_and!; first [done|apply Hseg|by eexists].
Qed.

(** ** Frames beside a flush *)

(** Recording a flush and storing a message are independent. *)
Lemma settled_append now m d st : append now m (settled d st) = settled (append now m d) st.
Proof.
  destruct st as [|? ? []|? ? []|v ? []]; try done. unfold append, schedule. cbn [settled].
  change (live (commit _ _ _ _ d)) with (live d). cbn [commit d_recorded d_truncated d_seq d_total].
  destruct (negb (live d) || d_recorded d); [done|]. destruct (d_truncated d && is_events m); [done|].
  destruct (is_events m && _); [|destruct (is_gap m)]; cbn; by destruct (d_alarm d).
Qed.
Lemma settled_frame now ws f d st :
  (webSocketMessage now ws f (settled d st)).1 = settled (webSocketMessage now ws f d).1 st.
Proof.
  destruct st as [|? ? []|? ? []|v h []]; try done. unfold webSocketMessage.
  change (read_attachment ws (settled d (FlushHead v h true))) with (read_attachment ws d).
  destruct (read_attachment ws d) as [attached|]; [|done].
  destruct f as [|len [raw|]]; [done| |by case_match]. destruct (_ <? _); [done|].
  assert (E : toViewerMessage attached raw (settled d (FlushHead v h true)) =
    let '(d1, r) := toViewerMessage attached raw d in (settled d1 (FlushHead v h true), r)).
  { unfold toViewerMessage, startMessage.
    change (known_session ?x (settled d (FlushHead v h true))) with (known_session x d).
    by repeat case_match. }
  rewrite E. destruct (toViewerMessage attached raw d) as [d1 [m|reason]]; [|done]. cbn [fst].
  rewrite <- settled_append. f_equal. by destruct m.
Qed.
Lemma settled_gone now ws code writable d st :
  producerGone now ws code writable (settled d st) = settled (producerGone now ws code writable d) st.
Proof.
  destruct st as [|? ? []|? ? []|v h []]; try done. unfold producerGone.
  change (read_attachment ws (settled d (FlushHead v h true))) with (read_attachment ws d).
  destruct (read_attachment ws d) as [[session|]|]; [|done..]. destruct (negb (truthy session)); [done|].
  change (d_sockets (settled d (FlushHead v h true))) with (d_sockets d).
  destruct (_ && _); [by destruct writable|]. rewrite <- settled_append. f_equal. by destruct writable.
Qed.
Lemma settled_ingest sha auth ws d st : (ingest sha auth ws (settled d st)).1 = settled (ingest sha auth ws d).1 st.
Proof.
  destruct st as [|? ? []|? ? []|v h []]; try done. unfold ingest.
  change (d_write_token_hash (settled d (FlushHead v h true))) with (d_write_token_hash d).
  change (live (settled d (FlushHead v h true))) with (live d).
  change (d_sockets (settled d (FlushHead v h true))) with (d_sockets d).
  destruct (d_write_token_hash d); [|done]. destruct (_ || _); [done|]. destruct (bearer _); [|done].
  destruct (negb _); [done|]. by destruct (_ <=? _)%nat.
Qed.

(** * A viewer of the share *)

(** Answers that tell the truth about the share: a head that was published at
    some point (the CDN keeps one for about a second), and files as they are now;
    any read may fail instead, or find nothing. *)
Record truthful (d : ShareDO) (env : Env) : Prop := {
  tr_head : forall n text h, env_head env n = Answer text -> parseHead text = Some h ->
    h_generation h = 1 /\ 0 <= h_segment h <= d_segment d /\ h_checkpoint h <= d_checkpoint d;
  tr_file : forall look path text, env_file env look path = Answer text ->
    serve (d_bucket d) path = Answer text;
}.

Definition published (lo hi : Z) (d : ShareDO) : list json :=
  map (fun r => message_json (row_line r)) (log_between lo hi (d_log d)).

Record synced (cut : Z -> Z) (d : ShareDO) (p : Poller) : Prop := {
  sy_handed : handed (pl_said p) = published 0 (cut (pl_applied p)) d;
  sy_applied : 0 <= pl_applied p <= d_segment d;
  sy_generation : pl_generation p = 1 \/ pl_generation p = 0 /\ pl_applied p = 0;
}.

Lemma range_inj a b c d : a <= b -> range a b = range c d -> a = c /\ b = d.
Proof.
  intros Hab H. destruct (Z.le_gt_cases c d) as [Hcd|Hcd].
  - assert (length (range a b) = length (range c d)) as Hlen by by rewrite H.
    unfold range in H, Hlen. rewrite !length_seqZ in Hlen.
    rewrite (seqZ_cons a), (seqZ_cons c) in H by lia. injection H as -> _. lia.
  - rewrite (range_empty c d), range_snoc in H by lia. by destruct (range a (b - 1)).
Qed.

Definition answer_text (r : Response) : list (option json) :=
  match r with Answer t => t | _ => [] end.

(** The rows a file of the plan holds. *)
Lemma planned_rows cut d a f text :
  pub_ok cut d -> 0 <= a -> a <= sf_through f ->
  file_segments (sf_file f) = range (a + 1) (sf_through f) ->
  match sf_file f with
  | Segment n => 1 <= n <= d_segment d
  | Checkpoint k => 1 <= k <= d_checkpoint d /\ k * SHARE_CHECKPOINT_SEGMENTS <= d_segment d
  end ->
  serve (d_bucket d) (file_path 1 (sf_file f)) = Answer text ->
  parseShareSegment text = published (cut a) (cut (sf_through f)) d /\ sf_through f <= d_segment d.
Proof.
  intros Hok Ha Hle Hseg Hin Hserve. destruct f as [[n|k] t]; cbn [sf_file sf_through] in *.
  - assert (n = a + 1 /\ n = t) as [-> <-].
    { apply range_inj; [lia|]. rewrite <- Hseg. cbn. unfold range.
      replace (n - n + 1) with 1 by lia. rewrite seqZ_cons by lia. done. }
    change (file_path 1 (Segment (a + 1))) with (file_name (SegmentFile 1 (a + 1))) in Hserve.
    rewrite serve_get, (pk_segments _ _ Hok) in Hserve by lia.
    apply (f_equal answer_text) in Hserve. cbn [answer_text] in Hserve. rewrite <- Hserve.
    unfold lines. rewrite parseShareSegment_lines, map_map. split; [|lia].
    by replace (a + 1 - 1) with a by lia.
  - destruct Hin as [Hk Hks]. unfold SHARE_CHECKPOINT_SEGMENTS in *. cbn in Hseg.
    apply range_inj in Hseg as [<-%Z.add_cancel_r <-]; [|unfold SHARE_CHECKPOINT_SEGMENTS; lia].
    change (file_path 1 (Checkpoint k)) with (file_name (CheckpointFile 1 k)) in Hserve.
    rewrite serve_get, (pk_checkpoints _ _ Hok) in Hserve by lia.
    apply (f_equal answer_text) in Hserve. cbn [answer_text] in Hserve. rewrite <- Hserve.
    unfold lines, SHARE_CHECKPOINT_SEGMENTS. rewrite parseShareSegment_lines, map_map.
    split; [|lia]. rewrite (Z.mul_comm (k - 1)), (Z.mul_comm k). done.
Qed.

Lemma published_split d a b c :
  log_ok d -> a <= b <= c -> published a b d ++ published b c d = published a c d.
Proof. intros Hl H. unfold published. rewrite <- map_app. by rewrite log_between_split. Qed.

Lemma deliver_synced cut d env look plan p p' e :
  pub_ok cut d -> truthful d env -> synced cut d p -> pl_generation p = 1 ->
  plan_chain (pl_applied p) plan ->
  (forall f, f ∈ plan -> match sf_file f with
     | Segment n => 1 <= n <= d_segment d
     | Checkpoint k => 1 <= k <= d_checkpoint d /\ k * SHARE_CHECKPOINT_SEGMENTS <= d_segment d
     end) ->
  deliver env look plan p = (p', e) -> synced cut d p' /\ pl_generation p' = 1.
Proof.
  intros Hok Htr. revert p. induction plan as [|f plan IH]; intros p Hsy Hg Hch Hin; cbn [deliver].
  { by intros [= <- _]. }
  destruct Hsy as [Hh Ha Hgen]. destruct Hch as (Hle & Hseg & Hch). rewrite Hg.
  destruct (env_file env look _) as [| |text] eqn:Ef; [by intros [= <- _]..|].
  destruct (closed env (wait p)); [by intros [= <- _]|].
  destruct (planned_rows cut d (pl_applied p) f text Hok ltac:(lia) Hle Hseg)
    as [Hrows Hthr]; [apply Hin; by left|by apply (tr_file _ _ Htr) in Ef|].
  apply IH; [split| |done|intros; apply Hin; by right].
  - cbn [delivered tell pl_said pl_applied]. rewrite handed_app, announce_handed. cbn [wait pl_said].
    rewrite Hh. unfold handed at 1. cbn [mbind list_bind]. rewrite app_nil_r, Hrows.
    apply published_split; [apply (pk_log _ _ Hok)|].
    rewrite <- (pk_zero _ _ Hok) at 1. split; apply (pk_mono _ _ Hok); lia.
  - cbn. lia.
  - left. unfold delivered, announce. cbn. by destruct (pl_announced p).
  - unfold delivered, announce. cbn. by destruct (pl_announced p).
Qed.

(** ** Every round keeps the viewer at a prefix of the log *)

Lemma synced_ext cut d p p' :
  handed (pl_said p') = handed (pl_said p) -> pl_applied p' = pl_applied p ->
  pl_generation p' = pl_generation p -> synced cut d p -> synced cut d p'.
Proof. intros E1 E2 E3 [H1 H2 H3]. split; by rewrite ?E1, ?E2, ?E3. Qed.

Lemma wait_synced cut d p : synced cut d p -> synced cut d (wait p).
Proof. by apply synced_ext. Qed.
#[local] Hint Resolve wait_synced : js.

Lemma tell_synced cut d e p :
  (forall ms, e <> OnMessages ms) -> synced cut d p -> synced cut d (tell e p).
Proof.
  intros He. apply synced_ext; [|done..]. cbn. rewrite handed_app. destruct e; cbn;
    try by rewrite app_nil_r. by destruct (He messages).
Qed.

Lemma announce_synced cut d p : synced cut d p -> synced cut d (announce p).
Proof.
  apply synced_ext; [apply announce_handed|..]; unfold announce; by destruct (pl_announced p).
Qed.

Lemma say_synced cut d env s p : synced cut d p -> synced cut d (say env s p).
Proof.
  intros H. unfold say. destruct (_ || _); [done|]. apply tell_synced; [done|].
  by eapply synced_ext; [..|exact H].
Qed.

Lemma take_generation_synced cut d h p :
  pub_ok cut d -> h_generation h = 1 -> synced cut d p ->
  synced cut d (take_generation h p) /\ pl_generation (take_generation h p) = 1.
Proof.
  intros Hok Hh [H1 H2 H3]. unfold take_generation. rewrite Hh.
  destruct (Z.eqb_spec 1 (pl_generation p)) as [<-|Hne]; [by split|].
  destruct H3 as [H3|[H3 H4]]; [congruence|]. split; [|done].
  split; cbn [pl_said pl_applied pl_generation]; [by rewrite H1, H4|lia|by left].
Qed.

Lemma looks_synced cut d env more n h p p' r :
  pub_ok cut d -> truthful d env -> synced cut d p ->
  h_generation h = 1 -> 0 <= h_segment h <= d_segment d -> h_checkpoint h <= d_checkpoint d ->
  looks env more n h p = (p', r) -> synced cut d p'.
Proof.
  intros Hok Htr. revert n h p. induction more as [|more IH]; intros n h p Hsy Hg Hs Hk; cbn [looks].
  all: destruct (take_generation_synced cut d h p Hok Hg Hsy) as [Hsy0 Hg0];
    set (p0 := take_generation h p) in *;
    destruct (deliver env n _ p0) as [p1 e] eqn:Ed;
    destruct (shareFetchPlan_chain (pl_applied p0) (h_segment h) (h_checkpoint h)) as [Hch Hin];
      [destruct Hsy0; lia|];
    eapply (deliver_synced cut d) in Ed as [Hsy1 _]; [|done..|
      intros f Hf; apply Hin in Hf; destruct (sf_file f); lia].
  all: destruct e as [[]|]; try (by intros [= <- _]).
  unfold readHead.
  destruct (env_head env n) as [| |text] eqn:Eh; [intros [= <- _]; by auto with js..|].
  destruct (parseHead text) as [next|] eqn:Ep; [|intros [= <- _]; by auto with js].
  destruct (_ || _); [intros [= <- _]; by auto with js|].
  destruct (tr_head _ _ Htr _ _ _ Eh Ep) as (A & B & C).
  intros H. eapply IH; [..|exact H]; auto with js.
Qed.

Lemma readMission_synced cut d env p : synced cut d p -> synced cut d (readMission env p).1.
Proof.
  intros Hsy. unfold readMission. repeat case_match; cbn [fst]; auto with js.
  apply tell_synced; [done|].
  by eapply synced_ext; [..|exact Hsy].
Qed.

Lemma read_synced cut d env p :
  pub_ok cut d -> truthful d env -> synced cut d p -> synced cut d (read env p).1.
Proof.
  intros Hok Htr Hsy. unfold read, readHead.
  destruct (env_head env 0) as [| |text] eqn:Eh; [cbn; by auto with js..|].
  destruct (parseHead text) as [h|] eqn:Ep; [|cbn; by auto with js].
  destruct (closed env (wait p)); [cbn; by auto with js|].
  destruct (tr_head _ _ Htr _ _ _ Eh Ep) as (A & B & C).
  pose proof (readMission_synced cut d env (wait p) (wait_synced _ _ _ Hsy)) as Hm.
  destruct (readMission env (wait p)) as [p2 [[]|e]]; [done| |done]. cbn [fst] in Hm.
  destruct (looks env 2 1 h p2) as [p3 [h'|e]] eqn:El;
    apply (looks_synced cut d) in El; try done.
  destruct (closed env p3); [done|]. cbn. apply tell_synced; [done|]. by apply announce_synced.
Qed.

Lemma run_round_synced cut d env p :
  pub_ok cut d -> truthful d env -> synced cut d p -> synced cut d (run_round env p).1.
Proof.
  intros Hok Htr Hsy. unfold run_round.
  pose proof (read_synced cut d env p Hok Htr Hsy) as Hr.
  assert (Hf : forall q n, synced cut d q -> synced cut d (set_failures n q))
    by (intros q n; by apply synced_ext).
  destruct (read env p) as [p1 [h|e]]; cbn [fst] in Hr; destruct (closed env p1); try done.
  - cbn. by apply say_synced, Hf.
  - destruct e; cbn [fst]; [by apply say_synced|..]; case_match; by apply say_synced, Hf.
Qed.

(** ** The share and a viewer together *)

(** The object, the flush in flight and a viewer. A flush starts when none is in
    flight, as alarms run one at a time; between its awaits frames arrive and the
    viewer reads. A call of its writes may fail before or, but for the head's, after
    it took effect. *)
Record System := mkSystem { sys_do : ShareDO; sys_flush : Flush; sys_viewer : Poller }.

Inductive share_step : System -> System -> Prop :=
| share_frame now ws f d st p : share_step (mkSystem d st p) (mkSystem (webSocketMessage now ws f d).1 st p)
| share_gone now ws code writable d st p :
    share_step (mkSystem d st p) (mkSystem (producerGone now ws code writable d) st p)
| share_ingest sha auth ws d st p : share_step (mkSystem d st p) (mkSystem (ingest sha auth ws d).1 st p)
| share_flush d p : share_step (mkSystem d FlushIdle p) (mkSystem d (flushBegin d).1 p)
| share_applied d st p : share_step (mkSystem d st p) (mkSystem (flushEffect st d).1 (flushEffect st d).2 p)
| share_resumes d st d' st' e p :
    flushResume st d = (d', st', e) -> share_step (mkSystem d st p) (mkSystem d' st' p)
| share_fails d st p : head_applied st = false -> share_step (mkSystem d st p) (mkSystem d FlushIdle p)
| share_round env d st p :
    truthful (settled d st) env -> share_step (mkSystem d st p) (mkSystem d st (run_round env p).1)
| share_retry d st p : share_step (mkSystem d st p) (mkSystem d st (retry p)).

Definition system_ok (s : System) : Prop :=
  let d := sys_do s in let st := sys_flush s in
  d_stopped d = false /\ is_Some (d_share_id d) /\ flush_ok d st /\
  exists cut, pub_ok cut (settled d st) /\ synced cut (settled d st) (sys_viewer s).

(** Storing rows changes nothing that is published. *)
Lemma synced_snoc cut d d' p rows :
  pub_ok cut d -> d_log d' = d_log d ++ rows -> d_segment d' = d_segment d ->
  (forall r, r ∈ rows -> d_seq d < row_seq r) -> synced cut d p -> synced cut d' p.
Proof.
  intros Hok Hlog Hseg Hrows [H1 H2 H3]. split; [|by rewrite Hseg|done].
  rewrite H1. unfold published. f_equal. rewrite Hlog. unfold log_between.
  rewrite List.filter_app, (filter_none _ rows), app_nil_r; [done|].
  intros r Hr. apply Hrows in Hr. apply andb_false_iff. right. apply Z.leb_gt.
  pose proof (lk_flushed _ (pk_log _ _ Hok)).
  assert (cut (pl_applied p) <= cut (d_segment d)) by (apply (pk_mono _ _ Hok); lia).
  rewrite (pk_last _ _ Hok) in *. lia.
Qed.

(** What the handlers that store messages leave alone, and what they do to the log. *)
Definition kept_view (d : ShareDO) :=
  (d_flushed_seq d, d_segment d, d_checkpoint d, d_checkpoint_seq d, d_bucket d, d_stopped d, d_share_id d).
Definition grows (d d' : ShareDO) : Prop :=
  kept_view d' = kept_view d /\ d_seq d <= d_seq d' /\
  exists rows, d_log d' = d_log d ++ rows /\ (forall r, r ∈ rows -> d_seq d < row_seq r).

Lemma grows_same d d' : kept_view d' = kept_view d -> d_log d' = d_log d -> d_seq d' = d_seq d -> grows d d'.
Proof.
  intros Hv Hl Hs. split; [done|]. split; [lia|]. exists [].
  rewrite app_nil_r. split; [done|]. by intros r ?%elem_of_nil.
Qed.

Lemma append_grows now m d d0 :
  kept_view d = kept_view d0 -> d_log d = d_log d0 -> d_seq d = d_seq d0 -> grows d0 (append now m d).
Proof.
  intros Hv Hl Hq. assert (grows d0 d) as Hd by by apply grows_same.
  assert (forall s x d1, kept_view d1 = kept_view d -> d_seq d1 = d_seq d + 1 ->
    d_log d1 = d_log d ++ [mkLogRow (d_seq d + 1) s x] -> grows d0 d1) as Hst.
  { intros s x d1 H1 H2 H3. split; [congruence|]. split; [lia|].
    exists [mkLogRow (d_seq d + 1) s x]. split; [congruence|].
    intros r ->%list_elem_of_singleton. cbn. lia. }
  assert (forall d1, kept_view (schedule now d1) = kept_view d1 /\ d_seq (schedule now d1) = d_seq d1 /\
    d_log (schedule now d1) = d_log d1) as Hsch by (intros d1; unfold schedule; by destruct (d_alarm d1)).
  unfold append. destruct (_ || _); [done|]. destruct (d_truncated d && _); [by apply grows_same|].
  destruct (is_events m && _); (eapply Hst; [rewrite (proj1 (Hsch _))|rewrite (proj1 (proj2 (Hsch _)))
    |rewrite (proj2 (proj2 (Hsch _)))]); first [done|by destruct (is_gap m)|reflexivity].
Qed.

Lemma toViewerMessage_kept a raw d :
  kept_view (toViewerMessage a raw d).1 = kept_view d /\ d_log (toViewerMessage a raw d).1 = d_log d /\
  d_seq (toViewerMessage a raw d).1 = d_seq d.
Proof. unfold toViewerMessage, startMessage. by repeat case_match. Qed.

Lemma handlers_grow d :
  (forall now ws f, grows d (webSocketMessage now ws f d).1) /\
  (forall now ws code writable, grows d (producerGone now ws code writable d)) /\
  (forall sha auth ws, grows d (ingest sha auth ws d).1).
Proof.
  assert (Hid : grows d d) by by apply grows_same. split_and!.
  - intros now ws f. unfold webSocketMessage. destruct (read_attachment ws d) as [a|]; [|done].
    destruct f as [|len [raw|]]; [done| |by case_match]. destruct (_ <? _); [done|].
    destruct (toViewerMessage_kept a raw d) as (E1 & E2 & E3).
    destruct (toViewerMessage a raw d) as [d1 [m|e]]; cbn [fst] in *; [|by apply grows_same].
    apply append_grows; by destruct m.
  - intros now ws code writable. unfold producerGone.
    destruct (read_attachment ws d) as [[s|]|]; [|done..]. destruct (negb _); [done|].
    destruct (_ && _); [destruct writable; by apply grows_same|].
    apply append_grows; by destruct writable.
  - intros sha auth ws. unfold ingest. by repeat case_match.
Qed.

(** What a flush has written is not touched by rows above it. *)
Lemma log_between_grows d d' a b :
  grows d d' -> b <= d_seq d -> log_between a b (d_log d') = log_between a b (d_log d).
Proof.
  intros (_ & _ & rows & -> & Hrows) Hb. unfold log_between.
  rewrite List.filter_app, (filter_none _ rows), app_nil_r; [done|].
  intros r Hr. apply Hrows in Hr. apply andb_false_iff. right. apply Z.leb_gt. lia.
Qed.
Lemma flush_grows d d' st : grows d d' -> flush_ok d st -> flush_ok d' st.
Proof.
  intros Hg. pose proof (log_between_grows d d') as Hl. destruct Hg as (Hv & Hq & Hrows).
  unfold kept_view in Hv. injection Hv as E1 E2 E3 E4 E5 E6 E7.
  assert (Hl' : forall a b, b <= d_seq d -> log_between a b (d_log d') = log_between a b (d_log d)).
  { intros a b. apply Hl. split; [|by split]. unfold kept_view. congruence. }
  destruct st as [|v rows ap|v bodies ap|v head ap]; cbn [flush_ok]; [done|..];
    rewrite E1, E2, ?E3, ?E4, E5; intros ((Hs & Hn) & Hrest); rewrite !Hl' by lia; (split; [lia|done]).
Qed.

Lemma system_grows d d' st p :
  grows d d' -> grows (settled d st) (settled d' st) ->
  (forall cut, pub_ok cut (settled d st) -> pub_ok cut (settled d' st)) ->
  system_ok (mkSystem d st p) -> system_ok (mkSystem d' st p).
Proof.
  intros Hg Hgs Hpub (Hs & Hid & Hst & cut & Hok & Hsy). cbn [sys_do sys_flush sys_viewer] in *.
  pose proof Hg as (Hv & _). unfold kept_view in Hv. injection Hv as _ _ _ _ _ E6 E7.
  split; [cbn; congruence|]. split; [cbn; congruence|]. split; [by eapply flush_grows|].
  exists cut. split; [by apply Hpub|]. destruct Hgs as (Hv & _ & rows & Hlog & Hrows).
  unfold kept_view in Hv. injection Hv as _ E2 _ _ _ _ _. cbn.
  exact (synced_snoc cut (settled d st) (settled d' st) p rows Hok Hlog E2 Hrows Hsy).
Qed.

Lemma share_step_ok s s' : share_step s s' -> system_ok s -> system_ok s'.
Proof.
  intros Hstep Hs. destruct Hstep;
    try (destruct (handlers_grow d) as (G1 & G2 & G3); destruct (handlers_grow (settled d st)) as (S1 & S2 & S3)).
  - revert Hs. apply system_grows; [apply G1|rewrite <- settled_frame; apply S1|].
    intros cut Hok. rewrite <- settled_frame. by apply webSocketMessage_pub.
  - revert Hs. apply system_grows; [apply G2|rewrite <- settled_gone; apply S2|].
    intros cut Hok. rewrite <- settled_gone. by apply producerGone_pub.
  - revert Hs. apply system_grows; [apply G3|rewrite <- settled_ingest; apply S3|].
    intros cut Hok. rewrite <- settled_ingest. by apply ingest_pub.
  - destruct Hs as (Hs & Hid & _ & cut & Hok & Hsy). cbn [sys_do sys_flush sys_viewer settled] in *.
    destruct (flushBegin_ok cut d Hok) as [Hst Hh]. split_and!; [done..|].
    exists cut. cbn [sys_do sys_flush sys_viewer]. by rewrite settled_same.
  - destruct Hs as (Hs & Hid & Hst & cut & Hok & Hsy). cbn [sys_do sys_flush sys_viewer] in *.
    destruct (flushEffect st d) as [d' st'] eqn:E. cbn [fst snd].
    assert (Hd : exists b, d' = with_bucket b d).
    { revert E. unfold flushEffect. destruct (flushFile st) as [[f x]|]; intros [= <- <-]; [by eexists|].
      exists (d_bucket d). by destruct d. }
    destruct (head_applied st) eqn:Eh.
    { destruct st as [|? ? []|? ? []|? ? []]; try done. injection E as <- <-. split_and!; [done..|]. by exists cut. }
    rewrite settled_same in Hok, Hsy by done.
    destruct (flushEffect_ok cut d st d' st' Hok Hst Eh E) as (Hst' & cut' & Hok' & Hcut & Hseg).
    destruct Hd as [b ->]. split_and!; [done|done|done|]. exists cut'. split; [done|].
    destruct Hsy as [H1 H2 H3]. cbn [sys_do sys_flush sys_viewer]. split; [|lia|done].
    rewrite H1, Hcut by lia. unfold published. by destruct (settled_log (with_bucket b d) st') as (-> & _ & _).
  - destruct Hs as (Hs & Hid & Hst & cut & Hok & Hsy). cbn [sys_do sys_flush sys_viewer] in *.
    destruct (flushResume_ok d st d' st' e Hs Hid Hst H) as (Hst' & E & Hs' & Hid').
    split_and!; [done|cbn; congruence|done|]. exists cut. cbn [sys_do sys_flush sys_viewer]. by rewrite E.
  - destruct Hs as (Hs & Hid & Hst & cut & Hok & Hsy). cbn [sys_do sys_flush sys_viewer] in *.
    rewrite settled_same in Hok, Hsy by done. split_and!; [done..|]. by exists cut.
  - destruct Hs as (Hs & Hid & Hst & cut & Hok & Hsy). cbn [sys_do sys_flush sys_viewer] in *.
    split_and!; [done..|]. exists cut. split; [done|]. by apply run_round_synced.
  - destruct Hs as (Hs & Hid & Hst & cut & Hok & Hsy). cbn [sys_do sys_flush sys_viewer] in *.
    split_and!; [done..|]. exists cut. split; [done|]. by eapply synced_ext; [..|exact Hsy].
Qed.

(** A share that was just started, and a viewer that just opened it. *)
Definition share_started (body : json) (d : ShareDO) : Prop :=
  init body PutDone PutDone emptyDO = (d, Some 204).

(** The share as it was just started, with no flush in flight. *)
Definition started (d : ShareDO) : System := mkSystem d FlushIdle createPoller.

Lemma started_ok body d : share_started body d -> system_ok (started d).
Proof.
  unfold share_started, init.
  destruct (field body "share_id") as [[]|]; try done.
  destruct (field body "write_token_hash") as [[]|]; try done.
  destruct (_ && _ && _); [|done]. intros [= <-]. split_and!; [done|by eexists|done|].
  exists (fun _ => 0). split.
  - split; [split|..]; cbn; try done; try lia.
    all: try (intros; unfold SHARE_CHECKPOINT_SEGMENTS in *; cbn in *; lia). by exists false.
  - split; cbn; [done|lia|by right].
Qed.

Lemma share_reachable_ok body d0 s :
  share_started body d0 -> rtc share_step (started d0) s -> system_ok s.
Proof.
  intros H0 Hr. apply started_ok in H0. revert Hr.
  apply (rtc_ind_r system_ok); [done|]. intros s1 s2 _ Hs. by apply share_step_ok.
Qed.

(** * Lemmas for the properties *)

Lemma log_between_take d n :
  log_ok d -> 0 <= n -> log_between 0 n (d_log d) = take (Z.to_nat n) (d_log d).
Proof.
  intros [Hs _ _] Hn. revert Hs. generalize (d_seq d). unfold log_between.
  enough (forall log lo hi, 1 <= lo -> map row_seq log = range lo hi ->
    List.filter (fun r => (0 <? row_seq r) && (row_seq r <=? n)) log = take (Z.to_nat (n - lo + 1)) log)
    as H by (intros hi Hs; rewrite (H _ 1 hi) by (done || lia); do 2 f_equal; lia).
  induction log as [|r log IH]; intros lo hi Hlo Hs; [by rewrite take_nil|].
  cbn [map] in Hs. destruct (Z.le_gt_cases lo hi) as [Hle|Hgt];
    [|by rewrite range_empty in Hs by lia].
  unfold range in Hs. rewrite seqZ_cons in Hs by lia. injection Hs as Hr Hs.
  assert (map row_seq log = range (Z.succ lo) hi) as Hlog
    by (rewrite Hs; unfold range; f_equal; lia).
  cbn [List.filter]. rewrite (IH (Z.succ lo) hi) by (done || lia). rewrite Hr.
  destruct (Z.ltb_spec 0 lo); [|lia]. destruct (Z.leb_spec lo n) as [Hn'|Hn']; cbn [andb].
  - replace (Z.to_nat (n - lo + 1)) with (S (Z.to_nat (n - Z.succ lo + 1))) by lia. done.
  - replace (Z.to_nat (n - lo + 1)) with 0%nat by lia.
    by replace (Z.to_nat (n - Z.succ lo + 1)) with 0%nat by lia.
Qed.

(** The messages of a file of the share. *)
Definition file_lines (f : FileName) (d : ShareDO) : list (Z * DMessage) :=
  match file_get f (d_bucket d) with Some (LinesBody ms) => ms | _ => [] end.

Lemma segments_concat cut d (n : nat) a b :
  pub_ok cut d -> 0 <= a -> b <= d_segment d -> b = a + Z.of_nat n ->
  (range (a + 1) b ≫= fun i => file_lines (SegmentFile 1 i) d)
    = map row_line (log_between (cut a) (cut b) (d_log d)).
Proof.
  intros Hok. revert b. induction n as [|n IH]; intros b Ha Hb Hn.
  - assert (b = a) as -> by lia. rewrite range_empty by lia. unfold log_between.
    rewrite (filter_none _ (d_log d)); [done|]. intros r _. lia.
  - rewrite range_snoc, bind_app by lia. rewrite (IH (b - 1)) by lia. rewrite bind_singleton.
    unfold file_lines. rewrite (pk_segments _ _ Hok) by lia. unfold lines.
    fold row_line. rewrite <- map_app, log_between_split; [done|apply (pk_log _ _ Hok)|].
    split; apply (pk_mono _ _ Hok); lia.
Qed.

(** ** The size of the published output *)

Definition event_bytes (log : list LogRow) : Z :=
  foldr Z.add 0 (map (fun r =>
    if is_events (row_message r) then slen (body_text (row_message r) (row_seq r)) else 0) log).

Definition bytes_ok (d : ShareDO) : Prop :=
  0 <= d_total d /\ event_bytes (d_log d) <= RUN_SHARE_MAX_LOG_BYTES /\
  (d_truncated d = false -> event_bytes (d_log d) <= d_total d).

Definition bytes_view (d : ShareDO) := (d_log d, d_total d, d_truncated d).

Lemma bytes_ok_view d d' : bytes_view d' = bytes_view d -> bytes_ok d -> bytes_ok d'.
Proof. unfold bytes_view, bytes_ok. intros [= -> -> ->]. done. Qed.

Lemma event_bytes_snoc log r : event_bytes (log ++ [r]) = event_bytes log +
  (if is_events (row_message r) then slen (body_text (row_message r) (row_seq r)) else 0).
Proof. unfold event_bytes. induction log as [|x log IH]; cbn in *; lia. Qed.

Lemma append_bytes now m d : bytes_ok d -> bytes_ok (append now m d).
Proof.
  intros Hok. pose proof Hok as (H0 & Hcap & Htot). unfold append.
  destruct (_ || _); [done|].
  destruct (d_truncated d && is_events m) eqn:Et; [by eapply bytes_ok_view; [|exact Hok]|].
  eapply bytes_ok_view; [unfold schedule; by destruct (d_alarm _)|].
  pose proof (slen_nonneg (body_text m (d_seq d + 1))) as Hb.
  destruct (is_events m && _) eqn:E.
  - split_and!; cbn [store markIncomplete set_truncated with_log with_live_sessions d_log d_total
      d_truncated]; [lia| |done]. rewrite event_bytes_snoc. cbn. lia.
  - assert (bytes_view (if is_gap m then markIncomplete (nullish (msg_session m) "") INCOMPLETE_GAP d else d)
      = bytes_view d) as Hv by by destruct (is_gap m).
    set (d1 := if is_gap m then _ else d) in *. unfold bytes_view in Hv. injection Hv as E1 E2 E3.
    unfold bytes_ok. cbn [store with_log d_log d_total d_truncated]. rewrite event_bytes_snoc, E1, E3.
    cbn [row_message row_seq]. destruct (is_events m); [|split_and!; [lia|lia|intros Hf; specialize (Htot Hf); lia]].
    rewrite andb_true_r in Et. rewrite Et in *. specialize (Htot eq_refl). cbn [andb] in E.
    apply Z.ltb_ge in E. split_and!; [lia|lia|intros _; lia].
Qed.

Lemma toViewerMessage_bytes a raw d : bytes_view (toViewerMessage a raw d).1 = bytes_view d.
Proof. unfold toViewerMessage, startMessage. by repeat case_match. Qed.

Lemma share_step_bytes s s' : share_step s s' -> bytes_ok (sys_do s) -> bytes_ok (sys_do s').
Proof.
  intros Hstep Hok. destruct Hstep; cbn [sys_do] in *; try done.
  - unfold webSocketMessage. destruct (read_attachment ws d) as [a|]; [|done].
    destruct f as [|len [raw|]]; [done| |by case_match]. destruct (_ <? _); [done|].
    pose proof (toViewerMessage_bytes a raw d) as Hv.
    destruct (toViewerMessage a raw d) as [d1 [m|e]]; cbn [fst] in *;
      (eapply bytes_ok_view in Hok; [|exact Hv]); [|done].
    apply append_bytes. by destruct m.
  - unfold producerGone. destruct (read_attachment ws d) as [[s|]|]; [|done..].
    destruct (negb _); [done|]. destruct (_ && _); [by destruct writable|].
    apply append_bytes. by destruct writable.
  - unfold ingest. by repeat case_match.
  - eapply bytes_ok_view; [|exact Hok]. unfold flushEffect. by destruct (flushFile st) as [[f x]|].
  - eapply bytes_ok_view; [|exact Hok]. revert H. unfold flushResume, sendHead, sendPut.
    repeat case_match; intros [= <- <- <-]; done.
Qed.

(** ** A round against the files as they are *)

Lemma say_applied env x p : pl_applied (say env x p) = pl_applied p.
Proof. unfold say. by destruct (_ || _). Qed.

Lemma served_head cut d :
  pub_ok cut d -> exists head text, serve (d_bucket d) "head.json" = Answer text /\
    parseHead text = Some head /\ h_generation head = 1 /\ h_segment head = d_segment d /\
    h_checkpoint head = d_checkpoint d.
Proof.
  intros Hok. destruct (pk_head _ _ Hok) as [tr Hh].
  eexists (mkShareHead 1 (d_segment d) (d_checkpoint d) (NInt (d_flushed_seq d)) tr false), _.
  change "head.json" with (file_name HeadFile). rewrite serve_get, Hh.
  split; [reflexivity|]. split; [|done]. apply parseHead_json; cbn; [lia|apply (pk_segment _ _ Hok)|].
  rewrite (pk_checkpoint _ _ Hok). apply Z.div_pos; [apply (pk_segment _ _ Hok)|done].
Qed.

Lemma planned_answer cut d f :
  pub_ok cut d ->
  match sf_file f with
  | Segment n => 1 <= n <= d_segment d
  | Checkpoint k => 1 <= k <= d_checkpoint d /\ k * SHARE_CHECKPOINT_SEGMENTS <= d_segment d
  end ->
  exists t, serve (d_bucket d) (file_path 1 (sf_file f)) = Answer t.
Proof.
  intros Hok Hin. destruct f as [[n|k] t]; cbn [sf_file] in *.
  - change (file_path 1 (Segment n)) with (file_name (SegmentFile 1 n)).
    rewrite serve_get, (pk_segments _ _ Hok) by lia. by eexists.
  - change (file_path 1 (Checkpoint k)) with (file_name (CheckpointFile 1 k)).
    rewrite serve_get, (pk_checkpoints _ _ Hok) by lia. by eexists.
Qed.

Lemma run_round_at_head cut d p env :
  pub_ok cut d -> synced cut d p -> truthful d env -> pl_loaded p = true ->
  (forall k, env_closed env k = false) ->
  env_head env 0 = serve (d_bucket d) "head.json" ->
  (forall path, env_file env 1 path = serve (d_bucket d) path) ->
  synced cut d (run_round env p).1 /\ pl_applied (run_round env p).1 = d_segment d.
Proof.
  intros Hok Hsy Ht Hl Hc Hhead Hfile.
  destruct (served_head cut d Hok) as (head & text & Hs & Hp & Hg & Hseg & Hk).
  destruct (take_generation_synced cut d head p Hok Hg Hsy) as [[Hh0 Ha0 _] Hg0].
  destruct (shareFetchPlan_chain (pl_applied (take_generation head p)) (h_segment head)
    (h_checkpoint head)) as [_ Hin]; [lia|].
  assert (Hans : forall f, f ∈ shareFetchPlan (pl_applied (take_generation head p)) (h_segment head)
      (h_checkpoint head) -> exists t, serve (d_bucket d) (file_path (h_generation head) (sf_file f)) = Answer t).
  { intros f Hf. rewrite Hg. apply (planned_answer cut d f Hok). apply Hin in Hf.
    rewrite Hseg, Hk in Hf. exact Hf. }
  destruct (read_reaches_head env p head text Hc Hl) as (p' & Hr & Ha); [by rewrite Hhead|done|lia| |].
  { intros f Hf. rewrite Hfile. by apply Hans. }
  pose proof (read_synced cut d env p Hok Ht Hsy) as Hsy'. rewrite Hr in Hsy'.
  unfold run_round. rewrite Hr. assert (closed env p' = false) as -> by apply Hc. split; [|etransitivity; [apply say_applied|]; cbn; by rewrite Ha].
  apply say_synced. by eapply synced_ext; [..|exact Hsy'].
Qed.

(** * Properties *)

(** C21. Whatever order frames, socket closes, the awaits of a flush (its writes take
    effect later than they are sent, and any may fail before or after, but for a head
    write that takes effect and still fails), viewer rounds (with any read failing,
    finding nothing or being closed) and retries come in, the messages a viewer has
    been handed are exactly a prefix of the share's log: in order, none twice and none
    left out. A viewer reads the bucket as it is, also between the head's write and
    its record. *)
Theorem share_viewer_reads_log_prefix body d0 d st p :
  share_started body d0 -> rtc share_step (started d0) (mkSystem d st p) ->
  exists n, (n <= length (d_log d))%nat /\
    handed (pl_said p) = map (fun r => message_json (row_line r)) (take n (d_log d)).
Proof.
  intros H0 Hr. destruct (share_reachable_ok _ _ _ H0 Hr) as (_ & _ & _ & cut & Hok & Hsy).
  cbn [sys_do sys_flush sys_viewer] in *. destruct (settled_log d st) as (El & _ & _). rewrite <- El.
  destruct Hsy as [Hh Ha _]. pose proof (pk_log _ _ Hok) as Hlog.
  assert (0 <= cut (pl_applied p)).
  { rewrite <- (pk_zero _ _ Hok). apply (pk_mono _ _ Hok); lia. }
  exists (Nat.min (Z.to_nat (cut (pl_applied p))) (length (d_log (settled d st)))).
  split; [lia|]. rewrite Hh. unfold published. rewrite log_between_take by done. f_equal.
  destruct (Nat.min_spec (Z.to_nat (cut (pl_applied p))) (length (d_log (settled d st)))) as [[_ ->]|[Hge ->]];
    [done|]. by rewrite !take_ge by lia.
Qed.

(** A viewer that has the mission and reads the share's files as they are,
    undisturbed, ends the round with every message the share has flushed, at the
    head's segment, whatever happened before. *)
Theorem share_viewer_catches_up body d0 d st p env :
  share_started body d0 -> rtc share_step (started d0) (mkSystem d st p) -> pl_loaded p = true ->
  truthful (settled d st) env -> (forall k, env_closed env k = false) ->
  env_head env 0 = serve (d_bucket d) "head.json" ->
  (forall path, env_file env 1 path = serve (d_bucket d) path) ->
  handed (pl_said (run_round env p).1)
    = map (fun r => message_json (row_line r)) (take (Z.to_nat (d_flushed_seq (settled d st))) (d_log d)) /\
  pl_applied (run_round env p).1 = d_segment (settled d st).
Proof.
  intros H0 Hr Hl Ht Hc Hhead Hfile. destruct (share_reachable_ok _ _ _ H0 Hr) as (_ & _ & _ & cut & Hok & Hsy).
  cbn [sys_do sys_flush sys_viewer] in *. pose proof (pk_log _ _ Hok) as Hlog.
  destruct (settled_log d st) as (El & _ & Eb). rewrite <- Eb in Hhead, Hfile. rewrite <- El.
  destruct (run_round_at_head cut (settled d st) p env Hok Hsy Ht Hl Hc Hhead Hfile) as [Hsy' Ha].
  split; [|done]. rewrite (sy_handed _ _ _ Hsy'), Ha, (pk_last _ _ Hok). unfold published.
  destruct Hlog as [? ? ?]. by rewrite log_between_take by (done || lia).
Qed.

Lemma published_files cut d :
  pub_ok cut d ->
  (exists trunc, file_get HeadFile (d_bucket d) = Some (HeadBody
     (mkShareHead 1 (d_segment d) (d_checkpoint d) (NInt (d_flushed_seq d)) trunc false))) /\
  (range 1 (d_segment d) ≫= fun n => file_lines (SegmentFile 1 n) d)
    = map row_line (take (Z.to_nat (d_flushed_seq d)) (d_log d)) /\
  (forall k, 1 <= k <= d_checkpoint d ->
     file_lines (CheckpointFile 1 k) d
       = (file_segments (Checkpoint k) ≫= fun n => file_lines (SegmentFile 1 n) d)).
Proof.
  intros Hok. pose proof (pk_log _ _ Hok) as Hlog. pose proof (pk_segment _ _ Hok) as Hseg.
  split_and!; [apply (pk_head _ _ Hok)|..].
  - etransitivity; [apply (segments_concat cut d (Z.to_nat (d_segment d)) 0 (d_segment d)); done || lia|].
    rewrite (pk_zero _ _ Hok), (pk_last _ _ Hok). f_equal.
    apply log_between_take; [done|]. destruct Hlog as [? ? ?]. lia.
  - intros k Hk. unfold file_segments.
    assert (k * SHARE_CHECKPOINT_SEGMENTS <= d_segment d).
    { rewrite (pk_checkpoint _ _ Hok) in Hk.
      pose proof (Z.mul_div_le (d_segment d) SHARE_CHECKPOINT_SEGMENTS ltac:(done)).
      unfold SHARE_CHECKPOINT_SEGMENTS in *. lia. }
    rewrite (segments_concat cut d 60 ((k - 1) * SHARE_CHECKPOINT_SEGMENTS))
      by (done || (unfold SHARE_CHECKPOINT_SEGMENTS in *; lia)).
    unfold file_lines. rewrite (pk_checkpoints _ _ Hok) by done.
    unfold lines. by rewrite (Z.mul_comm (k - 1)), (Z.mul_comm k).
Qed.

(** C33. What is published is the flushed log, between the awaits of a flush as well:
    the head names the newest segment and sequence number, the segments one after
    another hold exactly the rows up to that number, and each checkpoint the head
    counts holds exactly what its sixty segments hold. *)
Theorem share_files_hold_the_log body d0 d st p :
  share_started body d0 -> rtc share_step (started d0) (mkSystem d st p) ->
  let s := settled d st in
  (exists trunc, file_get HeadFile (d_bucket d) = Some (HeadBody
     (mkShareHead 1 (d_segment s) (d_checkpoint s) (NInt (d_flushed_seq s)) trunc false))) /\
  (range 1 (d_segment s) ≫= fun n => file_lines (SegmentFile 1 n) d)
    = map row_line (take (Z.to_nat (d_flushed_seq s)) (d_log d)) /\
  (forall k, 1 <= k <= d_checkpoint s ->
     file_lines (CheckpointFile 1 k) d
       = (file_segments (Checkpoint k) ≫= fun n => file_lines (SegmentFile 1 n) d)).
Proof.
  intros H0 Hr s. destruct (share_reachable_ok _ _ _ H0 Hr) as (_ & _ & _ & cut & Hok & _).
  pose proof (published_files cut _ Hok) as Hfiles. by destruct st as [|? ? []|? ? []|? ? []].
Qed.

(** However much its producers send, the output a share stores and publishes
    never exceeds the log cap of 16 MiB; past it only lifecycle messages are
    stored. *)
Theorem share_output_capped body d0 d st p :
  share_started body d0 -> rtc share_step (started d0) (mkSystem d st p) ->
  event_bytes (d_log d) <= RUN_SHARE_MAX_LOG_BYTES.
Proof.
  intros H0 Hr. enough (bytes_ok (sys_do (mkSystem d st p))) as (_ & H & _) by done. revert Hr.
  apply (rtc_ind_r (fun s => bytes_ok (sys_do s))); [|intros s1 s2 _ Hs; by apply share_step_bytes].
  revert H0. unfold share_started, init.
  destruct (field body "share_id") as [[]|]; try done.
  destruct (field body "write_token_hash") as [[]|]; try done.
  destruct (_ && _ && _); [|done]. intros [= <-]. by vm_compute.
Qed.

(** A flush with nothing between its awaits is steps of the system. *)
Lemma flushPut_steps o st d d' st' e p :
  (o = PutFailed true -> match st with FlushHead _ _ _ => False | _ => True end) ->
  head_applied st = false -> flushPut o st d = (d', st', e) ->
  rtc share_step (mkSystem d st p) (mkSystem d' st' p).
Proof.
  intros Ho Hst. destruct o as [|applied]; cbn [flushPut].
  - destruct (flushEffect st d) as [d1 st1] eqn:E. intros Hr.
    pose proof (share_applied d st p) as Hs. rewrite E in Hs.
    eapply rtc_l; [exact Hs|]. apply rtc_once. by eapply share_resumes.
  - intros [= <- <- _]. destruct applied; [|by apply rtc_once, share_fails].
    eapply rtc_l; [apply share_applied|]. apply rtc_once, share_fails. unfold flushEffect.
    destruct (flushFile st) as [[f x]|]; [|done]. by destruct st.
Qed.

Lemma flushLive_steps o1 o2 o3 d p :
  o3 <> PutFailed true ->
  rtc share_step (mkSystem d FlushIdle p) (mkSystem (flushLive o1 o2 o3 d).1 FlushIdle p).
Proof.
  intros Ho3. unfold flushLive. eapply rtc_l; [apply share_flush|].
  assert (Hb : match (flushBegin d).1 with FlushIdle => True | FlushSegment _ _ false => True | _ => False end).
  { unfold flushBegin, sendPut. by repeat case_match. }
  destruct (flushBegin d) as [[|v rows []|v bodies ap|v head ap] e]; cbn [fst] in *; try done; try by apply rtc_refl.
  destruct (flushPut o1 _ d) as [[d1 st1] e1] eqn:E1.
  etransitivity; [by eapply flushPut_steps; [|..|exact E1]|].
  assert (H1 : match st1 with FlushIdle | FlushCheckpoint _ _ false | FlushHead _ _ false => True | _ => False end).
  { revert E1. destruct o1; cbn [flushPut flushEffect flushFile flushApplied flushResume]; [|by intros; simplify_eq].
    unfold sendHead, sendPut. repeat case_match; by intros; simplify_eq. }
  destruct st1 as [|v1 rows1 ap1|v1 bodies1 []|v1 head1 []]; try done; cbn [fst]; try by apply rtc_refl.
  - destruct (flushPut o2 _ d1) as [[d2 st2] e2] eqn:E2.
    etransitivity; [by eapply flushPut_steps; [|..|exact E2]|].
    assert (H2 : match st2 with FlushIdle | FlushHead _ _ false => True | _ => False end).
    { revert E2. destruct o2; cbn [flushPut flushEffect flushFile flushApplied flushResume]; [|by intros; simplify_eq].
      unfold sendHead, sendPut. repeat case_match; by intros; simplify_eq. }
    destruct st2 as [|v2 rows2 ap2|v2 bodies2 ap2|v2 head2 []]; try done; cbn [fst]; try by apply rtc_refl.
    destruct (flushPut o3 _ d2) as [[d3 st3] e3] eqn:E3.
    assert (st3 = FlushIdle) as ->.
    { revert E3. destruct o3; cbn [flushPut flushEffect flushFile flushApplied flushResume]; [|by intros; simplify_eq].
      repeat case_match; by intros; simplify_eq. }
    cbn [fst]. by eapply flushPut_steps; [|..|exact E3].
  - destruct (flushPut o3 _ d1) as [[d3 st3] e3] eqn:E3.
    assert (st3 = FlushIdle) as ->.
    { revert E3. destruct o3; cbn [flushPut flushEffect flushFile flushApplied flushResume]; [|by intros; simplify_eq].
      repeat case_match; by intros; simplify_eq. }
    cbn [fst]. by eapply flushPut_steps; [|..|exact E3].
Qed.

(** ** Witnesses *)

Definition w_init : json :=
  JObj [("share_id", JStr "abcdefghijklmnopqrstuv"); ("mission", JObj [("title", JStr "Lab")]);
        ("write_token_hash",
         JStr "0123456789abcdef0123456789abcdef0123456789abcdef0123456789abcdef")].

Definition w_d0 : ShareDO := (init w_init PutDone PutDone emptyDO).1.

Lemma w_started : share_started w_init w_d0.
Proof. vm_compute. reflexivity. Qed.

Definition w_start_frame : json :=
  JObj [("type", JStr "start"); ("session", JStr "s1"); ("vm_id", JStr "vm-a");
        ("mode", JStr "browser"); ("cols", JNum (NInt 80)); ("rows", JNum (NInt 24));
        ("at_ms", JNum (NInt 5)); ("mid_session", JBool false)].
Definition w_output_frame (t : string) : json :=
  JObj [("type", JStr "events"); ("events", JArr [JArr [JNum (NInt 1); JStr "o"; JStr t]])].

Definition w_sha (t : string) : string :=
  "0123456789abcdef0123456789abcdef0123456789abcdef0123456789abcdef".

(** A socket opens and a session starts; while its row is flushed, output arrives
    between the awaits; and a viewer reads the new head before the flush records it. *)
Definition w_d1 : ShareDO := (ingest w_sha (Some "Bearer token") 7 w_d0).1.
Definition w_d2 : ShareDO := (webSocketMessage 0 7 (TextFrame 90 (Some w_start_frame)) w_d1).1.
Definition w_segment : ShareDO * Flush := flushEffect (flushBegin w_d2).1 w_d2.
Definition w_d4 : ShareDO := (webSocketMessage 9 7 (TextFrame 50 (Some (w_output_frame "ls"))) w_segment.1).1.
Definition w_head : ShareDO * Flush * option PutError := flushResume w_segment.2 w_d4.
Definition w_d5 : ShareDO := (flushEffect w_head.1.2 w_head.1.1).1.
Definition w_flush : Flush := (flushEffect w_head.1.2 w_head.1.1).2.

Definition w_serve (d : ShareDO) : Env :=
  mkEnv (fun _ => serve (d_bucket d) "head.json") (serve (d_bucket d) "mission.json")
    (fun _ => serve (d_bucket d)) (fun _ => false) 0.

Definition w_p : Poller := (run_round (w_serve w_d5) createPoller).1.

Lemma w_truthful : truthful (settled w_d5 w_flush) (w_serve w_d5).
Proof.
  split; [|done]. intros n text h H1 H2. vm_compute in H1. injection H1 as <-.
  vm_compute in H2. injection H2 as <-. vm_compute. repeat split; discriminate.
Qed.

Lemma w_reachable : rtc share_step (started w_d0) (mkSystem w_d5 w_flush w_p).
Proof.
  eapply rtc_l; [exact (share_ingest w_sha (Some "Bearer token") 7 w_d0 _ _)|].
  eapply rtc_l; [exact (share_frame 0 7 (TextFrame 90 (Some w_start_frame)) w_d1 _ _)|].
  eapply rtc_l; [exact (share_flush w_d2 _)|].
  eapply rtc_l; [exact (share_applied w_d2 _ _)|].
  eapply rtc_l; [exact (share_frame 9 7 (TextFrame 50 (Some (w_output_frame "ls"))) w_segment.1 _ _)|].
  eapply rtc_l; [eapply (share_resumes w_d4 w_segment.2); vm_compute; reflexivity|].
  eapply rtc_l; [exact (share_applied w_head.1.1 w_head.1.2 createPoller)|].
  exact (rtc_once _ _ (share_round (w_serve w_d5) w_d5 w_flush createPoller w_truthful)).
Qed.

Lemma share_viewer_reads_log_prefix_witness :
  (exists n, (n <= length (d_log w_d5))%nat /\
    handed (pl_said w_p) = map (fun r => message_json (row_line r)) (take n (d_log w_d5))) /\
  length (handed (pl_said w_p)) = 1%nat /\ length (d_log w_d5) = 2%nat.
Proof.
  split; [exact (share_viewer_reads_log_prefix w_init w_d0 w_d5 w_flush w_p w_started w_reachable)|].
  split; vm_compute; reflexivity.
Defined.

Lemma share_viewer_catches_up_witness :
  handed (pl_said (run_round (w_serve w_d5) w_p).1)
    = map (fun r => message_json (row_line r)) (take 1 (d_log w_d5)) /\
  pl_applied (run_round (w_serve w_d5) w_p).1 = 1.
Proof.
  exact (share_viewer_catches_up w_init w_d0 w_d5 w_flush w_p (w_serve w_d5) w_started w_reachable
    eq_refl w_truthful (fun _ => eq_refl) eq_refl (fun _ => eq_refl)).
Defined.

Lemma share_files_hold_the_log_witness :
  (range 1 1 ≫= fun n => file_lines (SegmentFile 1 n) w_d5) = map row_line (take 1 (d_log w_d5)).
Proof. exact (proj1 (proj2 (share_files_hold_the_log w_init w_d0 w_d5 w_flush w_p w_started w_reachable))). Defined.

Lemma share_output_capped_witness : event_bytes (d_log w_d5) <= RUN_SHARE_MAX_LOG_BYTES.
Proof. exact (share_output_capped w_init w_d0 w_d5 w_flush w_p w_started w_reachable). Defined.

(** A head write that takes effect and is still reported as failed: the next
    flush reuses its segment's number for more rows, and a viewer that read the
    segment before never gets them although it is at the head. *)
Definition w_lost1 : ShareDO := (flushLive PutDone PutDone (PutFailed true) w_d4).1.
Definition w_lost_viewer : Poller := (run_round (w_serve w_lost1) createPoller).1.
Definition w_lost2 : ShareDO :=
  (webSocketMessage 19 7 (TextFrame 50 (Some (w_output_frame "pwd"))) w_lost1).1.
Definition w_lost3 : ShareDO := (flushLive PutDone PutDone PutDone w_lost2).1.

Example share_lost_head_write_loses_rows :
  let p := (run_round (w_serve w_lost3) w_lost_viewer).1 in
  pl_applied p = d_segment w_lost3 /\ pl_status p = Some LsLive /\
  length (handed (pl_said p)) = 2%nat /\ d_flushed_seq w_lost3 = 3.
Proof. vm_compute. repeat split. Qed.
