(* ===== verification/ShareStop.v ===== *)
(** Stopping a share while it is being written (run-share-do.ts: [putFile],
    [alarm], [init] and [wipe] step by step). A write to the public bucket is not
    atomic: it is sent, takes effect later, and only then does [putFile] look at
    the stop mark again; the write and the deletion that may follow it can throw,
    each before or after it took effect (a write that threw has taken effect by then or
    never does). The alarm's publish is one writer, which
    [wipe] waits out; requests to [/init] write beside it, which [wipe] does not. *)
From stdpp Require Import base list strings relations.
From Stdlib Require Import ZArith Lia.
From S2P Require Import Prelude Json ShareLog.

Open Scope string_scope.
Open Scope list_scope.

(** A call of [putFile]: the write is sent; it took effect and the stop mark is
    yet to be read again; it has to be deleted again. *)
Inductive PutState := Sent (f : FileName) | Applied (f : FileName) | Deleting (f : FileName).

(** The stages of [wipe]: waiting for the publish in flight, listing the files,
    deleting those listed, and over. *)
Inductive WipeStage := NotStopping | Waiting | Listing | Erasing (keys : list FileName) | Wiped.

Record Stop := mkStop {
  st_share_id : bool;            (* the object has a share id *)
  st_stopped : bool;
  st_work : option PutState;     (* the alarm's publish: its write in flight *)
  st_working : bool;             (* whether the publish is in flight *)
  st_inits : list PutState;      (* writes of [/init] requests in flight *)
  st_wipe : WipeStage;
  st_files : list FileName;      (* the share's files in the public bucket *)
  st_lost : list FileName;       (* files of [/init] calls that threw once their write took effect *)
}.

Definition freshStop : Stop := mkStop false false None false [] NotStopping [] [].

Definition put_file (f : FileName) (fs : list FileName) : list FileName :=
  if bool_decide (f ∈ fs) then fs else fs ++ [f].
Definition delete_files (keys fs : list FileName) : list FileName :=
  filter (fun f => f ∉ keys) fs.

(** [if (!shareId || this.meta("stopped") !== null) throw new ShareStopped()]. *)
Definition may_put (s : Stop) : bool := st_share_id s && negb (st_stopped s).

(** After the write: carry on, or delete the file again. *)
Definition after_put (s : Stop) (f : FileName) : option PutState :=
  if st_stopped s || negb (st_share_id s) then Some (Deleting f) else None.

Definition set_files (fs : list FileName) (s : Stop) : Stop :=
  mkStop (st_share_id s) (st_stopped s) (st_work s) (st_working s) (st_inits s) (st_wipe s) fs (st_lost s).
Definition set_work (w : option PutState) (working : bool) (s : Stop) : Stop :=
  mkStop (st_share_id s) (st_stopped s) w working (st_inits s) (st_wipe s) (st_files s) (st_lost s).
Definition set_inits (l : list PutState) (s : Stop) : Stop :=
  mkStop (st_share_id s) (st_stopped s) (st_work s) (st_working s) l (st_wipe s) (st_files s) (st_lost s).
Definition set_wipe (w : WipeStage) (s : Stop) : Stop :=
  mkStop (st_share_id s) (st_stopped s) (st_work s) (st_working s) (st_inits s) w (st_files s) (st_lost s).
Definition lose (l : list FileName) (s : Stop) : Stop :=
  mkStop (st_share_id s) (st_stopped s) (st_work s) (st_working s) (st_inits s) (st_wipe s) (st_files s) (l ++ st_lost s).

(** The write took effect, and its file is to be looked at again. *)
Definition put_effective (w : PutState) : bool :=
  match w with Sent _ => false | _ => true end.
Definition put_name (w : PutState) : FileName :=
  match w with Sent f | Applied f | Deleting f => f end.

(** Progress of one write: it takes effect, the mark is read again, the file is
    deleted again. *)
Inductive put_step : Stop -> PutState -> Stop -> option PutState -> Prop :=
| put_applied s f : put_step s (Sent f) (set_files (put_file f (st_files s)) s) (Some (Applied f))
| put_checked s f : put_step s (Applied f) s (after_put s f)
| put_deleted s f : put_step s (Deleting f) (set_files (delete_files [f] (st_files s)) s) None.
(** The file an exception leaves behind: the write threw before it took effect, the
    write threw after, or the deletion threw. *)
Definition left_behind (w : PutState) : list FileName := if put_effective w then [put_name w] else [].

Inductive stop_step : Stop -> Stop -> Prop :=
(* a request to [/init] stores the share id unless the share was stopped *)
| init_begins s :
    st_stopped s = false ->
    stop_step s (mkStop true (st_stopped s) (st_work s) (st_working s) (st_inits s) (st_wipe s) (st_files s) (st_lost s))
| init_writes s f : may_put s = true -> stop_step s (set_inits (st_inits s ++ [Sent f]) s)
| init_progress s s1 l1 w l2 w' :
    st_inits s = l1 ++ w :: l2 -> put_step s w s1 w' ->
    stop_step s (set_inits (l1 ++ option_list w' ++ l2) s1)
(* a call of [/init] throws, and nobody looks at its file again *)
| init_throws s l1 w l2 :
    st_inits s = l1 ++ w :: l2 -> stop_step s (set_inits (l1 ++ l2) (lose (left_behind w) s))
(* the alarm starts a publish, which writes one file after another *)
| work_begins s : st_working s = false -> may_put s = true -> stop_step s (set_work None true s)
| work_writes s f :
    st_working s = true -> st_work s = None -> may_put s = true ->
    stop_step s (set_work (Some (Sent f)) true s)
| work_progress s s1 w w' :
    st_work s = Some w -> put_step s w s1 w' -> stop_step s (set_work w' (st_working s) s1)
| work_fails s w : st_work s = Some w -> stop_step s (set_work None false s)
| work_ends s : st_work s = None -> stop_step s (set_work None false s)
(* [wipe]: the mark comes first *)
| wipe_fence s :
    st_wipe s = NotStopping ->
    stop_step s (mkStop (st_share_id s) true (st_work s) (st_working s) (st_inits s) Waiting (st_files s) (st_lost s))
| wipe_waits s : st_wipe s = Waiting -> st_working s = false -> stop_step s (set_wipe Listing s)
| wipe_lists s : st_wipe s = Listing -> stop_step s (set_wipe (Erasing (st_files s)) s)
| wipe_erases s keys :
    st_wipe s = Erasing keys ->
    stop_step s (mkStop false true (st_work s) (st_working s) (st_inits s) Wiped
                   (delete_files keys (st_files s)) (st_lost s))
(* a failed list or delete throws, once some of the files are gone, and the stop is tried again *)
| wipe_fails s gone :
    st_wipe s <> Wiped -> (forall f, f ∈ gone -> exists keys, st_wipe s = Erasing keys /\ f ∈ keys) ->
    stop_step s (set_wipe NotStopping (set_files (delete_files gone (st_files s)) s)).

(** * The invariant *)

(** Files some request still has to look at. *)
Definition watched (s : Stop) : list FileName := put_name <$> filter put_effective (st_inits s).

Record stop_ok (s : Stop) : Prop := {
  so_stopped : st_wipe s <> NotStopping -> st_stopped s = true;
  so_work : st_working s = false -> st_work s = None;
  so_quiet : match st_wipe s with NotStopping | Waiting => True | _ => st_working s = false end;
  so_left : match st_wipe s with
            | Erasing keys => forall f, f ∈ st_files s -> f ∈ keys \/ f ∈ watched s \/ f ∈ st_lost s
            | Wiped => forall f, f ∈ st_files s -> f ∈ watched s \/ f ∈ st_lost s
            | _ => True
            end;
}.

Lemma elem_of_put_file f g fs : g ∈ put_file f fs <-> g = f \/ g ∈ fs.
Proof.
  unfold put_file. case_bool_decide.
  - split; [by right|]. by intros [->|?].
  - rewrite elem_of_app, list_elem_of_singleton. tauto.
Qed.

Lemma elem_of_delete_files keys fs f : f ∈ delete_files keys fs <-> f ∈ fs /\ f ∉ keys.
Proof. unfold delete_files. rewrite list_elem_of_filter. tauto. Qed.

Lemma watched_mid s l1 w l2 f :
  st_inits s = l1 ++ w :: l2 ->
  f ∈ watched s <-> f ∈ put_name <$> filter put_effective (l1 ++ l2)
                    \/ put_effective w = true /\ f = put_name w.
Proof.
  intros H. unfold watched. rewrite H, !filter_app, !fmap_app, !elem_of_app, filter_cons.
  case_decide as E.
  - rewrite fmap_cons, elem_of_cons. destruct w; cbn in *; naive_solver.
  - destruct w; cbn in *; naive_solver.
Qed.

Lemma put_step_fields s w s1 w' :
  put_step s w s1 w' ->
  st_stopped s1 = st_stopped s /\ st_wipe s1 = st_wipe s /\ st_work s1 = st_work s /\
  st_working s1 = st_working s /\ st_inits s1 = st_inits s /\ st_lost s1 = st_lost s.
Proof. by destruct 1. Qed.

(** A write that moves on leaves no file that nobody looks at again. *)
Lemma init_progress_left s s1 l1 w l2 w' :
  st_stopped s = true -> st_inits s = l1 ++ w :: l2 -> put_step s w s1 w' ->
  forall f, f ∈ st_files s1 ->
    (f ∈ st_files s /\ (f ∈ watched s -> f ∈ watched (set_inits (l1 ++ option_list w' ++ l2) s1))) \/
    f ∈ watched (set_inits (l1 ++ option_list w' ++ l2) s1).
Proof.
  intros Hst Hin Hstep f Hf.
  assert (Hrest : forall x, put_effective x = true -> w' = Some x ->
    f ∈ watched (set_inits (l1 ++ option_list w' ++ l2) s1) <->
    f ∈ put_name <$> filter put_effective (l1 ++ l2) \/ f = put_name x).
  { intros x Hx ->. rewrite (watched_mid _ l1 x l2) by done. naive_solver. }
  pose proof (watched_mid s l1 w l2 f Hin) as Hw.
  destruct Hstep as [s f0|s f0|s f0]; cbn [st_files set_files] in Hf.
  - rewrite (Hrest (Applied f0)) by done. apply elem_of_put_file in Hf as [->|Hf]; [by right; right|].
    left. split; [done|]. rewrite Hw. cbn. naive_solver.
  - rewrite (Hrest (Deleting f0)); [|done|unfold after_put; by rewrite Hst].
    left. split; [done|]. rewrite Hw. cbn. naive_solver.
  - apply elem_of_delete_files in Hf as [Hf Hne]. left. split; [done|]. rewrite Hw.
    intros [Hr|[_ ->]]; [exact Hr|]. destruct Hne. by left.
Qed.

(** A call that throws leaves its file to nobody, or has none. *)
Lemma init_throws_left s l1 w l2 f :
  st_inits s = l1 ++ w :: l2 -> f ∈ watched s \/ f ∈ st_lost s ->
  f ∈ watched (set_inits (l1 ++ l2) (lose (left_behind w) s)) \/ f ∈ left_behind w ++ st_lost s.
Proof.
  intros Hin. rewrite (watched_mid s l1 w l2 f Hin), elem_of_app. unfold left_behind.
  intros [[Hf|[-> ->]]|Hf]; [by left|right; left; by left|by right; right].
Qed.

Lemma stop_step_ok s s' : stop_step s s' -> stop_ok s -> stop_ok s'.
Proof.
  intros Hstep [H1 H2 H3 H4]. destruct Hstep as
    [s Hns|s f Hm|s s1 l1 w l2 w' Hin Hp|s l1 w l2 Hin|s Hw Hm|s f Hw Hn Hm|s s1 w w' Hw Hp
    |s w Hw|s Hw|s Hs|s Hs Hw|s Hs|s keys Hs|s gone Hs Hgone].
  - split; cbn; done.
  - unfold may_put in Hm. apply andb_true_iff in Hm as [_ Hm]. apply negb_true_iff in Hm.
    split; cbn; try done. destruct (st_wipe s); try done; by rewrite H1 in Hm.
  - destruct (put_step_fields _ _ _ _ Hp) as (E1 & E2 & E3 & E4 & E5 & E6).
    split; cbn [st_stopped st_wipe st_work st_working set_inits]; rewrite ?E1, ?E2, ?E3, ?E4; try done.
    destruct (st_wipe s) eqn:Ew; try done; cbn [st_files st_lost set_inits]; rewrite E6; intros f Hf;
      destruct (init_progress_left s s1 l1 w l2 w' (H1 ltac:(done)) Hin Hp f Hf) as [[Hs Hwt]|Hwt];
      try apply H4 in Hs; naive_solver.
  - split; cbn; try done. destruct (st_wipe s); try done; cbn [st_lost lose set_inits]; intros f Hf.
    + destruct (H4 f Hf) as [?|Hr]; [by left|]. right. by apply init_throws_left.
    + by apply init_throws_left, H4.
  - unfold may_put in Hm. apply andb_true_iff in Hm as [_ Hm]. apply negb_true_iff in Hm.
    split; cbn; try done. destruct (st_wipe s); try done; by rewrite H1 in Hm.
  - unfold may_put in Hm. apply andb_true_iff in Hm as [_ Hm]. apply negb_true_iff in Hm.
    split; cbn; try done. destruct (st_wipe s); try done; by rewrite H1 in Hm.
  - destruct (put_step_fields _ _ _ _ Hp) as (E1 & E2 & E3 & E4 & E5 & E6).
    assert (st_working s = true) as Hwk by (destruct (st_working s) eqn:E; [done|]; by rewrite H2 in Hw).
    split; cbn; rewrite ?E1, ?E2; try done; destruct (st_wipe s); congruence.
  - split; cbn; try done. by destruct (st_wipe s).
  - split; cbn; try done. by destruct (st_wipe s).
  - split; cbn; done.
  - split; cbn; try done. intros _. apply H1. by rewrite Hs.
  - split; cbn; try done; [intros _; apply H1; by rewrite Hs|by rewrite Hs in H3|by left].
  - rewrite Hs in H3, H4. split; cbn; try done. intros f [Hf Hk]%elem_of_delete_files.
    by apply H4 in Hf as [?|?].
  - split; cbn; done.
Qed.

Lemma stop_reachable_ok s : rtc stop_step freshStop s -> stop_ok s.
Proof.
  apply (rtc_ind_r stop_ok); [by split|]. intros s1 s2 _ Hs. by apply stop_step_ok.
Qed.

(** * Properties *)

(** C32. Once a stop has finished, every file of the share that is still in the public
    bucket is one that an [/init] request on its way will look at again and delete, or
    one that an [/init] call left when it threw: a write that took effect and was
    reported failed, or a deletion that failed. So once those requests are through
    without such an exception none of the share's files is left, whatever the order in
    which writes took effect and whatever the alarm's own writes and the attempts of
    the stop itself threw. *)
Theorem stop_leaves_nothing_public s :
  rtc stop_step freshStop s -> st_wipe s = Wiped ->
  (forall f, f ∈ st_files s -> f ∈ watched s \/ f ∈ st_lost s) /\
  (st_inits s = [] -> st_lost s = [] -> st_files s = []).
Proof.
  intros Hr Hw. apply stop_reachable_ok in Hr as [_ _ _ Hleft]. rewrite Hw in Hleft.
  split; [done|]. intros Hin Hl. destruct (st_files s) as [|f fs] eqn:E; [done|].
  exfalso. destruct (Hleft f ltac:(by left)) as [Hf|Hf]; [|by rewrite Hl in Hf; apply elem_of_nil in Hf].
  unfold watched in Hf. rewrite Hin in Hf. by apply elem_of_nil in Hf.
Qed.

(** Once a stop has finished and no write is on its way, the files are what they are
    for good: nothing deletes one that was left. *)
Definition over (s : Stop) : Prop :=
  st_wipe s = Wiped /\ st_stopped s = true /\ st_inits s = [] /\ st_work s = None.

Lemma over_stays s s' : stop_step s s' -> over s -> over s' /\ st_files s' = st_files s.
Proof.
  intros Hstep (Hw & Hs & Hi & Hn). destruct Hstep; cbn; unfold may_put in *; try congruence;
    try (rewrite Hs in *; by rewrite ?andb_false_r in * ); try (by split_and!);
    rewrite Hi in *; by destruct l1.
Qed.

(** A file that stays public for good: the write of an [/init] request takes effect
    after the stop listed the files, and its call throws. *)
Theorem lost_init_write_stays_public :
  exists s, rtc stop_step freshStop s /\ over s /\
    forall s', rtc stop_step s s' -> st_files s' = [MissionFile].
Proof.
  exists (mkStop false true None false [] Wiped [MissionFile] [MissionFile]). split; [|split; [by split_and!|]].
  - eapply rtc_l; [by apply init_begins|]. eapply rtc_l; [by apply (init_writes _ MissionFile)|].
    eapply rtc_l; [by apply wipe_fence|]. eapply rtc_l; [by apply wipe_waits|].
    eapply rtc_l; [by apply wipe_lists|]. eapply rtc_l; [by eapply wipe_erases|].
    eapply rtc_l; [eapply (init_progress _ _ [] (Sent MissionFile) []); [done|constructor]|].
    apply rtc_once. exact (init_throws (mkStop false true None false [Applied MissionFile] Wiped [MissionFile] [])
      [] (Applied MissionFile) [] eq_refl).
  - intros s' Hr. enough (over s' /\ st_files s' = [MissionFile]) by tauto. revert s' Hr.
    apply (rtc_ind_r (fun s' => over s' /\ st_files s' = [MissionFile])); [by split_and!|].
    intros s1 s2 _ Hs [Ho Hf]. destruct (over_stays _ _ Hs Ho) as [? ->]. by split.
Qed.

(** ** Witness *)

(** A stop comes while an [/init] write is on its way: it takes effect after the
    files were listed and erased, and is deleted again. *)
Definition w_s4 : Stop := mkStop false true None false [Deleting MissionFile] Wiped [MissionFile] [].
Definition w_s5 : Stop := mkStop false true None false [] Wiped [] [].

Lemma w_stop_reachable : rtc stop_step freshStop w_s5.
Proof.
  eapply rtc_l; [by apply init_begins|]. eapply rtc_l; [by apply (init_writes _ MissionFile)|].
  eapply rtc_l; [by apply wipe_fence|]. eapply rtc_l; [by apply wipe_waits|].
  eapply rtc_l; [by apply wipe_lists|]. eapply rtc_l; [by eapply wipe_erases|].
  eapply rtc_l; [eapply (init_progress _ _ [] (Sent MissionFile) []); [done|constructor]|].
  eapply rtc_l; [eapply (init_progress _ _ [] (Applied MissionFile) []); [done|constructor]|].
  apply rtc_once. exact (init_progress w_s4 _ [] (Deleting MissionFile) [] _ eq_refl (put_deleted _ _)).
Qed.

Lemma stop_leaves_nothing_public_witness : st_wipe w_s5 = Wiped /\ st_files w_s5 = [].
Proof.
  split; [reflexivity|].
  exact (proj2 (stop_leaves_nothing_public w_s5 w_stop_reachable eq_refl) eq_refl eq_refl).
Defined.
