(* ===== verification/ShareRecording.v ===== *)
(** Rebuilding a share from the archived recordings (run-share-do.ts: the
    [/recording] and [/vm-complete] requests, [castMessages],
    [sharedMatchesRecording], [verifiedRecording], [publishRecording] and
    [alarm]).

    An archived cast is its header line and its event lines as [JSON.parse] reads
    them; the intervals of a cast are doubles, with the arithmetic of binary64 of
    the Standard Library's [SpecFloat]. *)
From stdpp Require Import base list strings pretty.
From Stdlib Require Import ZArith Lia SpecFloat.
From S2P Require Import Prelude Json Text ShareModel ShareFiles ShareLog.

Open Scope string_scope.
Open Scope list_scope.
Open Scope Z_scope.

Definition RUN_SHARE_SEGMENT_BYTES : Z := 256 * 1024.
Definition RUN_SHARE_MAX_CAST_BYTES : Z := 8 * 1024 * 1024.
Definition RUN_SHARE_MAX_RECORDING_BYTES : Z := 32 * 1024 * 1024.
Definition RECORDING_LATE_MS : Z := 30000.
Definition RECORDING_EARLY_MS : Z := 5000.
Definition MIN_VERIFIED_OUTPUT : nat := 64.
Definition MAX_VERIFIED_OUTPUT : nat := 16 * 1024.

(** * Doubles *)

Definition f64_add : spec_float -> spec_float -> spec_float := SFadd 53 1024.
Definition f64_mul : spec_float -> spec_float -> spec_float := SFmul 53 1024.
Definition f64_of_Z (z : Z) : spec_float := binary_normalize 53 1024 z 0 false.
Definition f64_negative (x : spec_float) : bool :=
  match x with
  | S754_finite true _ _ => true
  | S754_infinity true => true
  | _ => false
  end.

(** [Math.round]: the nearest integer, halves up; [None] when there is none. *)
Definition f64_round (x : spec_float) : option Z :=
  match x with
  | S754_zero _ => Some 0
  | S754_finite s m e =>
      let n := if s then Z.neg m else Z.pos m in
      Some (if 0 <=? e then n * 2 ^ e else (2 * n + 2 ^ (- e)) / (2 * 2 ^ (- e)))
  | _ => None
  end.

(** * A cast's messages *)

(** A line after the header: not JSON, JSON that is not an array of three, or the
    three with what is a number and what are strings. *)
Inductive CastRow :=
| RowNotJson
| RowOther
| Row (interval : option spec_float) (code data : option string).

Record CastText := mkCastText { ct_header : option json; ct_rows : list CastRow }.

(** The batch being filled and the messages before it. *)
Record CastState := mkCastState {
  cs_at : spec_float;
  cs_batch : list DEvent;
  cs_bytes : Z;
  cs_messages : list DMessage;
}.

Definition cast_flush (session : string) (s : CastState) : CastState :=
  match cs_batch s with
  | [] => s
  | batch => mkCastState (cs_at s) [] 0 (cs_messages s ++ [DEvents session batch])
  end.

Definition cast_event (at_ : spec_float) (code data : string) : option DEvent :=
  if (code =s "o") || (code =s "r") then
    normalizeEvent (JArr [JNum (match f64_round at_ with Some z => NInt z | None => NInf false end);
                          JStr code; JStr data])
  else None.

(** One event line; [None] refuses the cast. *)
Definition cast_row (session : string) (s : CastState) (r : CastRow) : option CastState :=
  match r with
  | Row (Some interval) code (Some data) =>
      if f64_negative interval then None
      else
        let at_ := f64_add (cs_at s) (f64_mul interval (f64_of_Z 1000)) in
        match cast_event at_ (nullish code "") data with
        | None => Some (mkCastState at_ (cs_batch s) (cs_bytes s) (cs_messages s))
        | Some e =>
            let s1 := mkCastState at_ (cs_batch s ++ [e]) (cs_bytes s + slen data + 32)
                        (cs_messages s) in
            Some (if 32 * 1024 <=? cs_bytes s1 then cast_flush session s1 else s1)
        end
  | _ => None
  end.

Fixpoint cast_rows (session : string) (s : CastState) (rows : list CastRow) : option CastState :=
  match rows with
  | [] => Some s
  | r :: rest => s1 ← cast_row session s r; cast_rows session s1 rest
  end.

(** [version: 3] and the grid of the header. *)
Definition cast_grid (header : option json) : option (Z * Z) :=
  match header with
  | Some h =>
      match field h "version", field h "term" with
      | Some (JNum (NInt 3)), Some term =>
          match term with
          | JObj _ =>
              match isCount (field term "cols"), isCount (field term "rows") with
              | Some c, Some r => Some (c, r)
              | _, _ => None
              end
          | _ => None
          end
      | _, _ => None
      end
  | None => None
  end.

Definition castMessages (text : CastText) (session : LiveSession) : option (list DMessage) :=
  '(c, r) ← cast_grid (ct_header text);
  let id := ls_id session in
  s ← cast_rows id (mkCastState (S754_zero false) [] 0 []) (ct_rows text);
  Some (DStart id (ls_vm_id session) (ls_mode session) (clamp c MAX_COLS) (clamp r MAX_ROWS)
          (ls_at_ms session) false false
        :: cs_messages (cast_flush id s) ++ [DEnd id]).

(** * Is this recording what was shared? *)

(** The model's strings have no U+FFFD for [comparableOutput] to drop. *)
Definition comparableOutput (output : string) : string := output.

Definition str_take (n : nat) (s : string) : string := String.substring 0 n s.
Definition str_drop (n : nat) (s : string) : string := String.substring n (String.length s - n) s.

(** [s.indexOf(p)]. *)
Fixpoint indexOf (p s : string) : option nat :=
  if str_prefix p s then Some O
  else match s with
       | EmptyString => None
       | String _ s' => S <$> indexOf p s'
       end.

Definition sharedMatchesRecording (shared recording : string) : bool :=
  let opening := str_take MIN_VERIFIED_OUTPUT recording in
  if (String.length opening <? MIN_VERIFIED_OUTPUT)%nat then false
  else
    match indexOf opening shared with
    | None => false
    | Some at_ =>
        let overlap := str_drop at_ shared in
        (MIN_VERIFIED_OUTPUT <=? String.length overlap)%nat && str_prefix overlap recording
    end.

(** The recording's output, at least [length] long if it has it. *)
Definition recordedOutput (messages : list DMessage) (length : nat) : string :=
  let fix events output es :=
    match es with
    | [] => (output, false)
    | e :: rest =>
        if negb (de_code e =s "o") then events output rest
        else
          let output := output +:+ comparableOutput (de_data e) in
          if (length <=? String.length output)%nat then (output, true) else events output rest
    end in
  let fix go output ms :=
    match ms with
    | [] => output
    | DEvents _ es :: rest =>
        let '(output, full) := events output es in
        if full : bool then output else go output rest
    | _ :: rest => go output rest
    end in
  go "" messages.

Definition session_rows (id : string) (d : ShareDO) : list DMessage :=
  map row_message (List.filter (fun r => bool_decide (row_session r = Some id)) (d_log d)).

Definition output_of (es : list DEvent) : string :=
  foldr (fun e acc => (if de_code e =s "o" then de_data e else "") +:+ acc) "" es.

(** The session's shared output up to its first gap, bounded. *)
Definition sharedOutputBeforeHole (id : string) (d : ShareDO) : string :=
  let fix go output ms :=
    match ms with
    | [] => output
    | DGap _ _ :: _ => output
    | DEvents _ es :: rest =>
        let output := output +:+ output_of es in
        if (MAX_VERIFIED_OUTPUT <=? String.length output)%nat then output else go output rest
    | _ :: rest => go output rest
    end in
  str_take MAX_VERIFIED_OUTPUT (go "" (session_rows id d)).

Record Verified := mkVerified { v_key : string; v_size : Z; v_messages : list DMessage }.

(** The archive's objects: size and text of a cast. *)
Abbreviation Archive := (string -> option (Z * CastText)).

Definition nearby (session : LiveSession) (used : list string) (c : ShareRecordingInput) : bool :=
  negb (str_mem (ri_cast_key c) used)
  && (ls_at_ms session - RECORDING_EARLY_MS <=? ri_start_ms c)
  && (ri_start_ms c <=? ls_at_ms session + RECORDING_LATE_MS).

(** The loop over the candidates; any doubt keeps the live capture. *)
Fixpoint verify (archive : Archive) (session : LiveSession) (shared : string) (budget : Z)
    (winner : option Verified) (candidates : list ShareRecordingInput) : option Verified :=
  match candidates with
  | [] => winner
  | c :: rest =>
      match archive (ri_cast_key c) with
      | None => None
      | Some (size, text) =>
          if (RUN_SHARE_MAX_CAST_BYTES <? size) || (budget <? size) then None
          else
            match castMessages text session with
            | None => None
            | Some messages =>
                if negb (sharedMatchesRecording shared
                           (recordedOutput messages (String.length shared)))
                then verify archive session shared budget winner rest
                else
                  match winner with
                  | Some _ => None
                  | None =>
                      verify archive session shared budget
                        (Some (mkVerified (ri_cast_key c) size messages)) rest
                  end
            end
      end
  end.

Definition verifiedRecording (archive : Archive) (session : LiveSession)
    (candidates : list ShareRecordingInput) (used : list string) (budget : Z) (d : ShareDO)
    : option Verified :=
  let shared := comparableOutput (sharedOutputBeforeHole (ls_id session) d) in
  if (String.length shared <? MIN_VERIFIED_OUTPUT)%nat then None
  else verify archive session shared budget None (List.filter (nearby session used) candidates).

(** * The requests of the archive *)

Definition recording_input (v : json) : option ShareRecordingInput :=
  match v with
  | JObj _ =>
      match isCount (field v "start_ms"), isCount (field v "duration_ms"), field v "cast_key" with
      | Some a, Some b, Some (JStr key) =>
          if (0 <? slen key) then Some (mkShareRecordingInput a b key) else None
      | _, _, _ => None
      end
  | _ => None
  end.

(** [ON CONFLICT (vm_id) DO UPDATE]: replace a column of the VM's row. *)
Definition upsert_sessions (vm : string) (ss : list ShareRecordingInput) (rs : list RecordingRow) :=
  if existsb (fun r => rr_vm_id r =s vm) rs
  then map (fun r => if rr_vm_id r =s vm then mkRecordingRow vm ss (rr_done r) else r) rs
  else rs ++ [mkRecordingRow vm ss false].
Definition upsert_done (vm : string) (rs : list RecordingRow) :=
  if existsb (fun r => rr_vm_id r =s vm) rs
  then map (fun r => if rr_vm_id r =s vm then mkRecordingRow vm (rr_sessions r) true else r) rs
  else rs ++ [mkRecordingRow vm [] true].

Definition vm_of_body (body : json) : option string :=
  match field body "vm_id" with
  | Some (JStr vm) => if VM_ID vm then Some vm else None
  | _ => None
  end.

Definition recording (body : json) (d : ShareDO) : ShareDO * Z :=
  if negb (live d) then (d, 404)
  else if d_recorded d then (d, 204)
  else
    match vm_of_body body, field body "sessions" with
    | Some vm, Some (JArr l) =>
        (with_recordings (upsert_sessions vm (omap recording_input l) (d_recordings d))
           (d_recording_due d) (d_alarm d) d, 204)
    | _, _ => (d, 400)
    end.

(** Sessions whose VM has not finished archiving. *)
Definition waiting (rs : list RecordingRow) (ss : list LiveSession) : bool :=
  existsb (fun s => negb (existsb (fun r => (rr_vm_id r =s ls_vm_id s) && rr_done r) rs)) ss.

Definition vmComplete (now : Z) (body : json) (d : ShareDO) : ShareDO * Z :=
  if negb (live d) then (d, 404)
  else if d_recorded d then (d, 204)
  else
    match vm_of_body body with
    | Some vm =>
        let rs := upsert_done vm (d_recordings d) in
        (if waiting rs (d_sessions d)
         then with_recordings rs (d_recording_due d) (d_alarm d) d
         else with_recordings rs true (Some now) d, 204)
    | None => (d, 400)
    end.

(** * The rebuild *)

(** [ORDER BY at_ms, id]. *)
Definition session_le (a b : LiveSession) : bool :=
  (ls_at_ms a <? ls_at_ms b)
  || ((ls_at_ms a =? ls_at_ms b) && str_leb (ls_id a) (ls_id b)).

Record Emit := mkEmit {
  em_seq : Z;
  em_chunk : list (Z * DMessage);
  em_bytes : Z;
  em_segments : list (list (Z * DMessage));   (* written so far *)
}.

Definition writeChunk (e : Emit) : Emit :=
  match em_chunk e with
  | [] => e
  | chunk => mkEmit (em_seq e) [] 0 (em_segments e ++ [chunk])
  end.

Definition emit (e : Emit) (m : DMessage) : Emit :=
  let seq := em_seq e + 1 in
  let size := slen (body_text m seq) in
  let e1 := if RUN_SHARE_SEGMENT_BYTES <? em_bytes e + size then writeChunk e else e in
  mkEmit seq (em_chunk e1 ++ [(seq, m)]) (em_bytes e1 + size + 1) (em_segments e1).

Definition is_detach (m : DMessage) : bool := match m with DDetach _ => true | _ => false end.
Definition is_end (m : DMessage) : bool := match m with DEnd _ => true | _ => false end.

(** The live capture of a session, closed. *)
Definition live_capture (id : string) (d : ShareDO) : list DMessage :=
  let kept := List.filter (fun m => negb (is_detach m)) (session_rows id d) in
  kept ++ (if existsb is_end kept then [] else [DEnd id]).

Record Rebuild := mkRebuild {
  rb_emit : Emit;
  rb_truncated : bool;
  rb_budget : Z;
  rb_used : list string;
}.

Definition recordings_of (vm : string) (d : ShareDO) : list ShareRecordingInput :=
  match List.find (fun r => rr_vm_id r =s vm) (d_recordings d) with
  | Some r => rr_sessions r
  | None => []
  end.

Definition rebuild_session (archive : Archive) (d : ShareDO) (b : Rebuild) (s : LiveSession) : Rebuild :=
  let recording :=
    if negb (ls_incomplete s =? 0) && negb (ls_mid_session s)
    then verifiedRecording archive s (recordings_of (ls_vm_id s) d) (rb_used b) (rb_budget b) d
    else None in
  match recording with
  | Some v =>
      mkRebuild (fold_left emit (v_messages v) (rb_emit b)) (rb_truncated b)
        (rb_budget b - v_size v)
        (if str_mem (v_key v) (rb_used b) then rb_used b else rb_used b ++ [v_key v])
  | None =>
      mkRebuild (fold_left emit (live_capture (ls_id s) d) (rb_emit b))
        (rb_truncated b || negb (Z.land (ls_incomplete s) INCOMPLETE_TRUNCATED =? 0))
        (rb_budget b) (rb_used b)
  end.

Definition rebuild (archive : Archive) (d : ShareDO) : Rebuild :=
  let b := fold_left (rebuild_session archive d) (js_sort session_le (d_sessions d))
             (mkRebuild (mkEmit 0 [] 0 []) false RUN_SHARE_MAX_RECORDING_BYTES []) in
  mkRebuild (writeChunk (rb_emit b)) (rb_truncated b) (rb_budget b) (rb_used b).

(** The files of the new generation, in the order they are written. *)
Fixpoint put_segments (generation n : Z) (segments : list (list (Z * DMessage)))
    (b : list (FileName * FileBody)) : list (FileName * FileBody) :=
  match segments with
  | [] => b
  | s :: rest => put_segments generation (n + 1) rest (file_put (SegmentFile generation n) (LinesBody s) b)
  end.

Definition of_generation (g : Z) (f : FileName) : bool :=
  match f with
  | SegmentFile g' _ | CheckpointFile g' _ => g' =? g
  | _ => false
  end.

(** [publishRecording] when every write succeeds and nothing runs meanwhile. *)
Definition publishRecording (archive : Archive) (d : ShareDO) : ShareDO :=
  let generation := d_generation d + 1 in
  let b := rebuild archive d in
  let segments := em_segments (rb_emit b) in
  let head := mkShareHead generation (Z.of_nat (length segments)) 0 (NInt (em_seq (rb_emit b)))
                (rb_truncated b) true in
  let files := file_put HeadFile (HeadBody head) (put_segments generation 1 segments (d_bucket d)) in
  let files := file_delete (of_generation (generation - 1)) files in
  mkShareDO (d_share_id d) (d_mission d) (d_write_token_hash d) (d_stopped d) (d_seq d) (d_total d)
    (d_truncated d) (d_flushed_seq d) (Z.of_nat (length segments)) (d_checkpoint d)
    (d_checkpoint_seq d) generation false true [] (d_sessions d) (d_recordings d) (d_alarm d)
    (d_sockets d) files.

(** The alarm fired; a publish whose write threw is retried by the platform. *)
Definition alarm (archive : Archive) (now : Z) (o1 o2 o3 : PutOutcome) (d : ShareDO) : ShareDO :=
  let d := with_alarm None d in
  if negb (live d) then d
  else if d_recording_due d then publishRecording archive d
  else
    match flushLive o1 o2 o3 d with
    | (d', Some PutThrew) => with_alarm (Some now) d'
    | (d', _) => d'
    end.

(** * Lemmas: casts *)

Definition events_of (ms : list DMessage) : list DEvent :=
  ms ≫= fun m => match m with DEvents _ es => es | _ => [] end.

(** The events of the lines, one after another, as if there were no batches. *)
Fixpoint spec_events (at_ : spec_float) (rows : list CastRow) : list DEvent :=
  match rows with
  | Row (Some interval) code (Some data) :: rest =>
      let at' := f64_add at_ (f64_mul interval (f64_of_Z 1000)) in
      option_list (cast_event at' (nullish code "") data) ++ spec_events at' rest
  | _ => []
  end.

Definition only_events (id : string) (m : DMessage) : Prop :=
  exists es, m = DEvents id es /\ es <> [].

Lemma events_of_app a b : events_of (a ++ b) = events_of a ++ events_of b.
Proof. apply bind_app. Qed.

Lemma cast_flush_spec id s :
  events_of (cs_messages (cast_flush id s)) = events_of (cs_messages s) ++ cs_batch s /\
  cs_batch (cast_flush id s) = [] /\ cs_at (cast_flush id s) = cs_at s /\
  (Forall (only_events id) (cs_messages s) -> Forall (only_events id) (cs_messages (cast_flush id s))).
Proof.
  unfold cast_flush. destruct (cs_batch s) as [|e b] eqn:E; [by rewrite app_nil_r|]. cbn.
  split_and!; [|done|done|].
  - rewrite events_of_app. cbn. by rewrite app_nil_r.
  - intros H. apply Forall_app. split; [done|]. constructor; [|done]. by exists (e :: b).
Qed.

Lemma cast_row_spec id s s' interval code data :
  cast_row id s (Row (Some interval) code (Some data)) = Some s' ->
  let at' := f64_add (cs_at s) (f64_mul interval (f64_of_Z 1000)) in
  cs_at s' = at' /\
  events_of (cs_messages s') ++ cs_batch s' = (events_of (cs_messages s) ++ cs_batch s)
    ++ option_list (cast_event at' (nullish code "") data) /\
  (Forall (only_events id) (cs_messages s) -> Forall (only_events id) (cs_messages s')).
Proof.
  cbn [cast_row]. destruct (f64_negative interval); [done|].
  set (at' := f64_add _ _). destruct (cast_event at' _ data) as [e|]; intros [= <-].
  - destruct (32 * 1024 <=? _).
    + destruct (cast_flush_spec id (mkCastState at' (cs_batch s ++ [e]) (cs_bytes s + slen data + 32)
        (cs_messages s))) as (H1 & H2 & H3 & H4). split_and!; [done| |done].
      rewrite H1, H2, app_nil_r. cbn. by rewrite app_assoc.
    + cbn. split_and!; [done|by rewrite app_assoc|done].
  - cbn. split_and!; [done|by rewrite app_nil_r|done].
Qed.

Lemma cast_rows_spec id s s' rows :
  cast_rows id s rows = Some s' ->
  events_of (cs_messages s') ++ cs_batch s'
    = (events_of (cs_messages s) ++ cs_batch s) ++ spec_events (cs_at s) rows /\
  (Forall (only_events id) (cs_messages s) -> Forall (only_events id) (cs_messages s')).
Proof.
  revert s. induction rows as [|r rows IH]; intros s; cbn [cast_rows].
  - intros [= <-]. cbn. by rewrite app_nil_r.
  - destruct (cast_row id s r) as [s1|] eqn:E; [|done]. cbn [mbind option_bind]. intros H.
    destruct r as [| |[iv|] code [data|]]; try done.
    destruct (cast_row_spec _ _ _ _ _ _ E) as (Ha & He & Hf).
    apply IH in H as [H1 H2]. rewrite H1, He, Ha. cbn [spec_events].
    split; [by rewrite <- !app_assoc|auto].
Qed.

Lemma cast_event_code at_ code data e :
  cast_event at_ code data = Some e -> de_code e = code /\ (code = "o" \/ code = "r") /\
    (code = "o" -> de_data e = data).
Proof.
  unfold cast_event. destruct (code =s "o") eqn:Eo; cbn [orb].
  - apply String.eqb_eq in Eo as ->. unfold normalizeEvent.
    destruct (isCount _); [|done]. cbn. intros [= <-]. cbn. split_and!; by auto.
  - destruct (code =s "r") eqn:Er; [|done]. apply String.eqb_eq in Er as ->. unfold normalizeEvent.
    destruct (isCount _); [|done]. rewrite Eo. cbn. destruct (parse_size 5 data) as [[x y]|]; [|done].
    intros [= <-]. cbn. split_and!; [done|by right|done].
Qed.

(** Only output and resizes come out of a cast; every output is an output line's. *)
Lemma spec_events_codes at_ rows e :
  e ∈ spec_events at_ rows ->
  (de_code e = "o" /\ exists iv, Row iv (Some "o") (Some (de_data e)) ∈ rows) \/ de_code e = "r".
Proof.
  revert at_. induction rows as [|r rows IH]; intros at_ H; cbn [spec_events] in H;
    [by apply elem_of_nil in H|].
  destruct r as [| |[iv|] code [data|]]; try by apply elem_of_nil in H.
  apply elem_of_app in H as [H|H].
  - destruct (cast_event _ _ _) as [x|] eqn:E; cbn in H; [|by apply elem_of_nil in H].
    apply list_elem_of_singleton in H as ->.
    destruct (cast_event_code _ _ _ _ E) as (-> & [Hc|Hc] & Hd); [left|by right].
    split; [done|]. exists (Some iv). rewrite (Hd Hc). destruct code as [c|]; cbn in Hc; [|done].
    subst. by left.
  - destruct (IH _ H) as [(Hc & j & Hin)|?]; [left|by right]. split; [done|]. exists j. by right.
Qed.

(** * Lemmas: verification *)

Definition verifies (archive : Archive) (session : LiveSession) (shared : string)
    (c : ShareRecordingInput) (v : Verified) : Prop :=
  exists text, archive (ri_cast_key c) = Some (v_size v, text) /\
    castMessages text session = Some (v_messages v) /\ v_key v = ri_cast_key c /\
    sharedMatchesRecording shared (recordedOutput (v_messages v) (String.length shared)) = true.

Definition refuted (archive : Archive) (session : LiveSession) (shared : string)
    (c : ShareRecordingInput) : Prop :=
  exists size text ms, archive (ri_cast_key c) = Some (size, text) /\
    castMessages text session = Some ms /\
    sharedMatchesRecording shared (recordedOutput ms (String.length shared)) = false.

Lemma verify_spec archive session shared budget winner cs v :
  verify archive session shared budget winner cs = Some v ->
  (winner = Some v /\ Forall (refuted archive session shared) cs) \/
  (winner = None /\ exists l1 c l2, cs = l1 ++ c :: l2 /\ verifies archive session shared c v /\
     v_size v <= budget /\ Forall (refuted archive session shared) (l1 ++ l2)).
Proof.
  revert winner. induction cs as [|c cs IH]; intros winner; cbn [verify].
  - intros ->. by left.
  - destruct (archive (ri_cast_key c)) as [[size text]|] eqn:Ea; [|done].
    destruct (_ || _) eqn:Es; [done|]. apply orb_false_iff in Es as [_ Es]. apply Z.ltb_ge in Es.
    destruct (castMessages text session) as [ms|] eqn:Em; [|done].
    destruct (sharedMatchesRecording _ _) eqn:Eh; cbn [negb].
    + destruct winner as [w|]; [done|]. intros H.
      apply IH in H as [[[= <-] Hf]|[? _]]; [|done].
      right. split; [done|]. exists [], c, cs. split_and!; [done| |done|done].
      by exists text.
    + assert (refuted archive session shared c) as Hc by (by exists size, text, ms).
      intros H. apply IH in H as [[-> Hf]|(-> & l1 & c' & l2 & -> & Hv & Hb & Hf)].
      * left. by split; [|constructor].
      * right. split; [done|]. exists (c :: l1), c', l2. split_and!; [done..|]. by constructor.
Qed.

(** * Lemmas: the rebuild *)

Definition emitted (e : Emit) : list (Z * DMessage) := concat (em_segments e) ++ em_chunk e.

Definition number (n : Z) (ms : list DMessage) : list (Z * DMessage) :=
  imap (fun i m => (n + 1 + Z.of_nat i, m)) ms.

Lemma number_cons n m ms : number n (m :: ms) = (n + 1, m) :: number (n + 1) ms.
Proof.
  unfold number. rewrite imap_cons. f_equal; [f_equal; lia|]. apply imap_ext. intros i x _. cbn.
  f_equal. lia.
Qed.

Lemma number_app n a b : number n (a ++ b) = number n a ++ number (n + Z.of_nat (length a)) b.
Proof.
  unfold number. rewrite imap_app. f_equal. apply imap_ext. intros i x _. cbn. f_equal. lia.
Qed.

Lemma number_snd n ms : (number n ms).*2 = ms.
Proof. revert n. induction ms as [|m ms IH]; intros n; [done|]. rewrite number_cons. cbn. by rewrite IH. Qed.

Lemma number_fst n ms : (number n ms).*1 = range (n + 1) (n + Z.of_nat (length ms)).
Proof.
  revert n. induction ms as [|m ms IH]; intros n.
  - cbn. by rewrite range_empty by lia.
  - rewrite number_cons. cbn [fmap list_fmap fst length]. rewrite IH. unfold range.
    rewrite (seqZ_cons (n + 1)) by lia. f_equal. f_equal; lia.
Qed.

Lemma writeChunk_emitted e : emitted (writeChunk e) = emitted e.
Proof.
  unfold writeChunk, emitted. destruct (em_chunk e) as [|x l] eqn:E; [by rewrite E|]. cbn.
  by rewrite concat_app, app_nil_r; cbn; rewrite app_nil_r.
Qed.

Lemma emit_emitted e m : emitted (emit e m) = emitted e ++ [(em_seq e + 1, m)].
Proof.
  unfold emit. set (e1 := if _ <? _ then _ else _).
  assert (emitted e1 = emitted e) as <- by (unfold e1; case_match; [apply writeChunk_emitted|done]).
  unfold emitted. cbn. by rewrite app_assoc.
Qed.

Lemma fold_emit ms e :
  emitted (fold_left emit ms e) = emitted e ++ number (em_seq e) ms /\
  em_seq (fold_left emit ms e) = em_seq e + Z.of_nat (length ms).
Proof.
  revert e. induction ms as [|m ms IH]; intros e; cbn [fold_left length].
  - cbn. rewrite app_nil_r. split; [done|lia].
  - destruct (IH (emit e m)) as [-> ->]. rewrite emit_emitted, number_cons. cbn [em_seq emit].
    rewrite <- app_assoc. split; [done|lia].
Qed.

(** Where a rebuilt message comes from. *)
Definition shared_source (archive : Archive) (d : ShareDO) (m : DMessage) : Prop :=
  exists s, s ∈ d_sessions d /\
    (m ∈ live_capture (ls_id s) d \/
     (ls_incomplete s <> 0 /\ ls_mid_session s = false /\
      exists c v, c ∈ recordings_of (ls_vm_id s) d /\
        verifies archive s (comparableOutput (sharedOutputBeforeHole (ls_id s) d)) c v /\
        m ∈ v_messages v)).

Record rebuild_ok (archive : Archive) (d : ShareDO) (b : Rebuild) : Prop := {
  ro_numbers : emitted (rb_emit b) = number 0 ((emitted (rb_emit b)).*2);
  ro_seq : em_seq (rb_emit b) = Z.of_nat (length (emitted (rb_emit b)));
  ro_source : Forall (shared_source archive d) ((emitted (rb_emit b)).*2);
}.

Lemma rebuild_emits archive d b ms t bud used :
  rebuild_ok archive d b -> Forall (shared_source archive d) ms ->
  rebuild_ok archive d (mkRebuild (fold_left emit ms (rb_emit b)) t bud used).
Proof.
  intros [Hn Hs Hf] Hms. destruct (fold_emit ms (rb_emit b)) as [He Hq].
  assert (E2 : (emitted (fold_left emit ms (rb_emit b))).*2 = (emitted (rb_emit b)).*2 ++ ms)
    by (rewrite He, fmap_app, number_snd; done).
  split; cbn [rb_emit].
  - rewrite E2, He, number_app, length_fmap, <- Hn, Z.add_0_l, <- Hs. done.
  - rewrite Hq, He, length_app, Hs. unfold number. rewrite length_imap. lia.
  - rewrite E2. by apply Forall_app.
Qed.

Lemma rebuild_session_ok archive d b s :
  s ∈ d_sessions d -> rebuild_ok archive d b -> rebuild_ok archive d (rebuild_session archive d b s).
Proof.
  intros Hs Hok. unfold rebuild_session. destruct (_ && _) eqn:E; cycle 1.
  { apply rebuild_emits; [done|]. apply Forall_forall. intros m Hm. exists s. auto. }
  apply andb_true_iff in E as [E1 E2]. apply negb_true_iff in E1, E2. apply Z.eqb_neq in E1.
  destruct (verifiedRecording _ _ _ _ _ _) as [v|] eqn:Ev; cycle 1.
  { apply rebuild_emits; [done|]. apply Forall_forall. intros m Hm. exists s. auto. }
  apply rebuild_emits; [done|]. apply Forall_forall. intros m Hm. exists s. split; [done|]. right.
  unfold verifiedRecording in Ev. destruct (_ <? _)%nat; [done|].
  apply verify_spec in Ev as [[? _]|(_ & l1 & c & l2 & Hc & Hv & _)]; [done|].
  split_and!; [done..|]. exists c, v. split_and!; [|done..].
  assert (In c (List.filter (nearby s (rb_used b)) (recordings_of (ls_vm_id s) d))) as Hin
    by (rewrite Hc; apply in_app_iff; right; by left).
  apply List.filter_In in Hin as [Hin _]. by apply list_elem_of_In.
Qed.

Lemma rebuild_rebuild_ok archive d : rebuild_ok archive d (rebuild archive d).
Proof.
  unfold rebuild. set (b := fold_left _ _ _).
  assert (rebuild_ok archive d b) as [Hn Hs Hf].
  { unfold b. assert (forall x, x ∈ js_sort session_le (d_sessions d) -> x ∈ d_sessions d) as Hin
      by (intros x; by rewrite js_sort_perm).
    revert Hin. generalize (js_sort session_le (d_sessions d)).
    assert (rebuild_ok archive d (mkRebuild (mkEmit 0 [] 0 []) false RUN_SHARE_MAX_RECORDING_BYTES []))
      as H0 by by split.
    revert H0. generalize (mkRebuild (mkEmit 0 [] 0 []) false RUN_SHARE_MAX_RECORDING_BYTES []).
    intros r H0 l. revert r H0. induction l as [|s l IH]; intros r H0 Hin; [done|]. cbn.
    apply IH; [|intros; apply Hin; by right]. apply rebuild_session_ok; [apply Hin; by left|done]. }
  assert (em_seq (writeChunk (rb_emit b)) = em_seq (rb_emit b)) as Hq
    by (unfold writeChunk; by destruct (em_chunk (rb_emit b))).
  split; cbn [rb_emit]; rewrite ?writeChunk_emitted, ?Hq; done.
Qed.

Lemma rebuild_chunk archive d : em_chunk (rb_emit (rebuild archive d)) = [].
Proof.
  unfold rebuild. cbn [rb_emit]. generalize (rb_emit (fold_left (rebuild_session archive d)
    (js_sort session_le (d_sessions d)) (mkRebuild (mkEmit 0 [] 0 []) false RUN_SHARE_MAX_RECORDING_BYTES []))).
  intros e. unfold writeChunk. by destruct (em_chunk e) eqn:E.
Qed.

(** ** The files of the rebuild *)

Lemma file_get_delete p f b :
  file_get f (file_delete p b) = if p f then None else file_get f b.
Proof.
  unfold file_delete. induction b as [|[g x] b IH]; [by destruct (p f)|]. cbn.
  destruct (p g) eqn:Eg; cbn; [rewrite IH|].
  - destruct (decide (f = g)) as [->|]; [by rewrite Eg|done].
  - destruct (decide (f = g)) as [->|]; [by rewrite Eg|]. exact IH.
Qed.

Lemma put_segments_other g n segs b f :
  of_generation g f = false -> file_get f (put_segments g n segs b) = file_get f b.
Proof.
  intros Hf. revert n b. induction segs as [|s segs IH]; intros n b; cbn; [done|].
  rewrite IH, file_get_put_ne; [done|]. intros ->. cbn in Hf. lia.
Qed.

Lemma put_segments_below g n segs b m :
  m < n -> file_get (SegmentFile g m) (put_segments g n segs b) = file_get (SegmentFile g m) b.
Proof.
  revert n b. induction segs as [|s segs IH]; intros n b H; cbn; [done|].
  rewrite IH, file_get_put_ne by (lia || (intros [=]; lia)). done.
Qed.

Lemma put_segments_lines g n segs b :
  (range n (n + Z.of_nat (length segs) - 1) ≫= fun i =>
     match file_get (SegmentFile g i) (put_segments g n segs b) with
     | Some (LinesBody ms) => ms | _ => [] end) = concat segs.
Proof.
  revert n b. induction segs as [|s segs IH]; intros n b; cbn [length put_segments concat].
  - by rewrite range_empty by lia.
  - unfold range. rewrite seqZ_cons, bind_cons by lia.
    rewrite put_segments_below, file_get_put_eq by lia. f_equal.
    rewrite <- (IH (n + 1) (file_put (SegmentFile g n) (LinesBody s) b)). f_equal.
    unfold range. f_equal; lia.
Qed.

Lemma bind_ext_elem {A B} (f g : A -> list B) l :
  (forall x, x ∈ l -> f x = g x) -> l ≫= f = l ≫= g.
Proof.
  induction l as [|x l IH]; intros H; [done|]. rewrite !bind_cons, (H x), IH; [done| |by left].
  intros y Hy. apply H. by right.
Qed.

(** * Properties *)

(** A cast becomes one start, its events and one end, however its events were
    batched: they are those of its lines in order, each with the recorded time,
    and nothing but output and resizes is among them; every output is the text
    of an output line, so nothing that was typed leaves a recording. *)
Theorem cast_messages_hold_no_input text session ms :
  castMessages text session = Some ms ->
  exists start body, ms = start :: body ++ [DEnd (ls_id session)] /\
    Forall (only_events (ls_id session)) body /\
    events_of ms = spec_events (S754_zero false) (ct_rows text) /\
    (forall e, e ∈ events_of ms ->
       (de_code e = "o" /\ exists i, Row i (Some "o") (Some (de_data e)) ∈ ct_rows text)
       \/ de_code e = "r").
Proof.
  unfold castMessages. destruct (cast_grid (ct_header text)) as [[c r]|]; [|done]. cbn [mbind option_bind].
  destruct (cast_rows _ _ _) as [s|] eqn:E; [|done]. cbn [mbind option_bind]. intros [= <-].
  apply cast_rows_spec in E as [He Hf].
  destruct (cast_flush_spec (ls_id session) s) as (H1 & _ & _ & H4).
  assert (Hev : events_of (cs_messages (cast_flush (ls_id session) s) ++ [DEnd (ls_id session)])
    = spec_events (S754_zero false) (ct_rows text)).
  { rewrite events_of_app, H1, He. cbn. by rewrite app_nil_r. }
  eexists _, _. split; [done|]. split_and!; [apply H4, Hf; constructor|exact Hev|].
  intros e He'. change (e ∈ events_of (cs_messages (cast_flush (ls_id session) s) ++ [DEnd (ls_id session)])) in He'.
  rewrite Hev in He'. by apply spec_events_codes in He'.
Qed.

(** A recording replaces a live capture only without doubt: it is one of the
    VM's recordings near the session's start and not used for another session, it
    is within the size limit left, everything that was shared before the hole is
    how it begins, and every other recording near the start was read and does not
    match. *)
Theorem verified_recording_is_unique archive session candidates used budget d v :
  verifiedRecording archive session candidates used budget d = Some v ->
  let shared := sharedOutputBeforeHole (ls_id session) d in
  exists l1 c l2, List.filter (nearby session used) candidates = l1 ++ c :: l2 /\
    verifies archive session shared c v /\ v_size v <= budget /\
    Forall (refuted archive session shared) (l1 ++ l2).
Proof.
  unfold verifiedRecording. destruct (_ <? _)%nat; [done|]. intros H. cbn zeta.
  by apply verify_spec in H as [[? _]|(_ & l1 & c & l2 & H1 & H2 & H3 & H4)]; [|exists l1, c, l2].
Qed.

(** The rebuilt share is a complete generation of its own: its head names
    every segment and says it is recorded, the segments one after another number
    their messages from 1 without a hole, nothing of the generation before is
    left, and each message is of a session that was shared: of its live capture,
    or of a recording verified to be that session. *)
Theorem rebuild_publishes_only_shared archive d :
  let d' := publishRecording archive d in
  let g := d_generation d + 1 in
  let published := range 1 (d_segment d') ≫= fun n => file_lines (SegmentFile g n) d' in
  d_generation d' = g /\ d_recorded d' = true /\ d_log d' = [] /\
  (exists trunc, file_get HeadFile (d_bucket d') = Some (HeadBody
     (mkShareHead g (d_segment d') 0 (NInt (Z.of_nat (length published))) trunc true))) /\
  published.*1 = range 1 (Z.of_nat (length published)) /\
  Forall (shared_source archive d) published.*2 /\
  (forall f, of_generation (d_generation d) f = true -> file_get f (d_bucket d') = None).
Proof.
  intros d' g published. destruct (rebuild_rebuild_ok archive d) as [Hn Hs Hf].
  set (segs := em_segments (rb_emit (rebuild archive d))).
  assert (Hem : emitted (rb_emit (rebuild archive d)) = concat segs)
    by (unfold emitted; by rewrite rebuild_chunk, app_nil_r).
  assert (Hpub : published = concat segs).
  { unfold published. rewrite <- (put_segments_lines g 1 segs (d_bucket d)).
    replace (1 + Z.of_nat (length segs) - 1) with (Z.of_nat (length segs)) by lia.
    apply bind_ext_elem. intros n _. unfold file_lines, d', publishRecording. cbn [d_bucket].
    rewrite file_get_delete. cbn [of_generation].
    assert ((g =? d_generation d + 1 - 1) = false) as -> by (unfold g; lia).
    by rewrite file_get_put_ne. }
  rewrite Hem in Hn, Hs, Hf. rewrite <- Hpub in Hn, Hs, Hf.
  split_and!; [done..| | |done|].
  - exists (rb_truncated (rebuild archive d)). unfold d', publishRecording. cbn [d_bucket d_segment].
    rewrite file_get_delete. cbn [of_generation]. rewrite file_get_put_eq, Hs. done.
  - rewrite Hn at 1. rewrite number_fst, length_fmap. done.
  - intros f Hgen. unfold d', publishRecording. cbn [d_bucket]. rewrite file_get_delete.
    replace (d_generation d + 1 - 1) with (d_generation d) by lia. by rewrite Hgen.
Qed.

(** ** Witnesses *)

Definition w_text (n : nat) : string := String.concat "" (repeat "0123456789abcdef" n).

Definition w_cast (t : string) : CastText :=
  mkCastText (Some (JObj [("version", JNum (NInt 3));
                          ("term", JObj [("cols", JNum (NInt 80)); ("rows", JNum (NInt 24))])]))
    [Row (Some (f64_of_Z 1)) (Some "o") (Some t); Row (Some (f64_of_Z 2)) (Some "i") (Some "secret");
     Row (Some (f64_of_Z 2)) (Some "r") (Some "100x40")].

Definition w_live : LiveSession := mkLiveSession "s1" "vm-a" "browser" 100 false 1.

Definition w_share : ShareDO :=
  mkShareDO (Some "abcdefghijklmnopqrstuv") true (Some "hash") false 3 300 false 0 0 0 0 1 true false
    [mkLogRow 1 (Some "s1") (DStart "s1" "vm-a" "browser" 80 24 100 false false);
     mkLogRow 2 (Some "s1") (DEvents "s1" [mkDEvent 1000 "o" (w_text 4)]);
     mkLogRow 3 (Some "s1") (DGap "s1" 50)]
    [w_live] [mkRecordingRow "vm-a" [mkShareRecordingInput 120 9 "casts/1"] true] None [] [].

Definition w_archive (key : string) : option (Z * CastText) :=
  if key =s "casts/1" then Some (500, w_cast (w_text 5)) else None.

Definition w_messages : list DMessage :=
  [DStart "s1" "vm-a" "browser" 80 24 100 false false;
   DEvents "s1" [mkDEvent 1000 "o" (w_text 5); mkDEvent 5000 "r" "100x40"]; DEnd "s1"].

Lemma cast_messages_hold_no_input_witness :
  castMessages (w_cast (w_text 5)) w_live = Some w_messages /\
  forall e, e ∈ events_of w_messages ->
    (de_code e = "o" /\ exists i, Row i (Some "o") (Some (de_data e)) ∈ ct_rows (w_cast (w_text 5)))
    \/ de_code e = "r".
Proof.
  assert (H : castMessages (w_cast (w_text 5)) w_live = Some w_messages) by (vm_compute; reflexivity).
  split; [exact H|]. destruct (cast_messages_hold_no_input _ _ _ H) as (? & ? & _ & _ & _ & He). exact He.
Defined.

Lemma verified_recording_is_unique_witness :
  exists v, verifiedRecording w_archive w_live [mkShareRecordingInput 120 9 "casts/1"] []
      RUN_SHARE_MAX_RECORDING_BYTES w_share = Some v /\ v_messages v = w_messages /\
    v_size v <= RUN_SHARE_MAX_RECORDING_BYTES.
Proof.
  exists (mkVerified "casts/1" 500 w_messages).
  assert (H : verifiedRecording w_archive w_live [mkShareRecordingInput 120 9 "casts/1"] []
    RUN_SHARE_MAX_RECORDING_BYTES w_share = Some (mkVerified "casts/1" 500 w_messages))
    by (vm_compute; reflexivity).
  destruct (verified_recording_is_unique _ _ _ _ _ _ _ H) as (l1 & c & l2 & _ & _ & Hb & _).
  split; [exact H|]. split; [reflexivity|exact Hb].
Defined.

(** The hole in the shared session is filled from its recording. *)
Example w_rebuilt :
  file_lines (SegmentFile 2 1) (publishRecording w_archive w_share) = number 0 w_messages.
Proof. vm_compute. reflexivity. Qed.
