(* ===== verification/Tar.v ===== *)
(** The ustar writer of scenario source bundles (lib/tar.ts). Bytes are integers
    from 0 to 255; a store into a byte array keeps the low eight bits and a store
    past its end does nothing. [readTar] is a reader of the format that checks
    each header's checksum, for the round trip. *)
From stdpp Require Import base list strings.
From Stdlib Require Import ZArith Lia.
From S2P Require Import Prelude Json Text.

Open Scope string_scope.
Open Scope list_scope.
Open Scope Z_scope.

Definition BLOCK : nat := 512.

Record TarEntry := mkTarEntry { te_path : string; te_bytes : list Z }.

(** The char codes of a string, and the length [TextEncoder] gives it. *)
Definition codes (s : string) : list Z := map Z.of_N (code_units s).
Definition utf8_length (s : string) : nat :=
  foldr (fun c n => ((if (c <? 128)%Z then 1 else 2) + n)%nat) 0%nat (codes s).

(** [array[offset + i] = values[i]] for each [i]. *)
Fixpoint write (array : list Z) (offset : nat) (values : list Z) : list Z :=
  match values with
  | [] => array
  | v :: rest => write (<[offset := v mod 256]> array) (S offset) rest
  end.

(** [value.toString(8)], as char codes; [fuel] digits are enough. *)
Fixpoint octal (fuel : nat) (value : Z) : list Z :=
  match fuel with
  | O => []
  | S fuel => if value <? 8 then [48 + value] else octal fuel (value / 8) ++ [48 + value mod 8]
  end.

(** [text.padStart(length, "0")]. *)
Definition padStart (length_ : nat) (text : list Z) : list Z :=
  replicate (length_ - length text) 48 ++ text.

(** Sizes are below 2^53, so they have at most 18 octal digits. *)
Definition toString8 (value : Z) : list Z := octal 18 value.

Definition writeOctal (header : list Z) (offset length_ : nat) (value : Z) : list Z :=
  <[(offset + length_ - 1)%nat := 0]>
    (write header offset (padStart (length_ - 1) (toString8 value))).

Definition writeString (header : list Z) (offset : nat) (value : string) : list Z :=
  write header offset (codes value).

Definition sum (l : list Z) : Z := foldr Z.add 0 l.

(** The header before its checksum, with spaces in its place. *)
Definition headerFields (entry : TarEntry) : list Z :=
  let header := replicate BLOCK 0 in
  let header := writeString header 0 (te_path entry) in
  let header := writeOctal header 100 8 420 in
  let header := writeOctal header 108 8 0 in
  let header := writeOctal header 116 8 0 in
  let header := writeOctal header 124 12 (Z.of_nat (length (te_bytes entry))) in
  let header := writeOctal header 136 12 0 in
  let header := <[156%nat := 48]> header in
  let header := writeString header 257 "ustar" in
  let header := <[262%nat := 0]> header in
  let header := writeString header 263 "00" in
  write header 148 (replicate 8 32).

Definition headerOf (entry : TarEntry) : list Z :=
  let header := headerFields entry in
  let checksum := sum header in
  let header := write header 148 (padStart 6 (toString8 checksum)) in
  <[155%nat := 32]> (<[154%nat := 0]> header).

(** The padding after an entry's bytes. *)
Definition padding (bytes : list Z) : list Z :=
  let remainder := (length bytes mod BLOCK)%nat in
  if (remainder =? 0)%nat then [] else replicate (BLOCK - remainder) 0.

Fixpoint buildChunks (entries : list TarEntry) : result string (list Z) :=
  match entries with
  | [] => Ok []
  | entry :: rest =>
      if (100 <? utf8_length (te_path entry))%nat
      then Err ("tar path too long: " +:+ te_path entry)
      else
        match buildChunks rest with
        | Err e => Err e
        | Ok chunks => Ok (headerOf entry ++ te_bytes entry ++ padding (te_bytes entry) ++ chunks)
        end
  end.

Definition buildTar (entries : list TarEntry) : result string (list Z) :=
  match buildChunks entries with
  | Ok chunks => Ok (chunks ++ replicate (BLOCK * 2) 0)
  | Err e => Err e
  end.

(** * A reader *)

Fixpoint octal_value (acc : Z) (digits : list Z) : option Z :=
  match digits with
  | [] => Some acc
  | d :: rest => if (48 <=? d) && (d <=? 55) then octal_value (8 * acc + (d - 48)) rest else None
  end.

Fixpoint until_zero (l : list Z) : list Z :=
  match l with
  | [] => []
  | b :: rest => if b =? 0 then [] else b :: until_zero rest
  end.

Definition checksum_of (header : list Z) : Z :=
  sum (take 148 header) + 8 * 32 + sum (drop 156 header).

Fixpoint readTar (fuel : nat) (bytes : list Z) : option (list (list Z * list Z)) :=
  match fuel with
  | O => None
  | S fuel =>
      let header := take BLOCK bytes in
      let rest := drop BLOCK bytes in
      if (length header <? BLOCK)%nat then None
      else if forallb (Z.eqb 0) header then Some []
      else
        match octal_value 0 (take 11 (drop 124 header)), octal_value 0 (take 6 (drop 148 header)) with
        | Some size, Some checksum =>
            if checksum =? checksum_of header then
              let data := take (Z.to_nat size) rest in
              let after := drop (length data + length (padding data))%nat rest in
              cons (until_zero (take 100 header), data) <$> readTar fuel after
            else None
        | _, _ => None
        end
  end.

(** * Lemmas: octal numbers *)

(** The [k] octal digits of a number, most significant first. *)
Fixpoint digits8 (k : nat) (n : Z) : list Z :=
  match k with
  | O => []
  | S k => digits8 k (n / 8) ++ [48 + n mod 8]
  end.

Lemma digits8_length k n : length (digits8 k n) = k.
Proof. revert n. induction k as [|k IH]; intros n; cbn; [done|]. rewrite length_app, IH. cbn. lia. Qed.

Lemma digits8_zero k : digits8 k 0 = replicate k 48.
Proof.
  induction k as [|k IH]; [done|]. cbn. change (0 / 8) with 0. rewrite IH.
  by rewrite (replicate_cons_app k).
Qed.

Lemma octal_padded fuel k n :
  0 <= n < 8 ^ Z.of_nat k -> (1 <= k <= fuel)%nat -> padStart k (octal fuel n) = digits8 k n.
Proof.
  unfold padStart. revert k n. induction fuel as [|fuel IH]; intros k n Hn Hk; [lia|].
  destruct k as [|k]; [lia|]. cbn [octal digits8]. destruct (Z.ltb_spec n 8) as [H8|H8].
  - rewrite Z.div_small, digits8_zero, Z.mod_small by lia. f_equal. f_equal. cbn. lia.
  - assert (0 <= n / 8 < 8 ^ Z.of_nat k).
    { rewrite Nat2Z.inj_succ, Z.pow_succ_r in Hn by lia. split; [apply Z.div_pos; lia|].
      apply Z.div_lt_upper_bound; lia. }
    assert (1 <= k)%nat.
    { destruct k; [|lia]. cbn in *. assert (1 <= n / 8) by (apply Z.div_le_lower_bound; lia). lia. }
    rewrite <- (IH k (n / 8)) by lia. rewrite length_app, app_assoc. cbn [length].
    do 2 f_equal. f_equal. lia.
Qed.

Lemma octal_value_app a l1 l2 :
  octal_value a (l1 ++ l2) = (b ← octal_value a l1; octal_value b l2).
Proof.
  revert a. induction l1 as [|d l1 IH]; intros a; cbn; [done|]. by destruct (_ && _).
Qed.

Lemma octal_value_digits k n : 0 <= n < 8 ^ Z.of_nat k -> octal_value 0 (digits8 k n) = Some n.
Proof.
  revert n. induction k as [|k IH]; intros n Hn; cbn [digits8].
  - cbn in *. f_equal. lia.
  - rewrite Nat2Z.inj_succ, Z.pow_succ_r in Hn by lia. rewrite octal_value_app, IH.
    + cbn. pose proof (Z.mod_pos_bound n 8). pose proof (Z.div_mod n 8).
      assert ((48 <=? 48 + n mod 8) && (48 + n mod 8 <=? 55) = true) as -> by lia. f_equal. lia.
    + split; [apply Z.div_pos; lia|]. apply Z.div_lt_upper_bound; lia.
Qed.

Definition byte_ok (b : Z) : Prop := 0 <= b < 256.

Lemma digits8_bytes k n : Forall byte_ok (digits8 k n).
Proof.
  revert n. induction k as [|k IH]; intros n; cbn [digits8]; [done|].
  apply Forall_app. split; [done|]. constructor; [|done].
  pose proof (Z.mod_pos_bound n 8). unfold byte_ok. lia.
Qed.

(** * Lemmas: headers *)

Lemma write_length h off vs : length (write h off vs) = length h.
Proof. revert h off. induction vs as [|v vs IH]; intros h off; cbn; [done|]. by rewrite IH, length_insert. Qed.

Lemma write_app_r a b off vs :
  (length a <= off)%nat -> write (a ++ b) off vs = a ++ write b (off - length a) vs.
Proof.
  revert b off. induction vs as [|v vs IH]; intros b off H; cbn [write]; [done|].
  rewrite insert_app_r_alt, IH by lia. do 2 f_equal. lia.
Qed.

Lemma insert_app_later (a b : list Z) i v :
  (length a <= i)%nat -> <[i := v]> (a ++ b) = a ++ <[(i - length a)%nat := v]> b.
Proof. intros H. by apply insert_app_r_alt. Qed.

Lemma write_start vs n :
  Forall byte_ok vs -> (length vs <= n)%nat ->
  write (replicate n 0) 0 vs = vs ++ replicate (n - length vs) 0.
Proof.
  intros Hb Hn. enough (forall a k, write (a ++ replicate (length vs + k) 0) (length a) vs
    = a ++ vs ++ replicate k 0) as H.
  { specialize (H [] (n - length vs)%nat). cbn in H. rewrite <- H. do 2 f_equal. lia. }
  clear Hn n. induction Hb as [|v vs Hv Hb IH]; intros a k; cbn [write length replicate plus]; [done|].
  rewrite insert_app_r_alt, Nat.sub_diag by lia. cbn [insert list_insert].
  rewrite Z.mod_small by exact Hv. specialize (IH (a ++ [v]) k).
  rewrite length_app, Nat.add_1_r, <- !app_assoc in IH. exact IH.
Qed.


(** Writing values that are bytes. *)
Fixpoint put (h : list Z) (off : nat) (vs : list Z) : list Z :=
  match vs with
  | [] => h
  | v :: rest => put (<[off := v]> h) (S off) rest
  end.

Lemma write_put h off vs : Forall byte_ok vs -> write h off vs = put h off vs.
Proof.
  intros Hb. revert h off. induction Hb as [|v vs Hv _ IH]; intros h off; cbn; [done|].
  by rewrite Z.mod_small by exact Hv.
Qed.

Lemma writeOctal_put h off (len : nat) v :
  0 <= v < 8 ^ Z.of_nat (len - 1) -> (2 <= len <= 19)%nat ->
  writeOctal h off len v = <[(off + len - 1)%nat := 0]> (put h off (digits8 (len - 1) v)).
Proof.
  intros Hv Hl. unfold writeOctal, toString8. rewrite octal_padded by lia.
  by rewrite write_put by apply digits8_bytes.
Qed.

Lemma code_units_byte s : Forall byte_ok (codes s).
Proof.
  unfold codes. induction s as [|c s IH]; cbn; constructor; [|exact IH].
  pose proof (Ascii.N_ascii_bounded c). unfold byte_ok. lia.
Qed.

Lemma codes_utf8 s : (length (codes s) <= utf8_length s)%nat.
Proof.
  unfold utf8_length. induction (codes s) as [|c l IH]; cbn [foldr length]; [lia|].
  destruct (c <? 128); lia.
Qed.

(** The fields after the name, by the digits of the size and the checksum. *)
Definition tailFields (size checksum : list Z) : list Z :=
  digits8 7 420 ++ [0] ++ digits8 7 0 ++ [0] ++ digits8 7 0 ++ [0] ++ size ++ [0]
  ++ digits8 11 0 ++ [0] ++ checksum ++ [48] ++ replicate 100 0
  ++ codes "ustar" ++ [0] ++ codes "00" ++ replicate 247 0.

Definition nameField (path : string) : list Z :=
  codes path ++ replicate (100 - length (codes path)) 0.

Lemma nameField_length path : (length (codes path) <= 100)%nat -> length (nameField path) = 100%nat.
Proof. intros H. unfold nameField. rewrite length_app, length_replicate. lia. Qed.

(** A list of a known length, element by element. *)
Ltac split_list l n :=
  lazymatch n with
  | O => destruct l; [|discriminate]
  | S ?k => let x := fresh "x" in destruct l as [|x l]; [discriminate|]; split_list l k
  end.

Definition small_entry (e : TarEntry) : Prop :=
  (utf8_length (te_path e) <= 100)%nat /\ Z.of_nat (length (te_bytes e)) < 8 ^ 11.

Lemma put_app_r a b off vs :
  (length a <= off)%nat -> put (a ++ b) off vs = a ++ put b (off - length a) vs.
Proof.
  revert b off. induction vs as [|v vs IH]; intros b off H; cbn [put]; [done|].
  rewrite insert_app_r_alt, IH by lia. do 2 f_equal. lia.
Qed.

Lemma headerFields_eq e :
  small_entry e ->
  headerFields e = nameField (te_path e)
    ++ tailFields (digits8 11 (Z.of_nat (length (te_bytes e)))) (replicate 8 32).
Proof.
  intros [Hp Hs]. pose proof (codes_utf8 (te_path e)) as Hu.
  assert (Hlen : length (nameField (te_path e)) = 100%nat) by (apply nameField_length; lia).
  unfold headerFields. unfold writeString at 3. rewrite write_start by (apply code_units_byte || (unfold BLOCK; lia)).
  rewrite (writeOctal_put _ _ 8), (writeOctal_put _ _ 8), (writeOctal_put _ _ 8),
    (writeOctal_put _ _ 12), (writeOctal_put _ _ 12) by (cbn; lia).
  unfold writeString. rewrite !(write_put _ _ (codes _)) by apply code_units_byte.
  rewrite write_put by (repeat constructor; done).
  pose proof (digits8_length 11 (Z.of_nat (length (te_bytes e)))) as Hd. cbn [Nat.sub].
  revert Hd. generalize (digits8 11 (Z.of_nat (length (te_bytes e)))). intros sz Hd.
  replace (codes (te_path e) ++ replicate (BLOCK - length (codes (te_path e))) 0)
    with (nameField (te_path e) ++ replicate 412 0); cycle 1.
  { unfold nameField. rewrite <- app_assoc, <- replicate_add. do 2 f_equal. unfold BLOCK. lia. }
  revert Hlen. generalize (nameField (te_path e)). intros a Ha.
  repeat first [rewrite put_app_r by (rewrite Ha; lia) | rewrite insert_app_later by (rewrite Ha; lia)].
  f_equal. rewrite Ha. split_list sz 11%nat. vm_compute. reflexivity.
Qed.

(** The name, the fields before the checksum and those after it. *)
Definition beforeChecksum (path : string) (size : list Z) : list Z :=
  nameField path ++ digits8 7 420 ++ [0] ++ digits8 7 0 ++ [0] ++ digits8 7 0 ++ [0] ++ size ++ [0]
  ++ digits8 11 0 ++ [0].
Definition afterChecksum : list Z :=
  [48] ++ replicate 100 0 ++ codes "ustar" ++ [0] ++ codes "00" ++ replicate 247 0.

Lemma tailFields_split path size checksum :
  nameField path ++ tailFields size checksum
    = beforeChecksum path size ++ checksum ++ afterChecksum.
Proof. unfold tailFields, beforeChecksum, afterChecksum. by rewrite <- !app_assoc. Qed.

Lemma beforeChecksum_length path size :
  (length (codes path) <= 100)%nat -> length size = 11%nat ->
  length (beforeChecksum path size) = 148%nat.
Proof.
  intros Hp Hs. unfold beforeChecksum. rewrite !length_app, nameField_length, Hs, !digits8_length by done.
  done.
Qed.

Lemma sum_app a b : sum (a ++ b) = sum a + sum b.
Proof. unfold sum. induction a as [|x a IH]; cbn; lia. Qed.

Lemma sum_bytes l : Forall byte_ok l -> 0 <= sum l <= 255 * Z.of_nat (length l).
Proof.
  unfold byte_ok. induction 1 as [|x l Hx _ IH]; cbn [sum foldr length]; [lia|].
  fold (sum l). lia.
Qed.

Lemma afterChecksum_bytes : Forall byte_ok afterChecksum.
Proof. apply Forall_forall. intros b Hb. revert b Hb. apply Forall_forall. vm_compute. repeat constructor; discriminate. Qed.

Lemma beforeChecksum_bytes path size :
  Forall byte_ok size -> Forall byte_ok (beforeChecksum path size).
Proof.
  intros Hs. unfold beforeChecksum, nameField.
  repeat (apply Forall_app; split); try apply digits8_bytes; try done;
    try (repeat constructor; done); [apply code_units_byte|].
  by apply Forall_replicate.
Qed.

Definition sizeField (e : TarEntry) : list Z := digits8 11 (Z.of_nat (length (te_bytes e))).

Lemma checksum_bounds e : small_entry e -> 0 <= sum (headerFields e) < 8 ^ 6.
Proof.
  intros He. rewrite headerFields_eq, tailFields_split by done. fold (sizeField e).
  destruct He as [Hp _]. pose proof (codes_utf8 (te_path e)).
  assert (Forall byte_ok (beforeChecksum (te_path e) (sizeField e) ++ replicate 8 32 ++ afterChecksum)) as Hb.
  { apply Forall_app. split; [apply beforeChecksum_bytes, digits8_bytes|]. apply Forall_app.
    split; [|apply afterChecksum_bytes]. by repeat constructor. }
  apply sum_bytes in Hb. rewrite !length_app, beforeChecksum_length in Hb
    by (lia || apply digits8_length).
  change (length (replicate 8 32)) with 8%nat in Hb. change (length afterChecksum) with 356%nat in Hb.
  change (8 ^ 6) with 262144. lia.
Qed.

(** The header with its checksum. *)
Lemma headerOf_eq e :
  small_entry e ->
  headerOf e = beforeChecksum (te_path e) (sizeField e)
    ++ (digits8 6 (sum (headerFields e)) ++ [0; 32]) ++ afterChecksum.
Proof.
  intros He. pose proof (checksum_bounds e He) as Hc. unfold headerOf, toString8.
  rewrite octal_padded; [|exact Hc|lia]. rewrite write_put by apply digits8_bytes.
  rewrite (headerFields_eq e He) at 1. rewrite tailFields_split. fold (sizeField e).
  destruct He as [Hp _]. pose proof (codes_utf8 (te_path e)).
  pose proof (beforeChecksum_length (te_path e) (sizeField e) ltac:(lia) (digits8_length _ _)) as Hl.
  revert Hl. generalize (beforeChecksum (te_path e) (sizeField e)). intros a Ha.
  pose proof (digits8_length 6 (sum (headerFields e))) as Hd. revert Hd.
  generalize (digits8 6 (sum (headerFields e))). intros cs Hd.
  repeat first [rewrite put_app_r by (rewrite Ha; lia) | rewrite insert_app_later by (rewrite Ha; lia)].
  f_equal. rewrite Ha. split_list cs 6%nat. vm_compute. reflexivity.
Qed.

(** The checksum a reader computes is the one that was written. *)
Lemma headerOf_parts e :
  small_entry e ->
  length (headerOf e) = BLOCK /\ Forall byte_ok (headerOf e) /\
  take 100 (headerOf e) = nameField (te_path e) /\
  take 11 (drop 124 (headerOf e)) = sizeField e /\
  take 6 (drop 148 (headerOf e)) = digits8 6 (sum (headerFields e)) /\
  checksum_of (headerOf e) = sum (headerFields e) /\
  forallb (Z.eqb 0) (headerOf e) = false.
Proof.
  intros He. rewrite (headerOf_eq e He) at 1 2 3 4 5 6 7.
  assert (Hsum : sum (headerFields e) = sum (beforeChecksum (te_path e) (sizeField e)) + 8 * 32 + sum afterChecksum).
  { rewrite headerFields_eq, tailFields_split, !sum_app by done. cbn. lia. }
  destruct He as [Hp _]. pose proof (codes_utf8 (te_path e)).
  pose proof (beforeChecksum_length (te_path e) (sizeField e) ltac:(lia) (digits8_length _ _)) as Hl.
  pose proof (digits8_length 6 (sum (headerFields e))) as Hd.
  set (cs := digits8 6 (sum (headerFields e))) in *.
  assert (Hn : length (nameField (te_path e)) = 100%nat) by (apply nameField_length; lia).
  split_and!.
  - rewrite !length_app, Hl, Hd. done.
  - apply Forall_app. split; [apply beforeChecksum_bytes, digits8_bytes|].
    apply Forall_app. split; [apply Forall_app; split; [apply digits8_bytes|by repeat constructor]
                             |apply afterChecksum_bytes].
  - unfold beforeChecksum. rewrite <- !app_assoc, take_app_length' by done. done.
  - unfold beforeChecksum. rewrite <- !app_assoc.
    assert (Hz : length (sizeField e) = 11%nat) by apply digits8_length.
    rewrite (app_assoc (nameField _)), (app_assoc (_ ++ _)), (app_assoc ((_ ++ _) ++ _)),
      (app_assoc (((_ ++ _) ++ _) ++ _)), (app_assoc ((((_ ++ _) ++ _) ++ _) ++ _)),
      (app_assoc (((((_ ++ _) ++ _) ++ _) ++ _) ++ _)).
    rewrite drop_app_length', take_app_length'; [done|done|].
    rewrite !length_app, Hn, !digits8_length. done.
  - rewrite drop_app_length', <- !app_assoc, take_app_length' by done. done.
  - unfold checksum_of. rewrite take_app_length' by done.
    rewrite !app_assoc, drop_app_length', Hsum; [done|]. rewrite !length_app, Hl, Hd. done.
  - rewrite !forallb_app. apply andb_false_iff. left. unfold beforeChecksum.
    rewrite !forallb_app. apply andb_false_iff. right. done.
Qed.

(** ** Blocks *)

Lemma write_bytes h off vs : Forall byte_ok h -> Forall byte_ok (write h off vs).
Proof.
  revert h off. induction vs as [|v vs IH]; intros h off Hh; cbn; [done|]. apply IH.
  apply Forall_insert; [done|]. unfold byte_ok. apply Z.mod_pos_bound. lia.
Qed.

Lemma writeOctal_bytes h off len v :
  Forall byte_ok h -> Forall byte_ok (writeOctal h off len v) /\
  length (writeOctal h off len v) = length h.
Proof.
  intros Hh. unfold writeOctal. split; [|by rewrite length_insert, write_length].
  apply Forall_insert; [by apply write_bytes|done].
Qed.

Lemma headerFields_block e : Forall byte_ok (headerFields e) /\ length (headerFields e) = BLOCK.
Proof.
  unfold headerFields, writeString.
  assert (Hi : forall h i v, Forall byte_ok h /\ length h = BLOCK -> byte_ok v ->
    Forall byte_ok (<[i := v]> h) /\ length (<[i := v]> h) = BLOCK)
    by (intros h i v [H1 H2] Hv; rewrite length_insert; split; [by apply Forall_insert|done]).
  assert (Hw : forall h i vs, Forall byte_ok h /\ length h = BLOCK ->
    Forall byte_ok (write h i vs) /\ length (write h i vs) = BLOCK)
    by (intros h i vs [H1 H2]; rewrite write_length; split; [by apply write_bytes|done]).
  assert (Ho : forall h i n v, Forall byte_ok h /\ length h = BLOCK ->
    Forall byte_ok (writeOctal h i n v) /\ length (writeOctal h i n v) = BLOCK)
    by (intros h i n v [H1 H2]; destruct (writeOctal_bytes h i n v H1) as [? ->]; done).
  apply Hw, Hw, Hi; [|done]. apply Hw, Hi; [|done]. do 5 apply Ho. apply Hw.
  rewrite length_replicate. split; [by apply Forall_replicate|done].
Qed.

Lemma headerOf_block e : Forall byte_ok (headerOf e) /\ length (headerOf e) = BLOCK.
Proof.
  destruct (headerFields_block e) as [H1 H2]. unfold headerOf.
  rewrite !length_insert, write_length. split; [|done].
  by repeat (apply Forall_insert; [|done]); apply write_bytes.
Qed.

Lemma padding_block bytes :
  ((length bytes + length (padding bytes)) mod BLOCK = 0)%nat /\ Forall byte_ok (padding bytes).
Proof.
  unfold padding. pose proof (Nat.div_mod_eq (length bytes) BLOCK) as Hd.
  pose proof (Nat.mod_upper_bound (length bytes) BLOCK ltac:(done)) as Hm.
  destruct (Nat.eqb_spec (length bytes mod BLOCK) 0) as [E|E].
  - cbn [length]. by rewrite Nat.add_0_r.
  - rewrite length_replicate. split; [|by apply Forall_replicate].
    replace (length bytes + (BLOCK - length bytes mod BLOCK))%nat
      with ((length bytes / BLOCK + 1) * BLOCK)%nat by lia.
    by apply Nat.Div0.mod_mul.
Qed.

Lemma until_zero_app l n : Forall (fun c => c <> 0) l -> until_zero (l ++ replicate n 0) = l.
Proof.
  induction 1 as [|c l Hc _ IH]; [by destruct n|]. cbn [app until_zero].
  apply Z.eqb_neq in Hc. by rewrite Hc, IH.
Qed.

(** An entry the format can hold: a path of at most 100 bytes with no NUL, and
    fewer than 8 GiB of bytes. *)
Definition tar_entry_ok (e : TarEntry) : Prop :=
  small_entry e /\ Forall (fun c => c <> 0) (codes (te_path e)).

Lemma readTar_entry fuel e rest :
  tar_entry_ok e ->
  readTar (S fuel) (headerOf e ++ te_bytes e ++ padding (te_bytes e) ++ rest)
    = cons (codes (te_path e), te_bytes e) <$> readTar fuel rest.
Proof.
  intros [He Hp]. destruct (headerOf_parts e He) as (Hl & _ & Hname & Hsize & Hcheck & Hsum & Hz).
  pose proof (checksum_bounds e He) as Hc. cbn [readTar].
  rewrite take_app_length', drop_app_length' by done. rewrite Hl, Nat.ltb_irrefl, Hz, Hname, Hsize, Hcheck.
  unfold sizeField. rewrite !octal_value_digits by (exact Hc || (destruct He; cbn; lia)).
  rewrite Hsum, Z.eqb_refl, Nat2Z.id, take_app_length' by done.
  unfold nameField. rewrite until_zero_app by done. do 2 f_equal.
  rewrite app_assoc, drop_app_length'; [done|]. by rewrite length_app.
Qed.

Lemma readTar_end fuel : readTar (S fuel) (replicate (BLOCK * 2) 0) = Some [].
Proof. reflexivity. Qed.

Lemma buildChunks_reads entries fuel :
  Forall tar_entry_ok entries ->
  exists chunks, buildChunks entries = Ok chunks /\
    readTar (length entries + S fuel) (chunks ++ replicate (BLOCK * 2) 0)
      = Some (map (fun e => (codes (te_path e), te_bytes e)) entries).
Proof.
  induction 1 as [|e entries He _ IH]; cbn [buildChunks length map]; [by exists []|].
  destruct IH as (chunks & -> & Hread).
  assert ((100 <? utf8_length (te_path e))%nat = false) as ->
    by (destruct He as [[? _] _]; by apply Nat.ltb_ge).
  eexists. split; [done|]. rewrite <- !app_assoc. cbn [plus]. rewrite readTar_entry by done.
  by rewrite Hread.
Qed.

(** * Properties *)

(** A bundle reads back: for entries whose paths fit the header's name field
    and hold no NUL, a ustar reader that checks every header's checksum finds
    exactly the entries' paths (by their char codes) and bytes, in order, and
    then the end of the archive. *)
Theorem tar_round_trip entries :
  Forall tar_entry_ok entries ->
  exists out, buildTar entries = Ok out /\
    readTar (S (length entries)) out
      = Some (map (fun e => (codes (te_path e), te_bytes e)) entries).
Proof.
  intros H. destruct (buildChunks_reads entries 0 H) as (chunks & Hb & Hr).
  unfold buildTar. rewrite Hb. eexists. split; [done|]. by rewrite Nat.add_1_r in Hr.
Qed.

(** Whatever the entries are, an archive that is built consists of bytes and
    of whole blocks of 512 of them, and it is refused exactly when some path is
    longer than 100 bytes in UTF-8. *)
Theorem tar_is_whole_blocks entries :
  Forall (fun e => Forall byte_ok (te_bytes e)) entries ->
  match buildTar entries with
  | Ok out => Forall byte_ok out /\ (length out mod BLOCK = 0)%nat /\
              Forall (fun e => (utf8_length (te_path e) <= 100)%nat) entries
  | Err _ => Exists (fun e => (100 < utf8_length (te_path e))%nat) entries
  end.
Proof.
  intros H. unfold buildTar.
  enough (match buildChunks entries with
    | Ok out => Forall byte_ok out /\ (length out mod BLOCK = 0)%nat /\
                Forall (fun e => (utf8_length (te_path e) <= 100)%nat) entries
    | Err _ => Exists (fun e => (100 < utf8_length (te_path e))%nat) entries
    end) as Hc.
  { destruct (buildChunks entries) as [out|]; [|done]. destruct Hc as (H1 & H2 & H3).
    split_and!; [|rewrite length_app, length_replicate|done].
    - apply Forall_app. split; [done|by apply Forall_replicate].
    - by rewrite <- Nat.Div0.add_mod_idemp_l, H2. }
  induction H as [|e entries He _ IH]; cbn [buildChunks]; [by repeat split; constructor|].
  destruct (Nat.ltb_spec 100 (utf8_length (te_path e))) as [Hlt|Hge]; [by constructor|].
  destruct (buildChunks entries) as [chunks|err]; [|by apply Exists_cons_tl].
  destruct IH as (H1 & H2 & H3). destruct (headerOf_block e) as [Hh1 Hh2].
  destruct (padding_block (te_bytes e)) as [Hp1 Hp2]. split_and!; [| |by constructor].
  - repeat (apply Forall_app; split); done.
  - rewrite !length_app, Hh2, (Nat.add_assoc (length (te_bytes e))).
    rewrite <- Nat.Div0.add_mod_idemp_r, <- (Nat.Div0.add_mod_idemp_r (_ + _)), H2.
    rewrite Nat.add_0_r, Hp1. done.
Qed.

(** ** Witnesses *)

Definition w_entries : list TarEntry :=
  [mkTarEntry "scenario/main.md" [35; 32; 72; 105; 10]; mkTarEntry "empty" []].

Lemma tar_round_trip_witness :
  exists out, buildTar w_entries = Ok out /\ length out = 2560%nat /\
    readTar 3 out = Some [(codes "scenario/main.md", [35; 32; 72; 105; 10]); (codes "empty", [])].
Proof.
  destruct (tar_round_trip w_entries) as (out & Hb & Hr).
  { repeat constructor; vm_compute; try discriminate; try reflexivity. }
  exists out. split; [exact Hb|]. split; [|exact Hr].
  vm_compute in Hb. injection Hb as <-. reflexivity.
Defined.

Lemma tar_is_whole_blocks_witness :
  exists out, buildTar w_entries = Ok out /\ Forall byte_ok out /\ (length out mod BLOCK = 0)%nat.
Proof.
  assert (H : Forall (fun e => Forall byte_ok (te_bytes e)) w_entries)
    by (repeat constructor; vm_compute; try discriminate; reflexivity).
  pose proof (tar_is_whole_blocks w_entries H) as Ht.
  destruct (buildTar w_entries) as [out|err] eqn:E.
  - exists out. destruct Ht as (H1 & H2 & _). split; [reflexivity|]. split; [exact H1|exact H2].
  - vm_compute in E. discriminate.
Defined.

(** A path with a unit outside ASCII is measured in UTF-8 and written by its char
    codes: the name in the header is not the path's UTF-8. *)
Example tar_name_not_utf8 :
  let path := String (Ascii.ascii_of_nat 233) EmptyString in
  utf8_length path = 2%nat /\ take 2 (headerOf (mkTarEntry path [])) = [233; 0].
Proof. vm_compute. split; reflexivity. Qed.
