(* ===== verification/BuildScheduler.v ===== *)
(** The scheduling rules of image builds (lib/build-scheduler-core.ts): which
    reports a build accepts, which builds may be retried, which builder a build
    goes to, and when a builder counts as lost. *)
From stdpp Require Import base list strings sorting.
From Stdlib Require Import ZArith Lia.
From S2P Require Import Prelude Json RunState Store DesiredState.

Open Scope string_scope.
Open Scope list_scope.
Open Scope Z_scope.

#[export] Instance ImageArchitecture_eq_dec : EqDecision ImageArchitecture.
Proof. solve_decision. Defined.

(** * Data *)

Inductive BuildPhase : Type :=
| ph_queued | ph_fetching_sources | ph_building_base | ph_building | ph_publishing
| ph_uploading_logs | ph_succeeded | ph_failed.
Inductive ImageBuildStatus : Type :=
| st_queued | st_assigned | st_building | st_succeeded | st_failed | st_stale.
#[export] Instance BuildPhase_eq_dec : EqDecision BuildPhase.
Proof. solve_decision. Defined.
#[export] Instance ImageBuildStatus_eq_dec : EqDecision ImageBuildStatus.
Proof. solve_decision. Defined.

Record ImageBuildTimings : Type := mkTimings {
  tm_queuedAt : option Z;
  tm_startedAt : option Z;
  tm_finishedAt : option Z;
  tm_lastReportAt : option Z;
}.

Definition BUILDER_REASSIGN_AFTER_MS : Z := 10 * 60 * 1000.
Definition BUILD_REPORT_STALE_AFTER_MS : Z := 30 * 60 * 1000.
Definition SUPERSEDED_BUILD_ERROR_PREFIX : string := "superseded by bundle ".
Definition BUILDER_BUILD_SLOTS : Z := 2.
Definition PRE_PUBLICATION_BUILD_PHASES : list BuildPhase :=
  [ph_queued; ph_fetching_sources; ph_building_base; ph_building].

(** The measures of [HostCapacityV2] that builders are compared by. *)
Record BuilderCapacity : Type := mkBuilderCapacity {
  bc_schedulable_cpu_millis : Z;
  bc_memory_available_mib : Z;
  bc_disk_available_mib : Z;
}.

Inductive HostRole : Type := role_agent | role_builder.
#[export] Instance HostRole_eq_dec : EqDecision HostRole.
Proof. solve_decision. Defined.

Record BuilderCandidate : Type := mkCandidate {
  bd_hostId : string;
  bd_role : HostRole;
  bd_arch : option ImageArchitecture;
  bd_connected : bool;
  bd_disabled : bool;
  bd_activeBuildCount : Z;
  bd_prePublicationBuildCount : Z;
  bd_sourceCompilePlatform : option string;
  bd_capacity : option BuilderCapacity;
}.

Record DesiredBuildSource : Type := mkBuildSource {
  src_buildId : string;
  src_scenarioId : string;
  src_arch : ImageArchitecture;
  src_rev : string;
  src_contentHash : string;
  src_bundleRef : string;
}.

(** * Phases and statuses *)

Definition buildStatusFromPhase (phase : BuildPhase) : ImageBuildStatus :=
  match phase with
  | ph_queued => st_assigned
  | ph_fetching_sources | ph_building_base | ph_building | ph_publishing | ph_uploading_logs =>
      st_building
  | ph_succeeded => st_succeeded
  | ph_failed => st_failed
  end.

Definition isTerminalBuildPhase (phase : BuildPhase) : bool :=
  bool_decide (phase = ph_succeeded) || bool_decide (phase = ph_failed).

Definition isActiveImageBuild (status : ImageBuildStatus) : bool :=
  bool_decide (status = st_queued) || bool_decide (status = st_assigned)
  || bool_decide (status = st_building).

(** The two sides of a report: the build's row and what the report says. *)
Record ReportIdentity : Type := mkReportIdentity {
  ri_assignedHostId : option string;
  ri_assignedStatus : ImageBuildStatus;
  ri_reportingHostId : string;
  ri_reportHostId : string;
  ri_assignedScenarioId : string;
  ri_reportScenarioId : string;
  ri_assignedContentHash : string;
  ri_reportContentHash : string;
}.

Definition buildReportIdentityMatches (input : ReportIdentity) : bool :=
  bool_decide (ri_assignedHostId input = Some (ri_reportingHostId input))
  && (ri_reportHostId input =s ri_reportingHostId input)
  && (ri_assignedScenarioId input =s ri_reportScenarioId input)
  && (ri_assignedContentHash input =s ri_reportContentHash input).

Definition isBuildReportAcceptingStatus (status : ImageBuildStatus) : bool :=
  bool_decide (status = st_assigned) || bool_decide (status = st_building).

Definition shouldAcceptBuildReport (input : ReportIdentity) : bool :=
  isBuildReportAcceptingStatus (ri_assignedStatus input) && buildReportIdentityMatches input.

Definition shouldAcknowledgeTerminalBuildReport (input : ReportIdentity) (reportPhase : BuildPhase)
  : bool :=
  buildReportIdentityMatches input
  && ((bool_decide (ri_assignedStatus input = st_succeeded) && bool_decide (reportPhase = ph_succeeded))
      || (bool_decide (ri_assignedStatus input = st_failed) && bool_decide (reportPhase = ph_failed))).

Definition shouldSkipExistingBuildForBundle (status : ImageBuildStatus) : bool :=
  bool_decide (status = st_queued) || bool_decide (status = st_assigned)
  || bool_decide (status = st_building) || bool_decide (status = st_succeeded).

(** [error?.startsWith(prefix)], [undefined] being falsy. *)
Definition superseded_error (error : option string) : bool :=
  match error with Some e => String.prefix SUPERSEDED_BUILD_ERROR_PREFIX e | None => false end.

Definition canRetryImageBuild (status : ImageBuildStatus) (error : option string) : bool :=
  bool_decide (status = st_failed)
  || (bool_decide (status = st_stale) && negb (superseded_error error)).

(** * The choice of a builder *)

Section choice.
Context `{Collation}.

Definition metric (f : BuilderCapacity -> Z) (c : BuilderCandidate) : Z :=
  match bd_capacity c with Some k => f k | None => 0 end.

(** The first of the three differences that is not zero. *)
Definition compareBuilderCapacity (left right : BuilderCandidate) : Z :=
  let metrics := [metric bc_schedulable_cpu_millis right - metric bc_schedulable_cpu_millis left;
                  metric bc_memory_available_mib right - metric bc_memory_available_mib left;
                  metric bc_disk_available_mib right - metric bc_disk_available_mib left] in
  nullish (List.find (fun value => negb (value =? 0)) metrics) 0.

Definition builderEligible (arch : ImageArchitecture) (rev : string) (compileDigest : option string)
    (candidate : BuilderCandidate) : bool :=
  let needsDigest := String.prefix "git-" rev in
  bool_decide (bd_role candidate = role_builder) && bd_connected candidate
  && negb (bd_disabled candidate) && bool_decide (bd_arch candidate = Some arch)
  && (bd_prePublicationBuildCount candidate <? BUILDER_BUILD_SLOTS)
  && (negb needsDigest
      || match compileDigest with
         | None => false
         | Some digest => bool_decide (bd_sourceCompilePlatform candidate = Some digest)
         end).

Definition compareBuilders (left right : BuilderCandidate) : Z :=
  let load := bd_activeBuildCount left - bd_activeBuildCount right in
  if negb (load =? 0) then load
  else
    let capacity := compareBuilderCapacity left right in
    if negb (capacity =? 0) then capacity
    else localeCompare (bd_hostId left) (bd_hostId right).

Definition chooseLeastLoadedBuilder (candidates : list BuilderCandidate) (arch : ImageArchitecture)
    (rev : string) (compileDigest : option string) : option BuilderCandidate :=
  hd_error (js_sort (fun left right => compareBuilders left right <=? 0)
              (List.filter (builderEligible arch rev compileDigest) candidates)).
End choice.

Definition desiredBuildFromSource (source : DesiredBuildSource) : DesiredBuild :=
  mkDesiredBuild (src_buildId source) (src_scenarioId source) (src_arch source) (src_rev source)
    (src_contentHash source) (src_bundleRef source).

(** * Lost builders *)

Definition isDisconnectedPastDeadline (connected : bool) (disconnectedAt : option Z) (nowUnixMs : Z)
  : bool :=
  negb connected
  && match disconnectedAt with
     | Some at_ => at_ <=? nowUnixMs - BUILDER_REASSIGN_AFTER_MS
     | None => false
     end.

Definition isSilentBuildingBuild (status : ImageBuildStatus) (updatedAt : Z)
    (timingsJson : ImageBuildTimings) (nowUnixMs : Z) : bool :=
  if negb (bool_decide (status = st_building)) then false
  else nullish (tm_lastReportAt timingsJson) updatedAt <=? nowUnixMs - BUILD_REPORT_STALE_AFTER_MS.

(** * Lemmas *)

Section choice_lemmas.
Context `{Collation}.

Lemma compareBuilders_total l r : compareBuilders l r <= 0 \/ compareBuilders r l <= 0.
Proof.
  pose proof (localeCompare_total (bd_hostId l) (bd_hostId r)).
  unfold compareBuilders, compareBuilderCapacity. cbn [List.find].
  generalize (metric bc_schedulable_cpu_millis l) (metric bc_schedulable_cpu_millis r)
    (metric bc_memory_available_mib l) (metric bc_memory_available_mib r)
    (metric bc_disk_available_mib l) (metric bc_disk_available_mib r)
    (bd_activeBuildCount l) (bd_activeBuildCount r). intros.
  repeat (case_match; reflect_bools; cbn [nullish] in *); lia.
Qed.

(** [compareBuilders] orders by load, then by capacity, then by host id. *)
Lemma compareBuilders_le l r :
  compareBuilders l r <= 0 <->
  let key c := (bd_activeBuildCount c, - metric bc_schedulable_cpu_millis c,
                - metric bc_memory_available_mib c, - metric bc_disk_available_mib c) in
  let '(a1, a2, a3, a4) := key l in
  let '(b1, b2, b3, b4) := key r in
  a1 < b1 \/ a1 = b1 /\ (a2 < b2 \/ a2 = b2 /\ (a3 < b3 \/ a3 = b3 /\
    (a4 < b4 \/ a4 = b4 /\ localeCompare (bd_hostId l) (bd_hostId r) <= 0))).
Proof.
  unfold compareBuilders, compareBuilderCapacity. cbn [List.find].
  generalize (metric bc_schedulable_cpu_millis l) (metric bc_schedulable_cpu_millis r)
    (metric bc_memory_available_mib l) (metric bc_memory_available_mib r)
    (metric bc_disk_available_mib l) (metric bc_disk_available_mib r)
    (bd_activeBuildCount l) (bd_activeBuildCount r). intros. cbv zeta.
  repeat (case_match; reflect_bools; cbn [nullish] in *); lia.
Qed.

Lemma compareBuilders_trans a b c :
  compareBuilders a b <= 0 -> compareBuilders b c <= 0 -> compareBuilders a c <= 0.
Proof.
  rewrite !compareBuilders_le. cbv beta zeta iota.
  pose proof (localeCompare_trans (bd_hostId a) (bd_hostId b) (bd_hostId c)). lia.
Qed.

(** The builder a build goes to is one of the candidates, is eligible (a
    connected, enabled builder of the build's architecture with a free slot and,
    for a [git-] revision, on the current compile digest), and no eligible
    candidate is better by load, capacity and host id; a build gets no builder
    only when no candidate is eligible. *)
Theorem least_loaded_builder_chosen candidates arch rev digest :
  match chooseLeastLoadedBuilder candidates arch rev digest with
  | Some c => In c candidates /\ builderEligible arch rev digest c = true /\
      forall d, In d candidates -> builderEligible arch rev digest d = true ->
                compareBuilders c d <= 0
  | None => forall d, In d candidates -> builderEligible arch rev digest d = false
  end.
Proof.
  unfold chooseLeastLoadedBuilder. set (le := fun l r => compareBuilders l r <=? 0).
  set (el := List.filter (builderEligible arch rev digest) candidates).
  assert (StronglySorted (fun x y => le x y = true) (js_sort le el)) as Hs.
  { apply js_sort_sorted.
    - intros x y. unfold le. rewrite !Z.leb_le. apply compareBuilders_total.
    - intros x y z. unfold le. rewrite !Z.leb_le. apply compareBuilders_trans. }
  assert (forall d, In d (js_sort le el) <-> In d candidates /\ builderEligible arch rev digest d = true) as Hin.
  { intros d. rewrite <- (filter_In _ d candidates). fold el.
    rewrite <- !list_elem_of_In, (js_sort_perm le el). done. }
  destruct (js_sort le el) as [|c rest]; cbn [hd_error].
  - intros d Hd. destruct (builderEligible arch rev digest d) eqn:E; [|done].
    by destruct (proj2 (Hin d) (conj Hd E)).
  - destruct (proj1 (Hin c)) as [H1 H2]; [by left|]. split_and!; [done|done|].
    intros d Hd He. apply StronglySorted_inv in Hs as [_ Hs]. rewrite Forall_forall in Hs.
    destruct (proj2 (Hin d) (conj Hd He)) as [->|Hr].
    + destruct (compareBuilders_total d d); done.
    + apply Z.leb_le, (Hs d). by apply list_elem_of_In.
Qed.
End choice_lemmas.
