(* ===== verification/BuildLock.v ===== *)
(** The coordination locks of image builds (lib/image-build-lock.ts): one row per
    scenario and architecture, held by a random token under a lease. The
    statements on the table take the clock of the Worker that runs them; waiting
    between attempts is the platform's timer. *)
From stdpp Require Import base list strings sorting.
From Stdlib Require Import ZArith Lia.
From S2P Require Import Prelude Json Text RunState Store DesiredState BuildScheduler.

Open Scope string_scope.
Open Scope list_scope.
Open Scope Z_scope.

Definition IMAGE_BUILD_LOCK_LEASE_MS : Z := 120000.
Definition IMAGE_BUILD_LOCK_RENEW_MS : Z := 30000.
Definition IMAGE_BUILD_LOCK_ACQUIRE_TIMEOUT_MS : Z := 30000.
Definition IMAGE_BUILD_LOCK_RETRY_MS : Z := 50.

Record ImageBuildCoordinationKey : Type := mkLockKey {
  lk_scenarioId : string;
  lk_arch : ImageArchitecture;
}.
#[export] Instance ImageBuildCoordinationKey_eq_dec : EqDecision ImageBuildCoordinationKey.
Proof. solve_decision. Defined.

(** [image_build_coordination_locks]. The [key] column is the JSON text of the
    pair, which is the pair's own: the model keeps the pair. *)
Record LockRow : Type := mkLockRow {
  lr_key : ImageBuildCoordinationKey;
  lr_ownerToken : string;
  lr_expiresAt : Z;
  lr_createdAt : Z;
  lr_updatedAt : Z;
}.

Definition lockOf (key : ImageBuildCoordinationKey) (row : LockRow) : bool :=
  bool_decide (lr_key row = key).
Definition leased (token : string) (now : Z) (row : LockRow) : LockRow :=
  mkLockRow (lr_key row) token (now + IMAGE_BUILD_LOCK_LEASE_MS) (lr_createdAt row) now.

(** Insert, or take over a row whose lease is over; whether the returned row
    carries the token. *)
Definition tryAcquireImageBuildLock (key : ImageBuildCoordinationKey) (ownerToken : string) (now : Z)
    (rows : list LockRow) : list LockRow * bool :=
  if existsb (lockOf key) rows then
    let hit row := lockOf key row && (lr_expiresAt row <=? now) in
    (update_where hit (leased ownerToken now) rows, existsb hit rows)
  else
    (rows ++ [mkLockRow key ownerToken (now + IMAGE_BUILD_LOCK_LEASE_MS) now now], true).

(** The statement of both the check and the renewal. *)
Definition assertImageBuildLockHeld (key : ImageBuildCoordinationKey) (ownerToken : string) (now : Z)
    (rows : list LockRow) : list LockRow * bool :=
  let hit row := lockOf key row && ((lr_ownerToken row =s ownerToken) && (now <? lr_expiresAt row)) in
  (update_where hit (leased ownerToken now) rows, existsb hit rows).

Definition releaseImageBuildLock (key : ImageBuildCoordinationKey) (ownerToken : string)
    (rows : list LockRow) : list LockRow :=
  delete_where (fun row => lockOf key row && (lr_ownerToken row =s ownerToken)) rows.

(** Attempts at the times given, until one succeeds or is past the deadline; the
    times end when the caller has given up. [others] is what other requests do to
    the table between two attempts. *)
Fixpoint acquire (others : nat -> list LockRow -> list LockRow) (key : ImageBuildCoordinationKey)
    (ownerToken : string) (acquireDeadline : Z) (times : list Z) (attempt : nat) (rows : list LockRow)
    : list LockRow * bool :=
  match times with
  | [] => (rows, false)
  | now :: later =>
      let '(rows', ok) := tryAcquireImageBuildLock key ownerToken now (others attempt rows) in
      if ok then (rows', true)
      else if acquireDeadline <=? now then (rows', false)
      else acquire others key ownerToken acquireDeadline later (S attempt) rows'
  end.

(** [JSON.stringify([scenarioId, arch])]. *)
Definition coordinationKey (input : ImageBuildCoordinationKey) : string :=
  "[" +:+ quote_json (lk_scenarioId input) +:+ "," +:+ quote_json (archName (lk_arch input)) +:+ "]".

(** The keys a request locks: each once, in collation order. *)
Definition lockOrder `{Collation} (inputs : list ImageBuildCoordinationKey)
    : list ImageBuildCoordinationKey :=
  map snd (js_sort (fun l r => localeCompare (fst l) (fst r) <=? 0)
             (Map_new (map (fun input => (coordinationKey input, input)) inputs))).

(** * Sequences of statements *)

Inductive LockOp : Type :=
| TryAcquire (key : ImageBuildCoordinationKey) (token : string) (now : Z)
| AssertHeld (key : ImageBuildCoordinationKey) (token : string) (now : Z)
| Release (key : ImageBuildCoordinationKey) (token : string).

Definition runOp (op : LockOp) (rows : list LockRow) : list LockRow * bool :=
  match op with
  | TryAcquire key token now => tryAcquireImageBuildLock key token now rows
  | AssertHeld key token now => assertImageBuildLockHeld key token now rows
  | Release key token => (releaseImageBuildLock key token rows, true)
  end.

Fixpoint runOps (ops : list LockOp) (rows : list LockRow) : list LockRow * list bool :=
  match ops with
  | [] => (rows, [])
  | op :: rest =>
      let '(rows', ok) := runOp op rows in
      let '(last, oks) := runOps rest rows' in (last, ok :: oks)
  end.

Definition op_time (op : LockOp) : option Z :=
  match op with TryAcquire _ _ now | AssertHeld _ _ now => Some now | Release _ _ => None end.
(** Whether the statement claims or keeps the lock for a token other than [token]. *)
Definition claims_for_other (key : ImageBuildCoordinationKey) (token : string) (op : LockOp) : bool :=
  match op with
  | TryAcquire k t _ | AssertHeld k t _ => bool_decide (k = key) && negb (t =s token)
  | Release _ _ => false
  end.

(** Statements while the lease of [token], taken at [t], lasts: none is at a time
    outside the lease, and the holder neither releases the lock nor takes it again. *)
Definition during_lease (key : ImageBuildCoordinationKey) (token : string) (t : Z) (op : LockOp) : Prop :=
  (forall now, op_time op = Some now -> t <= now < t + IMAGE_BUILD_LOCK_LEASE_MS) /\
  op <> Release key token.

(** * Lemmas *)

Definition held_until (key : ImageBuildCoordinationKey) (token : string) (e : Z) (rows : list LockRow)
  : Prop :=
  (exists row, In row rows /\ lr_key row = key) /\
  forall row, In row rows -> lr_key row = key -> lr_ownerToken row = token /\ e <= lr_expiresAt row.

Lemma lockOf_spec key row : lockOf key row = true <-> lr_key row = key.
Proof. apply bool_decide_eq_true. Qed.

Lemma update_keeps_held key token e p f rows :
  (forall row, lr_key (f row) = lr_key row) ->
  (forall row, In row rows -> p row = true -> lr_key row = key ->
               lr_ownerToken (f row) = token /\ e <= lr_expiresAt (f row)) ->
  held_until key token e rows -> held_until key token e (update_where p f rows).
Proof.
  intros Hk Hf [(r0 & H0 & K0) Hall]. split.
  - exists (if p r0 then f r0 else r0). split; [by apply (in_map (fun r => if p r then f r else r))|].
    destruct (p r0); [by rewrite Hk|done].
  - intros row (r & <- & Hr)%in_map_iff K. destruct (p r) eqn:E; [|by apply Hall].
    rewrite Hk in K. by apply Hf.
Qed.

Lemma no_hit_update {A} (p : A -> bool) f rows : existsb p rows = false -> update_where p f rows = rows.
Proof.
  intros E. unfold update_where. rewrite <- (map_id rows) at 2. apply map_ext_in. intros r Hr.
  destruct (p r) eqn:Ep; [|done]. assert (existsb p rows = true) by (apply existsb_exists; eauto). congruence.
Qed.

(** One statement keeps the lease, and is refused to everyone else. *)
Lemma runOp_lease key token t op rows :
  held_until key token (t + IMAGE_BUILD_LOCK_LEASE_MS) rows -> during_lease key token t op ->
  held_until key token (t + IMAGE_BUILD_LOCK_LEASE_MS) (fst (runOp op rows)) /\
  (claims_for_other key token op = true -> snd (runOp op rows) = false).
Proof.
  intros Hheld [Ht Hr]. pose proof Hheld as [(r0 & H0 & K0) Hall]. destruct op as [k u now|k u now|k u]; cbn.
  - unfold tryAcquireImageBuildLock. destruct (existsb (lockOf k) rows) eqn:Ex; cbn [fst snd].
    + specialize (Ht now eq_refl). assert (Hno : forall r, In r rows -> lr_key r = key ->
        lockOf k r && (lr_expiresAt r <=? now) = false).
      { intros r Hin K. apply andb_false_iff. right. apply Z.leb_gt.
        destruct (Hall r Hin K). lia. }
      split.
      * apply update_keeps_held; [done| |done]. intros r Hin Hp K. by rewrite (Hno r Hin K) in Hp.
      * intros [Hk _]%andb_true_iff. apply bool_decide_eq_true in Hk as ->.
        apply not_true_iff_false. intros (r & Hin & Hp)%existsb_exists.
        rewrite (Hno r Hin) in Hp; [done|]. apply andb_true_iff in Hp as [Hp _]. by apply lockOf_spec.
    + assert (k <> key) as Hne.
      { intros ->. assert (existsb (lockOf key) rows = true); [|congruence].
        apply existsb_exists. exists r0. by rewrite lockOf_spec. }
      split; [|by rewrite bool_decide_eq_false_2].
      split; [exists r0; split; [by apply in_or_app; left|done]|].
      intros r [Hin|[<-|[]]]%in_app_or K; [by apply Hall|done].
  - specialize (Ht now eq_refl). unfold assertImageBuildLockHeld. cbn [fst snd]. split.
    + apply update_keeps_held; [done| |done]. intros r Hin Hp K. cbn. reflect_bools.
      destruct (Hall r Hin K) as [<- _]. split; [done|lia].
    + intros [Hk Hu]%andb_true_iff. apply bool_decide_eq_true in Hk as ->.
      apply not_true_iff_false. intros (r & Hin & Hp)%existsb_exists. reflect_bools.
      destruct (Hall r Hin) as [E _]; [by apply lockOf_spec|]. congruence.
  - split; [|done]. assert (Hkeep : forall r, In r rows -> lr_key r = key ->
      In r (releaseImageBuildLock k u rows)).
    { intros r Hin K. apply filter_In. split; [done|]. apply negb_true_iff, andb_false_iff.
      destruct (decide (k = key)) as [->|Hne].
      - right. apply String.eqb_neq. intros E. destruct (Hall r Hin K) as [E' _]. congruence.
      - left. apply not_true_iff_false. rewrite lockOf_spec. congruence. }
    split; [exists r0; split; [by apply Hkeep|done]|].
    intros r [Hin _]%filter_In K. by apply Hall.
Qed.

Lemma runOps_lease key token t ops rows :
  held_until key token (t + IMAGE_BUILD_LOCK_LEASE_MS) rows -> Forall (during_lease key token t) ops ->
  held_until key token (t + IMAGE_BUILD_LOCK_LEASE_MS) (fst (runOps ops rows)) /\
  Forall2 (fun op ok => claims_for_other key token op = true -> ok = false) ops (snd (runOps ops rows)).
Proof.
  intros Hh Hops. revert rows Hh. induction Hops as [|op ops Hop Hops IH]; intros rows Hh; cbn [runOps].
  { by split. }
  destruct (runOp_lease key token t op rows Hh Hop) as [H1 H2].
  destruct (runOp op rows) as [rows' ok]. destruct (IH rows' H1) as [I1 I2].
  destruct (runOps ops rows') as [last oks]. split; [done|by constructor].
Qed.

(** Taking the lock, or keeping it, starts a lease. *)
Lemma claim_held key token t rows op :
  op = TryAcquire key token t \/ op = AssertHeld key token t ->
  NoDup (map lr_key rows) -> snd (runOp op rows) = true ->
  held_until key token (t + IMAGE_BUILD_LOCK_LEASE_MS) (fst (runOp op rows)).
Proof.
  intros Hop Hn Hok.
  assert (Hupd : forall p, existsb (fun r => lockOf key r && p r) rows = true ->
    held_until key token (t + IMAGE_BUILD_LOCK_LEASE_MS)
      (update_where (fun r => lockOf key r && p r) (leased token t) rows)).
  { intros p (r & Hin & Hp)%existsb_exists. pose proof Hp as [K%lockOf_spec _]%andb_true_iff.
    split.
    - exists (leased token t r). split; [|done]. apply in_map_iff. exists r. by rewrite Hp.
    - intros r' (r1 & <- & Hin1)%in_map_iff K'.
      assert (r1 = r) as ->.
      { assert (lr_key r1 = key) as K1 by (destruct (lockOf key r1 && p r1); done).
        apply (NoDup_map_inj lr_key rows); congruence. }
      rewrite Hp. by split. }
  destruct Hop as [->| ->]; cbn in *.
  - unfold tryAcquireImageBuildLock in *. destruct (existsb (lockOf key) rows) eqn:Ex; cbn [fst snd] in *.
    + by apply Hupd.
    + split; [eexists; split; [by apply in_or_app; right; left|done]|].
      intros r [Hin|[<-|[]]]%in_app_or K; [|by split].
      assert (existsb (lockOf key) rows = true); [|congruence].
      apply existsb_exists. exists r. by rewrite lockOf_spec.
  - unfold assertImageBuildLockHeld in *. cbn [fst snd] in *.
    by apply (Hupd (fun r => (lr_ownerToken r =s token) && (t <? lr_expiresAt r))).
Qed.

(** A request that took or renewed the lock of a scenario and architecture
    holds it alone for the 120 seconds of the lease: whatever statements other
    requests run at times within the lease, none of them takes or renews the lock
    under another token, and the holder's next check still succeeds. *)
Theorem build_lock_lease_exclusive key token t claim rows ops now :
  claim = TryAcquire key token t \/ claim = AssertHeld key token t ->
  NoDup (map lr_key rows) -> snd (runOp claim rows) = true ->
  Forall (during_lease key token t) ops -> t <= now < t + IMAGE_BUILD_LOCK_LEASE_MS ->
  Forall2 (fun op ok => claims_for_other key token op = true -> ok = false)
    ops (snd (runOps ops (fst (runOp claim rows)))) /\
  snd (assertImageBuildLockHeld key token now (fst (runOps ops (fst (runOp claim rows))))) = true.
Proof.
  intros Hc Hn Hok Hops Hnow.
  destruct (runOps_lease key token t ops _ (claim_held key token t rows claim Hc Hn Hok) Hops)
    as [[(r & Hin & K) Hall] Hr].
  split; [done|]. cbn. apply existsb_exists. exists r. split; [done|].
  destruct (Hall r Hin K) as [Ht He]. rewrite !andb_true_iff, lockOf_spec, String.eqb_eq, Z.ltb_lt.
  split_and!; [done|done|lia].
Qed.

Lemma build_lock_lease_exclusive_witness :
  let key := mkLockKey "web" arch_x86_64 in
  let ops := [TryAcquire key "b" 100; AssertHeld key "b" 200; Release key "b"; TryAcquire key "c" 119999] in
  snd (runOps ops (fst (runOp (TryAcquire key "a" 0) []))) = [false; false; true; false] /\
  snd (assertImageBuildLockHeld key "a" 119999 (fst (runOps ops (fst (runOp (TryAcquire key "a" 0) [])))))
  = true.
Proof.
  intros key ops. split; [reflexivity|].
  apply (build_lock_lease_exclusive key "a" 0 (TryAcquire key "a" 0) [] ops 119999).
  - by left.
  - constructor.
  - reflexivity.
  - subst ops. unfold during_lease, IMAGE_BUILD_LOCK_LEASE_MS.
    repeat (apply Forall_cons; split; [split; [cbn; intros; simplify_eq; lia|done]|]). by apply Forall_nil.
  - unfold IMAGE_BUILD_LOCK_LEASE_MS. lia.
Defined.
