(* ===== verification/BuildStore.v ===== *)
(** The image-build queue (lib/build-scheduler.ts): its tables, each of its SQL
    statements as a function on them, and its operations as programs of
    statements that other requests' statements come between. *)
From stdpp Require Import base list strings sorting.
From Stdlib Require Import ZArith Lia.
From S2P Require Import Prelude Json Text RunState Store DesiredState BuildScheduler BuildLock.

Open Scope string_scope.
Open Scope list_scope.
Open Scope Z_scope.

(** * Tables *)

Inductive CatalogChannel : Type := channel_candidate | channel_live.

(** [image_builds]. *)
Record BuildRow : Type := mkBuild {
  ib_id : string;
  ib_organizationId : option string;
  ib_scenarioId : string;
  ib_arch : ImageArchitecture;
  ib_rev : string;
  ib_contentHash : string;
  ib_catalogChannel : CatalogChannel;
  ib_hostId : option string;
  ib_status : ImageBuildStatus;
  ib_phase : BuildPhase;
  ib_attempt : Z;
  ib_error : option string;
  ib_logR2Key : option string;
  ib_artifactsRetiredAt : option Z;
  ib_timingsJson : ImageBuildTimings;
  ib_createdAt : Z;
  ib_updatedAt : Z;
}.

Record BundleScenario : Type := mkBundleScenario {
  bs_scenarioId : string;
  bs_arch : ImageArchitecture;
  bs_contentHash : string;
}.
(** [ImageBuildBundleMeta], the fields the queue reads. *)
Record ImageBuildBundleMeta : Type := mkBundleMeta {
  bm_catalogChannel : option CatalogChannel;
  bm_scenarios : list BundleScenario;
}.

(** [image_build_bundles]. *)
Record BundleRow : Type := mkBundle {
  bn_rev : string;
  bn_organizationId : option string;
  bn_r2Key : string;
  bn_metaJson : ImageBuildBundleMeta;
  bn_createdAt : Z;
  bn_updatedAt : Z;
}.

(** [host_actual_state]: when the host last reported, and what of its report the
    queue reads. *)
Record ActualState : Type := mkActual {
  ac_updatedAt : Z;
  ac_arch : option ImageArchitecture;
  ac_sourceCompilePlatform : option string;
  ac_capacity : option BuilderCapacity;
}.
(** [agent_hosts] joined with [host_actual_state]. *)
Record AgentHost : Type := mkAgentHost {
  ag_row : HostRow;
  ag_connected : bool;
  ag_lastClientHelloAt : option Z;
  ag_disconnectedAt : option Z;
  ag_actual : option ActualState;
}.

(** [scenario_source_commits] and [scenario_sources], the columns read here. *)
Record SourceCommit : Type := mkSourceCommit {
  cm_id : string;
  cm_attempt : Z;
  cm_rev : string;
  cm_validate : bool;
  cm_compiling : bool;
  cm_compileHostId : option string;
}.
Record SourceRow : Type := mkSource {
  so_scopeKey : string;
  so_pokedAt : option Z;
}.

(** [bw_wakes] are the hosts whose runtime object was woken. *)
Record BuildWorld : Type := mkBuildWorld {
  bw_builds : list BuildRow;
  bw_bundles : list BundleRow;
  bw_desired : list DesiredRow;
  bw_hosts : list AgentHost;
  bw_commits : list SourceCommit;
  bw_sources : list SourceRow;
  bw_wakes : list string;
}.
Definition set_builds (w : BuildWorld) rows : BuildWorld :=
  mkBuildWorld rows (bw_bundles w) (bw_desired w) (bw_hosts w) (bw_commits w) (bw_sources w) (bw_wakes w).
Definition set_bundles (w : BuildWorld) rows : BuildWorld :=
  mkBuildWorld (bw_builds w) rows (bw_desired w) (bw_hosts w) (bw_commits w) (bw_sources w) (bw_wakes w).
Definition set_desired (w : BuildWorld) rows : BuildWorld :=
  mkBuildWorld (bw_builds w) (bw_bundles w) rows (bw_hosts w) (bw_commits w) (bw_sources w) (bw_wakes w).
Definition set_sources (w : BuildWorld) rows : BuildWorld :=
  mkBuildWorld (bw_builds w) (bw_bundles w) (bw_desired w) (bw_hosts w) (bw_commits w) rows (bw_wakes w).
Definition set_wakes (w : BuildWorld) hosts : BuildWorld :=
  mkBuildWorld (bw_builds w) (bw_bundles w) (bw_desired w) (bw_hosts w) (bw_commits w) (bw_sources w) hosts.

(** * Programs

    [Stmt] is one statement or one transaction, and everything other requests do
    happens between two of them. [Choose] is an outcome of the platform: a lost
    race, a lost lease, a timeout. [Acquire] waits for a coordination lock. *)
Inductive Prog (A : Type) : Type :=
| Ret (a : A)
| Throw
| Stmt (B : Type) (f : BuildWorld -> B * BuildWorld) (k : B -> Prog A)
| Choose (k : bool -> Prog A)
| Acquire (key : ImageBuildCoordinationKey) (p : Prog A)
| Unlock (key : ImageBuildCoordinationKey) (p : Prog A).
Arguments Ret {A} a.
Arguments Throw {A}.
Arguments Stmt {A B} f k.
Arguments Choose {A} k.
Arguments Acquire {A} key p.
Arguments Unlock {A} key p.

Fixpoint bind {A B} (p : Prog A) (k : A -> Prog B) : Prog B :=
  match p with
  | Ret a => k a
  | Throw => Throw
  | Stmt f next => Stmt f (fun b => bind (next b) k)
  | Choose next => Choose (fun b => bind (next b) k)
  | Acquire key p => Acquire key (bind p k)
  | Unlock key p => Unlock key (bind p k)
  end.
Declare Scope prog_scope.
Delimit Scope prog_scope with prog.
Notation "x <~ p ; k" := (bind p (fun x => k))
  (at level 100, p at next level, right associativity) : prog_scope.
Notation "p ;~ k" := (bind p (fun _ => k)) (at level 100, right associativity) : prog_scope.
Open Scope prog_scope.

Definition select_ {B} (g : BuildWorld -> B) : Prog B := Stmt (fun w => (g w, w)) Ret.
Definition statement {B} (f : BuildWorld -> B * BuildWorld) : Prog B := Stmt f Ret.

(** [for (const x of l) acc = body(x, acc)]. *)
Fixpoint for_each {X S} (l : list X) (body : X -> S -> Prog S) (acc : S) : Prog S :=
  match l with
  | [] => Ret acc
  | x :: rest => acc' <~ body x acc; for_each rest body acc'
  end.

(** [lease.assertHeld()]: throws when the lease was lost. *)
Definition assertHeld : Prog unit := Choose (fun held => if held then Ret () else Throw).

(** The end of a locked section: the lease is checked before its result is
    returned, and the lock is released either way. *)
Fixpoint unlocking {A} (key : ImageBuildCoordinationKey) (p : Prog A) : Prog A :=
  match p with
  | Ret a => Choose (fun held => Unlock key (if held then Ret a else Throw))
  | Throw => Unlock key Throw
  | Stmt f next => Stmt f (fun b => unlocking key (next b))
  | Choose next => Choose (fun b => unlocking key (next b))
  | Acquire k p => Acquire k (unlocking key p)
  | Unlock k p => Unlock k (unlocking key p)
  end.

(** Waiting for the lock may time out. *)
Definition withImageBuildCoordinationLock {A} (key : ImageBuildCoordinationKey) (body : Prog A) : Prog A :=
  Choose (fun in_time => if in_time then Acquire key (unlocking key body) else Throw).

Definition withImageBuildCoordinationLocks {A} `{Collation} (inputs : list ImageBuildCoordinationKey)
    (body : Prog A) : Prog A :=
  foldr withImageBuildCoordinationLock body (lockOrder inputs).

(** ** Running a program alone, with the platform's outcomes all good *)

Fixpoint exec {A} (p : Prog A) (w : BuildWorld) : option A * BuildWorld :=
  match p with
  | Ret a => (Some a, w)
  | Throw => (None, w)
  | Stmt f k => let '(b, w') := f w in exec (k b) w'
  | Choose k => exec (k true) w
  | Acquire _ p | Unlock _ p => exec p w
  end.

(** * Statements on the build table *)

Definition updateBuilds (p : BuildRow -> bool) (f : BuildRow -> BuildRow) (w : BuildWorld)
    : list string * BuildWorld :=
  (map ib_id (List.filter p (bw_builds w)), set_builds w (update_where p f (bw_builds w))).

Definition findBuild (w : BuildWorld) (id : string) : option BuildRow :=
  List.find (fun r => ib_id r =s id) (bw_builds w).
Definition findBundle (w : BuildWorld) (rev : string) : option BundleRow :=
  List.find (fun b => bn_rev b =s rev) (bw_bundles w).

Definition statusIn (l : list ImageBuildStatus) (r : BuildRow) : bool := bool_decide (ib_status r ∈ l).
Definition hostIs (host : string) (r : BuildRow) : bool := bool_decide (ib_hostId r = Some host).
Definition lockKey (r : BuildRow) : ImageBuildCoordinationKey := mkLockKey (ib_scenarioId r) (ib_arch r).

(** [status], [phase], [error] and [hostId] of a row, with [updatedAt]. *)
Definition placed (host : option string) (status : ImageBuildStatus) (phase : BuildPhase)
    (error : option string) (now : Z) (r : BuildRow) : BuildRow :=
  mkBuild (ib_id r) (ib_organizationId r) (ib_scenarioId r) (ib_arch r) (ib_rev r) (ib_contentHash r)
    (ib_catalogChannel r) host status phase (ib_attempt r) error (ib_logR2Key r)
    (ib_artifactsRetiredAt r) (ib_timingsJson r) (ib_createdAt r) now.

(** A row queued anew: no host, attempt, error or log. *)
Definition requeued (rev : string) (org : option string) (channel : CatalogChannel)
    (timings : ImageBuildTimings) (now : Z) (r : BuildRow) : BuildRow :=
  mkBuild (ib_id r) org (ib_scenarioId r) (ib_arch r) rev (ib_contentHash r) channel None st_queued
    ph_queued 0 None None (ib_artifactsRetiredAt r) timings (ib_createdAt r) now.

Definition unretired (now : Z) (r : BuildRow) : BuildRow :=
  mkBuild (ib_id r) (ib_organizationId r) (ib_scenarioId r) (ib_arch r) (ib_rev r) (ib_contentHash r)
    (ib_catalogChannel r) (ib_hostId r) (ib_status r) (ib_phase r) (ib_attempt r) (ib_error r)
    (ib_logR2Key r) None (ib_timingsJson r) (ib_createdAt r) now.

(** * Hosts' desired state and wake-ups *)

Section operations.
Context `{Collation}.

Definition tryWakeHostRuntime (host : string) : Prog unit :=
  statement (fun w => ((), set_wakes w (bw_wakes w ++ [host]))).

Definition desiredDb (w : BuildWorld) : DesiredDb := mkDesiredDb (bw_desired w) (map ag_row (bw_hosts w)).

(** [mutateStoredHostDesiredState] takes effect at its one write, or fails: a
    write that other requests overtake is tried again, at most five times. *)
Definition mutateDesired (host : string) (now : Z) (mutator : HostDesiredState -> HostDesiredState)
    : Prog (result DesiredStateError (HostDesiredState * bool)) :=
  Choose (fun lands =>
    if lands then
      statement (fun w =>
        let '(db, res) := mutateStoredHostDesiredState host now mutator None None
                            (fun _ _ db => db) (fun _ db => db) (desiredDb w) in
        (res, set_desired w (dd_rows db)))
    else Ret (Err lost_version_races)).

Definition or_throw {E A} (p : Prog (result E A)) : Prog A :=
  r <~ p; match r with Ok a => Ret a | Err _ => Throw end.

Definition removeDesiredBuildsFromHost (host : string) (buildIds : list string) (now : Z) (wake : bool)
    : Prog unit :=
  match buildIds with
  | [] => Ret ()
  | _ =>
      or_throw (mutateDesired host now
        (fun draft => foldl (fun d id => fst (removeDesiredBuild d id)) draft buildIds)) ;~
      if wake then tryWakeHostRuntime host else Ret ()
  end.

(** * Queueing a bundle *)

Definition assertBundleRevScope (rev : string) (organizationId : option string) : Prog unit :=
  owner <~ select_ (fun w => findBundle w rev);
  match owner with
  | Some b => if bool_decide (bn_organizationId b = organizationId) then Ret () else Throw
  | None => Ret ()
  end.

(** The upsert of the bundle: whether a row came back. *)
Definition upsertBundle (rev r2Key : string) (organizationId : option string)
    (meta : ImageBuildBundleMeta) (now : Z) (w : BuildWorld) : bool * BuildWorld :=
  match findBundle w rev with
  | None => (true, set_bundles w (bw_bundles w ++ [mkBundle rev organizationId r2Key meta now now]))
  | Some b =>
      if bool_decide (bn_organizationId b = organizationId) then
        (true, set_bundles w (update_where (fun b => bn_rev b =s rev)
           (fun b => mkBundle rev organizationId r2Key meta (bn_createdAt b) now) (bw_bundles w)))
      else (false, w)
  end.

Record QueueInput : Type := mkQueueInput {
  qi_scenarioId : string;
  qi_arch : ImageArchitecture;
  qi_contentHash : string;
  qi_rev : string;
  qi_organizationId : option string;
  qi_catalogChannel : CatalogChannel;
  qi_nowUnixMs : Z;
}.

(** The rows of the input's scenario, architecture and scope. *)
Definition inScope (input : QueueInput) (r : BuildRow) : bool :=
  (ib_scenarioId r =s qi_scenarioId input)
  && (if truthy_opt (qi_organizationId input)
      then bool_decide (ib_organizationId r = qi_organizationId input)
      else bool_decide (ib_organizationId r = None))
  && bool_decide (ib_arch r = qi_arch input).

Definition supersessionCleanupBuildIds (input : QueueInput) (r : BuildRow) : bool :=
  let same := ib_contentHash r =s qi_contentHash input in
  inScope input r
  && ((negb same && statusIn [st_queued; st_assigned; st_building; st_stale] r)
      || (same && statusIn [st_queued; st_failed; st_stale] r)).

Definition mentions (ids : list string) (d : DesiredBuild) : bool := bool_decide (db_build_id d ∈ ids).

Definition cleanedRow (ids : list string) (now : Z) (row : DesiredRow) : DesiredRow :=
  let d := dr_docJson row in
  mkDesiredRow (dr_hostId row) (dr_version row + 1)
    (mkDesiredState (ds_schema_version d) (ds_host_id d) (ds_scope d) (ds_owner_user_id d)
       (dr_version row + 1) now (ds_cached_images d) (ds_cached_guest_tools d) (ds_vms d)
       (List.filter (fun b => negb (mentions ids b)) (ds_builds d)) (ds_source_compiles d))
    (dr_createdAt row) now.

Definition needsCleaning (ids : list string) (row : DesiredRow) : bool :=
  existsb (mentions ids) (ds_builds (dr_docJson row)).

Definition retires (input : QueueInput) (r : BuildRow) : bool :=
  inScope input r && negb (ib_contentHash r =s qi_contentHash input)
  && statusIn [st_queued; st_assigned; st_building; st_failed; st_stale] r.

Definition sameIdentity (input : QueueInput) (r : BuildRow) : bool :=
  (ib_scenarioId r =s qi_scenarioId input) && bool_decide (ib_arch r = qi_arch input)
  && (ib_contentHash r =s qi_contentHash input).

Definition revivable (r : BuildRow) : bool :=
  statusIn [st_failed; st_stale] r || bool_decide (ib_artifactsRetiredAt r <> None).

Definition queueTimings (now : Z) : ImageBuildTimings := mkTimings (Some now) None None None.

Definition newBuild (input : QueueInput) (id : string) : BuildRow :=
  mkBuild id (qi_organizationId input) (qi_scenarioId input) (qi_arch input) (qi_rev input)
    (qi_contentHash input) (qi_catalogChannel input) None st_queued ph_queued 0 None None None
    (queueTimings (qi_nowUnixMs input)) (qi_nowUnixMs input) (qi_nowUnixMs input).

Definition retireRow (input : QueueInput) (r : BuildRow) : BuildRow :=
  placed (ib_hostId r) st_stale (ib_phase r)
    (Some (SUPERSEDED_BUILD_ERROR_PREFIX +:+ qi_rev input)) (qi_nowUnixMs input) r.
Definition reviveRow (input : QueueInput) : BuildRow -> BuildRow :=
  requeued (qi_rev input) (qi_organizationId input) (qi_catalogChannel input)
    (queueTimings (qi_nowUnixMs input)) (qi_nowUnixMs input).

(** The transaction: desired-state cleanup, retirement, insertion or revival. A
    new id that is taken already violates the primary key and changes nothing. *)
Definition queueBatch (input : QueueInput) (newId : string) (w : BuildWorld)
    : option (list string * list string) * BuildWorld :=
  let now := qi_nowUnixMs input in
  let cleanup := map ib_id (List.filter (supersessionCleanupBuildIds input) (bw_builds w)) in
  let dirty := List.filter (needsCleaning cleanup) (bw_desired w) in
  let desired := update_where (needsCleaning cleanup) (cleanedRow cleanup now) (bw_desired w) in
  let retired := update_where (retires input) (retireRow input) (bw_builds w) in
  let hit r := sameIdentity input r && revivable r in
  if existsb (fun r => ib_id r =s newId) (bw_builds w) then (None, w)
  else if existsb (sameIdentity input) retired then
    (Some (map dr_hostId dirty, map ib_id (List.filter hit retired)),
     set_builds (set_desired w desired) (update_where hit (reviveRow input) retired))
  else
    (Some (map dr_hostId dirty, [newId]),
     set_builds (set_desired w desired) (retired ++ [newBuild input newId])).

Definition queueImageBuildScenario (input : QueueInput) (newId : string)
    : Prog (Z * list string) :=
  rows <~ statement (queueBatch input newId);
  match rows with
  | None => Throw
  | Some (cleanedHosts, queuedIds) =>
      (if bool_decide (queuedIds = []) then Ret []
       else statement (updateBuilds
              (fun r => bool_decide (ib_id r ∈ queuedIds)
                        && bool_decide (ib_artifactsRetiredAt r <> None))
              (unretired (qi_nowUnixMs input)))) ;~
      Ret (Z.of_nat (length queuedIds), cleanedHosts)
  end.

Definition queueOne (createAppId : nat -> string) (rev : string) (meta : ImageBuildBundleMeta)
    (organizationId : option string) (now : Z) (item : nat * BundleScenario) (queued : Z) : Prog Z :=
  let scenario := snd item in
  result <~ withImageBuildCoordinationLock
    (mkLockKey (bs_scenarioId scenario) (bs_arch scenario))
    (queueImageBuildScenario
       (mkQueueInput (bs_scenarioId scenario) (bs_arch scenario) (bs_contentHash scenario) rev
          organizationId (nullish (bm_catalogChannel meta) channel_live) now)
       (createAppId (fst item)));
  for_each (snd result) (fun host _ => tryWakeHostRuntime host) () ;~
  Ret (queued + fst result).

(** [createAppId] is the id of the n-th scenario's new row. *)
Definition queueImageBuildsFromBundle (createAppId : nat -> string) (rev r2Key : string)
    (meta : ImageBuildBundleMeta) (organizationId : option string) (now : Z) : Prog Z :=
  bundle <~ statement (upsertBundle rev r2Key organizationId meta now);
  if negb bundle then Throw
  else for_each (imap pair (bm_scenarios meta)) (queueOne createAppId rev meta organizationId now) 0.

(** * Builders and the queue *)

Inductive HostHealth : Type := health_healthy | health_degraded | health_unknown.
#[export] Instance HostHealth_eq_dec : EqDecision HostHealth.
Proof. solve_decision. Defined.
Definition HOST_DEGRADED_AFTER_MS : Z := 60000.
Definition hostHealth (observedAtUnixMs : option Z) (nowUnixMs : Z) : HostHealth :=
  match observedAtUnixMs with
  | None => health_unknown
  | Some at_ => if HOST_DEGRADED_AFTER_MS <? nowUnixMs - at_ then health_degraded else health_healthy
  end.

Definition isActive (r : BuildRow) : bool := statusIn [st_assigned; st_building] r.
(** A row that holds a build worker of [host]. *)
Definition holdsSlot (host : string) (r : BuildRow) : bool :=
  hostIs host r && isActive r && bool_decide (ib_phase r ∈ PRE_PUBLICATION_BUILD_PHASES).

(** The query of hosts: platform builders with their reported state. *)
Definition platformBuilders (w : BuildWorld) : list AgentHost :=
  List.filter (fun h => (ah_role (ag_row h) =s "builder")
                        && bool_decide (ah_scope (ag_row h) = scope_platform)) (bw_hosts w).
(** The query of builds: host and phase of the active ones. *)
Definition activeBuilds (w : BuildWorld) : list (option string * BuildPhase) :=
  map (fun r => (ib_hostId r, ib_phase r)) (List.filter isActive (bw_builds w)).

Definition builderConnected (now : Z) (h : AgentHost) : bool :=
  ag_connected h && truthy_opt (ah_activeSessionId (ag_row h))
  && match ag_actual h, ag_lastClientHelloAt h with
     | Some actual, Some hello =>
         (hello <=? ac_updatedAt actual)
         && bool_decide (hostHealth (Some (ac_updatedAt actual)) now = health_healthy)
     | _, _ => false
     end.

(** How often a host occurs; an empty host id is skipped. *)
Definition countFor (host : string) (builds : list (option string * BuildPhase)) : Z :=
  if truthy host then count_where (fun b => bool_decide (fst b = Some host)) builds else 0.

Definition candidateOf (now : Z) (active : list (option string * BuildPhase)) (h : AgentHost)
    : BuilderCandidate :=
  let host := ah_id (ag_row h) in
  mkCandidate host (if ah_role (ag_row h) =s "builder" then role_builder else role_agent)
    (ag_actual h ≫= ac_arch) (builderConnected now h) (ah_disabled (ag_row h))
    (countFor host active)
    (countFor host (List.filter (fun b => bool_decide (snd b ∈ PRE_PUBLICATION_BUILD_PHASES)) active))
    (ag_actual h ≫= ac_sourceCompilePlatform) (ag_actual h ≫= ac_capacity).

Definition loadBuilderCandidates (now : Z) : Prog (list BuilderCandidate) :=
  hosts <~ select_ platformBuilders;
  active <~ select_ activeBuilds;
  Ret (map (candidateOf now active) hosts).

(** Builds of the row's scope and architecture that are under way. *)
Definition inFlight (w : BuildWorld) (r : BuildRow) : Z :=
  count_where (fun o => bool_decide (ib_organizationId o = ib_organizationId r)
                        && bool_decide (ib_arch o = ib_arch r) && isActive o) (bw_builds w).
(** By age, then by id. *)
Definition older (a b : BuildRow) : bool :=
  (ib_createdAt a <? ib_createdAt b)
  || ((ib_createdAt a =? ib_createdAt b) && str_leb (ib_id a) (ib_id b)).
(** [row_number()] among the rows of the same scope and architecture. *)
Definition rowNumber (rows : list BuildRow) (r : BuildRow) : Z :=
  count_where (fun o => bool_decide (ib_organizationId o = ib_organizationId r)
                        && bool_decide (ib_arch o = ib_arch r) && older o r) rows.

Definition queueLe (w : BuildWorld) (rows : list BuildRow) (a b : BuildRow) : bool :=
  let rank r := inFlight w r + rowNumber rows r in
  (rank a <? rank b) || ((rank a =? rank b) && older a b).

Definition buildSource (w : BuildWorld) (r : BuildRow) : option DesiredBuildSource :=
  b ← findBundle w (ib_rev r);
  Some (mkBuildSource (ib_id r) (ib_scenarioId r) (ib_arch r) (ib_rev r) (ib_contentHash r) (bn_r2Key b)).

Definition queuedBuild (r : BuildRow) : bool :=
  statusIn [st_queued] r && bool_decide (ib_hostId r = None).

(** The queued rows whose bundle exists, in the order they are served. *)
Definition loadQueuedBuildRows (w : BuildWorld) : list DesiredBuildSource :=
  let rows := List.filter (fun r => queuedBuild r && bool_decide (is_Some (findBundle w (ib_rev r))))
                (bw_builds w) in
  omap (buildSource w) (js_sort (queueLe w rows) rows).

(** * Assigning *)

Definition freeSlot (w : BuildWorld) (host : string) : bool :=
  count_where (holdsSlot host) (bw_builds w) <? BUILDER_BUILD_SLOTS.

(** The claim: the row is still queued and the builder still has a slot. *)
Definition claimBuild (id host : string) (now : Z) (w : BuildWorld) : list string * BuildWorld :=
  updateBuilds (fun r => (ib_id r =s id) && queuedBuild r && freeSlot w host)
    (fun r => placed (Some host) st_assigned ph_queued (ib_error r) now r) w.

(** [builder.prePublicationBuildCount += 1], and the load too for an assignment. *)
Definition count_slot (host : string) (load : Z) (c : BuilderCandidate) : BuilderCandidate :=
  if bd_hostId c =s host then
    mkCandidate (bd_hostId c) (bd_role c) (bd_arch c) (bd_connected c) (bd_disabled c)
      (bd_activeBuildCount c + load) (bd_prePublicationBuildCount c + 1) (bd_sourceCompilePlatform c)
      (bd_capacity c)
  else c.

Definition assignOne (now : Z) (compileDigest : option string) (build : DesiredBuildSource)
    (acc : list BuilderCandidate * list (string * string))
    : Prog (list BuilderCandidate * list (string * string)) :=
  let '(builders, assigned) := acc in
  match chooseLeastLoadedBuilder builders (src_arch build) (src_rev build) compileDigest with
  | None => Ret acc
  | Some builder =>
      let host := bd_hostId builder in
      claimed <~ statement (claimBuild (src_buildId build) host now);
      if bool_decide (claimed = []) then Ret (map (count_slot host 0) builders, assigned)
      else
        mutateDesired host now (fun draft => upsertDesiredBuild draft (desiredBuildFromSource build)) ;~
        tryWakeHostRuntime host ;~
        activeAssignment <~ select_ (fun w => existsb
          (fun r => (ib_id r =s src_buildId build) && hostIs host r && isActive r) (bw_builds w));
        if negb activeAssignment then
          removeDesiredBuildsFromHost host [src_buildId build] now true ;~ Ret acc
        else Ret (map (count_slot host 1) builders, assigned ++ [(src_buildId build, host)])
  end.

(** [compileDigest] is [platformCompileDigest] of the deployed base images. *)
Definition assignQueuedImageBuilds (compileDigest : option string) (now : Z)
    : Prog (list (string * string)) :=
  queuedBuilds <~ select_ loadQueuedBuildRows;
  builders <~ loadBuilderCandidates now;
  acc <~ for_each queuedBuilds (assignOne now compileDigest) (builders, []);
  Ret (snd acc).

(** * Retrying *)

Inductive RetryOutcome : Type :=
| retry_not_found
| retry_not_retryable (status : ImageBuildStatus)
| retry_retried (assigned : list (string * string)).

Definition retryRow (now : Z) (r : BuildRow) : BuildRow :=
  requeued (ib_rev r) (ib_organizationId r) (ib_catalogChannel r) (mkTimings (Some now) None None None) now r.

(** The guarded update of a retry: the row as it was read. *)
Definition retryStatement (build : BuildRow) (now : Z) (w : BuildWorld) : list string * BuildWorld :=
  updateBuilds (fun r => (ib_id r =s ib_id build) && bool_decide (ib_status r = ib_status build)
                         && (ib_updatedAt r =? ib_updatedAt build)) (retryRow now) w.

(** The locked section; [None] is a build that was queued again. *)
Definition retryLocked (buildId : string) (now : Z) : Prog (option RetryOutcome) :=
  found <~ select_ (fun w => findBuild w buildId);
  match found with
  | None => Ret (Some retry_not_found)
  | Some build =>
      if negb (canRetryImageBuild (ib_status build) (ib_error build))
      then Ret (Some (retry_not_retryable (ib_status build)))
      else
        (match ib_hostId build with
         | Some host => if truthy host then removeDesiredBuildsFromHost host [buildId] now true else Ret ()
         | None => Ret ()
         end) ;~
        assertHeld ;~
        updated <~ statement (retryStatement build now);
        Ret (if bool_decide (updated = []) then Some (retry_not_retryable (ib_status build)) else None)
  end.

Definition retryImageBuild (compileDigest : option string) (buildId : string) (now : Z)
    : Prog RetryOutcome :=
  identity <~ select_ (fun w => lockKey <$> findBuild w buildId);
  match identity with
  | None => Ret retry_not_found
  | Some key =>
      outcome <~ withImageBuildCoordinationLock key (retryLocked buildId now);
      match outcome with
      | Some o => Ret o
      | None => assigned <~ assignQueuedImageBuilds compileDigest now; Ret (retry_retried assigned)
      end
  end.

(** * Reconciling a host *)

(** A host's active rows with their bundles. *)
Definition hostAssignments (host : string) (w : BuildWorld) : list DesiredBuildSource :=
  omap (buildSource w) (List.filter (fun r => hostIs host r && isActive r) (bw_builds w)).

Definition reconcileAssignedBuildsForHost (host : string) (now : Z) : Prog (list string) :=
  assignments <~ select_ (hostAssignments host);
  match assignments with
  | [] => Ret []
  | _ =>
      before <~ or_throw (statement (fun w =>
        let '(db, res) := loadOrCreateHostDesiredState host now (fun _ db => db) (desiredDb w) in
        (res, set_desired w (dd_rows db))));
      let desiredIds := map db_build_id (ds_builds before) in
      let missingIds := List.filter (fun id => bool_decide (id ∉ desiredIds)) (map src_buildId assignments) in
      match missingIds with
      | [] => Ret []
      | _ =>
          or_throw (mutateDesired host now (fun draft =>
            foldl (fun d a => upsertDesiredBuild d (desiredBuildFromSource a)) draft assignments)) ;~
          activeIds <~ select_ (fun w => map ib_id (List.filter
            (fun r => hostIs host r && isActive r && bool_decide (ib_id r ∈ map src_buildId assignments))
            (bw_builds w)));
          removeDesiredBuildsFromHost host
            (List.filter (fun id => bool_decide (id ∉ activeIds)) (map src_buildId assignments)) now false ;~
          Ret (List.filter (fun id => bool_decide (id ∈ activeIds)) missingIds)
      end
  end.

(** The compiles a host should run: its commits in state [compiling], for the
    architecture it last reported. *)
Definition wantedCompiles (host : string) (w : BuildWorld) : list DesiredSourceCompile :=
  let arch := match List.find (fun h => ah_id (ag_row h) =s host) (bw_hosts w) with
              | Some h => match ag_actual h ≫= ac_arch with
                          | Some arch_aarch64 => arch_aarch64
                          | _ => arch_x86_64
                          end
              | None => arch_x86_64
              end in
  sortBy sc_compile_id
    (map (fun c => mkSourceCompile (cm_id c) (cm_attempt c) (cm_rev c) (cm_validate c) arch)
       (List.filter (fun c => bool_decide (cm_compileHostId c = Some host) && cm_compiling c) (bw_commits w))).

#[local] Instance DesiredSourceCompile_eq_dec : EqDecision DesiredSourceCompile.
Proof. solve_decision. Defined.

Definition reconcileHostSourceCompiles (host : string) (now : Z) : Prog bool :=
  wanted <~ select_ (wantedCompiles host);
  stored <~ select_ (fun w => match findDesired (desiredDb w) host with
                           | Some row => nullish (ds_source_compiles (dr_docJson row)) []
                           | None => []
                           end);
  if bool_decide (wanted = stored) then Ret false
  else
    or_throw (mutateDesired host now (fun draft =>
      mkDesiredState (ds_schema_version draft) (ds_host_id draft) (ds_scope draft)
        (ds_owner_user_id draft) (ds_version draft) (ds_generated_at_unix_ms draft)
        (ds_cached_images draft) (ds_cached_guest_tools draft) (ds_vms draft) (ds_builds draft)
        (Some wanted))) ;~
    Ret true.

Definition freeSourceCompileBuilders (now : Z) (compileDigest : string) : Prog (list BuilderCandidate) :=
  builders <~ loadBuilderCandidates now;
  busy <~ select_ (fun w => omap cm_compileHostId (List.filter cm_compiling (bw_commits w)));
  Ret (js_sort (fun l r =>
         let load := bd_activeBuildCount l - bd_activeBuildCount r in
         (if load =? 0 then localeCompare (bd_hostId l) (bd_hostId r) else load) <=? 0)
       (List.filter (fun b => bool_decide (bd_role b = role_builder) && bd_connected b
          && negb (bd_disabled b) && bool_decide (bd_sourceCompilePlatform b = Some compileDigest)
          && bool_decide (bd_hostId b ∉ busy)) builders)).

(** * Reports *)

(** [BuildReportV1], the fields the queue reads. *)
Record BuildReport : Type := mkBuildReport {
  br_host_id : string;
  br_build_id : string;
  br_scenario_id : string;
  br_content_hash : string;
  br_observed_at_unix_ms : Z;
  br_phase : BuildPhase;
  br_started_at_unix_ms : option Z;
  br_finished_at_unix_ms : option Z;
  br_attempt : Z;
  br_error : option string;
}.

Definition option_or {A} (a b : option A) : option A := match a with Some _ => a | None => b end.
Definition mergeBuildTimings (current : ImageBuildTimings) (report : BuildReport) : ImageBuildTimings :=
  mkTimings (tm_queuedAt current) (option_or (br_started_at_unix_ms report) (tm_startedAt current))
    (option_or (br_finished_at_unix_ms report) (tm_finishedAt current))
    (Some (br_observed_at_unix_ms report)).

(** The reporting session is the host's current one, of an enabled platform
    builder. *)
Definition currentHost (host sessionId : string) (credentialGeneration : Z) (w : BuildWorld) : bool :=
  existsb (fun h => let r := ag_row h in
    (ah_id r =s host) && bool_decide (ah_scope r = scope_platform) && (ah_role r =s "builder")
    && negb (ah_disabled r) && bool_decide (ah_activeSessionId r = Some sessionId)
    && (ah_credentialGeneration r =? credentialGeneration)) (bw_hosts w).

Definition reportRow (host : string) (report : BuildReport) (timings : ImageBuildTimings) (now : Z)
    (r : BuildRow) : BuildRow :=
  mkBuild (ib_id r) (ib_organizationId r) (ib_scenarioId r) (ib_arch r) (ib_rev r) (ib_contentHash r)
    (ib_catalogChannel r) (Some host) (buildStatusFromPhase (br_phase report)) (br_phase report)
    (br_attempt report) (br_error report) (ib_logR2Key r) (ib_artifactsRetiredAt r) timings
    (ib_createdAt r) now.

Section reports.
Variables (host sessionId : string) (credentialGeneration : Z) (now : Z).

Definition reportStatement (report : BuildReport) (existing : BuildRow) (w : BuildWorld)
    : list string * BuildWorld :=
  updateBuilds (fun r => (ib_id r =s br_build_id report)
      && currentHost host sessionId credentialGeneration w && hostIs host r
      && (ib_scenarioId r =s ib_scenarioId existing) && (ib_contentHash r =s ib_contentHash existing)
      && isActive r)
    (reportRow host report (mergeBuildTimings (ib_timingsJson existing) report) now) w.

Definition reportedRow (id : string) (w : BuildWorld) : option BuildRow :=
  if currentHost host sessionId credentialGeneration w then findBuild w id else None.

Definition reportIdentity (report : BuildReport) (existing : BuildRow) : ReportIdentity :=
  mkReportIdentity (ib_hostId existing) (ib_status existing) host (br_host_id report)
    (ib_scenarioId existing) (br_scenario_id report) (ib_contentHash existing) (br_content_hash report).

Definition reportLocked (report : BuildReport) : Prog (bool * bool) :=
  row <~ select_ (reportedRow (br_build_id report));
  match row with
  | None => Ret (false, false)
  | Some existing =>
      let identity := reportIdentity report existing in
      if shouldAcknowledgeTerminalBuildReport identity (br_phase report) then Ret (false, true)
      else if negb (shouldAcceptBuildReport identity) then Ret (false, false)
      else
        assertHeld ;~
        updated <~ statement (reportStatement report existing);
        let any := negb (bool_decide (updated = [])) in
        Ret (any, any && isTerminalBuildPhase (br_phase report))
  end.

(** Whether the row was updated, and whether the build has ended. *)
Definition recordImageBuildReport (report : BuildReport) : Prog (bool * bool) :=
  identity <~ select_ (fun w => lockKey <$> reportedRow (br_build_id report) w);
  match identity with
  | None => Ret (false, false)
  | Some key => withImageBuildCoordinationLock key (reportLocked report)
  end.

Definition scopeKeyOf (r : BuildRow) : string :=
  match ib_organizationId r with None => "public" | Some o => "organization:" +:+ o end.

(** [LIKE] ignores the case of ASCII letters. *)
Definition pokeSources (ids : list string) (w : BuildWorld) : unit * BuildWorld :=
  let scopes := map scopeKeyOf (List.filter
    (fun r => String.prefix "git-" (toLowerCase (ib_rev r)) && bool_decide (ib_id r ∈ ids)) (bw_builds w)) in
  ((), set_sources w (update_where (fun s => bool_decide (so_scopeKey s ∈ scopes))
         (fun s => mkSource (so_scopeKey s) (Some now)) (bw_sources w))).

Definition recordHostBuildReports (reports : list BuildReport) : Prog (list string) :=
  terminalBuildIds <~ for_each reports (fun report ids =>
    outcome <~ recordImageBuildReport report;
    Ret (if (snd outcome : bool) then ids ++ [br_build_id report] else ids)) [];
  (match terminalBuildIds with [] => Ret () | _ => statement (pokeSources terminalBuildIds) end) ;~
  Ret terminalBuildIds.
End reports.

(** * Lost builders *)

Definition hostLost (host : string) (now : Z) (w : BuildWorld) : bool :=
  match List.find (fun h => ah_id (ag_row h) =s host) (bw_hosts w) with
  | Some h => isDisconnectedPastDeadline (ag_connected h) (ag_disconnectedAt h) now
  | None => false
  end.

Definition rowsOf (host : string) (status : ImageBuildStatus) (w : BuildWorld) : list BuildRow :=
  List.filter (fun r => hostIs host r && statusIn [status] r) (bw_builds w).
Definition onlyIds (ids : list string) (rows : list BuildRow) : list BuildRow :=
  List.filter (fun r => bool_decide (ib_id r ∈ ids)) rows.

Definition requeueStatement (host : string) (ids : list string) (now : Z) : BuildWorld -> list string * BuildWorld :=
  updateBuilds (fun r => hostIs host r && statusIn [st_assigned] r && bool_decide (ib_id r ∈ ids))
    (placed None st_queued ph_queued (Some "builder disconnected before starting build") now).

Definition requeueAssignedBuildsForDisconnectedHost (host : string) (now : Z) : Prog (list string) :=
  lost <~ select_ (hostLost host now);
  if negb lost then Ret []
  else
    candidates <~ select_ (rowsOf host st_assigned);
    match candidates with
    | [] => Ret []
    | _ =>
        buildIds <~ withImageBuildCoordinationLocks (map lockKey candidates)
          (lockedLost <~ select_ (hostLost host now);
           if negb lockedLost then Ret []
           else
             lockedRows <~ select_ (fun w => onlyIds (map ib_id candidates) (rowsOf host st_assigned w));
             match lockedRows with
             | [] => Ret []
             | _ =>
                 assertHeld ;~
                 updatedIds <~ statement (requeueStatement host (map ib_id lockedRows) now);
                 removeDesiredBuildsFromHost host updatedIds now false ;~
                 Ret updatedIds
             end);
        (match buildIds with [] => Ret () | _ => tryWakeHostRuntime host end) ;~
        Ret buildIds
    end.

Definition silent (now : Z) (r : BuildRow) : bool :=
  isSilentBuildingBuild (ib_status r) (ib_updatedAt r) (ib_timingsJson r) now.

Definition staleStatement (host : string) (ids : list string) (now : Z) : BuildWorld -> list string * BuildWorld :=
  updateBuilds (fun r => hostIs host r && statusIn [st_building] r && bool_decide (ib_id r ∈ ids))
    (fun r => placed (ib_hostId r) st_stale (ib_phase r)
                (Some "builder stopped reporting build progress") now r).

Definition markSilentBuildingBuildsStale (host : string) (now : Z) : Prog (list string) :=
  rows <~ select_ (rowsOf host st_building);
  let candidates := List.filter (silent now) rows in
  match candidates with
  | [] => Ret []
  | _ =>
      staleIds <~ withImageBuildCoordinationLocks (map lockKey candidates)
        (lockedRows <~ select_ (fun w => onlyIds (map ib_id candidates) (rowsOf host st_building w));
         match map ib_id (List.filter (silent now) lockedRows) with
         | [] => Ret []
         | lockedStaleIds =>
             assertHeld ;~
             updatedIds <~ statement (staleStatement host lockedStaleIds now);
             removeDesiredBuildsFromHost host updatedIds now false ;~
             Ret updatedIds
         end);
      (match staleIds with [] => Ret () | _ => tryWakeHostRuntime host end) ;~
      Ret staleIds
  end.

Record Maintenance : Type := mkMaintenance {
  mt_requeuedAssignedBuildIds : list string;
  mt_staleBuildIds : list string;
  mt_reassigned : list (string * string);
  mt_reconciledDesiredBuildIds : list string;
}.

(** The first two run at the same time in the code; here one after the other. As
    requests of the system ([BuildQueue]) each of them also runs on its own. *)
Definition maintainHostBuildAssignments (compileDigest : option string) (host : string) (now : Z)
    : Prog Maintenance :=
  requeued_ <~ requeueAssignedBuildsForDisconnectedHost host now;
  stale <~ markSilentBuildingBuildsStale host now;
  reassigned <~ assignQueuedImageBuilds compileDigest now;
  reconciled <~ reconcileAssignedBuildsForHost host now;
  reconcileHostSourceCompiles host now ;~
  Ret (mkMaintenance requeued_ stale reassigned reconciled).
End operations.

(** * Other writers of the build table *)

(** Revoking a platform host fails its builds (lib/platform-host-revocation.ts). *)
Definition revokeHostBuilds (host : string) (now : Z) (w : BuildWorld) : BuildWorld :=
  snd (updateBuilds (fun r => hostIs host r && isActive r)
         (fun r => placed (ib_hostId r) st_failed ph_failed (Some "Platform host access was revoked.") now r) w).

(** Purging a scope's scenario source stops its queued builds
    (lib/scenario-source-purge.ts). *)
Definition purgeQueuedBuilds (org : string) (now : Z) (w : BuildWorld) : BuildWorld :=
  snd (updateBuilds (fun r => bool_decide (ib_organizationId r = Some org) && statusIn [st_queued] r)
         (fun r => placed (ib_hostId r) st_stale (ib_phase r) (Some "purged") now r) w).

(** A builder's log upload (control-plane/image-registry/agent.ts). *)
Definition recordBuildLog (id host key : string) (now : Z) (w : BuildWorld) : BuildWorld :=
  snd (updateBuilds (fun r => (ib_id r =s id) && hostIs host r)
         (fun r => mkBuild (ib_id r) (ib_organizationId r) (ib_scenarioId r) (ib_arch r) (ib_rev r)
            (ib_contentHash r) (ib_catalogChannel r) (ib_hostId r) (ib_status r) (ib_phase r)
            (ib_attempt r) (ib_error r) (Some key) (ib_artifactsRetiredAt r) (ib_timingsJson r)
            (ib_createdAt r) now) w).

(** Retention retires builds and takes them back (lib/image-artifact-retention.ts). *)
Definition retireBuilds (ids : list string) (now : Z) (w : BuildWorld) : BuildWorld :=
  snd (updateBuilds (fun r => bool_decide (ib_artifactsRetiredAt r = None) && bool_decide (ib_id r ∈ ids))
         (fun r => mkBuild (ib_id r) (ib_organizationId r) (ib_scenarioId r) (ib_arch r) (ib_rev r)
            (ib_contentHash r) (ib_catalogChannel r) (ib_hostId r) (ib_status r) (ib_phase r)
            (ib_attempt r) (ib_error r) (ib_logR2Key r) (Some now) (ib_timingsJson r)
            (ib_createdAt r) now) w).
Definition activateBuilds (ids : list string) (now : Z) (w : BuildWorld) : BuildWorld :=
  snd (updateBuilds (fun r => bool_decide (ib_id r ∈ ids)) (unretired now) w).
