(* ===== verification/BuildQueue.v ===== *)
(** Concurrent requests on the image-build queue: any number of the programs of
    [BuildStore] run at once, one statement at a time in any order, beside the
    other writers of the build table. The coordination locks exclude each other
    as long as leases last ([BuildLock.build_lock_lease_exclusive]).

    An invariant of every such run, promised by the code's comments: a builder
    never holds more than its two build slots. *)
From stdpp Require Import base list strings relations.
From Stdlib Require Import ZArith Lia.
From S2P Require Import Prelude Json Text RunState Store DesiredState BuildScheduler BuildLock BuildStore.

Open Scope string_scope.
Open Scope list_scope.
Open Scope Z_scope.
Open Scope prog_scope.

(** * The system *)

(** A bundle's scope is the platform or an organization with an id. *)
Definition scope_ok (org : option string) : Prop := org <> Some "".

Definition ignore {A} (p : Prog A) : Prog unit := p ;~ Ret ().

(** The requests of the queue. *)
Inductive request `{Collation} : Prog unit -> Prop :=
| rq_queue ids rev key meta org now : scope_ok org ->
    request (ignore (queueImageBuildsFromBundle ids rev key meta org now))
| rq_retry digest id now : request (ignore (retryImageBuild digest id now))
| rq_assign digest now : request (ignore (assignQueuedImageBuilds digest now))
| rq_requeue host now : request (ignore (requeueAssignedBuildsForDisconnectedHost host now))
| rq_silent host now : request (ignore (markSilentBuildingBuildsStale host now))
| rq_reconcile host now : request (ignore (reconcileAssignedBuildsForHost host now))
| rq_maintain digest host now : request (ignore (maintainHostBuildAssignments digest host now))
| rq_compiles host now : request (ignore (reconcileHostSourceCompiles host now))
| rq_reports host session generation now reports :
    request (ignore (recordHostBuildReports host session generation now reports)).

(** What the rest of the system writes: builds only by these statements, every
    other table at will. *)
Inductive other_write : BuildWorld -> BuildWorld -> Prop :=
| ow_revoke w host now : other_write w (revokeHostBuilds host now w)
| ow_purge w org now : other_write w (purgeQueuedBuilds org now w)
| ow_log w id host key now : other_write w (recordBuildLog id host key now w)
| ow_retire w ids now : other_write w (retireBuilds ids now w)
| ow_activate w ids now : other_write w (activateBuilds ids now w)
| ow_elsewhere w w' : bw_builds w' = bw_builds w -> other_write w w'.

(** A request under way: the locks it holds and the rest of its program. *)
Abbreviation Thread := (list ImageBuildCoordinationKey * Prog unit)%type.
Record Config : Type := mkConfig {
  cf_world : BuildWorld;
  cf_threads : list Thread;
}.

Definition unheld (key : ImageBuildCoordinationKey) (held : list ImageBuildCoordinationKey) :=
  List.filter (fun k => bool_decide (k <> key)) held.

Inductive step `{Collation} : Config -> Config -> Prop :=
| step_request w ts p : request p -> step (mkConfig w ts) (mkConfig w (ts ++ [([], p)]))
| step_statement w ts1 ts2 held B (f : BuildWorld -> B * BuildWorld) k :
    step (mkConfig w (ts1 ++ (held, Stmt f k) :: ts2))
         (mkConfig (snd (f w)) (ts1 ++ (held, k (fst (f w))) :: ts2))
| step_outcome w ts1 ts2 held k b :
    step (mkConfig w (ts1 ++ (held, Choose k) :: ts2)) (mkConfig w (ts1 ++ (held, k b) :: ts2))
| step_acquire w ts1 ts2 held key p :
    (forall t, In t (ts1 ++ (held, Acquire key p) :: ts2) -> ~ In key (fst t)) ->
    step (mkConfig w (ts1 ++ (held, Acquire key p) :: ts2)) (mkConfig w (ts1 ++ (key :: held, p) :: ts2))
| step_unlock w ts1 ts2 held key p :
    step (mkConfig w (ts1 ++ (held, Unlock key p) :: ts2)) (mkConfig w (ts1 ++ (unheld key held, p) :: ts2))
| step_end w ts1 ts2 t : step (mkConfig w (ts1 ++ t :: ts2)) (mkConfig w (ts1 ++ ts2))
| step_other w w' ts : other_write w w' -> step (mkConfig w ts) (mkConfig w' ts).

(** * The statements of a program *)

(** Every statement of a program, whatever the ones before it returned, changes
    the world as [R] says. *)
Fixpoint every {A} (R : BuildWorld -> BuildWorld -> Prop) (p : Prog A) : Prop :=
  match p with
  | Ret _ | Throw => True
  | Stmt f k => (forall w, R w (snd (f w))) /\ forall b, every R (k b)
  | Choose k => forall b, every R (k b)
  | Acquire _ p | Unlock _ p => every R p
  end.

(** A program without lock operations. *)
Fixpoint lockfree {A} (p : Prog A) : Prop :=
  match p with
  | Ret _ | Throw => True
  | Stmt f k => forall b, lockfree (k b)
  | Choose k => forall b, lockfree (k b)
  | Acquire _ _ | Unlock _ _ => False
  end.

Definition same_builds (w w' : BuildWorld) : Prop := bw_builds w' = bw_builds w.

Section every.
Context (R : BuildWorld -> BuildWorld -> Prop).

Lemma every_bind {A B} (p : Prog A) (k : A -> Prog B) :
  every R p -> (forall a, every R (k a)) -> every R (bind p k).
Proof.
  intros Hp Hk. induction p as [a| |C f next IH|next IH|key p IH|key p IH]; cbn in *; auto.
  destruct Hp. split; auto.
Qed.

Lemma every_for_each {X S} (l : list X) (body : X -> S -> Prog S) acc :
  (forall x s, every R (body x s)) -> every R (for_each l body acc).
Proof. intros Hb. revert acc. induction l; intros acc; cbn; [done|]. by apply every_bind. Qed.

Lemma every_unlocking {A} key (p : Prog A) : every R p -> every R (unlocking key p).
Proof.
  induction p as [a| |C f next IH|next IH|k p IH|k p IH]; cbn; auto.
  - by intros _ [].
  - intros []. split; auto.
Qed.

Lemma every_lock {A} key (p : Prog A) : every R p -> every R (withImageBuildCoordinationLock key p).
Proof. intros Hp []; cbn; [by apply every_unlocking|done]. Qed.

Lemma every_locks {A} `{Collation} keys (p : Prog A) :
  every R p -> every R (withImageBuildCoordinationLocks keys p).
Proof.
  intros Hp. unfold withImageBuildCoordinationLocks. induction (lockOrder keys); cbn [foldr]; [done|].
  by apply every_lock.
Qed.

Lemma every_held : every R assertHeld.
Proof. by intros []. Qed.

Hypothesis quiet : forall w w', same_builds w w' -> R w w'.

Lemma every_read {B} (g : BuildWorld -> B) : every R (select_ g).
Proof. split; [intros w; by apply quiet|done]. Qed.

Lemma every_wake host : every R (tryWakeHostRuntime host).
Proof. split; [intros w; by apply quiet|done]. Qed.

Lemma every_mutate `{Collation} host now mutator : every R (mutateDesired host now mutator).
Proof.
  intros []; cbn; [|done]. split; [|done]. intros w. apply quiet.
  unfold same_builds. by case_match.
Qed.

Lemma every_or_throw {E A} (p : Prog (result E A)) : every R p -> every R (or_throw p).
Proof. intros Hp. apply every_bind; [done|]. by intros []. Qed.

Lemma every_remove `{Collation} host ids now wake : every R (removeDesiredBuildsFromHost host ids now wake).
Proof.
  unfold removeDesiredBuildsFromHost. destruct ids; [done|]. apply every_bind.
  - apply every_or_throw, every_mutate.
  - intros _. destruct wake; [apply every_wake|done].
Qed.
End every.

(** * The changes of the build table *)

Definition overtaken (r : BuildRow) : bool :=
  bool_decide (ib_status r = st_stale) && superseded_error (ib_error r).

(** A row that is being built or may be queued again. *)
Definition contender (r : BuildRow) : bool :=
  negb (bool_decide (ib_status r = st_succeeded)) && negb (overtaken r).

(** A row keeps its identity, does not come to contend, and is not superseded. *)
Record gentle (r r' : BuildRow) : Prop := {
  g_id : ib_id r' = ib_id r;
  g_org : ib_organizationId r' = ib_organizationId r;
  g_scenario : ib_scenarioId r' = ib_scenarioId r;
  g_arch : ib_arch r' = ib_arch r;
  g_hash : ib_contentHash r' = ib_contentHash r;
  g_contender : contender r' = true -> contender r = true;
  g_superseded : overtaken r' = true -> overtaken r = true;
}.

(** A row that holds a slot was active on the same host. *)
Definition slot_kept (r r' : BuildRow) : Prop :=
  forall host, holdsSlot host r' = true -> hostIs host r = true /\ isActive r = true.

Definition inputKey (input : QueueInput) : ImageBuildCoordinationKey :=
  mkLockKey (qi_scenarioId input) (qi_arch input).

(** How one statement changes the build table, when its request holds the locks
    [held]. A [strict] retry is of a build that no bundle has superseded. *)
Inductive change (held : ImageBuildCoordinationKey -> Prop) (strict : bool) (w w' : BuildWorld) : Prop :=
| ch_rows p f :
    bw_builds w' = update_where p f (bw_builds w) ->
    (forall r, p r = true -> gentle r (f r) /\ slot_kept r (f r)) -> change held strict w w'
| ch_claim id host now :
    bw_builds w' = bw_builds (snd (claimBuild id host now w)) -> change held strict w w'
| ch_queue input newId :
    scope_ok (qi_organizationId input) -> held (inputKey input) ->
    bw_builds w' = bw_builds (snd (queueBatch input newId w)) -> change held strict w w'
| ch_retry build now :
    canRetryImageBuild (ib_status build) (ib_error build) = true ->
    (strict = true -> forall r, In r (bw_builds w) -> ib_id r = ib_id build -> overtaken r = false) ->
    bw_builds w' = bw_builds (snd (retryStatement build now w)) -> change held strict w w'.

Lemma change_quiet held strict w w' : same_builds w w' -> change held strict w w'.
Proof.
  intros E. apply ch_rows with (p := fun _ => false) (f := id); [|done].
  rewrite E. unfold update_where. symmetry. apply map_id.
Qed.

Lemma change_mono (held held' : ImageBuildCoordinationKey -> Prop) strict w w' :
  (forall k, held k -> held' k) -> change held strict w w' -> change held' strict w w'.
Proof. intros Hh []; eauto using change. Qed.

Lemma placed_gentle host status phase error now r :
  contender r = true -> overtaken (placed host status phase error now r) = false ->
  gentle r (placed host status phase error now r).
Proof. intros Hc Hs. by constructor; cbn; rewrite ?Hs. Qed.

Lemma active_contender r : isActive r = true -> contender r = true.
Proof.
  unfold isActive, statusIn, contender, overtaken. rewrite bool_decide_eq_true, !elem_of_cons.
  intros [E|[E|E]]; [by rewrite E..|]. by apply elem_of_nil in E.
Qed.

Lemma status_contender s r :
  s <> st_succeeded -> s <> st_stale -> statusIn [s] r = true -> contender r = true.
Proof.
  unfold statusIn, contender, overtaken. rewrite bool_decide_eq_true, list_elem_of_singleton.
  intros H1 H2 ->. by rewrite !bool_decide_eq_false_2.
Qed.

(** A statement that only moves active rows, or rows of one live status. *)
Lemma change_placed held strict w p host status phase error now :
  (forall r, p r = true -> contender r = true) ->
  (status = st_stale -> forall r, superseded_error (error r) = false) ->
  (forall r, p r = true -> slot_kept r (placed (host r) status (phase r) (error r) now r)) ->
  change held strict w (snd (updateBuilds p (fun r => placed (host r) status (phase r) (error r) now r) w)).
Proof.
  intros Hp He Hs. eapply ch_rows; [reflexivity|]. intros r Hr. split; [|by apply Hs].
  apply placed_gentle; [by apply Hp|]. unfold overtaken. cbn.
  destruct (decide (status = st_stale)) as [->|Hne]; [by rewrite He|by rewrite bool_decide_eq_false_2].
Qed.

(** A row whose new status is not active holds no slot. *)
Lemma slot_kept_idle host status phase error now r :
  isActive (placed host status phase error now r) = false ->
  slot_kept r (placed host status phase error now r).
Proof. intros E h. unfold holdsSlot. by rewrite E, andb_false_r. Qed.

Section changes.
Context (held : ImageBuildCoordinationKey -> Prop) (strict : bool).
Abbreviation change := (change held strict).

Lemma change_requeue host ids now w : change w (snd (requeueStatement host ids now w)).
Proof.
  apply (change_placed held strict w _ (fun _ => None) st_queued (fun _ => ph_queued)
           (fun _ => Some "builder disconnected before starting build")); [|done|].
  - intros r [[_ Hr]%andb_true_iff _]%andb_true_iff. by apply status_contender in Hr.
  - intros r _. by apply slot_kept_idle.
Qed.

Lemma change_stale host ids now w : change w (snd (staleStatement host ids now w)).
Proof.
  apply (change_placed held strict w _ ib_hostId st_stale ib_phase
           (fun _ => Some "builder stopped reporting build progress")); [|done|].
  - intros r [[_ Hr]%andb_true_iff _]%andb_true_iff. by apply status_contender in Hr.
  - intros r _. by apply slot_kept_idle.
Qed.

Lemma change_other w w' : other_write w w' -> change w w'.
Proof.
  destruct 1 as [w host now|w org now|w id host key now|w ids now|w ids now|w w' E].
  - apply (change_placed held strict w _ ib_hostId st_failed (fun _ => ph_failed)); [|done|].
    + intros r [_ Hr]%andb_true_iff. by apply active_contender.
    + intros r _. by apply slot_kept_idle.
  - apply (change_placed held strict w _ ib_hostId st_stale ib_phase (fun _ => Some "purged")); [|done|].
    + intros r [_ Hr]%andb_true_iff. by apply status_contender in Hr.
    + intros r _. by apply slot_kept_idle.
  - eapply ch_rows; [reflexivity|]. intros r _. split; [by constructor|].
    intros h [[Hh Ha]%andb_true_iff _]%andb_true_iff. by split.
  - eapply ch_rows; [reflexivity|]. intros r _. split; [by constructor|].
    intros h [[Hh Ha]%andb_true_iff _]%andb_true_iff. by split.
  - eapply ch_rows; [reflexivity|]. intros r _. split; [by constructor|].
    intros h [[Hh Ha]%andb_true_iff _]%andb_true_iff. by split.
  - by apply change_quiet.
Qed.

Lemma change_unretired p now w : change w (snd (updateBuilds p (unretired now) w)).
Proof.
  eapply ch_rows; [reflexivity|]. intros r _. split; [by constructor|].
  intros h [[Hh Ha]%andb_true_iff _]%andb_true_iff. by split.
Qed.

Lemma change_report host session generation now report existing w :
  change w (snd (reportStatement host session generation now report existing w)).
Proof.
  eapply ch_rows; [reflexivity|]. cbv beta. intros r Hr.
  assert (hostIs host r = true /\ isActive r = true) as [Hh Ha] by (reflect_bools; by split).
  split.
  - constructor; [done..| |].
    + intros _. by apply active_contender.
    + unfold overtaken. cbn. by destruct (br_phase report).
  - intros h Hs. unfold holdsSlot in Hs. apply andb_true_iff in Hs as [[Hh' _]%andb_true_iff _].
    unfold hostIs in *. cbn in Hh'. apply bool_decide_eq_true in Hh, Hh'. split; [|done].
    apply bool_decide_eq_true. congruence.
Qed.
End changes.

(** * The changes of the requests *)

(** Steps through a program: its binds, loops, locks and matches. *)
Ltac every_step :=
  lazymatch goal with
  | |- every _ (bind _ _) => apply every_bind; [|intros ?]
  | |- every _ (for_each _ _ _) => apply every_for_each; intros ? ?
  | |- every _ (withImageBuildCoordinationLock _ _) => apply every_lock
  | |- every _ (withImageBuildCoordinationLocks _ _) => apply every_locks
  | |- every _ (Ret _) => exact I
  | |- every _ Throw => exact I
  | |- every _ assertHeld => apply every_held
  | |- every _ (select_ _) => apply every_read, change_quiet
  | |- every _ (tryWakeHostRuntime _) => apply every_wake, change_quiet
  | |- every _ (mutateDesired _ _ _) => apply every_mutate, change_quiet
  | |- every _ (or_throw _) => apply every_or_throw
  | |- every _ (removeDesiredBuildsFromHost _ _ _ _) => apply every_remove, change_quiet
  | |- every _ (statement _) => split; [intros ?|intros ?; exact I]
  | |- every _ (match ?x with _ => _ end) => destruct x eqn:?
  | |- every _ (let '(_, _) := ?x in _) => destruct x eqn:?
  end.
Ltac every_tac := repeat (cbv beta zeta; every_step).

Section requests.
Context `{Collation} (held : ImageBuildCoordinationKey -> Prop) (strict : bool).
Abbreviation change := (change held strict).

Lemma every_assign digest now : every change (assignQueuedImageBuilds digest now).
Proof.
  unfold assignQueuedImageBuilds, loadBuilderCandidates, assignOne. every_tac. by eapply ch_claim.
Qed.

Lemma every_requeue host now : every change (requeueAssignedBuildsForDisconnectedHost host now).
Proof. unfold requeueAssignedBuildsForDisconnectedHost. every_tac. apply change_requeue. Qed.

Lemma every_silent host now : every change (markSilentBuildingBuildsStale host now).
Proof. unfold markSilentBuildingBuildsStale. every_tac. apply change_stale. Qed.

Lemma every_reconcile host now : every change (reconcileAssignedBuildsForHost host now).
Proof.
  unfold reconcileAssignedBuildsForHost. every_tac.
  apply change_quiet. unfold same_builds. by case_match.
Qed.

Lemma every_compiles host now : every change (reconcileHostSourceCompiles host now).
Proof. unfold reconcileHostSourceCompiles. every_tac. Qed.

Lemma every_maintain digest host now : every change (maintainHostBuildAssignments digest host now).
Proof.
  unfold maintainHostBuildAssignments.
  apply every_bind; [apply every_requeue|intros ?]. apply every_bind; [apply every_silent|intros ?].
  apply every_bind; [apply every_assign|intros ?]. apply every_bind; [apply every_reconcile|intros ?].
  apply every_bind; [apply every_compiles|done].
Qed.

Lemma every_reports host session generation now reports :
  every change (recordHostBuildReports host session generation now reports).
Proof.
  unfold recordHostBuildReports, recordImageBuildReport, reportLocked. every_tac;
    [apply change_report|by apply change_quiet].
Qed.

Lemma every_scenario input newId :
  scope_ok (qi_organizationId input) -> held (inputKey input) ->
  every change (queueImageBuildScenario input newId).
Proof.
  intros Hs Hh. unfold queueImageBuildScenario. every_tac; [by eapply ch_queue|apply change_unretired].
Qed.
End requests.

(** Without regard to locks. *)
Lemma every_request `{Collation} p : request p -> every (change (fun _ => True) false) p.
Proof.
  destruct 1; apply every_bind; try done.
  - unfold queueImageBuildsFromBundle, queueOne. every_tac; [|by apply every_scenario].
    apply change_quiet. unfold same_builds, upsertBundle. by repeat case_match.
  - unfold retryImageBuild, retryLocked. every_tac; [|by apply every_assign].
    eapply ch_retry; [|done|reflexivity]. by apply negb_false_iff.
  - apply every_assign.
  - apply every_requeue.
  - apply every_silent.
  - apply every_reconcile.
  - apply every_maintain.
  - apply every_compiles.
  - apply every_reports.
Qed.

(** * Builder slots *)

Definition unique_ids (w : BuildWorld) : Prop := NoDup (map ib_id (bw_builds w)).
Definition slots_bounded (w : BuildWorld) : Prop :=
  forall host, count_where (holdsSlot host) (bw_builds w) <= BUILDER_BUILD_SLOTS.

(** No build that its builder is publishing goes back to a phase that holds a
    build worker. *)
Definition no_return (w w' : BuildWorld) : Prop :=
  forall host r r', In r (bw_builds w) -> In r' (bw_builds w') -> ib_id r' = ib_id r ->
  hostIs host r = true -> isActive r = true -> holdsSlot host r' = true -> holdsSlot host r = true.

Lemma update_ids p f rows :
  (forall r, p r = true -> ib_id (f r) = ib_id r) -> map ib_id (update_where p f rows) = map ib_id rows.
Proof.
  intros Hf. unfold update_where. rewrite map_map. apply map_ext. intros r.
  destruct (p r) eqn:E; auto.
Qed.

Lemma count_cons {A} (q : A -> bool) x l :
  count_where q (x :: l) = (if q x then 1 else 0) + count_where q l.
Proof. unfold count_where. cbn [List.filter]. destruct (q x); cbn [length]; lia. Qed.

Lemma count_app {A} (q : A -> bool) l l' : count_where q (l ++ l') = count_where q l + count_where q l'.
Proof. unfold count_where. rewrite List.filter_app, length_app. lia. Qed.

Lemma count_update_le {A} (p q : A -> bool) f rows :
  (forall r, In r rows -> p r = true -> q (f r) = true -> q r = true) ->
  count_where q (update_where p f rows) <= count_where q rows.
Proof.
  induction rows as [|r rows IH]; intros Hf; [done|].
  change (update_where p f (r :: rows)) with ((if p r then f r else r) :: update_where p f rows).
  rewrite !count_cons. specialize (IH (fun r' Hr => Hf r' (or_intror Hr))).
  specialize (Hf r (or_introl eq_refl)). destruct (p r); [|lia].
  destruct (q (f r)); [|destruct (q r); lia]. rewrite Hf by done. lia.
Qed.

(** An update of one row adds at most one. *)
Lemma count_update_one (p q : BuildRow -> bool) f rows id :
  NoDup (map ib_id rows) -> (forall r, p r = true -> ib_id r = id) ->
  count_where q (update_where p f rows) <= count_where q rows + 1.
Proof.
  intros Hn Hp. induction rows as [|r rows IH]; [done|].
  apply NoDup_cons in Hn as [Hr Hn]. rewrite list_elem_of_In in Hr.
  change (update_where p f (r :: rows)) with ((if p r then f r else r) :: update_where p f rows).
  rewrite !count_cons. destruct (p r) eqn:E.
  - assert (update_where p f rows = rows) as ->.
    { apply no_hit_update, not_true_iff_false. intros (r' & Hin & Hp')%existsb_exists.
      destruct Hr. apply in_map_iff. exists r'. split; [|done]. by rewrite (Hp r E), (Hp r' Hp'). }
    destruct (q (f r)), (q r); lia.
  - specialize (IH Hn). lia.
Qed.

Lemma queueBatch_ids input newId w :
  unique_ids w -> unique_ids (snd (queueBatch input newId w)).
Proof.
  unfold unique_ids, queueBatch. intros Hn. cbv zeta.
  destruct (existsb (fun r => ib_id r =s newId) (bw_builds w)) eqn:E; [done|].
  case_match; cbn [snd bw_builds set_builds set_desired].
  - by rewrite !update_ids.
  - rewrite map_app, update_ids by done. cbn. apply NoDup_app. split_and!; [done| |repeat constructor; set_solver].
    intros x Hx ->%list_elem_of_singleton. apply list_elem_of_In, in_map_iff in Hx as (r & Er & Hr).
    assert (existsb (fun r => ib_id r =s newId) (bw_builds w) = true); [|congruence].
    apply existsb_exists. exists r. split; [done|]. by apply String.eqb_eq.
Qed.

Lemma change_ids held strict w w' : change held strict w w' -> unique_ids w -> unique_ids w'.
Proof.
  intros Hc Hn. unfold unique_ids.
  destruct Hc as [p f E Hf|id host now E|input newId _ _ E|build now _ _ E]; rewrite E.
  - rewrite update_ids; [done|]. intros r Hr. apply g_id, Hf, Hr.
  - cbn. by rewrite update_ids.
  - by apply queueBatch_ids.
  - cbn. by rewrite update_ids.
Qed.

Lemma idle_no_slot host r : isActive r = false -> holdsSlot host r = false.
Proof. intros E. unfold holdsSlot. by rewrite E, andb_false_r. Qed.

Lemma queueBatch_slots input newId w host :
  count_where (holdsSlot host) (bw_builds (snd (queueBatch input newId w)))
  <= count_where (holdsSlot host) (bw_builds w).
Proof.
  unfold queueBatch. cbv zeta. destruct (existsb (fun r => ib_id r =s newId) (bw_builds w)); [done|].
  assert (count_where (holdsSlot host) (update_where (retires input) (retireRow input) (bw_builds w))
          <= count_where (holdsSlot host) (bw_builds w)) as Hr.
  { apply count_update_le. intros r _ _. by rewrite idle_no_slot. }
  case_match; cbn [snd bw_builds set_builds set_desired].
  - etransitivity; [|exact Hr]. apply count_update_le. intros r _ _. by rewrite idle_no_slot.
  - rewrite count_app, count_cons, idle_no_slot by done. change (count_where _ []) with 0. lia.
Qed.

Lemma claim_slots id host now w h :
  unique_ids w -> slots_bounded w ->
  count_where (holdsSlot h) (bw_builds (snd (claimBuild id host now w))) <= BUILDER_BUILD_SLOTS.
Proof.
  intros Hn Hs. unfold claimBuild. cbn [updateBuilds snd bw_builds set_builds].
  destruct (freeSlot w host) eqn:Hf.
  - unfold freeSlot in Hf. apply Z.ltb_lt in Hf. destruct (decide (h = host)) as [->|Hne].
    + etransitivity; [apply count_update_one with (id := id); [done|]|lia].
      intros r Hp. reflect_bools. done.
    + etransitivity; [|apply (Hs h)]. apply count_update_le. intros r _ _ Hq.
      unfold holdsSlot, hostIs in Hq. cbn in Hq. rewrite bool_decide_eq_false_2 in Hq by congruence. done.
  - rewrite no_hit_update; [apply Hs|]. apply not_true_iff_false.
    intros (r & _ & Hp)%existsb_exists. by rewrite andb_false_r in Hp.
Qed.

Lemma change_slots held strict w w' :
  change held strict w w' -> unique_ids w -> slots_bounded w -> no_return w w' -> slots_bounded w'.
Proof.
  intros Hc Hn Hs Hr host.
  destruct Hc as [p f E Hf|id h now E|input newId _ _ E|build now _ _ E].
  - rewrite E. etransitivity; [|apply (Hs host)]. apply count_update_le. intros r Hin Hp Hq.
    destruct (Hf r Hp) as [Hg Hk]. destruct (Hk host Hq) as [H1 H2].
    apply (Hr host r (f r)); try done; [|by apply g_id]. rewrite E. apply in_map_iff. exists r. by rewrite Hp.
  - rewrite E. by apply claim_slots.
  - rewrite E. etransitivity; [apply queueBatch_slots|apply Hs].
  - rewrite E. etransitivity; [|apply (Hs host)]. apply count_update_le. intros r _ _. by rewrite idle_no_slot.
Qed.

Definition all_threads (P : Thread -> Prop) (ts : list Thread) : Prop := forall t, In t ts -> P t.

Lemma all_threads_split P ts1 t ts2 :
  all_threads P (ts1 ++ t :: ts2) <-> P t /\ all_threads P (ts1 ++ ts2).
Proof.
  unfold all_threads. split.
  - intros Hall. split; [apply Hall, in_elt|]. intros u Hu. apply Hall, in_app_iff.
    apply in_app_iff in Hu as [Hu|Hu]; [by left|by right; right].
  - intros [Ht Hall] u Hu. apply in_app_iff in Hu as [Hu|[->|Hu]];
      [apply Hall, in_app_iff; by left|done|apply Hall, in_app_iff; by right].
Qed.

(** The programs of all requests under way change the table only as [change] says. *)
Lemma step_change `{Collation} c c' :
  let P (t : Thread) := every (change (fun _ => True) false) (snd t) in
  step c c' -> all_threads P (cf_threads c) ->
  all_threads P (cf_threads c') /\ change (fun _ => True) false (cf_world c) (cf_world c').
Proof.
  intros P Hstep.
  destruct Hstep as [w ts p Hp|w ts1 ts2 held B f k|w ts1 ts2 held k b|w ts1 ts2 held key p Hfree
                |w ts1 ts2 held key p|w ts1 ts2 t|w w' ts Ho]; cbn [cf_threads cf_world].
  - intros Hts. split; [|by apply change_quiet]. intros t [Ht|[<-|[]]]%in_app_iff; [by apply Hts|].
    by apply every_request.
  - intros [[Hf Hk] H2]%all_threads_split. split; [|apply Hf]. apply all_threads_split. split; [apply Hk|done].
  - intros [Hk H2]%all_threads_split. split; [|by apply change_quiet]. apply all_threads_split. split; [apply Hk|done].
  - intros [Hk H2]%all_threads_split. split; [|by apply change_quiet]. by apply all_threads_split.
  - intros [Hk H2]%all_threads_split. split; [|by apply change_quiet]. by apply all_threads_split.
  - intros [Hk H2]%all_threads_split. split; [done|by apply change_quiet].
  - intros Hts. split; [done|by apply change_other].
Qed.

(** C29. Concurrent assignment passes never give a builder more than its two build
    slots: from a table within the bound, however requests, reports, lost builders
    and other writers interleave, each builder has at most two builds in a phase
    before publication, provided no build that is being published goes back to
    such a phase. *)
Theorem builder_slots_never_exceeded `{Collation} w c :
  unique_ids w -> slots_bounded w ->
  rtc (fun c c' => step c c' /\ no_return (cf_world c) (cf_world c')) (mkConfig w []) c ->
  slots_bounded (cf_world c).
Proof.
  intros Hn Hs Hrun.
  assert (all_threads (fun t => every (change (fun _ => True) false) (snd t)) (cf_threads (mkConfig w []))) as Ht
    by (intros t []).
  change w with (cf_world (mkConfig w [])) in Hn, Hs. revert Hn Hs Ht.
  induction Hrun as [c|c c1 c2 [Hstep Hr] _ IH]; intros Hn Hs Ht; [done|].
  destruct (step_change c c1 Hstep Ht) as [Ht1 Hc].
  apply IH; [by eapply change_ids|by eapply change_slots|done].
Qed.

(** * Schedules: runs that can be evaluated *)

(** The locks that are held. *)
Fixpoint locks (ts : list Thread) : list ImageBuildCoordinationKey :=
  match ts with [] => [] | (held, _) :: rest => held ++ locks rest end.

Lemma locks_app ts ts' : locks (ts ++ ts') = locks ts ++ locks ts'.
Proof. induction ts as [|[held p] ts IH]; cbn; [done|]. by rewrite IH, app_assoc. Qed.

Lemma in_locks key ts : In key (locks ts) <-> exists t, In t ts /\ In key (fst t).
Proof.
  induction ts as [|[held p] ts IH]; cbn; [split; [done|intros (t & [] & _)]|].
  rewrite in_app_iff, IH. split.
  - intros [Hk|(t & Ht & Hk)]; [by exists (held, p); auto|by exists t; auto].
  - intros (t & [<-|Ht] & Hk); [by left|right; by exists t].
Qed.

Lemma locks_in ts t key : In t ts -> In key (fst t) -> In key (locks ts).
Proof. intros Ht Hk. apply in_locks. eauto. Qed.

(** The thread at position [i] of [ts] takes its next step, [b] being the outcome
    of a [Choose]; one that waits for a lock that is held does nothing. *)
Fixpoint run_thread (i : nat) (b : bool) (w : BuildWorld) (before ts : list Thread) : Config :=
  match ts, i with
  | [], _ => mkConfig w before
  | (held, p) :: rest, O =>
      match p with
      | Ret _ | Throw => mkConfig w (before ++ rest)
      | Stmt f k => mkConfig (snd (f w)) (before ++ (held, k (fst (f w))) :: rest)
      | Choose k => mkConfig w (before ++ (held, k b) :: rest)
      | Acquire key p' =>
          if bool_decide (key ∈ locks (before ++ (held, p) :: rest)) then mkConfig w (before ++ (held, p) :: rest)
          else mkConfig w (before ++ (key :: held, p') :: rest)
      | Unlock key p' => mkConfig w (before ++ (unheld key held, p') :: rest)
      end
  | t :: rest, S i => run_thread i b w (before ++ [t]) rest
  end.
Definition act (i : nat) (b : bool) (c : Config) : Config := run_thread i b (cf_world c) [] (cf_threads c).
Fixpoint run_schedule (l : list (nat * bool)) (c : Config) : Config :=
  match l with [] => c | (i, b) :: rest => run_schedule rest (act i b c) end.

Lemma run_thread_step `{Collation} i b w before ts :
  run_thread i b w before ts = mkConfig w (before ++ ts) \/
  step (mkConfig w (before ++ ts)) (run_thread i b w before ts).
Proof.
  revert i before. induction ts as [|[held p] rest IH]; intros i before.
  { left. rewrite app_nil_r. by destruct i. }
  destruct i as [|i]; cbn [run_thread].
  - destruct p as [a| |B f k|k|key p|key p]; [right; constructor..| |right; constructor].
    case_bool_decide as E; [by left|right]. constructor. intros t Ht Hk. destruct E.
    apply list_elem_of_In. by eapply locks_in.
  - specialize (IH i (before ++ [(held, p)])). rewrite <- !app_assoc in IH. exact IH.
Qed.

Lemma act_step `{Collation} i b c : act i b c = c \/ step c (act i b c).
Proof. destruct c as [w ts]. apply (run_thread_step i b w [] ts). Qed.

Lemma schedule_rtc `{Collation} l c : rtc step c (run_schedule l c).
Proof.
  revert c. induction l as [|[i b] l IH]; intros c; cbn [run_schedule]; [apply rtc_refl|].
  destruct (act_step i b c) as [E|E]; [rewrite E; apply IH|by eapply rtc_l, IH].
Qed.

(** [no_return], decided along a schedule. *)
Definition no_returnb (w w' : BuildWorld) : bool :=
  forallb (fun r => forallb (fun r' =>
    match ib_hostId r with
    | Some host => negb ((ib_id r' =s ib_id r) && isActive r && holdsSlot host r') || holdsSlot host r
    | None => true
    end) (bw_builds w')) (bw_builds w).
Fixpoint schedule_ok (l : list (nat * bool)) (c : Config) : bool :=
  match l with
  | [] => true
  | (i, b) :: rest => no_returnb (cf_world c) (cf_world (act i b c)) && schedule_ok rest (act i b c)
  end.

Lemma no_returnb_spec w w' : no_returnb w w' = true -> no_return w w'.
Proof.
  unfold no_returnb. rewrite forallb_forall. intros Hall host r r' Hr Hr' Ei Hh Ha Hs.
  specialize (Hall r Hr). rewrite forallb_forall in Hall. specialize (Hall r' Hr').
  unfold hostIs in Hh. apply bool_decide_eq_true in Hh. rewrite Hh, Ei, String.eqb_refl, Ha, Hs in Hall. done.
Qed.

Lemma schedule_no_return `{Collation} l c :
  schedule_ok l c = true ->
  rtc (fun c c' => step c c' /\ no_return (cf_world c) (cf_world c')) c (run_schedule l c).
Proof.
  revert c. induction l as [|[i b] l IH]; intros c; cbn [run_schedule schedule_ok]; [intros _; apply rtc_refl|].
  intros [Hb Hl]%andb_true_iff. destruct (act_step i b c) as [E|E].
  - rewrite E in *. by apply IH.
  - eapply rtc_l; [split; [exact E|by apply no_returnb_spec]|by apply IH].
Qed.

(** ** Samples *)

Module BuildSample.
Definition timings : ImageBuildTimings := mkTimings (Some 0) None None None.
Definition build (id scenario hash : string) (status : ImageBuildStatus) (error : option string) (at_ : Z)
    : BuildRow :=
  mkBuild id None scenario arch_x86_64 "rev" hash channel_live None status ph_queued 0 error None None
    timings at_ at_.
Definition host : AgentHost :=
  mkAgentHost (mkHost "builder" scope_platform "builder" (Some "owner") None (Some "session") 1 false)
    true (Some 0) None (Some (mkActual 0 (Some arch_x86_64) None None)).
Definition bundle : BundleRow := mkBundle "rev" None "bundles/rev" (mkBundleMeta None []) 0 0.
Definition world (builds : list BuildRow) : BuildWorld := mkBuildWorld builds [bundle] [] [host] [] [] [].
(** Two passes over three queued builds, one statement of each at a time. *)
Definition queued : BuildWorld :=
  world [build "1" "a" "h" st_queued None 1; build "2" "b" "h" st_queued None 2;
         build "3" "c" "h" st_queued None 3].
Definition turns (n : nat) : list (nat * bool) := map (fun i => (Nat.modulo i 2, true)) (seq 0 n).
(** An upload of a new hash and the retry of the old one. *)
Definition failed : BuildWorld := world [build "1" "a" "old" st_failed (Some "no space") 1].
Definition upload : Prog Z :=
  queueImageBuildsFromBundle (fun _ => "2") "rev2" "bundles/rev2"
    (mkBundleMeta None [mkBundleScenario "a" arch_x86_64 "new"]) None 5.
End BuildSample.

(** Requests start at any time. *)
Lemma start_two `{Collation} w p q c :
  request p -> request q -> rtc step (mkConfig w [([], p); ([], q)]) c -> rtc step (mkConfig w []) c.
Proof.
  intros Hp Hq Hc. eapply rtc_l; [by apply (step_request w [] p)|].
  eapply rtc_l; [by apply (step_request w [([], p)] q)|exact Hc].
Qed.

Lemma builder_slots_never_exceeded_witness :
  let pass := ignore (assignQueuedImageBuilds None 10) in
  let c := run_schedule (BuildSample.turns 60) (mkConfig BuildSample.queued [([], pass); ([], pass)]) in
  map ib_status (bw_builds (cf_world c)) = [st_assigned; st_assigned; st_queued] /\
  count_where (holdsSlot "builder") (bw_builds (cf_world c)) <= BUILDER_BUILD_SLOTS.
Proof.
  intros pass c. split; [vm_compute; reflexivity|].
  apply (builder_slots_never_exceeded BuildSample.queued c).
  - unfold unique_ids. apply (bool_decide_unpack _). vm_compute. done.
  - intros h. vm_compute. done.
  - eapply rtc_l; [split; [apply (step_request _ [] pass), rq_assign|by apply no_returnb_spec]|].
    eapply rtc_l; [split; [apply (step_request _ [([], pass)] pass), rq_assign|by apply no_returnb_spec]|].
    apply schedule_no_return. vm_compute. reflexivity.
Defined.
