(* ===== verification/BuildScope.v ===== *)
(** The other promise of the image-build queue: at most one content hash of a
    scenario, architecture and scope is in progress, in every run of concurrent
    requests. A retry reads a row and updates it later, so its proof carries what
    the request knows while it holds its lock. *)
From stdpp Require Import base list strings relations.
From Stdlib Require Import ZArith Lia.
From S2P Require Import Prelude Json Text RunState Store DesiredState BuildScheduler BuildLock BuildStore BuildQueue.

Open Scope string_scope.
Open Scope list_scope.
Open Scope Z_scope.
Open Scope prog_scope.

(** * One content hash at a time *)

Definition same_scope (r r' : BuildRow) : Prop :=
  ib_organizationId r = ib_organizationId r' /\ lockKey r = lockKey r'.
Definition same_identity (r r' : BuildRow) : Prop :=
  lockKey r = lockKey r' /\ ib_contentHash r = ib_contentHash r'.

(** The unique index, and the promise: of a scope's builds of a scenario and
    architecture at most one is being built or may be queued again. *)
Definition unique_identity (w : BuildWorld) : Prop :=
  forall r r', In r (bw_builds w) -> In r' (bw_builds w) -> same_identity r r' -> ib_id r = ib_id r'.
Definition one_contender (w : BuildWorld) : Prop :=
  forall r r', In r (bw_builds w) -> In r' (bw_builds w) -> contender r = true -> contender r' = true ->
  same_scope r r' -> ib_id r = ib_id r'.
Record queue_ok (w : BuildWorld) : Prop := {
  qo_ids : unique_ids w;
  qo_identity : unique_identity w;
  qo_contender : one_contender w;
}.

Lemma gentle_refl r : gentle r r.
Proof. by constructor. Qed.

Lemma gentle_key r r' : gentle r r' -> lockKey r' = lockKey r.
Proof. intros G. unfold lockKey. by rewrite (g_scenario _ _ G), (g_arch _ _ G). Qed.

(** A table whose rows are gentle images keeps the promise. *)
Lemma gentle_image w w' :
  (forall r', In r' (bw_builds w') -> exists r, In r (bw_builds w) /\ gentle r r') ->
  unique_identity w -> one_contender w -> unique_identity w' /\ one_contender w'.
Proof.
  intros Him Hu Hc. split.
  - intros r1' r2' H1 H2 [K E]. destruct (Him r1' H1) as (r1 & I1 & G1), (Him r2' H2) as (r2 & I2 & G2).
    rewrite (g_id _ _ G1), (g_id _ _ G2). apply Hu; try done. split.
    + by rewrite <- (gentle_key _ _ G1), <- (gentle_key _ _ G2).
    + by rewrite <- (g_hash _ _ G1), <- (g_hash _ _ G2).
  - intros r1' r2' H1 H2 C1 C2 [O K].
    destruct (Him r1' H1) as (r1 & I1 & G1), (Him r2' H2) as (r2 & I2 & G2).
    rewrite (g_id _ _ G1), (g_id _ _ G2). apply Hc; try done; [by eapply g_contender..|]. split.
    + by rewrite <- (g_org _ _ G1), <- (g_org _ _ G2).
    + by rewrite <- (gentle_key _ _ G1), <- (gentle_key _ _ G2).
Qed.

Lemma update_image p f rows r' :
  In r' (update_where p f rows) -> (forall r, In r rows -> p r = true -> gentle r (f r)) ->
  exists r, In r rows /\ gentle r r'.
Proof.
  intros (r & <- & Hr)%in_map_iff Hf. exists r. split; [done|].
  destruct (p r) eqn:E; [by apply Hf|apply gentle_refl].
Qed.

(** What a row of the table after the transaction was before it. *)
Inductive queued_row (input : QueueInput) (newId : string) (rows : list BuildRow) (r' : BuildRow) : Prop :=
| qr_kept : In r' rows -> retires input r' = false -> queued_row input newId rows r'
| qr_retired r : In r rows -> retires input r = true -> r' = retireRow input r ->
    queued_row input newId rows r'
| qr_revived r : In r rows -> sameIdentity input r = true -> r' = reviveRow input r ->
    queued_row input newId rows r'
| qr_new : (forall r, In r rows -> sameIdentity input r = false) ->
    (forall r, In r rows -> ib_id r <> newId) -> r' = newBuild input newId ->
    queued_row input newId rows r'.

Lemma retireRow_identity input r : sameIdentity input (retireRow input r) = sameIdentity input r.
Proof. done. Qed.

Lemma retires_identity input r : retires input r = true -> sameIdentity input r = false.
Proof.
  unfold retires, sameIdentity. intros [[_ Hh]%andb_true_iff _]%andb_true_iff.
  apply negb_true_iff in Hh. by rewrite Hh, andb_false_r.
Qed.

Lemma queueBatch_rows input newId w :
  snd (queueBatch input newId w) = w \/
  forall r', In r' (bw_builds (snd (queueBatch input newId w))) ->
  queued_row input newId (bw_builds w) r'.
Proof.
  unfold queueBatch. cbv zeta.
  destruct (existsb (fun r => ib_id r =s newId) (bw_builds w)) eqn:Hid; [by left|right].
  assert (forall r, In r (bw_builds w) -> ib_id r <> newId) as Hfresh.
  { intros r Hr E. assert (existsb (fun r => ib_id r =s newId) (bw_builds w) = true); [|congruence].
    apply existsb_exists. exists r. by rewrite String.eqb_eq. }
  assert (forall r', In r' (update_where (retires input) (retireRow input) (bw_builds w)) ->
          queued_row input newId (bw_builds w) r' /\
          (sameIdentity input r' = true -> In r' (bw_builds w))) as Hret.
  { intros r' (r & <- & Hr)%in_map_iff. destruct (retires input r) eqn:E.
    - split; [by eapply qr_retired|]. rewrite retireRow_identity, (retires_identity _ _ E). done.
    - split; [by apply qr_kept|done]. }
  destruct (existsb (sameIdentity input) _) eqn:Hex; cbn [snd bw_builds set_builds set_desired].
  - intros r' (r & <- & Hr)%in_map_iff. destruct (sameIdentity input r && revivable r) eqn:E.
    + apply andb_true_iff in E as [E _]. eapply qr_revived; [|done|done]. by apply Hret.
    + by apply Hret.
  - intros r' [Hr|[<-|[]]]%in_app_iff; [by apply Hret|]. apply qr_new; [|done|done].
    intros r Hr. apply not_true_iff_false. intros E.
    assert (existsb (sameIdentity input) (update_where (retires input) (retireRow input) (bw_builds w)) = true);
      [|congruence].
    apply existsb_exists. exists r. split; [|done]. apply in_map_iff. exists r. split; [|done].
    destruct (retires input r) eqn:Er; [|done]. by rewrite (retires_identity _ _ Er) in E.
Qed.

Lemma sameIdentity_spec input r :
  sameIdentity input r = true <-> lockKey r = inputKey input /\ ib_contentHash r = qi_contentHash input.
Proof.
  unfold sameIdentity, lockKey, inputKey. rewrite !andb_true_iff, !String.eqb_eq, bool_decide_eq_true.
  split; [intros [[-> ->] ->]; done|intros [[= -> ->] ->]; done].
Qed.

(** The row a row comes from, unless it is the new one. *)
Lemma queued_row_origin input newId rows r' :
  queued_row input newId rows r' ->
  (exists r, In r rows /\ ib_id r = ib_id r' /\ same_identity r r') \/
  (r' = newBuild input newId /\ forall r, In r rows -> sameIdentity input r = false).
Proof.
  destruct 1 as [Hin _|r Hin _ ->|r Hin _ ->|Hno _ ->]; [left..|right; done];
    eexists; (split; [exact Hin|]); done.
Qed.

Lemma queued_identity input newId w w' :
  (forall r', In r' (bw_builds w') -> queued_row input newId (bw_builds w) r') ->
  unique_identity w -> unique_identity w'.
Proof.
  intros Hq Hu r1 r2 H1 H2 [K E].
  destruct (queued_row_origin _ _ _ _ (Hq r1 H1)) as [(p1 & I1 & <- & K1 & E1)|[-> N1]],
    (queued_row_origin _ _ _ _ (Hq r2 H2)) as [(p2 & I2 & <- & K2 & E2)|[-> N2]]; [| | |done].
  - apply Hu; [done..|]. split; congruence.
  - assert (sameIdentity input p1 = true) as Es; [|by rewrite N2 in Es].
    apply sameIdentity_spec. change (inputKey input) with (lockKey (newBuild input newId)).
    change (qi_contentHash input) with (ib_contentHash (newBuild input newId)). split; congruence.
  - assert (sameIdentity input p2 = true) as Es; [|by rewrite N1 in Es].
    apply sameIdentity_spec. change (inputKey input) with (lockKey (newBuild input newId)).
    change (qi_contentHash input) with (ib_contentHash (newBuild input newId)). split; congruence.
Qed.

(** A retired row no longer contends. *)
Lemma retireRow_superseded input r : overtaken (retireRow input r) = true.
Proof.
  unfold overtaken, retireRow. cbn [placed ib_status ib_error superseded_error].
  rewrite bool_decide_eq_true_2 by done. cbn [andb].
  generalize (qi_rev input). intros s. unfold SUPERSEDED_BUILD_ERROR_PREFIX. by destruct s.
Qed.

(** A contender of the input's scope that the transaction does not retire has the
    input's content hash. *)
Lemma kept_contender input r :
  scope_ok (qi_organizationId input) -> contender r = true ->
  ib_organizationId r = qi_organizationId input -> lockKey r = inputKey input ->
  retires input r = false -> sameIdentity input r = true.
Proof.
  intros Hs Hc Ho K Hr. apply sameIdentity_spec. split; [done|].
  assert (inScope input r = true) as Hi.
  { unfold inScope. unfold lockKey, inputKey in K. injection K as K1 K2.
    rewrite !andb_true_iff. split_and!; [by apply String.eqb_eq| |by apply bool_decide_eq_true].
    rewrite Ho. destruct (qi_organizationId input) as [o|] eqn:E; cbn; [|done].
    unfold truthy. destruct (o =s "") eqn:Eo; cbn; [|by apply bool_decide_eq_true].
    apply String.eqb_eq in Eo as ->. by destruct Hs. }
  unfold retires in Hr. rewrite Hi in Hr. cbn [andb] in Hr. apply andb_false_iff in Hr as [Hr|Hr].
  - apply negb_false_iff, String.eqb_eq in Hr. done.
  - unfold contender in Hc. unfold statusIn in Hr. apply bool_decide_eq_false in Hr.
    apply andb_true_iff in Hc as [Hc _]. apply negb_true_iff, bool_decide_eq_false in Hc.
    destruct Hr. destruct (ib_status r); set_solver.
Qed.

Lemma queued_contender input newId w w' :
  scope_ok (qi_organizationId input) ->
  (forall r', In r' (bw_builds w') -> queued_row input newId (bw_builds w) r') ->
  unique_identity w' -> one_contender w -> one_contender w'.
Proof.
  intros Hs Hq Hu Hc r1 r2 H1 H2 C1 C2 [O K].
  (* a contender is kept, or is the input's own row *)
  assert (Hcase : forall r, In r (bw_builds w') -> contender r = true ->
    In r (bw_builds w) /\ retires input r = false \/
    sameIdentity input r = true /\ ib_organizationId r = qi_organizationId input).
  { intros r Hr Cr. destruct (Hq r Hr) as [Hin Hk|p Hin _ ->|p Hin Hp ->|_ _ ->].
    - by left.
    - unfold contender in Cr. by rewrite retireRow_superseded, andb_false_r in Cr.
    - right. done.
    - right. split; [|done]. by apply sameIdentity_spec. }
  assert (Hboth : forall r r', In r (bw_builds w') -> In r' (bw_builds w') -> contender r = true ->
    same_scope r r' -> In r (bw_builds w) /\ retires input r = false ->
    sameIdentity input r' = true /\ ib_organizationId r' = qi_organizationId input -> ib_id r = ib_id r').
  { intros r r' Hr Hr' Cr [O' K'] [_ Hk] [[K2 E2]%sameIdentity_spec O2].
    assert (sameIdentity input r = true) as [Kr Er]%sameIdentity_spec
      by (apply kept_contender; congruence).
    apply Hu; try done. split; congruence. }
  destruct (Hcase r1 H1 C1) as [[I1 N1]|S1], (Hcase r2 H2 C2) as [[I2 N2]|S2].
  - by apply Hc.
  - by apply Hboth.
  - symmetry. apply Hboth; done.
  - destruct S1 as [[K1 E1]%sameIdentity_spec _], S2 as [[K2 E2]%sameIdentity_spec _].
    apply Hu; try done. split; congruence.
Qed.

Lemma claim_gentle id host now w r :
  (ib_id r =s id) && queuedBuild r && freeSlot w host = true ->
  gentle r (placed (Some host) st_assigned ph_queued (ib_error r) now r).
Proof.
  intros Hp. apply placed_gentle; [|done].
  apply andb_true_iff in Hp as [[_ Hp]%andb_true_iff _]. apply andb_true_iff in Hp as [Hp _].
  by apply status_contender in Hp.
Qed.

Lemma retry_gentle build now r :
  canRetryImageBuild (ib_status build) (ib_error build) = true ->
  ib_status r = ib_status build -> overtaken r = false -> gentle r (retryRow now r).
Proof.
  intros Hr Es Hs. constructor; try done. intros _. unfold contender. rewrite Hs, andb_true_r, Es.
  unfold canRetryImageBuild in Hr. by destruct (ib_status build).
Qed.

(** Every statement with its locks keeps the promise. *)
Lemma change_ok held w w' : change held true w w' -> queue_ok w -> queue_ok w'.
Proof.
  intros Hc [Hn Hu Ho]. pose proof (change_ids _ _ _ _ Hc Hn) as Hn'.
  enough (unique_identity w' /\ one_contender w') as [] by done.
  destruct Hc as [p f E Hf|id host now E|input newId Hs _ E|build now Hr Hsup E].
  - apply (gentle_image w w'); [|done..]. rewrite E. intros r' Hr'.
    eapply update_image; [exact Hr'|]. intros r _ Hp. by apply Hf.
  - apply (gentle_image w w'); [|done..]. rewrite E. intros r' Hr'.
    eapply update_image; [exact Hr'|]. intros r _ Hp. exact (claim_gentle id host now w r Hp).
  - destruct (queueBatch_rows input newId w) as [Es|Hq].
    + rewrite Es in E. apply (gentle_image w w'); [|done..]. rewrite E. eauto using gentle_refl.
    + rewrite <- E in Hq. assert (unique_identity w') by (by eapply queued_identity).
      split; [done|]. by eapply queued_contender.
  - apply (gentle_image w w'); [|done..]. rewrite E. intros r' Hr'.
    eapply update_image; [exact Hr'|]. intros r Hin Hp. cbv beta in Hp.
    apply andb_true_iff in Hp as [[Hi Hst]%andb_true_iff _]. apply String.eqb_eq in Hi.
    apply bool_decide_eq_true in Hst. eapply retry_gentle; [done|done|]. by apply Hsup.
Qed.

(** ** What a request knows while it holds its locks *)

(** Where a row comes from: an older row of the same id and key, superseded only
    under the lock of its key, or a row of a new id. *)
Lemma change_row held w w' r' :
  change held true w w' -> In r' (bw_builds w') ->
  (exists r, In r (bw_builds w) /\ ib_id r = ib_id r' /\ lockKey r = lockKey r' /\
             (overtaken r' = true -> overtaken r = true \/ held (lockKey r))) \/
  (forall r, In r (bw_builds w) -> ib_id r <> ib_id r').
Proof.
  intros Hc Hr'.
  assert (Hgen : (exists r, In r (bw_builds w) /\ gentle r r') -> exists r, In r (bw_builds w) /\
    ib_id r = ib_id r' /\ lockKey r = lockKey r' /\
    (overtaken r' = true -> overtaken r = true \/ held (lockKey r))).
  { intros (r & Hr & G). exists r. rewrite (gentle_key _ _ G), (g_id _ _ G). split_and!; try done.
    intros Hs. left. by apply (g_superseded _ _ G). }
  destruct Hc as [p f E Hf|id host now E|input newId Hs Hh E|build now Hr Hsup E]; rewrite E in Hr'.
  - left. apply Hgen. eapply update_image; [exact Hr'|]. intros r _ Hp. by apply Hf.
  - left. apply Hgen. eapply update_image; [exact Hr'|]. intros r _ Hp. exact (claim_gentle id host now w r Hp).
  - destruct (queueBatch_rows input newId w) as [Es|Hq].
    { rewrite Es in Hr'. left. apply Hgen. eauto using gentle_refl. }
    destruct (Hq r' Hr') as [Hin _|r Hin Hp ->|r Hin Hp ->|_ Hfresh ->].
    + left. apply Hgen. eauto using gentle_refl.
    + left. exists r. split_and!; try done. intros _. right.
      replace (lockKey r) with (inputKey input); [done|].
      unfold retires, inScope in Hp. unfold lockKey, inputKey.
      rewrite !andb_true_iff, String.eqb_eq, !bool_decide_eq_true in Hp.
      destruct Hp as [[[[-> _] ->] _] _]. done.
    + left. exists r. done.
    + right. done.
  - left. apply Hgen. eapply update_image; [exact Hr'|]. intros r Hin Hp. cbv beta in Hp.
    apply andb_true_iff in Hp as [[Hi Hst]%andb_true_iff _]. apply String.eqb_eq in Hi.
    apply bool_decide_eq_true in Hst. eapply retry_gentle; [done|done|]. by apply Hsup.
Qed.

Lemma change_ids_grow held strict w w' id :
  change held strict w w' -> In id (map ib_id (bw_builds w)) -> In id (map ib_id (bw_builds w')).
Proof.
  intros Hc Hin. destruct Hc as [p f E Hf|i host now E|input newId Hs Hh E|build now Hr Hsup E]; rewrite E.
  - rewrite update_ids; [done|]. intros r Hp. apply g_id, Hf, Hp.
  - cbn. by rewrite update_ids.
  - unfold queueBatch. cbv zeta. repeat case_match; cbn [snd bw_builds set_builds set_desired]; [done|..].
    + by rewrite !update_ids.
    + rewrite map_app, update_ids by done. apply in_app_iff. by left.
  - cbn. by rewrite update_ids.
Qed.

Definition Knowledge : Type := BuildWorld -> Prop.

(** Knowledge that no one else can falsify while the locks [held] are held. *)
Definition stable (held : list ImageBuildCoordinationKey) (K : Knowledge) : Prop :=
  forall w w' (others : ImageBuildCoordinationKey -> Prop),
  (forall k, In k held -> ~ others k) -> queue_ok w -> change others true w w' -> K w -> K w'.

(** The row [id] is there, and of this key. *)
Definition knows_key (id : string) (key : ImageBuildCoordinationKey) : Knowledge := fun w =>
  In id (map ib_id (bw_builds w)) /\
  forall r, In r (bw_builds w) -> ib_id r = id -> lockKey r = key.
Definition knows_live (id : string) : Knowledge := fun w =>
  forall r, In r (bw_builds w) -> ib_id r = id -> overtaken r = false.

Lemma knows_key_stable held id key : stable held (knows_key id key).
Proof.
  intros w w' others _ _ Hc [Hin Hall]. split; [by eapply change_ids_grow|].
  intros r' Hr' Hid. destruct (change_row _ _ _ _ Hc Hr') as [(r & Hr & Ei & <- & _)|Hnew].
  - apply Hall; [done|congruence].
  - apply in_map_iff in Hin as (r & Ei & Hr). destruct (Hnew r Hr). congruence.
Qed.

Lemma knows_live_stable held id key :
  In key held -> stable held (fun w => knows_key id key w /\ knows_live id w).
Proof.
  intros Hk w w' others Hd Hok Hc [K1 K2]. split; [by eapply knows_key_stable|].
  destruct K1 as [Hin Hall]. intros r' Hr' Hid.
  destruct (change_row _ _ _ _ Hc Hr') as [(r & Hr & Ei & _ & Hs)|Hnew].
  - apply not_true_iff_false. intros [E|E]%Hs.
    + rewrite K2 in E; [done..|congruence].
    + rewrite (Hall r Hr) in E by congruence. by destruct (Hd key Hk).
  - apply in_map_iff in Hin as (r & Ei & Hr). destruct (Hnew r Hr). congruence.
Qed.

(** A program whose every statement, with what the program knows then, keeps to
    [change] under its locks; [Q] holds of what it ends with. *)
Inductive safe {A} (Q : list ImageBuildCoordinationKey -> Knowledge -> A -> Prop)
  : list ImageBuildCoordinationKey -> Knowledge -> Prog A -> Prop :=
| safe_ret held K a : Q held K a -> safe Q held K (Ret a)
| safe_throw held K : safe Q held K Throw
| safe_stmt held K B (f : BuildWorld -> B * BuildWorld) k (K' : B -> Knowledge) :
    (forall w, queue_ok w -> K w ->
       change (fun key => In key held) true w (snd (f w)) /\ K' (fst (f w)) (snd (f w))) ->
    (forall b, stable held (K' b)) -> (forall b, safe Q held (K' b) (k b)) -> safe Q held K (Stmt f k)
| safe_choose held K k : (forall b, safe Q held K (k b)) -> safe Q held K (Choose k)
| safe_acquire held K key p : safe Q (key :: held) K p -> safe Q held K (Acquire key p)
| safe_unlock held K key p :
    safe Q (unheld key held) (fun _ => True) p -> safe Q held K (Unlock key p).

Lemma safe_inv {A} (Q : _ -> _ -> A -> Prop) held K p :
  safe Q held K p ->
  match p with
  | Ret a => Q held K a
  | Throw => True
  | Stmt f k => exists K' : _ -> Knowledge,
      (forall w, queue_ok w -> K w ->
         change (fun key => In key held) true w (snd (f w)) /\ K' (fst (f w)) (snd (f w))) /\
      (forall b, stable held (K' b)) /\ forall b, safe Q held (K' b) (k b)
  | Choose k => forall b, safe Q held K (k b)
  | Acquire key p => safe Q (key :: held) K p
  | Unlock key p => safe Q (unheld key held) (fun _ => True) p
  end.
Proof. destruct 1; eauto. Qed.

Lemma safe_weaken {A} (Q Q' : _ -> _ -> A -> Prop) held K p :
  (forall h K a, Q h K a -> Q' h K a) -> safe Q held K p -> safe Q' held K p.
Proof. intros HQ. induction 1; eauto using safe. Qed.

Lemma safe_know {A} (Q : _ -> _ -> A -> Prop) held (K K0 : Knowledge) p :
  (forall h (K1 K2 : Knowledge) a, (forall w, K2 w -> K1 w) -> Q h K1 a -> Q h K2 a) ->
  (forall w, K w -> K0 w) -> safe Q held K0 p -> safe Q held K p.
Proof.
  intros HQ HK Hs. revert K HK. induction Hs; intros K1 HK; eauto using safe.
Qed.

Lemma safe_bind {A B} (Q : _ -> _ -> B -> Prop) held K (p : Prog A) k :
  safe (fun h K a => safe Q h K (k a)) held K p -> safe Q held K (bind p k).
Proof. induction 1; cbn; eauto using safe. Qed.

(** A locked section, entered with [K] and without locks. *)
Lemma safe_unlocking {A} key held K (p : Prog A) :
  safe (fun h _ _ => h = [key]) held K p -> safe (fun h _ _ => h = []) held K (unlocking key p).
Proof.
  assert (unheld key [key] = []) as E.
  { unfold unheld. cbn. by rewrite bool_decide_eq_false_2 by (intros Hn; by apply Hn). }
  induction 1 as [held K a ->|held K|held K B f k K' Hf Hs _ IH|held K k _ IH|held K key' p _ IH|held K key' p _ IH];
    cbn [unlocking].
  - apply safe_choose. intros b. apply safe_unlock. rewrite E. destruct b; by constructor.
  - apply safe_unlock, safe_throw.
  - by eapply safe_stmt.
  - by apply safe_choose.
  - by apply safe_acquire.
  - by apply safe_unlock.
Qed.

Lemma safe_lock {A} key K (p : Prog A) :
  safe (fun h _ _ => h = [key]) [key] K p ->
  safe (fun h _ _ => h = []) [] K (withImageBuildCoordinationLock key p).
Proof.
  intros Hp. apply safe_choose. intros []; [|apply safe_throw]. by apply safe_acquire, safe_unlocking.
Qed.

Lemma true_stable held : stable held (fun _ => True).
Proof. by intros w w'. Qed.

(** Statements that need no lock. *)
Lemma every_safe {A} (Q : _ -> _ -> A -> Prop) held K p :
  (forall h K a, Q h K a) -> every (change (fun _ => False) true) p -> safe Q held K p.
Proof.
  intros HQ. revert held K.
  induction p as [a| |B f k IH|k IH|key p IH|key p IH]; intros held K; cbn [every]; eauto using safe.
  intros [Hf Hk]. apply safe_stmt with (K' := fun _ _ => True).
  - intros w _ _. split; [|done]. by eapply change_mono, Hf.
  - intros b. apply true_stable.
  - intros b. by apply IH.
Qed.

(** Statements under the locks held. *)
Lemma lockfree_safe {A} (Q : _ -> _ -> A -> Prop) held K p :
  (forall K a, Q held K a) -> lockfree p -> every (change (fun key => In key held) true) p ->
  safe Q held K p.
Proof.
  intros HQ. revert K. induction p as [a| |B f k IH|k IH|key p IH|key p IH]; intros K; cbn [every lockfree];
    eauto using safe; [|done..].
  intros Hl [Hf Hk]. apply safe_stmt with (K' := fun _ _ => True).
  - intros w _ _. split; [|done]. apply Hf.
  - intros b. apply true_stable.
  - intros b. by apply IH.
Qed.

(** Statements elsewhere keep what is known. *)
Lemma quiet_safe {A} (Q : _ -> _ -> A -> Prop) held (K : Knowledge) p :
  (forall a, Q held K a) -> lockfree p -> every same_builds p ->
  (forall w w', same_builds w w' -> K w -> K w') -> stable held K -> safe Q held K p.
Proof.
  intros HQ Hl He Hb Hs. induction p as [a| |B f k IH|k IH|key p IH|key p IH]; cbn [every lockfree] in *;
    eauto using safe; [|done..].
  destruct He as [Hf Hk]. apply safe_stmt with (K' := fun _ => K).
  - intros w _ HK. split; [apply change_quiet, Hf|]. eapply Hb; [apply Hf|done].
  - done.
  - intros b. by apply IH.
Qed.

Lemma lockfree_bind {A B} (p : Prog A) (k : A -> Prog B) :
  lockfree p -> (forall a, lockfree (k a)) -> lockfree (bind p k).
Proof.
  intros Hp Hk. induction p as [a| |C f next IH|next IH|key p IH|key p IH]; cbn in *; auto.
Qed.

Lemma lockfree_mutate `{Collation} host now mutator : lockfree (mutateDesired host now mutator).
Proof. by intros []. Qed.

Lemma lockfree_remove `{Collation} host ids now wake : lockfree (removeDesiredBuildsFromHost host ids now wake).
Proof.
  unfold removeDesiredBuildsFromHost. destruct ids; [done|]. apply lockfree_bind.
  - apply lockfree_bind; [apply lockfree_mutate|]. by intros [].
  - intros _. by destruct wake.
Qed.

Lemma lockfree_scenario `{Collation} input newId : lockfree (queueImageBuildScenario input newId).
Proof.
  apply lockfree_bind; [done|]. intros [[hosts ids]|]; [|done]. apply lockfree_bind; [|done].
  by case_match.
Qed.

(** ** The requests are safe *)

Section safe_requests.
Context `{Collation}.
Abbreviation done_ := (fun (h : list ImageBuildCoordinationKey) (_ : Knowledge) _ => h = []).

Lemma safe_for_each {X S} (l : list X) (body : X -> S -> Prog S) K acc :
  (forall x s K, safe done_ [] K (body x s)) -> safe done_ [] K (for_each l body acc).
Proof.
  intros Hb. revert acc K. induction l as [|x l IH]; intros acc K; cbn [for_each].
  { by apply safe_ret. }
  apply safe_bind. eapply safe_weaken; [|apply Hb]. cbv beta. intros h K' a ->. apply IH.
Qed.

Lemma safe_write_elsewhere {B} (f : BuildWorld -> B * BuildWorld) K :
  (forall w, same_builds w (snd (f w))) -> safe done_ [] K (statement f).
Proof.
  intros Hf. apply lockfree_safe; [done|done|]. split; [|done]. intros w. by apply change_quiet.
Qed.

Lemma safe_queueOne ids rev meta org now item queued K :
  scope_ok org -> safe done_ [] K (queueOne ids rev meta org now item queued).
Proof.
  intros Hs. unfold queueOne. cbv zeta. apply safe_bind.
  eapply safe_weaken; [|apply safe_lock, lockfree_safe].
  - cbv beta. intros h K' a ->. apply safe_bind.
    eapply safe_weaken; [|apply safe_for_each; intros; by apply safe_write_elsewhere].
    cbv beta. intros h K2 _ ->. by apply safe_ret.
  - done.
  - apply lockfree_scenario.
  - apply every_scenario; [done|]. by left.
Qed.

Lemma safe_queue ids rev key meta org now K :
  scope_ok org -> safe done_ [] K (queueImageBuildsFromBundle ids rev key meta org now).
Proof.
  intros Hs. apply safe_bind. eapply safe_weaken; [|apply safe_write_elsewhere].
  - cbv beta. intros h K' [] ->; cbn; [|apply safe_throw].
    apply safe_for_each. intros. by apply safe_queueOne.
  - intros w. unfold same_builds, upsertBundle. by repeat case_match.
Qed.

Lemma findBuild_row w id r : findBuild w id = Some r -> In r (bw_builds w) /\ ib_id r = id.
Proof. intros [Hin E]%find_some. by apply String.eqb_eq in E. Qed.

Lemma unique_row w r r' : queue_ok w -> In r (bw_builds w) -> In r' (bw_builds w) -> ib_id r = ib_id r' -> r = r'.
Proof. intros [Hn _ _]. by apply NoDup_map_inj. Qed.

(** What the locked section of a retry knows of the row it read. *)
Definition knows_found (id : string) (key : ImageBuildCoordinationKey) (found : option BuildRow) : Knowledge :=
  match found with
  | Some b => if canRetryImageBuild (ib_status b) (ib_error b)
              then fun w => ib_id b = id /\ (knows_key id key w /\ knows_live id w) else fun _ => True
  | None => fun _ => True
  end.

Lemma knows_found_stable id key found : stable [key] (knows_found id key found).
Proof.
  unfold knows_found. destruct found as [b|]; [|apply true_stable].
  destruct (canRetryImageBuild _ _); [|apply true_stable].
  intros w w' others Hd Hok Hc [E HK]. split; [done|].
  eapply (knows_live_stable [key] id key); [by left|done..].
Qed.

Lemma canRetry_live b : canRetryImageBuild (ib_status b) (ib_error b) = true -> overtaken b = false.
Proof.
  unfold canRetryImageBuild, overtaken. destruct (ib_status b); cbn; try done.
  by destruct (superseded_error (ib_error b)).
Qed.

Lemma safe_retryLocked id now key :
  safe (fun h _ _ => h = [key]) [key] (knows_key id key) (retryLocked id now).
Proof.
  apply safe_stmt with (K' := knows_found id key).
  - intros w Hok HK. cbn [fst snd]. split; [by apply change_quiet|].
    destruct (findBuild w id) as [b|] eqn:E; [|done]. cbn [knows_found].
    destruct (canRetryImageBuild (ib_status b) (ib_error b)) eqn:Ec; [|done].
    apply findBuild_row in E as [Hb Eid]. split_and!; [done|done|].
    intros r Hr Er. rewrite (unique_row w r b) by (done || congruence). by apply canRetry_live.
  - apply knows_found_stable.
  - intros [b|]; [|by apply safe_ret].
    change (bind (Ret ?x) ?k) with (k x). cbv beta iota. cbn [knows_found].
    destruct (canRetryImageBuild (ib_status b) (ib_error b)) eqn:Ec; cbn [negb]; [|by apply safe_ret].
    assert (Hst : stable [key] (fun w => ib_id b = id /\ (knows_key id key w /\ knows_live id w))).
    { pose proof (knows_found_stable id key (Some b)) as Hk. cbn [knows_found] in Hk. by rewrite Ec in Hk. }
    apply safe_bind, quiet_safe; [| | | |exact Hst].
    + intros _. apply safe_choose. intros []; [|apply safe_throw].
      apply safe_stmt with (K' := fun _ _ => True).
      * intros w Hok [<- [_ Hlive]]. split; [|done]. eapply ch_retry; [exact Ec|intros _; exact Hlive|done].
      * intros _. apply true_stable.
      * intros ids. by apply safe_ret.
    + destruct (ib_hostId b); [|done]. case_match; [apply lockfree_remove|done].
    + destruct (ib_hostId b); [|done]. case_match; [by apply every_remove|done].
    + intros w w' E. unfold knows_key, knows_live. by rewrite E.
Qed.

Lemma safe_retry digest id now K Q :
  (forall h K a, Q h K a) -> safe Q [] K (retryImageBuild digest id now).
Proof.
  intros HQ. apply safe_stmt
    with (K' := fun found w => match found with Some key => knows_key id key w | None => True end).
  - intros w Hok _. cbn [fst snd]. split; [by apply change_quiet|].
    destruct (findBuild w id) as [b|] eqn:E; cbn; [|done]. apply findBuild_row in E as [Hb <-].
    split; [by apply in_map|]. intros r Hr Er. by rewrite (unique_row w r b).
  - intros [key|]; [apply knows_key_stable|apply true_stable].
  - intros [key|]; [|by apply safe_ret]. change (bind (Ret ?x) ?k) with (k x). cbv beta iota.
    apply safe_bind. eapply safe_weaken; [|apply safe_lock, safe_retryLocked].
    cbv beta. intros h K' [o|] ->; [by apply safe_ret|].
    apply every_safe; [done|]. apply every_bind; [apply every_assign|done].
Qed.

Lemma safe_request p K : request p -> safe (fun _ _ _ => True) [] K p.
Proof.
  destruct 1.
  - apply safe_bind. eapply safe_weaken; [|by apply safe_queue]. intros; by apply safe_ret.
  - apply safe_bind, safe_retry. intros; by apply safe_ret.
  - apply every_safe; [done|]. apply every_bind; [apply every_assign|done].
  - apply every_safe; [done|]. apply every_bind; [apply every_requeue|done].
  - apply every_safe; [done|]. apply every_bind; [apply every_silent|done].
  - apply every_safe; [done|]. apply every_bind; [apply every_reconcile|done].
  - apply every_safe; [done|]. apply every_bind; [apply every_maintain|done].
  - apply every_safe; [done|]. apply every_bind; [apply every_compiles|done].
  - apply every_safe; [done|]. apply every_bind; [apply every_reports|done].
Qed.
End safe_requests.

(** ** Runs keep the promise *)

(** A thread has knowledge that is true now, stays true, and makes the rest of its
    program safe. *)
Definition thread_ok (w : BuildWorld) (t : Thread) : Prop :=
  exists K : Knowledge, K w /\ stable (fst t) K /\ safe (fun _ _ _ => True) (fst t) K (snd t).

Record config_ok (c : Config) : Prop := {
  co_queue : queue_ok (cf_world c);
  co_locks : NoDup (locks (cf_threads c));
  co_threads : all_threads (thread_ok (cf_world c)) (cf_threads c);
}.

Lemma locks_split ts1 t ts2 : locks (ts1 ++ t :: ts2) ≡ₚ fst t ++ locks (ts1 ++ ts2).
Proof.
  destruct t as [held p]. rewrite !locks_app. cbn [locks fst]. rewrite !app_assoc.
  apply Permutation_app_tail, Permutation_app_comm.
Qed.

(** A change under other locks leaves a thread as it is. *)
Lemma threads_undisturbed w w' held ts :
  queue_ok w -> change (fun k => In k held) true w w' ->
  (forall k, In k held -> ~ In k (locks ts)) ->
  all_threads (thread_ok w) ts -> all_threads (thread_ok w') ts.
Proof.
  intros Hok Hc Hd Hts t Ht. destruct (Hts t Ht) as (K & HK & Hs & Hsafe).
  exists K. split_and!; [|done|done]. eapply (Hs w w'); [|done|exact Hc|done].
  cbv beta. intros k Hk Hh. apply (Hd k Hh). by eapply locks_in.
Qed.

Lemma stable_more held held' K : (forall k, In k held -> In k held') -> stable held K -> stable held' K.
Proof. intros Hi Hs w w' others Hd. apply Hs. auto. Qed.

Lemma unheld_sub key held k : In k (unheld key held) -> In k held.
Proof. intros [Hk _]%filter_In. done. Qed.

Lemma unheld_nodup key held : NoDup held -> NoDup (unheld key held).
Proof.
  intros Hn. unfold unheld. apply NoDup_ListNoDup, List.NoDup_filter, NoDup_ListNoDup. done.
Qed.

(** The other threads' locks, when one thread's are known. *)
Lemma locks_disjoint ts1 held (p : Prog unit) ts2 :
  NoDup (locks (ts1 ++ (held, p) :: ts2)) ->
  NoDup held /\ NoDup (locks (ts1 ++ ts2)) /\ forall k, In k held -> ~ In k (locks (ts1 ++ ts2)).
Proof.
  rewrite locks_split. cbn [fst]. intros (H1 & H2 & H3)%NoDup_app. split_and!; try done.
  intros k Hk Hk'. apply (H2 k); by apply list_elem_of_In.
Qed.

Lemma locks_replace ts1 held (p : Prog unit) ts2 :
  NoDup held -> NoDup (locks (ts1 ++ ts2)) -> (forall k, In k held -> ~ In k (locks (ts1 ++ ts2))) ->
  NoDup (locks (ts1 ++ (held, p) :: ts2)).
Proof.
  intros H1 H2 H3. rewrite locks_split. cbn [fst]. apply NoDup_app. split_and!; try done.
  intros k Hk Hk'. apply (H3 k); by apply list_elem_of_In.
Qed.

Lemma step_ok `{Collation} c c' : step c c' -> config_ok c -> config_ok c'.
Proof.
  destruct 1 as [w ts p Hp|w ts1 ts2 held B f k|w ts1 ts2 held k b|w ts1 ts2 held key p Hfree
                |w ts1 ts2 held key p|w ts1 ts2 t|w w' ts Ho];
    intros [Hq Hl Ht]; cbn [cf_world cf_threads] in *.
  - constructor; cbn [cf_world cf_threads]; [done| |].
    + rewrite locks_app. cbn. by rewrite app_nil_r.
    + intros t [Hin|[<-|[]]]%in_app_iff; [by apply Ht|]. exists (fun _ => True).
      split_and!; [done|apply true_stable|by apply safe_request].
  - apply all_threads_split in Ht as [(K & HK & Hs & Hsafe) Ht].
    destruct (locks_disjoint _ _ _ _ Hl) as (L1 & L2 & L3). cbn [fst snd] in *.
    apply safe_inv in Hsafe as (K' & Hf & Hst & Hk).
    destruct (Hf w Hq HK) as [Hc HK']. constructor; cbn [cf_world cf_threads].
    + by eapply change_ok.
    + by apply locks_replace.
    + apply all_threads_split. split; [|by eapply threads_undisturbed].
      exists (K' (fst (f w))). split_and!; [done|apply Hst|apply Hk].
  - apply all_threads_split in Ht as [(K & HK & Hs & Hsafe) Ht]. cbn [fst snd] in *.
    apply safe_inv in Hsafe. constructor; cbn [cf_world cf_threads]; [done| |].
    + destruct (locks_disjoint _ _ _ _ Hl) as (L1 & L2 & L3). by apply locks_replace.
    + apply all_threads_split. split; [|done]. exists K. eauto.
  - apply all_threads_split in Ht as [(K & HK & Hs & Hsafe) Ht].
    destruct (locks_disjoint _ _ _ _ Hl) as (L1 & L2 & L3). cbn [fst snd] in *.
    apply safe_inv in Hsafe. constructor; cbn [cf_world cf_threads]; [done| |].
    + apply locks_replace; [|done|].
      * apply NoDup_cons. split; [|done]. rewrite list_elem_of_In.
        apply (Hfree (held, Acquire key p)), in_elt.
      * intros k [<-|Hk]; [|by apply L3]. intros (t & Hin & Hk)%in_locks.
        apply (Hfree t); [|done]. apply in_app_iff in Hin as [Hin|Hin]; apply in_app_iff; [by left|by right; right].
    + apply all_threads_split. split; [|done]. exists K. split_and!; [done| |done].
      eapply stable_more; [|exact Hs]. intros k Hk. by right.
  - apply all_threads_split in Ht as [(K & HK & Hs & Hsafe) Ht].
    destruct (locks_disjoint _ _ _ _ Hl) as (L1 & L2 & L3). cbn [fst snd] in *.
    apply safe_inv in Hsafe. constructor; cbn [cf_world cf_threads]; [done| |].
    + apply locks_replace; [by apply unheld_nodup|done|]. intros k Hk. by apply L3, (unheld_sub key).
    + apply all_threads_split. split; [|done]. exists (fun _ => True).
      split_and!; [done|apply true_stable|done].
  - apply all_threads_split in Ht as [_ Ht]. destruct t as [held p].
    constructor; cbn [cf_world cf_threads]; [done| |done].
    by destruct (locks_disjoint _ _ _ _ Hl) as (L1 & L2 & L3).
  - assert (change (fun k => In k []) true w w') as Hc by by apply change_other.
    constructor; cbn [cf_world cf_threads]; [by eapply change_ok|done|].
    eapply threads_undisturbed; [exact Hq|exact Hc|by intros k []|done].
Qed.

(** C7. Bundle uploads that race never leave two content hashes of one scenario,
    architecture and scope in progress: from a table that keeps the promise (an
    empty one, say), however uploads, retries, assignment passes, reports, lost
    builders and other writers interleave, two builds that are queued, assigned or
    building for the same scenario, architecture and scope are the same build. *)
Theorem one_content_hash_in_progress `{Collation} w c r r' :
  queue_ok w -> rtc step (mkConfig w []) c ->
  In r (bw_builds (cf_world c)) -> In r' (bw_builds (cf_world c)) ->
  isActiveImageBuild (ib_status r) = true -> isActiveImageBuild (ib_status r') = true ->
  same_scope r r' -> r = r'.
Proof.
  intros Hq Hrun. assert (config_ok (mkConfig w [])) as Hok.
  { constructor; [done|constructor|by intros t []]. }
  assert (config_ok c) as [Hc _ _].
  { clear Hq. induction Hrun as [|c0 c1 c2 Hstep _ IH]; [done|]. apply IH. by eapply step_ok. }
  intros H1 H2 A1 A2 Hs. apply (unique_row (cf_world c)); [done..|].
  assert (Hact : forall b, isActiveImageBuild (ib_status b) = true -> contender b = true).
  { intros b Hb. unfold contender, overtaken. unfold isActiveImageBuild in Hb. by destruct (ib_status b). }
  by apply (qo_contender _ Hc); auto.
Qed.

Lemma one_content_hash_in_progress_witness :
  let c := run_schedule (BuildSample.turns 60) (mkConfig BuildSample.failed
    [([], ignore BuildSample.upload); ([], ignore (retryImageBuild None "1" 6))]) in
  map (fun r => (ib_contentHash r, ib_status r)) (bw_builds (cf_world c))
  = [("old", st_stale); ("new", st_queued)] /\
  exists r r', In r (bw_builds (cf_world c)) /\ In r' (bw_builds (cf_world c)) /\
    isActiveImageBuild (ib_status r) = true /\ r = r'.
Proof.
  intros c. split; [vm_compute; reflexivity|].
  set (r := List.find (fun r => isActiveImageBuild (ib_status r)) (bw_builds (cf_world c))).
  assert (exists b, r = Some b) as [b Hb] by (eexists; vm_compute; reflexivity).
  apply find_some in Hb as [Hb Ha]. exists b, b. split; [exact Hb|]. split; [exact Hb|]. split; [exact Ha|].
  apply (one_content_hash_in_progress BuildSample.failed c b b);
    [| |exact Hb|exact Hb|exact Ha|exact Ha|split; reflexivity].
  - constructor.
    + unfold unique_ids. apply (bool_decide_unpack _). vm_compute. done.
    + by intros r1 r2 [<-|[]] [<-|[]].
    + by intros r1 r2 [<-|[]] [<-|[]].
  - refine (start_two BuildSample.failed (ignore BuildSample.upload)
              (ignore (retryImageBuild None "1" 6)) c _ _ (schedule_rtc (BuildSample.turns 60) _)).
    + apply rq_queue. discriminate.
    + apply rq_retry.
Defined.
