(* ===== verification/BuildPass.v ===== *)
(** An assignment pass that runs alone: it hands out builds until no waiting build
    has a builder, and its counts of the builders' load stay exact. Reports: what
    one may change. *)
From stdpp Require Import base list strings.
From Stdlib Require Import ZArith Lia.
From S2P Require Import Prelude Json Text RunState Store DesiredState BuildScheduler BuildLock BuildStore BuildQueue.

Open Scope string_scope.
Open Scope list_scope.
Open Scope Z_scope.
Open Scope prog_scope.

Lemma exec_bind {A B} (p : Prog A) (k : A -> Prog B) w :
  exec (bind p k) w = match exec p w with (Some a, w') => exec (k a) w' | (None, w') => (None, w') end.
Proof.
  revert w. induction p as [a| |C f next IH|next IH|key p IH|key p IH]; intros w; cbn [bind exec]; auto.
  destruct (f w) as [b w']. apply IH.
Qed.

(** * Counts *)

Lemma count_map_filter {A B} (f : A -> B) (p : A -> bool) (q : B -> bool) l :
  count_where q (map f (List.filter p l)) = count_where (fun x => p x && q (f x)) l.
Proof.
  induction l as [|x l IH]; [done|]. rewrite count_cons, <- IH. cbn [List.filter].
  destruct (p x); cbn [map andb]; [by rewrite count_cons|lia].
Qed.

Lemma count_filter {A} (p q : A -> bool) l :
  count_where q (List.filter p l) = count_where (fun x => p x && q x) l.
Proof. pose proof (count_map_filter (fun x => x) p q l) as E. by rewrite map_id in E. Qed.

Lemma count_ext {A} (p q : A -> bool) l : (forall x, p x = q x) -> count_where p l = count_where q l.
Proof. intros E. induction l as [|x l IH]; [done|]. by rewrite !count_cons, IH, E. Qed.

(** The exact count after an update of one row that was not counted. *)
Lemma count_update_exact (p q : BuildRow -> bool) f rows r :
  NoDup (map ib_id rows) -> In r rows -> p r = true -> (forall r', p r' = true -> ib_id r' = ib_id r) ->
  q r = false -> count_where q (update_where p f rows) = count_where q rows + (if q (f r) then 1 else 0).
Proof.
  intros Hn Hin Hp Hid Hq. induction rows as [|x rows IH]; [done|].
  apply NoDup_cons in Hn as [Hx Hn]. rewrite list_elem_of_In in Hx.
  change (update_where p f (x :: rows)) with ((if p x then f x else x) :: update_where p f rows).
  rewrite !count_cons. destruct Hin as [->|Hin].
  - rewrite Hp, Hq. rewrite no_hit_update; [lia|].
    apply not_true_iff_false. intros (r' & Hr' & Hp')%existsb_exists. destruct Hx.
    rewrite <- (Hid r' Hp'). by apply in_map.
  - rewrite (IH Hn Hin). destruct (p x) eqn:E; [|lia]. destruct Hx. rewrite (Hid x E). by apply in_map.
Qed.

Definition activeOn (host : string) (r : BuildRow) : bool := isActive r && hostIs host r.

Lemma active_count w host : truthy host = true ->
  countFor host (activeBuilds w) = count_where (activeOn host) (bw_builds w).
Proof. intros Ht. unfold countFor, activeBuilds. rewrite Ht, count_map_filter. by apply count_ext. Qed.

Lemma slot_count w host : truthy host = true ->
  countFor host (List.filter (fun b => bool_decide (snd b ∈ PRE_PUBLICATION_BUILD_PHASES)) (activeBuilds w))
  = count_where (holdsSlot host) (bw_builds w).
Proof.
  intros Ht. unfold countFor, activeBuilds. rewrite Ht, count_filter, count_map_filter. apply count_ext.
  intros r. unfold holdsSlot, hostIs. cbn. destruct (isActive r), (bool_decide (ib_hostId r = Some host)),
    (bool_decide (ib_phase r ∈ PRE_PUBLICATION_BUILD_PHASES)); done.
Qed.

(** * The builders of a world *)

Section pass.
Context `{Collation} (now : Z) (digest : option string).

Definition candidates (w : BuildWorld) : list BuilderCandidate :=
  map (candidateOf now (activeBuilds w)) (platformBuilders w).

Lemma load_candidates w : exec (loadBuilderCandidates now) w = (Some (candidates w), w).
Proof. done. Qed.

(** Host ids are not empty. *)
Definition hosts_named (w : BuildWorld) : Prop :=
  forall h, In h (bw_hosts w) -> truthy (ah_id (ag_row h)) = true.

Lemma claim_candidates w id host r :
  unique_ids w -> hosts_named w -> In r (bw_builds w) -> ib_id r = id -> queuedBuild r = true ->
  freeSlot w host = true ->
  candidates (snd (claimBuild id host now w)) = map (count_slot host 1) (candidates w).
Proof.
  intros Hn Hh Hr Hid Hq Hf. unfold candidates. rewrite map_map.
  change (platformBuilders (snd (claimBuild id host now w))) with (platformBuilders w).
  apply map_ext_in. intros h [Hin _]%filter_In. specialize (Hh h Hin).
  assert (Hstep : forall q, q r = false ->
    count_where q (bw_builds (snd (claimBuild id host now w))) = count_where q (bw_builds w)
    + (if q (placed (Some host) st_assigned ph_queued (ib_error r) now r) then 1 else 0)).
  { intros q Hq'. cbn [claimBuild updateBuilds snd bw_builds set_builds].
    apply (count_update_exact _ q (fun r => placed (Some host) st_assigned ph_queued (ib_error r) now r));
      [done|done| |  |done].
    - by rewrite Hid, String.eqb_refl, Hq, Hf.
    - intros r' [[E%String.eqb_eq _]%andb_true_iff _]%andb_true_iff. congruence. }
  assert (isActive r = false) as Hidle.
  { unfold queuedBuild, statusIn in Hq. unfold isActive, statusIn. apply andb_true_iff in Hq as [Hq _].
    apply bool_decide_eq_true, list_elem_of_singleton in Hq. by rewrite Hq. }
  unfold candidateOf, count_slot. cbn [bd_hostId]. rewrite !active_count, !slot_count by done.
  rewrite !Hstep by (unfold activeOn; rewrite ?idle_no_slot, ?Hidle; done).
  assert (Hs : forall x e, activeOn x (placed (Some host) st_assigned ph_queued e now r)
                           = bool_decide (Some host = Some x) /\
                           holdsSlot x (placed (Some host) st_assigned ph_queued e now r)
                           = bool_decide (Some host = Some x)).
  { intros x e. split; [done|]. unfold holdsSlot, hostIs. cbn. by rewrite !andb_true_r. }
  rewrite (proj1 (Hs _ _)), (proj2 (Hs _ _)).
  destruct (ah_id (ag_row h) =s host) eqn:E.
  - apply String.eqb_eq in E as ->. by rewrite bool_decide_eq_true_2.
  - apply String.eqb_neq in E. rewrite bool_decide_eq_false_2 by congruence. by rewrite !Z.add_0_r.
Qed.

Lemma eligible_count_slot host load arch rev c :
  0 <= load -> builderEligible arch rev digest (count_slot host load c) = true ->
  builderEligible arch rev digest c = true.
Proof.
  intros Hl. unfold count_slot. destruct (bd_hostId c =s host); [|done].
  unfold builderEligible. cbn. rewrite !andb_true_iff, !Z.ltb_lt. intros (((((? & ?) & ?) & ?) & ?) & ?).
  split_and!; try done. lia.
Qed.

Lemma eligible_free w c arch rev :
  hosts_named w -> In c (candidates w) -> builderEligible arch rev digest c = true ->
  freeSlot w (bd_hostId c) = true.
Proof.
  intros Hh Hc He. apply in_map_iff in Hc as (h & <- & [Hin _]%filter_In). specialize (Hh h Hin).
  unfold builderEligible in He. apply andb_true_iff in He as [[_ He]%andb_true_iff _].
  unfold candidateOf in He. cbn [bd_prePublicationBuildCount] in He. by rewrite slot_count in He.
Qed.

(** One build of the queue, in a pass that runs alone. *)
Lemma assign_one w assigned s r :
  unique_ids w -> hosts_named w -> In r (bw_builds w) -> ib_id r = src_buildId s -> queuedBuild r = true ->
  exists assigned' w', exec (assignOne now digest s (candidates w, assigned)) w
    = (Some (candidates w', assigned'), w') /\ bw_hosts w' = bw_hosts w /\
  ((w' = w /\ forall c, In c (candidates w) -> builderEligible (src_arch s) (src_rev s) digest c = false) \/
   exists host, freeSlot w host = true /\ In (src_buildId s, host) assigned' /\
     bw_builds w' = bw_builds (snd (claimBuild (src_buildId s) host now w))).
Proof.
  intros Hn Hh Hr Hid Hq. unfold assignOne.
  pose proof (least_loaded_builder_chosen (candidates w) (src_arch s) (src_rev s) digest) as Hch.
  destruct (chooseLeastLoadedBuilder _ _ _ _) as [c|] eqn:Ec.
  2: { exists assigned, w. split; [done|]. split; [done|]. by left. }
  destruct Hch as (Hc & He & _). pose proof (eligible_free w c _ _ Hh Hc He) as Hf.
  set (host := bd_hostId c) in *. set (w1 := snd (claimBuild (src_buildId s) host now w)).
  assert (Hp : (ib_id r =s src_buildId s) && queuedBuild r && freeSlot w host = true)
    by (by rewrite Hid, String.eqb_refl, Hq, Hf).
  assert (fst (claimBuild (src_buildId s) host now w) <> []) as Hcl.
  { cbn [claimBuild updateBuilds fst]. intros E.
    assert (In (ib_id r) []) as []. rewrite <- E. apply in_map, filter_In. done. }
  pose proof (claim_candidates w (src_buildId s) host r Hn Hh Hr Hid Hq Hf) as Hcand.
  assert (Hbuilds : bw_builds (snd (claimBuild (src_buildId s) host now w)) = bw_builds w1) by done.
  assert (Hin : In (placed (Some host) st_assigned ph_queued (ib_error r) now r) (bw_builds w1)).
  { subst w1. cbn [claimBuild updateBuilds snd bw_builds set_builds]. apply in_map_iff. exists r. by rewrite Hp. }
  assert (Hhosts : bw_hosts w1 = bw_hosts w) by done.
  rewrite exec_bind. cbn [statement exec].
  destruct (claimBuild (src_buildId s) host now w) as [ids w1'] eqn:Ecl. cbn [fst snd] in *. subst w1.
  rewrite bool_decide_eq_false_2 by done. rewrite exec_bind. unfold mutateDesired. cbn [statement exec].
  destruct (mutateStoredHostDesiredState _ _ _ _ _ _ _ _) as [db res]. cbn [exec].
  rewrite exec_bind. cbn [tryWakeHostRuntime statement exec]. rewrite exec_bind. cbn [select_ exec].
  set (w2 := set_wakes _ _).
  assert (existsb (fun r => (ib_id r =s src_buildId s) && hostIs host r && isActive r) (bw_builds w2) = true) as ->.
  { apply existsb_exists. eexists. split; [exact Hin|]. unfold hostIs. cbn.
    by rewrite Hid, String.eqb_refl, bool_decide_eq_true_2. }
  cbn [negb exec]. rewrite <- Hcand. exists (assigned ++ [(src_buildId s, host)]), w2.
  split; [done|]. split; [done|]. right. exists host. rewrite Ecl. split_and!; [done| |done].
  apply in_app_iff. right. by left.
Qed.

(** The queue's entries are rows that wait. *)
Definition waits (w : BuildWorld) (s : DesiredBuildSource) : Prop :=
  exists r, In r (bw_builds w) /\ ib_id r = src_buildId s /\ queuedBuild r = true.
(** No builder can take the entry. *)
Definition no_builder (w : BuildWorld) (arch : ImageArchitecture) (rev : string) : Prop :=
  forall c, In c (candidates w) -> builderEligible arch rev digest c = false.

Lemma claim_rows id host w r' :
  In r' (bw_builds (snd (claimBuild id host now w))) ->
  In r' (bw_builds w) /\ ib_id r' <> id \/
  In r' (bw_builds w) /\ queuedBuild r' = false \/
  (ib_id r' = id /\ hostIs host r' = true /\ isActive r' = true /\ queuedBuild r' = false) \/
  freeSlot w host = false.
Proof.
  cbn [claimBuild updateBuilds snd bw_builds set_builds]. intros (r & <- & Hr)%in_map_iff.
  destruct (freeSlot w host); [|by do 3 right]. rewrite andb_true_r.
  destruct (ib_id r =s id) eqn:Ei; cbn [andb].
  - apply String.eqb_eq in Ei. destruct (queuedBuild r) eqn:Eq; [|right; by left].
    right. right. left. split_and!; [done|unfold hostIs; by apply bool_decide_eq_true|done|done].
  - left. split; [done|]. by apply String.eqb_neq.
Qed.

Lemma claim_keeps id host w r :
  In r (bw_builds w) -> ib_id r <> id \/ queuedBuild r = false ->
  In r (bw_builds (snd (claimBuild id host now w))).
Proof.
  intros Hr Hne. cbn [claimBuild updateBuilds snd bw_builds set_builds]. apply in_map_iff. exists r.
  split; [|done]. destruct (ib_id r =s id) eqn:E; [|done]. apply String.eqb_eq in E.
  destruct Hne as [?|Hq]; [done|]. by rewrite Hq.
Qed.

Lemma claim_no_builder id host w w' r arch rev :
  unique_ids w -> hosts_named w -> In r (bw_builds w) -> ib_id r = id -> queuedBuild r = true ->
  freeSlot w host = true -> bw_hosts w' = bw_hosts w ->
  bw_builds w' = bw_builds (snd (claimBuild id host now w)) ->
  no_builder w arch rev -> no_builder w' arch rev.
Proof.
  intros Hn Hh Hr Hid Hq Hf Ehosts Ebuilds Hno c.
  assert (candidates w' = map (count_slot host 1) (candidates w)) as ->.
  { rewrite <- (claim_candidates w id host r) by done. unfold candidates, platformBuilders, activeBuilds.
    by rewrite Ehosts, Ebuilds. }
  intros (c0 & <- & Hc)%in_map_iff. apply not_true_iff_false. intros He.
  apply eligible_count_slot in He; [|done]. by rewrite Hno in He.
Qed.

(** The whole queue, in a pass that runs alone. *)
Lemma assign_all queue w assigned :
  unique_ids w -> hosts_named w -> Forall (waits w) queue -> NoDup (map src_buildId queue) ->
  exists assigned' w', exec (for_each queue (assignOne now digest) (candidates w, assigned)) w
    = (Some (candidates w', assigned'), w') /\ bw_hosts w' = bw_hosts w /\
  (forall r, In r (bw_builds w') -> queuedBuild r = true -> In r (bw_builds w)) /\
  (forall arch rev, no_builder w arch rev -> no_builder w' arch rev) /\
  Forall (fun s => waits w' s -> no_builder w' (src_arch s) (src_rev s)) queue.
Proof.
  intros Hn Hh Hw. revert w assigned Hn Hh Hw.
  induction queue as [|s queue IH]; intros w assigned Hn Hh Hw Hd; cbn [for_each].
  { exists assigned, w. by split_and!. }
  apply Forall_cons in Hw as [(r & Hr & Hid & Hq) Hw].
  cbn [map] in Hd. apply NoDup_cons in Hd as [Hs Hd].
  destruct (assign_one w assigned s r Hn Hh Hr Hid Hq) as (a1 & w1 & E1 & Eh & Hcase).
  rewrite exec_bind, E1.
  destruct Hcase as [[-> Hno]|(host & Hf & _ & Eb)].
  - destruct (IH w a1 Hn Hh Hw Hd) as (a2 & w2 & E2 & Eh2 & Hq2 & Hm & Hall).
    exists a2, w2. split_and!; [done|done|done|done|]. constructor; [|done]. intros _. by apply Hm.
  - assert (unique_ids w1) as Hn1.
    { unfold unique_ids. rewrite Eb. cbn. rewrite update_ids; done. }
    assert (hosts_named w1) as Hh1 by (unfold hosts_named; by rewrite Eh).
    assert (Forall (waits w1) queue) as Hw1.
    { apply Forall_forall. intros s' Hs'. rewrite Forall_forall in Hw.
      destruct (Hw s' Hs') as (r' & Hr' & Hid' & Hq'). exists r'. split_and!; [|done|done].
      rewrite Eb. apply claim_keeps; [done|]. left. intros E. destruct Hs. rewrite <- E, Hid'.
      apply list_elem_of_In, in_map, list_elem_of_In. done. }
    destruct (IH w1 a1 Hn1 Hh1 Hw1 Hd) as (a2 & w2 & E2 & Eh2 & Hq2 & Hm & Hall).
    assert (Hback : forall x, In x (bw_builds w1) -> queuedBuild x = true ->
                    In x (bw_builds w) /\ ib_id x <> src_buildId s).
    { intros x Hx Hqx. rewrite Eb in Hx. destruct (claim_rows _ _ _ _ Hx) as [?|[[? ?]|[(_ & _ & _ & ?)|?]]];
        [done|congruence..]. }
    exists a2, w2. split_and!; [done|congruence| | |].
    + intros x Hx Hqx. by apply Hback; [apply Hq2|].
    + intros arch rev Hno. apply Hm. eapply (claim_no_builder (src_buildId s) host w w1 r); done.
    + constructor; [|done]. intros (x & Hx & Hidx & Hqx).
      destruct (Hback x (Hq2 x Hx Hqx) Hqx) as [_ ?]. done.
Qed.

Lemma queue_entry w s :
  In s (loadQueuedBuildRows w) <->
  exists r, In r (bw_builds w) /\ queuedBuild r = true /\ buildSource w r = Some s.
Proof.
  unfold loadQueuedBuildRows. rewrite <- list_elem_of_In, list_elem_of_omap. split.
  - intros (r & Hr & E). rewrite js_sort_perm in Hr. apply list_elem_of_In, filter_In in Hr as [Hr Hb].
    apply andb_true_iff in Hb as [Hb _]. by exists r.
  - intros (r & Hr & Hq & E). exists r. split; [|done]. rewrite js_sort_perm.
    apply list_elem_of_In, filter_In. split; [done|]. rewrite Hq. apply bool_decide_eq_true.
    unfold buildSource in E. destruct (findBundle w (ib_rev r)); [done|discriminate].
Qed.

Lemma buildSource_id w r s : buildSource w r = Some s ->
  src_buildId s = ib_id r /\ src_arch s = ib_arch r /\ src_rev s = ib_rev r.
Proof. unfold buildSource. destruct (findBundle w (ib_rev r)); cbn; [|done]. by intros [= <-]. Qed.

Lemma omap_ids w rows : NoDup (map ib_id rows) -> NoDup (map src_buildId (omap (buildSource w) rows)).
Proof.
  induction rows as [|r rows IH]; cbn; [constructor|]. intros [Hr Hn]%NoDup_cons.
  destruct (buildSource w r) as [s|] eqn:E; [|by apply IH]. cbn. apply NoDup_cons. split; [|by apply IH].
  destruct (buildSource_id _ _ _ E) as (-> & _). rewrite !list_elem_of_In in *.
  intros (s' & E' & Hs')%in_map_iff. apply list_elem_of_In, list_elem_of_omap in Hs' as (r' & Hr' & Er').
  destruct (buildSource_id _ _ _ Er') as (Ei & _). destruct Hr. rewrite <- E', Ei.
  apply in_map. by apply list_elem_of_In.
Qed.

Lemma queue_ids w : unique_ids w -> NoDup (map src_buildId (loadQueuedBuildRows w)).
Proof.
  intros Hn. unfold loadQueuedBuildRows. apply omap_ids. rewrite js_sort_perm.
  set (p := fun r => queuedBuild r && _). clearbody p. revert Hn. unfold unique_ids.
  induction (bw_builds w) as [|r rows IH]; cbn; [done|]. intros [Hr Hn]%NoDup_cons.
  destruct (p r); [|by apply IH]. cbn. apply NoDup_cons. split; [|by apply IH].
  rewrite list_elem_of_In in *. intros (r' & E & [Hr' _]%filter_In)%in_map_iff.
  destruct Hr. rewrite <- E. by apply in_map.
Qed.

(** C35. An assignment pass that runs alone always ends with a result and is work
    conserving: no build it leaves waiting (one with its bundle) has an eligible
    builder, by the builders' loads as the table then has them; and it makes no
    build wait that did not. *)
Theorem assignment_pass_work_conserving w :
  unique_ids w -> hosts_named w ->
  exists assigned w', exec (assignQueuedImageBuilds digest now) w = (Some assigned, w') /\
  forall r, In r (bw_builds w') -> queuedBuild r = true ->
  In r (bw_builds w) /\
  (is_Some (findBundle w (ib_rev r)) -> no_builder w' (ib_arch r) (ib_rev r)).
Proof.
  intros Hn Hh.
  destruct (assign_all (loadQueuedBuildRows w) w [] Hn Hh) as (a & w' & E & _ & Hq & _ & Hall).
  - apply Forall_forall. intros s (r & Hr & Hqr & Es)%list_elem_of_In%queue_entry.
    exists r. split_and!; [done| |done]. symmetry. by apply (buildSource_id w).
  - by apply queue_ids.
  - exists a, w'. split.
    { unfold assignQueuedImageBuilds. rewrite exec_bind. cbn [select_ exec]. rewrite exec_bind, load_candidates.
      rewrite exec_bind, E. done. }
    intros r Hr Hqr. split; [by apply Hq|]. intros [b Eb].
    assert (buildSource w r = Some (mkBuildSource (ib_id r) (ib_scenarioId r) (ib_arch r) (ib_rev r)
              (ib_contentHash r) (bn_r2Key b))) as Es by (unfold buildSource; by rewrite Eb).
    rewrite Forall_forall in Hall. apply (Hall (mkBuildSource (ib_id r) (ib_scenarioId r) (ib_arch r)
      (ib_rev r) (ib_contentHash r) (bn_r2Key b))).
    + apply list_elem_of_In, queue_entry. exists r. split_and!; [by apply Hq|done|done].
    + by exists r.
Qed.
End pass.

Lemma assignment_pass_work_conserving_witness :
  exists assigned w', exec (assignQueuedImageBuilds None 10) BuildSample.queued = (Some assigned, w') /\
  forall r, In r (bw_builds w') -> queuedBuild r = true ->
  In r (bw_builds BuildSample.queued) /\
  (is_Some (findBundle BuildSample.queued (ib_rev r)) -> no_builder 10 None w' (ib_arch r) (ib_rev r)).
Proof.
  apply (assignment_pass_work_conserving 10 None BuildSample.queued).
  - unfold unique_ids. apply (bool_decide_unpack _). vm_compute. done.
  - intros h Hh. vm_compute in Hh. destruct Hh as [<-|Hh]; [reflexivity|destruct Hh].
Defined.
Example assignment_pass_sample :
  fst (exec (assignQueuedImageBuilds None 10) BuildSample.queued)
  = Some [("1", "builder"); ("2", "builder")].
Proof. vm_compute. reflexivity. Qed.

(** * Reports *)

(** How a report may change a row: not at all, or to the reported phase, for the
    build it names, active on the reporting host's current session, and of the
    reported scenario and content hash. *)
Definition report_row (host session : string) (generation : Z) (report : BuildReport) (w : BuildWorld)
    (r r' : BuildRow) : Prop :=
  r' = r \/
  (ib_id r = br_build_id report /\ isActive r = true /\ ib_hostId r = Some host /\ br_host_id report = host /\
   currentHost host session generation w = true /\
   ib_scenarioId r = br_scenario_id report /\ ib_contentHash r = br_content_hash report /\
   ib_id r' = ib_id r /\ ib_hostId r' = Some host /\ ib_phase r' = br_phase report /\
   ib_status r' = buildStatusFromPhase (br_phase report)).
Definition report_change (host session : string) (generation : Z) (report : BuildReport)
    (w w' : BuildWorld) : Prop :=
  Forall2 (report_row host session generation report w) (bw_builds w) (bw_builds w').

Lemma same_report_change host session generation report w w' :
  same_builds w w' -> report_change host session generation report w w'.
Proof.
  unfold same_builds, report_change. intros ->. induction (bw_builds w); constructor; [by left|done].
Qed.

Lemma update_report_change host session generation report p f w :
  (forall r, p r = true -> report_row host session generation report w r (f r)) ->
  report_change host session generation report w (snd (updateBuilds p f w)).
Proof.
  intros Hf. unfold report_change. cbn. induction (bw_builds w) as [|r rows IH]; cbn; constructor; [|done].
  destruct (p r) eqn:E; [by apply Hf|by left].
Qed.

(** A builder's report changes at most the one build it names, and that only
    while the build is assigned to or built on the reporting host, in the host's
    current session, for the reported scenario and content hash: a build that has
    ended, was superseded or went to another builder is left alone, whatever
    other requests do between the report's statements. *)
Theorem report_changes_only_its_active_build host session generation now report :
  every (report_change host session generation report)
    (recordImageBuildReport host session generation now report).
Proof.
  unfold recordImageBuildReport. apply every_bind; [apply every_read, same_report_change|].
  intros [key|]; [|done]. apply every_lock. unfold reportLocked.
  apply every_bind; [apply every_read, same_report_change|]. intros [existing|]; [|done]. cbv zeta.
  destruct (shouldAcknowledgeTerminalBuildReport _ _); [done|].
  destruct (shouldAcceptBuildReport _) eqn:Ea; cbn [negb]; [|done].
  apply every_bind; [apply every_held|]. intros _. apply every_bind; [|done]. split; [|done].
  intros w. apply update_report_change. intros r Hp. right.
  unfold shouldAcceptBuildReport, buildReportIdentityMatches, reportIdentity in Ea.
  cbn [ri_assignedHostId ri_reportingHostId ri_reportHostId ri_assignedScenarioId ri_reportScenarioId
       ri_assignedContentHash ri_reportContentHash] in Ea.
  rewrite !andb_true_iff, !String.eqb_eq in Ea. destruct Ea as (_ & ((_ & Eh) & Es) & Ehash).
  cbv beta in Hp. rewrite !andb_true_iff, !String.eqb_eq in Hp. unfold hostIs in Hp.
  rewrite bool_decide_eq_true in Hp.
  destruct Hp as (((((Hid & Hcur) & Hhost) & Hsc) & Hha) & Hact). cbn. split_and!; try done; congruence.
Qed.

(** A builder goes back from publication when it restarts or finds its output
    damaged, and its report then takes a slot that may be given away already: the
    bound of two slots holds only until then. *)
Definition on_builder (id : string) (status : ImageBuildStatus) (phase : BuildPhase) : BuildRow :=
  placed (Some "builder") status phase None 5 (BuildSample.build id id "h" st_queued None 1).
Definition publishing_world : BuildWorld :=
  BuildSample.world [on_builder "1" st_building ph_publishing; on_builder "2" st_assigned ph_queued;
                     on_builder "3" st_building ph_building].
Definition back_to_queue : BuildReport :=
  mkBuildReport "builder" "1" "1" "h" 20 ph_queued (Some 6) None 1
    (Some "builder daemon restarted while build was publishing").

Theorem returned_build_exceeds_slots :
  slots_bounded publishing_world /\
  let '(outcome, w) := exec (recordImageBuildReport "builder" "session" 1 20 back_to_queue) publishing_world in
  outcome = Some (true, false) /\ count_where (holdsSlot "builder") (bw_builds w) = 3.
Proof.
  split; [|by vm_compute].
  intros host. destruct (decide (host = "builder")) as [->|Hne]; [done|].
  assert (Hno : forall r, In r (bw_builds publishing_world) -> holdsSlot host r = false).
  { intros r Hr. vm_compute in Hr. unfold holdsSlot, hostIs.
    rewrite bool_decide_eq_false_2; [done|]. intros E.
    destruct Hr as [<-|[<-|[<-|[]]]]; cbn in E; congruence. }
  change (bw_builds publishing_world) with
    [on_builder "1" st_building ph_publishing; on_builder "2" st_assigned ph_queued;
     on_builder "3" st_building ph_building] in *.
  rewrite !count_cons, !Hno by (cbn; auto). done.
Qed.
