(* ===== verification/RegistryKeys.v ===== *)
(** The names of the image registry: the identity of an image and the keys its
    objects have in the bucket (control-plane/image-registry/shared.ts and
    lib/image-artifact-retention.ts), and the keys the sweep recognizes
    (lib/image-registry-cleanup.ts). *)
From stdpp Require Import base list strings.
From Stdlib Require Import ZArith Lia.
From S2P Require Import Prelude Json Text RunState Bridge DesiredState.

Open Scope string_scope.
Open Scope list_scope.
Open Scope Z_scope.

(** * Text *)

Definition dash_char : Ascii.ascii := Ascii.ascii_of_nat 45.
Definition slash_char : Ascii.ascii := Ascii.ascii_of_nat 47.

(** [s.startsWith(p)], with what follows. *)
Fixpoint drop_prefix (p s : string) : option string :=
  match p, s with
  | EmptyString, _ => Some s
  | String c p', String d s' => if Ascii.eqb c d then drop_prefix p' s' else None
  | _, _ => None
  end.
(** [s.endsWith(suffix)], with what comes before. *)
Fixpoint drop_suffix (suffix s : string) : option string :=
  if s =s suffix then Some ""
  else match s with
       | EmptyString => None
       | String c s' => option_map (String c) (drop_suffix suffix s')
       end.
(** [s.lastIndexOf(c)], as the text before and after that character. *)
Fixpoint split_last (c : Ascii.ascii) (s : string) : option (string * string) :=
  match s with
  | EmptyString => None
  | String d s' =>
      match split_last c s' with
      | Some (a, b) => Some (String d a, b)
      | None => if Ascii.eqb d c then Some ("", s') else None
      end
  end.

(** * Identity of an image *)

(** [replaceAll(/[^A-Za-z0-9._-]+/g, "-")]: a run of other characters is one dash. *)
Fixpoint dash_runs (inRun : bool) (s : string) : string :=
  match s with
  | EmptyString => ""
  | String c s' =>
      if isSlugChar (Ascii.N_of_ascii c) then String c (dash_runs false s')
      else if inRun then dash_runs true s'
      else String dash_char (dash_runs true s')
  end.
(** [replaceAll(/^-+|-+$/g, "")]. *)
Fixpoint strip_dashes_start (s : string) : string :=
  match s with
  | String c s' => if Ascii.eqb c dash_char then strip_dashes_start s' else s
  | EmptyString => ""
  end.
Fixpoint strip_dashes_end (s : string) : string :=
  match s with
  | EmptyString => ""
  | String c s' =>
      match strip_dashes_end s' with
      | EmptyString => if Ascii.eqb c dash_char then "" else String c ""
      | t => String c t
      end
  end.
Definition safeSlug (value : string) : string :=
  strip_dashes_end (strip_dashes_start (dash_runs false (trim value))).

Definition registryImageKey (k : ImageKey) : string :=
  safeSlug (ik_scenario k) +:+ "-" +:+ safeSlug (ik_vm k) +:+ "-" +:+ archName (ik_arch k).

Definition isImageArchitecture (v : option json) : option ImageArchitecture :=
  match v with
  | Some (JStr s) => if s =s "x86_64" then Some arch_x86_64
                     else if s =s "aarch64" then Some arch_aarch64 else None
  | _ => None
  end.
(** The key a value holds, when it is one. *)
Definition isImageKey (v : option json) : option ImageKey :=
  match prop v "scenario", prop v "vm", isImageArchitecture (prop v "arch") with
  | Some (JStr s), Some (JStr m), Some a => Some (mkImageKey s m a)
  | _, _, _ => None
  end.

(** One VM of one scenario on one architecture. *)
Definition imageRootKey (scenarioId vmName arch : string) : string :=
  scenarioId +:+ ":" +:+ vmName +:+ ":" +:+ arch.

(** * Object keys *)

Definition ARTIFACT_PREFIX : string := "artifacts/".
Definition IMAGE_PREFIX : string := "images/".
Definition IMAGE_CHUNK_PREFIX : string := "image-chunks/v1/zstd6/".
Definition IMAGE_MANIFEST_PREFIX : string := "image-manifests/v1/".
Definition BUNDLE_PREFIX : string := "builds/bundles/".
Definition LEGACY_SUFFIX : string := ".raw.zst".
Definition SIDECAR_SUFFIX : string := ".sha256".

Definition imageObjectKey (k : ImageKey) (imageId : string) : string :=
  IMAGE_PREFIX +:+ registryImageKey k +:+ "/" +:+ imageId +:+ ".raw.zst".
Definition imageChunkObjectKey (rawSha256 : string) : string := IMAGE_CHUNK_PREFIX +:+ rawSha256.
Definition imageManifestObjectKey (manifestSha256 : string) : string :=
  IMAGE_MANIFEST_PREFIX +:+ manifestSha256 +:+ ".json".
Definition bootArtifactObjectKey (sha256 : string) : string := ARTIFACT_PREFIX +:+ sha256.
Definition bundleObjectKey (rev : string) : string := BUNDLE_PREFIX +:+ rev +:+ ".tar.gz".

(** * The keys the sweep recognizes *)

Inductive CleanupObjectKind : Type :=
| k_manifest | k_chunk | k_legacy_image | k_legacy_sidecar | k_boot_artifact.
#[export] Instance CleanupObjectKind_eq_dec : EqDecision CleanupObjectKind.
Proof. solve_decision. Defined.

Record SweptObject : Type := mkSwept {
  so_key : string;
  so_kind : CleanupObjectKind;
  so_bytes : Z;
  so_sha256 : string;
  so_imageKey : option string;
}.

(** [/^[a-f0-9]{64}$/]. *)
Definition isLowerHex (n : N) : bool := in_range 97 102 n || in_range 48 57 n.
Definition SHA256_RE (s : string) : bool := matches_class isLowerHex 64 64 s.

Definition parseLegacyKey (key rest : string) (bytes : Z) : option SweptObject :=
  match split_last slash_char rest with
  | None => None
  | Some (imageKey, filename) =>
      if imageKey =s "" then None
      else
        let sidecar := drop_suffix SIDECAR_SUFFIX filename in
        let base := nullish sidecar filename in
        let sha256 := nullish (drop_suffix LEGACY_SUFFIX base) "" in
        if SHA256_RE sha256
        then Some (mkSwept key (match sidecar with None => k_legacy_image | Some _ => k_legacy_sidecar end)
                     bytes sha256 (Some imageKey))
        else None
  end.

Definition parseSweptObjectKey (key : string) (bytes : Z) : option SweptObject :=
  let found kind sha := if SHA256_RE sha then Some (mkSwept key kind bytes sha None) else None in
  match drop_prefix IMAGE_MANIFEST_PREFIX key with
  | Some rest => found k_manifest (nullish (drop_suffix ".json" rest) "")
  | None =>
  match drop_prefix IMAGE_CHUNK_PREFIX key with
  | Some rest => found k_chunk rest
  | None =>
  match drop_prefix ARTIFACT_PREFIX key with
  | Some rest => found k_boot_artifact rest
  | None =>
  match drop_prefix IMAGE_PREFIX key with
  | Some rest => parseLegacyKey key rest bytes
  | None => None
  end end end end.

(** * Lemmas: text *)

Lemma drop_prefix_app p r : drop_prefix p (p +:+ r) = Some r.
Proof.
  induction p as [|c p IH]; [done|]. change (String c p +:+ r) with (String c (p +:+ r)).
  cbn [drop_prefix]. by rewrite Ascii.eqb_refl.
Qed.

Lemma drop_prefix_inv p s r : drop_prefix p s = Some r -> s = p +:+ r.
Proof.
  revert s. induction p as [|c p IH]; intros s H; cbn [drop_prefix] in H; [by injection H|].
  destruct s as [|d s]; [done|]. destruct (Ascii.eqb c d) eqn:E; [|done].
  apply Ascii.eqb_eq in E as <-. by rewrite (IH s H).
Qed.

Lemma drop_suffix_app x r : drop_suffix x (r +:+ x) = Some r.
Proof.
  induction r as [|c r IH].
  - change ("" +:+ x) with x. destruct x; cbn [drop_suffix]; by rewrite String.eqb_refl.
  - change (String c r +:+ x) with (String c (r +:+ x)). cbn [drop_suffix].
    destruct (String c (r +:+ x) =s x) eqn:E; [|by rewrite IH].
    apply String.eqb_eq in E. pose proof (slen_app r x) as L. pose proof (slen_nonneg r).
    assert (slen x = 1 + slen (r +:+ x)) by (rewrite <- E at 1; unfold slen; cbn; lia). lia.
Qed.

Lemma drop_suffix_inv x s r : drop_suffix x s = Some r -> s = r +:+ x.
Proof.
  revert r. induction s as [|c s IH]; intros r H; cbn [drop_suffix] in H.
  - destruct ("" =s x) eqn:E; [|done]. apply String.eqb_eq in E as <-. by injection H as <-.
  - destruct (String c s =s x) eqn:E.
    + apply String.eqb_eq in E as <-. by injection H as <-.
    + destruct (drop_suffix x s) as [t|] eqn:E2; [|done]. injection H as <-.
      by rewrite (IH t eq_refl).
Qed.

Lemma split_last_app c a b :
  unit_free c b = true -> split_last c (a +:+ String c b) = Some (a, b).
Proof.
  intros Hb. assert (Hn : split_last c b = None).
  { induction b as [|d b IH]; [done|]. cbn [split_last unit_free] in *.
    apply andb_true_iff in Hb as [Hd Hb]. apply negb_true_iff in Hd. by rewrite IH, Hd. }
  induction a as [|d a IH].
  - change ("" +:+ String c b) with (String c b). cbn [split_last]. by rewrite Hn, Ascii.eqb_refl.
  - change (String d a +:+ String c b) with (String d (a +:+ String c b)).
    cbn [split_last]. by rewrite IH.
Qed.

Lemma split_last_inv c s a b :
  split_last c s = Some (a, b) -> s = a +:+ String c b.
Proof.
  revert a. induction s as [|d s IH]; intros a H; cbn [split_last] in H; [done|].
  destruct (split_last c s) as [[a' b']|] eqn:E.
  - injection H as <- <-. by rewrite (IH a' eq_refl).
  - destruct (Ascii.eqb d c) eqn:Ed; [|done]. apply Ascii.eqb_eq in Ed as ->.
    by injection H as <- <-.
Qed.

(** * Lemmas: slugs have no separator *)

Lemma dash_runs_free r s : unit_free slash_char (dash_runs r s) = true.
Proof.
  revert r. induction s as [|c s IH]; intros r; [done|]. cbn [dash_runs].
  destruct (isSlugChar _) eqn:E; [|by destruct r; cbn [unit_free]; rewrite ?IH].
  cbn [unit_free]. rewrite IH, andb_true_r. apply negb_true_iff, Ascii.eqb_neq. by intros ->.
Qed.

Lemma strip_dashes_start_free c s : unit_free c s = true -> unit_free c (strip_dashes_start s) = true.
Proof.
  induction s as [|d s IH]; [done|]. cbn [strip_dashes_start]. intros H.
  destruct (Ascii.eqb d dash_char); [|done]. cbn [unit_free] in H. by apply andb_true_iff in H as [_ H%IH].
Qed.

Lemma strip_dashes_end_free c s : unit_free c s = true -> unit_free c (strip_dashes_end s) = true.
Proof.
  induction s as [|d s IH]; [done|]. cbn [strip_dashes_end unit_free].
  intros [Hd Hs]%andb_true_iff. specialize (IH Hs).
  destruct (strip_dashes_end s) as [|e t].
  - destruct (Ascii.eqb d dash_char); [done|]. cbn [unit_free]. by rewrite Hd.
  - cbn [unit_free] in *. by rewrite Hd.
Qed.

Lemma safeSlug_free s : unit_free slash_char (safeSlug s) = true.
Proof. unfold safeSlug. apply strip_dashes_end_free, strip_dashes_start_free, dash_runs_free. Qed.

Lemma sha256_free s : SHA256_RE s = true -> unit_free slash_char s = true.
Proof.
  unfold SHA256_RE, matches_class. intros [_ H]%andb_true_iff.
  induction s as [|c s IH]; [done|]. cbn [code_units forallb unit_free] in *.
  apply andb_true_iff in H as [Hc Hs]. rewrite (IH Hs), andb_true_r.
  apply negb_true_iff, Ascii.eqb_neq. by intros ->.
Qed.

Lemma registryImageKey_nonempty k : (registryImageKey k =s "") = false.
Proof.
  apply String.eqb_neq. unfold registryImageKey. intros H.
  pose proof (f_equal slen H) as L. rewrite !slen_app in L.
  pose proof (slen_nonneg (safeSlug (ik_scenario k))). pose proof (slen_nonneg (safeSlug (ik_vm k))).
  pose proof (slen_nonneg (archName (ik_arch k))).
  change (slen "-") with 1 in L. change (slen "") with 0 in L. lia.
Qed.

(** * The sweep and the writers name the same objects *)

(** What a swept object's key says, spelled back. *)
Definition sweptKey (o : SweptObject) : string :=
  let legacy := IMAGE_PREFIX +:+ nullish (so_imageKey o) "" +:+ "/" +:+ so_sha256 o +:+ LEGACY_SUFFIX in
  match so_kind o with
  | k_manifest => imageManifestObjectKey (so_sha256 o)
  | k_chunk => imageChunkObjectKey (so_sha256 o)
  | k_boot_artifact => bootArtifactObjectKey (so_sha256 o)
  | k_legacy_image => legacy
  | k_legacy_sidecar => legacy +:+ SIDECAR_SUFFIX
  end.

Lemma no_sidecar_suffix s : drop_suffix SIDECAR_SUFFIX (s +:+ LEGACY_SUFFIX) = None.
Proof.
  destruct (drop_suffix _ _) as [r|] eqn:E; [|done]. exfalso.
  apply drop_suffix_inv in E.
  assert (L : forall a b : string, a +:+ LEGACY_SUFFIX = b +:+ SIDECAR_SUFFIX -> False); [|by eapply L].
  clear. intros a. induction a as [|c a IH]; intros b H.
  - assert (slen b = 1) as Lb.
    { pose proof (f_equal slen H) as Lh. rewrite !slen_app in Lh.
      change (slen "") with 0 in Lh. change (slen LEGACY_SUFFIX) with 8 in Lh.
      change (slen SIDECAR_SUFFIX) with 7 in Lh. lia. }
    destruct b as [|d [|e b]]; unfold slen in Lb; cbn in Lb; [lia| |lia].
    change ("" +:+ LEGACY_SUFFIX) with ".raw.zst" in H.
    change (String d "" +:+ SIDECAR_SUFFIX) with (String d ".sha256") in H. by injection H.
  - destruct b as [|d b].
    + change (String c a +:+ LEGACY_SUFFIX) with (String c (a +:+ LEGACY_SUFFIX)) in H.
      change ("" +:+ SIDECAR_SUFFIX) with ".sha256" in H. injection H as _ H.
      pose proof (f_equal slen H) as Lh. rewrite slen_app in Lh. pose proof (slen_nonneg a).
      change (slen LEGACY_SUFFIX) with 8 in Lh. change (slen "sha256") with 6 in Lh. lia.
    + change (String c a +:+ LEGACY_SUFFIX) with (String c (a +:+ LEGACY_SUFFIX)) in H.
      change (String d b +:+ SIDECAR_SUFFIX) with (String d (b +:+ SIDECAR_SUFFIX)) in H.
      injection H as _ H. by apply (IH b).
Qed.

Lemma legacy_filename_free s t :
  SHA256_RE s = true -> unit_free slash_char t = true -> unit_free slash_char (s +:+ t) = true.
Proof. intros Hs Ht. by rewrite unit_free_app, (sha256_free s Hs). Qed.

Lemma parse_legacy_image k sha bytes (Hs : SHA256_RE sha = true) :
  parseSweptObjectKey (imageObjectKey k sha) bytes =
    Some (mkSwept (imageObjectKey k sha) k_legacy_image bytes sha (Some (registryImageKey k))).
Proof.
  set (key := imageObjectKey k sha).
  change (parseSweptObjectKey key bytes) with
    (parseLegacyKey key (registryImageKey k +:+ String slash_char (sha +:+ LEGACY_SUFFIX)) bytes).
  unfold parseLegacyKey. rewrite split_last_app by (by apply legacy_filename_free).
  rewrite registryImageKey_nonempty, (no_sidecar_suffix sha). cbn [nullish].
  by rewrite drop_suffix_app; cbn [nullish]; rewrite Hs.
Qed.

Lemma parse_legacy_sidecar k sha bytes (Hs : SHA256_RE sha = true) :
  let key := imageObjectKey k sha +:+ SIDECAR_SUFFIX in
  parseSweptObjectKey key bytes =
    Some (mkSwept key k_legacy_sidecar bytes sha (Some (registryImageKey k))).
Proof.
  intros key.
  assert (E : key = IMAGE_PREFIX +:+
    (registryImageKey k +:+ String slash_char ((sha +:+ LEGACY_SUFFIX) +:+ SIDECAR_SUFFIX))).
  { unfold key, imageObjectKey. rewrite <- !str_app_assoc.
    change ("/" +:+ ?x) with (String slash_char x). done. }
  clearbody key. rewrite E. set (rest := registryImageKey k +:+ _).
  change (parseSweptObjectKey (IMAGE_PREFIX +:+ rest) bytes) with
    (parseLegacyKey (IMAGE_PREFIX +:+ rest) rest bytes).
  generalize (IMAGE_PREFIX +:+ rest). intros K. unfold parseLegacyKey, rest.
  rewrite split_last_app by (rewrite unit_free_app; by rewrite legacy_filename_free).
  rewrite registryImageKey_nonempty, drop_suffix_app. cbn [nullish].
  rewrite drop_suffix_app. cbn [nullish]. by rewrite Hs.
Qed.

Lemma parse_manifest_key sha bytes (Hs : SHA256_RE sha = true) :
  parseSweptObjectKey (imageManifestObjectKey sha) bytes =
    Some (mkSwept (imageManifestObjectKey sha) k_manifest bytes sha None).
Proof.
  unfold parseSweptObjectKey, imageManifestObjectKey.
  by rewrite drop_prefix_app, drop_suffix_app; cbn [nullish]; rewrite Hs.
Qed.
Lemma parse_chunk_key sha bytes (Hs : SHA256_RE sha = true) :
  parseSweptObjectKey (imageChunkObjectKey sha) bytes =
    Some (mkSwept (imageChunkObjectKey sha) k_chunk bytes sha None).
Proof.
  change (parseSweptObjectKey (imageChunkObjectKey sha) bytes) with
    (if SHA256_RE sha then Some (mkSwept (imageChunkObjectKey sha) k_chunk bytes sha None) else None).
  by rewrite Hs.
Qed.

(** The sweep reads every key the registry writes as the object it names: a
    manifest, a chunk, a boot artifact, a legacy image and its sidecar come back
    with their digest, and the source bundle of a build is never its to touch. *)
Theorem sweep_reads_written_keys k sha rev bytes (Hs : SHA256_RE sha = true) :
  parseSweptObjectKey (imageManifestObjectKey sha) bytes =
    Some (mkSwept (imageManifestObjectKey sha) k_manifest bytes sha None) /\
  parseSweptObjectKey (imageChunkObjectKey sha) bytes =
    Some (mkSwept (imageChunkObjectKey sha) k_chunk bytes sha None) /\
  parseSweptObjectKey (bootArtifactObjectKey sha) bytes =
    Some (mkSwept (bootArtifactObjectKey sha) k_boot_artifact bytes sha None) /\
  parseSweptObjectKey (imageObjectKey k sha) bytes =
    Some (mkSwept (imageObjectKey k sha) k_legacy_image bytes sha (Some (registryImageKey k))) /\
  parseSweptObjectKey (imageObjectKey k sha +:+ SIDECAR_SUFFIX) bytes =
    Some (mkSwept (imageObjectKey k sha +:+ SIDECAR_SUFFIX) k_legacy_sidecar bytes sha
            (Some (registryImageKey k))) /\
  parseSweptObjectKey (bundleObjectKey rev) bytes = None.
Proof.
  split_and!; [by apply parse_manifest_key|by apply parse_chunk_key| |by apply parse_legacy_image
    |by apply parse_legacy_sidecar|done].
  - change (parseSweptObjectKey (bootArtifactObjectKey sha) bytes) with
      (if SHA256_RE sha then Some (mkSwept (bootArtifactObjectKey sha) k_boot_artifact bytes sha None)
       else None).
    by rewrite Hs.
Qed.

(** A recognized key is spelled exactly by its kind, its image key and its
    digest, and the digest is one. *)
Lemma swept_key_exact key bytes o :
  parseSweptObjectKey key bytes = Some o ->
  so_key o = key /\ so_bytes o = bytes /\ sweptKey o = key /\ SHA256_RE (so_sha256 o) = true.
Proof.
  unfold parseSweptObjectKey.
  destruct (drop_prefix IMAGE_MANIFEST_PREFIX key) as [r|] eqn:E1.
  { apply drop_prefix_inv in E1. destruct (drop_suffix ".json" r) as [sha|] eqn:E2; cbn [nullish].
    - apply drop_suffix_inv in E2 as ->. destruct (SHA256_RE sha) eqn:Es; [|done].
      intros [= <-]. cbn. by rewrite E1.
    - by cbn. }
  destruct (drop_prefix IMAGE_CHUNK_PREFIX key) as [r|] eqn:E2.
  { apply drop_prefix_inv in E2. destruct (SHA256_RE r) eqn:Es; [|done]. intros [= <-]. by rewrite E2. }
  destruct (drop_prefix ARTIFACT_PREFIX key) as [r|] eqn:E3.
  { apply drop_prefix_inv in E3. destruct (SHA256_RE r) eqn:Es; [|done]. intros [= <-]. by rewrite E3. }
  destruct (drop_prefix IMAGE_PREFIX key) as [r|] eqn:E4; [|done].
  apply drop_prefix_inv in E4. unfold parseLegacyKey.
  destruct (split_last slash_char r) as [[a f]|] eqn:E5; [|done]. apply split_last_inv in E5 as ->.
  destruct (a =s "") eqn:Ea; [done|].
  destruct (drop_suffix SIDECAR_SUFFIX f) as [b|] eqn:E6; cbn [nullish];
    (destruct (drop_suffix LEGACY_SUFFIX _) as [sha|] eqn:E7; cbn [nullish]; [|by cbn]);
    destruct (SHA256_RE sha) eqn:Es; try done; intros [= <-]; cbn [so_key so_bytes so_sha256];
    apply drop_suffix_inv in E7; try apply drop_suffix_inv in E6; subst;
    (split_and!; [done|done| |done]); unfold sweptKey; cbn [so_kind so_imageKey so_sha256 nullish];
    rewrite <- ?str_app_assoc; done.
Qed.

(** Two recognized objects are the same object when their kind, image key and
    digest agree. *)
Lemma sweptKey_determines key bytes o key' bytes' o' :
  parseSweptObjectKey key bytes = Some o -> parseSweptObjectKey key' bytes' = Some o' ->
  so_kind o = so_kind o' -> so_sha256 o = so_sha256 o' -> so_imageKey o = so_imageKey o' -> key = key'.
Proof.
  intros (_ & _ & <- & _)%swept_key_exact (_ & _ & <- & _)%swept_key_exact Hk Hs Hi.
  unfold sweptKey. by rewrite Hk, Hs, Hi.
Qed.
