(* ===== verification/RetentionPlans.v ===== *)
(** What the registry still needs (lib/image-artifact-retention.ts): the members
    of a published manifest, the rollback snapshots, and the three plans that
    decide which builds, staged candidates and rollbacks stay. *)
From stdpp Require Import base list strings sorting.
From Stdlib Require Import ZArith Lia.
From S2P Require Import Prelude Json RunState Bridge DesiredState BuildScheduler RegistryKeys.

Open Scope string_scope.
Open Scope list_scope.
Open Scope Z_scope.

(** * Data *)

Inductive ImageRootSource : Type :=
| src_host_actual | src_live_pointer | src_rollback_snapshot | src_candidate_intent
| src_active_run | src_host_desired.

Record ImageRoot : Type := mkRoot {
  rt_scenarioId : string;
  rt_vmName : string;
  rt_arch : ImageArchitecture;
  rt_imageId : string;
  rt_source : ImageRootSource;
}.
Definition rootSlot (r : ImageRoot) : string :=
  imageRootKey (rt_scenarioId r) (rt_vmName r) (archName (rt_arch r)).

(** A stored manifest has the shape its publication validated; only the fields
    the registry reads are kept. *)
Record VmBootManifest : Type := mkBoot {
  bm_kernel_sha256 : string;
  bm_initrd_sha256 : string;
}.
Record ScenarioVmManifest : Type := mkVmManifest {
  vmf_name : string;
  vmf_image_key : ImageKey;
  vmf_image_id : string;
  vmf_chunk_manifest_sha256 : option string;
  vmf_boot : option VmBootManifest;
}.
Record ScenarioManifest : Type := mkManifest {
  mf_scenario_id : string;
  mf_vms : list ScenarioVmManifest;
}.

(** [new Set(values)], spread and sorted. *)
Definition sortedSet (values : list string) : list string := js_sort str_leb (Set_new values).

Definition manifestImageMembers (manifest : ScenarioManifest) (source : ImageRootSource)
  : list ImageRoot :=
  map (fun vm => mkRoot (trim (mf_scenario_id manifest)) (trim (vmf_name vm))
                   (ik_arch (vmf_image_key vm)) (vmf_image_id vm) source)
    (mf_vms manifest).

(** What a catalog entry boots, per VM. *)
Record CatalogVmClosure : Type := mkVmClosure {
  cl_vmName : string;
  cl_imageId : string;
  cl_chunkManifestSha256 : option string;
  cl_kernelSha256 : option string;
  cl_initrdSha256 : option string;
}.
Definition imageClosureSignature (vms : list CatalogVmClosure) : string :=
  join newline (js_sort str_leb
    (map (fun vm => join " " [trim (cl_vmName vm); cl_imageId vm;
                              nullish (cl_chunkManifestSha256 vm) "";
                              nullish (cl_kernelSha256 vm) ""; nullish (cl_initrdSha256 vm) ""])
       vms)).
Definition manifestImageClosureSignature (manifest : ScenarioManifest) : string :=
  imageClosureSignature
    (map (fun vm => mkVmClosure (vmf_name vm) (vmf_image_id vm) (vmf_chunk_manifest_sha256 vm)
                      (option_map bm_kernel_sha256 (vmf_boot vm))
                      (option_map bm_initrd_sha256 (vmf_boot vm)))
       (mf_vms manifest)).

(** The strings of a list of optional ones that hold text. *)
Definition present (values : list (option string)) : list string :=
  filter (fun s => truthy s = true) (omap id values).

Definition manifestImageIds (manifest : ScenarioManifest) : list string :=
  sortedSet (map vmf_image_id (mf_vms manifest)).
Definition manifestBootArtifactSha256s (manifest : ScenarioManifest) : list string :=
  sortedSet (present (flat_map (fun vm => [option_map bm_kernel_sha256 (vmf_boot vm);
                                           option_map bm_initrd_sha256 (vmf_boot vm)])
                        (mf_vms manifest))).
Definition manifestChunkManifestSha256s (manifest : ScenarioManifest) : list string :=
  sortedSet (present (map vmf_chunk_manifest_sha256 (mf_vms manifest))).

(** * Faults *)

(** A reference that cannot be read in full. *)
Record RegistryRetentionFault : Type := mkFault {
  rf_reference : string;
  rf_detail : string;
}.
Definition Read (A : Type) : Type := result RegistryRetentionFault A.
Definition fault {A} (reference detail : string) : Read A := Err (mkFault reference detail).

(** A loop that stops at the first fault. *)
Fixpoint mapRead {A B} (f : A -> Read B) (l : list A) : Read (list B) :=
  match l with
  | [] => Ok []
  | x :: l' => y <-? f x; ys <-? mapRead f l'; Ok (y :: ys)
  end.

Fixpoint readStringField (record : json) (keys : list string) : option string :=
  match keys with
  | [] => None
  | k :: keys' =>
      match readString (field record k) with
      | Some s => Some s
      | None => readStringField record keys'
      end
  end.
Fixpoint readArrayField (record : json) (keys : list string) (reference : string) : Read (list json) :=
  match keys with
  | [] => Ok []
  | k :: keys' =>
      match field record k with
      | None => readArrayField record keys' reference
      | Some (JArr l) => Ok l
      | Some _ => fault reference (k +:+ " is not an array")
      end
  end.
Fixpoint readRecordField (record : json) (keys : list string) : option json :=
  match keys with
  | [] => None
  | k :: keys' =>
      match field record k with
      | Some (JObj fs) => Some (JObj fs)
      | _ => readRecordField record keys'
      end
  end.
Definition requireImageArchitecture (value : option string) (reference : string)
  : Read ImageArchitecture :=
  match isImageArchitecture (option_map JStr value) with
  | Some a => Ok a
  | None => fault reference ("arch is missing or unsupported: " +:+ nullish value "null")
  end.

(** * Builds *)

Record RetentionBuildRow : Type := mkBuildRow {
  rb_buildId : string;
  rb_status : ImageBuildStatus;
  rb_members : list ImageRoot;
  rb_chunkManifestSha256s : list string;
  rb_bootArtifactSha256s : list string;
  rb_artifactsRetired : bool;
}.
Record BuildRetentionPlan : Type := mkBuildPlan {
  bp_keepBuildIds : list string;
  bp_retireBuildIds : list string;
}.

Definition RETENTION_ACTIVE_STATUSES : list ImageBuildStatus := [st_queued; st_assigned; st_building].

(** The images rooted per slot. *)
Definition rootedSlots (roots : list ImageRoot) : list (string * list string) :=
  fold_left (fun m r => Map_set (rootSlot r) (nullish (Map_get (rootSlot r) m) [] ++ [rt_imageId r]) m)
    roots [].
Definition memberRooted (slots : list (string * list string)) (member : ImageRoot) : bool :=
  match Map_get (rootSlot member) slots with
  | Some images => str_mem (rt_imageId member) images
  | None => false
  end.
Definition buildReusable (roots : list ImageRoot) (chunkManifests bootArtifacts : list string)
    (build : RetentionBuildRow) : bool :=
  existsb (fun s => bool_decide (rb_status build = s)) RETENTION_ACTIVE_STATUSES
  || (forallb (fun sha => str_mem sha chunkManifests) (rb_chunkManifestSha256s build)
      && forallb (fun sha => str_mem sha bootArtifacts) (rb_bootArtifactSha256s build)
      && forallb (memberRooted (rootedSlots roots)) (rb_members build)).

Definition planBuildRetention (builds : list RetentionBuildRow) (roots : list ImageRoot)
    (chunkManifests bootArtifacts : list string) : BuildRetentionPlan :=
  let owning := filter (fun b => rb_members b <> []) builds in
  let reusable := buildReusable roots chunkManifests bootArtifacts in
  mkBuildPlan
    (js_sort str_leb (map rb_buildId (filter (fun b => reusable b = true) owning)))
    (js_sort str_leb (map rb_buildId
       (filter (fun b => reusable b = false /\ rb_artifactsRetired b = false) owning))).

(** * Staged candidates *)

Record CandidateIntentRow : Type := mkIntent {
  it_id : string;
  it_scenarioId : string;
  it_organizationId : option string;
  it_revision : string;
  it_members : list ImageRoot;
  it_closure : string;
  it_stagedAt : Z;
}.
Record CandidateIntentPlan : Type := mkIntentPlan {
  ip_keepIds : list string;
  ip_retireIds : list string;
}.
Record ActiveRunCandidateRef : Type := mkRunRef {
  ar_scenarioId : string;
  ar_organizationId : option string;
  ar_revision : string;
}.
Definition candidateRefKey (scenarioId : string) (organizationId : option string) (revision : string)
  : string :=
  scenarioId +:+ newline +:+ nullish organizationId "" +:+ newline +:+ revision.
Definition candidateScopeKey (scenarioId : string) (organizationId : option string) : string :=
  scenarioId +:+ newline +:+ nullish organizationId "".
Definition intentScope (row : CandidateIntentRow) : string :=
  candidateScopeKey (it_scenarioId row) (it_organizationId row).

(** [row] takes the place of [current] as its scope's intent. *)
Definition supersedes (row current : CandidateIntentRow) : bool :=
  (it_stagedAt current <? it_stagedAt row)
  || (it_stagedAt row =? it_stagedAt current) && negb (str_leb (it_id row) (it_id current)).
(** The newest row per scope; a row is told from another by its place in the list. *)
Definition newestIntents (rows : list (nat * CandidateIntentRow))
  : list (string * (nat * CandidateIntentRow)) :=
  fold_left (fun m nr =>
    match Map_get (intentScope (snd nr)) m with
    | Some current => if supersedes (snd nr) (snd current) then Map_set (intentScope (snd nr)) nr m else m
    | None => Map_set (intentScope (snd nr)) nr m
    end) rows [].

Section intents.
Variable liveRevisionByScenario : list (string * option string).
Variable liveClosureByScenario : list (string * string).
Variable activeRunCandidates : list ActiveRunCandidateRef.

(** The catalog carries exactly this revision and this closure. *)
Definition intentFulfilled (row : CandidateIntentRow) : bool :=
  bool_decide (Map_get (it_scenarioId row) liveRevisionByScenario = Some (Some (it_revision row)))
  && bool_decide (Map_get (it_scenarioId row) liveClosureByScenario = Some (it_closure row)).
Definition intentOfActiveRun (row : CandidateIntentRow) : bool :=
  str_mem (candidateRefKey (it_scenarioId row) (it_organizationId row) (it_revision row))
    (map (fun c => candidateRefKey (ar_scenarioId c) (ar_organizationId c) (ar_revision c))
       activeRunCandidates).
Definition intentKept (newest : list (string * (nat * CandidateIntentRow)))
    (nr : nat * CandidateIntentRow) : bool :=
  intentOfActiveRun (snd nr)
  || bool_decide (option_map fst (Map_get (intentScope (snd nr)) newest) = Some (fst nr))
     && negb (intentFulfilled (snd nr)).

Definition planCandidateIntentRetention (rows : list CandidateIntentRow) : CandidateIntentPlan :=
  let numbered := imap pair rows in
  let newest := newestIntents numbered in
  mkIntentPlan
    (js_sort str_leb (map (fun nr => it_id (snd nr))
       (filter (fun nr => intentKept newest nr = true) numbered)))
    (js_sort str_leb (map (fun nr => it_id (snd nr))
       (filter (fun nr => intentKept newest nr = false) numbered))).
End intents.

(** * Rollback snapshots *)

Record SnapshotRetentionRow : Type := mkSnapshotRow {
  sr_id : string;
  sr_createdAt : Z;
  sr_snapshot : json;
}.
Record SnapshotTrim : Type := mkTrim {
  tr_id : string;
  tr_snapshot : json;
}.
Record SnapshotRetentionPlan : Type := mkSnapshotPlan {
  sp_keepIds : list string;
  sp_trims : list SnapshotTrim;
  sp_deleteIds : list string;
}.
Record SnapshotCoverage : Type := mkCoverage {
  cv_targetScenarioIds : list string;
  cv_scenarios : list json;
  cv_vms : list json;
  cv_probes : list json;
}.

Definition SNAPSHOT_REFERENCE : string := "scenario_catalog_snapshots.snapshot_json".

Definition readTarget (entry : json) : Read string :=
  match entry with
  | JStr s => if trim s =s "" then fault SNAPSHOT_REFERENCE "targetScenarioIds contains a non-string entry"
              else Ok (trim s)
  | _ => fault SNAPSHOT_REFERENCE "targetScenarioIds contains a non-string entry"
  end.
Definition readVmRecord (entry : json) : Read json :=
  match entry with
  | JObj fs => Ok (JObj fs)
  | _ => fault SNAPSHOT_REFERENCE "vms contains a non-object entry"
  end.
Definition readSnapshot (value : json) : Read SnapshotCoverage :=
  match value with
  | JObj _ =>
      targets <-? readArrayField value ["targetScenarioIds"] SNAPSHOT_REFERENCE;
      targetScenarioIds <-? mapRead readTarget targets;
      throw_if bool_decide (targetScenarioIds = [])
        with mkFault SNAPSHOT_REFERENCE "targetScenarioIds is empty";
      entries <-? readArrayField value ["vms"] SNAPSHOT_REFERENCE;
      vms <-? mapRead readVmRecord entries;
      scenarios <-? readArrayField value ["scenarios"] SNAPSHOT_REFERENCE;
      probes <-? readArrayField value ["probes"] SNAPSHOT_REFERENCE;
      Ok (mkCoverage targetScenarioIds scenarios vms probes)
  | _ => fault SNAPSHOT_REFERENCE "snapshot is not an object"
  end.

Definition readRecordScenarioId (value : json) : string :=
  match value with
  | JObj _ => nullish (readStringField value ["scenarioId"; "scenario_id"]) ""
  | _ => ""
  end.
Definition keepEntries (keep : list string) (entries : list json) : list json :=
  filter (fun entry => str_mem (readRecordScenarioId entry) keep = true) entries.
Definition trimSnapshot (snapshot : SnapshotCoverage) (keepScenarioIds : list string) : json :=
  JObj [("targetScenarioIds", JArr (map JStr (sortedSet keepScenarioIds)));
        ("scenarios", JArr (keepEntries keepScenarioIds (cv_scenarios snapshot)));
        ("vms", JArr (keepEntries keepScenarioIds (cv_vms snapshot)));
        ("probes", JArr (keepEntries keepScenarioIds (cv_probes snapshot)));
        ("schemaVersion", jint 1)].

Section snapshots.
Context `{Collation}.

(** Newest first. *)
Definition compareSnapshots (left right : SnapshotRetentionRow) : Z :=
  let age := sr_createdAt right - sr_createdAt left in
  if age =? 0 then localeCompare (sr_id right) (sr_id left) else age.
Definition newestFirst (rows : list SnapshotRetentionRow) : list SnapshotRetentionRow :=
  js_sort (fun l r => compareSnapshots l r <=? 0) rows.

(** One pass over the rows with the scenarios covered so far. *)
Fixpoint planSnapshots (covered : list string) (rows : list SnapshotRetentionRow)
  : Read SnapshotRetentionPlan :=
  match rows with
  | [] => Ok (mkSnapshotPlan [] [] [])
  | row :: rows' =>
      snapshot <-? readSnapshot (sr_snapshot row);
      let targets := cv_targetScenarioIds snapshot in
      let uncovered := filter (fun s => str_mem s covered = false) targets in
      plan <-? planSnapshots (covered ++ targets) rows';
      if bool_decide (uncovered = [])
      then Ok (mkSnapshotPlan (sp_keepIds plan) (sp_trims plan) (sr_id row :: sp_deleteIds plan))
      else if bool_decide (length uncovered = length targets)
      then Ok (mkSnapshotPlan (sr_id row :: sp_keepIds plan) (sp_trims plan) (sp_deleteIds plan))
      else Ok (mkSnapshotPlan (sp_keepIds plan)
                 (mkTrim (sr_id row) (trimSnapshot snapshot uncovered) :: sp_trims plan)
                 (sp_deleteIds plan))
  end.

Definition planSnapshotRetention (rows : list SnapshotRetentionRow) : Read SnapshotRetentionPlan :=
  plan <-? planSnapshots [] (newestFirst rows);
  Ok (mkSnapshotPlan (js_sort str_leb (sp_keepIds plan)) (sortBy tr_id (sp_trims plan))
        (js_sort str_leb (sp_deleteIds plan))).
End snapshots.

(** * Lemmas: reading *)

Lemma result_bind_Ok {E A B} (r : result E A) (k : A -> result E B) (b : B) :
  result_bind r k = Ok b -> exists a, r = Ok a /\ k a = Ok b.
Proof. destruct r as [a|e]; cbn; [|done]. by exists a. Qed.

(** Opens every step of a reader that succeeded. *)
Ltac open_reads H :=
  repeat (let a := fresh "a" in let Ha := fresh "Hread" in
          apply result_bind_Ok in H as (a & Ha & H));
  repeat match type of H with
         | (if ?b then Err _ else _) = Ok _ => destruct b eqn:?; [done|]
         end.

Lemma mapRead_Ok {A B} (f : A -> Read B) l l' :
  mapRead f l = Ok l' <-> Forall2 (fun x y => f x = Ok y) l l'.
Proof.
  split.
  - revert l'. induction l as [|x l IH]; intros l' H; cbn in H; [injection H as <-; constructor|].
    apply result_bind_Ok in H as (y & Hy & H). apply result_bind_Ok in H as (ys & Hys & H).
    injection H as <-. constructor; auto.
  - induction 1 as [|x y l l' Hx _ IH]; [done|]. cbn. rewrite Hx. cbn. by rewrite IH.
Qed.

Lemma mapRead_app {A B} (f : A -> Read B) l1 l2 l' :
  mapRead f (l1 ++ l2) = Ok l' ->
  exists l1' l2', l' = l1' ++ l2' /\ mapRead f l1 = Ok l1' /\ mapRead f l2 = Ok l2'.
Proof.
  rewrite mapRead_Ok. intros (l1' & l2' & H1 & H2 & ->)%Forall2_app_inv_l.
  exists l1', l2'. by rewrite !mapRead_Ok.
Qed.

(** What a loop that succeeded read of one element is in its result. *)
Lemma mapRead_In {A B} (f : A -> Read B) l l' x :
  mapRead f l = Ok l' -> In x l -> exists y, f x = Ok y /\ In y l'.
Proof.
  rewrite mapRead_Ok. induction 1 as [|x' y' l l' Hx _ IH]; [done|].
  intros [->|Hin]; [exists y'; cbn; auto|]. destruct (IH Hin) as (y & ? & ?). exists y. cbn; auto.
Qed.

Lemma mapRead_In_inv {A B} (f : A -> Read B) l l' y :
  mapRead f l = Ok l' -> In y l' -> exists x, f x = Ok y /\ In x l.
Proof.
  rewrite mapRead_Ok. induction 1 as [|x' y' l l' Hx _ IH]; [done|].
  intros [->|Hin]; [exists x'; cbn; auto|]. destruct (IH Hin) as (x & ? & ?). exists x. cbn; auto.
Qed.

Lemma js_sort_In {A} le (l : list A) x : In x (js_sort le l) <-> In x l.
Proof. by rewrite <- !list_elem_of_In, (js_sort_perm le l). Qed.

Lemma sortedSet_In l x : In x (sortedSet l) <-> In x l.
Proof. unfold sortedSet. by rewrite js_sort_In, Set_new_In. Qed.

Lemma present_In l x : In x (present l) <-> In (Some x) l /\ x <> "".
Proof.
  unfold present. rewrite <- list_elem_of_In, list_elem_of_filter, list_elem_of_omap, truthy_spec.
  setoid_rewrite list_elem_of_In. split.
  - intros (Hx & o & Ho & E). cbn in E. subst o. auto.
  - intros [Ho Hx]. split; [done|]. by exists (Some x).
Qed.

Lemma filter_In_iff {A} (P : A -> Prop) `{!forall x, Decision (P x)} l x :
  In x (filter P l) <-> In x l /\ P x.
Proof. rewrite <- !list_elem_of_In, list_elem_of_filter. tauto. Qed.

(** * Builds that stay *)

Lemma rootedSlots_has roots slot image :
  (exists images, Map_get slot (rootedSlots roots) = Some images /\ In image images) <->
  exists r, In r roots /\ rootSlot r = slot /\ rt_imageId r = image.
Proof.
  unfold rootedSlots. induction roots as [|r roots IH] using rev_ind.
  { cbn. split; [intros (? & ? & _)|intros (? & [] & _)]; done. }
  rewrite fold_left_app. cbn [fold_left]. set (m := fold_left _ roots []) in *.
  setoid_rewrite in_app_iff.
  assert (Hr : (exists x, (In x roots \/ In x [r]) /\ rootSlot x = slot /\ rt_imageId x = image) <->
          (exists x, In x roots /\ rootSlot x = slot /\ rt_imageId x = image) \/
          rootSlot r = slot /\ rt_imageId r = image) by (cbn; naive_solver).
  rewrite Hr, <- IH. destruct (decide (rootSlot r = slot)) as [<-|Hn].
  - rewrite Map_get_set_eq. destruct (Map_get (rootSlot r) m) as [l|]; cbn [nullish].
    + split.
      * intros (? & [= <-] & Hin). apply in_app_iff in Hin as [Hin|[<-|[]]]; eauto.
      * intros [(? & [= <-] & Hin)|[_ <-]]; eexists; split; try done; apply in_app_iff; cbn; auto.
    + split.
      * intros (? & [= <-] & [<-|[]]). auto.
      * intros [(? & ? & _)|[_ <-]]; [done|]. eexists. split; [done|]. cbn. auto.
  - rewrite Map_get_set_ne by done. naive_solver.
Qed.

Lemma memberRooted_spec roots member :
  memberRooted (rootedSlots roots) member = true <->
  exists r, In r roots /\ rootSlot r = rootSlot member /\ rt_imageId r = rt_imageId member.
Proof.
  unfold memberRooted. rewrite <- rootedSlots_has.
  destruct (Map_get _ _) as [images|]; [rewrite str_mem_In|]; naive_solver.
Qed.

(** A build is available while it is in progress, or while a reference roots
    every image and names every artifact of it. *)
Definition buildAvailable (roots : list ImageRoot) (chunkManifests bootArtifacts : list string)
    (b : RetentionBuildRow) : Prop :=
  In (rb_status b) RETENTION_ACTIVE_STATUSES \/
  (forall sha, In sha (rb_chunkManifestSha256s b) -> In sha chunkManifests) /\
  (forall sha, In sha (rb_bootArtifactSha256s b) -> In sha bootArtifacts) /\
  (forall member, In member (rb_members b) ->
     exists r, In r roots /\ rootSlot r = rootSlot member /\ rt_imageId r = rt_imageId member).

Lemma buildReusable_spec roots cm ba b :
  buildReusable roots cm ba b = true <-> buildAvailable roots cm ba b.
Proof.
  unfold buildReusable, buildAvailable. rewrite orb_true_iff, !andb_true_iff, !forallb_forall.
  rewrite existsb_exists. setoid_rewrite bool_decide_eq_true. setoid_rewrite str_mem_In.
  setoid_rewrite memberRooted_spec. naive_solver.
Qed.

(** Retention keeps exactly the builds that are available, and retires exactly
    those that are not and are not retired yet; a row without a published
    manifest is neither. *)
Theorem build_retention_exact builds roots cm ba id :
  let plan := planBuildRetention builds roots cm ba in
  (In id (bp_keepBuildIds plan) <->
   exists b, In b builds /\ rb_buildId b = id /\ rb_members b <> [] /\ buildAvailable roots cm ba b) /\
  (In id (bp_retireBuildIds plan) <->
   exists b, In b builds /\ rb_buildId b = id /\ rb_members b <> [] /\
     ~ buildAvailable roots cm ba b /\ rb_artifactsRetired b = false).
Proof.
  cbn zeta. unfold planBuildRetention. cbn [bp_keepBuildIds bp_retireBuildIds].
  rewrite !js_sort_In, !in_map_iff. setoid_rewrite filter_In_iff. setoid_rewrite filter_In_iff.
  setoid_rewrite <- (buildReusable_spec roots cm ba). setoid_rewrite not_true_iff_false.
  split; split; intros (b & ?); exists b; tauto.
Qed.

(** * Candidates that stay *)

Lemma numbered_In {A} (rows : list A) i r : In (i, r) (imap pair rows) <-> rows !! i = Some r.
Proof.
  rewrite <- list_elem_of_In, list_elem_of_lookup. setoid_rewrite list_lookup_imap. split.
  - intros (j & E). destruct (rows !! j) eqn:Ej; cbn in E; [|done]. by injection E as <- <-.
  - intros E. exists i. by rewrite E.
Qed.

Lemma supersedes_iff x y :
  supersedes x y = true <->
  it_stagedAt y < it_stagedAt x \/ it_stagedAt x = it_stagedAt y /\ str_leb (it_id x) (it_id y) = false.
Proof. unfold supersedes. rewrite orb_true_iff, andb_true_iff, negb_true_iff, Z.ltb_lt, Z.eqb_eq. done. Qed.

Lemma supersedes_trans x y z : supersedes x y = true -> supersedes y z = true -> supersedes x z = true.
Proof.
  rewrite !supersedes_iff.
  intros [?|[E1 H1]] [?|[E2 H2]]; [left; lia..|right]. split; [congruence|].
  apply not_true_iff_false. intros H. apply not_true_iff_false in H1. apply H1.
  destruct (str_leb_total (it_id y) (it_id z)) as [Hyz|Hzy]; [congruence|].
  by apply str_leb_trans with (it_id z).
Qed.

(** Two rows of which neither supersedes the other have the same id. *)
Lemma supersedes_tie x y : supersedes x y = false -> supersedes y x = false -> it_id x = it_id y.
Proof.
  intros H1 H2. destruct (decide (it_stagedAt x = it_stagedAt y)) as [E|E].
  - apply str_leb_antisym; apply not_false_iff_true; intros Hf;
      [apply not_true_iff_false in H1; apply H1|apply not_true_iff_false in H2; apply H2];
      rewrite supersedes_iff; right; auto.
  - destruct (Z.lt_ge_cases (it_stagedAt x) (it_stagedAt y)).
    + apply not_true_iff_false in H2. destruct H2. rewrite supersedes_iff. by left.
    + apply not_true_iff_false in H1. destruct H1. rewrite supersedes_iff. left. lia.
Qed.

Lemma newestIntents_spec rows scope :
  match Map_get scope (newestIntents rows) with
  | Some nr => In nr rows /\ intentScope (snd nr) = scope /\
      forall x, In x rows -> intentScope (snd x) = scope -> supersedes (snd x) (snd nr) = false
  | None => forall x, In x rows -> intentScope (snd x) <> scope
  end.
Proof.
  unfold newestIntents. induction rows as [|n rows IH] using rev_ind; [by intros x []|].
  rewrite fold_left_app. cbn [fold_left]. set (m := fold_left _ rows []) in *. clearbody m.
  assert (Hirr : forall x, supersedes x x = false).
  { intros x. unfold supersedes. rewrite str_leb_refl, Z.ltb_irrefl. by rewrite andb_false_r. }
  destruct (decide (intentScope (snd n) = scope)) as [E|E].
  - rewrite E. destruct (Map_get scope m) as [c|] eqn:Ec.
    + destruct IH as (Hc & Hs & Hmax). destruct (supersedes (snd n) (snd c)) eqn:En.
      * rewrite Map_get_set_eq. split_and!; [apply in_app_iff; cbn; auto|done|].
        intros x [Hx|[<-|[]]]%in_app_iff Hxs; [|by apply Hirr].
        apply not_true_iff_false. intros Hx2.
        pose proof (supersedes_trans _ _ _ Hx2 En) as Ht. rewrite Hmax in Ht; done.
      * rewrite Ec. split_and!; [apply in_app_iff; auto|done|].
        intros x [Hx|[<-|[]]]%in_app_iff Hxs; auto.
    + rewrite Map_get_set_eq. split_and!; [apply in_app_iff; cbn; auto|done|].
      intros x [Hx|[<-|[]]]%in_app_iff Hxs; [by destruct (IH x Hx)|apply Hirr].
  - assert (Hm : Map_get scope
      match Map_get (intentScope (snd n)) m with
      | Some current => if supersedes (snd n) (snd current) then Map_set (intentScope (snd n)) n m else m
      | None => Map_set (intentScope (snd n)) n m
      end = Map_get scope m).
    { repeat case_match; rewrite ?Map_get_set_ne by done; done. }
    rewrite Hm. destruct (Map_get scope m) as [c|].
    + destruct IH as (Hc & Hs & Hmax). split_and!; [apply in_app_iff; auto|done|].
      intros x [Hx|[<-|[]]]%in_app_iff Hxs; auto. done.
    + intros x [Hx|[<-|[]]]%in_app_iff; auto.
Qed.

(** The intent a tenant's scenario waits for: the newest row of its scope. *)
Definition newestOfScope (rows : list CandidateIntentRow) (row : CandidateIntentRow) : Prop :=
  forall r, In r rows -> intentScope r = intentScope row -> supersedes r row = false.

Lemma newest_number rows i row (Hids : NoDup (map it_id rows)) (Hi : rows !! i = Some row) :
  option_map fst (Map_get (intentScope row) (newestIntents (imap pair rows))) = Some i <->
  newestOfScope rows row.
Proof.
  pose proof (newestIntents_spec (imap pair rows) (intentScope row)) as Hn.
  assert (Hin : In (i, row) (imap pair rows)) by by apply numbered_In.
  destruct (Map_get _ _) as [[j r]|]; [|by destruct (Hn _ Hin)].
  destruct Hn as (Hj & Hs & Hmax). apply numbered_In in Hj. cbn [option_map fst snd] in *. split.
  - intros [= ->]. assert (r = row) as -> by congruence. intros x Hx Hxs.
    apply list_elem_of_In, list_elem_of_lookup in Hx as (k & Hk).
    apply (Hmax (k, x)); [by apply numbered_In|done].
  - intros Hrow. f_equal.
    assert (it_id r = it_id row) as E.
    { apply supersedes_tie; [|by apply (Hmax (i, row))]. apply Hrow; [|done].
      apply list_elem_of_In, list_elem_of_lookup. by exists j. }
    eapply (NoDup_lookup (map it_id rows)); [done| |]; rewrite list_lookup_fmap.
    + by rewrite Hj.
    + rewrite Hi. cbn. congruence.
Qed.

(** A staged candidate stays exactly while a run in flight was admitted from it,
    or while it is the newest of its tenant's scenario and the catalog does not
    yet carry its revision with its images; every other row is retired. *)
Theorem candidate_retention_exact revisions closures runs rows
  (Hids : NoDup (map it_id rows)) row (Hrow : In row rows) :
  let plan := planCandidateIntentRetention revisions closures runs rows in
  let stays := intentOfActiveRun runs row = true \/
    newestOfScope rows row /\ intentFulfilled revisions closures row = false in
  (In (it_id row) (ip_keepIds plan) <-> stays) /\ (In (it_id row) (ip_retireIds plan) <-> ~ stays).
Proof.
  cbn zeta. apply list_elem_of_In, list_elem_of_lookup in Hrow as (i & Hi).
  set (kept := intentKept revisions closures runs (newestIntents (imap pair rows)) (i, row)).
  assert (Hkept : kept = true <-> intentOfActiveRun runs row = true \/
      newestOfScope rows row /\ intentFulfilled revisions closures row = false).
  { unfold kept, intentKept. cbn [fst snd].
    rewrite orb_true_iff, andb_true_iff, bool_decide_eq_true, negb_true_iff, newest_number by done. done. }
  assert (Hone : forall b : bool, In (it_id row) (js_sort str_leb (map (fun nr => it_id (snd nr))
      (filter (fun nr => intentKept revisions closures runs (newestIntents (imap pair rows)) nr = b)
         (imap pair rows)))) <-> kept = b).
  { intros b. rewrite js_sort_In, in_map_iff. setoid_rewrite filter_In_iff. split.
    - intros ([j r] & Er & Hj & Hk). apply numbered_In in Hj. cbn [snd] in Er.
      assert (j = i) as ->.
      { eapply (NoDup_lookup (map it_id rows)); [done|..]; rewrite list_lookup_fmap;
          [by rewrite Hj|rewrite Hi; cbn; congruence]. }
      assert (r = row) as -> by congruence. done.
    - intros Hk. exists (i, row). split_and!; [done|by apply numbered_In|done]. }
  cbn [planCandidateIntentRetention ip_keepIds ip_retireIds]. rewrite <- Hkept, not_true_iff_false.
  split; apply Hone.
Qed.

(** * Rollbacks that stay *)

(** A target as a snapshot holds it: trimmed and not empty. *)
Definition targetText (s : string) : Prop := trim s = s /\ s <> "".

Lemma readTarget_text entry s : readTarget entry = Ok s -> targetText s.
Proof.
  destruct entry as [| | |t| |]; try done. cbn [readTarget].
  destruct (trim t =s "") eqn:E; [done|]. intros [= <-]. split; [apply trim_idem|by apply String.eqb_neq].
Qed.

Lemma readTargets_strings l : Forall targetText l -> mapRead readTarget (map JStr l) = Ok l.
Proof.
  rewrite mapRead_Ok. induction 1 as [|s l [Ht Hs] _ IH]; cbn [map]; constructor; [|done].
  cbn [readTarget]. rewrite Ht. apply String.eqb_neq in Hs. by rewrite Hs.
Qed.

Record coverage_wf (cov : SnapshotCoverage) : Prop := mk_coverage_wf {
  cw_some : cv_targetScenarioIds cov <> [];
  cw_targets : Forall targetText (cv_targetScenarioIds cov);
  cw_vms : mapRead readVmRecord (cv_vms cov) = Ok (cv_vms cov);
}.

Lemma readSnapshot_wf v cov : readSnapshot v = Ok cov -> coverage_wf cov.
Proof.
  unfold readSnapshot. destruct v as [| | | | |fs]; try done. intros H.
  apply result_bind_Ok in H as (targets & _ & H). apply result_bind_Ok in H as (ids & Hids & H).
  destruct (bool_decide (ids = [])) eqn:E; [done|]. apply bool_decide_eq_false in E.
  apply result_bind_Ok in H as (entries & _ & H). apply result_bind_Ok in H as (vms & Hvms & H).
  apply result_bind_Ok in H as (sc & _ & H). apply result_bind_Ok in H as (pr & _ & H).
  injection H as <-. apply mapRead_Ok in Hids. apply mapRead_Ok in Hvms. constructor; [done|..].
  - cbn. clear E. induction Hids as [|x y l l' Hx _ IH]; constructor; [by eapply readTarget_text|done].
  - cbn. apply mapRead_Ok. induction Hvms as [|x y l l' Hx _ IH]; constructor; [|done].
    destruct x; try done. by injection Hx as <-.
Qed.

Lemma keepEntries_records keep vms :
  mapRead readVmRecord vms = Ok vms ->
  mapRead readVmRecord (keepEntries keep vms) = Ok (keepEntries keep vms).
Proof.
  rewrite !mapRead_Ok, !Forall2_same_length_lookup. intros [_ H]. split; [done|].
  intros i x y Hx Hy. assert (x = y) as <- by congruence.
  apply list_elem_of_lookup_2, list_elem_of_filter in Hx as [_ Hx].
  apply list_elem_of_lookup in Hx as (j & Hj). by apply (H j).
Qed.

(** A trimmed snapshot reads back as what it was trimmed to. *)
Lemma readSnapshot_trim cov keep :
  coverage_wf cov -> keep <> [] -> Forall targetText keep ->
  readSnapshot (trimSnapshot cov keep) =
    Ok (mkCoverage (sortedSet keep) (keepEntries keep (cv_scenarios cov))
          (keepEntries keep (cv_vms cov)) (keepEntries keep (cv_probes cov))).
Proof.
  intros [_ _ Hvms] Hne Hk. unfold readSnapshot, trimSnapshot.
  change (readArrayField _ ["targetScenarioIds"] _) with
    (@Ok RegistryRetentionFault _ (map JStr (sortedSet keep))).
  cbn [result_bind]. rewrite readTargets_strings.
  2:{ apply List.Forall_forall. intros s Hs. rewrite sortedSet_In in Hs. by apply (proj1 (List.Forall_forall _ _) Hk). }
  cbn [result_bind]. rewrite bool_decide_eq_false_2.
  2:{ intros E. destruct keep as [|s keep]; [done|].
      assert (In s (sortedSet (s :: keep))) as Hs by (apply sortedSet_In; cbn; auto). by rewrite E in Hs. }
  change (readArrayField _ ["vms"] _) with (@Ok RegistryRetentionFault _ (keepEntries keep (cv_vms cov))).
  cbn [result_bind]. rewrite keepEntries_records by done. done.
Qed.

(** The scenarios a stored snapshot covers. *)
Definition coverOf (snapshot : json) : list string :=
  match readSnapshot snapshot with Ok cov => cv_targetScenarioIds cov | Err _ => [] end.
Definition covers (row : SnapshotRetentionRow) (s : string) : Prop := In s (coverOf (sr_snapshot row)).

(** The statements of a plan: each trim rewrites the row of its id, then the
    deleted rows go. *)
Definition trimRow (t : SnapshotTrim) (row : SnapshotRetentionRow) : SnapshotRetentionRow :=
  if sr_id row =s tr_id t then mkSnapshotRow (sr_id row) (sr_createdAt row) (tr_snapshot t) else row.
Definition applySnapshotPlan (plan : SnapshotRetentionPlan) (rows : list SnapshotRetentionRow)
  : list SnapshotRetentionRow :=
  filter (fun row => str_mem (sr_id row) (sp_deleteIds plan) = false)
    (fold_left (fun rows t => map (trimRow t) rows) (sp_trims plan) rows).

(** What a plan leaves [row] covering. *)
Definition leftCovering (plan : SnapshotRetentionPlan) (row : SnapshotRetentionRow) (s : string) : Prop :=
  In (sr_id row) (sp_keepIds plan) /\ covers row s \/
  exists t, In t (sp_trims plan) /\ tr_id t = sr_id row /\ In s (coverOf (tr_snapshot t)).

(** Every row is kept, trimmed or deleted. *)
Definition planIds (plan : SnapshotRetentionPlan) : list string :=
  sp_keepIds plan ++ map tr_id (sp_trims plan) ++ sp_deleteIds plan.

Lemma planSnapshots_ids covered rows plan :
  planSnapshots covered rows = Ok plan -> planIds plan ≡ₚ map sr_id rows.
Proof.
  revert covered plan. induction rows as [|row rows IH]; intros covered plan H; cbn [planSnapshots] in H.
  { by injection H as <-. }
  apply result_bind_Ok in H as (cov & Hcov & H). apply result_bind_Ok in H as (p & Hp & H).
  apply IH in Hp. cbn [map]. rewrite <- Hp. unfold planIds.
  case_bool_decide; [|case_bool_decide]; injection H as <-; cbn [sp_keepIds sp_trims sp_deleteIds map].
  - rewrite !Permutation_middle. solve_Permutation.
  - done.
  - rewrite Permutation_middle. done.
Qed.

Lemma filter_all_length {A} (P : A -> Prop) `{!forall x, Decision (P x)} l :
  length (filter P l) = length l -> Forall P l.
Proof.
  induction l as [|x l IH]; [constructor|]. rewrite filter_cons. case_decide; cbn; intros Hl.
  - constructor; [done|]. apply IH. lia.
  - pose proof (length_filter P l). lia.
Qed.

Lemma filter_id {A} (P : A -> Prop) `{!forall x, Decision (P x)} l :
  (forall x, In x l -> P x) -> filter P l = l.
Proof.
  induction l as [|x l IH]; [done|]. intros Hall.
  rewrite filter_cons_True by (apply Hall; by left). f_equal. apply IH. intros y Hy. apply Hall. by right.
Qed.

Lemma readable_cover row cov :
  readSnapshot (sr_snapshot row) = Ok cov -> forall s, covers row s <-> In s (cv_targetScenarioIds cov).
Proof. intros H s. unfold covers, coverOf. by rewrite H. Qed.

Lemma trim_cover cov keep s :
  coverage_wf cov -> keep <> [] -> (forall x, In x keep -> In x (cv_targetScenarioIds cov)) ->
  In s (coverOf (trimSnapshot cov keep)) <-> In s keep.
Proof.
  intros Hw Hne Hsub. unfold coverOf. rewrite readSnapshot_trim; [|done|done|].
  - cbn. apply sortedSet_In.
  - apply List.Forall_forall. intros x Hx. pose proof (cw_targets _ Hw) as Ht.
    rewrite List.Forall_forall in Ht. by apply Ht, Hsub.
Qed.

Lemma planIds_In plan id :
  In id (planIds plan) <->
  In id (sp_keepIds plan) \/ (exists t, In t (sp_trims plan) /\ tr_id t = id) \/ In id (sp_deleteIds plan).
Proof. unfold planIds. rewrite !in_app_iff, in_map_iff. naive_solver. Qed.

(** A pass leaves a row covering exactly the scenarios that nothing before it
    covers. *)
Lemma planSnapshots_left covered rows plan pre row post s :
  NoDup (map sr_id rows) -> planSnapshots covered rows = Ok plan -> rows = pre ++ row :: post ->
  leftCovering plan row s <->
  covers row s /\ ~ In s covered /\ forall r, In r pre -> ~ covers r s.
Proof.
  revert covered plan pre. induction rows as [|r0 rows IH]; intros covered plan pre Hn H Hsplit.
  { by destruct pre. }
  cbn [planSnapshots] in H. apply result_bind_Ok in H as (cov & Hcov & H).
  apply result_bind_Ok in H as (p & Hp & H). cbn [map] in Hn. apply NoDup_cons in Hn as [Hfresh Hn].
  pose proof (readSnapshot_wf _ _ Hcov) as Hw. pose proof (readable_cover _ _ Hcov) as Hc0.
  set (uncovered := filter (fun s => str_mem s covered = false) (cv_targetScenarioIds cov)) in *.
  assert (Hu : forall x, In x uncovered <-> covers r0 x /\ ~ In x covered).
  { intros x. unfold uncovered. by rewrite filter_In_iff, str_mem_false, Hc0. }
  assert (Hids : ~ In (sr_id r0) (planIds p)).
  { rewrite <- list_elem_of_In, (planSnapshots_ids _ _ _ Hp). done. }
  rewrite planIds_In in Hids.
  destruct pre as [|r1 pre]; cbn [app] in Hsplit; injection Hsplit as <- Hrows.
  - subst rows.
    assert (Hr : (covers r0 s /\ ~ In s covered /\ (forall r, In r [] -> ~ covers r s)) <-> In s uncovered)
      by (rewrite Hu; cbn; naive_solver).
    rewrite Hr. clear Hr. unfold leftCovering.
    case_bool_decide as E0; [|case_bool_decide as E1]; injection H as <-;
      cbn [sp_keepIds sp_trims sp_deleteIds In].
    + rewrite E0. split; [|done]. intros [[Hk _]|(t & Ht & Hid & _)]; destruct Hids; eauto.
    + assert (Hall : forall x, In x uncovered <-> covers r0 x).
      { apply filter_all_length in E1. rewrite List.Forall_forall in E1.
        intros x. rewrite Hu. split; [naive_solver|]. intros Hx. split; [done|].
        apply str_mem_false, E1. by apply Hc0. }
      rewrite Hall. split; [|by auto].
      intros [[_ Hk]|(t & Ht & Hid & _)]; [done|destruct Hids; eauto].
    + pose proof (trim_cover cov uncovered s Hw E0) as Ht.
      assert (forall x, In x uncovered -> In x (cv_targetScenarioIds cov)) as Hsub.
      { intros x Hx. rewrite Hu, Hc0 in Hx. by destruct Hx. }
      specialize (Ht Hsub). split.
      * intros [[Hk _]|(t & [<-|Ht2] & Hid & Hin)]; [destruct Hids; auto|by apply Ht|destruct Hids; eauto].
      * intros Hin. right. eexists. split; [by left|]. cbn. split; [done|by apply Ht].
  - specialize (IH (covered ++ cv_targetScenarioIds cov) p pre Hn Hp Hrows).
    assert (sr_id row <> sr_id r0) as Hne.
    { intros E. apply Hfresh. rewrite <- E, Hrows. apply list_elem_of_In, in_map_iff.
      exists row. split; [done|]. apply in_app_iff. cbn. auto. }
    assert (Hl : leftCovering plan row s <-> leftCovering p row s).
    { unfold leftCovering. case_bool_decide; [|case_bool_decide]; injection H as <-;
        cbn [sp_keepIds sp_trims In]; naive_solver. }
    rewrite Hl, IH, in_app_iff, <- Hc0. cbn [In]. naive_solver.
Qed.

(** Of the rows of a pass, at most one is left covering a scenario. *)
Lemma left_unique covered rows p r1 r2 s :
  NoDup (map sr_id rows) -> planSnapshots covered rows = Ok p -> In r1 rows -> In r2 rows ->
  leftCovering p r1 s -> leftCovering p r2 s -> r1 = r2.
Proof.
  intros Hn Hp H1 H2 L1 L2. apply list_elem_of_In, list_elem_of_split in H1 as (pre & post & E).
  pose proof L1 as (C1 & _ & Hpre)%(planSnapshots_left covered rows p pre r1 post s Hn Hp E).
  rewrite E in H2. apply in_app_iff in H2 as [H2|[->|H2]]; [|done|].
  - apply list_elem_of_In, list_elem_of_split in H2 as (p1 & p2 & ->).
    rewrite <- app_assoc in E. cbn [app] in E.
    apply (planSnapshots_left _ _ p p1 r2 _ s Hn Hp E) in L2 as (C2 & _).
    destruct (Hpre r2); [|done]. apply in_app_iff. cbn. auto.
  - apply list_elem_of_In, list_elem_of_split in H2 as (p1 & p2 & ->).
    change (pre ++ r1 :: p1 ++ r2 :: p2) with (pre ++ (r1 :: p1) ++ r2 :: p2) in E.
    rewrite app_assoc in E.
    apply (planSnapshots_left _ _ p _ r2 p2 s Hn Hp E) in L2 as (_ & _ & Hno).
    destruct (Hno r1); [|done]. apply in_app_iff. cbn. auto.
Qed.

(** Reading every row is what the pass needs to answer. *)
Lemma planSnapshots_readable covered rows :
  (exists plan, planSnapshots covered rows = Ok plan) <->
  forall row, In row rows -> exists cov, readSnapshot (sr_snapshot row) = Ok cov.
Proof.
  split.
  - intros [plan H]. revert covered plan H. induction rows as [|r rows IH]; intros covered plan H; [done|].
    cbn [planSnapshots] in H. apply result_bind_Ok in H as (cov & Hcov & H).
    apply result_bind_Ok in H as (p & Hp & _). intros row [<-|Hin]; eauto.
  - revert covered. induction rows as [|r rows IH]; intros covered H; [eexists; done|].
    destruct (H r) as [cov Hcov]; [by left|].
    destruct (IH (covered ++ cv_targetScenarioIds cov)) as [p Hp]; [by intros; apply H; right|].
    cbn [planSnapshots]. rewrite Hcov. cbn [result_bind]. rewrite Hp. cbn [result_bind].
    repeat case_bool_decide; eexists; done.
Qed.

Section rollbacks.
Context `{Collation}.

Lemma compareSnapshots_total l r :
  (compareSnapshots l r <=? 0) = true \/ (compareSnapshots r l <=? 0) = true.
Proof.
  rewrite !Z.leb_le. unfold compareSnapshots.
  destruct (sr_createdAt r - sr_createdAt l =? 0) eqn:E1, (sr_createdAt l - sr_createdAt r =? 0) eqn:E2;
    try lia. pose proof (localeCompare_total (sr_id r) (sr_id l)). lia.
Qed.

Lemma compareSnapshots_trans a b c :
  (compareSnapshots a b <=? 0) = true -> (compareSnapshots b c <=? 0) = true ->
  (compareSnapshots a c <=? 0) = true.
Proof.
  rewrite !Z.leb_le. unfold compareSnapshots.
  destruct (sr_createdAt b - sr_createdAt a =? 0) eqn:E1, (sr_createdAt c - sr_createdAt b =? 0) eqn:E2,
    (sr_createdAt c - sr_createdAt a =? 0) eqn:E3; try lia.
  pose proof (localeCompare_trans (sr_id c) (sr_id b) (sr_id a)). lia.
Qed.

Lemma newestFirst_perm rows : newestFirst rows ≡ₚ rows.
Proof. apply js_sort_perm. Qed.

Lemma newestFirst_sorted rows :
  StronglySorted (fun l r => (compareSnapshots l r <=? 0) = true) (newestFirst rows).
Proof. apply js_sort_sorted; [apply compareSnapshots_total|apply compareSnapshots_trans]. Qed.

(** The answer of a pass, whatever the order its lists are given in. *)
Lemma planSnapshotRetention_pass rows plan :
  planSnapshotRetention rows = Ok plan ->
  exists p, planSnapshots [] (newestFirst rows) = Ok p /\
    planIds plan ≡ₚ planIds p /\ (forall t, In t (sp_trims plan) <-> In t (sp_trims p)) /\
    (forall row s, leftCovering plan row s <-> leftCovering p row s).
Proof.
  unfold planSnapshotRetention. intros Hpl. apply result_bind_Ok in Hpl as (p & Hp & E).
  injection E as <-. exists p. unfold leftCovering, planIds. cbn [sp_keepIds sp_trims sp_deleteIds].
  unfold sortBy. split_and!; [done| | |].
  - by rewrite !js_sort_perm.
  - intros t. apply js_sort_In.
  - intros row s. setoid_rewrite js_sort_In. done.
Qed.

Lemma first_covering rows s :
  (exists row, In row rows /\ covers row s) ->
  exists pre row post, rows = pre ++ row :: post /\ covers row s /\ forall r, In r pre -> ~ covers r s.
Proof.
  induction rows as [|r rows IH]; [by intros (? & [] & _)|]. intros Hex.
  destruct (decide (s ∈ coverOf (sr_snapshot r))) as [Hc|Hc]; rewrite list_elem_of_In in Hc.
  - exists [], r, rows. by split_and!.
  - destruct IH as (pre & row & post & -> & Hrow & Hpre).
    { destruct Hex as (x & [<-|Hx] & Hxc); [by destruct Hc|eauto]. }
    exists (r :: pre), row, post. split_and!; [done|done|]. intros x [<-|Hx]; auto.
Qed.

(** Rollback retention keeps one recoverable state per scenario: of the rows that
    cover a scenario, the newest is the only one left covering it, and every row
    is kept, trimmed or deleted. *)
Theorem rollback_kept_once_per_scenario rows plan
  (Hids : NoDup (map sr_id rows)) (Hplan : planSnapshotRetention rows = Ok plan) :
  planIds plan ≡ₚ map sr_id rows /\
  forall s, (exists row, In row rows /\ covers row s) ->
  exists row, In row rows /\ covers row s /\ leftCovering plan row s /\
    (forall r, In r rows -> covers r s -> compareSnapshots row r <= 0) /\
    (forall r, In r rows -> leftCovering plan r s -> r = row).
Proof.
  apply planSnapshotRetention_pass in Hplan as (p & Hp & Hperm & _ & Hleft).
  pose proof (newestFirst_perm rows) as Hord.
  assert (Hn : NoDup (map sr_id (newestFirst rows))) by (rewrite Hord; done).
  split; [by rewrite Hperm, (planSnapshots_ids _ _ _ Hp), Hord|].
  assert (Hin : forall r, In r rows <-> In r (newestFirst rows)).
  { intros r. by rewrite <- !list_elem_of_In, Hord. }
  intros s Hs. setoid_rewrite Hin in Hs. destruct (first_covering _ _ Hs) as (pre & row & post & E & Hc & Hpre).
  setoid_rewrite Hleft. setoid_rewrite Hin. exists row.
  assert (Hsplit : forall r, In r (newestFirst rows) <-> In r pre \/ r = row \/ In r post).
  { intros r. rewrite E, in_app_iff. cbn. naive_solver. }
  split_and!; [apply Hsplit; auto|done|..].
  - apply (planSnapshots_left [] _ p pre row post s Hn Hp E). auto.
  - intros r Hr Hrc. pose proof (newestFirst_sorted rows) as Hss. rewrite E in Hss.
    apply Hsplit in Hr as [Hr|[->|Hr]]; [by destruct (Hpre r Hr)| |].
    + destruct (compareSnapshots_total row row) as [Ht|Ht]; by apply Z.leb_le.
    + apply StronglySorted_app_1_r in Hss. apply StronglySorted_inv in Hss as [_ Hf].
      rewrite List.Forall_forall in Hf. by apply Z.leb_le, Hf.
  - intros r Hr Hrl. eapply left_unique; [done|done|done|apply Hsplit; auto|done|].
    apply (planSnapshots_left [] _ p pre row post s Hn Hp E). auto.
Qed.

(** * What a plan leaves needs no other plan *)

Lemma planSnapshots_trims_readable covered rows plan t :
  planSnapshots covered rows = Ok plan -> In t (sp_trims plan) ->
  exists cov, readSnapshot (tr_snapshot t) = Ok cov.
Proof.
  revert covered plan. induction rows as [|row rows IH]; intros covered plan Hp Ht; cbn [planSnapshots] in Hp.
  { injection Hp as <-. done. }
  apply result_bind_Ok in Hp as (cov & Hcov & Hp). apply result_bind_Ok in Hp as (p & Hp' & Hp).
  set (uncovered := filter (fun s => str_mem s covered = false) (cv_targetScenarioIds cov)) in *.
  case_bool_decide as E0; [|case_bool_decide]; injection Hp as <-; cbn [sp_trims] in Ht; [by eapply IH..|].
  destruct Ht as [<-|Ht]; [|by eapply IH]. pose proof (readSnapshot_wf _ _ Hcov) as Hw.
  eexists. cbn [tr_snapshot]. apply readSnapshot_trim; [done|done|].
  pose proof (cw_targets _ Hw) as Hall. rewrite List.Forall_forall in *.
  intros x [Hx _]%filter_In_iff. by apply Hall.
Qed.

Lemma fold_trims trims rows :
  fold_left (fun rows t => map (trimRow t) rows) trims rows =
  map (fun row => fold_left (fun row t => trimRow t row) trims row) rows.
Proof.
  revert rows. induction trims as [|t trims IH]; intros rows; cbn [fold_left]; [by rewrite map_id|].
  by rewrite IH, map_map.
Qed.

Lemma trimRow_id t row : sr_id (trimRow t row) = sr_id row.
Proof. unfold trimRow. by case_match. Qed.

Lemma fold_trim_other trims row :
  ~ In (sr_id row) (map tr_id trims) -> fold_left (fun row t => trimRow t row) trims row = row.
Proof.
  induction trims as [|t trims IH]; [done|]. cbn [fold_left map In]. intros Hni.
  assert (trimRow t row = row) as ->; [|apply IH; tauto].
  unfold trimRow. destruct (sr_id row =s tr_id t) eqn:E; [|done].
  apply String.eqb_eq in E. destruct Hni. auto.
Qed.

Lemma fold_trim_one trims t row :
  NoDup (map tr_id trims) -> In t trims -> tr_id t = sr_id row ->
  fold_left (fun row t => trimRow t row) trims row =
  mkSnapshotRow (sr_id row) (sr_createdAt row) (tr_snapshot t).
Proof.
  revert row. induction trims as [|u trims IH]; intros row Hn; [done|]. cbn [fold_left map In] in *.
  apply NoDup_cons in Hn as [Hu Hn]. rewrite list_elem_of_In in Hu. intros [->|Ht] E.
  - assert (trimRow t row = mkSnapshotRow (sr_id row) (sr_createdAt row) (tr_snapshot t)) as ->.
    { unfold trimRow. by rewrite E, String.eqb_refl. }
    apply fold_trim_other. cbn. by rewrite <- E.
  - assert (trimRow u row = row) as ->; [|by apply IH].
    unfold trimRow. destruct (sr_id row =s tr_id u) eqn:Eu; [|done]. apply String.eqb_eq in Eu.
    destruct Hu. apply in_map_iff. exists t. split; congruence.
Qed.

(** A row the plan leaves covers what the plan says, and can be read. *)
Lemma applied_row rows plan r' :
  NoDup (map sr_id rows) -> planSnapshotRetention rows = Ok plan -> In r' (applySnapshotPlan plan rows) ->
  exists row, In row rows /\ sr_id r' = sr_id row /\ (forall s, covers r' s <-> leftCovering plan row s) /\
    exists cov, readSnapshot (sr_snapshot r') = Ok cov.
Proof.
  intros Hids Hplan. pose proof (planSnapshotRetention_pass _ _ Hplan) as (p & Hp & Hperm & Htr & _).
  unfold applySnapshotPlan. rewrite fold_trims, filter_In_iff, in_map_iff.
  intros ((row & <- & Hrow) & Hdel). apply str_mem_false in Hdel. exists row.
  assert (Hkeep : forall l r, sr_id (fold_left (fun row t => trimRow t row) l r) = sr_id r).
  { intros l. induction l as [|t l IH]; intros r; [done|]. cbn [fold_left]. by rewrite IH, trimRow_id. }
  rewrite Hkeep in Hdel |- *. split; [done|]. split; [done|].
  assert (Hnd : NoDup (planIds plan)).
  { rewrite Hperm, (planSnapshots_ids _ _ _ Hp), newestFirst_perm. done. }
  assert (Hid : In (sr_id row) (planIds plan)).
  { rewrite <- list_elem_of_In, Hperm, (planSnapshots_ids _ _ _ Hp), newestFirst_perm.
    apply list_elem_of_In. by apply in_map. }
  unfold planIds in Hnd. apply NoDup_app in Hnd as (_ & Hk & Hnd). apply NoDup_app in Hnd as (Hnt & _ & _).
  apply planIds_In in Hid as [Hid|[(t & Ht & Et)|Hid]]; [| |done].
  - assert (~ In (sr_id row) (map tr_id (sp_trims plan))) as Hno.
    { intros Hin. apply (Hk (sr_id row)); [by apply list_elem_of_In|].
      apply elem_of_app. left. by apply list_elem_of_In. }
    rewrite fold_trim_other by done. split.
    + intros s. unfold leftCovering. split; [auto|]. intros [[_ ?]|(t & Ht & Et & _)]; [done|].
      destruct Hno. rewrite <- Et. by apply in_map.
    + apply (proj1 (planSnapshots_readable [] (newestFirst rows))); [by exists p|].
      by rewrite <- list_elem_of_In, newestFirst_perm, list_elem_of_In.
  - rewrite (fold_trim_one _ t row) by done. split.
    + intros s. unfold leftCovering, covers. cbn [sr_snapshot]. split; [eauto|].
      intros [[Hkp _]|(t2 & Ht2 & Et2 & Hs)].
      * exfalso. apply (Hk (sr_id row)); [by apply list_elem_of_In|]. apply elem_of_app. left.
        rewrite <- Et. by apply list_elem_of_In, in_map.
      * assert (t2 = t) as <-; [|done]. eapply (NoDup_map_inj tr_id); eauto;
          [by apply list_elem_of_In..|congruence].
    + cbn [sr_snapshot]. eapply planSnapshots_trims_readable; [done|by apply Htr].
Qed.

Lemma planSnapshots_disjoint covered rows :
  NoDup (map sr_id rows) ->
  (forall row, In row rows -> exists cov, readSnapshot (sr_snapshot row) = Ok cov) ->
  (forall row s, In row rows -> covers row s -> ~ In s covered) ->
  (forall r1 r2 s, In r1 rows -> In r2 rows -> covers r1 s -> covers r2 s -> sr_id r1 = sr_id r2) ->
  planSnapshots covered rows = Ok (mkSnapshotPlan (map sr_id rows) [] []).
Proof.
  revert covered. induction rows as [|row rows IH]; intros covered Hn Hr Hc Hd; [done|].
  cbn [map] in Hn. apply NoDup_cons in Hn as [Hfresh Hn]. rewrite list_elem_of_In in Hfresh.
  destruct (Hr row) as [cov Hcov]; [by left|]. pose proof (readable_cover _ _ Hcov) as Hc0.
  cbn [planSnapshots]. rewrite Hcov. cbn [result_bind]. rewrite IH; [|done|..]; first 1 last.
  - intros r Hin. apply Hr. by right.
  - intros r s Hin Hrs. rewrite in_app_iff, <- Hc0. intros [Hin'|Hin'].
    + eapply Hc; [by right| |]; done.
    + apply Hfresh. rewrite (Hd row r s); [by apply in_map|by left|by right|done|done].
  - intros r1 r2 s H1 H2. apply Hd; by right.
  - cbn [result_bind sp_keepIds sp_trims sp_deleteIds].
    assert (E : filter (fun s => str_mem s covered = false) (cv_targetScenarioIds cov)
                = cv_targetScenarioIds cov).
    { apply filter_id. intros s Hs. apply str_mem_false. eapply Hc; [by left|]. by apply Hc0. }
    rewrite E. pose proof (cw_some _ (readSnapshot_wf _ _ Hcov)).
    rewrite bool_decide_eq_false_2 by done. by rewrite bool_decide_eq_true_2.
Qed.

Lemma applied_ids rows plan :
  NoDup (map sr_id rows) -> NoDup (map sr_id (applySnapshotPlan plan rows)).
Proof.
  intros Hn. unfold applySnapshotPlan. rewrite fold_trims.
  assert (Hm : forall trims, map sr_id (map (fun row => fold_left (fun row t => trimRow t row) trims row) rows)
               = map sr_id rows).
  { intros trims. rewrite map_map. apply map_ext. intros row. revert row.
    induction trims as [|t trims IH]; intros row; [done|]. cbn [fold_left]. by rewrite IH, trimRow_id. }
  rewrite <- (Hm (sp_trims plan)) in Hn. eapply sublist_NoDup; [exact Hn|].
  apply fmap_sublist, sublist_filter.
Qed.

(** Once a plan is carried out, planning again keeps every row: no rollback is
    trimmed or deleted twice. *)
Theorem rollback_retention_settles rows plan
  (Hids : NoDup (map sr_id rows)) (Hplan : planSnapshotRetention rows = Ok plan) :
  exists plan', planSnapshotRetention (applySnapshotPlan plan rows) = Ok plan' /\
    sp_trims plan' = [] /\ sp_deleteIds plan' = [].
Proof.
  set (rows' := applySnapshotPlan plan rows).
  assert (E : planSnapshots [] (newestFirst rows') =
    Ok (mkSnapshotPlan (map sr_id (newestFirst rows')) [] [])).
  { assert (Hin : forall r, In r (newestFirst rows') <-> In r rows').
    { intros r. by rewrite <- !list_elem_of_In, newestFirst_perm. }
    apply planSnapshots_disjoint.
    - rewrite newestFirst_perm. by apply applied_ids.
    - intros r Hr. apply Hin in Hr.
      destruct (applied_row rows plan r Hids Hplan Hr) as (_ & _ & _ & _ & Hcov). done.
    - intros row s _ _ [].
    - intros r1 r2 s H1 H2 C1 C2. apply Hin in H1, H2.
      destruct (applied_row rows plan r1 Hids Hplan H1) as (x1 & X1 & E1 & L1 & _).
      destruct (applied_row rows plan r2 Hids Hplan H2) as (x2 & X2 & E2 & L2 & _).
      rewrite E1, E2. apply L1 in C1. apply L2 in C2.
      destruct (planSnapshotRetention_pass _ _ Hplan) as (p & Hp & _ & _ & Hleft).
      f_equal. rewrite Hleft in C1, C2.
      apply (left_unique [] (newestFirst rows) p x1 x2 s); [by rewrite newestFirst_perm|done|..];
        rewrite <- ?list_elem_of_In, ?newestFirst_perm, ?list_elem_of_In; done. }
  unfold planSnapshotRetention. rewrite E. cbn [result_bind]. by eexists.
Qed.
End rollbacks.

(** * Witnesses *)

Definition w_snapshot (targets : list string) : json :=
  JObj [("targetScenarioIds", JArr (map JStr targets)); ("vms", JArr []); ("scenarios", JArr []); ("probes", JArr [])].
Definition w_rows : list SnapshotRetentionRow :=
  [mkSnapshotRow "old" 1 (w_snapshot ["a"; "b"]); mkSnapshotRow "new" 2 (w_snapshot ["a"])].

(** Of two rollbacks of one scenario the newer stays; the older keeps the scenario
    only it covers. *)
Lemma rollback_kept_once_per_scenario_witness :
  exists plan, planSnapshotRetention w_rows = Ok plan /\ planIds plan ≡ₚ ["old"; "new"] /\
    exists row, leftCovering plan row "a" /\ forall r, In r w_rows -> leftCovering plan r "a" -> r = row.
Proof.
  destruct (planSnapshotRetention w_rows) as [plan|] eqn:E; [|vm_compute in E; discriminate E].
  exists plan. split; [reflexivity|].
  destruct (rollback_kept_once_per_scenario w_rows plan) as [Hp Hs]; [|exact E|].
  - by apply (bool_decide_unpack _).
  - split; [exact Hp|]. destruct (Hs "a") as (row & _ & _ & Hl & _ & Hu).
    + exists (mkSnapshotRow "new" 2 (w_snapshot ["a"])). split; [right; left; reflexivity|vm_compute; left; reflexivity].
    + exists row. split; [exact Hl|exact Hu].
Defined.
