(* ===== verification/RetentionProjection.v ===== *)
(** The retention projection of the image registry
    (lib/image-artifact-retention.ts): every reference the platform holds to an
    image, resolved to the objects it needs, the decisions a sweep would make,
    and their commit. *)
From stdpp Require Import base list strings sorting.
From Stdlib Require Import ZArith Lia.
From S2P Require Import Prelude Json RunState Store Bridge DesiredState BuildScheduler RegistryKeys RetentionPlans.

Open Scope string_scope.
Open Scope list_scope.
Open Scope Z_scope.

(** * What a retained rollback pins *)

(** The objects an image needs: its manifest and its boot artifacts. *)
Record RunImageClosure : Type := mkClosure {
  rc_chunkManifestSha256 : option string;
  rc_kernelSha256 : option string;
  rc_initrdSha256 : option string;
}.
#[export] Instance RunImageClosure_eq_dec : EqDecision RunImageClosure.
Proof. solve_decision. Defined.
Record ImageClosureByIdentity : Type := mkByIdentity {
  bi_identity : string;
  bi_imageKey : ImageKey;
  bi_imageId : string;
  bi_closure : RunImageClosure;
}.
Definition imageIdentity (key : ImageKey) (imageId : string) : string :=
  registryImageKey key +:+ ":" +:+ imageId.

Record SnapshotArtifactRoots : Type := mkArtifactRoots {
  sa_roots : list ImageRoot;
  sa_chunkManifestSha256s : list string;
  sa_bootArtifactSha256s : list string;
  sa_imageClosures : list ImageClosureByIdentity;
}.

(** [replace(/[A-Z]/g, (letter) => "_" + letter.toLowerCase())]. *)
Fixpoint toSnakeCase (s : string) : string :=
  match s with
  | EmptyString => ""
  | String c s' =>
      if in_range 65 90 (Ascii.N_of_ascii c)
      then "_" +:+ String (lower_ascii c) (toSnakeCase s')
      else String c (toSnakeCase s')
  end.

Definition SNAPSHOT_VMS_REFERENCE : string := "scenario_catalog_snapshots.vms".

(** A boot artifact of a snapshot's VM. *)
Definition readBootSha256 (vm : json) (vmName key : string) : Read string :=
  match readStringField vm [key; toSnakeCase key] with
  | Some sha => Ok sha
  | None => fault SNAPSHOT_VMS_REFERENCE ("snapshot vm " +:+ vmName +:+ " has no " +:+ key)
  end.
(** One VM of a snapshot: its root and its closure. *)
Definition snapshotVmRoot (source : ImageRootSource) (vm : json)
  : Read (ImageRoot * ImageClosureByIdentity) :=
  let scenarioId := readStringField vm ["scenarioId"; "scenario_id"] in
  let vmName := readStringField vm ["vmName"; "vm_name"] in
  let imageId := readStringField vm ["imageSha256"; "image_sha256"] in
  let imageKey := readRecordField vm ["imageKeyJson"; "image_key_json"] in
  arch <-? requireImageArchitecture
    (match imageKey with Some k => readStringField k ["arch"] | None => None end) SNAPSHOT_VMS_REFERENCE;
  match scenarioId, vmName, imageId with
  | Some scenario, Some name, Some image =>
      let chunkManifest := readStringField vm ["chunkManifestSha256"; "chunk_manifest_sha256"] in
      let imageFormat := readStringField vm ["imageFormat"; "image_format"] in
      kernel <-? readBootSha256 vm name "kernelSha256";
      initrd <-? readBootSha256 vm name "initrdSha256";
      throw_if bool_decide (imageFormat = Some "raw_chunks_v1") && bool_decide (chunkManifest = None)
        with mkFault SNAPSHOT_VMS_REFERENCE ("snapshot vm " +:+ name +:+ " has no chunk manifest");
      let key := mkImageKey scenario name arch in
      Ok (mkRoot scenario name arch image source,
          mkByIdentity (imageIdentity key image) key image
            (mkClosure chunkManifest (Some kernel) (Some initrd)))
  | _, _, _ =>
      fault SNAPSHOT_VMS_REFERENCE
        ("snapshot vm " +:+ nullish vmName "null" +:+ " is missing scenarioId, vmName, or imageSha256")
  end.
Definition closureChunkManifests (c : RunImageClosure) : list string := present [rc_chunkManifestSha256 c].
Definition closureBootArtifacts (c : RunImageClosure) : list string :=
  present [rc_kernelSha256 c; rc_initrdSha256 c].
Definition snapshotArtifactRoots (coverage : SnapshotCoverage) (source : ImageRootSource)
  : Read SnapshotArtifactRoots :=
  vms <-? mapRead (snapshotVmRoot source) (cv_vms coverage);
  let closures := map snd vms in
  Ok (mkArtifactRoots (map fst vms)
        (sortedSet (flat_map (fun c => closureChunkManifests (bi_closure c)) closures))
        (sortedSet (flat_map (fun c => closureBootArtifacts (bi_closure c)) closures))
        closures).

(** * Hosts

    The stored documents are read without validation: a field may be missing, and
    a phase is any text. *)

Record DesiredVmDoc : Type := mkDesiredVmDoc {
  xd_vm_name : option string;
  xd_desired_phase : option string;
  xd_image_id : option string;
  xd_image_key : option json;
}.
Record ActualVmDoc : Type := mkActualVmDoc {
  xa_vm_name : option string;
  xa_phase : option string;
  xa_archive_phase : option string;
  xa_image_id : option string;
  xa_image_key : option json;
}.
Record CachedImageDoc : Type := mkCachedDoc {
  xc_image_key : option json;
  xc_image_id : option string;
}.
Record ReportedImageDoc : Type := mkReportedDoc {
  xr_image_id : option string;
  xr_phase : option string;
}.
Record HostDesiredDoc : Type := mkDesiredDoc {
  xh_vms : list DesiredVmDoc;
  xh_cached_images : list CachedImageDoc;
}.
Record HostReportDoc : Type := mkReportDoc {
  xp_vms : list ActualVmDoc;
  xp_cached_images : list ReportedImageDoc;
}.

Definition desiredVmNeedsImage (vm : DesiredVmDoc) : bool :=
  negb (bool_decide (xd_desired_phase vm = Some "absent")).

Definition actualVmNeedsImage (vm : ActualVmDoc) : bool :=
  let archivePhase := xa_archive_phase vm in
  if bool_decide (archivePhase = Some "complete") then false
  else
    let unfinishedArchive := bool_decide (archivePhase = Some "pending")
      || bool_decide (archivePhase = Some "uploading") || bool_decide (archivePhase = Some "failed") in
    if bool_decide (xa_phase vm = Some "absent") then unfinishedArchive
    else if bool_decide (xa_phase vm = Some "failed") then bool_decide (is_Some archivePhase)
    else true.

Inductive BlockingReason : Type := active_vm | transfer_in_flight.
Record HostImageReferenceEvaluation : Type := mkEvaluation {
  he_blocking : list (string * BlockingReason);
  he_leftover : list string;
}.
(** The images of the VMs that need one. *)
Definition activeVmImageIds (desired : option HostDesiredDoc) (actual : option HostReportDoc)
  : list string :=
  present (map xd_image_id (filter (fun vm => desiredVmNeedsImage vm = true)
                              (match desired with Some d => xh_vms d | None => [] end)))
  ++ present (map xa_image_id (filter (fun vm => actualVmNeedsImage vm = true)
                                 (match actual with Some a => xp_vms a | None => [] end))).
Definition reportedPhases (actual : option HostReportDoc) : list (string * option string) :=
  Map_new (omap (fun i => option_map (fun id => (id, xr_phase i)) (xr_image_id i))
             (match actual with Some a => xp_cached_images a | None => [] end)).
(** Why an outgoing image blocks, or that it is leftover cache. *)
Definition evaluateImage (desired : option HostDesiredDoc) (actual : option HostReportDoc)
    (imageId : string) : option (BlockingReason + unit) :=
  let phase := nullish (Map_get imageId (reportedPhases actual)) None in
  if str_mem imageId (activeVmImageIds desired actual) then Some (inl active_vm)
  else if bool_decide (phase = Some "queued") || bool_decide (phase = Some "downloading")
  then Some (inl transfer_in_flight)
  else if str_mem imageId (omap xc_image_id (match desired with Some d => xh_cached_images d | None => [] end))
          && negb (bool_decide (phase = Some "ready"))
  then Some (inl transfer_in_flight)
  else if bool_decide (phase = Some "ready") then Some (inr ()) else None.

Section evaluation.
Context `{Collation}.
Definition evaluateHostImageReferences (outgoingImageIds : list string)
    (desired : option HostDesiredDoc) (actual : option HostReportDoc) : HostImageReferenceEvaluation :=
  let outgoing := Set_new outgoingImageIds in
  mkEvaluation
    (sortBy fst (omap (fun id => match evaluateImage desired actual id with
                                 | Some (inl reason) => Some (id, reason)
                                 | _ => None
                                 end) outgoing))
    (js_sort str_leb (omap (fun id => match evaluateImage desired actual id with
                                      | Some (inr _) => Some id
                                      | _ => None
                                      end) outgoing)).
End evaluation.

(** The cache entries of promoted families that stay. *)
Record CachedImageRetentionScope : Type := mkScope {
  cs_scenarioId : string;
  cs_arch : ImageArchitecture;
  cs_keepImageIds : list string;
}.
Definition pruneSupersededCachedImages (images : list DesiredCachedImage)
    (scopes : list CachedImageRetentionScope) : list DesiredCachedImage :=
  filter (fun image =>
    (match List.find (fun s => (cs_scenarioId s =s ik_scenario (ci_image_key image))
                              && bool_decide (cs_arch s = ik_arch (ci_image_key image))) scopes with
     | None => true
     | Some scope => str_mem (ci_image_id image) (cs_keepImageIds scope)
     end) = true) images.

Record HostOperationalReference : Type := mkOperational {
  op_reference : string;
  op_imageId : string;
  op_imageKey : option ImageKey;
  op_source : ImageRootSource;
}.
Record HostCacheIntentRow : Type := mkCacheIntents {
  hc_hostId : string;
  hc_cachedImages : list CachedImageDoc;
  hc_neededImageIds : list string;
  hc_inFlightImageIds : list string;
}.
Record HostCacheIntentTrim : Type := mkCacheTrim {
  ht_hostId : string;
  ht_imageIds : list string;
}.

Definition cachedImageFamily (image : CachedImageDoc) : option string :=
  if negb (truthy_opt (xc_image_id image)) then None
  else match prop (xc_image_key image) "scenario", prop (xc_image_key image) "vm",
             prop (xc_image_key image) "arch" with
       | Some (JStr s), Some (JStr v), Some (JStr a) => Some (imageRootKey s v a)
       | _, _, _ => None
       end.

Section host_cache.
Context `{Collation}.
Variable managedFamilies keepImageIds : list string.

(** The intents a host has no reason to hold any more. *)
Definition trimmable (host : HostCacheIntentRow) (image : CachedImageDoc) : bool :=
  match cachedImageFamily image with
  | None => false
  | Some family =>
      str_mem family managedFamilies
      && negb (str_mem (nullish (xc_image_id image) "") keepImageIds)
      && negb (str_mem (nullish (xc_image_id image) "") (hc_neededImageIds host ++ hc_inFlightImageIds host))
  end.
Definition trimmedOf (host : HostCacheIntentRow) : list string :=
  omap xc_image_id (filter (fun i => trimmable host i = true) (hc_cachedImages host)).
Definition planHostCacheIntentRetention (hosts : list HostCacheIntentRow) : list HostCacheIntentTrim :=
  sortBy ht_hostId
    (omap (fun host => if bool_decide (trimmedOf host = []) then None
                       else Some (mkCacheTrim (hc_hostId host) (sortedSet (trimmedOf host)))) hosts).
End host_cache.

(** The families of a list of roots. *)
Definition collectManagedFamilies (roots : list ImageRoot) : list string := Set_new (map rootSlot roots).

(** * Resolving an image to its closures *)

Record ImageClosureCandidate : Type := mkClosureCandidate {
  cc_imageKey : ImageKey;
  cc_closure : RunImageClosure;
}.
Definition ClosureIndex : Type := list (string * list ImageClosureCandidate).
Definition indexed (index : ClosureIndex) (identity : string) : list ImageClosureCandidate :=
  nullish (Map_get identity index) [].

Record MergedClosures : Type := mkMerged {
  mg_imageKey : ImageKey;
  mg_chunkManifestSha256s : list string;
  mg_bootArtifactSha256s : list string;
}.

(** The artifacts of one candidate; a chunked one needs both boot artifacts. *)
Definition candidateArtifacts (subject reference : string) (candidate : ImageClosureCandidate)
  : Read (list string * list string) :=
  let c := cc_closure candidate in
  if truthy_opt (rc_chunkManifestSha256 c) then
    throw_if negb (truthy_opt (rc_kernelSha256 c))
      with mkFault reference ("the manifest of an " +:+ subject +:+ " has no kernelSha256");
    throw_if negb (truthy_opt (rc_initrdSha256 c))
      with mkFault reference ("the manifest of an " +:+ subject +:+ " has no initrdSha256");
    Ok (closureChunkManifests c, closureBootArtifacts c)
  else Ok ([], closureBootArtifacts c).

Definition mergeCandidates (imageId : string) (imageKey : option ImageKey)
    (exact byImageId : ClosureIndex) (allowIdFallback : bool) : list ImageClosureCandidate :=
  let found := match imageKey with
               | Some k => indexed exact (imageIdentity k imageId)
               | None => []
               end in
  match found with
  | [] => if negb (bool_decide (is_Some imageKey)) || allowIdFallback then indexed byImageId imageId else []
  | _ => found
  end.
Definition mergeImageClosures (subject reference : string) (imageKey : option ImageKey) (imageId : string)
    (exact byImageId : ClosureIndex) (allowIdFallback : bool) : Read (option MergedClosures) :=
  let candidates := mergeCandidates imageId imageKey exact byImageId allowIdFallback in
  match candidates with
  | [] => Ok None
  | first :: _ =>
      throw_if (1 <? length (Set_new (map (fun c => registryImageKey (cc_imageKey c)) candidates)))%nat
        with mkFault reference ("the image id resolves to more than one registry image key: " +:+ imageId);
      artifacts <-? mapRead (candidateArtifacts subject reference) candidates;
      Ok (Some (mkMerged (cc_imageKey first) (sortedSet (flat_map fst artifacts))
                  (sortedSet (flat_map snd artifacts))))
  end.

(** * The rows of the registry *)

Record LiveRow : Type := mkLive {
  lv_scenarioId : string;
  lv_sourceRevision : option string;
  lv_vmName : string;
  lv_imageKey : option json;
  lv_imageId : option string;
  lv_imageFormat : string;
  lv_chunkManifestSha256 : option string;
  lv_kernelSha256 : string;
  lv_initrdSha256 : string;
}.
Record CandidateRow : Type := mkCandidateRow {
  cd_id : string;
  cd_scenarioId : string;
  cd_organizationId : option string;
  cd_revision : string;
  cd_manifest : ScenarioManifest;
  cd_updatedAt : Z;
}.
Record BuildTableRow : Type := mkBuildTableRow {
  bt_id : string;
  bt_status : ImageBuildStatus;
  bt_manifest : option ScenarioManifest;
  bt_artifactsRetiredAt : option Z;
}.
Record RunImageRow : Type := mkRunImage {
  ri_runId : string;
  ri_scenarioId : string;
  ri_organizationId : option string;
  ri_candidateRevision : option string;
  ri_runtimeVmName : string;
  ri_imageKey : json;
  ri_imageId : string;
}.
(** The rows the projection reads; [tb_runs] are the VMs of active executions. *)
Record Tables : Type := mkTables {
  tb_live : list LiveRow;
  tb_snapshots : list SnapshotRetentionRow;
  tb_candidates : list CandidateRow;
  tb_builds : list BuildTableRow;
  tb_bundles : list string;
  tb_runs : list RunImageRow;
  tb_desired : DesiredDb;
  tb_reports : list (string * HostReportDoc);
}.

(** * The indexes *)

Definition liveClosure (row : LiveRow) : RunImageClosure :=
  mkClosure (lv_chunkManifestSha256 row) (Some (lv_kernelSha256 row)) (Some (lv_initrdSha256 row)).
(** The images a live row, and a manifest, describe. *)
Definition liveDescriptions (row : LiveRow) : list (ImageKey * string * RunImageClosure) :=
  match isImageKey (lv_imageKey row), lv_imageId row with
  | Some key, Some imageId => if truthy imageId then [(key, imageId, liveClosure row)] else []
  | _, _ => []
  end.
Definition manifestDescriptions (manifest : ScenarioManifest) : list (ImageKey * string * RunImageClosure) :=
  flat_map (fun vm =>
    let imageId := trim (vmf_image_id vm) in
    if truthy imageId
    then [(vmf_image_key vm, imageId,
           mkClosure (read_opt_string (vmf_chunk_manifest_sha256 vm))
             (read_opt_string (option_map bm_kernel_sha256 (vmf_boot vm)))
             (read_opt_string (option_map bm_initrd_sha256 (vmf_boot vm))))]
    else []) (mf_vms manifest).
Definition buildManifests (builds : list BuildTableRow) : list ScenarioManifest := omap bt_manifest builds.

Definition addExact (index : ClosureIndex) (identity : string) (key : ImageKey) (closure : RunImageClosure)
  : ClosureIndex :=
  Map_set identity (indexed index identity ++ [mkClosureCandidate key closure]) index.
Definition addDescription (index : ClosureIndex) (d : ImageKey * string * RunImageClosure) : ClosureIndex :=
  let '(key, imageId, closure) := d in addExact index (imageIdentity key imageId) key closure.
Definition addManifestClosures (index : ClosureIndex) (manifest : ScenarioManifest) : ClosureIndex :=
  fold_left addDescription (manifestDescriptions manifest) index.
Definition buildRunImageIndex (liveRows : list LiveRow) (snapshotClosures : list ImageClosureByIdentity)
    (candidateRows : list CandidateRow) (buildRows : list BuildTableRow) : ClosureIndex :=
  let live := fold_left addDescription (flat_map liveDescriptions liveRows) [] in
  let rollback := fold_left (fun index e => addExact index (bi_identity e) (bi_imageKey e) (bi_closure e))
                    snapshotClosures live in
  let staged := fold_left (fun index r => addManifestClosures index (cd_manifest r)) candidateRows rollback in
  fold_left addManifestClosures (buildManifests buildRows) staged.

Definition sameVariant (key : ImageKey) (closure : RunImageClosure) (entry : ImageClosureCandidate) : bool :=
  (registryImageKey (cc_imageKey entry) =s registryImageKey key) && bool_decide (cc_closure entry = closure).
Definition addById (index : ClosureIndex) (d : ImageKey * string * RunImageClosure) : ClosureIndex :=
  let '(key, imageId, closure) := d in
  if existsb (sameVariant key closure) (indexed index imageId) then index
  else Map_set imageId (indexed index imageId ++ [mkClosureCandidate key closure]) index.
Definition buildImageIdIndex (snapshotClosures : list ImageClosureByIdentity) (liveRows : list LiveRow)
    (candidateRows : list CandidateRow) (buildRows : list BuildTableRow) : ClosureIndex :=
  fold_left addById
    (map (fun e => (bi_imageKey e, bi_imageId e, bi_closure e)) snapshotClosures
     ++ flat_map liveDescriptions liveRows
     ++ flat_map manifestDescriptions (map cd_manifest candidateRows ++ buildManifests buildRows)) [].

(** * Host references *)

Definition desiredDocOf (d : HostDesiredState) : HostDesiredDoc :=
  mkDesiredDoc
    (map (fun vm => mkDesiredVmDoc (Some (dv_vm_name vm)) (Some (desiredPhaseName (dv_desired_phase vm)))
                      (Some (dv_image_id vm)) (Some (encodeImageKey (dv_image_key vm)))) (ds_vms d))
    (map (fun i => mkCachedDoc (Some (encodeImageKey (ci_image_key i))) (Some (ci_image_id i)))
       (ds_cached_images d)).

Record HostStateRow : Type := mkHostState {
  hs_hostId : string;
  hs_desired : HostDesiredDoc;
  hs_actual : option HostReportDoc;
}.
(** The enabled agent hosts with a desired state, and their last report. *)
Definition loadHostStates (tables : Tables) : list HostStateRow :=
  omap (fun row =>
    match List.find (fun h => (ah_id h =s dr_hostId row) && (ah_role h =s "agent") && negb (ah_disabled h))
            (dd_hosts (tb_desired tables)) with
    | Some h => Some (mkHostState (ah_id h) (desiredDocOf (dr_docJson row)) (Map_get (ah_id h) (tb_reports tables)))
    | None => None
    end) (dd_rows (tb_desired tables)).

Definition operationalOf (kind hostId : string) (source : ImageRootSource) (needs : bool)
    (vmName imageId : option string) (imageKey : option json) : Read (option HostOperationalReference) :=
  let reference := "host_" +:+ kind +:+ ":" +:+ hostId +:+ ":" +:+ nullish vmName "undefined" in
  if negb needs then Ok None
  else match imageId with
       | Some id => if truthy id then Ok (Some (mkOperational reference id (isImageKey imageKey) source))
                    else fault reference ("an operational " +:+ kind +:+ " VM has no image id")
       | None => fault reference ("an operational " +:+ kind +:+ " VM has no image id")
       end.
Definition hostOperational (row : HostStateRow) : Read (list HostOperationalReference) :=
  desired <-? mapRead (fun vm => operationalOf "desired" (hs_hostId row) src_host_desired
                                   (desiredVmNeedsImage vm) (xd_vm_name vm) (xd_image_id vm) (xd_image_key vm))
                (xh_vms (hs_desired row));
  actual <-? mapRead (fun vm => operationalOf "actual" (hs_hostId row) src_host_actual
                                  (actualVmNeedsImage vm) (xa_vm_name vm) (xa_image_id vm) (xa_image_key vm))
               (match hs_actual row with Some a => xp_vms a | None => [] end);
  Ok (omap id desired ++ omap id actual).
Definition hostInFlight (row : HostStateRow) : list string :=
  present (map xr_image_id
    (filter (fun i => xr_phase i = Some "queued" \/ xr_phase i = Some "downloading")
       (match hs_actual row with Some a => xp_cached_images a | None => [] end))).
Definition hostReferences (row : HostStateRow)
  : Read (list HostOperationalReference * HostCacheIntentRow) :=
  operational <-? hostOperational row;
  Ok (operational,
      mkCacheIntents (hs_hostId row) (xh_cached_images (hs_desired row))
        (sortedSet (map op_imageId operational)) (sortedSet (hostInFlight row))).
Definition loadHostImageReferences (tables : Tables)
  : Read (list HostOperationalReference * list HostCacheIntentRow) :=
  hosts <-? mapRead hostReferences (loadHostStates tables);
  Ok (flat_map fst hosts, map snd hosts).

(** * The projection *)

Record RegistryRetentionProjection : Type := mkProjection {
  pj_nowUnixMs : Z;
  pj_roots : list ImageRoot;
  pj_objectOnlyImageIds : list string;
  pj_builds : BuildRetentionPlan;
  pj_retiredBuildIds : list string;
  pj_candidates : CandidateIntentPlan;
  pj_snapshots : SnapshotRetentionPlan;
  pj_hostCacheTrims : list HostCacheIntentTrim;
  pj_bundleRevs : list string;
  pj_imageIds : list string;
  pj_chunkManifestSha256s : list string;
  pj_bootArtifactSha256s : list string;
}.

(** Roots with the manifests and boot artifacts they bring. *)
Record Pinned : Type := mkPinned {
  pn_roots : list ImageRoot;
  pn_chunkManifests : list string;
  pn_bootArtifacts : list string;
}.
Definition pinMerged (roots : list ImageRoot) (m : option MergedClosures) : Pinned :=
  match m with
  | Some m => mkPinned roots (mg_chunkManifestSha256s m) (mg_bootArtifactSha256s m)
  | None => mkPinned roots [] []
  end.
Definition pinAll (l : list Pinned) : Pinned :=
  mkPinned (flat_map pn_roots l) (flat_map pn_chunkManifests l) (flat_map pn_bootArtifacts l).

(** A published live pointer, which must be readable in full. *)
Definition readLiveRow (row : LiveRow) : Read Pinned :=
  let reference := "vm_scenario_vms." +:+ lv_scenarioId row +:+ ":" +:+ lv_vmName row in
  arch <-? requireImageArchitecture
    (match prop (lv_imageKey row) "arch" with Some (JStr s) => Some s | _ => None end) reference;
  match lv_imageId row with
  | None => fault reference "image_sha256 is missing"
  | Some imageId =>
      throw_if negb (truthy imageId) with mkFault reference "image_sha256 is missing";
      throw_if (lv_imageFormat row =s "raw_chunks_v1") && negb (truthy_opt (lv_chunkManifestSha256 row))
        with mkFault reference "a chunked live pointer has no chunk manifest";
      Ok (mkPinned [mkRoot (lv_scenarioId row) (lv_vmName row) arch imageId src_live_pointer]
            (closureChunkManifests (liveClosure row)) (closureBootArtifacts (liveClosure row)))
  end.
Definition liveRevisions (rows : list LiveRow) : list (string * option string) :=
  Map_new (map (fun r => (lv_scenarioId r, lv_sourceRevision r)) rows).
Definition liveVms (rows : list LiveRow) : list (string * list CatalogVmClosure) :=
  fold_left (fun m r =>
    Map_set (lv_scenarioId r)
      (nullish (Map_get (lv_scenarioId r) m) []
       ++ [mkVmClosure (lv_vmName r) (nullish (lv_imageId r) "") (lv_chunkManifestSha256 r)
             (Some (lv_kernelSha256 r)) (Some (lv_initrdSha256 r))]) m) rows [].
Definition liveClosures (rows : list LiveRow) : list (string * string) :=
  map (fun e => (fst e, imageClosureSignature (snd e))) (liveVms rows).

(** A retained rollback, as its trim leaves it. *)
Definition retained (plan : SnapshotRetentionPlan) (row : SnapshotRetentionRow) : bool :=
  str_mem (sr_id row) (sp_keepIds plan) || existsb (fun t => tr_id t =s sr_id row) (sp_trims plan).
Definition retainedSnapshot (plan : SnapshotRetentionPlan) (row : SnapshotRetentionRow) : json :=
  match List.find (fun t => tr_id t =s sr_id row) (sp_trims plan) with
  | Some t => tr_snapshot t
  | None => sr_snapshot row
  end.
Definition readRetainedRow (plan : SnapshotRetentionPlan) (row : SnapshotRetentionRow)
  : Read SnapshotArtifactRoots :=
  coverage <-? readSnapshot (retainedSnapshot plan row);
  snapshotArtifactRoots coverage src_rollback_snapshot.
Definition pinSnapshot (a : SnapshotArtifactRoots) : Pinned :=
  mkPinned (sa_roots a) (sa_chunkManifestSha256s a) (sa_bootArtifactSha256s a).

Definition intentRows (rows : list CandidateRow) : list CandidateIntentRow :=
  map (fun row => mkIntent (cd_id row) (cd_scenarioId row) (cd_organizationId row) (cd_revision row)
                    (manifestImageMembers (cd_manifest row) src_candidate_intent)
                    (manifestImageClosureSignature (cd_manifest row)) (cd_updatedAt row)) rows.
Definition activeRunRefs (rows : list RunImageRow) : list ActiveRunCandidateRef :=
  flat_map (fun row => match ri_candidateRevision row with
                       | Some rev => if truthy rev
                                     then [mkRunRef (ri_scenarioId row) (ri_organizationId row) rev] else []
                       | None => []
                       end) rows.
Definition planCandidates (tables : Tables) : CandidateIntentPlan :=
  planCandidateIntentRetention (liveRevisions (tb_live tables)) (liveClosures (tb_live tables))
    (activeRunRefs (tb_runs tables)) (intentRows (tb_candidates tables)).
Definition pinManifest (source : ImageRootSource) (manifest : ScenarioManifest) : Pinned :=
  mkPinned (manifestImageMembers manifest source) (manifestChunkManifestSha256s manifest)
    (manifestBootArtifactSha256s manifest).
Definition keptCandidates (tables : Tables) : list CandidateRow :=
  filter (fun row => str_mem (cd_id row) (ip_keepIds (planCandidates tables)) = true) (tb_candidates tables).

(** A VM of a run in flight, resolved through its own key. *)
Definition readRunRow (exact byId : ClosureIndex) (row : RunImageRow) : Read Pinned :=
  let reference := "scenario_runs." +:+ ri_runId row +:+ ":" +:+ ri_runtimeVmName row in
  match isImageKey (Some (ri_imageKey row)) with
  | None => fault reference "an active runtime VM has no usable image key"
  | Some key =>
      resolved <-? mergeImageClosures "active run" reference (Some key) (ri_imageId row) exact byId false;
      match resolved with
      | None => fault reference
          ("the image of an active run resolves to no live, rollback, candidate, or build record: "
           +:+ imageIdentity key (ri_imageId row))
      | Some m => Ok (pinMerged [mkRoot (ik_scenario key) (ik_vm key) (ik_arch key) (ri_imageId row)
                                   src_active_run] (Some m))
      end
  end.

(** A VM of a host, resolved through its key or its image id. *)
Definition readHostReference (exact byId : ClosureIndex) (r : HostOperationalReference) : Read Pinned :=
  resolved <-? mergeImageClosures "operational host VM" (op_reference r) (op_imageKey r) (op_imageId r)
                 exact byId true;
  let root k := mkRoot (ik_scenario k) (ik_vm k) (ik_arch k) (op_imageId r) (op_source r) in
  match resolved, op_imageKey r with
  | Some m, _ => Ok (pinMerged [root (mg_imageKey m)] (Some m))
  | None, Some k => Ok (pinMerged [root k] None)
  | None, None => fault (op_reference r)
      ("the image of an operational host VM resolves to no live, rollback, candidate, or build record: "
       +:+ op_imageId r)
  end.

Section project.
Context `{Collation}.

Record Gathered : Type := mkGathered {
  ga_live : Pinned;
  ga_rollback : Pinned;
  ga_candidate : Pinned;
  ga_run : Pinned;
  ga_host : Pinned;
  ga_snapshotPlan : SnapshotRetentionPlan;
  ga_exact : ClosureIndex;
  ga_byId : ClosureIndex;
  ga_hosts : list HostCacheIntentRow;
}.
(** Every reference, or the fault of the first that cannot be read. *)
Definition gatherRoots (tables : Tables) : Read Gathered :=
  live <-? mapRead readLiveRow (tb_live tables);
  plan <-? planSnapshotRetention (tb_snapshots tables);
  rollback <-? mapRead (readRetainedRow plan)
                 (filter (fun row => retained plan row = true) (tb_snapshots tables));
  let closures := flat_map sa_imageClosures rollback in
  let byId := buildImageIdIndex closures (tb_live tables) (tb_candidates tables) (tb_builds tables) in
  let exact := buildRunImageIndex (tb_live tables) closures (tb_candidates tables) (tb_builds tables) in
  runs <-? mapRead (readRunRow exact byId) (tb_runs tables);
  references <-? loadHostImageReferences tables;
  hosts <-? mapRead (readHostReference exact byId) (fst references);
  Ok (mkGathered (pinAll live) (pinAll (map pinSnapshot rollback))
        (pinAll (map (fun row => pinManifest src_candidate_intent (cd_manifest row)) (keptCandidates tables)))
        (pinAll runs) (pinAll hosts) plan exact byId (snd references)).
Definition gathered (g : Gathered) : Pinned :=
  pinAll [ga_live g; ga_rollback g; ga_candidate g; ga_run g; ga_host g].

Definition buildInput (row : BuildTableRow) : RetentionBuildRow :=
  match bt_manifest row with
  | Some m => mkBuildRow (bt_id row) (bt_status row) (manifestImageMembers m src_live_pointer)
                (manifestChunkManifestSha256s m) (manifestBootArtifactSha256s m)
                (bool_decide (is_Some (bt_artifactsRetiredAt row)))
  | None => mkBuildRow (bt_id row) (bt_status row) [] [] [] (bool_decide (is_Some (bt_artifactsRetiredAt row)))
  end.
Definition pinBuild (b : RetentionBuildRow) : Pinned :=
  mkPinned (rb_members b) (rb_chunkManifestSha256s b) (rb_bootArtifactSha256s b).

(** A cache intent that survives the trim, resolved like a host VM. *)
Definition readIntent (exact byId : ClosureIndex) (trimmed : list string) (hostId : string)
    (image : CachedImageDoc) : Read (option (string * Pinned)) :=
  match xc_image_id image with
  | None => Ok None
  | Some imageId =>
      if negb (truthy imageId) || str_mem imageId trimmed then Ok None
      else
        resolved <-? mergeImageClosures "retained cache intent" ("host_cached_image:" +:+ hostId)
                       (isImageKey (xc_image_key image)) imageId exact byId true;
        Ok (Some (imageId, pinMerged [] resolved))
  end.

Definition projectRegistryRetention (tables : Tables) (nowUnixMs : Z)
  : Read RegistryRetentionProjection :=
  g <-? gatherRoots tables;
  let rooted := gathered g in
  let buildInputs := map buildInput (tb_builds tables) in
  let builds := planBuildRetention buildInputs (pn_roots rooted) (pn_chunkManifests rooted)
                  (pn_bootArtifacts rooted) in
  let kept := pinAll (map pinBuild
    (filter (fun b => str_mem (rb_buildId b) (bp_keepBuildIds builds) = true) buildInputs)) in
  let keepImageIds := filter (fun id => truthy id = true) (map ri_imageId (tb_runs tables))
    ++ map rt_imageId (pn_roots rooted) ++ map rt_imageId (pn_roots kept) in
  let trims := planHostCacheIntentRetention
    (collectManagedFamilies (pn_roots (ga_live g) ++ pn_roots (ga_rollback g) ++ pn_roots (ga_candidate g)
                             ++ flat_map rb_members buildInputs))
    keepImageIds (ga_hosts g) in
  let trimmed := flat_map ht_imageIds trims in
  intents <-? mapRead (fun hi => readIntent (ga_exact g) (ga_byId g) trimmed (fst hi) (snd hi))
    (flat_map (fun h => map (fun i => (hc_hostId h, i)) (hc_cachedImages h)) (ga_hosts g));
  let objectOnly := map fst (omap id intents) in
  let all := pinAll ([rooted; kept] ++ map snd (omap id intents)) in
  Ok (mkProjection nowUnixMs (pn_roots rooted) (sortedSet objectOnly) builds
        (js_sort str_leb (map bt_id
           (filter (fun r => is_Some (bt_artifactsRetiredAt r)) (tb_builds tables))))
        (planCandidates tables) (ga_snapshotPlan g) trims (js_sort str_leb (tb_bundles tables))
        (sortedSet (keepImageIds ++ objectOnly))
        (sortedSet (pn_chunkManifests all)) (sortedSet (pn_bootArtifacts all))).
End project.

(** * The commit of a projection *)

Definition loadLiveFamilyImageIds (tables : Tables) (scenarioId : string) (arch : ImageArchitecture)
  : list string :=
  sortedSet (present (map lv_imageId
    (filter (fun r => lv_scenarioId r = scenarioId /\ isImageArchitecture (prop (lv_imageKey r) "arch") = Some arch)
       (tb_live tables)))).
Definition loadRetiredBuildIds (tables : Tables) (buildIds : list string) : list string :=
  Set_new (map bt_id (filter (fun r => is_Some (bt_artifactsRetiredAt r) /\ str_mem (bt_id r) buildIds = true)
                        (tb_builds tables))).

Record AppliedRetention : Type := mkApplied {
  ap_retiredBuildIds : list string;
  ap_activatedBuildIds : list string;
  ap_trimmedSnapshotIds : list string;
  ap_deletedSnapshotIds : list string;
  ap_deletedCandidateIds : list string;
  ap_trimmedHostCacheImageIds : list string;
}.
Inductive ApplyError : Type :=
| host_state_failed (e : DesiredStateError)
| batch_failed.

Definition withdrawIntents (imageIds : list string) (draft : HostDesiredState) : HostDesiredState :=
  with_images draft (filter (fun i => str_mem (ci_image_id i) imageIds = false) (ds_cached_images draft)).

Definition setRetiredAt (at_ : option Z) (row : BuildTableRow) : BuildTableRow :=
  mkBuildTableRow (bt_id row) (bt_status row) (bt_manifest row) at_.
(** [UPDATE image_builds SET artifacts_retired_at = now WHERE it is null and the id is listed]. *)
Definition retireBuildRows (now : Z) (ids : list string) (rows : list BuildTableRow) : list BuildTableRow :=
  map (fun r => if bool_decide (bt_artifactsRetiredAt r = None) && str_mem (bt_id r) ids
                then setRetiredAt (Some now) r else r) rows.
Definition activateBuildRows (ids : list string) (rows : list BuildTableRow) : list BuildTableRow :=
  map (fun r => if str_mem (bt_id r) ids then setRetiredAt None r else r) rows.

Section apply.
Context `{Collation}.
(** What other requests do to the desired states around each host's update. *)
Variable loadRace : string -> nat -> nat -> DesiredDb -> DesiredDb.
Variable race : string -> nat -> DesiredDb -> DesiredDb.

Fixpoint withdrawTrims (now : Z) (trims : list HostCacheIntentTrim) (db : DesiredDb)
  : DesiredDb * result DesiredStateError unit :=
  match trims with
  | [] => (db, Ok ())
  | t :: trims' =>
      let '(db', res) := mutateStoredHostDesiredState (ht_hostId t) now (withdrawIntents (ht_imageIds t))
                           None None (loadRace (ht_hostId t)) (race (ht_hostId t)) db in
      match res with
      | Err e => (db', Err e)
      | Ok _ => withdrawTrims now trims' db'
      end
  end.

Definition activatedOf (p : RegistryRetentionProjection) : list string :=
  filter (fun id => str_mem id (pj_retiredBuildIds p) = true) (bp_keepBuildIds (pj_builds p)).
(** The one batch of the decision. *)
Definition applyBatch (p : RegistryRetentionProjection) (db : DesiredDb) (tables : Tables) : Tables :=
  mkTables (tb_live tables)
    (applySnapshotPlan (pj_snapshots p) (tb_snapshots tables))
    (filter (fun c => str_mem (cd_id c) (ip_retireIds (pj_candidates p)) = false) (tb_candidates tables))
    (activateBuildRows (activatedOf p)
       (retireBuildRows (pj_nowUnixMs p) (bp_retireBuildIds (pj_builds p)) (tb_builds tables)))
    (tb_bundles tables) (tb_runs tables) db (tb_reports tables).
Definition withDesired (tables : Tables) (db : DesiredDb) : Tables :=
  mkTables (tb_live tables) (tb_snapshots tables) (tb_candidates tables) (tb_builds tables)
    (tb_bundles tables) (tb_runs tables) db (tb_reports tables).

Definition hasStatements (p : RegistryRetentionProjection) : bool :=
  negb (bool_decide (bp_retireBuildIds (pj_builds p) = []) && bool_decide (activatedOf p = [])
        && bool_decide (map tr_id (sp_trims (pj_snapshots p)) = [])
        && bool_decide (sp_deleteIds (pj_snapshots p) = [])
        && bool_decide (ip_retireIds (pj_candidates p) = [])).

(** Host intents are withdrawn first; a lost race stops before the batch. *)
Definition applyRegistryRetention (p : RegistryRetentionProjection) (batchFails : bool) (tables : Tables)
  : Tables * result ApplyError AppliedRetention :=
  let '(db, withdrawn) := withdrawTrims (pj_nowUnixMs p) (pj_hostCacheTrims p) (tb_desired tables) in
  match withdrawn with
  | Err e => (withDesired tables db, Err (host_state_failed e))
  | Ok _ =>
      if hasStatements p && batchFails then (withDesired tables db, Err batch_failed)
      else (applyBatch p db tables,
            Ok (mkApplied (bp_retireBuildIds (pj_builds p)) (activatedOf p)
                  (map tr_id (sp_trims (pj_snapshots p))) (sp_deleteIds (pj_snapshots p))
                  (ip_retireIds (pj_candidates p))
                  (sortedSet (flat_map ht_imageIds (pj_hostCacheTrims p)))))
  end.
End apply.
