(* ===== verification/RetentionSafety.v ===== *)
(** What the retention projection of the image registry guarantees: every object
    that a reference of the platform needs is in it, and its commit takes away
    nothing that is. *)
From stdpp Require Import base list strings sorting.
From Stdlib Require Import ZArith Lia.
From S2P Require Import Prelude Json RunState Store Bridge DesiredState BuildScheduler RegistryKeys RetentionPlans RetentionProjection.

Open Scope string_scope.
Open Scope list_scope.
Open Scope Z_scope.

(** * Lemmas: the indexes *)

Lemma indexed_set_eq index i l : indexed (Map_set i l index) i = l.
Proof. unfold indexed. by rewrite Map_get_set_eq. Qed.
Lemma indexed_set_ne index i j l : i <> j -> indexed (Map_set i l index) j = indexed index j.
Proof. intros H. unfold indexed. by rewrite Map_get_set_ne. Qed.

Lemma indexed_addExact index i key closure j c :
  In c (indexed (addExact index i key closure) j) <->
  In c (indexed index j) \/ i = j /\ c = mkClosureCandidate key closure.
Proof.
  unfold addExact. destruct (decide (i = j)) as [<-|Hn].
  - rewrite indexed_set_eq, in_app_iff. cbn. naive_solver.
  - rewrite indexed_set_ne by done. naive_solver.
Qed.

(** An index built by adding entries holds what it held and what was added. *)
Lemma indexed_fold {A} (add : ClosureIndex -> A -> ClosureIndex) (adds : A -> string -> ImageClosureCandidate -> Prop)
    (Hadd : forall index x j c, In c (indexed (add index x) j) <-> In c (indexed index j) \/ adds x j c) l index j c :
  In c (indexed (fold_left add l index) j) <-> In c (indexed index j) \/ exists x, In x l /\ adds x j c.
Proof.
  revert index. induction l as [|x l IH]; intros index; cbn [fold_left In]; [naive_solver|].
  rewrite IH, Hadd. naive_solver.
Qed.

(** What a description adds under its identity. *)
Definition describedAs (d : ImageKey * string * RunImageClosure) (identity : string)
    (c : ImageClosureCandidate) : Prop :=
  imageIdentity d.1.1 d.1.2 = identity /\ c = mkClosureCandidate d.1.1 d.2.

Lemma indexed_addDescription index d j c :
  In c (indexed (addDescription index d) j) <-> In c (indexed index j) \/ describedAs d j c.
Proof. destruct d as [[key imageId] closure]. apply indexed_addExact. Qed.

Lemma indexed_addManifest index m j c :
  In c (indexed (addManifestClosures index m) j) <->
  In c (indexed index j) \/ exists d, In d (manifestDescriptions m) /\ describedAs d j c.
Proof. apply (indexed_fold addDescription describedAs), indexed_addDescription. Qed.

(** Every record that describes an image, with its key, its id and its closure. *)
Definition descriptions (live : list LiveRow) (rollbacks : list ImageClosureByIdentity)
    (candidates : list CandidateRow) (builds : list BuildTableRow) : list (ImageKey * string * RunImageClosure) :=
  map (fun e => (bi_imageKey e, bi_imageId e, bi_closure e)) rollbacks
  ++ flat_map liveDescriptions live
  ++ flat_map manifestDescriptions (map cd_manifest candidates ++ buildManifests builds).

Definition identified (e : ImageClosureByIdentity) : Prop :=
  bi_identity e = imageIdentity (bi_imageKey e) (bi_imageId e).

Lemma describedAs_self d : describedAs d (imageIdentity d.1.1 d.1.2) (mkClosureCandidate d.1.1 d.2).
Proof. done. Qed.

(** The exact index holds, under an identity, the records of that identity. *)
Lemma exact_index_spec live rollbacks candidates builds j c :
  (forall e, In e rollbacks -> identified e) ->
  In c (indexed (buildRunImageIndex live rollbacks candidates builds) j) <->
  exists d, In d (descriptions live rollbacks candidates builds) /\ describedAs d j c.
Proof.
  intros Hid. unfold buildRunImageIndex.
  rewrite (indexed_fold addManifestClosures
    (fun m j c => exists d, In d (manifestDescriptions m) /\ describedAs d j c)) by apply indexed_addManifest.
  rewrite (indexed_fold (fun index r => addManifestClosures index (cd_manifest r))
    (fun r j c => exists d, In d (manifestDescriptions (cd_manifest r)) /\ describedAs d j c))
    by (intros; apply indexed_addManifest).
  rewrite (indexed_fold (fun index e => addExact index (bi_identity e) (bi_imageKey e) (bi_closure e))
    (fun e j c => bi_identity e = j /\ c = mkClosureCandidate (bi_imageKey e) (bi_closure e)))
    by (intros; apply indexed_addExact).
  rewrite (indexed_fold addDescription describedAs) by apply indexed_addDescription.
  unfold descriptions. setoid_rewrite in_app_iff. setoid_rewrite in_app_iff. setoid_rewrite in_map_iff.
  setoid_rewrite (in_flat_map manifestDescriptions). setoid_rewrite in_app_iff. setoid_rewrite in_map_iff.
  split.
  - intros [[[[[]|(d & Hd & Ha)]|(e & He & Ej & ->)]|(r & Hr & d & Hd & Ha)]|(m & Hm & d & Hd & Ha)].
    + exists d. auto.
    + eexists. split; [left; exists e; split; [reflexivity|done]|]. split; cbn; [|done].
      by rewrite <- (Hid e He).
    + exists d. split; [|done]. right. right. exists (cd_manifest r). eauto.
    + exists d. split; [|done]. right. right. exists m. eauto.
  - intros (d & [(e & <- & He)|[Hd|(m & [(r & <- & Hr)|Hm] & Hd)]] & Ha).
    + left. left. right. exists e. split; [done|]. destruct Ha as [Ha ->]. cbn in Ha.
      by rewrite (Hid e He).
    + left. left. left. right. eauto.
    + left. right. eauto.
    + right. eauto.
Qed.

Definition sameAs (d : ImageKey * string * RunImageClosure) (c : ImageClosureCandidate) : Prop :=
  registryImageKey (cc_imageKey c) = registryImageKey d.1.1 /\ cc_closure c = d.2.

Lemma addById_keeps index d j c : In c (indexed index j) -> In c (indexed (addById index d) j).
Proof.
  destruct d as [[key imageId] closure]. unfold addById. destruct (existsb _ _); [done|].
  destruct (decide (imageId = j)) as [<-|Hn]; [rewrite indexed_set_eq, in_app_iff; auto|].
  by rewrite indexed_set_ne.
Qed.

Lemma addById_adds index d : exists c, In c (indexed (addById index d) d.1.2) /\ sameAs d c.
Proof.
  destruct d as [[key imageId] closure]. unfold addById, sameAs. cbn [fst snd].
  destruct (existsb (sameVariant key closure) (indexed index imageId)) eqn:E.
  - apply existsb_exists in E as (c & Hc & E). exists c. split; [done|].
    unfold sameVariant in E. apply andb_true_iff in E as [E1 E2].
    apply String.eqb_eq in E1. apply bool_decide_eq_true in E2. done.
  - exists (mkClosureCandidate key closure). rewrite indexed_set_eq, in_app_iff. cbn. auto.
Qed.

(** The index by image id drops only exact duplicates: every record has its
    variant in it. *)
Lemma id_index_complete live rollbacks candidates builds d :
  In d (descriptions live rollbacks candidates builds) ->
  exists c, In c (indexed (buildImageIdIndex rollbacks live candidates builds) d.1.2) /\ sameAs d c.
Proof.
  unfold buildImageIdIndex, descriptions. generalize (@nil (string * list ImageClosureCandidate)) as index.
  set (l := map _ rollbacks ++ _). clearbody l. intros index. revert index.
  assert (Hkeep : forall l index j c, In c (indexed index j) -> In c (indexed (fold_left addById l index) j)).
  { clear. intros l. induction l as [|x l IH]; intros index j c Hc; [done|]. cbn [fold_left].
    apply IH, addById_keeps, Hc. }
  induction l as [|x l IH]; intros index Hd; [done|].
  destruct Hd as [->|Hd]; cbn [fold_left]; [|by apply IH].
  destruct (addById_adds index d) as (c & Hc & Hs). exists c. split; [|done]. by apply Hkeep.
Qed.

(** * Lemmas: merging *)

Lemma truthy_opt_false o : truthy_opt o = false -> present [o] = [].
Proof.
  intros H. destruct (present [o]) as [|x l] eqn:E; [done|].
  assert (In x (present [o])) as Hx by (rewrite E; by left). apply present_In in Hx as [[->|[]] Hx].
  cbn in H. apply truthy_spec in Hx. congruence.
Qed.

Lemma candidateArtifacts_Ok subject reference c out :
  candidateArtifacts subject reference c = Ok out ->
  out = (closureChunkManifests (cc_closure c), closureBootArtifacts (cc_closure c)).
Proof.
  unfold candidateArtifacts. destruct (truthy_opt (rc_chunkManifestSha256 _)) eqn:E.
  - do 2 (destruct (negb _); [done|]). by intros [= <-].
  - intros [= <-]. unfold closureChunkManifests. by rewrite truthy_opt_false.
Qed.

(** A merged closure holds the artifacts of every record it was merged from. *)
Lemma merge_Ok subject reference imageKey imageId exact byId fallback m :
  mergeImageClosures subject reference imageKey imageId exact byId fallback = Ok (Some m) ->
  forall c, In c (mergeCandidates imageId imageKey exact byId fallback) ->
    (forall sha, In sha (closureChunkManifests (cc_closure c)) -> In sha (mg_chunkManifestSha256s m)) /\
    (forall sha, In sha (closureBootArtifacts (cc_closure c)) -> In sha (mg_bootArtifactSha256s m)).
Proof.
  unfold mergeImageClosures. destruct (mergeCandidates _ _ _ _ _) as [|first rest] eqn:E; [done|].
  destruct (1 <? _)%nat; [done|]. intros H.
  apply result_bind_Ok in H as (artifacts & Ha & H). injection H as <-. cbn [mg_chunkManifestSha256s mg_bootArtifactSha256s].
  intros c Hc. destruct (mapRead_In _ _ _ _ Ha Hc) as (out & Hout & Hin).
  apply candidateArtifacts_Ok in Hout as ->.
  split; intros sha Hs; rewrite sortedSet_In, in_flat_map; eexists; (split; [exact Hin|done]).
Qed.

Lemma merge_None subject reference imageKey imageId exact byId fallback :
  mergeImageClosures subject reference imageKey imageId exact byId fallback = Ok None ->
  mergeCandidates imageId imageKey exact byId fallback = [].
Proof.
  unfold mergeImageClosures. destruct (mergeCandidates _ _ _ _ _) as [|first rest]; [done|].
  destruct (1 <? _)%nat; [done|]. intros H. by apply result_bind_Ok in H as (? & _ & ?).
Qed.

(** * What the references of the platform need *)

Definition rootKey (r : ImageRoot) : ImageKey := mkImageKey (rt_scenarioId r) (rt_vmName r) (rt_arch r).
Definition manifestClosure (vm : ScenarioVmManifest) : RunImageClosure :=
  mkClosure (vmf_chunk_manifest_sha256 vm) (option_map bm_kernel_sha256 (vmf_boot vm))
    (option_map bm_initrd_sha256 (vmf_boot vm)).

(** One set of pinned references holds another. *)
Record pinned_in (x y : Pinned) : Prop := mk_pinned_in {
  pi_roots : incl (pn_roots x) (pn_roots y);
  pi_chunks : incl (pn_chunkManifests x) (pn_chunkManifests y);
  pi_boots : incl (pn_bootArtifacts x) (pn_bootArtifacts y);
}.

Lemma pinned_in_trans x y z : pinned_in x y -> pinned_in y z -> pinned_in x z.
Proof. intros [] []. constructor; by eapply incl_tran. Qed.

Lemma pinned_in_all x l : In x l -> pinned_in x (pinAll l).
Proof. intros Hx. constructor; intros y Hy; cbn; apply in_flat_map; by exists x. Qed.

(** The image [imageId] under the registry key [rkey], with a closure it boots
    through, is held by pinned references. *)
Definition holds (p : Pinned) (rkey imageId : string) (closure : RunImageClosure) : Prop :=
  (exists r, In r (pn_roots p) /\ registryImageKey (rootKey r) = rkey /\ rt_imageId r = imageId) /\
  incl (closureChunkManifests closure) (pn_chunkManifests p) /\
  incl (closureBootArtifacts closure) (pn_bootArtifacts p).

Lemma holds_in x y rkey imageId closure : pinned_in x y -> holds x rkey imageId closure -> holds y rkey imageId closure.
Proof.
  intros [Hr Hc Hb] ((r & Hin & E) & Hch & Hbo).
  split; [exists r; split; [by apply Hr|done]|split; by eapply incl_tran].
Qed.

Section safety.
Context `{Collation}.

(** The rollbacks a sweep retains, as they are read. *)
Definition rollbackReads (tables : Tables) : list SnapshotArtifactRoots :=
  match planSnapshotRetention (tb_snapshots tables) with
  | Ok plan =>
      match mapRead (readRetainedRow plan) (filter (fun row => retained plan row = true) (tb_snapshots tables)) with
      | Ok l => l
      | Err _ => []
      end
  | Err _ => []
  end.
(** Every record of the platform that describes an image. *)
Definition described (tables : Tables) : list (ImageKey * string * RunImageClosure) :=
  descriptions (tb_live tables) (flat_map sa_imageClosures (rollbackReads tables)) (tb_candidates tables)
    (tb_builds tables).
(** A VM a host runs, or is asked to run. *)
Definition operationalVm (tables : Tables) (r : HostOperationalReference) : Prop :=
  exists row rs, In row (loadHostStates tables) /\ hostOperational row = Ok rs /\ In r rs.

(** A live pointer, a retained rollback, a staged candidate, a run in flight or a
    host VM needs an image under a registry key, with a closure that describes
    it. A run and a host VM need every variant their image has. *)
Inductive needs (tables : Tables) : string -> string -> RunImageClosure -> Prop :=
| needs_live row arch imageId :
    In row (tb_live tables) -> isImageArchitecture (prop (lv_imageKey row) "arch") = Some arch ->
    lv_imageId row = Some imageId ->
    needs tables (registryImageKey (mkImageKey (lv_scenarioId row) (lv_vmName row) arch)) imageId (liveClosure row)
| needs_rollback plan row cov vm root entry :
    planSnapshotRetention (tb_snapshots tables) = Ok plan ->
    In row (tb_snapshots tables) -> retained plan row = true ->
    readSnapshot (retainedSnapshot plan row) = Ok cov -> In vm (cv_vms cov) ->
    snapshotVmRoot src_rollback_snapshot vm = Ok (root, entry) ->
    needs tables (registryImageKey (rootKey root)) (rt_imageId root) (bi_closure entry)
| needs_candidate row vm :
    In row (keptCandidates tables) -> In vm (mf_vms (cd_manifest row)) ->
    needs tables
      (registryImageKey (mkImageKey (trim (mf_scenario_id (cd_manifest row))) (trim (vmf_name vm))
                           (ik_arch (vmf_image_key vm))))
      (vmf_image_id vm) (manifestClosure vm)
| needs_run row key d :
    In row (tb_runs tables) -> isImageKey (Some (ri_imageKey row)) = Some key -> In d (described tables) ->
    imageIdentity d.1.1 d.1.2 = imageIdentity key (ri_imageId row) ->
    needs tables (registryImageKey key) (ri_imageId row) d.2
| needs_host_keyed r key d :
    operationalVm tables r -> op_imageKey r = Some key -> In d (described tables) ->
    imageIdentity d.1.1 d.1.2 = imageIdentity key (op_imageId r) ->
    needs tables (registryImageKey d.1.1) (op_imageId r) d.2
| needs_host_by_id r d :
    operationalVm tables r -> In d (described tables) -> d.1.2 = op_imageId r ->
    (forall key d', op_imageKey r = Some key -> In d' (described tables) ->
       imageIdentity d'.1.1 d'.1.2 <> imageIdentity key (op_imageId r)) ->
    needs tables (registryImageKey d.1.1) (op_imageId r) d.2.

(** * Lemmas: each kind of reference is pinned *)

Lemma readLiveRow_holds row x arch imageId :
  readLiveRow row = Ok x -> isImageArchitecture (prop (lv_imageKey row) "arch") = Some arch ->
  lv_imageId row = Some imageId ->
  holds x (registryImageKey (mkImageKey (lv_scenarioId row) (lv_vmName row) arch)) imageId (liveClosure row).
Proof.
  unfold readLiveRow, requireImageArchitecture. intros Hx Ha Hi. rewrite Hi in Hx.
  revert Hx Ha. destruct (prop (lv_imageKey row) "arch") as [[| | |s| |]|]; try done.
  cbn [option_map]. intros Hx Ha.
  rewrite Ha in Hx. cbn [result_bind] in Hx. destruct (negb (truthy imageId)); [done|].
  destruct (_ && _); [done|]. injection Hx as <-.
  split; [eexists; split; [by left|done]|split; apply incl_refl].
Qed.

Lemma readRetainedRow_holds plan row a cov vm root entry :
  readRetainedRow plan row = Ok a -> readSnapshot (retainedSnapshot plan row) = Ok cov -> In vm (cv_vms cov) ->
  snapshotVmRoot src_rollback_snapshot vm = Ok (root, entry) ->
  holds (pinSnapshot a) (registryImageKey (rootKey root)) (rt_imageId root) (bi_closure entry).
Proof.
  unfold readRetainedRow. intros Ha Hcov Hvm Hroot. rewrite Hcov in Ha. cbn [result_bind] in Ha.
  unfold snapshotArtifactRoots in Ha. apply result_bind_Ok in Ha as (vms & Hvms & Ha). injection Ha as <-.
  destruct (mapRead_In _ _ _ _ Hvms Hvm) as (out & Hout & Hin). rewrite Hroot in Hout. injection Hout as <-.
  split; [|split]; cbn.
  - exists root. split; [|done]. apply in_map_iff. by exists (root, entry).
  - intros sha Hs. apply sortedSet_In, in_flat_map. exists entry. split; [|done].
    apply in_map_iff. by exists (root, entry).
  - intros sha Hs. apply sortedSet_In, in_flat_map. exists entry. split; [|done].
    apply in_map_iff. by exists (root, entry).
Qed.

Lemma present_flat {A} (f : A -> list (option string)) (x : A) l :
  In x l -> incl (present (f x)) (present (flat_map f l)).
Proof.
  intros Hx sha [Hs Hn]%present_In. apply present_In. split; [|done]. apply in_flat_map. by exists x.
Qed.

Lemma pinManifest_holds source m vm :
  In vm (mf_vms m) ->
  holds (pinManifest source m)
    (registryImageKey (mkImageKey (trim (mf_scenario_id m)) (trim (vmf_name vm)) (ik_arch (vmf_image_key vm))))
    (vmf_image_id vm) (manifestClosure vm).
Proof.
  intros Hvm. split; [|split]; cbn.
  - eexists. split; [unfold manifestImageMembers; apply in_map_iff; exists vm; by split|done].
  - intros sha Hs. apply sortedSet_In. revert sha Hs. unfold closureChunkManifests. cbn.
    assert (E : map vmf_chunk_manifest_sha256 (mf_vms m) =
      flat_map (fun vm => [vmf_chunk_manifest_sha256 vm]) (mf_vms m)).
    { clear. induction (mf_vms m) as [|x l IH]; [done|]. cbn. by rewrite IH. }
    rewrite E. by apply (present_flat (fun vm => [vmf_chunk_manifest_sha256 vm])).
  - intros sha Hs. apply sortedSet_In. revert sha Hs.
    by apply (present_flat (fun vm => [option_map bm_kernel_sha256 (vmf_boot vm);
                                       option_map bm_initrd_sha256 (vmf_boot vm)])).
Qed.

(** The snapshot entries of a read carry their own identity. *)
Lemma snapshot_identified plan row a e : readRetainedRow plan row = Ok a -> In e (sa_imageClosures a) -> identified e.
Proof.
  unfold readRetainedRow. intros Ha. apply result_bind_Ok in Ha as (cov & _ & Ha).
  unfold snapshotArtifactRoots in Ha. apply result_bind_Ok in Ha as (vms & Hvms & Ha). injection Ha as <-.
  cbn. intros ([root e'] & <- & He)%in_map_iff. cbn.
  destruct (mapRead_In_inv _ _ _ _ Hvms He) as (vm & Hvm & _). unfold snapshotVmRoot in Hvm.
  apply result_bind_Ok in Hvm as (arch & _ & Hvm).
  destruct (readStringField vm ["scenarioId"; "scenario_id"]) as [scenario|]; [|done].
  destruct (readStringField vm ["vmName"; "vm_name"]) as [name|]; [|done].
  destruct (readStringField vm ["imageSha256"; "image_sha256"]) as [image|]; [|done].
  apply result_bind_Ok in Hvm as (kernel & _ & Hvm). apply result_bind_Ok in Hvm as (initrd & _ & Hvm).
  destruct (_ && _); [done|]. by injection Hvm as _ <-.
Qed.

Section resolve.
Variable tables : Tables.
Variable exact byId : ClosureIndex.
Hypothesis Hexact : forall d, In d (described tables) ->
  In (mkClosureCandidate d.1.1 d.2) (indexed exact (imageIdentity d.1.1 d.1.2)).
Hypothesis HbyId : forall d, In d (described tables) -> exists c, In c (indexed byId d.1.2) /\ sameAs d c.

Lemma readRunRow_holds row x key d :
  readRunRow exact byId row = Ok x -> isImageKey (Some (ri_imageKey row)) = Some key -> In d (described tables) ->
  imageIdentity d.1.1 d.1.2 = imageIdentity key (ri_imageId row) ->
  holds x (registryImageKey key) (ri_imageId row) d.2.
Proof.
  unfold readRunRow. intros Hx Hk Hd Hid. rewrite Hk in Hx.
  apply result_bind_Ok in Hx as (resolved & Hr & Hx). destruct resolved as [m|]; [|done].
  injection Hx as <-. pose proof (Hexact d Hd) as Hc. rewrite Hid in Hc.
  destruct (merge_Ok _ _ _ _ _ _ _ _ Hr (mkClosureCandidate d.1.1 d.2)) as [Hch Hbo].
  { unfold mergeCandidates. by destruct (indexed exact _). }
  destruct key. split; [eexists; split; [by left|done]|]. by split.
Qed.

(** The candidates a host VM resolves to share one registry key. *)
Lemma merge_one_key subject reference imageKey imageId exact' byId' fallback m c :
  mergeImageClosures subject reference imageKey imageId exact' byId' fallback = Ok (Some m) ->
  In c (mergeCandidates imageId imageKey exact' byId' fallback) ->
  registryImageKey (cc_imageKey c) = registryImageKey (mg_imageKey m).
Proof.
  unfold mergeImageClosures. destruct (mergeCandidates _ _ _ _ _) as [|first rest] eqn:E; [done|].
  destruct (1 <? _)%nat eqn:El; [done|]. intros Hm Hc.
  apply result_bind_Ok in Hm as (artifacts & _ & Hm). injection Hm as <-. cbn [mg_imageKey].
  set (keys := map (fun c => registryImageKey (cc_imageKey c)) (first :: rest)) in *.
  apply Nat.ltb_ge in El.
  assert (Hin : forall c, In c (first :: rest) -> In (registryImageKey (cc_imageKey c)) (Set_new keys)).
  { intros c' Hc'. apply Set_new_In. unfold keys. apply in_map_iff. by exists c'. }
  pose proof (Hin c Hc) as H1. pose proof (Hin first (or_introl eq_refl)) as H2.
  destruct (Set_new keys) as [|k [|k' l]]; cbn in El; [done| |lia]. cbn in H1, H2. naive_solver.
Qed.

Lemma readHostReference_holds r x c closure :
  readHostReference exact byId r = Ok x ->
  In c (mergeCandidates (op_imageId r) (op_imageKey r) exact byId true) -> cc_closure c = closure ->
  holds x (registryImageKey (cc_imageKey c)) (op_imageId r) closure.
Proof.
  unfold readHostReference. intros Hx Hc <-. apply result_bind_Ok in Hx as (resolved & Hr & Hx).
  destruct resolved as [m|].
  - injection Hx as <-. destruct (merge_Ok _ _ _ _ _ _ _ _ Hr c Hc) as [Hch Hbo].
    rewrite (merge_one_key _ _ _ _ _ _ _ _ _ Hr Hc).
    split; [|by split]. eexists. split; [by left|]. cbn. by destruct (mg_imageKey m).
  - by rewrite (merge_None _ _ _ _ _ _ _ Hr) in Hc.
Qed.

Lemma host_keyed_holds r x key d :
  readHostReference exact byId r = Ok x -> op_imageKey r = Some key -> In d (described tables) ->
  imageIdentity d.1.1 d.1.2 = imageIdentity key (op_imageId r) ->
  holds x (registryImageKey d.1.1) (op_imageId r) d.2.
Proof.
  intros Hx Hk Hd Hid. pose proof (Hexact d Hd) as Hc. rewrite Hid in Hc.
  apply (readHostReference_holds r x (mkClosureCandidate d.1.1 d.2) _ Hx); [|done].
  rewrite Hk. unfold mergeCandidates. by destruct (indexed exact _).
Qed.

Lemma host_by_id_holds r x d :
  readHostReference exact byId r = Ok x -> In d (described tables) -> d.1.2 = op_imageId r ->
  (forall key, op_imageKey r = Some key -> indexed exact (imageIdentity key (op_imageId r)) = []) ->
  holds x (registryImageKey d.1.1) (op_imageId r) d.2.
Proof.
  intros Hx Hd Hid Hno. destruct (HbyId d Hd) as (c & Hc & Hk & Hcl). rewrite Hid in Hc. rewrite <- Hk.
  apply (readHostReference_holds r x c _ Hx); [|done].
  unfold mergeCandidates. destruct (op_imageKey r) as [key|]; [|done]. by rewrite (Hno key).
Qed.
End resolve.

(** * The projection pins every reference *)

Lemma gather_parts tables g :
  gatherRoots tables = Ok g ->
  exists live rollback runs refs hosts,
    mapRead readLiveRow (tb_live tables) = Ok live /\
    planSnapshotRetention (tb_snapshots tables) = Ok (ga_snapshotPlan g) /\
    mapRead (readRetainedRow (ga_snapshotPlan g))
      (filter (fun row => retained (ga_snapshotPlan g) row = true) (tb_snapshots tables)) = Ok rollback /\
    mapRead (readRunRow (ga_exact g) (ga_byId g)) (tb_runs tables) = Ok runs /\
    mapRead hostReferences (loadHostStates tables) = Ok refs /\
    mapRead (readHostReference (ga_exact g) (ga_byId g)) (flat_map fst refs) = Ok hosts /\
    ga_live g = pinAll live /\ ga_rollback g = pinAll (map pinSnapshot rollback) /\
    ga_candidate g = pinAll (map (fun row => pinManifest src_candidate_intent (cd_manifest row))
                               (keptCandidates tables)) /\
    ga_run g = pinAll runs /\ ga_host g = pinAll hosts /\
    rollbackReads tables = rollback /\ ga_hosts g = map snd refs /\
    ga_exact g = buildRunImageIndex (tb_live tables) (flat_map sa_imageClosures rollback)
                   (tb_candidates tables) (tb_builds tables) /\
    ga_byId g = buildImageIdIndex (flat_map sa_imageClosures rollback) (tb_live tables)
                  (tb_candidates tables) (tb_builds tables).
Proof.
  unfold gatherRoots, loadHostImageReferences. intros Hg.
  apply result_bind_Ok in Hg as (live & Hlive & Hg). apply result_bind_Ok in Hg as (plan & Hplan & Hg).
  apply result_bind_Ok in Hg as (rollback & Hroll & Hg). apply result_bind_Ok in Hg as (runs & Hruns & Hg).
  apply result_bind_Ok in Hg as (pair & Hpair & Hg). apply result_bind_Ok in Hpair as (refs & Hrefs & Hpair).
  injection Hpair as <-. cbn [fst snd] in Hg.
  apply result_bind_Ok in Hg as (hosts & Hhosts & Hg). injection Hg as <-.
  exists live, rollback, runs, refs, hosts. cbn. unfold rollbackReads. rewrite Hplan, Hroll.
  split_and!; done.
Qed.

Lemma gathered_in g x :
  x = ga_live g \/ x = ga_rollback g \/ x = ga_candidate g \/ x = ga_run g \/ x = ga_host g ->
  pinned_in x (gathered g).
Proof. intros Hx. apply pinned_in_all. cbn. naive_solver. Qed.

(** What was read of one row of a kind is in what was gathered. *)
Lemma gathered_part {A} (f : A -> Read Pinned) l l' x y g part :
  mapRead f l = Ok l' -> In x l -> f x = Ok y -> part = pinAll l' -> pinned_in part (gathered g) ->
  pinned_in y (gathered g).
Proof.
  intros Hl Hx Hy -> Hp. destruct (mapRead_In _ _ _ _ Hl Hx) as (y' & Hy' & Hin).
  assert (y' = y) as -> by congruence. eapply pinned_in_trans; [by apply pinned_in_all|done].
Qed.

(** The indexes a projection resolves through hold every record. *)
Lemma gather_described tables g :
  gatherRoots tables = Ok g ->
  (forall d, In d (described tables) ->
     In (mkClosureCandidate d.1.1 d.2) (indexed (ga_exact g) (imageIdentity d.1.1 d.1.2))) /\
  (forall d, In d (described tables) -> exists c, In c (indexed (ga_byId g) d.1.2) /\ sameAs d c) /\
  (forall j c, In c (indexed (ga_exact g) j) ->
     exists d, In d (described tables) /\ imageIdentity d.1.1 d.1.2 = j).
Proof.
  intros Hg. destruct (gather_parts _ _ Hg) as (live & rollback & runs & refs & hosts & _ & _ & Hroll & _ & _ &
    _ & _ & _ & _ & _ & _ & Ereads & _ & Eexact & EbyId).
  assert (Hident : forall e, In e (flat_map sa_imageClosures rollback) -> identified e).
  { intros e (a & Ha & He)%in_flat_map. destruct (mapRead_In_inv _ _ _ _ Hroll Ha) as (row & Hrow & _).
    by eapply snapshot_identified. }
  unfold described. rewrite Ereads, Eexact, EbyId. split_and!.
  - intros d Hd. rewrite exact_index_spec by done. by exists d.
  - intros d Hd. by apply id_index_complete.
  - intros j c Hc. rewrite exact_index_spec in Hc by done. destruct Hc as (d & Hd & Hj & _). by exists d.
Qed.

Lemma gather_host tables g r :
  gatherRoots tables = Ok g -> operationalVm tables r ->
  exists x, readHostReference (ga_exact g) (ga_byId g) r = Ok x /\ pinned_in x (gathered g).
Proof.
  intros Hg (row & rs & Hrow & Hrs & Hr).
  destruct (gather_parts _ _ Hg) as (live & rollback & runs & refs & hosts & _ & _ & _ & _ & Hrefs & Hhosts &
    _ & _ & _ & _ & Ehost & _).
  destruct (mapRead_In _ _ _ _ Hrefs Hrow) as (out & Hout & Hin).
  unfold hostReferences in Hout. rewrite Hrs in Hout. injection Hout as <-.
  assert (Hr' : In r (flat_map fst refs)) by (apply in_flat_map; eexists; split; [done|done]).
  destruct (mapRead_In _ _ _ _ Hhosts Hr') as (x & Hx & _). exists x. split; [done|].
  apply (gathered_part _ _ _ r x g _ Hhosts Hr' Hx Ehost), gathered_in. auto.
Qed.

Lemma gathered_holds tables g rkey imageId closure :
  gatherRoots tables = Ok g -> needs tables rkey imageId closure -> holds (gathered g) rkey imageId closure.
Proof.
  intros Hg Hneed. destruct (gather_described _ _ Hg) as (Hex & Hby & Hsound).
  pose proof (fun r => gather_host tables g r Hg) as Hop.
  destruct (gather_parts _ _ Hg) as (live & rollback & runs & refs & hosts & Hlive & Hplan & Hroll & Hruns &
    _ & _ & Elive & Eroll & Ecand & Erun & _).
  destruct Hneed as [row arch imageId Hrow Ha Hi|plan row cov vm root entry Hp Hrow Hret Hcov Hvm Hroot
    |row vm Hrow Hvm|row key d Hrow Hk Hd Hid|r key d Hr Hk Hd Hid|r d Hr Hd Hid Hno].
  - destruct (mapRead_In _ _ _ _ Hlive Hrow) as (x & Hx & _).
    apply holds_in with x; [|by apply readLiveRow_holds].
    apply (gathered_part _ _ _ row x g _ Hlive Hrow Hx Elive), gathered_in. auto.
  - assert (plan = ga_snapshotPlan g) as -> by congruence.
    destruct (mapRead_In _ _ _ row Hroll) as (a & Ha & Hin); [by apply filter_In_iff|].
    apply holds_in with (pinSnapshot a); [|by eapply readRetainedRow_holds].
    apply pinned_in_trans with (ga_rollback g); [|apply gathered_in; auto].
    rewrite Eroll. apply pinned_in_all, in_map_iff. by exists a.
  - apply holds_in with (pinManifest src_candidate_intent (cd_manifest row)); [|by apply pinManifest_holds].
    apply pinned_in_trans with (ga_candidate g); [|apply gathered_in; auto].
    rewrite Ecand. apply pinned_in_all, in_map_iff. by exists row.
  - destruct (mapRead_In _ _ _ _ Hruns Hrow) as (x & Hx & _).
    apply holds_in with x; [|by apply (readRunRow_holds tables (ga_exact g) (ga_byId g) Hex)].
    apply (gathered_part _ _ _ row x g _ Hruns Hrow Hx Erun), gathered_in. auto.
  - destruct (Hop r Hr) as (x & Hx & Hin). apply holds_in with x; [done|].
    by apply (host_keyed_holds tables (ga_exact g) (ga_byId g) Hex r x key).
  - destruct (Hop r Hr) as (x & Hx & Hin). apply holds_in with x; [done|].
    apply (host_by_id_holds tables (ga_exact g) (ga_byId g) Hby r x); [done|done|done|].
    intros key Hkey. destruct (indexed (ga_exact g) _) as [|c l] eqn:E; [done|]. exfalso.
    destruct (Hsound (imageIdentity key (op_imageId r)) c) as (d' & Hd' & Ej); [rewrite E; by left|].
    by apply (Hno key d').
Qed.

(** What the projection of a table keeps. *)
Definition projected (p : RegistryRetentionProjection) : Pinned :=
  mkPinned (pj_roots p) (pj_chunkManifestSha256s p) (pj_bootArtifactSha256s p).

Lemma project_gathered tables now p :
  projectRegistryRetention tables now = Ok p ->
  exists g, gatherRoots tables = Ok g /\ pinned_in (gathered g) (projected p) /\
    pj_roots p = pn_roots (gathered g) /\ pj_snapshots p = ga_snapshotPlan g /\
    incl (map rt_imageId (pj_roots p)) (pj_imageIds p).
Proof.
  unfold projectRegistryRetention. intros Hp. apply result_bind_Ok in Hp as (g & Hg & Hp).
  apply result_bind_Ok in Hp as (intents & Hi & Hp). injection Hp as <-. exists g. cbn [pj_roots pj_snapshots pj_imageIds].
  split_and!; [done| |done|done|].
  - constructor; cbn [projected pn_roots pn_chunkManifests pn_bootArtifacts pj_roots pj_chunkManifestSha256s
      pj_bootArtifactSha256s]; [apply incl_refl|..]; intros sha Hs; apply sortedSet_In; cbn; apply in_app_iff; auto.
  - intros id Hid. apply sortedSet_In. rewrite !in_app_iff. auto.
Qed.

(** What a reference needs is pinned. *)
Lemma project_pins tables now p rkey imageId closure :
  projectRegistryRetention tables now = Ok p -> needs tables rkey imageId closure ->
  (exists r, In r (pj_roots p) /\ registryImageKey (rootKey r) = rkey /\ rt_imageId r = imageId) /\
  (forall sha, In sha (closureChunkManifests closure) -> In sha (pj_chunkManifestSha256s p)) /\
  (forall sha, In sha (closureBootArtifacts closure) -> In sha (pj_bootArtifactSha256s p)) /\
  In imageId (pj_imageIds p).
Proof.
  intros Hp Hn. destruct (project_gathered _ _ _ Hp) as (g & Hg & Hin & _ & _ & Hids).
  pose proof (gathered_holds _ _ _ _ _ Hg Hn) as Hh. apply (holds_in _ (projected p)) in Hh; [|done].
  destruct Hh as ((r & Hr & Ek & Ei) & Hch & Hbo). split_and!; [by exists r|done|done|].
  apply Hids, in_map_iff. by exists r.
Qed.

(** The projection keeps whatever a live pointer, a retained rollback, a staged
    candidate, a run in flight or a host VM needs: a root for its image, its
    chunk manifest and its boot artifacts, in every variant. *)
Theorem projection_pins_references tables now p rkey imageId closure
  (Hp : projectRegistryRetention tables now = Ok p) (Hn : needs tables rkey imageId closure) :
  (exists r, In r (pj_roots p) /\ registryImageKey (rootKey r) = rkey /\ rt_imageId r = imageId) /\
  (forall sha, In sha (closureChunkManifests closure) -> In sha (pj_chunkManifestSha256s p)) /\
  (forall sha, In sha (closureBootArtifacts closure) -> In sha (pj_bootArtifactSha256s p)) /\
  In imageId (pj_imageIds p).
Proof. by eapply project_pins. Qed.

(** A run in flight whose image no record describes is a fault: the projection
    gives no answer to delete by. *)
Theorem undescribed_run_faults tables now row
  (Hrow : In row (tb_runs tables))
  (Hno : forall key d, isImageKey (Some (ri_imageKey row)) = Some key -> In d (described tables) ->
     imageIdentity d.1.1 d.1.2 <> imageIdentity key (ri_imageId row)) :
  exists f, projectRegistryRetention tables now = Err f.
Proof.
  destruct (projectRegistryRetention tables now) as [p|f] eqn:Hp; [|by exists f]. exfalso.
  destruct (project_gathered _ _ _ Hp) as (g & Hg & _). destruct (gather_described _ _ Hg) as (_ & _ & Hsound).
  destruct (gather_parts _ _ Hg) as (live & rollback & runs & refs & hosts & _ & _ & _ & Hruns & _).
  destruct (mapRead_In _ _ _ _ Hruns Hrow) as (x & Hx & _). unfold readRunRow in Hx.
  destruct (isImageKey (Some (ri_imageKey row))) as [key|] eqn:Hk; [|done].
  apply result_bind_Ok in Hx as (resolved & Hr & Hx). destruct resolved as [m|]; [|done].
  unfold mergeImageClosures, mergeCandidates in Hr.
  destruct (indexed (ga_exact g) (imageIdentity key (ri_imageId row))) as [|c l] eqn:E; [done|].
  destruct (Hsound (imageIdentity key (ri_imageId row)) c) as (d & Hd & Ej); [rewrite E; by left|].
  by apply (Hno key d).
Qed.
End safety.

(** * Two hosts and one image *)

Definition shared_key : ImageKey := mkImageKey "s" "vm" arch_x86_64.
Definition shared_host (id : string) : HostRow := mkHost id scope_platform "agent" None None None 0 false.
Definition shared_row (hostId : string) : DesiredRow :=
  mkDesiredRow hostId 1 (mkDesiredState 1 hostId scope_platform "" 1 0 [mkCachedImage shared_key "old"] None [] [] None) 0 0.
(** Two hosts name an old image of a managed family in their cache; the second one
    is fetching it. *)
Definition shared_tables : Tables :=
  mkTables [mkLive "s" None "vm" (Some (encodeImageKey shared_key)) (Some "new") "qcow2" None "" ""] [] [] [] [] []
    (mkDesiredDb [shared_row "a"; shared_row "b"] [shared_host "a"; shared_host "b"])
    [("b", mkReportDoc [] [mkReportedDoc (Some "old") (Some "downloading")])].

(** The trim of one host unpins the image for all: the intent of the host that is
    fetching it is not trimmed, yet the projection keeps neither its object nor its
    id. Alone, that host keeps both. *)
Lemma trim_on_one_host_unpins_on_another :
  (exists p, projectRegistryRetention shared_tables 0 = Ok p /\
     map ht_hostId (pj_hostCacheTrims p) = ["a"] /\ pj_objectOnlyImageIds p = [] /\ pj_imageIds p = ["new"]) /\
  (exists p, projectRegistryRetention
      (mkTables (tb_live shared_tables) [] [] [] [] [] (mkDesiredDb [shared_row "b"] [shared_host "b"]) (tb_reports shared_tables)) 0
      = Ok p /\ pj_hostCacheTrims p = [] /\ pj_objectOnlyImageIds p = ["old"] /\ pj_imageIds p = ["new"; "old"]).
Proof. split; eexists; (split; [vm_compute; reflexivity|]); vm_compute; done. Qed.
