(* ===== verification/RegistryAdmission.v ===== *)
(** Admission to the image registry (lib/image-registry-admission.ts): upload
    sessions and writers share the registry, a collector's sweep has it alone.
    Every operation is one or two D1 batches on four tables. *)
From stdpp Require Import base list strings sorting relations.
From Stdlib Require Import ZArith Lia.
From S2P Require Import Prelude Json Text RunState Bridge Store.

Open Scope string_scope.
Open Scope list_scope.
Open Scope Z_scope.

(** * Data *)

Inductive EnforcementMode : Type := report_only | enforce.
Inductive GateState : Type := gate_open | gate_sweeping.
Inductive OwnerKind : Type := ok_publish_token | ok_builder | ok_system.
Inductive SessionState : Type := ss_open | ss_completed | ss_abandoned | ss_reaped.
Inductive WriterOutcome : Type := wo_pending | wo_ok | wo_error | wo_unknown.
Inductive GcRunState : Type := gc_running | gc_completed | gc_failed | gc_aborted.
Inductive OperationKind : Type :=
| op_chunk_exists | op_chunk_put | op_manifest_put | op_multipart_create | op_multipart_part
| op_multipart_complete | op_bundle_put | op_publish | op_pointer_mutation | op_guest_tools | op_run_start.
#[export] Instance EnforcementMode_eq_dec : EqDecision EnforcementMode.
Proof. solve_decision. Defined.
#[export] Instance GateState_eq_dec : EqDecision GateState.
Proof. solve_decision. Defined.
#[export] Instance OwnerKind_eq_dec : EqDecision OwnerKind.
Proof. solve_decision. Defined.
#[export] Instance SessionState_eq_dec : EqDecision SessionState.
Proof. solve_decision. Defined.
#[export] Instance WriterOutcome_eq_dec : EqDecision WriterOutcome.
Proof. solve_decision. Defined.
#[export] Instance GcRunState_eq_dec : EqDecision GcRunState.
Proof. solve_decision. Defined.

Record Gate : Type := mkGate {
  g_enforcement : EnforcementMode;
  g_epoch : Z;
  g_state : GateState;
  g_sweepToken : option string;
  g_sweepOwner : option string;
  g_sweepStartedAt : option Z;
  g_sweepHeartbeatAt : option Z;
  g_sweepExpiresAt : option Z;
  g_pausedAt : option Z;
  g_pauseReason : option string;
}.
Record UploadSession : Type := mkSession {
  us_sessionId : string;
  us_ownerKind : OwnerKind;
  us_ownerId : string;
  us_intent : option string;
  us_epoch : Z;
  us_state : SessionState;
  us_heartbeatAt : Z;
  us_expiresAt : Z;
  us_closedAt : option Z;
}.
Record OperationWriter : Type := mkWriter {
  ow_id : string;
  ow_sessionId : option string;
  ow_ownerKind : OwnerKind;
  ow_ownerId : string;
  ow_operation : OperationKind;
  ow_epoch : Z;
  ow_outcome : WriterOutcome;
  ow_heartbeatAt : Z;
  ow_expiresAt : Z;
  ow_releasedAt : option Z;
}.
Record GcRun : Type := mkGcRun {
  gr_id : string;
  gr_owner : string;
  gr_sweepToken : string;
  gr_state : GcRunState;
  gr_heartbeatAt : Z;
  gr_finishedAt : option Z;
  gr_scannedObjects : Z;
  gr_deletedObjects : Z;
  gr_blockedObjects : Z;
  gr_bytesReclaimed : Z;
  gr_error : option string;
}.
(** The gate is the one row of [image_registry_admission], when it exists. *)
Record Admission : Type := mkAdmission {
  ad_gate : option Gate;
  ad_sessions : list UploadSession;
  ad_writers : list OperationWriter;
  ad_runs : list GcRun;
}.

Definition REGISTRY_SESSION_LEASE_MS : Z := 10 * 60 * 1000.
Definition REGISTRY_OPERATION_LEASE_MS : Z := 5 * 60 * 1000.
Definition REGISTRY_SWEEP_LEASE_MS : Z := 5 * 60 * 1000.
Definition REGISTRY_INTERNAL_WRITER_LEASE_MS : Z := 2 * 60 * 1000.
Definition REGISTRY_REAP_GRACE_MS : Z := 60 * 60 * 1000.
Definition REGISTRY_REAP_BATCH_SIZE : nat := 500.
Definition REGISTRY_CLOSED_SESSION_RETAIN_MS : Z := 6 * 60 * 60 * 1000.

Definition with_gate (s : Admission) (g : option Gate) : Admission :=
  mkAdmission g (ad_sessions s) (ad_writers s) (ad_runs s).
Definition with_sessions (s : Admission) l : Admission :=
  mkAdmission (ad_gate s) l (ad_writers s) (ad_runs s).
Definition with_writers (s : Admission) l : Admission :=
  mkAdmission (ad_gate s) (ad_sessions s) l (ad_runs s).
Definition with_runs (s : Admission) l : Admission :=
  mkAdmission (ad_gate s) (ad_sessions s) (ad_writers s) l.

(** * Reading the state *)

Definition sessionOpen (x : UploadSession) : bool := bool_decide (us_state x = ss_open).
(** A writer is a hold while it is unresolved or ended inconclusively. *)
Definition writerPending (w : OperationWriter) : bool :=
  bool_decide (ow_releasedAt w = None) || bool_decide (ow_outcome w = wo_unknown).
Definition runRunning (r : GcRun) : bool := bool_decide (gr_state r = gc_running).

Record AdmissionCounts : Type := mkCounts {
  ac_openSessions : Z;
  ac_staleOpenSessions : Z;
  ac_pendingWriters : Z;
  ac_stalePendingWriters : Z;
  ac_unknownWriters : Z;
}.
Definition readRegistryAdmissionCounts (s : Admission) (now : Z) : AdmissionCounts :=
  mkCounts (count_where sessionOpen (ad_sessions s))
    (count_where (fun x => sessionOpen x && (us_expiresAt x <=? now)) (ad_sessions s))
    (count_where writerPending (ad_writers s))
    (count_where (fun w => writerPending w && (ow_expiresAt w <=? now)) (ad_writers s))
    (count_where (fun w => bool_decide (is_Some (ow_releasedAt w)) && bool_decide (ow_outcome w = wo_unknown))
       (ad_writers s)).

Record AdmissionState : Type := mkState {
  as_enforcement : EnforcementMode;
  as_epoch : Z;
  as_state : GateState;
  as_paused : bool;
  as_active : bool;
  as_stalled : bool;
  as_token : option string;
  as_counts : AdmissionCounts;
}.
Definition readRegistryAdmissionState (s : Admission) (now : Z) : AdmissionState :=
  let counts := readRegistryAdmissionCounts s now in
  match ad_gate s with
  | None => mkState report_only 0 gate_open false false false None counts
  | Some g =>
      let active := bool_decide (g_state g = gate_sweeping) && bool_decide (is_Some (g_sweepToken g)) in
      mkState (g_enforcement g) (g_epoch g) (g_state g) (bool_decide (is_Some (g_pausedAt g))) active
        (active && match g_sweepExpiresAt g with Some t => t <=? now | None => false end)
        (g_sweepToken g) counts
  end.

Definition registryAdmissionBlockedReason (c : AdmissionCounts) : option string :=
  if 0 <? ac_openSessions c then Some "registry_upload_session_open"
  else if 0 <? ac_pendingWriters c then Some "registry_write_unresolved"
  else None.
(** Why a sweep may not delete, from a fresh read. *)
Definition sweepBlockedReason (st : AdmissionState) : option string :=
  match as_enforcement st with
  | enforce => registryAdmissionBlockedReason (as_counts st)
  | report_only => Some "registry_enforcement_disabled"
  end.

Definition operationNeedsSession (op : OperationKind) : bool :=
  match op with op_pointer_mutation | op_guest_tools => false | _ => true end.

(** * Statements *)

(** [INSERT OR IGNORE] of the gate's row. *)
Definition ensureRegistryAdmissionRow (s : Admission) : Admission :=
  match ad_gate s with
  | Some _ => s
  | None => with_gate s (Some (mkGate report_only 0 gate_open None None None None None None None))
  end.
Definition ownedOpenSession (sessionId : string) (kind : OwnerKind) (owner : string) (now : Z)
    (x : UploadSession) : bool :=
  (us_sessionId x =s sessionId) && bool_decide (us_ownerKind x = kind) && (us_ownerId x =s owner)
  && sessionOpen x && (now <? us_expiresAt x).
Definition touchSession (now : Z) (x : UploadSession) : UploadSession :=
  mkSession (us_sessionId x) (us_ownerKind x) (us_ownerId x) (us_intent x) (us_epoch x) (us_state x) now
    (now + REGISTRY_SESSION_LEASE_MS) (us_closedAt x).
Definition touchRegistryUploadSession (sessionId : string) (kind : OwnerKind) (owner : string) (now : Z)
    (s : Admission) : Admission * bool :=
  let hit := ownedOpenSession sessionId kind owner now in
  (with_sessions s (update_where hit (touchSession now) (ad_sessions s)), existsb hit (ad_sessions s)).

(** The condition a writer and a session are inserted under. *)
Definition gateAdmits (now : Z) (g : Gate) : bool :=
  bool_decide (g_state g = gate_open)
  && match g_sweepExpiresAt g with None => true | Some t => t <=? now end.
Definition gateAdmitsWriter (now : Z) (g : Gate) : bool :=
  gateAdmits now g && bool_decide (g_pausedAt g = None).

(** A primary key or unique index already holds the value: the batch fails and
    nothing is written. *)
Inductive AdmissionError : Type := duplicate_id.

Definition insertWriter (w : OperationWriter) (s : Admission) : result AdmissionError Admission :=
  if existsb (fun x => ow_id x =s ow_id w) (ad_writers s) then Err duplicate_id
  else Ok (with_writers s (ad_writers s ++ [w])).

(** * Refusals *)

(** [registry_session_*] and the sweep's refusal. *)
Inductive SessionRefusal : Type :=
| sr_sweep_in_progress | sr_unknown | sr_owner_mismatch | sr_closed | sr_superseded.

Definition findSession (sessionId : string) (s : Admission) : option UploadSession :=
  List.find (fun x => us_sessionId x =s sessionId) (ad_sessions s).
Definition ownedBy (kind : OwnerKind) (owner : string) (x : UploadSession) : bool :=
  bool_decide (us_ownerKind x = kind) && (us_ownerId x =s owner).
Definition describeRegistrySessionFailure (sessionId : string) (owner : option (OwnerKind * string))
    (s : Admission) : SessionRefusal :=
  match findSession sessionId s with
  | None => sr_unknown
  | Some x =>
      if match owner with Some (k, o) => negb (ownedBy k o x) | None => false end then sr_owner_mismatch
      else if negb (sessionOpen x) then sr_closed
      else sr_superseded
  end.

(** What a refused writer is told. *)
Inductive AdmissionRejection : Type :=
| rj_paused | rj_sweep_in_progress | rj_session (why : SessionRefusal) | rj_denied.
Definition registryAdmissionRejection (sessionId : option string) (kind : OwnerKind) (owner : string)
    (now : Z) (s : Admission) : AdmissionRejection :=
  let st := readRegistryAdmissionState s now in
  if as_paused st then rj_paused
  else if as_active st then rj_sweep_in_progress
  else match sessionId with
       | Some id => rj_session (describeRegistrySessionFailure id (Some (kind, owner)) s)
       | None => rj_denied
       end.

(** * Writers *)

Inductive WriterRefusal : Type :=
| wr_invalid_session_id | wr_session_required | wr_rejected (why : AdmissionRejection).

(** [/^[A-Za-z0-9._-]{1,64}$/]. *)
Definition SESSION_ID_RE (s : string) : bool := matches_class isSlugChar 1 64 s.

(** A writer for an authenticated owner. The answer is the writer's id and epoch. *)
Definition admitRegistryOperation (kind : OwnerKind) (owner : string) (header : option string)
    (op : OperationKind) (requireSession : option bool) (operationId : string) (now : Z) (s : Admission)
  : Admission * result AdmissionError (result WriterRefusal (string * Z)) :=
  let sessionId := read_opt_string header in
  let required := nullish requireSession
    (bool_decide (as_enforcement (readRegistryAdmissionState s now) = enforce) && operationNeedsSession op) in
  if match sessionId with Some id => negb (SESSION_ID_RE id) | None => false end
  then (s, Ok (Err wr_invalid_session_id))
  else if bool_decide (sessionId = None) && required then (s, Ok (Err wr_session_required))
  else
    let s1 := ensureRegistryAdmissionRow s in
    let s2 := match sessionId with
              | Some id => fst (touchRegistryUploadSession id kind owner now s1)
              | None => s1
              end in
    match ad_gate s2 with
    | None => (s2, Ok (Err (wr_rejected (registryAdmissionRejection sessionId kind owner now s2))))
    | Some g =>
        if gateAdmitsWriter now g
           && match sessionId with
              | None => true
              | Some id => existsb (ownedOpenSession id kind owner now) (ad_sessions s2)
              end
        then match insertWriter (mkWriter operationId sessionId kind owner op (g_epoch g) wo_pending now
                                   (now + REGISTRY_OPERATION_LEASE_MS) None) s2 with
             | Err e => (s, Err e)
             | Ok s3 => (s3, Ok (Ok (operationId, g_epoch g)))
             end
        else (s2, Ok (Err (wr_rejected (registryAdmissionRejection sessionId kind owner now s2))))
    end.

Inductive InternalWriterRefusal : Type :=
| iw_paused | iw_sweep_active | iw_sweep_stalled | iw_gate_closed.
Definition readInternalWriterRefusal (s : Admission) (now : Z) : InternalWriterRefusal :=
  let st := readRegistryAdmissionState s now in
  if as_paused st then iw_paused
  else if as_active st then (if as_stalled st then iw_sweep_stalled else iw_sweep_active)
  else iw_gate_closed.

Definition admitInternalRegistryOperation (owner : string) (op : OperationKind) (operationId : string)
    (now : Z) (s : Admission)
  : Admission * result AdmissionError (result InternalWriterRefusal (string * Z)) :=
  let s1 := ensureRegistryAdmissionRow s in
  match ad_gate s1 with
  | None => (s1, Ok (Err (readInternalWriterRefusal s1 now)))
  | Some g =>
      if gateAdmitsWriter now g
      then match insertWriter (mkWriter operationId None ok_system owner op (g_epoch g) wo_pending now
                                 (now + REGISTRY_INTERNAL_WRITER_LEASE_MS) None) s1 with
           | Err e => (s, Err e)
           | Ok s2 => (s2, Ok (Ok (operationId, g_epoch g)))
           end
      else (s1, Ok (Err (readInternalWriterRefusal s1 now)))
  end.

(** The end of a writer: an inconclusive one stays as a hold, a settled one is
    deleted. [fails] is a database that does not answer, which leaves the row. *)
Definition releaseRegistryOperation (operationId : string) (outcome : WriterOutcome) (fails : bool)
    (now : Z) (s : Admission) : Admission :=
  if fails then s
  else match outcome with
       | wo_unknown =>
           with_writers s
             (update_where (fun w => (ow_id w =s operationId) && bool_decide (ow_releasedAt w = None))
                (fun w => mkWriter (ow_id w) (ow_sessionId w) (ow_ownerKind w) (ow_ownerId w) (ow_operation w)
                            (ow_epoch w) wo_unknown now (ow_expiresAt w) (Some now)) (ad_writers s))
       | _ => with_writers s (delete_where (fun w => ow_id w =s operationId) (ad_writers s))
       end.

(** The guard of a handler that writes in stages. *)
Record WriterGuard : Type := mkGuard {
  wg_operationId : string;
  wg_writeStarted : bool;
  wg_released : bool;
}.
Definition createRegistryWriterGuard (operationId : string) : WriterGuard := mkGuard operationId false false.
Definition markWriteStarted (g : WriterGuard) : WriterGuard :=
  mkGuard (wg_operationId g) true (wg_released g).
Definition guardRelease (outcome : WriterOutcome) (fails : bool) (now : Z) (g : WriterGuard) (s : Admission)
  : WriterGuard * Admission :=
  if wg_released g then (g, s)
  else (mkGuard (wg_operationId g) true true,
        releaseRegistryOperation (wg_operationId g) outcome fails now s).
Definition guardFinish (fails : bool) (now : Z) (g : WriterGuard) (s : Admission) : WriterGuard * Admission :=
  if wg_released g then (g, s)
  else guardRelease (if wg_writeStarted g then wo_unknown else wo_error) fails now g s.

(** * Upload sessions *)

Definition createRegistryUploadSession (kind : OwnerKind) (owner : string) (intent : option string)
    (sessionId : string) (now : Z) (s : Admission)
  : Admission * result AdmissionError (result SessionRefusal (string * Z * Z)) :=
  let s1 := ensureRegistryAdmissionRow s in
  match ad_gate s1 with
  | None => (s1, Ok (Err sr_sweep_in_progress))
  | Some g =>
      if gateAdmits now g
      then if existsb (fun x => us_sessionId x =s sessionId) (ad_sessions s1) then (s, Err duplicate_id)
           else (with_sessions s1 (ad_sessions s1
                   ++ [mkSession sessionId kind owner (read_opt_string intent) (g_epoch g) ss_open now
                         (now + REGISTRY_SESSION_LEASE_MS) None]),
                 Ok (Ok (sessionId, now + REGISTRY_SESSION_LEASE_MS, g_epoch g)))
      else (s1, Ok (Err sr_sweep_in_progress))
  end.

(** A heartbeat. The touch returns only the id, so the epoch of its answer is
    always [numberFrom(undefined)], zero. *)
Definition heartbeatRegistryUploadSession (kind : OwnerKind) (owner sessionId : string) (now : Z)
    (s : Admission) : Admission * result SessionRefusal (Z * Z) :=
  let '(s1, touched) := touchRegistryUploadSession sessionId kind owner now s in
  if touched
  then if as_active (readRegistryAdmissionState s1 now) then (s1, Err sr_sweep_in_progress)
       else (s1, Ok (now + REGISTRY_SESSION_LEASE_MS, 0))
  else (s1, Err (describeRegistrySessionFailure sessionId (Some (kind, owner)) s1)).

Definition closeSession (state : SessionState) (now : Z) (x : UploadSession) : UploadSession :=
  mkSession (us_sessionId x) (us_ownerKind x) (us_ownerId x) (us_intent x) (us_epoch x) state
    (us_heartbeatAt x) (us_expiresAt x) (Some now).
Definition writerSettled (w : OperationWriter) : bool :=
  bool_decide (is_Some (ow_releasedAt w)) && negb (bool_decide (ow_outcome w = wo_unknown)).
Definition closedBefore (cutoff : Z) (x : UploadSession) : bool :=
  negb (sessionOpen x) && match us_closedAt x with Some t => t <=? cutoff | None => false end.

(** Closed sessions past their retention go, with the settled writers they own. *)
Definition compactRegistryAdmissionHistory (retainMs : option Z) (now : Z) (s : Admission) : Admission * (Z * Z) :=
  let cutoff := now - nullish retainMs REGISTRY_CLOSED_SESSION_RETAIN_MS in
  let old sessionId := existsb (fun x => (us_sessionId x =s sessionId) && closedBefore cutoff x) (ad_sessions s) in
  let goneWriter w := writerSettled w && match ow_sessionId w with Some id => old id | None => false end in
  let writers := delete_where goneWriter (ad_writers s) in
  let goneSession x := closedBefore cutoff x
    && negb (existsb (fun w => bool_decide (ow_sessionId w = Some (us_sessionId x))) writers) in
  (with_writers (with_sessions s (delete_where goneSession (ad_sessions s))) writers,
   (count_where goneSession (ad_sessions s), count_where goneWriter (ad_writers s))).

Definition completeRegistryUploadSession (kind : OwnerKind) (owner sessionId : string) (published : bool)
    (now now' : Z) (s : Admission) : Admission * result SessionRefusal (SessionState * Z) :=
  let sessionState := if published then ss_completed else ss_abandoned in
  let hit x := (us_sessionId x =s sessionId) && ownedBy kind owner x && sessionOpen x in
  let closed := existsb hit (ad_sessions s) in
  let s1 := with_sessions s (update_where hit (closeSession sessionState now) (ad_sessions s)) in
  let ended := existsb (fun x => (us_sessionId x =s sessionId) && negb (sessionOpen x)) (ad_sessions s1) in
  let goneWriter w := bool_decide (ow_sessionId w = Some sessionId) && writerSettled w && ended in
  let s2 := with_writers s1 (delete_where goneWriter (ad_writers s1)) in
  let released := count_where goneWriter (ad_writers s1) in
  let s3 := if closed then fst (compactRegistryAdmissionHistory None now' s2) else s2 in
  match findSession sessionId s3 with
  | None => (s3, Err sr_unknown)
  | Some x =>
      if negb (ownedBy kind owner x) then (s3, Err sr_owner_mismatch)
      else (s3, Ok (if closed then sessionState else us_state x, released))
  end.

(** * The operator *)

(** [SELECT id ... WHERE p ORDER BY key LIMIT limit]. *)
Definition selectIds {A} (p : A -> bool) (key : A -> Z) (id : A -> string) (limit : nat) (rows : list A)
  : list string :=
  map id (take limit (js_sort (fun x y => key x <=? key y) (filter (fun x => p x = true) rows))).

Definition abortRun (now : Z) (r : GcRun) : GcRun :=
  mkGcRun (gr_id r) (gr_owner r) (gr_sweepToken r) gc_aborted (gr_heartbeatAt r) (Some now)
    (gr_scannedObjects r) (gr_deletedObjects r) (gr_blockedObjects r) (gr_bytesReclaimed r)
    (Some (nullish (gr_error r) "sweep stalled and was resolved by an operator")).
Definition openGate (keepToken : bool) (g : Gate) : Gate :=
  mkGate (g_enforcement g) (g_epoch g) gate_open (if keepToken then g_sweepToken g else None)
    None None None None (g_pausedAt g) (g_pauseReason g).

(** The stalled sweep an operator resolves: its run is aborted, and the gate opens
    when no run is left running. *)
Definition resolveStalledSweeps (cutoff now : Z) (s : Admission) : Admission * list string :=
  let stale r := runRunning r && (gr_heartbeatAt r <=? cutoff) in
  let s1 := with_runs s (update_where stale (abortRun now) (ad_runs s)) in
  let resolvable g := bool_decide (g_state g = gate_sweeping)
    && match g_sweepHeartbeatAt g with Some t => t <=? cutoff | None => false end
    && negb (existsb runRunning (ad_runs s1)) in
  match ad_gate s1 with
  | None => (s1, [])
  | Some g =>
      let '(g1, resolved) := if resolvable g then (openGate true g, omap id [g_sweepToken g]) else (g, []) in
      (with_gate s1 (Some (if bool_decide (g_state g1 = gate_open) && bool_decide (g_sweepExpiresAt g1 = None)
                           then mkGate (g_enforcement g1) (g_epoch g1) (g_state g1) None (g_sweepOwner g1)
                                  (g_sweepStartedAt g1) (g_sweepHeartbeatAt g1) (g_sweepExpiresAt g1)
                                  (g_pausedAt g1) (g_pauseReason g1)
                           else g1)), resolved)
  end.

Definition reapRegistryAdmission (graceMs : option Z) (limit : option nat) (resolve : bool) (now now' : Z)
    (s : Admission) : Admission * (list string * list string * list string) :=
  let cutoff := now - nullish graceMs REGISTRY_REAP_GRACE_MS in
  let limit := nullish limit REGISTRY_REAP_BATCH_SIZE in
  let sessions := selectIds (fun x => sessionOpen x && (us_expiresAt x <=? cutoff)) us_expiresAt us_sessionId
                    limit (ad_sessions s) in
  let s1 := with_sessions s (update_where (fun x => str_mem (us_sessionId x) sessions)
                               (closeSession ss_reaped now) (ad_sessions s)) in
  let unreleased := selectIds (fun w => bool_decide (ow_releasedAt w = None) && (ow_expiresAt w <=? cutoff))
                      ow_expiresAt ow_id limit (ad_writers s1) in
  let s2 := with_writers s1 (delete_where (fun w => str_mem (ow_id w) unreleased) (ad_writers s1)) in
  let unknown := selectIds (fun w => bool_decide (is_Some (ow_releasedAt w))
                                     && bool_decide (ow_outcome w = wo_unknown))
                   (fun w => nullish (ow_releasedAt w) 0) ow_id limit (ad_writers s2) in
  let s3 := with_writers s2 (delete_where (fun w => str_mem (ow_id w) unknown) (ad_writers s2)) in
  let '(s4, resolved) := if resolve then resolveStalledSweeps cutoff now s3 else (s3, []) in
  (fst (compactRegistryAdmissionHistory None now' s4), (sessions, unreleased ++ unknown, resolved)).

Definition setRegistryEnforcement (mode : EnforcementMode) (s : Admission) : Admission :=
  match ad_gate s with
  | None => with_gate s (Some (mkGate mode 0 gate_open None None None None None None None))
  | Some g => with_gate s (Some (mkGate mode (g_epoch g) (g_state g) (g_sweepToken g) (g_sweepOwner g)
                (g_sweepStartedAt g) (g_sweepHeartbeatAt g) (g_sweepExpiresAt g) (g_pausedAt g) (g_pauseReason g)))
  end.
Definition pauseGate (pausedAt : option Z) (reason : option string) (g : Gate) : Gate :=
  mkGate (g_enforcement g) (g_epoch g) (g_state g) (g_sweepToken g) (g_sweepOwner g) (g_sweepStartedAt g)
    (g_sweepHeartbeatAt g) (g_sweepExpiresAt g) pausedAt reason.
Definition setRegistryPause (paused : bool) (reason : option string) (now : Z) (s : Admission)
  : Admission * (bool * option string) :=
  if paused then
    let why := Some (nullish (read_opt_string reason) "operator_pause") in
    (with_gate s (Some (pauseGate (Some now) why
       (nullish (ad_gate s) (mkGate report_only 0 gate_open None None None None None None None)))),
     (true, why))
  else (with_gate s (option_map (pauseGate None None) (ad_gate s)), (false, None)).

Record IdleState : Type := mkIdle {
  id_idle : bool;
  id_paused : bool;
  id_sweepActive : bool;
  id_sweepStalled : bool;
  id_openSessions : Z;
  id_pendingWriters : Z;
  id_unresolvedGcRuns : Z;
  id_blockedReason : option string;
}.
Definition readRegistryIdleState (s : Admission) (now : Z) : IdleState :=
  let st := readRegistryAdmissionState s now in
  let unresolved := count_where runRunning (ad_runs s) in
  let blocked :=
    if as_active st then Some (if as_stalled st then "registry_sweep_stalled" else "registry_sweep_active")
    else match registryAdmissionBlockedReason (as_counts st) with
         | Some r => Some r
         | None => if 0 <? unresolved then Some "registry_gc_run_unresolved" else None
         end in
  mkIdle (negb (as_paused st) && bool_decide (blocked = None)) (as_paused st) (as_active st) (as_stalled st)
    (ac_openSessions (as_counts st)) (ac_pendingWriters (as_counts st)) unresolved blocked.

(** * The sweep *)

Inductive SweepRefusal : Type := sw_sweep_active | sw_admission_busy.
Record SweepLease : Type := mkLease {
  sl_sweepToken : string;
  sl_epoch : Z;
  sl_expiresAtMs : Z;
  sl_blockedReason : option string;
}.
Definition sl_deleteAllowed (l : SweepLease) : bool := bool_decide (sl_blockedReason l = None).

(** The gate when the sweep takes it. *)
Definition takeGate (token owner : string) (expiresAt now : Z) (g : Gate) : Gate :=
  mkGate (g_enforcement g) (g_epoch g + 1) gate_sweeping (Some token) (Some owner) (Some now) (Some now)
    (Some expiresAt) (g_pausedAt g) (g_pauseReason g).
Definition registryFree (s : Admission) : bool :=
  negb (existsb writerPending (ad_writers s)) && negb (existsb sessionOpen (ad_sessions s))
  && negb (existsb runRunning (ad_runs s)).
Definition insertGcRun (r : GcRun) (s : Admission) : result AdmissionError Admission :=
  if existsb (fun x => (gr_id x =s gr_id r) || (gr_sweepToken x =s gr_sweepToken r)) (ad_runs s)
  then Err duplicate_id
  else Ok (with_runs s (ad_runs s ++ [r])).
(** [later] is what other requests do between the batch and the fresh read, whose
    clock is [now']. *)
Definition acquireRegistrySweep (owner : string) (leaseMs : option Z) (sweepToken runId : string)
    (now now' : Z) (later : Admission -> Admission) (s : Admission)
  : Admission * result AdmissionError (result SweepRefusal SweepLease) :=
  let expiresAtMs := now + nullish leaseMs REGISTRY_SWEEP_LEASE_MS in
  let s1 := ensureRegistryAdmissionRow s in
  let refused st := Ok (Err (if as_active st then sw_sweep_active else sw_admission_busy)) in
  match ad_gate s1 with
  | None => (later s1, refused (readRegistryAdmissionState (later s1) now'))
  | Some g =>
      let taken := registryFree s1 && bool_decide (g_state g = gate_open) && bool_decide (g_pausedAt g = None) in
      let s2 := if taken then with_gate s1 (Some (takeGate sweepToken owner expiresAtMs now g)) else s1 in
      let holding := match ad_gate s2 with
                     | Some g2 => bool_decide (g_state g2 = gate_sweeping)
                                  && bool_decide (g_sweepToken g2 = Some sweepToken)
                     | None => false
                     end in
      match (if holding
             then insertGcRun (mkGcRun runId owner sweepToken gc_running now None 0 0 0 0 None) s2
             else Ok s2) with
      | Err e => (s, Err e)
      | Ok s3 =>
          let s4 := later s3 in
          let st := readRegistryAdmissionState s4 now' in
          if taken
          then (s4, Ok (Ok (mkLease sweepToken (g_epoch g + 1) expiresAtMs (sweepBlockedReason st))))
          else (s4, refused st)
      end
  end.

(** The gate of every delete batch: the reason the whole batch is blocked, or
    none. *)
Definition assertRegistrySweepDeletable (sweepToken : string) (now : Z) (s : Admission) : option string :=
  let st := readRegistryAdmissionState s now in
  if negb (as_active st) || negb (bool_decide (as_token st = Some sweepToken)) then Some "registry_sweep_superseded"
  else if as_stalled st then Some "registry_sweep_stalled"
  else if as_paused st then Some "registry_paused"
  else sweepBlockedReason st.

Definition heldBy (sweepToken : string) (g : Gate) : bool :=
  bool_decide (g_state g = gate_sweeping) && bool_decide (g_sweepToken g = Some sweepToken).
Definition beatGate (now expiresAt : Z) (g : Gate) : Gate :=
  mkGate (g_enforcement g) (g_epoch g) (g_state g) (g_sweepToken g) (g_sweepOwner g) (g_sweepStartedAt g)
    (Some now) (Some expiresAt) (g_pausedAt g) (g_pauseReason g).
Definition beatRun (now : Z) (r : GcRun) : GcRun :=
  mkGcRun (gr_id r) (gr_owner r) (gr_sweepToken r) (gr_state r) now (gr_finishedAt r) (gr_scannedObjects r)
    (gr_deletedObjects r) (gr_blockedObjects r) (gr_bytesReclaimed r) (gr_error r).
Definition ownRun (sweepToken : string) (r : GcRun) : bool := (gr_sweepToken r =s sweepToken) && runRunning r.

Definition heartbeatRegistrySweep (sweepToken : string) (leaseMs : option Z) (now now' : Z)
    (later : Admission -> Admission) (s : Admission) : Admission * option (Z * option string) :=
  let expiresAtMs := now + nullish leaseMs REGISTRY_SWEEP_LEASE_MS in
  let current := match ad_gate s with Some g => heldBy sweepToken g | None => false end in
  let gate := if current then option_map (beatGate now expiresAtMs) (ad_gate s) else ad_gate s in
  let s1 := with_runs (with_gate s gate) (update_where (ownRun sweepToken) (beatRun now) (ad_runs s)) in
  if current
  then let s2 := later s1 in (s2, Some (expiresAtMs, sweepBlockedReason (readRegistryAdmissionState s2 now')))
  else (s1, None).

Record SweepCounters : Type := mkCounters {
  ct_scannedObjects : Z;
  ct_deletedObjects : Z;
  ct_blockedObjects : Z;
  ct_bytesReclaimed : Z;
}.
Definition counterValue (v : Z) : Z := if safe_integer v && (0 <? v) then v else 0.
Definition countRun (now : Z) (c : option SweepCounters) (r : GcRun) : GcRun :=
  let c := nullish c (mkCounters 0 0 0 0) in
  mkGcRun (gr_id r) (gr_owner r) (gr_sweepToken r) (gr_state r) now (gr_finishedAt r)
    (Z.max (gr_scannedObjects r) (counterValue (ct_scannedObjects c)))
    (Z.max (gr_deletedObjects r) (counterValue (ct_deletedObjects c)))
    (Z.max (gr_blockedObjects r) (counterValue (ct_blockedObjects c)))
    (Z.max (gr_bytesReclaimed r) (counterValue (ct_bytesReclaimed c))) (gr_error r).
Definition recordRegistryGcProgress (sweepToken : string) (counters : option SweepCounters) (now : Z)
    (s : Admission) : Admission * bool :=
  (with_runs s (update_where (ownRun sweepToken) (countRun now counters) (ad_runs s)),
   existsb (ownRun sweepToken) (ad_runs s)).

Definition finishRun (completed : bool) (error : option string) (now : Z) (counters : option SweepCounters)
    (r : GcRun) : GcRun :=
  let r' := countRun now counters r in
  mkGcRun (gr_id r') (gr_owner r') (gr_sweepToken r') (if completed then gc_completed else gc_failed) now
    (Some now) (gr_scannedObjects r') (gr_deletedObjects r') (gr_blockedObjects r') (gr_bytesReclaimed r')
    (match error with Some e => Some e | None => gr_error r' end).
Definition finishRegistrySweep (sweepToken : string) (completed : bool) (error : option string)
    (counters : option SweepCounters) (now : Z) (s : Admission) : Admission * bool :=
  let current := match ad_gate s with Some g => heldBy sweepToken g | None => false end in
  (with_runs (with_gate s (if current then option_map (openGate false) (ad_gate s) else ad_gate s))
     (update_where (ownRun sweepToken) (finishRun completed error now counters) (ad_runs s)), current).
