(* ===== verification/RegistryExclusion.v ===== *)
(** What admission to the image registry guarantees: a sweep and the writers
    exclude each other, whatever requests arrive in whatever order. *)
From stdpp Require Import base list strings sorting relations.
From Stdlib Require Import ZArith Lia.
From S2P Require Import Prelude Json Text RunState Bridge Store RegistryAdmission.

Open Scope string_scope.
Open Scope list_scope.
Open Scope Z_scope.

(** * Requests *)

(** One request of the registry's admission, with the ids and the clock readings
    it draws. *)
Inductive AdmissionRequest : Type :=
| rq_admit (kind : OwnerKind) (owner : string) (header : option string) (op : OperationKind)
    (requireSession : option bool) (operationId : string) (now : Z)
| rq_admit_internal (owner : string) (op : OperationKind) (operationId : string) (now : Z)
| rq_release (operationId : string) (outcome : WriterOutcome) (fails : bool) (now : Z)
| rq_create_session (kind : OwnerKind) (owner : string) (intent : option string) (sessionId : string) (now : Z)
| rq_heartbeat_session (kind : OwnerKind) (owner sessionId : string) (now : Z)
| rq_complete_session (kind : OwnerKind) (owner sessionId : string) (published : bool) (now now' : Z)
| rq_compact (retainMs : option Z) (now : Z)
| rq_reap (graceMs : option Z) (limit : option nat) (resolve : bool) (now now' : Z)
| rq_enforcement (mode : EnforcementMode)
| rq_pause (paused : bool) (reason : option string) (now : Z)
| rq_acquire (owner : string) (leaseMs : option Z) (sweepToken runId : string) (now now' : Z)
| rq_heartbeat_sweep (sweepToken : string) (leaseMs : option Z) (now now' : Z)
| rq_progress (sweepToken : string) (counters : option SweepCounters) (now : Z)
| rq_finish (sweepToken : string) (completed : bool) (error : option string)
    (counters : option SweepCounters) (now : Z).

Definition serve (rq : AdmissionRequest) (s : Admission) : Admission :=
  match rq with
  | rq_admit kind owner header op req id now => fst (admitRegistryOperation kind owner header op req id now s)
  | rq_admit_internal owner op id now => fst (admitInternalRegistryOperation owner op id now s)
  | rq_release id outcome fails now => releaseRegistryOperation id outcome fails now s
  | rq_create_session kind owner intent id now => fst (createRegistryUploadSession kind owner intent id now s)
  | rq_heartbeat_session kind owner id now => fst (heartbeatRegistryUploadSession kind owner id now s)
  | rq_complete_session kind owner id published now now' =>
      fst (completeRegistryUploadSession kind owner id published now now' s)
  | rq_compact retainMs now => fst (compactRegistryAdmissionHistory retainMs now s)
  | rq_reap graceMs limit resolve now now' => fst (reapRegistryAdmission graceMs limit resolve now now' s)
  | rq_enforcement mode => setRegistryEnforcement mode s
  | rq_pause paused reason now => fst (setRegistryPause paused reason now s)
  | rq_acquire owner leaseMs token runId now now' =>
      fst (acquireRegistrySweep owner leaseMs token runId now now' id s)
  | rq_heartbeat_sweep token leaseMs now now' => fst (heartbeatRegistrySweep token leaseMs now now' id s)
  | rq_progress token counters now => fst (recordRegistryGcProgress token counters now s)
  | rq_finish token completed error counters now => fst (finishRegistrySweep token completed error counters now s)
  end.
Definition serveAll (rqs : list AdmissionRequest) (s : Admission) : Admission :=
  fold_left (fun s rq => serve rq s) rqs s.

(** The tables as the migration creates them. *)
Definition emptyAdmission : Admission := mkAdmission None [] [] [].

(** * The invariant *)

(** Nothing holds the registry: no upload session is open and no writer is
    unresolved. *)
Definition noHolds (s : Admission) : Prop :=
  existsb sessionOpen (ad_sessions s) = false /\ existsb writerPending (ad_writers s) = false.
Definition sweeping (s : Admission) : Prop :=
  exists g, ad_gate s = Some g /\ g_state g = gate_sweeping.

Record admission_inv (s : Admission) : Prop := mk_admission_inv {
  ai_exclusive : sweeping s -> noHolds s;
  ai_token : forall g, ad_gate s = Some g -> g_state g = gate_sweeping -> is_Some (g_sweepToken g);
  ai_running : forall r, In r (ad_runs s) -> gr_state r = gc_running ->
    exists g, ad_gate s = Some g /\ heldBy (gr_sweepToken r) g = true;
  ai_tokens : NoDup (map gr_sweepToken (ad_runs s));
}.

Lemma heldBy_spec t g : heldBy t g = true <-> g_state g = gate_sweeping /\ g_sweepToken g = Some t.
Proof. unfold heldBy. by rewrite andb_true_iff, !bool_decide_eq_true. Qed.

(** * Lemmas: rows *)

Lemma existsb_update_same {A} (p hit : A -> bool) f l :
  (forall x, p (f x) = p x) -> existsb p (update_where hit f l) = existsb p l.
Proof.
  intros Hf. unfold update_where. induction l as [|x l IH]; [done|]. cbn [map existsb]. rewrite IH.
  by destruct (hit x); rewrite ?Hf.
Qed.

Lemma existsb_update_false {A} (p hit : A -> bool) f l :
  (forall x, p (f x) = true -> p x = true) -> existsb p l = false -> existsb p (update_where hit f l) = false.
Proof.
  intros Hf. unfold update_where. induction l as [|x l IH]; [done|]. cbn [map existsb].
  intros [Hx Hl]%orb_false_iff. apply orb_false_iff. split; [|by apply IH].
  destruct (hit x); [|done]. apply not_true_iff_false. intros H%Hf. congruence.
Qed.

Lemma existsb_delete_false {A} (p q : A -> bool) l :
  existsb p l = false -> existsb p (delete_where q l) = false.
Proof.
  unfold delete_where. induction l as [|x l IH]; [done|]. cbn. intros [Hx Hl]%orb_false_iff.
  destruct (negb (q x)); cbn; [rewrite Hx|]; auto.
Qed.

Lemma update_map_same {A B} (g : A -> B) hit f (l : list A) :
  (forall x, g (f x) = g x) -> map g (update_where hit f l) = map g l.
Proof.
  intros Hf. unfold update_where. rewrite map_map. apply map_ext. intros x. by destruct (hit x).
Qed.

Lemma update_In {A} hit f (l : list A) y :
  In y (update_where hit f l) -> exists x, In x l /\ (y = x /\ hit x = false \/ y = f x /\ hit x = true).
Proof.
  unfold update_where. intros (x & <- & Hx)%in_map_iff. exists x. split; [done|]. destruct (hit x); auto.
Qed.

(** A step that leaves the gate and the runs and adds no hold. *)
Lemma inv_keeps s s' :
  ad_gate s' = ad_gate s -> ad_runs s' = ad_runs s -> (noHolds s -> noHolds s') ->
  admission_inv s -> admission_inv s'.
Proof.
  intros Eg Er Hh [H1 H2 H3 H4]. constructor; unfold sweeping in *; rewrite ?Eg, ?Er; auto.
Qed.

(** A step under an open gate, which leaves the gate and the runs. *)
Lemma inv_open s s' g :
  ad_gate s = Some g -> g_state g = gate_open -> ad_gate s' = ad_gate s -> ad_runs s' = ad_runs s ->
  admission_inv s -> admission_inv s'.
Proof.
  intros Hg Ho Eg Er [H1 H2 H3 H4]. constructor; rewrite ?Er; auto.
  - intros (g' & Hg' & Hs). rewrite Eg, Hg in Hg'. injection Hg' as <-. congruence.
  - intros g'. rewrite Eg. apply H2.
  - setoid_rewrite Eg. apply H3.
Qed.

(** A new gate in the place of another, with the same state and token. *)
Lemma inv_regate s g g' :
  ad_gate s = Some g -> g_state g' = g_state g -> g_sweepToken g' = g_sweepToken g ->
  admission_inv s -> admission_inv (with_gate s (Some g')).
Proof.
  intros Hg Es Et [H1 H2 H3 H4]. constructor; cbn [ad_gate ad_runs with_gate]; auto.
  - intros (x & [= <-] & Hs). apply H1. exists g. split; [done|congruence].
  - intros x [= <-]. rewrite Es, Et. by apply H2.
  - intros r Hr Hrun. destruct (H3 r Hr Hrun) as (x & Hx & Hheld). rewrite Hg in Hx. injection Hx as <-.
    exists g'. split; [done|]. apply heldBy_spec in Hheld. apply heldBy_spec. by rewrite Es, Et.
Qed.

(** The gate's row, created open. *)
Lemma inv_new_gate s g :
  ad_gate s = None -> g_state g = gate_open -> admission_inv s -> admission_inv (with_gate s (Some g)).
Proof.
  intros E Ho [H1 H2 H3 H4]. constructor; cbn [ad_gate ad_runs with_gate].
  - intros (x & [= <-] & Hs). congruence.
  - intros x [= <-]. congruence.
  - intros r Hr Hrun. destruct (H3 r Hr Hrun) as (x & Hx & _). congruence.
  - done.
Qed.

Lemma ensure_inv s : admission_inv s -> admission_inv (ensureRegistryAdmissionRow s).
Proof.
  unfold ensureRegistryAdmissionRow. destruct (ad_gate s) as [g|] eqn:E; [done|]. by apply inv_new_gate.
Qed.

Lemma ensure_gate s : exists g, ad_gate (ensureRegistryAdmissionRow s) = Some g.
Proof. unfold ensureRegistryAdmissionRow. destruct (ad_gate s) as [g|] eqn:E; [by exists g|]. by eexists. Qed.

Lemma touch_sessions_open sessionId kind owner now s :
  existsb sessionOpen (ad_sessions (fst (touchRegistryUploadSession sessionId kind owner now s)))
  = existsb sessionOpen (ad_sessions s).
Proof. apply existsb_update_same. done. Qed.

Lemma gateAdmits_open now g : gateAdmits now g = true -> g_state g = gate_open.
Proof. unfold gateAdmits. intros [H _]%andb_true_iff. by apply bool_decide_eq_true in H. Qed.
Lemma gateAdmitsWriter_open now g : gateAdmitsWriter now g = true -> g_state g = gate_open.
Proof. unfold gateAdmitsWriter. intros [H _]%andb_true_iff. by eapply gateAdmits_open. Qed.

Lemma insertWriter_Ok w s s' :
  insertWriter w s = Ok s' -> ad_gate s' = ad_gate s /\ ad_runs s' = ad_runs s.
Proof. unfold insertWriter. destruct (existsb _ _); [done|]. by intros [= <-]. Qed.

(** * Every request keeps the invariant *)

Lemma admit_inv kind owner header op req id now s :
  admission_inv s -> admission_inv (fst (admitRegistryOperation kind owner header op req id now s)).
Proof.
  intros Hi. unfold admitRegistryOperation.
  assert (H2 : forall g s2, admission_inv s2 -> ad_gate s2 = Some g -> gateAdmitsWriter now g = true ->
    forall w s3, insertWriter w s2 = Ok s3 -> admission_inv s3).
  { intros g s2 H2 Eg Ea w s3 [E1 E2]%insertWriter_Ok. eapply inv_open; eauto using gateAdmitsWriter_open. }
  apply ensure_inv in Hi as H1.
  destruct (read_opt_string header) as [sid|]; cbv beta iota zeta.
  - destruct (negb (SESSION_ID_RE sid)); [done|]. rewrite bool_decide_eq_false_2 by done. cbn [andb].
    set (s2 := fst (touchRegistryUploadSession _ _ _ _ _)).
    assert (Hs2 : admission_inv s2).
    { apply (inv_keeps (ensureRegistryAdmissionRow s)); [done|done| |done]. unfold noHolds, s2. by rewrite touch_sessions_open. }
    destruct (ad_gate s2) as [g|] eqn:Eg; [|done].
    destruct (gateAdmitsWriter now g) eqn:Ea; cbn [andb]; [|done]. destruct (existsb _ _); [|done].
    destruct (insertWriter _ s2) as [s3|e] eqn:Ew; cbn [fst]; eauto.
  - destruct (_ && _); [done|].
    destruct (ad_gate (ensureRegistryAdmissionRow s)) as [g|] eqn:Eg; [|done].
    destruct (gateAdmitsWriter now g) eqn:Ea; cbn [andb]; [|done].
    destruct (insertWriter _ _) as [s3|e] eqn:Ew; cbn [fst]; eauto.
Qed.

Lemma admit_internal_inv owner op id now s :
  admission_inv s -> admission_inv (fst (admitInternalRegistryOperation owner op id now s)).
Proof.
  intros Hi. unfold admitInternalRegistryOperation. apply ensure_inv in Hi as Hi1.
  destruct (ad_gate (ensureRegistryAdmissionRow s)) as [g|] eqn:Eg; [|done].
  destruct (gateAdmitsWriter now g) eqn:Ea; [|done].
  destruct (insertWriter _ _) as [s2|e] eqn:Ew; [|done]. cbn [fst].
  apply insertWriter_Ok in Ew as [E1 E2]. eapply inv_open; eauto using gateAdmitsWriter_open.
Qed.

Lemma create_session_inv kind owner intent id now s :
  admission_inv s -> admission_inv (fst (createRegistryUploadSession kind owner intent id now s)).
Proof.
  intros Hi. unfold createRegistryUploadSession. apply ensure_inv in Hi as Hi1.
  destruct (ad_gate (ensureRegistryAdmissionRow s)) as [g|] eqn:Eg; [|done].
  destruct (gateAdmits now g) eqn:Ea; [|done]. destruct (existsb _ _); [done|]. cbn [fst].
  eapply inv_open; eauto using gateAdmits_open.
Qed.

Lemma release_inv id outcome fails now s :
  admission_inv s -> admission_inv (releaseRegistryOperation id outcome fails now s).
Proof.
  intros Hi. unfold releaseRegistryOperation. destruct fails; [done|].
  destruct outcome; (apply (inv_keeps s); [done|done| |done]); unfold noHolds; cbn [ad_sessions ad_writers with_writers];
    intros [H1 H2]; (split; [done|]); try by apply existsb_delete_false.
  unfold update_where. clear - H2. induction (ad_writers s) as [|w l IH]; [done|]. cbn [map existsb] in *.
  apply orb_false_iff in H2 as [Hw Hl]. rewrite IH, orb_false_r by done.
  destruct (_ && _) eqn:E; [|done]. apply andb_true_iff in E as [_ E].
  unfold writerPending in Hw. by rewrite E in Hw.
Qed.

Lemma compact_inv retainMs now s :
  admission_inv s -> admission_inv (fst (compactRegistryAdmissionHistory retainMs now s)).
Proof.
  intros Hi. apply (inv_keeps s); [done|done| |done]. unfold noHolds, compactRegistryAdmissionHistory.
  cbn [fst ad_sessions ad_writers with_writers with_sessions].
  intros [H1 H2]. split; by apply existsb_delete_false.
Qed.

Lemma closeSession_closes state now x : state <> ss_open -> sessionOpen (closeSession state now x) = false.
Proof. intros H. unfold sessionOpen, closeSession. cbn. by apply bool_decide_eq_false. Qed.

Lemma complete_inv kind owner id published now now' s :
  admission_inv s -> admission_inv (fst (completeRegistryUploadSession kind owner id published now now' s)).
Proof.
  intros Hi. unfold completeRegistryUploadSession.
  set (state := if published then ss_completed else ss_abandoned).
  assert (Hs : state <> ss_open) by (by destruct published).
  match goal with |- admission_inv (fst (match findSession _ ?x with _ => _ end)) => set (s3 := x) end.
  assert (H3 : admission_inv s3); [|by repeat case_match].
  match goal with s3 := if ?c then fst (compactRegistryAdmissionHistory _ _ ?x) else _ |- _ => set (s2 := x) in * end.
  assert (H2 : admission_inv s2).
  { apply (inv_keeps s); [done|done| |done]. unfold noHolds, s2. cbn [ad_sessions ad_writers with_writers with_sessions].
    intros [H1 H2]. split; [|by apply existsb_delete_false].
    apply existsb_update_false; [|done]. intros x. by rewrite closeSession_closes. }
  unfold s3. clearbody s2. case_match; [by apply compact_inv|done].
Qed.

(** Runs that are rewritten but keep their token, and start no run. *)
Lemma inv_reruns s hit f :
  (forall r, gr_sweepToken (f r) = gr_sweepToken r) ->
  (forall r, hit r = true -> gr_state (f r) = gc_running -> gr_state r = gc_running) ->
  admission_inv s -> admission_inv (with_runs s (update_where hit f (ad_runs s))).
Proof.
  intros Ht Hs [H1 H2 H3 H4]. constructor; cbn [ad_gate ad_runs with_runs]; auto.
  - intros r (x & Hx & [[-> _]|[-> Hh]])%update_In Hr; [by apply H3|]. rewrite Ht. apply H3; auto.
  - by rewrite update_map_same.
Qed.

(** Opening the gate once no run of its sweep is left running. *)
Lemma inv_opens s g g' :
  ad_gate s = Some g -> g_state g' = gate_open ->
  existsb runRunning (ad_runs s) = false -> admission_inv s -> admission_inv (with_gate s (Some g')).
Proof.
  intros Hg Ho Hr [H1 H2 H3 H4]. constructor; cbn [ad_gate ad_runs with_gate]; auto.
  - intros (x & [= <-] & Hs). congruence.
  - intros x [= <-] Hs. congruence.
  - intros r Hin Hrun. exfalso. assert (Hex : existsb runRunning (ad_runs s) = true); [|congruence].
    apply existsb_exists. exists r. split; [done|]. by apply bool_decide_eq_true.
Qed.

Lemma resolve_inv cutoff now s : admission_inv s -> admission_inv (fst (resolveStalledSweeps cutoff now s)).
Proof.
  intros Hi. unfold resolveStalledSweeps.
  set (s1 := with_runs s _). assert (H1 : admission_inv s1).
  { apply inv_reruns; [done| |done]. intros r _ Hr. done. }
  clearbody s1. clear Hi s. cbv zeta. destruct (ad_gate s1) as [g|] eqn:Eg; [|done].
  destruct (bool_decide (g_state g = gate_sweeping) && _ && _) eqn:Er; cbn [fst snd].
  - apply andb_true_iff in Er as [_ Er]. apply negb_true_iff in Er.
    case_match; by eapply inv_opens.
  - destruct (bool_decide (g_state g = gate_open) && _) eqn:Eo.
    + apply andb_true_iff in Eo as [Eo _]. apply bool_decide_eq_true in Eo.
      eapply inv_opens; [done|done| |done]. apply not_true_iff_false. intros Hex.
      apply existsb_exists in Hex as (r & Hr & Hrun). apply bool_decide_eq_true in Hrun.
      destruct (ai_running _ H1 r Hr Hrun) as (g' & Hg' & Hheld). apply heldBy_spec in Hheld as [? _].
      rewrite Eg in Hg'. injection Hg' as <-. congruence.
    + by eapply inv_regate.
Qed.

Lemma reap_inv graceMs limit resolve now now' s :
  admission_inv s -> admission_inv (fst (reapRegistryAdmission graceMs limit resolve now now' s)).
Proof.
  intros Hi. unfold reapRegistryAdmission. cbv zeta.
  match goal with |- admission_inv (fst (let '(_, _) := if _ then resolveStalledSweeps _ _ ?x else _ in _)) =>
    set (s3 := x) end.
  assert (H3 : admission_inv s3).
  { apply (inv_keeps s); [done|done| |done]. unfold noHolds, s3.
    cbn [ad_sessions ad_writers with_writers with_sessions]. intros [H1 H2]. split.
    - apply existsb_update_false; [|done]. intros x. by rewrite closeSession_closes.
    - by do 2 apply existsb_delete_false. }
  clearbody s3. destruct resolve.
  - pose proof (resolve_inv (now - nullish graceMs REGISTRY_REAP_GRACE_MS) now s3 H3) as H4.
    destruct (resolveStalledSweeps _ _ s3) as [s4 resolved]. cbn [fst] in *. by apply compact_inv.
  - by apply compact_inv.
Qed.

Lemma enforcement_inv mode s : admission_inv s -> admission_inv (setRegistryEnforcement mode s).
Proof.
  intros Hi. unfold setRegistryEnforcement. destruct (ad_gate s) as [g|] eqn:Eg; [by eapply inv_regate|].
  by apply inv_new_gate.
Qed.

Lemma pause_inv paused reason now s : admission_inv s -> admission_inv (fst (setRegistryPause paused reason now s)).
Proof.
  intros Hi. unfold setRegistryPause. destruct paused; cbn [fst]; destruct (ad_gate s) as [g|] eqn:Eg; cbn [option_map].
  - by eapply inv_regate.
  - by apply inv_new_gate.
  - by eapply inv_regate.
  - by apply (inv_keeps s).
Qed.

Lemma registryFree_spec s :
  registryFree s = true <-> noHolds s /\ existsb runRunning (ad_runs s) = false.
Proof. unfold registryFree, noHolds. rewrite !andb_true_iff, !negb_true_iff. tauto. Qed.

Lemma insertRun_Ok r s s' :
  insertGcRun r s = Ok s' -> s' = with_runs s (ad_runs s ++ [r]) /\ ~ In (gr_sweepToken r) (map gr_sweepToken (ad_runs s)).
Proof.
  unfold insertGcRun. destruct (existsb _ _) eqn:E; [done|]. intros [= <-]. split; [done|].
  intros (x & Ex & Hx)%in_map_iff. apply not_true_iff_false in E. apply E, existsb_exists. exists x.
  split; [done|]. apply orb_true_iff. right. by apply String.eqb_eq.
Qed.

(** What an acquisition does, when nothing else happens meanwhile. *)
Lemma acquire_spec owner leaseMs token runId now now' s s' res :
  acquireRegistrySweep owner leaseMs token runId now now' id s = (s', res) ->
  exists g, ad_gate (ensureRegistryAdmissionRow s) = Some g /\
  match res with
  | Ok (Ok lease) =>
      registryFree (ensureRegistryAdmissionRow s) = true /\ g_state g = gate_open /\ g_pausedAt g = None /\
      ~ In token (map gr_sweepToken (ad_runs s)) /\
      s' = mkAdmission (Some (takeGate token owner (now + nullish leaseMs REGISTRY_SWEEP_LEASE_MS) now g))
             (ad_sessions s) (ad_writers s)
             (ad_runs s ++ [mkGcRun runId owner token gc_running now None 0 0 0 0 None])
  | Ok (Err _) =>
      (registryFree (ensureRegistryAdmissionRow s) = false \/ g_state g <> gate_open \/ g_pausedAt g <> None) /\
      (s' = ensureRegistryAdmissionRow s \/
       heldBy token g = true /\ ~ In token (map gr_sweepToken (ad_runs s)) /\
       s' = with_runs (ensureRegistryAdmissionRow s)
              (ad_runs s ++ [mkGcRun runId owner token gc_running now None 0 0 0 0 None]))
  | Err _ => s' = s
  end.
Proof.
  unfold acquireRegistrySweep. cbv zeta. intros Hacq. destruct (ensure_gate s) as [g Eg]. exists g. split; [done|].
  assert (Eruns : ad_runs (ensureRegistryAdmissionRow s) = ad_runs s /\
    ad_sessions (ensureRegistryAdmissionRow s) = ad_sessions s /\
    ad_writers (ensureRegistryAdmissionRow s) = ad_writers s).
  { unfold ensureRegistryAdmissionRow. by destruct (ad_gate s). }
  destruct Eruns as (Er & Es & Ew). rewrite Eg in *.
  set (s1 := ensureRegistryAdmissionRow s) in *. clearbody s1. revert Hacq.
  destruct (registryFree s1 && bool_decide (g_state g = gate_open) && bool_decide (g_pausedAt g = None)) eqn:Et.
  - apply andb_true_iff in Et as [Et Ep]. apply andb_true_iff in Et as [Ef Eo].
    apply bool_decide_eq_true in Eo, Ep.
    cbv beta iota. cbn [ad_gate with_gate takeGate g_state g_sweepToken].
    rewrite !bool_decide_eq_true_2 by done. cbn [andb].
    destruct (insertGcRun _ _) as [s3|e] eqn:Ei; intros [= <- <-]; [|done].
    apply insertRun_Ok in Ei as [-> Hni]. cbn [gr_sweepToken ad_runs with_gate] in Hni.
    rewrite Er in Hni. unfold id, with_runs, with_gate. cbn [ad_gate ad_sessions ad_writers ad_runs].
    by rewrite Er, Es, Ew.
  - assert (Hno : registryFree s1 = false \/ g_state g <> gate_open \/ g_pausedAt g <> None).
    { apply andb_false_iff in Et as [Et|Et]; [apply andb_false_iff in Et as [Et|Et]|]; auto;
        apply bool_decide_eq_false in Et; auto. }
    rewrite Eg. fold (heldBy token g). destruct (heldBy token g) eqn:Eh.
    + destruct (insertGcRun _ s1) as [s3|e] eqn:Ei; intros [= <- <-]; [|done].
      apply insertRun_Ok in Ei as [-> Hni]. cbn [gr_sweepToken] in Hni. unfold id. rewrite Er in Hni |- *. auto.
    + intros [= <- <-]. unfold id. auto.
Qed.

Lemma inv_add_run s r g :
  ad_gate s = Some g -> heldBy (gr_sweepToken r) g = true -> ~ In (gr_sweepToken r) (map gr_sweepToken (ad_runs s)) ->
  admission_inv s -> admission_inv (with_runs s (ad_runs s ++ [r])).
Proof.
  intros Hg Hh Hni [H1 H2 H3 H4]. constructor; cbn [ad_gate ad_runs with_runs]; auto.
  - intros x [Hx|[<-|[]]]%in_app_iff Hrun; [by apply H3|]. by exists g.
  - rewrite map_app. apply NoDup_app. split_and!; [done| |apply NoDup_singleton].
    intros x Hx Hx'. cbn in Hx'. apply list_elem_of_singleton in Hx' as ->. by apply list_elem_of_In in Hx.
Qed.

Lemma acquire_inv owner leaseMs token runId now now' s :
  admission_inv s -> admission_inv (fst (acquireRegistrySweep owner leaseMs token runId now now' id s)).
Proof.
  intros Hi. destruct (acquireRegistrySweep _ _ _ _ _ _ _ _) as [s' res] eqn:E. cbn [fst].
  apply acquire_spec in E as (g & Eg & Hres). pose proof (ensure_inv s Hi) as H1.
  destruct res as [[lease|why]|e]; [| |by subst].
  - destruct Hres as (Hf & Ho & _ & Hni & ->). apply registryFree_spec in Hf as [[Hn1 Hn2] Hr].
    unfold ensureRegistryAdmissionRow in Hn1, Hn2, Hr.
    assert (Hn : existsb sessionOpen (ad_sessions s) = false /\ existsb writerPending (ad_writers s) = false)
      by (by destruct (ad_gate s)).
    destruct Hi as [_ _ H3 H4]. constructor; cbn [ad_gate ad_runs ad_sessions ad_writers].
    + done.
    + intros x [= <-] _. by eexists.
    + intros r [Hr'|[<-|[]]]%in_app_iff Hrun.
      * exfalso. destruct (H3 r Hr' Hrun) as (x & Hx & Hheld%heldBy_spec).
        unfold ensureRegistryAdmissionRow in Eg. rewrite Hx in Eg. rewrite Hx in Eg. injection Eg as ->.
        destruct Hheld. congruence.
      * eexists. split; [done|]. by apply heldBy_spec.
    + rewrite map_app. apply NoDup_app. split_and!; [done| |apply NoDup_singleton].
      intros x Hx Hx'. cbn in Hx'. apply list_elem_of_singleton in Hx' as ->. by apply list_elem_of_In in Hx.
  - destruct Hres as [_ [->|(Hh & Hni & ->)]]; [done|].
    assert (Er : ad_runs s = ad_runs (ensureRegistryAdmissionRow s)).
    { unfold ensureRegistryAdmissionRow. by destruct (ad_gate s). }
    rewrite Er in *. by apply (inv_add_run _ _ g).
Qed.

Lemma heartbeat_inv token leaseMs now now' s :
  admission_inv s -> admission_inv (fst (heartbeatRegistrySweep token leaseMs now now' id s)).
Proof.
  intros Hi. unfold heartbeatRegistrySweep. cbv zeta.
  match goal with |- admission_inv (fst (if _ then (id ?x, _) else _)) => set (s1 := x) end.
  assert (H1 : admission_inv s1); [|by case_match].
  apply (inv_reruns (with_gate s _)); [done|by intros|].
  destruct (ad_gate s) as [g|] eqn:Eg; [|by apply (inv_keeps s)].
  destruct (heldBy token g); [by eapply inv_regate|]. by apply (inv_keeps s).
Qed.

Lemma progress_inv token counters now s :
  admission_inv s -> admission_inv (fst (recordRegistryGcProgress token counters now s)).
Proof. intros Hi. apply inv_reruns; [done|by intros|done]. Qed.

Lemma finish_inv token completed error counters now s :
  admission_inv s -> admission_inv (fst (finishRegistrySweep token completed error counters now s)).
Proof.
  intros Hi. unfold finishRegistrySweep. cbn [fst].
  set (runs := update_where _ _ _).
  assert (H1 : admission_inv (with_runs s runs)).
  { apply inv_reruns; [done| |done]. intros r _. cbn. by destruct completed. }
  change (admission_inv (with_gate (with_runs s runs)
    (if match ad_gate s with Some g => heldBy token g | None => false end
     then option_map (openGate false) (ad_gate s) else ad_gate s))).
  destruct (ad_gate s) as [g|] eqn:Eg; [|by apply (inv_keeps (with_runs s runs))].
  destruct (heldBy token g) eqn:Eh; [|by apply (inv_keeps (with_runs s runs))].
  apply (inv_opens _ g); [done|done| |done]. apply not_true_iff_false. intros Hex.
  apply existsb_exists in Hex as (r & Hr & Hrun). apply bool_decide_eq_true in Hrun.
  destruct (ai_running _ H1 r Hr Hrun) as (g' & Hg' & Hheld). cbn in Hg'. rewrite Eg in Hg'. injection Hg' as <-.
  apply heldBy_spec in Hheld as [_ Ht1]. apply heldBy_spec in Eh as [_ Ht2].
  unfold runs in Hr. apply update_In in Hr as (x & _ & [[-> Hx]|[-> _]]).
  - unfold ownRun, runRunning in Hx. rewrite (bool_decide_eq_true_2 _ Hrun), andb_true_r in Hx.
    apply String.eqb_neq in Hx. congruence.
  - cbn in Hrun. by destruct completed.
Qed.

Lemma serve_inv rq s : admission_inv s -> admission_inv (serve rq s).
Proof.
  intros Hi. destruct rq; cbn [serve].
  - by apply admit_inv.
  - by apply admit_internal_inv.
  - by apply release_inv.
  - by apply create_session_inv.
  - unfold heartbeatRegistryUploadSession, touchRegistryUploadSession.
    set (s1 := with_sessions s _). assert (H1 : admission_inv s1).
    { apply (inv_keeps s); [done|done| |done]. unfold noHolds, s1. cbn [ad_sessions ad_writers with_sessions].
      by rewrite existsb_update_same. }
    by repeat case_match.
  - by apply complete_inv.
  - by apply compact_inv.
  - by apply reap_inv.
  - by apply enforcement_inv.
  - by apply pause_inv.
  - by apply acquire_inv.
  - by apply heartbeat_inv.
  - by apply progress_inv.
  - by apply finish_inv.
Qed.

Lemma empty_inv : admission_inv emptyAdmission.
Proof. constructor; cbn; [by intros (? & ? & _)|done|done|constructor]. Qed.

Lemma serveAll_inv rqs s : admission_inv s -> admission_inv (serveAll rqs s).
Proof. revert s. induction rqs as [|rq rqs IH]; intros s Hi; [done|]. by apply IH, serve_inv. Qed.

(** * Theorems *)

(** From the empty tables, whatever requests are served: while the gate is swept
    no upload session is open and no writer is unresolved, the sweep has a token,
    and at most one run is running, the one that holds the gate. *)
Theorem sweep_excludes_writers rqs :
  let s := serveAll rqs emptyAdmission in
  (sweeping s -> existsb sessionOpen (ad_sessions s) = false /\ existsb writerPending (ad_writers s) = false) /\
  (forall r r', In r (ad_runs s) -> In r' (ad_runs s) -> gr_state r = gc_running -> gr_state r' = gc_running ->
     r = r' /\ exists g, ad_gate s = Some g /\ heldBy (gr_sweepToken r) g = true).
Proof.
  intros s. destruct (serveAll_inv rqs _ empty_inv) as [H1 H2 H3 H4]. fold s in H1, H2, H3, H4.
  split; [exact H1|]. intros r r' Hr Hr' Hrun Hrun'.
  destruct (H3 r Hr Hrun) as (g & Hg & Hh). destruct (H3 r' Hr' Hrun') as (g' & Hg' & Hh').
  rewrite Hg in Hg'. injection Hg' as <-. split; [|eauto].
  apply heldBy_spec in Hh as [_ E]. apply heldBy_spec in Hh' as [_ E'].
  apply (NoDup_map_inj gr_sweepToken (ad_runs s)); rewrite ?list_elem_of_In; [done..|congruence].
Qed.

(** The requests of others, as a sweep sees them: anything but the end of this
    sweep and an operator's resolution of stalled sweeps. *)
Definition othersRequest (token : string) (rq : AdmissionRequest) : Prop :=
  match rq with
  | rq_finish t _ _ _ _ => t <> token
  | rq_reap _ _ resolve _ _ => resolve = false
  | _ => True
  end.

(** The sweep [token] holds the registry. *)
Definition holding (token : string) (s : Admission) : Prop :=
  (exists g, ad_gate s = Some g /\ heldBy token g = true) /\ In token (map gr_sweepToken (ad_runs s)).

Lemma holding_keeps token s s' :
  ad_gate s' = ad_gate s -> map gr_sweepToken (ad_runs s') = map gr_sweepToken (ad_runs s) ->
  holding token s -> holding token s'.
Proof. unfold holding. by intros -> ->. Qed.

Lemma holding_regate token s g g' :
  ad_gate s = Some g -> g_state g' = g_state g -> g_sweepToken g' = g_sweepToken g ->
  holding token s -> holding token (with_gate s (Some g')).
Proof.
  intros Hg Es Et [(x & Hx & Hh) Hr]. rewrite Hg in Hx. injection Hx as <-.
  split; [|done]. exists g'. split; [done|]. apply heldBy_spec in Hh. apply heldBy_spec. by rewrite Es, Et.
Qed.

Lemma holding_ensure token s : holding token s -> ensureRegistryAdmissionRow s = s.
Proof. intros [(g & Hg & _) _]. unfold ensureRegistryAdmissionRow. by rewrite Hg. Qed.

Lemma holding_refuses token s g now : holding token s -> ad_gate s = Some g -> gateAdmits now g = false.
Proof.
  intros [(x & Hx & [Hh _]%heldBy_spec) _] Hg. rewrite Hg in Hx. injection Hx as <-.
  unfold gateAdmits. by rewrite bool_decide_eq_false_2 by congruence.
Qed.

Lemma holding_admit token kind owner header op req id now s :
  holding token s -> holding token (fst (admitRegistryOperation kind owner header op req id now s)).
Proof.
  intros Hh. unfold admitRegistryOperation. rewrite (holding_ensure token s Hh). cbv zeta.
  destruct (read_opt_string header) as [sid|]; cbv beta iota zeta.
  - destruct (negb _); [done|]. rewrite bool_decide_eq_false_2 by done. cbn [andb].
    set (s2 := fst (touchRegistryUploadSession _ _ _ _ _)).
    assert (H2 : holding token s2) by (by apply (holding_keeps token s)).
    destruct (ad_gate s2) as [g|] eqn:Eg; [|done].
    unfold gateAdmitsWriter. by rewrite (holding_refuses token s2 g).
  - destruct (_ && _); [done|]. destruct (ad_gate s) as [g|] eqn:Eg; [|done].
    unfold gateAdmitsWriter. by rewrite (holding_refuses token s g).
Qed.

Lemma holding_acquire token owner leaseMs t runId now now' s :
  holding token s -> holding token (fst (acquireRegistrySweep owner leaseMs t runId now now' id s)).
Proof.
  intros Hh. destruct (acquireRegistrySweep _ _ _ _ _ _ _ _) as [s' res] eqn:E. cbn [fst].
  apply acquire_spec in E as (g & Eg & Hres). rewrite (holding_ensure token s Hh) in *.
  pose proof Hh as [(x & Hx & [Hst Htok]%heldBy_spec) Hin]. rewrite Eg in Hx. injection Hx as <-.
  destruct res as [[lease|why]|e]; [| |by subst].
  - destruct Hres as (_ & Ho & _). congruence.
  - destruct Hres as [_ [->|(Ht & Hni & _)]]; [done|]. apply heldBy_spec in Ht as [_ Ht]. congruence.
Qed.

Lemma holding_reap token graceMs limit now now' s :
  holding token s -> holding token (fst (reapRegistryAdmission graceMs limit false now now' s)).
Proof. apply holding_keeps; done. Qed.

Lemma holding_serve token rq s : othersRequest token rq -> holding token s -> holding token (serve rq s).
Proof.
  intros Ho Hh. destruct rq; cbn [serve othersRequest] in *.
  - by apply holding_admit.
  - unfold admitInternalRegistryOperation. rewrite (holding_ensure token s Hh).
    destruct (ad_gate s) as [g|] eqn:Eg; [|done]. unfold gateAdmitsWriter. by rewrite (holding_refuses token s g).
  - unfold releaseRegistryOperation. destruct fails; [done|]. destruct outcome; by apply (holding_keeps token s).
  - unfold createRegistryUploadSession. rewrite (holding_ensure token s Hh).
    destruct (ad_gate s) as [g|] eqn:Eg; [|done]. by rewrite (holding_refuses token s g).
  - unfold heartbeatRegistryUploadSession, touchRegistryUploadSession.
    repeat case_match; by apply (holding_keeps token s).
  - unfold completeRegistryUploadSession. cbv zeta. repeat case_match; by apply (holding_keeps token s).
  - by apply (holding_keeps token s).
  - subst. by apply holding_reap.
  - unfold setRegistryEnforcement. pose proof Hh as [(g & Hg & _) _]. rewrite Hg. by apply (holding_regate token s g).
  - unfold setRegistryPause. pose proof Hh as [(g & Hg & _) _].
    destruct paused; cbn [fst]; rewrite Hg; by apply (holding_regate token s g).
  - by apply holding_acquire.
  - unfold heartbeatRegistrySweep. pose proof Hh as [(g & Hg & _) _]. rewrite Hg. cbv zeta.
    assert (Hb : forall gate runs, holding token (with_gate s gate) -> map gr_sweepToken runs = map gr_sweepToken (ad_runs s) ->
      holding token (with_runs (with_gate s gate) runs)).
    { intros gate runs. by intros; apply (holding_keeps token (with_gate s gate)). }
    destruct (heldBy sweepToken g); cbn [fst option_map]; apply Hb; try by apply update_map_same.
    + by apply (holding_regate token s g).
    + by apply (holding_regate token s g).
  - apply (holding_keeps token s); [done| |done]. by apply update_map_same.
  - unfold finishRegistrySweep. pose proof Hh as [(g & Hg & Hheld) _]. rewrite Hg. cbn [fst].
    apply heldBy_spec in Hheld as [_ Htok].
    assert (heldBy sweepToken g = false) as ->.
    { apply not_true_iff_false. intros [_ Ht]%heldBy_spec. congruence. }
    apply (holding_keeps token s); [done| |done]. by apply update_map_same.
Qed.

(** C12. Once a sweep is acquired it has the registry alone until it ends: whatever
    requests others send, short of an operator who resolves the sweep as stalled,
    the gate stays its own, no writer is admitted and no upload session opens. *)
Theorem no_writer_during_sweep before owner leaseMs token runId now now' s1 lease others
  (Hacq : acquireRegistrySweep owner leaseMs token runId now now' id (serveAll before emptyAdmission)
          = (s1, Ok (Ok lease)))
  (Hothers : Forall (othersRequest token) others) :
  let s := serveAll others s1 in
  (exists g, ad_gate s = Some g /\ g_state g = gate_sweeping /\ g_sweepToken g = Some token) /\
  existsb sessionOpen (ad_sessions s) = false /\ existsb writerPending (ad_writers s) = false.
Proof.
  intros s.
  assert (Hi : admission_inv s).
  { apply serveAll_inv. change s1 with (fst (s1, Ok (Ok lease) : result AdmissionError (result SweepRefusal SweepLease))).
    rewrite <- Hacq. apply acquire_inv, serveAll_inv, empty_inv. }
  assert (Hh : holding token s1).
  { apply acquire_spec in Hacq as (g & _ & _ & _ & _ & _ & ->). split.
    - eexists. split; [done|]. by apply heldBy_spec.
    - cbn. rewrite map_app, in_app_iff. cbn. auto. }
  assert (Hhs : holding token s).
  { unfold s. clear Hi s Hacq. revert s1 Hh. induction Hothers as [|rq others Hrq _ IH]; intros s1 Hh; [done|].
    cbn [serveAll fold_left]. by apply IH, holding_serve. }
  destruct Hhs as [(g & Hg & [Hst Htok]%heldBy_spec) _]. split; [by exists g|].
  apply (ai_exclusive _ Hi). by exists g.
Qed.

(** ** A sweep that lost the gate *)

Definition holdsGate (token : string) (s : Admission) : bool :=
  match ad_gate s with Some g => heldBy token g | None => false end.
(** Requests of others, an operator's resolution of stalled sweeps included: no other
    sweep has this token. *)
Definition foreignRequest (token : string) (rq : AdmissionRequest) : Prop :=
  match rq with rq_acquire _ _ t _ _ _ => t <> token | _ => True end.

Lemma holds_gate token s s' : ad_gate s' = ad_gate s -> holdsGate token s' = holdsGate token s.
Proof. unfold holdsGate. by intros ->. Qed.
Lemma ensure_holds token s : holdsGate token (ensureRegistryAdmissionRow s) = holdsGate token s.
Proof. unfold ensureRegistryAdmissionRow, holdsGate. by destruct (ad_gate s) eqn:E; rewrite ?E. Qed.
Lemma holds_gate_is token s g : ad_gate s = Some g -> holdsGate token s = heldBy token g.
Proof. unfold holdsGate. by intros ->. Qed.
Lemma holds_regate token s g g' :
  ad_gate s = Some g -> g_state g' = g_state g -> g_sweepToken g' = g_sweepToken g ->
  holdsGate token (with_gate s (Some g')) = holdsGate token s.
Proof. intros Hg Hst Ht. rewrite (holds_gate_is _ s g) by done. cbn. unfold heldBy. by rewrite Hst, Ht. Qed.
Lemma open_not_held token g : g_state g = gate_open -> heldBy token g = false.
Proof. unfold heldBy. intros ->. by rewrite bool_decide_eq_false_2. Qed.

Lemma holds_resolve token cutoff now s :
  holdsGate token (fst (resolveStalledSweeps cutoff now s)) = true -> holdsGate token s = true.
Proof.
  unfold resolveStalledSweeps. cbv zeta. cbn [ad_gate with_runs].
  destruct (ad_gate s) as [g|] eqn:Eg; [|by cbn [fst]; unfold holdsGate; cbn [ad_gate with_runs]].
  rewrite (holds_gate_is token s g) by done.
  destruct (_ && negb _); cbn [fst]; unfold holdsGate; cbn [ad_gate with_gate].
  - case_match; rewrite open_not_held by done; done.
  - destruct (bool_decide (g_state g = gate_open) && _) eqn:Eo; [|done].
    apply andb_true_iff in Eo as [Eo%bool_decide_eq_true _]. by rewrite open_not_held.
Qed.
Lemma holds_admit token kind owner header op req id now s :
  holdsGate token (fst (admitRegistryOperation kind owner header op req id now s)) = holdsGate token s.
Proof.
  assert (Hinsert : forall w s2 s3, insertWriter w s2 = Ok s3 -> holdsGate token s3 = holdsGate token s2).
  { intros w s2 s3 [Hg _]%insertWriter_Ok. by apply holds_gate. }
  unfold admitRegistryOperation. cbv zeta. rewrite <- (ensure_holds token s).
  destruct (read_opt_string header) as [sid|]; cbv beta iota zeta.
  - destruct (negb _); [cbn [fst]; by rewrite ?ensure_holds|]. rewrite bool_decide_eq_false_2 by done. cbn [andb].
    set (s2 := fst (touchRegistryUploadSession _ _ _ _ _)).
    assert (Hs2 : holdsGate token s2 = holdsGate token (ensureRegistryAdmissionRow s)) by by apply holds_gate.
    destruct (ad_gate s2); [|done]. destruct (_ && _); [|done].
    destruct (insertWriter _ s2) as [s3|] eqn:E; [|cbn [fst]; by rewrite ?ensure_holds]. cbn [fst]. by rewrite (Hinsert _ _ _ E).
  - destruct (_ && _); [cbn [fst]; by rewrite ?ensure_holds|]. destruct (ad_gate _); [|done]. destruct (_ && _); [|done].
    destruct (insertWriter _ _) as [s3|] eqn:E; [|cbn [fst]; by rewrite ?ensure_holds]. cbn [fst]. exact (Hinsert _ _ _ E).
Qed.
Lemma holds_acquire token owner leaseMs t runId now now' s :
  t <> token -> holdsGate token (fst (acquireRegistrySweep owner leaseMs t runId now now' id s)) = true ->
  holdsGate token s = true.
Proof.
  intros Hne. destruct (acquireRegistrySweep _ _ _ _ _ _ _ _) as [s' res] eqn:E. cbn [fst].
  apply acquire_spec in E as (g & Eg & Hres). destruct res as [[lease|why]|e]; [| |by subst].
  - destruct Hres as (_ & _ & _ & _ & ->). unfold holdsGate. cbn. intros [_ Ht]%heldBy_spec. cbn in Ht. congruence.
  - destruct Hres as [_ [->|(_ & _ & ->)]]; [by rewrite ensure_holds|].
    unfold holdsGate at 1. cbn [ad_gate with_runs]. fold (holdsGate token (ensureRegistryAdmissionRow s)). by rewrite ensure_holds.
Qed.
Lemma holds_heartbeat token t leaseMs now now' later s :
  (forall s, holdsGate token (later s) = true -> holdsGate token s = true) ->
  holdsGate token (fst (heartbeatRegistrySweep t leaseMs now now' later s)) = true -> holdsGate token s = true.
Proof.
  intros Hl. unfold heartbeatRegistrySweep. cbv zeta. destruct (ad_gate s) as [g|] eqn:Eg; cbn [fst option_map].
  - rewrite (holds_gate_is token s g) by done. destruct (heldBy t g); cbn [fst]; [intros H%Hl|intros H]; exact H.
  - unfold holdsGate at 1. by cbn [ad_gate with_runs with_gate].
Qed.

(** A lost gate stays lost, whatever others request. *)
Lemma lost_serve token rq s : foreignRequest token rq -> holdsGate token (serve rq s) = true -> holdsGate token s = true.
Proof.
  intros Hf. destruct rq; cbn [serve foreignRequest] in *.
  - by rewrite holds_admit.
  - unfold admitInternalRegistryOperation. cbv zeta. rewrite <- (ensure_holds token s).
    destruct (ad_gate _) as [g|]; [|done]. destruct (gateAdmitsWriter now g); [|done].
    destruct (insertWriter _ _) as [s3|] eqn:E; [|cbn [fst]; by rewrite ?ensure_holds]. apply insertWriter_Ok in E as [E _]. cbn [fst].
    by rewrite (holds_gate token (ensureRegistryAdmissionRow s) s3).
  - unfold releaseRegistryOperation. destruct fails; [done|]. by destruct outcome.
  - unfold createRegistryUploadSession. cbv zeta. rewrite <- (ensure_holds token s).
    repeat case_match; cbn [fst]; first [done | by rewrite ensure_holds].
  - unfold heartbeatRegistryUploadSession, touchRegistryUploadSession. by repeat case_match.
  - unfold completeRegistryUploadSession. cbv zeta. by repeat case_match.
  - done.
  - unfold reapRegistryAdmission. cbv zeta. destruct resolve; [|done].
    match goal with |- context [resolveStalledSweeps ?c ?n ?x] =>
      pose proof (holds_resolve token c n x) as Hr; destruct (resolveStalledSweeps c n x) as [s4 resolved] end.
    exact Hr.
  - unfold setRegistryEnforcement. destruct (ad_gate s) as [g|] eqn:Eg; [by erewrite holds_regate|done].
  - unfold setRegistryPause. destruct paused; cbn [fst]; destruct (ad_gate s) as [g|] eqn:Eg; cbn [option_map];
      try done; by erewrite holds_regate.
  - by apply holds_acquire.
  - by apply holds_heartbeat.
  - done.
  - unfold finishRegistrySweep. cbn [fst]. destruct (ad_gate s) as [g|] eqn:Eg; [|unfold holdsGate; by cbn; rewrite Eg].
    rewrite (holds_gate_is token s g) by done. destruct (heldBy sweepToken g); [|done].
    unfold holdsGate. cbn. by rewrite open_not_held.
Qed.
Lemma lost_serveAll token rqs s :
  Forall (foreignRequest token) rqs -> holdsGate token (serveAll rqs s) = true -> holdsGate token s = true.
Proof.
  intros Hf. revert s. induction Hf as [|rq rqs Hrq _ IH]; intros s Hh; [done|]. by eapply lost_serve, IH.
Qed.

(** A delete batch passes the gate exactly when its sweep holds it with a lease
    that has not run out, enforcement is on, nothing is paused, no upload session
    is open and no writer is unresolved. *)
Theorem delete_gate_exact token now s :
  assertRegistrySweepDeletable token now s = None <->
  noHolds s /\
  exists g, ad_gate s = Some g /\ heldBy token g = true /\ g_enforcement g = enforce /\ g_pausedAt g = None /\
    match g_sweepExpiresAt g with Some t => now < t | None => True end.
Proof.
  unfold assertRegistrySweepDeletable, sweepBlockedReason, registryAdmissionBlockedReason, readRegistryAdmissionState,
    noHolds. destruct (ad_gate s) as [g|]; cbn -[count_where assertRegistrySweepDeletable].
  2:{ split; [done|]. by intros (_ & ? & ? & _). }
  rewrite !count_where_zero.
  setoid_rewrite heldBy_spec.
  destruct (decide (g_state g = gate_sweeping)) as [Hs|Hs].
  2:{ rewrite bool_decide_eq_false_2 by done. cbn. split; [done|]. naive_solver. }
  rewrite bool_decide_eq_true_2 by done. cbn [andb].
  destruct (decide (g_sweepToken g = Some token)) as [Ht|Ht].
  2:{ rewrite (bool_decide_eq_false_2 (g_sweepToken g = Some token)) by done.
      rewrite orb_true_r. split; [done|]. naive_solver. }
  rewrite Ht. rewrite !bool_decide_eq_true_2 by (done || by eexists). cbn [negb orb andb].
  destruct (g_pausedAt g) as [t|] eqn:Ep.
  { rewrite (bool_decide_eq_true_2 (is_Some (Some t))) by by eexists.
    split; [by case_match|]. naive_solver. }
  rewrite (bool_decide_eq_false_2 (is_Some None)) by by intros [? ?].
  destruct (g_sweepExpiresAt g) as [t|] eqn:Ex; [destruct (Z.leb_spec t now)|].
  { split; [done|]. intros (_ & x & [= <-] & _ & _ & _ & Hx). rewrite Ex in Hx. lia. }
  all: destruct (g_enforcement g) eqn:Ee; [split; [done|]; intros (_ & x & [= <-] & _ & Hx & _); congruence|].
  all: assert (Hgate : exists x, Some g = Some x /\ (g_state x = gate_sweeping /\ g_sweepToken x = Some token) /\
    g_enforcement x = enforce /\ g_pausedAt x = None /\
    match g_sweepExpiresAt x with Some t => now < t | None => True end) by (exists g; rewrite Ex; auto).
  all: destruct (existsb sessionOpen (ad_sessions s)), (existsb writerPending (ad_writers s));
    split; try done; by intros [[? ?] _].
Qed.

(** * A writer is only ever resolved by its own end or by an operator *)

Definition unresolved (operationId : string) (s : Admission) : Prop :=
  exists w, In w (ad_writers s) /\ ow_id w = operationId /\ writerPending w = true.
Definition leavesWriter (operationId : string) (rq : AdmissionRequest) : Prop :=
  match rq with
  | rq_release id outcome fails _ => id <> operationId \/ outcome = wo_unknown \/ fails = true
  | rq_reap _ _ _ _ _ => False
  | _ => True
  end.

Lemma unresolved_keeps id s s' : ad_writers s' = ad_writers s -> unresolved id s -> unresolved id s'.
Proof. unfold unresolved. by intros ->. Qed.

Lemma unresolved_delete id q s l :
  (forall w, ow_id w = id -> writerPending w = true -> q w = false) ->
  unresolved id s -> ad_writers l = delete_where q (ad_writers s) -> unresolved id l.
Proof.
  intros Hq (w & Hw & Hid & Hp) E. exists w. rewrite E. split; [|done]. apply filter_In.
  by rewrite (Hq w).
Qed.

Lemma settled_not_pending w : writerSettled w = true -> writerPending w = false.
Proof.
  unfold writerSettled, writerPending. intros [H1 H2]%andb_true_iff. apply negb_true_iff in H2. rewrite H2, orb_false_r.
  apply bool_decide_eq_true in H1 as [x Hx]. rewrite Hx. by apply bool_decide_eq_false.
Qed.

Lemma unresolved_compact id retainMs now s :
  unresolved id s -> unresolved id (fst (compactRegistryAdmissionHistory retainMs now s)).
Proof.
  intros Hu. eapply unresolved_delete; [|done|done]. intros w _ Hp. apply andb_false_iff. left.
  apply not_true_iff_false. intros Hw%settled_not_pending. congruence.
Qed.

Lemma unresolved_insert id w s s' : insertWriter w s = Ok s' -> unresolved id s -> unresolved id s'.
Proof.
  unfold insertWriter. destruct (existsb _ _); [done|]. intros [= <-] (x & Hx & H). exists x. split; [|done].
  cbn. apply in_app_iff. auto.
Qed.

Lemma ensure_writers s : ad_writers (ensureRegistryAdmissionRow s) = ad_writers s.
Proof. unfold ensureRegistryAdmissionRow. by destruct (ad_gate s). Qed.

Lemma unresolved_admit id kind owner header op req id' now s :
  unresolved id s -> unresolved id (fst (admitRegistryOperation kind owner header op req id' now s)).
Proof.
  intros Hu. unfold admitRegistryOperation. cbv zeta.
  assert (H1 : unresolved id (ensureRegistryAdmissionRow s)) by (by eapply unresolved_keeps; [apply ensure_writers|]).
  destruct (read_opt_string header) as [sid|]; cbv beta iota zeta.
  - destruct (negb _); [done|]. rewrite bool_decide_eq_false_2 by done. cbn [andb].
    set (s2 := fst (touchRegistryUploadSession _ _ _ _ _)).
    assert (H2 : unresolved id s2) by (by apply (unresolved_keeps id (ensureRegistryAdmissionRow s))).
    destruct (ad_gate s2) as [g|]; [|done]. destruct (_ && _); [|done].
    destruct (insertWriter _ s2) as [s3|e] eqn:E; [|done]. by eapply unresolved_insert.
  - destruct (_ && _); [done|]. destruct (ad_gate _) as [g|]; [|done]. destruct (_ && _); [|done].
    destruct (insertWriter _ _) as [s3|e] eqn:E; [|done]. by eapply unresolved_insert.
Qed.

Lemma unresolved_release id id' outcome fails now s :
  id' <> id \/ outcome = wo_unknown \/ fails = true -> unresolved id s ->
  unresolved id (releaseRegistryOperation id' outcome fails now s).
Proof.
  intros Hc Hu. unfold releaseRegistryOperation. destruct fails; [done|].
  assert (Hd : outcome <> wo_unknown -> unresolved id (with_writers s (delete_where (fun w => ow_id w =s id') (ad_writers s)))).
  { intros Ho. eapply unresolved_delete; [|done|done]. intros w Hw _. apply String.eqb_neq. naive_solver. }
  destruct outcome; try by apply Hd.
  destruct Hu as (w & Hw & Hid & Hp). eexists. split; [apply in_map_iff; exists w; split; [reflexivity|done]|].
  by destruct (_ && _).
Qed.

Lemma unresolved_complete id kind owner sessionId published now now' s :
  unresolved id s -> unresolved id (fst (completeRegistryUploadSession kind owner sessionId published now now' s)).
Proof.
  intros Hu. unfold completeRegistryUploadSession. cbv zeta.
  generalize (if published then ss_completed else ss_abandoned) as state. intros state.
  match goal with |- unresolved id (fst (match findSession _ ?x with _ => _ end)) => set (s3 := x) end.
  assert (H3 : unresolved id s3); [|by repeat case_match].
  match goal with s3 := if ?c then fst (compactRegistryAdmissionHistory _ _ ?x) else _ |- _ => set (s2 := x) in * end.
  assert (H2 : unresolved id s2).
  { eapply unresolved_delete; [|exact Hu|done]. intros w _ Hp.
    apply not_true_iff_false. intros [[_ Hw%settled_not_pending]%andb_true_iff _]%andb_true_iff. congruence. }
  unfold s3. clearbody s2. case_match; [by apply unresolved_compact|done].
Qed.

Lemma unresolved_serve id rq s : leavesWriter id rq -> unresolved id s -> unresolved id (serve rq s).
Proof.
  intros Hl Hu. destruct rq; cbn [serve leavesWriter] in *.
  - by apply unresolved_admit.
  - unfold admitInternalRegistryOperation.
    assert (H1 : unresolved id (ensureRegistryAdmissionRow s)) by (by eapply unresolved_keeps; [apply ensure_writers|]).
    destruct (ad_gate _) as [g|]; [|done]. destruct (gateAdmitsWriter now g); [|done].
    destruct (insertWriter _ _) as [s3|e] eqn:E; [|done]. by eapply unresolved_insert.
  - by apply unresolved_release.
  - unfold createRegistryUploadSession.
    assert (H1 : unresolved id (ensureRegistryAdmissionRow s)) by (by eapply unresolved_keeps; [apply ensure_writers|]).
    by repeat case_match.
  - unfold heartbeatRegistryUploadSession, touchRegistryUploadSession.
    repeat case_match; by apply (unresolved_keeps id s).
  - by apply unresolved_complete.
  - by apply unresolved_compact.
  - done.
  - unfold setRegistryEnforcement. case_match; by apply (unresolved_keeps id s).
  - unfold setRegistryPause. case_match; by apply (unresolved_keeps id s).
  - destruct (acquireRegistrySweep _ _ _ _ _ _ _ _) as [s' res] eqn:E. cbn [fst].
    apply acquire_spec in E as (g & Eg & Hres). apply (unresolved_keeps id s); [|done].
    destruct res as [[lease|why]|e]; [by destruct Hres as (_ & _ & _ & _ & ->)| |by subst].
    destruct Hres as [_ [->|(_ & _ & ->)]]; apply ensure_writers.
  - unfold heartbeatRegistrySweep. cbv zeta. case_match; by apply (unresolved_keeps id s).
  - by apply (unresolved_keeps id s).
  - by apply (unresolved_keeps id s).
Qed.

(** A writer that never reported its end, or ended inconclusively, blocks every
    sweep: however long ago its lease ran out, and whatever else is requested, no
    acquisition succeeds until it is settled or an operator reaps it. *)
Theorem unresolved_writer_blocks_sweep operationId s others owner leaseMs token runId now now' s' lease
  (Hu : unresolved operationId s) (Hothers : Forall (leavesWriter operationId) others) :
  unresolved operationId (serveAll others s) /\
  acquireRegistrySweep owner leaseMs token runId now now' id (serveAll others s) <> (s', Ok (Ok lease)).
Proof.
  assert (Hs : unresolved operationId (serveAll others s)).
  { revert s Hu. induction Hothers as [|rq others Hrq _ IH]; intros s Hu; [done|].
    cbn [serveAll fold_left]. by apply IH, unresolved_serve. }
  split; [done|]. intros Hacq. apply acquire_spec in Hacq as (g & _ & Hf & _).
  apply registryFree_spec in Hf as [[_ Hw] _]. rewrite ensure_writers in Hw.
  destruct Hs as (w & Hin & _ & Hp). apply not_true_iff_false in Hw. apply Hw, existsb_exists. eauto.
Qed.

(** The guard of a staged write settles nothing it cannot vouch for: once a write
    may have started, a handler that ends without releasing leaves its writer
    unresolved, and releasing twice changes nothing. *)
Theorem writer_guard_keeps_hold operationId s fails now
  (Hu : unresolved operationId s) :
  let started := markWriteStarted (createRegistryWriterGuard operationId) in
  unresolved operationId (snd (guardFinish fails now started s)) /\
  forall outcome outcome' fails' now' g1 s1,
    guardRelease outcome fails now started s = (g1, s1) ->
    guardRelease outcome' fails' now' g1 s1 = (g1, s1) /\ guardFinish fails' now' g1 s1 = (g1, s1).
Proof.
  split.
  - apply (unresolved_release operationId operationId wo_unknown fails now s); auto.
  - by intros outcome outcome' fails' now' g1 s1 [= <- <-].
Qed.

(** * Witnesses *)

Lemma no_writer_during_sweep_witness :
  exists s1 lease,
    acquireRegistrySweep "cleanup" None "t" "r" 10 11 id (serveAll [rq_enforcement enforce] emptyAdmission)
      = (s1, Ok (Ok lease)) /\
    existsb writerPending
      (ad_writers (serveAll [rq_admit_internal "build" op_publish "op" 12; rq_acquire "cleanup" None "u" "r2" 13 14] s1))
      = false.
Proof.
  destruct (acquireRegistrySweep "cleanup" None "t" "r" 10 11 id (serveAll [rq_enforcement enforce] emptyAdmission))
    as [s1 [[lease|]|]] eqn:E; [|vm_compute in E; discriminate E..].
  exists s1, lease. split; [reflexivity|].
  exact (proj2 (proj2 (no_writer_during_sweep [rq_enforcement enforce] "cleanup" None "t" "r" 10 11 s1 lease
    [rq_admit_internal "build" op_publish "op" 12; rq_acquire "cleanup" None "u" "r2" 13 14] E
    ltac:(repeat constructor)))).
Defined.

Lemma unresolved_writer_blocks_sweep_witness :
  unresolved "op" (serveAll [rq_release "op" wo_unknown false 20; rq_compact None 90000000000]
    (serve (rq_admit_internal "build" op_publish "op" 12) emptyAdmission)).
Proof.
  refine (proj1 (unresolved_writer_blocks_sweep "op" (serve (rq_admit_internal "build" op_publish "op" 12) emptyAdmission)
    [rq_release "op" wo_unknown false 20; rq_compact None 90000000000] "cleanup" None "t" "r" 100 101 emptyAdmission
    (mkLease "t" 0 0 None) _ _)).
  - eexists. split; [vm_compute; left; reflexivity|split; reflexivity].
  - constructor; [by right; left|]. repeat constructor.
Defined.
