(* ===== verification/Requests.v ===== *)
(** Requests that run side by side on one shared state.

    A request is a program of atomic accesses to the state (one statement or one
    transaction each) and of calls to the outside (object storage, the clock, other
    services) with whatever they answer, and everything other requests do happens
    between two of them. A
    configuration runs any number of requests at once; [upholds] is the judgement
    that every access of a request keeps an invariant and makes only permitted
    changes, whatever happened before it. *)
From stdpp Require Import base list relations.
From Stdlib Require Import Lia.
From S2P Require Import Prelude.

(** * Programs *)

Inductive Req (E : Type -> Type) (S A : Type) : Type :=
| Done (a : A)
| Atom (B : Type) (f : S -> S * B) (k : B -> Req E S A)
| Await (B : Type) (c : E B) (k : B -> Req E S A).
Arguments Done {E S A} a.
Arguments Atom {E S A B} f k.
Arguments Await {E S A B} c k.

Fixpoint req_bind {E S A B} (p : Req E S A) (k : A -> Req E S B) : Req E S B :=
  match p with
  | Done a => k a
  | Atom f next => Atom f (fun b => req_bind (next b) k)
  | Await c next => Await c (fun b => req_bind (next b) k)
  end.

(** An awaited operation that may throw: the caller goes on with its value, or
    throws the same error. *)
Definition req_try {E S X A B} (p : Req E S (result X A)) (k : A -> Req E S (result X B)) : Req E S (result X B) :=
  req_bind p (fun r => match r with Ok a => k a | Err e => Done (Err e) end).

Declare Scope req_scope.
Delimit Scope req_scope with req.
Notation "x <-- p ; k" := (req_bind p (fun x => k)) (at level 100, p at next level, right associativity) : req_scope.
Notation "x <-! p ; k" := (req_try p (fun x => k)) (at level 100, p at next level, right associativity) : req_scope.

(** A query reads, a transaction may write, a call goes out. *)
Definition query {E S B} (g : S -> B) : Req E S B := Atom (fun s => (s, g s)) Done.
Definition transaction {E S B} (f : S -> S * B) : Req E S B := Atom f Done.
Definition call {E S B} (c : E B) : Req E S B := Await c Done.

(** A run of one request: what it calls and is answered, and the state it leaves;
    [others] may change the state before each access. *)
Inductive runs {E S A} (others : S -> S -> Prop) : Req E S A -> S -> list {B : Type & (E B * B)%type} -> S -> A -> Prop :=
| runs_done a s : runs others (Done a) s [] s a
| runs_atom B (f : S -> S * B) k s s1 calls s' a :
    others s s1 -> runs others (k (snd (f s1))) (fst (f s1)) calls s' a -> runs others (Atom f k) s calls s' a
| runs_await B (c : E B) k b s calls s' a :
    runs others (k b) s calls s' a -> runs others (Await c k) s (existT B (c, b) :: calls) s' a.

Lemma runs_inv {E S A} (others : S -> S -> Prop) (p : Req E S A) s calls s' a :
  runs others p s calls s' a ->
  match p with
  | Done x => calls = [] /\ s' = s /\ a = x
  | Atom f k => exists s1, others s s1 /\ runs others (k (snd (f s1))) (fst (f s1)) calls s' a
  | Await c k => exists b rest, calls = existT _ (c, b) :: rest /\ runs others (k b) s rest s' a
  end.
Proof. destruct 1; eauto. Qed.
Lemma runs_bind {E S A B} (others : S -> S -> Prop) (p : Req E S A) (k : A -> Req E S B) s calls s' b :
  runs others (req_bind p k) s calls s' b ->
  exists calls1 calls2 s1 a, calls = calls1 ++ calls2 /\ runs others p s calls1 s1 a /\ runs others (k a) s1 calls2 s' b.
Proof.
  revert s calls. induction p as [a|D f next IH|D c next IH]; intros s calls H; cbn in H.
  - exists [], calls, s, a. split_and!; [done|constructor|done].
  - apply runs_inv in H as (s1 & Ho & H). destruct (IH _ _ _ H) as (c1 & c2 & s2 & a & -> & H1 & H2).
    exists c1, c2, s2, a. split_and!; [done|by econstructor|done].
  - apply runs_inv in H as (d & rest & -> & H). destruct (IH _ _ _ H) as (c1 & c2 & s2 & a & -> & H1 & H2).
    exists (existT D (c, d) :: c1), c2, s2, a. split_and!; [done|by constructor|done].
Qed.

(** A run with the states its accesses saw and left. *)
Inductive RunEvent (E : Type -> Type) (S : Type) : Type :=
| accessed (before after : S)
| called (B : Type) (c : E B) (b : B).
Arguments accessed {E S} before after.
Arguments called {E S B} c b.

Inductive traced {E S A} (others : S -> S -> Prop) : Req E S A -> S -> list (RunEvent E S) -> S -> A -> Prop :=
| traced_done a s : traced others (Done a) s [] s a
| traced_atom B (f : S -> S * B) k s s1 tr s' a :
    others s s1 -> traced others (k (snd (f s1))) (fst (f s1)) tr s' a ->
    traced others (Atom f k) s (accessed s1 (fst (f s1)) :: tr) s' a
| traced_await B (c : E B) k b s tr s' a :
    traced others (k b) s tr s' a -> traced others (Await c k) s (called c b :: tr) s' a.

Fixpoint calls_of {E S} (tr : list (RunEvent E S)) : list {B : Type & (E B * B)%type} :=
  match tr with
  | [] => []
  | accessed _ _ :: rest => calls_of rest
  | called c b :: rest => existT _ (c, b) :: calls_of rest
  end.
Definition is_call {E S} (e : RunEvent E S) : Prop := match e with called _ _ => True | accessed _ _ => False end.

Lemma calls_of_app {E S} (t1 t2 : list (RunEvent E S)) : calls_of (t1 ++ t2) = calls_of t1 ++ calls_of t2.
Proof. induction t1 as [|[] t1 IH]; cbn; [done|done|by rewrite IH]. Qed.
Lemma traced_runs {E S A} (others : S -> S -> Prop) (p : Req E S A) s tr s' a :
  traced others p s tr s' a -> runs others p s (calls_of tr) s' a.
Proof. induction 1; cbn; econstructor; eauto. Qed.
Lemma traced_inv {E S A} (others : S -> S -> Prop) (p : Req E S A) s tr s' a :
  traced others p s tr s' a ->
  match p with
  | Done x => tr = [] /\ s' = s /\ a = x
  | Atom f k => exists s1 rest, tr = accessed s1 (fst (f s1)) :: rest /\ others s s1 /\
      traced others (k (snd (f s1))) (fst (f s1)) rest s' a
  | Await c k => exists b rest, tr = called c b :: rest /\ traced others (k b) s rest s' a
  end.
Proof. destruct 1; eauto 6. Qed.
Lemma traced_bind {E S A B} (others : S -> S -> Prop) (p : Req E S A) (k : A -> Req E S B) s tr s' b :
  traced others (req_bind p k) s tr s' b ->
  exists t1 t2 s1 a, tr = t1 ++ t2 /\ traced others p s t1 s1 a /\ traced others (k a) s1 t2 s' b.
Proof.
  revert s tr. induction p as [a|D f next IH|D c next IH]; intros s tr H; cbn in H.
  - exists [], tr, s, a. split_and!; [done|constructor|done].
  - apply traced_inv in H as (s1 & rest & -> & Ho & H). destruct (IH _ _ _ H) as (t1 & t2 & s2 & a & -> & H1 & H2).
    eexists (_ :: t1), t2, s2, a. split_and!; [done|by constructor|done].
  - apply traced_inv in H as (d & rest & -> & H). destruct (IH _ _ _ H) as (t1 & t2 & s2 & a & -> & H1 & H2).
    eexists (_ :: t1), t2, s2, a. split_and!; [done|by constructor|done].
Qed.
Lemma traced_try {E S X A B} (others : S -> S -> Prop) (p : Req E S (result X A)) (k : A -> Req E S (result X B)) s tr s' r :
  traced others (req_try p k) s tr s' r ->
  (exists e, r = Err e /\ traced others p s tr s' (Err e)) \/
  (exists t1 t2 s1 a, tr = t1 ++ t2 /\ traced others p s t1 s1 (Ok a) /\ traced others (k a) s1 t2 s' r).
Proof.
  intros H. apply traced_bind in H as (t1 & t2 & s1 & [a|e] & -> & H1 & H2); [right; eauto 10|].
  left. apply traced_inv in H2 as (-> & -> & ->). rewrite app_nil_r. eauto.
Qed.

(** * Configurations *)

Section running.
Context {E : Type -> Type} {S A : Type}.
Variable admitted : Req E S A -> Prop.
Variable other : S -> S -> Prop.

Record Config : Type := mkConfig {
  cfg_state : S;
  cfg_running : list (Req E S A);
}.

Inductive req_step : Config -> Config -> Prop :=
| step_start s ps p : admitted p -> req_step (mkConfig s ps) (mkConfig s (ps ++ [p]))
| step_atom s ps1 ps2 B (f : S -> S * B) k :
    req_step (mkConfig s (ps1 ++ Atom f k :: ps2)) (mkConfig (fst (f s)) (ps1 ++ k (snd (f s)) :: ps2))
| step_answer s ps1 ps2 B (c : E B) (k : B -> Req E S A) b :
    req_step (mkConfig s (ps1 ++ Await c k :: ps2)) (mkConfig s (ps1 ++ k b :: ps2))
| step_gone s ps1 ps2 p : req_step (mkConfig s (ps1 ++ p :: ps2)) (mkConfig s (ps1 ++ ps2))
| step_others s s' ps : other s s' -> req_step (mkConfig s ps) (mkConfig s' ps).
End running.
Arguments Config E S A : clear implicits.

(** A request alone, with a fixed answer to each call. *)
Fixpoint answered {E S A} (answer : forall B, E B -> B) (p : Req E S A) (s : S) : S * A :=
  match p with
  | Done a => (s, a)
  | Atom f k => answered answer (k (snd (f s))) (fst (f s))
  | Await c k => answered answer (k (answer _ c)) s
  end.
Lemma answered_bind {E S A B} (answer : forall B, E B -> B) (p : Req E S A) (k : A -> Req E S B) s :
  answered answer (req_bind p k) s = answered answer (k (snd (answered answer p s))) (fst (answered answer p s)).
Proof. revert s. induction p as [a|D f next IH|D c next IH]; intros s; cbn; [done|apply IH|apply IH]. Qed.
Lemma answered_reached {E S A} admitted other (answer : forall B, E B -> B) (p : Req E S A) s ps :
  rtc (req_step admitted other) (mkConfig s (ps ++ [p]))
    (mkConfig (fst (answered answer p s)) (ps ++ [Done (snd (answered answer p s))])).
Proof.
  revert s. induction p as [a|B f k IH|B c k IH]; intros s; cbn [answered]; [apply rtc_refl| |].
  - eapply rtc_l; [apply step_atom|]. apply IH.
  - eapply rtc_l; [apply step_answer|]. apply IH.
Qed.
Lemma served_alone {E S A} (admitted : Req E S A -> Prop) other (answer : forall B, E B -> B) p s ps :
  admitted p ->
  rtc (req_step admitted other) (mkConfig s ps)
    (mkConfig (fst (answered answer p s)) (ps ++ [Done (snd (answered answer p s))])).
Proof. intros Hp. eapply rtc_l; [by apply step_start|]. apply answered_reached. Qed.

(** What a request does alone, with a fixed answer to each call. *)
Fixpoint events {E S A} (answer : forall B, E B -> B) (p : Req E S A) (s : S) : list (RunEvent E S) :=
  match p with
  | Done _ => []
  | Atom f k => accessed s (fst (f s)) :: events answer (k (snd (f s))) (fst (f s))
  | Await c k => called c (answer _ c) :: events answer (k (answer _ c)) s
  end.
Lemma answered_traced {E S A} (others : S -> S -> Prop) (answer : forall B, E B -> B) (p : Req E S A) s :
  (forall x, others x x) ->
  traced others p s (events answer p s) (fst (answered answer p s)) (snd (answered answer p s)).
Proof. intros Hrefl. revert s. induction p as [a|B f k IH|B c k IH]; intros s; cbn; constructor; auto. Qed.

(** The first accesses and calls of a request, and what is left of it. *)
Fixpoint advanced {E S A} (answer : forall B, E B -> B) (n : nat) (p : Req E S A) (s : S) : S * Req E S A :=
  match n, p with
  | Datatypes.S n', Atom f k => advanced answer n' (k (snd (f s))) (fst (f s))
  | Datatypes.S n', Await c k => advanced answer n' (k (answer _ c)) s
  | _, _ => (s, p)
  end.
Lemma advanced_reached {E S A} (admitted : Req E S A -> Prop) other (answer : forall B, E B -> B) n p s ps :
  admitted p ->
  rtc (req_step admitted other) (mkConfig s ps) (mkConfig (fst (advanced answer n p s)) (ps ++ [snd (advanced answer n p s)])).
Proof.
  intros Hp. eapply rtc_l; [by apply step_start|]. clear Hp. revert p s.
  induction n as [|n IH]; intros p s; [apply rtc_refl|]. destruct p as [a|B f k|B c k]; cbn [advanced]; [apply rtc_refl| |].
  - eapply rtc_l; [apply step_atom|]. apply IH.
  - eapply rtc_l; [apply step_answer|]. apply IH.
Qed.

(** * Upholding an invariant *)

Section upholds.
Context {E : Type -> Type} {S : Type}.
(** What holds of every state, what a change may do, and which calls may go out. *)
Variable I : S -> Prop.
Variable T : S -> S -> Prop.
Variable C : forall B, E B -> Prop.

Fixpoint upholds {A} (Q : A -> Prop) (p : Req E S A) : Prop :=
  match p with
  | Done a => Q a
  | Atom f k => forall s, I s -> I (fst (f s)) /\ T s (fst (f s)) /\ upholds Q (k (snd (f s)))
  | Await c k => C _ c /\ forall b, upholds Q (k b)
  end.

Lemma upholds_weaken {A} (Q Q' : A -> Prop) p : (forall a, Q a -> Q' a) -> upholds Q p -> upholds Q' p.
Proof.
  intros HQ. induction p as [a|B f k IH|B c k IH]; cbn; [auto| |].
  - intros H s Hs. destruct (H s Hs) as (? & ? & ?). auto.
  - intros [? H]. auto.
Qed.

Lemma upholds_bind {A B} (Q : B -> Prop) (p : Req E S A) k :
  upholds (fun a => upholds Q (k a)) p -> upholds Q (req_bind p k).
Proof.
  induction p as [a|D f next IH|D c next IH]; cbn; [auto| |].
  - intros H s Hs. destruct (H s Hs) as (? & ? & ?). auto.
  - intros [? H]. auto.
Qed.

Lemma upholds_seq {A B} (R : A -> Prop) (Q : B -> Prop) (p : Req E S A) k :
  upholds R p -> (forall a, R a -> upholds Q (k a)) -> upholds Q (req_bind p k).
Proof. intros Hp Hk. apply upholds_bind. by eapply upholds_weaken. Qed.

Lemma upholds_try {X A B} (R : A -> Prop) (Q : result X B -> Prop) (p : Req E S (result X A)) k :
  upholds (fun r => match r with Ok a => R a | Err _ => True end) p ->
  (forall a, R a -> upholds Q (k a)) -> (forall e, Q (Err e)) -> upholds Q (req_try p k).
Proof. intros Hp Hk He. eapply upholds_seq; [exact Hp|]. intros [a|e]; cbn; auto. Qed.

Lemma upholds_query {B} (Q : B -> Prop) (g : S -> B) :
  (forall s, T s s) -> (forall s, I s -> Q (g s)) -> upholds Q (query g).
Proof. intros HT H s Hs. cbn. auto. Qed.

Lemma upholds_transaction {B} (Q : B -> Prop) (f : S -> S * B) :
  (forall s, I s -> I (fst (f s)) /\ T s (fst (f s)) /\ Q (snd (f s))) -> upholds Q (transaction f).
Proof. intros H s Hs. cbn. auto. Qed.

Lemma upholds_call {B} (Q : B -> Prop) (c : E B) : C _ c -> (forall b, Q b) -> upholds Q (call c).
Proof. intros Hc H. cbn. auto. Qed.

(** The next call of a request that waits on one. *)
Definition calls_permitted {A} (p : Req E S A) : Prop :=
  match p with Await c _ => C _ c | _ => True end.
End upholds.

(** What every request upholds holds of every reachable state, of every change
    between two of them, and of every call a request waits on. *)
Theorem requests_uphold {E S A} (I : S -> Prop) (T : S -> S -> Prop) (C : forall B, E B -> Prop)
    (admitted : Req E S A -> Prop) (other : S -> S -> Prop) (s0 : S) (c c' : Config E S A)
  (Hstart : forall p, admitted p -> upholds I T C (fun _ => True) p)
  (Hother : forall s s', other s s' -> I s -> I s' /\ T s s')
  (Hrefl : forall s, T s s) (Htrans : forall a b c, T a b -> T b c -> T a c)
  (H0 : I s0) (Hreach : rtc (req_step admitted other) (mkConfig s0 []) c)
  (Hlater : rtc (req_step admitted other) c c') :
  I (cfg_state c) /\ T (cfg_state c) (cfg_state c') /\ Forall (calls_permitted C) (cfg_running c).
Proof.
  set (ok (c : Config E S A) := I (cfg_state c) /\ Forall (upholds I T C (fun _ : A => True)) (cfg_running c)).
  assert (Hinv : forall a b, rtc (req_step admitted other) a b -> ok a -> ok b /\ T (cfg_state a) (cfg_state b)).
  { intros a b Hr. induction Hr as [a|a m b Hs _ IH]; [auto|]. intros [Hi Hp].
    assert (ok m /\ T (cfg_state a) (cfg_state m)) as [Hm Ht]; [|destruct (IH Hm); split; [done|eauto]].
    destruct Hs; cbn [cfg_state cfg_running] in *; unfold ok; cbn [cfg_state cfg_running].
    - split_and!; [done| |done]. apply Forall_app. split; [done|]. constructor; [auto|constructor].
    - apply Forall_app in Hp as [H1 H2]. inversion H2 as [|? ? Hh Ht2]; subst. destruct (Hh _ Hi) as (? & ? & ?).
      split_and!; [done| |done]. apply Forall_app. split; [done|]. by constructor.
    - apply Forall_app in Hp as [H1 H2]. inversion H2 as [|? ? Hh Ht2]; subst.
      split_and!; [done| |done]. apply Forall_app. split; [done|]. constructor; [apply Hh|done].
    - apply Forall_app in Hp as [H1 H2]. inversion H2; subst. split_and!; [done| |done]. by apply Forall_app.
    - destruct (Hother _ _ H Hi). by split_and!. }
  destruct (Hinv _ _ Hreach) as [Hok _]; [by split|]. destruct (Hinv _ _ Hlater Hok) as [_ ?].
  destruct Hok as [Hi Hp]. split_and!; [done|done|].
  eapply Forall_impl; [exact Hp|]. intros [a|B f k|B e k] Hq; cbn in *; naive_solver.
Qed.
