(* ===== verification/Interference.v ===== *)
(** Requests that rely on one another: the rely/guarantee reading of [Requests].

    A pool numbers its requests as they start. A request secures an outcome from a
    state it has seen when it reaches it whatever the others do that it relies on,
    and when each of its own accesses does only what it guarantees. In a pool where
    the guarantee of each request is what the others rely on, every access of every
    request is one its request guarantees. *)
From stdpp Require Import base list relations.
From Stdlib Require Import Lia.
From S2P Require Import Prelude Requests.

(** * Securing an outcome *)

Section secures.
Context {E : Type -> Type} {S : Type}.
(** What holds of every state, what others do between two accesses, and what an
    access does. *)
Variable I : S -> Prop.
Variable R : S -> S -> Prop.
Variable G : S -> S -> Prop.

(** [s] is the state the request last saw. *)
Fixpoint secures {A} (Q : S -> A -> Prop) (s : S) (p : Req E S A) : Prop :=
  match p with
  | Done a => Q s a
  | Atom f k => forall s1, I s1 -> R s s1 ->
      I (fst (f s1)) /\ G s1 (fst (f s1)) /\ secures Q (fst (f s1)) (k (snd (f s1)))
  | Await c k => forall b, secures Q s (k b)
  end.

Lemma secures_weaken {A} (Q Q' : S -> A -> Prop) p s :
  (forall s' a, Q s' a -> Q' s' a) -> secures Q s p -> secures Q' s p.
Proof.
  intros HQ. revert s. induction p as [a|B f k IH|B c k IH]; intros s; cbn; [auto| |].
  - intros H s1 Hi Hr. destruct (H s1 Hi Hr) as (? & ? & ?). auto.
  - intros H b. auto.
Qed.

Lemma secures_bind {A B} (Q : S -> B -> Prop) (p : Req E S A) k s :
  secures (fun s' a => secures Q s' (k a)) s p -> secures Q s (req_bind p k).
Proof.
  revert s. induction p as [a|D f next IH|D c next IH]; intros s; cbn; [auto| |].
  - intros H s1 Hi Hr. destruct (H s1 Hi Hr) as (? & ? & ?). auto.
  - intros H b. auto.
Qed.

Lemma secures_seq {A B} (P : S -> A -> Prop) (Q : S -> B -> Prop) (p : Req E S A) k s :
  secures P s p -> (forall s' a, P s' a -> secures Q s' (k a)) -> secures Q s (req_bind p k).
Proof. intros Hp Hk. apply secures_bind. by eapply secures_weaken. Qed.

Lemma secures_try {X A B} (P : S -> A -> Prop) (Q : S -> result X B -> Prop) (p : Req E S (result X A)) k s :
  secures (fun s' r => match r with Ok a => P s' a | Err e => Q s' (Err e) end) s p ->
  (forall s' a, P s' a -> secures Q s' (k a)) -> secures Q s (req_try p k).
Proof. intros Hp Hk. eapply secures_seq; [exact Hp|]. intros s' [a|e]; cbn; auto. Qed.

Lemma secures_transaction {B} (Q : S -> B -> Prop) (f : S -> S * B) s :
  (forall s1, I s1 -> R s s1 -> I (fst (f s1)) /\ G s1 (fst (f s1)) /\ Q (fst (f s1)) (snd (f s1))) ->
  secures Q s (transaction f).
Proof. intros H s1 Hi Hr. cbn. auto. Qed.

(** Reading keeps the state, and the access is one the request guarantees when
    doing nothing is. *)
Lemma secures_query {B} (Q : S -> B -> Prop) (g : S -> B) s :
  (forall s1, G s1 s1) -> (forall s1, I s1 -> R s s1 -> Q s1 (g s1)) -> secures Q s (query g).
Proof. intros HG H s1 Hi Hr. cbn. auto. Qed.

Lemma secures_call {B} (Q : S -> B -> Prop) (c : E B) s : (forall b, Q s b) -> secures Q s (call c).
Proof. intros H b. cbn. auto. Qed.

(** What a request has secured it has secured from any later state. *)
Lemma secures_later {A} (Q : S -> A -> Prop) p s s' :
  (forall a b c, R a b -> R b c -> R a c) -> (forall a b x, R a b -> Q a x -> Q b x) ->
  R s s' -> secures Q s p -> secures Q s' p.
Proof.
  intros Ht HQ Hr. induction p as [a|B f k IH|B c k IH]; cbn; [eauto| |].
  - intros H s1 Hi Hr1. apply (H s1 Hi). eauto.
  - intros H b. auto.
Qed.
End secures.

(** A request that keeps what holds before it, when the others keep it. *)
Lemma secures_holding {E S A} (I K : S -> Prop) (R G : S -> S -> Prop) (Q : S -> A -> Prop) (p : Req E S A) s :
  K s -> secures (fun x => I x /\ K x) R G Q s p ->
  secures I (fun x y => R x y /\ (K x -> K y)) G (fun s' a => K s' /\ Q s' a) s p.
Proof.
  revert s. induction p as [a|B f k IH|B c k IH]; intros s Hk; cbn; [by split| |by auto].
  intros H s1 Hi [Hr Hkeep]. destruct (H s1 (conj Hi (Hkeep Hk)) Hr) as ([? ?] & ? & ?). auto.
Qed.

(** * Pools *)

Section pool.
Context {E : Type -> Type} {S A : Type}.
Variable admitted : nat -> Req E S A -> Prop.
Variable other : S -> S -> Prop.

Record Pool : Type := mkPool {
  pl_state : S;
  pl_next : nat;
  pl_running : list (nat * Req E S A);
}.

Inductive pool_step : Pool -> Pool -> Prop :=
| pool_start s n ps p : admitted n p -> pool_step (mkPool s n ps) (mkPool s (Datatypes.S n) (ps ++ [(n, p)]))
| pool_atom s n ps1 ps2 r B (f : S -> S * B) k :
    pool_step (mkPool s n (ps1 ++ (r, Atom f k) :: ps2)) (mkPool (fst (f s)) n (ps1 ++ (r, k (snd (f s))) :: ps2))
| pool_answer s n ps1 ps2 r B (c : E B) (k : B -> Req E S A) b :
    pool_step (mkPool s n (ps1 ++ (r, Await c k) :: ps2)) (mkPool s n (ps1 ++ (r, k b) :: ps2))
| pool_gone s n ps1 ps2 rp : pool_step (mkPool s n (ps1 ++ rp :: ps2)) (mkPool s n (ps1 ++ ps2))
| pool_others s s' n ps : other s s' -> pool_step (mkPool s n ps) (mkPool s' n ps).

Variable I : S -> Prop.
Variable R G : nat -> S -> S -> Prop.
(** What a request that has not started yet may count on. *)
Variable fresh : nat -> S -> Prop.

Record compatible : Prop := mk_compatible {
  rely_refl : forall r s, R r s s;
  rely_trans : forall r a b c, R r a b -> R r b c -> R r a c;
  rely_fresh : forall r s s', R r s s' -> fresh r s -> fresh r s';
  guarantee_relied_on : forall r r' s s', r <> r' -> I s -> G r s s' -> R r' s s';
  others_relied_on : forall s s', other s s' -> I s -> I s' /\ forall r, R r s s';
  admitted_secures : forall r p s, admitted r p -> I s -> fresh r s -> secures I (R r) (G r) (fun _ _ => True) s p;
}.

Definition running_ok (s : S) (rp : nat * Req E S A) : Prop :=
  secures I (R (fst rp)) (G (fst rp)) (fun _ _ => True) s (snd rp).
Record pool_ok (c : Pool) : Prop := mk_pool_ok {
  ok_state : I (pl_state c);
  ok_distinct : NoDup (map fst (pl_running c));
  ok_started : Forall (fun rp => fst rp < pl_next c)%nat (pl_running c);
  ok_fresh : forall r, (pl_next c <= r)%nat -> fresh r (pl_state c);
  ok_running : Forall (running_ok (pl_state c)) (pl_running c);
}.

(** What changes the state in one step. *)
Definition permitted_change (s s' : S) : Prop := s' = s \/ other s s' \/ exists r, G r s s'.

Hypothesis Hc : compatible.

Lemma running_later s s' ps :
  Forall (fun rp => R (fst rp) s s') ps -> Forall (running_ok s) ps -> Forall (running_ok s') ps.
Proof.
  intros Hr Hp. rewrite Forall_forall in Hr, Hp |- *. intros [r p] Hin. eapply secures_later; [..|by apply (Hp _ Hin)].
  - intros a b c. apply (rely_trans Hc).
  - done.
  - by apply (Hr _ Hin).
Qed.

Lemma pool_step_ok c c' : pool_step c c' -> pool_ok c -> pool_ok c' /\ permitted_change (pl_state c) (pl_state c').
Proof.
  intros Hs [Hi Hd Hl Hf Hp]. destruct Hs as [s n ps p Ha|s n ps1 ps2 r B f k|s n ps1 ps2 r B e k b|s n ps1 ps2 rp|s s' n ps Ho];
    cbn [pl_state pl_next pl_running] in *.
  - split; [split; cbn|by left]; try done.
    + rewrite map_app. apply NoDup_app. split_and!; [done| |constructor; [by intros ?%elem_of_nil|constructor]]. intros x Hx ->%list_elem_of_singleton. cbn in Hx.
      apply list_elem_of_fmap in Hx as (y & -> & Hy). rewrite Forall_forall in Hl. specialize (Hl _ Hy). cbn in Hl. lia.
    + apply Forall_app. split; [|by repeat constructor]. eapply Forall_impl; [exact Hl|]. cbn. lia.
    + intros r Hr. apply Hf. lia.
    + apply Forall_app. split; [done|]. repeat constructor. apply (admitted_secures Hc); auto.
  - apply Forall_app in Hp as [H1 [H0 H2]%Forall_cons]. destruct (H0 s Hi (rely_refl Hc r s)) as (Hi' & Hg & Hk).
    assert (Hrely : forall r', r' <> r -> R r' s (fst (f s))).
    { intros r' Hr'. apply (guarantee_relied_on Hc) with r; auto. }
    rewrite map_app in Hd. cbn [map fst] in Hd. pose proof Hd as Hd0. apply NoDup_app in Hd as (_ & Hn1 & [Hn2 _]%NoDup_cons).
    assert (Hrn : (r < n)%nat) by (apply Forall_app in Hl as [_ [? _]%Forall_cons]; done).
    split; [split; cbn|right; right; eauto]; try done.
    + by rewrite map_app.
    + apply Forall_app in Hl as [? [? ?]%Forall_cons]. apply Forall_app. split; [done|]. by constructor.
    + intros r' Hr'. apply (rely_fresh Hc r' s); [apply Hrely; lia|auto].
    + apply Forall_app. split; [|constructor; [done|]]; eapply running_later; try done;
        apply Forall_forall; intros [r2 p2] Hin; apply Hrely; cbn; intros ->.
      * apply (Hn1 r); [apply list_elem_of_fmap; by exists (r, p2)|by left].
      * apply Hn2, list_elem_of_fmap. by exists (r, p2).
  - apply Forall_app in Hp as [H1 [H0 H2]%Forall_cons]. apply Forall_app in Hl as [? [? ?]%Forall_cons].
    rewrite map_app in Hd. split; [split; cbn|by left]; try done.
    + by rewrite map_app.
    + apply Forall_app. split; [done|]. by constructor.
    + apply Forall_app. split; [done|]. constructor; [apply H0|done].
  - apply Forall_app in Hp as [H1 [H0 H2]%Forall_cons]. apply Forall_app in Hl as [? [? ?]%Forall_cons].
    split; [split; cbn|by left]; try done; [|by apply Forall_app..].
    rewrite map_app in Hd |- *. cbn [map] in Hd. eapply sublist_NoDup; [exact Hd|]. apply sublist_app; [done|]. by apply sublist_cons.
  - destruct (others_relied_on Hc _ _ Ho Hi) as [Hi' Hr]. split; [split; cbn|right; by left]; try done.
    + intros r Hn. apply (rely_fresh Hc r s); auto.
    + eapply running_later; [|done]. apply Forall_forall. auto.
Qed.

(** Every state a pool reaches satisfies the invariant, and every step from it is
    one its request guarantees or one of the others. *)
Theorem pool_secures s0 n0 c c'
  (H0 : I s0) (Hfresh : forall r, (n0 <= r)%nat -> fresh r s0)
  (Hreach : rtc pool_step (mkPool s0 n0 []) c) (Hstep : pool_step c c') :
  I (pl_state c) /\ I (pl_state c') /\ permitted_change (pl_state c) (pl_state c').
Proof.
  assert (Hok : pool_ok c).
  { remember (mkPool s0 n0 []) as c0 eqn:Ec. assert (pool_ok c0) as Hok0.
    { subst. split; cbn; try done. constructor. }
    clear Ec Hstep. induction Hreach as [|a b d Hab _ IH]; [done|]. apply IH. by eapply pool_step_ok. }
  destruct (pool_step_ok _ _ Hstep Hok) as [[? ? ? ? ?] ?]. by destruct Hok.
Qed.
End pool.
Arguments Pool E S A : clear implicits.

(** One request of a pool that runs alone from here, with a fixed answer to each
    call. *)
Lemma pool_alone {E S A} (admitted : nat -> Req E S A -> Prop) other (answer : forall B, E B -> B) n p s k ps :
  admitted k p ->
  rtc (pool_step admitted other) (mkPool s k ps)
    (mkPool (fst (advanced answer n p s)) (Datatypes.S k) (ps ++ [(k, snd (advanced answer n p s))])).
Proof.
  intros Hp. eapply rtc_l; [by apply pool_start|]. clear Hp. revert p s.
  induction n as [|n IH]; intros p s; [apply rtc_refl|]. destruct p as [a|B f next|B c next]; cbn [advanced]; [apply rtc_refl| |].
  - eapply rtc_l; [apply pool_atom|]. apply IH.
  - eapply rtc_l; [apply pool_answer|]. apply IH.
Qed.

(** The access it is at is the next step of the pool. *)
Definition at_access {E : Type -> Type} {S A : Type} (p : Req E S A) : bool := match p with Atom _ _ => true | _ => false end.
Lemma advanced_next {E S A} (answer : forall B, E B -> B) n (p : Req E S A) s :
  advanced answer (Datatypes.S n) p s = advanced answer 1 (snd (advanced answer n p s)) (fst (advanced answer n p s)).
Proof.
  revert p s. induction n as [|n IH]; intros p s; [done|]. destruct p as [a|B f k|B c k]; [done| |];
    cbn [advanced] in *; apply IH.
Qed.
Lemma pool_next {E S A} (admitted : nat -> Req E S A -> Prop) other (answer : forall B, E B -> B) n p s k ps :
  at_access (snd (advanced answer n p s)) = true ->
  pool_step admitted other
    (mkPool (fst (advanced answer n p s)) k (ps ++ [(k - 1, snd (advanced answer n p s))%nat]))
    (mkPool (fst (advanced answer (Datatypes.S n) p s)) k (ps ++ [(k - 1, snd (advanced answer (Datatypes.S n) p s))%nat])).
Proof.
  rewrite advanced_next. destruct (advanced answer n p s) as [s1 [a|B f next|B c next]]; cbn; [done| |done]. intros _. apply pool_atom.
Qed.

(** * One run among others *)

(** A run of a request that secures an outcome reaches it, when the others do what the
    request relies on. *)
Lemma runs_secures {E S A} (I : S -> Prop) (R G others : S -> S -> Prop) (Q : S -> A -> Prop) (p : Req E S A) s calls s' a :
  (forall x y, others x y -> I x -> I y /\ R x y) -> I s -> secures I R G Q s p -> runs others p s calls s' a -> I s' /\ Q s' a.
Proof.
  intros Ho. revert s calls. induction p as [x|B f k IH|B c k IH]; intros s calls Hi Hp H; apply runs_inv in H; cbn in Hp.
  - destruct H as (_ & -> & ->). by split.
  - destruct H as (s1 & Hs & H). destruct (Ho _ _ Hs Hi) as [Hi1 Hr]. destruct (Hp s1 Hi1 Hr) as (Hi2 & _ & Hk). eauto.
  - destruct H as (b & rest & _ & H). eapply IH; eauto.
Qed.
Lemma runs_try {E S X A B} (others : S -> S -> Prop) (p : Req E S (result X A)) (k : A -> Req E S (result X B)) s calls s' r :
  runs others (req_try p k) s calls s' r ->
  (exists e, r = Err e /\ runs others p s calls s' (Err e)) \/
  (exists calls1 calls2 s1 a, calls = calls1 ++ calls2 /\ runs others p s calls1 s1 (Ok a) /\ runs others (k a) s1 calls2 s' r).
Proof.
  intros H. apply runs_bind in H as (c1 & c2 & s1 & [a|e] & -> & H1 & H2); [right; eauto 10|].
  left. apply runs_inv in H2 as (-> & -> & ->). rewrite app_nil_r. eauto.
Qed.

(** A request alone, with a fixed answer to each call, is one run of it. *)
Fixpoint trace {E S A} (answer : forall B, E B -> B) (p : Req E S A) (s : S) : list {B : Type & (E B * B)%type} :=
  match p with
  | Done _ => []
  | Atom f k => trace answer (k (snd (f s))) (fst (f s))
  | Await c k => existT _ (c, answer _ c) :: trace answer (k (answer _ c)) s
  end.
Lemma answered_runs {E S A} (others : S -> S -> Prop) (answer : forall B, E B -> B) (p : Req E S A) s :
  (forall x, others x x) -> runs others p s (trace answer p s) (fst (answered answer p s)) (snd (answered answer p s)).
Proof.
  intros Hrefl. revert s. induction p as [a|B f k IH|B c k IH]; intros s; cbn.
  - constructor.
  - eapply runs_atom; [apply Hrefl|]. apply IH.
  - apply runs_await. apply IH.
Qed.
