(* ===== verification/RegistryChunks.v ===== *)
(** Content-addressed image objects (control-plane/image-registry/chunks.ts and
    the digests of shared.ts): chunks, the manifests that order them into an
    image, their upload and their download by an agent. A request is a program whose
    accesses to the bucket are single operations, so that other requests come between
    its reads and its write. *)
From stdpp Require Import base list strings sorting pretty.
From Stdlib Require Import ZArith Lia.
From S2P Require Import Prelude Json Text RunState Bridge Tar RegistryKeys Requests.

Open Scope string_scope.
Open Scope list_scope.
Open Scope Z_scope.
Open Scope req_scope.

(** * The platform

    [crypto.subtle.digest("SHA-256", ...)] belongs to the engine: it yields 32
    bytes. [decodeJson] is [JSON.parse] of a body decoded as UTF-8. *)
Class Sha256 : Type := {
  digest : list Z -> list Z;
  digest_length : forall bytes, length (digest bytes) = 32%nat;
  digest_bytes : forall bytes, Forall byte_ok (digest bytes);
}.
Class JsonText : Type := { decodeJson : list Z -> option json }.

(** [byte.toString(16).padStart(2, "0")]. *)
Definition hexByte (b : Z) : string :=
  String (hex_digit (Z.to_N (b / 16))) (String (hex_digit (Z.to_N (b mod 16))) "").
Fixpoint hexOf (bytes : list Z) : string :=
  match bytes with [] => "" | b :: rest => hexByte b +:+ hexOf rest end.
Definition sha256Hex `{Sha256} (value : list Z) : string := hexOf (digest value).

Definition normalizeSha256 (value : string) : option string :=
  let normalized := toLowerCase (trim value) in
  if SHA256_RE normalized then Some normalized else None.

(** [Number.parseInt(value.slice(2 * i, 2 * i + 2), 16)] of a digest's 32 pairs. *)
Definition hexValue (c : Ascii.ascii) : Z :=
  let n := Ascii.N_of_ascii c in
  if in_range 48 57 n then Z.of_N n - 48
  else if in_range 97 102 n then Z.of_N n - 87
  else if in_range 65 70 n then Z.of_N n - 55 else 0.
Fixpoint hexToBytes (value : string) : list Z :=
  match value with
  | String a (String b rest) => (16 * hexValue a + hexValue b) :: hexToBytes rest
  | _ => []
  end.

(** * [Number] of a text

    The value of the double a text denotes when that is integral; [None] is NaN,
    a fraction or an infinity. *)
Fixpoint split_at (p : Ascii.ascii -> bool) (s : string) : string * option string :=
  match s with
  | EmptyString => ("", None)
  | String c s' => if p c then ("", Some s') else let '(a, b) := split_at p s' in (String c a, b)
  end.
Definition is_unit (n : nat) (c : Ascii.ascii) : bool := Ascii.eqb c (Ascii.ascii_of_nat n).

Definition signed (s : string) : bool * string :=
  match s with
  | String c s' => if is_unit 45 c then (true, s') else if is_unit 43 c then (false, s') else (false, s)
  | EmptyString => (false, "")
  end.
Definition apply_sign (negative : bool) (z : Z) : Z := if negative then - z else z.
Definition some_digits (s : string) : option Z := if truthy s then digits_value 0 s else None.

(** Mantissa and power of ten of a decimal literal. *)
Definition decimal_literal (s : string) : option (Z * Z) :=
  let '(mantissa, exponent) := split_at (fun c => is_unit 101 c || is_unit 69 c) s in
  let '(whole, fraction) := split_at (is_unit 46) mantissa in
  let fraction := nullish fraction "" in
  m ← some_digits (whole +:+ fraction);
  e ← match exponent with
      | None => Some 0
      | Some t => let '(neg, digits) := signed t in apply_sign neg <$> some_digits digits
      end;
  Some (m, e - slen fraction).

Fixpoint radix_value (base acc : Z) (s : string) : option Z :=
  match s with
  | EmptyString => Some acc
  | String c s' =>
      let n := Ascii.N_of_ascii c in
      if (in_range 48 57 n || in_range 97 102 n || in_range 65 70 n) && (hexValue c <? base)
      then radix_value base (base * acc + hexValue c) s' else None
  end.
Definition radix_of (c : Ascii.ascii) : option Z :=
  if is_unit 120 c || is_unit 88 c then Some 16
  else if is_unit 111 c || is_unit 79 c then Some 8
  else if is_unit 98 c || is_unit 66 c then Some 2 else None.

(** The double nearest to [n / d] (ties to even), when it is integral. *)
Definition ratio_exponent (n d : Z) : Z :=
  let e := Z.log2 n - Z.log2 d in
  if d * 2 ^ Z.max e 0 <=? n * 2 ^ Z.max (- e) 0 then e else e - 1.
Definition integral_double (n d : Z) : option Z :=
  if n =? 0 then Some 0
  else
    let k := 52 - Z.max (ratio_exponent n d) (-1022) in
    if 0 <=? k then
      let m := round_half_even (n * 2 ^ k) d / d in
      if m mod 2 ^ k =? 0 then Some (m / 2 ^ k) else None
    else
      let m := round_half_even n (d * 2 ^ (- k)) / d in
      if m <? 2 ^ 1024 then Some m else None.

Definition Number_integer (text : string) : option Z :=
  let s := trim text in
  match s with
  | EmptyString => Some 0
  | String z (String r ((String _ _) as digits)) =>
      match (if is_unit 48 z then radix_of r else None) with
      | Some base => n ← radix_value base 0 digits; integral_double n 1
      | None =>
          let '(neg, body) := signed s in
          '(m, e) ← decimal_literal body;
          apply_sign neg <$> integral_double (m * 10 ^ Z.max e 0) (10 ^ Z.max (- e) 0)
      end
  | _ =>
      let '(neg, body) := signed s in
      '(m, e) ← decimal_literal body;
      apply_sign neg <$> integral_double (m * 10 ^ Z.max e 0) (10 ^ Z.max (- e) 0)
  end.

(** * Constants *)

Definition CHUNK_SIZE_BYTES : Z := 4 * 1024 * 1024.
Definition MAX_ENCODED_CHUNK_BYTES : Z := CHUNK_SIZE_BYTES * 2.
Definition MAX_IMAGE_BYTES : Z := 64 * 1024 * 1024 * 1024.
Definition MAX_EXISTS_HASHES : nat := 512.
Definition MAX_MANIFEST_BYTES : Z := 4 * 1024 * 1024.
Definition IMAGE_CHUNK_ENCODING : string := "zstd-v1-level-6".
Definition FULL_ZERO_CHUNK_SHA256 : string :=
  "bb9f8df61474d25e71fa00722318cd387396ca1736605e1248821cc0de3d3af8".

(** * Manifests *)

Record ImageChunk : Type := mkChunk {
  ch_index : Z;
  ch_raw_size_bytes : Z;
  ch_raw_sha256 : string;
  ch_encoded_size_bytes : Z;
  ch_encoded_sha256 : string;
}.
#[export] Instance ImageChunk_eq_dec : EqDecision ImageChunk.
Proof. solve_decision. Defined.
(** [schema_version], [chunk_size_bytes] and [encoding] are constants. *)
Record ImageChunkManifest : Type := mkChunkManifest {
  cm_image_id : string;
  cm_virtual_size_bytes : Z;
  cm_chunks : list ImageChunk;
}.

Definition chunkCountOf (virtualSizeBytes : Z) : Z :=
  (virtualSizeBytes + CHUNK_SIZE_BYTES - 1) / CHUNK_SIZE_BYTES.
Definition finalChunkSizeOf (virtualSizeBytes : Z) : Z :=
  let r := virtualSizeBytes mod CHUNK_SIZE_BYTES in if r =? 0 then CHUNK_SIZE_BYTES else r.
Definition finalZeroSha256Of `{Sha256} (virtualSizeBytes : Z) : string :=
  if finalChunkSizeOf virtualSizeBytes =? CHUNK_SIZE_BYTES then FULL_ZERO_CHUNK_SHA256
  else sha256Hex (replicate (Z.to_nat (finalChunkSizeOf virtualSizeBytes)) 0).

(** [setUint32] and [setBigUint64], little endian. *)
Fixpoint littleEndian (n : nat) (v : Z) : list Z :=
  match n with O => [] | S n' => v mod 256 :: littleEndian n' (v / 256) end.

Section manifests.
Context `{Sha256}.

(** The digest of position [index]: the descriptor's, or a hole's. *)
Definition zeroSha256At (virtualSizeBytes : Z) (finalZeroSha256 : string) (index : Z) : string :=
  if index =? chunkCountOf virtualSizeBytes - 1 then finalZeroSha256 else FULL_ZERO_CHUNK_SHA256.
Definition rawSizeAt (virtualSizeBytes index : Z) : Z :=
  if index =? chunkCountOf virtualSizeBytes - 1 then virtualSizeBytes - index * CHUNK_SIZE_BYTES
  else CHUNK_SIZE_BYTES.
Fixpoint orderedDigests (zeroAt : Z -> string) (indices : list Z) (chunks : list ImageChunk) : list string :=
  match indices with
  | [] => []
  | index :: rest =>
      match chunks with
      | c :: chunks' =>
          if ch_index c =? index then ch_raw_sha256 c :: orderedDigests zeroAt rest chunks'
          else zeroAt index :: orderedDigests zeroAt rest chunks
      | [] => zeroAt index :: orderedDigests zeroAt rest []
      end
  end.
Definition indicesOf (virtualSizeBytes : Z) : list Z :=
  map Z.of_nat (seq 0 (Z.to_nat (chunkCountOf virtualSizeBytes))).
Definition chunkRecord (virtualSizeBytes : Z) (entry : Z * string) : list Z :=
  littleEndian 4 (fst entry) ++ littleEndian 4 (rawSizeAt virtualSizeBytes (fst entry))
  ++ hexToBytes (snd entry).
Definition imageIdDomain : list Z := codes "intar-raw-chunks-v1" ++ [0].
Definition imageIdBytes (virtualSizeBytes : Z) (digests : list string) : list Z :=
  imageIdDomain ++ littleEndian 8 virtualSizeBytes ++ littleEndian 4 CHUNK_SIZE_BYTES
  ++ concat (map (chunkRecord virtualSizeBytes) (zip (indicesOf virtualSizeBytes) digests)).
Definition manifestDigests (virtualSizeBytes : Z) (finalZeroSha256 : string) (chunks : list ImageChunk)
  : list string :=
  orderedDigests (zeroSha256At virtualSizeBytes finalZeroSha256) (indicesOf virtualSizeBytes) chunks.
Definition computeImageId (manifest : ImageChunkManifest) (finalZeroSha256 : string) : string :=
  sha256Hex (imageIdBytes (cm_virtual_size_bytes manifest)
    (manifestDigests (cm_virtual_size_bytes manifest) finalZeroSha256 (cm_chunks manifest))).

Definition safeNumber (v : option json) : option Z :=
  match v with Some (JNum (NInt z)) => if safe_integer z then Some z else None | _ => None end.
Definition isJsonNumber (n : Z) (v : option json) : bool :=
  match v with Some (JNum (NInt z)) => z =? n | _ => false end.
Definition readSha256 (v : option json) : option string := normalizeSha256 (nullish (readString v) "").

(** One entry of [chunks], after an entry at [previous]. *)
Definition readChunk (virtualSizeBytes : Z) (finalZeroSha256 : string) (previous : Z) (raw : json)
  : result string ImageChunk :=
  let chunkCount := chunkCountOf virtualSizeBytes in
  throw_if negb (isRecord (Some raw)) with "invalid image chunk entry";
  match readSha256 (field raw "raw_sha256"), readSha256 (field raw "encoded_sha256"),
        safeNumber (field raw "index"), safeNumber (field raw "raw_size_bytes"),
        safeNumber (field raw "encoded_size_bytes") with
  | Some rawSha, Some encodedSha, Some index, Some rawSize, Some encodedSize =>
      throw_if (index <=? previous) || (chunkCount <=? index)
               || negb (rawSize =? (if index =? chunkCount - 1 then finalChunkSizeOf virtualSizeBytes
                                    else CHUNK_SIZE_BYTES))
               || (encodedSize <=? 0) || (MAX_ENCODED_CHUNK_BYTES <? encodedSize)
        with "invalid image chunk entry";
      throw_if rawSha =s zeroSha256At virtualSizeBytes finalZeroSha256 index
        with "zero chunks must be represented as sparse holes";
      Ok (mkChunk index rawSize rawSha encodedSize encodedSha)
  | _, _, _, _, _ => Err "invalid image chunk entry"
  end.
Fixpoint readChunks (virtualSizeBytes : Z) (finalZeroSha256 : string) (previous : Z) (raws : list json)
  : result string (list ImageChunk) :=
  match raws with
  | [] => Ok []
  | raw :: rest =>
      c <-? readChunk virtualSizeBytes finalZeroSha256 previous raw;
      cs <-? readChunks virtualSizeBytes finalZeroSha256 (ch_index c) rest;
      Ok (c :: cs)
  end.

Definition validateImageChunkManifest (value : json) : result string ImageChunkManifest :=
  throw_if negb (isRecord (Some value)) with "manifest must be an object";
  match isJsonNumber 1 (field value "schema_version") && isJsonNumber CHUNK_SIZE_BYTES (field value "chunk_size_bytes")
        && bool_decide (field value "encoding" = Some (JStr IMAGE_CHUNK_ENCODING)),
        safeNumber (field value "virtual_size_bytes"), readSha256 (field value "image_id"),
        field value "chunks" with
  | true, Some size, Some imageId, Some (JArr raws) =>
      throw_if (size <=? 0) || (MAX_IMAGE_BYTES <? size) with "invalid image manifest header";
      let finalZero := finalZeroSha256Of size in
      chunks <-? readChunks size finalZero (-1) raws;
      let manifest := mkChunkManifest imageId size chunks in
      throw_if negb (computeImageId manifest finalZero =s imageId)
        with "image_id does not match ordered raw chunks";
      Ok manifest
  | _, _, _, _ => Err "invalid image manifest header"
  end.

(** The manifest of a list of digests from position 0. *)
Definition canonicalChunk (virtualSizeBytes : Z) (position : nat) (rawSha256 : string) : ImageChunk :=
  mkChunk (Z.of_nat position)
    (if Z.of_nat position =? chunkCountOf virtualSizeBytes - 1 then finalChunkSizeOf virtualSizeBytes
     else CHUNK_SIZE_BYTES)
    rawSha256 1 rawSha256.
Definition canonicalImageChunkManifest (virtualSizeBytes : Z) (chunkRawSha256s : list string)
  : ImageChunkManifest :=
  let chunks := imap (canonicalChunk virtualSizeBytes) chunkRawSha256s in
  mkChunkManifest
    (computeImageId (mkChunkManifest "" virtualSizeBytes chunks) (finalZeroSha256Of virtualSizeBytes))
    virtualSizeBytes chunks.
(** The document of a manifest. *)
Definition encodeChunk (c : ImageChunk) : json :=
  JObj [("index", JNum (NInt (ch_index c))); ("raw_size_bytes", JNum (NInt (ch_raw_size_bytes c)));
        ("raw_sha256", JStr (ch_raw_sha256 c)); ("encoded_size_bytes", JNum (NInt (ch_encoded_size_bytes c)));
        ("encoded_sha256", JStr (ch_encoded_sha256 c))].
Definition encodeChunkManifest (m : ImageChunkManifest) : json :=
  JObj [("schema_version", JNum (NInt 1)); ("image_id", JStr (cm_image_id m));
        ("virtual_size_bytes", JNum (NInt (cm_virtual_size_bytes m)));
        ("chunk_size_bytes", JNum (NInt CHUNK_SIZE_BYTES)); ("encoding", JStr IMAGE_CHUNK_ENCODING);
        ("chunks", JArr (map encodeChunk (cm_chunks m)))].
End manifests.

(** * The bucket *)

Record R2Object : Type := mkObject {
  ro_body : list Z;
  ro_customMetadata : list (string * string);
}.
Definition ro_size (o : R2Object) : Z := Z.of_nat (length (ro_body o)).
Definition Bucket : Type := list (string * R2Object).
Definition bucket_head (key : string) (b : Bucket) : option R2Object := Map_get key b.
Definition bucket_put (key : string) (o : R2Object) (b : Bucket) : Bucket := Map_set key o b.
Definition bucket_delete (keys : list string) (b : list (string * R2Object)) : list (string * R2Object) :=
  filter (fun e => str_mem (fst e) keys = false) b.
Definition meta (o : R2Object) (k : string) : option string := Map_get k (ro_customMetadata o).

Record HttpResponse : Type := mkResponse {
  rs_status : Z;
  rs_body : json;
}.
Definition errorResponse (message : string) (status : Z) : HttpResponse :=
  mkResponse status (JObj [("error", JStr message)]).
Definition storedResponse (objectKey : string) (alreadyExists : bool) : HttpResponse :=
  mkResponse (if alreadyExists then 200 else 201)
    (JObj [("ok", JBool true); ("object_key", JStr objectKey); ("already_exists", JBool alreadyExists)]).

(** A size in the metadata of an object: [Number(undefined)] is NaN. *)
Definition metaSize (o : R2Object) (k : string) : option Z :=
  n ← meta o k ≫= Number_integer; if safe_integer n && (0 <? n) then Some n else None.
(** What a stored chunk says of itself, when it says all of it. *)
Definition chunkObjectDescriptor (object : option R2Object) (rawSha256 : string)
  : option (string * Z * string * Z) :=
  match object with
  | None => None
  | Some o =>
      match normalizeSha256 (nullish (meta o "encoded_sha256") ""), metaSize o "raw_size_bytes",
            metaSize o "encoded_size_bytes" with
      | Some encodedSha, Some rawSize, Some encodedSize =>
          if bool_decide (meta o "raw_sha256" = Some rawSha256)
             && bool_decide (meta o "encoding" = Some IMAGE_CHUNK_ENCODING)
             && (rawSize <=? CHUNK_SIZE_BYTES) && (encodedSize <=? MAX_ENCODED_CHUNK_BYTES)
             && (ro_size o =? encodedSize)
          then Some (rawSha256, rawSize, encodedSha, encodedSize) else None
      | _, _, _ => None
      end
  end.
Definition chunkObjectMatchesRawHash (object : option R2Object) (rawSha256 : string) : bool :=
  bool_decide (is_Some (chunkObjectDescriptor object rawSha256)).
Definition chunkObjectMatchesDescriptor (object : option R2Object) (chunk : ImageChunk) : bool :=
  chunkObjectMatchesRawHash object (ch_raw_sha256 chunk)
  && match object with
     | Some o => bool_decide (meta o "encoded_sha256" = Some (ch_encoded_sha256 chunk))
                 && bool_decide (meta o "raw_size_bytes" = Some (pretty (ch_raw_size_bytes chunk)))
                 && bool_decide (meta o "encoded_size_bytes" = Some (pretty (ch_encoded_size_bytes chunk)))
                 && (ro_size o =? ch_encoded_size_bytes chunk)
     | None => false
     end.

(** [Number(request.headers.get(name))]: a missing header is [Number(null)], 0. *)
Definition parsePositiveIntegerHeader (header : option string) : option Z :=
  n ← Number_integer (nullish header ""); if safe_integer n && (0 <? n) then Some n else None.

(** * Requests

    [authz] is the refusal of [requireBlobUploadAuth], if it refuses. *)
Record ChunkUpload : Type := mkChunkUpload {
  cu_method : string;
  cu_rawSha256 : option string;
  cu_encodedSha256 : option string;
  cu_rawSize : option string;
  cu_encodedSize : option string;
  cu_payload : list Z;
}.
Record ManifestUpload : Type := mkManifestUpload {
  mu_method : string;
  mu_manifestSha256 : option string;
  mu_payload : list Z;
}.

Fixpoint readHashes (raws : list json) : option (list string) :=
  match raws with
  | [] => Some []
  | raw :: rest =>
      match readSha256 (Some raw) with
      | Some h => option_map (cons h) (readHashes rest)
      | None => None
      end
  end.
Definition encodeDescriptor (d : string * Z * string * Z) : json :=
  let '(rawSha, rawSize, encodedSha, encodedSize) := d in
  JObj [("raw_sha256", JStr rawSha); ("raw_size_bytes", JNum (NInt rawSize));
        ("encoded_sha256", JStr encodedSha); ("encoded_size_bytes", JNum (NInt encodedSize))].
(** The bucket's operations are accesses; nothing else is called. *)
Inductive NoCall : Type -> Type := .
Definition Registry (A : Type) : Type := Req NoCall Bucket A.

Definition HEAD_BATCH_SIZE : nat := 64.
Fixpoint batchesFrom {A} (size fuel : nat) (values : list A) : list (list A) :=
  match fuel, values with
  | S fuel', _ :: _ => take size values :: batchesFrom size fuel' (drop size values)
  | _, _ => []
  end.
Definition batches {A} (values : list A) (size : nat) : list (list A) := batchesFrom size (length values) values.
(** [Promise.all] of one [head] for each key, answered in the order of the keys. *)
Fixpoint heads (keys : list string) : Registry (list (option R2Object)) :=
  match keys with
  | [] => Done []
  | key :: rest => o <-- query (bucket_head key); os <-- heads rest; Done (o :: os)
  end.
Fixpoint existingChunks (groups : list (list string)) : Registry (list (string * Z * string * Z)) :=
  match groups with
  | [] => Done []
  | batch :: rest =>
      objects <-- heads (map imageChunkObjectKey batch);
      existing <-- existingChunks rest;
      Done (omap (fun p => chunkObjectDescriptor (snd p) (fst p)) (zip batch objects) ++ existing)
  end.

(** Which of the hashes have a chunk. [body] is [None] when it is not JSON. *)
Definition handleImageChunkExists (method : string) (authz : option HttpResponse) (body : option json)
    : Registry HttpResponse :=
  if negb (method =s "POST") then Done (errorResponse "method not allowed" 405)
  else match authz with
  | Some refusal => Done refusal
  | None =>
      if negb (isRecord body) then Done (errorResponse "JSON body is required" 400)
      else match match body with Some v => field v "raw_sha256" | None => None end with
           | Some (JArr raws) =>
               if (MAX_EXISTS_HASHES <? length raws)%nat
               then Done (errorResponse "raw_sha256 must contain at most 512 hashes" 400)
               else match readHashes raws with
                    | None => Done (errorResponse "raw_sha256 contains an invalid hash" 400)
                    | Some hashes =>
                        existing <-- existingChunks (batches hashes HEAD_BATCH_SIZE);
                        Done (mkResponse 200 (JObj [("existing", JArr (map encodeDescriptor existing))]))
                    end
           | _ => Done (errorResponse "raw_sha256 must contain at most 512 hashes" 400)
           end
  end.

Section uploads.
Context `{Sha256}.

(** The metadata of an upload, when it is all valid. *)
Definition readChunkUpload (request : ChunkUpload) (pathRawSha256 : string) : option ImageChunk :=
  match normalizeSha256 pathRawSha256, normalizeSha256 (nullish (cu_encodedSha256 request) ""),
        parsePositiveIntegerHeader (cu_rawSize request), parsePositiveIntegerHeader (cu_encodedSize request) with
  | Some rawSha, Some encodedSha, Some rawSize, Some encodedSize =>
      if bool_decide (normalizeSha256 (nullish (cu_rawSha256 request) "") = Some rawSha)
         && (rawSize <=? CHUNK_SIZE_BYTES) && (encodedSize <=? MAX_ENCODED_CHUNK_BYTES)
      then Some (mkChunk 0 rawSize rawSha encodedSize encodedSha) else None
  | _, _, _, _ => None
  end.
Definition chunkObject (c : ImageChunk) (payload : list Z) : R2Object :=
  mkObject payload
    [("raw_sha256", ch_raw_sha256 c); ("encoded_sha256", ch_encoded_sha256 c);
     ("raw_size_bytes", pretty (ch_raw_size_bytes c)); ("encoded_size_bytes", pretty (ch_encoded_size_bytes c));
     ("encoding", IMAGE_CHUNK_ENCODING)].
Definition handleImageChunkUpload (request : ChunkUpload) (authz : option HttpResponse)
    (pathRawSha256 : string) : Registry HttpResponse :=
  if negb (cu_method request =s "PUT") then Done (errorResponse "method not allowed" 405)
  else match authz with
  | Some refusal => Done refusal
  | None =>
      match readChunkUpload request pathRawSha256 with
      | None => Done (errorResponse "invalid image chunk metadata" 400)
      | Some c =>
          let payload := cu_payload request in
          if negb (Z.of_nat (length payload) =? ch_encoded_size_bytes c)
          then Done (errorResponse "encoded image chunk size mismatch" 400)
          else if negb (sha256Hex payload =s ch_encoded_sha256 c)
          then Done (errorResponse "encoded image chunk SHA-256 mismatch" 400)
          else
            let objectKey := imageChunkObjectKey (ch_raw_sha256 c) in
            existing <-- query (bucket_head objectKey);
            match existing with
            | Some object =>
                Done (if chunkObjectMatchesDescriptor (Some object) c then storedResponse objectKey true
                      else errorResponse "immutable image chunk already differs" 409)
            | None =>
                _ <-- transaction (fun b => (bucket_put objectKey (chunkObject c payload) b, tt));
                Done (storedResponse objectKey false)
            end
      end
  end.

Context `{JsonText}.
Definition manifestObject (manifestSha256 : string) (m : ImageChunkManifest) (payload : list Z) : R2Object :=
  mkObject payload
    [("manifest_sha256", manifestSha256); ("image_id", cm_image_id m);
     ("virtual_size_bytes", pretty (cm_virtual_size_bytes m)); ("chunk_size_bytes", pretty CHUNK_SIZE_BYTES);
     ("encoding", IMAGE_CHUNK_ENCODING)].
Definition chunkStored (b : Bucket) (c : ImageChunk) : bool :=
  chunkObjectMatchesDescriptor (bucket_head (imageChunkObjectKey (ch_raw_sha256 c)) b) c.
(** The first chunk whose object is missing or says something else. *)
Fixpoint mismatchedChunk (groups : list (list ImageChunk)) : Registry (option ImageChunk) :=
  match groups with
  | [] => Done None
  | batch :: rest =>
      objects <-- heads (map (fun c => imageChunkObjectKey (ch_raw_sha256 c)) batch);
      match List.find (fun p => negb (chunkObjectMatchesDescriptor (snd p) (fst p))) (zip batch objects) with
      | Some (c, _) => Done (Some c)
      | None => mismatchedChunk rest
      end
  end.
Definition handleImageManifestUpload (request : ManifestUpload) (authz : option HttpResponse)
    (pathManifestSha256 : string) : Registry HttpResponse :=
  if negb (mu_method request =s "PUT") then Done (errorResponse "method not allowed" 405)
  else match authz with
  | Some refusal => Done refusal
  | None =>
      match normalizeSha256 pathManifestSha256 with
      | None => Done (errorResponse "invalid image manifest SHA-256" 400)
      | Some sha =>
          let payload := mu_payload request in
          let size := Z.of_nat (length payload) in
          if negb (bool_decide (normalizeSha256 (nullish (mu_manifestSha256 request) "") = Some sha))
          then Done (errorResponse "invalid image manifest SHA-256" 400)
          else if (size =? 0) || (MAX_MANIFEST_BYTES <? size)
          then Done (errorResponse "invalid image manifest size" 400)
          else if negb (sha256Hex payload =s sha)
          then Done (errorResponse "image manifest SHA-256 mismatch" 400)
          else match decodeJson payload with
          | None => Done (errorResponse "image manifest must be valid JSON" 400)
          | Some decoded =>
              match validateImageChunkManifest decoded with
              | Err message => Done (errorResponse message 400)
              | Ok m =>
                  mismatched <-- mismatchedChunk (batches (cm_chunks m) HEAD_BATCH_SIZE);
                  match mismatched with
                  | Some c => Done (errorResponse ("missing or mismatched image chunk at index "
                                                   +:+ pretty (ch_index c)) 409)
                  | None =>
                      let objectKey := imageManifestObjectKey sha in
                      existing <-- query (bucket_head objectKey);
                      match existing with
                      | Some object =>
                          Done (if bool_decide (meta object "manifest_sha256" = Some sha)
                                   && bool_decide (meta object "image_id" = Some (cm_image_id m))
                                   && (ro_size object =? size)
                                then storedResponse objectKey true
                                else errorResponse "immutable image manifest already differs" 409)
                      | None =>
                          _ <-- transaction (fun b => (bucket_put objectKey (manifestObject sha m payload) b, tt));
                          Done (storedResponse objectKey false)
                      end
                  end
              end
          end
      end
  end.

(** What an agent is given: a body, or nothing. [allowed] and [stillAllowed] are
    [agentCanAccessManifest] before the reads and, with the image id, after them. *)
Definition checkManifest (manifestSha256 : string) (object : option R2Object) : option (list Z * ImageChunkManifest) :=
  object ← object;
  if (ro_size object <=? 0) || (MAX_MANIFEST_BYTES <? ro_size object) then None
  else if negb (sha256Hex (ro_body object) =s manifestSha256) then None
  else
    decoded ← decodeJson (ro_body object);
    match validateImageChunkManifest decoded with
    | Ok m => Some (ro_body object, m)
    | Err _ => None
    end.
Definition servedContent (rawSha256 : option string) (payload : list Z) (m : ImageChunkManifest)
    : Registry (option (list Z)) :=
  match rawSha256 with
  | None => Done (Some payload)
  | Some raw =>
      match List.find (fun c => ch_raw_sha256 c =s raw) (cm_chunks m) with
      | None => Done None
      | Some c =>
          content <-- query (bucket_head (imageChunkObjectKey raw));
          match content with
          | Some o => Done (if chunkObjectMatchesDescriptor (Some o) c then Some (ro_body o) else None)
          | None => Done None
          end
      end
  end.
Definition handleAgentManifestContent (method : string) (verified : option HttpResponse) (allowed : bool)
    (stillAllowed : string -> bool) (manifestSha256 : string) (rawSha256 : option string)
  : Registry (HttpResponse + list Z) :=
  let denied := inl (errorResponse "object not found" 404) in
  if negb (method =s "GET") then Done (inl (errorResponse "method not allowed" 405))
  else match verified with
  | Some refusal => Done (inl refusal)
  | None =>
      if negb allowed then Done denied
      else
        object <-- query (bucket_head (imageManifestObjectKey manifestSha256));
        match checkManifest manifestSha256 object with
        | None => Done denied
        | Some (payload, m) =>
            content <-- servedContent rawSha256 payload m;
            match content with
            | None => Done denied
            | Some body => Done (if stillAllowed (cm_image_id m) then inr body else denied)
            end
        end
  end.
End uploads.
