(* ===== verification/RegistryContent.v ===== *)
(** What the image objects of RegistryChunks promise: an image id fixes the
    content of its manifest, a manifest in the bucket is complete, and an agent is
    given exactly the bytes a manifest names. *)
From stdpp Require Import base list strings sorting pretty relations.
From Stdlib Require Import ZArith Lia.
From S2P Require Import Prelude Json Text RunState Bridge Tar RegistryKeys RetentionPlans Requests Interference RegistryChunks.

Open Scope string_scope.
Open Scope list_scope.
Open Scope Z_scope.
Open Scope req_scope.

(** * Digests as text *)

Lemma hexValue_digit n : (n < 16)%N -> hexValue (hex_digit n) = Z.of_N n.
Proof.
  destruct n as [|p]; [done|]. intros Hn. do 4 (destruct p as [p|p|]; try done); lia.
Qed.

Lemma hex_digit_value c : isLowerHex (Ascii.N_of_ascii c) = true -> hex_digit (Z.to_N (hexValue c)) = c.
Proof. by destruct c as [[] [] [] [] [] [] [] []]. Qed.

Lemma hexValue_bounds c : isLowerHex (Ascii.N_of_ascii c) = true -> 0 <= hexValue c < 16.
Proof. by destruct c as [[] [] [] [] [] [] [] []]. Qed.

Lemma hexToBytes_hexOf bytes : Forall byte_ok bytes -> hexToBytes (hexOf bytes) = bytes.
Proof.
  induction 1 as [|b bytes Hb _ IH]; [done|]. cbn [hexOf hexByte].
  change (hexToBytes (hexByte b +:+ hexOf bytes)) with
    ((16 * hexValue (hex_digit (Z.to_N (b / 16))) + hexValue (hex_digit (Z.to_N (b mod 16))))
       :: hexToBytes (hexOf bytes)).
  rewrite IH. unfold byte_ok in Hb. f_equal.
  pose proof (Z.mod_pos_bound b 16 ltac:(lia)). pose proof (Z.div_lt_upper_bound b 16 16 ltac:(lia) ltac:(lia)).
  pose proof (Z.div_pos b 16 ltac:(lia) ltac:(lia)).
  rewrite !hexValue_digit by lia. rewrite !Z2N.id by lia. pose proof (Z.div_mod b 16 ltac:(lia)). lia.
Qed.

Lemma hexOf_hexToBytes (n : nat) s :
  String.length s = (2 * n)%nat -> forallb isLowerHex (code_units s) = true -> hexOf (hexToBytes s) = s.
Proof.
  revert s. induction n as [|n IH]; intros s Hl Hf; [by destruct s|].
  destruct s as [|a [|b s]]; [done|cbn in Hl; lia|]. cbn [code_units forallb] in Hf.
  apply andb_true_iff in Hf as [Ha Hf]. apply andb_true_iff in Hf as [Hb Hf]. cbn [hexToBytes hexOf]. rewrite IH; [|cbn in Hl; lia|done]. unfold hexByte.
  pose proof (hexValue_bounds a Ha). pose proof (hexValue_bounds b Hb).
  assert ((16 * hexValue a + hexValue b) / 16 = hexValue a) as ->.
  { rewrite Z.mul_comm, Z.div_add_l by lia. rewrite (Z.div_small (hexValue b)) by lia. lia. }
  assert ((16 * hexValue a + hexValue b) mod 16 = hexValue b) as ->.
  { rewrite Z.mul_comm, Z.add_comm, Z.mod_add by lia. apply Z.mod_small. lia. }
  by rewrite !hex_digit_value.
Qed.

Lemma SHA256_RE_spec s :
  SHA256_RE s = true <-> String.length s = 64%nat /\ forallb isLowerHex (code_units s) = true.
Proof.
  unfold SHA256_RE, matches_class. rewrite !andb_true_iff, !Nat.leb_le. intuition lia.
Qed.

Lemma hexToBytes_inj s s' :
  SHA256_RE s = true -> SHA256_RE s' = true -> hexToBytes s = hexToBytes s' -> s = s'.
Proof.
  rewrite !SHA256_RE_spec. intros [L F] [L' F'] E.
  by rewrite <- (hexOf_hexToBytes 32 s), <- (hexOf_hexToBytes 32 s'), E.
Qed.

Lemma hexToBytes_length (n : nat) s : String.length s = (2 * n)%nat -> length (hexToBytes s) = n.
Proof.
  revert s. induction n as [|n IH]; intros s Hl; [by destruct s|].
  destruct s as [|a [|b s]]; [done|cbn in Hl; lia|]. cbn [hexToBytes length]. rewrite IH; [done|cbn in Hl; lia].
Qed.

Lemma hex_digit_lower n : (n < 16)%N -> isLowerHex (Ascii.N_of_ascii (hex_digit n)) = true.
Proof.
  destruct n as [|p]; [done|]. intros Hn. do 4 (destruct p as [p|p|]; try done); lia.
Qed.

Lemma hexOf_form bytes : Forall byte_ok bytes ->
  String.length (hexOf bytes) = (2 * length bytes)%nat /\ forallb isLowerHex (code_units (hexOf bytes)) = true.
Proof.
  induction 1 as [|b bytes Hb _ [IHl IHf]]; [done|]. unfold byte_ok in Hb.
  change (hexOf (b :: bytes)) with (String (hex_digit (Z.to_N (b / 16)))
    (String (hex_digit (Z.to_N (b mod 16))) (hexOf bytes))).
  cbn [String.length length code_units forallb]. rewrite IHl, IHf. split; [lia|].
  pose proof (Z.mod_pos_bound b 16 ltac:(lia)). pose proof (Z.div_lt_upper_bound b 16 16 ltac:(lia) ltac:(lia)).
  pose proof (Z.div_pos b 16 ltac:(lia) ltac:(lia)).
  rewrite !hex_digit_lower by lia. done.
Qed.

Lemma sha256Hex_form `{Sha256} bytes : SHA256_RE (sha256Hex bytes) = true.
Proof.
  apply SHA256_RE_spec. destruct (hexOf_form _ (digest_bytes bytes)) as [L F]. unfold sha256Hex.
  by rewrite L, digest_length.
Qed.

Lemma sha256Hex_inj `{Sha256} x y : sha256Hex x = sha256Hex y -> digest x = digest y.
Proof.
  unfold sha256Hex. intros E. rewrite <- (hexToBytes_hexOf (digest x)), <- (hexToBytes_hexOf (digest y)), E;
    auto using digest_bytes.
Qed.

Lemma normalizeSha256_form s t : normalizeSha256 s = Some t -> SHA256_RE t = true.
Proof. unfold normalizeSha256. case_match; congruence. Qed.
Lemma readSha256_form v t : readSha256 v = Some t -> SHA256_RE t = true.
Proof. apply normalizeSha256_form. Qed.

(** * The identity of an image *)

Lemma littleEndian_length n v : length (littleEndian n v) = n.
Proof. revert v. induction n as [|n IH]; intros v; [done|]. cbn. by rewrite IH. Qed.

Lemma littleEndian_inj (n : nat) v w :
  0 <= v < 256 ^ Z.of_nat n -> 0 <= w < 256 ^ Z.of_nat n -> littleEndian n v = littleEndian n w -> v = w.
Proof.
  revert v w. induction n as [|n IH]; intros v w Hv Hw E; [cbn in Hv, Hw; lia|].
  cbn [littleEndian] in E. injection E as E1 E2. rewrite Nat2Z.inj_succ, Z.pow_succ_r in Hv, Hw by lia.
  apply IH in E2.
  - rewrite (Z.div_mod v 256), (Z.div_mod w 256) by lia. lia.
  - split; [apply Z.div_pos; lia|apply Z.div_lt_upper_bound; lia].
  - split; [apply Z.div_pos; lia|apply Z.div_lt_upper_bound; lia].
Qed.

Lemma app_length_inj {A} (a a' b b' : list A) : length a = length a' -> a ++ b = a' ++ b' -> a = a' /\ b = b'.
Proof. intros Hl E. by apply app_inj_1. Qed.

Lemma concat_map_inj {A} (f g : A -> list Z) (n : nat) l l' :
  (forall x, In x l -> length (f x) = n) -> (forall x, In x l' -> length (g x) = n) ->
  length l = length l' -> concat (map f l) = concat (map g l') -> map f l = map g l'.
Proof.
  revert l'. induction l as [|x l IH]; intros [|y l'] Hf Hg Hl E; [done..|]. cbn in E |- *.
  apply app_length_inj in E as [-> E]; [|rewrite Hf, Hg by (by left); done].
  f_equal. apply IH; [intros; apply Hf; by right|intros; apply Hg; by right|cbn in Hl; lia|done].
Qed.

Lemma chunkCount_bounds size : 0 < size <= MAX_IMAGE_BYTES -> 0 < chunkCountOf size < 2 ^ 32.
Proof.
  unfold chunkCountOf, CHUNK_SIZE_BYTES, MAX_IMAGE_BYTES. intros H. split.
  - apply Z.div_str_pos. lia.
  - apply Z.div_lt_upper_bound; lia.
Qed.

Lemma indicesOf_length size : length (indicesOf size) = Z.to_nat (chunkCountOf size).
Proof. unfold indicesOf. by rewrite length_map, length_seq. Qed.

Lemma orderedDigests_length zeroAt indices chunks : length (orderedDigests zeroAt indices chunks) = length indices.
Proof.
  revert chunks. induction indices as [|i indices IH]; intros [|c chunks]; [done..|cbn; by rewrite IH|].
  cbn. case_match; cbn; by rewrite IH.
Qed.

Lemma orderedDigests_forall (P : string -> Prop) zeroAt indices chunks :
  (forall i, P (zeroAt i)) -> Forall (fun c => P (ch_raw_sha256 c)) chunks ->
  Forall P (orderedDigests zeroAt indices chunks).
Proof.
  intros Hz. revert chunks. induction indices as [|i indices IH]; intros chunks Hc; [constructor|].
  cbn. destruct chunks as [|c chunks]; [constructor; [done|by apply IH]|].
  inversion Hc; subst. case_match; constructor; auto.
Qed.

(** Positions ascend from [lo] and stay below [hi]. *)
Fixpoint ascending (lo hi : Z) (chunks : list ImageChunk) : Prop :=
  match chunks with
  | [] => True
  | c :: chunks' => lo <= ch_index c < hi /\ ascending (ch_index c + 1) hi chunks'
  end.
Definition placed (c : ImageChunk) : Z * string := (ch_index c, ch_raw_sha256 c).

Lemma ascending_later lo hi chunks c rest :
  chunks = c :: rest -> ascending lo hi chunks -> ch_index c <> lo -> ascending (lo + 1) hi chunks.
Proof. intros -> [H1 H2] Hne. split; [lia|done]. Qed.

(** Holes and descriptors can be told apart, because no descriptor has the digest
    of a hole. *)
Lemma orderedDigests_inj zeroAt (n i : nat) hi cs cs' :
  ascending (Z.of_nat i) hi cs -> ascending (Z.of_nat i) hi cs' -> hi = Z.of_nat (i + n) ->
  Forall (fun c => ch_raw_sha256 c <> zeroAt (ch_index c)) cs ->
  Forall (fun c => ch_raw_sha256 c <> zeroAt (ch_index c)) cs' ->
  orderedDigests zeroAt (map Z.of_nat (seq i n)) cs = orderedDigests zeroAt (map Z.of_nat (seq i n)) cs' ->
  map placed cs = map placed cs'.
Proof.
  revert i cs cs'. induction n as [|n IH]; intros i cs cs' Ha Ha' Hhi Hz Hz' E.
  { destruct cs as [|c cs]; [|destruct Ha; lia]. destruct cs' as [|c' cs']; [done|destruct Ha'; lia]. }
  assert (Hnext : forall l, ascending (Z.of_nat i) hi l ->
    match l with c :: _ => ch_index c <> Z.of_nat i | [] => True end -> ascending (Z.of_nat (S i)) hi l).
  { intros [|c l] Hl Hne; [done|]. rewrite Nat2Z.inj_succ, <- Z.add_1_r. by eapply ascending_later. }
  assert (Hhi' : hi = Z.of_nat (S i + n)) by lia.
  cbn [seq map orderedDigests] in E.
  destruct cs as [|c cs], cs' as [|c' cs']; [done|..].
  - destruct (Z.eqb_spec (ch_index c') (Z.of_nat i)) as [Hi|Hi].
    + injection E as E _. inversion Hz'; subst. by rewrite Hi in *.
    + injection E as E. eapply (IH (S i)); [done| |done..]. by apply Hnext.
  - destruct (Z.eqb_spec (ch_index c) (Z.of_nat i)) as [Hi|Hi].
    + injection E as E _. inversion Hz; subst. by rewrite Hi in *.
    + injection E as E. eapply (IH (S i)); [|done..]. by apply Hnext.
  - destruct (Z.eqb_spec (ch_index c) (Z.of_nat i)) as [Hi|Hi],
      (Z.eqb_spec (ch_index c') (Z.of_nat i)) as [Hi'|Hi'].
    + injection E as E1 E2. cbn [map]. unfold placed at 1 3. rewrite Hi, Hi', E1. f_equal.
      destruct Ha as [_ Ha], Ha' as [_ Ha']. rewrite Hi in Ha. rewrite Hi' in Ha'.
      inversion Hz; inversion Hz'; subst.
      apply (IH (S i)); [by rewrite Nat2Z.inj_succ, <- Z.add_1_r|by rewrite Nat2Z.inj_succ, <- Z.add_1_r|done..].
    + injection E as E _. inversion Hz; subst. by rewrite Hi in *.
    + injection E as E _. inversion Hz'; subst. by rewrite Hi' in *.
    + injection E as E. apply (IH (S i)); [by apply Hnext|by apply Hnext|done..].
Qed.

Section content.
Context `{Sha256}.

Definition chunk_ok (size : Z) (finalZero : string) (c : ImageChunk) : Prop :=
  SHA256_RE (ch_raw_sha256 c) = true /\ SHA256_RE (ch_encoded_sha256 c) = true /\
  ch_raw_size_bytes c = (if ch_index c =? chunkCountOf size - 1 then finalChunkSizeOf size else CHUNK_SIZE_BYTES) /\
  0 < ch_encoded_size_bytes c <= MAX_ENCODED_CHUNK_BYTES /\
  ch_raw_sha256 c <> zeroSha256At size finalZero (ch_index c).

Lemma readChunk_spec size finalZero previous raw c :
  readChunk size finalZero previous raw = Ok c ->
  previous < ch_index c < chunkCountOf size /\ chunk_ok size finalZero c.
Proof.
  unfold readChunk, chunk_ok. intros Hr. destruct (negb (isRecord (Some raw))); [done|].
  destruct (readSha256 (field raw "raw_sha256")) as [rawSha|] eqn:E1; [|done].
  destruct (readSha256 (field raw "encoded_sha256")) as [encSha|] eqn:E2; [|done].
  destruct (safeNumber (field raw "index")) as [index|]; [|done].
  destruct (safeNumber (field raw "raw_size_bytes")) as [rawSize|]; [|done].
  destruct (safeNumber (field raw "encoded_size_bytes")) as [encSize|]; [|done].
  match type of Hr with (if ?b then _ else _) = _ => destruct b eqn:Eb; [done|] end.
  match type of Hr with (if ?b then _ else _) = _ => destruct b eqn:Ez; [done|] end.
  injection Hr as <-. cbn [ch_index ch_raw_size_bytes ch_raw_sha256 ch_encoded_size_bytes ch_encoded_sha256].
  rewrite !orb_false_iff, !Z.leb_gt, negb_false_iff, Z.eqb_eq, Z.ltb_ge in Eb.
  apply String.eqb_neq in Ez. destruct Eb as [[[[? ?] ?] ?] ?].
  split_and!; eauto using readSha256_form.
Qed.

Lemma readChunks_spec size finalZero previous raws cs :
  readChunks size finalZero previous raws = Ok cs ->
  ascending (previous + 1) (chunkCountOf size) cs /\ Forall (chunk_ok size finalZero) cs.
Proof.
  revert previous cs. induction raws as [|raw raws IH]; intros previous cs Hr; [by injection Hr as <-|].
  cbn [readChunks] in Hr. apply result_bind_Ok in Hr as (c & Hc & Hr). apply result_bind_Ok in Hr as (cs' & Hcs & Hr).
  injection Hr as <-. apply readChunk_spec in Hc as [Hi Hok]. apply IH in Hcs as [Ha Hf].
  split; [split; [lia|done]|by constructor].
Qed.

(** What an accepted manifest satisfies. *)
Record manifest_ok (m : ImageChunkManifest) : Prop := mk_manifest_ok {
  mo_size : 0 < cm_virtual_size_bytes m <= MAX_IMAGE_BYTES;
  mo_order : ascending 0 (chunkCountOf (cm_virtual_size_bytes m)) (cm_chunks m);
  mo_chunks : Forall (chunk_ok (cm_virtual_size_bytes m) (finalZeroSha256Of (cm_virtual_size_bytes m)))
                (cm_chunks m);
  mo_id : computeImageId m (finalZeroSha256Of (cm_virtual_size_bytes m)) = cm_image_id m;
}.

Lemma validate_spec value m : validateImageChunkManifest value = Ok m -> manifest_ok m.
Proof.
  unfold validateImageChunkManifest. intros Hv. destruct (negb (isRecord (Some value))); [done|].
  destruct (isJsonNumber 1 _ && _ && _); [|done].
  destruct (safeNumber (field value "virtual_size_bytes")) as [size|]; [|done].
  destruct (readSha256 (field value "image_id")) as [imageId|]; [|done].
  destruct (field value "chunks") as [[]|]; try done.
  destruct ((size <=? 0) || (MAX_IMAGE_BYTES <? size)) eqn:Es; [done|].
  apply result_bind_Ok in Hv as (cs & Hcs & Hv).
  match type of Hv with (if ?b then _ else _) = _ => destruct b eqn:Ei; [done|] end.
  injection Hv as <-. apply negb_false_iff, String.eqb_eq in Ei.
  rewrite orb_false_iff, Z.leb_gt, Z.ltb_ge in Es. apply readChunks_spec in Hcs as [Ha Hf]. by constructor.
Qed.

Lemma zero_sha_form : SHA256_RE FULL_ZERO_CHUNK_SHA256 = true.
Proof. by vm_compute. Qed.
Lemma zeroSha256At_form size i : SHA256_RE (zeroSha256At size (finalZeroSha256Of size) i) = true.
Proof.
  unfold zeroSha256At, finalZeroSha256Of. repeat case_match; auto using zero_sha_form, sha256Hex_form.
Qed.

Lemma chunkRecord_length size i d : SHA256_RE d = true -> length (chunkRecord size (i, d)) = 40%nat.
Proof.
  intros [L _]%SHA256_RE_spec. unfold chunkRecord. cbn [fst snd].
  by rewrite !length_app, !littleEndian_length, (hexToBytes_length 32).
Qed.

Lemma zip_records_inj size indices ds ds' :
  length indices = length ds -> length indices = length ds' ->
  Forall (fun d => SHA256_RE d = true) ds -> Forall (fun d => SHA256_RE d = true) ds' ->
  concat (map (chunkRecord size) (zip indices ds)) = concat (map (chunkRecord size) (zip indices ds')) -> ds = ds'.
Proof.
  revert ds ds'. induction indices as [|i indices IH]; intros [|d ds] [|d' ds'] L L' F F' E; try done.
  inversion F; inversion F'; subst. cbn [zip map concat] in E.
  apply app_length_inj in E as [E1 E2]; [|by rewrite !chunkRecord_length].
  f_equal; [|apply IH; auto; cbn in L, L'; lia].
  unfold chunkRecord in E1. cbn [fst snd] in E1. do 2 apply app_inv_head in E1. by apply hexToBytes_inj.
Qed.

Lemma manifestDigests_form m : manifest_ok m ->
  length (manifestDigests (cm_virtual_size_bytes m) (finalZeroSha256Of (cm_virtual_size_bytes m)) (cm_chunks m))
    = length (indicesOf (cm_virtual_size_bytes m)) /\
  Forall (fun d => SHA256_RE d = true)
    (manifestDigests (cm_virtual_size_bytes m) (finalZeroSha256Of (cm_virtual_size_bytes m)) (cm_chunks m)).
Proof.
  intros [_ _ Hc _]. split; [apply orderedDigests_length|]. apply orderedDigests_forall; [apply zeroSha256At_form|].
  eapply Forall_impl; [exact Hc|]. by intros c [? _].
Qed.

(** The bytes an image id hashes are those of one size and one placement of raw
    digests. *)
Lemma image_bytes_inj m1 m2 : manifest_ok m1 -> manifest_ok m2 ->
  imageIdBytes (cm_virtual_size_bytes m1) (manifestDigests (cm_virtual_size_bytes m1)
    (finalZeroSha256Of (cm_virtual_size_bytes m1)) (cm_chunks m1)) =
  imageIdBytes (cm_virtual_size_bytes m2) (manifestDigests (cm_virtual_size_bytes m2)
    (finalZeroSha256Of (cm_virtual_size_bytes m2)) (cm_chunks m2)) ->
  cm_virtual_size_bytes m1 = cm_virtual_size_bytes m2 /\ map placed (cm_chunks m1) = map placed (cm_chunks m2).
Proof.
  intros H1 H2 E. unfold imageIdBytes in E. apply app_inv_head in E.
  apply app_length_inj in E as [Es E]; [|by rewrite !littleEndian_length].
  destruct (manifestDigests_form m1 H1) as [L1 F1]. destruct (manifestDigests_form m2 H2) as [L2 F2].
  destruct H1 as [S1 O1 C1 _], H2 as [S2 O2 C2 _].
  assert (cm_virtual_size_bytes m1 = cm_virtual_size_bytes m2) as Hs.
  { unfold MAX_IMAGE_BYTES in *. apply (littleEndian_inj 8); [cbn; lia..|done]. }
  split; [done|]. apply app_inv_head in E. rewrite Hs in E, L1, F1, O1, C1.
  apply zip_records_inj in E; [|done..]. unfold manifestDigests, indicesOf in E.
  destruct (chunkCount_bounds _ S2) as [Hc _].
  eapply (orderedDigests_inj _ (Z.to_nat (chunkCountOf (cm_virtual_size_bytes m2))) 0); [done|done|lia|..|exact E].
  - eapply Forall_impl; [exact C1|]. by intros c (_ & _ & _ & _ & ?).
  - eapply Forall_impl; [exact C2|]. by intros c (_ & _ & _ & _ & ?).
Qed.

(** The text an image id is the digest of. *)
Definition idBytes (m : ImageChunkManifest) : list Z :=
  imageIdBytes (cm_virtual_size_bytes m) (manifestDigests (cm_virtual_size_bytes m)
    (finalZeroSha256Of (cm_virtual_size_bytes m)) (cm_chunks m)).

(** C24. An image id fixes its image: two accepted manifests with one id have the same
    size and the same raw digest at every position, holes included, unless the very
    texts their ids are computed from differ and have one SHA-256. *)
Theorem image_id_fixes_content v1 v2 m1 m2
  (H1 : validateImageChunkManifest v1 = Ok m1) (H2 : validateImageChunkManifest v2 = Ok m2)
  (Hid : cm_image_id m1 = cm_image_id m2) :
  cm_virtual_size_bytes m1 = cm_virtual_size_bytes m2 /\ map placed (cm_chunks m1) = map placed (cm_chunks m2) \/
  idBytes m1 <> idBytes m2 /\ digest (idBytes m1) = digest (idBytes m2).
Proof.
  apply validate_spec in H1, H2. pose proof (mo_id _ H1) as I1. pose proof (mo_id _ H2) as I2.
  rewrite <- I1, <- I2 in Hid. apply sha256Hex_inj in Hid.
  destruct (decide (idBytes m1 = idBytes m2)) as [E|E]; [left; by apply image_bytes_inj|by right].
Qed.
End content.

(** * Numbers in metadata *)

Lemma digits_not_space c d : digit_value c = Some d -> js_space c = false /\ is_unit 45 c = false /\ is_unit 43 c = false
  /\ is_unit 101 c = false /\ is_unit 69 c = false /\ is_unit 46 c = false /\ radix_of c = None.
Proof. by destruct c as [[] [] [] [] [] [] [] []]. Qed.

Lemma trim_digits acc s n : digits_value acc s = Some n -> trim_end s = s.
Proof.
  revert acc. induction s as [|c s IH]; intros acc Hd; [done|]. cbn [digits_value] in Hd.
  destruct (digit_value c) as [d|] eqn:Ec; [|done]. cbn [trim_end]. rewrite (IH _ Hd).
  destruct (digits_not_space _ _ Ec) as [-> _]. by destruct s.
Qed.

Lemma split_digits p acc s n :
  digits_value acc s = Some n -> (forall c d, digit_value c = Some d -> p c = false) -> split_at p s = (s, None).
Proof.
  revert acc. induction s as [|c s IH]; intros acc Hd Hp; [done|]. cbn [digits_value] in Hd.
  destruct (digit_value c) as [d|] eqn:Ec; [|done]. cbn [split_at]. rewrite (Hp _ _ Ec), (IH _ Hd Hp). done.
Qed.

Lemma round_exact m p : 0 < p -> m mod p = 0 -> round_half_even m p = m.
Proof.
  intros Hp Hm. unfold round_half_even. rewrite Hm. destruct (Z.ltb_spec (2 * 0) p); [|lia].
  pose proof (Z.div_mod m p ltac:(lia)). lia.
Qed.

Lemma integral_double_small n : 0 <= n < 2 ^ 53 -> integral_double n 1 = Some n.
Proof.
  intros Hn. unfold integral_double. destruct (Z.eqb_spec n 0) as [->|Hz]; [done|].
  assert (He : ratio_exponent n 1 = Z.log2 n).
  { unfold ratio_exponent. change (Z.log2 1) with 0. rewrite Z.sub_0_r. pose proof (Z.log2_nonneg n).
    rewrite (Z.max_l (Z.log2 n) 0), (Z.max_r (- Z.log2 n) 0) by lia.
    destruct (Z.leb_spec (1 * 2 ^ Z.log2 n) (n * 2 ^ 0)) as [|Hc]; [done|].
    pose proof (Z.log2_spec n ltac:(lia)). lia. }
  rewrite He. assert (0 <= Z.log2 n < 53) by (split; [apply Z.log2_nonneg|apply Z.log2_lt_pow2; lia]).
  rewrite Z.max_l by lia. destruct (Z.leb_spec 0 (52 - Z.log2 n)); [|lia].
  set (k := 52 - Z.log2 n). rewrite round_exact by (lia || apply Z.mod_1_r). rewrite Z.div_1_r.
  assert (0 < 2 ^ k) by (apply Z.pow_pos_nonneg; lia).
  rewrite Z.mod_mul, Z.div_mul by lia. done.
Qed.

Lemma Number_digits s n : s <> "" -> digits_value 0 s = Some n -> 0 <= n < 2 ^ 53 -> Number_integer s = Some n.
Proof.
  intros Hs Hd Hn. unfold Number_integer, trim.
  assert (trim_start s = s) as ->.
  { destruct s as [|c s]; [done|]. cbn [digits_value] in Hd. destruct (digit_value c) eqn:Ec; [|done].
    cbn [trim_start]. by destruct (digits_not_space _ _ Ec) as [-> _]. }
  rewrite (trim_digits _ _ _ Hd).
  assert (Hsign : signed s = (false, s)).
  { destruct s as [|c s']; [done|]. cbn [digits_value] in Hd. destruct (digit_value c) eqn:Ec; [|done].
    cbn [signed]. by destruct (digits_not_space _ _ Ec) as (_ & -> & -> & _). }
  assert (Hlit : decimal_literal s = Some (n, 0)).
  { unfold decimal_literal. rewrite (split_digits _ 0 s n Hd).
    2:{ intros c d Hc. by destruct (digits_not_space _ _ Hc) as (_ & _ & _ & -> & -> & _). }
    rewrite (split_digits _ 0 s n Hd).
    2:{ intros c d Hc. by destruct (digits_not_space _ _ Hc) as (_ & _ & _ & _ & _ & -> & _). }
    cbn [nullish]. assert (s +:+ "" = s) as ->. { clear. induction s as [|c s IH]; [done|].
      change (String c s +:+ "") with (String c (s +:+ "")). by rewrite IH. }
    unfold some_digits. assert (truthy s = true) as -> by (by apply truthy_spec). rewrite Hd. done. }
  assert (Hval : ('(m, e) ← decimal_literal s;
      apply_sign false <$> integral_double (m * 10 ^ Z.max e 0) (10 ^ Z.max (- e) 0)) = Some n).
  { rewrite Hlit. cbn [mbind option_bind]. change (10 ^ Z.max 0 0) with 1. change (10 ^ Z.max (- 0) 0) with 1.
    rewrite Z.mul_1_r, integral_double_small by done. done. }
  destruct s as [|z [|r [|x s']]]; [done|rewrite Hsign; exact Hval..|].
  cbn [digits_value] in Hd. destruct (digit_value z) as [d|] eqn:Ez; [|done].
  destruct (digit_value r) as [d'|] eqn:Er; [|done].
  destruct (digits_not_space _ _ Er) as (_ & _ & _ & _ & _ & _ & ->).
  destruct (is_unit 48 z); rewrite Hsign; exact Hval.
Qed.

Lemma pretty_nonempty z : 0 <= z -> pretty z <> "".
Proof.
  intros Hz E. pose proof (digits_value_pretty z Hz) as Hd. rewrite E in Hd. injection Hd as <-. done.
Qed.

(** [Number(String(n))] of a safe integer. *)
Lemma Number_pretty z : 0 <= z <= MAX_SAFE_INTEGER -> Number_integer (pretty z) = Some z.
Proof.
  unfold MAX_SAFE_INTEGER. intros Hz.
  apply Number_digits; [apply pretty_nonempty; lia|apply digits_value_pretty; lia|lia].
Qed.

(** * Uploads *)

Lemma imageChunkObjectKey_inj s s' : imageChunkObjectKey s = imageChunkObjectKey s' -> s = s'.
Proof.
  unfold imageChunkObjectKey. intros E. assert (Some s = Some s') as [= ->]; [|done].
  by rewrite <- (drop_prefix_app IMAGE_CHUNK_PREFIX s), E, drop_prefix_app.
Qed.
Lemma imageManifestObjectKey_inj s s' : imageManifestObjectKey s = imageManifestObjectKey s' -> s = s'.
Proof.
  unfold imageManifestObjectKey. intros E.
  assert (Some (s +:+ ".json") = Some (s' +:+ ".json")) as [= E'].
  { by rewrite <- (drop_prefix_app IMAGE_MANIFEST_PREFIX (s +:+ ".json")), E, drop_prefix_app. }
  assert (Some s = Some s') as [= ->]; [|done].
  by rewrite <- (drop_suffix_app ".json" s), E', drop_suffix_app.
Qed.
Lemma chunk_manifest_keys s s' : imageChunkObjectKey s <> imageManifestObjectKey s'.
Proof.
  intros E. assert (Hp : drop_prefix IMAGE_CHUNK_PREFIX (imageManifestObjectKey s') = Some s).
  { rewrite <- E. apply drop_prefix_app. }
  discriminate Hp.
Qed.

Section bucket.
Context `{Sha256} `{JsonText}.

Inductive UploadRequest : Type :=
| up_chunk (request : ChunkUpload) (authz : option HttpResponse) (path : string)
| up_manifest (request : ManifestUpload) (authz : option HttpResponse) (path : string).
Definition upload (rq : UploadRequest) : Registry HttpResponse :=
  match rq with
  | up_chunk request authz path => handleImageChunkUpload request authz path
  | up_manifest request authz path => handleImageManifestUpload request authz path
  end.
(** Uploads one after another, for concrete buckets. *)
Definition noCalls (B : Type) (c : NoCall B) : B := match c with end.
Definition uploadAll (rqs : list UploadRequest) (b : Bucket) : Bucket :=
  fold_left (fun b rq => fst (answered noCalls (upload rq) b)) rqs b.

(** The document a stored manifest holds. *)
Definition holdsManifest (b : Bucket) (sha : string) (m : ImageChunkManifest) : Prop :=
  exists o decoded, bucket_head (imageManifestObjectKey sha) b = Some o /\ sha256Hex (ro_body o) = sha /\
    0 < ro_size o <= MAX_MANIFEST_BYTES /\ decodeJson (ro_body o) = Some decoded /\
    validateImageChunkManifest decoded = Ok m.

Lemma put_keeps k o key o' b :
  bucket_head key b = None -> bucket_head k b = Some o -> bucket_head k (bucket_put key o' b) = Some o.
Proof.
  unfold bucket_head, bucket_put. intros Hn Hk. rewrite Map_get_set_ne; [done|]. congruence.
Qed.

Lemma chunkStored_keeps b b' c :
  (forall k o, bucket_head k b = Some o -> bucket_head k b' = Some o) ->
  chunkStored b c = true -> chunkStored b' c = true.
Proof.
  unfold chunkStored. intros Hb Hc. destruct (bucket_head (imageChunkObjectKey (ch_raw_sha256 c)) b) as [o|] eqn:E.
  - by rewrite (Hb _ _ E).
  - discriminate Hc.
Qed.

(** Every chunk has the digest it is stored with, and every manifest is valid,
    named by its digest, and complete. *)
Record registry_ok (b : Bucket) : Prop := mk_registry_ok {
  ro_chunks : forall raw o, bucket_head (imageChunkObjectKey raw) b = Some o ->
    meta o "encoded_sha256" = Some (sha256Hex (ro_body o));
  ro_manifests : forall sha o, bucket_head (imageManifestObjectKey sha) b = Some o ->
    exists m, holdsManifest b sha m /\ Forall (fun c => chunkStored b c = true) (cm_chunks m);
}.

Lemma registry_empty : registry_ok [].
Proof. by constructor. Qed.

Lemma registry_put_chunk b c payload :
  registry_ok b -> bucket_head (imageChunkObjectKey (ch_raw_sha256 c)) b = None ->
  sha256Hex payload = ch_encoded_sha256 c ->
  registry_ok (bucket_put (imageChunkObjectKey (ch_raw_sha256 c)) (chunkObject c payload) b).
Proof.
  intros [Hc Hm] Hn Hsha.
  assert (Hkeep : forall k o, bucket_head k b = Some o ->
    bucket_head k (bucket_put (imageChunkObjectKey (ch_raw_sha256 c)) (chunkObject c payload) b) = Some o).
  { intros k o. by apply put_keeps. }
  constructor.
  - intros raw o. unfold bucket_head, bucket_put.
    destruct (decide (imageChunkObjectKey raw = imageChunkObjectKey (ch_raw_sha256 c))) as [->|Hne].
    + rewrite Map_get_set_eq. intros [= <-]. cbn. by rewrite Hsha.
    + rewrite Map_get_set_ne by done. apply Hc.
  - intros sha o Ho. assert (Ho' : bucket_head (imageManifestObjectKey sha) b = Some o).
    { unfold bucket_head, bucket_put in Ho |- *. rewrite Map_get_set_ne in Ho; [done|]. intros E.
      by apply (chunk_manifest_keys (ch_raw_sha256 c) sha). }
    destruct (Hm sha o Ho') as (m & (o2 & decoded & E2 & Hrest) & Hall). exists m. split.
    + exists o2, decoded. split; [by apply Hkeep|done].
    + eapply Forall_impl; [exact Hall|]. intros x. by apply chunkStored_keeps.
Qed.

Lemma registry_put_manifest b sha decoded m payload :
  registry_ok b -> bucket_head (imageManifestObjectKey sha) b = None -> sha256Hex payload = sha ->
  0 < Z.of_nat (length payload) <= MAX_MANIFEST_BYTES -> decodeJson payload = Some decoded ->
  validateImageChunkManifest decoded = Ok m -> Forall (fun c => chunkStored b c = true) (cm_chunks m) ->
  registry_ok (bucket_put (imageManifestObjectKey sha) (manifestObject sha m payload) b).
Proof.
  intros [Hc Hm] Hn Hsha Hsize Hd Hv Hall.
  assert (Hkeep : forall k o, bucket_head k b = Some o ->
    bucket_head k (bucket_put (imageManifestObjectKey sha) (manifestObject sha m payload) b) = Some o).
  { intros k o. by apply put_keeps. }
  assert (Hkeepc : forall l, Forall (fun c => chunkStored b c = true) l ->
    Forall (fun c => chunkStored (bucket_put (imageManifestObjectKey sha) (manifestObject sha m payload) b) c = true) l).
  { intros l Hl. eapply Forall_impl; [exact Hl|]. intros x. by apply chunkStored_keeps. }
  constructor.
  - intros raw o Ho. unfold bucket_head, bucket_put in Ho. rewrite Map_get_set_ne in Ho; [by apply (Hc raw)|].
    apply chunk_manifest_keys.
  - intros sha' o Ho. destruct (decide (sha' = sha)) as [->|Hne].
    + exists m. split; [|by apply Hkeepc]. exists (manifestObject sha m payload), decoded.
      split_and!; [apply Map_get_set_eq|done|apply Hsize|apply Hsize|done|done].
    + assert (Ho' : bucket_head (imageManifestObjectKey sha') b = Some o).
      { unfold bucket_head, bucket_put in Ho |- *. rewrite Map_get_set_ne in Ho; [done|].
        intros E%imageManifestObjectKey_inj. done. }
      destruct (Hm sha' o Ho') as (m' & (o2 & d2 & E2 & Hrest) & Hall'). exists m'. split; [|by apply Hkeepc].
      exists o2, d2. split; [by apply Hkeep|done].
Qed.

(** ** One upload with nothing in between *)

Lemma heads_alone keys b : answered noCalls (heads keys) b = (b, map (fun k => bucket_head k b) keys).
Proof. induction keys as [|k keys IH]; [done|]. cbn [heads answered query req_bind fst snd]. by rewrite answered_bind, IH. Qed.
Lemma batches_concat {A} (l : list A) (size : nat) : (0 < size)%nat -> concat (batches l size) = l.
Proof.
  intros Hs. unfold batches. assert (Hf : (length l <= length l)%nat) by lia. revert Hf.
  generalize (length l) at 2 3 as fuel. intros fuel. revert l. induction fuel as [|fuel IH]; intros [|x l] Hf; [done|cbn in Hf; lia|done|].
  cbn [batchesFrom concat]. rewrite IH; [by rewrite take_drop|]. rewrite length_drop. cbn [length] in *. lia.
Qed.
Lemma found_mismatch (batch : list ImageChunk) objects :
  length objects = length batch ->
  List.find (fun p => negb (chunkObjectMatchesDescriptor (snd p) (fst p))) (zip batch objects) = None ->
  Forall2 (fun c o => chunkObjectMatchesDescriptor o c = true) batch objects.
Proof.
  revert objects. induction batch as [|c batch IH]; intros [|o objects] Hl Hf; [constructor|discriminate Hl|discriminate Hl|].
  cbn in Hf. destruct (chunkObjectMatchesDescriptor o c) eqn:E; [|done]. constructor; [done|]. apply IH; [by injection Hl|done].
Qed.
Lemma mismatched_alone groups b :
  fst (answered noCalls (mismatchedChunk groups) b) = b /\
  (snd (answered noCalls (mismatchedChunk groups) b) = None -> Forall (fun c => chunkStored b c = true) (concat groups)).
Proof.
  induction groups as [|batch groups IH]; [done|]. cbn [mismatchedChunk concat]. rewrite answered_bind, heads_alone. cbn [fst snd].
  destruct (List.find _ _) as [[c o]|] eqn:Ef; [done|]. destruct IH as [IH1 IH2]. split; [done|]. intros Hn.
  apply Forall_app. split; [|auto]. rewrite map_map in Ef. apply found_mismatch in Ef; [|by rewrite length_map].
  clear -Ef. induction batch as [|c batch IH]; [constructor|]. inversion Ef; subst. constructor; [done|auto].
Qed.
Lemma upload_alone_ok rq b : registry_ok b -> registry_ok (fst (answered noCalls (upload rq) b)).
Proof.
  intros Hb. destruct rq as [request authz path|request authz path]; cbn [upload].
  - unfold handleImageChunkUpload. repeat (case_match; try done). cbn [answered query req_bind fst snd].
    destruct (bucket_head _ b) eqn:Eh; [done|]. cbn. apply registry_put_chunk; [done|done|].
    match goal with E : negb (_ =s _) = false |- _ => by apply negb_false_iff, String.eqb_eq in E end.
  - unfold handleImageManifestUpload. destruct (negb (mu_method request =s "PUT")); [done|]. destruct authz; [done|].
    destruct (normalizeSha256 path) as [sha|]; [|done]. destruct (negb (bool_decide _)); [done|].
    destruct ((Z.of_nat (length (mu_payload request)) =? 0) || _) eqn:Esize; [done|].
    destruct (String.eqb_spec (sha256Hex (mu_payload request)) sha) as [Hsha|]; [|done]. cbn [negb].
    destruct (decodeJson (mu_payload request)) as [decoded|] eqn:Ed; [|done].
    destruct (validateImageChunkManifest decoded) as [m|] eqn:Em; [|done]. rewrite answered_bind.
    destruct (mismatched_alone (batches (cm_chunks m) HEAD_BATCH_SIZE) b) as [E Hall]. rewrite E.
    destruct (snd _) as [c|]; [done|]. cbn [answered query req_bind fst snd].
    destruct (bucket_head _ b) eqn:Eh; [done|]. cbn. rewrite batches_concat in Hall by (unfold HEAD_BATCH_SIZE; lia).
    rewrite orb_false_iff, Z.eqb_neq, Z.ltb_ge in Esize. eapply registry_put_manifest; try done; [lia|auto].
Qed.
Lemma uploadAll_ok rqs b : registry_ok b -> registry_ok (uploadAll rqs b).
Proof. revert b. induction rqs as [|rq rqs IH]; intros b Hb; [done|]. by apply IH, upload_alone_ok. Qed.

(** ** Any number of uploads side by side *)

Section overlapping.
Variable admitted : UploadRequest -> Prop.

(** Uploads of one chunk say and hold the same, and texts of one digest are one. *)
Record agreeing : Prop := mk_agreeing {
  ag_chunks : forall r1 a1 p1 c1 r2 a2 p2 c2, admitted (up_chunk r1 a1 p1) -> admitted (up_chunk r2 a2 p2) ->
    readChunkUpload r1 p1 = Some c1 -> readChunkUpload r2 p2 = Some c2 -> ch_raw_sha256 c1 = ch_raw_sha256 c2 ->
    c1 = c2 /\ cu_payload r1 = cu_payload r2;
  ag_manifests : forall r1 a1 p1 r2 a2 p2, admitted (up_manifest r1 a1 p1) -> admitted (up_manifest r2 a2 p2) ->
    sha256Hex (mu_payload r1) = sha256Hex (mu_payload r2) -> mu_payload r1 = mu_payload r2;
}.
Hypothesis Hagree : agreeing.

(** Every object is what an admitted upload puts. *)
Record put_by_uploads (b : Bucket) : Prop := mk_put_by_uploads {
  pu_chunks : forall raw o, bucket_head (imageChunkObjectKey raw) b = Some o ->
    exists request authz path c, admitted (up_chunk request authz path) /\ readChunkUpload request path = Some c /\
      ch_raw_sha256 c = raw /\ o = chunkObject c (cu_payload request);
  pu_manifests : forall sha o, bucket_head (imageManifestObjectKey sha) b = Some o ->
    exists request authz path decoded m, admitted (up_manifest request authz path) /\
      sha256Hex (mu_payload request) = sha /\ decodeJson (mu_payload request) = Some decoded /\
      validateImageChunkManifest decoded = Ok m /\ o = manifestObject sha m (mu_payload request);
}.
Definition consistent (b : Bucket) : Prop := registry_ok b /\ put_by_uploads b.
Definition objects_stay (b b' : Bucket) : Prop := forall k o, bucket_head k b = Some o -> bucket_head k b' = Some o.

Lemma stay_refl b : objects_stay b b.
Proof. by intros k o. Qed.
Lemma stay_trans a b c : objects_stay a b -> objects_stay b c -> objects_stay a c.
Proof. intros H1 H2 k o Hk. by apply H2, H1. Qed.
Lemma consistent_empty : consistent [].
Proof. split; [apply registry_empty|]. by constructor. Qed.

(** A put that finds the object it would put changes nothing. *)
Lemma put_again key o b : bucket_head key b = Some o -> forall k, bucket_head k (bucket_put key o b) = bucket_head k b.
Proof.
  unfold bucket_head, bucket_put. intros Ho k. destruct (decide (k = key)) as [->|Hne]; [by rewrite Map_get_set_eq|].
  by rewrite Map_get_set_ne.
Qed.
Lemma consistent_same b b' : (forall k, bucket_head k b' = bucket_head k b) -> consistent b -> consistent b'.
Proof.
  intros E [[Hc Hm] [Pc Pm]]. split; constructor.
  - intros raw o. rewrite E. apply Hc.
  - intros sha o. rewrite E. intros Ho. destruct (Hm sha o Ho) as (m & (o' & d & Ho' & Hr) & Hall). exists m. split.
    + exists o', d. by rewrite E.
    + eapply Forall_impl; [exact Hall|]. intros c. unfold chunkStored. by rewrite E.
  - intros raw o. rewrite E. apply Pc.
  - intros sha o. rewrite E. apply Pm.
Qed.

Lemma put_chunk_consistent b request authz path c :
  consistent b -> admitted (up_chunk request authz path) -> readChunkUpload request path = Some c ->
  sha256Hex (cu_payload request) = ch_encoded_sha256 c ->
  let b' := bucket_put (imageChunkObjectKey (ch_raw_sha256 c)) (chunkObject c (cu_payload request)) b in
  consistent b' /\ objects_stay b b'.
Proof.
  intros Hb Ha Hc Hsha b'. destruct (bucket_head (imageChunkObjectKey (ch_raw_sha256 c)) b) as [o|] eqn:Eo.
  - assert (o = chunkObject c (cu_payload request)) as ->.
    { destruct (pu_chunks _ (proj2 Hb) _ _ Eo) as (r & a & p & c' & Ha' & Hc' & Er & ->).
      by destruct (ag_chunks Hagree _ _ _ _ _ _ _ _ Ha' Ha Hc' Hc Er) as [-> ->]. }
    split; [apply (consistent_same b); [by apply put_again|done]|]. intros k o Hk. unfold b'. by rewrite put_again.
  - destruct Hb as [Hr [Pc Pm]]. split; [split; [by apply registry_put_chunk|constructor]|intros k o; by apply put_keeps].
    + intros raw o. unfold b', bucket_head, bucket_put.
      destruct (decide (imageChunkObjectKey raw = imageChunkObjectKey (ch_raw_sha256 c))) as [E|Hne].
      * rewrite E, Map_get_set_eq. intros [= <-]. apply imageChunkObjectKey_inj in E. exists request, authz, path, c. by split_and!.
      * rewrite Map_get_set_ne by done. apply Pc.
    + intros sha o. unfold b', bucket_head, bucket_put. rewrite Map_get_set_ne; [apply Pm|].
      intros E. by apply (chunk_manifest_keys (ch_raw_sha256 c) sha).
Qed.
Lemma put_manifest_consistent b request authz path decoded m :
  consistent b -> admitted (up_manifest request authz path) -> decodeJson (mu_payload request) = Some decoded ->
  validateImageChunkManifest decoded = Ok m -> 0 < Z.of_nat (length (mu_payload request)) <= MAX_MANIFEST_BYTES ->
  Forall (fun c => chunkStored b c = true) (cm_chunks m) ->
  let sha := sha256Hex (mu_payload request) in
  let b' := bucket_put (imageManifestObjectKey sha) (manifestObject sha m (mu_payload request)) b in
  consistent b' /\ objects_stay b b'.
Proof.
  intros Hb Ha Hd Hv Hsize Hall sha b'. destruct (bucket_head (imageManifestObjectKey sha) b) as [o|] eqn:Eo.
  - assert (o = manifestObject sha m (mu_payload request)) as ->.
    { destruct (pu_manifests _ (proj2 Hb) _ _ Eo) as (r & a & p & d & m' & Ha' & Es & Hd' & Hv' & ->).
      rewrite (ag_manifests Hagree _ _ _ _ _ _ Ha' Ha Es) in Hd' |- *. rewrite Hd in Hd'. injection Hd' as <-. rewrite Hv in Hv'. by injection Hv' as <-. }
    split; [apply (consistent_same b); [by apply put_again|done]|]. intros k o Hk. unfold b'. by rewrite put_again.
  - destruct Hb as [Hr [Pc Pm]].
    split; [split; [by eapply registry_put_manifest|constructor]|intros k o; by apply put_keeps].
    + intros raw o. unfold b', bucket_head, bucket_put. rewrite Map_get_set_ne; [apply Pc|]. apply chunk_manifest_keys.
    + intros sha' o. unfold b', bucket_head, bucket_put.
      destruct (decide (sha' = sha)) as [->|Hne].
      * rewrite Map_get_set_eq. intros [= <-]. exists request, authz, path, decoded, m. by split_and!.
      * rewrite Map_get_set_ne; [apply Pm|]. intros E%imageManifestObjectKey_inj. done.
Qed.

#[local] Abbreviation safely := (secures consistent objects_stay objects_stay).
Lemma heads_safely keys s :
  safely (fun s' os => objects_stay s s' /\ Forall2 (fun k o => forall x, o = Some x -> bucket_head k s' = Some x) keys os) s (heads keys).
Proof.
  revert s. induction keys as [|k keys IH]; intros s; [by split; [apply stay_refl|constructor]|]. cbn [heads].
  intros s1 Hi Hs. cbn [fst snd]. split_and!; [done|apply stay_refl|]. cbn [req_bind].
  eapply secures_seq; [apply IH|]. intros s2 os [Hs2 Hos]. cbn. split; [by eapply stay_trans|].
  constructor; [|done]. intros x Hx. by apply Hs2.
Qed.
Lemma mismatched_safely groups s :
  safely (fun s' r => objects_stay s s' /\ (r = None -> Forall (fun c => chunkStored s' c = true) (concat groups))) s (mismatchedChunk groups).
Proof.
  revert s. induction groups as [|batch groups IH]; intros s; [by split; [apply stay_refl|constructor]|]. cbn [mismatchedChunk concat].
  eapply secures_seq; [apply heads_safely|]. intros s1 os [Hs1 Hos]. cbn beta.
  destruct (List.find _ _) as [[c o]|] eqn:Ef; [done|].
  eapply secures_weaken; [|apply IH]. intros s2 r [Hs2 Hall]. split; [by eapply stay_trans|]. intros Hr.
  apply Forall_app. split; [|auto]. apply found_mismatch in Ef; [|by rewrite <- (Forall2_length _ _ _ Hos), length_map].
  clear -Ef Hos Hs2. revert os Ef Hos. induction batch as [|c batch IH]; intros os Ef Hos; [constructor|].
  inversion Ef as [|? o ? os' Em Ef']; subst. inversion Hos as [|? ? ? ? Ho Hos']; subst. constructor; [|by eapply IH].
  destruct o as [x|]; [|done]. unfold chunkStored. by rewrite (Hs2 _ _ (Ho x eq_refl)).
Qed.
Lemma upload_safely rq s : admitted rq -> safely (fun _ _ => True) s (upload rq).
Proof.
  intros Ha. destruct rq as [request authz path|request authz path]; cbn [upload].
  - unfold handleImageChunkUpload. destruct (negb (cu_method request =s "PUT")); [done|]. destruct authz; [done|].
    destruct (readChunkUpload request path) as [c|] eqn:Ec; [|done]. destruct (negb (_ =? _)); [done|].
    destruct (String.eqb_spec (sha256Hex (cu_payload request)) (ch_encoded_sha256 c)) as [Hsha|]; [|done]. cbn [negb].
    apply (secures_seq _ _ _ (fun _ _ => True)); [apply secures_query; [apply stay_refl|done]|]. intros s1 [o|] _; [done|].
    apply (secures_seq _ _ _ (fun _ _ => True)); [|done]. apply secures_transaction. intros s2 Hi _. cbn [fst snd].
    destruct (put_chunk_consistent s2 request _ path c Hi Ha Ec Hsha). by split_and!.
  - unfold handleImageManifestUpload. destruct (negb (mu_method request =s "PUT")); [done|]. destruct authz; [done|].
    destruct (normalizeSha256 path) as [sha|]; [|done]. destruct (negb (bool_decide _)); [done|].
    destruct ((Z.of_nat (length (mu_payload request)) =? 0) || _) eqn:Esize; [done|].
    destruct (String.eqb_spec (sha256Hex (mu_payload request)) sha) as [Hsha|]; [|done]. cbn [negb].
    destruct (decodeJson (mu_payload request)) as [decoded|] eqn:Ed; [|done].
    destruct (validateImageChunkManifest decoded) as [m|] eqn:Em; [|done]. rewrite orb_false_iff, Z.eqb_neq, Z.ltb_ge in Esize.
    eapply secures_seq; [apply mismatched_safely|]. intros s1 [c|] [_ Hall]; [done|]. cbn beta in *.
    rewrite batches_concat in Hall by (unfold HEAD_BATCH_SIZE; lia). specialize (Hall eq_refl).
    apply (secures_seq _ _ _ (fun s' _ => Forall (fun c => chunkStored s' c = true) (cm_chunks m))).
    { apply secures_query; [apply stay_refl|]. intros s2 _ Hs2. eapply Forall_impl; [exact Hall|]. intros c. by apply chunkStored_keeps. }
    intros s2 [o|] Hall2; [done|]. apply (secures_seq _ _ _ (fun _ _ => True)); [|done]. apply secures_transaction.
    intros s3 Hi Hs3. cbn [fst snd]. rewrite <- Hsha.
    destruct (put_manifest_consistent s3 request _ path decoded m Hi Ha Ed Em) as [? ?]; [lia| |by split_and!].
    eapply Forall_impl; [exact Hall2|]. intros c. by apply chunkStored_keeps.
Qed.

(** The uploads that run, and nothing else on the bucket. *)
Definition uploads (_ : nat) (p : Registry HttpResponse) : Prop := exists rq, admitted rq /\ p = upload rq.
Definition nobody (_ _ : Bucket) : Prop := False.
Lemma uploads_compatible :
  compatible uploads nobody consistent (fun _ => objects_stay) (fun _ => objects_stay) (fun _ _ => True).
Proof.
  constructor; try done; try (intros; apply stay_refl).
  - intros r a b c. apply stay_trans.
  - intros r p s (rq & Ha & ->) _ _. by apply upload_safely.
Qed.
Lemma uploads_reach c c' :
  rtc (pool_step uploads nobody) c c' ->
  pool_ok consistent (fun _ => objects_stay) (fun _ => objects_stay) (fun _ _ => True) c ->
  pool_ok consistent (fun _ => objects_stay) (fun _ => objects_stay) (fun _ _ => True) c' /\
  objects_stay (pl_state c) (pl_state c').
Proof.
  induction 1 as [c|c c1 c' Hs _ IH]; intros Hc; [split; [done|apply stay_refl]|].
  destruct (pool_step_ok _ _ _ _ _ _ uploads_compatible _ _ Hs Hc) as [Hc1 Hp]. destruct (IH Hc1) as [? Hs']. split; [done|].
  eapply stay_trans; [|exact Hs']. destruct Hp as [->|[[]|[_ ?]]]; [apply stay_refl|done].
Qed.
Lemma uploads_start : pool_ok consistent (fun _ => objects_stay) (fun _ => objects_stay) (fun _ _ => True) (mkPool (E := NoCall) (A := HttpResponse) [] 0 []).
Proof. constructor; cbn; [apply consistent_empty|constructor|constructor|done|constructor]. Qed.
End overlapping.

Lemma served_manifest b sha m o :
  bucket_head (imageManifestObjectKey sha) b = Some o -> holdsManifest b sha m ->
  checkManifest sha (Some o) = Some (ro_body o, m).
Proof.
  intros Ho (o' & decoded & Ho' & Hsha & Hsize & Hd & Hv). rewrite Ho in Ho'. injection Ho' as <-.
  unfold checkManifest. cbn [mbind option_bind].
  destruct (Z.leb_spec (ro_size o) 0); [lia|]. destruct (Z.ltb_spec MAX_MANIFEST_BYTES (ro_size o)); [lia|].
  cbn [orb]. rewrite Hsha, String.eqb_refl. cbn [negb]. rewrite Hd. cbn [mbind option_bind]. by rewrite Hv.
Qed.

Lemma matches_descriptor o c :
  chunkObjectMatchesDescriptor (Some o) c = true ->
  meta o "encoded_sha256" = Some (ch_encoded_sha256 c) /\ ro_size o = ch_encoded_size_bytes c.
Proof.
  unfold chunkObjectMatchesDescriptor. rewrite !andb_true_iff, !bool_decide_eq_true, Z.eqb_eq. tauto.
Qed.

(** A download while others leave the stored objects as they are. *)
Lemma served_document others b m sha o still calls b' r :
  (forall x y, others x y -> objects_stay x y) -> bucket_head (imageManifestObjectKey sha) b = Some o ->
  holdsManifest b sha m -> still (cm_image_id m) = true ->
  runs others (handleAgentManifestContent "GET" None true still sha None) b calls b' r -> r = inr (ro_body o).
Proof.
  intros Ho Hb Hm Hs Hrun. unfold handleAgentManifestContent in Hrun. cbn [String.eqb Ascii.eqb Bool.eqb negb] in Hrun.
  apply runs_inv in Hrun as (b1 & H1 & Hrun). cbn [fst snd req_bind] in Hrun. rewrite (Ho _ _ H1 _ _ Hb) in Hrun.
  rewrite (served_manifest _ _ _ _ Hb Hm) in Hrun. cbn [servedContent req_bind] in Hrun. rewrite Hs in Hrun.
  by apply runs_inv in Hrun as (_ & _ & ->).
Qed.
Lemma served_chunk others b m sha o c still calls b' r :
  (forall x y, others x y -> objects_stay x y) -> registry_ok b -> bucket_head (imageManifestObjectKey sha) b = Some o ->
  holdsManifest b sha m -> Forall (fun c => chunkStored b c = true) (cm_chunks m) -> In c (cm_chunks m) ->
  still (cm_image_id m) = true ->
  runs others (handleAgentManifestContent "GET" None true still sha (Some (ch_raw_sha256 c))) b calls b' r ->
  exists body, r = inr body /\ sha256Hex body = ch_encoded_sha256 c /\ Z.of_nat (length body) = ch_encoded_size_bytes c.
Proof.
  intros Ho Hok Hb Hm Hall Hc Hs Hrun. unfold handleAgentManifestContent in Hrun. cbn [String.eqb Ascii.eqb Bool.eqb negb] in Hrun.
  apply runs_inv in Hrun as (b1 & H1 & Hrun). cbn [fst snd req_bind] in Hrun. rewrite (Ho _ _ H1 _ _ Hb) in Hrun.
  rewrite (served_manifest _ _ _ _ Hb Hm) in Hrun. unfold servedContent in Hrun.
  destruct (List.find (fun c' => ch_raw_sha256 c' =s ch_raw_sha256 c) (cm_chunks m)) as [c'|] eqn:Ef.
  2:{ apply find_none with (x := c) in Ef; [|done]. by rewrite String.eqb_refl in Ef. }
  apply find_some in Ef as [Hc' E]. apply String.eqb_eq in E.
  apply runs_inv in Hrun as (b2 & H2 & Hrun). cbn [fst snd req_bind] in Hrun.
  rewrite List.Forall_forall in Hall. pose proof (Hall c Hc) as Hsc. pose proof (Hall c' Hc') as Hsc'.
  unfold chunkStored in Hsc, Hsc'. rewrite E in Hsc'.
  destruct (bucket_head (imageChunkObjectKey (ch_raw_sha256 c)) b) as [oc|] eqn:Eo; [|done].
  rewrite (Ho _ _ H2 _ _ (Ho _ _ H1 _ _ Eo)), Hsc' in Hrun. cbn [req_bind] in Hrun. rewrite Hs in Hrun.
  apply runs_inv in Hrun as (_ & _ & ->). apply matches_descriptor in Hsc as [Henc Hsize].
  exists (ro_body oc). split_and!; [done| |done]. pose proof (ro_chunks _ Hok _ _ Eo). congruence.
Qed.

(** C23. Whatever is uploaded, a manifest in the registry is the whole of its image: when
    any number of chunk and manifest uploads overlap, any of them stopping at any point,
    and uploads of one chunk agree on what they hold, a stored manifest stays as it is,
    and while further uploads run, an agent that may read it is given the document its
    digest names, and for every chunk it lists the bytes of the digest and size it
    lists. *)
Theorem uploaded_image_is_served admitted c sha o
  (Hagree : agreeing admitted)
  (Hreach : rtc (pool_step (uploads admitted) nobody) (mkPool [] 0 []) c)
  (Ho : bucket_head (imageManifestObjectKey sha) (pl_state c) = Some o) :
  exists m, sha256Hex (ro_body o) = sha /\ manifest_ok m /\
  (forall c', rtc (pool_step (uploads admitted) nobody) c c' -> objects_stay (pl_state c) (pl_state c')) /\
  forall still others calls b' r, still (cm_image_id m) = true -> (forall x y, others x y -> objects_stay x y) ->
    (runs others (handleAgentManifestContent "GET" None true still sha None) (pl_state c) calls b' r -> r = inr (ro_body o)) /\
    forall ch, In ch (cm_chunks m) ->
      runs others (handleAgentManifestContent "GET" None true still sha (Some (ch_raw_sha256 ch))) (pl_state c) calls b' r ->
      exists body, r = inr body /\ sha256Hex body = ch_encoded_sha256 ch /\ Z.of_nat (length body) = ch_encoded_size_bytes ch.
Proof.
  destruct (uploads_reach _ Hagree _ _ Hreach (uploads_start _)) as [Hok _]. destruct (ok_state _ _ _ _ _ Hok) as [Hreg _].
  destruct (ro_manifests _ Hreg sha o Ho) as (m & Hm & Hall). exists m. split_and!.
  - destruct Hm as (o' & _ & Ho' & Hsha & _). congruence.
  - destruct Hm as (o' & d & _ & _ & _ & _ & Hv). by eapply validate_spec.
  - intros c' Hr. by destruct (uploads_reach _ Hagree _ _ Hr Hok).
  - intros still others calls b' r Hs Hot. split; [by eapply served_document|]. intros ch Hch. by eapply served_chunk.
Qed.


End bucket.

(** * Round trips *)

Lemma hex_plain c : isLowerHex (Ascii.N_of_ascii c) = true -> js_space c = false /\ lower_ascii c = c.
Proof. by destruct c as [[] [] [] [] [] [] [] []]. Qed.

Lemma trim_hex s : forallb isLowerHex (code_units s) = true -> trim s = s.
Proof.
  intros Hf. unfold trim.
  assert (trim_start s = s) as ->.
  { destruct s as [|c s]; [done|]. cbn [code_units forallb] in Hf. apply andb_true_iff in Hf as [Hc _].
    cbn [trim_start]. by destruct (hex_plain _ Hc) as [-> _]. }
  induction s as [|c s IH]; [done|]. cbn [code_units forallb] in Hf. apply andb_true_iff in Hf as [Hc Hf].
  cbn [trim_end]. rewrite (IH Hf). destruct (hex_plain _ Hc) as [-> _]. by destruct s.
Qed.

Lemma lower_hex s : forallb isLowerHex (code_units s) = true -> toLowerCase s = s.
Proof.
  induction s as [|c s IH]; intros Hf; [done|]. cbn [code_units forallb] in Hf. apply andb_true_iff in Hf as [Hc Hf].
  cbn [toLowerCase]. rewrite (IH Hf). by destruct (hex_plain _ Hc) as [_ ->].
Qed.

Lemma normalizeSha256_id s : SHA256_RE s = true -> normalizeSha256 s = Some s.
Proof.
  intros Hs. pose proof Hs as [_ Hf]%SHA256_RE_spec. unfold normalizeSha256. by rewrite trim_hex, lower_hex, Hs.
Qed.

Lemma readSha256_id s : SHA256_RE s = true -> readSha256 (Some (JStr s)) = Some s.
Proof.
  intros Hs. pose proof Hs as [Hl Hf]%SHA256_RE_spec. unfold readSha256, readString. rewrite (trim_hex s) by done.
  unfold or_null. assert (truthy s = true) as ->. { apply truthy_spec. intros ->. done. }
  by apply normalizeSha256_id.
Qed.

Section canonical.
Context `{Sha256}.

Lemma finalChunkSize_bounds size : 0 < size -> 0 < finalChunkSizeOf size <= CHUNK_SIZE_BYTES.
Proof.
  unfold finalChunkSizeOf, CHUNK_SIZE_BYTES. intros Hs.
  pose proof (Z.mod_pos_bound size (4 * 1024 * 1024) ltac:(lia)).
  destruct (Z.eqb_spec (size mod (4 * 1024 * 1024)) 0); lia.
Qed.

(** A chunk that may follow position [previous] is read back from its document. *)
Lemma readChunk_encode size previous c :
  0 < size <= MAX_IMAGE_BYTES -> previous < ch_index c < chunkCountOf size -> 0 <= ch_index c ->
  chunk_ok size (finalZeroSha256Of size) c ->
  readChunk size (finalZeroSha256Of size) previous (encodeChunk c) = Ok c.
Proof.
  intros Hsize Hi H0 (Hraw & Henc & Hrs & Hes & Hz). unfold readChunk, encodeChunk.
  cbn [isRecord negb field Map_get String.eqb Ascii.eqb Bool.eqb].
  rewrite !readSha256_id by done. destruct (chunkCount_bounds _ Hsize) as [_ Hcc].
  assert (Hsafe : forall z, 0 <= z < 2 ^ 33 -> safeNumber (Some (JNum (NInt z))) = Some z).
  { intros z Hz'. unfold safeNumber, safe_integer, MAX_SAFE_INTEGER. destruct (Z.leb_spec (Z.abs z) (2 ^ 53 - 1)); [done|lia]. }
  pose proof (finalChunkSize_bounds size ltac:(lia)).
  assert (0 <= ch_raw_size_bytes c < 2 ^ 33).
  { rewrite Hrs. unfold CHUNK_SIZE_BYTES in *. case_match; lia. }
  unfold MAX_ENCODED_CHUNK_BYTES, CHUNK_SIZE_BYTES in Hes.
  rewrite !Hsafe by lia. rewrite <- Hrs, Z.eqb_refl. cbn [negb].
  destruct (Z.leb_spec (ch_index c) previous); [lia|]. destruct (Z.leb_spec (chunkCountOf size) (ch_index c)); [lia|].
  destruct (Z.leb_spec (ch_encoded_size_bytes c) 0); [lia|].
  destruct (Z.ltb_spec MAX_ENCODED_CHUNK_BYTES (ch_encoded_size_bytes c));
    [unfold MAX_ENCODED_CHUNK_BYTES, CHUNK_SIZE_BYTES in *; lia|]. cbn [orb].
  apply String.eqb_neq in Hz. rewrite Hz. by destruct c.
Qed.

Lemma readChunks_encode size previous cs :
  0 < size <= MAX_IMAGE_BYTES -> -1 <= previous ->
  ascending (previous + 1) (chunkCountOf size) cs -> Forall (chunk_ok size (finalZeroSha256Of size)) cs ->
  readChunks size (finalZeroSha256Of size) previous (map encodeChunk cs) = Ok cs.
Proof.
  intros Hsize. revert previous. induction cs as [|c cs IH]; intros previous Hp Ha Hf; [done|].
  destruct Ha as [Hi Ha]. inversion Hf; subst. cbn [map readChunks].
  rewrite readChunk_encode by (done || lia). cbn [result_bind]. rewrite IH by (done || lia). done.
Qed.

(** A manifest that is well formed is read back from its document. *)
Theorem manifest_round_trip m (Hm : manifest_ok m) :
  validateImageChunkManifest (encodeChunkManifest m) = Ok m.
Proof.
  destruct Hm as [Hsize Ha Hf Hid]. unfold validateImageChunkManifest, encodeChunkManifest.
  cbn [isRecord negb field Map_get String.eqb Ascii.eqb Bool.eqb isJsonNumber].
  rewrite !Z.eqb_refl, bool_decide_eq_true_2 by done. cbn [andb].
  assert (Hsafe : safeNumber (Some (JNum (NInt (cm_virtual_size_bytes m)))) = Some (cm_virtual_size_bytes m)).
  { unfold safeNumber, safe_integer, MAX_SAFE_INTEGER, MAX_IMAGE_BYTES in *.
    destruct (Z.leb_spec (Z.abs (cm_virtual_size_bytes m)) (2 ^ 53 - 1)); [done|lia]. }
  rewrite Hsafe, readSha256_id by (rewrite <- Hid; apply sha256Hex_form).
  destruct (Z.leb_spec (cm_virtual_size_bytes m) 0); [lia|].
  destruct (Z.ltb_spec MAX_IMAGE_BYTES (cm_virtual_size_bytes m)); [lia|]. cbn [orb].
  rewrite readChunks_encode by (done || lia). cbn [result_bind].
  assert (E : mkChunkManifest (cm_image_id m) (cm_virtual_size_bytes m) (cm_chunks m) = m) by (by destruct m).
  rewrite E, Hid, String.eqb_refl. done.
Qed.

(** The canonical manifest of a list of digests is well formed. *)
Lemma canonical_ok size shas :
  0 < size <= MAX_IMAGE_BYTES -> Z.of_nat (length shas) <= chunkCountOf size ->
  (forall i sha, shas !! i = Some sha -> SHA256_RE sha = true /\
     sha <> zeroSha256At size (finalZeroSha256Of size) (Z.of_nat i)) ->
  manifest_ok (canonicalImageChunkManifest size shas).
Proof.
  intros Hsize Hlen Hshas. constructor; cbn [canonicalImageChunkManifest cm_virtual_size_bytes cm_chunks cm_image_id].
  - done.
  - assert (Hg : forall l (off : nat), Z.of_nat (off + length l) <= chunkCountOf size ->
      ascending (Z.of_nat off) (chunkCountOf size) (imap (fun i => canonicalChunk size (off + i)) l)).
    { induction l as [|s l IH]; intros off Hl; [done|]. cbn [imap length] in *. split; cbn [canonicalChunk ch_index]; [lia|].
      replace (Z.of_nat (off + 0) + 1) with (Z.of_nat (S off)) by lia.
      erewrite imap_ext; [apply IH; lia|]. intros i x _. cbn. f_equal. lia. }
    by apply (Hg shas 0%nat).
  - apply Forall_forall. intros c (i & sha & -> & Hi)%elem_of_lookup_imap_1.
    destruct (Hshas i sha Hi) as [H1 H2]. unfold chunk_ok, MAX_ENCODED_CHUNK_BYTES.
    split_and!; [done|done|done|cbn; lia|by vm_compute|done].
  - done.
Qed.

(** What was uploaded is found by its descriptor. *)
Lemma stored_as_uploaded request path b c :
  readChunkUpload request path = Some c -> Z.of_nat (length (cu_payload request)) = ch_encoded_size_bytes c ->
  bucket_head (imageChunkObjectKey (ch_raw_sha256 c)) b = Some (chunkObject c (cu_payload request)) -> chunkStored b c = true.
Proof.
  intros Hc Hl Hb. unfold chunkStored. rewrite Hb.
    unfold readChunkUpload in Hc. destruct (normalizeSha256 path) as [raw|] eqn:Er; [|done].
    destruct (normalizeSha256 (nullish (cu_encodedSha256 request) "")) as [enc|] eqn:Ee; [|done].
    destruct (parsePositiveIntegerHeader (cu_rawSize request)) as [rs|] eqn:Ers; [|done].
    destruct (parsePositiveIntegerHeader (cu_encodedSize request)) as [es|] eqn:Ees; [|done].
    destruct (bool_decide _ && _ && _) eqn:Eb; [|done]. injection Hc as <-. cbn in *.
    rewrite !andb_true_iff, !Z.leb_le in Eb. destruct Eb as [[_ Brs] Bes].
    assert (Hpos : forall h n, parsePositiveIntegerHeader h = Some n -> 0 < n <= MAX_SAFE_INTEGER).
    { intros h n. unfold parsePositiveIntegerHeader. destruct (Number_integer _); [|done]. cbn [mbind option_bind].
      destruct (safe_integer z && (0 <? z)) eqn:Ez; [|done]. intros [= <-]. unfold safe_integer in Ez.
      rewrite andb_true_iff, Z.leb_le, Z.ltb_lt in Ez. unfold MAX_SAFE_INTEGER in *. lia. }
    apply Hpos in Ers, Ees.
    unfold chunkObjectMatchesDescriptor, chunkObjectMatchesRawHash, chunkObjectDescriptor, metaSize, meta, chunkObject.
    cbn [ro_customMetadata Map_get String.eqb Ascii.eqb Bool.eqb ch_raw_sha256 ch_encoded_sha256 ch_raw_size_bytes
      ch_encoded_size_bytes nullish mbind option_bind].
    rewrite !Number_pretty by lia. rewrite (normalizeSha256_id enc) by (by eapply normalizeSha256_form).
    assert (Hsafe : forall z, 0 < z <= MAX_SAFE_INTEGER -> safe_integer z && (0 <? z) = true).
    { intros z Hz. unfold safe_integer. rewrite andb_true_iff, Z.leb_le, Z.ltb_lt. lia. }
    cbn [mbind option_bind]. rewrite !Hsafe by done. unfold ro_size. cbn [ro_body]. rewrite Hl.
    apply Z.leb_le in Brs, Bes. rewrite Brs, Bes, Z.eqb_refl. rewrite !(bool_decide_eq_true_2 (Some _ = Some _)) by done. cbn [andb].
    by rewrite bool_decide_eq_true_2 by (by eexists).
Qed.

(** An upload that is answered 201 can be found, whatever comes between its two
    accesses: the chunk matches what it was uploaded as, so a manifest that lists it is
    not refused for it. *)
Theorem uploaded_chunk_is_found others request path b c calls b'
  (Hc : readChunkUpload request path = Some c)
  (Hup : runs others (handleImageChunkUpload request None path) b calls b'
           (storedResponse (imageChunkObjectKey (ch_raw_sha256 c)) false)) :
  chunkStored b' c = true.
Proof.
  unfold handleImageChunkUpload in Hup. rewrite Hc in Hup. destruct (negb (cu_method request =s "PUT")); [by apply runs_inv in Hup as (_ & _ & ?)|].
  destruct (Z.eqb_spec (Z.of_nat (length (cu_payload request))) (ch_encoded_size_bytes c)) as [Hl|];
    [|by apply runs_inv in Hup as (_ & _ & ?)]. cbn [negb] in Hup.
  destruct (negb (_ =s _)); [by apply runs_inv in Hup as (_ & _ & ?)|].
  apply runs_inv in Hup as (b1 & _ & Hup). cbn [fst snd req_bind] in Hup.
  destruct (bucket_head _ b1) as [o|]; [apply runs_inv in Hup as (_ & _ & E); by destruct (chunkObjectMatchesDescriptor _ _)|].
  apply runs_inv in Hup as (b2 & _ & Hup). cbn [fst snd req_bind] in Hup. apply runs_inv in Hup as (_ & -> & _).
  eapply stored_as_uploaded; [exact Hc|exact Hl|apply Map_get_set_eq].
Qed.

(** Two uploads of one chunk in two encodings that overlap are both accepted, and
    the later put replaces the object the first was told is stored. *)
Lemma racing_uploads_replace r1 r2 path1 path2 b c1 c2 :
  cu_method r1 = "PUT" -> cu_method r2 = "PUT" ->
  readChunkUpload r1 path1 = Some c1 -> readChunkUpload r2 path2 = Some c2 ->
  Z.of_nat (length (cu_payload r1)) = ch_encoded_size_bytes c1 -> sha256Hex (cu_payload r1) = ch_encoded_sha256 c1 ->
  Z.of_nat (length (cu_payload r2)) = ch_encoded_size_bytes c2 -> sha256Hex (cu_payload r2) = ch_encoded_sha256 c2 ->
  ch_raw_sha256 c1 = ch_raw_sha256 c2 -> ch_encoded_sha256 c1 <> ch_encoded_sha256 c2 ->
  bucket_head (imageChunkObjectKey (ch_raw_sha256 c1)) b = None ->
  exists b1 b2 a1 a2,
    traced (fun x y => y = x \/ y = b1) (handleImageChunkUpload r2 None path2) b [accessed b b; accessed b1 b2] b2 a2 /\
    traced (fun x y => y = x) (handleImageChunkUpload r1 None path1) b [accessed b b; accessed b b1] b1 a1 /\
    rs_status a1 = 201 /\ rs_status a2 = 201 /\ chunkStored b1 c1 = true /\ chunkStored b2 c1 = false.
Proof.
  intros M1 M2 R1 R2 L1 S1 L2 S2 Eraw Henc Hn. set (key := imageChunkObjectKey (ch_raw_sha256 c1)).
  set (b1 := bucket_put key (chunkObject c1 (cu_payload r1)) b). set (b2 := bucket_put key (chunkObject c2 (cu_payload r2)) b1).
  exists b1, b2, (storedResponse key false), (storedResponse key false).
  unfold handleImageChunkUpload. rewrite M1, M2, R1, R2, L1, L2, S1, S2, !Z.eqb_refl, !String.eqb_refl, <- Eraw. cbn [negb].
  split_and!; [| |done|done| |].
  - refine (traced_atom _ _ _ _ _ b _ _ _ _ _); [by left|]. cbn [fst snd req_bind]. rewrite Hn.
    refine (traced_atom _ _ _ _ _ b1 _ _ _ _ _); [by right|]. apply traced_done.
  - refine (traced_atom _ _ _ _ _ b _ _ _ _ _); [done|]. cbn [fst snd req_bind]. rewrite Hn.
    refine (traced_atom _ _ _ _ _ b _ _ _ _ _); [done|]. apply traced_done.
  - eapply stored_as_uploaded; [exact R1|exact L1|]. apply Map_get_set_eq.
  - unfold chunkStored, bucket_head, b2, bucket_put. fold key. rewrite Map_get_set_eq.
    unfold chunkObjectMatchesDescriptor. cbn. rewrite (bool_decide_eq_false_2 (Some _ = Some _)); [|congruence].
    by rewrite andb_false_r.
Qed.
End canonical.

(** * Witnesses *)

(** A checksum of 32 bytes, and a document of one text. *)
Definition w_sha256 : Sha256.
Proof.
  refine {| digest bytes := replicate 31 0 ++ [Tar.sum bytes mod 256] |}.
  - intros bytes. by rewrite length_app, length_replicate.
  - intros bytes. apply Forall_app_2; [by apply Forall_replicate|]. constructor; [|constructor].
    apply Z.mod_pos_bound. lia.
Defined.
Definition w_raw : string := "0000000000000000000000000000000000000000000000000000000000000001".
Definition w_sha : string := "0000000000000000000000000000000000000000000000000000000000000007".
Definition w_manifest : ImageChunkManifest := @canonicalImageChunkManifest w_sha256 5 [w_raw].
Definition w_json : JsonText :=
  {| decodeJson bytes := if bool_decide (bytes = [7]) then Some (encodeChunkManifest w_manifest) else None |}.
Definition w_uploads : list UploadRequest :=
  [up_chunk (mkChunkUpload "PUT" (Some w_raw) (Some w_raw) (Some "5") (Some "1") [1]) None w_raw;
   up_manifest (mkManifestUpload "PUT" (Some w_sha) [7]) None w_sha].

(** The two uploads of the sample in one pool. *)
Module UploadSample.
#[local] Existing Instances w_sha256 w_json.
Definition admitted (rq : UploadRequest) : Prop := In rq w_uploads.
Definition chunk : UploadRequest := up_chunk (mkChunkUpload "PUT" (Some w_raw) (Some w_raw) (Some "5") (Some "1") [1]) None w_raw.
Definition manifest : UploadRequest := up_manifest (mkManifestUpload "PUT" (Some w_sha) [7]) None w_sha.
Definition first : Bucket * Registry HttpResponse := advanced noCalls 2 (upload chunk) [].
Definition second : Bucket * Registry HttpResponse := advanced noCalls 3 (upload manifest) (fst first).
Definition pool : Pool NoCall Bucket HttpResponse := mkPool (fst second) 2 (([] ++ [(0%nat, snd first)]) ++ [(1%nat, snd second)]).
Lemma agreed : agreeing admitted.
Proof.
  split.
  - intros r1 a1 p1 c1 r2 a2 p2 c2 H1 H2 R1 R2 _. unfold admitted, w_uploads in *. cbn in H1, H2.
    destruct H1 as [[= <- <- <-]|[?|[]]]; [|done]. destruct H2 as [[= <- <- <-]|[?|[]]]; [|done].
    rewrite R1 in R2. injection R2 as <-. done.
  - intros r1 a1 p1 r2 a2 p2 H1 H2 _. unfold admitted, w_uploads in *. cbn in H1, H2.
    destruct H1 as [?|[[= <- <- <-]|[]]]; [done|]. destruct H2 as [?|[[= <- <- <-]|[]]]; [done|]. done.
Qed.
Lemma reached : rtc (pool_step (uploads admitted) nobody) (mkPool [] 0 []) pool.
Proof.
  etransitivity; [apply (pool_alone _ _ noCalls 2 (upload chunk))|apply (pool_alone _ _ noCalls 3 (upload manifest))].
  - exists chunk. split; [by left|done].
  - exists manifest. split; [by right; left|done].
Qed.
End UploadSample.

Lemma image_id_fixes_content_witness :
  exists m, @validateImageChunkManifest w_sha256 (encodeChunkManifest w_manifest) = Ok m /\
  (cm_virtual_size_bytes m = cm_virtual_size_bytes m /\ map placed (cm_chunks m) = map placed (cm_chunks m) \/
   @idBytes w_sha256 m <> @idBytes w_sha256 m /\ @digest w_sha256 (@idBytes w_sha256 m) = @digest w_sha256 (@idBytes w_sha256 m)).
Proof.
  exists w_manifest. assert (H : @validateImageChunkManifest w_sha256 (encodeChunkManifest w_manifest) = Ok w_manifest)
    by (vm_compute; reflexivity).
  split; [exact H|]. exact (@image_id_fixes_content w_sha256 _ _ w_manifest w_manifest H H eq_refl).
Defined.

Lemma uploaded_image_is_served_witness :
  exists m, @sha256Hex w_sha256 [7] = w_sha /\ @manifest_ok w_sha256 m /\
    forall r, runs (fun x y => y = x) (@handleAgentManifestContent w_sha256 w_json "GET" None true (fun _ => true) w_sha None)
      (pl_state UploadSample.pool) [] (pl_state UploadSample.pool) r -> r = inr [7].
Proof.
  assert (H : bucket_head (imageManifestObjectKey w_sha) (pl_state UploadSample.pool) = Some (manifestObject w_sha w_manifest [7]))
    by (vm_compute; reflexivity).
  destruct (@uploaded_image_is_served w_sha256 w_json UploadSample.admitted UploadSample.pool w_sha _
    UploadSample.agreed UploadSample.reached H) as (m & H1 & H2 & _ & Hd).
  exists m. split; [exact H1|]. split; [exact H2|]. intros r Hr.
  refine (proj1 (Hd (fun _ => true) (fun x y => y = x) _ _ _ eq_refl _) Hr). intros x y -> k o. done.
Defined.


Lemma manifest_round_trip_witness :
  @validateImageChunkManifest w_sha256 (encodeChunkManifest w_manifest) = Ok w_manifest.
Proof.
  apply (@manifest_round_trip w_sha256 w_manifest). apply canonical_ok; [by vm_compute|by vm_compute|].
  intros [|[|i]] sha; intros Hs; [injection Hs as <-; by vm_compute|done|done].
Defined.
