(* ===== verification/RegistrySweep.v ===== *)
(** The sweep of the image registry (lib/image-registry-cleanup.ts): a listing of
    the bucket, the keys the retention projection proves are needed, the delete
    worklist, and the run that deletes it in batches under the sweep's lease. *)
From stdpp Require Import base list strings sorting pretty.
From Stdlib Require Import ZArith Lia.
From S2P Require Import Prelude Json Text RunState Bridge Store DesiredState Tar RegistryKeys RetentionPlans RetentionProjection RegistryAdmission RegistryChunks.

Open Scope string_scope.
Open Scope list_scope.
Open Scope Z_scope.

Definition DEFAULT_CLEANUP_OWNER : string := "image-registry-cleanup".
Definition DEFAULT_SWEEP_LEASE_MS : Z := 300000.
Definition DEFAULT_CLEANUP_BATCH_SIZE : nat := 200.
Definition DEFAULT_CLEANUP_MAX_DELETES : nat := 5000.
Definition MAX_ASSERT_KEYS : nat := 512.
Definition MAX_BULK_DELETE_KEYS : nat := 1000.
Definition MAX_REPORTED_DELETED_KEYS : nat := 5000.
Definition DEFAULT_CANDIDATE_LIST_LIMIT : nat := 5000.

Definition kindName (k : CleanupObjectKind) : string :=
  match k with
  | k_manifest => "manifest" | k_chunk => "chunk" | k_legacy_image => "legacy_image"
  | k_legacy_sidecar => "legacy_sidecar" | k_boot_artifact => "boot_artifact"
  end.
(** The place of a kind in [CLEANUP_DELETE_ORDER]. *)
Definition deleteOrder (k : CleanupObjectKind) : Z :=
  match k with
  | k_manifest => 0 | k_legacy_image => 1 | k_legacy_sidecar => 2 | k_chunk => 3 | k_boot_artifact => 4
  end.

Record CleanupFault : Type := mkCleanupFault {
  cf_code : string;
  cf_detail : string;
}.

(** * The listing *)

(** A page of [bucket.list]: keys and sizes. *)
Record ListPage : Type := mkPage {
  lp_objects : list (string * Z);
  lp_truncated : bool;
  lp_cursor : option string;
}.
Record BucketScan : Type := mkScan {
  bs_objects : list (string * SweptObject);
  bs_unrecognized : Z;
  bs_outOfScope : Z;
  bs_truncated : bool;
}.
Definition sweptPrefix (key : string) : bool :=
  bool_decide (is_Some (drop_prefix IMAGE_MANIFEST_PREFIX key))
  || bool_decide (is_Some (drop_prefix IMAGE_CHUNK_PREFIX key))
  || bool_decide (is_Some (drop_prefix ARTIFACT_PREFIX key))
  || bool_decide (is_Some (drop_prefix IMAGE_PREFIX key)).
Definition scanObject (scan : BucketScan) (object : string * Z) : BucketScan :=
  let '(key, size) := object in
  match parseSweptObjectKey key size with
  | Some swept => mkScan (Map_set (so_key swept) swept (bs_objects scan)) (bs_unrecognized scan)
                     (bs_outOfScope scan) (bs_truncated scan)
  | None =>
      if sweptPrefix key
      then mkScan (bs_objects scan) (bs_unrecognized scan + 1) (bs_outOfScope scan) (bs_truncated scan)
      else mkScan (bs_objects scan) (bs_unrecognized scan) (bs_outOfScope scan + 1) (bs_truncated scan)
  end.
Definition withTruncated (scan : BucketScan) (t : bool) : BucketScan :=
  mkScan (bs_objects scan) (bs_unrecognized scan) (bs_outOfScope scan) t.
(** [pages] are the answers of the successive calls; [None] is a call that throws. *)
Fixpoint scanPages (pages : list ListPage) (scan : BucketScan) : option BucketScan :=
  match pages with
  | [] => None
  | page :: rest =>
      let scan := fold_left scanObject (lp_objects page) scan in
      if negb (lp_truncated page) then Some (withTruncated scan false)
      else if negb (truthy_opt (lp_cursor page)) then Some (withTruncated scan true)
      else scanPages rest scan
  end.
Definition scanBucket (pages : list ListPage) : option BucketScan := scanPages pages (mkScan [] 0 0 false).

(** * What must stay *)

Record RetainedCoverage : Type := mkRetained {
  rv_retainedKeys : list string;
  rv_retainedByDigestOnly : Z;
  rv_faults : list CleanupFault;
}.
Definition inventoried (inventory : list (string * SweptObject)) (key : string) : bool :=
  bool_decide (is_Some (Map_get key inventory)).
Definition legacyImageKeyOf (root : ImageRoot) : string :=
  imageObjectKey (mkImageKey (rt_scenarioId root) (rt_vmName root) (rt_arch root)) (rt_imageId root).

(** What one step of the verification contributes. *)
Record VerifiedKeys : Type := mkVerified {
  vf_keys : list string;
  vf_imageIds : list string;
  vf_faults : list CleanupFault;
}.
Definition verifyFault (code detail : string) : VerifiedKeys := mkVerified [] [] [mkCleanupFault code detail].
Definition verifyAll (l : list VerifiedKeys) : VerifiedKeys :=
  mkVerified (flat_map vf_keys l) (flat_map vf_imageIds l) (flat_map vf_faults l).

Section sweep.
Context `{Collation} `{Sha256} `{JsonText}.

Definition readRetainedManifest (bytes : list Z) : result string ImageChunkManifest :=
  match decodeJson bytes with
  | None => Err "the body is not valid JSON"
  | Some decoded => validateImageChunkManifest decoded
  end.

Section verify.
Variable b : Bucket.
Variable inventory : list (string * SweptObject).

Definition verifyChunk (rawSha256 : string) : VerifiedKeys :=
  let chunkKey := IMAGE_CHUNK_PREFIX +:+ rawSha256 in
  if inventoried inventory chunkKey then mkVerified [chunkKey] [] []
  else verifyFault "retained_chunk_missing" ("a retained image chunk is not in the bucket: " +:+ chunkKey).
Definition verifyManifest (manifestSha256 : string) : VerifiedKeys :=
  let key := IMAGE_MANIFEST_PREFIX +:+ manifestSha256 +:+ ".json" in
  match bucket_head key b with
  | None =>
      verifyFault (if inventoried inventory key then "retained_manifest_unreadable" else "retained_manifest_missing")
        ("a retained image manifest is not readable: " +:+ key)
  | Some object =>
      if negb (sha256Hex (ro_body object) =s manifestSha256)
      then verifyFault "retained_manifest_mismatch"
             ("an image manifest body does not match its reference: " +:+ key)
      else match readRetainedManifest (ro_body object) with
           | Err detail => verifyFault "retained_manifest_invalid"
                             ("an image manifest is invalid (" +:+ detail +:+ "): " +:+ key)
           | Ok m => verifyAll (mkVerified [key] [cm_image_id m] []
                                :: map (fun c => verifyChunk (ch_raw_sha256 c)) (cm_chunks m))
           end
  end.
Definition verifyRoot (manifestCovered : list string) (root : ImageRoot) : VerifiedKeys :=
  let key := legacyImageKeyOf root in
  if inventoried inventory key then mkVerified [key] [] []
  else if str_mem (rt_imageId root) manifestCovered then mkVerified [] [] []
  else verifyFault "retained_image_missing"
         ("a retained image resolves to neither a legacy object nor a chunked manifest: " +:+ key).
(** A legacy image another key retains by its digest. *)
Definition retainedByDigest (imageIds retained : list string) (object : SweptObject) : bool :=
  bool_decide (so_kind object = k_legacy_image) && truthy (so_sha256 object)
  && negb (str_mem (so_key object) retained) && str_mem (so_sha256 object) imageIds.
Definition verifyBootArtifact (sha256 : string) : VerifiedKeys :=
  let key := ARTIFACT_PREFIX +:+ sha256 in
  if inventoried inventory key then mkVerified [key] [] []
  else verifyFault "retained_boot_artifact_missing" ("a retained boot artifact is not in the bucket: " +:+ key).

Definition verifyRetainedObjects (projection : RegistryRetentionProjection) : RetainedCoverage :=
  let manifests := verifyAll (map verifyManifest (pj_chunkManifestSha256s projection)) in
  let roots := verifyAll (map (verifyRoot (vf_imageIds manifests)) (pj_roots projection)) in
  let named := vf_keys manifests ++ vf_keys roots in
  let byDigest := filter (fun o => retainedByDigest (pj_imageIds projection) named o = true) (map snd inventory) in
  let boot := verifyAll (map verifyBootArtifact (pj_bootArtifactSha256s projection)) in
  mkRetained (Set_new (named ++ map so_key byDigest ++ vf_keys boot)) (Z.of_nat (length byDigest))
    (vf_faults manifests ++ vf_faults roots ++ vf_faults boot).
End verify.

(** * The worklist *)

Record CleanupKeysetSummary : Type := mkKeyset {
  ks_objects : Z;
  ks_bytes : Z;
  ks_digest : string;
}.
Record PlanObject : Type := mkPlanObject {
  po_key : string;
  po_bytes : Z;
  po_category : CleanupObjectKind;
  po_image_key : option string;
}.
Definition sumBytes (l : list Z) : Z := fold_right Z.add 0 l.

(** [new TextEncoder().encode] of a text of code units below 256. *)
Definition utf8 (s : string) : list Z :=
  flat_map (fun n => if n <? 128 then [n] else [192 + n / 64; 128 + n mod 64]) (codes s).
Definition tab : string := String (Ascii.ascii_of_nat 9) "".
Definition keyLine (key : string) (bytes : Z) : string := key +:+ tab +:+ pretty bytes.
Definition digestKeyLines (lines : list string) : string := sha256Hex (utf8 (join newline lines)).
Definition summarizeKeyset (objects : list (string * Z)) : CleanupKeysetSummary :=
  let ordered := js_sort (fun l r => str_leb (fst l) (fst r)) objects in
  mkKeyset (Z.of_nat (length ordered)) (sumBytes (map snd ordered))
    (digestKeyLines (map (fun o => keyLine (fst o) (snd o)) ordered)).
(** Objects and bytes by category, in the order the categories appear. *)
Definition byCategory (objects : list SweptObject) : list (string * (Z * Z)) :=
  fold_left (fun m o =>
    let '(n, bytes) := nullish (Map_get (kindName (so_kind o)) m) (0, 0) in
    Map_set (kindName (so_kind o)) (n + 1, bytes + so_bytes o) m) objects [].

Record CandidateSelection : Type := mkSelection {
  cl_candidates : list PlanObject;
  cl_candidateBytes : Z;
  cl_candidateTotal : Z;
  cl_candidatesByCategory : list (string * (Z * Z));
  cl_candidateKeysDigest : string;
}.
Definition planObjectOf (o : SweptObject) : PlanObject :=
  mkPlanObject (so_key o) (so_bytes o) (so_kind o) (so_imageKey o).
(** A retained image keeps its sidecar. *)
Definition withSidecars (retainedKeys : list string) : list string :=
  retainedKeys ++ flat_map (fun key => match drop_suffix LEGACY_SUFFIX key with
                                       | Some _ => [key +:+ SIDECAR_SUFFIX]
                                       | None => []
                                       end) retainedKeys.
Definition byDeleteOrder (compare : string -> string -> Z) (k1 : CleanupObjectKind) (key1 : string)
    (k2 : CleanupObjectKind) (key2 : string) : bool :=
  let c := deleteOrder k1 - deleteOrder k2 in (if c =? 0 then compare key1 key2 else c) <=? 0.
Definition candidateObjectsOf (inventory : list (string * SweptObject)) (retainedKeys : list string)
  : list SweptObject :=
  filter (fun o => str_mem (so_key o) (withSidecars retainedKeys) = false)
    (js_sort (fun l r => byDeleteOrder localeCompare (so_kind l) (so_key l) (so_kind r) (so_key r))
       (map snd inventory)).
Definition selectCandidates (inventory : list (string * SweptObject)) (retainedKeys : list string)
    (candidateListLimit : nat) : CandidateSelection :=
  let candidates := candidateObjectsOf inventory retainedKeys in
  mkSelection (map planObjectOf (take candidateListLimit candidates)) (sumBytes (map so_bytes candidates))
    (Z.of_nat (length candidates)) (byCategory candidates)
    (digestKeyLines (js_sort str_leb (map (fun o => keyLine (so_key o) (so_bytes o)) candidates))).

(** * The plan *)

Record ProjectedRetirements : Type := mkRetirements {
  pr_consumedRetiredBuildIds : Z;
  pr_newlyRetiredBuildIds : Z;
  pr_trimmedSnapshotIds : Z;
  pr_deletedSnapshotIds : Z;
  pr_deletedCandidateIds : Z;
  pr_trimmedHostCacheImageIds : Z;
}.
Record CleanupPlan : Type := mkPlan {
  pl_generatedAtMs : Z;
  pl_delete : bool;
  pl_objectsScanned : Z;
  pl_retainedObjects : Z;
  pl_candidateObjects : list PlanObject;
  pl_candidateBytes : Z;
  pl_truncated : bool;
  pl_faults : list CleanupFault;
  pl_candidatesByCategory : list (string * (Z * Z));
  pl_retainedByCategory : list (string * (Z * Z));
  pl_unrecognizedObjects : Z;
  pl_outOfScopeObjects : Z;
  pl_retainedByDigestOnly : Z;
  pl_candidateTotal : Z;
  pl_scanned : CleanupKeysetSummary;
  pl_retained : CleanupKeysetSummary;
  pl_candidates : CleanupKeysetSummary;
  pl_projectedRetirements : ProjectedRetirements;
}.
Definition pl_deleteAllowedByReferences (p : CleanupPlan) : bool := bool_decide (pl_faults p = []).
Definition pl_candidateSampleCapped (p : CleanupPlan) : bool :=
  Z.of_nat (length (pl_candidateObjects p)) <? pl_candidateTotal p.
Definition retainedCount (p : CleanupPlan) (kind : CleanupObjectKind) : Z :=
  fst (nullish (Map_get (kindName kind) (pl_retainedByCategory p)) (0, 0)).

Definition countOf {A} (l : list A) : Z := Z.of_nat (length l).
Definition retirementsOf (projection : option RegistryRetentionProjection) : ProjectedRetirements :=
  match projection with
  | None => mkRetirements 0 0 0 0 0 0
  | Some p =>
      mkRetirements (countOf (pj_retiredBuildIds p)) (countOf (bp_retireBuildIds (pj_builds p)))
        (countOf (sp_trims (pj_snapshots p))) (countOf (sp_deleteIds (pj_snapshots p)))
        (countOf (ip_retireIds (pj_candidates p)))
        (sumBytes (map (fun t => countOf (ht_imageIds t)) (pj_hostCacheTrims p)))
  end.
Definition LISTING_FAULT : CleanupFault :=
  mkCleanupFault "listing_truncated" "the bucket listing stopped before its last page".
Definition MARKER_FAULT : CleanupFault :=
  mkCleanupFault "retirement_marker_unavailable"
    "image_builds.artifacts_retired_at is unavailable, so a retired build cannot be told apart from a live one; apply the pending migration before sweeping".
Definition projectionFault (f : RegistryRetentionFault) : CleanupFault :=
  mkCleanupFault "retention_projection_unavailable"
    ("the retention projection could not be read: registry retention fault: " +:+ rf_reference f +:+ ": "
     +:+ rf_detail f).
Record BuiltPlan : Type := mkBuilt {
  bu_plan : CleanupPlan;
  bu_projection : option RegistryRetentionProjection;
  bu_baseline : list (string * SweptObject);
}.
(** [markerAvailable] is [readRetirementMarkerAvailable]; [None] is a listing that
    throws. *)
Definition buildPlan (tables : Tables) (b : Bucket) (pages : list ListPage) (markerAvailable : bool)
    (delete : bool) (nowMs : Z) (candidateListLimit : nat) : option BuiltPlan :=
  inventory ← scanBucket pages;
  let objects := bs_objects inventory in
  let read := projectRegistryRetention tables nowMs in
  let projection := match read with Ok p => Some p | Err _ => None end in
  let coverage := match projection with
                  | Some p => verifyRetainedObjects b objects p
                  | None => mkRetained [] 0 []
                  end in
  let retainedKeys := rv_retainedKeys coverage in
  let selection := selectCandidates objects retainedKeys candidateListLimit in
  let recognized := map snd objects in
  let keyset l := summarizeKeyset (map (fun o => (so_key o, so_bytes o)) l) in
  Some (mkBuilt
    (mkPlan nowMs delete (countOf objects) (countOf retainedKeys) (cl_candidates selection)
       (cl_candidateBytes selection) (bs_truncated inventory)
       ((if bs_truncated inventory then [LISTING_FAULT] else [])
        ++ (if markerAvailable then [] else [MARKER_FAULT])
        ++ (match read with Ok _ => [] | Err f => [projectionFault f] end)
        ++ rv_faults coverage)
       (cl_candidatesByCategory selection)
       (byCategory (omap (fun key => Map_get key objects) retainedKeys))
       (bs_unrecognized inventory) (bs_outOfScope inventory) (rv_retainedByDigestOnly coverage)
       (cl_candidateTotal selection) (keyset recognized)
       (keyset (filter (fun o => str_mem (so_key o) retainedKeys = true) recognized))
       (mkKeyset (cl_candidateTotal selection) (cl_candidateBytes selection) (cl_candidateKeysDigest selection))
       (retirementsOf projection))
    projection objects).

(** * The delete selection *)

Record CleanupDeleteSelection : Type := mkDeleteSelection {
  ds_batches : list (list PlanObject);
  ds_selectedKeyCount : nat;
  ds_resumeRequired : bool;
}.
(** Slices of [size]; [fuel] bounds their number. *)
Fixpoint slices {A} (fuel size : nat) (l : list A) : list (list A) :=
  match fuel, l with
  | O, _ | _, [] => []
  | S fuel', _ => take size l :: slices fuel' size (drop size l)
  end.
Definition compareKeys (left right : string) : Z :=
  if str_leb left right then (if str_leb right left then 0 else -1) else 1.
Definition planCleanupDeleteSelection (candidates : list PlanObject) (batchSize maxDeletes : nat)
    (candidateSampleCapped faultsPresent : bool) : CleanupDeleteSelection :=
  let ordered := js_sort (fun l r => byDeleteOrder compareKeys (po_category l) (po_key l)
                                       (po_category r) (po_key r)) candidates in
  let all := slices (length ordered) batchSize ordered in
  let batches := take (Nat.max 1 (maxDeletes / batchSize)) all in
  mkDeleteSelection batches (length (concat batches))
    ((length batches <? length all)%nat || candidateSampleCapped || faultsPresent).

(** * A run *)

Record PostState : Type := mkPostState {
  ps_scanned : CleanupKeysetSummary;
  ps_expected : CleanupKeysetSummary;
  ps_unchanged : bool;
  ps_truncated : bool;
  ps_unrecognizedObjects : Z;
}.
Record RunResult : Type := mkRunResult {
  rr_deletedObjects : Z;
  rr_deletedBytes : Z;
  rr_failedObjects : Z;
  rr_skippedObjects : Z;
  rr_wouldDeleteObjects : Z;
  rr_wouldDeleteBytes : Z;
  rr_blockedObjects : Z;
  rr_completed : bool;
  rr_planSummary : option CleanupPlan;
  rr_postState : option PostState;
  rr_verifiedDeletedObjects : Z;
  rr_verifiedDeletedBytes : Z;
  rr_unverifiedObjects : Z;
  rr_unverifiedKeys : list string;
  rr_deletedKeys : list string;
  rr_deletedKeysTruncated : bool;
  rr_deletedKeysDigest : string;
  rr_resumeRequired : bool;
  rr_phases : list (string * Z);
  rr_error : option string;
}.
Definition emptyResult (error : option string) : RunResult :=
  mkRunResult 0 0 0 0 0 0 0 false None None 0 0 0 [] [] false "" false [] error.
(** A run that stops before it deletes. *)
Definition blockedResult (error : string) (blocked : Z) : RunResult :=
  mkRunResult 0 0 0 0 0 0 blocked false None None 0 0 0 [] [] false "" true [] (Some error).

Definition describeFaults (plan : CleanupPlan) : option string :=
  match pl_faults plan with
  | [] => None
  | faults => Some (join " | " (take 5 (map (fun f => cf_code f +:+ ": " +:+ cf_detail f) faults)))
  end.

(** What happens around a run: the clock at each step, what other requests do to
    the admission tables before it (and to the host states while the retention is
    recorded) and, by the admission they leave, to the references and the bucket, the
    answers of the two listings, what each bulk delete removes and
    the message of the error it throws if it does, whether the batch of the
    retention fails, and the message of any other error. *)
Record World : Type := mkWorld {
  wd_clock : nat -> Z;
  wd_others : nat -> Admission -> Admission;
  wd_refs : nat -> Admission -> Tables * Bucket -> Tables * Bucket;
  wd_lastClock : Z;
  wd_lastOthers : Admission -> Admission;
  wd_pages : list ListPage;
  wd_postPages : list ListPage;
  wd_marker : bool;
  wd_bulk : nat -> list string -> option string * list string;
  wd_loadRace : string -> nat -> nat -> DesiredDb -> DesiredDb;
  wd_race : string -> nat -> DesiredDb -> DesiredDb;
  wd_batchFails : bool;
  wd_message : string;
}.

(** One bulk delete: the tables and the bucket it finds, the keys it is given, the
    keys it removes, and whether it throws. No code keeps it. *)
Record BulkDelete : Type := mkBulkDelete {
  be_tables : Tables;
  be_bucket : Bucket;
  be_keys : list string;
  be_removed : list string;
  be_thrown : bool;
}.
(** The loop of [applyDeletes], with the deletes it made. *)
Record DeleteState : Type := mkDeleteState {
  dl_admission : Admission;
  dl_tables : Tables;
  dl_bucket : Bucket;
  dl_log : list BulkDelete;
  dl_claimed : list (string * Z);
  dl_deletedObjects : Z;
  dl_deletedBytes : Z;
  dl_failedObjects : Z;
  dl_blockedObjects : Z;
  dl_processed : nat;
  dl_resumeRequired : bool;
  dl_phases : list (string * Z);
  dl_error : option string;
}.
Section run.
Variable w : World.
Variable sweepToken : string.
Variable leaseMs : Z.

(** Every key a gate refuses, and every key after it, is blocked. *)
Definition blockRest (selected : nat) (error : string) (a : Admission) (refs : Tables * Bucket) (s : DeleteState) : DeleteState :=
  mkDeleteState a (fst refs) (snd refs) (dl_log s) (dl_claimed s) (dl_deletedObjects s) (dl_deletedBytes s) (dl_failedObjects s)
    (dl_blockedObjects s + Z.of_nat (selected - dl_processed s)) (dl_processed s) true (dl_phases s) (Some error).
Definition countersOf (plan : CleanupPlan) (s : DeleteState) : SweepCounters :=
  mkCounters (pl_objectsScanned plan) (dl_deletedObjects s) (dl_blockedObjects s) (dl_deletedBytes s).
Definition recordProgress (plan : CleanupPlan) (now : Z) (s : DeleteState) : DeleteState :=
  mkDeleteState (fst (recordRegistryGcProgress sweepToken (Some (countersOf plan s)) now (dl_admission s)))
    (dl_tables s) (dl_bucket s) (dl_log s) (dl_claimed s) (dl_deletedObjects s) (dl_deletedBytes s) (dl_failedObjects s)
    (dl_blockedObjects s) (dl_processed s) (dl_resumeRequired s) (dl_phases s) (dl_error s).
Definition bumpPhase (phases : list (string * Z)) (o : PlanObject) : list (string * Z) :=
  Map_set (kindName (po_category o)) (nullish (Map_get (kindName (po_category o)) phases) 0 + 1) phases.
Definition claimBatch (batch : list PlanObject) (a : Admission) (refs : Tables * Bucket) (e : BulkDelete) (s : DeleteState)
  : DeleteState :=
  mkDeleteState a (fst refs) (snd refs) (dl_log s ++ [e])
    (fold_left (fun m o => Map_set (po_key o) (po_bytes o) m) batch (dl_claimed s))
    (dl_deletedObjects s + Z.of_nat (length batch)) (dl_deletedBytes s + sumBytes (map po_bytes batch))
    (dl_failedObjects s) (dl_blockedObjects s) (dl_processed s + length batch) (dl_resumeRequired s)
    (fold_left bumpPhase batch (dl_phases s)) (dl_error s).
Definition failDeletes (message : string) (batch : list PlanObject) (a : Admission) (refs : Tables * Bucket) (e : BulkDelete)
    (s : DeleteState) : DeleteState :=
  mkDeleteState a (fst refs) (snd refs) (dl_log s ++ [e]) (dl_claimed s) (dl_deletedObjects s) (dl_deletedBytes s)
    (dl_failedObjects s + Z.of_nat (length batch)) (dl_blockedObjects s) (dl_processed s) (dl_resumeRequired s)
    (dl_phases s) (Some ("bulk delete failed: " +:+ message)).
(** A bulk delete removes keys it was given; [n] is the batch. It takes effect at the
    moment of the assertion before it. *)
Definition bulkDelete (n : nat) (keys : list string) (refs : Tables * Bucket) : option string * BulkDelete :=
  let '(thrown, removed) := wd_bulk w n keys in
  (thrown, mkBulkDelete (fst refs) (snd refs) keys (filter (fun k => str_mem k keys = true) removed) (bool_decide (is_Some thrown))).
Definition afterDelete (e : BulkDelete) : Tables * Bucket := (be_tables e, bucket_delete (be_removed e) (be_bucket e)).

(** A gate that passes allows the whole batch, so no key of it is left blocked. *)
Fixpoint deleteBatches (plan : CleanupPlan) (selected n : nat) (batches : list (list PlanObject))
    (s : DeleteState) : DeleteState :=
  match batches with
  | [] => s
  | batch :: rest =>
      let a0 := wd_others w (4 * n) (dl_admission s) in
      let r0 := wd_refs w (4 * n) a0 (dl_tables s, dl_bucket s) in
      let '(a1, heartbeat) := heartbeatRegistrySweep sweepToken (Some leaseMs) (wd_clock w (4 * n))
                                (wd_clock w (4 * n + 1)) (wd_others w (4 * n + 1)) a0 in
      let r1 := wd_refs w (4 * n + 1) a1 r0 in
      match heartbeat with
      | None => blockRest selected "registry_sweep_superseded" a1 r1 s
      | Some (_, Some reason) => blockRest selected reason a1 r1 s
      | Some (_, None) =>
          let a2 := wd_others w (4 * n + 2) a1 in
          let r2 := wd_refs w (4 * n + 2) a2 r1 in
          match assertRegistrySweepDeletable sweepToken (wd_clock w (4 * n + 2)) a2 with
          | Some code => blockRest selected code a2 r2 s
          | None =>
              let '(thrown, e) := bulkDelete n (map po_key batch) r2 in
              let a3 := wd_others w (4 * n + 3) a2 in
              let r3 := wd_refs w (4 * n + 3) a3 (afterDelete e) in
              match thrown with
              | None => deleteBatches plan selected (S n) rest
                          (recordProgress plan (wd_clock w (4 * n + 3)) (claimBatch batch a3 r3 e s))
              | Some message => recordProgress plan (wd_clock w (4 * n + 3)) (failDeletes message batch a3 r3 e s)
              end
          end
      end
  end.

(** The check of the end state: the keys claimed and gone, and those that stayed. *)
Definition provenDeleted (post : list (string * SweptObject)) (claimed : list (string * Z)) : list (string * Z) :=
  filter (fun e => inventoried post (fst e) = false) claimed.
Definition stillThere (post : list (string * SweptObject)) (claimed : list (string * Z)) : list (string * Z) :=
  filter (fun e => inventoried post (fst e) = true) claimed.
Definition keysetOf (objects : list (string * SweptObject)) : CleanupKeysetSummary :=
  summarizeKeyset (map (fun e => (so_key (snd e), so_bytes (snd e))) objects).
Definition postStateOf (baseline : list (string * SweptObject)) (post : BucketScan) (proven : list (string * Z))
  : PostState :=
  let scanned := keysetOf (bs_objects post) in
  let expected := keysetOf (filter (fun e => str_mem (fst e) (map fst proven) = false) baseline) in
  mkPostState scanned expected
    (negb (bs_truncated post) && (ks_digest scanned =s ks_digest expected)
     && (ks_objects scanned =? ks_objects expected) && (ks_bytes scanned =? ks_bytes expected))
    (bs_truncated post) (bs_unrecognized post).
Definition orError (error : option string) (when : bool) (message : string) : option string :=
  match error with Some e => Some e | None => if when then Some message else None end.

Definition finishDeletes (plan : CleanupPlan) (baseline : list (string * SweptObject)) (post : BucketScan)
    (s : DeleteState) : RunResult :=
  let proven := provenDeleted (bs_objects post) (dl_claimed s) in
  let survived := stillThere (bs_objects post) (dl_claimed s) in
  let state := postStateOf baseline post proven in
  let error1 := orError (dl_error s) (negb (ps_unchanged state))
    "the bucket changed during the sweep: the post-scan keyset does not match the scanned keyset minus the verified deletes" in
  let error2 := orError error1 (0 <? countOf survived)
    (pretty (countOf survived) +:+ " key(s) survived their delete call") in
  let keys := js_sort str_leb (map fst proven) in
  mkRunResult (dl_deletedObjects s) (dl_deletedBytes s) (dl_failedObjects s)
    (pl_candidateTotal plan - dl_deletedObjects s - dl_failedObjects s)
    (pl_candidateTotal plan) (pl_candidateBytes plan) (dl_blockedObjects s)
    (bool_decide (error2 = None) && (dl_failedObjects s =? 0) && (countOf survived =? 0)
     && (dl_blockedObjects s =? 0) && ps_unchanged state && negb (dl_resumeRequired s))
    None (Some state) (countOf proven) (sumBytes (map snd proven)) (countOf survived)
    (take MAX_REPORTED_DELETED_KEYS (map fst survived)) (take MAX_REPORTED_DELETED_KEYS keys)
    (length (take MAX_REPORTED_DELETED_KEYS keys) <? length keys)%nat
    (digestKeyLines (js_sort str_leb (map (fun e => keyLine (fst e) (snd e)) proven)))
    (dl_resumeRequired s) (dl_phases s)
    (orError error2 (0 <? dl_failedObjects s) (pretty (dl_failedObjects s) +:+ " object delete(s) failed")).

(** [None] is a second listing that throws. *)
Definition applyDeletes (plan : CleanupPlan) (baseline : list (string * SweptObject)) (batchSize maxDeletes : nat)
    (a : Admission) (refs : Tables * Bucket) : DeleteState * option RunResult :=
  let selection := planCleanupDeleteSelection (pl_candidateObjects plan) batchSize maxDeletes
                     (pl_candidateSampleCapped plan) (negb (pl_deleteAllowedByReferences plan)) in
  let s := deleteBatches plan (ds_selectedKeyCount selection) 1 (ds_batches selection)
             (mkDeleteState a (fst refs) (snd refs) [] [] 0 0 0 0 0 (ds_resumeRequired selection) [] None) in
  (s,
   match scanBucket (wd_postPages w) with
   | Some post => Some (finishDeletes plan baseline post s)
   | None => None
   end).
End run.

Record CleanupOptions : Type := mkOptions {
  oc_owner : option string;
  oc_leaseMs : option Z;
  oc_batchSize : option nat;
  oc_maxDeletesPerRun : option nat;
  oc_candidateListLimit : option nat;
}.
Definition batchSizeOf (o : CleanupOptions) : nat :=
  Nat.min (Nat.min (Nat.max 1 (nullish (oc_batchSize o) DEFAULT_CLEANUP_BATCH_SIZE)) MAX_ASSERT_KEYS)
    MAX_BULK_DELETE_KEYS.
Definition maxDeletesOf (o : CleanupOptions) : nat :=
  Nat.max (batchSizeOf o) (nullish (oc_maxDeletesPerRun o) DEFAULT_CLEANUP_MAX_DELETES).
Definition candidateListLimitOf (o : CleanupOptions) : nat :=
  Nat.max 1 (nullish (oc_candidateListLimit o) DEFAULT_CANDIDATE_LIST_LIMIT).
Definition leaseMsOf (o : CleanupOptions) : Z := nullish (oc_leaseMs o) DEFAULT_SWEEP_LEASE_MS.

(** The databases and the bucket after a run, with its bulk deletes, and its result; a
    run whose result is [None] throws. *)
Record SweepState : Type := mkSweepState {
  sw_tables : Tables;
  sw_admission : Admission;
  sw_bucket : Bucket;
  sw_log : list BulkDelete;
}.
Definition reportOnly (o : CleanupOptions) (w : World) (nowMs : Z) (s : SweepState) : option RunResult :=
  built ← buildPlan (sw_tables s) (sw_bucket s) (wd_pages w) (wd_marker w) false nowMs (candidateListLimitOf o);
  let plan := bu_plan built in
  let faults := countOf (pl_faults plan) in
  Some (mkRunResult 0 0 0 (pl_candidateTotal plan) (pl_candidateTotal plan) (pl_candidateBytes plan) faults
          ((faults =? 0) && (pl_candidateTotal plan =? 0)) (Some plan) None 0 0 0 [] [] false ""
          (0 <? faults) [] (describeFaults plan)).

(** The end of a sweep whose run threw. *)
Definition failSweep (w : World) (token : string) (s : SweepState) : SweepState * option RunResult :=
  (mkSweepState (sw_tables s)
     (fst (finishRegistrySweep token false (Some (wd_message w)) None (wd_lastClock w)
             (wd_lastOthers w (sw_admission s)))) (sw_bucket s) (sw_log s),
   Some (emptyResult (Some (wd_message w)))).
Definition appliedPhases (applied : AppliedRetention) (phases : list (string * Z)) : list (string * Z) :=
  fold_left (fun m e => Map_set (fst e) (snd e) m)
    [("retired_builds", countOf (ap_retiredBuildIds applied));
     ("trimmed_snapshots", countOf (ap_trimmedSnapshotIds applied));
     ("deleted_snapshots", countOf (ap_deletedSnapshotIds applied));
     ("deleted_candidates", countOf (ap_deletedCandidateIds applied));
     ("trimmed_host_cache_intents", countOf (ap_trimmedHostCacheImageIds applied))] phases.
Definition withPlan (r : RunResult) (plan : CleanupPlan) (phases : list (string * Z)) : RunResult :=
  mkRunResult (rr_deletedObjects r) (rr_deletedBytes r) (rr_failedObjects r) (rr_skippedObjects r)
    (rr_wouldDeleteObjects r) (rr_wouldDeleteBytes r) (rr_blockedObjects r) (rr_completed r) (Some plan)
    (rr_postState r) (rr_verifiedDeletedObjects r) (rr_verifiedDeletedBytes r) (rr_unverifiedObjects r)
    (rr_unverifiedKeys r) (rr_deletedKeys r) (rr_deletedKeysTruncated r) (rr_deletedKeysDigest r)
    (rr_resumeRequired r) phases (rr_error r).
Definition resultCounters (plan : CleanupPlan) (r : RunResult) : SweepCounters :=
  mkCounters (pl_objectsScanned plan) (rr_deletedObjects r) (rr_blockedObjects r) (rr_deletedBytes r).

(** The part of a run that works under the lease. *)
Definition sweepUnderLease (o : CleanupOptions) (w : World) (token : string) (nowMs : Z) (s : SweepState)
  : SweepState * option RunResult :=
  match buildPlan (sw_tables s) (sw_bucket s) (wd_pages w) (wd_marker w) true nowMs (candidateListLimitOf o) with
  | None => failSweep w token s
  | Some fresh =>
      let plan := bu_plan fresh in
      if negb (pl_deleteAllowedByReferences plan)
      then (s, Some (blockedResult ("reference verification stopped the sweep: "
                                    +:+ join "," (map cf_code (pl_faults plan))) (countOf (pl_faults plan))))
      else
        let '(tables', applied) :=
          match bu_projection fresh with
          | Some p => let '(t, r) := applyRegistryRetention (wd_loadRace w) (wd_race w) p (wd_batchFails w)
                                       (sw_tables s) in
                      (t, match r with Ok a => Some (Some a) | Err _ => None end)
          | None => (sw_tables s, Some None)
          end in
        match applied with
        | None => failSweep w token (mkSweepState tables' (sw_admission s) (sw_bucket s) (sw_log s))
        | Some applied =>
            let '(d, deleted) := applyDeletes w token (leaseMsOf o) plan (bu_baseline fresh) (batchSizeOf o)
                                   (maxDeletesOf o) (sw_admission s) (tables', sw_bucket s) in
            let s' := mkSweepState (dl_tables d) (dl_admission d) (dl_bucket d) (sw_log s ++ dl_log d) in
            match deleted with
            | None => failSweep w token s'
            | Some r =>
                let phases := match applied with
                              | Some ap => appliedPhases ap (rr_phases r)
                              | None => rr_phases r
                              end in
                (mkSweepState (dl_tables d)
                   (fst (finishRegistrySweep token (bool_decide (rr_error r = None)) (rr_error r)
                           (Some (resultCounters plan r)) (wd_lastClock w) (wd_lastOthers w (dl_admission d))))
                   (dl_bucket d) (sw_log s ++ dl_log d),
                 Some (withPlan r plan phases))
            end
        end
  end.

(** [token] and [runId] are the fresh identifiers of the sweep. *)
Definition runCleanup (o : CleanupOptions) (w : World) (token runId : string) (delete : bool) (nowMs : Z)
    (s : SweepState) : SweepState * option RunResult :=
  if negb delete then (s, reportOnly o w nowMs s)
  else
    let a0 := wd_others w 0 (sw_admission s) in
    let r0 := wd_refs w 0 a0 (sw_tables s, sw_bucket s) in
    let '(a1, acquisition) :=
      acquireRegistrySweep (nullish (oc_owner o) DEFAULT_CLEANUP_OWNER) (Some (leaseMsOf o)) token runId
        (wd_clock w 0) (wd_clock w 1) (wd_others w 1) a0 in
    let r1 := wd_refs w 1 a1 r0 in
    let at_ a (r : Tables * Bucket) := mkSweepState (fst r) a (snd r) (sw_log s) in
    match acquisition with
    | Err _ => (at_ a1 r1, None)
    | Ok (Err _) =>
        let counts := readRegistryAdmissionCounts a1 (wd_clock w 1) in
        (at_ a1 r1, Some (blockedResult "registry admission is busy"
                            (ac_openSessions counts + ac_pendingWriters counts)))
    | Ok (Ok lease) =>
        let a2 := wd_others w 2 a1 in
        let r2 := wd_refs w 2 a2 r1 in
        match as_enforcement (readRegistryAdmissionState a2 (wd_clock w 2)), sl_blockedReason lease with
        | report_only, _ => (at_ a2 r2, Some (blockedResult "registry admission enforcement is report_only" 1))
        | enforce, Some reason => (at_ a2 r2, Some (blockedResult reason 1))
        | enforce, None =>
            let a3 := wd_others w 3 a2 in
            sweepUnderLease o w token nowMs (at_ a3 (wd_refs w 3 a3 r2))
        end
    end.
End sweep.
