(* ===== verification/RegistrySweepSafety.v ===== *)
(** What a sweep of the registry promises, with other requests between its accesses:
    it deletes nothing a reference needs, stops when a reference cannot be proven,
    stays within its bounds, leaves every manifest complete, and says it is done only
    when nothing is left to delete. *)
From stdpp Require Import base list strings sorting pretty relations.
From Stdlib Require Import ZArith Lia.
From S2P Require Import Prelude Json Text RunState Bridge Store DesiredState Tar RegistryKeys RetentionPlans RetentionProjection RetentionSafety RegistryAdmission RegistryExclusion RegistryChunks RegistryContent RegistrySweep.

Open Scope string_scope.
Open Scope list_scope.
Open Scope Z_scope.

(** * The listing *)

(** The objects the pages name, up to the last one asked for. *)
Fixpoint listedObjects (pages : list ListPage) : list (string * Z) :=
  match pages with
  | [] => []
  | page :: rest =>
      lp_objects page ++
      (if negb (lp_truncated page) || negb (truthy_opt (lp_cursor page)) then [] else listedObjects rest)
  end.
Record inventory_ok (inventory : list (string * SweptObject)) : Prop := mk_inventory_ok {
  io_nodup : NoDup inventory.*1;
  io_parsed : forall key o, Map_get key inventory = Some o -> exists bytes, parseSweptObjectKey key bytes = Some o;
}.

Lemma scanObject_ok scan object : inventory_ok (bs_objects scan) -> inventory_ok (bs_objects (scanObject scan object)).
Proof.
  intros [Hn Hp]. destruct object as [key size]. unfold scanObject.
  destruct (parseSweptObjectKey key size) as [o|] eqn:E; [|by case_match].
  pose proof (swept_key_exact _ _ _ E) as (Ek & _). constructor; cbn [bs_objects].
  - by apply Map_set_nodup.
  - intros k o'. rewrite Ek. destruct (decide (k = key)) as [->|Hne].
    + rewrite Map_get_set_eq. intros [= <-]. eauto.
    + rewrite Map_get_set_ne by done. apply Hp.
Qed.

Lemma scanObjects_ok objects scan :
  inventory_ok (bs_objects scan) -> inventory_ok (bs_objects (fold_left scanObject objects scan)).
Proof. revert scan. induction objects as [|x l IH]; intros scan Hs; [done|]. by apply IH, scanObject_ok. Qed.

Lemma scanObjects_finds objects scan key size o :
  (In (key, size) objects \/ is_Some (Map_get key (bs_objects scan))) -> parseSweptObjectKey key size = Some o ->
  is_Some (Map_get key (bs_objects (fold_left scanObject objects scan))).
Proof.
  revert scan. induction objects as [|[k z] l IH]; intros scan Hin Hp; [by destruct Hin|]. cbn [fold_left].
  apply IH; [|done]. destruct Hin as [[[= -> ->]|Hin]|Hin]; [right|by left|right].
  - unfold scanObject. rewrite Hp. cbn [bs_objects]. pose proof (swept_key_exact _ _ _ Hp) as (-> & _).
    rewrite Map_get_set_eq. eauto.
  - unfold scanObject. destruct (parseSweptObjectKey k z) as [o'|] eqn:E; [|by case_match].
    cbn [bs_objects]. pose proof (swept_key_exact _ _ _ E) as (-> & _).
    destruct (decide (key = k)) as [->|Hne]; [rewrite Map_get_set_eq; eauto|by rewrite Map_get_set_ne].
Qed.

Lemma scanPages_spec pages scan res :
  scanPages pages scan = Some res -> inventory_ok (bs_objects scan) ->
  inventory_ok (bs_objects res) /\
  forall key size o, In (key, size) (listedObjects pages) \/ is_Some (Map_get key (bs_objects scan)) ->
    parseSweptObjectKey key size = Some o -> is_Some (Map_get key (bs_objects res)).
Proof.
  revert scan. induction pages as [|page pages IH]; intros scan Hs Hok; [done|]. cbn [scanPages listedObjects] in *.
  set (scan' := fold_left scanObject (lp_objects page) scan) in *.
  assert (Hok' : inventory_ok (bs_objects scan')) by (by apply scanObjects_ok).
  assert (Hfinds : forall key size o, In (key, size) (lp_objects page) \/ is_Some (Map_get key (bs_objects scan)) ->
    parseSweptObjectKey key size = Some o -> is_Some (Map_get key (bs_objects scan')))
    by (intros key size o; apply scanObjects_finds).
  destruct (negb (lp_truncated page)); cbn [orb].
  { injection Hs as <-. split; [done|]. intros key size o [Hin|Hin]; rewrite ?app_nil_r in *; eauto. }
  destruct (negb (truthy_opt (lp_cursor page))).
  { injection Hs as <-. split; [done|]. intros key size o [Hin|Hin]; rewrite ?app_nil_r in *; eauto. }
  destruct (IH _ Hs Hok') as [Hres Hall]. split; [done|]. intros key size o Hin Hp.
  apply (Hall key size o); [|done]. destruct Hin as [[Hin|Hin]%in_app_iff|Hin]; eauto.
Qed.

Lemma scanObjects_only objects scan key :
  is_Some (Map_get key (bs_objects (fold_left scanObject objects scan))) ->
  is_Some (Map_get key (bs_objects scan)) \/ In key (map fst objects).
Proof.
  revert scan. induction objects as [|[k z] l IH]; intros scan Hin; [by left|]. cbn [fold_left map fst] in *.
  destruct (IH _ Hin) as [Hs|Hs]; [|right; by right]. unfold scanObject in Hs.
  destruct (parseSweptObjectKey k z) as [o|] eqn:E; [|left; by case_match].
  cbn [bs_objects] in Hs. destruct (swept_key_exact _ _ _ E) as (Ek & _). rewrite Ek in Hs.
  destruct (decide (key = k)) as [->|Hne]; [right; by left|]. rewrite Map_get_set_ne in Hs by done. by left.
Qed.

Lemma scanPages_only pages scan res key :
  scanPages pages scan = Some res -> is_Some (Map_get key (bs_objects res)) ->
  is_Some (Map_get key (bs_objects scan)) \/ In key (map fst (listedObjects pages)).
Proof.
  revert scan. induction pages as [|page pages IH]; intros scan Hs Hk; [done|]. cbn [scanPages listedObjects] in *.
  rewrite map_app, in_app_iff. pose proof (scanObjects_only (lp_objects page) scan key) as Hone.
  destruct (negb (lp_truncated page)); [injection Hs as <-; destruct (Hone Hk); auto|].
  destruct (negb (truthy_opt (lp_cursor page))); [injection Hs as <-; destruct (Hone Hk); auto|]. cbn [orb].
  destruct (IH _ Hs Hk) as [Hk'|?]; [destruct (Hone Hk'); auto|auto].
Qed.

Lemma scanBucket_spec pages scan :
  scanBucket pages = Some scan ->
  inventory_ok (bs_objects scan) /\
  forall key size o, In (key, size) (listedObjects pages) -> parseSweptObjectKey key size = Some o ->
    is_Some (Map_get key (bs_objects scan)).
Proof.
  intros Hs. apply scanPages_spec in Hs as [Hok Hf]; [|constructor; [constructor|done]]. split; [done|]. eauto.
Qed.

(** * The delete selection *)

Lemma slices_concat {A} (fuel size : nat) (l : list A) :
  (0 < size)%nat -> (length l <= fuel)%nat -> concat (slices fuel size l) = l.
Proof.
  intros Hs. revert l. induction fuel as [|fuel IH]; intros l Hl; [by destruct l; [|cbn in Hl; lia]|].
  destruct l as [|x l]; [done|]. cbn [slices concat]. rewrite IH; [apply take_drop|].
  rewrite length_drop. cbn [length] in *. lia.
Qed.

Lemma slices_bounds {A} (fuel size : nat) (l : list A) batch :
  (0 < size)%nat -> In batch (slices fuel size l) -> (0 < length batch <= size)%nat.
Proof.
  intros Hs. revert l. induction fuel as [|fuel IH]; intros l Hin; [by destruct l|].
  destruct l as [|x l]; [done|]. cbn [slices] in Hin. destruct Hin as [<-|Hin]; [|by eapply IH].
  rewrite length_take. cbn. lia.
Qed.

Lemma concat_take_prefix {A} (n : nat) (l : list (list A)) : exists k, concat (take n l) = take k (concat l).
Proof.
  revert l. induction n as [|n IH]; intros l; [by exists 0%nat|]. destruct l as [|x l]; [by exists 0%nat|].
  destruct (IH l) as [k Hk]. exists (length x + k)%nat. cbn [take concat].
  by rewrite firstn_app_2, Hk.
Qed.

Lemma concat_take_length {A} (n size : nat) (l : list (list A)) :
  (forall x, In x l -> (length x <= size)%nat) -> (length (concat (take n l)) <= n * size)%nat.
Proof.
  revert l. induction n as [|n IH]; intros l Hl; [done|]. destruct l as [|x l]; [cbn; lia|].
  cbn [take concat]. rewrite length_app. pose proof (Hl x ltac:(by left)).
  specialize (IH l ltac:(intros; apply Hl; by right)). lia.
Qed.

Definition orderedCandidates (candidates : list PlanObject) : list PlanObject :=
  js_sort (fun l r => byDeleteOrder compareKeys (po_category l) (po_key l) (po_category r) (po_key r)) candidates.

Lemma compareKeys_total a b : compareKeys a b <= 0 \/ compareKeys b a <= 0.
Proof.
  unfold compareKeys. destruct (str_leb_total a b) as [E|E]; rewrite E; [left|right]; case_match; lia.
Qed.
Lemma compareKeys_trans a b c : compareKeys a b <= 0 -> compareKeys b c <= 0 -> compareKeys a c <= 0.
Proof.
  unfold compareKeys. destruct (str_leb a b) eqn:E1; [|lia]. destruct (str_leb b c) eqn:E2; [|lia].
  intros _ _. rewrite (str_leb_trans a b c) by done. case_match; lia.
Qed.

Section order.
Context (compare : string -> string -> Z).
Context (Htotal : forall a b, compare a b <= 0 \/ compare b a <= 0).
Context (Htrans : forall a b c, compare a b <= 0 -> compare b c <= 0 -> compare a c <= 0).

Lemma byDeleteOrder_total k1 x1 k2 x2 :
  byDeleteOrder compare k1 x1 k2 x2 = true \/ byDeleteOrder compare k2 x2 k1 x1 = true.
Proof.
  unfold byDeleteOrder. rewrite !Z.leb_le. destruct (Z.eqb_spec (deleteOrder k1 - deleteOrder k2) 0).
  - destruct (Z.eqb_spec (deleteOrder k2 - deleteOrder k1) 0); [|lia]. apply Htotal.
  - destruct (Z.eqb_spec (deleteOrder k2 - deleteOrder k1) 0); lia.
Qed.
Lemma byDeleteOrder_trans k1 x1 k2 x2 k3 x3 :
  byDeleteOrder compare k1 x1 k2 x2 = true -> byDeleteOrder compare k2 x2 k3 x3 = true ->
  byDeleteOrder compare k1 x1 k3 x3 = true.
Proof.
  unfold byDeleteOrder. rewrite !Z.leb_le. intros H1 H2.
  destruct (Z.eqb_spec (deleteOrder k1 - deleteOrder k2) 0), (Z.eqb_spec (deleteOrder k2 - deleteOrder k3) 0),
    (Z.eqb_spec (deleteOrder k1 - deleteOrder k3) 0); try lia. by eapply Htrans.
Qed.
Lemma byDeleteOrder_order k1 x1 k2 x2 :
  byDeleteOrder compare k1 x1 k2 x2 = true -> deleteOrder k1 <= deleteOrder k2.
Proof.
  unfold byDeleteOrder. rewrite Z.leb_le. destruct (Z.eqb_spec (deleteOrder k1 - deleteOrder k2) 0); lia.
Qed.
(** A prefix of an ordered list leaves nothing out that comes before its members. *)
Lemma sorted_prefix_order {A} (kind : A -> CleanupObjectKind) (key : A -> string) (n : nat) (l : list A) x y :
  StronglySorted (fun a b => byDeleteOrder compare (kind a) (key a) (kind b) (key b) = true) l ->
  In x (take n l) -> In y (drop n l) -> deleteOrder (kind x) <= deleteOrder (kind y).
Proof.
  intros Hs. rewrite <- (take_drop n l) in Hs. revert Hs. generalize (take n l) (drop n l). intros l1 l2 Hs Hx Hy.
  induction l1 as [|z l1 IH]; [done|]. cbn in Hs. apply StronglySorted_inv in Hs as [Hs Hf].
  destruct Hx as [->|Hx]; [|by apply IH]. rewrite List.Forall_forall in Hf.
  eapply byDeleteOrder_order, (Hf y), in_app_iff. by right.
Qed.
Lemma byDeleteOrder_sorted {A} (kind : A -> CleanupObjectKind) (key : A -> string) (l : list A) :
  StronglySorted (fun a b => byDeleteOrder compare (kind a) (key a) (kind b) (key b) = true)
    (js_sort (fun a b => byDeleteOrder compare (kind a) (key a) (kind b) (key b)) l).
Proof.
  apply js_sort_sorted; intros; [apply byDeleteOrder_total|by eapply byDeleteOrder_trans].
Qed.
End order.

(** One run attempts a prefix of the worklist, manifests before the chunks they
    name: batches of at most the batch size, at most the delete budget in all, and
    it asks for no resume only when it attempts the whole of it. *)
Theorem delete_selection_bounded candidates batchSize maxDeletes capped faults
  (Hsize : (0 < batchSize <= maxDeletes)%nat) :
  let sel := planCleanupDeleteSelection candidates batchSize maxDeletes capped faults in
  Forall (fun batch => 0 < length batch <= batchSize)%nat (ds_batches sel) /\
  (ds_selectedKeyCount sel <= maxDeletes)%nat /\
  (exists k, concat (ds_batches sel) = take k (orderedCandidates candidates)) /\
  (forall x y, In x (concat (ds_batches sel)) -> In y candidates -> ~ In y (concat (ds_batches sel)) ->
     deleteOrder (po_category x) <= deleteOrder (po_category y)) /\
  (ds_resumeRequired sel = false -> concat (ds_batches sel) ≡ₚ candidates /\ capped = false /\ faults = false).
Proof.
  unfold planCleanupDeleteSelection. cbv zeta. cbn [ds_batches ds_selectedKeyCount ds_resumeRequired].
  fold (orderedCandidates candidates). set (ordered := orderedCandidates candidates).
  set (all := slices (length ordered) batchSize ordered). set (n := Nat.max 1 (maxDeletes / batchSize)).
  assert (Hall : concat all = ordered) by (apply slices_concat; lia).
  assert (Hb : forall x, In x all -> (0 < length x <= batchSize)%nat) by (intros x; apply slices_bounds; lia).
  assert (Htake : forall x, In x (take n all) -> In x all).
  { intros x Hx. rewrite <- (take_drop n all). apply in_app_iff. by left. }
  destruct (concat_take_prefix n all) as [k Hk]. rewrite Hall in Hk.
  split_and!.
  - apply List.Forall_forall. auto.
  - etransitivity; [apply (concat_take_length n batchSize); intros x Hx; by apply Hb|].
    unfold n. pose proof (Nat.Div0.mul_div_le maxDeletes batchSize).
    destruct (Nat.max_spec 1 (maxDeletes / batchSize)) as [[_ ->]|[_ ->]]; lia.
  - by exists k.
  - intros x y Hx Hy Hny. rewrite Hk in Hx, Hny.
    assert (Hyo : In y ordered) by (unfold ordered, orderedCandidates; by rewrite js_sort_In).
    rewrite <- (take_drop k ordered) in Hyo. apply in_app_iff in Hyo as [Hyo|Hyo]; [done|].
    eapply (sorted_prefix_order compareKeys po_category po_key k ordered); [|done|done].
    apply byDeleteOrder_sorted; [apply compareKeys_total|apply compareKeys_trans].
  - rewrite !orb_false_iff, Nat.ltb_ge. intros [[Hlen ->] ->]. split_and!; [|done|done].
    assert (take n all = all) as ->; [|rewrite Hall; apply js_sort_perm].
    rewrite length_take in Hlen. apply take_ge. lia.
Qed.

(** * Deleting *)

Lemma bucket_delete_head keys key b :
  bucket_head key (bucket_delete keys b) = if str_mem key keys then None else bucket_head key b.
Proof.
  unfold bucket_head, bucket_delete. induction b as [|[k o] b IH]; [by destruct (str_mem key keys)|].
  rewrite filter_cons. cbn [Map_get fst]. destruct (decide (str_mem k keys = false)) as [Hk|Hk].
  - cbn [Map_get]. destruct (String.eqb_spec key k) as [->|]; [by rewrite Hk|exact IH].
  - rewrite IH. destruct (String.eqb_spec key k) as [->|]; [|done].
    by destruct (str_mem k keys).
Qed.

Lemma str_mem_app x l l' : str_mem x (l ++ l') = str_mem x l || str_mem x l'.
Proof. apply existsb_app. Qed.
Lemma bucket_delete_app keys keys' b : bucket_delete (keys ++ keys') b = bucket_delete keys' (bucket_delete keys b).
Proof.
  unfold bucket_delete. induction b as [|[k o] b IH]; [done|]. rewrite !filter_cons. cbn [fst].
  rewrite str_mem_app. destruct (str_mem k keys) eqn:E; cbn [orb].
  - rewrite !decide_False by congruence. exact IH.
  - rewrite (decide_True (P := false = false)) by done. rewrite filter_cons. cbn [fst].
    destruct (decide (str_mem k keys' = false)); [by rewrite IH|exact IH].
Qed.
Lemma bucket_deleted_found keys key b o : bucket_head key (bucket_delete keys b) = Some o ->
  bucket_head key b = Some o /\ ~ In key keys.
Proof. rewrite bucket_delete_head. destruct (str_mem key keys) eqn:E; [done|]. by rewrite str_mem_false in E. Qed.
Lemma bucket_delete_nil b : bucket_delete [] b = b.
Proof. unfold bucket_delete. induction b as [|x b IH]; [done|]. by rewrite filter_cons_True, IH. Qed.

Section deletes.
Context (w : World) (token : string) (leaseMs : Z).

(** ** What happens beside a run *)

(** Nobody else sweeps under the token of this run. *)
Definition sweepers_foreign : Prop :=
  forall n a, exists rqs, wd_others w n a = serveAll rqs a /\ Forall (foreignRequest token) rqs.

(** A step of others on the references and the bucket. A gate this sweep holds
    after the step it held before it. *)
Definition ref_step (r r' : Tables * Bucket) : Prop := exists n a, r' = wd_refs w n a r.
Definition other_step (x y : Admission * (Tables * Bucket)) : Prop :=
  (exists n, y.2 = wd_refs w n y.1 x.2) /\ (holdsGate token y.1 = true -> holdsGate token x.1 = true).

Lemma other_steps_refs x y : rtc other_step x y -> rtc ref_step x.2 y.2.
Proof.
  induction 1 as [|x y z [(n & E) _] _ IH]; [done|]. eapply rtc_l; [|exact IH]. by exists n, y.1.
Qed.

(** A bulk delete removes some of the keys it is given. *)
Lemma bulkDelete_spec n keys r thrown e :
  bulkDelete w n keys r = (thrown, e) ->
  be_tables e = r.1 /\ be_bucket e = r.2 /\ be_keys e = keys /\ incl (be_removed e) keys /\
  be_thrown e = bool_decide (is_Some thrown) /\
  forall removed, wd_bulk w n keys = (None, removed) -> incl keys removed -> thrown = None /\ incl keys (be_removed e).
Proof.
  unfold bulkDelete. destruct (wd_bulk w n keys) as [t removed]. intros [= <- <-].
  cbn [be_tables be_bucket be_keys be_removed be_thrown]. split_and!; [done..| |done|].
  - intros k Hk. apply filter_In_iff in Hk as [_ Hk]. by apply str_mem_In.
  - intros removed' [= -> ->] Hi. split; [done|]. intros k Hk. apply filter_In_iff. rewrite str_mem_In. auto.
Qed.

Lemma others_lost n a : sweepers_foreign -> holdsGate token (wd_others w n a) = true -> holdsGate token a = true.
Proof. intros Hf. destruct (Hf n a) as (rqs & -> & Hr). by apply lost_serveAll. Qed.

Lemma deletable_held now a : assertRegistrySweepDeletable token now a = None -> holdsGate token a = true.
Proof. intros (_ & g & Hg & Hh & _)%delete_gate_exact. unfold holdsGate. by rewrite Hg. Qed.

(** One turn of the loop stops before its delete, with only the steps of others
    behind it, or deletes under a gate the sweep holds. *)
Lemma turn_cases plan selected n batch rest s :
  sweepers_foreign ->
  let res := deleteBatches w token leaseMs plan selected n (batch :: rest) s in
  (exists a r error, rtc other_step (dl_admission s, (dl_tables s, dl_bucket s)) (a, r) /\
     res = blockRest selected error a r s) \/
  exists a2 r2 a3 r3 thrown e,
    rtc other_step (dl_admission s, (dl_tables s, dl_bucket s)) (a2, r2) /\ holdsGate token a2 = true /\
    bulkDelete w n (map po_key batch) r2 = (thrown, e) /\ other_step (a2, afterDelete e) (a3, r3) /\
    res = match thrown with
          | None => deleteBatches w token leaseMs plan selected (S n) rest
                      (recordProgress token plan (wd_clock w (4 * n + 3)) (claimBatch batch a3 r3 e s))
          | Some message =>
              recordProgress token plan (wd_clock w (4 * n + 3)) (failDeletes message batch a3 r3 e s)
          end.
Proof.
  intros Hf. cbn [deleteBatches].
  set (a0 := wd_others w (4 * n) (dl_admission s)). set (r0 := wd_refs w (4 * n) a0 (dl_tables s, dl_bucket s)).
  assert (S0 : rtc other_step (dl_admission s, (dl_tables s, dl_bucket s)) (a0, r0)).
  { apply rtc_once. split; [by eexists|]. by apply others_lost. }
  destruct (heartbeatRegistrySweep _ _ _ _ _ _) as [a1 beat] eqn:Eh.
  set (r1 := wd_refs w (4 * n + 1) a1 r0).
  assert (S1 : rtc other_step (dl_admission s, (dl_tables s, dl_bucket s)) (a1, r1)).
  { eapply rtc_r; [exact S0|]. split; [by eexists|]. cbn [fst]. intros Hh.
    apply (holds_heartbeat token token (Some leaseMs) (wd_clock w (4 * n)) (wd_clock w (4 * n + 1))
             (wd_others w (4 * n + 1))); [intros a; by apply others_lost|]. by rewrite Eh. }
  destruct beat as [[expires [reason|]]|]; [left; by eexists _, _, _| |left; by eexists _, _, _].
  set (a2 := wd_others w (4 * n + 2) a1). set (r2 := wd_refs w (4 * n + 2) a2 r1).
  assert (S2 : rtc other_step (dl_admission s, (dl_tables s, dl_bucket s)) (a2, r2)).
  { eapply rtc_r; [exact S1|]. split; [by eexists|]. by apply others_lost. }
  destruct (assertRegistrySweepDeletable _ _ _) as [code|] eqn:Ea; [left; by eexists _, _, _|].
  destruct (bulkDelete w n (map po_key batch) r2) as [thrown e] eqn:Eb. right.
  eexists a2, r2, (wd_others w (4 * n + 3) a2), _, thrown, e.
  split_and!; [done|by eapply deletable_held|done| |reflexivity]. split; [by eexists|]. by apply others_lost.
Qed.
End deletes.

(** * The keys a plan keeps *)

Lemma verifyAll_faults l v : vf_faults (verifyAll l) = [] -> In v l -> vf_faults v = [].
Proof.
  cbn. intros Hf Hv. destruct (vf_faults v) as [|f fs] eqn:E; [done|].
  assert (In f (flat_map vf_faults l)) as Hin by (apply in_flat_map; exists v; rewrite E; split; [done|by left]).
  by rewrite Hf in Hin.
Qed.
Lemma verifyAll_keys l v key : In v l -> In key (vf_keys v) -> In key (vf_keys (verifyAll l)).
Proof. intros Hv Hk. cbn. apply in_flat_map. eauto. Qed.

Lemma inventoried_get inventory key : inventoried inventory key = true <-> is_Some (Map_get key inventory).
Proof. unfold inventoried. by rewrite bool_decide_eq_true. Qed.

Section sweep_safety.
Context `{Collation} `{Sha256} `{JsonText}.

Lemma retained_In b inventory p key :
  In key (rv_retainedKeys (verifyRetainedObjects b inventory p)) <->
  In key (vf_keys (verifyAll (map (verifyManifest b inventory) (pj_chunkManifestSha256s p)))) \/
  (exists root covered, In root (pj_roots p) /\ In key (vf_keys (verifyRoot inventory covered root)) /\
     covered = vf_imageIds (verifyAll (map (verifyManifest b inventory) (pj_chunkManifestSha256s p)))) \/
  (exists o, In o (map snd inventory) /\ so_key o = key /\ so_kind o = k_legacy_image /\
     In (so_sha256 o) (pj_imageIds p) /\
     ~ In key (vf_keys (verifyAll (map (verifyManifest b inventory) (pj_chunkManifestSha256s p))) ++
        vf_keys (verifyAll (map (verifyRoot inventory (vf_imageIds (verifyAll (map (verifyManifest b inventory)
          (pj_chunkManifestSha256s p))))) (pj_roots p)))) /\ truthy (so_sha256 o) = true) \/
  In key (vf_keys (verifyAll (map (verifyBootArtifact inventory) (pj_bootArtifactSha256s p)))).
Proof.
  unfold verifyRetainedObjects. cbv zeta. cbn [rv_retainedKeys]. rewrite Set_new_In, !in_app_iff.
  set (manifests := verifyAll (map (verifyManifest b inventory) (pj_chunkManifestSha256s p))).
  assert (Hroots : In key (vf_keys (verifyAll (map (verifyRoot inventory (vf_imageIds manifests)) (pj_roots p)))) <->
    exists root covered, In root (pj_roots p) /\ In key (vf_keys (verifyRoot inventory covered root)) /\
      covered = vf_imageIds manifests).
  { cbn. rewrite in_flat_map. split.
    - intros (v & (root & <- & Hr)%in_map_iff & Hk). eauto.
    - intros (root & covered & Hr & Hk & ->). exists (verifyRoot inventory (vf_imageIds manifests) root).
      split; [by apply in_map|done]. }
  assert (Hdigest : forall named, In key (map so_key (filter (fun o => retainedByDigest (pj_imageIds p) named o = true)
      (map snd inventory))) <->
    exists o, In o (map snd inventory) /\ so_key o = key /\ so_kind o = k_legacy_image /\
      In (so_sha256 o) (pj_imageIds p) /\ ~ In key named /\ truthy (so_sha256 o) = true).
  { intros named. rewrite in_map_iff. setoid_rewrite filter_In_iff. unfold retainedByDigest.
    setoid_rewrite andb_true_iff. setoid_rewrite andb_true_iff. setoid_rewrite andb_true_iff.
    setoid_rewrite bool_decide_eq_true. setoid_rewrite negb_true_iff. setoid_rewrite str_mem_false.
    setoid_rewrite str_mem_In. split.
    - intros (o & <- & Ho & ((Hk & Ht) & Hn) & Hi). exists o. tauto.
    - intros (o & Ho & <- & Hk & Hi & Hn & Ht). exists o. tauto. }
  rewrite Hroots, Hdigest. tauto.
Qed.

Lemma verifyManifest_ok b inventory sha :
  vf_faults (verifyManifest b inventory sha) = [] ->
  exists o m, bucket_head (imageManifestObjectKey sha) b = Some o /\ sha256Hex (ro_body o) = sha /\
    readRetainedManifest (ro_body o) = Ok m /\
    In (imageManifestObjectKey sha) (vf_keys (verifyManifest b inventory sha)) /\
    forall c, In c (cm_chunks m) -> inventoried inventory (imageChunkObjectKey (ch_raw_sha256 c)) = true /\
      In (imageChunkObjectKey (ch_raw_sha256 c)) (vf_keys (verifyManifest b inventory sha)).
Proof.
  unfold verifyManifest. fold (imageManifestObjectKey sha).
  destruct (bucket_head (imageManifestObjectKey sha) b) as [o|]; [|done].
  destruct (String.eqb_spec (sha256Hex (ro_body o)) sha) as [Hs|]; [|done]. cbn [negb].
  destruct (readRetainedManifest (ro_body o)) as [m|] eqn:Em; [|done]. intros Hf. exists o, m.
  split_and!; [done|done|done|cbn; by left|]. intros c Hc.
  assert (Hv : vf_faults (verifyChunk inventory (ch_raw_sha256 c)) = []).
  { eapply verifyAll_faults; [exact Hf|]. right. by apply (in_map (fun c => verifyChunk inventory (ch_raw_sha256 c))). }
  unfold verifyChunk in Hv. fold (imageChunkObjectKey (ch_raw_sha256 c)) in Hv.
  destruct (inventoried inventory (imageChunkObjectKey (ch_raw_sha256 c))) eqn:Ei in Hv; [|done]. split; [done|].
  eapply verifyAll_keys; [right; apply (in_map (fun c => verifyChunk inventory (ch_raw_sha256 c))), Hc|].
  unfold verifyChunk. fold (imageChunkObjectKey (ch_raw_sha256 c)). rewrite Ei. by left.
Qed.

(** A plan without faults: what it read, and that its worklist spares every key it
    retains. *)
Record clean_plan (tables : Tables) (b : Bucket) (pages : list ListPage) (nowMs : Z) (limit : nat)
    (built : BuiltPlan) (scan : BucketScan) (p : RegistryRetentionProjection) : Prop := mk_clean_plan {
  cp_scanned : scanBucket pages = Some scan;
  cp_complete : bs_truncated scan = false;
  cp_projected : projectRegistryRetention tables nowMs = Ok p;
  cp_baseline : bu_baseline built = bs_objects scan;
  cp_read : bu_projection built = Some p;
  cp_verified : rv_faults (verifyRetainedObjects b (bs_objects scan) p) = [];
  cp_worklist : pl_candidateObjects (bu_plan built) = map planObjectOf (take limit
    (candidateObjectsOf (bs_objects scan) (rv_retainedKeys (verifyRetainedObjects b (bs_objects scan) p))));
  cp_total : pl_candidateTotal (bu_plan built) = Z.of_nat (length
    (candidateObjectsOf (bs_objects scan) (rv_retainedKeys (verifyRetainedObjects b (bs_objects scan) p))));
}.

Lemma buildPlan_clean tables b pages marker delete nowMs limit built :
  buildPlan tables b pages marker delete nowMs limit = Some built -> pl_faults (bu_plan built) = [] ->
  exists scan p, clean_plan tables b pages nowMs limit built scan p.
Proof.
  unfold buildPlan. destruct (scanBucket pages) as [scan|] eqn:Es; [|done]. cbn [mbind option_bind].
  destruct (projectRegistryRetention tables nowMs) as [p|f] eqn:Ep.
  2:{ intros [= <-]. cbn [bu_plan pl_faults]. by intros (_ & (_ & ?)%app_eq_nil)%app_eq_nil. }
  destruct (bs_truncated scan) eqn:Etr; [by intros [= <-]|]. destruct marker; [|by intros [= <-]].
  intros [= <-] Hv. exists scan, p. by constructor.
Qed.

(** A key of the bucket a reference needs: a chunk manifest, a chunk it lists, a
    boot artifact, or the image itself as one object. *)
Inductive neededKey (tables : Tables) (b : Bucket) : string -> Prop :=
| needed_manifest rkey imageId closure sha :
    needs tables rkey imageId closure -> In sha (closureChunkManifests closure) ->
    neededKey tables b (imageManifestObjectKey sha)
| needed_chunk rkey imageId closure sha o m c :
    needs tables rkey imageId closure -> In sha (closureChunkManifests closure) ->
    bucket_head (imageManifestObjectKey sha) b = Some o -> readRetainedManifest (ro_body o) = Ok m ->
    In c (cm_chunks m) -> neededKey tables b (imageChunkObjectKey (ch_raw_sha256 c))
| needed_boot rkey imageId closure sha :
    needs tables rkey imageId closure -> In sha (closureBootArtifacts closure) ->
    neededKey tables b (bootArtifactObjectKey sha)
| needed_image key imageId closure :
    needs tables (registryImageKey key) imageId closure -> neededKey tables b (imageObjectKey key imageId).

Lemma withSidecars_In keys key : In key keys -> In key (withSidecars keys).
Proof. intros Hk. unfold withSidecars. apply in_app_iff. by left. Qed.

(** Every needed key is retained, or is not in the listing at all. *)
Lemma needed_retained tables b pages nowMs limit built scan p key :
  clean_plan tables b pages nowMs limit built scan p -> neededKey tables b key ->
  In key (rv_retainedKeys (verifyRetainedObjects b (bs_objects scan) p)) \/
  Map_get key (bs_objects scan) = None.
Proof.
  intros [_ _ Hp _ _ Hv _ _] Hn. unfold verifyRetainedObjects in Hv. cbv zeta in Hv. cbn [rv_faults] in Hv.
  apply app_eq_nil in Hv as [Hm Hv]. apply app_eq_nil in Hv as [Hr Hb]. rewrite retained_In.
  set (manifests := verifyAll (map (verifyManifest b (bs_objects scan)) (pj_chunkManifestSha256s p))) in *.
  assert (Hman : forall rkey imageId closure sha, needs tables rkey imageId closure ->
    In sha (closureChunkManifests closure) ->
    In (verifyManifest b (bs_objects scan) sha)
       (map (verifyManifest b (bs_objects scan)) (pj_chunkManifestSha256s p)) /\
    vf_faults (verifyManifest b (bs_objects scan) sha) = []).
  { intros rkey imageId closure sha Hneed Hsha.
    destruct (project_pins tables nowMs p rkey imageId closure Hp Hneed) as (_ & Hch & _).
    assert (Hin : In (verifyManifest b (bs_objects scan) sha)
      (map (verifyManifest b (bs_objects scan)) (pj_chunkManifestSha256s p))) by (by apply in_map, Hch).
    split; [done|]. exact (verifyAll_faults _ _ Hm Hin). }
  destruct Hn as [rkey imageId closure sha Hneed Hsha|rkey imageId closure sha o m c Hneed Hsha Ho Hm' Hc
    |rkey imageId closure sha Hneed Hsha|k imageId closure Hneed].
  - destruct (Hman _ _ _ _ Hneed Hsha) as [Hin Hf]. left. left. eapply verifyAll_keys; [exact Hin|].
    by destruct (verifyManifest_ok _ _ _ Hf) as (o & m & _ & _ & _ & ? & _).
  - destruct (Hman _ _ _ _ Hneed Hsha) as [Hin Hf]. left. left. eapply verifyAll_keys; [exact Hin|].
    destruct (verifyManifest_ok _ _ _ Hf) as (o' & m' & Ho' & _ & Hm2 & _ & Hall).
    rewrite Ho in Ho'. injection Ho' as <-. rewrite Hm' in Hm2. injection Hm2 as <-. by apply Hall.
  - left. right. right. right. destruct (project_pins tables nowMs p rkey imageId closure Hp Hneed) as (_ & _ & Hbo & _).
    assert (Hin : In (verifyBootArtifact (bs_objects scan) sha)
      (map (verifyBootArtifact (bs_objects scan)) (pj_bootArtifactSha256s p))) by (by apply in_map, Hbo).
    eapply verifyAll_keys; [exact Hin|]. pose proof (verifyAll_faults _ _ Hb Hin) as Hf.
    unfold verifyBootArtifact in Hf |- *. fold (bootArtifactObjectKey sha) in Hf |- *.
    destruct (inventoried (bs_objects scan) (bootArtifactObjectKey sha)); [by left|done].
  - destruct (project_pins tables nowMs p _ imageId closure Hp Hneed) as ((r & Hroot & Hk & Hi) & _).
    assert (Hkey : legacyImageKeyOf r = imageObjectKey k imageId).
    { unfold legacyImageKeyOf, imageObjectKey. fold (rootKey r). by rewrite Hk, Hi. }
    destruct (Map_get (imageObjectKey k imageId) (bs_objects scan)) as [x|] eqn:E; [|by right]. left. right. left.
    exists r, (vf_imageIds manifests). split_and!; [done| |done]. unfold verifyRoot. rewrite Hkey.
    assert (inventoried (bs_objects scan) (imageObjectKey k imageId) = true) as -> by (apply inventoried_get; eauto).
    by left.
Qed.

(** The worklist holds listed keys that are not retained. *)
Lemma worklist_key tables b pages nowMs limit built scan p key :
  clean_plan tables b pages nowMs limit built scan p ->
  In key (map po_key (pl_candidateObjects (bu_plan built))) ->
  is_Some (Map_get key (bs_objects scan)) /\
  ~ In key (withSidecars (rv_retainedKeys (verifyRetainedObjects b (bs_objects scan) p))).
Proof.
  intros [Hs _ _ _ _ _ Hw _] Hk. rewrite Hw, map_map in Hk. apply in_map_iff in Hk as (o & <- & Ho).
  assert (Hin : In o (candidateObjectsOf (bs_objects scan) (rv_retainedKeys (verifyRetainedObjects b (bs_objects scan) p)))).
  { rewrite <- (take_drop limit (candidateObjectsOf _ _)). apply in_app_iff. by left. }
  unfold candidateObjectsOf in Hin. apply filter_In_iff in Hin as [Hin Hn]. apply str_mem_false in Hn.
  rewrite js_sort_In in Hin. apply in_map_iff in Hin as ([k o'] & <- & Hin). cbn [snd planObjectOf po_key] in *.
  destruct (scanBucket_spec _ _ Hs) as [[Hnd Hp] _].
  assert (Hg : Map_get k (bs_objects scan) = Some o') by (apply Map_get_nodup; [done|by apply list_elem_of_In]).
  destruct (Hp _ _ Hg) as (bytes & Hpar). destruct (swept_key_exact _ _ _ Hpar) as (Ek & _). rewrite Ek in *. eauto.
Qed.

(** * Runs *)

(** The references and the bucket the plan reads, after the acquisition and the steps
    of others around it. *)
Definition plannedState (o : CleanupOptions) (w : World) (token runId : string) (s : SweepState)
  : Admission * (Tables * Bucket) :=
  let a0 := wd_others w 0 (sw_admission s) in
  let a1 := fst (acquireRegistrySweep (nullish (oc_owner o) DEFAULT_CLEANUP_OWNER) (Some (leaseMsOf o)) token runId
                   (wd_clock w 0) (wd_clock w 1) (wd_others w 1) a0) in
  let a2 := wd_others w 2 a1 in
  let a3 := wd_others w 3 a2 in
  (a3, wd_refs w 3 a3 (wd_refs w 2 a2 (wd_refs w 1 a1 (wd_refs w 0 a0 (sw_tables s, sw_bucket s))))).
Definition plannedRefs (o : CleanupOptions) (w : World) (token runId : string) (s : SweepState) : Tables * Bucket :=
  snd (plannedState o w token runId s).
(** The tables the run's own retention leaves of those its plan reads. *)
Definition retainedTables (w : World) (nowMs : Z) (tables : Tables) : Tables :=
  match projectRegistryRetention tables nowMs with
  | Ok p => fst (applyRegistryRetention (wd_loadRace w) (wd_race w) p (wd_batchFails w) tables)
  | Err _ => tables
  end.
Definition planOf (o : CleanupOptions) (w : World) (nowMs : Z) (refs : Tables * Bucket) : option BuiltPlan :=
  buildPlan refs.1 refs.2 (wd_pages w) (wd_marker w) true nowMs (candidateListLimitOf o).
Definition selectionOf (o : CleanupOptions) (plan : CleanupPlan) : CleanupDeleteSelection :=
  planCleanupDeleteSelection (pl_candidateObjects plan) (batchSizeOf o) (maxDeletesOf o)
    (pl_candidateSampleCapped plan) (negb (pl_deleteAllowedByReferences plan)).
Definition deletedState (o : CleanupOptions) (w : World) (token : string) (plan : CleanupPlan) (a : Admission)
    (refs : Tables * Bucket) : DeleteState :=
  deleteBatches w token (leaseMsOf o) plan (ds_selectedKeyCount (selectionOf o plan)) 1
    (ds_batches (selectionOf o plan))
    (mkDeleteState a refs.1 refs.2 [] [] 0 0 0 0 0 (ds_resumeRequired (selectionOf o plan)) [] None).

(** The run of a delete does not call itself completed. *)
Definition incomplete (delete : bool) (r : option RunResult) : Prop :=
  delete = true -> forall res, r = Some res -> rr_completed res = false.

(** A run deletes nothing and leaves the references to the others, or has a plan
    without faults; it deletes by that plan. *)
Lemma run_cases o w token runId delete nowMs s s' r :
  runCleanup o w token runId delete nowMs s = (s', r) ->
  sw_log s' = sw_log s /\ rtc (ref_step w) (sw_tables s, sw_bucket s) (sw_tables s', sw_bucket s') /\ incomplete delete r \/
  let '(a, (t, b)) := plannedState o w token runId s in
  exists built, planOf o w nowMs (t, b) = Some built /\ pl_faults (bu_plan built) = [] /\
    (sw_log s' = sw_log s /\ sw_bucket s' = b /\ incomplete delete r \/
     let d := deletedState o w token (bu_plan built) a (retainedTables w nowMs t, b) in
     sw_log s' = sw_log s ++ dl_log d /\ sw_bucket s' = dl_bucket d /\
       forall res, r = Some res -> rr_completed res = true ->
         exists post, scanBucket (wd_postPages w) = Some post /\
           rr_completed (finishDeletes (bu_plan built) (bu_baseline built) post d) = true).
Proof.
  unfold runCleanup, plannedState. destruct delete; cbn [negb].
  2:{ intros [= <- <-]. left. split_and!; [done|apply rtc_refl|done]. }
  set (a0 := wd_others w 0 (sw_admission s)). set (r0 := wd_refs w 0 a0 (sw_tables s, sw_bucket s)).
  destruct (acquireRegistrySweep _ _ _ _ _ _ _ _) as [a1 acquisition]. cbn [fst].
  set (r1 := wd_refs w 1 a1 r0). set (a2 := wd_others w 2 a1). set (r2 := wd_refs w 2 a2 r1).
  set (a3 := wd_others w 3 a2).
  assert (S0 : ref_step w (sw_tables s, sw_bucket s) r0) by by eexists _, _.
  assert (S1 : ref_step w r0 r1) by by eexists _, _.
  assert (S2 : ref_step w r1 r2) by by eexists _, _.
  assert (S3 : ref_step w r2 (wd_refs w 3 a3 r2)) by by eexists _, _.
  assert (R2 : rtc (ref_step w) (sw_tables s, sw_bucket s) r2) by by do 3 (eapply rtc_l; [eassumption|]); apply rtc_refl.
  assert (R1 : rtc (ref_step w) (sw_tables s, sw_bucket s) r1) by by do 2 (eapply rtc_l; [eassumption|]); apply rtc_refl.
  destruct acquisition as [[lease|why]|e].
  2,3: intros [= <- <-]; left; cbn [sw_log sw_tables sw_bucket]; rewrite <- surjective_pairing;
    split_and!; [done|exact R1|by intros _ res [= <-]].
  destruct (as_enforcement _).
  { intros [= <- <-]; left; cbn [sw_log sw_tables sw_bucket]; rewrite <- surjective_pairing;
    split_and!; [done|exact R2|by intros _ res [= <-]]. }
  destruct (sl_blockedReason lease).
  { intros [= <- <-]; left; cbn [sw_log sw_tables sw_bucket]; rewrite <- surjective_pairing;
    split_and!; [done|exact R2|by intros _ res [= <-]]. }
  pose proof (rtc_r _ _ _ R2 S3) as R3. clearbody r2. destruct (wd_refs w 3 a3 r2) as [t b].
  unfold sweepUnderLease. cbn [fst snd sw_tables sw_bucket sw_admission sw_log].
  change (buildPlan t b (wd_pages w) (wd_marker w) true nowMs (candidateListLimitOf o)) with (planOf o w nowMs (t, b)).
  destruct (planOf o w nowMs (t, b)) as [built|] eqn:Ep.
  2:{ intros [= <- <-]. left. cbn [sw_log sw_tables sw_bucket]. split_and!; [done|exact R3|by intros _ res [= <-]]. }
  destruct (pl_deleteAllowedByReferences (bu_plan built)) eqn:Ea; cbn [negb].
  2:{ intros [= <- <-]. left. cbn [sw_log sw_tables sw_bucket]. split_and!; [done|exact R3|by intros _ res [= <-]]. }
  apply bool_decide_eq_true in Ea. intros Hrun. right. exists built. split_and!; [done|done|].
  destruct (buildPlan_clean _ _ _ _ _ _ _ _ Ep Ea) as (scan & p & Hclean). cbn [fst snd] in Hclean. unfold retainedTables.
  rewrite (cp_projected _ _ _ _ _ _ _ _ Hclean). rewrite (cp_read _ _ _ _ _ _ _ _ Hclean) in Hrun.
  destruct (applyRegistryRetention _ _ p _ t) as [tables' [applied|]]; cbn [fst];
    [|injection Hrun as <- <-; left; split_and!; [done|done|by intros _ res [= <-]]].
  right. unfold applyDeletes in Hrun. fold (selectionOf o (bu_plan built)) in Hrun. cbv zeta in Hrun.
  change (deleteBatches _ _ _ _ _ _ _ _) with (deletedState o w token (bu_plan built) a3 (tables', b)) in Hrun.
  destruct (scanBucket (wd_postPages w)) as [post|].
  - injection Hrun as <- <-. split_and!; [done|done|]. intros res [= <-] Hc. exists post. split; [done|]. exact Hc.
  - injection Hrun as <- <-. split_and!; [done|done|]. by intros res [= <-].
Qed.

(** The batches of a run are taken from its worklist. *)
Lemma selected_candidate o plan x :
  In x (concat (ds_batches (selectionOf o plan))) -> In x (pl_candidateObjects plan).
Proof.
  unfold selectionOf, planCleanupDeleteSelection. cbn [ds_batches]. intros Hx.
  match type of Hx with In x (concat (take ?n ?l)) => destruct (concat_take_prefix n l) as [k Hk]; rewrite Hk in Hx end.
  assert (Hb : (0 < batchSizeOf o)%nat) by (unfold batchSizeOf, MAX_ASSERT_KEYS, MAX_BULK_DELETE_KEYS; lia).
  rewrite slices_concat in Hx by lia.
  apply (js_sort_In (fun l r => byDeleteOrder compareKeys (po_category l) (po_key l) (po_category r) (po_key r))).
  rewrite <- (take_drop k (js_sort _ _)). apply in_app_iff. by left.
Qed.

(** ** What the deletes find *)

(** While the sweep still holds the gate after a step, no writer was admitted in it:
    no object changed, and nothing needs a key that nothing needed before. *)
Definition writers_excluded (w : World) (token : string) : Prop :=
  forall n a r, holdsGate token a = true ->
    snd (wd_refs w n a r) = snd r /\ forall key, neededKey (fst (wd_refs w n a r)) (snd r) key -> neededKey (fst r) (snd r) key.

(** The tables and the bucket are those of the plan less the objects of the deletes
    [log], and nothing needs a key that nothing needed then. *)
Definition since (t : Tables) (b : Bucket) (log : list BulkDelete) (r : Tables * Bucket) : Prop :=
  r.2 = bucket_delete (flat_map be_removed log) b /\ forall key, neededKey r.1 r.2 key -> neededKey t b key.

Lemma neededKey_delete t keys b key : neededKey t (bucket_delete keys b) key -> neededKey t b key.
Proof.
  intros [rkey imageId closure sha Hn Hs|rkey imageId closure sha o m c Hn Hs Ho Hm Hc
    |rkey imageId closure sha Hn Hs|k imageId closure Hn].
  - by eapply needed_manifest.
  - apply bucket_deleted_found in Ho as [Ho _]. by eapply needed_chunk.
  - by eapply needed_boot.
  - by eapply needed_image.
Qed.

Lemma since_steps w token t b log x y :
  writers_excluded w token -> rtc (other_step w token) x y ->
  (holdsGate token x.1 = true -> since t b log x.2) -> holdsGate token y.1 = true -> since t b log y.2.
Proof.
  intros Hx. induction 1 as [|x y z [(n & E) Hh] _ IH]; [done|]. intros Hs. apply IH. intros Hy.
  destruct (Hs (Hh Hy)) as [Hb Hn]. destruct (Hx n y.1 x.2 Hy) as [Eb Hnew]. rewrite E. split; [congruence|].
  intros key Hk. apply Hn, Hnew. by rewrite <- Eb.
Qed.

Lemma since_delete t b log e :
  since t b log (be_tables e, be_bucket e) -> since t b (log ++ [e]) (afterDelete e).
Proof.
  intros [Hb Hn]. cbn [fst snd] in *. split; cbn [fst snd afterDelete].
  - rewrite flat_map_app, bucket_delete_app, <- Hb. cbn [flat_map]. by rewrite app_nil_r.
  - intros key Hk. by eapply Hn, neededKey_delete.
Qed.

Record delete_inv (token : string) (t : Tables) (b : Bucket) (keys : list string) (s : DeleteState) : Prop := mk_delete_inv {
  di_log : forall before e after, dl_log s = before ++ e :: after ->
    since t b before (be_tables e, be_bucket e) /\ incl (be_removed e) keys;
  di_held : holdsGate token (dl_admission s) = true -> since t b (dl_log s) (dl_tables s, dl_bucket s);
}.

Lemma log_snoc {A} (log : list A) e before x after :
  log ++ [e] = before ++ x :: after ->
  before = log /\ x = e \/ exists after', log = before ++ x :: after'.
Proof.
  destruct after as [|y after' _] using rev_ind; intros E.
  - apply app_inj_tail in E as [-> ->]. by left.
  - right. exists after'. rewrite app_comm_cons, app_assoc in E. by apply app_inj_tail in E as [-> _].
Qed.

(** Every delete of the loop finds the references and the objects as planned. *)
Lemma deleteBatches_inv w token leaseMs plan selected n batches s t b keys :
  sweepers_foreign w token -> writers_excluded w token -> incl (map po_key (concat batches)) keys ->
  delete_inv token t b keys s -> delete_inv token t b keys (deleteBatches w token leaseMs plan selected n batches s).
Proof.
  intros Hf Hx. revert n s. induction batches as [|batch rest IH]; intros n s Hk [Hl Hh]; [done|].
  cbn [concat] in Hk. rewrite map_app in Hk. apply incl_app_inv in Hk as [Hk Hrest].
  destruct (turn_cases w token leaseMs plan selected n batch rest s Hf)
    as [(a & r & error & Hsteps & ->)|(a2 & r2 & a3 & r3 & thrown & e & Hsteps & Ha2 & Eb & Hlast & ->)].
  { constructor; [exact Hl|]. cbn. intros Ha. rewrite <- surjective_pairing.
    exact (since_steps _ _ _ _ _ _ _ Hx Hsteps Hh Ha). }
  pose proof (since_steps _ _ _ _ _ _ _ Hx Hsteps Hh Ha2) as Hs2. cbn [snd] in Hs2.
  destruct (bulkDelete_spec _ _ _ _ _ _ Eb) as (Et & Ebk & _ & Hi & _ & _).
  rewrite (surjective_pairing r2), <- Et, <- Ebk in Hs2.
  assert (Hlog : forall before e' after, dl_log s ++ [e] = before ++ e' :: after ->
    since t b before (be_tables e', be_bucket e') /\ incl (be_removed e') keys).
  { intros before e' after [[-> ->]|[after' E]]%log_snoc; [|by eapply Hl].
    split; [done|]. by eapply incl_tran. }
  assert (Hlast' : holdsGate token a3 = true -> since t b (dl_log s ++ [e]) r3).
  { apply (since_steps _ _ _ _ _ _ _ Hx (rtc_once _ _ Hlast)). cbn. intros _. by apply since_delete. }
  destruct thrown as [message|]; [|apply IH; [done|]]; constructor; cbn; rewrite <- ?surjective_pairing; auto.
Qed.

(** C2. A sweep deletes nothing a reference needs, whatever its listing says, whatever
    its bulk deletes do and whenever others take its gate: each delete call finds the
    bucket its plan read, less what its own earlier calls removed, and tables that
    need nothing the tables its own retention left did not need; and no key it removes
    was needed by a live pointer, a retained rollback, a staged candidate, a run in
    flight or a host VM (its manifest, every chunk the manifest lists, its boot
    artifacts, its image) when the plan was made. Others never sweep under this run's
    token, and write objects and references to them only while the gate is not its
    own; a lost gate may be anyone's. A delete takes effect at the assertion right before
    it, whose heartbeat has just renewed the lease. *)
Theorem sweep_keeps_needed_objects o w token runId delete nowMs s s' r before e after
  (Hrun : runCleanup o w token runId delete nowMs s = (s', r))
  (Hforeign : sweepers_foreign w token) (Hexcluded : writers_excluded w token)
  (Hlog : sw_log s' = sw_log s ++ before ++ e :: after) :
  let '(t, b) := plannedRefs o w token runId s in
  be_bucket e = bucket_delete (flat_map be_removed before) b /\
  (forall key, neededKey (be_tables e) (be_bucket e) key -> neededKey (retainedTables w nowMs t) b key) /\
  (forall key, In key (be_removed e) -> ~ neededKey t b key).
Proof.
  assert (Hne : sw_log s' <> sw_log s).
  { rewrite Hlog. intros E. apply (f_equal length) in E. rewrite !length_app in E. cbn in E. lia. }
  unfold plannedRefs. destruct (run_cases _ _ _ _ _ _ _ _ _ Hrun) as [(? & _)|Hcases]; [done|].
  destruct (plannedState o w token runId s) as [a [t b]]. cbn [snd].
  destruct Hcases as (built & Hp & Hf & [(? & _)|(Hl & _)]); [done|]. rewrite Hlog in Hl. apply app_inv_head in Hl.
  destruct (buildPlan_clean _ _ _ _ _ _ _ _ Hp Hf) as (scan & p & Hclean).
  set (batches := ds_batches (selectionOf o (bu_plan built))).
  destruct (deleteBatches_inv w token (leaseMsOf o) (bu_plan built) (ds_selectedKeyCount (selectionOf o (bu_plan built))) 1
    batches (mkDeleteState a (retainedTables w nowMs t) b [] [] 0 0 0 0 0
      (ds_resumeRequired (selectionOf o (bu_plan built))) [] None)
    (retainedTables w nowMs t) b (map po_key (concat batches)) Hforeign Hexcluded (incl_refl _)) as [Hd _].
  { constructor; [by intros [|??] ?? [=]|]. intros _. split; cbn; [by rewrite bucket_delete_nil|done]. }
  destruct (Hd before e after) as [[Hb Hn] Hk]; [symmetry; exact Hl|]. split_and!; [done|done|].
  intros key Hin Hneed. apply Hk, in_map_iff in Hin as (x & Ek & Hx). apply selected_candidate in Hx.
  destruct (worklist_key _ _ _ _ _ _ _ _ key Hclean) as [[y Hy] Hno]; [apply in_map_iff; eauto|].
  destruct (needed_retained _ _ _ _ _ _ _ _ _ Hclean Hneed) as [Hret|Hret]; [|congruence].
  by apply Hno, withSidecars_In.
Qed.

(** The keys a run removes are image objects of the registry. *)
Lemma deleteBatches_keys w token leaseMs plan selected n batches s e :
  In e (dl_log (deleteBatches w token leaseMs plan selected n batches s)) ->
  In e (dl_log s) \/ incl (be_removed e) (map po_key (concat batches)).
Proof.
  revert n s. induction batches as [|batch batches IH]; intros n s; [by left|]. cbn [deleteBatches concat].
  destruct (heartbeatRegistrySweep _ _ _ _ _ _) as [a1 [[x [reason|]]|]]; [by left| |by left].
  destruct (assertRegistrySweepDeletable _ _ _); [by left|].
  destruct (bulkDelete w n _ _) as [thrown e'] eqn:Eb. apply bulkDelete_spec in Eb as (_ & _ & _ & Hi & _).
  assert (Hone : forall l, In e (dl_log s ++ [e']) -> In e (dl_log s) \/ incl (be_removed e) (map po_key (batch ++ l))).
  { intros l [?|[<-|[]]]%in_app_iff; [by left|]. right. intros k Hk. rewrite map_app, in_app_iff. left. by apply Hi. }
  destruct thrown as [message|]; [apply Hone|].
  intros [Hin|Hin]%IH; [by apply Hone|]. right. intros k Hk. rewrite map_app, in_app_iff. right. by apply Hin.
Qed.

(** Keys that are not an image object of the registry are never removed. *)
Theorem sweep_leaves_other_keys o w token runId delete nowMs s s' r e key
  (Hrun : runCleanup o w token runId delete nowMs s = (s', r)) (Hnew : sw_log s = [])
  (Hkey : forall bytes, parseSweptObjectKey key bytes = None) (He : In e (sw_log s')) :
  ~ In key (be_removed e).
Proof.
  destruct (run_cases _ _ _ _ _ _ _ _ _ Hrun) as [(El & _)|Hcases]; [rewrite El, Hnew in He; done|].
  destruct (plannedState o w token runId s) as [a [t b]].
  destruct Hcases as (built & Hp & Hf & [(El & _)|(El & _)]); rewrite El, Hnew in He; [done|]. intros Hin.
  destruct (buildPlan_clean _ _ _ _ _ _ _ _ Hp Hf) as (scan & p & Hclean).
  apply deleteBatches_keys in He as [[]|Hi]. apply Hi, in_map_iff in Hin as (x & Ek & Hx).
  apply selected_candidate in Hx.
  destruct (worklist_key _ _ _ _ _ _ _ _ key Hclean) as [[y Hy] _]; [apply in_map_iff; eauto|].
  destruct (scanBucket_spec _ _ (cp_scanned _ _ _ _ _ _ _ _ Hclean)) as [[_ Hpar] _].
  destruct (Hpar _ _ Hy) as (bytes & Hb). by rewrite Hkey in Hb.
Qed.

(** Something a sweep relies on cannot be proven: the listing has no end, the
    retirement marker or the projection cannot be read, or an object a reference
    needs is missing, is not the object its digest names, or is not a manifest. *)
Inductive unproven (tables : Tables) (b : Bucket) (pages : list ListPage) (marker : bool) (nowMs : Z) : Prop :=
| unproven_listing scan : scanBucket pages = Some scan -> bs_truncated scan = true -> unproven tables b pages marker nowMs
| unproven_marker : marker = false -> unproven tables b pages marker nowMs
| unproven_projection f : projectRegistryRetention tables nowMs = Err f -> unproven tables b pages marker nowMs
| unproven_manifest rkey imageId closure sha :
    needs tables rkey imageId closure -> In sha (closureChunkManifests closure) ->
    (forall o m, bucket_head (imageManifestObjectKey sha) b = Some o -> sha256Hex (ro_body o) = sha ->
       readRetainedManifest (ro_body o) <> Ok m) -> unproven tables b pages marker nowMs
| unproven_chunk rkey imageId closure sha o m c :
    needs tables rkey imageId closure -> In sha (closureChunkManifests closure) ->
    bucket_head (imageManifestObjectKey sha) b = Some o -> readRetainedManifest (ro_body o) = Ok m ->
    In c (cm_chunks m) -> ~ In (imageChunkObjectKey (ch_raw_sha256 c)) (map fst (listedObjects pages)) ->
    unproven tables b pages marker nowMs
| unproven_boot rkey imageId closure sha :
    needs tables rkey imageId closure -> In sha (closureBootArtifacts closure) ->
    ~ In (bootArtifactObjectKey sha) (map fst (listedObjects pages)) -> unproven tables b pages marker nowMs
| unproven_image key imageId closure :
    needs tables (registryImageKey key) imageId closure ->
    ~ In (imageObjectKey key imageId) (map fst (listedObjects pages)) ->
    (forall sha o m, bucket_head (imageManifestObjectKey sha) b = Some o -> readRetainedManifest (ro_body o) = Ok m ->
       cm_image_id m <> imageId) -> unproven tables b pages marker nowMs.

Lemma unlisted_absent pages scan key :
  scanBucket pages = Some scan -> ~ In key (map fst (listedObjects pages)) -> inventoried (bs_objects scan) key = false.
Proof.
  intros Hs Hn. apply not_true_iff_false. rewrite inventoried_get. intros Hk.
  destruct (scanPages_only _ _ _ _ Hs Hk) as [[x Hx]|Hin]; [discriminate Hx|done].
Qed.

Lemma covered_manifest b inventory shas imageId :
  In imageId (vf_imageIds (verifyAll (map (verifyManifest b inventory) shas))) ->
  exists sha o m, bucket_head (imageManifestObjectKey sha) b = Some o /\ readRetainedManifest (ro_body o) = Ok m /\
    cm_image_id m = imageId.
Proof.
  cbn. intros (v & (sha & <- & Hsha)%in_map_iff & Hi)%in_flat_map. revert Hi. unfold verifyManifest.
  fold (imageManifestObjectKey sha). destruct (bucket_head (imageManifestObjectKey sha) b) as [o|] eqn:Eo; [|done].
  destruct (negb _); [done|]. destruct (readRetainedManifest (ro_body o)) as [m|] eqn:Em; [|done].
  cbn. intros [<-|Hi]; [by exists sha, o, m|]. exfalso. apply in_flat_map in Hi as (v & (c & <- & _)%in_map_iff & Hi).
  unfold verifyChunk in Hi. by destruct (inventoried _ _).
Qed.

Lemma clean_proven tables b pages marker nowMs limit built :
  buildPlan tables b pages marker true nowMs limit = Some built -> pl_faults (bu_plan built) = [] ->
  ~ unproven tables b pages marker nowMs.
Proof.
  intros Hb Hf Hu. destruct (buildPlan_clean _ _ _ _ _ _ _ _ Hb Hf) as (scan & p & [Hs Ht Hp _ _ Hv _ _]).
  unfold verifyRetainedObjects in Hv. cbv zeta in Hv. cbn [rv_faults] in Hv.
  apply app_eq_nil in Hv as [Hm Hv]. apply app_eq_nil in Hv as [Hr Hbo].
  assert (Hman : forall rkey imageId closure sha, needs tables rkey imageId closure ->
    In sha (closureChunkManifests closure) -> vf_faults (verifyManifest b (bs_objects scan) sha) = []).
  { intros rkey imageId closure sha Hneed Hsha.
    destruct (project_pins tables nowMs p rkey imageId closure Hp Hneed) as (_ & Hch & _).
    exact (verifyAll_faults _ _ Hm (in_map (verifyManifest b (bs_objects scan)) _ _ (Hch _ Hsha))). }
  destruct Hu as [scan' Hs' Ht'|Hmk|f Hpf|rkey imageId closure sha Hneed Hsha Hno|rkey imageId closure sha o m c Hneed Hsha Ho Hm' Hc Hno
    |rkey imageId closure sha Hneed Hsha Hno|k imageId closure Hneed Hno Hcov].
  - congruence.
  - subst. unfold buildPlan in Hb. rewrite Hs in Hb. cbn [mbind option_bind] in Hb. injection Hb as <-.
    cbn [bu_plan pl_faults] in Hf. rewrite Ht in Hf. done.
  - congruence.
  - destruct (verifyManifest_ok _ _ _ (Hman _ _ _ _ Hneed Hsha)) as (o & m & Ho & Hd & Hm' & _). by eapply Hno.
  - destruct (verifyManifest_ok _ _ _ (Hman _ _ _ _ Hneed Hsha)) as (o' & m2 & Ho' & _ & Hm2 & _ & Hall).
    rewrite Ho in Ho'. injection Ho' as <-. rewrite Hm' in Hm2. injection Hm2 as <-.
    destruct (Hall c Hc) as [Hi _]. by rewrite (unlisted_absent _ _ _ Hs Hno) in Hi.
  - destruct (project_pins tables nowMs p rkey imageId closure Hp Hneed) as (_ & _ & Hb2 & _).
    pose proof (verifyAll_faults _ _ Hbo (in_map (verifyBootArtifact (bs_objects scan)) _ _ (Hb2 _ Hsha))) as Hv.
    unfold verifyBootArtifact in Hv. fold (bootArtifactObjectKey sha) in Hv. by rewrite (unlisted_absent _ _ _ Hs Hno) in Hv.
  - destruct (project_pins tables nowMs p _ imageId closure Hp Hneed) as ((r & Hroot & Hk & Hi) & _).
    pose proof (verifyAll_faults _ _ Hr (in_map (verifyRoot (bs_objects scan) _) _ _ Hroot)) as Hv.
    unfold verifyRoot in Hv.
    assert (Hkey : legacyImageKeyOf r = imageObjectKey k imageId).
    { unfold legacyImageKeyOf, imageObjectKey. fold (rootKey r). by rewrite Hk, Hi. }
    rewrite Hkey, (unlisted_absent _ _ _ Hs Hno) in Hv.
    destruct (str_mem (rt_imageId r) _) eqn:Ec; [|done]. apply str_mem_In in Ec.
    destruct (covered_manifest _ _ _ _ Ec) as (sha & o & m & Ho & Hmm & Eid). rewrite Hi in Eid. by eapply Hcov.
Qed.

(** A sweep that cannot prove what it must keep deletes nothing and records nothing:
    it makes no delete call, and only others change a rollback, a candidate, a build,
    a cache intent or an object. *)
Theorem unproven_reference_stops_sweep o w token runId delete nowMs s s' r
  (Hrun : runCleanup o w token runId delete nowMs s = (s', r))
  (Hu : unproven (fst (plannedRefs o w token runId s)) (snd (plannedRefs o w token runId s)) (wd_pages w) (wd_marker w) nowMs) :
  sw_log s' = sw_log s /\ rtc (ref_step w) (sw_tables s, sw_bucket s) (sw_tables s', sw_bucket s').
Proof.
  unfold plannedRefs in Hu. destruct (run_cases _ _ _ _ _ _ _ _ _ Hrun) as [(? & ? & _)|Hcases]; [done|].
  destruct (plannedState o w token runId s) as [a [t b]]. destruct Hcases as (built & Hp & Hf & _).
  by destruct (clean_proven _ _ _ _ _ _ _ Hp Hf).
Qed.

(** * A completed run *)

Lemma claim_keys batch (m : list (string * Z)) key :
  In key (map fst (fold_left (fun m o => Map_set (po_key o) (po_bytes o) m) batch m)) <->
  In key (map fst m) \/ In key (map po_key batch).
Proof.
  revert m. induction batch as [|x batch IH]; intros m; cbn [fold_left map]; [cbn; tauto|].
  rewrite IH. pose proof (Map_set_keys (po_key x) (po_bytes x) m key) as Hk. rewrite !list_elem_of_In in Hk.
  rewrite Hk. cbn [In]. intuition congruence.
Qed.

(** A loop that ends without an error has claimed every key. *)
Lemma deleteBatches_claims w token leaseMs plan selected n batches s :
  dl_error (deleteBatches w token leaseMs plan selected n batches s) = None ->
  (forall key, In key (map fst (dl_claimed s)) \/ In key (map po_key (concat batches)) ->
     In key (map fst (dl_claimed (deleteBatches w token leaseMs plan selected n batches s)))) /\
  dl_resumeRequired (deleteBatches w token leaseMs plan selected n batches s) = dl_resumeRequired s.
Proof.
  revert n s. induction batches as [|batch batches IH]; intros n s; cbn [deleteBatches concat map].
  { intros _. split; [by intros key [?|[]]|done]. }
  destruct (heartbeatRegistrySweep _ _ _ _ _ _) as [a1 [[e [reason|]]|]]; [done| |done].
  destruct (assertRegistrySweepDeletable _ _ _); [done|].
  destruct (bulkDelete w n _ _) as [[message|] e']; [done|]. intros He.
  destruct (IH _ _ He) as [Hall Hres]. split; [|exact Hres]. intros key Hk. apply Hall.
  cbn [dl_claimed recordProgress claimBatch]. rewrite claim_keys. rewrite map_app, in_app_iff in Hk. tauto.
Qed.

Lemma completed_finish plan baseline post s :
  rr_completed (finishDeletes plan baseline post s) = true ->
  dl_error s = None /\ dl_resumeRequired s = false /\
  forall key, In key (map fst (dl_claimed s)) -> inventoried (bs_objects post) key = false.
Proof.
  unfold finishDeletes. cbn [rr_completed]. rewrite !andb_true_iff, bool_decide_eq_true, negb_true_iff.
  intros (((((He & _) & Hs) & _) & _) & Hr). split_and!; [|done|].
  - unfold orError in He. by destruct (dl_error s).
  - apply Z.eqb_eq in Hs. intros key ([k v] & <- & Hk)%in_map_iff. apply not_true_iff_false. intros Hi.
    assert (Hin : In (k, v) (stillThere (bs_objects post) (dl_claimed s))) by (by apply filter_In_iff).
    unfold countOf in Hs. destruct (stillThere (bs_objects post) (dl_claimed s)); [done|]. cbn in Hs. lia.
Qed.

Lemma batchSize_bounds o : (0 < batchSizeOf o <= maxDeletesOf o)%nat /\ (batchSizeOf o <= MAX_ASSERT_KEYS)%nat.
Proof. unfold maxDeletesOf, batchSizeOf, MAX_ASSERT_KEYS, MAX_BULK_DELETE_KEYS. lia. Qed.

Lemma whole_selection o plan :
  ds_resumeRequired (selectionOf o plan) = false ->
  concat (ds_batches (selectionOf o plan)) ≡ₚ pl_candidateObjects plan /\ pl_candidateSampleCapped plan = false.
Proof.
  unfold selectionOf, planCleanupDeleteSelection. cbv zeta. cbn [ds_resumeRequired ds_batches].
  rewrite !orb_false_iff, Nat.ltb_ge. intros [[Hlen Hc] _]. split; [|done].
  match goal with |- concat (take ?n ?l) ≡ₚ _ => assert (take n l = l) as -> end.
  { rewrite length_take in Hlen. apply take_ge. lia. }
  destruct (batchSize_bounds o) as [Hb _]. rewrite slices_concat by lia. apply js_sort_perm.
Qed.

(** The keys a run keeps: what the references of its projection need of the objects
    it listed, with their sidecars. *)
Definition keptKeys (b : Bucket) (scan : BucketScan) (p : RegistryRetentionProjection) : list string :=
  withSidecars (rv_retainedKeys (verifyRetainedObjects b (bs_objects scan) p)).

(** A run that calls itself completed has nothing left to delete: every object its
    listing named that no reference retains is gone from the listing it ends with. *)
Theorem completed_sweep_leaves_nothing o w token runId nowMs s s' res
  (Hrun : runCleanup o w token runId true nowMs s = (s', Some res)) (Hc : rr_completed res = true) :
  exists scan p post, scanBucket (wd_pages w) = Some scan /\ scanBucket (wd_postPages w) = Some post /\
    projectRegistryRetention (fst (plannedRefs o w token runId s)) nowMs = Ok p /\
    forall key, is_Some (Map_get key (bs_objects scan)) -> is_Some (Map_get key (bs_objects post)) ->
      In key (keptKeys (snd (plannedRefs o w token runId s)) scan p).
Proof.
  unfold keptKeys, plannedRefs.
  destruct (run_cases _ _ _ _ _ _ _ _ _ Hrun) as [(_ & _ & Hi)|Hcases]; [by rewrite (Hi eq_refl res eq_refl) in Hc|].
  destruct (plannedState o w token runId s) as [a [t b]]. cbn [fst snd].
  destruct Hcases as (built & Hp & Hf & [(_ & _ & Hi)|(_ & _ & Hd)]); [by rewrite (Hi eq_refl res eq_refl) in Hc|].
  destruct (Hd res eq_refl Hc) as (post & Hpost & Hfin). apply completed_finish in Hfin as (He & Hr & Hgone).
  destruct (buildPlan_clean _ _ _ _ _ _ _ _ Hp Hf) as (scan & p & Hclean). exists scan, p, post.
  pose proof Hclean as [Hs _ Hproj _ _ _ Hw Htot]. split_and!; [done..|]. intros key [x Hx] Hpk.
  unfold deletedState in *. destruct (deleteBatches_claims _ _ _ _ _ _ _ _ He) as [Hall Hres].
  rewrite Hres in Hr. cbn [dl_resumeRequired] in Hr. destruct (whole_selection _ _ Hr) as [Hperm Hcap].
  destruct (str_mem key (withSidecars (rv_retainedKeys (verifyRetainedObjects b (bs_objects scan) p))))
    eqn:Hn; [by apply str_mem_In|]. apply str_mem_false in Hn. exfalso.
  assert (Hkey : so_key x = key).
  { destruct (scanBucket_spec _ _ Hs) as [[_ Hpar] _]. destruct (Hpar _ _ Hx) as (bytes & Hb).
    by destruct (swept_key_exact _ _ _ Hb) as (? & _). }
  assert (Hcand : In x (candidateObjectsOf (bs_objects scan)
      (rv_retainedKeys (verifyRetainedObjects b (bs_objects scan) p)))).
  { unfold candidateObjectsOf. apply filter_In_iff. rewrite js_sort_In, str_mem_false, Hkey. split; [|done].
    apply in_map_iff. exists (key, x). split; [done|]. by apply Map_get_In. }
  assert (Hlist : In key (map po_key (pl_candidateObjects (bu_plan built)))).
  { unfold pl_candidateSampleCapped in Hcap. rewrite Htot, Z.ltb_ge in Hcap. rewrite Hw in Hcap |- *.
    rewrite length_map in Hcap. rewrite take_ge in Hcap |- * by (rewrite length_take in Hcap; lia).
    rewrite map_map. cbn. apply in_map_iff. eauto. }
  assert (Hclaimed : inventoried (bs_objects post) key = false).
  { apply Hgone, Hall. right. apply list_elem_of_In in Hlist. apply list_elem_of_In. by rewrite Hperm. }
  apply not_true_iff_false in Hclaimed. by apply Hclaimed, inventoried_get.
Qed.

(** * Manifests stay complete *)

(** A bulk delete that returns removed its keys. *)
Definition bulk_returns (w : World) : Prop := forall n keys removed, wd_bulk w n keys = (None, removed) -> incl keys removed.

(** Every chunk has its digest, and every manifest not [excused] is valid and
    complete. *)
Record registry_but (excused : list string) (b : Bucket) : Prop := mk_registry_but {
  rb_chunks : forall raw o, bucket_head (imageChunkObjectKey raw) b = Some o ->
    meta o "encoded_sha256" = Some (sha256Hex (ro_body o));
  rb_manifests : forall sha o, bucket_head (imageManifestObjectKey sha) b = Some o ->
    ~ In (imageManifestObjectKey sha) excused ->
    exists m, holdsManifest b sha m /\ Forall (fun c => chunkStored b c = true) (cm_chunks m);
}.
(** The keys of the delete calls that threw. *)
Definition failedKeys (log : list BulkDelete) : list string :=
  flat_map (fun e => if be_thrown e then be_keys e else []) log.
(** Others leave the bucket as uploads and their own sweeps do. *)
Definition others_keep_registry (w : World) : Prop :=
  forall excused n a r, registry_but excused (snd r) -> registry_but excused (snd (wd_refs w n a r)).

Lemma registry_but_none b : registry_ok b <-> registry_but [] b.
Proof.
  split.
  - intros [Hc Hm]. constructor; [done|]. intros sha o Ho _. by eapply Hm.
  - intros [Hc Hm]. constructor; [done|]. intros sha o Ho. apply (Hm sha o Ho). by intros [].
Qed.
(** A manifest that is gone needs no excuse. *)
Lemma excused_gone keys gone b :
  registry_but keys (bucket_delete gone b) -> incl keys gone -> registry_but [] (bucket_delete gone b).
Proof.
  intros [Hc Hm] Hi. constructor; [done|]. intros sha o Ho _. apply (Hm sha o Ho).
  apply bucket_deleted_found in Ho as [_ Hn]. auto.
Qed.
Lemma registry_steps w r r' excused :
  others_keep_registry w -> rtc (ref_step w) r r' -> registry_but excused r.2 -> registry_but excused r'.2.
Proof. intros Hw. induction 1 as [|x y z (n & a & ->) _ IH]; [done|]. intros Hr. by apply IH, Hw. Qed.

Lemma code_units_app a b : code_units (a +:+ b) = code_units a ++ code_units b.
Proof.
  induction a as [|c a IH]; [done|]. change (String c a +:+ b) with (String c (a +:+ b)). cbn [code_units].
  by rewrite IH.
Qed.
Lemma sidecar_manifest_key k sha : k +:+ SIDECAR_SUFFIX <> imageManifestObjectKey sha.
Proof.
  intros E. apply (f_equal (fun s => last (code_units s))) in E. unfold imageManifestObjectKey in E.
  rewrite !code_units_app in E. change (code_units SIDECAR_SUFFIX) with ([46; 115; 104; 97; 50; 53] ++ [54])%N in E.
  change (code_units ".json") with ([46; 106; 115; 111] ++ [110])%N in E.
  rewrite !app_assoc, !last_snoc in E. discriminate E.
Qed.
Lemma withSidecars_manifest keys sha :
  In (imageManifestObjectKey sha) (withSidecars keys) -> In (imageManifestObjectKey sha) keys.
Proof.
  unfold withSidecars. intros [?|Hk]%in_app_iff; [done|]. exfalso.
  apply in_flat_map in Hk as (k & _ & Hk). destruct (drop_suffix LEGACY_SUFFIX k); [|done].
  destruct Hk as [Hk|[]]. by apply sidecar_manifest_key in Hk.
Qed.

(** A manifest is retained as one: through its own verification. *)
Lemma retained_manifest b inventory p sha :
  inventory_ok inventory -> SHA256_RE sha = true ->
  In (imageManifestObjectKey sha) (rv_retainedKeys (verifyRetainedObjects b inventory p)) ->
  In sha (pj_chunkManifestSha256s p).
Proof.
  intros [Hnd Hpar] Hsha. rewrite retained_In. intros [Hk|[(root & covered & _ & Hk & _)|[(o & Ho & Ek & Hkind & _)|Hk]]].
  - cbn in Hk. apply in_flat_map in Hk as (v & (sha' & <- & Hin)%in_map_iff & Hk). revert Hk. unfold verifyManifest.
    fold (imageManifestObjectKey sha'). destruct (bucket_head _ b) as [o|]; [|done]. destruct (negb _); [done|].
    destruct (readRetainedManifest (ro_body o)) as [m|]; [|done]. cbn. intros [E|Hk].
    + by apply imageManifestObjectKey_inj in E as <-.
    + exfalso. apply in_flat_map in Hk as (v & (c & <- & _)%in_map_iff & Hk). unfold verifyChunk in Hk.
      destruct (inventoried _ _); [|done]. destruct Hk as [E|[]].
      by apply (chunk_manifest_keys (ch_raw_sha256 c) sha).
  - exfalso. unfold verifyRoot in Hk. destruct (inventoried _ _); [|by destruct (str_mem _ _)].
    destruct Hk as [E|[]]. discriminate E.
  - exfalso. apply in_map_iff in Ho as ([k o'] & <- & Hin). cbn [snd] in *.
    assert (Hg : Map_get k inventory = Some o') by (apply Map_get_nodup; [done|by apply list_elem_of_In]).
    destruct (Hpar _ _ Hg) as (bytes & Hb). pose proof (swept_key_exact _ _ _ Hb) as (Ek' & _).
    assert (k = imageManifestObjectKey sha) as -> by congruence.
    rewrite (parse_manifest_key sha bytes Hsha) in Hb. injection Hb as <-. done.
  - exfalso. cbn in Hk. apply in_flat_map in Hk as (v & (sha' & <- & _)%in_map_iff & Hk).
    unfold verifyBootArtifact in Hk. destruct (inventoried _ _); [|done]. destruct Hk as [E|[]]. discriminate E.
Qed.

Lemma StronglySorted_filter {A} (R : A -> A -> Prop) (P : A -> Prop) `{!forall x, Decision (P x)} l :
  StronglySorted R l -> StronglySorted R (filter P l).
Proof.
  induction 1 as [|x l _ IH Hx]; [constructor|]. rewrite filter_cons. case_decide; [|done].
  constructor; [done|]. apply List.Forall_forall. intros y Hy. apply filter_In_iff in Hy as [Hy _].
  rewrite List.Forall_forall in Hx. by apply Hx.
Qed.

(** While a manifest that no reference retains is still there, no chunk goes. *)
Lemma manifest_before_chunks o tables b pages nowMs built scan p j sha raw :
  clean_plan tables b pages nowMs (candidateListLimitOf o) built scan p ->
  SHA256_RE sha = true -> SHA256_RE raw = true ->
  is_Some (Map_get (imageManifestObjectKey sha) (bs_objects scan)) ->
  ~ In (imageManifestObjectKey sha) (withSidecars (rv_retainedKeys (verifyRetainedObjects b (bs_objects scan) p))) ->
  In (imageChunkObjectKey raw) (map po_key (concat (take j (ds_batches (selectionOf o (bu_plan built)))))) ->
  In (imageManifestObjectKey sha) (map po_key (concat (take j (ds_batches (selectionOf o (bu_plan built)))))).
Proof.
  intros Hclean Hsha Hraw [y Hy] Hnr Hx. pose proof Hclean as [Hs _ _ _ _ _ Hw _].
  destruct (scanBucket_spec _ _ Hs) as [[Hnd Hpar] _].
  set (cands := candidateObjectsOf (bs_objects scan) (rv_retainedKeys (verifyRetainedObjects b (bs_objects scan) p))) in *.
  destruct (Hpar _ _ Hy) as (bytes & Hb). rewrite parse_manifest_key in Hb by done. injection Hb as <-.
  set (y := mkSwept (imageManifestObjectKey sha) k_manifest bytes sha None) in *.
  assert (Hyc : In y cands).
  { unfold cands, candidateObjectsOf. apply filter_In_iff. rewrite js_sort_In, str_mem_false. split; [|done].
    apply in_map_iff. exists (imageManifestObjectKey sha, y). split; [done|]. by apply Map_get_In. }
  apply in_map_iff in Hx as (x & Ex & Hx).
  destruct (concat_take_prefix j (ds_batches (selectionOf o (bu_plan built)))) as [k1 Hk1].
  unfold selectionOf, planCleanupDeleteSelection in Hk1, Hx |- *. cbv zeta in Hk1, Hx |- *. cbn [ds_batches] in *.
  fold (orderedCandidates (pl_candidateObjects (bu_plan built))) in *.
  set (ordered := orderedCandidates (pl_candidateObjects (bu_plan built))) in *.
  match type of Hk1 with context [take ?n (slices ?f ?z ordered)] =>
    destruct (concat_take_prefix n (slices f z ordered)) as [k2 Hk2] end.
  destruct (batchSize_bounds o) as [Hbs _]. rewrite slices_concat in Hk2 by lia.
  rewrite Hk1, Hk2, take_take in Hx. rewrite Hk1, Hk2, take_take. set (k := Nat.min k1 k2) in *.
  assert (Hxo : In x ordered) by (rewrite <- (take_drop k ordered); apply in_app_iff; by left).
  unfold ordered, orderedCandidates in Hxo. rewrite js_sort_In, Hw in Hxo. apply in_map_iff in Hxo as (xo & <- & Hxo).
  assert (Hkind : so_kind xo = k_chunk).
  { assert (Hxc : In xo cands) by (rewrite <- (take_drop (candidateListLimitOf o) cands); apply in_app_iff; by left).
    unfold cands, candidateObjectsOf in Hxc. apply filter_In_iff in Hxc as [Hxc _]. rewrite js_sort_In in Hxc.
    apply in_map_iff in Hxc as ([kx xo'] & E & Hin). cbn in E. subst xo'.
    assert (Hg : Map_get kx (bs_objects scan) = Some xo) by (apply Map_get_nodup; [done|by apply list_elem_of_In]).
    destruct (Hpar _ _ Hg) as (bx & Hbx). pose proof (swept_key_exact _ _ _ Hbx) as (Ekx & _).
    cbn in Ex. assert (kx = imageChunkObjectKey raw) as -> by congruence.
    rewrite parse_chunk_key in Hbx by done. by injection Hbx as <-. }
  assert (Hyl : In y (take (candidateListLimitOf o) cands)).
  { rewrite <- (take_drop (candidateListLimitOf o) cands) in Hyc. apply in_app_iff in Hyc as [?|Hyd]; [done|]. exfalso.
    pose proof (sorted_prefix_order localeCompare so_kind so_key (candidateListLimitOf o) cands xo y) as Ho.
    rewrite Hkind in Ho. cbn in Ho.
    assert (3 <= 0) by (apply Ho; [|done|done]; unfold cands, candidateObjectsOf; apply StronglySorted_filter,
      byDeleteOrder_sorted; [apply localeCompare_total|apply localeCompare_trans]). lia. }
  apply in_map_iff. exists (planObjectOf y). split; [done|].
  assert (Hyo : In (planObjectOf y) ordered).
  { unfold ordered, orderedCandidates. rewrite js_sort_In, Hw. by apply in_map. }
  rewrite <- (take_drop k ordered) in Hyo. apply in_app_iff in Hyo as [?|Hyd]; [done|]. exfalso.
  pose proof (sorted_prefix_order compareKeys po_category po_key k ordered (planObjectOf xo) (planObjectOf y)) as Ho.
  cbn in Ho. rewrite Hkind in Ho. cbn in Ho.
  assert (3 <= 0) by (apply Ho; [|done|done]; apply byDeleteOrder_sorted;
    [apply compareKeys_total|apply compareKeys_trans]). lia.
Qed.

(** A chunk that a retained manifest lists is in no batch. *)
Lemma retained_chunk_stays o tables b pages nowMs built scan p j sha m c :
  clean_plan tables b pages nowMs (candidateListLimitOf o) built scan p ->
  In (imageManifestObjectKey sha) (withSidecars (rv_retainedKeys (verifyRetainedObjects b (bs_objects scan) p))) ->
  SHA256_RE sha = true -> holdsManifest b sha m -> In c (cm_chunks m) ->
  ~ In (imageChunkObjectKey (ch_raw_sha256 c))
      (map po_key (concat (take j (ds_batches (selectionOf o (bu_plan built)))))).
Proof.
  intros Hclean Eret Hform (o2 & decoded & Ho2 & _ & _ & Hd & Hv) Hc Hgone.
  pose proof Hclean as [Hs _ _ _ _ Hver _ _]. destruct (scanBucket_spec _ _ Hs) as [Hinv _].
  apply withSidecars_manifest in Eret. apply retained_manifest in Eret; [|done|done].
  unfold verifyRetainedObjects in Hver. cbv zeta in Hver. cbn [rv_faults] in Hver. apply app_eq_nil in Hver as [Hmf _].
  pose proof (in_map (verifyManifest b (bs_objects scan)) _ _ Eret) as Hin.
  destruct (verifyManifest_ok _ _ _ (verifyAll_faults _ _ Hmf Hin)) as (o3 & m3 & Ho3 & _ & Hm3 & _ & Hch).
  assert (m3 = m) as ->.
  { rewrite Ho2 in Ho3. injection Ho3 as <-. unfold readRetainedManifest in Hm3. rewrite Hd, Hv in Hm3. congruence. }
  rewrite in_map_iff in Hgone. destruct Hgone as (x & Ex & Hx).
  assert (Hxc : In x (pl_candidateObjects (bu_plan built))).
  { apply (selected_candidate o). destruct (concat_take_prefix j (ds_batches (selectionOf o (bu_plan built)))) as [k Hk].
    rewrite Hk in Hx. rewrite <- (take_drop k (concat _)). apply in_app_iff. by left. }
  destruct (worklist_key _ _ _ _ _ _ _ _ (imageChunkObjectKey (ch_raw_sha256 c)) Hclean) as [_ Hno];
    [apply in_map_iff; eauto|].
  apply Hno, withSidecars_In, retained_In. left. eapply verifyAll_keys; [exact Hin|]. by apply Hch.
Qed.

(** What is left once the batches [pre] are gone and some keys of the next: only the
    manifests of that next batch can have lost a chunk. *)
Lemma partial_sweep o tables b pages nowMs built scan p pre batch rest gone :
  clean_plan tables b pages nowMs (candidateListLimitOf o) built scan p -> registry_ok b ->
  (forall key object, bucket_head key b = Some object -> In (key, ro_size object) (listedObjects pages)) ->
  ds_batches (selectionOf o (bu_plan built)) = pre ++ batch :: rest ->
  incl gone (map po_key (concat (pre ++ [batch]))) -> incl (map po_key (concat pre)) gone ->
  registry_but (map po_key batch) (bucket_delete gone b).
Proof.
  intros Hclean Hok Hlist Hall Hgone Hpre. pose proof (cp_scanned _ _ _ _ _ _ _ _ Hclean) as Hs.
  destruct (scanBucket_spec _ _ Hs) as [Hinv Hfound].
  assert (Etake : take (S (length pre)) (ds_batches (selectionOf o (bu_plan built))) = pre ++ [batch]).
  { rewrite Hall, cons_middle, app_assoc. apply take_app_length'. rewrite length_app. cbn. lia. }
  constructor.
  - intros raw object Ho. apply bucket_deleted_found in Ho as [Ho _]. by apply (ro_chunks _ Hok raw).
  - intros sha object Ho Hne. apply bucket_deleted_found in Ho as [Ho Hng].
    destruct (ro_manifests _ Hok sha object Ho) as (m & Hm & Hch).
    pose proof Hm as (o2 & decoded & Ho2 & Hsha & Hz & Hd & Hv).
    assert (Hform : SHA256_RE sha = true) by (rewrite <- Hsha; apply sha256Hex_form).
    exists m. split.
    { exists o2, decoded. split; [|exact (conj Hsha (conj Hz (conj Hd Hv)))].
      rewrite bucket_delete_head. apply str_mem_false in Hng. by rewrite Hng. }
    rewrite List.Forall_forall in *. intros c Hc. specialize (Hch c Hc). unfold chunkStored in Hch |- *.
    rewrite bucket_delete_head. destruct (str_mem (imageChunkObjectKey (ch_raw_sha256 c)) gone) eqn:Eg; [exfalso|done].
    apply str_mem_In, Hgone in Eg. rewrite <- Etake in Eg.
    assert (Hraw : SHA256_RE (ch_raw_sha256 c) = true).
    { pose proof (mo_chunks _ (validate_spec _ _ Hv)) as Hcs. rewrite List.Forall_forall in Hcs. by apply Hcs. }
    destruct (str_mem (imageManifestObjectKey sha)
      (withSidecars (rv_retainedKeys (verifyRetainedObjects b (bs_objects scan) p)))) eqn:Eret.
    + apply str_mem_In in Eret. by eapply (retained_chunk_stays o _ _ _ _ _ _ _ _ sha m c Hclean Eret Hform Hm Hc).
    + apply str_mem_false in Eret. assert (Hin : In (imageManifestObjectKey sha) (map po_key (concat (pre ++ [batch])))).
      { rewrite <- Etake. eapply manifest_before_chunks; [done|done|exact Hraw| |done|done].
        eapply Hfound; [by apply (Hlist _ o2)|]. by apply parse_manifest_key. }
      rewrite concat_app, map_app, in_app_iff in Hin. cbn [concat] in Hin. rewrite app_nil_r in Hin.
      destruct Hin as [Hin|Hin]; [by apply Hng, Hpre|done].
Qed.

(** The loop keeps the registry, a failed batch excused. *)
Lemma deleteBatches_registry w token leaseMs plan selected b all
    (Hpart : forall pre batch rest gone, all = pre ++ batch :: rest ->
       incl gone (map po_key (concat (pre ++ [batch]))) -> incl (map po_key (concat pre)) gone ->
       registry_but (map po_key batch) (bucket_delete gone b)) batches pre n s :
  sweepers_foreign w token -> writers_excluded w token -> others_keep_registry w -> bulk_returns w ->
  all = pre ++ batches -> registry_but [] (dl_bucket s) -> failedKeys (dl_log s) = [] ->
  incl (flat_map be_removed (dl_log s)) (map po_key (concat pre)) ->
  incl (map po_key (concat pre)) (flat_map be_removed (dl_log s)) ->
  (holdsGate token (dl_admission s) = true -> dl_bucket s = bucket_delete (flat_map be_removed (dl_log s)) b) ->
  let d := deleteBatches w token leaseMs plan selected n batches s in
  registry_but (failedKeys (dl_log d)) (dl_bucket d).
Proof.
  intros Hf Hx Hkeep Hbulk. revert pre n s. induction batches as [|batch rest IH]; intros pre n s Hall Hr Hfail Hi Hp Hh.
  { cbn [deleteBatches]. by rewrite Hfail. }
  assert (Hsame : forall x y, rtc (other_step w token) x y -> holdsGate token y.1 = true ->
    holdsGate token x.1 = true /\ y.2.2 = x.2.2).
  { induction 1 as [|x y z [(k & E) Hg] _ IH']; [done|]. intros Hz. destruct (IH' Hz) as [Hy Eb].
    split; [by apply Hg|]. rewrite Eb, E. by apply Hx. }
  destruct (turn_cases w token leaseMs plan selected n batch rest s Hf)
    as [(a & r & error & Hsteps & ->)|(a2 & r2 & a3 & r3 & thrown & e & Hsteps & Ha2 & Eb & Hlast & ->)].
  { cbn [dl_log dl_bucket blockRest]. rewrite Hfail. apply other_steps_refs in Hsteps. exact (registry_steps _ _ _ _ Hkeep Hsteps Hr). }
  destruct (Hsame _ _ Hsteps Ha2) as [Hheld Er2]. cbn [fst snd] in Hheld, Er2. rewrite (Hh Hheld) in Er2.
  destruct (bulkDelete_spec _ _ _ _ _ _ Eb) as (_ & Ebk & Eks & Hrem & Eth & Hdone).
  set (gone := flat_map be_removed (dl_log s ++ [e])).
  assert (Egone : gone = flat_map be_removed (dl_log s) ++ be_removed e).
  { unfold gone. rewrite flat_map_app. cbn [flat_map]. by rewrite app_nil_r. }
  assert (Ee : snd (afterDelete e) = bucket_delete gone b).
  { cbn. by rewrite Egone, bucket_delete_app, <- Er2, Ebk. }
  assert (Hpart' : registry_but (map po_key batch) (bucket_delete gone b)).
  { apply (Hpart pre batch rest); [done|..]; rewrite Egone.
    - rewrite concat_app, map_app. cbn [concat]. rewrite app_nil_r. by apply incl_app_app.
    - by apply incl_appl. }
  assert (Hlog : failedKeys (dl_log s ++ [e]) = if bool_decide (is_Some thrown) then map po_key batch else []).
  { unfold failedKeys in *. rewrite flat_map_app, Hfail. cbn [flat_map app]. rewrite Eth, Eks.
    by destruct (bool_decide _); rewrite ?app_nil_r. }
  assert (Hafter : forall excused, registry_but excused (bucket_delete gone b) -> registry_but excused r3.2).
  { intros excused. rewrite <- Ee. exact (registry_steps _ _ _ _ Hkeep (other_steps_refs _ _ _ _ (rtc_once _ _ Hlast))). }
  destruct thrown as [message|].
  { cbn [dl_log dl_bucket recordProgress failDeletes]. rewrite Hlog. by apply Hafter. }
  assert (Hwhole : incl (map po_key batch) (be_removed e)).
  { destruct (wd_bulk w n (map po_key batch)) as [t removed] eqn:Ew.
    assert (t = None) as -> by (unfold bulkDelete in Eb; rewrite Ew in Eb; by injection Eb as ->).
    by apply (Hdone removed eq_refl), (Hbulk n). }
  apply (IH (pre ++ [batch])); cbn [dl_log dl_bucket dl_admission recordProgress claimBatch].
  - by rewrite <- app_assoc.
  - apply Hafter, (excused_gone (map po_key batch)); [done|]. rewrite Egone. by apply incl_appr.
  - by rewrite Hlog.
  - fold gone. rewrite Egone, concat_app, map_app. cbn [concat]. rewrite app_nil_r. by apply incl_app_app.
  - fold gone. rewrite Egone, concat_app, map_app. cbn [concat]. rewrite app_nil_r. by apply incl_app_app.
  - intros Ha3. fold gone. rewrite <- Ee. apply (Hsame _ _ (rtc_once _ _ Hlast)). exact Ha3.
Qed.

(** C10. A sweep leaves the registry as uploads do, however early it stops, whatever a
    bulk delete that fails has removed, and whoever takes its gate meanwhile: every
    manifest in the bucket is valid and has every chunk it lists, whether or not a
    reference retains it, unless it was named in a delete call that threw. Its listing
    names the objects its plan finds; a delete call that returns has removed its keys;
    others write only while they have the gate, and keep the registry as they find it. *)
Theorem sweep_keeps_registry_complete o w token runId delete nowMs s s' r
  (Hrun : runCleanup o w token runId delete nowMs s = (s', r))
  (Hforeign : sweepers_foreign w token) (Hexcluded : writers_excluded w token)
  (Hothers : others_keep_registry w) (Hbulk : bulk_returns w)
  (Hok : registry_ok (sw_bucket s)) (Hnew : sw_log s = [])
  (Hlist : forall key object, bucket_head key (snd (plannedRefs o w token runId s)) = Some object ->
     In (key, ro_size object) (listedObjects (wd_pages w))) :
  registry_but (failedKeys (sw_log s')) (sw_bucket s').
Proof.
  apply registry_but_none in Hok.
  assert (Hplan : registry_but [] (snd (plannedRefs o w token runId s))) by (cbn; by do 4 apply Hothers).
  unfold plannedRefs in *. destruct (run_cases _ _ _ _ _ _ _ _ _ Hrun) as [(-> & Hsteps & _)|Hcases].
  { rewrite Hnew. exact (registry_steps _ _ _ _ Hothers Hsteps Hok). }
  destruct (plannedState o w token runId s) as [a [t b]]. cbn [snd] in *.
  destruct Hcases as (built & Hp & Hf & [(-> & -> & _)|(-> & -> & _)]); [by rewrite Hnew|]. rewrite Hnew. cbn [app].
  destruct (buildPlan_clean _ _ _ _ _ _ _ _ Hp Hf) as (scan & p & Hclean).
  apply (deleteBatches_registry w token _ _ _ b (ds_batches (selectionOf o (bu_plan built)))) with (pre := []); try done; try apply incl_refl.
  - intros pre batch rest gone. apply (partial_sweep o t b (wd_pages w) nowMs built scan p); [done| |done].
    by apply registry_but_none.
  - cbn. intros _. by rewrite bucket_delete_nil.
Qed.

(** * A refused run *)

(** A gate that is swept refuses every other sweep. *)
Lemma acquire_swept owner leaseMs token runId now now' later a g t :
  ad_gate a = Some g -> g_state g = gate_sweeping -> g_sweepToken g = Some t -> t <> token -> later a = a ->
  acquireRegistrySweep owner leaseMs token runId now now' later a = (a, Ok (Err sw_sweep_active)).
Proof.
  intros Hg Hs Ht Hne Hl. unfold acquireRegistrySweep. cbv zeta.
  assert (ensureRegistryAdmissionRow a = a) as -> by (unfold ensureRegistryAdmissionRow; by rewrite Hg).
  rewrite Hg, Hs. rewrite (bool_decide_eq_false_2 (gate_sweeping = gate_open)) by done.
  rewrite andb_false_r. cbn [andb]. rewrite Hg, Hs, Ht.
  rewrite (bool_decide_eq_false_2 (Some t = Some token)) by congruence. rewrite andb_false_r, Hl.
  unfold readRegistryAdmissionState. rewrite Hg, Hs, Ht. done.
Qed.

(** On a registry where enforcement is off, a delete run asks to be resumed but
    never ends the sweep it took: the gate stays taken, so the next run is told the
    registry is busy although no upload and no writer is open. *)
Theorem refused_sweep_holds_the_gate o w token runId nowMs s
  (Hs : sw_admission s = emptyAdmission) (Hw : forall n a, wd_others w n a = a) :
  let '(s1, r1) := runCleanup o w token runId true nowMs s in
  r1 = Some (blockedResult "registry admission enforcement is report_only" 1) /\
  rr_resumeRequired (blockedResult "registry admission enforcement is report_only" 1) = true /\
  sweeping (sw_admission s1) /\ ad_sessions (sw_admission s1) = [] /\ ad_writers (sw_admission s1) = [] /\
  forall o2 w2 token2 runId2 now2, token2 <> token -> (forall n a, wd_others w2 n a = a) ->
    (forall n a refs, wd_refs w2 n a refs = refs) ->
    runCleanup o2 w2 token2 runId2 true now2 s1 = (s1, Some (blockedResult "registry admission is busy" 0)).
Proof.
  unfold runCleanup at 1. cbn [negb]. rewrite Hs, ?Hw. unfold acquireRegistrySweep, emptyAdmission. cbn.
  rewrite (bool_decide_eq_true_2 (gate_open = gate_open)) by done. cbn.
  rewrite (bool_decide_eq_true_2 (gate_sweeping = gate_sweeping)) by done. cbn.
  rewrite (bool_decide_eq_true_2 (Some token = Some token)) by done. cbn. rewrite ?Hw. cbn.
  split_and!; [done|done|by eexists|done|done|].
  intros o2 w2 token2 runId2 now2 Hne Hw2 Hr2. unfold runCleanup. cbn [negb sw_admission sw_tables sw_bucket].
  rewrite ?Hw2. erewrite acquire_swept; [by rewrite !Hr2|done|done|done|congruence|apply Hw2].
Qed.
End sweep_safety.

(** * Witnesses *)

Section witnesses.
#[local] Existing Instance w_sha256.
#[local] Existing Instance w_json.

Definition w_junk : string := "00000000000000000000000000000000000000000000000000000000000000ff".
Definition w_bucket : Bucket :=
  uploadAll (w_uploads ++ [up_chunk (mkChunkUpload "PUT" (Some w_junk) (Some w_raw) (Some "5") (Some "1") [1]) None w_junk]) [].
Definition w_key : ImageKey := mkImageKey "s" "vm" arch_x86_64.
Definition w_tables : Tables :=
  mkTables
    [mkLive "s" None "vm" (Some (encodeImageKey w_key)) (Some (cm_image_id w_manifest)) "raw_chunks_v1" (Some w_sha) "" ""]
    [] [] [] [] [] (mkDesiredDb [] []) [].
Definition w_admission : Admission :=
  mkAdmission (Some (mkGate enforce 0 gate_open None None None None None None None)) [] [] [].
Definition w_page (b : Bucket) : ListPage := mkPage (map (fun e => (fst e, ro_size (snd e))) b) false None.
Definition w_world : World :=
  mkWorld (fun n => 1000 + Z.of_nat n) (fun _ a => a)
    (fun n a r => if (n =? 0)%nat || holdsGate "t" a then r else (fst r, [])) 5000 (fun a => a) [w_page w_bucket]
    [w_page (bucket_delete [imageChunkObjectKey w_junk] w_bucket)] true (fun _ keys => (None, keys))
    (fun _ _ _ d => d) (fun _ _ d => d) false "".
Definition w_options : CleanupOptions := mkOptions None None None None None.
Definition w_state : SweepState := mkSweepState w_tables w_admission w_bucket [].
#[local] Abbreviation w_run := (runCleanup w_options w_world "t" "r" true 1000 w_state).
Lemma w_run_eq : runCleanup w_options w_world "t" "r" true 1000 w_state = (fst w_run, snd w_run).
Proof. exact (surjective_pairing w_run). Qed.

Lemma delete_selection_bounded_witness :
  let sel := planCleanupDeleteSelection [mkPlanObject "b" 1 k_chunk None; mkPlanObject "a" 1 k_manifest None;
    mkPlanObject "c" 1 k_chunk None] 2 2 false false in
  (ds_selectedKeyCount sel <= 2)%nat /\ map po_key (concat (ds_batches sel)) = ["a"; "b"].
Proof.
  cbv zeta. destruct (delete_selection_bounded [mkPlanObject "b" 1 k_chunk None; mkPlanObject "a" 1 k_manifest None;
    mkPlanObject "c" 1 k_chunk None] 2 2 false false ltac:(lia)) as (_ & Hn & _). split; [exact Hn|reflexivity].
Defined.

Lemma w_needed : neededKey (sw_tables w_state) (sw_bucket w_state) (imageManifestObjectKey w_sha).
Proof.
  eapply (needed_manifest _ _ _ (cm_image_id w_manifest)
    (liveClosure (mkLive "s" None "vm" (Some (encodeImageKey w_key)) (Some (cm_image_id w_manifest)) "raw_chunks_v1"
       (Some w_sha) "" ""))).
  - apply (needs_live _ _ arch_x86_64); [by left|by vm_compute|done].
  - vm_compute. by left.
Qed.

Lemma w_foreign : sweepers_foreign w_world "t".
Proof. intros n a. by exists []. Qed.
Lemma w_excluded : writers_excluded w_world "t".
Proof. intros n a r Ha. cbn [wd_refs w_world]. rewrite Ha, orb_true_r. by split. Qed.
Lemma w_plannedRefs : plannedRefs w_options w_world "t" "r" w_state = (w_tables, w_bucket).
Proof. by vm_compute. Qed.

(** The chunk no image names goes, the manifest stays. *)
Lemma sweep_keeps_needed_objects_witness :
  exists e, sw_log (fst w_run) = [e] /\ be_removed e = [imageChunkObjectKey w_junk] /\
    ~ In (imageManifestObjectKey w_sha) (be_removed e).
Proof.
  destruct (sw_log (fst w_run)) as [|e [|? ?]] eqn:E; [vm_compute in E; discriminate E| |vm_compute in E; discriminate E].
  exists e. split; [reflexivity|].
  assert (Er : map be_removed (sw_log (fst w_run)) = [[imageChunkObjectKey w_junk]]) by (by vm_compute).
  rewrite E in Er. injection Er as Er. split; [exact Er|]. intros Hin.
  pose proof (sweep_keeps_needed_objects w_options w_world "t" "r" true 1000 w_state _ _ [] e [] w_run_eq
    w_foreign w_excluded E) as Hsafe.
  rewrite w_plannedRefs in Hsafe. destruct Hsafe as (_ & _ & Hsafe). exact (Hsafe _ Hin w_needed).
Defined.

Lemma unproven_reference_stops_sweep_witness :
  let w := mkWorld (wd_clock w_world) (wd_others w_world) (wd_refs w_world) 5000 (wd_lastOthers w_world) (wd_pages w_world)
    (wd_postPages w_world) false (wd_bulk w_world) (wd_loadRace w_world) (wd_race w_world) false "" in
  sw_log (fst (runCleanup w_options w "t" "r" true 1000 w_state)) = [].
Proof.
  intros w. apply (unproven_reference_stops_sweep w_options w "t" "r" true 1000 w_state _ _ (surjective_pairing _)).
  by apply unproven_marker.
Defined.

Lemma completed_sweep_leaves_nothing_witness :
  exists scan post, scanBucket (wd_pages w_world) = Some scan /\ scanBucket (wd_postPages w_world) = Some post /\
    forall key, is_Some (Map_get key (bs_objects scan)) -> is_Some (Map_get key (bs_objects post)) ->
      exists keys, In key (withSidecars keys).
Proof.
  destruct (snd w_run) as [res|] eqn:E; [|vm_compute in E; discriminate E].
  assert (Hc : rr_completed res = true) by (vm_compute in E; injection E as <-; reflexivity).
  destruct (completed_sweep_leaves_nothing w_options w_world "t" "r" 1000 w_state (fst w_run) res) as (scan & p & post & H1 & H2 & _ & H3);
    [rewrite <- E; exact w_run_eq|exact Hc|].
  exists scan, post. split; [exact H1|]. split; [exact H2|]. intros key Ha Hb. eexists. exact (H3 key Ha Hb).
Defined.

(** A bulk delete that throws half way: its chunk may be gone, the rest is complete. *)
Definition w_broken : World :=
  mkWorld (wd_clock w_world) (wd_others w_world) (wd_refs w_world) 5000 (wd_lastOthers w_world) (wd_pages w_world)
    (wd_postPages w_world) true (fun _ keys => (Some "network", keys)) (wd_loadRace w_world) (wd_race w_world) false "".

Lemma w_broken_foreign : sweepers_foreign w_broken "t".
Proof. intros n a. by exists []. Qed.
Lemma w_broken_excluded : writers_excluded w_broken "t".
Proof. exact w_excluded. Qed.
Lemma w_broken_keeps : others_keep_registry w_broken.
Proof. intros excused n a r Hr. cbn [wd_refs w_broken w_world]. destruct (_ || _); [done|]. by constructor. Qed.
Lemma w_broken_returns : bulk_returns w_broken.
Proof. by intros n keys removed. Qed.
Lemma w_uploaded_ok : registry_ok w_bucket.
Proof. apply uploadAll_ok, registry_empty. Qed.
Lemma w_broken_listed key object :
  bucket_head key (snd (plannedRefs w_options w_broken "t" "r" w_state)) = Some object ->
  In (key, ro_size object) (listedObjects (wd_pages w_broken)).
Proof.
  assert (plannedRefs w_options w_broken "t" "r" w_state = (w_tables, w_bucket)) as -> by (by vm_compute).
  cbn [snd wd_pages w_broken w_world listedObjects w_page lp_objects lp_truncated negb orb]. rewrite app_nil_r.
  intros Hk. apply (in_map (fun e => (fst e, ro_size (snd e)))) with (x := (key, object)). revert Hk.
  generalize w_bucket. intros b. unfold bucket_head, Map_get.
  induction b as [|[k o] b IH]; [done|]. cbn. destruct (String.eqb_spec key k) as [->|]; [intros [= ->]; by left|].
  intros Hk. right. by apply IH.
Qed.

Lemma sweep_keeps_registry_complete_witness :
  let s' := fst (runCleanup w_options w_broken "t" "r" true 1000 w_state) in
  failedKeys (sw_log s') = [imageChunkObjectKey w_junk] /\ registry_but [imageChunkObjectKey w_junk] (sw_bucket s').
Proof.
  intros s'. assert (Ef : failedKeys (sw_log s') = [imageChunkObjectKey w_junk]) by (by vm_compute).
  split; [exact Ef|]. rewrite <- Ef.
  exact (sweep_keeps_registry_complete w_options w_broken "t" "r" true 1000 w_state _ _ (surjective_pairing _)
    w_broken_foreign w_broken_excluded w_broken_keeps w_broken_returns w_uploaded_ok eq_refl w_broken_listed).
Defined.

Lemma refused_sweep_holds_the_gate_witness :
  sweeping (sw_admission (fst (runCleanup w_options w_world "t" "r" true 1000 (mkSweepState w_tables emptyAdmission w_bucket [])))).
Proof.
  pose proof (refused_sweep_holds_the_gate w_options w_world "t" "r" 1000 (mkSweepState w_tables emptyAdmission w_bucket [])
    eq_refl (fun _ _ => eq_refl)) as H.
  destruct (runCleanup w_options w_world "t" "r" true 1000 (mkSweepState w_tables emptyAdmission w_bucket [])) as [s1 r1].
  exact (proj1 (proj2 (proj2 H))).
Defined.
End witnesses.
