(* ===== verification/Access.v ===== *)
(** Who may use a run's content and which hosts may serve it: the conditions of
    lib/scenario-runs/content-access.ts, lib/metal-placement.ts and
    control-plane/image-registry/image-access.ts that statements of other
    components embed.

    The tables here extend those of [Store]; where a table is in both, the columns
    here are the ones only these conditions read, under the same key. *)
From stdpp Require Import base list strings.
From Stdlib Require Import ZArith Lia Ascii String.
From S2P Require Import Prelude Json RunState Store RunProjection.

Open Scope string_scope.
Open Scope list_scope.
Open Scope Z_scope.

(** * Tables *)

(** [CourseCatalogSnapshotV2]: what the conditions read of it. *)
Record CourseCatalogLecture : Type := mkLecture {
  lec_lectureId : string;
  lec_scenarioId : option string;
}.
Record CourseCatalogCourse : Type := mkCourse {
  crs_courseId : string;
  crs_sequential : bool;
  crs_lectures : list CourseCatalogLecture;
}.
Record CourseCatalogRow : Type := mkCatalog {
  cat_scopeKey : string;
  cat_organizationId : option string;
  cat_version : Z;
  cat_courses : list CourseCatalogCourse;
}.
Record CompletionRow : Type := mkCompletion {
  cu_userId : string;
  cu_scopeKey : string;
  cu_courseId : string;
  cu_lectureId : string;
  cu_sourceRunId : option string;
  cu_completedAt : Z;
}.
Record ScenarioRow : Type := mkScenario {
  vs_scenarioId : string;
  vs_organizationId : option string;
  vs_enabled : bool;
  vs_enabledAt : option Z;
}.
Inductive UserPlacement : Type := up_personal | up_platform.
Inductive OrganizationPlacement : Type := op_platform | op_organization.
#[export] Instance UserPlacement_eq_dec : EqDecision UserPlacement.
Proof. solve_decision. Defined.
#[export] Instance OrganizationPlacement_eq_dec : EqDecision OrganizationPlacement.
Proof. solve_decision. Defined.
Record OrganizationRow : Type := mkOrganization {
  og_id : string;
  og_metalPlacement : OrganizationPlacement;
}.
(** More columns of [user], by id. *)
Record UserSettings : Type := mkUserSettings {
  ux_id : string;
  ux_role : option string;
  ux_metalPlacement : UserPlacement;
}.
(** More columns of [scenario_runs], by run id; the two flags are those of
    [request_scope_json], absent as [false]. *)
Record RunCourse : Type := mkRunCourse {
  rk_runId : string;
  rk_scenarioId : string;
  rk_courseScopeKey : option string;
  rk_courseId : option string;
  rk_lectureId : option string;
  rk_allowSequenceBypass : bool;
  rk_allowDrainedAdminProof : bool;
}.
(** [agent_bootstrap_tokens]. *)
Record CredentialRow : Type := mkCredential {
  cr_hostId : string;
  cr_credentialGeneration : Z;
  cr_expiresAt : option Z;
  cr_revokedAt : option Z;
}.
Record AccessTables : Type := mkAccess {
  at_catalogs : list CourseCatalogRow;
  at_completions : list CompletionRow;
  at_scenarios : list ScenarioRow;
  at_organizations : list OrganizationRow;
  at_users : list UserSettings;
  at_runs : list RunCourse;
  at_credentials : list CredentialRow;
}.

(** [a = b] in a condition: not true when either is NULL. *)
Definition sql_eq (a b : option string) : bool :=
  match a, b with Some x, Some y => x =s y | _, _ => false end.
Definition isNull {A} (a : option A) : bool := match a with None => true | Some _ => false end.

(** [instr(text, part) > 0]. *)
Fixpoint instr (text part : string) : bool :=
  str_prefix part text || match text with EmptyString => false | String _ rest => instr rest part end.
(** [replace(text, ' ', '')]. *)
Fixpoint without_spaces (text : string) : string :=
  match text with
  | EmptyString => ""
  | String c rest => if Ascii.eqb c " "%char then without_spaces rest else String c (without_spaces rest)
  end.

(** * Content access *)

(** The columns [contentAccessCondition] is built from. *)
Record AccessFields : Type := mkFields {
  af_userId : string;
  af_organizationId : option string;
  af_scenarioId : string;
  af_courseScopeKey : option string;
  af_courseId : option string;
  af_lectureId : option string;
  af_allowSequenceBypass : bool;
  af_requiresAdmin : bool;
}.

Section access.
Variable db : Db.
Variable t : AccessTables.

Definition isAdministrator (userId : string) : bool :=
  activeAccount db userId
  && existsb (fun u => (ux_id u =s userId)
       && instr ("," +:+ without_spaces (toLowerCase (nullish (ux_role u) "")) +:+ ",") ",admin,") (at_users t).
Definition isMember (organizationId : option string) (userId : string) : bool :=
  existsb (fun m => (mb_userId m =s userId) && sql_eq (Some (mb_organizationId m)) organizationId) (db_members db).

(** An organization's catalog that links a scenario hides it in the public one. *)
Definition shadowed (organizationId : option string) (scenarioId : option string) : bool :=
  existsb (fun c => sql_eq (cat_organizationId c) organizationId
    && existsb (fun course => existsb (fun l => sql_eq (lec_scenarioId l) scenarioId) (crs_lectures course))
         (cat_courses c)) (at_catalogs t).

Definition completedUnit (userId scopeKey : string) (courseId lectureId : option string) : bool :=
  existsb (fun u => (cu_userId u =s userId) && (cu_scopeKey u =s scopeKey)
    && sql_eq (Some (cu_courseId u)) courseId && sql_eq (Some (cu_lectureId u)) lectureId) (at_completions t).

(** The lectures before one are done, or hidden by the organization. *)
Definition priorLecturesDone (f : AccessFields) (catalog : CourseCatalogRow) (prior : list CourseCatalogLecture) : bool :=
  forallb (fun l => isNull (cat_organizationId catalog) && shadowed (af_organizationId f) (lec_scenarioId l)
    || completedUnit (af_userId f) (cat_scopeKey catalog) (af_courseId f) (Some (lec_lectureId l))) prior.

Definition lectureOpen (f : AccessFields) (catalog : CourseCatalogRow) (course : CourseCatalogCourse)
    (il : nat * CourseCatalogLecture) : bool :=
  let l := snd il in
  sql_eq (Some (lec_lectureId l)) (af_lectureId f) && sql_eq (lec_scenarioId l) (Some (af_scenarioId f))
  && (negb (isNull (cat_organizationId catalog)) || negb (shadowed (af_organizationId f) (Some (af_scenarioId f))))
  && (af_allowSequenceBypass f || negb (crs_sequential course)
      || completedUnit (af_userId f) (cat_scopeKey catalog) (af_courseId f) (af_lectureId f)
      || priorLecturesDone f catalog (take (fst il) (crs_lectures course))).

Definition contentAccessCondition (f : AccessFields) : bool :=
  (negb (af_requiresAdmin f) || isAdministrator (af_userId f))
  && (isNull (af_organizationId f) || isMember (af_organizationId f) (af_userId f))
  && existsb (fun s => (vs_scenarioId s =s af_scenarioId f) && vs_enabled s && negb (isNull (vs_enabledAt s))
       && (isNull (vs_organizationId s) || sql_eq (vs_organizationId s) (af_organizationId f))) (at_scenarios t)
  && existsb (fun c => sql_eq (Some (cat_scopeKey c)) (af_courseScopeKey f)
       && (isNull (cat_organizationId c) || sql_eq (cat_organizationId c) (af_organizationId f))
       && (cat_version c =? 2)
       && existsb (fun course => sql_eq (Some (crs_courseId course)) (af_courseId f)
            && existsb (lectureOpen f c course) (imap pair (crs_lectures course))) (cat_courses c)) (at_catalogs t).

Definition currentRunFields (run : RunRow) (k : RunCourse) : AccessFields :=
  mkFields (sr_userId run) (sr_organizationId run) (rk_scenarioId k) (rk_courseScopeKey k) (rk_courseId k)
    (rk_lectureId k) (rk_allowSequenceBypass k) (rk_allowSequenceBypass k || rk_allowDrainedAdminProof k).
Definition currentScenarioRunContentAccessCondition (run : RunRow) : bool :=
  existsb (fun k => (rk_runId k =s sr_runId run) && contentAccessCondition (currentRunFields run k)) (at_runs t).

(** * Hosts *)

Definition metalPlacementForUser (userId : string) (organizationId : option string) (host : HostRow) : bool :=
  activeAccount db userId
  && (isNull organizationId || isMember organizationId userId)
  && existsb (fun u => (ux_id u =s userId)
       && match ux_metalPlacement u with
          | up_personal => bool_decide (ah_scope host = scope_personal) && sql_eq (ah_userId host) (Some userId)
          | up_platform =>
              isNull organizationId && bool_decide (ah_scope host = scope_platform)
              || existsb (fun o => sql_eq (Some (og_id o)) organizationId
                   && match og_metalPlacement o with
                      | op_platform => bool_decide (ah_scope host = scope_platform)
                      | op_organization => bool_decide (ah_scope host = scope_organization)
                                           && sql_eq (ah_organizationId host) organizationId
                      end) (at_organizations t)
          end) (at_users t).

Definition capacityHostAccessForUser (userId : string) (organizationId : option string) (host : HostRow) : bool :=
  activeAccount db userId
  && (isNull organizationId || isMember organizationId userId)
  && match ah_scope host with
     | scope_platform => true
     | scope_personal => sql_eq (ah_userId host) (Some userId)
     | scope_organization => isMember (ah_organizationId host) userId
     end.

Definition currentRunHostScopeCondition (host : HostRow) (run : RunRow) (execution : ExecutionRow) : bool :=
  match ah_scope host with
  | scope_platform => true
  | scope_personal => sql_eq (ah_userId host) (Some (re_userId execution))
  | scope_organization => sql_eq (ah_organizationId host) (sr_organizationId run)
      && activeAccount db (sr_userId run) && currentScenarioRunContentAccessCondition run
  end.

(** * Agents *)

(** [VerifiedAgentHost], the identity of a verified token. *)
Record VerifiedAgentHost : Type := mkAgent {
  vg_scope : HostScope;
  vg_organizationId : option string;
  vg_credentialGeneration : Z;
  vg_hostId : string;
  vg_userId : string;
  vg_role : string;
}.

Definition currentAgentHost (agent : VerifiedAgentHost) : bool :=
  safe_integer (vg_credentialGeneration agent) && (1 <=? vg_credentialGeneration agent)
  && existsb (fun h =>
       (ah_id h =s vg_hostId agent) && sql_eq (ah_userId h) (Some (vg_userId agent))
       && bool_decide (ah_scope h = vg_scope agent) && (ah_role h =s vg_role agent)
       && (ah_credentialGeneration h =? vg_credentialGeneration agent) && negb (ah_disabled h)
       && match vg_scope agent with
          | scope_platform => true
          | scope_organization => sql_eq (ah_organizationId h) (vg_organizationId agent) && (ah_role h =s "agent")
              && existsb (fun o => sql_eq (Some (og_id o)) (ah_organizationId h)) (at_organizations t)
          | scope_personal => match ah_userId h with Some u => activeAccount db u | None => false end
          end) (db_hosts db).

Definition currentCredential (agent : VerifiedAgentHost) (now : Z) : bool :=
  existsb (fun c => (cr_hostId c =s vg_hostId agent) && (cr_credentialGeneration c =? vg_credentialGeneration agent)
    && isNull (cr_revokedAt c) && match cr_expiresAt c with None => true | Some e => now <? e end) (at_credentials t).
End access.

(** * Theorems *)

Lemma existsb_In {A} (p : A -> bool) l : existsb p l = true <-> exists x, In x l /\ p x = true.
Proof. apply existsb_exists. Qed.

Lemma sql_eq_true a b : sql_eq a b = true <-> exists x, a = Some x /\ b = Some x.
Proof.
  destruct a as [x|], b as [y|]; cbn; try (split; [done|by intros (? & ? & ?)]).
  destruct (String.eqb_spec x y) as [->|]; [naive_solver|]. split; [done|]. by intros (? & [= <-] & [= ->]).
Qed.

(** A host that placement admits for a run may go on serving it, as long as its
    content stays open to it. *)
Theorem placed_host_may_serve db t host run execution
  (Hp : metalPlacementForUser db t (sr_userId run) (sr_organizationId run) host = true)
  (Hu : re_userId execution = sr_userId run)
  (Hc : currentScenarioRunContentAccessCondition db t run = true) :
  currentRunHostScopeCondition db t host run execution = true.
Proof.
  unfold metalPlacementForUser in Hp. apply andb_prop in Hp as [Hp Hx]. apply andb_prop in Hp as [Ha _].
  unfold currentRunHostScopeCondition. rewrite Hu, Hc, Ha. apply existsb_In in Hx as (u & _ & Hx).
  apply andb_prop in Hx as [_ Hx]. destruct (ux_metalPlacement u).
  - apply andb_prop in Hx as [Hs Ho]. apply bool_decide_eq_true in Hs. by rewrite Hs.
  - apply orb_prop in Hx as [Hx|Hx].
    + apply andb_prop in Hx as [_ Hs]. apply bool_decide_eq_true in Hs. by rewrite Hs.
    + apply existsb_In in Hx as (o & _ & Hx). apply andb_prop in Hx as [_ Hx]. destruct (og_metalPlacement o).
      * apply bool_decide_eq_true in Hx. by rewrite Hx.
      * apply andb_prop in Hx as [Hs Ho]. apply bool_decide_eq_true in Hs. by rewrite Hs, Ho.
Qed.

(** A host that placement admits is one whose capacity its user is shown. *)
Theorem placed_host_is_counted db t userId organizationId host
  (Hp : metalPlacementForUser db t userId organizationId host = true) :
  capacityHostAccessForUser db userId organizationId host = true.
Proof.
  unfold metalPlacementForUser in Hp. apply andb_prop in Hp as [Hp Hx]. apply andb_prop in Hp as [Ha Hm].
  unfold capacityHostAccessForUser. rewrite Ha, Hm. cbn. apply existsb_In in Hx as (u & _ & Hx).
  apply andb_prop in Hx as [_ Hx]. destruct (ux_metalPlacement u).
  - apply andb_prop in Hx as [Hs Ho]. apply bool_decide_eq_true in Hs. by rewrite Hs.
  - apply orb_prop in Hx as [Hx|Hx].
    + apply andb_prop in Hx as [_ Hs]. apply bool_decide_eq_true in Hs. by rewrite Hs.
    + apply existsb_In in Hx as (o & _ & Hx). apply andb_prop in Hx as [_ Hx]. destruct (og_metalPlacement o).
      * apply bool_decide_eq_true in Hx. by rewrite Hx.
      * apply andb_prop in Hx as [Hs Ho]. apply bool_decide_eq_true in Hs. rewrite Hs.
        apply sql_eq_true in Ho as (x & -> & ->). exact Hm.
Qed.
