(* ===== verification/ArtifactStore.v ===== *)
(** The artifacts a host saves of a run: control-plane/agent-run-artifacts/storage.ts.

    Each artifact is a row of two ledgers, one by runtime execution and one by
    scenario run, with the state of its upload. Every write is one transaction
    that begins with a guard on the identity of the host, the execution, the VM
    and the VM's seal; writes derived from a run's document also compare it. *)
From stdpp Require Import base list strings pretty.
From Stdlib Require Import ZArith Lia Ascii.
From S2P Require Import Prelude Json Text RunState RunLifecycle RunView Store RuntimeExecutions RunProjection Tar Access Requests.

Open Scope string_scope.
Open Scope list_scope.
Open Scope Z_scope.
Open Scope req_scope.

(** * Tables *)

Inductive UploadStatus : Type := us_pending | us_uploaded.
#[export] Instance UploadStatus_eq_dec : EqDecision UploadStatus.
Proof. solve_decision. Defined.

Record ArtifactMetadata : Type := mkMetadata {
  am_kind : string;
  am_filename : string;
  am_contentType : string;
  am_sizeBytes : Z;
  am_sha256 : string;
}.
#[export] Instance ArtifactMetadata_eq_dec : EqDecision ArtifactMetadata.
Proof. solve_decision. Defined.

(** A row of [runtime_artifacts], of an execution and a runtime VM, or of
    [scenario_run_artifacts], of a run and a VM of it. *)
Record ArtifactRow : Type := mkArtifactRow {
  aw_id : string;
  aw_owner : string;
  aw_vm : string;
  aw_ordinal : Z;
  aw_metadata : ArtifactMetadata;
  aw_r2Key : string;
  aw_uploadStatus : UploadStatus;
  aw_createdAt : Z;
  aw_uploadedAt : option Z;
}.
(** A row of either upload table; [None] for parts that are not JSON. *)
Record UploadRow : Type := mkUpload {
  uw_artifactId : string;
  uw_r2UploadId : option string;
  uw_uploadedParts : option json;
  uw_nextExpectedPart : Z;
  uw_updatedAt : Z;
}.
Record TerminalSessionRow : Type := mkSession {
  tw_id : string;
  tw_executionId : string;
  tw_runtimeVmId : string;
  tw_ordinal : Z;
  tw_startedAt : Z;
  tw_endedAt : Z;
  tw_exitCode : option Z;
  tw_recordingArtifactId : option string;
  tw_createdAt : Z;
  tw_updatedAt : Z;
}.
Record TranscriptRow : Type := mkTranscript {
  sw_id : string;
  sw_runId : string;
  sw_vmId : string;
  sw_sessionIndex : Z;
  sw_transcript : string;
  sw_createdAt : Z;
}.
(** The columns of [runtime_vms] that archiving writes. *)
Record VmArchive : Type := mkVmArchive {
  va_artifactWritesSealed : bool;
  va_archiveStageRank : option Z;
}.

Record ArchiveDb : Type := mkArchiveDb {
  xd_store : Db;
  xd_access : AccessTables;
  xd_vms : list (string * VmArchive);
  xd_runtime : list ArtifactRow;
  xd_runtimeUploads : list UploadRow;
  xd_scenario : list ArtifactRow;
  xd_scenarioUploads : list UploadRow;
  xd_sessions : list TerminalSessionRow;
  xd_transcripts : list TranscriptRow;
}.
Definition set_store (x : ArchiveDb) (db : Db) : ArchiveDb :=
  mkArchiveDb db (xd_access x) (xd_vms x) (xd_runtime x) (xd_runtimeUploads x) (xd_scenario x)
    (xd_scenarioUploads x) (xd_sessions x) (xd_transcripts x).
Definition set_ledgers (x : ArchiveDb) runtime runtimeUploads scenario scenarioUploads : ArchiveDb :=
  mkArchiveDb (xd_store x) (xd_access x) (xd_vms x) runtime runtimeUploads scenario scenarioUploads
    (xd_sessions x) (xd_transcripts x).
Definition set_vm_archives (x : ArchiveDb) vms : ArchiveDb :=
  mkArchiveDb (xd_store x) (xd_access x) vms (xd_runtime x) (xd_runtimeUploads x) (xd_scenario x)
    (xd_scenarioUploads x) (xd_sessions x) (xd_transcripts x).
Definition set_timelines (x : ArchiveDb) sessions transcripts : ArchiveDb :=
  mkArchiveDb (xd_store x) (xd_access x) (xd_vms x) (xd_runtime x) (xd_runtimeUploads x) (xd_scenario x)
    (xd_scenarioUploads x) sessions transcripts.
Definition set_completions (x : ArchiveDb) completions : ArchiveDb :=
  let t := xd_access x in
  mkArchiveDb (xd_store x)
    (mkAccess (at_catalogs t) completions (at_scenarios t) (at_organizations t) (at_users t) (at_runs t)
       (at_credentials t))
    (xd_vms x) (xd_runtime x) (xd_runtimeUploads x) (xd_scenario x) (xd_scenarioUploads x) (xd_sessions x)
    (xd_transcripts x).

(** The archive columns of a VM; their defaults until something writes them. *)
Definition vmArchive (x : ArchiveDb) (runtimeVmId : string) : VmArchive :=
  nullish (Map_get runtimeVmId (xd_vms x)) (mkVmArchive false None).

(** * Statements *)

(** Why a transaction fails: an integer overflow, a JSON path that is none, a
    text that is no JSON, a violated check or unique index. *)
Inductive ArchiveFault : Type :=
| fault_overflow
| fault_bad_path
| fault_malformed
| fault_check
| fault_unique
| fault_store (c : Constraint).

Definition AStmt : Type := ArchiveDb -> result ArchiveFault ArchiveDb.
Fixpoint archive_batch (stmts : list AStmt) (x : ArchiveDb) : result ArchiveFault ArchiveDb :=
  match stmts with
  | [] => Ok x
  | s :: rest => x' <-? s x; archive_batch rest x'
  end.
Definition on_store (s : Stmt) : AStmt := fun x =>
  match s (xd_store x) with
  | Ok (db, _) => Ok (set_store x db)
  | Err c => Err (fault_store c)
  end.

(** * The identity of a write *)

(** [domainKind] has one value, "scenario". *)
Record ResolvedRunVm : Type := mkRunVm {
  rm_agent : VerifiedAgentHost;
  rm_generation : Z;
  rm_domainId : string;
  rm_runId : string;
  rm_hostId : string;
  rm_userId : string;
  rm_scenarioId : option string;
  rm_vmId : string;
  rm_runtimeVmId : option string;
  rm_runtimeVmName : string;
  rm_artifactWritesSealed : bool;
}.

(** A VM of the run's document that may still be written to. *)
Definition documentVm (allowSealed : bool) (v : RuntimeVmRow) (vm : RunVmStateDocument) : bool :=
  (vm_id vm =s rv_vmId v) && (vm_runtimeVmName vm =s rv_runtimeVmName v)
  && (allowSealed || negb (bool_decide (vm_phase vm = vm_completed))).

Definition writableVm (allowSealed : bool) (runVm : ResolvedRunVm) (x : ArchiveDb) (e : ExecutionRow) (v : RuntimeVmRow)
    (run : RunRow) : bool :=
  (rv_executionId v =s re_id e) && sql_eq (Some (rv_id v)) (rm_runtimeVmId runVm) && (rv_vmId v =s rm_vmId runVm)
  && (rv_runtimeVmName v =s rm_runtimeVmName runVm)
  && match sr_stateJson run with
     | Some d => existsb (documentVm allowSealed v) (run_vms d)
     | None => false
     end
  && (allowSealed || negb (va_artifactWritesSealed (vmArchive x (rv_id v)))).

Definition writableRun (runVm : ResolvedRunVm) (x : ArchiveDb) (e : ExecutionRow) (run : RunRow) : bool :=
  bool_decide (sr_runtimeExecutionId run = Some (re_id e)) && (sr_runId run =s re_domainId e)
  && (sr_userId run =s re_userId e) && sql_eq (Some (sr_hostId run)) (re_hostId e)
  && existsb (fun h => sql_eq (Some (ah_id h)) (re_hostId e)
       && currentRunHostScopeCondition (xd_store x) (xd_access x) h run e) (db_hosts (xd_store x)).

Definition writableExecution (runVm : ResolvedRunVm) (x : ArchiveDb) (e : ExecutionRow) : bool :=
  (re_id e =s rm_runId runVm) && bool_decide (re_hostId e = Some (vg_hostId (rm_agent runVm)))
  && (re_userId e =s rm_userId runVm) && (re_generation e =? rm_generation runVm)
  && (re_domainKind e =s "scenario") && (re_domainId e =s rm_domainId runVm)
  && activeAccount (xd_store x) (re_userId e) && newestGeneration (xd_store x) e.

Definition artifactWriteCondition (runVm : ResolvedRunVm) (allowSealed : bool) (now : Z) (x : ArchiveDb) : bool :=
  let db := xd_store x in
  currentAgentHost db (xd_access x) (rm_agent runVm)
  && (bool_decide (vg_scope (rm_agent runVm) = scope_organization) || activeAccount db (vg_userId (rm_agent runVm)))
  && currentCredential (xd_access x) (rm_agent runVm) now
  && existsb (fun e => writableExecution runVm x e
       && existsb (fun run => writableRun runVm x e run
            && existsb (fun v => writableVm allowSealed runVm x e v run) (db_vms db)) (db_runs db)) (db_executions db).

(** The document the condition reads is not JSON. *)
Definition documentMalformed (runVm : ResolvedRunVm) (x : ArchiveDb) : bool :=
  existsb (fun run => (sr_runId run =s rm_domainId runVm)
    && bool_decide (sr_runtimeExecutionId run = Some (rm_runId runVm)) && isNull (sr_stateJson run))
    (db_runs (xd_store x)).

Definition artifactWriteGuard (runVm : ResolvedRunVm) (allowSealed : bool) (now : Z) : AStmt := fun x =>
  if documentMalformed runVm x then Err fault_malformed
  else if artifactWriteCondition runVm allowSealed now x then Ok x else Err fault_overflow.

Definition artifactRunStateGuard (runId : string) (stateJson : option RunStateDocument) : AStmt := fun x =>
  if existsb (fun run => (sr_runId run =s runId) && bool_decide (sr_stateJson run = stateJson)) (db_runs (xd_store x))
  then Ok x else Err fault_bad_path.

(** What a request throws. *)
Inductive ArtifactError : Type :=
| ArtifactWriteFenced
| ArtifactStateConflict
| artifact_database (f : ArchiveFault)
| artifact_store (e : StoreError)
| artifact_invalid (message : string)
| artifact_platform (message : string).

Definition rethrowArtifactWriteError (f : ArchiveFault) : ArtifactError :=
  match f with
  | fault_bad_path => ArtifactStateConflict
  | fault_overflow => ArtifactWriteFenced
  | _ => artifact_database f
  end.

(** * Calls *)

Record UploadedPartRecord : Type := mkPart {
  pt_partNumber : num;
  pt_etag : string;
}.
(** An object of the bucket as [head] shows it. *)
Record StoredObject : Type := mkStoredObject {
  ob_key : string;
  ob_size : Z;
  ob_contentType : option string;
  ob_customMetadata : option (list (string * string));
}.
(** The clock, object storage and the share of a run; the calls to storage may
    throw. *)
Inductive ArtifactCall : Type -> Type :=
| Clock : ArtifactCall Z
| BucketPut (key contentType : string) (metadata : list (string * string)) : ArtifactCall (result string unit)
| BucketHead (key : string) : ArtifactCall (result string (option StoredObject))
| MultipartCreate (key contentType : string) (metadata : list (string * string)) : ArtifactCall (result string string)
| MultipartPart (key uploadId : string) (partNumber : Z) : ArtifactCall (result string string)
| MultipartComplete (key uploadId : string) (parts : list UploadedPartRecord) : ArtifactCall (result string unit)
| MultipartAbort (key uploadId : string) : ArtifactCall (result string unit)
| ShareVmArchived (runId vmId : string) : ArtifactCall unit
| ShareRecording (runId vmId : string) (sessions : list (Z * Z * string)) : ArtifactCall unit.

Definition ArchiveReq (A : Type) : Type := Req ArtifactCall ArchiveDb A.
Definition ArtifactReq (A : Type) : Type := ArchiveReq (result ArtifactError A).
Definition return_ {A} (a : A) : ArtifactReq A := Done (Ok a).
Definition throw {A} (e : ArtifactError) : ArtifactReq A := Done (Err e).
(** A call that may throw. *)
Definition outside {A} (c : ArtifactCall (result string A)) : ArtifactReq A :=
  r <-- call c; match r with Ok a => return_ a | Err message => throw (artifact_platform message) end.

(** One transaction; the database's clock is read when it runs. *)
Definition artifactWriteBatch (runVm : ResolvedRunVm) (statements : list AStmt) (allowSealed : bool) : ArtifactReq unit :=
  now <-- call Clock;
  transaction (fun x =>
    match archive_batch (artifactWriteGuard runVm allowSealed now :: statements) x with
    | Ok x' => (x', Ok ())
    | Err f => (x, Err (rethrowArtifactWriteError f))
    end).
Definition artifactMutations (runVm : ResolvedRunVm) (queries : list AStmt) (allowSealed : bool)
    (stateJson : option (option RunStateDocument)) : ArtifactReq unit :=
  artifactWriteBatch runVm
    (match stateJson with
     | None => []
     | Some s => [artifactRunStateGuard (rm_domainId runVm) s]
     end ++ queries) allowSealed.

(** Up to eight attempts. *)
Fixpoint retryFrom {A} (left : nat) (operation : ArtifactReq A) : ArtifactReq A :=
  r <-- operation;
  match r, left with
  | Err ArtifactStateConflict, S left' => retryFrom left' operation
  | _, _ => Done r
  end.
Definition retryArtifactState {A} (operation : ArtifactReq A) : ArtifactReq A := retryFrom 7 operation.

(** * Reading the ledgers *)

Inductive StorageKind : Type := sk_runtime | sk_scenario.
#[export] Instance StorageKind_eq_dec : EqDecision StorageKind.
Proof. solve_decision. Defined.
(** [SourceArtifactState]: a row and the ledger it was read from. *)
Record SourceArtifactState : Type := mkSource {
  src_storageKind : StorageKind;
  src_row : ArtifactRow;
}.
Definition src_ordinal (s : SourceArtifactState) : Z := aw_ordinal (src_row s).
Definition src_uploaded (s : SourceArtifactState) : bool := bool_decide (aw_uploadStatus (src_row s) = us_uploaded).

Definition inRuntimeLedger (runVm : ResolvedRunVm) (r : ArtifactRow) : bool :=
  (aw_owner r =s rm_runId runVm) && sql_eq (Some (aw_vm r)) (rm_runtimeVmId runVm).
Definition inScenarioLedger (runVm : ResolvedRunVm) (r : ArtifactRow) : bool :=
  (aw_owner r =s rm_domainId runVm) && (aw_vm r =s rm_vmId runVm).
Definition byOrdinal (l r : ArtifactRow) : bool := aw_ordinal l <=? aw_ordinal r.

Definition loadRuntimeArtifactStatesForRunVm (runVm : ResolvedRunVm) (x : ArchiveDb) : list SourceArtifactState :=
  if truthy_opt (rm_runtimeVmId runVm)
  then map (mkSource sk_runtime) (js_sort byOrdinal (List.filter (inRuntimeLedger runVm) (xd_runtime x)))
  else [].
Definition loadLegacyArtifactStatesForRunVm (runVm : ResolvedRunVm) (x : ArchiveDb) : list SourceArtifactState :=
  map (mkSource sk_scenario) (js_sort byOrdinal (List.filter (inScenarioLedger runVm) (xd_scenario x))).
(** Two queries: the older ledger only when the newer one is empty. *)
Definition loadArtifactStatesForRunVm (runVm : ResolvedRunVm) : ArchiveReq (list SourceArtifactState) :=
  runtimeRows <-- query (loadRuntimeArtifactStatesForRunVm runVm);
  match runtimeRows with
  | [] => query (loadLegacyArtifactStatesForRunVm runVm)
  | _ => Done runtimeRows
  end.

Definition loadArtifactForRunVm (runVm : ResolvedRunVm) (ordinal : Z) : ArchiveReq (option SourceArtifactState) :=
  let legacy := query (fun x => option_map (mkSource sk_scenario)
      (List.find (fun r => inScenarioLedger runVm r && (aw_ordinal r =? ordinal)) (xd_scenario x))) in
  if truthy_opt (rm_runtimeVmId runVm) then
    row <-- query (fun x => List.find (fun r => inRuntimeLedger runVm r && (aw_ordinal r =? ordinal)) (xd_runtime x));
    match row with
    | Some r => Done (Some (mkSource sk_runtime r))
    | None =>
        some <-- query (fun x => existsb (inRuntimeLedger runVm) (xd_runtime x));
        if some then Done None else legacy
    end
  else legacy.

(** * Manifests *)

Record ArtifactInput : Type := mkInput {
  an_ordinal : Z;
  an_metadata : ArtifactMetadata;
}.
Record ArtifactManifestEntry : Type := mkEntry {
  en_id : string;
  en_ordinal : Z;
  en_metadata : ArtifactMetadata;
  en_r2Key : string;
  en_createdAt : Z;
}.

Definition MAX_ARTIFACTS_PER_BEGIN : nat := 1024.
Definition MAX_ARTIFACT_VM_ID_BYTES : nat := 128.
Definition MAX_R2_OBJECT_KEY_BYTES : nat := 1024.
Definition MAX_D1_MANIFEST_BYTES : Z := 1900000.
Definition MAX_ARTIFACT_KIND_BYTES : nat := 64.
Definition MAX_ARTIFACT_FILENAME_BYTES : nat := 255.
Definition MAX_ARTIFACT_CONTENT_TYPE_BYTES : nat := 255.

Definition artifactIdFor (vmId : string) (ordinal : Z) : string := vmId +:+ ":" +:+ pretty ordinal.

(** [replace(/[^a-zA-Z0-9._-]+/g, "-").replace(/-+/g, "-")]. *)
Definition key_unit (c : ascii) : bool :=
  let n := N_of_ascii c in is_alnum n || (n =? 46)%N || (n =? 95)%N || (n =? 45)%N.
Fixpoint replace_runs (keep : ascii -> bool) (inRun : bool) (s : string) : string :=
  match s with
  | EmptyString => ""
  | String c rest =>
      if keep c then String c (replace_runs keep false rest)
      else if inRun then replace_runs keep true rest
      else String "-"%char (replace_runs keep true rest)
  end.
Definition sanitizeObjectKeySegment (value : string) : string :=
  replace_runs (fun c => negb (Ascii.eqb c "-"%char)) false (replace_runs key_unit false value).

Definition buildArtifactObjectKey (runId vmId : string) (ordinal : Z) (kind filename : string) : result ArtifactError string :=
  let key := sanitizeObjectKeySegment runId +:+ "/" +:+ sanitizeObjectKeySegment vmId +:+ "/"
             +:+ pretty ordinal +:+ "-" +:+ sanitizeObjectKeySegment kind +:+ "-" +:+ sanitizeObjectKeySegment filename in
  throw_if (MAX_R2_OBJECT_KEY_BYTES <? utf8_length key)%nat
    with artifact_invalid "artifact object key exceeds the R2 key byte limit";
  Ok key.
Definition assertArtifactIdentityWithinR2KeyBudget (runId vmId : string) : result ArtifactError unit :=
  throw_if ((MAX_ARTIFACT_VM_ID_BYTES <? utf8_length runId) || (MAX_ARTIFACT_VM_ID_BYTES <? utf8_length vmId))%nat
    with artifact_invalid "artifact identity exceeds the R2 key byte budget";
  Ok ().

Definition manifestEntry (runVm : ResolvedRunVm) (createdAt : Z) (a : ArtifactInput) : result ArtifactError ArtifactManifestEntry :=
  key <-? buildArtifactObjectKey (rm_runId runVm) (rm_vmId runVm) (an_ordinal a) (am_kind (an_metadata a))
            (am_filename (an_metadata a));
  Ok (mkEntry (artifactIdFor (rm_vmId runVm) (an_ordinal a)) (an_ordinal a) (an_metadata a) key createdAt).
Fixpoint manifestEntries (runVm : ResolvedRunVm) (createdAt : Z) (artifacts : list ArtifactInput)
  : result ArtifactError (list ArtifactManifestEntry) :=
  match artifacts with
  | [] => Ok []
  | a :: rest =>
      e <-? manifestEntry runVm createdAt a;
      es <-? manifestEntries runVm createdAt rest;
      Ok (e :: es)
  end.
(** A scenario run's artifacts are identified by its VM's id, which must not be
    empty. *)
Definition buildArtifactManifest (runVm : ResolvedRunVm) (artifacts : list ArtifactInput) (createdAt : Z)
  : result ArtifactError (list ArtifactManifestEntry) :=
  throw_if negb (truthy (rm_vmId runVm)) with artifact_invalid "runtime VM identity is missing";
  _ <-? assertArtifactIdentityWithinR2KeyBudget (rm_runId runVm) (rm_vmId runVm);
  manifestEntries runVm createdAt artifacts.

(** [JSON.stringify(manifest)]. *)
Definition entryJson (e : ArtifactManifestEntry) : string :=
  let m := en_metadata e in
  let field name value := quote_json name +:+ ":" +:+ value in
  "{" +:+ join "," [field "id" (quote_json (en_id e)); field "ordinal" (pretty (en_ordinal e));
    field "kind" (quote_json (am_kind m)); field "filename" (quote_json (am_filename m));
    field "contentType" (quote_json (am_contentType m)); field "sizeBytes" (pretty (am_sizeBytes m));
    field "sha256" (quote_json (am_sha256 m)); field "r2Key" (quote_json (en_r2Key e));
    field "createdAt" (pretty (en_createdAt e))] +:+ "}".
Definition manifestJson (manifest : list ArtifactManifestEntry) : string :=
  "[" +:+ join "," (map entryJson manifest) +:+ "]".

Definition artifactMetadataMatches (existing : SourceArtifactState) (m : ArtifactMetadata) : bool :=
  bool_decide (aw_metadata (src_row existing) = m).
Definition rowMatches (r : ArtifactRow) (e : ArtifactManifestEntry) : bool :=
  (aw_id r =s en_id e) && (aw_r2Key r =s en_r2Key e) && bool_decide (aw_metadata r = en_metadata e).
Definition artifactLedgerMatchesManifest (stored : SourceArtifactState) (expected : ArtifactManifestEntry) : bool :=
  rowMatches (src_row stored) expected.
Definition rowsAgree (runtime legacy : ArtifactRow) : bool :=
  (aw_id runtime =s aw_id legacy) && (aw_r2Key runtime =s aw_r2Key legacy)
  && bool_decide (aw_uploadStatus runtime = aw_uploadStatus legacy)
  && bool_decide (aw_metadata runtime = aw_metadata legacy).
Definition artifactLedgersMatch (runtime legacy : SourceArtifactState) : bool := rowsAgree (src_row runtime) (src_row legacy).

(** [new Map(rows.map((row) => [row.ordinal, row])).get(ordinal)]: the last wins. *)
Definition atOrdinal (rows : list SourceArtifactState) (ordinal : Z) : option SourceArtifactState :=
  last (List.filter (fun r => src_ordinal r =? ordinal) rows).

(** The two ledgers disagree with a manifest, or with each other. *)
Definition entryConflict (runVm : ResolvedRunVm) (runtimeRows legacyRows : list SourceArtifactState)
    (e : ArtifactManifestEntry) : bool :=
  let runtime := atOrdinal runtimeRows (en_ordinal e) in
  let legacy := atOrdinal legacyRows (en_ordinal e) in
  (truthy_opt (rm_runtimeVmId runVm)
   && match runtime with Some r => negb (artifactLedgerMatchesManifest r e) | None => true end)
  || match legacy with Some l => negb (artifactLedgerMatchesManifest l e) | None => true end
  || (truthy_opt (rm_runtimeVmId runVm)
      && match runtime, legacy with Some r, Some l => negb (artifactLedgersMatch r l) | _, _ => false end).
Definition ordinalConflict (runtimeRows legacyRows : list SourceArtifactState) (ordinal : Z) : bool :=
  match atOrdinal runtimeRows ordinal, atOrdinal legacyRows ordinal with
  | Some r, Some l => negb (artifactLedgersMatch r l)
  | _, _ => true
  end.
Definition findArtifactManifestConflict (runVm : ResolvedRunVm) (manifest : list ArtifactManifestEntry)
    (runtimeRows legacyRows : list SourceArtifactState) : option Z :=
  match List.find (entryConflict runVm runtimeRows legacyRows) manifest with
  | Some e => Some (en_ordinal e)
  | None =>
      if truthy_opt (rm_runtimeVmId runVm) then
        List.find (ordinalConflict runtimeRows legacyRows)
          (js_sort Z.leb (remove_dups (map src_ordinal runtimeRows ++ map src_ordinal legacyRows)))
      else None
  end.

(** * Reserving a manifest *)

(** An insert into a ledger: the primary key and the VM's ordinals are unique. *)
Definition ledgerConflict (a b : ArtifactRow) : bool :=
  (aw_id a =s aw_id b) || ((aw_vm a =s aw_vm b) && (aw_ordinal a =? aw_ordinal b)).
(** [runtime_artifacts] also has one terminal recording per content. *)
Definition recordingConflict (a b : ArtifactRow) : bool :=
  (am_kind (aw_metadata a) =s "terminal_recording") && (am_kind (aw_metadata b) =s "terminal_recording")
  && (aw_vm a =s aw_vm b) && (am_sha256 (aw_metadata a) =s am_sha256 (aw_metadata b))
  && (am_sizeBytes (aw_metadata a) =? am_sizeBytes (aw_metadata b)).
Definition insertRuntimeArtifact (row : ArtifactRow) (rows : list ArtifactRow) : result ArchiveFault (list ArtifactRow) :=
  throw_if (aw_ordinal row <? 0) || (am_sizeBytes (aw_metadata row) <? 0) with fault_check;
  throw_if existsb (fun r => ledgerConflict row r || recordingConflict row r) rows with fault_unique;
  Ok (rows ++ [row]).
Definition insertScenarioArtifact (row : ArtifactRow) (rows : list ArtifactRow) : result ArchiveFault (list ArtifactRow) :=
  throw_if existsb (ledgerConflict row) rows with fault_unique;
  Ok (rows ++ [row]).
Fixpoint insert_rows (insert : ArtifactRow -> list ArtifactRow -> result ArchiveFault (list ArtifactRow))
    (new rows : list ArtifactRow) : result ArchiveFault (list ArtifactRow) :=
  match new with
  | [] => Ok rows
  | r :: rest => rows' <-? insert r rows; insert_rows insert rest rows'
  end.

Definition reservedRow (owner vm : string) (e : ArtifactManifestEntry) : ArtifactRow :=
  mkArtifactRow (en_id e) owner vm (en_ordinal e) (en_metadata e) (en_r2Key e) us_pending (en_createdAt e) None.
Definition ledgerRow (owner vm : string) (r : ArtifactRow) : bool := (aw_owner r =s owner) && (aw_vm r =s vm).
(** The entries whose ordinal the ledger has no row for. *)
Definition unreserved (owner vm : string) (rows : list ArtifactRow) (manifest : list ArtifactManifestEntry)
  : list ArtifactManifestEntry :=
  List.filter (fun e => negb (existsb (fun r => ledgerRow owner vm r && (aw_ordinal r =? en_ordinal e)) rows)) manifest.

(** [context.runtime_vm_id]. *)
Definition contextVm (runVm : ResolvedRunVm) : string := nullish (rm_runtimeVmId runVm) "".
Definition runtimeArtifactReservation (runVm : ResolvedRunVm) (manifest : list ArtifactManifestEntry) : AStmt := fun x =>
  rows <-? insert_rows insertRuntimeArtifact
             (map (reservedRow (rm_runId runVm) (contextVm runVm))
                (unreserved (rm_runId runVm) (contextVm runVm) (xd_runtime x) manifest)) (xd_runtime x);
  Ok (set_ledgers x rows (xd_runtimeUploads x) (xd_scenario x) (xd_scenarioUploads x)).
Definition scenarioArtifactReservation (runVm : ResolvedRunVm) (manifest : list ArtifactManifestEntry) : AStmt := fun x =>
  rows <-? insert_rows insertScenarioArtifact
             (map (reservedRow (rm_domainId runVm) (rm_vmId runVm))
                (unreserved (rm_domainId runVm) (rm_vmId runVm) (xd_scenario x) manifest)) (xd_scenario x);
  Ok (set_ledgers x (xd_runtime x) (xd_runtimeUploads x) rows (xd_scenarioUploads x)).

(** A stored row of the manifest's ordinal, or of its id, is another artifact. *)
Definition ordinalConflictSql (owner vm : string) (manifest : list ArtifactManifestEntry) (r : ArtifactRow) : bool :=
  existsb (fun e => (aw_ordinal r =? en_ordinal e) && ledgerRow owner vm r && negb (rowMatches r e)) manifest.
Definition idConflictSql (owner vm : string) (manifest : list ArtifactManifestEntry) (r : ArtifactRow) : bool :=
  existsb (fun e => (aw_id r =s en_id e)
    && negb (ledgerRow owner vm r && (aw_ordinal r =? en_ordinal e) && rowMatches r e)) manifest.
(** A row of one ledger without a counterpart in the other. *)
Definition missingCounterpartSql (owner vm owner' vm' : string) (others : list ArtifactRow) (r : ArtifactRow) : bool :=
  ledgerRow owner vm r && negb (existsb (fun l => ledgerRow owner' vm' l && (aw_ordinal l =? aw_ordinal r)) others).
Definition ledgerMetadataDivergenceSql (runVm : ResolvedRunVm) (legacyRows : list ArtifactRow) (r : ArtifactRow) : bool :=
  existsb (fun l => (aw_ordinal l =? aw_ordinal r) && ledgerRow (rm_runId runVm) (contextVm runVm) r
    && ledgerRow (rm_domainId runVm) (rm_vmId runVm) l && negb (rowsAgree r l)) legacyRows.

Definition manifestConflict (runVm : ResolvedRunVm) (manifest : list ArtifactManifestEntry) (x : ArchiveDb) : bool :=
  let checkRuntimeLedger := negb (isNull (rm_runtimeVmId runVm)) in
  let execution := rm_runId runVm in
  let run := rm_domainId runVm in
  (checkRuntimeLedger && existsb (ordinalConflictSql execution (contextVm runVm) manifest) (xd_runtime x))
  || (checkRuntimeLedger && existsb (idConflictSql execution (contextVm runVm) manifest) (xd_runtime x))
  || existsb (ordinalConflictSql run (rm_vmId runVm) manifest) (xd_scenario x)
  || existsb (idConflictSql run (rm_vmId runVm) manifest) (xd_scenario x)
  || (checkRuntimeLedger
      && existsb (missingCounterpartSql execution (contextVm runVm) run (rm_vmId runVm) (xd_scenario x)) (xd_runtime x))
  || (checkRuntimeLedger
      && existsb (missingCounterpartSql run (rm_vmId runVm) execution (contextVm runVm) (xd_runtime x)) (xd_scenario x))
  || (checkRuntimeLedger && existsb (ledgerMetadataDivergenceSql runVm (xd_scenario x)) (xd_runtime x)).

(** The row of ordinal -1 that the check on ordinals refuses, when there is a
    conflict. *)
Definition conflictSentinel (runVm : ResolvedRunVm) : ArtifactRow :=
  mkArtifactRow "__artifact_manifest_conflict__" (rm_runId runVm) (contextVm runVm) (-1)
    (mkMetadata "artifact_manifest_guard" "artifact_manifest_guard" "application/octet-stream" 0
       "0000000000000000000000000000000000000000000000000000000000000000")
    "__artifact_manifest_conflict__" us_pending 0 None.
Definition artifactManifestConflictGuard (runVm : ResolvedRunVm) (manifest : list ArtifactManifestEntry) : AStmt := fun x =>
  if manifestConflict runVm manifest x then
    rows <-? insertRuntimeArtifact (conflictSentinel runVm) (xd_runtime x);
    Ok (set_ledgers x rows (xd_runtimeUploads x) (xd_scenario x) (xd_scenarioUploads x))
  else Ok x.

Inductive Ensured : Type :=
| ensured
| ensured_conflict (ordinal : Z)
| ensured_invalid.

(** A value computed without an await, which may throw. *)
Definition lift {A} (r : result ArtifactError A) : ArtifactReq A := Done r.

Definition reservationStatements (runVm : ResolvedRunVm) (manifest : list ArtifactManifestEntry) : list AStmt :=
  [artifactManifestConflictGuard runVm manifest]
  ++ (if truthy_opt (rm_runtimeVmId runVm) then [runtimeArtifactReservation runVm manifest] else [])
  ++ [scenarioArtifactReservation runVm manifest].

Definition ensureArtifactStates (runVm : ResolvedRunVm) (artifacts : list ArtifactInput) (createdAt : Z) : ArtifactReq Ensured :=
  match artifacts with
  | [] => return_ ensured
  | _ =>
      manifest <-! lift (buildArtifactManifest runVm artifacts createdAt);
      if (MAX_D1_MANIFEST_BYTES <? Z.of_nat (utf8_length (manifestJson manifest))) then return_ ensured_invalid
      else
        batch <-- artifactWriteBatch runVm (reservationStatements runVm manifest) false;
        runtimeRows <-- query (loadRuntimeArtifactStatesForRunVm runVm);
        legacyRows <-- query (loadLegacyArtifactStatesForRunVm runVm);
        match findArtifactManifestConflict runVm manifest runtimeRows legacyRows, batch with
        | Some ordinal, _ => return_ (ensured_conflict ordinal)
        | None, Err e => throw e
        | None, Ok _ => return_ ensured
        end
  end.

(** * A retry of an earlier manifest *)

Inductive ExistingArtifactManifestRetry : Type :=
| retry_exact (allUploaded : bool)
| retry_absent
| retry_new_reservation
| retry_mismatch.

Definition entryAt (manifest : list ArtifactManifestEntry) (ordinal : Z) : option ArtifactManifestEntry :=
  last (List.filter (fun e => en_ordinal e =? ordinal) manifest).
Definition storedRowsMatchRequest (manifest : list ArtifactManifestEntry) (rows : list SourceArtifactState) : bool :=
  forallb (fun s => match entryAt manifest (src_ordinal s) with
                    | Some e => artifactLedgerMatchesManifest s e
                    | None => false
                    end) rows.
Definition manifestStored (manifest : list ArtifactManifestEntry) (rows : list SourceArtifactState) : bool :=
  bool_decide (length rows = length manifest)
  && forallb (fun e => match atOrdinal rows (en_ordinal e) with
                       | Some s => artifactLedgerMatchesManifest s e
                       | None => false
                       end) manifest.
Definition storedLedgersMatch (runtimeRows legacyRows : list SourceArtifactState) : bool :=
  bool_decide (length runtimeRows = length legacyRows)
  && forallb (fun r => match atOrdinal legacyRows (src_ordinal r) with
                       | Some l => artifactLedgersMatch r l
                       | None => false
                       end) runtimeRows.

Definition classifyRetry (requiresRuntime : bool) (manifest : list ArtifactManifestEntry)
    (runtimeRows legacyRows : list SourceArtifactState) : ExistingArtifactManifestRetry :=
  let shorter rows := (length rows <? length manifest)%nat in
  let ledgersMatch := negb requiresRuntime || storedLedgersMatch runtimeRows legacyRows in
  if negb (requiresRuntime && (0 <? length runtimeRows)%nat) && negb (0 <? length legacyRows)%nat then retry_absent
  else if (negb requiresRuntime || shorter runtimeRows) && shorter legacyRows
          && (negb requiresRuntime || storedRowsMatchRequest manifest runtimeRows)
          && storedRowsMatchRequest manifest legacyRows && ledgersMatch
  then retry_new_reservation
  else if negb (negb requiresRuntime || manifestStored manifest runtimeRows)
          || negb (manifestStored manifest legacyRows) || negb ledgersMatch
  then retry_mismatch
  else retry_exact (forallb src_uploaded (runtimeRows ++ legacyRows)).
Definition inspectExistingArtifactManifestRetry (runVm : ResolvedRunVm) (artifacts : list ArtifactInput)
  : ArtifactReq ExistingArtifactManifestRetry :=
  manifest <-! lift (buildArtifactManifest runVm artifacts 0);
  runtimeRows <-- query (loadRuntimeArtifactStatesForRunVm runVm);
  legacyRows <-- query (loadLegacyArtifactStatesForRunVm runVm);
  return_ (classifyRetry (negb (isNull (rm_runtimeVmId runVm))) manifest runtimeRows legacyRows).

(** * Uploads *)

(** [Math.floor]. *)
Definition num_floor (n : num) : num := match n with NFrac f _ => NInt f | _ => n end.
Definition parsePart (entry : json) : option UploadedPartRecord :=
  match entry with
  | JObj _ =>
      match field entry "partNumber", field entry "etag" with
      | Some (JNum n), Some (JStr etag) => Some (mkPart (num_floor n) etag)
      | _, _ => None
      end
  | _ => None
  end.
Definition parseUploadedParts (raw : option json) : list UploadedPartRecord :=
  match raw with
  | Some (JArr entries) => omap parsePart entries
  | _ => []
  end.
Definition encodePart (p : UploadedPartRecord) : json :=
  JObj [("partNumber", JNum (pt_partNumber p)); ("etag", JStr (pt_etag p))].
Definition encodeParts (parts : list UploadedPartRecord) : json := JArr (map encodePart parts).

Definition uploadsOf (k : StorageKind) (x : ArchiveDb) : list UploadRow :=
  match k with sk_runtime => xd_runtimeUploads x | sk_scenario => xd_scenarioUploads x end.
Definition loadArtifactUploadState (artifact : SourceArtifactState) : ArchiveReq (option UploadRow) :=
  query (fun x => List.find (fun u => uw_artifactId u =s aw_id (src_row artifact)) (uploadsOf (src_storageKind artifact) x)).

(** [INSERT ... ON CONFLICT(artifact_id) DO UPDATE]. *)
Definition upsertUpload (row : UploadRow) (rows : list UploadRow) : list UploadRow :=
  if existsb (fun u => uw_artifactId u =s uw_artifactId row) rows
  then update_where (fun u => uw_artifactId u =s uw_artifactId row) (fun _ => row) rows
  else rows ++ [row].
Definition on_runtime_uploads (f : list UploadRow -> list UploadRow) : AStmt := fun x =>
  Ok (set_ledgers x (xd_runtime x) (f (xd_runtimeUploads x)) (xd_scenario x) (xd_scenarioUploads x)).
Definition on_scenario_uploads (f : list UploadRow -> list UploadRow) : AStmt := fun x =>
  Ok (set_ledgers x (xd_runtime x) (xd_runtimeUploads x) (xd_scenario x) (f (xd_scenarioUploads x))).
(** The statement on both upload tables, or on the older one alone. *)
Definition on_uploads (artifact : SourceArtifactState) (f : list UploadRow -> list UploadRow) : list AStmt :=
  match src_storageKind artifact with
  | sk_runtime => [on_runtime_uploads f; on_scenario_uploads f]
  | sk_scenario => [on_scenario_uploads f]
  end.

Definition initializeArtifactUpload (runVm : ResolvedRunVm) (artifact : SourceArtifactState) (r2UploadId : string)
    (updatedAt : Z) : ArtifactReq unit :=
  artifactMutations runVm
    (on_uploads artifact
       (upsertUpload (mkUpload (aw_id (src_row artifact)) (Some r2UploadId) (Some (encodeParts [])) 1 updatedAt)))
    false None.
Definition advanceUpload (artifactId : string) (parts : list UploadedPartRecord) (nextExpectedPart updatedAt : Z)
  : list UploadRow -> list UploadRow :=
  update_where (fun u => uw_artifactId u =s artifactId)
    (fun u => mkUpload (uw_artifactId u) (uw_r2UploadId u) (Some (encodeParts parts)) nextExpectedPart updatedAt).
Definition advanceArtifactUpload (runVm : ResolvedRunVm) (artifact : SourceArtifactState) (parts : list UploadedPartRecord)
    (nextExpectedPart updatedAt : Z) : ArtifactReq unit :=
  artifactMutations runVm (on_uploads artifact (advanceUpload (aw_id (src_row artifact)) parts nextExpectedPart updatedAt))
    false None.

(** * A stored artifact *)

Definition with_uploaded (uploadedAt : Z) (r : ArtifactRow) : ArtifactRow :=
  mkArtifactRow (aw_id r) (aw_owner r) (aw_vm r) (aw_ordinal r) (aw_metadata r) (aw_r2Key r) us_uploaded
    (aw_createdAt r) (Some uploadedAt).
Definition markRows (artifactId : string) (uploadedAt : Z) : list ArtifactRow -> list ArtifactRow :=
  update_where (fun r => aw_id r =s artifactId) (with_uploaded uploadedAt).
Definition dropUpload (artifactId : string) : list UploadRow -> list UploadRow :=
  delete_where (fun u => uw_artifactId u =s artifactId).
Definition markRuntime (artifactId : string) (uploadedAt : Z) : AStmt := fun x =>
  Ok (set_ledgers x (markRows artifactId uploadedAt (xd_runtime x)) (xd_runtimeUploads x) (xd_scenario x) (xd_scenarioUploads x)).
Definition markScenario (artifactId : string) (uploadedAt : Z) : AStmt := fun x =>
  Ok (set_ledgers x (xd_runtime x) (xd_runtimeUploads x) (markRows artifactId uploadedAt (xd_scenario x)) (xd_scenarioUploads x)).
Definition markStatements (artifact : SourceArtifactState) (uploadedAt : Z) : list AStmt :=
  let id := aw_id (src_row artifact) in
  match src_storageKind artifact with
  | sk_runtime => [markRuntime id uploadedAt; on_runtime_uploads (dropUpload id);
                   markScenario id uploadedAt; on_scenario_uploads (dropUpload id)]
  | sk_scenario => [markScenario id uploadedAt; on_scenario_uploads (dropUpload id)]
  end.

Definition with_recording (vm : RunVmStateDocument) (h : option bool) : RunVmStateDocument :=
  let '(mkVm id ord svid svn rvn hn ph pt pd pp tp tr toa cot bp sp ra st _ tg rc rs rg ip ls rst roa vca pv lg) := vm in
  mkVm id ord svid svn rvn hn ph pt pd pp tp tr toa cot bp sp ra st h tg rc rs rg ip ls rst roa vca pv lg.
Definition with_replay (vm : RunVmStateDocument) (r : list ScenarioReplayArtifact) : RunVmStateDocument :=
  let '(mkVm id ord svid svn rvn hn ph pt pd pp tp tr toa cot bp sp _ st hr tg rc rs rg ip ls rst roa vca pv lg) := vm in
  mkVm id ord svid svn rvn hn ph pt pd pp tp tr toa cot bp sp r st hr tg rc rs rg ip ls rst roa vca pv lg.
Definition with_timeline (vm : RunVmStateDocument) (t : option (list SessionTimelineEntry)) : RunVmStateDocument :=
  let '(mkVm id ord svid svn rvn hn ph pt pd pp tp tr toa cot bp sp ra _ hr tg rc rs rg ip ls rst roa vca pv lg) := vm in
  mkVm id ord svid svn rvn hn ph pt pd pp tp tr toa cot bp sp ra t hr tg rc rs rg ip ls rst roa vca pv lg.
Definition with_vm_phase (vm : RunVmStateDocument) (p : VmPhase) : RunVmStateDocument :=
  let '(mkVm id ord svid svn rvn hn _ pt pd pp tp tr toa cot bp sp ra st hr tg rc rs rg ip ls rst roa vca pv lg) := vm in
  mkVm id ord svid svn rvn hn p pt pd pp tp tr toa cot bp sp ra st hr tg rc rs rg ip ls rst roa vca pv lg.

Definition map_vm (vmId : string) (f : RunVmStateDocument -> RunVmStateDocument) (d : RunStateDocument) : RunStateDocument :=
  with_vms d (map (fun vm => if vm_id vm =s vmId then f vm else vm) (run_vms d)).
Definition with_document (d : option RunStateDocument) (updatedAt : Z) (r : RunRow) : RunRow :=
  mkRunRow (sr_runId r) (sr_userId r) (sr_organizationId r) (sr_runtimeExecutionId r) (sr_hostId r) (sr_state r)
    (sr_stateRank r) (sr_activeKey r) d (sr_archiveEnteredAt r) (sr_deleteRequestedAt r) (sr_solvedAt r)
    (sr_completedAt r) (sr_failedAt r) (sr_createdAt r) updatedAt (sr_content r).
Definition writeDocument (runId : string) (d : RunStateDocument) (updatedAt : Z) : AStmt :=
  on_store (fun db => Ok (updateRuns (fun r => sr_runId r =s runId) (with_document (Some d) updatedAt) db)).

Definition isRawRecording (kind : string) : bool :=
  (kind =s "ssh_recording_raw") || (kind =s "ssh_recording_raw_bundle").
Definition replayArtifactOf (runVm : ResolvedRunVm) (row : ArtifactRow) : ScenarioReplayArtifact :=
  let m := aw_metadata row in
  mkArtifact (aw_id row) "" (rm_domainId runVm) (rm_vmId runVm) (am_kind m) (am_filename m) (am_contentType m)
    (am_sizeBytes m).
Definition addReplay (runVm : ResolvedRunVm) (row : ArtifactRow) (vm : RunVmStateDocument) : RunVmStateDocument :=
  with_replay vm (List.filter (fun a => negb (art_id a =s aw_id row)) (vm_replayArtifacts vm)
                  ++ [replayArtifactOf runVm row]).
Definition recordedState (runVm : ResolvedRunVm) (row : ArtifactRow) (state : RunStateDocument) : RunStateDocument :=
  recomputeRunState
    (map_vm (rm_vmId runVm)
       (if isRawRecording (am_kind (aw_metadata row)) then (fun vm => with_recording vm (Some true)) else addReplay runVm row)
       state).

Definition markArtifactUploadedOnce (runVm : ResolvedRunVm) (artifact : SourceArtifactState) (uploadedAt : Z) : ArtifactReq unit :=
  let row := src_row artifact in
  let kind := am_kind (aw_metadata row) in
  let mutations := markStatements artifact uploadedAt in
  if negb (isRawRecording kind) && negb (kind =s "ssh_recording_segment")
  then artifactMutations runVm mutations false None
  else
    found <-- query (fun x => findRun (xd_store x) (rm_domainId runVm));
    match found with
    | None => throw ArtifactWriteFenced
    | Some run =>
        let nextState := recordedState runVm row (parseRunState (sr_stateJson run)) in
        artifactMutations runVm (mutations ++ [writeDocument (rm_domainId runVm) nextState uploadedAt]) false
          (Some (sr_stateJson run))
    end.
Definition markArtifactUploaded (runVm : ResolvedRunVm) (artifact : SourceArtifactState) (uploadedAt : Z) : ArtifactReq unit :=
  retryArtifactState (markArtifactUploadedOnce runVm artifact uploadedAt).

(** * Archiving and completing a VM *)

Record StoredRunLifecycle : Type := mkLifecycle {
  lc_activeKey : option string;
  lc_deleteRequestedAt : option Z;
  lc_solvedAt : option Z;
  lc_completedAt : option Z;
  lc_failedAt : option Z;
  lc_stateJson : option RunStateDocument;
  lc_state : RunStateDocument;
}.
Definition loadStoredRunLifecycle (runId : string) (x : ArchiveDb) : option StoredRunLifecycle :=
  option_map (fun r => mkLifecycle (sr_activeKey r) (sr_deleteRequestedAt r) (sr_solvedAt r) (sr_completedAt r)
                         (sr_failedAt r) (sr_stateJson r) (parseRunState (sr_stateJson r)))
    (findRun (xd_store x) runId).

Definition deriveArchiveRunPhase (vms : list RunVmStateDocument) : RunPhase :=
  if existsb (vm_in [vm_failed]) vms then run_failed
  else if forallb (vm_in [vm_completed; vm_failed]) vms then run_completed
  else if existsb (vm_in [vm_destroying]) vms then run_tearing_down
  else if existsb (vm_in [vm_archived; vm_completed]) vms then run_archiving
  else run_tearing_down.

Definition lifecycleRow (run : StoredRunLifecycle) (nextState : RunStateDocument) (now : Z) (r : RunRow) : RunRow :=
  let nextPhase := run_phase nextState in
  mkRunRow (sr_runId r) (sr_userId r) (sr_organizationId r) (sr_runtimeExecutionId r) (sr_hostId r)
    nextPhase (RUN_PHASE_ORDER nextPhase)
    (if isTerminal nextPhase && isNull (sr_deleteRequestedAt r) then None else sr_activeKey r)
    (Some nextState)
    (match nextPhase with
     | run_archiving | run_completed | run_failed => coalesce (sr_archiveEnteredAt r) (Some now)
     | _ => sr_archiveEnteredAt r
     end)
    (sr_deleteRequestedAt r)
    (nextSolvedAt (run_phase (lc_state run)) nextPhase (lc_solvedAt run) now)
    (if bool_decide (nextPhase = run_completed) then Some (nullish (lc_completedAt run) now) else None)
    (if bool_decide (nextPhase = run_failed) then Some (nullish (lc_failedAt run) now) else None)
    (sr_createdAt r) now (sr_content r).
Definition lifecycleMutation (runId : string) (run : StoredRunLifecycle) (nextState : RunStateDocument) (now : Z) : AStmt :=
  on_store (fun db => Ok (updateRuns (fun r => sr_runId r =s runId) (lifecycleRow run nextState now) db)).

(** The unit of a course that a completed and solved run finishes. *)
Definition completedUnits (runId : string) (now : Z) (x : ArchiveDb) : list CompletionRow :=
  flat_map (fun r =>
    if (sr_runId r =s runId) && bool_decide (sr_state r = run_completed) && negb (isNull (sr_solvedAt r)) then
      omap (fun k =>
        if rk_runId k =s runId then
          match rk_courseScopeKey k, rk_courseId k, rk_lectureId k with
          | Some s, Some c, Some l => Some (mkCompletion (sr_userId r) s c l (Some runId) now)
          | _, _, _ => None
          end
        else None) (at_runs (xd_access x))
    else []) (db_runs (xd_store x)).
Definition sameUnit (a b : CompletionRow) : bool :=
  (cu_userId a =s cu_userId b) && (cu_scopeKey a =s cu_scopeKey b) && (cu_courseId a =s cu_courseId b)
  && (cu_lectureId a =s cu_lectureId b).
Definition insertCompletion (rows : list CompletionRow) (c : CompletionRow) : list CompletionRow :=
  if existsb (sameUnit c) rows then rows else rows ++ [c].
Definition courseCompletionStatement (runId : string) (now : Z) : AStmt := fun x =>
  Ok (set_completions x (fold_left insertCompletion (completedUnits runId now x) (at_completions (xd_access x)))).

(** [executeScenarioRunRuntimeProjection] over these statements: the errors it
    words itself, then those of the guards. *)
Definition projectionError (f : ArchiveFault) : ArtifactError :=
  match f with
  | fault_store c =>
      if isActiveRuntimeSlotConflict c then artifact_store (app_error activeRuntimeSlotConflict)
      else match c with
           | ck_runtime_executions_generation_positive =>
               artifact_store (app_error (appError 409 "scenario_runtime_execution_identity_mismatch"
                 "the scenario run does not reference its generation-one runtime execution"))
           | _ => artifact_store (db_error c)
           end
  | _ => rethrowArtifactWriteError f
  end.

Definition lifecycleStatements (runVm : ResolvedRunVm) (run : StoredRunLifecycle) (nextState : RunStateDocument) (now clock : Z)
    (extra : list AStmt) (allowSealed : bool) : list AStmt :=
  let runId := rm_domainId runVm in
  [artifactWriteGuard runVm allowSealed clock; artifactRunStateGuard runId (lc_stateJson run);
   lifecycleMutation runId run nextState now]
  ++ extra
  ++ (if bool_decide (run_phase nextState = run_completed)
         && negb (isNull (nextSolvedAt (run_phase (lc_state run)) (run_phase nextState) (lc_solvedAt run) now))
      then [courseCompletionStatement runId now] else [])
  ++ map on_store (scenarioRunRuntimeProjectionStatements runId mode_update).

Definition persistStoredRunLifecycle (runVm : ResolvedRunVm) (run : StoredRunLifecycle) (state : RunStateDocument) (now : Z)
    (extra : list AStmt) (allowSealed : bool) : ArtifactReq unit :=
  match requiredId (Some (rm_domainId runVm)) "runId" with
  | Err e => throw (artifact_store e)
  | Ok _ =>
      clock <-- call Clock;
      transaction (fun x =>
        match archive_batch (lifecycleStatements runVm run (recomputeRunState state) now clock extra allowSealed) x with
        | Ok x' => (x', Ok ())
        | Err f => (x, Err (projectionError f))
        end)
  end.

Definition archivingExecution (now : Z) (e : ExecutionRow) : ExecutionRow :=
  with_exec_state e (re_hostId e)
    (match re_state e with ex_queued | ex_provisioning | ex_ready => ex_archiving | s => s end)
    (re_leaseExpiresAt e) (coalesce (re_archiveRequestedAt e) (Some now)) (re_endedAt e) now.
Definition executionUpdate (executionId : string) (now : Z) : AStmt :=
  on_store (fun db => Ok (updateExecutions (fun e => re_id e =s executionId) (archivingExecution now) db)).

Definition with_vm_updated (now : Z) (v : RuntimeVmRow) : RuntimeVmRow :=
  mkRuntimeVm (rv_id v) (rv_executionId v) (rv_vmId v) (rv_ordinal v) (rv_runtimeVmName v) (rv_imageKeyJson v)
    (rv_imageSha256 v) (rv_cpuMillis v) (rv_memoryMib v) (rv_diskMib v) (rv_terminal v) (rv_terminalObservedAt v)
    (rv_createdAt v) now.
(** [UPDATE runtime_vms SET <archive columns>, updated_at WHERE id AND
    execution_id AND <condition>]. *)
Definition updateVmArchive (runtimeVmId executionId : string) (p : VmArchive -> bool) (f : VmArchive -> VmArchive) (now : Z)
  : AStmt := fun x =>
  let hit v := (rv_id v =s runtimeVmId) && (rv_executionId v =s executionId) && p (vmArchive x (rv_id v)) in
  let db := xd_store x in
  if existsb hit (db_vms db)
  then Ok (set_vm_archives (set_store x (set_vms db (update_where hit (with_vm_updated now) (db_vms db))))
             (Map_set runtimeVmId (f (vmArchive x runtimeVmId)) (xd_vms x)))
  else Ok x.

Definition with_rank (rank : option Z) (a : VmArchive) : VmArchive := mkVmArchive (va_artifactWritesSealed a) rank.
Definition atLeastFirst (rank : option Z) : option Z :=
  match rank with None => Some 1 | Some r => Some (if r <? 1 then 1 else r) end.
Definition vmStageUpdate (runtimeVmId executionId : string) (now : Z) : AStmt :=
  updateVmArchive runtimeVmId executionId (fun _ => true) (fun a => with_rank (atLeastFirst (va_archiveStageRank a)) a) now.

Definition toArchived (vm : RunVmStateDocument) : RunVmStateDocument :=
  if negb (bool_decide (vm_phase vm = vm_failed)) && canAdvanceVmPhase (vm_phase vm) vm_archived
  then with_vm_phase vm vm_archived else vm.

Definition transitionRunVmToArchivingOnce (runVm : ResolvedRunVm) (now : Z) (recordArchiveProgress : bool) : ArtifactReq unit :=
  _ <-! (if truthy_opt (rm_runtimeVmId runVm)
         then artifactMutations runVm
                (executionUpdate (rm_runId runVm) now
                 :: (if recordArchiveProgress then [vmStageUpdate (contextVm runVm) (rm_runId runVm) now] else []))
                false None
         else return_ ());
  run <-- query (loadStoredRunLifecycle (rm_domainId runVm));
  match run with
  | None => return_ ()
  | Some run =>
      let nextState := recomputeRunState (map_vm (rm_vmId runVm) toArchived (lc_state run)) in
      persistStoredRunLifecycle runVm run (with_phase nextState (deriveArchiveRunPhase (run_vms nextState))) now [] false
  end.
Definition transitionRunVmToArchiving (runVm : ResolvedRunVm) (now : Z) (recordArchiveProgress : bool) : ArtifactReq unit :=
  retryArtifactState (transitionRunVmToArchivingOnce runVm now recordArchiveProgress).

(** The stage may follow only the one before it. *)
Definition canAdvanceStage (stageRank : Z) (a : VmArchive) : bool :=
  match va_archiveStageRank a with
  | None => stageRank =? 1
  | Some r => (if stageRank =? 1 then true else stageRank - 1 <=? r) && (r <? stageRank)
  end.
Definition advanceRunVmArchiveStage (runVm : ResolvedRunVm) (stageRank now : Z) : ArtifactReq unit :=
  if negb (truthy_opt (rm_runtimeVmId runVm)) then return_ ()
  else if (stageRank <? 1) || (4 <? stageRank)
  then throw (artifact_invalid "archive stage rank must be an integer from 1 to 4")
  else artifactMutations runVm
         [updateVmArchive (contextVm runVm) (rm_runId runVm) (canAdvanceStage stageRank) (with_rank (Some stageRank)) now]
         true None.

(** Every artifact of the VM is stored, in both ledgers. *)
Definition allUploadedGuard (runVm : ResolvedRunVm) : AStmt := fun x =>
  if negb (existsb (fun r => sql_eq (Some (aw_vm r)) (rm_runtimeVmId runVm)
                              && negb (bool_decide (aw_uploadStatus r = us_uploaded))) (xd_runtime x))
     && negb (existsb (fun r => ledgerRow (rm_domainId runVm) (rm_vmId runVm) r
                                && negb (bool_decide (aw_uploadStatus r = us_uploaded))) (xd_scenario x))
  then Ok x else Err fault_overflow.
Definition sealedArchive (a : VmArchive) : VmArchive :=
  mkVmArchive true (match va_archiveStageRank a with None => None | Some r => Some (if r <? 4 then 4 else r) end).
Definition sealVm (runtimeVmId executionId : string) (now : Z) : AStmt :=
  updateVmArchive runtimeVmId executionId (fun _ => true) sealedArchive now.
Definition archivedExecution (now : Z) (e : ExecutionRow) : ExecutionRow :=
  with_exec_state e (re_hostId e) ex_archived (re_leaseExpiresAt e) (coalesce (re_archiveRequestedAt e) (Some now))
    (coalesce (re_endedAt e) (Some now)) now.
Definition allVmsSealed (executionId : string) (x : ArchiveDb) : bool :=
  negb (existsb (fun v => (rv_executionId v =s executionId) && negb (va_artifactWritesSealed (vmArchive x (rv_id v))))
          (db_vms (xd_store x))).
Definition archiveRuntimeExecutionWhenAllVmsSealed (executionId : string) (now : Z) : AStmt := fun x =>
  let all := allVmsSealed executionId x in
  on_store (fun db => Ok (updateExecutions (fun e => (re_id e =s executionId) && all) (archivedExecution now) db)) x.
Definition completionStatements (runVm : ResolvedRunVm) (now : Z) : list AStmt :=
  allUploadedGuard runVm ::
  (if truthy_opt (rm_runtimeVmId runVm)
   then [sealVm (contextVm runVm) (rm_runId runVm) now; archiveRuntimeExecutionWhenAllVmsSealed (rm_runId runVm) now]
   else []).

Definition completedRunPhase (nextState : RunStateDocument) : RunPhase :=
  if bool_decide (run_phase nextState = run_failed) then run_failed
  else if forallb (vm_in [vm_completed; vm_failed]) (run_vms nextState) then run_completed
  else deriveArchiveRunPhase (run_vms nextState).
Definition transitionRunVmToCompletedOnce (runVm : ResolvedRunVm) (now : Z) : ArtifactReq unit :=
  run <-- query (loadStoredRunLifecycle (rm_domainId runVm));
  match run with
  | None => return_ ()
  | Some run =>
      let nextState := recomputeRunState (map_vm (rm_vmId runVm) (fun vm => with_vm_phase vm vm_completed) (lc_state run)) in
      persistStoredRunLifecycle runVm run (with_phase nextState (completedRunPhase nextState)) now
        (completionStatements runVm now) true
  end.
Definition transitionRunVmToCompleted (runVm : ResolvedRunVm) (now : Z) : ArtifactReq unit :=
  retryArtifactState (transitionRunVmToCompletedOnce runVm now).

(** * Finding the VM a request names *)

Record RuntimeVmMatch : Type := mkVmMatch {
  mt_execution : ExecutionRow;
  mt_vm : RuntimeVmRow;
  mt_artifactWritesSealed : bool;
}.
Definition findRuntimeVm (agent : VerifiedAgentHost) (runId vmName : string) (x : ArchiveDb) : option RuntimeVmMatch :=
  let db := xd_store x in
  head (flat_map (fun e =>
    if (re_id e =s runId) && bool_decide (re_hostId e = Some (vg_hostId agent))
       && existsb (fun h => sql_eq (Some (ah_id h)) (re_hostId e)) (db_hosts db)
    then omap (fun v => if (rv_executionId v =s re_id e) && (rv_runtimeVmName v =s vmName)
                        then Some (mkVmMatch e v (va_artifactWritesSealed (vmArchive x (rv_id v)))) else None) (db_vms db)
    else []) (db_executions db)).
(** The scenario of a run, and its document. *)
Definition findScenarioRun (domainId executionId : string) (x : ArchiveDb) : option (option string * option RunStateDocument) :=
  option_map (fun r => (option_map rk_scenarioId (List.find (fun k => rk_runId k =s sr_runId r) (at_runs (xd_access x))),
                        sr_stateJson r))
    (List.find (fun r => (sr_runId r =s domainId) && bool_decide (sr_runtimeExecutionId r = Some executionId))
       (db_runs (xd_store x))).

Definition resolveRunVm (agent : VerifiedAgentHost) (runId vmName : string) : ArtifactReq (option ResolvedRunVm) :=
  runtime <-- query (findRuntimeVm agent runId vmName);
  match runtime with
  | None => return_ None
  | Some m =>
      let e := mt_execution m in
      let v := mt_vm m in
      match re_hostId e with
      | None => return_ None
      | Some hostId =>
          if negb (truthy hostId) then return_ None
          else
            scenario <-- query (findScenarioRun (re_domainId e) (re_id e));
            match scenario with
            | None => return_ None
            | Some (scenarioId, stateJson) =>
                match List.find (fun vm => vm_id vm =s rv_vmId v) (run_vms (parseRunState stateJson)) with
                | None => return_ None
                | Some scenarioVm =>
                    if negb (vm_runtimeVmName scenarioVm =s rv_runtimeVmName v) then return_ None
                    else
                      let resolved := mkRunVm agent (re_generation e) (re_domainId e) (re_id e) hostId (re_userId e)
                        scenarioId (rv_vmId v) (Some (rv_id v)) (rv_runtimeVmName v)
                        (mt_artifactWritesSealed m || bool_decide (vm_phase scenarioVm = vm_completed)) in
                      _ <-! artifactWriteBatch resolved [] true;
                      return_ (Some resolved)
                end
            end
      end
  end.

(** * The manifest of a request *)

Definition normalizeInteger (value : option json) : option Z :=
  match value with
  | Some (JNum (NInt z)) => if safe_integer z then Some z else None
  | _ => None
  end.
Definition normalizeArtifactText (value : option json) (maxBytes : nat) : option string :=
  match value with
  | Some (JStr s) => if (maxBytes <? utf8_length s)%nat then None else or_null (trim s)
  | _ => None
  end.
Definition SHA256_HEX (s : string) : bool := matches_class (fun n => in_range 48 57 n || in_range 97 102 n) 64 64 s.
Definition normalizeArtifactInput (input : json) : option ArtifactInput :=
  match input with
  | JObj _ =>
      match normalizeInteger (field input "ordinal"), normalizeInteger (field input "sizeBytes"),
            normalizeArtifactText (field input "kind") MAX_ARTIFACT_KIND_BYTES,
            normalizeArtifactText (field input "filename") MAX_ARTIFACT_FILENAME_BYTES,
            normalizeArtifactText (field input "contentType") MAX_ARTIFACT_CONTENT_TYPE_BYTES, field input "sha256" with
      | Some ordinal, Some sizeBytes, Some kind, Some filename, Some contentType, Some (JStr sha256) =>
          if (0 <? ordinal) && (0 <=? sizeBytes) && SHA256_HEX sha256
          then Some (mkInput ordinal (mkMetadata kind filename contentType sizeBytes sha256)) else None
      | _, _, _, _, _, _ => None
      end
  | _ => None
  end.
Fixpoint normalizeAll (inputs : list json) : option (list ArtifactInput) :=
  match inputs with
  | [] => Some []
  | i :: rest => a ← normalizeArtifactInput i; l ← normalizeAll rest; Some (a :: l)
  end.
Fixpoint consecutive (from : Z) (l : list ArtifactInput) : bool :=
  match l with
  | [] => true
  | a :: rest => (an_ordinal a =? from) && consecutive (from + 1) rest
  end.
Definition normalizeArtifactInputs (inputs : option json) (maxArtifacts : nat) : option (list ArtifactInput) :=
  match inputs with
  | Some (JArr items) =>
      if (maxArtifacts <? length items)%nat then None
      else
        normalized ← normalizeAll items;
        let sorted := js_sort (fun a b => an_ordinal a <=? an_ordinal b) normalized in
        if consecutive 1 sorted then Some sorted else None
  | _ => None
  end.
