(* ===== verification/ArtifactRoutes.v ===== *)
(** The requests of a host that saves a run's artifacts:
    control-plane/agent-run-artifacts.ts on the store of [ArtifactStore].

    A request is the verified identity of its agent or the reply that refuses it,
    the decoded path and the body; routing and the agent's token are not modelled. *)
From stdpp Require Import base list strings pretty.
From Stdlib Require Import ZArith Lia.
From S2P Require Import Prelude Json Text RunState RunLifecycle RunView Store RuntimeExecutions RunProjection Tar Access Requests ArtifactStore.

Open Scope string_scope.
Open Scope list_scope.
Open Scope Z_scope.
Open Scope req_scope.

Definition jint (z : Z) : json := JNum (NInt z).

(** * Replies *)

Record Reply : Type := mkReply {
  rp_status : Z;
  rp_body : json;
}.
Definition jsonResponse (body : json) (status : Z) : Reply := mkReply status body.
Definition errorReply (message : string) (status : Z) : Reply := jsonResponse (JObj [("error", JStr message)]) status.
Definition runPurgedResponse : Reply :=
  jsonResponse (JObj [("code", JStr "run_purged"); ("error", JStr "run VM not found")]) 410.
Definition artifactWritesSealedResponse : Reply :=
  jsonResponse (JObj [("code", JStr "run_artifacts_sealed"); ("error", JStr "run artifact writes are sealed")]) 409.
Definition methodNotAllowed : Reply := errorReply "method not allowed" 405.
Definition partsReply (done : bool) (nextExpectedPart : Z) : Reply :=
  jsonResponse (JObj [("done", JBool done); ("nextExpectedPart", jint nextExpectedPart)]) 200.
Definition uploadedReply : Reply := jsonResponse (JObj [("ok", JBool true); ("uploaded", JBool true)]) 200.
Definition okReply : Reply := jsonResponse (JObj [("ok", JBool true)]) 200.

(** What [handleAgentRunArtifactRequest] answers to an error it knows; others are
    thrown on. *)
Definition replyOf (r : result ArtifactError Reply) : result ArtifactError Reply :=
  match r with
  | Err ArtifactStateConflict =>
      Ok (jsonResponse (JObj [("code", JStr "artifact_state_conflict");
                              ("error", JStr "Artifact run state changed; retry the request")]) 409)
  | Err ArtifactWriteFenced =>
      Ok (jsonResponse (JObj [("code", JStr "artifact_write_fenced");
                              ("error", JStr "Artifact write identity is no longer current")]) 410)
  | _ => r
  end.

(** * Bodies *)

(** What reading the body's stream yields, one read at a time. *)
Inductive BodyChunk : Type := chunk_bytes (bytes : list Z) | chunk_none | chunk_throws.
Record RequestBody : Type := mkBody {
  bd_contentLength : option string;
  bd_chunks : option (list BodyChunk);
}.
Inductive BodyError : Type := body_too_large | body_invalid.

Fixpoint readBodyChunks (maxBytes : Z) (read : list Z) (chunks : list BodyChunk) : result BodyError (list Z) :=
  match chunks with
  | [] => Ok read
  | chunk_none :: rest => readBodyChunks maxBytes read rest
  | chunk_throws :: _ => Err body_invalid
  | chunk_bytes bytes :: rest =>
      if maxBytes <? Z.of_nat (length (read ++ bytes)) then Err body_too_large
      else readBodyChunks maxBytes (read ++ bytes) rest
  end.
Definition declaredLength (header : option string) : option Z :=
  match header with Some h => if truthy h then digits_value 0 h else None | None => None end.

Section routes.
(** [JSON.parse] of the text of some bytes; [None] when it throws. *)
Variable decodeJson : list Z -> option json.

Definition parseBoundedJsonRequest (body : RequestBody) (maxBytes : Z) : result BodyError json :=
  if match declaredLength (bd_contentLength body) with Some n => maxBytes <? n | None => false end
  then Err body_too_large
  else match bd_chunks body with
       | None => Err body_invalid
       | Some chunks =>
           bytes <-? readBodyChunks maxBytes [] chunks;
           match decodeJson bytes with Some v => Ok v | None => Err body_invalid end
       end.
Definition bodyReply (payloadName : string) (e : BodyError) : Reply :=
  match e with
  | body_too_large => errorReply (payloadName +:+ " is too large") 413
  | body_invalid => errorReply "invalid json body" 400
  end.
Definition normalizeBoundedIdentifier (value : option json) (maxBytes : nat) : string :=
  match value with
  | Some (JStr s) => if (maxBytes <? utf8_length s)%nat then "" else trim s
  | _ => ""
  end.

(** * Beginning *)

Definition MAX_BEGIN_ARTIFACTS : nat := 1024.
Definition MAX_LEGACY_BEGIN_RETRY_ARTIFACTS : nat := 4096.
Definition MAX_BEGIN_REQUEST_BYTES : Z := 2 * 1024 * 1024.
Definition MAX_RUN_IDENTIFIER_BYTES : nat := 128.
Definition MAX_VM_NAME_BYTES : nat := 128.

Definition runBeginSuccessResponse (runVm : ResolvedRunVm) (progress : bool) : Reply :=
  jsonResponse (JObj ([("runId", JStr (rm_runId runVm)); ("vmName", JStr (rm_runtimeVmName runVm))]
                      ++ if progress then [("archiveProgressVersion", jint 1)] else [])) 200.

Definition beginOversized (runVm : ResolvedRunVm) (artifacts : list ArtifactInput) (progress : bool) : ArtifactReq Reply :=
  retry <-! inspectExistingArtifactManifestRetry runVm artifacts;
  match retry with
  | retry_exact allUploaded =>
      if rm_artifactWritesSealed runVm && negb allUploaded then return_ artifactWritesSealedResponse
      else if negb (rm_artifactWritesSealed runVm) then
        now <-- call Clock;
        _ <-! transitionRunVmToArchiving runVm now progress;
        return_ (runBeginSuccessResponse runVm progress)
      else return_ (runBeginSuccessResponse runVm progress)
  | retry_absent | retry_new_reservation => return_ (errorReply "invalid artifacts payload" 400)
  | retry_mismatch => return_ (errorReply "artifact manifest does not match existing upload" 409)
  end.
Definition beginSealed (runVm : ResolvedRunVm) (artifacts : list ArtifactInput) (progress : bool) : ArtifactReq Reply :=
  existing <-- loadArtifactStatesForRunVm runVm;
  if forallb (fun a => match atOrdinal existing (an_ordinal a) with
                       | Some s => src_uploaded s && artifactMetadataMatches s (an_metadata a)
                       | None => false
                       end) artifacts
  then return_ (runBeginSuccessResponse runVm progress)
  else return_ artifactWritesSealedResponse.
Definition beginNew (runVm : ResolvedRunVm) (artifacts : list ArtifactInput) (progress : bool) : ArtifactReq Reply :=
  now <-- call Clock;
  ensured <-! ensureArtifactStates runVm artifacts now;
  match ensured with
  | ensured_invalid => return_ (errorReply "invalid artifacts payload" 400)
  | ensured_conflict ordinal =>
      return_ (errorReply ("artifact " +:+ pretty ordinal +:+ " metadata does not match existing upload") 409)
  | ensured =>
      _ <-! transitionRunVmToArchiving runVm now progress;
      return_ (runBeginSuccessResponse runVm progress)
  end.

(** [body.artifacts ?? []]. *)
Definition artifactPayload (body : json) : json :=
  match field body "artifacts" with None | Some JNull => JArr [] | Some v => v end.
Definition handleBeginRunUpload (method : string) (verified : result Reply VerifiedAgentHost) (request : RequestBody)
  : ArtifactReq Reply :=
  if negb (method =s "POST") then return_ methodNotAllowed
  else match verified with
  | Err refusal => return_ refusal
  | Ok agent =>
      match parseBoundedJsonRequest request MAX_BEGIN_REQUEST_BYTES with
      | Err e => return_ (bodyReply "begin payload" e)
      | Ok body =>
          if negb (isRecord (Some body)) then return_ (errorReply "invalid json body" 400)
          else
            let runId := normalizeBoundedIdentifier (field body "runId") MAX_RUN_IDENTIFIER_BYTES in
            let vmName := normalizeBoundedIdentifier (field body "vmName") MAX_VM_NAME_BYTES in
            if negb (truthy runId) || negb (truthy vmName)
            then return_ (errorReply "runId and vmName are required" 400)
            else match artifactPayload body with
            | JArr items =>
                if (MAX_LEGACY_BEGIN_RETRY_ARTIFACTS <? length items)%nat
                then return_ (errorReply "invalid artifacts payload" 400)
                else match normalizeArtifactInputs (Some (JArr items)) MAX_LEGACY_BEGIN_RETRY_ARTIFACTS with
                | None => return_ (errorReply "invalid artifacts payload" 400)
                | Some artifacts =>
                    runVm <-! resolveRunVm agent runId vmName;
                    match runVm with
                    | None => return_ runPurgedResponse
                    | Some runVm =>
                        let progress := bool_decide (field body "archiveProgressVersion" = Some (jint 1)) in
                        if (MAX_BEGIN_ARTIFACTS <? length items)%nat then beginOversized runVm artifacts progress
                        else if rm_artifactWritesSealed runVm then beginSealed runVm artifacts progress
                        else beginNew runVm artifacts progress
                    end
                end
            | _ => return_ (errorReply "invalid artifacts payload" 400)
            end
      end
  end.

(** * Uploading *)

Definition requireVerifiedRunVm (verified : result Reply VerifiedAgentHost) (runId vmName : string) (allowSealed : bool)
  : ArtifactReq (result Reply ResolvedRunVm) :=
  match verified with
  | Err refusal => return_ (Err refusal)
  | Ok agent =>
      runVm <-! resolveRunVm agent runId vmName;
      match runVm with
      | None => return_ (Err runPurgedResponse)
      | Some runVm =>
          if rm_artifactWritesSealed runVm && negb allowSealed then return_ (Err artifactWritesSealedResponse)
          else return_ (Ok runVm)
      end
  end.

Definition artifactObjectMetadata (runVm : ResolvedRunVm) (row : ArtifactRow) : list (string * string) :=
  [("artifactId", aw_id row); ("executionId", rm_runId runVm); ("executionGeneration", pretty (rm_generation runVm));
   ("ownerId", rm_userId runVm); ("vmId", rm_vmId runVm); ("sha256", am_sha256 (aw_metadata row))].

(** An upload whose write was fenced is taken back. *)
Definition abortWhenFenced {A} (key uploadId : string) (r : result ArtifactError A) : ArtifactReq A :=
  match r with
  | Err ArtifactWriteFenced => _ <-- call (MultipartAbort key uploadId); Done r
  | _ => Done r
  end.
(** An empty artifact is stored at once. *)
Definition storeEmpty (runVm : ResolvedRunVm) (artifact : SourceArtifactState) (now : Z) : ArtifactReq unit :=
  let row := src_row artifact in
  _ <-! outside (BucketPut (aw_r2Key row) (am_contentType (aw_metadata row)) (artifactObjectMetadata runVm row));
  markArtifactUploaded runVm artifact now.

(** An upload that has an id. *)
Definition begunUpload (upload : option UploadRow) : option (string * UploadRow) :=
  match upload with
  | Some u => match uw_r2UploadId u with Some id => if truthy id then Some (id, u) else None | None => None end
  | None => None
  end.
Definition startMultipart (runVm : ResolvedRunVm) (artifact : SourceArtifactState) (now : Z) : ArtifactReq Reply :=
  let row := src_row artifact in
  upload <-- loadArtifactUploadState artifact;
  match begunUpload upload with
  | Some (_, u) => return_ (partsReply false (uw_nextExpectedPart u))
  | None =>
      uploadId <-! outside (MultipartCreate (aw_r2Key row) (am_contentType (aw_metadata row)) (artifactObjectMetadata runVm row));
      r <-- initializeArtifactUpload runVm artifact uploadId now;
      _ <-! abortWhenFenced (aw_r2Key row) uploadId r;
      return_ (partsReply false 1)
  end.
Definition handleMultipartBegin (method : string) (verified : result Reply VerifiedAgentHost) (runId vmName : string)
    (ordinal : Z) : ArtifactReq Reply :=
  if negb (method =s "POST") then return_ methodNotAllowed
  else
    resolved <-! requireVerifiedRunVm verified runId vmName true;
    match resolved with
    | Err refusal => return_ refusal
    | Ok runVm =>
        artifact <-- loadArtifactForRunVm runVm ordinal;
        match artifact with
        | None => return_ (errorReply "artifact not found" 404)
        | Some artifact =>
            if src_uploaded artifact then return_ (partsReply true 1)
            else if rm_artifactWritesSealed runVm then return_ artifactWritesSealedResponse
            else
              _ <-! artifactWriteBatch runVm [] false;
              now <-- call Clock;
              if am_sizeBytes (aw_metadata (src_row artifact)) =? 0 then
                _ <-! storeEmpty runVm artifact now;
                return_ (partsReply true 1)
              else startMultipart runVm artifact now
        end
    end.

Definition handleMultipartPart (method : string) (hasBody : bool) (verified : result Reply VerifiedAgentHost)
    (runId vmName : string) (ordinal partNumber : Z) : ArtifactReq Reply :=
  if negb (method =s "PUT") then return_ methodNotAllowed
  else if negb hasBody then return_ (errorReply "request body is required" 400)
  else
    resolved <-! requireVerifiedRunVm verified runId vmName false;
    match resolved with
    | Err refusal => return_ refusal
    | Ok runVm =>
        if rm_artifactWritesSealed runVm then return_ artifactWritesSealedResponse
        else
          artifact <-- loadArtifactForRunVm runVm ordinal;
          match artifact with
          | None => return_ (errorReply "artifact not found" 404)
          | Some artifact =>
              upload <-- loadArtifactUploadState artifact;
              match begunUpload upload with
              | None => return_ (errorReply "multipart upload not initialized" 409)
              | Some (uploadId, u) =>
                  if negb (partNumber =? uw_nextExpectedPart u)
                  then return_ (errorReply ("expected part " +:+ pretty (uw_nextExpectedPart u) +:+ ", got "
                                            +:+ pretty partNumber) 409)
                  else
                    let key := aw_r2Key (src_row artifact) in
                    _ <-! artifactWriteBatch runVm [] false;
                    etag <-! outside (MultipartPart key uploadId partNumber);
                    now <-- call Clock;
                    r <-- advanceArtifactUpload runVm artifact
                            (parseUploadedParts (uw_uploadedParts u) ++ [mkPart (NInt partNumber) etag]) (partNumber + 1) now;
                    _ <-! abortWhenFenced key uploadId r;
                    return_ (jsonResponse (JObj [("ok", JBool true); ("nextExpectedPart", jint (partNumber + 1))]) 200)
              end
          end
    end.

(** The stored object is the one the manifest promised. *)
Definition objectMatches (runVm : ResolvedRunVm) (row : ArtifactRow) (object : option StoredObject) : bool :=
  match object with
  | None => false
  | Some o =>
      (ob_key o =s aw_r2Key row) && (ob_size o =? am_sizeBytes (aw_metadata row))
      && bool_decide (ob_contentType o = Some (am_contentType (aw_metadata row)))
      && forallb (fun e => bool_decide (match ob_customMetadata o with Some m => Map_get (fst e) m | None => None end
                                        = Some (snd e))) (artifactObjectMetadata runVm row)
  end.
Definition completeMultipart (runVm : ResolvedRunVm) (artifact : SourceArtifactState) (uploadId : string)
    (parts : list UploadedPartRecord) (now : Z) : ArtifactReq bool :=
  let row := src_row artifact in
  object <-! outside (BucketHead (aw_r2Key row));
  object <-! (match object with
              | Some _ => return_ object
              | None =>
                  _ <-! outside (MultipartComplete (aw_r2Key row) uploadId parts);
                  outside (BucketHead (aw_r2Key row))
              end);
  if negb (objectMatches runVm row object) then return_ false
  else
    _ <-! markArtifactUploaded runVm artifact now;
    return_ true.
Definition handleArtifactComplete (method : string) (verified : result Reply VerifiedAgentHost) (runId vmName : string)
    (ordinal : Z) : ArtifactReq Reply :=
  if negb (method =s "POST") then return_ methodNotAllowed
  else
    resolved <-! requireVerifiedRunVm verified runId vmName true;
    match resolved with
    | Err refusal => return_ refusal
    | Ok runVm =>
        artifact <-- loadArtifactForRunVm runVm ordinal;
        match artifact with
        | None => return_ (errorReply "artifact not found" 404)
        | Some artifact =>
            if src_uploaded artifact then return_ uploadedReply
            else if rm_artifactWritesSealed runVm then return_ artifactWritesSealedResponse
            else
              _ <-! artifactWriteBatch runVm [] false;
              now <-- call Clock;
              if am_sizeBytes (aw_metadata (src_row artifact)) =? 0 then
                _ <-! storeEmpty runVm artifact now;
                return_ uploadedReply
              else
                upload <-- loadArtifactUploadState artifact;
                match begunUpload upload with
                | None => return_ (errorReply "multipart upload not initialized" 409)
                | Some (uploadId, u) =>
                    match parseUploadedParts (uw_uploadedParts u) with
                    | [] => return_ (errorReply "no uploaded parts recorded" 409)
                    | parts =>
                        r <-- completeMultipart runVm artifact uploadId parts now;
                        stored <-! abortWhenFenced (aw_r2Key (src_row artifact)) uploadId r;
                        if stored then return_ uploadedReply
                        else return_ (jsonResponse (JObj [("error", JStr "Stored artifact does not match this upload");
                                                          ("code", JStr "artifact_object_conflict")]) 409)
                    end
                end
        end
    end.

(** * Completing a VM *)

Definition completeRun (runVm : ResolvedRunVm) : ArtifactReq Reply :=
  now <-- call Clock;
  _ <-! transitionRunVmToCompleted runVm now;
  _ <-- call (ShareVmArchived (rm_domainId runVm) (rm_vmId runVm));
  return_ okReply.
Definition handleRunComplete (method : string) (verified : result Reply VerifiedAgentHost) (runId vmName : string)
  : ArtifactReq Reply :=
  if negb (method =s "POST") then return_ methodNotAllowed
  else
    resolved <-! requireVerifiedRunVm verified runId vmName true;
    match resolved with
    | Err refusal => return_ refusal
    | Ok runVm =>
        if rm_artifactWritesSealed runVm then completeRun runVm
        else
          artifacts <-- loadArtifactStatesForRunVm runVm;
          if existsb (fun a => negb (src_uploaded a)) artifacts
          then return_ (errorReply "all artifacts must be uploaded before completing the run" 409)
          else completeRun runVm
    end.

Definition isAgentArchiveStage (value : option json) : option AgentArchiveStage :=
  match value with
  | Some (JStr s) =>
      if s =s "raw_files_saved" then Some agent_raw_files_saved
      else if s =s "replay_prepared" then Some agent_replay_prepared
      else if s =s "replay_skipped" then Some agent_replay_skipped else None
  | _ => None
  end.
Definition handleRunArchiveStage (method : string) (verified : result Reply VerifiedAgentHost) (runId vmName : string)
    (body : option json) : ArtifactReq Reply :=
  if negb (method =s "POST") then return_ methodNotAllowed
  else
    resolved <-! requireVerifiedRunVm verified runId vmName true;
    match resolved with
    | Err refusal => return_ refusal
    | Ok runVm =>
        match body with
        | None => return_ (errorReply "invalid json body" 400)
        | Some JNull => throw (artifact_platform "TypeError")
        | Some b =>
            match isAgentArchiveStage (field b "stage") with
            | None => return_ (errorReply "invalid archive stage" 400)
            | Some stage =>
                now <-- call Clock;
                _ <-! advanceRunVmArchiveStage runVm (archiveStageRankForAgentStage stage) now;
                return_ okReply
            end
        end
    end.

(** * The timeline *)

Definition RUN_TIMELINE_VERSION : Z := 1.
Definition MAX_TIMELINE_SESSIONS : nat := 500.
Definition MAX_TRANSCRIPT_BYTES : Z := 1500000.
Definition MAX_TOTAL_TIMELINE_TRANSCRIPT_BYTES : Z := 4 * 1024 * 1024.
Definition MAX_TIMELINE_REQUEST_BYTES : Z := 9 * 1024 * 1024.
Definition MAX_D1_BOUND_PARAMETERS : nat := 100.
Definition TERMINAL_SESSION_COLUMNS_PER_ROW : nat := 11.
Definition SCENARIO_TRANSCRIPT_COLUMNS_PER_ROW : nat := 6.
Definition MAX_TERMINAL_SESSIONS_PER_STATEMENT : nat := MAX_D1_BOUND_PARAMETERS / TERMINAL_SESSION_COLUMNS_PER_ROW.
Definition MAX_SCENARIO_TRANSCRIPTS_PER_STATEMENT : nat := MAX_D1_BOUND_PARAMETERS / SCENARIO_TRANSCRIPT_COLUMNS_PER_ROW.

Record NormalizedTimelineSession : Type := mkTimelineSession {
  nt_entry : SessionTimelineEntry;
  nt_transcript : string;
}.
Record TimelineSessionWork : Type := mkTimelineWork {
  tk_session : NormalizedTimelineSession;
  tk_recordingArtifact : option SourceArtifactState;
}.

(** [input.castFilename?.trim() ?? ""]: throws on what is neither absent nor text. *)
Definition castFilenameOf (input : json) : result unit string :=
  match field input "castFilename" with
  | None | Some JNull => Ok ""
  | Some (JStr s) => Ok (trim s)
  | Some _ => Err ()
  end.
Definition safeInt (value : option json) : option Z := normalizeInteger value.
(** The exit code: [Some None] when it is absent. *)
Definition exitCodeOf (input : json) : option (option Z) :=
  match field input "exitCode" with
  | None | Some JNull => Some None
  | v => option_map Some (normalizeInteger v)
  end.
Definition timelineSession (offset : Z) (total : Z) (input : json) (castFilename : string) : option (NormalizedTimelineSession * Z) :=
  match safeInt (field input "index"), safeInt (field input "startTimestampMs"), safeInt (field input "durationMs"),
        field input "transcript", exitCodeOf input with
  | Some index, Some start, Some duration, Some (JStr transcript), Some exitCode =>
      let bytes := Z.of_nat (utf8_length transcript) in
      if (1 <=? index) && (index =? offset + 1) && (0 <=? duration) && truthy castFilename
         && (bytes <=? MAX_TRANSCRIPT_BYTES) && (total + bytes <=? MAX_TOTAL_TIMELINE_TRANSCRIPT_BYTES)
      then Some (mkTimelineSession
                   (mkSessionEntry index start duration exitCode castFilename None
                      (bool_decide (field input "transcriptTruncated" = Some (JBool true)))) transcript,
                 total + bytes)
      else None
  | _, _, _, _, _ => None
  end.
(** [Err] is a type error the code throws; [Ok None] a payload it refuses. *)
Fixpoint normalizeSessionsFrom (offset total : Z) (inputs : list json) : result unit (option (list NormalizedTimelineSession)) :=
  match inputs with
  | [] => Ok (Some [])
  | JNull :: _ => Err ()
  | input :: rest =>
      castFilename <-? castFilenameOf input;
      match timelineSession offset total input castFilename with
      | None => Ok None
      | Some (s, total') =>
          more <-? normalizeSessionsFrom (offset + 1) total' rest;
          Ok (option_map (cons s) more)
      end
  end.
Definition normalizeTimelineSessions (inputs : json) : result unit (option (list NormalizedTimelineSession)) :=
  match inputs with
  | JArr items => if (MAX_TIMELINE_SESSIONS <? length items)%nat then Ok None else normalizeSessionsFrom 0 0 items
  | _ => Ok None
  end.

Fixpoint chunkedFrom {A} (fuel size : nat) (values : list A) : list (list A) :=
  match fuel, values with
  | _, [] | O, _ => []
  | S fuel', _ => take size values :: chunkedFrom fuel' size (drop size values)
  end.
Definition chunked {A} (values : list A) (size : nat) : list (list A) := chunkedFrom (length values) size values.
Definition withinBudget (parameterCount : nat) : bool := (parameterCount <=? MAX_D1_BOUND_PARAMETERS)%nat.

Definition terminalSessionOf (runVm : ResolvedRunVm) (runtimeVmId : string) (now : Z) (w : TimelineSessionWork) : TerminalSessionRow :=
  let e := nt_entry (tk_session w) in
  mkSession (runtimeVmId +:+ ":session:" +:+ pretty (ses_index e)) (rm_runId runVm) runtimeVmId (ses_index e)
    (ses_startTimestampMs e) (fl (ses_startTimestampMs e + ses_durationMs e)) (ses_exitCode e)
    (match tk_recordingArtifact w with
     | Some (mkSource sk_runtime row) => Some (aw_id row)
     | _ => None
     end) now now.
(** [INSERT ... ON CONFLICT(runtime_vm_id, ordinal) DO UPDATE]; another row's
    primary key, a negative ordinal or a negative length fail. *)
Definition upsertSession (row : TerminalSessionRow) (rows : list TerminalSessionRow) : result ArchiveFault (list TerminalSessionRow) :=
  let same r := (tw_runtimeVmId r =s tw_runtimeVmId row) && (tw_ordinal r =? tw_ordinal row) in
  throw_if (tw_ordinal row <? 0) || (tw_endedAt row <? tw_startedAt row) with fault_check;
  if existsb same rows then
    Ok (update_where same (fun r => mkSession (tw_id r) (tw_executionId r) (tw_runtimeVmId r) (tw_ordinal r)
          (tw_startedAt row) (tw_endedAt row) (tw_exitCode row) (tw_recordingArtifactId row) (tw_createdAt r)
          (tw_updatedAt row)) rows)
  else
    throw_if existsb (fun r => tw_id r =s tw_id row) rows with fault_unique;
    Ok (rows ++ [row]).
Definition upsertTranscript (row : TranscriptRow) (rows : list TranscriptRow) : result ArchiveFault (list TranscriptRow) :=
  let same r := (sw_runId r =s sw_runId row) && (sw_vmId r =s sw_vmId row) && (sw_sessionIndex r =? sw_sessionIndex row) in
  if existsb same rows then
    Ok (update_where same (fun r => mkTranscript (sw_id r) (sw_runId r) (sw_vmId r) (sw_sessionIndex r)
          (sw_transcript row) (sw_createdAt r)) rows)
  else
    throw_if existsb (fun r => sw_id r =s sw_id row) rows with fault_unique;
    Ok (rows ++ [row]).
Fixpoint upsert_all {R} (upsert : R -> list R -> result ArchiveFault (list R)) (new rows : list R) : result ArchiveFault (list R) :=
  match new with
  | [] => Ok rows
  | r :: rest => rows' <-? upsert r rows; upsert_all upsert rest rows'
  end.
Definition terminalSessionStatement (rows : list TerminalSessionRow) : AStmt := fun x =>
  s <-? upsert_all upsertSession rows (xd_sessions x); Ok (set_timelines x s (xd_transcripts x)).
Definition transcriptStatement (rows : list TranscriptRow) : AStmt := fun x =>
  s <-? upsert_all upsertTranscript rows (xd_transcripts x); Ok (set_timelines x (xd_sessions x) s).

(** Statements of one group each, [None] when a group would bind too much. *)
Fixpoint groupStatements {R} (columns : nat) (statement : list R -> AStmt) (groups : list (list R)) : option (list AStmt) :=
  match groups with
  | [] => Some []
  | g :: rest =>
      if withinBudget (columns * length g) then option_map (cons (statement g)) (groupStatements columns statement rest)
      else None
  end.
Definition buildRuntimeTerminalSessionStatements (runVm : ResolvedRunVm) (runtimeVmId : string) (work : list TimelineSessionWork)
    (now : Z) : option (list AStmt) :=
  groupStatements TERMINAL_SESSION_COLUMNS_PER_ROW terminalSessionStatement
    (chunked (map (terminalSessionOf runVm runtimeVmId now) work) MAX_TERMINAL_SESSIONS_PER_STATEMENT).
Definition transcriptOf (runVm : ResolvedRunVm) (now : Z) (w : TimelineSessionWork) : TranscriptRow :=
  let index := ses_index (nt_entry (tk_session w)) in
  mkTranscript (rm_vmId runVm +:+ ":session:" +:+ pretty index) (rm_domainId runVm) (rm_vmId runVm) index
    (nt_transcript (tk_session w)) now.
Definition buildScenarioTranscriptStatements (runVm : ResolvedRunVm) (work : list TimelineSessionWork) (now : Z)
  : option (list AStmt) :=
  groupStatements SCENARIO_TRANSCRIPT_COLUMNS_PER_ROW transcriptStatement
    (chunked (map (transcriptOf runVm now) work) MAX_SCENARIO_TRANSCRIPTS_PER_STATEMENT).

(** The run exists and its document names the VM. *)
Definition scenarioTimelineTargetExists (runId vmId : string) (x : ArchiveDb) : bool :=
  existsb (fun r => (sr_runId r =s runId)
    && match sr_stateJson r with Some d => existsb (fun vm => vm_id vm =s vmId) (run_vms d) | None => false end)
    (db_runs (xd_store x)).
(** The row that the check on ordinals refuses, when there is no target. *)
Definition scenarioTimelineTargetGuard (runVm : ResolvedRunVm) : AStmt := fun x =>
  if scenarioTimelineTargetExists (rm_domainId runVm) (rm_vmId runVm) x then Ok x
  else
    rows <-? insertRuntimeArtifact
               (mkArtifactRow "__scenario_timeline_target_missing__" (rm_runId runVm) (contextVm runVm) (-1)
                  (mkMetadata "scenario_timeline_guard" "scenario_timeline_guard" "application/octet-stream" 0
                     "0000000000000000000000000000000000000000000000000000000000000000")
                  "__scenario_timeline_target_missing__" us_pending 0 None) (xd_runtime x);
    Ok (set_ledgers x rows (xd_runtimeUploads x) (xd_scenario x) (xd_scenarioUploads x)).
(** [json_set] on the first VM of that id. *)
Fixpoint setTimeline (vmId : string) (timeline : list SessionTimelineEntry) (vms : list RunVmStateDocument)
  : list RunVmStateDocument :=
  match vms with
  | [] => []
  | vm :: rest => if vm_id vm =s vmId then with_timeline vm (Some timeline) :: rest
                  else vm :: setTimeline vmId timeline rest
  end.
Definition scenarioTimelineStateUpdate (runVm : ResolvedRunVm) (timeline : list SessionTimelineEntry) (now : Z) : AStmt :=
  fun x =>
  on_store (fun db => Ok (updateRuns
    (fun r => (sr_runId r =s rm_domainId runVm) && scenarioTimelineTargetExists (rm_domainId runVm) (rm_vmId runVm) x)
    (fun r => with_document (option_map (fun d => with_vms d (setTimeline (rm_vmId runVm) timeline (run_vms d)))
                               (sr_stateJson r)) now r) db)) x.

Definition timelineStatements (runVm : ResolvedRunVm) (work : list TimelineSessionWork) (timeline : list SessionTimelineEntry)
    (now : Z) : option (list AStmt) :=
  sessions ← (if truthy_opt (rm_runtimeVmId runVm)
              then buildRuntimeTerminalSessionStatements runVm (contextVm runVm) work now else Some []);
  transcripts ← buildScenarioTranscriptStatements runVm work now;
  Some ([scenarioTimelineTargetGuard runVm] ++ sessions ++ transcripts ++ [scenarioTimelineStateUpdate runVm timeline now]).
(** [true] when it is published, [false] when its target is gone. *)
Definition publishTimelineAtomically (runVm : ResolvedRunVm) (work : list TimelineSessionWork)
    (timeline : list SessionTimelineEntry) (now : Z) : ArtifactReq bool :=
  match timelineStatements runVm work timeline now with
  | None => throw (artifact_invalid "D1 parameter budget exceeded")
  | Some statements =>
      if (90 <? length statements)%nat then throw (artifact_invalid "timeline publication statement budget exceeded")
      else
        r <-- artifactWriteBatch runVm statements false;
        match r with
        | Ok _ => return_ true
        | Err e =>
            exists_ <-- query (scenarioTimelineTargetExists (rm_domainId runVm) (rm_vmId runVm));
            if exists_ then throw e else return_ false
        end
  end.

Definition with_cast (s : NormalizedTimelineSession) (id : string) : NormalizedTimelineSession :=
  let e := nt_entry s in
  mkTimelineSession (mkSessionEntry (ses_index e) (ses_startTimestampMs e) (ses_durationMs e) (ses_exitCode e)
    (ses_castFilename e) (Some id) (ses_transcriptTruncated e)) (nt_transcript s).
(** The cast of a session: the last recorded segment of its file name. *)
Definition castOf (rows : list SourceArtifactState) (s : NormalizedTimelineSession) : option SourceArtifactState :=
  last (List.filter (fun a => (am_kind (aw_metadata (src_row a)) =s "ssh_recording_segment")
                              && (am_filename (aw_metadata (src_row a)) =s ses_castFilename (nt_entry s))) rows).
Fixpoint resolveCasts (rows : list SourceArtifactState) (sessions : list NormalizedTimelineSession)
  : option (list TimelineSessionWork) :=
  match sessions with
  | [] => Some []
  | s :: rest =>
      cast ← castOf rows s;
      if negb (src_uploaded cast) then None
      else
        more ← resolveCasts rows rest;
        Some (mkTimelineWork (with_cast s (aw_id (src_row cast)))
                (last (List.filter (fun a => aw_id (src_row a) =s aw_id (src_row cast)) rows)) :: more)
  end.
Definition shareSessions (work : list TimelineSessionWork) : list (Z * Z * string) :=
  omap (fun w => option_map (fun a => (ses_startTimestampMs (nt_entry (tk_session w)), ses_durationMs (nt_entry (tk_session w)),
                                       aw_r2Key (src_row a))) (tk_recordingArtifact w)) work.

Definition publishTimeline (runVm : ResolvedRunVm) (sessions : list NormalizedTimelineSession) : ArtifactReq Reply :=
  rows <-- loadArtifactStatesForRunVm runVm;
  match resolveCasts rows sessions with
  | None => return_ (errorReply "timeline cast artifact is not uploaded" 409)
  | Some work =>
      now <-- call Clock;
      published <-! publishTimelineAtomically runVm work (map (fun w => nt_entry (tk_session w)) work) now;
      if negb published then return_ runPurgedResponse
      else
        _ <-- call (ShareRecording (rm_domainId runVm) (rm_vmId runVm) (shareSessions work));
        return_ okReply
  end.
Definition handleRunTimeline (method : string) (verified : result Reply VerifiedAgentHost) (runId vmName : string)
    (request : RequestBody) : ArtifactReq Reply :=
  if negb (method =s "POST") then return_ methodNotAllowed
  else
    resolved <-! requireVerifiedRunVm verified runId vmName false;
    match resolved with
    | Err refusal => return_ refusal
    | Ok runVm =>
        if rm_artifactWritesSealed runVm then return_ artifactWritesSealedResponse
        else match parseBoundedJsonRequest request MAX_TIMELINE_REQUEST_BYTES with
        | Err e => return_ (bodyReply "timeline payload" e)
        | Ok body =>
            if negb (isRecord (Some body)) then return_ (errorReply "invalid json body" 400)
            else if negb (bool_decide (field body "version" = Some (jint RUN_TIMELINE_VERSION)))
            then return_ (errorReply "unsupported timeline version" 400)
            else match normalizeTimelineSessions
                         (match field body "sessions" with None | Some JNull => JArr [] | Some v => v end) with
            | Err _ => throw (artifact_platform "TypeError")
            | Ok None => return_ (errorReply "invalid timeline payload" 400)
            | Ok (Some sessions) => publishTimeline runVm sessions
            end
        end
    end.
End routes.
