(* ===== verification/ArtifactChanges.v ===== *)
(** What one statement, and one transaction, of [ArtifactStore] and
    [ArtifactRoutes] may change of the archive.

    The identity of a VM never changes: [vmOf] is the execution and the VM that a
    runtime VM was made for, [domainOf] the run of an execution, and VM ids are
    not shared. The invariant says that the two ledgers list the same artifacts,
    that a sealed VM has only stored ones, and that the recorded parts of an
    upload are consecutive; a permitted change never moves a seal, a stage or a
    stored artifact back, and leaves a sealed VM's rows alone. *)
From stdpp Require Import base list strings pretty relations.
From Stdlib Require Import ZArith Lia Ascii.
From S2P Require Import Prelude Json Text RunState RunLifecycle RunView Store RuntimeExecutions RunProjection Tar RegistryKeys Access Requests ArtifactStore ArtifactRoutes.

Open Scope string_scope.
Open Scope list_scope.
Open Scope Z_scope.

(** * Tables *)

Lemma filter_update_where_in {A} (q p : A -> bool) f (l : list A) :
  (forall r, In r l -> p r = true -> q r = false /\ q (f r) = false) ->
  List.filter q (update_where p f l) = List.filter q l.
Proof.
  unfold update_where. induction l as [|r l IH]; intros H; cbn; [done|]. rewrite IH; [|intros; apply H; [by right|done]].
  destruct (p r) eqn:E; [|done]. destruct (H r (or_introl eq_refl) E) as [-> ->]. done.
Qed.
Lemma filter_update_where {A} (q p : A -> bool) f (l : list A) :
  (forall r, p r = true -> q r = false /\ q (f r) = false) ->
  List.filter q (update_where p f l) = List.filter q l.
Proof. intros H. apply filter_update_where_in. auto. Qed.

Lemma filter_app_none {A} (q : A -> bool) (l new : list A) :
  (forall r, In r new -> q r = false) -> List.filter q (l ++ new) = List.filter q l.
Proof.
  intros H. rewrite List.filter_app. enough (List.filter q new = []) as -> by apply app_nil_r.
  induction new as [|r new IH]; cbn; [done|]. rewrite (H r), IH; [done| |by left]. intros; apply H. by right.
Qed.

Lemma Forall2_In_r {A B} (P : A -> B -> Prop) l l' b : Forall2 P l l' -> In b l' -> exists a, In a l /\ P a b.
Proof. induction 1 as [|x y l l' H _ IH]; cbn; [done|]. intros [<-|Hin]; [eauto|]. destruct (IH Hin) as (a & ? & ?). eauto. Qed.

Lemma artifactIdFor_inj vm vm' o o' : artifactIdFor vm o = artifactIdFor vm' o' -> vm = vm'.
Proof.
  unfold artifactIdFor. intros H.
  assert (Hs : forall v (z : Z), split_last ":" (v +:+ ":" +:+ pretty z) = Some (v, pretty z)).
  { intros v z. apply (split_last_app ":" v (pretty z)). by apply pretty_free. }
  pose proof (f_equal (split_last ":") H) as E. rewrite !Hs in E. by injection E.
Qed.

(** * The archive's changes *)

Section identity.
Variable domainOf : string -> string.
Variable vmOf : string -> string * string.

(** The identities of executions and VMs are the ones they were made with. *)
Record identities (db : Db) : Prop := mk_identities {
  id_executions : Forall (fun e => domainOf (re_id e) = re_domainId e) (db_executions db);
  id_vms : Forall (fun v => vmOf (rv_id v) = (rv_executionId v, rv_vmId v) /\ rv_id v <> "") (db_vms db);
}.

Definition isSealed (x : ArchiveDb) (w : string) : bool := va_artifactWritesSealed (vmArchive x w).
Definition ofRuntime (w : string) (r : ArtifactRow) : bool := aw_vm r =s w.
Definition ofScenario (w : string) (r : ArtifactRow) : bool := aw_vm r =s snd (vmOf w).
Definition stored (r : ArtifactRow) : Prop := aw_uploadStatus r = us_uploaded.

(** The rows a VM has in the ledgers, the sessions and the transcripts. *)
Record frozen (w : string) (x x' : ArchiveDb) : Prop := mk_frozen {
  fz_runtime : List.filter (ofRuntime w) (xd_runtime x') = List.filter (ofRuntime w) (xd_runtime x);
  fz_scenario : List.filter (ofScenario w) (xd_scenario x') = List.filter (ofScenario w) (xd_scenario x);
  fz_sessions : List.filter (fun t => tw_runtimeVmId t =s w) (xd_sessions x')
                = List.filter (fun t => tw_runtimeVmId t =s w) (xd_sessions x);
  fz_transcripts : List.filter (fun t => sw_vmId t =s snd (vmOf w)) (xd_transcripts x')
                   = List.filter (fun t => sw_vmId t =s snd (vmOf w)) (xd_transcripts x);
}.

Definition rank_le (a b : option Z) : Prop :=
  match a, b with None, _ => True | Some r, Some r' => r <= r' | Some _, None => False end.
Definition archive_le (a b : VmArchive) : Prop :=
  (va_artifactWritesSealed a = true -> va_artifactWritesSealed b = true)
  /\ rank_le (va_archiveStageRank a) (va_archiveStageRank b).

(** The same artifact, perhaps stored since. *)
Definition row_le (r r' : ArtifactRow) : Prop :=
  (aw_id r, aw_owner r, aw_vm r, aw_ordinal r, aw_metadata r, aw_r2Key r, aw_createdAt r)
  = (aw_id r', aw_owner r', aw_vm r', aw_ordinal r', aw_metadata r', aw_r2Key r', aw_createdAt r')
  /\ (stored r -> stored r').
Definition ledger_le (rows rows' : list ArtifactRow) : Prop :=
  exists kept new, rows' = kept ++ new /\ Forall2 row_le rows kept.

Record archive_step (x x' : ArchiveDb) : Prop := mk_archive_step {
  as_archives : forall w, archive_le (vmArchive x w) (vmArchive x' w);
  as_frozen : forall w, isSealed x w = true -> frozen w x x';
  as_runtime : ledger_le (xd_runtime x) (xd_runtime x');
  as_scenario : ledger_le (xd_scenario x) (xd_scenario x');
}.

(** ** The invariant *)

(** A row of the one ledger and its counterpart in the other. *)
Definition twins (r s : ArtifactRow) : Prop :=
  (aw_id r, aw_ordinal r, aw_metadata r, aw_r2Key r, aw_createdAt r)
  = (aw_id s, aw_ordinal s, aw_metadata s, aw_r2Key s, aw_createdAt s)
  /\ domainOf (aw_owner r) = aw_owner s /\ vmOf (aw_vm r) = (aw_owner r, aw_vm s)
  /\ aw_id s = artifactIdFor (aw_vm s) (aw_ordinal s)
  /\ (stored r -> stored s).

(** The parts of an upload are the first ones, in order. *)
Definition consecutiveParts (parts : list UploadedPartRecord) : Prop :=
  map pt_partNumber parts = map (fun i => NInt (Z.of_nat i)) (seq 1 (length parts)).
Definition upload_ok (u : UploadRow) : Prop :=
  let parts := parseUploadedParts (uw_uploadedParts u) in
  consecutiveParts parts /\ uw_nextExpectedPart u = Z.of_nat (length parts) + 1.

Record archive_ok (x : ArchiveDb) : Prop := mk_archive_ok {
  ao_identities : identities (xd_store x);
  ao_ledgers : Forall2 twins (xd_runtime x) (xd_scenario x);
  ao_sealed : forall w r, isSealed x w = true -> In r (xd_runtime x) -> aw_vm r = w -> stored r;
  ao_runtimeUploads : Forall upload_ok (xd_runtimeUploads x);
  ao_scenarioUploads : Forall upload_ok (xd_scenarioUploads x);
}.

(** Everything else may change the rest of the database, identities excepted. *)
Record elsewhere (x x' : ArchiveDb) : Prop := mk_elsewhere {
  el_identities : identities (xd_store x) -> identities (xd_store x');
  el_vms : xd_vms x' = xd_vms x;
  el_runtime : xd_runtime x' = xd_runtime x;
  el_runtimeUploads : xd_runtimeUploads x' = xd_runtimeUploads x;
  el_scenario : xd_scenario x' = xd_scenario x;
  el_scenarioUploads : xd_scenarioUploads x' = xd_scenarioUploads x;
  el_sessions : xd_sessions x' = xd_sessions x;
  el_transcripts : xd_transcripts x' = xd_transcripts x;
}.

(** ** Orders *)

Lemma rank_le_refl a : rank_le a a.
Proof. destruct a; cbn; [lia|done]. Qed.
Lemma rank_le_trans a b c : rank_le a b -> rank_le b c -> rank_le a c.
Proof. destruct a, b, c; cbn; try done. lia. Qed.
Lemma archive_le_refl a : archive_le a a.
Proof. split; [done|apply rank_le_refl]. Qed.
Lemma archive_le_trans a b c : archive_le a b -> archive_le b c -> archive_le a c.
Proof. intros [? ?] [? ?]. split; [auto|by eapply rank_le_trans]. Qed.

Lemma row_le_refl r : row_le r r.
Proof. by split. Qed.
Lemma row_le_trans a b c : row_le a b -> row_le b c -> row_le a c.
Proof. intros [E ?] [E' ?]. split; [by rewrite E|auto]. Qed.
Lemma ledger_le_app l new : ledger_le l (l ++ new).
Proof. exists l, new. split; [done|]. induction l; constructor; auto using row_le_refl. Qed.
Lemma ledger_le_refl l : ledger_le l l.
Proof. rewrite <- (app_nil_r l) at 2. apply ledger_le_app. Qed.
Lemma ledger_le_trans a b c : ledger_le a b -> ledger_le b c -> ledger_le a c.
Proof.
  intros (k & n & -> & Hk) (k' & n' & -> & Hk'). apply Forall2_app_inv_l in Hk' as (k1 & k2 & Hk1 & _ & ->).
  exists k1, (k2 ++ n'). rewrite app_assoc. split; [done|]. revert k1 Hk1. induction Hk; intros k1 Hk1; inversion Hk1; subst;
    constructor; [by eapply row_le_trans|auto].
Qed.
Lemma ledger_le_update p f l : (forall r, row_le r (f r)) -> ledger_le l (update_where p f l).
Proof.
  intros Hf. exists (update_where p f l), []. split; [by rewrite app_nil_r|]. unfold update_where.
  induction l as [|r l IH]; cbn; constructor; [|done]. destruct (p r); [done|apply row_le_refl].
Qed.

Lemma frozen_refl w x : frozen w x x.
Proof. done. Qed.
Lemma frozen_trans w a b c : frozen w a b -> frozen w b c -> frozen w a c.
Proof. intros [] []. constructor; congruence. Qed.

Lemma archive_step_refl x : archive_step x x.
Proof. constructor; intros; auto using archive_le_refl, frozen_refl, ledger_le_refl. Qed.
Lemma archive_step_trans a b c : archive_step a b -> archive_step b c -> archive_step a c.
Proof.
  intros [Ha Hf Hr Hs] [Ha' Hf' Hr' Hs']. constructor.
  - intros w. by eapply archive_le_trans.
  - intros w Hw. eapply frozen_trans; [by apply Hf|]. apply Hf'. by apply (Ha w).
  - by eapply ledger_le_trans.
  - by eapply ledger_le_trans.
Qed.

(** * Statements *)

(** The VM a request is about. *)
Record about (rv : string) (runVm : ResolvedRunVm) : Prop := mk_about {
  ab_runtimeVm : rm_runtimeVmId runVm = Some rv;
  ab_vm : vmOf rv = (rm_runId runVm, rm_vmId runVm);
  ab_domain : domainOf (rm_runId runVm) = rm_domainId runVm;
  ab_named : rv <> "";
}.

(** Changes of the archive columns of one VM, and of what is elsewhere. *)
Record archives (rv : string) (x x' : ArchiveDb) : Prop := mk_archives {
  ar_identities : identities (xd_store x) -> identities (xd_store x');
  ar_tables : (xd_runtime x', xd_runtimeUploads x', xd_scenario x', xd_scenarioUploads x', xd_sessions x', xd_transcripts x')
              = (xd_runtime x, xd_runtimeUploads x, xd_scenario x, xd_scenarioUploads x, xd_sessions x, xd_transcripts x);
  ar_others : forall w, w <> rv -> vmArchive x' w = vmArchive x w;
  ar_this : archive_le (vmArchive x rv) (vmArchive x' rv);
}.

(** The ids of the rows name their VMs. *)
Definition ids_ok (x : ArchiveDb) : Prop :=
  Forall (fun r => aw_id r = artifactIdFor (snd (vmOf (aw_vm r))) (aw_ordinal r)) (xd_runtime x)
  /\ Forall (fun r => aw_id r = artifactIdFor (aw_vm r) (aw_ordinal r)) (xd_scenario x).
Definition uploads_ok (x : ArchiveDb) : Prop :=
  Forall upload_ok (xd_runtimeUploads x) /\ Forall upload_ok (xd_scenarioUploads x).

(** Changes of one unsealed VM. *)
Record within (rv : string) (x x' : ArchiveDb) : Prop := mk_within {
  wi_identities : identities (xd_store x) -> identities (xd_store x');
  wi_ids : ids_ok x';
  wi_uploads : uploads_ok x -> uploads_ok x';
  wi_others : forall w, w <> rv -> vmArchive x' w = vmArchive x w /\ frozen w x x';
  wi_this : archive_le (vmArchive x rv) (vmArchive x' rv);
  wi_unsealed : isSealed x' rv = isSealed x rv;
  wi_runtime : ledger_le (xd_runtime x) (xd_runtime x');
  wi_scenario : ledger_le (xd_scenario x) (xd_scenario x');
}.

Lemma vmArchive_same x x' w : xd_vms x' = xd_vms x -> vmArchive x' w = vmArchive x w.
Proof. unfold vmArchive. by intros ->. Qed.

Lemma elsewhere_refl x : elsewhere x x.
Proof. done. Qed.
Lemma elsewhere_archives rv x x' : elsewhere x x' -> archives rv x x'.
Proof.
  intros []. constructor; [done|congruence| |].
  - intros w _. by apply vmArchive_same.
  - rewrite (vmArchive_same x x'); [apply archive_le_refl|done].
Qed.
Lemma archives_refl rv x : archives rv x x.
Proof. apply elsewhere_archives, elsewhere_refl. Qed.
Lemma archives_trans rv a b c : archives rv a b -> archives rv b c -> archives rv a c.
Proof.
  intros [H1 H2 H3 H4] [H1' H2' H3' H4']. constructor; [auto|congruence| |by eapply archive_le_trans].
  intros w Hw. by rewrite H3', H3.
Qed.

Lemma archives_within rv x x' : archives rv x x' -> isSealed x' rv = isSealed x rv -> ids_ok x -> within rv x x'.
Proof.
  intros [H1 H2 H3 H4] Hs Hi. injection H2 as E1 E2 E3 E4 E5 E6.
  constructor; unfold ids_ok, uploads_ok in *; rewrite ?E1, ?E2, ?E3, ?E4; try done.
  - intros w Hw. split; [auto|]. constructor; by rewrite ?E1, ?E3, ?E5, ?E6.
  - apply ledger_le_refl.
  - apply ledger_le_refl.
Qed.
Lemma elsewhere_within rv x x' : elsewhere x x' -> ids_ok x -> within rv x x'.
Proof.
  intros He Hi. apply archives_within; [by apply elsewhere_archives| |done].
  unfold isSealed. rewrite (vmArchive_same x x'); [done|apply He].
Qed.
Lemma within_trans rv a b c : within rv a b -> within rv b c -> within rv a c.
Proof.
  intros [H1 H2 H3 H4 H5 H6 H7 H8] [H1' H2' H3' H4' H5' H6' H7' H8'].
  constructor; eauto using archive_le_trans, ledger_le_trans.
  intros w Hw. destruct (H4 w Hw) as [E F], (H4' w Hw) as [E' F']. split; [congruence|by eapply frozen_trans].
Qed.

(** A statement makes only certain changes. *)
Definition changes (R : ArchiveDb -> ArchiveDb -> Prop) (s : AStmt) : Prop := forall x x', s x = Ok x' -> R x x'.
Definition writes (rv : string) (s : AStmt) : Prop := forall x x', ids_ok x -> s x = Ok x' -> within rv x x'.

Lemma archive_batch_app a b x x' :
  archive_batch (a ++ b) x = Ok x' -> exists m, archive_batch a x = Ok m /\ archive_batch b m = Ok x'.
Proof.
  revert x. induction a as [|s a IH]; intros x; cbn; [eauto|]. destruct (s x); cbn; [apply IH|done].
Qed.
Lemma batch_changes R stmts x x' :
  (forall a, R a a) -> (forall a b c, R a b -> R b c -> R a c) ->
  Forall (changes R) stmts -> archive_batch stmts x = Ok x' -> R x x'.
Proof.
  intros Hr Ht Hs. revert x. induction Hs as [|s stmts H _ IH]; intros x; cbn; [intros [= ->]; auto|].
  destruct (s x) as [m|] eqn:E; cbn; [|done]. intros Hb. eauto.
Qed.
Lemma batch_writes rv stmts x x' :
  Forall (writes rv) stmts -> ids_ok x -> archive_batch stmts x = Ok x' -> within rv x x'.
Proof.
  intros Hs. revert x. induction Hs as [|s stmts H _ IH]; intros x Hi; cbn; [intros [= ->]; by apply elsewhere_within|].
  destruct (s x) as [m|] eqn:E; cbn; [|done]. intros Hb. specialize (H _ _ Hi E).
  eapply within_trans; [exact H|]. apply IH; [apply H|done].
Qed.
Lemma changes_writes rv s : changes elsewhere s -> writes rv s.
Proof. intros H x x' Hi Hs. by apply elsewhere_within; [apply H|]. Qed.
Lemma changes_archives rv s : changes elsewhere s -> changes (archives rv) s.
Proof. intros H x x' Hs. by apply elsewhere_archives, H. Qed.

(** ** Guards *)

Definition guarding (s : AStmt) : Prop := forall x x', s x = Ok x' -> x' = x.
Lemma guarding_elsewhere s : guarding s -> changes elsewhere s.
Proof. intros H x x' Hs. by rewrite (H _ _ Hs). Qed.

Lemma writeGuard_guarding runVm b now : guarding (artifactWriteGuard runVm b now).
Proof. intros x x' H. unfold artifactWriteGuard in H. repeat case_match; by simplify_eq. Qed.
Lemma stateGuard_guarding runId d : guarding (artifactRunStateGuard runId d).
Proof. intros x x' H. unfold artifactRunStateGuard in H. case_match; by simplify_eq. Qed.
Lemma uploadedGuard_guarding runVm : guarding (allUploadedGuard runVm).
Proof. intros x x' H. unfold allUploadedGuard in H. case_match; by simplify_eq. Qed.
Lemma conflictGuard_guarding runVm manifest : guarding (artifactManifestConflictGuard runVm manifest).
Proof. intros x x' H. unfold artifactManifestConflictGuard in H. case_match; by simplify_eq. Qed.
Lemma timelineGuard_guarding runVm : guarding (scenarioTimelineTargetGuard runVm).
Proof. intros x x' H. unfold scenarioTimelineTargetGuard in H. case_match; by simplify_eq. Qed.

(** ** Statements on runs and executions *)

Lemma store_elsewhere (s : Stmt) :
  (forall db db' n, identities db -> s db = Ok (db', n) -> identities db') -> changes elsewhere (on_store s).
Proof.
  intros H x x' Hs. unfold on_store in Hs. destruct (s (xd_store x)) as [[db n]|] eqn:E; simplify_eq.
  constructor; cbn; [|done..]. intros Hi. by eapply H.
Qed.
Lemma runs_elsewhere p f : changes elsewhere (on_store (fun db => Ok (updateRuns p f db))).
Proof. apply store_elsewhere. intros db db' n Hi [= <- _]. by destruct Hi. Qed.
Lemma executions_identities p f db :
  (forall e, re_id (f e) = re_id e /\ re_domainId (f e) = re_domainId e) ->
  identities db -> identities (fst (updateExecutions p f db)).
Proof.
  intros Hf [He Hv]. constructor; cbn; [|done]. unfold update_where. apply Forall_map.
  eapply Forall_impl; [exact He|]. intros e H. cbn. destruct (p e); [|done]. by destruct (Hf e) as [-> ->].
Qed.
Lemma executions_elsewhere p f :
  (forall e, re_id (f e) = re_id e /\ re_domainId (f e) = re_domainId e) ->
  changes elsewhere (on_store (fun db => Ok (updateExecutions p f db))).
Proof. intros Hf. apply store_elsewhere. intros db db' n Hi [= <- _]. by apply (executions_identities p f). Qed.
Lemma insertSlot_identities rows db db' n : insert_all insertSlot rows db = Ok (db', n) -> identities db -> identities db'.
Proof.
  intros H Hi. revert H. apply (insert_all_invariant identities); [|done]. intros r d d' _ [? ?] H.
  unfold insertSlot in H. case_match; simplify_eq. by constructor.
Qed.
Lemma projection_elsewhere runId s :
  In s (map on_store (scenarioRunRuntimeProjectionStatements runId mode_update)) -> changes elsewhere s.
Proof.
  cbn [scenarioRunRuntimeProjectionStatements app map In]. intros [<-|[<-|[<-|[]]]]; apply store_elsewhere; intros db db' n Hi H.
  - unfold projectExecution in H. destruct (findRun db runId) as [run|]; [|by simplify_eq].
    injection H as <- _. by apply executions_identities.
  - unfold releaseInactiveSlot in H. simplify_eq. by destruct Hi.
  - unfold claimActiveSlot in H. by eapply insertSlot_identities.
Qed.
Lemma courseCompletion_elsewhere runId now : changes elsewhere (courseCompletionStatement runId now).
Proof. intros x x' [= <-]. done. Qed.

(** ** Statements on the VM *)

Lemma updateVmArchive_archives rv executionId p f now :
  (forall a, p a = true -> archive_le a (f a)) -> changes (archives rv) (updateVmArchive rv executionId p f now).
Proof.
  intros Hf x x' H. unfold updateVmArchive in H. destruct (existsb _ _) eqn:E; [|simplify_eq; apply archives_refl].
  simplify_eq. constructor; [|done| |].
  - intros [He Hv]. constructor; cbn; [done|]. unfold update_where. apply Forall_map.
    eapply Forall_impl; [exact Hv|]. intros v Hw. cbn. by destruct (_ && _).
  - intros w Hw. unfold vmArchive. cbn. by rewrite Map_get_set_ne.
  - apply existsb_In in E as (v & _ & E). apply andb_prop in E as [E Hp]. apply andb_prop in E as [E _].
    apply String.eqb_eq in E. rewrite E in Hp. unfold vmArchive at 2. cbn. rewrite Map_get_set_eq. cbn. by apply Hf.
Qed.
Lemma updateVmArchive_sealed rv executionId p f now x x' :
  (forall a, va_artifactWritesSealed (f a) = va_artifactWritesSealed a) ->
  updateVmArchive rv executionId p f now x = Ok x' -> isSealed x' rv = isSealed x rv.
Proof.
  intros Hf H. unfold updateVmArchive in H. case_match; simplify_eq; [|done].
  unfold isSealed, vmArchive at 1. cbn. rewrite Map_get_set_eq. cbn. apply Hf.
Qed.

(** ** Statements on the ledgers *)

Lemma insert_rows_app insert new rows rows' :
  (forall r l l', insert r l = Ok l' -> l' = l ++ [r]) -> insert_rows insert new rows = Ok rows' -> rows' = rows ++ new.
Proof.
  intros Hi. revert rows. induction new as [|r new IH]; intros rows; cbn; [intros [= <-]; by rewrite app_nil_r|].
  destruct (insert r rows) as [l|] eqn:E; cbn; [|done]. intros H. rewrite (IH _ H), (Hi _ _ _ E). by rewrite <- app_assoc.
Qed.
Lemma insertRuntime_app r l l' : insertRuntimeArtifact r l = Ok l' -> l' = l ++ [r].
Proof. unfold insertRuntimeArtifact. intros H. repeat case_match; by simplify_eq. Qed.
Lemma insertScenario_app r l l' : insertScenarioArtifact r l = Ok l' -> l' = l ++ [r].
Proof. unfold insertScenarioArtifact. intros H. repeat case_match; by simplify_eq. Qed.

Section one_vm.
Context (rv : string) (runVm : ResolvedRunVm) (Habout : about rv runVm).
Hypothesis vm_ids_distinct : forall a b, snd (vmOf a) = snd (vmOf b) -> a = b.

Lemma contextVm_about : contextVm runVm = rv.
Proof. unfold contextVm. by rewrite (ab_runtimeVm _ _ Habout). Qed.
Lemma vmId_about : snd (vmOf rv) = rm_vmId runVm.
Proof. by rewrite (ab_vm _ _ Habout). Qed.
Lemma vmId_other w : w <> rv -> (rm_vmId runVm =s snd (vmOf w)) = false.
Proof. intros Hw. apply String.eqb_neq. rewrite <- vmId_about. intros E. by apply Hw, vm_ids_distinct. Qed.
Lemma runtimeVm_truthy : truthy_opt (rm_runtimeVmId runVm) = true.
Proof. rewrite (ab_runtimeVm _ _ Habout). apply truthy_spec, Habout. Qed.

(** Manifests name the artifacts of the VM. *)
Definition manifest_ok (manifest : list ArtifactManifestEntry) : Prop :=
  Forall (fun e => en_id e = artifactIdFor (rm_vmId runVm) (en_ordinal e)) manifest.
Lemma manifestEntries_ok createdAt artifacts manifest : manifestEntries runVm createdAt artifacts = Ok manifest -> manifest_ok manifest.
Proof.
  revert manifest. induction artifacts as [|a l IH]; intros manifest; cbn; [intros [= <-]; constructor|].
  unfold manifestEntry. destruct (buildArtifactObjectKey _ _ _ _ _); cbn; [|done].
  destruct (manifestEntries runVm createdAt l) eqn:E; cbn; [|done]. intros [= <-]. constructor; [done|by apply IH].
Qed.
Lemma buildManifest_ok artifacts createdAt manifest : buildArtifactManifest runVm artifacts createdAt = Ok manifest -> manifest_ok manifest.
Proof.
  unfold buildArtifactManifest. case_match; [done|]. destruct (assertArtifactIdentityWithinR2KeyBudget _ _); cbn; [|done].
  apply manifestEntries_ok.
Qed.

Lemma unreserved_ok owner vm rows manifest : manifest_ok manifest -> manifest_ok (unreserved owner vm rows manifest).
Proof. intros H. apply List.Forall_forall. intros e He. apply filter_In in He as [He _]. by eapply List.Forall_forall in H. Qed.

Lemma reserve_within manifest x x' :
  manifest_ok manifest -> ids_ok x -> runtimeArtifactReservation runVm manifest x = Ok x' ->
  within rv x x' /\ xd_runtime x' = xd_runtime x ++ map (reservedRow (rm_runId runVm) rv) (unreserved (rm_runId runVm) rv (xd_runtime x) manifest)
  /\ xd_scenario x' = xd_scenario x.
Proof.
  intros Hm [Hr Hs] H. unfold runtimeArtifactReservation in H. rewrite contextVm_about in H.
  destruct (insert_rows _ _ _) as [rows|] eqn:E in H; cbn in H; [|done]. simplify_eq.
  apply insert_rows_app in E; [|exact insertRuntime_app]. cbn. split_and!; [|done|done].
  pose proof (unreserved_ok (rm_runId runVm) rv (xd_runtime x) _ Hm) as Hu.
  constructor; cbn; try done.
  - split; cbn; [|done]. rewrite E. apply Forall_app. split; [done|]. apply Forall_map.
    eapply Forall_impl; [exact Hu|]. intros e He. cbn. by rewrite vmId_about.
  - intros w Hw. split; [done|]. constructor; cbn; try done. rewrite E. apply filter_app_none.
    intros r Hin. apply in_map_iff in Hin as (e & <- & _). apply String.eqb_neq. cbn. congruence.
  - apply archive_le_refl.
  - rewrite E. apply ledger_le_app.
  - apply ledger_le_refl.
Qed.
Lemma reserve_scenario_within manifest x x' :
  manifest_ok manifest -> ids_ok x -> scenarioArtifactReservation runVm manifest x = Ok x' ->
  within rv x x' /\ xd_scenario x' = xd_scenario x ++ map (reservedRow (rm_domainId runVm) (rm_vmId runVm))
                      (unreserved (rm_domainId runVm) (rm_vmId runVm) (xd_scenario x) manifest)
  /\ xd_runtime x' = xd_runtime x.
Proof.
  intros Hm [Hr Hs] H. unfold scenarioArtifactReservation in H.
  destruct (insert_rows _ _ _) as [rows|] eqn:E in H; cbn in H; [|done]. simplify_eq.
  apply insert_rows_app in E; [|exact insertScenario_app]. cbn. split_and!; [|done|done].
  pose proof (unreserved_ok (rm_domainId runVm) (rm_vmId runVm) (xd_scenario x) _ Hm) as Hu.
  constructor; cbn; try done.
  - split; cbn; [done|]. rewrite E. apply Forall_app. split; [done|]. by apply Forall_map.
  - intros w Hw. split; [done|]. constructor; cbn; try done. rewrite E. apply filter_app_none.
    intros r Hin. apply in_map_iff in Hin as (e & <- & _). by apply vmId_other.
  - apply archive_le_refl.
  - apply ledger_le_refl.
  - rewrite E. apply ledger_le_app.
Qed.

(** An artifact of the VM, in either ledger. *)
Definition artifact_ok (a : SourceArtifactState) : Prop := exists o, aw_id (src_row a) = artifactIdFor (rm_vmId runVm) o.

Lemma row_le_uploaded t r : row_le r (with_uploaded t r).
Proof. by split. Qed.
Lemma marked_rows (P : ArtifactRow -> Prop) p t rows :
  (forall r, P r -> P (with_uploaded t r)) -> Forall P rows -> Forall P (update_where p (with_uploaded t) rows).
Proof. intros HP H. unfold update_where. apply Forall_map. eapply Forall_impl; [exact H|]. intros r Hr. cbn. destruct (p r); auto. Qed.

Lemma markRuntime_within o t : writes rv (markRuntime (artifactIdFor (rm_vmId runVm) o) t).
Proof.
  intros x x' [Hr Hs] [= <-]. constructor; cbn; try done.
  - split; [|done]. cbn. by apply marked_rows.
  - intros w Hw. split; [done|]. constructor; cbn; try done. apply filter_update_where_in.
    intros r Hin Hid. apply String.eqb_eq in Hid. eapply List.Forall_forall in Hr; [|exact Hin].
    rewrite Hid in Hr. apply artifactIdFor_inj in Hr. rewrite <- vmId_about in Hr. apply vm_ids_distinct in Hr.
    split; apply String.eqb_neq; cbn; congruence.
  - apply archive_le_refl.
  - apply ledger_le_update, row_le_uploaded.
  - apply ledger_le_refl.
Qed.
Lemma markScenario_within o t : writes rv (markScenario (artifactIdFor (rm_vmId runVm) o) t).
Proof.
  intros x x' [Hr Hs] [= <-]. constructor; cbn; try done.
  - split; [done|]. cbn. by apply marked_rows.
  - intros w Hw. split; [done|]. constructor; cbn; try done. apply filter_update_where_in.
    intros r Hin Hid. apply String.eqb_eq in Hid. eapply List.Forall_forall in Hs; [|exact Hin].
    rewrite Hid in Hs. apply artifactIdFor_inj in Hs. unfold ofScenario. cbn. rewrite <- Hs. by rewrite vmId_other.
  - apply archive_le_refl.
  - apply ledger_le_refl.
  - apply ledger_le_update, row_le_uploaded.
Qed.

(** ** Statements on uploads *)

Lemma uploads_writes (f : list UploadRow -> list UploadRow) :
  (forall l, Forall upload_ok l -> Forall upload_ok (f l)) ->
  writes rv (on_runtime_uploads f) /\ writes rv (on_scenario_uploads f).
Proof.
  intros Hf. split; intros x x' Hi [= <-].
  all: constructor; try done; try apply archive_le_refl; try apply ledger_le_refl.
  all: intros [? ?]; split; cbn; auto.
Qed.

(** ** Statements on timelines *)

Lemma upsert_all_filter {R} (upsert : R -> list R -> result ArchiveFault (list R)) (q : R -> bool) new rows rows' :
  (forall r l l', In r new -> upsert r l = Ok l' -> List.filter q l' = List.filter q l) ->
  upsert_all upsert new rows = Ok rows' -> List.filter q rows' = List.filter q rows.
Proof.
  intros H. revert rows. induction new as [|r new IH]; intros rows; cbn; [by intros [= <-]|].
  destruct (upsert r rows) as [l|] eqn:E; cbn; [|done]. intros Hu. rewrite (IH (fun r' l1 l2 Hin => H r' l1 l2 (or_intror Hin)) _ Hu).
  eapply H; [by left|exact E].
Qed.
Lemma sessions_writes rows : Forall (fun t => tw_runtimeVmId t = rv) rows -> writes rv (terminalSessionStatement rows).
Proof.
  intros Hrows x x' Hi H. unfold terminalSessionStatement in H.
  destruct (upsert_all _ _ _) as [l|] eqn:E in H; cbn in H; [|done]. simplify_eq.
  constructor; try done; try apply archive_le_refl; try apply ledger_le_refl. intros w Hw. split; [done|]. constructor; cbn; try done.
  revert E. apply upsert_all_filter. intros t l1 l2 Hin H. eapply List.Forall_forall in Hrows; [|exact Hin].
  unfold upsertSession in H. repeat case_match; simplify_eq.
  - apply filter_update_where. intros r Hr. apply andb_prop in Hr as [Hr _]. apply String.eqb_eq in Hr. cbn. rewrite Hr.
    split; apply String.eqb_neq; congruence.
  - apply filter_app_none. intros r [<-|[]]. apply String.eqb_neq. congruence.
Qed.
Lemma transcripts_writes rows : Forall (fun t => sw_vmId t = rm_vmId runVm) rows -> writes rv (transcriptStatement rows).
Proof.
  intros Hrows x x' Hi H. unfold transcriptStatement in H.
  destruct (upsert_all _ _ _) as [l|] eqn:E in H; cbn in H; [|done]. simplify_eq.
  constructor; try done; try apply archive_le_refl; try apply ledger_le_refl. intros w Hw. split; [done|]. constructor; cbn; try done.
  revert E. apply upsert_all_filter. intros t l1 l2 Hin H. eapply List.Forall_forall in Hrows; [|exact Hin].
  unfold upsertTranscript in H. repeat case_match; simplify_eq.
  - apply filter_update_where. intros r Hr. apply andb_prop in Hr as [Hr _]. apply andb_prop in Hr as [_ Hr].
    apply String.eqb_eq in Hr. cbn. rewrite Hr, Hrows. split; by apply vmId_other.
  - apply filter_app_none. intros r [<-|[]]. rewrite Hrows. by apply vmId_other.
Qed.

(** * Transactions *)

(** The ledgers still list the same artifacts. *)
Definition twins_kept (x x' : ArchiveDb) : Prop :=
  Forall2 twins (xd_runtime x) (xd_scenario x) -> Forall2 twins (xd_runtime x') (xd_scenario x').
(** A list of statements that writes to the VM only and keeps the ledgers alike. *)
Definition good (l : list AStmt) : Prop :=
  forall x x', ids_ok x -> archive_batch l x = Ok x' -> within rv x x' /\ twins_kept x x'.

Lemma good_nil : good [].
Proof. intros x x' Hi [= <-]. split; [by apply elsewhere_within|by intros ?]. Qed.
Lemma good_app a b : good a -> good b -> good (a ++ b).
Proof.
  intros Ha Hb x x' Hi H. apply archive_batch_app in H as (m & H1 & H2).
  destruct (Ha _ _ Hi H1) as [W1 K1]. destruct (Hb _ _ (wi_ids _ _ _ W1) H2) as [W2 K2].
  split; [by eapply within_trans|]. unfold twins_kept in *. auto.
Qed.
Lemma good_cons s l : good [s] -> good l -> good (s :: l).
Proof. apply (good_app [s] l). Qed.
Lemma good_one s :
  writes rv s -> (forall x x', s x = Ok x' -> (xd_runtime x', xd_scenario x') = (xd_runtime x, xd_scenario x)) -> good [s].
Proof.
  intros Hw Hl x x' Hi H. cbn in H. destruct (s x) as [m|] eqn:E; cbn in H; [|done]. simplify_eq.
  split; [by apply Hw|]. unfold twins_kept. by injection (Hl _ _ E) as -> ->.
Qed.
Lemma good_elsewhere s : changes elsewhere s -> good [s].
Proof. intros H. apply good_one; [by apply changes_writes|]. intros x x' Hs. destruct (H _ _ Hs). congruence. Qed.
Lemma good_uploads f a : (forall l, Forall upload_ok l -> Forall upload_ok (f l)) -> good (on_uploads a f).
Proof.
  intros Hf. destruct (uploads_writes f Hf) as [Hr Hs].
  assert (good [on_runtime_uploads f]) by (apply good_one; [done|by intros x x' [= <-]]).
  assert (good [on_scenario_uploads f]) by (apply good_one; [done|by intros x x' [= <-]]).
  unfold on_uploads. destruct (src_storageKind a); [by apply good_cons|done].
Qed.
Lemma good_vm p f now :
  (forall a, p a = true -> archive_le a (f a)) -> (forall a, va_artifactWritesSealed (f a) = va_artifactWritesSealed a) ->
  good [updateVmArchive rv (rm_runId runVm) p f now].
Proof.
  intros Hp Hf. apply good_one.
  - intros x x' Hi H. apply archives_within; [by eapply updateVmArchive_archives| |done].
    by eapply updateVmArchive_sealed.
  - intros x x' H. destruct (updateVmArchive_archives rv _ p f now Hp _ _ H). congruence.
Qed.

Lemma twins_uploaded id t r s :
  twins r s -> twins (if aw_id r =s id then with_uploaded t r else r) (if aw_id s =s id then with_uploaded t s else s).
Proof.
  intros (E & Ho & Hv & Hi & Hst). injection E as E1 E2 E3 E4 E5. rewrite E1.
  destruct (aw_id s =s id); [|by repeat split; try congruence]. repeat split; cbn; congruence.
Qed.
Lemma twins_scenario_uploaded id t r s : twins r s -> twins r (if aw_id s =s id then with_uploaded t s else s).
Proof. intros (E & Ho & Hv & Hi & Hst). destruct (aw_id s =s id); repeat split; cbn; auto. Qed.

Lemma dropUpload_ok id l : Forall upload_ok l -> Forall upload_ok (dropUpload id l).
Proof. intros H. apply List.Forall_forall. intros u Hu. apply filter_In in Hu as [Hu _]. by eapply List.Forall_forall in H. Qed.
Lemma good_mark a t : artifact_ok a -> good (markStatements a t).
Proof.
  intros [o Ho] x x' Hi H. split.
  - revert Hi H. apply batch_writes. unfold markStatements. rewrite Ho.
    destruct (uploads_writes (dropUpload (artifactIdFor (rm_vmId runVm) o)) (dropUpload_ok _)) as [Hr Hs].
    destruct (src_storageKind a); rewrite !Forall_cons; auto 6 using Forall_nil_2, markRuntime_within, markScenario_within.
  - unfold twins_kept, markStatements in *. destruct (src_storageKind a); cbn in H; simplify_eq; cbn; unfold markRows, update_where.
    + intros Ht. induction Ht; cbn; constructor; auto using twins_uploaded.
    + intros Ht. induction Ht; cbn; constructor; auto using twins_scenario_uploaded.
Qed.

Lemma unreserved_twins rows rows' manifest :
  Forall2 twins rows rows' ->
  unreserved (rm_runId runVm) rv rows manifest = unreserved (rm_domainId runVm) (rm_vmId runVm) rows' manifest.
Proof.
  intros H. unfold unreserved. apply List.filter_ext. intros e. f_equal. induction H as [|r s l l' Hrs _ IH]; [done|].
  cbn [existsb]. rewrite IH. f_equal. destruct Hrs as (E & Hd & Hv & _ & _). injection E as _ -> _ _ _. f_equal.
  unfold ledgerRow. pose proof (ab_vm _ _ Habout) as Hvm. pose proof (ab_domain _ _ Habout) as Hdom.
  destruct (String.eqb_spec (aw_vm r) rv) as [Er|Hne].
  - rewrite Er, Hvm in Hv. injection Hv as Ho <-. rewrite <- Ho in *. rewrite <- Hd, Hdom, !String.eqb_refl. done.
  - rewrite andb_false_r. symmetry. apply andb_false_iff. right. apply String.eqb_neq. intros E'. apply Hne, vm_ids_distinct.
    by rewrite Hv, Hvm.
Qed.
Lemma good_reserve manifest : manifest_ok manifest -> good (reservationStatements runVm manifest).
Proof.
  intros Hm x x' Hi H. unfold reservationStatements in H. rewrite runtimeVm_truthy in H. cbn [app archive_batch] in H.
  destruct (artifactManifestConflictGuard runVm manifest x) as [y|] eqn:E in H; cbn [result_bind] in H; [|done].
  apply conflictGuard_guarding in E as ->.
  destruct (runtimeArtifactReservation _ _ _) as [y|] eqn:E in H; cbn [result_bind] in H; [|done].
  destruct (scenarioArtifactReservation _ _ _) as [z|] eqn:E' in H; cbn [result_bind] in H; [|done]. simplify_eq.
  destruct (reserve_within manifest _ _ Hm Hi E) as (W & Er & Es).
  destruct (reserve_scenario_within manifest _ _ Hm (wi_ids _ _ _ W) E') as (W' & Es' & Er').
  split; [by eapply within_trans|]. intros Ht. rewrite Er', Er, Es', Es. apply Forall2_app; [done|].
  rewrite (unreserved_twins _ _ manifest Ht). pose proof (unreserved_ok (rm_domainId runVm) (rm_vmId runVm) (xd_scenario x) _ Hm) as Hu.
  induction Hu as [|e l He _ IH]; cbn; constructor; [|done]. repeat split; cbn; [apply Habout|by apply Habout|done..].
Qed.

Lemma groupStatements_good {R} columns (statement : list R -> AStmt) (P : R -> Prop) groups stmts :
  (forall g, Forall P g -> good [statement g]) -> Forall (Forall P) groups ->
  groupStatements columns statement groups = Some stmts -> good stmts.
Proof.
  intros Hs Hg. revert stmts. induction Hg as [|g groups H _ IH]; intros stmts; cbn; [intros [= <-]; apply good_nil|].
  case_match; [|done]. destruct (groupStatements _ _ groups); cbn; [|done]. intros [= <-]. apply good_cons; auto.
Qed.
Lemma chunked_Forall {A} (P : A -> Prop) size (l : list A) : Forall P l -> Forall (Forall P) (chunked l size).
Proof.
  unfold chunked. generalize (length l) as fuel. intros fuel. revert l. induction fuel as [|fuel IH]; intros l H; [destruct l; constructor|].
  destruct l as [|a l]; [constructor|]. cbn [chunkedFrom]. constructor; [by apply Forall_take|]. by apply IH, Forall_drop.
Qed.
Lemma good_timeline work timeline now stmts : timelineStatements runVm work timeline now = Some stmts -> good stmts.
Proof.
  unfold timelineStatements. rewrite runtimeVm_truthy, contextVm_about.
  destruct (buildRuntimeTerminalSessionStatements _ _ _ _) as [sessions|] eqn:E1; cbn; [|done].
  destruct (buildScenarioTranscriptStatements _ _ _) as [transcripts|] eqn:E2; cbn; [|done]. intros [= <-].
  apply good_cons; [by apply good_elsewhere, guarding_elsewhere, timelineGuard_guarding|]. apply good_app; [|apply good_app].
  - eapply (groupStatements_good _ _ (fun t => tw_runtimeVmId t = rv)); [|apply chunked_Forall|exact E1].
    + intros g Hg. apply good_one; [by apply sessions_writes|]. intros x x' H. unfold terminalSessionStatement in H.
      destruct (upsert_all _ _ _); cbn in H; by simplify_eq.
    + apply Forall_map, List.Forall_forall. done.
  - eapply (groupStatements_good _ _ (fun t => sw_vmId t = rm_vmId runVm)); [|apply chunked_Forall|exact E2].
    + intros g Hg. apply good_one; [by apply transcripts_writes|]. intros x x' H. unfold transcriptStatement in H.
      destruct (upsert_all _ _ _); cbn in H; by simplify_eq.
    + apply Forall_map, List.Forall_forall. done.
  - apply good_elsewhere. intros x x' H. by eapply runs_elsewhere.
Qed.
End one_vm.
End identity.
