(* ===== verification/ArtifactSafety.v ===== *)
(** What the requests of [ArtifactRoutes] keep, however many run at once.

    Requests of any hosts run side by side, each statement by statement, while the
    rest of the database changes freely around them. Whatever they do, the two
    ledgers list the same artifacts, a sealed VM has only stored ones and is never
    written to again, and parts are recorded and put together in order. *)
From stdpp Require Import base list strings pretty relations.
From Stdlib Require Import ZArith Lia Ascii.
From S2P Require Import Prelude Json Text RunState RunLifecycle RunView Store RuntimeExecutions RunProjection Tar RegistryKeys Access Requests ArtifactStore ArtifactRoutes ArtifactChanges.

Open Scope string_scope.
Open Scope list_scope.
Open Scope Z_scope.
Open Scope req_scope.

(** The calls that go out: a part has a positive number, and an upload is put
    together from the first parts, at least one, in order. *)
Definition permitted (B : Type) (c : ArtifactCall B) : Prop :=
  match c with
  | MultipartPart _ _ n => 1 <= n
  | MultipartComplete _ _ parts => parts <> [] /\ consecutiveParts parts
  | _ => True
  end.

(** ** Parts *)

Lemma parse_encode_parts parts :
  Forall (fun p => num_floor (pt_partNumber p) = pt_partNumber p) parts -> parseUploadedParts (Some (encodeParts parts)) = parts.
Proof.
  cbn. induction 1 as [|[n e] l H _ IH]; [done|]. cbn in H. cbn [map omap list_omap]. cbn [parsePart encodePart field Map_get].
  cbn. rewrite H. f_equal. exact IH.
Qed.
Lemma consecutive_floor parts : consecutiveParts parts -> Forall (fun p => num_floor (pt_partNumber p) = pt_partNumber p) parts.
Proof.
  unfold consecutiveParts. intros H. apply List.Forall_forall. intros p Hp. apply (in_map pt_partNumber) in Hp.
  rewrite H in Hp. apply in_map_iff in Hp as (i & <- & _). done.
Qed.
Lemma consecutive_next parts etag :
  consecutiveParts parts -> consecutiveParts (parts ++ [mkPart (NInt (Z.of_nat (length parts) + 1)) etag]).
Proof.
  unfold consecutiveParts. intros H. rewrite map_app, H, length_app, seq_app, map_app. cbn. do 3 f_equal. lia.
Qed.
Lemma upload_ok_next u etag artifactId uploadId t :
  upload_ok u ->
  upload_ok (mkUpload artifactId uploadId
    (Some (encodeParts (parseUploadedParts (uw_uploadedParts u) ++ [mkPart (NInt (uw_nextExpectedPart u)) etag])))
    (uw_nextExpectedPart u + 1) t).
Proof.
  intros [Hc Hn]. pose proof (consecutive_next _ etag Hc) as H. rewrite <- Hn in H. unfold upload_ok.
  cbn [uw_uploadedParts uw_nextExpectedPart].
  rewrite parse_encode_parts by (by apply consecutive_floor). split; [done|]. rewrite length_app. cbn. lia.
Qed.
Lemma upload_ok_new artifactId uploadId t : upload_ok (mkUpload artifactId uploadId (Some (encodeParts [])) 1 t).
Proof. done. Qed.

Section requests.
Variable domainOf : string -> string.
Variable vmOf : string -> string * string.
Hypothesis vm_ids_distinct : forall a b, snd (vmOf a) = snd (vmOf b) -> a = b.

#[local] Abbreviation ok := (archive_ok domainOf vmOf).
#[local] Abbreviation steps := (archive_step vmOf).
#[local] Abbreviation upheld := (upholds ok steps permitted).

(** ** What a transaction keeps *)

Lemma twins_ids x : Forall2 (twins domainOf vmOf) (xd_runtime x) (xd_scenario x) -> ids_ok vmOf x.
Proof.
  intros H. unfold ids_ok. induction H as [|r s l l' Hrs _ [IH IH']]; [done|]. destruct Hrs as (E & _ & Hv & Hi & _).
  injection E as E1 E2 _ _ _. split; constructor; auto. rewrite E1, E2, Hv. exact Hi.
Qed.

Lemma within_ok rv x x' :
  ok x -> isSealed x rv = false -> within domainOf vmOf rv x x' ->
  Forall2 (twins domainOf vmOf) (xd_runtime x') (xd_scenario x') -> ok x' /\ steps x x'.
Proof.
  intros [H1 H2 H3 H4 H5] Hu [W1 W2 W3 W4 W5 W6 W7 W8] Ht. destruct (W3 (conj H4 H5)) as [U1 U2]. split; constructor; auto.
  - intros w r Hs Hin Hw. destruct (decide (w = rv)) as [->|Hne]; [congruence|].
    destruct (W4 w Hne) as [Ea []]. apply (H3 w r); [unfold isSealed in *; by rewrite <- Ea| |done].
    assert (In r (List.filter (ofRuntime w) (xd_runtime x))) as Hf; [|by apply filter_In in Hf as [? _]].
    rewrite <- fz_runtime. apply filter_In. split; [done|]. unfold ofRuntime. rewrite Hw. apply String.eqb_refl.
  - intros w. destruct (decide (w = rv)) as [->|Hne]; [done|]. destruct (W4 w Hne) as [-> _]. apply archive_le_refl.
  - intros w Hs. destruct (decide (w = rv)) as [->|Hne]; [congruence|]. apply (W4 w Hne).
Qed.

Lemma archives_ok rv x x' :
  ok x -> archives domainOf vmOf rv x x' ->
  (isSealed x' rv = true -> isSealed x rv = true \/ (forall r, In r (xd_runtime x) -> aw_vm r = rv -> stored r)) ->
  ok x' /\ steps x x'.
Proof.
  intros [H1 H2 H3 H4 H5] [A1 A2 A3 A4] Hs. injection A2 as E1 E2 E3 E4 E5 E6. split; constructor; rewrite ?E1, ?E2, ?E3, ?E4; auto.
  - intros w r Hw Hin Hv. destruct (decide (w = rv)) as [->|Hne].
    + destruct (Hs Hw) as [Hw'|Hall]; eauto.
    + apply (H3 w r); [|done|done]. unfold isSealed in *. by rewrite <- A3.
  - intros w. destruct (decide (w = rv)) as [->|Hne]; [done|]. rewrite A3; [apply archive_le_refl|done].
  - intros w _. constructor; by rewrite ?E1, ?E3, ?E5, ?E6.
  - apply ledger_le_refl.
  - apply ledger_le_refl.
Qed.

Lemma elsewhere_ok x x' : elsewhere domainOf vmOf x x' -> ok x -> ok x' /\ steps x x'.
Proof.
  intros He Hx. apply (archives_ok ""); [done|by apply elsewhere_archives|]. intros Hs. left.
  unfold isSealed in *. rewrite (vmArchive_same x x') in Hs; [done|apply He].
Qed.

(** A guard that admits a write finds the VM unsealed. *)
Lemma guard_unsealed rv runVm now x x' :
  about domainOf vmOf rv runVm -> artifactWriteGuard runVm false now x = Ok x' -> isSealed x rv = false.
Proof.
  intros Ha H. unfold artifactWriteGuard in H. case_match; [done|]. destruct (artifactWriteCondition _ _ _ _) eqn:E; [|done].
  unfold artifactWriteCondition in E. apply andb_prop in E as [_ E]. apply existsb_In in E as (e & _ & E).
  apply andb_prop in E as [_ E]. apply existsb_In in E as (run & _ & E). apply andb_prop in E as [_ E].
  apply existsb_In in E as (v & _ & E). unfold writableVm in E. rewrite (ab_runtimeVm _ _ _ _ Ha) in E.
  repeat (apply andb_prop in E as [E ?]). cbn in *.
  match goal with Hs : (rv_id v =s rv) = true |- _ => apply String.eqb_eq in Hs; rewrite Hs in * end.
  unfold isSealed. by apply negb_true_iff.
Qed.

Lemma good_batch rv runVm stmts now x x' :
  about domainOf vmOf rv runVm -> good domainOf vmOf rv stmts ->
  archive_batch (artifactWriteGuard runVm false now :: stmts) x = Ok x' -> ok x -> ok x' /\ steps x x'.
Proof.
  intros Ha Hg H Hx. cbn [archive_batch] in H. destruct (artifactWriteGuard runVm false now x) as [y|] eqn:E; cbn [result_bind] in H; [|done].
  pose proof (guard_unsealed _ _ _ _ _ Ha E) as Hu. apply writeGuard_guarding in E as ->.
  destruct (Hg _ _ (twins_ids _ (ao_ledgers _ _ _ Hx)) H) as [W K]. eapply within_ok; [done|done|done|]. apply K, Hx.
Qed.

Lemma writeBatch_upheld rv runVm stmts :
  about domainOf vmOf rv runVm -> good domainOf vmOf rv stmts -> upheld (fun _ => True) (artifactWriteBatch runVm stmts false).
Proof.
  intros Ha Hg. split; [done|]. intros now x Hx. cbn [fst snd].
  destruct (archive_batch _ x) as [x'|f] eqn:E; cbn; [|by auto using archive_step_refl].
  destruct (good_batch _ _ _ _ _ _ Ha Hg E Hx). auto.
Qed.

(** A batch that is open to a sealed VM writes to no table of artifacts. *)
Lemma sealedBatch_upheld rv runVm stmts :
  Forall (changes (archives domainOf vmOf rv)) stmts ->
  (forall x x', archive_batch stmts x = Ok x' -> isSealed x' rv = isSealed x rv) ->
  upheld (fun _ => True) (artifactWriteBatch runVm stmts true).
Proof.
  intros Hs Hu. split; [done|]. intros now x Hx. cbn [fst snd archive_batch].
  destruct (artifactWriteGuard runVm true now x) as [y|f] eqn:G; cbn [result_bind]; [|cbn; by auto using archive_step_refl].
  apply writeGuard_guarding in G as ->. destruct (archive_batch stmts x) as [x'|f] eqn:E; cbn; [|by auto using archive_step_refl].
  destruct (archives_ok rv x x'); [done| | |by auto].
  - revert E. apply batch_changes; [apply archives_refl|apply archives_trans|done].
  - rewrite (Hu _ _ E). auto.
Qed.

Lemma mutations_upheld rv runVm stmts stateJson :
  about domainOf vmOf rv runVm -> good domainOf vmOf rv stmts ->
  upheld (fun _ => True) (artifactMutations runVm stmts false stateJson).
Proof.
  intros Ha Hg. apply (writeBatch_upheld rv); [done|]. destruct stateJson; [|done].
  apply good_cons; [|done]. apply good_elsewhere, guarding_elsewhere, stateGuard_guarding.
Qed.

Lemma retry_upheld {A} (operation : ArtifactReq A) : upheld (fun _ => True) operation -> upheld (fun _ => True) (retryArtifactState operation).
Proof.
  intros H. unfold retryArtifactState. generalize 7%nat as n. induction n as [|n IH]; cbn [retryFrom].
  - eapply upholds_seq; [exact H|]. intros [a|[]] _; done.
  - eapply upholds_seq; [exact H|]. intros [a|[]] _; done.
Qed.

(** ** Reading *)

#[local] Hint Resolve archive_step_refl : core.

Lemma query_upheld {A} (g : ArchiveDb -> A) (Q : A -> Prop) : (forall x, ok x -> Q (g x)) -> upheld Q (query g).
Proof. intros H. apply upholds_query; auto. Qed.
Lemma read_upheld {A} (g : ArchiveDb -> A) : upheld (fun _ => True) (query g).
Proof. by apply query_upheld. Qed.
Lemma outside_upheld {A} (c : ArtifactCall (result string A)) : permitted _ c -> upheld (fun _ => True) (outside c).
Proof. intros Hc. split; [done|]. by intros [a|e]. Qed.

Lemma loadStates_upheld runVm : upheld (fun _ => True) (loadArtifactStatesForRunVm runVm).
Proof. eapply upholds_seq; [apply read_upheld|]. intros [|r l] _; [apply read_upheld|done]. Qed.

Lemma legacy_ok rv runVm ordinal x :
  about domainOf vmOf rv runVm -> ok x ->
  match option_map (mkSource sk_scenario) (List.find (fun r => inScenarioLedger runVm r && (aw_ordinal r =? ordinal)) (xd_scenario x)) with
  | Some a => artifact_ok runVm a
  | None => True
  end.
Proof.
  intros Ha Hx. destruct (List.find _ _) as [r|] eqn:E; cbn; [|done]. apply find_some in E as [Hin E].
  apply andb_prop in E as [E _]. apply andb_prop in E as [_ E]. apply String.eqb_eq in E.
  destruct (twins_ids _ (ao_ledgers _ _ _ Hx)) as [_ Hs]. eapply List.Forall_forall in Hs; [|exact Hin].
  exists (aw_ordinal r). by rewrite <- E.
Qed.
Lemma loadArtifact_upheld rv runVm ordinal :
  about domainOf vmOf rv runVm ->
  upheld (fun a => match a with Some a => artifact_ok runVm a | None => True end) (loadArtifactForRunVm runVm ordinal).
Proof.
  intros Ha. unfold loadArtifactForRunVm. rewrite (runtimeVm_truthy _ _ _ _ Ha).
  eapply (upholds_seq _ _ _ (fun r => match r with Some r => artifact_ok runVm (mkSource sk_runtime r) | None => True end)).
  - apply query_upheld. intros x Hx. destruct (List.find _ _) as [r|] eqn:E; [|done]. apply find_some in E as [Hin E].
    apply andb_prop in E as [E _]. apply andb_prop in E as [_ E]. rewrite (ab_runtimeVm _ _ _ _ Ha) in E. apply String.eqb_eq in E.
    destruct (twins_ids _ (ao_ledgers _ _ _ Hx)) as [Hr _]. eapply List.Forall_forall in Hr; [|exact Hin].
    exists (aw_ordinal r). cbn. by rewrite Hr, E, (vmId_about _ _ _ _ Ha).
  - intros [r|]; [done|]. intros _. eapply upholds_seq; [apply read_upheld|]. intros [] _; [done|].
    apply query_upheld. intros x Hx. by eapply legacy_ok.
Qed.
Lemma loadUpload_upheld artifact :
  upheld (fun u => match u with Some u => upload_ok u | None => True end) (loadArtifactUploadState artifact).
Proof.
  apply query_upheld. intros x [_ _ _ Hr Hs]. destruct (List.find _ _) as [u|] eqn:E; [|done]. apply find_some in E as [Hin _].
  destruct (src_storageKind artifact); [by eapply List.Forall_forall in Hr|by eapply List.Forall_forall in Hs].
Qed.

(** The VM a request names is one the database has. *)
Lemma resolve_upheld agent runId vmName :
  upheld (fun r => match r with Ok (Some runVm) => exists rv, about domainOf vmOf rv runVm | _ => True end)
    (resolveRunVm agent runId vmName).
Proof.
  unfold resolveRunVm.
  eapply (upholds_seq _ _ _ (fun r => match r with
    | Some m => domainOf (re_id (mt_execution m)) = re_domainId (mt_execution m)
                /\ vmOf (rv_id (mt_vm m)) = (re_id (mt_execution m), rv_vmId (mt_vm m)) /\ rv_id (mt_vm m) <> ""
    | None => True end)).
  - apply query_upheld. intros x [[He Hv] _ _ _ _]. destruct (findRuntimeVm agent runId vmName x) as [m|] eqn:E; [|done].
    unfold findRuntimeVm in E. cbv zeta in E. apply head_Some_elem_of, list_elem_of_In, in_flat_map in E as (e & Hin & E).
    case_match; [|done]. apply list_elem_of_In, list_elem_of_omap in E as (v & Hvin & E). destruct (_ && _) eqn:Ev in E; [|done].
    simplify_eq. cbn. apply andb_prop in Ev as [Ev _]. apply String.eqb_eq in Ev. eapply List.Forall_forall in He; [|exact Hin].
    eapply Forall_forall in Hv; [|exact Hvin]. destruct Hv as [Hv Hn]. split_and!; [done|by rewrite Hv, Ev|done].
  - intros [m|] Hm; [|done]. destruct (re_hostId (mt_execution m)) as [hostId|]; [|done]. case_match; [done|].
    eapply upholds_seq; [apply read_upheld|]. intros [[scenarioId d]|] _; [|done].
    destruct (List.find _ _); [|done]. case_match; [done|].
    apply (upholds_try _ _ _ (fun _ => True)); [|intros _ _|done].
    + eapply upholds_weaken; [|apply (sealedBatch_upheld (rv_id (mt_vm m)) _ [])]; [by intros [|]|constructor|by intros x x' [= <-]].
    + destruct Hm as (Hd & Hv & Hn). exists (rv_id (mt_vm m)). by constructor.
Qed.
Lemma require_upheld verified runId vmName allowSealed :
  upheld (fun r => match r with Ok (Ok runVm) => exists rv, about domainOf vmOf rv runVm | _ => True end)
    (requireVerifiedRunVm verified runId vmName allowSealed).
Proof.
  unfold requireVerifiedRunVm. destruct verified as [agent|]; [|done].
  eapply upholds_seq; [apply resolve_upheld|]. intros [[runVm|]|e]; cbn; [|done..]. intros Ha. by case_match.
Qed.

(** ** Writing *)

Lemma ensure_upheld rv runVm artifacts createdAt :
  about domainOf vmOf rv runVm -> upheld (fun _ => True) (ensureArtifactStates runVm artifacts createdAt).
Proof.
  intros Ha. unfold ensureArtifactStates. destruct artifacts as [|a l]; [done|].
  apply (upholds_try _ _ _ (fun m => manifest_ok runVm m)); [|intros m Hm|done].
  - cbn. destruct (buildArtifactManifest runVm (a :: l) createdAt) eqn:E; [|done]. by eapply buildManifest_ok.
  - case_match; [done|]. eapply upholds_seq; [by eapply writeBatch_upheld, good_reserve|]. intros batch _.
    eapply upholds_seq; [apply read_upheld|]. intros runtimeRows _. eapply upholds_seq; [apply read_upheld|]. intros legacyRows _.
    repeat case_match; done.
Qed.

Lemma persist_upheld rv runVm run state now :
  about domainOf vmOf rv runVm -> upheld (fun _ => True) (persistStoredRunLifecycle runVm run state now [] false).
Proof.
  intros Ha. unfold persistStoredRunLifecycle. destruct (requiredId _ _); [|done]. split; [done|]. intros clock x Hx. cbn [fst snd].
  destruct (archive_batch _ x) as [x'|f] eqn:E; cbn; [|by auto]. eapply good_batch in E as [? ?]; eauto.
  apply good_cons; [apply good_elsewhere, guarding_elsewhere, stateGuard_guarding|].
  apply good_cons; [apply good_elsewhere, runs_elsewhere|]. cbn [app]. apply good_app.
  - case_match; [|apply good_nil]. apply good_elsewhere, courseCompletion_elsewhere.
  - assert (Hl : forall l, (forall s, In s l -> changes (elsewhere domainOf vmOf) s) -> good domainOf vmOf rv l); [|apply Hl, projection_elsewhere].
    induction l as [|st l IH]; intros Hl; [apply good_nil|]. apply good_cons; [apply good_elsewhere, Hl; by left|].
    apply IH. intros; apply Hl; by right.
Qed.

Lemma archive_le_stage a : archive_le a (with_rank (atLeastFirst (va_archiveStageRank a)) a).
Proof. split; [done|]. cbn. destruct (va_archiveStageRank a) as [r|]; cbn; [|done]. destruct (Z.ltb_spec r 1); lia. Qed.
Lemma archiving_upheld rv runVm now progress :
  about domainOf vmOf rv runVm -> upheld (fun _ => True) (transitionRunVmToArchiving runVm now progress).
Proof.
  intros Ha. apply retry_upheld. unfold transitionRunVmToArchivingOnce. rewrite (runtimeVm_truthy _ _ _ _ Ha), (contextVm_about _ _ _ _ Ha).
  apply (upholds_try _ _ _ (fun _ => True)); [|intros _ _|done].
  - eapply upholds_weaken; [|eapply (mutations_upheld rv); [done|]]; [by intros [|]|].
    apply good_cons; [by apply good_elsewhere, executions_elsewhere|]. destruct progress; [|apply good_nil].
    apply good_vm; [intros a _; apply archive_le_stage|done].
  - eapply upholds_seq; [apply read_upheld|]. intros [run|] _; [|done]. by eapply persist_upheld.
Qed.

Lemma upsertUpload_ok row rows : upload_ok row -> Forall upload_ok rows -> Forall upload_ok (upsertUpload row rows).
Proof.
  intros Hr Hs. unfold upsertUpload. case_match.
  - unfold update_where. apply Forall_map. eapply Forall_impl; [exact Hs|]. intros u Hu. cbn. by destruct (_ =s _).
  - apply Forall_app. auto.
Qed.
Lemma initialize_upheld rv runVm artifact uploadId t :
  about domainOf vmOf rv runVm -> upheld (fun _ => True) (initializeArtifactUpload runVm artifact uploadId t).
Proof.
  intros Ha. apply (mutations_upheld rv); [done|]. apply good_uploads. intros l. apply upsertUpload_ok, upload_ok_new.
Qed.
Lemma advance_upheld rv runVm artifact u etag t :
  about domainOf vmOf rv runVm -> upload_ok u ->
  upheld (fun _ => True) (advanceArtifactUpload runVm artifact
    (parseUploadedParts (uw_uploadedParts u) ++ [mkPart (NInt (uw_nextExpectedPart u)) etag]) (uw_nextExpectedPart u + 1) t).
Proof.
  intros Ha Hu. apply (mutations_upheld rv); [done|]. apply good_uploads. intros l Hl. unfold advanceUpload, update_where.
  apply Forall_map. eapply Forall_impl; [exact Hl|]. intros v Hv. cbn. destruct (_ =s _); [|done]. by apply upload_ok_next.
Qed.
Lemma mark_upheld rv runVm artifact t :
  about domainOf vmOf rv runVm -> artifact_ok runVm artifact -> upheld (fun _ => True) (markArtifactUploaded runVm artifact t).
Proof.
  intros Ha Hr. apply retry_upheld. unfold markArtifactUploadedOnce. case_match.
  - eapply mutations_upheld; [done|]. by eapply good_mark.
  - eapply upholds_seq; [apply read_upheld|]. intros [run|] _; [|done]. eapply mutations_upheld; [done|].
    apply good_app; [by eapply good_mark|]. apply good_elsewhere, runs_elsewhere.
Qed.

(** ** Stages and completion *)

Lemma archive_le_advance rank a : canAdvanceStage rank a = true -> archive_le a (with_rank (Some rank) a).
Proof.
  unfold canAdvanceStage. intros H. split; [done|]. cbn. destruct (va_archiveStageRank a) as [r|]; cbn; [|done].
  apply andb_prop in H as [_ H]. lia.
Qed.
Lemma stage_upheld rv runVm rank now :
  about domainOf vmOf rv runVm -> upheld (fun _ => True) (advanceRunVmArchiveStage runVm rank now).
Proof.
  intros Ha. unfold advanceRunVmArchiveStage. rewrite (runtimeVm_truthy _ _ _ _ Ha), (contextVm_about _ _ _ _ Ha). cbn [negb].
  destruct (_ || _); [done|]. apply (sealedBatch_upheld rv).
  - constructor; [|constructor]. apply updateVmArchive_archives, archive_le_advance.
  - intros x x' H. cbn [app archive_batch] in H. destruct (updateVmArchive _ _ _ _ _ x) as [y|] eqn:E in H; cbn in H; [|done].
    simplify_eq. eapply updateVmArchive_sealed; [|exact E]. done.
Qed.

Lemma archive_le_sealed a : archive_le a (sealedArchive a).
Proof. split; [done|]. cbn. destruct (va_archiveStageRank a) as [r|]; cbn; [|done]. destruct (Z.ltb_spec r 4); lia. Qed.
Lemma sealExecution_elsewhere executionId now : changes (elsewhere domainOf vmOf) (archiveRuntimeExecutionWhenAllVmsSealed executionId now).
Proof. intros x x' H. unfold archiveRuntimeExecutionWhenAllVmsSealed in H. by eapply executions_elsewhere in H. Qed.
Lemma uploadedGuard_stored rv runVm x x' :
  about domainOf vmOf rv runVm -> allUploadedGuard runVm x = Ok x' -> forall r, In r (xd_runtime x) -> aw_vm r = rv -> stored r.
Proof.
  intros Ha H r Hin Hr. unfold allUploadedGuard in H. case_match eqn:E; [|done]. apply andb_prop in E as [E _].
  apply negb_true_iff in E. destruct (bool_decide (aw_uploadStatus r = us_uploaded)) eqn:Eu; [by apply bool_decide_eq_true in Eu|].
  exfalso. apply not_true_iff_false in E. apply E, existsb_In. exists r. split; [done|].
  rewrite (ab_runtimeVm _ _ _ _ Ha), Hr, Eu. cbn. by rewrite String.eqb_refl.
Qed.

Lemma completion_archives rv runVm now x x' :
  about domainOf vmOf rv runVm -> archive_batch (completionStatements runVm now) x = Ok x' ->
  archives domainOf vmOf rv x x' /\ (forall r, In r (xd_runtime x) -> aw_vm r = rv -> stored r).
Proof.
  intros Ha H. unfold completionStatements in H. rewrite (runtimeVm_truthy _ _ _ _ Ha), (contextVm_about _ _ _ _ Ha) in H.
  cbn [archive_batch] in H. destruct (allUploadedGuard runVm x) as [y|] eqn:E; cbn [result_bind] in H; [|done].
  split; [|by eapply uploadedGuard_stored]. apply uploadedGuard_guarding in E as ->. revert H.
  apply (batch_changes _ [_; _]); [apply archives_refl|apply archives_trans|]. constructor; [|constructor; [|constructor]].
  - apply updateVmArchive_archives. intros a _. apply archive_le_sealed.
  - apply changes_archives, sealExecution_elsewhere.
Qed.

Lemma elsewhere_batch rv l x x' :
  (forall s, In s l -> changes (elsewhere domainOf vmOf) s) -> archive_batch l x = Ok x' -> archives domainOf vmOf rv x x'.
Proof.
  intros Hl. apply batch_changes; [apply archives_refl|apply archives_trans|]. apply List.Forall_forall. intros st Hst.
  by apply changes_archives, Hl.
Qed.
Lemma completed_upheld rv runVm now : about domainOf vmOf rv runVm -> upheld (fun _ => True) (transitionRunVmToCompleted runVm now).
Proof.
  intros Ha. apply retry_upheld. unfold transitionRunVmToCompletedOnce. eapply upholds_seq; [apply read_upheld|].
  intros [run|] _; [|done]. unfold persistStoredRunLifecycle. destruct (requiredId _ _); [|done]. split; [done|].
  intros clock x Hx. cbn [fst snd]. destruct (archive_batch _ x) as [x'|f] eqn:E; cbn; [|by auto].
  unfold lifecycleStatements in E. cbv zeta in E. apply archive_batch_app in E as (y & E1 & E).
  apply archive_batch_app in E as (z & E2 & E3). destruct (completion_archives _ _ _ _ _ Ha E2) as [A2 Hall].
  assert (A1 : archives domainOf vmOf rv x y).
  { revert E1. apply elsewhere_batch. intros s' [<-|[<-|[<-|[]]]];
      [apply guarding_elsewhere, writeGuard_guarding|apply guarding_elsewhere, stateGuard_guarding|apply runs_elsewhere]. }
  assert (A3 : archives domainOf vmOf rv z x').
  { revert E3. apply elsewhere_batch. intros s' Hs. apply in_app_or in Hs as [Hs|Hs]; [|by eapply projection_elsewhere].
    case_match; [|done]. destruct Hs as [<-|[]]. apply courseCompletion_elsewhere. }
  destruct (archives_ok rv x x'); [done|by do 2 (eapply archives_trans; [eassumption|])| |by auto].
  intros _. right. destruct A1 as [_ A1 _ _]. injection A1 as <- _ _ _ _ _. done.
Qed.

(** ** Requests *)

#[local] Ltac upheld_step :=
  lazymatch goal with
  | |- upheld _ (req_bind (call _) _) => eapply upholds_seq; [by apply (upholds_call _ _ _ (fun _ => True))|intros ? _]
  | |- upheld _ (req_bind (query _) _) => eapply upholds_seq; [apply read_upheld|intros ? _]
  | |- upheld _ (req_bind (loadArtifactStatesForRunVm _) _) => eapply upholds_seq; [apply loadStates_upheld|intros ? _]
  | |- upheld _ (Done _) => done
  | |- upheld _ (return_ _) => done
  | |- upheld _ (throw _) => done
  | |- upheld _ (lift _) => cbn; by repeat case_match
  | |- upheld _ (outside _) => by apply outside_upheld
  | |- upheld _ (req_try (outside _) _) =>
      apply (upholds_try _ _ _ (fun _ => True)); [eapply upholds_weaken; [by intros [|]|by apply outside_upheld]|intros ? _|done]
  | |- upheld _ (match ?e with _ => _ end) => destruct e eqn:?
  end.
#[local] Ltac upheld_steps := repeat upheld_step.
(** Goes on after an operation that is upheld whatever it returns. *)
#[local] Ltac upheld_try H :=
  apply (upholds_try _ _ _ (fun _ => True)); [eapply upholds_weaken; [|apply H]; by intros [|]|intros ? _|done].

Lemma abort_upheld {A} key uploadId (r : result ArtifactError A) : upheld (fun _ => True) (abortWhenFenced key uploadId r).
Proof. destruct r as [a|[]]; cbn; done. Qed.

Section request.
Context (rv : string) (runVm : ResolvedRunVm) (Ha : about domainOf vmOf rv runVm).

Lemma beginOversized_upheld artifacts progress : upheld (fun _ => True) (beginOversized runVm artifacts progress).
Proof.
  unfold beginOversized. apply (upholds_try _ _ _ (fun _ => True)); [|intros retry _|done].
  - unfold inspectExistingArtifactManifestRetry. apply (upholds_try _ _ _ (fun _ => True)); [cbn; by case_match|intros m _|done].
    upheld_steps.
  - upheld_steps. upheld_try (archiving_upheld rv runVm a progress Ha). done.
Qed.
Lemma beginNew_upheld artifacts progress : upheld (fun _ => True) (beginNew runVm artifacts progress).
Proof.
  unfold beginNew. upheld_step. upheld_try (ensure_upheld rv runVm artifacts a Ha). upheld_steps.
  upheld_try (archiving_upheld rv runVm a progress Ha). done.
Qed.
Lemma storeEmpty_upheld artifact now : artifact_ok runVm artifact -> upheld (fun _ => True) (storeEmpty runVm artifact now).
Proof. intros Hok. unfold storeEmpty. upheld_step. by eapply mark_upheld. Qed.
Lemma startMultipart_upheld artifact now : artifact_ok runVm artifact -> upheld (fun _ => True) (startMultipart runVm artifact now).
Proof.
  intros Hok. unfold startMultipart. eapply upholds_seq; [apply loadUpload_upheld|]. intros upload _.
  destruct (begunUpload upload) as [[? u]|]; [done|]. upheld_step.
  eapply upholds_seq; [by eapply initialize_upheld|]. intros r _. upheld_try (abort_upheld (aw_r2Key (src_row artifact)) a r). done.
Qed.
Lemma completeMultipart_upheld artifact uploadId parts now :
  artifact_ok runVm artifact -> parts <> [] -> consecutiveParts parts ->
  upheld (fun _ => True) (completeMultipart runVm artifact uploadId parts now).
Proof.
  intros Hok Hne Hc. unfold completeMultipart. upheld_step.
  apply (upholds_try _ _ _ (fun _ => True)); [|intros object _|done].
  - destruct a; [done|]. upheld_step. eapply upholds_weaken; [|by apply outside_upheld]. by intros [|].
  - upheld_steps. upheld_try (mark_upheld rv runVm artifact now Ha Hok). done.
Qed.
Lemma publishTimeline_upheld sessions : upheld (fun _ => True) (publishTimeline runVm sessions).
Proof.
  unfold publishTimeline. upheld_steps. apply (upholds_try _ _ _ (fun _ => True)); [|intros published _; by upheld_steps|done].
  unfold publishTimelineAtomically. destruct (timelineStatements _ _ _ _) as [stmts|] eqn:E; [|done]. destruct (_ <? _)%nat; [done|].
  eapply upholds_seq; [eapply writeBatch_upheld; [done|by eapply good_timeline]|]. intros r _. by upheld_steps.
Qed.
End request.

Variable decodeJson : list Z -> option json.

Lemma begin_upheld method verified request : upheld (fun _ => True) (handleBeginRunUpload decodeJson method verified request).
Proof.
  unfold handleBeginRunUpload. upheld_steps. eapply upholds_seq; [apply resolve_upheld|].
  intros [[runVm|]|e]; cbn [req_try]; [|done..]. intros [rv Ha]. upheld_steps.
  - by eapply beginOversized_upheld.
  - unfold beginSealed. by upheld_steps.
  - by eapply beginNew_upheld.
Qed.

(** A request that goes on with the VM it names. *)
Lemma required_upheld verified runId vmName allowSealed (k : result Reply ResolvedRunVm -> ArtifactReq Reply) :
  (forall refusal, upheld (fun _ => True) (k (Err refusal))) ->
  (forall rv runVm, about domainOf vmOf rv runVm -> upheld (fun _ => True) (k (Ok runVm))) ->
  upheld (fun _ => True) (req_try (requireVerifiedRunVm verified runId vmName allowSealed) k).
Proof.
  intros Hr Hk. eapply upholds_seq; [apply require_upheld|]. intros [[runVm|refusal]|e]; [|auto|done]. intros [rv Ha]. eauto.
Qed.
Lemma with_artifact_upheld rv runVm ordinal (k : option SourceArtifactState -> ArtifactReq Reply) :
  about domainOf vmOf rv runVm -> upheld (fun _ => True) (k None) ->
  (forall a, artifact_ok runVm a -> upheld (fun _ => True) (k (Some a))) ->
  upheld (fun _ => True) (req_bind (loadArtifactForRunVm runVm ordinal) k).
Proof. intros Ha Hn Hs. eapply upholds_seq; [by eapply loadArtifact_upheld|]. intros [a|]; auto. Qed.
Lemma with_guard_upheld rv runVm (k : unit -> ArtifactReq Reply) :
  about domainOf vmOf rv runVm -> upheld (fun _ => True) (k tt) ->
  upheld (fun _ => True) (req_try (artifactWriteBatch runVm [] false) k).
Proof. intros Ha Hk. upheld_try (writeBatch_upheld rv runVm [] Ha (good_nil _ _ _)). by destruct a. Qed.

Lemma multipartBegin_upheld method verified runId vmName ordinal :
  upheld (fun _ => True) (handleMultipartBegin method verified runId vmName ordinal).
Proof.
  unfold handleMultipartBegin. upheld_step; [done|]. apply required_upheld; [done|]. intros rv runVm Ha.
  apply (with_artifact_upheld rv); [done|done|]. intros artifact Hok. upheld_steps. apply (with_guard_upheld rv); [done|].
  upheld_steps; [|by eapply startMultipart_upheld]. upheld_try (storeEmpty_upheld rv runVm Ha artifact a Hok). done.
Qed.
Lemma begun_ok upload uploadId u :
  match upload with Some u => upload_ok u | None => True end -> begunUpload upload = Some (uploadId, u) -> upload_ok u.
Proof. unfold begunUpload. intros H E. repeat case_match; by simplify_eq. Qed.
Lemma multipartPart_upheld method hasBody verified runId vmName ordinal partNumber :
  upheld (fun _ => True) (handleMultipartPart method hasBody verified runId vmName ordinal partNumber).
Proof.
  unfold handleMultipartPart. do 2 (upheld_step; [done|]). apply required_upheld; [done|]. intros rv runVm Ha. upheld_step; [done|].
  apply (with_artifact_upheld rv); [done|done|]. intros artifact Hok. eapply upholds_seq; [apply loadUpload_upheld|].
  intros upload Hu. destruct (begunUpload upload) as [[uploadId u]|] eqn:Eu; [|done]. pose proof (begun_ok _ _ _ Hu Eu) as Hup.
  destruct (Z.eqb_spec partNumber (uw_nextExpectedPart u)) as [->|]; [|done]. cbn [negb].
  apply (with_guard_upheld rv); [done|]. apply (upholds_try _ _ _ (fun _ => True)); [|intros etag _|done].
  - eapply upholds_weaken; [|apply outside_upheld]; [by intros [|]|]. destruct Hup as [_ ->]. cbn. lia.
  - upheld_step. eapply upholds_seq; [by eapply advance_upheld|]. intros r _.
    upheld_try (abort_upheld (aw_r2Key (src_row artifact)) uploadId r). done.
Qed.
Lemma artifactComplete_upheld method verified runId vmName ordinal :
  upheld (fun _ => True) (handleArtifactComplete method verified runId vmName ordinal).
Proof.
  unfold handleArtifactComplete. upheld_step; [done|]. apply required_upheld; [done|]. intros rv runVm Ha.
  apply (with_artifact_upheld rv); [done|done|]. intros artifact Hok. do 2 (upheld_step; [done|]).
  apply (with_guard_upheld rv); [done|]. upheld_step. upheld_step.
  - upheld_try (storeEmpty_upheld rv runVm Ha artifact a Hok). done.
  - eapply upholds_seq; [apply loadUpload_upheld|]. intros upload Hu. destruct (begunUpload upload) as [[uploadId u]|] eqn:Eu; [|done].
    destruct (begun_ok _ _ _ Hu Eu) as [Hc _]. destruct (parseUploadedParts (uw_uploadedParts u)) as [|p ps] eqn:Ep; [done|].
    eapply upholds_seq; [by eapply completeMultipart_upheld|]. intros r _.
    upheld_try (abort_upheld (aw_r2Key (src_row artifact)) uploadId r). by upheld_steps.
Qed.
Lemma runComplete_upheld method verified runId vmName : upheld (fun _ => True) (handleRunComplete method verified runId vmName).
Proof.
  unfold handleRunComplete. upheld_step; [done|]. apply required_upheld; [done|]. intros rv runVm Ha.
  assert (upheld (fun _ => True) (completeRun runVm)) as H.
  { unfold completeRun. upheld_step. upheld_try (completed_upheld rv runVm a Ha). by upheld_steps. }
  by upheld_steps.
Qed.
Lemma archiveStage_upheld method verified runId vmName body :
  upheld (fun _ => True) (handleRunArchiveStage method verified runId vmName body).
Proof.
  unfold handleRunArchiveStage. upheld_step; [done|]. apply required_upheld; [done|]. intros rv runVm Ha. upheld_steps.
  all: match goal with |- upheld _ (req_try (advanceRunVmArchiveStage _ ?rank ?now) _) => upheld_try (stage_upheld rv runVm rank now Ha) end; done.
Qed.
Lemma timeline_upheld method verified runId vmName request :
  upheld (fun _ => True) (handleRunTimeline decodeJson method verified runId vmName request).
Proof.
  unfold handleRunTimeline. upheld_step; [done|]. apply required_upheld; [done|]. intros rv runVm Ha. upheld_steps.
  by eapply publishTimeline_upheld.
Qed.
End requests.

(** * Running *)

(** The requests a host can make, with the reply they end in. *)
Inductive handler (decodeJson : list Z -> option json) : ArtifactReq Reply -> Prop :=
| on_begin method verified request : handler decodeJson (handleBeginRunUpload decodeJson method verified request)
| on_multipart_begin method verified runId vmName ordinal :
    handler decodeJson (handleMultipartBegin method verified runId vmName ordinal)
| on_part method hasBody verified runId vmName ordinal partNumber :
    handler decodeJson (handleMultipartPart method hasBody verified runId vmName ordinal partNumber)
| on_artifact_complete method verified runId vmName ordinal :
    handler decodeJson (handleArtifactComplete method verified runId vmName ordinal)
| on_complete method verified runId vmName : handler decodeJson (handleRunComplete method verified runId vmName)
| on_stage method verified runId vmName body : handler decodeJson (handleRunArchiveStage method verified runId vmName body)
| on_timeline method verified runId vmName request :
    handler decodeJson (handleRunTimeline decodeJson method verified runId vmName request).
Definition artifactRequest (decodeJson : list Z -> option json) (p : ArtifactReq Reply) : Prop :=
  exists h, handler decodeJson h /\ p = (r <-- h; Done (replyOf r)).

(** The parts of the upload a request is waiting to have put together. *)
Definition puttingTogether (p : ArtifactReq Reply) : option (list UploadedPartRecord) :=
  match p with
  | Await c _ => match c with MultipartComplete _ _ parts => Some parts | _ => None end
  | _ => None
  end.

(** Hosts' requests run side by side, the rest of the system around them. *)
Definition archive_running (decodeJson : list Z -> option json) domainOf vmOf
  : Config ArtifactCall ArchiveDb (result ArtifactError Reply) -> Config ArtifactCall ArchiveDb (result ArtifactError Reply) -> Prop :=
  rtc (req_step (artifactRequest decodeJson) (elsewhere domainOf vmOf)).

Lemma archive_requests decodeJson domainOf vmOf x0 c c'
  (Hvm : forall a b, snd (vmOf a) = snd (vmOf b) -> a = b) (H0 : archive_ok domainOf vmOf x0)
  (Hreach : archive_running decodeJson domainOf vmOf (mkConfig x0 []) c) (Hlater : archive_running decodeJson domainOf vmOf c c') :
  archive_ok domainOf vmOf (cfg_state c) /\ archive_step vmOf (cfg_state c) (cfg_state c')
  /\ Forall (calls_permitted permitted) (cfg_running c).
Proof.
  eapply requests_uphold; [| | | |exact H0|exact Hreach|exact Hlater].
  - intros p (h & Hh & ->). eapply (upholds_seq _ _ _ (fun _ => True)); [|done].
    destruct Hh; eauto using begin_upheld, multipartBegin_upheld, multipartPart_upheld, artifactComplete_upheld,
      runComplete_upheld, archiveStage_upheld, timeline_upheld.
  - intros s s' He Hs. by eapply elsewhere_ok.
  - apply archive_step_refl.
  - apply archive_step_trans.
Qed.

(** * A store of one run *)

Module ArchiveSample.
Definition domainOf (_ : string) : string := "run".
Definition vmOf (w : string) : string * string := ("run", w).

(** A run with one VM that is being torn down, on a host of the platform. *)
Definition document : RunStateDocument :=
  with_vms Sample.run0 [with_vm_phase Sample.vm0 vm_archived].
Definition db : Db :=
  mkDb [mkRunRow "run" "user" None (Some "run") "host" run_tearing_down (RUN_PHASE_ORDER run_tearing_down) (Some "user")
          (Some document) None None None None None 10 10 StoreSample.content]
    [StoreSample.execution "run" 1 ex_archiving] [mkSlot "user" "run" 10] []
    [mkRuntimeVm "vm-1" "run" "vm-1" 0 "run-web" JNull "" 1000 512 4096 None None 10 10]
    [mkHost "host" scope_platform "agent" (Some "operator") None (Some "session") 1 false] []
    [mkUser "user" None false; mkUser "operator" None false] [].
Definition access : AccessTables := mkAccess [] [] [] [] [] [] [mkCredential "host" 1 None None].
Definition start : ArchiveDb := mkArchiveDb db access [] [] [] [] [] [] [].

Definition agent : VerifiedAgentHost := mkAgent scope_platform None 1 "host" "operator" "agent".
Definition decodeJson (bytes : list Z) : option json :=
  match bytes with
  | [] => Some (JObj [("runId", JStr "run"); ("vmName", JStr "run-web");
      ("artifacts", JArr [JObj [("ordinal", JNum (NInt 1)); ("kind", JStr "log"); ("filename", JStr "boot.log");
        ("contentType", JStr "text/plain"); ("sizeBytes", JNum (NInt 0));
        ("sha256", JStr "0123456789abcdef0123456789abcdef0123456789abcdef0123456789abcdef")]])])
  | _ => None
  end.
(** Another artifact, already reserved, whose first part is stored. *)
Definition partial (owner vm : string) : ArtifactRow :=
  mkArtifactRow "vm-1:1" owner vm 1
    (mkMetadata "log" "boot.log" "text/plain" 9 "0123456789abcdef0123456789abcdef0123456789abcdef0123456789abcdef")
    "run/vm-1/1-log-boot.log" us_pending 50 None.
Definition upload : UploadRow := mkUpload "vm-1:1" (Some "upload") (Some (encodeParts [mkPart (NInt 1) "etag"])) 2 60.
Definition started : ArchiveDb :=
  mkArchiveDb db access [] [partial "run" "vm-1"] [upload] [partial "run" "vm-1"] [upload] [] [].
Definition body : RequestBody := mkBody None (Some []).
Definition answer (B : Type) (c : ArtifactCall B) : B :=
  match c with
  | Clock => 100
  | BucketPut _ _ _ => Ok tt
  | BucketHead _ => Ok None
  | MultipartCreate _ _ _ => Ok "upload"
  | MultipartPart _ _ _ => Ok "etag"
  | MultipartComplete _ _ _ => Ok tt
  | MultipartAbort _ _ => Ok tt
  | ShareVmArchived _ _ => tt
  | ShareRecording _ _ _ => tt
  end.

Definition served (h : ArtifactReq Reply) : ArtifactReq Reply := r <-- h; Done (replyOf r).
Definition begin_ : ArtifactReq Reply := served (handleBeginRunUpload decodeJson "POST" (Ok agent) body).
Definition store_ : ArtifactReq Reply := served (handleMultipartBegin "POST" (Ok agent) "run" "run-web" 1).
Definition complete_ : ArtifactReq Reply := served (handleRunComplete "POST" (Ok agent) "run" "run-web").
Definition after (p : ArtifactReq Reply) (x : ArchiveDb) : ArchiveDb := fst (answered answer p x).
Definition reply (p : ArtifactReq Reply) (x : ArchiveDb) : result ArtifactError Reply := snd (answered answer p x).
(** The VM's one artifact is reserved, stored, and the VM completed. *)
Definition reserved : ArchiveDb := after begin_ start.
Definition stored_ : ArchiveDb := after store_ reserved.
Definition completed : ArchiveDb := after complete_ stored_.
End ArchiveSample.

Lemma sample_ids : forall a b, snd (ArchiveSample.vmOf a) = snd (ArchiveSample.vmOf b) -> a = b.
Proof. done. Qed.
Lemma sample_ok : archive_ok ArchiveSample.domainOf ArchiveSample.vmOf ArchiveSample.start.
Proof. constructor; [|by constructor|done..]. constructor; by repeat constructor. Qed.
(** Serving a request of the sample. *)
Lemma sample_serves h x ps :
  handler ArchiveSample.decodeJson h ->
  archive_running ArchiveSample.decodeJson ArchiveSample.domainOf ArchiveSample.vmOf (mkConfig x ps)
    (mkConfig (ArchiveSample.after (ArchiveSample.served h) x) (ps ++ [Done (ArchiveSample.reply (ArchiveSample.served h) x)])).
Proof. intros Hh. apply served_alone. by exists h. Qed.

(** * Theorems *)

(** C5. Whatever hosts request, and however their requests interleave with each
    other and with the rest of the system: once a VM's artifact writes are sealed
    they stay sealed, and from then on its rows in both artifact ledgers, its
    terminal sessions and its transcripts never change. *)
Theorem sealed_vm_is_final decodeJson domainOf vmOf x0 c c' w
  (Hvm : forall a b, snd (vmOf a) = snd (vmOf b) -> a = b) (H0 : archive_ok domainOf vmOf x0)
  (Hreach : archive_running decodeJson domainOf vmOf (mkConfig x0 []) c) (Hlater : archive_running decodeJson domainOf vmOf c c')
  (Hsealed : isSealed (cfg_state c) w = true) :
  isSealed (cfg_state c') w = true /\ frozen vmOf w (cfg_state c) (cfg_state c').
Proof.
  destruct (archive_requests _ _ _ _ _ _ Hvm H0 Hreach Hlater) as (_ & [Ha Hf _ _] & _). split; [by apply Ha|by apply Hf].
Qed.

(** C13. At every moment the two artifact ledgers list the same artifacts, with the
    same ids, contents and keys; an artifact the newer ledger has stored is stored
    in the older one; and a sealed VM has only stored artifacts, in both. *)
Theorem artifact_ledgers_agree decodeJson domainOf vmOf x0 c
  (Hvm : forall a b, snd (vmOf a) = snd (vmOf b) -> a = b) (H0 : archive_ok domainOf vmOf x0)
  (Hreach : archive_running decodeJson domainOf vmOf (mkConfig x0 []) c) :
  Forall2 (twins domainOf vmOf) (xd_runtime (cfg_state c)) (xd_scenario (cfg_state c))
  /\ (forall w r, isSealed (cfg_state c) w = true -> In r (xd_runtime (cfg_state c)) -> ofRuntime w r = true -> stored r)
  /\ (forall w r, isSealed (cfg_state c) w = true -> In r (xd_scenario (cfg_state c)) -> ofScenario vmOf w r = true -> stored r).
Proof.
  destruct (archive_requests _ _ _ _ _ c Hvm H0 Hreach (rtc_refl _ _)) as ([_ Hl Hs _ _] & _ & _). split_and!; [done| |].
  - intros w r Hw Hin Hr. apply (Hs w); [done|done|]. by apply String.eqb_eq.
  - intros w r Hw Hin Hr. apply String.eqb_eq in Hr.
    destruct (Forall2_In_r _ _ _ _ Hl Hin) as (r' & Hin' & Ht). destruct Ht as (_ & _ & Hv & _ & Hst). apply Hst, (Hs w); [done|done|].
    apply Hvm. by rewrite Hv, <- Hr.
Qed.

(** C26. However the requests interleave, a multipart upload is only ever put
    together from its first parts, one at least, each once and in order. *)
Theorem uploads_completed_in_order decodeJson domainOf vmOf x0 c p parts
  (Hvm : forall a b, snd (vmOf a) = snd (vmOf b) -> a = b) (H0 : archive_ok domainOf vmOf x0)
  (Hreach : archive_running decodeJson domainOf vmOf (mkConfig x0 []) c)
  (Hp : In p (cfg_running c)) (Hcall : puttingTogether p = Some parts) :
  parts <> [] /\ map pt_partNumber parts = map (fun i => NInt (Z.of_nat i)) (seq 1 (length parts)).
Proof.
  destruct (archive_requests _ _ _ _ _ c Hvm H0 Hreach (rtc_refl _ _)) as (_ & _ & Hc).
  eapply List.Forall_forall in Hc; [|exact Hp]. destruct p as [| |B e k]; cbn in Hcall; [done..|].
  destruct e; simplify_eq. exact Hc.
Qed.

(** However the requests interleave, no VM's archive stage ever moves back, no
    artifact is dropped from a ledger or changed there, and none that is stored
    becomes pending again. *)
Theorem archive_never_regresses decodeJson domainOf vmOf x0 c c'
  (Hvm : forall a b, snd (vmOf a) = snd (vmOf b) -> a = b) (H0 : archive_ok domainOf vmOf x0)
  (Hreach : archive_running decodeJson domainOf vmOf (mkConfig x0 []) c) (Hlater : archive_running decodeJson domainOf vmOf c c') :
  (forall w, rank_le (va_archiveStageRank (vmArchive (cfg_state c) w)) (va_archiveStageRank (vmArchive (cfg_state c') w)))
  /\ ledger_le (xd_runtime (cfg_state c)) (xd_runtime (cfg_state c'))
  /\ ledger_le (xd_scenario (cfg_state c)) (xd_scenario (cfg_state c')).
Proof.
  destruct (archive_requests _ _ _ _ _ _ Hvm H0 Hreach Hlater) as (_ & [Ha _ Hr Hs] & _). split_and!; [|done|done].
  intros w. apply Ha.
Qed.

(** ** Witnesses *)


#[local] Abbreviation sample_runs := (archive_running ArchiveSample.decodeJson ArchiveSample.domainOf ArchiveSample.vmOf).
Lemma sample_completes :
  exists ps, sample_runs (mkConfig ArchiveSample.start []) (mkConfig ArchiveSample.completed ps).
Proof.
  eexists. etrans; [|etrans].
  - apply sample_serves. exact (on_begin _ "POST" (Ok ArchiveSample.agent) ArchiveSample.body).
  - apply sample_serves. exact (on_multipart_begin _ "POST" (Ok ArchiveSample.agent) "run" "run-web" 1).
  - apply (sample_serves (handleRunComplete "POST" (Ok ArchiveSample.agent) "run" "run-web") ArchiveSample.stored_), on_complete.
Qed.
Lemma sample_begins_again ps :
  exists ps', sample_runs (mkConfig ArchiveSample.completed ps)
    (mkConfig (ArchiveSample.after ArchiveSample.begin_ ArchiveSample.completed) ps').
Proof.
  eexists. apply (sample_serves (handleBeginRunUpload ArchiveSample.decodeJson "POST" (Ok ArchiveSample.agent) ArchiveSample.body)), on_begin.
Qed.

Lemma sealed_vm_is_final_witness :
  isSealed ArchiveSample.completed "vm-1" = true /\ length (xd_runtime ArchiveSample.completed) = 1%nat
  /\ isSealed (ArchiveSample.after ArchiveSample.begin_ ArchiveSample.completed) "vm-1" = true
  /\ frozen ArchiveSample.vmOf "vm-1" ArchiveSample.completed (ArchiveSample.after ArchiveSample.begin_ ArchiveSample.completed).
Proof.
  split; [vm_compute; reflexivity|]. split; [vm_compute; reflexivity|].
  destruct sample_completes as [ps H]. destruct (sample_begins_again ps) as [ps' H'].
  apply (sealed_vm_is_final ArchiveSample.decodeJson ArchiveSample.domainOf ArchiveSample.vmOf ArchiveSample.start
    (mkConfig ArchiveSample.completed ps)
    (mkConfig (ArchiveSample.after ArchiveSample.begin_ ArchiveSample.completed) ps') "vm-1" sample_ids sample_ok H H').
  vm_compute. reflexivity.
Defined.

Lemma artifact_ledgers_agree_witness :
  length (xd_scenario ArchiveSample.completed) = 1%nat /\ isSealed ArchiveSample.completed "vm-1" = true
  /\ Forall2 (twins ArchiveSample.domainOf ArchiveSample.vmOf) (xd_runtime ArchiveSample.completed) (xd_scenario ArchiveSample.completed).
Proof.
  split; [vm_compute; reflexivity|]. split; [vm_compute; reflexivity|]. destruct sample_completes as [ps H].
  apply (artifact_ledgers_agree ArchiveSample.decodeJson ArchiveSample.domainOf ArchiveSample.vmOf ArchiveSample.start
    (mkConfig ArchiveSample.completed ps) sample_ids sample_ok H).
Defined.

Lemma archive_never_regresses_witness :
  ledger_le (xd_runtime ArchiveSample.start) (xd_runtime ArchiveSample.completed)
  /\ map aw_uploadStatus (xd_runtime ArchiveSample.completed) = [us_uploaded].
Proof.
  split; [|vm_compute; reflexivity]. destruct sample_completes as [ps H].
  apply (archive_never_regresses ArchiveSample.decodeJson ArchiveSample.domainOf ArchiveSample.vmOf ArchiveSample.start
    (mkConfig ArchiveSample.start []) (mkConfig ArchiveSample.completed ps) sample_ids sample_ok (rtc_refl _ _) H).
Defined.

Lemma sample_started_ok : archive_ok ArchiveSample.domainOf ArchiveSample.vmOf ArchiveSample.started.
Proof.
  assert (Forall upload_ok [ArchiveSample.upload]) by (constructor; [split; vm_compute; reflexivity|constructor]).
  constructor; [constructor; by repeat constructor| |done|done|done]. repeat constructor. intros H'. by inversion H'.
Qed.
(** The request that completes the started upload, up to the call that puts it
    together. *)
#[local] Abbreviation sample_upload :=
  (advanced ArchiveSample.answer 10
     (ArchiveSample.served (handleArtifactComplete "POST" (Ok ArchiveSample.agent) "run" "run-web" 1)) ArchiveSample.started).
Lemma uploads_completed_in_order_witness :
  puttingTogether (snd sample_upload) = Some [mkPart (NInt 1) "etag"]
  /\ [mkPart (NInt 1) "etag"] <> [] /\ map pt_partNumber [mkPart (NInt 1) "etag"] = map (fun i => NInt (Z.of_nat i)) (seq 1 1).
Proof.
  split; [vm_compute; reflexivity|].
  apply (uploads_completed_in_order ArchiveSample.decodeJson ArchiveSample.domainOf ArchiveSample.vmOf ArchiveSample.started
    (mkConfig (fst sample_upload) [snd sample_upload]) (snd sample_upload) [mkPart (NInt 1) "etag"] sample_ids
    sample_started_ok).
  - apply (advanced_reached _ _ ArchiveSample.answer 10 _ ArchiveSample.started []). eexists. split; [apply on_artifact_complete|reflexivity].
  - left. reflexivity.
  - vm_compute. reflexivity.
Defined.
