(* ===== verification/ArtifactResults.v ===== *)
(** What single operations of [ArtifactStore] and [ArtifactRoutes] achieve: an
    accepted manifest, a completed VM, a published timeline, a new object key. *)
From stdpp Require Import base list strings pretty relations.
From Stdlib Require Import ZArith Lia Ascii.
From S2P Require Import Prelude Json Text RunState RunLifecycle RunView Store RuntimeExecutions RunProjection Tar RegistryKeys Access Requests ArtifactStore ArtifactRoutes ArtifactChanges ArtifactSafety.

Open Scope string_scope.
Open Scope list_scope.
Open Scope Z_scope.
Open Scope req_scope.

(** * Manifests *)

Lemma existsb_false_In {A} (p : A -> bool) l x : existsb p l = false -> In x l -> p x = false.
Proof. intros H Hin. destruct (p x) eqn:E; [|done]. rewrite <- H. symmetry. apply existsb_In. eauto. Qed.

(** An entry whose ordinal is reserved already is the row that has it. *)
Lemma entry_recorded owner vm rows manifest e :
  existsb (ordinalConflictSql owner vm manifest) rows = false -> In e manifest ->
  exists r, In r (rows ++ map (reservedRow owner vm) (unreserved owner vm rows manifest))
    /\ ledgerRow owner vm r = true /\ aw_ordinal r = en_ordinal e /\ rowMatches r e = true.
Proof.
  intros Hc He. destruct (existsb (fun r => ledgerRow owner vm r && (aw_ordinal r =? en_ordinal e)) rows) eqn:E.
  - apply existsb_In in E as (r & Hin & E). apply andb_prop in E as [Hl Ho]. exists r.
    split_and!; [apply in_or_app; by left|done|lia|]. pose proof (existsb_false_In _ _ _ Hc Hin) as Hn. cbn in Hn.
    pose proof (existsb_false_In _ _ _ Hn He) as Hm. cbn in Hm. rewrite Ho, Hl in Hm. cbn in Hm. by apply negb_false_iff.
  - exists (reservedRow owner vm e). split_and!; cbn.
    + apply in_or_app. right. apply in_map, filter_In. split; [done|]. by rewrite E.
    + unfold ledgerRow. cbn. by rewrite !String.eqb_refl.
    + done.
    + unfold rowMatches. cbn. rewrite !String.eqb_refl. cbn. by apply bool_decide_eq_true.
Qed.

(** When a manifest is accepted, both ledgers have a row for each of its
    entries, of the request's VM and with the ordinal, the id, the key and the
    metadata of the entry; rows that were there stay. *)
Theorem accepted_manifest_is_recorded runVm rv manifest now x x'
  (Hrv : rm_runtimeVmId runVm = Some rv) (Hn : rv <> "")
  (H : archive_batch (artifactWriteGuard runVm false now :: reservationStatements runVm manifest) x = Ok x') :
  (exists new, xd_runtime x' = xd_runtime x ++ new) /\ (exists new, xd_scenario x' = xd_scenario x ++ new)
  /\ Forall (fun e => exists r, In r (xd_runtime x') /\ ledgerRow (rm_runId runVm) rv r = true
                                /\ aw_ordinal r = en_ordinal e /\ rowMatches r e = true) manifest
  /\ Forall (fun e => exists r, In r (xd_scenario x') /\ ledgerRow (rm_domainId runVm) (rm_vmId runVm) r = true
                                /\ aw_ordinal r = en_ordinal e /\ rowMatches r e = true) manifest.
Proof.
  cbn [archive_batch] in H. destruct (artifactWriteGuard _ _ _ x) as [y|] eqn:G; cbn [result_bind] in H; [|done].
  apply writeGuard_guarding in G as ->. unfold reservationStatements in H. rewrite Hrv in H.
  replace (truthy_opt (Some rv)) with true in H by (symmetry; by apply truthy_spec). cbn [app archive_batch] in H.
  unfold artifactManifestConflictGuard in H. destruct (manifestConflict runVm manifest x) eqn:C; [cbn in H; done|].
  cbn [result_bind] in H. unfold manifestConflict in C. rewrite Hrv in C. cbn [isNull negb andb] in C.
  apply orb_false_iff in C as [C _]. apply orb_false_iff in C as [C _]. apply orb_false_iff in C as [C _].
  apply orb_false_iff in C as [C _]. apply orb_false_iff in C as [C Cs]. apply orb_false_iff in C as [Cr _].
  unfold runtimeArtifactReservation, scenarioArtifactReservation, contextVm in *. rewrite Hrv in *. cbn [nullish] in *.
  destruct (insert_rows insertRuntimeArtifact _ _) as [rows|] eqn:Er in H; cbn in H; [|done].
  apply insert_rows_app in Er; [|exact insertRuntime_app].
  destruct (insert_rows insertScenarioArtifact _ _) as [rows'|] eqn:Es in H; cbn in H; [|done].
  apply insert_rows_app in Es; [|exact insertScenario_app]. simplify_eq. cbn.
  split_and!; [by eexists|by eexists| |]; apply List.Forall_forall; intros e He; by apply entry_recorded.
Qed.

(** * Timelines *)

Lemma chunked_length {A} (size : nat) (l : list A) : (0 < size)%nat -> (size * length (chunked l size) <= length l + (size - 1))%nat.
Proof.
  intros Hs. unfold chunked. generalize (length l) at 1 as fuel. intros fuel. revert l.
  induction fuel as [|fuel IH]; intros l; [destruct l; cbn; lia|]. destruct l as [|a l]; [cbn; lia|].
  cbn [chunkedFrom length]. specialize (IH (drop size (a :: l))). rewrite length_drop in IH. cbn [length] in IH.
  destruct (le_lt_dec size (S (length l))); [lia|]. rewrite (drop_ge (a :: l) size) by (cbn; lia).
  replace (chunkedFrom fuel size []) with (@nil (list A)) by (by destruct fuel). cbn. lia.
Qed.
Lemma chunked_sizes {A} (size : nat) (l : list A) : Forall (fun g => (length g <= size)%nat) (chunked l size).
Proof.
  unfold chunked. generalize (length l) as fuel. intros fuel. revert l. induction fuel as [|fuel IH]; intros l; [destruct l; constructor|].
  destruct l as [|a l]; [constructor|]. cbn [chunkedFrom]. constructor; [rewrite length_take; lia|]. apply IH.
Qed.
Lemma groupStatements_fits {R} (columns size : nat) (statement : list R -> AStmt) groups :
  (columns * size <= MAX_D1_BOUND_PARAMETERS)%nat -> Forall (fun g => (length g <= size)%nat) groups ->
  exists stmts, groupStatements columns statement groups = Some stmts /\ length stmts = length groups.
Proof.
  intros Hc. induction 1 as [|g groups Hg _ (stmts & IH & Hl)]; [by exists []|].
  exists (statement g :: stmts). cbn [groupStatements]. rewrite IH. unfold withinBudget.
  rewrite (proj2 (Nat.leb_le _ _)); [|nia]. cbn. by rewrite Hl.
Qed.

Lemma normalizeSessions_length offset total inputs sessions :
  normalizeSessionsFrom offset total inputs = Ok (Some sessions) -> length sessions = length inputs.
Proof.
  revert offset total sessions. induction inputs as [|input l IH]; intros offset total sessions; cbn; [by intros [= <-]|].
  intros H. assert (E : exists t rest, normalizeSessionsFrom (offset + 1) t l = Ok (Some rest) /\ length sessions = S (length rest)).
  { destruct input; try done; cbn in H; (destruct (castFilenameOf _); cbn in H; [|done]);
      (destruct (timelineSession _ _ _ _) as [[s' t]|]; [|done]);
      (destruct (normalizeSessionsFrom (offset + 1) t l) as [[rest|]|] eqn:E; cbn in H; simplify_eq); by eauto. }
  destruct E as (t & rest & E & ->). by rewrite (IH _ _ _ E).
Qed.
Lemma resolveCasts_length rows sessions work : resolveCasts rows sessions = Some work -> length work = length sessions.
Proof.
  revert work. induction sessions as [|s' l IH]; intros work; cbn; [by intros [= <-]|].
  destruct (castOf rows s'); cbn; [|done]. case_match; [done|]. destruct (resolveCasts rows l) as [more|] eqn:E; cbn; [|done].
  intros [= <-]. cbn. by rewrite (IH more).
Qed.

(** The timeline of an accepted request, whatever its sessions, is published
    in one transaction of at most ninety statements, none of which binds more than
    a hundred parameters: neither budget that the publication checks refuses it. *)
Theorem timeline_within_budget runVm inputs sessions rows work timeline now
  (Hn : normalizeTimelineSessions inputs = Ok (Some sessions)) (Hr : resolveCasts rows sessions = Some work) :
  exists stmts, timelineStatements runVm work timeline now = Some stmts /\ (length stmts <= 90)%nat.
Proof.
  assert (Hw : (length work <= MAX_TIMELINE_SESSIONS)%nat).
  { rewrite (resolveCasts_length _ _ _ Hr). unfold normalizeTimelineSessions in Hn. destruct inputs as [| | | |items|]; try done.
    destruct (Nat.ltb_spec MAX_TIMELINE_SESSIONS (length items)); [done|]. by rewrite (normalizeSessions_length _ _ _ _ Hn). }
  unfold MAX_TIMELINE_SESSIONS in Hw. unfold timelineStatements, buildRuntimeTerminalSessionStatements, buildScenarioTranscriptStatements.
  destruct (groupStatements_fits 6 16 transcriptStatement (chunked (map (transcriptOf runVm now) work) 16)) as (t & Et & Lt);
    [unfold MAX_D1_BOUND_PARAMETERS; lia|apply chunked_sizes|].
  change SCENARIO_TRANSCRIPT_COLUMNS_PER_ROW with 6%nat. change MAX_SCENARIO_TRANSCRIPTS_PER_STATEMENT with 16%nat.
  pose proof (chunked_length 16 (map (transcriptOf runVm now) work) ltac:(lia)) as Bt. rewrite length_map in Bt.
  destruct (truthy_opt (rm_runtimeVmId runVm)).
  - destruct (groupStatements_fits 11 9 terminalSessionStatement
      (chunked (map (terminalSessionOf runVm (contextVm runVm) now) work) 9)) as (s & Es & Ls); [unfold MAX_D1_BOUND_PARAMETERS; lia|apply chunked_sizes|].
    change TERMINAL_SESSION_COLUMNS_PER_ROW with 11%nat. change MAX_TERMINAL_SESSIONS_PER_STATEMENT with 9%nat.
    pose proof (chunked_length 9 (map (terminalSessionOf runVm (contextVm runVm) now) work) ltac:(lia)) as Bs. rewrite length_map in Bs.
    rewrite Es, Et. eexists. split; [reflexivity|]. rewrite !length_app. cbn [length]. lia.
  - rewrite Et. eexists. split; [reflexivity|]. rewrite !length_app. cbn [length]. lia.
Qed.

(** * Completion *)

Lemma existsb_same {A} (p q : A -> bool) l : (forall x, p x = q x) -> existsb p l = existsb q l.
Proof. intros H. induction l as [|x l IH]; [done|]. cbn. by rewrite H, IH. Qed.

Section completion.
Context (runVm : ResolvedRunVm) (rv : string).
Hypotheses (Hrv : rm_runtimeVmId runVm = Some rv) (Hn : rv <> "").

(** An admitted write finds the VM's row. *)
Lemma guard_vm allowSealed now x x' :
  artifactWriteGuard runVm allowSealed now x = Ok x' ->
  existsb (fun v => (rv_id v =s rv) && (rv_executionId v =s rm_runId runVm)) (db_vms (xd_store x)) = true
  /\ exists e, In e (db_executions (xd_store x)) /\ re_id e = rm_runId runVm.
Proof.
  intros H. unfold artifactWriteGuard in H. case_match; [done|]. destruct (artifactWriteCondition _ _ _ _) eqn:E; [|done].
  unfold artifactWriteCondition in E. apply andb_prop in E as [_ E]. apply existsb_In in E as (e & Hein & E).
  apply andb_prop in E as [He E]. unfold writableExecution in He. repeat (apply andb_prop in He as [He _]). apply String.eqb_eq in He.
  apply existsb_In in E as (run & _ & E). apply andb_prop in E as [_ E]. apply existsb_In in E as (v & Hvin & E).
  unfold writableVm in E. rewrite Hrv in E. repeat (apply andb_prop in E as [E ?]). split; [|eauto].
  apply existsb_In. exists v. split; [done|]. cbn in *. rewrite <- He. apply andb_true_intro. by split.
Qed.
Lemma seal_sealed executionId now x x' :
  existsb (fun v => (rv_id v =s rv) && (rv_executionId v =s executionId)) (db_vms (xd_store x)) = true ->
  sealVm rv executionId now x = Ok x' ->
  isSealed x' rv = true /\ db_executions (xd_store x') = db_executions (xd_store x).
Proof.
  intros Hv H. unfold sealVm, updateVmArchive in H. rewrite (existsb_same _ (fun v => (rv_id v =s rv) && (rv_executionId v =s executionId))), Hv in H.
  2: { intros v. by rewrite andb_true_r. }
  simplify_eq. split; [|done]. unfold isSealed, vmArchive. cbn. by rewrite Map_get_set_eq.
Qed.

Lemma seal_vms executionId now x y v :
  sealVm rv executionId now x = Ok y -> In v (db_vms (xd_store y)) ->
  exists v', In v' (db_vms (xd_store x)) /\ rv_id v' = rv_id v /\ rv_executionId v' = rv_executionId v.
Proof.
  unfold sealVm, updateVmArchive. cbv zeta. case_match; intros [= <-] Hin; [|eauto]. cbn in Hin. unfold update_where in Hin.
  apply in_map_iff in Hin as (v' & <- & Hin). exists v'. split; [done|]. by destruct (_ && _).
Qed.

(** The last VM to be sealed archives its execution. *)
Lemma seal_archives executionId now x y z :
  (forall v, In v (db_vms (xd_store x)) -> rv_executionId v = executionId -> rv_id v = rv \/ isSealed x (rv_id v) = true) ->
  existsb (fun v => (rv_id v =s rv) && (rv_executionId v =s executionId)) (db_vms (xd_store x)) = true ->
  (exists e, In e (db_executions (xd_store x)) /\ re_id e = executionId) ->
  sealVm rv executionId now x = Ok y -> archiveRuntimeExecutionWhenAllVmsSealed executionId now y = Ok z ->
  archived_in executionId (xd_store z).
Proof.
  intros Hall Hv (e & He & Hid) Hy Hz. destruct (seal_sealed _ _ _ _ Hv Hy) as [Hs Hex].
  assert (Hsealed : allVmsSealed executionId y = true).
  { unfold allVmsSealed. apply negb_true_iff, not_true_iff_false. intros E. apply existsb_In in E as (v & Hin & E).
    apply andb_prop in E as [Ee E]. apply String.eqb_eq in Ee. apply negb_true_iff in E.
    pose proof (updateVmArchive_archives (fun _ => "") (fun _ => ("", "")) rv executionId (fun _ => true) sealedArchive now
      (fun a _ => archive_le_sealed a) _ _ Hy) as [_ _ Ho _].
    destruct (seal_vms _ _ _ _ _ Hy Hin) as (v' & Hin' & E1 & E2).
    destruct (decide (rv_id v = rv)) as [Eq|Hne]; [unfold isSealed in Hs; rewrite Eq in E; congruence|].
    destruct (Hall v' Hin' ltac:(congruence)) as [Hr|Hr]; [congruence|]. rewrite E1 in Hr. unfold isSealed in Hr.
    rewrite Ho in E by done. congruence. }
  unfold archiveRuntimeExecutionWhenAllVmsSealed in Hz. rewrite Hsealed in Hz. injection Hz as <-. cbn. rewrite Hex.
  exists (archivedExecution now e). split_and!; [|done|done]. cbn. unfold update_where. apply in_map_iff. exists e.
  rewrite andb_true_r, Hid, String.eqb_refl. done.
Qed.

Lemma store_batch_keeps (P : Db -> Prop) stmts x x' :
  Forall (keeps P) stmts -> archive_batch (map on_store stmts) x = Ok x' -> P (xd_store x) -> P (xd_store x').
Proof.
  intros Hs. revert x. induction Hs as [|s' l Hk _ IH]; intros x; cbn; [by intros [= <-]|]. unfold on_store at 1.
  destruct (s' (xd_store x)) as [[db n]|] eqn:E; cbn; [|done]. intros H HP. eapply IH; [exact H|]. by eapply Hk.
Qed.

(** ** The parts of the transaction *)

#[local] Abbreviation elsewhere0 := (elsewhere (fun _ => "") (fun _ => ("", ""))).
Lemma elsewhere0_batch l x x' :
  (forall s', In s' l -> changes elsewhere0 s') -> archive_batch l x = Ok x' -> elsewhere0 x x'.
Proof.
  intros Hl. apply batch_changes; [done| |by apply List.Forall_forall]. intros a b c [] []. constructor; [auto|congruence..].
Qed.

Lemma completion_effects now y z :
  existsb (fun v => (rv_id v =s rv) && (rv_executionId v =s rm_runId runVm)) (db_vms (xd_store y)) = true ->
  (exists e, In e (db_executions (xd_store y)) /\ re_id e = rm_runId runVm) ->
  archive_batch (completionStatements runVm now) y = Ok z ->
  isSealed z rv = true /\ xd_runtime z = xd_runtime y /\ xd_scenario z = xd_scenario y /\ allUploadedGuard runVm y = Ok y
  /\ ((forall v, In v (db_vms (xd_store y)) -> rv_executionId v = rm_runId runVm -> rv_id v = rv \/ isSealed y (rv_id v) = true) ->
      archived_in (rm_runId runVm) (xd_store z)).
Proof.
  intros Hv He H. unfold completionStatements in H. rewrite Hrv in H.
  replace (truthy_opt (Some rv)) with true in H by (symmetry; by apply truthy_spec).
  replace (contextVm runVm) with rv in H by (unfold contextVm; by rewrite Hrv). cbn [archive_batch] in H.
  destruct (allUploadedGuard runVm y) as [y'|] eqn:U; cbn [result_bind] in H; [|done].
  pose proof (uploadedGuard_guarding _ _ _ U) as ->.
  destruct (sealVm rv (rm_runId runVm) now y) as [m|] eqn:S; cbn [result_bind] in H; [|done].
  destruct (archiveRuntimeExecutionWhenAllVmsSealed (rm_runId runVm) now m) as [z'|] eqn:A; cbn [result_bind] in H; [|done].
  injection H as ->. destruct (seal_sealed _ _ _ _ Hv S) as [Hs _].
  pose proof (updateVmArchive_archives (fun _ => "") (fun _ => ("", "")) rv (rm_runId runVm) (fun _ => true) sealedArchive now
    (fun a _ => archive_le_sealed a) _ _ S) as [_ T1 _ _]. injection T1 as T1 _ T2 _ _ _.
  destruct (sealExecution_elsewhere (fun _ => "") (fun _ => ("", "")) _ _ _ _ A) as [_ V R _ C _ _ _].
  split_and!; [|congruence..|done|].
  - unfold isSealed. by rewrite (vmArchive_same m z).
  - intros Hall. by eapply seal_archives.
Qed.

Lemma tail_effects next runId now z x' (b : bool) :
  archive_batch ((if b then [courseCompletionStatement runId now] else [])
                 ++ map on_store (scenarioRunRuntimeProjectionStatements next mode_update)) z = Ok x' ->
  elsewhere0 z x' /\ (forall id, archived_in id (xd_store z) -> archived_in id (xd_store x')).
Proof.
  intros H. split.
  - revert H. apply elsewhere0_batch. intros s' Hs. apply in_app_or in Hs as [Hs|Hs]; [|by eapply projection_elsewhere].
    destruct b; [|done]. destruct Hs as [<-|[]]. apply courseCompletion_elsewhere.
  - intros id Hid. apply archive_batch_app in H as (m & Hm & H). eapply store_batch_keeps; [apply (archived_projection id next mode_update)|exact H|].
    destruct b; cbn in Hm; by simplify_eq.
Qed.
End completion.

Lemma uploadedGuard_all runVm rv x :
  rm_runtimeVmId runVm = Some rv -> allUploadedGuard runVm x = Ok x ->
  (forall r, In r (xd_runtime x) -> aw_vm r = rv -> stored r)
  /\ (forall r, In r (xd_scenario x) -> ledgerRow (rm_domainId runVm) (rm_vmId runVm) r = true -> stored r).
Proof.
  intros Hrv H. unfold allUploadedGuard in H. rewrite Hrv in H. destruct (_ && _) eqn:E in H; [|done].
  apply andb_prop in E as [E1 E2]. apply negb_true_iff in E1, E2. split; intros r Hin Hr.
  - pose proof (existsb_false_In _ _ _ E1 Hin) as Hf. cbn in Hf. rewrite Hr, String.eqb_refl in Hf. cbn in Hf.
    by apply negb_false_iff, bool_decide_eq_true in Hf.
  - pose proof (existsb_false_In _ _ _ E2 Hin) as Hf. cbn in Hf. rewrite Hr in Hf. cbn in Hf.
    by apply negb_false_iff, bool_decide_eq_true in Hf.
Qed.

(** C28. When a VM's completion commits, all artifacts of the VM are stored, in both
    ledgers, and its writes are sealed; and when the execution's other VMs are
    sealed already, the execution is archived in the same transaction. *)
Theorem completion_seals_and_archives runVm rv run next now clock x x'
  (Hrv : rm_runtimeVmId runVm = Some rv) (Hn : rv <> "")
  (H : archive_batch (lifecycleStatements runVm run next now clock (completionStatements runVm now) true) x = Ok x') :
  isSealed x' rv = true
  /\ (forall r, In r (xd_runtime x') -> aw_vm r = rv -> stored r)
  /\ (forall r, In r (xd_scenario x') -> ledgerRow (rm_domainId runVm) (rm_vmId runVm) r = true -> stored r)
  /\ ((forall v, In v (db_vms (xd_store x)) -> rv_executionId v = rm_runId runVm -> rv_id v = rv \/ isSealed x (rv_id v) = true) ->
      archived_in (rm_runId runVm) (xd_store x')).
Proof.
  unfold lifecycleStatements in H. cbv zeta in H. cbn [app archive_batch] in H.
  destruct (artifactWriteGuard runVm true clock x) as [y|] eqn:G; cbn [result_bind] in H; [|done].
  destruct (guard_vm runVm rv Hrv _ _ _ _ G) as [Hv He]. apply writeGuard_guarding in G as ->.
  destruct (artifactRunStateGuard _ _ x) as [y|] eqn:G; cbn [result_bind] in H; [|done]. apply stateGuard_guarding in G as ->.
  unfold lifecycleMutation, on_store in H. cbn [updateRuns result_bind] in H.
  match type of H with archive_batch _ ?m = _ => set (y := m) in H end.
  apply archive_batch_app in H as (z & Hz & H).
  destruct (completion_effects runVm rv Hrv Hn now y z Hv He Hz) as (Hs & Er & Es & Hu & Ha).
  apply tail_effects in H as [[_ V R _ C _ _ _] Hk]. destruct (uploadedGuard_all _ _ _ Hrv Hu) as [Hr Hc].
  rewrite R, C, Er, Es. split_and!; [|done|done|auto]. unfold isSealed. by rewrite (vmArchive_same z x').
Qed.

(** * Object keys *)

Lemma utf8_cons c s : utf8_length (String c s) = ((if (Z.of_N (N_of_ascii c) <? 128)%Z then 1 else 2) + utf8_length s)%nat.
Proof. done. Qed.
Lemma utf8_app a b : utf8_length (a +:+ b) = (utf8_length a + utf8_length b)%nat.
Proof.
  induction a as [|c a IH]; [done|]. change (String c a +:+ b) with (String c (a +:+ b)). rewrite !utf8_cons, IH. lia.
Qed.
Lemma utf8_bound s : (utf8_length s <= 2 * String.length s)%nat.
Proof. induction s as [|c s IH]; [done|]. rewrite utf8_cons. cbn [String.length]. case_match; lia. Qed.
Lemma replace_runs_utf8 keep b s : (utf8_length (replace_runs keep b s) <= utf8_length s)%nat.
Proof.
  revert b. induction s as [|c s IH]; intros b; [done|]. cbn [replace_runs]. rewrite (utf8_cons c s).
  destruct (keep c); [rewrite utf8_cons; apply Nat.add_le_mono_l, IH|].
  destruct b; [pose proof (IH true); case_match; lia|]. 
  change (utf8_length (String "-" (replace_runs keep true s))) with (S (utf8_length (replace_runs keep true s))).
  pose proof (IH true). case_match; lia.
Qed.
Lemma sanitize_utf8 s : (utf8_length (sanitizeObjectKeySegment s) <= utf8_length s)%nat.
Proof. unfold sanitizeObjectKeySegment. etrans; apply replace_runs_utf8. Qed.
Lemma replace_runs_free keep c b s :
  (forall d, keep d = true -> d <> c) -> c <> "-"%char -> unit_free c (replace_runs keep b s) = true.
Proof.
  intros Hk Hc. revert b. induction s as [|d s IH]; intros b; [done|]. cbn [replace_runs]. destruct (keep d) eqn:E.
  - cbn [unit_free]. rewrite IH. rewrite (proj2 (Ascii.eqb_neq d c)); [done|by apply Hk].
  - destruct b; [apply IH|]. cbn [unit_free]. rewrite IH, (proj2 (Ascii.eqb_neq "-"%char c)); [done|congruence].
Qed.
Lemma replace_runs_keeps_free keep c b s : unit_free c s = true -> c <> "-"%char -> unit_free c (replace_runs keep b s) = true.
Proof.
  intros Hs Hc. revert b Hs. induction s as [|d s IH]; intros b Hs; [done|]. cbn [replace_runs unit_free] in *.
  apply andb_prop in Hs as [Hd Hs]. destruct (keep d); cbn [unit_free]; [rewrite Hd; by apply IH|].
  destruct b; [by apply IH|]. cbn [unit_free]. rewrite IH, (proj2 (Ascii.eqb_neq "-"%char c)); [done|congruence|done].
Qed.
Lemma sanitize_free s : unit_free "/" (sanitizeObjectKeySegment s) = true.
Proof.
  unfold sanitizeObjectKeySegment. apply replace_runs_keeps_free; [|done]. apply replace_runs_free; [|done].
  intros d Hd ->. vm_compute in Hd. done.
Qed.

Definition artifactKey (runId vmId : string) (ordinal : Z) (kind filename : string) : string :=
  sanitizeObjectKeySegment runId +:+ "/" +:+ sanitizeObjectKeySegment vmId +:+ "/"
  +:+ pretty ordinal +:+ "-" +:+ sanitizeObjectKeySegment kind +:+ "-" +:+ sanitizeObjectKeySegment filename.
Lemma artifactKey_ordinal runId vmId o o' k k' f f' :
  0 <= o -> 0 <= o' -> artifactKey runId vmId o k f = artifactKey runId vmId o' k' f' -> o = o'.
Proof.
  intros Ho Ho' H. unfold artifactKey in H.
  change ("/" +:+ ?s) with (String "/" s) in H.
  apply (app_free_inj "/") in H as [_ H]; [|apply sanitize_free..].
  apply (app_free_inj "/") in H as [_ H]; [|apply sanitize_free..].
  apply (app_free_inj "-") in H as [H _]; [by apply pretty_Z_inj| |].
  all: eapply digits_unit_free; [|by apply digits_value_pretty]; done.
Qed.

Lemma trim_start_utf8 s : (utf8_length (trim_start s) <= utf8_length s)%nat.
Proof. induction s as [|c s IH]; [done|]. cbn [trim_start]. destruct (js_space c); [rewrite utf8_cons; lia|done]. Qed.
Lemma trim_end_utf8 s : (utf8_length (trim_end s) <= utf8_length s)%nat.
Proof.
  induction s as [|c s IH]; [done|]. cbn [trim_end]. destruct (trim_end s) as [|d t] eqn:E.
  - destruct (js_space c); [cbn; lia|]. rewrite !utf8_cons. cbn [utf8_length codes code_units map foldr]. change (utf8_length "") with 0%nat. lia.
  - rewrite !(utf8_cons c). lia.
Qed.
Lemma normalizeText_utf8 value max s : normalizeArtifactText value max = Some s -> (utf8_length s <= max)%nat.
Proof.
  unfold normalizeArtifactText. destruct value as [[| | |v| |]|]; try done. destruct (Nat.ltb_spec max (utf8_length v)); [done|].
  unfold or_null. case_match; [|done]. intros [= <-]. unfold trim. etrans; [apply trim_end_utf8|]. etrans; [apply trim_start_utf8|done].
Qed.

(** What an accepted artifact keeps within. *)
Definition input_bounded (a : ArtifactInput) : Prop :=
  0 < an_ordinal a < 2 ^ 53 /\ (utf8_length (am_kind (an_metadata a)) <= MAX_ARTIFACT_KIND_BYTES)%nat
  /\ (utf8_length (am_filename (an_metadata a)) <= MAX_ARTIFACT_FILENAME_BYTES)%nat.
Lemma normalizeInput_bounded input a : normalizeArtifactInput input = Some a -> input_bounded a.
Proof.
  unfold normalizeArtifactInput. intros H. repeat case_match; simplify_eq.
  repeat match goal with E : _ && _ = true |- _ => apply andb_prop in E as [E ?] end.
  split_and!; cbn; [lia| |by eapply normalizeText_utf8..].
  match goal with E : normalizeInteger (field _ "ordinal") = Some ?z |- ?z < _ => unfold normalizeInteger in E; repeat case_match; simplify_eq end.
  unfold safe_integer, MAX_SAFE_INTEGER in *. lia.
Qed.
Lemma normalizeAll_bounded inputs artifacts : normalizeAll inputs = Some artifacts -> Forall input_bounded artifacts.
Proof.
  revert artifacts. induction inputs as [|i l IH]; intros artifacts; cbn; [by intros [= <-]|].
  destruct (normalizeArtifactInput i) eqn:E; cbn; [|done]. destruct (normalizeAll l); cbn; [|done]. intros [= <-].
  constructor; [by eapply normalizeInput_bounded|by apply IH].
Qed.
Lemma consecutive_ordinals from l : consecutive from l = true -> NoDup (map an_ordinal l) /\ Forall (fun a => from <= an_ordinal a) l.
Proof.
  revert from. induction l as [|a l IH]; intros from; cbn; [intros _; split; constructor|]. intros H.
  apply andb_prop in H as [Ha H]. destruct (IH _ H) as [Hn Hf]. split.
  - constructor; [|done]. intros Hin. apply list_elem_of_In, in_map_iff in Hin as (b & Hb & Hin).
    eapply List.Forall_forall in Hf; [|exact Hin]. cbn in Hf. lia.
  - constructor; [lia|]. eapply Forall_impl; [exact Hf|]. cbn. intros b Hb. lia.
Qed.
Lemma pretty_ordinal_length o : 0 < o < 2 ^ 53 -> (String.length (pretty o) <= 16)%nat.
Proof.
  intros Ho. destruct o as [|p|p]; [lia| |lia]. change (pretty (Zpos p)) with (pretty (Npos p)). unfold pretty, pretty_N.
  rewrite decide_False by done. etrans; [apply (pretty_N_go_length 16)|cbn; lia].
  assert (Z.of_N (Npos p) < 10 ^ 16) by (cbn; lia). apply N2Z.inj_lt. rewrite N2Z.inj_pow. done.
Qed.

Lemma manifestEntry_fits runVm createdAt a :
  assertArtifactIdentityWithinR2KeyBudget (rm_runId runVm) (rm_vmId runVm) = Ok () -> input_bounded a ->
  manifestEntry runVm createdAt a
  = Ok (mkEntry (artifactIdFor (rm_vmId runVm) (an_ordinal a)) (an_ordinal a) (an_metadata a)
          (artifactKey (rm_runId runVm) (rm_vmId runVm) (an_ordinal a) (am_kind (an_metadata a)) (am_filename (an_metadata a))) createdAt).
Proof.
  intros Hi (Ho & Hk & Hf). unfold assertArtifactIdentityWithinR2KeyBudget, MAX_ARTIFACT_VM_ID_BYTES in Hi.
  destruct (_ || _)%nat eqn:E in Hi; [done|]. apply orb_false_iff in E as [Er Ev]. apply Nat.ltb_ge in Er, Ev.
  unfold manifestEntry, buildArtifactObjectKey. rewrite (proj2 (Nat.ltb_ge _ _)); [done|].
  pose proof (sanitize_utf8 (rm_runId runVm)). pose proof (sanitize_utf8 (rm_vmId runVm)).
  pose proof (sanitize_utf8 (am_kind (an_metadata a))). pose proof (sanitize_utf8 (am_filename (an_metadata a))).
  pose proof (utf8_bound (pretty (an_ordinal a))). pose proof (pretty_ordinal_length _ Ho).
  unfold MAX_ARTIFACT_KIND_BYTES, MAX_ARTIFACT_FILENAME_BYTES, MAX_R2_OBJECT_KEY_BYTES in *.
  rewrite !utf8_app. change (utf8_length "/") with 1%nat. change (utf8_length "-") with 1%nat. lia.
Qed.
Lemma manifestEntries_fit runVm createdAt artifacts :
  assertArtifactIdentityWithinR2KeyBudget (rm_runId runVm) (rm_vmId runVm) = Ok () -> Forall input_bounded artifacts ->
  exists manifest, manifestEntries runVm createdAt artifacts = Ok manifest
    /\ map en_ordinal manifest = map an_ordinal artifacts /\ map en_metadata manifest = map an_metadata artifacts
    /\ Forall (fun e => en_r2Key e = artifactKey (rm_runId runVm) (rm_vmId runVm) (en_ordinal e)
                                       (am_kind (en_metadata e)) (am_filename (en_metadata e))) manifest.
Proof.
  intros Hi. induction 1 as [|a l Ha _ (m & IH & H1 & H2 & H3)]; [by exists []|].
  cbn [manifestEntries]. rewrite (manifestEntry_fits _ createdAt _ Hi Ha), IH. cbn. eexists. split_and!; [done|cbn; congruence..|].
  by constructor.
Qed.

(** Every manifest a request may carry can be stored: when the run and the VM
    have a name within the limit, no key is too long for the bucket, the manifest
    has the request's artifacts in the order of their ordinals, and no two of its
    artifacts share a key. *)
Theorem accepted_manifest_can_be_stored runVm payload max artifacts createdAt
  (Ha : normalizeArtifactInputs payload max = Some artifacts) (Hv : truthy (rm_vmId runVm) = true)
  (Hi : assertArtifactIdentityWithinR2KeyBudget (rm_runId runVm) (rm_vmId runVm) = Ok ()) :
  exists manifest, buildArtifactManifest runVm artifacts createdAt = Ok manifest
    /\ map en_ordinal manifest = map an_ordinal artifacts /\ map en_metadata manifest = map an_metadata artifacts
    /\ NoDup (map en_r2Key manifest).
Proof.
  unfold normalizeArtifactInputs in Ha. destruct payload as [[| | | |items|]|]; try done. case_match; [done|].
  destruct (normalizeAll items) as [l|] eqn:E; cbn in Ha; [|done]. destruct (consecutive 1 _) eqn:Ec; [|done]. simplify_eq.
  set (artifacts := js_sort (fun a b => an_ordinal a <=? an_ordinal b) l) in *.
  assert (Hb : Forall input_bounded artifacts).
  { unfold artifacts. rewrite js_sort_perm. by eapply normalizeAll_bounded. }
  destruct (manifestEntries_fit runVm createdAt artifacts Hi Hb) as (m & Em & Eo & Emd & Hk).
  exists m. unfold buildArtifactManifest. rewrite Hv, Hi. cbn [negb result_bind]. split_and!; [done..|].
  destruct (consecutive_ordinals _ _ Ec) as [Hn Hf]. rewrite <- Eo in Hn.
  assert (Hp : Forall (fun e => 0 <= en_ordinal e) m).
  { apply (Forall_map en_ordinal (fun o => 0 <= o)). rewrite Eo. apply Forall_map. eapply Forall_impl; [exact Hf|]. cbn. intros b Hb'. lia. }
  clear - Hn Hk Hp. induction m as [|e m IH]; [constructor|]. inversion_clear Hn as [|? ? Hni Hn']. inversion_clear Hk as [|? ? He Hk'].
  inversion_clear Hp as [|? ? Hpe Hp']. cbn. constructor; [|auto]. intros Hin. apply list_elem_of_In, in_map_iff in Hin as (e' & Hee & Hin).
  apply Hni, list_elem_of_In, in_map_iff. exists e'. split; [|done]. eapply List.Forall_forall in Hk'; [|exact Hin].
  eapply List.Forall_forall in Hp'; [|exact Hin].  rewrite He, Hk' in Hee. by eapply artifactKey_ordinal in Hee.
Qed.

(** * Witnesses *)

Module ResultSample.
Definition runVm : ResolvedRunVm :=
  mkRunVm ArchiveSample.agent 1 "run" "run" "host" "user" None "vm-1" (Some "vm-1") "run-web" false.
Definition payload : option json :=
  match ArchiveSample.decodeJson [] with Some b => field b "artifacts" | None => None end.
Definition artifacts : list ArtifactInput := nullish (normalizeArtifactInputs payload 1024) [].
Definition manifest : list ArtifactManifestEntry :=
  match buildArtifactManifest runVm artifacts 100 with Ok m => m | Err _ => [] end.
Definition committed (statements : list AStmt) (x : ArchiveDb) : ArchiveDb :=
  match archive_batch statements x with Ok x' => x' | Err _ => x end.
Definition reserving : list AStmt := artifactWriteGuard runVm false 100 :: reservationStatements runVm manifest.
Definition lifecycle : StoredRunLifecycle :=
  nullish (loadStoredRunLifecycle "run" ArchiveSample.stored_) (mkLifecycle None None None None None None ArchiveSample.document).
Definition next : RunStateDocument :=
  with_phase (map_vm "vm-1" (fun vm => with_vm_phase vm vm_completed) (lc_state lifecycle)) run_completed.
Definition completing : list AStmt := lifecycleStatements runVm lifecycle next 200 200 (completionStatements runVm 200) true.
(** A session and the cast it was recorded to. *)
Definition sessions : json :=
  JArr [JObj [("index", JNum (NInt 1)); ("startTimestampMs", JNum (NInt 10)); ("durationMs", JNum (NInt 5));
    ("transcript", JStr "ls"); ("castFilename", JStr "one.cast")]].
Definition cast : SourceArtifactState :=
  mkSource sk_runtime (mkArtifactRow "vm-1:2" "run" "vm-1" 2 (mkMetadata "ssh_recording_segment" "one.cast" "text/plain" 4 "")
    "run/vm-1/2" us_uploaded 50 (Some 60)).
Definition normalized : list NormalizedTimelineSession :=
  match normalizeTimelineSessions sessions with Ok (Some l) => l | _ => [] end.
Definition work : list TimelineSessionWork := nullish (resolveCasts [cast] normalized) [].
End ResultSample.

Lemma accepted_manifest_is_recorded_witness :
  length ResultSample.manifest = 1%nat
  /\ Forall (fun e => exists r, In r (xd_runtime (ResultSample.committed ResultSample.reserving ArchiveSample.start))
       /\ ledgerRow "run" "vm-1" r = true /\ aw_ordinal r = en_ordinal e /\ rowMatches r e = true) ResultSample.manifest.
Proof.
  split; [vm_compute; reflexivity|].
  refine (proj1 (proj2 (proj2 (accepted_manifest_is_recorded ResultSample.runVm "vm-1" ResultSample.manifest 100 ArchiveSample.start
    (ResultSample.committed ResultSample.reserving ArchiveSample.start) eq_refl _ _)))); [discriminate|].
  vm_compute. reflexivity.
Defined.

Lemma timeline_within_budget_witness :
  length ResultSample.work = 1%nat
  /\ exists stmts, timelineStatements ResultSample.runVm ResultSample.work [] 100 = Some stmts /\ (length stmts <= 90)%nat.
Proof.
  split; [vm_compute; reflexivity|].
  apply (timeline_within_budget ResultSample.runVm ResultSample.sessions ResultSample.normalized [ResultSample.cast] ResultSample.work);
    vm_compute; reflexivity.
Defined.

Lemma completion_seals_and_archives_witness :
  isSealed (ResultSample.committed ResultSample.completing ArchiveSample.stored_) "vm-1" = true
  /\ map re_state (db_executions (xd_store (ResultSample.committed ResultSample.completing ArchiveSample.stored_))) = [ex_archived].
Proof.
  split; [|vm_compute; reflexivity].
  refine (proj1 (completion_seals_and_archives ResultSample.runVm "vm-1" ResultSample.lifecycle ResultSample.next 200 200 ArchiveSample.stored_
    (ResultSample.committed ResultSample.completing ArchiveSample.stored_) eq_refl _ _)); [discriminate|].
  vm_compute. reflexivity.
Defined.

Lemma accepted_manifest_can_be_stored_witness :
  length ResultSample.artifacts = 1%nat
  /\ exists m, buildArtifactManifest ResultSample.runVm ResultSample.artifacts 100 = Ok m
     /\ map en_ordinal m = map an_ordinal ResultSample.artifacts /\ map en_metadata m = map an_metadata ResultSample.artifacts
     /\ NoDup (map en_r2Key m).
Proof.
  split; [vm_compute; reflexivity|].
  apply (accepted_manifest_can_be_stored ResultSample.runVm ResultSample.payload 1024); vm_compute; reflexivity.
Defined.
