(* ===== verification/Placement.v ===== *)
(** Where a run may go: the checks of lib/scenario-runs/start.ts,
    lib/scenario-runs/runtime-vm-name.ts, lib/scenario-hosts.ts,
    lib/personal-host-readiness.ts and lib/scenario-host-readiness.ts on hosts and
    their reports, the choice between hosts, and the names a run's VMs get. *)
From stdpp Require Import base list strings pretty sorting.
From Stdlib Require Import ZArith Lia Ascii.
From S2P Require Import Prelude Json Text RunState Store BuildStore RegistryKeys Bridge DesiredState Capacity Access.

Open Scope string_scope.
Open Scope list_scope.
Open Scope Z_scope.

(** * Errors

    [appError(status, code, message)]; the message of these is fixed by the code,
    but for those that carry their own. *)
Record Refusal : Type := refusal {
  rf_status : Z;
  rf_code : string;
}.
#[export] Instance Refusal_eq_dec : EqDecision Refusal.
Proof. solve_decision. Defined.

(** * Hosts and reports *)

(** More columns of [agent_hosts], by id. *)
Record HostSettings : Type := mkSettings {
  hs_hostId : string;
  hs_scenarioEnabled : bool;
  hs_connected : bool;
  hs_lastHeartbeatAt : option Z;
  hs_updatedAt : Z;
}.
(** The stored report of a host, as its text: [host_actual_state.report_json] and
    [updated_at]. *)
Record ReportRow : Type := mkReport {
  rp_hostId : string;
  rp_reportText : string;
  rp_updatedAt : Z;
}.

(** [JSON.parse] belongs to the engine; a report that was stored parses. *)
Class ReportJson : Type := JSON_parse : string -> json.

Definition HOST_HEARTBEAT_TTL_MS : Z := 90000.

Definition isScenarioLaunchHost (role : string) (disabled scenarioEnabled : bool) : bool :=
  (role =s "agent") && negb disabled && scenarioEnabled.
Definition isFreshHostHeartbeat (value : option Z) (nowUnixMs heartbeatTtlMs : Z) : bool :=
  match value with Some v => nowUnixMs - v <=? heartbeatTtlMs | None => false end.
Definition isAvailableScenarioLaunchHost (role : string) (disabled scenarioEnabled connected : bool)
    (lastHeartbeatAt : option Z) (nowUnixMs heartbeatTtlMs : Z) : bool :=
  isScenarioLaunchHost role disabled scenarioEnabled && connected
  && isFreshHostHeartbeat lastHeartbeatAt nowUnixMs heartbeatTtlMs.

Definition supports (report : option json) (capability : string) : bool :=
  bool_decide (prop (prop report "capabilities") capability = Some (JBool true)).
Definition hostSupportsRunCliV1 (report : option json) : bool :=
  supports report "supports_run_cli_v1" && supports report "supports_run_cli_completion_v1".
Definition hostSupportsSpeedRedesign (report : option json) : bool :=
  supports report "supports_raw_chunks_v1" && supports report "supports_scenario_guest_tools_v1"
  && supports report "supports_jailer_v3".

(** [value >= bound], for an integral bound. *)
Definition at_least (v : option json) (bound : Z) : bool :=
  match v with
  | Some (JNum (NInt z)) | Some (JNum (NFrac z _)) => bound <=? z
  | Some (JNum (NInf negative)) => negb negative
  | _ => false
  end.

Definition personalHostReportReady (report : option json) (requireRunCli : bool) : bool :=
  bool_decide (prop report "relay_connected" = Some (JBool true))
  && match strictCpuCapacity report with Some cpu => 0 <? sc_schedulableCpuMillis cpu | None => false end
  && isText (prop (prop report "capabilities") "arch") "x86_64"
  && at_least (prop (prop report "capacity") "total_cpu_millis") 2000
  && at_least (prop (prop report "capacity") "memory_total_mib") 4096
  && hostSupportsSpeedRedesign report && (negb requireRunCli || hostSupportsRunCliV1 report).

(** * Images *)

Record RequiredScenarioImage : Type := mkRequired {
  ri_imageKey : ImageKey;
  ri_imageSha256 : string;
}.
(** [imageKeyIdentity] of scenario-host-readiness.ts, of a key and of a reported one. *)
Definition launchImageIdentity (k : ImageKey) : string :=
  ik_scenario k +:+ ":" +:+ ik_vm k +:+ ":" +:+ archName (ik_arch k).
Definition reportedImageIdentity (key : option json) : string :=
  textOf (prop key "scenario") +:+ ":" +:+ textOf (prop key "vm") +:+ ":" +:+ textOf (prop key "arch").

Definition cachedReady (image : RequiredScenarioImage) (cached : json) : bool :=
  isText (field cached "phase") "ready" && isText (field cached "image_id") (ri_imageSha256 image)
  && (reportedImageIdentity (field cached "image_key") =s launchImageIdentity (ri_imageKey image)).
Definition hostHasImagesReady (report : option json) (required : list RequiredScenarioImage) : bool :=
  match required with
  | [] => true
  | _ => bool_decide (is_Some report)
         && forallb (fun image => existsb (cachedReady image) (arrayItems (prop report "cached_images"))) required
  end.

(** One image per identity, the last read. *)
Fixpoint requiredImagesFrom (launchSpecs : list (option ImageKey * option string))
    (byIdentity : list (string * RequiredScenarioImage)) : result Refusal (list RequiredScenarioImage) :=
  match launchSpecs with
  | [] => Ok (map snd byIdentity)
  | (imageKey, sha) :: rest =>
      let imageSha256 := nullish (trim <$> sha) "" in
      match imageKey with
      | Some key =>
          throw_if negb (truthy imageSha256) with refusal 409 "image_not_ready";
          requiredImagesFrom rest (Map_set (launchImageIdentity key) (mkRequired key imageSha256) byIdentity)
      | None => Err (refusal 409 "image_not_ready")
      end
  end.
Definition requiredImagesForScenarioLaunch (launchSpecs : list (option ImageKey * option string))
  : result Refusal (list RequiredScenarioImage) :=
  requiredImagesFrom launchSpecs [].

(** * Placement *)

Section placement.
Context `{ReportJson}.
Variable db : Db.
Variable t : AccessTables.
Variable settings : list HostSettings.
Variable reports : list ReportRow.
Variable requireRunCli : bool.

Definition settingsOf (hostId : string) : option HostSettings :=
  List.find (fun s => hs_hostId s =s hostId) settings.
Definition reportOf (hostId : string) : option ReportRow :=
  List.find (fun r => rp_hostId r =s hostId) reports.

(** A host joined with its report. *)
Record LaunchHost : Type := mkLaunchHost {
  lh_host : HostRow;
  lh_settings : HostSettings;
  lh_report : option ReportRow;
}.
Definition lh_json (h : LaunchHost) : option json := JSON_parse ∘ rp_reportText <$> lh_report h.
Definition joinHost (h : HostRow) : option LaunchHost :=
  s ← settingsOf (ah_id h); Some (mkLaunchHost h s (reportOf (ah_id h))).
Definition launchHosts : list LaunchHost := omap joinHost (db_hosts db).

Definition loadScenarioLaunchHostForUser (hostId userId : string) (requiredImages : list RequiredScenarioImage)
    (organizationId : option string) (now : Z) : result Refusal LaunchHost :=
  match List.find (fun h => (ah_id (lh_host h) =s hostId)
          && metalPlacementForUser db t userId organizationId (lh_host h)) launchHosts with
  | None => Err (refusal 404 "scenario_host_not_found")
  | Some h =>
      throw_if ah_disabled (lh_host h) with refusal 403 "scenario_host_disabled";
      throw_if negb (ah_role (lh_host h) =s "agent") with refusal 403 "scenario_host_not_launchable";
      throw_if negb (isScenarioLaunchHost (ah_role (lh_host h)) (ah_disabled (lh_host h))
                       (hs_scenarioEnabled (lh_settings h)))
        with refusal 403 "scenario_host_not_launchable";
      throw_if negb (hs_connected (lh_settings h))
          || negb (isFreshHostHeartbeat (hs_lastHeartbeatAt (lh_settings h)) now HOST_HEARTBEAT_TTL_MS)
          || negb (bool_decide (hostHealth (rp_updatedAt <$> lh_report h) now = health_healthy))
        with refusal 409 "scenario_host_unavailable";
      throw_if negb (bool_decide (ah_scope (lh_host h) = scope_platform))
          && negb (personalHostReportReady (lh_json h) requireRunCli)
        with (if bool_decide (ah_scope (lh_host h) = scope_organization)
              then refusal 409 "organization_server_not_ready" else refusal 409 "personal_server_not_ready");
      throw_if negb (hostHasImagesReady (lh_json h) requiredImages) with refusal 409 "image_not_ready";
      throw_if negb (hostSupportsSpeedRedesign (lh_json h)) with refusal 409 "scenario_host_unavailable";
      throw_if requireRunCli && negb (hostSupportsRunCliV1 (lh_json h)) with refusal 409 "scenario_host_unavailable";
      throw_if negb (bool_decide (is_Some (strictCpuCapacity (lh_json h))))
        with refusal 409 "scenario_host_not_performance_ready";
      Ok h
  end.

(** * The choice between hosts *)

(** [loadEligibleScenarioLaunchHosts] under the placement of new runs, or under
    another access scope; what it orders by is only a tie-break of [selectScenarioHosts]. *)
Definition eligibleHost (hostScope : HostRow -> bool) (now : Z) (h : LaunchHost) : bool :=
  negb (ah_disabled (lh_host h)) && (ah_role (lh_host h) =s "agent")
  && hs_scenarioEnabled (lh_settings h) && hs_connected (lh_settings h) && hostScope (lh_host h)
  && isAvailableScenarioLaunchHost "agent" false true (hs_connected (lh_settings h))
       (hs_lastHeartbeatAt (lh_settings h)) now HOST_HEARTBEAT_TTL_MS
  && bool_decide (hostHealth (rp_updatedAt <$> lh_report h) now = health_healthy)
  && (bool_decide (ah_scope (lh_host h) = scope_platform) || personalHostReportReady (lh_json h) requireRunCli)
  && bool_decide (is_Some (strictCpuCapacity (lh_json h)))
  && hostSupportsSpeedRedesign (lh_json h)
  && (negb requireRunCli || hostSupportsRunCliV1 (lh_json h)).
Definition loadEligibleScenarioLaunchHosts (hostScope : HostRow -> bool) (now : Z) : list LaunchHost :=
  List.filter (eligibleHost hostScope now) (js_sort (fun l r => hs_updatedAt (lh_settings r) <=? hs_updatedAt (lh_settings l)) launchHosts).
End placement.

Definition readyCandidates `{ReportJson} (requiredImages : list RequiredScenarioImage) (candidates : list LaunchHost)
  : list LaunchHost :=
  List.filter (fun h => hostHasImagesReady (lh_json h) requiredImages) candidates.

(** The candidates that fit, with what they have available; without required
    resources nothing is computed. *)
Definition fittingCandidate `{ReportJson} (snapshot : ActiveRuntimeResourceSnapshot)
    (required : RuntimeResourceDemand) (h : LaunchHost) : option (LaunchHost * option RuntimeResourceDemand) :=
  report ← lh_json h;
  available ← availableRuntimeHostResources (ah_id (lh_host h)) report snapshot;
  if runtimeResourcesFit required available then Some (h, Some available) else None.

(** [loadPerCpu] divides doubles; what is used of it is how two hosts compare. *)
Class LoadOrder : Type := {
  loadCompare : option json -> option json -> Z;
  loadCompare_swap : forall a b, loadCompare b a = - loadCompare a b;
  loadCompare_trans : forall a b c, loadCompare a b <= 0 -> loadCompare b c <= 0 -> loadCompare a c <= 0;
}.

Definition then_by (first rest : Z) : Z := if first =? 0 then rest else first.
Infix "<>>" := then_by (at level 62, right associativity).

Section order.
Context `{ReportJson} `{Collation} `{LoadOrder}.
Variable activeRuns : list string.

Definition Ranked : Type := LaunchHost * option RuntimeResourceDemand.
Definition rankedId (h : Ranked) : string := ah_id (lh_host (fst h)).
Definition activeRunCount (h : Ranked) : Z := count_where (String.eqb (rankedId h)) activeRuns.
Definition capacityOf (h : Ranked) : option json := prop (lh_json (fst h)) "capacity".
Definition reportedFreeCpuMillis (h : Ranked) : Z :=
  Z.max 0 (integerOf (prop (capacityOf h) "schedulable_cpu_millis") - integerOf (prop (capacityOf h) "committed_cpu_millis")).
Definition inventoryVmCount (h : Ranked) : Z := Z.of_nat (length (arrayItems (prop (lh_json (fst h)) "vms"))).
Definition memoryAvailableMib (h : Ranked) : Z :=
  match prop (capacityOf h) "memory_available_mib" with None => -1 | v => integerOf v end.
Definition availableCpu (h : Ranked) : Z := match snd h with Some d => dm_cpuMillis d | None => 0 end.

(** Either every candidate has its available resources, or none has. *)
Definition compareHosts (l r : Ranked) : Z :=
  (activeRunCount l - activeRunCount r)
  <>> (availableCpu r - availableCpu l)
  <>> (reportedFreeCpuMillis r - reportedFreeCpuMillis l)
  <>> (inventoryVmCount l - inventoryVmCount r)
  <>> loadCompare (capacityOf l) (capacityOf r)
  <>> (memoryAvailableMib r - memoryAvailableMib l)
  <>> (hs_updatedAt (lh_settings (fst r)) - hs_updatedAt (lh_settings (fst l)))
  <>> localeCompare (rankedId l) (rankedId r).
Definition rankHosts (candidates : list Ranked) : list Ranked :=
  js_sort (fun l r => compareHosts l r <=? 0) candidates.
End order.

Inductive SelectionFailure : Type := selection_unavailable | selection_image_not_ready | selection_resource_capacity.

(** The candidates a selection goes on with, or why it fails. *)
Definition suitableHosts `{ReportJson} (candidates : list LaunchHost) (requiredImages : list RequiredScenarioImage)
    (requiredResources : option RuntimeResourceDemand) (snapshot : ActiveRuntimeResourceSnapshot)
  : result SelectionFailure (list Ranked) :=
  throw_if Nat.eqb (length candidates) 0 with selection_unavailable;
  let ready := readyCandidates requiredImages candidates in
  throw_if Nat.eqb (length ready) 0 with selection_image_not_ready;
  match requiredResources with
  | None => Ok (map (fun h => (h, None)) ready)
  | Some required =>
      let fitting := omap (fittingCandidate snapshot required) ready in
      throw_if Nat.eqb (length fitting) 0 with selection_resource_capacity;
      Ok fitting
  end.

(** * Theorems *)

(** A comparison of keys: opposite when swapped, and transitive. *)
Record ordered {A} (c : A -> A -> Z) : Prop := mk_ordered {
  ordered_swap : forall a b, c b a = - c a b;
  ordered_trans : forall a b d, c a b <= 0 -> c b d <= 0 -> c a d <= 0;
}.
Record preorder {A} (c : A -> A -> Z) : Prop := mk_preorder {
  preorder_total : forall a b, c a b <= 0 \/ c b a <= 0;
  preorder_trans : forall a b d, c a b <= 0 -> c b d <= 0 -> c a d <= 0;
}.
Lemma ordered_key {A} (key : A -> Z) : ordered (fun a b => key a - key b).
Proof. split; intros; lia. Qed.
Lemma ordered_key_down {A} (key : A -> Z) : ordered (fun a b => key b - key a).
Proof. split; intros; lia. Qed.
Lemma then_by_preorder {A} (c d : A -> A -> Z) : ordered c -> preorder d -> preorder (fun a b => c a b <>> d a b).
Proof.
  intros [Hs Ht] [Ho Hd]. unfold then_by. split.
  - intros a b. rewrite (Hs a b). destruct (Z.eqb_spec (c a b) 0), (Z.eqb_spec (- c a b) 0); [apply Ho|lia..].
  - intros a b e. pose proof (Hs a b). pose proof (Hs b e). pose proof (Hs a e).
    pose proof (Ht a b e). pose proof (Ht b e a). pose proof (Ht e a b). pose proof (Hd a b e).
    destruct (Z.eqb_spec (c a b) 0), (Z.eqb_spec (c b e) 0), (Z.eqb_spec (c a e) 0); lia.
Qed.

Section ranking.
Context `{ReportJson} `{Collation} `{LoadOrder}.

Lemma compareHosts_preorder activeRuns : preorder (compareHosts activeRuns).
Proof.
  unfold compareHosts. apply then_by_preorder; [apply ordered_key|].
  do 2 (apply then_by_preorder; [apply ordered_key_down|]).
  apply then_by_preorder; [apply ordered_key|].
  apply then_by_preorder; [split; intros *; [apply loadCompare_swap|apply loadCompare_trans]|].
  do 2 (apply then_by_preorder; [apply ordered_key_down|]).
  split; intros *; [apply localeCompare_total|apply localeCompare_trans].
Qed.

Lemma compareHosts_runs activeRuns l r :
  compareHosts activeRuns l r <= 0 -> activeRunCount activeRuns l <= activeRunCount activeRuns r.
Proof. unfold compareHosts, then_by. destruct (Z.eqb_spec (activeRunCount activeRuns l - activeRunCount activeRuns r) 0); lia. Qed.
End ranking.

(** Looking a row up by its key and a condition finds that row or none. *)
Lemma find_keyed {A} (key : A -> string) (p : A -> bool) (l : list A) h :
  NoDup (map key l) -> In h l -> List.find (fun x => (key x =s key h) && p x) l = if p h then Some h else None.
Proof.
  induction l as [|x l IH]; cbn; [done|]. intros [Hn Hd]%NoDup_cons [->|Hin].
  - rewrite String.eqb_refl. cbn. destruct (p h) eqn:Ep; [done|]. destruct (List.find _ l) as [y|] eqn:E; [|done].
    apply find_some in E as [Hy E]. apply andb_prop in E as [E _]. apply String.eqb_eq in E. exfalso.
    apply Hn. rewrite <- E. apply list_elem_of_In, in_map_iff. eauto.
  - destruct (String.eqb_spec (key x) (key h)) as [E|]; cbn; [|auto]. exfalso. apply Hn. rewrite E.
    apply list_elem_of_In, in_map_iff. eauto.
Qed.

Lemma filter_sublist {A} (p : A -> bool) (l : list A) : List.filter p l `sublist_of` l.
Proof. induction l as [|x l IH]; cbn; [constructor|]. destruct (p x); [apply sublist_skip|apply sublist_cons]; done. Qed.
Lemma sorted_weaken {A} (P Q : A -> A -> Prop) (l : list A) :
  (forall a b, P a b -> Q a b) -> StronglySorted P l -> StronglySorted Q l.
Proof. intros H. induction 1; constructor; [done|]. eapply Forall_impl; [eassumption|]. auto. Qed.

Section checked.
Context `{ReportJson} `{Collation} `{LoadOrder}.
Variable db : Db.
Variable t : AccessTables.
Variable settings : list HostSettings.
Variable reports : list ReportRow.
Variable requireRunCli : bool.
Variables userId : string.
Variable organizationId : option string.
Variable now : Z.

#[local] Abbreviation hosts := (launchHosts db settings reports).
#[local] Abbreviation placed := (metalPlacementForUser db t userId organizationId).
#[local] Abbreviation eligible := (eligibleHost requireRunCli placed now).

Lemma launch_hosts_distinct (Hids : NoDup (map ah_id (db_hosts db))) : NoDup (map (fun h => ah_id (lh_host h)) hosts).
Proof.
  assert (Hsub : forall l, map (fun h => ah_id (lh_host h)) (omap (joinHost settings reports) l) `sublist_of` map ah_id l).
  { induction l as [|x l IH]; cbn; [constructor|]. unfold joinHost at 1. destruct (settingsOf settings (ah_id x)); cbn.
    - by constructor.
    - by constructor. }
  eapply sublist_NoDup; [exact Hids|apply Hsub].
Qed.

Lemma launch_host_found (Hids : NoDup (map ah_id (db_hosts db))) h p :
  In h hosts -> List.find (fun x => (ah_id (lh_host x) =s ah_id (lh_host h)) && p (lh_host x)) hosts
                = if p (lh_host h) then Some h else None.
Proof. intros Hin. apply (find_keyed (fun x => ah_id (lh_host x)) (fun x => p (lh_host x))); [by apply launch_hosts_distinct|done]. Qed.

Lemma launch_host_in hostId images h :
  loadScenarioLaunchHostForUser db t settings reports requireRunCli hostId userId images organizationId now = Ok h ->
  In h hosts /\ ah_id (lh_host h) = hostId.
Proof.
  unfold loadScenarioLaunchHostForUser. destruct (List.find _ _) as [x|] eqn:E; [|done].
  apply find_some in E as [Hin Hx]. apply andb_prop in Hx as [Hx _]. apply String.eqb_eq in Hx.
  repeat (destruct (_ : bool); [done|]). intros [= ->]. done.
Qed.

(** A host is eligible, with the images ready, exactly when the check of one host
    accepts it. *)
Lemma eligible_iff_launches (Hids : NoDup (map ah_id (db_hosts db))) images h (Hin : In h hosts) :
  eligible h && hostHasImagesReady (lh_json h) images = true <->
  loadScenarioLaunchHostForUser db t settings reports requireRunCli (ah_id (lh_host h)) userId images organizationId now = Ok h.
Proof.
  unfold loadScenarioLaunchHostForUser. rewrite (launch_host_found Hids h placed Hin).
  unfold eligibleHost, isAvailableScenarioLaunchHost, isScenarioLaunchHost. cbn [String.eqb].
  destruct (placed (lh_host h)); cbn [andb]; [|by rewrite !andb_false_r].
  destruct (ah_disabled (lh_host h)); [done|]. destruct (ah_role (lh_host h) =s "agent"); [|done]. cbn [negb andb].
  destruct (hs_scenarioEnabled _); [|done]. destruct (hs_connected _); [|done]. cbn [negb andb orb].
  change ("agent" =s "agent") with true. cbn [andb].
  destruct (isFreshHostHeartbeat _ _ _); [|done]. destruct (bool_decide (hostHealth _ _ = _)); [|done]. cbn [negb orb andb].
  destruct (bool_decide (ah_scope _ = scope_platform)), (personalHostReportReady _ _); cbn [negb orb andb];
    try (destruct (bool_decide (ah_scope _ = scope_organization)); done);
    destruct (hostHasImagesReady _ _), (hostSupportsSpeedRedesign _), requireRunCli, (hostSupportsRunCliV1 _),
      (bool_decide (is_Some _)); cbn; split; congruence.
Qed.

Lemma fitting_ids snapshot required l :
  map rankedId (omap (fittingCandidate snapshot required) l) `sublist_of` map (fun h => ah_id (lh_host h)) l.
Proof.
  induction l as [|h l IH]; cbn [omap list_omap map]; [constructor|]. unfold fittingCandidate at 1.
  destruct (lh_json h); cbn; [|by constructor]. destruct (availableRuntimeHostResources _ _ _); cbn; [|by constructor].
  destruct (runtimeResourcesFit _ _); cbn; by constructor.
Qed.

(** C30. The choice of a host agrees with the check each host passes before a run is
    committed to it: the hosts a selection answers are those the check accepts and
    whose free CPU, memory and disk hold the run, each once, and they are tried from
    the fewest active runs on. *)
Theorem selected_hosts_can_launch (Hids : NoDup (map ah_id (db_hosts db))) images required snapshot activeRuns ranked
    (Hselected : suitableHosts (loadEligibleScenarioLaunchHosts db settings reports requireRunCli placed now)
       images (Some required) snapshot = Ok ranked) :
  (forall hostId, In hostId (map rankedId (rankHosts activeRuns ranked)) <->
     exists h report available,
       loadScenarioLaunchHostForUser db t settings reports requireRunCli hostId userId images organizationId now = Ok h /\
       lh_json h = Some report /\ availableRuntimeHostResources hostId report snapshot = Some available /\
       runtimeResourcesFit required available = true) /\
  NoDup (map rankedId (rankHosts activeRuns ranked)) /\
  StronglySorted (fun l r => activeRunCount activeRuns l <= activeRunCount activeRuns r) (rankHosts activeRuns ranked).
Proof.
  unfold suitableHosts in Hselected. destruct (Nat.eqb _ _); [done|]. cbv zeta in Hselected.
  destruct (Nat.eqb _ _); [done|]. destruct (Nat.eqb _ _); [done|]. injection Hselected as <-.
  unfold readyCandidates, loadEligibleScenarioLaunchHosts.
  set (sorted := js_sort _ hosts). assert (Hp : sorted ≡ₚ hosts) by apply js_sort_perm. clearbody sorted.
  set (fitting := omap _ _).
  assert (Hfit : forall hr, hr ∈ fitting <-> exists h report available, hr = (h, Some available) /\ In h hosts /\
      eligible h && hostHasImagesReady (lh_json h) images = true /\ lh_json h = Some report /\
      availableRuntimeHostResources (ah_id (lh_host h)) report snapshot = Some available /\
      runtimeResourcesFit required available = true).
  { intros hr. unfold fitting. rewrite list_elem_of_omap. setoid_rewrite list_elem_of_In. split.
    - intros (h & [[Hin He]%filter_In Hi]%filter_In & Hf). unfold fittingCandidate in Hf.
      destruct (lh_json h) as [report|] eqn:Er; [|done]. cbn in Hf.
      destruct (availableRuntimeHostResources _ report snapshot) as [available|] eqn:Ea; [|done]. cbn in Hf.
      destruct (runtimeResourcesFit required available) eqn:Efit; [|done]. simplify_eq. exists h, report, available.
      rewrite Er, He. split_and!; try done. apply list_elem_of_In. rewrite <- Hp. by apply list_elem_of_In.
    - intros (h & report & available & -> & Hin & Hb & Er & Ea & Efit). apply andb_prop in Hb as [He Hi]. exists h.
      split; [apply filter_In; split; [apply filter_In; split|]; try done|].
      + apply list_elem_of_In. rewrite Hp. by apply list_elem_of_In.
      + unfold fittingCandidate. by rewrite Er; cbn; rewrite Ea; cbn; rewrite Efit. }
  unfold rankHosts. split_and!.
  - intros hostId. rewrite <- list_elem_of_In, js_sort_perm, list_elem_of_fmap. split.
    + intros (hr & -> & (h & report & available & -> & Hin & Hb & Er & Ea & Efit)%Hfit). exists h, report, available.
      split_and!; try done. by apply eligible_iff_launches.
    + intros (h & report & available & Hl & Er & Ea & Efit). destruct (launch_host_in _ _ _ Hl) as [Hin <-].
      exists (h, Some available). split; [done|]. apply Hfit. exists h, report, available. split_and!; try done.
      by apply eligible_iff_launches.
  - rewrite js_sort_perm. eapply sublist_NoDup; [|apply fitting_ids].
    assert (Hn : NoDup (map (fun h => ah_id (lh_host h)) sorted)) by (rewrite Hp; apply (launch_hosts_distinct Hids)).
    eapply sublist_NoDup; [exact Hn|]. apply fmap_sublist. etrans; apply filter_sublist.
  - destruct (compareHosts_preorder activeRuns) as [Ho Ht].
    eapply sorted_weaken; [|apply js_sort_sorted].
    + intros l r Hlr%Z.leb_le. by apply compareHosts_runs in Hlr.
    + intros l r. rewrite !Z.leb_le. apply Ho.
    + intros l r e. rewrite !Z.leb_le. apply Ht.
Qed.
End checked.

(** One host, ready for one scenario of one VM, and the learners who may use it. *)
Module PlacementSample.
Definition sha : string := "0123456789abcdef0123456789abcdef0123456789abcdef0123456789abcdef".
Definition jz (z : Z) : json := JNum (NInt z).
Definition imageKey : ImageKey := mkImageKey "intro" "web" arch_x86_64.
(** Eight CPUs, the image cached, no VM running. *)
Definition report : json :=
  JObj [("schema_version", jz HOST_STATE_REPORT_SCHEMA_VERSION);
        ("capacity", JObj [("schedulable_cpu_millis", jz 7000); ("committed_cpu_millis", jz 0);
           ("total_cpu_millis", jz 8000); ("reserved_cpu_millis", jz 1000);
           ("memory_available_mib", jz 4096); ("disk_available_mib", jz 10000)]);
        ("capabilities", JObj (("cloud_hypervisor_sha256", JStr sha) :: ("supports_raw_chunks_v1", JBool true)
           :: ("supports_scenario_guest_tools_v1", JBool true) :: map (fun k => (k, JBool true)) REQUIRED_CAPABILITIES));
        ("cached_images", JArr [JObj [("image_key", encodeImageKey imageKey); ("image_id", JStr sha); ("phase", JStr "ready")]]);
        ("vms", JArr [])].
(** Every stored text is that report. *)
#[export] Instance parse : ReportJson := fun _ => report.
#[export] Instance load : LoadOrder.
Proof. by refine {| loadCompare _ _ := 0 |}. Defined.

Definition host : HostRow := mkHost "host" scope_platform "agent" (Some "owner") None (Some "session") 1 false.
Definition lecture : CourseCatalogLecture := mkLecture "lecture" (Some "intro").
Definition db : Db :=
  mkDb [] [] [] [] [] [host] [] [mkUser "learner" None false; mkUser "other" None false] [].
Definition tables : AccessTables :=
  mkAccess [mkCatalog "public" None 2 [mkCourse "course" false [lecture]]] []
    [mkScenario "intro" None true (Some 1)] [] [mkUserSettings "learner" None up_platform; mkUserSettings "other" None up_platform] [] [].
Definition settings : list HostSettings := [mkSettings "host" true true (Some 1000) 1].
Definition reports : list ReportRow := [mkReport "host" "report" 1000].
Definition images : list RequiredScenarioImage := [mkRequired imageKey sha].
Definition demand : RuntimeResourceDemand := mkDemand 4000 512 1024.
Definition snapshot : ActiveRuntimeResourceSnapshot := loadActiveRuntimeResourceSnapshot db 1000 ["host"].
Definition launchHost : LaunchHost := mkLaunchHost host (mkSettings "host" true true (Some 1000) 1) (Some (mkReport "host" "report" 1000)).
Definition ranked : list Ranked := omap (fittingCandidate snapshot demand) [launchHost].
End PlacementSample.

Lemma selected_hosts_can_launch_witness :
  map rankedId (@rankHosts PlacementSample.parse code_unit_collation PlacementSample.load [] PlacementSample.ranked) = ["host"] /\
  NoDup (map rankedId (@rankHosts PlacementSample.parse code_unit_collation PlacementSample.load [] PlacementSample.ranked)).
Proof.
  split; [vm_compute; reflexivity|].
  refine (proj1 (proj2 (@selected_hosts_can_launch PlacementSample.parse code_unit_collation PlacementSample.load PlacementSample.db
    PlacementSample.tables PlacementSample.settings PlacementSample.reports false "learner" None 1000 _ PlacementSample.images
    PlacementSample.demand PlacementSample.snapshot [] PlacementSample.ranked _))).
  - apply NoDup_singleton.
  - vm_compute. reflexivity.
Defined.
