(* ===== verification/RunNames.v ===== *)
(** The names a run gives its VMs and the user names of their terminal routes:
    lib/scenario-runs/runtime-vm-name.ts and the route names of
    lib/scenario-runs/start.ts. *)
From stdpp Require Import base list strings pretty.
From Stdlib Require Import ZArith Lia Ascii.
From S2P Require Import Prelude Json Text RunState RegistryKeys ArtifactStore.

Open Scope string_scope.
Open Scope list_scope.
Open Scope Z_scope.

(** * Names of VMs *)

Definition MAX_RUNTIME_VM_NAME_LENGTH : Z := 63.

(** [value.slice(0, stop)]; a negative stop counts from the end. *)
Definition slice_to (stop : Z) (value : string) : string :=
  String.substring 0 (Z.to_nat (if 0 <=? stop then stop else slen value + stop)) value.

Definition deterministicRuntimeVmName (prefix runId : string) (index : Z) : string :=
  let discriminator := slice_to 6 runId +:+ "-" +:+ pretty (index + 1) in
  let stemBudget := MAX_RUNTIME_VM_NAME_LENGTH - slen discriminator - 1 in
  let stem := or_str (strip_dashes_end (slice_to stemBudget prefix)) "vm" in
  stem +:+ "-" +:+ discriminator.

(** * Names of routes *)

Inductive ScenarioRouteType : Type := route_browser | route_native_profile_keys | route_native_issued_key.
#[export] Instance ScenarioRouteType_eq_dec : EqDecision ScenarioRouteType.
Proof. solve_decision. Defined.

Definition lower_alnum (c : ascii) : bool :=
  let n := N_of_ascii c in in_range 97 122 n || in_range 48 57 n.
Definition slugifyVmAlias (value : string) : string :=
  slice_to 96 (strip_dashes_end (strip_dashes_start
    (replace_runs (fun c => negb (Ascii.eqb c "-"%char)) false
      (replace_runs lower_alnum false (toLowerCase (trim value)))))).

Definition routeSuffixForType (routeType : ScenarioRouteType) : string :=
  match routeType with
  | route_browser => "web"
  | route_native_profile_keys => "ssh-profile"
  | route_native_issued_key => "ssh-issued"
  end.

Definition aliasOf (runPrefix suffix baseSlug : string) (count : Z) : string :=
  slice_to 128 (runPrefix +:+ "-" +:+ baseSlug +:+ (if 1 <? count then "-" +:+ pretty count else "") +:+ "-" +:+ suffix).
Definition baseSlugOf (vm : RunVmStateDocument) : string :=
  or_str (slugifyVmAlias (vm_scenarioVmName vm)) ("vm-" +:+ pretty (vm_ordinal vm + 1)).
Definition addAlias (runPrefix suffix : string) (acc : list (string * Z) * list (string * string))
    (vm : RunVmStateDocument) : list (string * Z) * list (string * string) :=
  let count := nullish (Map_get (baseSlugOf vm) (fst acc)) 0 + 1 in
  (Map_set (baseSlugOf vm) count (fst acc), Map_set (vm_id vm) (aliasOf runPrefix suffix (baseSlugOf vm) count) (snd acc)).

Definition runPrefixOf (runId : string) : string := or_str (slugifyVmAlias runId) (toLowerCase runId).
Definition buildRunVmRouteUsername (runId : string) (vms : list RunVmStateDocument) (vmId : string)
    (routeType : ScenarioRouteType) : string :=
  let suffix := routeSuffixForType routeType in
  let aliases := snd (fold_left (addAlias (runPrefixOf runId) suffix)
    (js_sort (fun l r => vm_ordinal l - vm_ordinal r <=? 0) vms) ([], [])) in
  match Map_get vmId aliases with
  | Some a => a
  | None => slice_to 128 (runPrefixOf runId +:+ "-vm-" +:+ suffix)
  end.

(** * Lemmas: strings *)

Lemma substring_all n s : (String.length s <= n)%nat -> String.substring 0 n s = s.
Proof. revert n. induction s as [|c s IH]; intros [|n] H; cbn in *; try done; [lia|]. rewrite IH; [done|lia]. Qed.
Lemma substring_length n s : (String.length (String.substring 0 n s) <= n)%nat.
Proof. revert n. induction s as [|c s IH]; intros [|n]; cbn; try lia. specialize (IH n). lia. Qed.
Lemma slice_to_all stop s : slen s <= stop -> slice_to stop s = s.
Proof.
  unfold slice_to, slen. intros H. rewrite (proj2 (Z.leb_le 0 stop)) by lia. apply substring_all. lia.
Qed.
Lemma slice_to_length stop s : 0 <= stop -> slen (slice_to stop s) <= stop.
Proof.
  unfold slice_to, slen. intros H. rewrite (proj2 (Z.leb_le 0 stop)) by lia.
  pose proof (substring_length (Z.to_nat stop) s). lia.
Qed.
Lemma strip_dashes_end_length s : slen (strip_dashes_end s) <= slen s.
Proof.
  unfold slen. induction s as [|c s IH]; [done|]. cbn [strip_dashes_end String.length].
  destruct (strip_dashes_end s); cbn [String.length] in *; [destruct (Ascii.eqb c dash_char); cbn; lia|lia].
Qed.
Lemma pretty_length k z : 0 < z < 10 ^ Z.of_nat k -> slen (pretty z) <= Z.of_nat k.
Proof.
  intros Hz. unfold slen. destruct z as [|p|p]; [lia| |lia]. change (pretty (Zpos p)) with (pretty (Npos p)).
  unfold pretty, pretty_N. rewrite decide_False by done.
  pose proof (pretty_N_go_length k (Npos p) "") as H. cbn [String.length] in H.
  assert (N.pos p < 10 ^ N.of_nat k)%N; [|specialize (H ltac:(done)); lia].
  apply N2Z.inj_lt. rewrite N2Z.inj_pow, nat_N_Z. cbn. lia.
Qed.
Lemma str_app_inj_r a b c : a +:+ c = b +:+ c -> a = b.
Proof.
  intros H. assert (Hl : slen a = slen b) by (pose proof (f_equal slen H) as E; rewrite !slen_app in E; lia).
  revert b Hl H. induction a as [|x a IH]; intros [|y b] Hl H; try (unfold slen in Hl; cbn in Hl; lia); [done|].
  change (String x (a +:+ c) = String y (b +:+ c)) in H. injection H as -> H. f_equal. apply IH; [|done].
  unfold slen in *. cbn in Hl. lia.
Qed.
Lemma str_app_last a b x y : a +:+ String x "" = b +:+ String y "" -> x = y.
Proof.
  revert b. induction a as [|c a IH]; intros [|d b] H.
  - by injection H.
  - change (String x "" = String d (b +:+ String y "")) in H. injection H as _ H. by destruct b.
  - change (String c (a +:+ String x "") = String y "") in H. injection H as _ H. by destruct a.
  - change (String c (a +:+ String x "") = String d (b +:+ String y "")) in H. injection H as _ H. eauto.
Qed.

(** The name of a VM of a run is never longer than the 63 characters a host
    name may have, and two VMs of one run never get the same name, whatever the
    prefixes of their scenario are. *)
Theorem runtime_vm_names_fit_and_differ runId prefix index (Hi : 0 <= index < 1000000) :
  slen (deterministicRuntimeVmName prefix runId index) <= MAX_RUNTIME_VM_NAME_LENGTH /\
  forall prefix' index', 0 <= index' ->
    deterministicRuntimeVmName prefix runId index = deterministicRuntimeVmName prefix' runId index' -> index = index'.
Proof.
  unfold deterministicRuntimeVmName. split.
  - set (d := slice_to 6 runId +:+ "-" +:+ pretty (index + 1)).
    assert (Hd : slen d <= 14).
    { unfold d. rewrite !slen_app. pose proof (slice_to_length 6 runId ltac:(lia)).
      pose proof (pretty_length 7 (index + 1) ltac:(cbn; lia)). change (slen "-") with 1. lia. }
    pose proof (slice_to_length (MAX_RUNTIME_VM_NAME_LENGTH - slen d - 1) prefix) as Hs.
    unfold MAX_RUNTIME_VM_NAME_LENGTH in *. specialize (Hs ltac:(lia)).
    pose proof (strip_dashes_end_length (slice_to (63 - slen d - 1) prefix)) as Ht.
    rewrite !slen_app. change (slen "-") with 1. unfold or_str.
    destruct (truthy _); [lia|]. change (slen "vm") with 2. lia.
  - intros prefix' index' Hi' H.
    assert (Hsplit : forall a z, 0 <= z -> split_last "-"%char (a +:+ "-" +:+ slice_to 6 runId +:+ "-" +:+ pretty (z + 1))
                                 = Some (a +:+ "-" +:+ slice_to 6 runId, pretty (z + 1))).
    { intros a z Hz. rewrite !str_app_assoc. change (?x +:+ "-" +:+ ?y) with (x +:+ String "-"%char y).
      rewrite <- (str_app_assoc _ "-" (pretty _)). apply split_last_app.
      eapply digits_unit_free; [|by apply digits_value_pretty; lia]. done. }
    apply (f_equal (split_last "-"%char)) in H. rewrite !Hsplit in H by lia. injection H as _ H.
    apply pretty_Z_inj in H; lia.
Qed.

Lemma runtime_vm_names_fit_and_differ_witness :
  0 <= 0 < 1000000 /\
  (slen (deterministicRuntimeVmName "a-long-scenario-name-of-more-than-sixty-three-characters-with-a-vm" "runid00001" 0)
    <= MAX_RUNTIME_VM_NAME_LENGTH /\
   forall prefix' index', 0 <= index' ->
     deterministicRuntimeVmName "a-long-scenario-name-of-more-than-sixty-three-characters-with-a-vm" "runid00001" 0
     = deterministicRuntimeVmName prefix' "runid00001" index' -> 0 = index').
Proof. split; [lia|]. apply runtime_vm_names_fit_and_differ. lia. Defined.

(** * Routes *)

(** The name of a VM is its own route alias, and its route user names fit. *)
Definition plainVmName (runId : string) (vm : RunVmStateDocument) : Prop :=
  slugifyVmAlias (vm_scenarioVmName vm) = vm_scenarioVmName vm /\ vm_scenarioVmName vm <> "" /\
  slen (runPrefixOf runId) + slen (vm_scenarioVmName vm) + 13 <= 128.

Lemma baseSlug_plain runId vm : plainVmName runId vm -> baseSlugOf vm = vm_scenarioVmName vm.
Proof.
  intros (Hs & Hn & _). unfold baseSlugOf, or_str. rewrite Hs. unfold truthy.
  by destruct (String.eqb_spec (vm_scenarioVmName vm) "").
Qed.

Definition plainRoute (runId : string) (vm : RunVmStateDocument) (routeType : ScenarioRouteType) : string :=
  runPrefixOf runId +:+ "-" +:+ vm_scenarioVmName vm +:+ "-" +:+ routeSuffixForType routeType.

Lemma alias_plain runId vm routeType :
  plainVmName runId vm ->
  aliasOf (runPrefixOf runId) (routeSuffixForType routeType) (vm_scenarioVmName vm) 1 = plainRoute runId vm routeType.
Proof.
  intros (_ & _ & Hl). unfold aliasOf, plainRoute. cbn [Z.ltb Z.compare].
  change ("" +:+ ?x) with x. apply slice_to_all. rewrite !slen_app.
  change (slen "-") with 1. destruct routeType; cbn [routeSuffixForType]; cbn; unfold slen in *; cbn; lia.
Qed.

Lemma aliases_plain runId routeType l counts aliases vm :
  Forall (plainVmName runId) l -> NoDup (map vm_scenarioVmName l) -> NoDup (map vm_id l) ->
  (forall v, In v l -> Map_get (vm_scenarioVmName v) counts = None) ->
  (In vm l -> Map_get (vm_id vm) (snd (fold_left (addAlias (runPrefixOf runId) (routeSuffixForType routeType)) l (counts, aliases)))
              = Some (plainRoute runId vm routeType)) /\
  (~ In (vm_id vm) (map vm_id l) ->
   Map_get (vm_id vm) (snd (fold_left (addAlias (runPrefixOf runId) (routeSuffixForType routeType)) l (counts, aliases)))
   = Map_get (vm_id vm) aliases).
Proof.
  revert counts aliases. induction l as [|x l IH]; intros counts aliases Hp Hn Hi Hc; [by split|].
  apply Forall_cons in Hp as [Hx Hp]. cbn [map] in *. apply NoDup_cons in Hn as [Hn1 Hn], Hi as [Hi1 Hi].
  cbn [fold_left]. unfold addAlias at 2 4. cbn [fst snd]. rewrite (baseSlug_plain _ _ Hx), (Hc x) by (by left). cbn [nullish].
  rewrite (alias_plain _ _ _ Hx).
  destruct (IH (Map_set (vm_scenarioVmName x) (0 + 1) counts) (Map_set (vm_id x) (plainRoute runId x routeType) aliases)) as [IH1 IH2]; try done.
  { intros v Hv. rewrite Map_get_set_ne; [apply Hc; by right|]. intros E. apply Hn1. rewrite <- E.
    apply list_elem_of_In, in_map_iff. eauto. }
  split.
  - intros [->|Hin]; [|by apply IH1]. rewrite IH2; [apply Map_get_set_eq|]. intros Hin. apply Hi1. by apply list_elem_of_In.
  - intros Hnot. rewrite IH2 by (intros Hin; apply Hnot; by right). apply Map_get_set_ne. intros E. apply Hnot. by left.
Qed.

Lemma routes_apart a b r r' :
  (a +:+ "-") +:+ routeSuffixForType r = (b +:+ "-") +:+ routeSuffixForType r' -> a = b /\ r = r'.
Proof.
  intros H. assert (r = r') as <-; [|split; [by do 2 eapply str_app_inj_r|done]].
  destruct r, r'; cbn [routeSuffixForType] in H; try done; exfalso;
    change "-" with ("-" +:+ "") in H; change "web" with ("we" +:+ "b") in H || idtac;
    change "ssh-profile" with ("ssh-profil" +:+ "e") in H || idtac; change "ssh-issued" with ("ssh-issue" +:+ "d") in H || idtac;
    rewrite !str_app_assoc in H; apply str_app_last in H; done.
Qed.

(** No two terminal routes of a run share a user name: the browser, the profile
    key and the issued key route of every VM are told apart, when the VMs have
    distinct plain names that leave room for the suffix. *)
Theorem terminal_routes_distinct runId vms vm vm' routeType routeType'
    (Hplain : Forall (plainVmName runId) vms) (Hnames : NoDup (map vm_scenarioVmName vms)) (Hids : NoDup (map vm_id vms))
    (Hvm : In vm vms) (Hvm' : In vm' vms)
    (Hsame : buildRunVmRouteUsername runId vms (vm_id vm) routeType = buildRunVmRouteUsername runId vms (vm_id vm') routeType') :
  vm = vm' /\ routeType = routeType'.
Proof.
  set (sorted := js_sort (fun l r => vm_ordinal l - vm_ordinal r <=? 0) vms).
  assert (Hp : sorted ≡ₚ vms) by apply js_sort_perm.
  assert (Hname : forall v r, In v vms -> buildRunVmRouteUsername runId vms (vm_id v) r = plainRoute runId v r).
  { intros v r Hv. unfold buildRunVmRouteUsername. fold sorted.
    destruct (aliases_plain runId r sorted [] [] v) as [Ha _].
    - by rewrite Hp. - by rewrite Hp. - by rewrite Hp. - done.
    - rewrite Ha; [done|]. apply list_elem_of_In. rewrite Hp. by apply list_elem_of_In. }
  rewrite !Hname in Hsame by done. unfold plainRoute in Hsame. rewrite !str_app_assoc in Hsame.
  apply (routes_apart _ _ routeType routeType') in Hsame as [Hsame ->]. split; [|done].
  apply (inj (String.append (runPrefixOf runId +:+ "-"))) in Hsame.
  by eapply (NoDup_map_inj vm_scenarioVmName).
Qed.

(** Three VMs of a run, with the names of a scenario. *)
Module RouteSample.
Definition vm (id : string) (ordinal : Z) (name : string) : RunVmStateDocument :=
  buildInitialVmState (mkInitialVm id ordinal id name
    (deterministicRuntimeVmName name "RunId00001" ordinal) name (mkSummary name name [] [])).
Definition vms : list RunVmStateDocument := [vm "a" 0 "web"; vm "b" 1 "db"; vm "c" 2 "web-2"].
End RouteSample.

Lemma terminal_routes_distinct_witness :
  buildRunVmRouteUsername "RunId00001" RouteSample.vms "c" route_native_issued_key = "runid00001-web-2-ssh-issued" /\
  (RouteSample.vm "c" 2 "web-2" = RouteSample.vm "c" 2 "web-2" /\ route_native_issued_key = route_native_issued_key).
Proof.
  split; [reflexivity|].
  apply (terminal_routes_distinct "RunId00001" RouteSample.vms _ _ _ _); [| | | | |reflexivity].
  - repeat constructor; cbn; done.
  - cbn. apply (bool_decide_unpack _). vm_compute. done.
  - cbn. apply (bool_decide_unpack _). vm_compute. done.
  - cbn. tauto.
  - cbn. tauto.
Defined.
