(* ===== verification/AdmissionStore.v ===== *)
(** The batch that admits a run: the statements of [admissionStatements] in
    lib/scenario-runs/begin.ts, with the conditions of
    lib/scenario-runs/admission-guards.ts and lib/run-admission-gate.ts, on the
    tables they touch. *)
From stdpp Require Import base list strings.
From Stdlib Require Import ZArith Lia.
From S2P Require Import Prelude Json RunState Store BuildStore RuntimeExecutions Bridge DesiredState Capacity CpuReservations Access Placement.

Open Scope string_scope.
Open Scope list_scope.
Open Scope Z_scope.

(** * Tables *)

(** [ScenarioStartRequestScope]. *)
Record ScenarioStartRequestScope : Type := mkScope {
  rs_scenarioId : string;
  rs_organizationId : option string;
  rs_hostId : option string;
  rs_candidateRevision : option string;
  rs_candidateBuildId : option string;
  rs_allowDrainedAdminProof : bool;
  rs_allowSequenceBypass : bool;
}.
#[export] Instance ScenarioStartRequestScope_eq_dec : EqDecision ScenarioStartRequestScope.
Proof. solve_decision. Defined.

(** What a run copies of its scenario and lecture for its pages. *)
Record RunPresentation : Type := mkPresentation {
  pt_scenarioName : string;
  pt_courseTitle : option string;
  pt_lectureTitle : option string;
  pt_lectureSummary : option string;
  pt_lectureBodyMarkdown : option string;
  pt_lectureOrdinal : option Z;
  pt_lectureCount : option Z;
  pt_title : string;
  pt_tagline : string;
  pt_briefingMarkdown : string;
  pt_objectivesJson : string;
  pt_difficulty : string;
  pt_estimatedMinutes : Z;
  pt_tagsJson : list string;
}.
(** More columns of [scenario_runs], by run id. *)
Record RunRequest : Type := mkRunRequest {
  rq_runId : string;
  rq_userId : string;
  rq_requestIdempotencyKey : option string;
  rq_requestScopeJson : option ScenarioStartRequestScope;
  rq_presentation : RunPresentation;
}.
Record SshKeyRow : Type := mkSshKey {
  sk_id : string;
  sk_runId : string;
  sk_vmId : string;
  sk_runtimeVmName : string;
  sk_publicKeyOpenssh : string;
  sk_privateKeyCiphertextB64 : string;
  sk_privateKeyIvB64 : string;
  sk_createdAt : Z;
}.
(** [runtime_vm_access_keys], keyed by VM. *)
Record AccessKeyRow : Type := mkAccessKey {
  ak_runtimeVmId : string;
  ak_executionId : string;
  ak_publicKeyOpenssh : string;
  ak_privateKeyCiphertextB64 : string;
  ak_privateKeyIvB64 : string;
  ak_createdAt : Z;
}.
(** [vm_scenario_vms]: the image a VM of a scenario boots, as [ScenarioVmImageRef]
    mirrors it. *)
Record ImageRef : Type := mkImageRef {
  ir_vmName : string;
  ir_keyScenario : option string;
  ir_keyVm : option string;
  ir_keyArch : option string;
  ir_imageSha256 : option string;
  ir_chunkManifestSha256 : option string;
  ir_kernelSha256 : option string;
  ir_initrdSha256 : option string;
}.
#[export] Instance ImageRef_eq_dec : EqDecision ImageRef.
Proof. solve_decision. Defined.
Record ScenarioVmRow : Type := mkScenarioVm {
  sv_scenarioId : string;
  sv_image : ImageRef;
}.
(** [scenario_catalog_candidates], the manifest as its text, and what is read of
    [image_builds]. *)
Record CatalogCandidateRow : Type := mkCandidate {
  cc_id : string;
  cc_revision : string;
  cc_buildId : string;
  cc_manifestJson : string;
}.
Record CandidateBuild : Type := mkCandidateBuild {
  cb_id : string;
  cb_succeeded : bool;
  cb_artifactsRetiredAt : option Z;
}.
(** [runtime_operation_gates], keyed. *)
Record GateRow : Type := mkGate { gt_key : string; gt_state : string }.

Record AdmDb : Type := mkAdm {
  am_cpu : CpuDb;
  am_access : AccessTables;
  am_settings : list HostSettings;
  am_reports : list ReportRow;
  am_requests : list RunRequest;
  am_sshKeys : list SshKeyRow;
  am_accessKeys : list AccessKeyRow;
  am_scenarioVms : list ScenarioVmRow;
  am_candidates : list CatalogCandidateRow;
  am_builds : list CandidateBuild;
  am_gates : list GateRow;
}.
Definition am_db (s : AdmDb) : Db := cd_db (am_cpu s).
Definition set_am_cpu (s : AdmDb) c : AdmDb :=
  mkAdm c (am_access s) (am_settings s) (am_reports s) (am_requests s) (am_sshKeys s) (am_accessKeys s)
    (am_scenarioVms s) (am_candidates s) (am_builds s) (am_gates s).
Definition set_am_db (s : AdmDb) (d : Db) : AdmDb := set_am_cpu s (set_db (am_cpu s) d).
Definition set_am_sshKeys (s : AdmDb) rows : AdmDb :=
  mkAdm (am_cpu s) (am_access s) (am_settings s) (am_reports s) (am_requests s) rows (am_accessKeys s)
    (am_scenarioVms s) (am_candidates s) (am_builds s) (am_gates s).
Definition set_am_accessKeys (s : AdmDb) rows : AdmDb :=
  mkAdm (am_cpu s) (am_access s) (am_settings s) (am_reports s) (am_requests s) (am_sshKeys s) rows
    (am_scenarioVms s) (am_candidates s) (am_builds s) (am_gates s).
Definition set_cd_desired (c : CpuDb) rows : CpuDb :=
  mkCpuDb (cd_db c) (cd_cpu c) rows (cd_actual c) (cd_vmCount c).

(** * Statements and batches *)

Inductive AdmConstraint : Type :=
| of_store (c : Constraint)
| of_cpu (c : CpuConstraint)
| uq_request_idempotency
| uq_ssh_keys
| uq_access_keys.

Definition AdmStmt : Type := AdmDb -> result AdmConstraint (AdmDb * Z).
Fixpoint abatch (stmts : list AdmStmt) (s : AdmDb) : result AdmConstraint (AdmDb * list Z) :=
  match stmts with
  | [] => Ok (s, [])
  | f :: rest =>
      p <-? f s;
      q <-? abatch rest (fst p);
      Ok (fst q, snd p :: snd q)
  end.

(** A statement that inserts into the tables of [Store]. *)
Definition on_store (f : Db -> result Constraint Db) (s : AdmDb) : result AdmConstraint (AdmDb * Z) :=
  match f (am_db s) with Ok d => Ok (set_am_db s d, 1) | Err c => Err (of_store c) end.
Definition on_cpu (f : CpuDb -> result CpuConstraint CpuDb) (s : AdmDb) : result AdmConstraint (AdmDb * Z) :=
  match f (am_cpu s) with
  | Ok c => Ok (set_am_cpu s c, Z.of_nat (length (cd_cpu c) - length (cd_cpu (am_cpu s)))) | Err c => Err (of_cpu c) end.
Definition runWhere (p : RunRow -> bool) (s : AdmDb) : option RunRow := List.find p (db_runs (am_db s)).

(** * Gates *)

Definition IMAGE_CUTOVER_GATE : string := "image_cutover".
Definition PROMOTION_HOLD_GATE : string := "image_promotion".
Definition IMAGE_CUTOVER_WIPED : string := "wiped".
Definition isCutoverDrained (state : string) : bool := (state =s "drained") || (state =s IMAGE_CUTOVER_WIPED).
Definition runsHeldCondition (allowDrainedAdminProof : bool) (s : AdmDb) : bool :=
  existsb (fun gate =>
    (gt_key gate =s PROMOTION_HOLD_GATE) && (gt_state gate =s "drained")
    || (gt_key gate =s IMAGE_CUTOVER_GATE)
       && (if allowDrainedAdminProof then gt_state gate =s IMAGE_CUTOVER_WIPED else isCutoverDrained (gt_state gate)))
    (am_gates s).

(** * Anchors *)

Record CandidateProof : Type := mkProof {
  cp_revision : string;
  cp_buildId : string;
  cp_manifestText : string;
}.
Definition candidateScenarioId (organizationId : option string) (revision scenarioId : string) : string :=
  nullish organizationId "public" +:+ ":" +:+ revision +:+ ":" +:+ scenarioId.
Definition candidateAnchorCondition (candidateId : string) (proof : CandidateProof) (s : AdmDb) : bool :=
  existsb (fun c => (cc_id c =s candidateId) && (cc_revision c =s cp_revision proof)
      && (cc_buildId c =s cp_buildId proof) && (cc_manifestJson c =s cp_manifestText proof)
      && existsb (fun b => (cb_id b =s cp_buildId proof) && cb_succeeded b && isNull (cb_artifactsRetiredAt b))
           (am_builds s)) (am_candidates s).

(** [LiveSourceFingerprint]: the image of every VM that was read, and their number.
    [IS] takes NULL for equal to NULL. *)
Definition liveSourceAnchorCondition (scenario : string) (anchor : list ImageRef) (s : AdmDb) : bool :=
  let vms := List.filter (fun vm => sv_scenarioId vm =s scenario) (am_scenarioVms s) in
  Nat.eqb (length (List.filter (fun vm => existsb (fun e => bool_decide (e = sv_image vm)) anchor) vms)) (length anchor)
  && Nat.eqb (length vms) (length anchor).

(** * Admissions *)

Record AdmissionHostReadiness : Type := mkReadiness {
  ar_credentialGeneration : Z;
  ar_activeSessionId : string;
  ar_actualReportedAt : Z;
  ar_actualReportText : string;
}.
Record AdmissionHostAllocation : Type := mkAllocation {
  al_hostId : string;
  al_readiness : AdmissionHostReadiness;
  al_expectedVersion : Z;
  al_nextVersion : Z;
  al_nextDoc : HostDesiredState;
}.
(** The row of the run: the columns in [Store], [Access] and here, and [vm_count]. *)
Record NewRun : Type := mkNewRun {
  nr_row : RunRow;
  nr_course : RunCourse;
  nr_request : RunRequest;
  nr_vmCount : Z;
}.
Definition nr_runId (r : NewRun) : string := sr_runId (nr_row r).
Definition nr_userId (r : NewRun) : string := sr_userId (nr_row r).
Definition nr_organizationId (r : NewRun) : option string := sr_organizationId (nr_row r).
Definition nr_hostId (r : NewRun) : string := sr_hostId (nr_row r).
Record AdmissionCommitInput : Type := mkCommit {
  ac_run : NewRun;
  ac_sshKeyRows : list SshKeyRow;
  ac_runtimeVms : list (string * RuntimeVmSpec);
  ac_accessKeys : list (string * string);
  ac_desiredVms : list DesiredVm;
  ac_desired : AdmissionHostAllocation;
  ac_cpuMillis : Z;
  ac_reservationResources : RuntimeResourceDemand;
  ac_leaseExpiresAt : option Z;
  ac_allowDrainedAdminProof : bool;
  ac_candidateProof : option CandidateProof;
  ac_sourceAnchor : option (list ImageRef);
  ac_now : Z;
}.

Definition RUNTIME_PENDING_RESOURCE_RESERVATION_TTL_MS : Z := 5 * 60000.

Definition admissionContentAccess (run : NewRun) (allowDrainedAdminProof : bool) : AccessFields :=
  let k := nr_course run in
  mkFields (nr_userId run) (nr_organizationId run) (rk_scenarioId k) (rk_courseScopeKey k) (rk_courseId k)
    (rk_lectureId k) (rk_allowSequenceBypass k)
    (allowDrainedAdminProof || rk_allowDrainedAdminProof k || rk_allowSequenceBypass k).

Section statements.
Context `{ReportJson}.
(** Which of two violated unique columns of one insertion is reported, and the
    clock of the database while the batch runs. *)
Variable keyFirst : bool.
Variable databaseNow : Z.
Variable input : AdmissionCommitInput.

#[local] Abbreviation run := (ac_run input).
#[local] Abbreviation runId := (nr_runId run).
#[local] Abbreviation hostId := (nr_hostId run).
#[local] Abbreviation now := (ac_now input).

Definition placedForRun (s : AdmDb) (h : HostRow) : bool :=
  metalPlacementForUser (am_db s) (am_access s) (nr_userId run) (nr_organizationId run) h.

Definition relayConnected (text : string) : bool :=
  match field (JSON_parse text) "relay_connected" with
  | Some (JBool b) => b
  | Some (JNum (NInt z)) => z =? 1
  | _ => false
  end.
Definition admissionHostReadinessCondition (s : AdmDb) (h : HostRow) : bool :=
  let readiness := al_readiness (ac_desired input) in
  existsb (fun x => (hs_hostId x =s ah_id h) && hs_connected x
      && match hs_lastHeartbeatAt x with Some t => databaseNow - HOST_HEARTBEAT_TTL_MS <=? t | None => false end)
    (am_settings s)
  && sql_eq (ah_activeSessionId h) (Some (ar_activeSessionId readiness))
  && (ah_credentialGeneration h =? ar_credentialGeneration readiness)
  && existsb (fun actual => (rp_hostId actual =s ah_id h)
      && (rp_updatedAt actual =? ar_actualReportedAt readiness)
      && (databaseNow - HOST_DEGRADED_AFTER_MS <=? rp_updatedAt actual)
      && (rp_reportText actual =s ar_actualReportText readiness)
      && (bool_decide (ah_scope h = scope_platform) || relayConnected (rp_reportText actual))) (am_reports s).

(** The live anchor compares with the sixth bound value, which is the name of the
    scenario; a start writes the scenario's id there. *)
Definition anchorCondition (s : AdmDb) : bool :=
  match ac_candidateProof input, ac_sourceAnchor input with
  | Some proof, _ =>
      candidateAnchorCondition (candidateScenarioId (nr_organizationId run) (cp_revision proof)
        (rk_scenarioId (nr_course run))) proof s
  | None, Some anchor => liveSourceAnchorCondition (pt_scenarioName (rq_presentation (nr_request run))) anchor s
  | None, None => true
  end.

(** The host a run is inserted from. *)
Definition admittingHost (s : AdmDb) (h : HostRow) : bool :=
  (ah_id h =s hostId) && negb (ah_disabled h) && (ah_role h =s "agent")
  && existsb (fun x => (hs_hostId x =s ah_id h) && hs_scenarioEnabled x) (am_settings s)
  && placedForRun s h && admissionHostReadinessCondition s h
  && contentAccessCondition (am_db s) (am_access s) (admissionContentAccess run (ac_allowDrainedAdminProof input))
  && negb (runsHeldCondition (ac_allowDrainedAdminProof input) s)
  && anchorCondition s.

Definition admissionExecution : ExecutionRow :=
  mkExecution (nullish (sr_runtimeExecutionId (nr_row run)) runId) (nr_userId run) (nr_organizationId run)
    (Some hostId) None "scenario" runId 1 None None ex_provisioning (ac_leaseExpiresAt input) None None now now.
Definition runtimeExecutionStatement : AdmStmt := fun s =>
  if existsb (fun h => (ah_id h =s hostId) && negb (ah_disabled h) && placedForRun s h) (db_hosts (am_db s))
  then on_store (insertExecution admissionExecution) s
  else Ok (s, 0).

Definition sameRequestKey (a b : RunRequest) : bool :=
  (rq_userId a =s rq_userId b) && sql_eq (rq_requestIdempotencyKey a) (rq_requestIdempotencyKey b).
Definition insertScenarioRun : AdmStmt := fun s =>
  let runs := db_runs (am_db s) ++ [nr_row run] in
  let keyTaken := existsb (sameRequestKey (nr_request run)) (am_requests s) in
  let activeTaken := negb (bool_decide (NoDup (omap sr_activeKey runs))) in
  throw_if keyTaken && (keyFirst || negb activeTaken) with uq_request_idempotency;
  throw_if activeTaken with of_store uq_scenario_runs_active_key;
  throw_if negb (bool_decide (NoDup (map sr_runId runs) /\ NoDup (omap sr_runtimeExecutionId runs)))
    with of_store uq_scenario_runs_runtime_execution;
  let c := am_cpu s in
  let t := am_access s in
  Ok (mkAdm (mkCpuDb (set_runs (am_db s) runs) (cd_cpu c) (cd_desired c) (cd_actual c)
              (fun id => if id =s runId then nr_vmCount run else cd_vmCount c id))
        (mkAccess (at_catalogs t) (at_completions t) (at_scenarios t) (at_organizations t) (at_users t)
           (at_runs t ++ [nr_course run]) (at_credentials t))
        (am_settings s) (am_reports s) (am_requests s ++ [nr_request run]) (am_sshKeys s) (am_accessKeys s)
        (am_scenarioVms s) (am_candidates s) (am_builds s) (am_gates s), 1).
Definition insertRunStatement : AdmStmt := fun s =>
  if existsb (admittingHost s) (db_hosts (am_db s)) then insertScenarioRun s else Ok (s, 0).

(** The row an aborting statement would insert; its generation violates the check. *)
Definition abortSentinel (id : string) : ExecutionRow :=
  mkExecution (id +:+ runId) (nr_userId run) (nr_organizationId run) (Some hostId) None "scenario" runId 0
    None None ex_queued None None None now now.
Definition runRefusedSentinelStatement : AdmStmt := fun s =>
  if negb (existsb (fun r => sr_runId r =s runId) (db_runs (am_db s))) && activeAccount (am_db s) (nr_userId run)
  then on_store (insertExecution (abortSentinel "__admission_run_refused__:")) s
  else Ok (s, 0).

Definition sshKeyConflict (a b : SshKeyRow) : bool :=
  (sk_id a =s sk_id b) || (sk_runId a =s sk_runId b) && (sk_vmId a =s sk_vmId b).
Definition sshKeyStatement (key : SshKeyRow) : AdmStmt := fun s =>
  match runWhere (fun r => (sr_runId r =s sk_runId key) && (sr_userId r =s nr_userId run) && (sr_hostId r =s hostId)
                    && bool_decide (sr_state r = run_provisioning)) s with
  | None => Ok (s, 0)
  | Some _ =>
      throw_if existsb (sshKeyConflict key) (am_sshKeys s) with uq_ssh_keys;
      Ok (set_am_sshKeys s (am_sshKeys s ++ [key]), 1)
  end.
Definition sshKeyStatements : list AdmStmt := map sshKeyStatement (ac_sshKeyRows input).

Definition desiredHit (row : DesiredRow) : bool :=
  (dr_hostId row =s hostId) && (dr_version row =? al_expectedVersion (ac_desired input)).
Definition writtenRow (row : DesiredRow) : DesiredRow :=
  mkDesiredRow (dr_hostId row) (al_nextVersion (ac_desired input)) (al_nextDoc (ac_desired input)) (dr_createdAt row) now.
Definition desiredStateCasStatement : AdmStmt := fun s =>
  if existsb (fun r => (sr_runId r =s runId) && (sr_hostId r =s hostId)) (db_runs (am_db s))
  then Ok (set_am_cpu s (set_cd_desired (am_cpu s) (update_where desiredHit writtenRow (cd_desired (am_cpu s)))),
           count_where desiredHit (cd_desired (am_cpu s)))
  else Ok (s, 0).

Definition namesRun (id : string) (row : DesiredRow) : bool :=
  existsb (fun vm => dv_run_id vm =s id) (ds_vms (dr_docJson row)).
Definition casSentinelStatement : AdmStmt := fun s =>
  match runWhere (fun r => (sr_runId r =s runId)
          && negb (existsb (fun d => (dr_hostId d =s sr_hostId r) && namesRun (sr_runId r) d) (cd_desired (am_cpu s)))) s with
  | Some _ => on_store (insertExecution (abortSentinel "__admission_desired_cas__:")) s
  | None => Ok (s, 0)
  end.

Definition cpuQuotaStatement : AdmStmt :=
  on_cpu (admissionCpuQuotaStatement runId (nr_userId run) hostId (ac_cpuMillis input)
    (al_nextVersion (ac_desired input)) now).

(** The execution of this run, which has the id of the run. *)
Definition runExecution (s : AdmDb) : option string :=
  r ← runWhere (fun r => (sr_runId r =s runId) && sql_eq (sr_runtimeExecutionId r) (Some runId)
                 && bool_decide (sr_state r = run_provisioning)) s;
  sr_runtimeExecutionId r.
Definition newVmRow (executionId runtimeVmId : string) (vm : RuntimeVmSpec) : RuntimeVmRow :=
  mkRuntimeVm runtimeVmId executionId (spec_vmId vm) (spec_ordinal vm) (spec_runtimeVmName vm) (spec_imageKey vm)
    (spec_imageSha256 vm) (spec_cpuMillis vm) (spec_memoryMib vm) (spec_diskMib vm) None None now now.
Definition runtimeVmStatement (vm : string * RuntimeVmSpec) : AdmStmt := fun s =>
  match runExecution s with
  | Some executionId => on_store (insertRuntimeVm (newVmRow executionId (fst vm) (snd vm))) s
  | None => Ok (s, 0)
  end.
Definition accessKeyStatement (runtimeVmId publicKey : string) (sealed : string * string) : AdmStmt := fun s =>
  match runExecution s with
  | Some executionId =>
      throw_if existsb (fun k => ak_runtimeVmId k =s runtimeVmId) (am_accessKeys s) with uq_access_keys;
      Ok (set_am_accessKeys s (am_accessKeys s ++
            [mkAccessKey runtimeVmId executionId publicKey (fst sealed) (snd sealed) now]), 1)
  | None => Ok (s, 0)
  end.

(** The first authorized key of the desired VM of a name. *)
Definition publicKeyOf (vmName : string) : string :=
  match List.find (fun d => dv_vm_name d =s vmName) (ac_desiredVms input) with
  | Some d => nullish (head (dv_ssh_authorized_keys_openssh d)) ""
  | None => ""
  end.
(** [None]: the key material of a VM is incomplete, which throws. *)
Fixpoint runtimeVmStatements (vms : list (string * RuntimeVmSpec)) (accessKeys : list (string * string))
  : option (list AdmStmt) :=
  match vms with
  | [] => Some []
  | vm :: rest =>
      match accessKeys with
      | [] => None
      | sealed :: others =>
          let publicKey := publicKeyOf (spec_runtimeVmName (snd vm)) in
          if truthy publicKey then
            statements ← runtimeVmStatements rest others;
            Some (runtimeVmStatement vm :: accessKeyStatement (fst vm) publicKey sealed :: statements)
          else None
      end
  end.

Definition resourceReservationStatement : AdmStmt := fun s =>
  match admissionResourceReservationStatement runId hostId (ac_reservationResources input)
          (Some (now + RUNTIME_PENDING_RESOURCE_RESERVATION_TTL_MS)) now (am_cpu s) with
  | Ok c => Ok (set_am_cpu s c, Z.of_nat (length (db_reservations (cd_db c)) - length (db_reservations (am_db s))))
  | Err c => Err (of_cpu c)
  end.

Definition activeSlotStatement : AdmStmt := fun s =>
  match runWhere (fun r => (sr_runId r =s runId) && negb (isNull (sr_activeKey r)) && negb (isNull (sr_runtimeExecutionId r))) s with
  | Some r => on_store (insertSlot (mkSlot (sr_userId r) (nullish (sr_runtimeExecutionId r) "") (sr_createdAt r))) s
  | None => Ok (s, 0)
  end.

Definition admissionStatements : option (list AdmStmt) :=
  vms ← runtimeVmStatements (ac_runtimeVms input) (ac_accessKeys input);
  Some ([runtimeExecutionStatement; insertRunStatement; runRefusedSentinelStatement] ++ sshKeyStatements
    ++ [desiredStateCasStatement; casSentinelStatement; cpuQuotaStatement] ++ vms
    ++ [resourceReservationStatement; activeSlotStatement]).
End statements.
