(* ===== verification/AdmissionRequests.v ===== *)
(** Starting a run: [beginScenarioRun] and [cancelAdmittedRun] of
    lib/scenario-runs/begin.ts, and [selectScenarioHosts] of
    lib/scenario-runs/start.ts, as requests on the shared tables.

    What a start asks of other components (the scenario's source, the course rules,
    the guest tools, sealed keys, images on a personal server, the registry's guard)
    is a call that is answered with anything. The ids a request creates are a
    sequence of its own. *)
From stdpp Require Import base list strings pretty.
From Stdlib Require Import ZArith Lia.
From S2P Require Import Prelude Json Text RunState Store BuildStore RuntimeExecutions Bridge DesiredState Capacity CpuReservations Access Placement RunNames Requests AdmissionStore.

Open Scope string_scope.
Open Scope list_scope.
Open Scope Z_scope.
Open Scope req_scope.

(** * Requests and answers *)

Record BeginScenarioRunInput : Type := mkStart {
  bs_scenarioId : string;
  bs_userId : string;
  bs_idempotencyKey : string;
  bs_organizationId : option string;
  bs_hostId : option string;
  bs_candidateRevision : option string;
  bs_candidateBuildId : option string;
  bs_allowDrainedAdminProof : bool;
  bs_allowSequenceBypass : bool;
}.
Record BeginScenarioRunResult : Type := mkAccepted {
  br_runId : string;
  br_scenarioId : string;
  br_acceptedAt : Z;
  br_reused : bool;
  br_hostId : option string;
}.
Inductive StartError : Type :=
| start_refused (r : Refusal)
| start_desired (e : DesiredStateError)
| start_rejected (c : AdmConstraint)
| start_reservation (e : ReservationError)
| start_broken (message : string).
Definition start_code (e : StartError) : option string :=
  match e with start_refused r => Some (rf_code r) | _ => None end.
Definition refuse {A} (status : Z) (code : string) : result StartError A := Err (start_refused (refusal status code)).

(** [ScenarioLaunchSpec], [ScenarioRunLaunchSource] and [ScenarioStartSource]. *)
Record ScenarioLaunchSpec : Type := mkLaunch {
  ls_scenarioVmId : string;
  ls_scenarioVmName : string;
  ls_runtimeVmNamePrefix : string;
  ls_image : string;
  ls_imageKey : option ImageKey;
  ls_imageSha256 : option string;
  ls_imageRef : option ImageRef;
  ls_hostname : string;
  ls_resources : VmResourcesSpec;
  ls_leaseDurationSeconds : Z;
  ls_summary : ScenarioLaunchSummary;
}.
Record ScenarioStartSource : Type := mkSource {
  so_scenarioId : string;
  so_content : RunContent;
  so_launchSpecs : list ScenarioLaunchSpec;
  so_candidateSource : option CandidateRunSourceIdentityV1;
  so_candidateProof : option CandidateProof;
}.
(** The course context of a start: the columns the run keeps, and the run's pages
    as the briefing and the lecture give them. *)
Record CourseLecture : Type := mkCourseLecture {
  cl_courseScopeKey : option string;
  cl_courseId : option string;
  cl_lectureId : option string;
  cl_presentation : RunPresentation;
}.
Record CandidateRequest : Type := mkCandidateRequest { cq_revision : string; cq_buildId : string }.
Record KeyDraft : Type := mkDraft {
  kd_id : string;
  kd_vmId : string;
  kd_runtimeVmName : string;
  kd_publicKeyOpenssh : string;
  kd_privateKeyOpenssh : string;
}.

Inductive StartCall : Type -> Type :=
| Clock : StartCall Z
| DatabaseClock : StartCall Z
| OpenRegistryGuard (userId : string) : StartCall bool
| CompleteRegistryGuard (ok : bool) : StartCall ()
| ReadSource (scenarioId : string) (organizationId : option string) (candidate : option CandidateRequest)
    : StartCall (result StartError (option ScenarioStartSource))
| CheckCourse (userId : string) (organizationId : option string) (scenarioId : string) (bypass : bool)
    : StartCall (result StartError CourseLecture)
| GenerateKeyPair (runId runtimeVmName : string) : StartCall (string * string)
| SealRunKey (runId : string) (draft : KeyDraft) : StartCall (result StartError (string * string))
| SealAccessKey (runId : string) (draft : KeyDraft) : StartCall (result StartError (string * string))
| LoadGuestToolsPin : StartCall (result StartError DesiredGuestTools)
| PreparePersonalImages (userId key : string) (images : list RequiredScenarioImage) (resources : RuntimeResourceDemand)
    : StartCall (result StartError (option string))
| WakeHost (hostId : string) : StartCall ().

Definition Start (A : Type) : Type := Req StartCall AdmDb (result StartError A).
Definition ok {A} (a : A) : Start A := Done (Ok a).
Definition throw {A} (e : StartError) : Start A := Done (Err e).
Definition reject {A} (status : Z) (code : string) : Start A := Done (refuse status code).
Definition lift {A} (r : result StartError A) : Start A := Done r.
Definition ask {A} (c : StartCall (result StartError A)) : Start A := call c.

(** [Promise.all] of one call per item. *)
Fixpoint each {A B} (f : A -> Start B) (l : list A) : Start (list B) :=
  match l with
  | [] => ok []
  | x :: rest => b <-! f x; bs <-! each f rest; ok (b :: bs)
  end.

(** * What a run is made of *)

Definition IDEMPOTENCY_KEY_CHARS (n : N) : bool :=
  is_alnum n || existsb (N.eqb n) (code_units "._~:/+=-").
Definition requireIdempotencyKey (value : string) : result StartError string :=
  let key := trim value in
  if Nat.leb 8 (String.length key) && Nat.leb (String.length key) 200 && forallb IDEMPOTENCY_KEY_CHARS (code_units key)
  then Ok key else refuse 400 "idempotency_key_required".

Definition isSafeBuildId (value : string) : bool := isSafeBundleRev value.
Definition candidateRequestFromInput (input : BeginScenarioRunInput) : result StartError (option CandidateRequest) :=
  match trim <$> bs_candidateRevision input, trim <$> bs_candidateBuildId input with
  | None, None => Ok None
  | Some revision, Some buildId =>
      if negb (isSafeBundleRev revision) || negb (isSafeBuildId buildId) then refuse 400 "candidate_proof_identity_invalid"
      else if negb (bs_allowDrainedAdminProof input) then refuse 403 "candidate_proof_admin_required"
      else Ok (Some (mkCandidateRequest revision buildId))
  | _, _ => refuse 400 "candidate_proof_identity_incomplete"
  end.
Definition scenarioStartRequestScope (input : BeginScenarioRunInput) : ScenarioStartRequestScope :=
  mkScope (bs_scenarioId input) (bs_organizationId input) (bs_hostId input)
    (trim <$> bs_candidateRevision input) (trim <$> bs_candidateBuildId input)
    (bs_allowDrainedAdminProof input) (bs_allowSequenceBypass input).

Fixpoint liveSourceFingerprint (launchSpecs : list ScenarioLaunchSpec) : result StartError (list ImageRef) :=
  match launchSpecs with
  | [] => Ok []
  | spec :: rest =>
      match ls_imageRef spec with
      | None => refuse 500 "scenario_catalog_invalid"
      | Some ref => refs <-? liveSourceFingerprint rest; Ok (ref :: refs)
      end
  end.

Definition with_provisioning (vm : RunVmStateDocument) (p : RunVmProvisioningSpec) : RunVmStateDocument :=
  let '(mkVm id ord svid svn rvn hn ph pt pd pp tp tr toa cot bp sp ra st hr t rc rs rg ip ls rst roa vca _ lg) := vm in
  mkVm id ord svid svn rvn hn ph pt pd pp tp tr toa cot bp sp ra st hr t rc rs rg ip ls rst roa vca p lg.
Definition with_provisioning_status (vm : RunVmStateDocument) (status : ProvisioningStatus) (error : option string)
  : RunVmStateDocument :=
  let p := vm_provisioning vm in
  with_provisioning vm (mkProvisioning (prov_image p) (prov_imageKey p) (prov_imageSha256 p) (prov_resources p)
    (prov_leaseDurationSeconds p) (prov_groupName p) (prov_groupId p) (prov_setupKeyId p) status error).

Definition initialVm (runId : string) (index : nat) (vmId : string) (spec : ScenarioLaunchSpec) : InitialVm :=
  mkInitialVm vmId (Z.of_nat index) (ls_scenarioVmId spec) (ls_scenarioVmName spec)
    (deterministicRuntimeVmName (ls_runtimeVmNamePrefix spec) runId (Z.of_nat index)) (ls_hostname spec) (ls_summary spec).
Definition provisionedVm (runId : string) (index : nat) (vmId : string) (spec : ScenarioLaunchSpec) : RunVmStateDocument :=
  let vm := buildInitialVmState (initialVm runId index vmId spec) in
  let p := vm_provisioning vm in
  with_provisioning vm (mkProvisioning (Some (ls_image spec)) (ls_imageKey spec) (ls_imageSha256 spec)
    (Some (ls_resources spec)) (Some (ls_leaseDurationSeconds spec)) (prov_groupName p) (prov_groupId p)
    (prov_setupKeyId p) prov_pending (prov_error p)).
Definition runVmStatesOf (runId : string) (vmIds : list string) (specs : list ScenarioLaunchSpec) : list RunVmStateDocument :=
  imap (fun i p => provisionedVm runId i (fst p) (snd p)) (zip vmIds specs).

(** The state document of a new run: its VMs pending, then queued. *)
Definition provisioningState (source : ScenarioStartSource) (vms : list RunVmStateDocument) : RunStateDocument :=
  let initial := buildInitialRunState (map (fun vm => mkInitialVm (vm_id vm) (vm_ordinal vm) (vm_scenarioVmId vm)
    (vm_scenarioVmName vm) (vm_runtimeVmName vm) (vm_hostname vm) (vm_launchSummary vm)) vms) in
  recomputeRunState (mkRun run_provisioning "Provisioning" "Queueing launch delivery." (run_progressPercent initial)
    (run_terminalPhase initial) (run_canOpenTerminal initial) (run_canDestroy initial) (run_bootProbes initial)
    (run_scenarioProbes initial) (run_replayArtifacts initial) (run_terminalTarget initial) vms
    (match so_candidateSource source with Some c => Some c | None => run_candidateSource initial end)).
Definition with_run_vms (d : RunStateDocument) (vms : list RunVmStateDocument) : RunStateDocument :=
  mkRun (run_phase d) (run_phaseTitle d) (run_phaseDetail d) (run_progressPercent d) (run_terminalPhase d)
    (run_canOpenTerminal d) (run_canDestroy d) (run_bootProbes d) (run_scenarioProbes d) (run_replayArtifacts d)
    (run_terminalTarget d) vms (run_candidateSource d).
Definition provisionedStateOf (source : ScenarioStartSource) (vms : list RunVmStateDocument) : RunStateDocument :=
  let state := provisioningState source vms in
  recomputeRunState (with_run_vms state (map (fun vm => with_provisioning_status vm prov_queued None) (run_vms state))).

Definition runtimeVmSpec (vm : RunVmStateDocument) : result StartError RuntimeVmSpec :=
  let p := vm_provisioning vm in
  let imageSha256 := nullish (trim <$> prov_imageSha256 p) "" in
  match prov_resources p, prov_imageKey p with
  | Some resources, Some imageKey =>
      if truthy imageSha256 then
        Ok (mkVmSpec (vm_id vm) (vm_ordinal vm) (vm_runtimeVmName vm) (encodeImageKey imageKey) imageSha256
              (res_cpuMillis resources) (res_memoryMib resources) (res_diskMib resources))
      else refuse 409 "scenario_runtime_spec_incomplete"
  | _, _ => refuse 409 "scenario_runtime_spec_incomplete"
  end.
Fixpoint runtimeVmSpecsFromScenarioState (vms : list RunVmStateDocument) : result StartError (list RuntimeVmSpec) :=
  match vms with
  | [] => Ok []
  | vm :: rest => spec <-? runtimeVmSpec vm; specs <-? runtimeVmSpecsFromScenarioState rest; Ok (spec :: specs)
  end.

Definition scenarioRuntimeReservationResources (vms : list RuntimeVmSpec) (cpuMillisByVm : list Z)
  : result StartError RuntimeResourceDemand :=
  match cpuReservationForVms (map NInt cpuMillisByVm) with
  | Err e => Err (start_reservation e)
  | Ok cpu => Ok (mkDemand cpu (js_sum (map spec_memoryMib vms)) (js_sum (map spec_diskMib vms)))
  end.

Definition leaseExpiry (createdAt : Z) (vms : list RunVmStateDocument) : option Z :=
  let seconds := foldr Z.max 0 (map (fun vm => nullish (prov_leaseDurationSeconds (vm_provisioning vm)) 0) vms) in
  if 0 <? seconds then Some (createdAt + seconds * 1000) else None.

(** The desired VM of each VM, with the public key made for it. *)
Fixpoint desiredVmsFrom (runId userId : string) (guestTools : DesiredGuestTools) (createdAt : Z)
    (drafts : list KeyDraft) (vms : list RunVmStateDocument) : result StartError (list DesiredVm) :=
  match vms with
  | [] => Ok []
  | vm :: rest =>
      let keys := map kd_publicKeyOpenssh (List.filter (fun d => kd_vmId d =s vm_id vm) drafts) in
      match desiredVmFromRunVm runId userId runId 1 vm createdAt (option_list (last keys)) guestTools with
      | None => refuse 500 "scenario_vm_desired_state_invalid"
      | Some d => ds <-? desiredVmsFrom runId userId guestTools createdAt drafts rest; Ok (d :: ds)
      end
  end.

(** * Reads *)

Definition assertAgentKvmRunsOpen (allowDrainedAdminProof : bool) : Start () :=
  held <-- query (runsHeldCondition allowDrainedAdminProof);
  if held then reject 503 "runtime_cutover_drained" else ok ().
Definition scenarioStartAccessRevoked : StartError := start_refused (refusal 403 "access_revoked").
Definition assertAccountActive (userId : string) : Start () :=
  active <-- query (fun s => activeAccount (am_db s) userId);
  if active : bool then ok () else throw scenarioStartAccessRevoked.

Record StoredIdempotentRun : Type := mkStored {
  si_runId : string;
  si_scenarioId : string;
  si_hostId : string;
  si_requestScopeJson : option ScenarioStartRequestScope;
  si_acceptedAt : Z;
}.
Definition storedByKey (userId key : string) (s : AdmDb) : option StoredIdempotentRun :=
  q ← List.find (fun q => (rq_userId q =s userId) && sql_eq (rq_requestIdempotencyKey q) (Some key)) (am_requests s);
  r ← runWhere (fun r => sr_runId r =s rq_runId q) s;
  k ← List.find (fun k => rk_runId k =s rq_runId q) (at_runs (am_access s));
  Some (mkStored (sr_runId r) (rk_scenarioId k) (sr_hostId r) (rq_requestScopeJson q) (sr_createdAt r)).
Definition loadRunByIdempotencyKey (userId key : string) : Start (option StoredIdempotentRun) :=
  stored <-- query (storedByKey userId key); ok stored.
Definition assertReplayMatchesScope (stored : option ScenarioStartRequestScope) (expected : ScenarioStartRequestScope)
  : result StartError () :=
  if bool_decide (stored = Some expected) then Ok () else refuse 409 "idempotency_key_conflict".

(** The hint is started after the commit; its failure is only logged. *)
Definition deliveryHint (hostId : string) : Start () := _ <-- call (WakeHost hostId); ok ().
Definition replayOf (scope : ScenarioStartRequestScope) (stored : StoredIdempotentRun) : Start BeginScenarioRunResult :=
  _ <-! lift (assertReplayMatchesScope (si_requestScopeJson stored) scope);
  _ <-! deliveryHint (si_hostId stored);
  ok (mkAccepted (si_runId stored) (si_scenarioId stored) (si_acceptedAt stored) true (Some (si_hostId stored))).

Definition activeKeyFor (userId : string) : string := userId.
Definition hasActiveRun (userId : string) (s : AdmDb) : bool :=
  existsb (fun r => sql_eq (sr_activeKey r) (Some (activeKeyFor userId))) (db_runs (am_db s)).
Definition activeRunConflictError : StartError := start_refused (refusal 409 "scenario_run_active_conflict").

Definition assertAccountStillActive (userId runId hostId : string) : Start () :=
  current <-- query (fun s => activeAccount (am_db s) userId
    && existsb (fun r => (sr_userId r =s userId) && (sr_runId r =s runId) && (sr_hostId r =s hostId)
         && bool_decide (sr_state r = run_provisioning) && isNull (sr_deleteRequestedAt r)) (db_runs (am_db s)));
  if current : bool then ok () else throw scenarioStartAccessRevoked.
Definition assertAdmissionRefusalPriority (userId : string) (allowDrainedAdminProof : bool) : Start () :=
  _ <-! assertAgentKvmRunsOpen allowDrainedAdminProof;
  assertAccountActive userId.

(** * Documents *)

Section requests.
Context `{ReportJson} `{Collation} `{LoadOrder}.
(** [learnerRunCliV1EnforcementEnabled], and how an insertion reports two violated
    unique columns. *)
Variable requireRunCli : bool.
Variable keyFirst : bool.

Definition hostDocuments (s : AdmDb) : DesiredDb := mkDesiredDb (cd_desired (am_cpu s)) (db_hosts (am_db s)).
Definition insertDesiredRow (row : DesiredRow) (s : AdmDb) : AdmDb * bool :=
  let '(d, inserted) := insertDesired row (hostDocuments s) in
  (set_am_cpu s (set_cd_desired (am_cpu s) (dd_rows d)), inserted).

Definition desiredResult {A} (r : result DesiredStateError A) : result StartError A :=
  match r with Ok a => Ok a | Err e => Err (start_desired e) end.
Fixpoint loadDesiredFrom (hostId : string) (now : Z) (ownership : HostScope * string) (left : nat)
  : Start HostDesiredState :=
  match left with
  | O => throw (start_desired lost_version_races)
  | S left' =>
      row <-- query (fun s => findDesired (hostDocuments s) hostId);
      match row with
      | Some r => lift (desiredResult (checkedDocument hostId ownership r))
      | None =>
          let doc := createEmptyHostDesiredState hostId (fst ownership) (snd ownership) now in
          inserted <-- transaction (insertDesiredRow (mkDesiredRow hostId (ds_version doc) doc now now));
          if inserted : bool then ok doc else loadDesiredFrom hostId now ownership left'
      end
  end.
Definition loadOrCreateDesired (hostId : string) (now : Z) : Start HostDesiredState :=
  ownership <-- query (fun s => hostOwnership hostId (hostDocuments s));
  match ownership with
  | Err e => throw (start_desired e)
  | Ok o => loadDesiredFrom hostId now o MUTATE_DESIRED_STATE_MAX_ATTEMPTS
  end.

(** * The choice of a host *)

Definition selectScenarioHosts (requiredImages : list RequiredScenarioImage) (userId : string)
    (requiredResources : option RuntimeResourceDemand) (now : Z) (organizationId : option string)
  : Req StartCall AdmDb (result SelectionFailure (list string)) :=
  candidates <-- query (fun s => loadEligibleScenarioLaunchHosts (am_db s) (am_settings s) (am_reports s) requireRunCli
                          (metalPlacementForUser (am_db s) (am_access s) userId organizationId) now);
  snapshot <-- query (fun s => loadActiveRuntimeResourceSnapshot (am_db s) now
                        (map (fun h => ah_id (lh_host h)) (readyCandidates requiredImages candidates)));
  match suitableHosts candidates requiredImages requiredResources snapshot with
  | Err e => Done (Err e)
  | Ok ranked =>
      activeRuns <-- query (fun s => map sr_hostId (List.filter (fun r => str_mem (sr_hostId r) (map rankedId ranked)
                       && isNull (sr_completedAt r) && isNull (sr_failedAt r)) (db_runs (am_db s))));
      Done (Ok (map rankedId (rankHosts activeRuns ranked)))
  end.

Definition admissionDraft (guestTools : DesiredGuestTools) (vms : list DesiredVm) (draft : HostDesiredState) : HostDesiredState :=
  fold_left (fun d vm => upsertDesiredVm (upsertDesiredCachedImage d (mkCachedImage (dv_image_key vm) (dv_image_id vm))) vm)
    vms (upsertDesiredGuestTools draft guestTools).

(** One host of [planAdmissionHost]; [None] skips it. *)
Definition planHost (hostId userId : string) (organizationId : option string)
    (requiredImages : list RequiredScenarioImage) (explicitHost : bool) (now cpuMillis : Z)
    (resources : RuntimeResourceDemand) (desiredVms : list DesiredVm) (guestTools : DesiredGuestTools)
  : Start (option AdmissionHostAllocation) :=
  current <-! loadOrCreateDesired hostId now;
  checkedAt <-- call Clock;
  launch <-- query (fun s => loadScenarioLaunchHostForUser (am_db s) (am_access s) (am_settings s) (am_reports s)
                      requireRunCli hostId userId requiredImages organizationId checkedAt);
  match launch with
  | Err e => if negb explicitHost && (rf_status e <? 500) then ok None else throw (start_refused e)
  | Ok host =>
      match ah_activeSessionId (lh_host host), lh_report host with
      | Some sessionId, Some reported =>
          if negb (truthy sessionId) || (ah_credentialGeneration (lh_host host) <=? 0) then ok None else
          let report := JSON_parse (rp_reportText reported) in
          reservations <-- query (fun s => map capacityRow (reservationsOf hostId (am_cpu s)));
          match hostCpuReservationCapacityFromSnapshot (Some report) reservations with
          | None => ok None
          | Some capacity =>
              if cc_availableCpuMillis capacity <? cpuMillis then ok None else
              snapshot <-- query (fun s => loadActiveRuntimeResourceSnapshot (am_db s) now [hostId]);
              match availableRuntimeHostResources hostId report snapshot with
              | None => ok None
              | Some available =>
                  if negb (runtimeResourcesFit resources available) then ok None else
                  match mutateDesiredState current (admissionDraft guestTools desiredVms) now with
                  | Err e => throw (start_desired e)
                  | Ok None => ok None
                  | Ok (Some next) =>
                      ok (Some (mkAllocation hostId
                        (mkReadiness (ah_credentialGeneration (lh_host host)) sessionId (rp_updatedAt reported) (rp_reportText reported))
                        (ds_version current) (ds_version next) next))
                  end
              end
          end
      | _, _ => ok None
      end
  end.
Fixpoint firstPlanned (plan : string -> Start (option AdmissionHostAllocation)) (hostIds : list string)
  : Start (option AdmissionHostAllocation) :=
  match hostIds with
  | [] => ok None
  | h :: rest => planned <-! plan h; match planned with Some a => ok (Some a) | None => firstPlanned plan rest end
  end.
Definition planAdmissionHost (candidateHostIds : list string) (userId : string) (organizationId : option string)
    (requiredImages : list RequiredScenarioImage) (explicitHost : bool) (now cpuMillis : Z)
    (resources : RuntimeResourceDemand) (desiredVms : list DesiredVm) (guestTools : DesiredGuestTools)
  : Start (option AdmissionHostAllocation) :=
  firstPlanned (fun h => planHost h userId organizationId requiredImages explicitHost now cpuMillis resources desiredVms guestTools)
    (Set_new candidateHostIds).

Definition candidateHosts (userId : string) (organizationId : option string) (requestedHostId : option string)
    (requiredImages : list RequiredScenarioImage) (resources : RuntimeResourceDemand) (now : Z) : Start (list string) :=
  match requestedHostId with
  | Some hostId =>
      checkedAt <-- call Clock;
      launch <-- query (fun s => loadScenarioLaunchHostForUser (am_db s) (am_access s) (am_settings s) (am_reports s)
                          requireRunCli hostId userId requiredImages organizationId checkedAt);
      match launch with Err e => throw (start_refused e) | Ok _ => ok [hostId] end
  | None =>
      selection <-- selectScenarioHosts requiredImages userId (Some resources) now organizationId;
      match selection with
      | Ok hostIds => ok hostIds
      | Err selection_image_not_ready => reject 409 "image_not_ready"
      | Err _ => reject 409 "scenario_host_unavailable"
      end
  end.
Definition allocateAdmissionHost (userId : string) (organizationId : option string) (requestedHostId : option string)
    (requiredImages : list RequiredScenarioImage) (resources : RuntimeResourceDemand) (cpuMillis now : Z)
    (desiredVms : list DesiredVm) (guestTools : DesiredGuestTools) : Start AdmissionHostAllocation :=
  hosts <-! candidateHosts userId organizationId requestedHostId requiredImages resources now;
  allocation <-! planAdmissionHost hosts userId organizationId requiredImages (negb (isNull requestedHostId)) now cpuMillis
                   resources desiredVms guestTools;
  match allocation with Some a => ok a | None => reject 409 "scenario_host_unavailable" end.

(** * The commit *)

(** A batch as one access: a constraint it violates leaves everything as it was. *)
Definition run_batch (stmts : list AdmStmt) (s : AdmDb) : AdmDb * result AdmConstraint (list Z) :=
  match abatch stmts s with Ok p => (fst p, Ok (snd p)) | Err c => (s, Err c) end.

Inductive AdmissionCommitOutcome : Type :=
| committed
| cas_lost
| duplicate_key
| commit_error (e : StartError).

Definition isActiveKeyUniqueViolation (c : AdmConstraint) : bool :=
  match c with of_store uq_scenario_runs_active_key | of_store uq_active_runtime_slots => true | _ => false end.

Definition sourceAnchorRefusal (proof : option CandidateProof) (anchor : option (list ImageRef))
    (organizationId : option string) (scenarioId : string) : Start () :=
  match proof, anchor with
  | Some p, _ =>
      holds <-- query (candidateAnchorCondition (candidateScenarioId organizationId (cp_revision p) scenarioId) p);
      if holds : bool then ok () else reject 409 "scenario_candidate_not_ready"
  | None, Some a =>
      holds <-- query (liveSourceAnchorCondition scenarioId a);
      if holds : bool then ok () else reject 409 "scenario_source_changed"
  | None, None => ok ()
  end.
Definition assertCurrentContentAccess (run : NewRun) (allowDrainedAdminProof : bool) : Start () :=
  allowed <-- query (fun s => contentAccessCondition (am_db s) (am_access s) (admissionContentAccess run allowDrainedAdminProof));
  if allowed : bool then ok () else reject 409 "scenario_content_access_changed".
(** Why a run was not inserted; an anchor that refuses, the gate and the account
    throw their own errors. *)
Definition admissionRefusal (input : AdmissionCommitInput) : Start StartError :=
  let run := ac_run input in
  _ <-! sourceAnchorRefusal (ac_candidateProof input) (ac_sourceAnchor input) (nr_organizationId run) (rk_scenarioId (nr_course run));
  _ <-! assertAdmissionRefusalPriority (nr_userId run) (ac_allowDrainedAdminProof input);
  _ <-! assertCurrentContentAccess run (ac_allowDrainedAdminProof input);
  ok scenarioStartAccessRevoked.

Definition commitAdmissionBatch (input : AdmissionCommitInput) : Start AdmissionCommitOutcome :=
  databaseNow <-- call DatabaseClock;
  match admissionStatements keyFirst databaseNow input with
  | None => throw (start_broken "runtime VM access key material is incomplete")
  | Some stmts =>
      results <-- transaction (run_batch stmts);
      match results with
      | Err (of_store ck_runtime_executions_generation_positive) => ok cas_lost
      | Err uq_request_idempotency => ok duplicate_key
      | Err c =>
          if isActiveKeyUniqueViolation c then
            stored <-! loadRunByIdempotencyKey (nr_userId (ac_run input))
                         (nullish (rq_requestIdempotencyKey (nr_request (ac_run input))) "");
            match stored with Some _ => ok duplicate_key | None => ok (commit_error activeRunConflictError) end
          else ok (commit_error (start_rejected c))
      | Ok counts =>
          if nth 1 counts 0 =? 0 then e <-! admissionRefusal input; ok (commit_error e) else ok committed
      end
  end.

(** * Cancelling *)

Definition ADMISSION_CAS_ATTEMPTS : nat := 3.

Definition teardownRow (now : Z) (r : RunRow) : RunRow :=
  mkRunRow (sr_runId r) (sr_userId r) (sr_organizationId r) (sr_runtimeExecutionId r) (sr_hostId r)
    run_teardown_requested (RUN_PHASE_ORDER run_teardown_requested) (sr_activeKey r) (sr_stateJson r)
    (sr_archiveEnteredAt r) (Some (nullish (sr_deleteRequestedAt r) now)) (sr_solvedAt r) (sr_completedAt r)
    (sr_failedAt r) (sr_createdAt r) now (sr_content r).
Definition cancelRunStatement (runId userId hostId : string) (now : Z) : AdmStmt := fun s =>
  let p := updateRuns (fun r => (sr_runId r =s runId) && (sr_userId r =s userId) && (sr_hostId r =s hostId)
                         && bool_decide (sr_state r = run_provisioning)) (teardownRow now) (am_db s) in
  Ok (set_am_db s (fst p), snd p).
Definition cancelDesiredStateStatement (runId hostId : string) (expectedVersion : Z) (next : HostDesiredState) (now : Z)
  : AdmStmt := fun s =>
  let hit r := (dr_hostId r =s hostId) && (dr_version r =? expectedVersion) in
  if existsb (fun r => (sr_runId r =s runId) && (sr_hostId r =s hostId)) (db_runs (am_db s))
  then Ok (set_am_cpu s (set_cd_desired (am_cpu s) (update_where hit
             (fun r => mkDesiredRow (dr_hostId r) (ds_version next) next (dr_createdAt r) now) (cd_desired (am_cpu s)))),
           count_where hit (cd_desired (am_cpu s)))
  else Ok (s, 0).
Definition cancelSentinelStatement (runId hostId : string) (nextVersion : Z) : AdmStmt := fun s =>
  match runWhere (fun r => (sr_runId r =s runId)
          && negb (existsb (fun d => (dr_hostId d =s hostId) && (dr_version d =? nextVersion)) (cd_desired (am_cpu s)))) s with
  | Some r => on_store (insertExecution (mkExecution ("__admission_cancel_cas__:" +:+ runId) (sr_userId r) (sr_organizationId r)
      (Some (sr_hostId r)) None "scenario" (sr_runId r) 0 None None ex_queued None None None (sr_createdAt r) (sr_updatedAt r))) s
  | None => Ok (s, 0)
  end.

Fixpoint cancelFrom (runId userId hostId : string) (vms : list RunVmStateDocument) (now : Z) (left : nat) : Start () :=
  match left with
  | O => reject 409 "scenario_host_capacity_contended"
  | S left' =>
      current <-! loadOrCreateDesired hostId now;
      match mutateDesiredState current
              (fun draft => fold_left (fun d vm => fst (markDesiredVmAbsent d runId (vm_runtimeVmName vm))) vms draft) now with
      | Err e => throw (start_desired e)
      | Ok changed =>
          builtAt <-- call Clock;
          results <-- transaction (run_batch match changed with
            | None => [cancelRunStatement runId userId hostId now]
            | Some next => [cancelDesiredStateStatement runId hostId (ds_version current) next builtAt;
                            cancelRunStatement runId userId hostId now;
                            cancelSentinelStatement runId hostId (ds_version next)]
            end);
          match results with
          | Ok _ => deliveryHint hostId
          | Err (of_store ck_runtime_executions_generation_positive) => cancelFrom runId userId hostId vms now left'
          | Err c => throw (start_rejected c)
          end
      end
  end.
Definition cancelAdmittedRun (runId userId hostId : string) (vms : RunStateDocument) : Start () :=
  now <-- call Clock;
  cancelFrom runId userId hostId (List.filter (fun vm => negb (bool_decide (vm_phase vm = vm_completed))) (run_vms vms))
    now ADMISSION_CAS_ATTEMPTS.

(** * Admission *)

(** What one start prepares before it looks for a host. *)
Record PreparedRun : Type := mkPrepared {
  pr_run : NewRun;
  pr_state : RunStateDocument;
  pr_sshKeyRows : list SshKeyRow;
  pr_runtimeVms : list (string * RuntimeVmSpec);
  pr_accessKeys : list (string * string);
  pr_desiredVms : list DesiredVm;
  pr_guestTools : DesiredGuestTools;
  pr_cpuMillis : Z;
  pr_resources : RuntimeResourceDemand;
  pr_leaseExpiresAt : option Z;
  pr_requiredImages : list RequiredScenarioImage;
  pr_sourceAnchor : option (list ImageRef);
}.

Definition draftOf (vmId : string) (drafts : list KeyDraft) : option KeyDraft :=
  last (List.filter (fun d => kd_vmId d =s vmId) drafts).
Definition newDraft (runId : string) (p : string * RunVmStateDocument) : Start KeyDraft :=
  keys <-- call (GenerateKeyPair runId (vm_runtimeVmName (snd p)));
  ok (mkDraft (fst p) (vm_id (snd p)) (vm_runtimeVmName (snd p)) (fst keys) (snd keys)).
Definition sealedRow (runId : string) (createdAt : Z) (draft : KeyDraft) : Start SshKeyRow :=
  sealed <-! ask (SealRunKey runId draft);
  ok (mkSshKey (kd_id draft) runId (kd_vmId draft) (kd_runtimeVmName draft) (kd_publicKeyOpenssh draft)
        (fst sealed) (snd sealed) createdAt).
Definition sealedAccessKey (runId : string) (drafts : list KeyDraft) (vm : RuntimeVmSpec) : Start (string * string) :=
  match draftOf (spec_vmId vm) drafts with
  | Some draft => ask (SealAccessKey runId draft)
  | None => throw (start_broken "scenario VM SSH key draft is missing")
  end.

Definition presentedAs (scenarioId : string) (p : RunPresentation) : RunPresentation :=
  mkPresentation scenarioId (pt_courseTitle p) (pt_lectureTitle p) (pt_lectureSummary p) (pt_lectureBodyMarkdown p)
    (pt_lectureOrdinal p) (pt_lectureCount p) (pt_title p) (pt_tagline p) (pt_briefingMarkdown p) (pt_objectivesJson p)
    (pt_difficulty p) (pt_estimatedMinutes p) (pt_tagsJson p).
Definition newRun (input : BeginScenarioRunInput) (source : ScenarioStartSource) (course : CourseLecture) (key : string)
    (scope : ScenarioStartRequestScope) (runId : string) (state : RunStateDocument) (createdAt : Z) : NewRun :=
  mkNewRun
    (mkRunRow runId (bs_userId input) (bs_organizationId input) (Some runId) "" (run_phase state)
       (RUN_PHASE_ORDER (run_phase state)) (Some (activeKeyFor (bs_userId input))) (Some state) None None None None None
       createdAt createdAt
       (mkContent (rc_hintsJson (so_content source)) [] (rc_solutionMarkdown (so_content source)) None false))
    (mkRunCourse runId (so_scenarioId source) (cl_courseScopeKey course) (cl_courseId course) (cl_lectureId course)
       (rs_allowSequenceBypass scope) (rs_allowDrainedAdminProof scope))
    (mkRunRequest runId (bs_userId input) (Some key) (Some scope) (presentedAs (so_scenarioId source) (cl_presentation course)))
    (Z.of_nat (length (run_vms state))).
Definition on_host (r : NewRun) (hostId : string) : NewRun :=
  let x := nr_row r in
  mkNewRun (mkRunRow (sr_runId x) (sr_userId x) (sr_organizationId x) (sr_runtimeExecutionId x) hostId (sr_state x)
      (sr_stateRank x) (sr_activeKey x) (sr_stateJson x) (sr_archiveEnteredAt x) (sr_deleteRequestedAt x) (sr_solvedAt x)
      (sr_completedAt x) (sr_failedAt x) (sr_createdAt x) (sr_updatedAt x) (sr_content x))
    (nr_course r) (nr_request r) (nr_vmCount r).

Definition requiredImagesOf (specs : list ScenarioLaunchSpec) : result StartError (list RequiredScenarioImage) :=
  match requiredImagesForScenarioLaunch (map (fun s => (ls_imageKey s, ls_imageSha256 s)) specs) with
  | Ok images => Ok images
  | Err e => Err (start_refused e)
  end.

(** [ids] are the ids the request creates, in the order it creates them: the run's,
    then each VM's, each key draft's and each runtime VM's. *)
Definition prepareRun (ids : nat -> string) (input : BeginScenarioRunInput) (source : ScenarioStartSource)
    (course : CourseLecture) (key : string) (scope : ScenarioStartRequestScope) : Start PreparedRun :=
  createdAt <-- call Clock;
  requiredImages <-! lift (requiredImagesOf (so_launchSpecs source));
  anchor <-! lift match so_candidateProof source with
                  | Some _ => Ok None
                  | None => refs <-? liveSourceFingerprint (so_launchSpecs source); Ok (Some refs)
                  end;
  let runId := ids 0%nat in
  let count := length (so_launchSpecs source) in
  let cpuMillisByVm := map (fun s => res_cpuMillis (ls_resources s)) (so_launchSpecs source) in
  let vms := runVmStatesOf runId (map ids (seq 1 count)) (so_launchSpecs source) in
  drafts <-! each (newDraft runId) (zip (map ids (seq (1 + count) count)) vms);
  let state := provisionedStateOf source vms in
  specs <-! lift (runtimeVmSpecsFromScenarioState (run_vms state));
  resources <-! lift (scenarioRuntimeReservationResources specs cpuMillisByVm);
  guestTools <-! ask LoadGuestToolsPin;
  sshKeyRows <-! each (sealedRow runId createdAt) drafts;
  accessKeys <-! each (sealedAccessKey runId drafts) specs;
  if Nat.eqb (length sshKeyRows) 0 then throw (start_broken "scenario run has no SSH key rows") else
  desiredVms <-! lift (desiredVmsFrom runId (bs_userId input) guestTools createdAt drafts (run_vms state));
  ok (mkPrepared (newRun input source course key scope runId state createdAt) state sshKeyRows
        (zip (map ids (seq (1 + 2 * count) count)) specs) accessKeys desiredVms guestTools (dm_cpuMillis resources) resources
        (leaseExpiry createdAt (run_vms state)) requiredImages anchor).

Definition commitInput (p : PreparedRun) (source : ScenarioStartSource) (allocated : AdmissionHostAllocation)
    (allowDrainedAdminProof : bool) (now : Z) : AdmissionCommitInput :=
  mkCommit (on_host (pr_run p) (al_hostId allocated)) (pr_sshKeyRows p) (pr_runtimeVms p) (pr_accessKeys p)
    (pr_desiredVms p) allocated (pr_cpuMillis p) (pr_resources p) (pr_leaseExpiresAt p) allowDrainedAdminProof
    (so_candidateProof source) (pr_sourceAnchor p) now.

Section attempts.
Variable input : BeginScenarioRunInput.
Variable source : ScenarioStartSource.
Variable key : string.
Variable scope : ScenarioStartRequestScope.
Variable p : PreparedRun.
Variable requestedHostId : option string.

#[local] Abbreviation drained := (bs_allowDrainedAdminProof input).
#[local] Abbreviation runId := (nr_runId (pr_run p)).

(** The account is checked once more; a run it no longer may have is cancelled. *)
Definition acceptRun (hostId : string) : Start BeginScenarioRunResult :=
  active <-- assertAccountStillActive (bs_userId input) runId hostId;
  match active with
  | Ok _ =>
      _ <-! deliveryHint hostId;
      ok (mkAccepted runId (so_scenarioId source) (sr_createdAt (nr_row (pr_run p))) false (Some hostId))
  | Err e => _ <-! cancelAdmittedRun runId (bs_userId input) hostId (pr_state p); throw e
  end.

Definition replayRaced (orElse : StartError) : Start BeginScenarioRunResult :=
  raced <-! loadRunByIdempotencyKey (bs_userId input) key;
  match raced with Some stored => replayOf scope stored | None => throw orElse end.

Fixpoint admissionAttempts (left : nat) : Start BeginScenarioRunResult :=
  match left with
  | O => reject 409 "scenario_host_capacity_contended"
  | S left' =>
      allocatedAt <-- call Clock;
      allocated <-! allocateAdmissionHost (bs_userId input) (bs_organizationId input) requestedHostId (pr_requiredImages p)
                      (pr_resources p) (pr_cpuMillis p) allocatedAt (pr_desiredVms p) (pr_guestTools p);
      _ <-! assertAgentKvmRunsOpen drained;
      now <-- call Clock;
      outcome <-! commitAdmissionBatch (commitInput p source allocated drained now);
      match outcome with
      | committed => acceptRun (al_hostId allocated)
      | duplicate_key => replayRaced (start_refused (refusal 409 "idempotency_key_conflict"))
      | cas_lost =>
          _ <-! assertAdmissionRefusalPriority (bs_userId input) drained;
          _ <-! sourceAnchorRefusal (so_candidateProof source) (pr_sourceAnchor p) (bs_organizationId input) (so_scenarioId source);
          _ <-! assertCurrentContentAccess (pr_run p) drained;
          admissionAttempts left'
      | commit_error e => throw e
      end
  end.
End attempts.

Definition admitNewRun (ids : nat -> string) (input : BeginScenarioRunInput) (source : ScenarioStartSource)
    (course : CourseLecture) (key : string) (scope : ScenarioStartRequestScope) : Start BeginScenarioRunResult :=
  p <-! prepareRun ids input source course key scope;
  prepared <-- match so_candidateProof source with
               | Some _ => ok None
               | None => ask (PreparePersonalImages (bs_userId input) key (pr_requiredImages p) (pr_resources p))
               end;
  match prepared with
  | Err e =>
      if bool_decide (start_code e = Some "scenario_preparation_changed") then replayRaced input key scope e
      else throw e
  | Ok preparedHostId =>
      let requestedHostId := if truthy_opt preparedHostId then preparedHostId
                             else if truthy_opt (bs_hostId input) then bs_hostId input else None in
      admissionAttempts input source key scope p requestedHostId ADMISSION_CAS_ATTEMPTS
  end.

Definition admitScenarioStart (ids : nat -> string) (input : BeginScenarioRunInput) (key : string)
    (candidate : option CandidateRequest) : Start BeginScenarioRunResult :=
  let scope := scenarioStartRequestScope input in
  found <-! ask (ReadSource (bs_scenarioId input) (bs_organizationId input) candidate);
  active <-- query (hasActiveRun (bs_userId input));
  match found with
  | None => match candidate with
            | Some _ => reject 409 "scenario_candidate_not_ready"
            | None => reject 404 "scenario_not_found"
            end
  | Some source =>
      course <-! ask (CheckCourse (bs_userId input) (bs_organizationId input) (so_scenarioId source) (bs_allowSequenceBypass input));
      _ <-! assertAccountActive (bs_userId input);
      replayed <-! loadRunByIdempotencyKey (bs_userId input) key;
      match replayed with
      | Some stored => replayOf scope stored
      | None => if active : bool then throw activeRunConflictError else admitNewRun ids input source course key scope
      end
  end.

Definition beginScenarioRun (ids : nat -> string) (input : BeginScenarioRunInput) : Start BeginScenarioRunResult :=
  _ <-! assertAgentKvmRunsOpen (bs_allowDrainedAdminProof input);
  key <-! lift (requireIdempotencyKey (bs_idempotencyKey input));
  candidate <-! lift (candidateRequestFromInput input);
  admitted <-- call (OpenRegistryGuard (bs_userId input));
  if negb admitted then reject 503 "registry_busy" else
  result <-- admitScenarioStart ids input key candidate;
  _ <-- call (CompleteRegistryGuard (match result with Ok _ => true | Err _ => false end));
  Done result.
End requests.
