(* ===== verification/AdmissionSample.v ===== *)
(** A platform with one scenario of one VM, one host that is ready for it and one
    learner: the concrete inputs of the theorems about starting runs. *)
From stdpp Require Import base list strings pretty.
From Stdlib Require Import ZArith Lia Ascii.
From S2P Require Import Prelude Json Text RunState Store BuildStore RuntimeExecutions Bridge DesiredState Capacity CpuReservations Access Placement RunNames Requests AdmissionStore AdmissionRequests.

Open Scope string_scope.
Open Scope list_scope.
Open Scope Z_scope.

Module AdmissionSample.
Import PlacementSample.
Definition tools : DesiredGuestTools := mkGuestTools sha (64 * 1024 * 1024) sha 2.
Definition ref : ImageRef :=
  mkImageRef "web" (Some "intro") (Some "web") (Some "x86_64") (Some sha) None (Some sha) (Some sha).

Definition store : AdmDb :=
  mkAdm
    (mkCpuDb db [] [] [] (fun _ => 0)) tables settings reports [] [] []
    [mkScenarioVm "intro" ref] [] [] [].

Definition resources : VmResourcesSpec := mkResourcesSpec 4000 512 1024.
Definition spec : ScenarioLaunchSpec :=
  mkLaunch "vm-web" "web" "intro-web" "intro/web" (Some imageKey) (Some sha) (Some ref) "web" resources 3600
    (mkSummary "web" "web" [] []).
Definition source : ScenarioStartSource := mkSource "intro" (mkContent [] [] "" None false) [spec] None None.
Definition course : CourseLecture :=
  mkCourseLecture (Some "public") (Some "course") (Some "lecture")
    (mkPresentation "" (Some "Course") (Some "Lecture") None None (Some 1) (Some 1) "Intro" "" "" "[]" "easy" 10 []).
Definition input (user : string) : BeginScenarioRunInput :=
  mkStart "intro" user "key-0001" None None None None false false.

(** The other components answer, and the clocks stand at 1000. *)
Definition answer (B : Type) (c : StartCall B) : B :=
  match c with
  | Clock | DatabaseClock => 1000
  | OpenRegistryGuard _ => true
  | CompleteRegistryGuard _ | WakeHost _ => ()
  | ReadSource _ _ _ => Ok (Some source)
  | CheckCourse _ _ _ _ => Ok course
  | GenerateKeyPair _ _ => ("ssh-ed25519 AAAA", "private")
  | SealRunKey _ _ => Ok ("sealed", "iv")
  | SealAccessKey _ _ => Ok ("sealed", "iv")
  | LoadGuestToolsPin => Ok tools
  | PreparePersonalImages _ _ _ _ => Ok None
  end.
(** The ids of request [r]. *)
Definition ids (r j : nat) : string := pretty (Z.of_nat r) +:+ "-" +:+ pretty (Z.of_nat j).
Lemma ids_distinct a b j j' : ids a j = ids b j' -> a = b.
Proof.
  intros E. apply (f_equal (str_split "-"%char)) in E. unfold ids in E.
  assert (Hs : forall x y, str_split "-"%char (pretty (Z.of_nat x) +:+ "-" +:+ y) = pretty (Z.of_nat x) :: str_split "-"%char y).
  { intros x y. apply (str_split_join "-"%char). eapply digits_unit_free; [|by apply digits_value_pretty; lia]. done. }
  rewrite !Hs in E. injection E as E _. apply pretty_Z_inj in E; lia.
Qed.
Definition start (r : nat) (user : string) : Start BeginScenarioRunResult :=
  beginScenarioRun false true (ids r) (input user).
End AdmissionSample.
