(* ===== verification/AdmissionSafety.v ===== *)
(** Starts side by side never overcommit a host: what a start relies on of everyone
    else, what each of its accesses guarantees, and that the version of a host's
    document fences the capacity that was read under it. *)
From stdpp Require Import base list strings relations.
From Stdlib Require Import ZArith Lia.
From S2P Require Import Prelude Json Text RunState Store BuildStore RuntimeExecutions Bridge DesiredState Capacity CpuReservations Access Placement RunNames Requests Interference AdmissionStore AdmissionRequests AdmissionSample.

Open Scope string_scope.
Open Scope list_scope.
Open Scope Z_scope.

(** * The ledger of a host *)

(** The CPU reserved on a host. *)
Definition reserved (h : string) (s : AdmDb) : Z := exact_sum (map cr_cpuMillis (reservationsOf h (am_cpu s))).

(** A row, a document or a reservation that names a run. *)
Definition mentions (id : string) (s : AdmDb) : Prop :=
  In id (map sr_runId (db_runs (am_db s))) \/ In id (map cr_runId (cd_cpu (am_cpu s))) \/
  exists row vm, In row (cd_desired (am_cpu s)) /\ In vm (ds_vms (dr_docJson row)) /\ dv_run_id vm = id.

(** One row per run, reservation, document and report; reservations are positive. *)
Record adm_ok (s : AdmDb) : Prop := mk_adm_ok {
  ok_runs : NoDup (map sr_runId (db_runs (am_db s)));
  ok_cpu : NoDup (map cr_runId (cd_cpu (am_cpu s)));
  ok_positive : Forall (fun r => 0 < cr_cpuMillis r) (cd_cpu (am_cpu s));
  ok_desired : keyed (hostDocuments s);
  ok_reports : NoDup (map rp_hostId (am_reports s));
}.

(** Documents are never dropped and their versions never fall; while a version
    stands, the document stands and no CPU is reserved on its host. *)
Definition fence (s s' : AdmDb) : Prop :=
  forall h r, findDesired (hostDocuments s) h = Some r ->
  exists r', findDesired (hostDocuments s') h = Some r' /\ dr_version r <= dr_version r' /\
    (dr_version r' = dr_version r -> dr_docJson r' = dr_docJson r /\ reserved h s' <= reserved h s).

(** A host's reserved CPU grows only up to what its current report can schedule. *)
Definition fits `{ReportJson} (s s' : AdmDb) : Prop :=
  forall h, reserved h s' <= reserved h s \/
  exists report c, reportOf (am_reports s) h = Some report /\
    strictCpuCapacity (Some (JSON_parse (rp_reportText report))) = Some c /\
    reserved h s' <= sc_schedulableCpuMillis c.

#[export] Instance fence_preorder : PreOrder fence.
Proof.
  split.
  - intros s h r Hr. exists r. split; [done|]. split; [lia|]. split; [done|lia].
  - intros a b c H1 H2 h r Hr. destruct (H1 h r Hr) as (r1 & Hr1 & Hv1 & Hd1). destruct (H2 h r1 Hr1) as (r2 & Hr2 & Hv2 & Hd2).
    exists r2. split; [done|]. split; [lia|]. intros E. destruct Hd1 as [E1 ?], Hd2 as [E2 ?]; [lia..|].
    split; [congruence|lia].
Qed.

Section rely.
Context `{ReportJson} `{Collation} `{LoadOrder}.
(** The ids of each request; no id is created twice. *)
Variable ids : nat -> nat -> string.

Definition relies (r : nat) (s s' : AdmDb) : Prop :=
  fence s s' /\ forall j, mentions (ids r j) s' -> mentions (ids r j) s.
Definition guarantees (r : nat) (s s' : AdmDb) : Prop :=
  fence s s' /\ fits s s' /\ forall id, mentions id s' -> mentions id s \/ exists j, id = ids r j.
Definition unused (r : nat) (s : AdmDb) : Prop := forall j, ~ mentions (ids r j) s.

(** Everything else of the system: it keeps the integrity of the tables and bumps
    the version of a document it writes, neither reserves CPU nor makes up runs. *)
Record elsewhere (s s' : AdmDb) : Prop := mk_elsewhere {
  el_ok : adm_ok s -> adm_ok s';
  el_fence : fence s s';
  el_reserved : forall h, reserved h s' <= reserved h s;
  el_mentions : forall id, mentions id s' -> mentions id s;
}.

Lemma relies_refl r s : relies r s s.
Proof. split; [reflexivity|auto]. Qed.
Lemma relies_trans r a b c : relies r a b -> relies r b c -> relies r a c.
Proof. intros [? ?] [? ?]. split; [by etrans|auto]. Qed.
Lemma guarantees_refl r s : guarantees r s s.
Proof. split; [reflexivity|]. split; [intros h; left; lia|auto]. Qed.
Lemma guarantees_relied r r' s s' :
  (forall a b j j', ids a j = ids b j' -> a = b) -> r <> r' -> guarantees r s s' -> relies r' s s'.
Proof.
  intros Hids Hne (Hf & _ & Hm). split; [done|]. intros j Hj. destruct (Hm _ Hj) as [?|[k Hk]]; [done|].
  exfalso. apply Hne. by eapply Hids.
Qed.
End rely.

(** * Accesses that leave the ledger alone *)

(** Runs, reservations, documents and reports are the same. *)
Record framed (s s' : AdmDb) : Prop := mk_framed {
  fr_runs : db_runs (am_db s') = db_runs (am_db s);
  fr_cpu : cd_cpu (am_cpu s') = cd_cpu (am_cpu s);
  fr_desired : cd_desired (am_cpu s') = cd_desired (am_cpu s);
  fr_reports : am_reports s' = am_reports s;
}.
#[export] Instance framed_preorder : PreOrder framed.
Proof. split; [by split|]. intros a b c [? ? ? ?] [? ? ? ?]. split; congruence. Qed.

Lemma framed_mentions s s' id : framed s s' -> mentions id s' <-> mentions id s.
Proof. intros [Hr Hc Hd _]. unfold mentions. by rewrite Hr, Hc, Hd. Qed.
Lemma framed_reserved s s' h : framed s s' -> reserved h s' = reserved h s.
Proof. intros [_ Hc _ _]. unfold reserved, reservationsOf. by rewrite Hc. Qed.
Lemma framed_find s s' h : framed s s' -> findDesired (hostDocuments s') h = findDesired (hostDocuments s) h.
Proof. intros [_ _ Hd _]. unfold findDesired. cbn. by rewrite Hd. Qed.
Lemma framed_ok s s' : framed s s' -> adm_ok s -> adm_ok s'.
Proof. intros [Hr Hc Hd Hp] [? ? ? Hk ?]. split; rewrite ?Hr, ?Hc, ?Hp; try done. unfold keyed in *. cbn in *. by rewrite Hd. Qed.

(** A statement of a batch that leaves the ledger alone. *)
Definition frames (f : AdmStmt) : Prop := forall s s' n, f s = Ok (s', n) -> framed s s'.

Lemma on_store_frames f : (forall d d', f d = Ok d' -> db_runs d' = db_runs d) -> frames (on_store f).
Proof.
  intros Hf s s' n. unfold on_store. destruct (f (am_db s)) as [d|] eqn:E; [|done]. intros [= <- <-].
  split; cbn; [by apply Hf|done..].
Qed.
Lemma insertExecution_runs row d d' : insertExecution row d = Ok d' -> db_runs d' = db_runs d.
Proof. unfold insertExecution. destruct (_ <=? _); [done|]. destruct (first_conflict _ _ _); [done|]. by intros [= <-]. Qed.
Lemma insertRuntimeVm_runs row d d' : insertRuntimeVm row d = Ok d' -> db_runs d' = db_runs d.
Proof. unfold insertRuntimeVm. destruct (existsb _ _); [done|]. by intros [= <-]. Qed.
Lemma insertSlot_runs row d d' : insertSlot row d = Ok d' -> db_runs d' = db_runs d.
Proof. unfold insertSlot. destruct (first_conflict _ _ _); [done|]. by intros [= <-]. Qed.

Lemma abatch_app a b s s' ns :
  abatch (a ++ b) s = Ok (s', ns) ->
  exists s1 n1 n2, abatch a s = Ok (s1, n1) /\ abatch b s1 = Ok (s', n2) /\ ns = n1 ++ n2.
Proof.
  revert s ns. induction a as [|f a IH]; intros s ns; cbn [app abatch]; [intros Hb; by exists s, [], ns|].
  destruct (f s) as [[s1 n]|] eqn:Ef; [|done]. cbn [result_bind fst snd].
  destruct (abatch (a ++ b) s1) as [[s2 ns2]|] eqn:Eb; [|done]. cbn. intros [= <- <-].
  destruct (IH _ _ Eb) as (s3 & n1 & n2 & Ha & Hb & ->). exists s3, (n :: n1), n2. rewrite Ha. by split.
Qed.
Lemma abatch_cons f rest s s' ns :
  abatch (f :: rest) s = Ok (s', ns) ->
  exists s1 n ns', f s = Ok (s1, n) /\ abatch rest s1 = Ok (s', ns') /\ ns = n :: ns'.
Proof.
  cbn. destruct (f s) as [[s1 n]|] eqn:Ef; [|done]. cbn. destruct (abatch rest s1) as [[s2 ns2]|] eqn:Eb; [|done].
  cbn. intros [= <- <-]. exists s1, n, ns2. by rewrite Eb.
Qed.
Lemma abatch_frames stmts s s' ns : Forall frames stmts -> abatch stmts s = Ok (s', ns) -> framed s s'.
Proof.
  intros Hf. revert s ns. induction Hf as [|f stmts Hf _ IH]; intros s ns; [intros [= <- <-]; reflexivity|].
  intros (s1 & n & ns' & H1 & H2 & _)%abatch_cons. etrans; [by eapply Hf|eauto].
Qed.

Section frames.
Context `{ReportJson}.
Variable keyFirst : bool.
Variable databaseNow : Z.
Variable input : AdmissionCommitInput.

Lemma execution_frames : frames (runtimeExecutionStatement input).
Proof.
  intros s s' n. unfold runtimeExecutionStatement. destruct (existsb _ _); [|intros [= <- <-]; reflexivity].
  apply on_store_frames. apply insertExecution_runs.
Qed.
Lemma refused_frames : frames (runRefusedSentinelStatement input).
Proof.
  intros s s' n. unfold runRefusedSentinelStatement. destruct (_ && _); [|intros [= <- <-]; reflexivity].
  apply on_store_frames. apply insertExecution_runs.
Qed.
Lemma sshKey_frames key : frames (sshKeyStatement input key).
Proof.
  intros s s' n. unfold sshKeyStatement. destruct (runWhere _ s); [|intros [= <- <-]; reflexivity].
  destruct (existsb _ _); [done|]. by intros [= <- <-].
Qed.
Lemma runtimeVms_frames vms keys stmts : runtimeVmStatements input vms keys = Some stmts -> Forall frames stmts.
Proof.
  revert keys stmts. induction vms as [|vm vms IH]; intros [|k keys] stmts; cbn [runtimeVmStatements]; try done;
    [intros [= <-]; constructor..|].
  destruct (truthy _); [|done]. destruct (runtimeVmStatements input vms keys) as [l|] eqn:E; [|done]. cbn. intros [= <-].
  constructor; [|constructor; [|eauto]].
  - intros s s' n. unfold runtimeVmStatement. destruct (runExecution _ s); [|intros [= <- <-]; reflexivity].
    apply on_store_frames. apply insertRuntimeVm_runs.
  - intros s s' n. unfold accessKeyStatement. destruct (runExecution _ s); [|intros [= <- <-]; reflexivity].
    destruct (existsb _ _); [done|]. by intros [= <- <-].
Qed.
Lemma reservation_frames : frames (resourceReservationStatement input).
Proof.
  intros s s' n. unfold resourceReservationStatement, admissionResourceReservationStatement.
  destruct (List.find _ _) as [r|]; [|by intros [= <- <-]]. destruct (sr_runtimeExecutionId r) as [e|]; [|done].
  destruct (_ || _); [done|]. unfold insertReservation. destruct (existsb _ _); [done|]. by intros [= <- <-].
Qed.
Lemma slot_frames : frames (activeSlotStatement input).
Proof.
  intros s s' n. unfold activeSlotStatement. destruct (runWhere _ s); [|intros [= <- <-]; reflexivity].
  apply on_store_frames. apply insertSlot_runs.
Qed.
Lemma casSentinel_frames : frames (casSentinelStatement input).
Proof.
  intros s s' n. unfold casSentinelStatement. destruct (runWhere _ s); [|intros [= <- <-]; reflexivity].
  apply on_store_frames. apply insertExecution_runs.
Qed.
End frames.

(** * The batch *)

(** Only the runs grow, by one row. *)
Record adds_run (row : RunRow) (s s' : AdmDb) : Prop := mk_adds_run {
  ar_runs : db_runs (am_db s') = db_runs (am_db s) ++ [row];
  ar_cpu : cd_cpu (am_cpu s') = cd_cpu (am_cpu s);
  ar_desired : cd_desired (am_cpu s') = cd_desired (am_cpu s);
  ar_reports : am_reports s' = am_reports s;
}.
Lemma framed_adds row a b c : framed a b -> adds_run row b c -> adds_run row a c.
Proof. intros [? ? ? ?] [? ? ? ?]. split; congruence. Qed.
Lemma adds_framed row a b c : adds_run row a b -> framed b c -> adds_run row a c.
Proof. intros [? ? ? ?] [? ? ? ?]. split; congruence. Qed.

Lemma find_none_all {A} (p : A -> bool) l : (forall x, In x l -> p x = false) -> List.find p l = None.
Proof. induction l as [|x l IH]; cbn; [done|]. intros Hp. rewrite (Hp x) by auto. auto. Qed.
Lemma find_same {A} (p q : A -> bool) l : (forall x, p x = q x) -> List.find p l = List.find q l.
Proof. intros Hp. induction l as [|x l IH]; cbn; [done|]. by rewrite Hp, IH. Qed.
Lemma existsb_none {A} (p : A -> bool) l x : existsb p l = false -> In x l -> p x = false.
Proof. intros He Hin. destruct (p x) eqn:E; [|done]. rewrite <- He. symmetry. apply existsb_exists. eauto. Qed.

(** What was planned for a host still stands under the version it was planned at:
    the next document names no run but this one and those the document named, and
    the run's CPU fits. *)
Definition planned_at `{ReportJson} (runId hostId : string) (cpuMillis : Z) (allocation : AdmissionHostAllocation)
    (s : AdmDb) : Prop :=
  forall row, findDesired (hostDocuments s) hostId = Some row -> dr_version row = al_expectedVersion allocation ->
  (forall vm, In vm (ds_vms (al_nextDoc allocation)) ->
     dv_run_id vm = runId \/ In (dv_run_id vm) (map dv_run_id (ds_vms (dr_docJson row)))) /\
  (0 < cpuMillis ->
   exists c, strictCpuCapacity (Some (JSON_parse (ar_actualReportText (al_readiness allocation)))) = Some c /\
     reserved hostId s + cpuMillis <= sc_schedulableCpuMillis c).

Section batch.
Context `{ReportJson}.
Variable keyFirst : bool.
Variable databaseNow : Z.
Variable input : AdmissionCommitInput.

#[local] Abbreviation runId := (nr_runId (ac_run input)).
#[local] Abbreviation hostId := (nr_hostId (ac_run input)).
#[local] Abbreviation allocation := (ac_desired input).

Lemma insertRun_cases s s' n :
  insertRunStatement keyFirst databaseNow input s = Ok (s', n) ->
  (s' = s /\ n = 0) \/
  (n = 1 /\ adds_run (nr_row (ac_run input)) s s' /\ NoDup (map sr_runId (db_runs (am_db s'))) /\
   exists h, In h (db_hosts (am_db s)) /\ admittingHost databaseNow input s h = true).
Proof.
  unfold insertRunStatement. destruct (existsb _ _) eqn:Eh; [|intros [= <- <-]; by left].
  unfold insertScenarioRun. destruct (existsb _ _ && _); [done|]. destruct (negb _); [done|].
  destruct (bool_decide (NoDup (map sr_runId _) /\ _)) eqn:Ed; [|done]. cbn [negb]. intros [= <- <-]. right.
  apply bool_decide_eq_true in Ed as [Ed _]. split; [done|]. split; [by split|]. split; [done|].
  by apply existsb_exists in Eh.
Qed.

Lemma admitting_report s h :
  NoDup (map rp_hostId (am_reports s)) -> admittingHost databaseNow input s h = true ->
  exists report, reportOf (am_reports s) hostId = Some report /\
    rp_reportText report = ar_actualReportText (al_readiness allocation).
Proof.
  unfold admittingHost, admissionHostReadinessCondition. cbv zeta. intros Hk Hh. reflect_bools.
  match goal with Hx : existsb _ (am_reports s) = true |- _ => apply existsb_exists in Hx as (report & Hin & Hx) end.
  repeat match goal with Hx : (_ && _)%bool = true |- _ => apply andb_prop in Hx as [? ?] end.
  repeat match goal with Hx : (_ =s _) = true |- _ => apply String.eqb_eq in Hx end.
  exists report. split; [|congruence]. unfold reportOf.
  assert (E : rp_hostId report = hostId) by congruence. rewrite <- E.
  assert (Hf : List.find (fun x => (rp_hostId x =s rp_hostId report) && true) (am_reports s) = Some report)
    by by rewrite (find_keyed rp_hostId (fun _ => true)).
  rewrite <- Hf. apply find_same. intros x. by rewrite andb_true_r.
Qed.

(** Only the documents change, those the statement hits. *)
Lemma cas_step s s' n :
  existsb (fun r => (sr_runId r =s runId) && (sr_hostId r =s hostId)) (db_runs (am_db s)) = true ->
  desiredStateCasStatement input s = Ok (s', n) ->
  db_runs (am_db s') = db_runs (am_db s) /\ cd_cpu (am_cpu s') = cd_cpu (am_cpu s) /\ am_reports s' = am_reports s /\
  cd_desired (am_cpu s') = update_where (desiredHit input) (writtenRow input) (cd_desired (am_cpu s)).
Proof. unfold desiredStateCasStatement. intros ->. by intros [= <- <-]. Qed.

(** The sentinel lets a batch go on only when the document of the run's host names
    the run. *)
Lemma sentinel_passed s s' n :
  casSentinelStatement input s = Ok (s', n) ->
  s' = s /\ forall r, In r (db_runs (am_db s)) -> sr_runId r = runId ->
    exists d, In d (cd_desired (am_cpu s)) /\ dr_hostId d = sr_hostId r /\ namesRun runId d = true.
Proof.
  unfold casSentinelStatement, runWhere. destruct (List.find _ _) as [x|] eqn:Ef; [done|].
  intros [= <- <-]. split; [done|]. intros r Hr Er. pose proof (List.find_none _ _ Ef r Hr) as Hn. cbn in Hn.
  rewrite Er, String.eqb_refl in Hn. cbn in Hn. apply negb_false_iff, existsb_exists in Hn as (d & Hd & Hn).
  apply andb_prop in Hn as [Hh%String.eqb_eq Hn]. eauto.
Qed.

Lemma quota_step s s' n :
  cpuQuotaStatement input s = Ok (s', n) ->
  db_runs (am_db s') = db_runs (am_db s) /\ cd_desired (am_cpu s') = cd_desired (am_cpu s) /\ am_reports s' = am_reports s /\
  (cd_cpu (am_cpu s') = cd_cpu (am_cpu s) \/
   (exists r, In r (db_runs (am_db s)) /\ sr_runId r = runId) /\
   0 < ac_cpuMillis input /\ ~ In runId (map cr_runId (cd_cpu (am_cpu s))) /\
   cd_cpu (am_cpu s') = cd_cpu (am_cpu s) ++
     [mkCpuReservation runId hostId (ac_cpuMillis input) cpu_committed None (ac_now input) (ac_now input)]).
Proof.
  unfold cpuQuotaStatement, on_cpu, admissionCpuQuotaStatement. destruct (List.find _ _) as [r|] eqn:Ef.
  - apply find_some in Ef as [Hin Hr].
    repeat match goal with Hx : (_ && _)%bool = true |- _ => apply andb_prop in Hx as [? ?] end.
    repeat match goal with Hx : (_ =s _) = true |- _ => apply String.eqb_eq in Hx end.
    unfold insertCpuReservation. cbn. destruct (ac_cpuMillis input <=? 0) eqn:Ep; [done|].
    destruct (existsb _ (cd_cpu _)) eqn:Ee; [done|]. intros [= <- _]. cbn.
    split_and!; try done. right. split; [eauto|]. split; [lia|]. split; [|congruence].
    intros Hx. apply in_map_iff in Hx as (x & Ex & Hx). apply (existsb_none _ _ x) in Ee; [|done].
    apply String.eqb_neq in Ee. congruence.
  - intros [= <- _]. split_and!; try done. by left.
Qed.

(** The state after the documents were written and the CPU reserved. *)
Record commits (row : DesiredRow) (s s' : AdmDb) : Prop := mk_commits {
  cm_row : findDesired (hostDocuments s) hostId = Some row;
  cm_version : dr_version row = al_expectedVersion allocation;
  cm_runs : db_runs (am_db s') = db_runs (am_db s) ++ [nr_row (ac_run input)];
  cm_distinct : NoDup (map sr_runId (db_runs (am_db s')));
  cm_desired : cd_desired (am_cpu s') = update_where (desiredHit input) (writtenRow input) (cd_desired (am_cpu s));
  cm_cpu : cd_cpu (am_cpu s') = cd_cpu (am_cpu s) \/
    0 < ac_cpuMillis input /\ ~ In runId (map cr_runId (cd_cpu (am_cpu s))) /\
    cd_cpu (am_cpu s') = cd_cpu (am_cpu s) ++
      [mkCpuReservation runId hostId (ac_cpuMillis input) cpu_committed None (ac_now input) (ac_now input)];
  cm_reports : am_reports s' = am_reports s;
  cm_report : exists report, reportOf (am_reports s) hostId = Some report /\
    rp_reportText report = ar_actualReportText (al_readiness allocation);
}.

(** A batch that goes through either leaves the ledger alone or commits over the
    document that was planned for. *)
Lemma batch_cases stmts s s' ns
  (Hok : adm_ok s) (Hnew : ~ mentions runId s)
  (Hst : admissionStatements keyFirst databaseNow input = Some stmts) (Hb : abatch stmts s = Ok (s', ns)) :
  (nth 1 ns 0 = 0 /\ framed s s') \/ (nth 1 ns 0 = 1 /\ exists row, commits row s s').
Proof.
  unfold admissionStatements in Hst. destruct (runtimeVmStatements input _ _) as [vms|] eqn:Ev; [|done].
  cbn [mbind option_bind] in Hst. injection Hst as <-. pose proof (runtimeVms_frames input _ _ _ Ev) as Hvms. cbn [app] in Hb.
  apply abatch_cons in Hb as (s1 & n0 & ns1 & He & Hb & ->). pose proof (execution_frames input _ _ _ He) as F1.
  apply abatch_cons in Hb as (s2 & n1 & ns2 & Hi & Hb & ->). cbn [nth].
  apply abatch_cons in Hb as (s3 & n2 & ns3 & Hr & Hb & ->). pose proof (refused_frames input _ _ _ Hr) as F3.
  apply abatch_app in Hb as (s4 & n3 & n4 & Hk & Hb & ->).
  assert (F4 : framed s3 s4).
  { eapply abatch_frames; [|exact Hk]. apply Forall_map, Forall_true. intros key. apply sshKey_frames. }
  apply abatch_cons in Hb as (s5 & n5 & ns5 & Hc & Hb & ->).
  apply abatch_cons in Hb as (s6 & n6 & ns6 & Hs & Hb & ->). pose proof (casSentinel_frames input _ _ _ Hs) as F6.
  apply abatch_cons in Hb as (s7 & n7 & ns7 & Hq & Hb & ->).
  assert (F8 : framed s7 s').
  { eapply abatch_frames; [|exact Hb]. apply Forall_app. split; [done|].
    constructor; [apply reservation_frames|]. constructor; [apply slot_frames|constructor]. }
  assert (Hnorun : forall r, In r (db_runs (am_db s)) -> sr_runId r <> runId).
  { intros r Hr' Er. apply Hnew. left. rewrite <- Er. by apply in_map. }
  apply sentinel_passed in Hs as [-> Hs]. apply quota_step in Hq as (Hq1 & Hq2 & Hq3 & Hq4).
  apply insertRun_cases in Hi as [[-> ->]|(-> & Ha & Hd & h & Hh & Hadm)].
  - left. split; [done|]. assert (F : framed s s4) by (etrans; [exact F1|etrans; [exact F3|exact F4]]).
    assert (Ec : s5 = s4).
    { unfold desiredStateCasStatement in Hc. destruct (existsb _ (db_runs _)) eqn:Ee; [|by injection Hc].
      apply existsb_exists in Ee as (r & Hin & Er). reflect_bools. rewrite (fr_runs _ _ F) in Hin. by destruct (Hnorun r). }
    subst s5. etrans; [exact F|]. etrans; [|exact F8]. split; try done. destruct Hq4 as [|[(r & Hin & Er) _]]; [done|].
    rewrite (fr_runs _ _ F) in Hin. by destruct (Hnorun r).
  - right. split; [done|].
    assert (A : adds_run (nr_row (ac_run input)) s s4).
    { eapply adds_framed; [exact (framed_adds _ _ _ _ F1 Ha)|]. etrans; [exact F3|exact F4]. }
    assert (Hhit : existsb (fun r => (sr_runId r =s runId) && (sr_hostId r =s hostId)) (db_runs (am_db s4)) = true).
    { apply existsb_exists. exists (nr_row (ac_run input)). rewrite (ar_runs _ _ _ A), in_app_iff. split; [right; by left|].
      unfold nr_runId, nr_hostId. by rewrite !String.eqb_refl. }
    apply cas_step in Hc as (Hc1 & Hc2 & Hc3 & Hc4); [|done].
    destruct (Hs (nr_row (ac_run input))) as (d & Hin & Edh & Hnames).
    { rewrite Hc1, (ar_runs _ _ _ A), in_app_iff. right. by left. }
    { done. }
    rewrite Hc4, (ar_desired _ _ _ A) in Hin. apply in_map_iff in Hin as (d0 & Ed0 & Hd0).
    destruct (desiredHit input d0) eqn:Eh.
    + unfold desiredHit in Eh. reflect_bools. exists d0.
      assert (Hfind : findDesired (hostDocuments s) hostId = Some d0).
      { unfold findDesired. assert (Hf : List.find (fun x => (dr_hostId x =s dr_hostId d0) && true) (cd_desired (am_cpu s)) = Some d0)
          by (rewrite (find_keyed dr_hostId (fun _ => true)); [done|apply Hok|done]).
        rewrite <- Hf. apply find_same. intros x. rewrite andb_true_r. congruence. }
      split; try done.
      * by rewrite (fr_runs _ _ F8), Hq1, Hc1, (ar_runs _ _ _ A).
      * rewrite (fr_runs _ _ F8), Hq1, Hc1, (fr_runs _ _ F4), (fr_runs _ _ F3). done.
      * by rewrite (fr_desired _ _ F8), Hq2, Hc4, (ar_desired _ _ _ A).
      * rewrite (fr_cpu _ _ F8). rewrite Hc2, (ar_cpu _ _ _ A) in Hq4. destruct Hq4 as [?|(_ & ? & ? & ?)]; [by left|by right].
      * by rewrite (fr_reports _ _ F8), Hq3, Hc3, (ar_reports _ _ _ A).
      * rewrite <- (fr_reports _ _ F1). eapply admitting_report; [|exact Hadm]. rewrite (fr_reports _ _ F1). apply Hok.
    + subst d. exfalso. apply Hnew. right; right. unfold namesRun in Hnames. apply existsb_exists in Hnames as (vm & Hvm & Ers).
      apply String.eqb_eq in Ers. eauto.
Qed.

Lemma writtenRow_host r : dr_hostId (if desiredHit input r then writtenRow input r else r) = dr_hostId r.
Proof. by destruct (desiredHit input r). Qed.
Lemma commits_find row s s' h :
  commits row s s' ->
  findDesired (hostDocuments s') h = (fun r => if desiredHit input r then writtenRow input r else r) <$> findDesired (hostDocuments s) h.
Proof.
  intros Hc. rewrite <- (findDesired_update (hostDocuments s) h (desiredHit input) (writtenRow input) (db_hosts (am_db s')));
    [|done]. unfold findDesired. cbn. by rewrite (cm_desired _ _ _ Hc).
Qed.

Lemma exact_sum_cpu_app l r : exact_sum (map cr_cpuMillis (l ++ [r])) = exact_sum (map cr_cpuMillis l) + cr_cpuMillis r.
Proof. rewrite map_app, exact_sum_app. cbn. lia. Qed.
Lemma commits_reserved row s s' h :
  commits row s s' ->
  0 < ac_cpuMillis input /\ reserved h s' <= reserved h s + (if hostId =s h then ac_cpuMillis input else 0) /\
  (h <> hostId -> reserved h s' = reserved h s)
  \/ reserved h s' = reserved h s.
Proof.
  intros Hc. unfold reserved, reservationsOf. destruct (cm_cpu _ _ _ Hc) as [->|(Hp & _ & ->)]; [by right|left].
  rewrite List.filter_app. cbn [List.filter CpuReservations.cr_hostId].
  destruct (String.eqb_spec hostId h) as [E|E].
  - rewrite exact_sum_cpu_app. cbn [cr_cpuMillis]. split_and!; [lia|lia|congruence].
  - rewrite app_nil_r. split_and!; [lia|lia|done].
Qed.

Lemma commits_ok row s s' (Hok : adm_ok s) (Hc : commits row s s') : adm_ok s'.
Proof.
  destruct Hok as [_ Hn Hp Hk Hr]. split.
  - apply (cm_distinct _ _ _ Hc).
  - destruct (cm_cpu _ _ _ Hc) as [->|(_ & Hnew & ->)]; [done|]. rewrite map_app. apply NoDup_app. split_and!; [done| |apply NoDup_singleton].
    intros x Hx ->%list_elem_of_singleton. apply Hnew. by apply list_elem_of_In.
  - destruct (cm_cpu _ _ _ Hc) as [->|(Hpos & _ & ->)]; [done|]. apply Forall_app. split; [done|]. by repeat constructor.
  - unfold keyed in *. cbn in *. rewrite (cm_desired _ _ _ Hc). unfold update_where. rewrite map_map.
    by rewrite (map_ext _ _ writtenRow_host).
  - by rewrite (cm_reports _ _ _ Hc).
Qed.

Lemma commits_fence row s s' (Hc : commits row s s')
  (Hnext : al_nextVersion allocation = al_expectedVersion allocation + 1) : fence s s'.
Proof.
  intros h r Hr. pose proof (findDesired_host _ _ _ Hr) as [_ Eh]. rewrite (commits_find _ _ _ _ Hc), Hr. cbn.
  destruct (desiredHit input r) eqn:E; (eexists; split; [reflexivity|]).
  - cbn. unfold desiredHit in E. reflect_bools. split; [lia|]. intros Ev. lia.
  - split; [lia|]. intros _. split; [done|].
    destruct (String.eqb_spec h hostId) as [->|Hne].
    { exfalso. pose proof (cm_row _ _ _ Hc) as Hrow. rewrite Hr in Hrow. injection Hrow as ->.
      unfold desiredHit in E. rewrite (cm_version _ _ _ Hc), Eh, String.eqb_refl, Z.eqb_refl in E. done. }
    destruct (commits_reserved _ _ _ h Hc) as [(_ & _ & E')|E']; [rewrite E'; [lia|done]|lia].
Qed.

Lemma commits_fits row s s' (Hok : adm_ok s) (Hc : commits row s s') (Hp : planned_at runId hostId (ac_cpuMillis input) allocation s) : fits s s'.
Proof.
  intros h. destruct (commits_reserved _ _ _ h Hc) as [(Hpos & Hle & Hne)|E]; [|left; lia].
  destruct (String.eqb_spec hostId h) as [Eh|Hn]; [subst h|left; lia]. right.
  destruct (cm_report _ _ _ Hc) as (report & Hr & Et). destruct (Hp row (cm_row _ _ _ Hc) (cm_version _ _ _ Hc)) as (_ & Hfit).
  destruct (Hfit Hpos) as (c & Hs & Hle'). exists report, c. rewrite Et. split_and!; [done|done|lia].
Qed.

Lemma commits_mentions row s s' id (Hc : commits row s s') (Hp : planned_at runId hostId (ac_cpuMillis input) allocation s) :
  mentions id s' -> mentions id s \/ id = runId.
Proof.
  unfold mentions at 1. rewrite (cm_runs _ _ _ Hc), (cm_desired _ _ _ Hc). intros [Hin|[Hin|(r & vm & Hin & Hvm & <-)]].
  - rewrite map_app, in_app_iff in Hin. destruct Hin as [?|[<-|[]]]; [left; by left|by right].
  - destruct (cm_cpu _ _ _ Hc) as [E|(_ & _ & E)]; rewrite E in Hin; [left; right; by left|].
    rewrite map_app, in_app_iff in Hin. destruct Hin as [?|[<-|[]]]; [left; right; by left|by right].
  - apply in_map_iff in Hin as (r0 & <- & Hin). destruct (desiredHit input r0) eqn:E; [|left; right; right; eauto].
    cbn in Hvm. destruct (Hp row (cm_row _ _ _ Hc) (cm_version _ _ _ Hc)) as (Hdoc & _).
    destruct (Hdoc vm Hvm) as [->|Hold]; [by right|left; right; right].
    apply in_map_iff in Hold as (vm' & Ers & Hvm'). exists row, vm'. split_and!; try done.
    by destruct (findDesired_host _ _ _ (cm_row _ _ _ Hc)).
Qed.
End batch.

Lemma framed_fence s s' : framed s s' -> fence s s'.
Proof. intros F h r Hr. exists r. rewrite (framed_find _ _ h F), (framed_reserved _ _ h F). split; [done|]. split; [lia|]. split; [done|lia]. Qed.
Lemma framed_fits `{ReportJson} s s' : framed s s' -> fits s s'.
Proof. intros F h. left. rewrite (framed_reserved _ _ h F). lia. Qed.
Lemma framed_guarantees `{ReportJson} ids r s s' : framed s s' -> guarantees ids r s s'.
Proof.
  intros F. split_and!; [by apply framed_fence|by apply framed_fits|]. intros id. rewrite (framed_mentions _ _ id F). auto.
Qed.

(** * What fits by the ledger that was read *)

Lemma ledger_leaves_room report rows c cpu :
  Forall (fun r => 0 < cr_cpuMillis r) rows ->
  hostCpuReservationCapacityFromSnapshot (Some report) (map capacityRow rows) = Some c ->
  0 < cpu <= cc_availableCpuMillis c ->
  exists sc, strictCpuCapacity (Some report) = Some sc /\
    exact_sum (map cr_cpuMillis rows) + cpu <= sc_schedulableCpuMillis sc.
Proof.
  intros Hp Hc Hcpu. unfold hostCpuReservationCapacityFromSnapshot in Hc.
  destruct (strictCpuCapacity (Some report)) as [sc|] eqn:Es; [|done]. exists sc. split; [done|].
  pose proof (strict_bounds _ _ Es) as Hb. injection Hc as <-. cbn [cc_availableCpuMillis] in Hcpu.
  set (byRun := reportedCpuMillisByRun _ _) in *. set (rest := Z.max 0 (fl (_ - js_sum (map snd byRun)))) in *.
  set (charges := map (chargedCpu byRun) _) in *.
  assert (Hcharges : Forall (Z.le 0) charges).
  { apply Forall_map, Forall_map. eapply Forall_impl; [exact Hp|]. intros r Hr. unfold chargedCpu. cbn in *. lia. }
  destruct (remaining_exact (sc_schedulableCpuMillis sc) charges rest cpu) as (Hex & _ & Hle & _); [lia|done|lia|lia|lia|].
  assert (Hr : 0 <= rest) by (unfold rest; lia). rewrite Hex in Hle.
  assert (Hs : js_sum charges = exact_sum charges) by (apply js_sum_exact; [done|lia]).
  enough (exact_sum (map cr_cpuMillis rows) <= exact_sum charges) by lia.
  unfold charges. rewrite map_map. clearbody byRun. clear -Hp. unfold exact_sum. induction Hp as [|r rows _ _ IH]; [done|].
  cbn [map foldr]. unfold chargedCpu at 1. cbn [capacityRow cap_cpuMillis]. lia.
Qed.

Lemma normalizeBy_subset `{Collation} {A} (identity : A -> string) values x :
  In x (normalizeBy identity values) -> In x values.
Proof.
  unfold normalizeBy, sortBy, uniqueLastBy. rewrite <- !list_elem_of_In, js_sort_perm.
  assert (Hgen : forall l (acc : list (string * A)), x ∈ map snd (fold_left (fun m e => Map_set (fst e) (snd e) m) (map (fun v => (identity v, v)) l) acc) ->
    x ∈ map snd acc \/ x ∈ l).
  { induction l as [|v l IH]; intros acc; cbn; [auto|]. intros [Hx|?]%IH; [|right; by right].
    apply list_elem_of_fmap in Hx as ([k w] & -> & Hx). cbn.
    assert (Hset : forall m : list (string * A), (k, w) ∈ Map_set (identity v) v m -> w = v \/ (exists k', (k', w) ∈ m)).
    { induction m as [|[k1 w1] m IHm]; cbn; [intros [= _ ->]%list_elem_of_singleton; by left|].
      destruct (identity v =s k1); intros [[= -> ->]|Hin]%elem_of_cons; [by left|right; exists k; by right|right; exists k1; by left|].
      destruct (IHm Hin) as [?|[k' ?]]; [by left|right; exists k'; by right]. }
    destruct (Hset _ Hx) as [->|[k' Hk']]; [right; by left|left]. apply list_elem_of_fmap. by exists (k', w). }
  intros [Hx|Hx]%Hgen; [by apply elem_of_nil in Hx|done].
Qed.

Lemma upsertBy_in {A} (same : A -> bool) next l x : In x (upsertBy same next l) -> x = next \/ In x l.
Proof.
  induction l as [|y l IH]; cbn; [intuition|]. destruct (same y); cbn; intuition.
Qed.

Lemma draft_vms guestTools vms d vm :
  In vm (ds_vms (admissionDraft guestTools vms d)) -> In vm vms \/ In vm (ds_vms d).
Proof.
  unfold admissionDraft. assert (Hgen : forall d0, ds_vms d0 = ds_vms d \/ True -> In vm (ds_vms (fold_left
    (fun d vm => upsertDesiredVm (upsertDesiredCachedImage d (mkCachedImage (dv_image_key vm) (dv_image_id vm))) vm) vms d0)) ->
    In vm vms \/ In vm (ds_vms d0)).
  { induction vms as [|v vms IH]; intros d0 _; cbn [fold_left]; [auto|]. intros [?|Hin]%IH; [left; by right| |by right].
    cbn in Hin. apply upsertBy_in in Hin as [->|?]; [left; by left|by right]. }
  intros [?|?]%Hgen; [by left|by right|by right].
Qed.

Lemma mutated_vms `{Collation} current mutator now next vm :
  mutateDesiredState current mutator now = Ok (Some next) -> In vm (ds_vms next) ->
  ds_version next = ds_version current + 1 /\ In vm (ds_vms (mutator (cloneDesiredState current))).
Proof.
  intros (_ & _ & _ & _ & [[? _]|[[= ->] _]])%mutate_inv; [done|]. cbn. intros Hin. split; [done|].
  by apply normalizeBy_subset in Hin.
Qed.
Lemma mutated_version `{Collation} current mutator now next :
  mutateDesiredState current mutator now = Ok (Some next) -> ds_version next = ds_version current + 1.
Proof. by intros (_ & _ & _ & _ & [[? _]|[[= ->] _]])%mutate_inv. Qed.
Lemma absent_vms runId vms d vm :
  In vm (ds_vms (fold_left (fun d vm => fst (markDesiredVmAbsent d runId (vm_runtimeVmName vm))) vms d)) ->
  In (dv_run_id vm) (map dv_run_id (ds_vms d)).
Proof.
  revert d. induction vms as [|v vms IH]; intros d; cbn [fold_left]; [apply in_map|]. intros Hin%IH.
  unfold markDesiredVmAbsent in Hin. destruct (existsb _ _); [|done]. cbn in Hin.
  assert (E : forall p l, map dv_run_id (updateFirst p with_phase_absent l) = map dv_run_id l).
  { intros p l. induction l as [|x l IHl]; cbn; [done|]. destruct (p x); cbn; [done|by rewrite IHl]. }
  by rewrite E in Hin.
Qed.

(** * Requests that only read *)

(** Reads and calls; the state stays as it is, and the answer satisfies [Q]. *)
Fixpoint neutral {E : Type -> Type} {S A : Type} (Q : A -> Prop) (p : Req E S A) : Prop :=
  match p with
  | Done a => Q a
  | Atom f k => forall s, fst (f s) = s /\ neutral Q (k (snd (f s)))
  | Await c k => forall b, neutral Q (k b)
  end.
Lemma neutral_weaken {E S A} (Q Q' : A -> Prop) (p : Req E S A) : (forall a, Q a -> Q' a) -> neutral Q p -> neutral Q' p.
Proof.
  intros HQ. induction p as [a|B f k IH|B c k IH]; cbn; [auto| |auto]. intros Hp s. destruct (Hp s). auto.
Qed.
Lemma neutral_bind {E S A B} (Q : B -> Prop) (p : Req E S A) k :
  neutral (fun a => neutral Q (k a)) p -> neutral Q (req_bind p k).
Proof.
  induction p as [a|D f next IH|D c next IH]; cbn; [auto| |auto]. intros Hp s. destruct (Hp s). auto.
Qed.
Lemma neutral_seq {E S A B} (P : A -> Prop) (Q : B -> Prop) (p : Req E S A) k :
  neutral P p -> (forall a, P a -> neutral Q (k a)) -> neutral Q (req_bind p k).
Proof. intros Hp Hk. apply neutral_bind. by eapply neutral_weaken. Qed.
Lemma neutral_try {E S X A B} (P : A -> Prop) (Q : result X B -> Prop) (p : Req E S (result X A)) k :
  neutral (fun r => match r with Ok a => P a | Err e => Q (Err e) end) p ->
  (forall a, P a -> neutral Q (k a)) -> neutral Q (req_try p k).
Proof. intros Hp Hk. eapply neutral_seq; [exact Hp|]. intros [a|e]; cbn; auto. Qed.

(** Reads and calls, whatever they answer. *)
Definition reads {E S A} (p : Req E S A) : Prop := neutral (fun _ => True) p.
Lemma reads_try {E S X A B} (p : Req E S (result X A)) (k : A -> Req E S (result X B)) :
  reads p -> (forall a, reads (k a)) -> reads (req_try p k).
Proof. intros Hp Hk. eapply (neutral_try (fun _ => True)); [|intros a _; apply Hk]. eapply neutral_weaken; [|exact Hp]. by intros [?|?]. Qed.
Lemma reads_bind {E S A B} (p : Req E S A) (k : A -> Req E S B) :
  reads p -> (forall a, reads (k a)) -> reads (req_bind p k).
Proof. intros Hp Hk. eapply (neutral_seq (fun _ => True)); [exact Hp|intros a _; apply Hk]. Qed.
Lemma reads_query {E S B} (g : S -> B) : reads (query (E := E) g).
Proof. by intros s. Qed.
Lemma reads_call {E S B} (c : E B) : reads (call (S := S) c).
Proof. done. Qed.
Lemma reads_done {E S A} (a : A) : reads (Done (E := E) (S := S) a).
Proof. done. Qed.
Create HintDb reads discriminated.
#[export] Hint Resolve reads_query reads_call reads_done : reads.

(** Opens a program of reads step by step. *)
Ltac reading :=
  repeat first
    [ progress auto with reads
    | apply reads_try; [|intros ?]
    | apply reads_bind; [|intros ?]
    | match goal with |- reads (match ?x with _ => _ end) => destruct x end ].

Lemma reads_gate allow : reads (assertAgentKvmRunsOpen allow).
Proof. unfold assertAgentKvmRunsOpen, reject, ok. reading. Qed.
Lemma reads_active userId : reads (assertAccountActive userId).
Proof. unfold assertAccountActive, throw, ok. reading. Qed.
Lemma reads_stored userId key : reads (loadRunByIdempotencyKey userId key).
Proof. unfold loadRunByIdempotencyKey, ok. reading. Qed.
Lemma reads_hint hostId : reads (deliveryHint hostId).
Proof. unfold deliveryHint, ok. reading. Qed.
#[export] Hint Resolve reads_gate reads_active reads_stored reads_hint : reads.
Lemma reads_replay scope stored : reads (replayOf scope stored).
Proof. unfold replayOf, lift, ok. reading. Qed.
Lemma reads_still_active userId runId hostId : reads (assertAccountStillActive userId runId hostId).
Proof. unfold assertAccountStillActive, throw, ok. reading. Qed.
Lemma reads_priority userId allow : reads (assertAdmissionRefusalPriority userId allow).
Proof. unfold assertAdmissionRefusalPriority. reading. Qed.
Lemma reads_source proof anchor org sid : reads (sourceAnchorRefusal proof anchor org sid).
Proof. unfold sourceAnchorRefusal, reject, ok. reading. Qed.
Lemma reads_content run allow : reads (assertCurrentContentAccess run allow).
Proof. unfold assertCurrentContentAccess, reject, ok. reading. Qed.
#[export] Hint Resolve reads_replay reads_still_active reads_priority reads_source reads_content : reads.
Lemma reads_refusal input : reads (admissionRefusal input).
Proof. unfold admissionRefusal, ok. reading. Qed.
#[export] Hint Resolve reads_refusal : reads.

Section selecting.
Context `{ReportJson} `{Collation} `{LoadOrder}.
Lemma reads_select requireRunCli images userId resources now org :
  reads (selectScenarioHosts requireRunCli images userId resources now org).
Proof. unfold selectScenarioHosts. reading. Qed.
Lemma reads_candidates requireRunCli userId org requested images resources now :
  reads (candidateHosts requireRunCli userId org requested images resources now).
Proof.
  unfold candidateHosts, throw, reject, ok. destruct requested; [reading|].
  apply reads_bind; [apply reads_select|]. intros [?|[]]; reading.
Qed.
Lemma reads_raced input key scope e : reads (replayRaced input key scope e).
Proof. unfold replayRaced, throw. reading. Qed.
End selecting.
#[export] Hint Resolve reads_candidates reads_raced : reads.

(** * What a start prepares *)

Lemma reads_each {A B} (f : A -> Start B) l : (forall x, reads (f x)) -> reads (each f l).
Proof. intros Hf. induction l as [|x l IH]; cbn [each]; unfold ok; [reading|]. apply reads_try; [done|]. intros ?. reading. Qed.

Lemma desired_run_ids runId userId tools createdAt drafts vms ds :
  desiredVmsFrom runId userId tools createdAt drafts vms = Ok ds -> Forall (fun d => dv_run_id d = runId) ds.
Proof.
  revert ds. induction vms as [|vm vms IH]; intros ds; cbn [desiredVmsFrom]; [by intros [= <-]|].
  destruct (desiredVmFromRunVm _ _ _ _ _ _ _ _) as [d|] eqn:Ed; [|done].
  destruct (desiredVmsFrom _ _ _ _ _ vms) as [ds'|]; [|done]. cbn. intros [= <-]. constructor; [|auto].
  unfold desiredVmFromRunVm in Ed. destruct (_ || _ || _ || _ || _ || _); [done|].
  destruct (prov_imageKey (vm_provisioning vm)), (prov_resources (vm_provisioning vm)),
    (prov_leaseDurationSeconds (vm_provisioning vm)); by simplify_eq.
Qed.

Record prepared_ok (runId : string) (p : PreparedRun) : Prop := mk_prepared_ok {
  po_run : nr_runId (pr_run p) = runId;
  po_desired : Forall (fun d => dv_run_id d = runId) (pr_desiredVms p);
  po_execution : sr_runtimeExecutionId (nr_row (pr_run p)) = Some runId;
  po_state : sr_state (nr_row (pr_run p)) = run_provisioning;
  po_active : sr_activeKey (nr_row (pr_run p)) <> None;
  po_sshKeys : Forall (fun k => sk_runId k = runId) (pr_sshKeyRows p);
}.

(** A new run is provisioning, and so is its document. *)
Lemma queued_phase vms : Forall (fun vm => vm_phase vm = vm_queued) vms -> deriveRunPhase vms run_provisioning = run_provisioning.
Proof.
  intros Hv. destruct Hv as [|vm vms Ev Hv]; [done|]. unfold deriveRunPhase.
  assert (Hno : forall ph, vm_queued <> ph -> existsb (vm_in [ph]) (vm :: vms) = false).
  { intros ph Hne. apply not_true_iff_false. intros (x & Hx & E)%existsb_exists. unfold vm_in in E. cbn in E.
    rewrite orb_false_r in E. apply bool_decide_eq_true in E. assert (vm_phase x = vm_queued); [|congruence].
    rewrite Forall_forall in Hv. destruct Hx as [<-|Hx]; [done|]. apply Hv. by apply list_elem_of_In. }
  rewrite (Hno vm_failed) by done. cbn. unfold vm_in. cbn. rewrite Ev. cbn.
  destruct (existsb _ vms) eqn:E; [|done]. exfalso. apply existsb_exists in E as (x & Hx & E). rewrite Forall_forall in Hv.
  rewrite (Hv x) in E by (by apply list_elem_of_In). done.
Qed.
Lemma provisioned_phase runId source vmIds specs :
  run_phase (provisionedStateOf source (runVmStatesOf runId vmIds specs)) = run_provisioning.
Proof.
  assert (Hq : Forall (fun vm => vm_phase vm = vm_queued) (runVmStatesOf runId vmIds specs)).
  { unfold runVmStatesOf. apply Forall_lookup. intros i vm Hvm. rewrite list_lookup_imap in Hvm.
    destruct (_ !! i); [|done]. by injection Hvm as <-. }
  unfold provisionedStateOf, provisioningState. rewrite !recompute_phase. cbn [run_vms with_run_vms run_phase].
  rewrite recompute_vms. cbn [run_vms]. rewrite recompute_phase. cbn [run_vms run_phase].
  rewrite (queued_phase (map decorateVmState (runVmStatesOf _ _ _))).
  - apply queued_phase. apply Forall_map, Forall_map, Forall_map. eapply Forall_impl; [exact Hq|]. by intros [].
  - apply Forall_map. eapply Forall_impl; [exact Hq|]. by intros [].
Qed.
Lemma each_neutral {A B} (P : B -> Prop) (f : A -> Start B) l :
  (forall x, neutral (fun r => match r with Ok b => P b | Err _ => True end) (f x)) ->
  neutral (fun r => match r with Ok bs => Forall P bs | Err _ => True end) (each f l).
Proof.
  intros Hf. induction l as [|x l IH]; cbn [each]; [by constructor|]. eapply (neutral_try P); [apply Hf|]. intros b Hb.
  eapply (neutral_try (Forall P)); [exact IH|]. intros bs Hbs. by constructor.
Qed.
Lemma prepare_built ids input source course key scope :
  neutral (fun r => match r with
                    | Ok p => prepared_ok (ids 0%nat) p /\
                        exists state createdAt, pr_run p = newRun input source course key scope (ids 0%nat) state createdAt
                    | Err _ => True
                    end)
    (prepareRun ids input source course key scope).
Proof.
  assert (Hstep : forall A B (p : Start A) (k : A -> Start B) Q,
    reads p -> (forall a, neutral (fun r => match r with Ok b => Q b | Err _ => True end) (k a)) ->
    neutral (fun r => match r with Ok b => Q b | Err _ => True end) (req_try p k)).
  { intros A B p k Q Hp Hk. eapply (neutral_try (fun _ => True)); [|auto]. eapply neutral_weaken; [|exact Hp]. by intros [?|?]. }
  unfold prepareRun. intros createdAt. unfold lift. apply Hstep; [reading|]. intros images. apply Hstep; [reading|]. intros anchor.
  cbv zeta. apply Hstep; [apply reads_each; intros x; unfold newDraft, ok; reading|]. intros drafts.
  apply Hstep; [reading|]. intros specs. apply Hstep; [reading|]. intros resources.
  apply Hstep; [unfold ask; reading|]. intros tools.
  eapply (neutral_try (Forall (fun k => sk_runId k = ids 0%nat))); [apply each_neutral; intros x; by intros [[]|]|]. intros rows Hrows.
  apply Hstep; [apply reads_each; intros x; unfold sealedAccessKey, ask, throw; reading|]. intros keys.
  destruct (Nat.eqb _ _); [done|].
  destruct (desiredVmsFrom _ _ _ _ _ _) as [ds|] eqn:Ed; [|done]. cbn. split; [|by repeat eexists]. split; try done.
  - by eapply desired_run_ids.
  - apply provisioned_phase.
Qed.
Lemma prepare_neutral ids input source course key scope :
  neutral (fun r => match r with Ok p => prepared_ok (ids 0%nat) p | Err _ => True end)
    (prepareRun ids input source course key scope).
Proof. eapply neutral_weaken; [|apply prepare_built]. by intros [p|] ?; [destruct_and!|]. Qed.

(** * What each part of a start secures *)

Section secured.
Context `{ReportJson} `{Collation} `{LoadOrder}.
Variable ids : nat -> nat -> string.
Variable r : nat.

#[local] Abbreviation sec := (secures adm_ok (relies ids r) (guarantees ids r)).
#[local] Abbreviation runId := (ids r 0%nat).

Lemma neutral_secured {A} (Q : A -> Prop) (p : Req StartCall AdmDb A) s :
  neutral Q p -> sec (fun s' a => relies ids r s s' /\ Q a) s p.
Proof.
  enough (forall s1, relies ids r s s1 -> neutral Q p -> sec (fun s' a => relies ids r s s' /\ Q a) s1 p) as Hgen.
  { apply Hgen, relies_refl. }
  induction p as [a|B f k IH|B c k IH]; cbn; [done| |auto].
  intros s1 Hr Hp s2 Hok Hr2. destruct (Hp s2) as [E Hk]. rewrite E. split; [done|]. split; [apply guarantees_refl|].
  apply IH; [|done]. by eapply relies_trans.
Qed.
Lemma unused_later s s' : relies ids r s s' -> unused ids r s -> unused ids r s'.
Proof. intros [_ Hm] Hu j Hj. apply (Hu j), Hm, Hj. Qed.
(** A program that only reads, between accesses that count on unused ids. *)
Lemma reading_secured {A} (Q : A -> Prop) (p : Req StartCall AdmDb A) s :
  unused ids r s -> neutral Q p -> sec (fun s' a => unused ids r s' /\ Q a) s p.
Proof.
  intros Hu Hp. eapply secures_weaken; [|by apply neutral_secured]. intros s' a [? ?]. split; [by eapply unused_later|done].
Qed.
Lemma reads_secured {A} (p : Req StartCall AdmDb A) s : reads p -> sec (fun _ _ => True) s p.
Proof. intros Hp. eapply secures_weaken; [|by apply neutral_secured]. done. Qed.

(** One step of a start that only reads. *)
Lemma read_then {A B} (P : A -> Prop) (p : Start A) (k : A -> Start B) s :
  unused ids r s -> neutral (fun x => match x with Ok a => P a | Err _ => True end) p ->
  (forall s' a, unused ids r s' -> P a -> sec (fun _ _ => True) s' (k a)) -> sec (fun _ _ => True) s (req_try p k).
Proof.
  intros Hu Hp Hk. eapply (secures_try _ _ _ (fun s' a => unused ids r s' /\ P a)).
  - eapply secures_weaken; [|apply (reading_secured _ _ _ Hu Hp)]. intros s' [a|e] [? ?]; auto.
  - intros s' a [? ?]. auto.
Qed.
Lemma reads_then {A B} (p : Start A) (k : A -> Start B) s :
  unused ids r s -> reads p ->
  (forall s' a, unused ids r s' -> sec (fun _ _ => True) s' (k a)) -> sec (fun _ _ => True) s (req_try p k).
Proof.
  intros Hu Hp Hk. eapply (read_then (fun _ => True)); [done| |auto]. eapply neutral_weaken; [|exact Hp]. by intros [?|?].
Qed.

(** Inserting the empty document of a host. *)
Lemma insertDesired_secured row s :
  ds_vms (dr_docJson row) = [] -> adm_ok s ->
  let s' := fst (insertDesiredRow row s) in
  adm_ok s' /\ guarantees ids r s s' /\ relies ids r s s' /\
  (snd (insertDesiredRow row s) = true -> findDesired (hostDocuments s') (dr_hostId row) = Some row).
Proof.
  intros Hvms Hok. unfold insertDesiredRow. destruct (insertDesired row (hostDocuments s)) as [d b] eqn:E. cbn.
  pose proof (insertDesired_step _ _ _ _ E) as [Hv Hb]. destruct (Hv (ok_desired _ Hok)) as [Hk Hvs].
  set (s' := set_am_cpu s (set_cd_desired (am_cpu s) (dd_rows d))).
  assert (Hd : dd_rows d = cd_desired (am_cpu s) \/ dd_rows d = cd_desired (am_cpu s) ++ [row]).
  { unfold insertDesired in E. destruct (existsb _ _); injection E as <- _; cbn; auto. }
  assert (Hf : fence s s').
  { intros h r0 Hr0. destruct (Hvs h r0 Hr0) as (r1 & Hr1 & Hle & Hsame). exists r1. split; [exact Hr1|]. split; [done|].
    intros Ev. split; [auto|]. apply Z.le_refl. }
  assert (Hm : forall id, mentions id s' -> mentions id s).
  { intros id [?|[?|(x & vm & Hx & Hvm & ?)]]; [by left|right; by left|]. right; right. cbn in Hx.
    destruct Hd as [Ed|Ed]; rewrite Ed in Hx; [by exists x, vm|]. apply in_app_iff in Hx as [Hx|[<-|[]]]; [by exists x, vm|].
    by rewrite Hvms in Hvm. }
  split_and!; try done.
  - destruct Hok as [? ? ? ? ?]. by split.
  - split_and!; [done|intros h; left; apply Z.le_refl|auto].
  - split; [done|auto].
Qed.

Definition loaded (hostId : string) (s : AdmDb) (x : result StartError HostDesiredState) : Prop :=
  match x with Ok d => storedAs hostId (hostDocuments s) d | Err _ => True end.
Lemma load_secured hostId now s :
  sec (fun s' x => relies ids r s s' /\ loaded hostId s' x) s (loadOrCreateDesired hostId now).
Proof.
  unfold loadOrCreateDesired. cbn [query req_bind secures]. intros s1 Hok1 Hr1. cbn [fst snd].
  split; [done|]. split; [apply guarantees_refl|].
  destruct (hostOwnership _ _) as [o|e]; [|by split]. clear Hok1. revert s1 Hr1.
  induction MUTATE_DESIRED_STATE_MAX_ATTEMPTS as [|n IH]; intros s1 Hr1; [by split|].
  cbn [loadDesiredFrom query req_bind secures]. intros s2 Hok2 Hr2. cbn [fst snd]. split; [done|]. split; [apply guarantees_refl|].
  assert (Hr02 : relies ids r s s2) by (by eapply relies_trans).
  destruct (findDesired (hostDocuments s2) hostId) as [row|] eqn:Ef.
  - split; [done|]. cbn. destruct (checkedDocument hostId o row) as [d|] eqn:Ec; [|done]. cbn. by eapply checked_stored.
  - cbn [transaction req_bind secures]. intros s3 Hok3 Hr3. set (row := mkDesiredRow hostId _ _ now now).
    destruct (insertDesired_secured row s3) as (Ho & Hg & Hr & Hb); [done..|]. split; [done|]. split; [done|].
    assert (Hr04 : relies ids r s (fst (insertDesiredRow row s3))) by (eapply relies_trans; [by eapply relies_trans|exact Hr]).
    destruct (insertDesiredRow row s3) as [s4 b]. cbn [fst snd] in *. destruct b; [|by apply IH].
    split; [done|]. exists row. split; [by apply Hb|]. by split.
Qed.

(** ** Planning *)

Definition planned (cpuMillis : Z) (s : AdmDb) (al : AdmissionHostAllocation) : Prop :=
  al_nextVersion al = al_expectedVersion al + 1 /\
  forall s3, adm_ok s3 -> relies ids r s s3 -> planned_at runId (al_hostId al) cpuMillis al s3.
Lemma planned_later cpuMillis s s' al : relies ids r s s' -> planned cpuMillis s al -> planned cpuMillis s' al.
Proof. intros Hr [Hv Hp]. split; [done|]. intros s3 Hok Hr3. apply Hp; [done|]. by eapply relies_trans. Qed.

Lemma loaded_later hostId s s' d row :
  storedAs hostId (hostDocuments s) d -> relies ids r s s' -> findDesired (hostDocuments s') hostId = Some row ->
  ds_version d <= dr_version row /\ (dr_version row = ds_version d -> dr_docJson row = d).
Proof.
  intros (row0 & Hrow0 & Ed & Ev) [Hf _] Hrow. destruct (Hf _ _ Hrow0) as (row1 & Hrow1 & Hle & Hsame).
  rewrite Hrow1 in Hrow. injection Hrow as ->. split; [lia|]. intros E. destruct Hsame as [E1 _]; [lia|]. congruence.
Qed.

(** What was reserved when the ledger was read still bounds what is reserved, as
    long as the version read before it stands. *)
Lemma reserved_later hostId s1 s2 s3 d row :
  storedAs hostId (hostDocuments s1) d -> relies ids r s1 s2 -> relies ids r s2 s3 ->
  findDesired (hostDocuments s3) hostId = Some row -> dr_version row = ds_version d ->
  reserved hostId s3 <= reserved hostId s2.
Proof.
  intros Hd H12 H23 Hrow Ev. destruct Hd as (row1 & Hrow1 & Ed & Ev1). destruct H12 as [Hf12 _], H23 as [Hf23 _].
  destruct (Hf12 _ _ Hrow1) as (row2 & Hrow2 & Hle2 & _). destruct (Hf23 _ _ Hrow2) as (row3 & Hrow3 & Hle3 & Hs).
  rewrite Hrow3 in Hrow. injection Hrow as ->. apply Hs. lia.
Qed.

Lemma reservations_positive hostId s : adm_ok s -> Forall (fun x => 0 < cr_cpuMillis x) (reservationsOf hostId (am_cpu s)).
Proof.
  intros Hok. apply Forall_forall. intros x Hx%list_elem_of_In%filter_In. pose proof (ok_positive _ Hok) as Hp.
  rewrite Forall_forall in Hp. apply Hp, list_elem_of_In, Hx.
Qed.

Lemma plan_secured requireRunCli hostId userId org images explicit now cpuMillis resources desiredVms tools s :
  Forall (fun d => dv_run_id d = runId) desiredVms -> unused ids r s ->
  sec (fun s' x => unused ids r s' /\ match x with Ok (Some al) => planned cpuMillis s' al | _ => True end) s
    (planHost requireRunCli hostId userId org images explicit now cpuMillis resources desiredVms tools).
Proof.
  intros Hvms Hu. unfold planHost. eapply (secures_try _ _ _ (fun s' d => unused ids r s' /\ storedAs hostId (hostDocuments s') d)).
  { eapply secures_weaken; [|by apply load_secured]. intros s' [d|e] [Hr Hl]; split; try done; by eapply unused_later. }
  clear s Hu. intros s1 current [Hu1 Hst]. cbn [call req_bind secures]. intros checkedAt.
  cbn [query req_bind secures]. intros s2 Hok2 H12. cbn [fst snd]. split; [done|]. split; [apply guarantees_refl|].
  pose proof (unused_later _ _ H12 Hu1) as Hu2. destruct (loadScenarioLaunchHostForUser _ _ _ _ _ _ _ _ _ _) as [host|e];
    [|destruct (_ && _); by split].
  destruct (ah_activeSessionId (lh_host host)) as [session|], (lh_report host) as [reported|]; try by split.
  destruct (_ || _); [by split|]. cbn [query req_bind secures]. intros s3 Hok3 H23. cbn [fst snd].
  split; [done|]. split; [apply guarantees_refl|]. pose proof (unused_later _ _ H23 Hu2) as Hu3.
  destruct (hostCpuReservationCapacityFromSnapshot _ _) as [capacity|] eqn:Ecap; [|by split].
  destruct (cc_availableCpuMillis capacity <? cpuMillis) eqn:Efit; [by split|]. cbn [query req_bind secures].
  intros s4 Hok4 H34. cbn [fst snd]. split; [done|]. split; [apply guarantees_refl|]. pose proof (unused_later _ _ H34 Hu3) as Hu4.
  destruct (availableRuntimeHostResources _ _ _); [|by split]. destruct (negb _); [by split|].
  destruct (mutateDesiredState current _ now) as [[next|]|e] eqn:Em; [|by split..].
  split; [done|]. split; [cbn; by apply mutated_version in Em|]. cbn [al_hostId]. intros s5 Hok5 H45 row Hrow Ev. cbn in Ev.
  assert (H13 : relies ids r s1 s3) by (by eapply relies_trans).
  assert (H35 : relies ids r s3 s5) by (by eapply relies_trans). split.
  - cbn. intros vm Hvm. destruct (mutated_vms _ _ _ _ _ Em Hvm) as [_ Hd]. apply draft_vms in Hd as [Hd|Hd].
    + left. rewrite Forall_forall in Hvms. apply Hvms. by apply list_elem_of_In.
    + right. destruct (loaded_later _ _ _ _ _ Hst (relies_trans _ _ _ _ _ H13 H35) Hrow) as [_ Hsame].
      rewrite (Hsame Ev). by apply in_map.
  - intros Hpos. destruct (ledger_leaves_room _ _ _ cpuMillis (reservations_positive hostId s3 Hok3) Ecap) as (sc & Es & Hle).
    { reflect_bools. lia. }
    exists sc. cbn. split; [done|]. pose proof (reserved_later _ _ _ _ _ _ Hst H13 H35 Hrow Ev) as Hres.
    change (exact_sum (map cr_cpuMillis (reservationsOf hostId (am_cpu s3)))) with (reserved hostId s3) in Hle. lia.
Qed.

Lemma allocate_secured requireRunCli userId org requested images resources cpuMillis now desiredVms tools s :
  Forall (fun d => dv_run_id d = runId) desiredVms -> unused ids r s ->
  sec (fun s' x => unused ids r s' /\ match x with Ok al => planned cpuMillis s' al | Err _ => True end) s
    (allocateAdmissionHost requireRunCli userId org requested images resources cpuMillis now desiredVms tools).
Proof.
  intros Hvms Hu. unfold allocateAdmissionHost. eapply (secures_try _ _ _ (fun s' _ => unused ids r s')).
  { eapply secures_weaken; [|apply (reading_secured (fun _ => True) _ s Hu), reads_candidates]. intros s' [?|?] [? _]; auto. }
  clear s Hu. intros s hosts Hu.
  eapply (secures_try _ _ _ (fun s' x => unused ids r s' /\ match x with Some al => planned cpuMillis s' al | None => True end)).
  2: { intros s' [al|] [? ?]; by split. }
  unfold planAdmissionHost. revert s Hu. induction (Set_new hosts) as [|h rest IH]; intros s Hu; cbn [firstPlanned]; [by split|].
  eapply (secures_try _ _ _ (fun s' x => unused ids r s' /\ match x with Some al => planned cpuMillis s' al | None => True end)).
  { eapply secures_weaken; [|by apply plan_secured]. intros s' [[al|]|e] [? ?]; by split. }
  intros s' [al|] [Hu' Hp]; [by split|by apply IH].
Qed.

(** ** Committing *)

Lemma commit_secured keyFirst input cpuMillis s :
  unused ids r s -> nr_runId (ac_run input) = runId -> nr_hostId (ac_run input) = al_hostId (ac_desired input) ->
  ac_cpuMillis input = cpuMillis -> planned cpuMillis s (ac_desired input) ->
  sec (fun s' x => match x with Ok cas_lost => unused ids r s' | _ => True end) s (commitAdmissionBatch keyFirst input).
Proof.
  intros Hu Hrun Hhost Hcpu Hp. unfold commitAdmissionBatch. cbn [call req_bind secures]. intros databaseNow.
  destruct (admissionStatements keyFirst databaseNow input) as [stmts|] eqn:Est; [|done].
  cbn [transaction req_bind secures]. intros s1 Hok1 Hr1. pose proof (unused_later _ _ Hr1 Hu) as Hu1.
  unfold run_batch. destruct (abatch stmts s1) as [[s2 ns]|c] eqn:Eb; cbn [fst snd].
  - assert (Hnew : ~ mentions (nr_runId (ac_run input)) s1) by (rewrite Hrun; apply Hu1).
    pose proof (planned_later _ _ _ _ Hr1 Hp) as [Hnext Hplan].
    specialize (Hplan s1 Hok1 (relies_refl _ _ _)).
    assert (Hg : adm_ok s2 /\ guarantees ids r s1 s2).
    { destruct (batch_cases _ _ _ _ _ _ _ Hok1 Hnew Est Eb) as [[_ F]|[_ [row Hc]]].
      - split; [by eapply framed_ok|by apply framed_guarantees].
      - rewrite <- Hhost, <- Hrun, <- Hcpu in Hplan. split; [by eapply commits_ok|]. split_and!.
        + by eapply commits_fence.
        + by eapply commits_fits.
        + intros id Hid. destruct (commits_mentions _ _ _ _ _ Hc Hplan Hid) as [Hid0|Hid0]; [by left|right; exists 0%nat; congruence]. }
    destruct Hg as [Hok2 Hg]. split; [done|]. split; [done|]. destruct (nth 1 ns 0 =? 0); [|done].
    eapply secures_weaken; [|apply (neutral_secured (fun x => x <> Ok cas_lost))].
    { intros s' [[]|] [_ Hx]; done. }
    eapply (neutral_try (fun _ => True)); [|done]. eapply neutral_weaken; [|apply reads_refusal]. by intros [?|?].
  - split; [done|]. split; [apply guarantees_refl|].
    assert (Hread : sec (fun s' x => match x with Ok cas_lost => unused ids r s' | _ => True end) s1
      (stored <-! loadRunByIdempotencyKey (nr_userId (ac_run input)) (nullish (rq_requestIdempotencyKey (nr_request (ac_run input))) "");
       match stored with Some _ => ok duplicate_key | None => ok (commit_error activeRunConflictError) end)%req).
    { eapply (secures_try _ _ _ (fun _ _ => True)); [|by intros s' [?|] _].
      eapply secures_weaken; [|apply reads_secured, reads_stored]. by intros s' [?|?]. }
    destruct c as [[]|c| | |]; cbn [isActiveKeyUniqueViolation]; try done.
Qed.

(** ** Cancelling *)

(** What the rest of the system may do, a request may do as well. *)
Lemma elsewhere_guarantees s s' : elsewhere s s' -> guarantees ids r s s'.
Proof. intros [_ Hf Hr Hm]. split_and!; [done|intros h; by left|auto]. Qed.
Lemma elsewhere_trans a b c : elsewhere a b -> elsewhere b c -> elsewhere a c.
Proof. intros [? ? Hr1 ?] [? ? Hr2 ?]. split; [auto|by etrans|intros h; specialize (Hr1 h); specialize (Hr2 h); lia|auto]. Qed.
Lemma framed_elsewhere s s' : framed s s' -> elsewhere s s'.
Proof.
  intros F. split; [by apply framed_ok|by apply framed_fence|intros h; rewrite (framed_reserved _ _ h F); lia|].
  intros id. by rewrite (framed_mentions _ _ id F).
Qed.

(** Rows of runs change. *)
Lemma run_update_elsewhere p f s :
  (forall x, sr_runId (f x) = sr_runId x) -> elsewhere s (set_am_db s (fst (updateRuns p f (am_db s)))).
Proof.
  intros Hf. set (s' := set_am_db s _). assert (Er : map sr_runId (db_runs (am_db s')) = map sr_runId (db_runs (am_db s))).
  { cbn. unfold update_where. rewrite map_map. apply map_ext. intros x. by destruct (p x). }
  split.
  - intros []. split; try done. by rewrite Er.
  - intros h x Hx. exists x. split; [exact Hx|]. split; [lia|]. intros _. split; [done|apply Z.le_refl].
  - intros h. apply Z.le_refl.
  - intros id Hm. unfold mentions in *. rewrite Er in Hm. exact Hm.
Qed.

(** A document is written over by a newer version that names no new run. *)
Lemma write_elsewhere hostId current next now s :
  keyed (hostDocuments s) -> ds_version next = ds_version current + 1 ->
  (forall vm, In vm (ds_vms next) -> In (dv_run_id vm) (map dv_run_id (ds_vms current))) ->
  (forall row, findDesired (hostDocuments s) hostId = Some row -> dr_version row = ds_version current -> dr_docJson row = current) ->
  let hit x := (dr_hostId x =s hostId) && (dr_version x =? ds_version current) in
  elsewhere s (set_am_cpu s (set_cd_desired (am_cpu s) (update_where hit
    (fun x => mkDesiredRow (dr_hostId x) (ds_version next) next (dr_createdAt x) now) (cd_desired (am_cpu s))))).
Proof.
  intros Hk Hv Hvms Hdoc hit. set (f x := mkDesiredRow (dr_hostId x) (ds_version next) next (dr_createdAt x) now).
  set (s' := set_am_cpu s _).
  assert (Hh : forall x, dr_hostId (if hit x then f x else x) = dr_hostId x) by (intros x; by destruct (hit x)).
  assert (Hfind : forall h, findDesired (hostDocuments s') h = (fun x => if hit x then f x else x) <$> findDesired (hostDocuments s) h).
  { intros h. by rewrite <- (findDesired_update (hostDocuments s) h hit f (db_hosts (am_db s'))). }
  assert (Hold : forall x, In x (cd_desired (am_cpu s)) -> hit x = true -> dr_docJson x = current).
  { intros x Hx Ehit. unfold hit in Ehit. reflect_bools. apply Hdoc; [|done]. unfold findDesired.
    assert (Hf : List.find (fun y => (dr_hostId y =s dr_hostId x) && true) (cd_desired (am_cpu s)) = Some x)
      by (rewrite (find_keyed dr_hostId (fun _ => true)); done).
    rewrite <- Hf. apply find_same. intros y. rewrite andb_true_r. congruence. }
  split.
  - intros []. split; try done. unfold keyed in *. cbn in *. unfold update_where. rewrite map_map. by rewrite (map_ext _ _ Hh).
  - intros h x Hx. rewrite Hfind, Hx. cbn. eexists. split; [reflexivity|].
    destruct (hit x) eqn:E; [|split; [lia|]; intros _; split; [done|apply Z.le_refl]].
    unfold hit in E. reflect_bools. cbn. split; [lia|]. intros ?. lia.
  - intros h. apply Z.le_refl.
  - intros id [?|[?|(x & vm & Hx & Hvm & <-)]]; [by left|right; by left|]. right; right.
    apply in_map_iff in Hx as (x0 & <- & Hx0). destruct (hit x0) eqn:E; [|by exists x0, vm].
    cbn in Hvm. apply Hvms in Hvm. rewrite <- (Hold x0 Hx0 E) in Hvm. apply in_map_iff in Hvm as (vm' & Eid & Hvm').
    by exists x0, vm'.
Qed.

Lemma batch_elsewhere stmts s s' ns :
  Forall (fun f => forall a b n, f a = Ok (b, n) -> elsewhere s a -> elsewhere s b) stmts ->
  abatch stmts s = Ok (s', ns) -> elsewhere s s'.
Proof.
  enough (forall a, elsewhere s a -> Forall (fun f => forall a b n, f a = Ok (b, n) -> elsewhere s a -> elsewhere s b) stmts ->
    forall ns, abatch stmts a = Ok (s', ns) -> elsewhere s s') as Hgen.
  { intros Hf Hb. eapply Hgen; [|done..]. apply framed_elsewhere. reflexivity. }
  intros a Ha Hf. revert a Ha. induction Hf as [|f stmts Hf _ IH]; intros a Ha ns'; [by intros [= <- _]|].
  intros (a1 & n & ns1 & Hf1 & Hf2 & _)%abatch_cons. eapply IH; [|exact Hf2]. by eapply Hf.
Qed.

Lemma cancel_from_secured runId' userId hostId vms now left s :
  sec (fun _ _ => True) s (cancelFrom runId' userId hostId vms now left).
Proof.
  revert s. induction left as [|left IH]; intros s; [done|]. cbn [cancelFrom].
  eapply (secures_try _ _ _ (fun s' d => storedAs hostId (hostDocuments s') d)).
  { eapply secures_weaken; [|by apply load_secured]. by intros s' [d|e] [_ ?]. }
  clear s. intros s1 current Hst. destruct (mutateDesiredState current _ now) as [changed|e] eqn:Em; [|done].
  cbn [call req_bind secures]. intros builtAt. cbn [transaction req_bind secures]. intros s2 Hok2 H12.
  match goal with |- context [run_batch ?l s2] => set (stmts := l) end.
  assert (He : forall s3 ns, abatch stmts s2 = Ok (s3, ns) -> elsewhere s2 s3).
  { intros s3 ns. apply batch_elsewhere.
    assert (Hrun : forall a b n, cancelRunStatement runId' userId hostId now a = Ok (b, n) -> elsewhere s2 a -> elsewhere s2 b).
    { intros a b n [= <- _] Ha. eapply elsewhere_trans; [exact Ha|]. by apply run_update_elsewhere. }
    destruct changed as [next|]; unfold stmts; [|by apply Forall_singleton]. constructor; [|constructor; [done|constructor; [|constructor]]].
    - intros a b n. unfold cancelDesiredStateStatement. destruct (existsb _ _); [|by intros [= <- _]]. intros [= <- _] Ha.
      eapply elsewhere_trans; [exact Ha|]. apply write_elsewhere.
      + by apply (el_ok _ _ Ha).
      + by apply mutated_version in Em.
      + intros vm Hvm. destruct (mutated_vms _ _ _ _ _ Em Hvm) as [_ Hd]. by apply absent_vms in Hd.
      + intros row Hrow. eapply loaded_later; [exact Hst| |exact Hrow]. eapply relies_trans; [exact H12|].
        by split; [apply (el_fence _ _ Ha)|intros j; apply (el_mentions _ _ Ha)].
    - intros a b n Hs Ha. eapply elsewhere_trans; [exact Ha|]. apply framed_elsewhere. unfold cancelSentinelStatement in Hs.
      destruct (runWhere _ a); [|by injection Hs as <- _]. revert Hs. apply on_store_frames. apply insertExecution_runs. }
  unfold run_batch. destruct (abatch stmts s2) as [[s3 ns]|c] eqn:Eb; cbn [fst snd].
  - specialize (He _ _ eq_refl). split; [by apply (el_ok _ _ He)|]. split; [by apply elsewhere_guarantees|].
    apply reads_secured, reads_hint.
  - split; [done|]. split; [apply guarantees_refl|]. destruct c as [[]|c| | |]; try done.
Qed.
Lemma cancel_secured runId' userId hostId vms s : sec (fun _ _ => True) s (cancelAdmittedRun runId' userId hostId vms).
Proof. intros now. apply cancel_from_secured. Qed.

(** ** Starting *)

Lemma accept_secured input source p hostId s : sec (fun _ _ => True) s (acceptRun input source p hostId).
Proof.
  unfold acceptRun. eapply secures_seq; [apply reads_secured, reads_still_active|]. intros s' [u|e] _.
  - apply reads_secured. apply reads_try; [apply reads_hint|]. intros ?. done.
  - eapply (secures_try _ _ _ (fun _ _ => True)); [|done]. eapply secures_weaken; [|apply cancel_secured]. by intros ? [?|?].
Qed.

Lemma attempts_secured requireRunCli keyFirst input source key scope p requested left s :
  prepared_ok runId p -> unused ids r s ->
  sec (fun _ _ => True) s (admissionAttempts requireRunCli keyFirst input source key scope p requested left).
Proof.
  intros [Hrun Hvms _ _ _ _]. revert s. induction left as [|left IH]; intros s Hu; [done|]. cbn [admissionAttempts].
  cbn [call req_bind secures]. intros allocatedAt.
  eapply (secures_try _ _ _ (fun s' al => unused ids r s' /\ planned (pr_cpuMillis p) s' al)).
  { eapply secures_weaken; [|by apply allocate_secured]. intros s' [al|e] [? ?]; by split. }
  clear s Hu. intros s al [Hu Hp]. eapply (secures_try _ _ _ (fun s' _ => unused ids r s' /\ planned (pr_cpuMillis p) s' al)).
  { eapply secures_weaken; [|apply (neutral_secured (fun _ => True)), reads_gate]. intros s' [?|?] [Hr _]; [|done].
    split; [by eapply unused_later|by eapply planned_later]. }
  clear s Hu Hp. intros s u [Hu Hp]. cbn [call req_bind secures]. intros now.
  eapply (secures_try _ _ _ (fun s' o => match o with cas_lost => unused ids r s' | _ => True end)).
  { eapply secures_weaken; [|by apply (commit_secured keyFirst _ (pr_cpuMillis p))]. by intros s' [[]|]. }
  intros s' [| | |e] Hu'.
  - apply accept_secured.
  - apply (reads_then _ _ _ Hu'); [apply reads_priority|]. intros s2 _ Hu2. apply (reads_then _ _ _ Hu2); [apply reads_source|].
    intros s3 _ Hu3. apply (reads_then _ _ _ Hu3); [apply reads_content|]. intros s4 _ Hu4. by apply IH.
  - apply reads_secured, reads_raced.
  - done.
Qed.

Lemma begin_secured requireRunCli keyFirst input s :
  unused ids r s -> sec (fun _ _ => True) s (beginScenarioRun requireRunCli keyFirst (ids r) input).
Proof.
  intros Hu. unfold beginScenarioRun, lift. apply (reads_then _ _ _ Hu); [apply reads_gate|]. clear s Hu. intros s _ Hu.
  apply (reads_then _ _ _ Hu); [done|]. clear s Hu. intros s key Hu. apply (reads_then _ _ _ Hu); [done|]. clear s Hu. intros s candidate Hu.
  cbn [call req_bind secures]. intros [|]; [|done]. cbn [negb].
  eapply secures_seq; [|intros s' result _; by intros _].
  unfold admitScenarioStart. apply (reads_then _ _ _ Hu); [done|]. clear s Hu. intros s found Hu.
  cbn [query req_bind secures]. intros s1 Hok1 Hr1. cbn [fst snd]. split; [done|]. split; [apply guarantees_refl|].
  pose proof (unused_later _ _ Hr1 Hu) as Hu1. destruct found as [source|]; [|by destruct candidate].
  apply (reads_then _ _ _ Hu1); [done|]. intros s2 course Hu2. apply (reads_then _ _ _ Hu2); [apply reads_active|]. intros s3 _ Hu3.
  apply (reads_then _ _ _ Hu3); [apply reads_stored|]. intros s4 replayed Hu4.
  destruct replayed as [stored|]; [apply reads_secured, reads_replay|]. destruct (hasActiveRun _ s1); [done|].
  unfold admitNewRun. apply (read_then (prepared_ok runId) _ _ _ Hu4); [apply prepare_neutral|]. intros s5 p Hu5 Hp.
  eapply (secures_seq _ _ _ (fun s' _ => unused ids r s')).
  { eapply secures_weaken; [|apply (reading_secured (fun _ => True) _ _ Hu5)]; [by intros ? ? [? _]|].
    by destruct (so_candidateProof source). }
  intros s6 [prepared|e] Hu6; [by apply attempts_secured|]. destruct (bool_decide _); [apply reads_secured, reads_raced|done].
Qed.
End secured.

(** * Starts side by side *)

(** Request [r] is a start, with ids of its own. *)
Definition start_request `{ReportJson} `{Collation} `{LoadOrder} (requireRunCli keyFirst : bool) (ids : nat -> nat -> string)
    (r : nat) (p : Start BeginScenarioRunResult) : Prop :=
  exists input, p = beginScenarioRun requireRunCli keyFirst (ids r) input.

(** C3. However many runs are started at once, and whatever the hosts, their reports
    and the rest of the system do in between, a step that reserves CPU on a host
    leaves no more reserved there than the report the host has at that moment says
    it can schedule. *)
Theorem admissions_never_overcommit `{ReportJson} `{Collation} `{LoadOrder} requireRunCli keyFirst ids s0 c c'
    (Hids : forall a b j j', ids a j = ids b j' -> a = b)
    (Hok : adm_ok s0) (Hnew : forall r, unused ids r s0)
    (Hreach : rtc (pool_step (start_request requireRunCli keyFirst ids) elsewhere) (mkPool s0 0 []) c)
    (Hstep : pool_step (start_request requireRunCli keyFirst ids) elsewhere c c') :
  forall host, reserved host (pl_state c) < reserved host (pl_state c') ->
  exists report capacity,
    reportOf (am_reports (pl_state c)) host = Some report /\
    strictCpuCapacity (Some (JSON_parse (rp_reportText report))) = Some capacity /\
    reserved host (pl_state c') <= sc_schedulableCpuMillis capacity.
Proof.
  assert (Hc : compatible (start_request requireRunCli keyFirst ids) elsewhere adm_ok (relies ids) (guarantees ids) (unused ids)).
  { split.
    - apply relies_refl.
    - intros r a b d. apply relies_trans.
    - intros r s s'. apply unused_later.
    - intros r r' s s' Hne _. by apply guarantees_relied.
    - intros s s' [He Hf _ Hm] Hs. split; [auto|]. intros r. by split; [|intros j; apply Hm].
    - intros r p s [input ->] _ Hu. by apply begin_secured. }
  destruct (pool_secures _ _ _ _ _ _ Hc s0 0%nat c c' Hok (fun r _ => Hnew r) Hreach Hstep) as (_ & _ & Hchange).
  intros host Hgrow. destruct Hchange as [E|[[_ _ Hr _]|[r (_ & Hf & _)]]].
  - rewrite E in Hgrow. lia.
  - specialize (Hr host). lia.
  - destruct (Hf host) as [?|(report & capacity & ? & ? & ?)]; [lia|eauto].
Qed.

Lemma admission_sample_ok : adm_ok AdmissionSample.store.
Proof. split; unfold keyed; cbn; try apply NoDup_singleton; constructor. Qed.
Lemma admission_sample_unused r : unused AdmissionSample.ids r AdmissionSample.store.
Proof. intros j [[]|[[]|(x & vm & [] & _)]]. Qed.

(** The commit of the sample's first start, the 28th access or call of it. *)
Module OvercommitSample.
Import AdmissionSample.
Definition at_step (n : nat) : Pool StartCall AdmDb (result StartError BeginScenarioRunResult) :=
  mkPool (fst (advanced answer n (start 0 "learner") store)) 1 ([] ++ [(0%nat, snd (advanced answer n (start 0 "learner") store))]).
End OvercommitSample.

Lemma admissions_never_overcommit_witness :
  reserved "host" (pl_state (OvercommitSample.at_step 27)) = 0 /\
  reserved "host" (pl_state (OvercommitSample.at_step 28)) = 4000 /\
  exists report capacity,
    reportOf (am_reports (pl_state (OvercommitSample.at_step 27))) "host" = Some report /\
    strictCpuCapacity (Some (@JSON_parse PlacementSample.parse (rp_reportText report))) = Some capacity /\
    reserved "host" (pl_state (OvercommitSample.at_step 28)) <= sc_schedulableCpuMillis capacity.
Proof.
  split; [vm_compute; reflexivity|]. split; [vm_compute; reflexivity|].
  apply (admissions_never_overcommit (H := PlacementSample.parse) (H0 := code_unit_collation) (H1 := PlacementSample.load) false true AdmissionSample.ids AdmissionSample.store
    (OvercommitSample.at_step 27) (OvercommitSample.at_step 28)).
  - exact AdmissionSample.ids_distinct.
  - exact admission_sample_ok.
  - exact admission_sample_unused.
  - apply pool_alone. eexists. reflexivity.
  - apply (pool_next _ _ AdmissionSample.answer 27 _ _ 1 []). vm_compute. reflexivity.
  - vm_compute. reflexivity.
Defined.
