(* ===== verification/AdmissionResults.v ===== *)
(** What a start leaves behind: all of a run or nothing of it, and the same run
    when it is asked again. *)
From stdpp Require Import base list strings.
From Stdlib Require Import ZArith Lia.
From S2P Require Import Prelude Json Text RunState Store BuildStore RuntimeExecutions Bridge DesiredState Capacity CpuReservations Access Placement RunNames Requests Interference AdmissionStore AdmissionRequests AdmissionSample AdmissionSafety.

Open Scope string_scope.
Open Scope list_scope.
Open Scope Z_scope.

(** * A run and everything that belongs to it *)

Section admitting.
Context `{ReportJson}.
Variable input : AdmissionCommitInput.

#[local] Abbreviation run := (ac_run input).
#[local] Abbreviation runId := (nr_runId run).
#[local] Abbreviation hostId := (nr_hostId run).
#[local] Abbreviation now := (ac_now input).

Definition admittedSlot : SlotRow := mkSlot (nr_userId run) runId (sr_createdAt (nr_row run)).
Definition admittedReservation : ReservationRow :=
  let d := ac_reservationResources input in
  mkReservation runId hostId (dm_cpuMillis d) (dm_memoryMib d) (dm_worstCaseDiskMib d) res_pending
    (Some (now + RUNTIME_PENDING_RESOURCE_RESERVATION_TTL_MS)) None now now.
Definition admittedCpu : CpuReservationRow :=
  mkCpuReservation runId hostId (ac_cpuMillis input) cpu_committed None now now.
Definition admittedVms (vms : list (string * RuntimeVmSpec)) : list RuntimeVmRow :=
  map (fun vm => newVmRow input runId (fst vm) (snd vm)) vms.
Definition admittedAccessKeys (vms : list (string * RuntimeVmSpec)) (keys : list (string * string)) : list AccessKeyRow :=
  zip_with (fun vm key => mkAccessKey (fst vm) runId (publicKeyOf input (spec_runtimeVmName (snd vm))) (fst key) (snd key) now)
    vms keys.

(** The state with the whole run in it: one row for each part of it, its VMs in the
    document of its host, and everything else as it was. *)
Definition admitted (s : AdmDb) : AdmDb :=
  let c := am_cpu s in
  let d := am_db s in
  let t := am_access s in
  mkAdm
    (mkCpuDb
       (mkDb (db_runs d ++ [nr_row run]) (db_executions d ++ [admissionExecution input]) (db_slots d ++ [admittedSlot])
          (db_reservations d ++ [admittedReservation]) (db_vms d ++ admittedVms (ac_runtimeVms input))
          (db_hosts d) (db_members d) (db_users d) (db_actual d))
       (cd_cpu c ++ [admittedCpu]) (update_where (desiredHit input) (writtenRow input) (cd_desired c)) (cd_actual c)
       (fun id => if id =s runId then nr_vmCount run else cd_vmCount c id))
    (mkAccess (at_catalogs t) (at_completions t) (at_scenarios t) (at_organizations t) (at_users t)
       (at_runs t ++ [nr_course run]) (at_credentials t))
    (am_settings s) (am_reports s) (am_requests s ++ [nr_request run]) (am_sshKeys s ++ ac_sshKeyRows input)
    (am_accessKeys s ++ admittedAccessKeys (ac_runtimeVms input) (ac_accessKeys input))
    (am_scenarioVms s) (am_candidates s) (am_builds s) (am_gates s).

(** What every start gives its commit. *)
Record admissible : Prop := mk_admissible {
  ad_execution : sr_runtimeExecutionId (nr_row run) = Some runId;
  ad_state : sr_state (nr_row run) = run_provisioning;
  ad_active : sr_activeKey (nr_row run) <> None;
  ad_sshKeys : Forall (fun k => sk_runId k = runId) (ac_sshKeyRows input);
}.

(** ** The statements after the run is inserted *)

Hypothesis Had : admissible.

(** The run is the last, and the only one of its id. *)
Definition holds_run (s : AdmDb) : Prop :=
  exists runs, db_runs (am_db s) = runs ++ [nr_row run] /\ forall r, In r runs -> sr_runId r <> runId.

Lemma holds_same s s' : db_runs (am_db s') = db_runs (am_db s) -> holds_run s -> holds_run s'.
Proof. intros E (runs & Hr & Hn). exists runs. by rewrite E. Qed.
Lemma find_run (p : RunRow -> bool) s :
  holds_run s -> (forall r, p r = true -> sr_runId r = runId) -> p (nr_row run) = true ->
  List.find p (db_runs (am_db s)) = Some (nr_row run).
Proof.
  intros (runs & -> & Hn) Hp Hrow. assert (E : List.find p runs = None).
  { apply find_none_all. intros r Hr. destruct (p r) eqn:Ep; [|done]. exfalso. apply (Hn r Hr). by apply Hp. }
  clear Hn. induction runs as [|r runs IH]; cbn in *; [by rewrite Hrow|]. destruct (p r); [done|]. by apply IH.
Qed.
Ltac find_now s Hs :=
  match goal with |- context [List.find ?p (db_runs ?d)] =>
    rewrite (find_run p s Hs);
      [|cbv beta; intros ? ?; reflect_bools; first [done|congruence]
       |cbv beta; rewrite ?(ad_state Had), ?(ad_execution Had); cbn; rewrite ?String.eqb_refl; try done]
  end.

Lemma sshKey_step key s s' n :
  holds_run s -> sk_runId key = runId -> sshKeyStatement input key s = Ok (s', n) ->
  s' = set_am_sshKeys s (am_sshKeys s ++ [key]).
Proof.
  intros Hs Hk. unfold sshKeyStatement, runWhere. rewrite Hk. find_now s Hs.
  - destruct (existsb _ _); [done|]. by intros [= <- _].
Qed.
Lemma sshKeys_step keys s s' ns :
  holds_run s -> Forall (fun k => sk_runId k = runId) keys -> abatch (map (sshKeyStatement input) keys) s = Ok (s', ns) ->
  s' = set_am_sshKeys s (am_sshKeys s ++ keys).
Proof.
  intros Hs Hk. revert s ns Hs. induction Hk as [|key keys Hkey _ IH]; intros s ns Hs; cbn [map].
  - intros [= <- _]. rewrite app_nil_r. by destruct s.
  - intros (s1 & n & ns1 & H1 & H2 & _)%abatch_cons. apply sshKey_step in H1 as ->; [|done..].
    apply IH in H2 as ->; [|by eapply holds_same]. cbn. by rewrite <- app_assoc.
Qed.

Lemma document_step s s' n :
  holds_run s -> desiredStateCasStatement input s = Ok (s', n) ->
  s' = set_am_cpu s (set_cd_desired (am_cpu s) (update_where (desiredHit input) (writtenRow input) (cd_desired (am_cpu s)))).
Proof.
  intros (runs & Hr & _). unfold desiredStateCasStatement. rewrite Hr, existsb_app. cbn.
  unfold nr_runId, nr_hostId. rewrite !String.eqb_refl, orb_true_r. by intros [= <- _].
Qed.

Lemma cpu_step s s' n d :
  holds_run s -> In d (cd_desired (am_cpu s)) -> dr_hostId d = hostId -> dr_version d = al_nextVersion (ac_desired input) ->
  cpuQuotaStatement input s = Ok (s', n) -> s' = set_am_cpu s (set_cpu (am_cpu s) (cd_cpu (am_cpu s) ++ [admittedCpu])).
Proof.
  intros Hs Hd Eh Ev. unfold cpuQuotaStatement, on_cpu, admissionCpuQuotaStatement.
  change (db_runs (cd_db (am_cpu s))) with (db_runs (am_db s)). find_now s Hs.
  - unfold insertCpuReservation. destruct (_ <=? 0); [done|]. destruct (existsb _ _); [done|]. by intros [= <- _].
  - apply existsb_exists. exists d. split; [done|]. rewrite Eh, Ev. unfold nr_hostId. by rewrite String.eqb_refl, Z.eqb_refl.
Qed.

Lemma run_execution s : holds_run s -> runExecution input s = Some runId.
Proof.
  intros Hs. unfold runExecution, runWhere. find_now s Hs. cbn. apply (ad_execution Had).
Qed.
Lemma vms_step vms keys stmts s s' ns :
  holds_run s -> runtimeVmStatements input vms keys = Some stmts -> abatch stmts s = Ok (s', ns) ->
  s' = set_am_accessKeys (set_am_db s (set_vms (am_db s) (db_vms (am_db s) ++ admittedVms vms)))
         (am_accessKeys s ++ admittedAccessKeys vms keys).
Proof.
  revert keys stmts s ns. induction vms as [|vm vms IH]; intros keys stmts s ns Hs; cbn [runtimeVmStatements].
  - intros [= <-] [= <- _]. cbn. rewrite !app_nil_r. by destruct s as [[[]]].
  - destruct keys as [|key keys]; [done|]. destruct (truthy _); [|done].
    destruct (runtimeVmStatements input vms keys) as [l|] eqn:El; [|done]. cbn. intros [= <-].
    intros (s1 & n1 & ns1 & H1 & Hb & _)%abatch_cons. apply abatch_cons in Hb as (s2 & n2 & ns2 & H2 & Hb & _).
    unfold runtimeVmStatement in H1. rewrite run_execution in H1 by done. unfold on_store, insertRuntimeVm in H1.
    destruct (existsb _ _) in H1; [done|]. injection H1 as <- _.
    unfold accessKeyStatement in H2. rewrite run_execution in H2 by (by eapply holds_same).
    destruct (existsb _ _) in H2; [done|]. injection H2 as <- _.
    eapply IH in Hb as ->; [|by eapply holds_same|done]. cbn. by rewrite <- !app_assoc.
Qed.

Lemma reservation_step s s' n :
  holds_run s -> resourceReservationStatement input s = Ok (s', n) ->
  s' = set_am_db s (set_reservations (am_db s) (db_reservations (am_db s) ++ [admittedReservation])).
Proof.
  intros Hs. unfold resourceReservationStatement, admissionResourceReservationStatement.
  change (db_runs (cd_db (am_cpu s))) with (db_runs (am_db s)). find_now s Hs. rewrite (ad_execution Had).
  destruct (_ || _); [done|]. unfold insertReservation. destruct (existsb _ _); [done|]. by intros [= <- _].
Qed.
Lemma slot_step s s' n :
  holds_run s -> activeSlotStatement input s = Ok (s', n) ->
  s' = set_am_db s (set_slots (am_db s) (db_slots (am_db s) ++ [admittedSlot])).
Proof.
  intros Hs. unfold activeSlotStatement, runWhere. find_now s Hs.
  - rewrite (ad_execution Had). unfold on_store, insertSlot. destruct (first_conflict _ _ _); [done|]. by intros [= <- _].
  - pose proof (ad_active Had). by destruct (sr_activeKey _).
Qed.
End admitting.

(** ** Without the run, nothing happens *)

Definition idle (s : AdmDb) (f : AdmStmt) : Prop := forall s' n, f s = Ok (s', n) -> s' = s.
Lemma abatch_idle stmts s s' ns : Forall (idle s) stmts -> abatch stmts s = Ok (s', ns) -> s' = s.
Proof.
  intros Hf. revert ns. induction Hf as [|f stmts Hf _ IH]; intros ns; [by intros [= <- _]|].
  intros (s1 & n & ns' & H1 & H2 & _)%abatch_cons. apply Hf in H1 as ->. eauto.
Qed.

Section refused.
Context `{ReportJson}.
Variable input : AdmissionCommitInput.
Variable s : AdmDb.

#[local] Abbreviation run := (ac_run input).
#[local] Abbreviation runId := (nr_runId run).

Hypothesis Had : admissible input.
Hypothesis Hnone : forall r, In r (db_runs (am_db s)) -> sr_runId r <> runId.

Lemma find_no_run (p : RunRow -> bool) :
  (forall r, p r = true -> sr_runId r = runId) -> List.find p (db_runs (am_db s)) = None.
Proof. intros Hp. apply find_none_all. intros r Hr. destruct (p r) eqn:E; [|done]. exfalso. by apply (Hnone r), Hp. Qed.
Ltac no_run :=
  match goal with |- context [List.find ?p (db_runs ?d)] =>
    rewrite (find_no_run p); [|cbv beta; intros ? ?; reflect_bools; first [done|congruence]] end.

Lemma execution_idle : activeAccount (am_db s) (nr_userId run) = false -> idle s (runtimeExecutionStatement input).
Proof.
  intros Ha s' n. unfold runtimeExecutionStatement. destruct (existsb _ _) eqn:E; [|by intros [= <- _]].
  apply existsb_exists in E as (h & _ & E). unfold placedForRun, metalPlacementForUser in E. rewrite Ha in E.
  by rewrite andb_false_r in E.
Qed.
Lemma sshKeys_idle : Forall (idle s) (sshKeyStatements input).
Proof.
  unfold sshKeyStatements. apply Forall_map. eapply Forall_impl; [apply (ad_sshKeys _ Had)|]. intros key Hk s' n.
  unfold sshKeyStatement, runWhere. rewrite Hk. no_run. by intros [= <- _].
Qed.
Lemma document_idle : idle s (desiredStateCasStatement input).
Proof.
  intros s' n. unfold desiredStateCasStatement. destruct (existsb _ _) eqn:E; [|by intros [= <- _]].
  apply existsb_exists in E as (r & Hr & E). reflect_bools. by destruct (Hnone r).
Qed.
Lemma sentinel_idle : idle s (casSentinelStatement input).
Proof. intros s' n. unfold casSentinelStatement, runWhere. no_run. by intros [= <- _]. Qed.
Lemma cpu_idle : idle s (cpuQuotaStatement input).
Proof.
  intros s' n. unfold cpuQuotaStatement, on_cpu, admissionCpuQuotaStatement.
  change (db_runs (cd_db (am_cpu s))) with (db_runs (am_db s)). no_run. intros [= <- _]. by destruct s.
Qed.
Lemma no_execution : runExecution input s = None.
Proof. unfold runExecution, runWhere. by no_run. Qed.
Lemma vms_idle vms keys stmts : runtimeVmStatements input vms keys = Some stmts -> Forall (idle s) stmts.
Proof.
  revert keys stmts. induction vms as [|vm vms IH]; intros [|k keys] stmts; cbn [runtimeVmStatements]; try done;
    [intros [= <-]; constructor..|].
  destruct (truthy _); [|done]. destruct (runtimeVmStatements input vms keys) as [l|] eqn:E; [|done]. cbn. intros [= <-].
  constructor; [|constructor; [|eauto]]; intros s' n; unfold runtimeVmStatement, accessKeyStatement; rewrite no_execution; by intros [= <- _].
Qed.
Lemma reservation_idle : idle s (resourceReservationStatement input).
Proof.
  intros s' n. unfold resourceReservationStatement, admissionResourceReservationStatement.
  change (db_runs (cd_db (am_cpu s))) with (db_runs (am_db s)). no_run. intros [= <- _]. by destruct s.
Qed.
Lemma slot_idle : idle s (activeSlotStatement input).
Proof. intros s' n. unfold activeSlotStatement, runWhere. no_run. by intros [= <- _]. Qed.
End refused.

(** * The whole batch *)

Section batch.
Context `{ReportJson}.
Variable keyFirst : bool.
Variable databaseNow : Z.
Variable input : AdmissionCommitInput.

#[local] Abbreviation run := (ac_run input).
#[local] Abbreviation runId := (nr_runId run).
#[local] Abbreviation hostId := (nr_hostId run).

Hypothesis Had : admissible input.

Lemma execution_step s s' n :
  runtimeExecutionStatement input s = Ok (s', n) ->
  (s' = s /\ forall h, In h (db_hosts (am_db s)) -> admittingHost databaseNow input s h = false) \/
  activeAccount (am_db s) (nr_userId run) = true
            /\ s' = set_am_db s (set_executions (am_db s) (db_executions (am_db s) ++ [admissionExecution input])).
Proof.
  unfold runtimeExecutionStatement. destruct (existsb _ _) eqn:E.
  2: { intros [= <- _]. left. split; [done|]. intros h Hh. apply (existsb_none _ _ h) in E; [|done]. cbv beta in E.
       unfold admittingHost. destruct (_ =s _), (ah_disabled h), (placedForRun input s h); try done; by rewrite ?andb_false_r. }
  apply existsb_exists in E as (h & _ & E). apply andb_prop in E as [_ E]. unfold placedForRun, metalPlacementForUser in E. apply andb_prop in E as [E _].
  apply andb_prop in E as [E _]. unfold on_store, insertExecution. destruct (_ <=? _); [done|].
  destruct (first_conflict _ _ _); [done|]. intros [= <- _]. by right.
Qed.
Lemma refused_aborts s s' n :
  runRefusedSentinelStatement input s = Ok (s', n) ->
  s' = s /\ (activeAccount (am_db s) (nr_userId run) = true -> exists r, In r (db_runs (am_db s)) /\ sr_runId r = runId).
Proof.
  unfold runRefusedSentinelStatement. destruct (existsb _ _) eqn:E; cbn [negb andb].
  - intros [= <- _]. split; [done|]. intros _. apply existsb_exists in E as (r & Hr & Er%String.eqb_eq). eauto.
  - destruct (activeAccount _ _); [done|]. by intros [= <- _].
Qed.
Lemma run_step s s' n :
  insertRunStatement keyFirst databaseNow input s = Ok (s', n) ->
  s' = s /\ n = 0 \/
  n = 1 /\ (exists h, In h (db_hosts (am_db s)) /\ admittingHost databaseNow input s h = true) /\
  let c := am_cpu s in let t := am_access s in
  s' = mkAdm (mkCpuDb (set_runs (am_db s) (db_runs (am_db s) ++ [nr_row run])) (cd_cpu c) (cd_desired c) (cd_actual c)
               (fun id => if id =s runId then nr_vmCount run else cd_vmCount c id))
         (mkAccess (at_catalogs t) (at_completions t) (at_scenarios t) (at_organizations t) (at_users t)
            (at_runs t ++ [nr_course run]) (at_credentials t))
         (am_settings s) (am_reports s) (am_requests s ++ [nr_request run]) (am_sshKeys s) (am_accessKeys s)
         (am_scenarioVms s) (am_candidates s) (am_builds s) (am_gates s).
Proof.
  unfold insertRunStatement. destruct (existsb _ _) eqn:Eh; [|intros [= <- <-]; by left].
  apply existsb_exists in Eh. unfold insertScenarioRun. destruct (existsb _ _ && _); [done|]. destruct (negb _); [done|].
  destruct (negb _); [done|]. intros [= <- <-]. by right.
Qed.

(** A batch that goes through does nothing, or is the admission. *)
Lemma batch_admits stmts s s' ns
  (Hok : adm_ok s) (Hnew : ~ mentions runId s)
  (Hst : admissionStatements keyFirst databaseNow input = Some stmts) (Hb : abatch stmts s = Ok (s', ns)) :
  (nth 1 ns 0 = 0 /\ s' = s) \/
  (nth 1 ns 0 = 1 /\ s' = admitted input s /\
   exists row, findDesired (hostDocuments s) hostId = Some row /\ dr_version row = al_expectedVersion (ac_desired input) /\
     namesRun runId (writtenRow input row) = true).
Proof.
  assert (Hnone : forall r, In r (db_runs (am_db s)) -> sr_runId r <> runId).
  { intros r Hr Er. apply Hnew. left. rewrite <- Er. by apply in_map. }
  pose proof (batch_cases _ _ _ _ _ _ _ Hok Hnew Hst Hb) as Hcases.
  unfold admissionStatements in Hst. destruct (runtimeVmStatements input _ _) as [vms|] eqn:Ev; [|done].
  cbn [mbind option_bind] in Hst. injection Hst as <-. cbn [app] in Hb.
  apply abatch_cons in Hb as (s1 & n0 & ns1 & He & Hb & ->). apply execution_step in He.
  apply abatch_cons in Hb as (s2 & n1 & ns2 & Hi & Hb & ->). cbn [nth] in Hcases |- *. apply run_step in Hi.
  apply abatch_cons in Hb as (s3 & n2 & ns3 & Hr & Hb & ->). apply refused_aborts in Hr as [-> Hr].
  destruct Hi as [[-> ->]|(-> & (h & Hh & Hadm) & Hs2)].
  - left. split; [done|]. destruct He as [[-> _]|[Ha ->]].
    + eapply abatch_idle; [|exact Hb]. apply Forall_app. split; [by apply sshKeys_idle|].
      constructor; [by apply document_idle|]. constructor; [by apply sentinel_idle|]. constructor; [by apply cpu_idle|].
      apply Forall_app. split; [by eapply vms_idle|].
      constructor; [by apply reservation_idle|]. constructor; [by apply slot_idle|constructor].
    + destruct (Hr Ha) as (r & Hin & Er). by destruct (Hnone r).
  - right. split; [done|]. cbv zeta in Hs2.
    destruct He as [[-> Hno]|[Ha ->]]; [by rewrite (Hno h Hh) in Hadm|].
    assert (Hold : holds_run input s2) by (subst s2; eexists; split; [reflexivity|exact Hnone]).
    apply abatch_app in Hb as (s4 & n3 & n4 & Hk & Hb & ->). apply sshKeys_step in Hk as E4; [|done|done|apply (ad_sshKeys _ Had)].
    assert (Hold4 : holds_run input s4) by (subst s4; by eapply holds_same).
    apply abatch_cons in Hb as (s5 & n5 & ns5 & Hc & Hb & ->). apply document_step in Hc; [|done..].
    apply abatch_cons in Hb as (s6 & n6 & ns6 & Hs & Hb & ->). apply sentinel_passed in Hs as [-> Hs].
    assert (Hold5 : holds_run input s5) by (subst s5; by eapply holds_same).
    destruct (Hs (nr_row run)) as (d & Hd & Eh & Hn); [|done|].
    { destruct Hold5 as (runs & -> & _). apply in_app_iff. right. by left. }
    assert (Edocs : cd_desired (am_cpu s5) = update_where (desiredHit input) (writtenRow input) (cd_desired (am_cpu s)))
      by by subst.
    destruct Hcases as [[? _]|[_ (row & Hcm)]]; [done|].
    assert (Hwritten : dr_version d = al_nextVersion (ac_desired input) /\ dr_docJson d = al_nextDoc (ac_desired input)).
    { pose proof Hd as Hd0. rewrite Edocs in Hd0. apply in_map_iff in Hd0 as (d0 & <- & Hd0).
      destruct (desiredHit input d0); [done|]. exfalso. apply Hnew. right; right.
      unfold namesRun in Hn. apply existsb_exists in Hn as (vm & Hvm & E%String.eqb_eq). eauto. }
    destruct Hwritten as [Ever Edoc].
    apply abatch_cons in Hb as (s7 & n7 & ns7 & Hq & Hb & ->). eapply cpu_step in Hq; [|done..].
    assert (Hold7 : holds_run input s7) by (subst s7; by eapply holds_same).
    apply abatch_app in Hb as (s8 & n8 & n9 & Hv & Hb & ->). eapply vms_step in Hv; [|done..].
    assert (Hold8 : holds_run input s8) by (subst s8; by eapply holds_same).
    apply abatch_cons in Hb as (s9 & n10 & ns10 & Hres & Hb & ->). apply reservation_step in Hres; [|done..].
    assert (Hold9 : holds_run input s9) by (subst s9; by eapply holds_same).
    apply abatch_cons in Hb as (s10 & n11 & ns11 & Hslot & Hb & ->). apply slot_step in Hslot; [|done..].
    injection Hb as <- _. split.
    + clear -Hs2 E4 Hc Hq Hv Hres Hslot. subst. reflexivity.
    + exists row. split; [apply (cm_row _ _ _ _ Hcm)|]. split; [apply (cm_version _ _ _ _ Hcm)|].
      unfold namesRun in *. by rewrite Edoc in Hn.
Qed.
End batch.

(** * Requests alone *)

Lemma answered_neutral {E S A} (answer : forall B, E B -> B) (Q : A -> Prop) (p : Req E S A) s :
  neutral Q p -> fst (answered answer p s) = s /\ Q (snd (answered answer p s)).
Proof.
  revert s. induction p as [a|B f k IH|B c k IH]; intros s; cbn; [done| |auto]. intros Hp.
  destruct (Hp s) as [E' Hk]. destruct (IH (snd (f s)) (fst (f s)) Hk) as [E2 ?]. split; [congruence|done].
Qed.
Lemma answered_reads {E S A} (answer : forall B, E B -> B) (p : Req E S A) s : reads p -> fst (answered answer p s) = s.
Proof. intros Hp. by destruct (answered_neutral answer _ _ s Hp). Qed.

Lemma prepared_admissible ids start source course key scope answer s s' p allocated allowDrained now :
  answered answer (prepareRun ids start source course key scope) s = (s', Ok p) ->
  nr_runId (pr_run p) = ids 0%nat /\ admissible (commitInput p source allocated allowDrained now).
Proof.
  intros E. destruct (answered_neutral answer _ _ s (prepare_neutral ids start source course key scope)) as [_ Hp].
  rewrite E in Hp. cbn in Hp. destruct Hp as [Hr _ He Hs Ha Hk]. split; [done|].
  split; cbn; unfold nr_runId in *; cbn; [by rewrite Hr|done|done|]. by rewrite Hr.
Qed.

(** A commit, whatever state it meets. *)
Lemma commit_cases `{ReportJson} keyFirst input answer s s' outcome
    (Had : admissible input) (Hok : adm_ok s) (Hnew : ~ mentions (nr_runId (ac_run input)) s)
    (Hrun : answered answer (commitAdmissionBatch keyFirst input) s = (s', outcome)) :
  (outcome = Ok committed /\ s' = admitted input s /\
   exists row, findDesired (hostDocuments s) (nr_hostId (ac_run input)) = Some row /\
     dr_version row = al_expectedVersion (ac_desired input) /\
     namesRun (nr_runId (ac_run input)) (writtenRow input row) = true) \/
  (outcome <> Ok committed /\ s' = s).
Proof.
  unfold commitAdmissionBatch in Hrun. cbn [call req_bind answered] in Hrun.
  destruct (admissionStatements keyFirst (answer _ DatabaseClock) input) as [stmts|] eqn:Est.
  2: { injection Hrun as <- <-. by right. }
  cbn [transaction req_bind answered] in Hrun. unfold run_batch in Hrun.
  destruct (abatch stmts s) as [[s2 ns]|c] eqn:Eb; cbn [fst snd] in Hrun.
  - destruct (batch_admits _ _ _ Had _ _ _ _ Hok Hnew Est Eb) as [[En ->]|(En & -> & row & Hrow & Hv & Hn)];
      rewrite En in Hrun; cbn [Z.eqb] in Hrun.
    + right. unfold req_try in Hrun. rewrite answered_bind, answered_reads in Hrun by apply reads_refusal.
      by destruct (snd _); injection Hrun as <- <-.
    + left. injection Hrun as <- <-. split; [done|]. split; [done|]. by exists row.
  - right. assert (Hreads : neutral (fun o => o <> Ok committed)
      match c with
      | of_store ck_runtime_executions_generation_positive => ok cas_lost
      | uq_request_idempotency => ok duplicate_key
      | _ => if isActiveKeyUniqueViolation c then
               stored <-! loadRunByIdempotencyKey (nr_userId (ac_run input))
                            (nullish (rq_requestIdempotencyKey (nr_request (ac_run input))) "");
               match stored with Some _ => ok duplicate_key | None => ok (commit_error activeRunConflictError) end
             else ok (commit_error (start_rejected c))
      end%req).
    { destruct c as [[]|c| | |]; cbn [isActiveKeyUniqueViolation]; try done;
        intros s3; (split; [done|]); cbn; by destruct (storedByKey _ _ s3). }
    destruct (answered_neutral answer _ _ s Hreads) as [E1 E2]. rewrite Hrun in E1, E2. cbn in E1, E2. by split.
Qed.

(** C6. What a start prepared is committed as a whole or not at all, whatever state
    the commit meets: it answers that it committed exactly when every row of the run
    is there, its VMs stand in the next version of its host's document and nothing
    else changed; every other answer, refusals of each kind included, leaves the
    state as it was. *)
Theorem admission_is_all_or_nothing `{ReportJson} keyFirst ids start source course key scope prepares s0 s1 p
    allocated allowDrained now answer s s' outcome
    (Hprepared : answered prepares (prepareRun ids start source course key scope) s0 = (s1, Ok p))
    (Hok : adm_ok s) (Hnew : ~ mentions (ids 0%nat) s)
    (Hrun : answered answer (commitAdmissionBatch keyFirst (commitInput p source allocated allowDrained now)) s = (s', outcome)) :
  (outcome = Ok committed /\ s' = admitted (commitInput p source allocated allowDrained now) s /\
   exists row, findDesired (hostDocuments s) (al_hostId allocated) = Some row /\
     dr_version row = al_expectedVersion allocated /\
     existsb (fun vm => dv_run_id vm =s ids 0%nat) (ds_vms (al_nextDoc allocated)) = true) \/
  (outcome <> Ok committed /\ s' = s).
Proof.
  destruct (prepared_admissible _ _ _ _ _ _ _ _ _ _ allocated allowDrained now Hprepared) as [Hid Had].
  rewrite <- Hid in Hnew |- *. destruct (commit_cases _ _ _ _ _ _ Had Hok Hnew Hrun) as [(Ho & Es & row & Hr & Hv & Hn)|?]; [left|by right].
  split; [done|]. split; [done|]. by exists row.
Qed.

(** The commit of the sample's first start, on the host it is given. *)
Module CommitSample.
Import PlacementSample AdmissionSample.
Definition prepares : Start PreparedRun :=
  prepareRun (ids 0) (input "learner") source course "key-0001" (scenarioStartRequestScope (input "learner")).
Definition prepared : PreparedRun.
Proof.
  let r := eval vm_compute in (snd (answered answer prepares store)) in
  match r with Ok ?p => exact p end.
Defined.
Definition allocates : Start AdmissionHostAllocation :=
  allocateAdmissionHost (H0 := code_unit_collation) false "learner" None None (pr_requiredImages prepared) (pr_resources prepared)
    (pr_cpuMillis prepared) 1000 (pr_desiredVms prepared) (pr_guestTools prepared).
Definition allocation : AdmissionHostAllocation.
Proof.
  let r := eval vm_compute in (snd (answered answer allocates store)) in
  match r with Ok ?a => exact a end.
Defined.
Definition before : AdmDb.
Proof.
  let s := eval vm_compute in (fst (answered answer allocates store)) in
  exact s.
Defined.
Definition input : AdmissionCommitInput := commitInput prepared source allocation false 1000.
Definition after : AdmDb * result StartError AdmissionCommitOutcome := answered answer (commitAdmissionBatch true input) before.
End CommitSample.

Lemma admission_is_all_or_nothing_witness :
  snd CommitSample.after = Ok committed /\ fst CommitSample.after = admitted CommitSample.input CommitSample.before.
Proof.
  assert (Ho : snd CommitSample.after = Ok committed) by (vm_compute; reflexivity). split; [exact Ho|].
  destruct (admission_is_all_or_nothing (H := PlacementSample.parse) true (AdmissionSample.ids 0) (AdmissionSample.input "learner") AdmissionSample.source
    AdmissionSample.course "key-0001" (scenarioStartRequestScope (AdmissionSample.input "learner")) AdmissionSample.answer
    AdmissionSample.store (fst (answered AdmissionSample.answer CommitSample.prepares AdmissionSample.store)) CommitSample.prepared
    CommitSample.allocation false 1000 AdmissionSample.answer CommitSample.before (fst CommitSample.after) (snd CommitSample.after))
    as [(_ & E & _)|[E _]].
  - vm_compute. reflexivity.
  - split; unfold keyed; cbn; try apply NoDup_singleton; constructor.
  - intros [[]|[[]|(x & vm & [<-|[]] & [] & _)]].
  - vm_compute. reflexivity.
  - exact E.
  - by rewrite Ho in E.
Defined.
