(* ===== verification/AdmissionReplay.v ===== *)
(** Asking again: a start whose key was accepted before is answered with the run it
    was accepted for. *)
From stdpp Require Import base list strings.
From Stdlib Require Import ZArith Lia.
From S2P Require Import Prelude Json Text RunState Store BuildStore RuntimeExecutions Bridge DesiredState Capacity CpuReservations Access Placement RunNames Requests Interference AdmissionStore AdmissionRequests AdmissionSample AdmissionSafety AdmissionResults.

Open Scope string_scope.
Open Scope list_scope.
Open Scope Z_scope.
Open Scope req_scope.

(** * A request alone *)

Section alone.
Context {E : Type -> Type} {S X : Type}.
Variable answer : forall B, E B -> B.

Lemma answered_try {A B} (p : Req E S (result X A)) (k : A -> Req E S (result X B)) s s' b :
  answered answer (req_try p k) s = (s', Ok b) ->
  exists s1 a, answered answer p s = (s1, Ok a) /\ answered answer (k a) s1 = (s', Ok b).
Proof.
  unfold req_try. rewrite answered_bind. destruct (answered answer p s) as [s1 [a|e]]; cbn [fst snd]; [|by intros [= _]].
  intros Hk. by exists s1, a.
Qed.

Lemma read_past {A} (p : Req E S A) s s' a : answered answer p s = (s', a) -> reads p -> s' = s.
Proof. intros Ep Hr. pose proof (answered_reads answer p s Hr) as R. by rewrite Ep in R. Qed.

(** What a request secures, it ends with when nothing interferes. *)
Lemma secures_answered {A} (I : S -> Prop) (R G : S -> S -> Prop) (Q : S -> A -> Prop) (p : Req E S A) s :
  (forall s, R s s) -> I s -> secures I R G Q s p ->
  I (fst (answered answer p s)) /\ Q (fst (answered answer p s)) (snd (answered answer p s)).
Proof.
  intros Hr. revert s. induction p as [a|B f k IH|B c k IH]; intros s Hi Hp; cbn in *; [done| |auto].
  destruct (Hp s Hi (Hr s)) as (? & _ & ?). by apply IH.
Qed.
End alone.

(** Only documents of hosts change. *)
Definition documents_only (s s' : AdmDb) : Prop := exists rows, s' = set_am_cpu s (set_cd_desired (am_cpu s) rows).
#[export] Instance documents_only_preorder : PreOrder documents_only.
Proof.
  split.
  - intros s. exists (cd_desired (am_cpu s)). by destruct s as [[]].
  - intros a b c [rows ->] [rows' ->]. by exists rows'.
Qed.
Definition documents {A} (p : Req StartCall AdmDb A) : Prop :=
  upholds (fun _ => True) documents_only (fun _ _ => True) (fun _ => True) p.
Lemma documents_answered {A} answer (p : Req StartCall AdmDb A) s : documents p -> documents_only s (fst (answered answer p s)).
Proof.
  unfold documents. revert s. induction p as [a|B f k IH|B c k IH]; intros s Hp; cbn in *; [reflexivity| |by apply IH, Hp].
  destruct (Hp s I) as (_ & Ht & Hk). etrans; [exact Ht|by apply IH].
Qed.
Lemma documents_reads {A} (p : Req StartCall AdmDb A) : reads p -> documents p.
Proof.
  unfold documents, reads. induction p as [a|B f k IH|B c k IH]; intros Hp; cbn in *; [done| |auto].
  intros s _. destruct (Hp s) as [-> Hk]. split; [done|]. split; [reflexivity|auto].
Qed.
Lemma documents_try {A B} (p : Start A) (k : A -> Start B) : documents p -> (forall a, documents (k a)) -> documents (req_try p k).
Proof.
  unfold documents. intros Hp Hk. apply (upholds_try _ _ _ (fun _ => True)); [|intros a _; apply Hk|done].
  eapply upholds_weaken; [|exact Hp]. by intros [?|?].
Qed.

Section allocating.
Context `{ReportJson} `{Collation} `{LoadOrder}.

Lemma documents_load hostId now : documents (loadOrCreateDesired hostId now).
Proof.
  unfold loadOrCreateDesired. intros s _. split; [done|]. split; [reflexivity|]. cbn [fst snd].
  destruct (hostOwnership _ _) as [o|e]; [|done]. clear s.
  induction MUTATE_DESIRED_STATE_MAX_ATTEMPTS as [|n IH]; [done|]. cbn [loadDesiredFrom]. intros s _.
  split; [done|]. split; [reflexivity|]. cbn [fst snd]. destruct (findDesired _ _); [done|]. intros s' _. split; [done|].
  unfold insertDesiredRow. destruct (insertDesired _ _) as [d b]. cbn. split; [by exists (dd_rows d)|]. by destruct b.
Qed.
Lemma documents_plan requireRunCli hostId userId org images explicit now cpuMillis resources desiredVms tools :
  documents (planHost requireRunCli hostId userId org images explicit now cpuMillis resources desiredVms tools).
Proof.
  unfold planHost. apply documents_try; [apply documents_load|]. intros current. apply documents_reads.
  unfold ok, throw. repeat first [progress reading | match goal with |- reads (if ?b then _ else _) => destruct b end].
Qed.
Lemma documents_allocate requireRunCli userId org requested images resources cpuMillis now desiredVms tools :
  documents (allocateAdmissionHost requireRunCli userId org requested images resources cpuMillis now desiredVms tools).
Proof.
  unfold allocateAdmissionHost. apply documents_try; [apply documents_reads, reads_candidates|]. intros hosts.
  apply documents_try; [|intros [?|]; done]. unfold planAdmissionHost.
  induction (Set_new hosts) as [|h rest IH]; [done|]. cbn [firstPlanned]. apply documents_try; [apply documents_plan|].
  intros [?|]; [done|exact IH].
Qed.
End allocating.

(** * The run of a key *)

(** The columns of a run's row are kept in three lists. *)
Record aligned (s : AdmDb) : Prop := mk_aligned {
  al_requests : map rq_runId (am_requests s) = map sr_runId (db_runs (am_db s));
  al_courses : map rk_runId (at_runs (am_access s)) = map sr_runId (db_runs (am_db s));
}.
(** A stored run is what an accepted start answered. *)
Definition answers (scope : ScenarioStartRequestScope) (stored : StoredIdempotentRun) (res : BeginScenarioRunResult) : Prop :=
  si_requestScopeJson stored = Some scope /\
  res = mkAccepted (si_runId stored) (si_scenarioId stored) (si_acceptedAt stored) (br_reused res) (Some (si_hostId stored)).

Lemma find_present {A} (key : A -> string) id l : In id (map key l) -> exists x, List.find (fun x => key x =s id) l = Some x.
Proof.
  intros (x & <- & Hx)%in_map_iff. destruct (List.find _ l) as [y|] eqn:E; [eauto|].
  pose proof (List.find_none _ _ E x Hx) as Hn. cbn in Hn. by rewrite String.eqb_refl in Hn.
Qed.
Lemma find_fresh {A} (key : A -> string) (p : A -> bool) l x :
  (forall y, p y = true -> key y = key x) -> ~ In (key x) (map key l) -> p x = true -> List.find p (l ++ [x]) = Some x.
Proof.
  intros Hp Hn Hx. induction l as [|y l IH]; cbn; [by rewrite Hx|]. destruct (p y) eqn:Ey; [|apply IH; intros ?; apply Hn; by right].
  exfalso. apply Hn. left. by apply Hp.
Qed.

Lemma stored_none userId key s :
  aligned s -> storedByKey userId key s = None ->
  List.find (fun q => (rq_userId q =s userId) && sql_eq (rq_requestIdempotencyKey q) (Some key)) (am_requests s) = None.
Proof.
  intros [Hr Hc]. unfold storedByKey, runWhere. destruct (List.find _ (am_requests s)) as [q|] eqn:E; [|done]. cbn.
  apply find_some in E as [Hq _]. apply (in_map rq_runId) in Hq.
  destruct (find_present sr_runId (rq_runId q) (db_runs (am_db s))) as [r ->]; [by rewrite <- Hr|].
  destruct (find_present rk_runId (rq_runId q) (at_runs (am_access s))) as [k ->]; [by rewrite Hc, <- Hr|]. done.
Qed.

(** An admitted run is stored under its key. *)
Lemma stored_admitted input userId key s :
  let run := ac_run input in
  aligned s -> ~ In (nr_runId run) (map sr_runId (db_runs (am_db s))) -> storedByKey userId key s = None ->
  rq_userId (nr_request run) = userId -> rq_requestIdempotencyKey (nr_request run) = Some key ->
  rq_runId (nr_request run) = nr_runId run -> rk_runId (nr_course run) = nr_runId run ->
  storedByKey userId key (admitted input s) =
    Some (mkStored (nr_runId run) (rk_scenarioId (nr_course run)) (nr_hostId run)
            (rq_requestScopeJson (nr_request run)) (sr_createdAt (nr_row run))).
Proof.
  intros run Ha Hn Hs Hu Hk Hq Hc. pose proof (stored_none _ _ _ Ha Hs) as Hnone. destruct Ha as [Hr Hco].
  unfold storedByKey, runWhere. cbn -[String.eqb sql_eq]. fold run.
  assert (E : forall p : RunRequest -> bool, List.find p (am_requests s) = None -> p (nr_request run) = true ->
    List.find p (am_requests s ++ [nr_request run]) = Some (nr_request run)).
  { intros p. generalize (am_requests s). intros l. induction l as [|x l IH]; cbn; [by intros _ ->|]. by destruct (p x). }
  rewrite E by (first [done | cbv beta; rewrite Hu, Hk, String.eqb_refl; cbn; apply String.eqb_refl]). cbn [mbind option_bind]. rewrite Hq.
  rewrite (find_fresh sr_runId (fun r => sr_runId r =s nr_runId run) _ (nr_row run));
    [|by intros y ?%String.eqb_eq|done|apply String.eqb_refl]. cbn [mbind option_bind].
  rewrite (find_fresh rk_runId (fun k => rk_runId k =s nr_runId run) _ (nr_course run));
    [done|intros y ?%String.eqb_eq; congruence|by rewrite Hc, Hco|rewrite Hc; apply String.eqb_refl].
Qed.

(** * What an accepted start leaves *)

Definition same_fences (s s' : AdmDb) : Prop := am_gates s' = am_gates s /\ db_users (am_db s') = db_users (am_db s).

Section starting.
Context `{ReportJson} `{Collation} `{LoadOrder}.
Variable answer : forall B, StartCall B -> B.
Variable requireRunCli keyFirst : bool.
Variable ids : nat -> string.
Variable input : BeginScenarioRunInput.

#[local] Abbreviation userId := (bs_userId input).
#[local] Abbreviation scope := (scenarioStartRequestScope input).

Lemma gate_open allow s s' u :
  answered answer (assertAgentKvmRunsOpen allow) s = (s', Ok u) -> s' = s /\ runsHeldCondition allow s = false.
Proof. unfold assertAgentKvmRunsOpen. cbn. destruct (runsHeldCondition allow s); [by intros [= _]|by intros [= <- _]]. Qed.
Lemma account_active s s' u :
  answered answer (assertAccountActive userId) s = (s', Ok u) -> s' = s /\ activeAccount (am_db s) userId = true.
Proof. unfold assertAccountActive. cbn. destruct (activeAccount _ _); [by intros [= <- _]|by intros [= _]]. Qed.
Lemma replay_answers stored s s' res :
  answered answer (replayOf scope stored) s = (s', Ok res) -> s' = s /\ answers scope stored res.
Proof.
  unfold replayOf, lift, assertReplayMatchesScope. destruct (bool_decide _) eqn:E; [|by intros [= _]].
  apply bool_decide_eq_true in E. cbn. by intros [= <- <-].
Qed.
Lemma raced_answers key e s s' res :
  answered answer (replayRaced input key scope e) s = (s', Ok res) ->
  s' = s /\ exists stored, storedByKey userId key s = Some stored /\ answers scope stored res.
Proof.
  unfold replayRaced. intros (s1 & stored & E1 & E2)%answered_try. cbn in E1. injection E1 as <- <-.
  destruct (storedByKey _ _ s) as [stored|]; [|by injection E2].
  apply replay_answers in E2 as [-> ?]. split; [done|]. by exists stored.
Qed.
Lemma accept_answers source p hostId s s' res :
  answered answer (acceptRun input source p hostId) s = (s', Ok res) ->
  s' = s /\ res = mkAccepted (nr_runId (pr_run p)) (so_scenarioId source) (sr_createdAt (nr_row (pr_run p))) false (Some hostId).
Proof.
  unfold acceptRun. rewrite answered_bind, answered_reads by apply reads_still_active.
  destruct (snd _) as [u|e]; [cbn; by intros [= <- <-]|]. intros (s1 & u & _ & E2)%answered_try. by injection E2.
Qed.

Lemma attempts_answer source key course p requested left s s' res state createdAt
    (Hprep : prepared_ok (ids 0%nat) p) (Hbuilt : pr_run p = newRun input source course key scope (ids 0%nat) state createdAt)
    (Hok : adm_ok s) (Hnew : unused (fun _ => ids) 0 s) (Ha : aligned s) (Hnone : storedByKey userId key s = None) :
  answered answer (admissionAttempts requireRunCli keyFirst input source key scope p requested left) s = (s', Ok res) ->
  same_fences s s' /\ exists stored, storedByKey userId key s' = Some stored /\ answers scope stored res.
Proof.
  revert s Hok Hnew Ha Hnone. induction left as [|left IH]; intros s Hok Hnew Ha Hnone; [by intros [= _]|].
  cbn [admissionAttempts call req_bind answered]. intros (s1 & al & E1 & E2)%answered_try.
  match type of E1 with answered _ ?alloc _ = _ =>
    pose proof (documents_answered answer alloc s (documents_allocate _ _ _ _ _ _ _ _ _ _)) as Hd;
    pose proof (secures_answered answer _ _ _ _ alloc s (relies_refl _ 0) Hok
      (allocate_secured (fun _ => ids) 0 _ _ _ _ _ _ _ _ _ _ s (po_desired _ _ Hprep) Hnew)) as [Hok1 [Hnew1 _]]
  end. rewrite E1 in Hd, Hok1, Hnew1. cbn [fst snd] in *. destruct Hd as [rows Es1].
  assert (Hf1 : same_fences s s1) by by subst s1.
  assert (Ha1 : aligned s1) by (destruct Ha; by subst s1).
  assert (Hnone1 : storedByKey userId key s1 = None) by by subst s1.
  apply answered_try in E2 as (s2 & u & E2 & E3). apply gate_open in E2 as [-> _].
  cbn [call req_bind answered] in E3. apply answered_try in E3 as (s3 & outcome & E3 & E4).
  assert (Had : admissible (commitInput p source al (bs_allowDrainedAdminProof input) (answer _ Clock))).
  { destruct Hprep as [Hr _ He Hs Hact Hk]. split; cbn; unfold nr_runId in *; cbn; [by rewrite Hr|done|done|by rewrite Hr]. }
  destruct (commit_cases _ _ _ _ _ _ Had Hok1 ltac:(cbn; rewrite Hbuilt; apply (Hnew1 0%nat)) E3) as [(Eo & -> & _)|[Hne ->]].
  - injection Eo as ->. apply accept_answers in E4 as [-> ->]. split; [by subst s1|].
    eexists. split.
    { apply stored_admitted; cbn; rewrite ?Hbuilt; try done. intros Hin. apply (Hnew1 0%nat). by left. }
    cbn. rewrite Hbuilt. by split.
  - destruct outcome as [| | |e]; [done| | |by injection E4].
    + apply answered_try in E4 as (s4 & ? & E5 & E4). apply read_past in E5 as ->; [|apply reads_priority].
      apply answered_try in E4 as (s4 & ? & E6 & E4). apply read_past in E6 as ->; [|apply reads_source].
      apply answered_try in E4 as (s4 & ? & E7 & E4). apply read_past in E7 as ->; [|apply reads_content].
      apply IH in E4 as [[Hg Hu] ?]; try done. destruct Hf1. split; [split; congruence|done].
    + apply raced_answers in E4 as [-> ?]. by split.
Qed.

(** A start that is accepted leaves its key's run, which is what it answers. *)
Lemma admit_answers source course key s s' res
    (Hok : adm_ok s) (Hnew : unused (fun _ => ids) 0 s) (Ha : aligned s) (Hnone : storedByKey userId key s = None) :
  answered answer (admitNewRun requireRunCli keyFirst ids input source course key scope) s = (s', Ok res) ->
  same_fences s s' /\ exists stored, storedByKey userId key s' = Some stored /\ answers scope stored res.
Proof.
  unfold admitNewRun. intros (s1 & p & E1 & E2)%answered_try.
  destruct (answered_neutral answer _ _ s (prepare_built ids input source course key scope)) as [Es Hp].
  rewrite E1 in Es, Hp. cbn in Es, Hp. subst s1. destruct Hp as (Hprep & state & createdAt & Hbuilt).
  rewrite answered_bind, answered_reads in E2 by (by destruct (so_candidateProof source)).
  destruct (snd _) as [prepared|e]; [by eapply attempts_answer|].
  destruct (bool_decide _); [|by injection E2]. by apply raced_answers in E2 as [-> ?].
Qed.

Lemma begin_answers s s' res
    (Hok : adm_ok s) (Hnew : unused (fun _ => ids) 0 s) (Ha : aligned s) :
  answered answer (beginScenarioRun requireRunCli keyFirst ids input) s = (s', Ok res) ->
  runsHeldCondition (bs_allowDrainedAdminProof input) s' = false /\ activeAccount (am_db s') userId = true /\
  exists key candidate stored, requireIdempotencyKey (bs_idempotencyKey input) = Ok key /\
    candidateRequestFromInput input = Ok candidate /\ storedByKey userId key s' = Some stored /\ answers scope stored res.
Proof.
  unfold beginScenarioRun, lift. intros (s1 & u & E1 & E2)%answered_try. apply gate_open in E1 as [-> Hgate].
  apply answered_try in E2 as (s1 & key & E1 & E2). injection E1 as <- Ekey.
  apply answered_try in E2 as (s1 & candidate & E1 & E2). injection E1 as <- Ecand.
  cbn [call req_bind answered] in E2. destruct (negb _); [by injection E2|].
  rewrite answered_bind in E2. destruct (answered answer (admitScenarioStart _ _ _ _ _ _) s) as [s2 r] eqn:Eadmit.
  cbn in E2. injection E2 as -> ->. clear u.
  enough (Hfinal : same_fences s s' /\ activeAccount (am_db s) userId = true /\
    exists stored, storedByKey userId key s' = Some stored /\ answers scope stored res).
  { destruct Hfinal as ([Hg Hu] & Hact & stored & Hst & Hans). unfold runsHeldCondition, activeAccount in *. rewrite Hg, Hu.
    split; [done|]. split; [done|]. by exists key, candidate, stored. }
  unfold admitScenarioStart in Eadmit. apply answered_try in Eadmit as (s1 & found & E1 & E2). apply read_past in E1 as ->; [|done].
  cbn [query req_bind answered fst snd] in E2. destruct found as [source|]; [|by destruct candidate].
  apply answered_try in E2 as (s1 & course & E1 & E2). apply read_past in E1 as ->; [|done].
  apply answered_try in E2 as (s1 & ? & E1 & E2). apply account_active in E1 as [-> Hact].
  apply answered_try in E2 as (s1 & stored & E1 & E2). cbn in E1. injection E1 as <- <-.
  destruct (storedByKey userId key s) as [stored|] eqn:Est.
  - apply replay_answers in E2 as [-> ?]. split; [done|]. split; [done|]. by exists stored.
  - destruct (hasActiveRun _ s); [by injection E2|]. by apply admit_answers in E2 as [? ?].
Qed.
End starting.

(** C19. Starting with the same key is idempotent: once a start has been accepted, the
    same request again, with whatever ids and answers of the other components that
    let it through, answers the run that was accepted, with its acceptance time and
    host, says that it is reused, and changes nothing. *)
Theorem start_is_idempotent `{ReportJson} `{Collation} `{LoadOrder} requireRunCli keyFirst ids ids' input
    (answer answer' : forall B, StartCall B -> B) s s' res source course
    (Hok : adm_ok s) (Hnew : forall j, ~ mentions (ids j) s) (Ha : aligned s)
    (Hfirst : answered answer (beginScenarioRun requireRunCli keyFirst ids input) s = (s', Ok res))
    (Hguard : answer' _ (OpenRegistryGuard (bs_userId input)) = true)
    (Hsource : forall candidate, answer' _ (ReadSource (bs_scenarioId input) (bs_organizationId input) candidate) = Ok (Some source))
    (Hcourse : answer' _ (CheckCourse (bs_userId input) (bs_organizationId input) (so_scenarioId source) (bs_allowSequenceBypass input))
               = Ok course) :
  answered answer' (beginScenarioRun requireRunCli keyFirst ids' input) s'
  = (s', Ok (mkAccepted (br_runId res) (br_scenarioId res) (br_acceptedAt res) true (br_hostId res))).
Proof.
  destruct (begin_answers answer requireRunCli keyFirst ids input s s' res Hok Hnew Ha Hfirst)
    as (Hgate & Hact & key & candidate & stored & Ekey & Ecand & Hst & Hscope & Hres).
  unfold beginScenarioRun, assertAgentKvmRunsOpen, lift. cbn [query req_try req_bind answered fst snd]. rewrite Hgate, Ekey, Ecand.
  cbn [ok call req_bind answered fst snd]. rewrite Hguard. cbn [negb].
  rewrite answered_bind. unfold admitScenarioStart, ask, assertAccountActive, loadRunByIdempotencyKey.
  cbn [call query req_try req_bind answered fst snd]. rewrite Hsource. cbn [call query req_try req_bind answered fst snd].
  rewrite Hcourse. cbn [call query req_try req_bind answered fst snd]. rewrite Hact. cbn [ok call query req_try req_bind answered fst snd].
  rewrite Hst. unfold replayOf, assertReplayMatchesScope, lift, deliveryHint. rewrite Hscope, bool_decide_true by done.
  cbn. by rewrite Hres.
Qed.

(** The sample's first start, and its repetition with other ids. *)
Module ReplaySample.
Import PlacementSample AdmissionSample.
Definition first : AdmDb * result StartError BeginScenarioRunResult.
Proof.
  let r := eval vm_compute in (answered answer (start 0 "learner") store) in exact r.
Defined.
End ReplaySample.

Lemma start_is_idempotent_witness :
  snd ReplaySample.first = Ok (mkAccepted "0-0" "intro" 1000 false (Some "host")) /\
  answered AdmissionSample.answer
    (@beginScenarioRun PlacementSample.parse code_unit_collation PlacementSample.load false true (AdmissionSample.ids 1) (AdmissionSample.input "learner"))
    (fst ReplaySample.first)
  = (fst ReplaySample.first, Ok (mkAccepted "0-0" "intro" 1000 true (Some "host"))).
Proof.
  assert (Hr : snd ReplaySample.first = Ok (mkAccepted "0-0" "intro" 1000 false (Some "host"))) by (vm_compute; reflexivity).
  split; [exact Hr|].
  apply (@start_is_idempotent PlacementSample.parse code_unit_collation PlacementSample.load false true (AdmissionSample.ids 0)
    (AdmissionSample.ids 1) (AdmissionSample.input "learner") AdmissionSample.answer AdmissionSample.answer AdmissionSample.store
    (fst ReplaySample.first) (mkAccepted "0-0" "intro" 1000 false (Some "host")) AdmissionSample.source AdmissionSample.course).
  - exact admission_sample_ok.
  - exact (admission_sample_unused 0).
  - split; reflexivity.
  - vm_compute. reflexivity.
  - reflexivity.
  - reflexivity.
  - reflexivity.
Defined.
