(* ===== verification/RouteRevocation.v ===== *)
(** Revoking routes of the relay: lib/route-revocation.ts, as a request that makes one
    call for each route. *)
From stdpp Require Import base list strings.
From Stdlib Require Import ZArith Lia.
From S2P Require Import Prelude Requests.

Open Scope string_scope.
Open Scope list_scope.
Open Scope req_scope.

Section revocation.
Context {E : Type -> Type} {S X : Type}.
Variable revoke : string -> E (result X ()).

(** [Promise.allSettled] of one revocation per route: what failed. *)
Fixpoint revokeEach (routes : list string) : Req E S (list X) :=
  match routes with
  | [] => Done []
  | route :: rest =>
      r <-- call (revoke route);
      failures <-- revokeEach rest;
      Done (match r with Ok _ => failures | Err e => e :: failures end)
  end.
Definition revokeAllRoutes (routeUsernames : list string) : Req E S (list X) := revokeEach (Set_new routeUsernames).

(** Every route is asked for, and answered with success when nothing failed. *)
Lemma revoked_each others routes s calls s' failures :
  runs others (revokeEach routes) s calls s' failures ->
  forall route, In route routes ->
    exists answer, In (existT _ (revoke route, answer)) calls /\ (failures = [] -> answer = Ok tt).
Proof.
  revert s calls s' failures. induction routes as [|x rest IH]; intros s calls s' failures H route Hin; [done|]. cbn [revokeEach] in H.
  apply runs_inv in H as (b & more & -> & H). cbn [req_bind] in H. apply runs_bind in H as (c1 & c2 & s1 & fs & -> & H1 & H2).
  apply runs_inv in H2 as (-> & -> & ->). rewrite app_nil_r. destruct Hin as [->|Hin].
  - exists b. split; [by left|]. by destruct b as [[]|].
  - destruct (IH _ _ _ _ H1 route Hin) as (answer & Ha & Hok). exists answer. split; [by right|]. intros E0. apply Hok. by destruct b.
Qed.
Lemma revoked_all others routes s calls s' failures :
  runs others (revokeAllRoutes routes) s calls s' failures ->
  forall route, In route routes ->
    exists answer, In (existT _ (revoke route, answer)) calls /\ (failures = [] -> answer = Ok tt).
Proof. intros H route Hin. eapply revoked_each; [exact H|]. by apply Set_new_In. Qed.

(** No access to the tables is made. *)
Lemma revoked_state others routes s calls s' failures : runs others (revokeEach routes) s calls s' failures -> s' = s.
Proof.
  revert s calls s' failures. induction routes as [|x rest IH]; intros s calls s' failures H; cbn [revokeEach] in H.
  - by apply runs_inv in H as (_ & -> & _).
  - apply runs_inv in H as (b & more & -> & H). cbn [req_bind] in H. apply runs_bind in H as (c1 & c2 & s1 & fs & -> & H1 & H2).
    apply runs_inv in H2 as (_ & -> & _). eauto.
Qed.
End revocation.
