(* ===== verification/AccountStore.v ===== *)
(** Accounts, what they hold, and the batches that give and take access: the SQL of
    lib/account-access.ts, lib/platform-admin-authority.ts, lib/account-sign-out.ts,
    lib/personal-host-retirement.ts, lib/access-revocation-store.ts,
    lib/platform-user-deletion-store.ts and lib/account-links.ts on the tables it
    reads and writes. *)
From stdpp Require Import base gmap list strings.
From Stdlib Require Import ZArith Lia.
From S2P Require Import Prelude Json Store Access.

Open Scope string_scope.
Open Scope list_scope.
Open Scope Z_scope.

(** * Tables *)

(** [user], by id. *)
Record AccountRow : Type := mkAccount {
  pu_name : string;
  pu_email : string;
  pu_image : option string;
  pu_username : option string;
  pu_displayUsername : option string;
  pu_role : option string;
  pu_banned : option bool;
  pu_banReason : option string;
  pu_banExpires : option Z;
  pu_deletedAt : option Z;
  pu_metalPlacement : UserPlacement;
  pu_accessGeneration : Z;
  pu_updatedAt : Z;
}.
(** [account]: an identity an account signs in with. *)
Record IdentityRow : Type := mkIdentity {
  id_id : string;
  id_accountId : string;
  id_providerId : string;
  id_userId : string;
  id_createdAt : Z;
}.
Record ProviderRow : Type := mkProvider { sp_providerId : string; sp_organizationId : option string }.
Record RemovalRow : Type := mkRemoval { om_organizationId : string; om_userId : string }.
Record MembershipRow : Type := mkMembership { ms_organizationId : string; ms_userId : string; ms_role : string }.
Record InvitationRow : Type := mkInvitation { iv_inviterId : string; iv_email : string }.

Record SessionRow : Type := mkAuthSession {
  ss_id : string;
  ss_userId : string;
  ss_impersonatedBy : option string;
  ss_createdAt : Z;
}.
(** A row of [oauth_access_token] or [oauth_refresh_token]. *)
Record TokenRow : Type := mkToken {
  tk_id : string;
  tk_clientId : string;
  tk_sessionId : option string;
  tk_userId : option string;
}.
Record ConsentRow : Type := mkConsent { cn_clientId : string; cn_userId : option string }.
Record ClientRow : Type := mkClient { ct_clientId : string; ct_userId : option string }.
(** [verification]; [None] for a value that is no JSON. *)
Record VerificationRow : Type := mkVerification { vf_identifier : string; vf_value : option json }.
Record UserKeyRow : Type := mkUserKey { uk_id : string; uk_userId : string }.

(** [agent_hosts]: the columns access changes. *)
Record ServerRow : Type := mkServer {
  sh_id : string;
  sh_userId : string;
  sh_scope : option HostScope;
  sh_disabled : bool;
  sh_scenarioEnabled : bool;
  sh_connected : bool;
  sh_activeSessionId : option string;
  sh_credentialGeneration : Z;
  sh_disconnectedAt : option Z;
  sh_updatedAt : Z;
  sh_ownerRemovalId : option string;
  sh_ownerRemovalCompletedAt : option Z;
}.
Record BootstrapTokenRow : Type := mkBootstrapToken { bt_hostId : string; bt_revokedAt : option Z }.
Record EnrollmentRow : Type := mkEnrollment {
  en_hostId : string;
  en_userId : string;
  en_claimedAt : option Z;
  en_revokedAt : option Z;
}.
(** The leases of [runtime_executions]. *)
Record LeaseRow : Type := mkLease {
  le_hostId : option string;
  le_state : ExecutionState;
  le_leaseExpiresAt : option Z;
  le_updatedAt : Z;
}.
Record UserRunRow : Type := mkUserRun {
  ur_runId : string;
  ur_userId : string;
  ur_hostId : string;
  ur_hiddenAt : option Z;
  ur_completedAt : option Z;
  ur_failedAt : option Z;
}.

(** [access_revocations], by user. *)
Record RevocationRow : Type := mkRevocation {
  vo_revocationId : string;
  vo_revokedBy : string;
  vo_reason : string;
  vo_revokedAt : Z;
  vo_cleanupAttemptId : option string;
  vo_cleanupStartedAt : option Z;
  vo_cleanupCompletedAt : option Z;
}.
Inductive AccessEventType : Type :=
| access_blocked
| access_revocation_cleanup_failed
| access_revocation_cleanup_stalled
| access_revocation_cleanup_completed
| access_restored
| run_deleted_by_admin
| user_deleted
| signups_limit_changed
| sso_external_email_signups_changed.
#[export] Instance AccessEventType_eq_dec : EqDecision AccessEventType.
Proof. solve_decision. Defined.
Record EventRow : Type := mkEvent {
  ev_id : string;
  ev_eventType : AccessEventType;
  ev_subjectUserId : option string;
  ev_githubAccountId : option string;
  ev_ssoProviderId : option string;
  ev_ssoAccountId : option string;
  ev_actorUserId : option string;
  ev_revocationId : option string;
  ev_cleanupAttemptId : option string;
  ev_reason : option string;
  ev_createdAt : Z;
}.

Record Directory : Type := mkDirectory {
  dr_identities : list IdentityRow;
  dr_providers : list ProviderRow;
  dr_removals : list RemovalRow;
  dr_members : list MembershipRow;
  dr_invitations : list InvitationRow;
  dr_signupReservations : list string;
  dr_runtimeSlots : list string;
}.
Record Credentials : Type := mkCredentials {
  cr_sessions : list SessionRow;
  cr_accessTokens : list TokenRow;
  cr_refreshTokens : list TokenRow;
  cr_consents : list ConsentRow;
  cr_clients : list ClientRow;
  cr_verifications : list VerificationRow;
  cr_sshKeys : list UserKeyRow;
}.
Record Servers : Type := mkServers {
  sv_hosts : list ServerRow;
  sv_bootstrapTokens : list BootstrapTokenRow;
  sv_enrollments : list EnrollmentRow;
  sv_preparations : list string;
  sv_leases : list LeaseRow;
  sv_runs : list UserRunRow;
}.
Record AccDb : Type := mkAccDb {
  ac_users : gmap string AccountRow;
  ac_revocations : gmap string RevocationRow;
  ac_events : list EventRow;
  ac_directory : Directory;
  ac_credentials : Credentials;
  ac_servers : Servers;
}.
Definition set_users (db : AccDb) us : AccDb :=
  mkAccDb us (ac_revocations db) (ac_events db) (ac_directory db) (ac_credentials db) (ac_servers db).
Definition set_revocations (db : AccDb) rs : AccDb :=
  mkAccDb (ac_users db) rs (ac_events db) (ac_directory db) (ac_credentials db) (ac_servers db).
Definition set_events (db : AccDb) es : AccDb :=
  mkAccDb (ac_users db) (ac_revocations db) es (ac_directory db) (ac_credentials db) (ac_servers db).
Definition set_directory (db : AccDb) d : AccDb :=
  mkAccDb (ac_users db) (ac_revocations db) (ac_events db) d (ac_credentials db) (ac_servers db).
Definition set_credentials (db : AccDb) c : AccDb :=
  mkAccDb (ac_users db) (ac_revocations db) (ac_events db) (ac_directory db) c (ac_servers db).
Definition set_servers (db : AccDb) v : AccDb :=
  mkAccDb (ac_users db) (ac_revocations db) (ac_events db) (ac_directory db) (ac_credentials db) v.

Definition set_identities (d : Directory) l : Directory :=
  mkDirectory l (dr_providers d) (dr_removals d) (dr_members d) (dr_invitations d) (dr_signupReservations d) (dr_runtimeSlots d).
Definition set_members (d : Directory) l : Directory :=
  mkDirectory (dr_identities d) (dr_providers d) (dr_removals d) l (dr_invitations d) (dr_signupReservations d) (dr_runtimeSlots d).
Definition set_invitations (d : Directory) l : Directory :=
  mkDirectory (dr_identities d) (dr_providers d) (dr_removals d) (dr_members d) l (dr_signupReservations d) (dr_runtimeSlots d).
Definition set_signupReservations (d : Directory) l : Directory :=
  mkDirectory (dr_identities d) (dr_providers d) (dr_removals d) (dr_members d) (dr_invitations d) l (dr_runtimeSlots d).
Definition set_runtimeSlots (d : Directory) l : Directory :=
  mkDirectory (dr_identities d) (dr_providers d) (dr_removals d) (dr_members d) (dr_invitations d) (dr_signupReservations d) l.
Definition set_sessions (c : Credentials) l : Credentials :=
  mkCredentials l (cr_accessTokens c) (cr_refreshTokens c) (cr_consents c) (cr_clients c) (cr_verifications c) (cr_sshKeys c).
Definition set_tokens (c : Credentials) access refresh : Credentials :=
  mkCredentials (cr_sessions c) access refresh (cr_consents c) (cr_clients c) (cr_verifications c) (cr_sshKeys c).
Definition set_consents (c : Credentials) l : Credentials :=
  mkCredentials (cr_sessions c) (cr_accessTokens c) (cr_refreshTokens c) l (cr_clients c) (cr_verifications c) (cr_sshKeys c).
Definition set_clients (c : Credentials) l : Credentials :=
  mkCredentials (cr_sessions c) (cr_accessTokens c) (cr_refreshTokens c) (cr_consents c) l (cr_verifications c) (cr_sshKeys c).
Definition set_verifications (c : Credentials) l : Credentials :=
  mkCredentials (cr_sessions c) (cr_accessTokens c) (cr_refreshTokens c) (cr_consents c) (cr_clients c) l (cr_sshKeys c).
Definition set_userKeys (c : Credentials) l : Credentials :=
  mkCredentials (cr_sessions c) (cr_accessTokens c) (cr_refreshTokens c) (cr_consents c) (cr_clients c) (cr_verifications c) l.
Definition set_hosts (v : Servers) l : Servers :=
  mkServers l (sv_bootstrapTokens v) (sv_enrollments v) (sv_preparations v) (sv_leases v) (sv_runs v).
Definition set_bootstrapTokens (v : Servers) l : Servers :=
  mkServers (sv_hosts v) l (sv_enrollments v) (sv_preparations v) (sv_leases v) (sv_runs v).
Definition set_enrollments (v : Servers) l : Servers :=
  mkServers (sv_hosts v) (sv_bootstrapTokens v) l (sv_preparations v) (sv_leases v) (sv_runs v).
Definition set_preparations (v : Servers) l : Servers :=
  mkServers (sv_hosts v) (sv_bootstrapTokens v) (sv_enrollments v) l (sv_leases v) (sv_runs v).
Definition set_leases (v : Servers) l : Servers :=
  mkServers (sv_hosts v) (sv_bootstrapTokens v) (sv_enrollments v) (sv_preparations v) l (sv_runs v).

(** * Who may act

    The predicates of lib/account-access.ts. [lower] folds A to Z only. *)
Definition sql_lower_char (c : Ascii.ascii) : Ascii.ascii :=
  let n := Ascii.N_of_ascii c in if in_range 65 90 n then Ascii.ascii_of_N (n + 32) else c.
Fixpoint sql_lower (s : string) : string :=
  match s with
  | EmptyString => EmptyString
  | String c s' => String (sql_lower_char c) (sql_lower s')
  end.
(** [role] is in a comma-separated list of roles. *)
Definition listsRole (role : string) (roles : option string) : bool :=
  instr ("," +:+ without_spaces (sql_lower (nullish roles "")) +:+ ",") ("," +:+ role +:+ ",").

Definition activeAccountSql (u : AccountRow) : bool := isNull (pu_deletedAt u) && negb (nullish (pu_banned u) false).
Definition adminRoleSql (u : AccountRow) : bool := listsRole "admin" (pu_role u).
Definition activeAdminSql (u : AccountRow) : bool := activeAccountSql u && adminRoleSql u.

(** [EXISTS (SELECT 1 FROM user WHERE id = ... AND ...)]. *)
Definition user_where (p : AccountRow -> bool) (db : AccDb) (userId : string) : bool :=
  match ac_users db !! userId with Some u => p u | None => false end.
Definition activeAccountExistsSql : AccDb -> string -> bool := user_where activeAccountSql.
Definition activeAdministrator : AccDb -> string -> bool := user_where activeAdminSql.

Definition removedFromOrganizationSql (db : AccDb) (userId : string) (organizationId : option string) : bool :=
  existsb (fun r => (om_userId r =s userId) && sql_eq (Some (om_organizationId r)) organizationId)
    (dr_removals (ac_directory db)).
Definition removedThroughProviderSql (db : AccDb) (userId providerId : string) : bool :=
  existsb (fun p => (sp_providerId p =s providerId) && removedFromOrganizationSql db userId (sp_organizationId p))
    (dr_providers (ac_directory db)).
Definition organizationSignInAllowedSql (db : AccDb) (userId : string) : bool := negb (activeAdministrator db userId).
Definition usableIdentitySql (db : AccDb) (i : IdentityRow) : bool :=
  (id_providerId i =s "github")
  || existsb (fun p => (sp_providerId p =s id_providerId i)
       && negb (removedFromOrganizationSql db (id_userId i) (sp_organizationId p))
       && organizationSignInAllowedSql db (id_userId i)) (dr_providers (ac_directory db)).
Definition usableIdentityExistsSql (exceptProvider : option string) (db : AccDb) (userId : string) : bool :=
  existsb (fun i => (id_userId i =s userId)
       && match exceptProvider with Some p => negb (id_providerId i =s p) | None => true end
       && usableIdentitySql db i) (dr_identities (ac_directory db)).
Definition signingAdmin (db : AccDb) (userId : string) : bool :=
  activeAdministrator db userId && usableIdentityExistsSql None db userId.

Inductive IdentitySignInBlocker : Type := provider_removed | removed_from_organization | admin_requires_github.
Definition identitySignInBlockerSql (db : AccDb) (i : IdentityRow) : option IdentitySignInBlocker :=
  if id_providerId i =s "github" then None
  else if negb (existsb (fun p => sp_providerId p =s id_providerId i) (dr_providers (ac_directory db))) then Some provider_removed
  else if removedThroughProviderSql db (id_userId i) (id_providerId i) then Some removed_from_organization
  else if user_where adminRoleSql db (id_userId i) then Some admin_requires_github
  else None.

Definition soleOwnerMembershipSql (db : AccDb) (m : MembershipRow) : bool :=
  listsRole "owner" (Some (ms_role m))
  && negb (existsb (fun other => (ms_organizationId other =s ms_organizationId m)
       && negb (ms_userId other =s ms_userId m) && listsRole "owner" (Some (ms_role other))) (dr_members (ac_directory db))).

(** The oldest identity that is not GitHub's, by creation and then by id. *)
Definition identityBefore (a b : IdentityRow) : bool :=
  (id_createdAt a <? id_createdAt b) || ((id_createdAt a =? id_createdAt b) && str_leb (id_id a) (id_id b)).
Definition firstOrganizationIdentitySql (db : AccDb) (userId : string) : option IdentityRow :=
  head (js_sort identityBefore
    (List.filter (fun i => (id_userId i =s userId) && negb (id_providerId i =s "github")) (dr_identities (ac_directory db)))).
Definition githubAccountId (db : AccDb) (userId : string) : option string :=
  id_accountId <$> List.find (fun i => (id_userId i =s userId) && (id_providerId i =s "github")) (dr_identities (ac_directory db)).

(** [identityState]: GitHub linked, any linked, and whether a sign-in with the
    account's email may take it over. *)
Record IdentityState : Type := mkIdentityState { is_linked : bool; is_github : bool; is_reclaimable : bool }.
Definition identityState (db : AccDb) (userId : string) : IdentityState :=
  let l := dr_identities (ac_directory db) in
  mkIdentityState (existsb (fun i => id_userId i =s userId) l)
    (existsb (fun i => (id_userId i =s userId) && (id_providerId i =s "github")) l)
    (organizationSignInAllowedSql db userId && negb (usableIdentityExistsSql None db userId)).

Definition activeAccessGeneration (db : AccDb) (userId : string) : option Z :=
  if truthy userId
  then match ac_users db !! userId with
       | Some u => if activeAccountSql u then Some (pu_accessGeneration u) else None
       | None => None
       end
  else None.
Definition signInAccessGeneration (db : AccDb) (userId : string) (throughProvider : option string) : option Z :=
  match ac_users db !! userId with
  | Some u =>
      if activeAccountSql u
         && match throughProvider with
            | None => usableIdentityExistsSql None db userId
            | Some p => existsb (fun i => (id_userId i =s userId) && (id_providerId i =s p) && usableIdentitySql db i)
                          (dr_identities (ac_directory db))
            end
      then Some (pu_accessGeneration u) else None
  | None => None
  end.

(** [ActingSession] and [AccessStamp]. *)
Record ActingSession : Type := mkActing { as_userId : string; as_impersonatedBy : option string }.
Record AccessStamp : Type := mkStamp { st_user : Z; st_admin : option Z }.
#[export] Instance AccessStamp_eq_dec : EqDecision AccessStamp.
Proof. solve_decision. Defined.
Definition impersonatingAdmin (s : ActingSession) : option string := as_impersonatedBy s ≫= or_null.
Definition sessionMayActCondition (db : AccDb) (s : ActingSession) (u : AccountRow) : bool :=
  activeAccountSql u
  && match impersonatingAdmin s with
     | Some admin => signingAdmin db admin
     | None => usableIdentityExistsSql None db (as_userId s)
     end.
Definition sessionAccessStamp (db : AccDb) (s : ActingSession) (throughProvider : option string) : option AccessStamp :=
  let admin := impersonatingAdmin s in
  match throughProvider ≫= or_null, admin with
  | Some p, None => (fun g => mkStamp g None) <$> signInAccessGeneration db (as_userId s) (Some p)
  | _, _ =>
      match ac_users db !! as_userId s with
      | Some u =>
          if sessionMayActCondition db s u
          then match admin with
               | Some a =>
                   match ac_users db !! a with
                   | Some au => Some (mkStamp (pu_accessGeneration u) (Some (pu_accessGeneration au)))
                   | None => None
                   end
               | None => Some (mkStamp (pu_accessGeneration u) None)
               end
          else None
      | None => None
      end
  end.
Definition sessionMayAct (db : AccDb) (s : ActingSession) (throughProvider : option string) : bool :=
  negb (isNull (sessionAccessStamp db s throughProvider)).
Definition sameAccessStamp (left right : option AccessStamp) : bool :=
  match left, right with
  | Some l, Some r => (st_user l =? st_user r) && bool_decide (st_admin l = st_admin r)
  | _, _ => false
  end.

(** lib/platform-admin-authority.ts. *)
Definition lastAdministratorSafe (db : AccDb) (targetUserId : string) : bool :=
  negb (signingAdmin db targetUserId)
  || existsb (fun p => negb (fst p =s targetUserId) && signingAdmin db (fst p)) (map_to_list (ac_users db)).
Definition isLastActiveAdmin (db : AccDb) (userId : string) : bool :=
  signingAdmin db userId
  && negb (existsb (fun p => negb (fst p =s userId) && signingAdmin db (fst p)) (map_to_list (ac_users db))).

(** * Statements and batches *)

Inductive AccConstraint : Type :=
| pk_access_events
| pk_access_revocations
| uq_revocation_id
| chk_revocation_audit
| chk_revocation_cleanup
| uq_user_email.

(** A statement, and whether it changed or returned a row. *)
Definition AccStmt : Type := AccDb -> result AccConstraint (AccDb * bool).
Fixpoint acc_batch (stmts : list AccStmt) (db : AccDb) : result AccConstraint (AccDb * list bool) :=
  match stmts with
  | [] => Ok (db, [])
  | s :: rest =>
      r <-? s db; rs <-? acc_batch rest (fst r); Ok (fst rs, snd r :: snd rs)
  end.
(** The batch as one access: a constraint it violates leaves everything as it was. *)
Definition run_acc_batch (stmts : list AccStmt) (db : AccDb) : AccDb * result AccConstraint (list bool) :=
  match acc_batch stmts db with Ok p => (fst p, Ok (snd p)) | Err c => (db, Err c) end.

(** Statements that change one table where a condition on its rows and on the
    database holds. *)
Definition updateUser (userId : string) (p : AccDb -> AccountRow -> bool) (f : AccountRow -> AccountRow) : AccStmt := fun db =>
  match ac_users db !! userId with
  | Some u => if p db u then Ok (set_users db (<[userId := f u]> (ac_users db)), true) else Ok (db, false)
  | None => Ok (db, false)
  end.
Definition insertEvent (e : EventRow) (db : AccDb) : result AccConstraint (AccDb * bool) :=
  if existsb (fun x => ev_id x =s ev_id e) (ac_events db) then Err pk_access_events
  else Ok (set_events db (ac_events db ++ [e]), true).
Definition on_directory (f : AccDb -> Directory -> Directory) : AccStmt := fun db =>
  Ok (set_directory db (f db (ac_directory db)), true).
Definition on_credentials (f : AccDb -> Credentials -> Credentials) : AccStmt := fun db =>
  Ok (set_credentials db (f db (ac_credentials db)), true).
Definition on_servers (f : AccDb -> Servers -> Servers) : AccStmt := fun db =>
  Ok (set_servers db (f db (ac_servers db)), true).

Definition eventExists (eventId : string) (type : AccessEventType) (db : AccDb) : bool :=
  existsb (fun e => (ev_id e =s eventId) && bool_decide (ev_eventType e = type)) (ac_events db).
Definition is_user (userId : string) (column : option string) : bool := sql_eq column (Some userId).

(** ** Signing out: lib/account-sign-out.ts *)

(** Deleting a session clears it in the tokens it opened. *)
Definition deleteSessions (p : SessionRow -> bool) (c : Credentials) : Credentials :=
  let gone := map ss_id (List.filter p (cr_sessions c)) in
  let cleared (t : TokenRow) :=
    if existsb (fun s => sql_eq (tk_sessionId t) (Some s)) gone
    then mkToken (tk_id t) (tk_clientId t) None (tk_userId t) else t in
  set_tokens (set_sessions c (delete_where p (cr_sessions c))) (map cleared (cr_accessTokens c)) (map cleared (cr_refreshTokens c)).

Inductive SignOutTarget : Type := target_access_token | target_refresh_token | target_session | target_impersonated.
Definition SIGN_OUT_TARGETS : list SignOutTarget :=
  [target_access_token; target_refresh_token; target_session; target_impersonated].
(** [condition] holds of a column that names a signed-out user, [keep] is the session
    that stays. *)
Definition signOut (condition : AccDb -> option string -> bool) (keep : option string) (target : SignOutTarget) : AccStmt :=
  on_credentials (fun db c =>
    let kept (s : SessionRow) := match keep with Some k => ss_id s =s k | None => false end in
    match target with
    | target_access_token => set_tokens c (delete_where (fun t => condition db (tk_userId t)) (cr_accessTokens c)) (cr_refreshTokens c)
    | target_refresh_token => set_tokens c (cr_accessTokens c) (delete_where (fun t => condition db (tk_userId t)) (cr_refreshTokens c))
    | target_session => deleteSessions (fun s => condition db (Some (ss_userId s)) && negb (kept s)) c
    | target_impersonated => deleteSessions (fun s => condition db (ss_impersonatedBy s) && negb (kept s)) c
    end).
Definition signOutStatements (condition : AccDb -> option string -> bool) (keep : option string) : list AccStmt :=
  map (signOut condition keep) SIGN_OUT_TARGETS.

(** [json_extract(value, '$.type')] and ['$.userId'] of an authorization code. *)
Definition json_text (v : option json) (key text : string) : bool :=
  match v ≫= fun v => field v key with Some (JStr s) => s =s text | _ => false end.
Definition authorizationCodeOf (userId : string) (v : VerificationRow) : bool :=
  json_text (vf_value v) "type" "authorization_code" && json_text (vf_value v) "userId" userId.
Definition revokeEnrollment (now : Z) (e : EnrollmentRow) : EnrollmentRow :=
  mkEnrollment (en_hostId e) (en_userId e) (en_claimedAt e) (Some now).

Section sweep.
Variable guard : AccDb -> bool.
Variable userId : string.
Variable now : Z.

Definition accountCredentialSweepStatements : list AccStmt :=
  signOutStatements (fun db column => is_user userId column && guard db) None ++
  [on_credentials (fun db c => set_consents c (delete_where (fun x => is_user userId (cn_userId x) && guard db) (cr_consents c)));
   on_credentials (fun db c => set_verifications c (delete_where (fun v => authorizationCodeOf userId v && guard db) (cr_verifications c)));
   on_servers (fun db v => set_enrollments v (update_where
     (fun e => (en_userId e =s userId) && isNull (en_claimedAt e) && isNull (en_revokedAt e) && guard db) (revokeEnrollment now)
     (sv_enrollments v)));
   on_servers (fun db v => set_preparations v (delete_where (fun u => (u =s userId) && guard db) (sv_preparations v)))].
End sweep.

(** ** Retired servers: lib/personal-host-retirement.ts *)

Definition expireLease (now : Z) (l : LeaseRow) : LeaseRow := mkLease (le_hostId l) (le_state l) (Some now) now.
(** [retiredHost] selects retired hosts by the [host_id] column. *)
Definition retiredHostCredentialStatements (retiredHost : AccDb -> option string -> bool) (now : Z) : list AccStmt :=
  [on_servers (fun db v => set_bootstrapTokens v (update_where
     (fun t => isNull (bt_revokedAt t) && retiredHost db (Some (bt_hostId t)))
     (fun t => mkBootstrapToken (bt_hostId t) (Some now)) (sv_bootstrapTokens v)));
   on_servers (fun db v => set_enrollments v (update_where
     (fun e => isNull (en_revokedAt e) && retiredHost db (Some (en_hostId e))) (revokeEnrollment now) (sv_enrollments v)));
   on_servers (fun db v => set_leases v (update_where
     (fun l => negb (bool_decide (le_state l = ex_archived)) && isNull (le_leaseExpiresAt l) && retiredHost db (le_hostId l))
     (expireLease now) (sv_leases v)))].

Definition personalOf (userId : string) (h : ServerRow) : bool :=
  (sh_userId h =s userId) && bool_decide (sh_scope h = Some scope_personal).
(** Disabled for good, with credentials rotated unless it already was disabled. *)
Definition retiredServer (now : Z) (removal : option string -> option string) (h : ServerRow) : ServerRow :=
  mkServer (sh_id h) (sh_userId h) (sh_scope h) true false false None
    (sh_credentialGeneration h + (if sh_disabled h then 0 else 1)) (Some now) now
    (removal (sh_ownerRemovalId h)) (sh_ownerRemovalCompletedAt h).
Definition set_placement (u : AccountRow) (p : UserPlacement) : AccountRow :=
  mkAccount (pu_name u) (pu_email u) (pu_image u) (pu_username u) (pu_displayUsername u) (pu_role u) (pu_banned u) (pu_banReason u)
    (pu_banExpires u) (pu_deletedAt u) p (pu_accessGeneration u) (pu_updatedAt u).

Section retirement.
Variable hostId userId removalId : string.
Variable confirmReturnToCloud : bool.
Variable now : Z.

Definition ownedServer (db : AccDb) (h : ServerRow) : bool :=
  (sh_id h =s hostId) && personalOf userId h && activeAccountExistsSql db userId.
Definition retiredNow (db : AccDb) : bool :=
  existsb (fun h => ownedServer db h && sh_disabled h && negb (isNull (sh_ownerRemovalId h))) (sv_hosts (ac_servers db)).
Definition removableServer (db : AccDb) (h : ServerRow) : bool :=
  ownedServer db h && (negb (sh_disabled h) || isNull (sh_ownerRemovalId h))
  && (confirmReturnToCloud
      || negb (user_where (fun u => bool_decide (pu_metalPlacement u = up_personal)) db userId)
      || existsb (fun other => personalOf userId other && negb (sh_disabled other) && negb (sh_id other =s hostId))
           (sv_hosts (ac_servers db))).
Definition retireServerStatement : AccStmt := fun db =>
  let hosts := sv_hosts (ac_servers db) in
  Ok (set_servers db (set_hosts (ac_servers db)
        (update_where (removableServer db) (retiredServer now (fun _ => Some removalId)) hosts)),
      existsb (removableServer db) hosts).
Definition returnToCloudStatement : AccStmt :=
  updateUser userId
    (fun db _ => existsb (fun h => ownedServer db h && sql_eq (sh_ownerRemovalId h) (Some removalId)) (sv_hosts (ac_servers db))
       && negb (existsb (fun h => personalOf userId h && negb (sh_disabled h)) (sv_hosts (ac_servers db))))
    (fun u => set_placement u up_platform).
Definition retirePersonalHostStatements : list AccStmt :=
  retireServerStatement :: returnToCloudStatement ::
  retiredHostCredentialStatements (fun db column => is_user hostId column && retiredNow db) now.
End retirement.

(** ** Roles: [setPlatformUserRole] *)

Inductive PlatformUserRole : Type := role_user | role_admin.
#[export] Instance PlatformUserRole_eq_dec : EqDecision PlatformUserRole.
Proof. solve_decision. Defined.
Definition role_name (r : PlatformUserRole) : string := match r with role_user => "user" | role_admin => "admin" end.
Definition set_role (role : string) (now : Z) (u : AccountRow) : AccountRow :=
  mkAccount (pu_name u) (pu_email u) (pu_image u) (pu_username u) (pu_displayUsername u) (Some role) (pu_banned u) (pu_banReason u)
    (pu_banExpires u) (pu_deletedAt u) (pu_metalPlacement u) (pu_accessGeneration u) now.

Section role.
Variable targetUserId actorUserId : string.
Variable role : PlatformUserRole.
Variable now : Z.

Definition hasGithub (db : AccDb) : bool :=
  existsb (fun i => (id_userId i =s targetUserId) && (id_providerId i =s "github")) (dr_identities (ac_directory db)).
Definition promoting : bool := bool_decide (role = role_admin).
Definition setRoleStatement : AccStmt :=
  updateUser targetUserId
    (fun db u => isNull (pu_deletedAt u) && activeAdministrator db actorUserId
       && (if promoting then hasGithub db else lastAdministratorSafe db targetUserId))
    (set_role (role_name role) now).
Definition roleSignOuts : list AccStmt :=
  if promoting
  then signOutStatements (fun db column => is_user targetUserId column && activeAdministrator db actorUserId && hasGithub db
         && user_where (fun u => isNull (pu_deletedAt u) && negb (activeAdminSql u)) db targetUserId) None
  else [on_credentials (fun db => deleteSessions (fun s => is_user targetUserId (ss_impersonatedBy s)
          && activeAdministrator db actorUserId && lastAdministratorSafe db targetUserId
          && user_where (fun u => isNull (pu_deletedAt u)) db targetUserId))].
Definition setRoleStatements : list AccStmt := roleSignOuts ++ [setRoleStatement].
End role.

(** ** Revocation: lib/access-revocation-store.ts *)

Definition CLEANUP_LEASE_MS : Z := 10 * 60 * 1000.
Definition cleanup_valid (r : RevocationRow) : bool :=
  match vo_cleanupAttemptId r, vo_cleanupStartedAt r, vo_cleanupCompletedAt r with
  | None, None, None => true
  | Some _, Some _, None => true
  | Some _, Some started, Some completed => started <=? completed
  | _, _, _ => false
  end.
Definition audit_valid (r : RevocationRow) : bool :=
  let len s := Z.of_nat (String.length s) in
  (1 <=? len (vo_revokedBy r)) && (len (vo_revokedBy r) <=? 255) && (1 <=? len (vo_reason r)) && (len (vo_reason r) <=? 120)
  && (0 <=? vo_revokedAt r).

(** The current revocation of a user, by its id. *)
Definition revocation_where (p : RevocationRow -> bool) (userId revocationId : string) (db : AccDb) : bool :=
  match ac_revocations db !! userId with Some r => (vo_revocationId r =s revocationId) && p r | None => false end.
(** An update of it, under the table's check. *)
Definition updateRevocation (userId revocationId : string) (p : AccDb -> RevocationRow -> bool) (f : RevocationRow -> RevocationRow) : AccStmt :=
  fun db =>
    match ac_revocations db !! userId with
    | Some r =>
        if (vo_revocationId r =s revocationId) && p db r
        then if cleanup_valid (f r) then Ok (set_revocations db (<[userId := f r]> (ac_revocations db)), true)
             else Err chk_revocation_cleanup
        else Ok (db, false)
    | None => Ok (db, false)
    end.
Definition set_attempt (r : RevocationRow) (attempt : option (string * Z)) : RevocationRow :=
  mkRevocation (vo_revocationId r) (vo_revokedBy r) (vo_reason r) (vo_revokedAt r) (fst <$> attempt) (snd <$> attempt)
    (vo_cleanupCompletedAt r).
Definition set_completed (now : Z) (r : RevocationRow) : RevocationRow :=
  mkRevocation (vo_revocationId r) (vo_revokedBy r) (vo_reason r) (vo_revokedAt r) (vo_cleanupAttemptId r) (vo_cleanupStartedAt r)
    (Some now).

(** The event of a revocation: its subject, and the identities of the account at
    that moment. *)
Definition revocationEvent (db : AccDb) (eventId : string) (type : AccessEventType) (userId : string) (r : RevocationRow)
    (actor attempt reason : option string) (at_ : Z) : EventRow :=
  let first := firstOrganizationIdentitySql db userId in
  mkEvent eventId type (Some userId) (githubAccountId db userId) (id_providerId <$> first) (id_accountId <$> first) actor
    (Some (vo_revocationId r)) attempt reason at_.
(** [INSERT ... SELECT] of one from the user's current revocation. *)
Definition insertRevocationEvent (userId revocationId : string) (p : AccDb -> RevocationRow -> bool)
    (e : AccDb -> RevocationRow -> EventRow) : AccStmt := fun db =>
  match ac_revocations db !! userId with
  | Some r => if (vo_revocationId r =s revocationId) && p db r then insertEvent (e db r) db else Ok (db, false)
  | None => Ok (db, false)
  end.

Definition set_ban (u : AccountRow) (banned : bool) (reason : option string) (role : option string) (placement : UserPlacement)
    (generation now : Z) : AccountRow :=
  mkAccount (pu_name u) (pu_email u) (pu_image u) (pu_username u) (pu_displayUsername u) role (Some banned) reason None
    (pu_deletedAt u) placement generation now.

Section revocation.
Variable userId actorUserId reason revocationId blockedEventId : string.
Variable now : Z.

Definition revocable (db : AccDb) : bool :=
  user_where (fun u => isNull (pu_deletedAt u)) db userId && isNull (ac_revocations db !! userId)
  && activeAdministrator db actorUserId && lastAdministratorSafe db userId.
Definition newRevocation : RevocationRow := mkRevocation revocationId actorUserId reason now None None None.
Definition insertRevocation : AccStmt := fun db =>
  if revocable db then
    if existsb (fun p => vo_revocationId (snd p) =s revocationId) (map_to_list (ac_revocations db)) then Err uq_revocation_id
    else if negb (audit_valid newRevocation) then Err chk_revocation_audit
    else Ok (set_revocations db (<[userId := newRevocation]> (ac_revocations db)), true)
  else Ok (db, false).
Definition currentRevocation : AccDb -> bool := revocation_where (fun _ => true) userId revocationId.
Definition banStatement : AccStmt :=
  updateUser userId (fun db _ => currentRevocation db)
    (fun u => set_ban u true (Some "access_revoked") (pu_role u) (pu_metalPlacement u) (pu_accessGeneration u + 1) now).
Definition disableServers : AccStmt :=
  on_servers (fun db v => set_hosts v (update_where (fun h => personalOf userId h && currentRevocation db)
    (fun h => mkServer (sh_id h) (sh_userId h) (sh_scope h) true false false None (sh_credentialGeneration h + 1) (Some now) now
       (sh_ownerRemovalId h) (sh_ownerRemovalCompletedAt h)) (sv_hosts v))).
Definition revokeServerTokens : AccStmt :=
  on_servers (fun db v => set_bootstrapTokens v (update_where
    (fun t => isNull (bt_revokedAt t) && existsb (fun h => (sh_id h =s bt_hostId t) && personalOf userId h) (sv_hosts v)
       && currentRevocation db)
    (fun t => mkBootstrapToken (bt_hostId t) (Some now)) (sv_bootstrapTokens v))).
Definition revokeStatements : list AccStmt :=
  [insertRevocation; banStatement; disableServers; revokeServerTokens;
   insertRevocationEvent userId revocationId (fun _ _ => true)
     (fun db r => revocationEvent db blockedEventId access_blocked userId r (Some (vo_revokedBy r)) None (Some (vo_reason r)) (vo_revokedAt r))].

(** *** The cleanup of a revocation *)
Variable cleanupAttemptId : string.

Definition acquireStatement : AccStmt :=
  updateRevocation userId revocationId
    (fun _ r => isNull (vo_cleanupCompletedAt r)
       && ((isNull (vo_cleanupAttemptId r) && isNull (vo_cleanupStartedAt r))
           || match vo_cleanupStartedAt r with Some started => started <=? now - CLEANUP_LEASE_MS | None => false end))
    (fun r => set_attempt r (Some (cleanupAttemptId, now))).

Definition byAttempt (r : RevocationRow) : bool := sql_eq (vo_cleanupAttemptId r) (Some cleanupAttemptId).
Definition completedBefore (db : AccDb) : bool :=
  existsb (fun e => bool_decide (ev_eventType e = access_revocation_cleanup_completed) && sql_eq (ev_subjectUserId e) (Some userId)
    && sql_eq (ev_revocationId e) (Some revocationId) && sql_eq (ev_cleanupAttemptId e) (Some cleanupAttemptId)) (ac_events db).
Definition completeStatements (completedEventId : string) : list AccStmt :=
  [updateRevocation userId revocationId (fun _ r => byAttempt r && isNull (vo_cleanupCompletedAt r)) (set_completed now);
   insertRevocationEvent userId revocationId
     (fun db r => byAttempt r && match vo_cleanupCompletedAt r with Some t => t =? now | None => false end && negb (completedBefore db))
     (fun db r => revocationEvent db completedEventId access_revocation_cleanup_completed userId r None (vo_cleanupAttemptId r)
        (Some "cleanup_completed") (nullish (vo_cleanupCompletedAt r) now))].

(** [cleanupEventSelect]: the event of an attempt that still holds the cleanup. *)
Definition cleanupEvent (eventId : string) (type : AccessEventType) (actor : option string) (why : string) : AccStmt :=
  insertRevocationEvent userId revocationId
    (fun _ r => byAttempt r && negb (isNull (vo_cleanupStartedAt r)) && isNull (vo_cleanupCompletedAt r))
    (fun db r => revocationEvent db eventId type userId r actor (Some cleanupAttemptId) (Some why) now).
Definition failureStatements (eventId : string) (actor : option string) (why : string) : list AccStmt :=
  [cleanupEvent eventId access_revocation_cleanup_failed actor why;
   updateRevocation userId revocationId
     (fun db r => byAttempt r && eventExists eventId access_revocation_cleanup_failed db) (fun r => set_attempt r None)].
Definition cleanupFence : AccDb -> bool :=
  revocation_where (fun r => byAttempt r && isNull (vo_cleanupCompletedAt r)) userId revocationId.
End revocation.

(** ** Restoring access: [restoreAccount] *)

Section restore.
Variable userId actorUserId revocationId eventId : string.
Variable now : Z.

Definition restored : AccDb -> bool := eventExists eventId access_restored.
Definition restorable (db : AccDb) (r : RevocationRow) : bool :=
  negb (isNull (vo_cleanupCompletedAt r))
  && user_where (fun u => isNull (pu_deletedAt u) && nullish (pu_banned u) false && sql_eq (pu_banReason u) (Some "access_revoked")) db userId
  && activeAdministrator db actorUserId.
(** Deleting a client deletes what was granted through it. *)
Definition deleteClients (p : ClientRow -> bool) (c : Credentials) : Credentials :=
  let gone := map ct_clientId (List.filter p (cr_clients c)) in
  let through client := str_mem client gone in
  set_clients
    (set_consents
       (set_tokens c (delete_where (fun t => through (tk_clientId t)) (cr_accessTokens c))
          (delete_where (fun t => through (tk_clientId t)) (cr_refreshTokens c)))
       (delete_where (fun x => through (cn_clientId x)) (cr_consents c)))
    (delete_where p (cr_clients c)).
Definition removalOf (removal : option string) : option string := match removal with Some r => Some r | None => Some eventId end.

Definition restoreStatements : list AccStmt :=
  insertRevocationEvent userId revocationId restorable
    (fun db r => revocationEvent db eventId access_restored userId r (Some actorUserId) None (Some "admin_restored") now) ::
  accountCredentialSweepStatements restored userId now ++
  [on_credentials (fun db c => set_userKeys c (delete_where (fun k => (uk_userId k =s userId) && restored db) (cr_sshKeys c)));
   on_credentials (fun db => deleteClients (fun ct => is_user userId (ct_userId ct) && restored db));
   on_directory (fun db d => set_members d (delete_where
     (fun m => (ms_userId m =s userId) && restored db && negb (soleOwnerMembershipSql db m)) (dr_members d)));
   on_servers (fun db v => set_hosts v (update_where
     (fun h => personalOf userId h && isNull (sh_ownerRemovalCompletedAt h) && restored db) (retiredServer now removalOf) (sv_hosts v)))] ++
  retiredHostCredentialStatements
    (fun db column => existsb (fun h => sql_eq column (Some (sh_id h)) && personalOf userId h) (sv_hosts (ac_servers db)) && restored db) now ++
  [updateUser userId (fun db _ => restored db)
     (fun u => set_ban u false None (Some "user") up_platform (pu_accessGeneration u) now);
   fun db =>
     if revocation_where (fun _ => true) userId revocationId db && restored db
     then Ok (set_revocations db (delete userId (ac_revocations db)), true) else Ok (db, false)].
End restore.

(** [UPDATE agent_hosts SET owner_removal_completed_at] of [restoreAccess]. *)
Definition pendingRemoval (userId : string) (h : ServerRow) : bool :=
  personalOf userId h && sh_disabled h && negb (isNull (sh_ownerRemovalId h)) && isNull (sh_ownerRemovalCompletedAt h).
Definition completeRemoval (hostId userId : string) (now : Z) : AccStmt :=
  on_servers (fun _ v => set_hosts v (update_where (fun h => (sh_id h =s hostId) && pendingRemoval userId h)
    (fun h => mkServer (sh_id h) (sh_userId h) (sh_scope h) (sh_disabled h) (sh_scenarioEnabled h) (sh_connected h)
       (sh_activeSessionId h) (sh_credentialGeneration h) (sh_disconnectedAt h) (sh_updatedAt h) (sh_ownerRemovalId h) (Some now))
    (sv_hosts v))).

(** ** Deleting an account: lib/platform-user-deletion-store.ts *)

Section deletion.
Variable targetUserId actorUserId eventId deletedEmail : string.
Variable now : Z.

Definition ownsAlone (db : AccDb) : bool :=
  existsb (fun m => (ms_userId m =s targetUserId) && listsRole "owner" (Some (ms_role m))
    && negb (existsb (fun other => (ms_organizationId other =s ms_organizationId m)
         && negb (ms_userId other =s targetUserId) && listsRole "owner" (Some (ms_role other))) (dr_members (ac_directory db))))
    (dr_members (ac_directory db)).
Definition anotherAdministrator (db : AccDb) : bool :=
  negb (activeAdministrator db targetUserId)
  || existsb (fun p => negb (fst p =s targetUserId) && activeAdminSql (snd p)) (map_to_list (ac_users db)).
Definition deletable (db : AccDb) (r : RevocationRow) : bool :=
  negb (isNull (vo_cleanupCompletedAt r)) && user_where (fun u => isNull (pu_deletedAt u)) db targetUserId
  && negb (targetUserId =s actorUserId) && activeAdministrator db actorUserId && anotherAdministrator db && negb (ownsAlone db).
Definition insertDeletion : AccStmt := fun db =>
  match ac_revocations db !! targetUserId with
  | Some r =>
      if deletable db r
      then insertEvent (revocationEvent db eventId user_deleted targetUserId r (Some actorUserId) None (Some "admin_deleted") now) db
      else Ok (db, false)
  | None => Ok (db, false)
  end.

Definition eventGuard : AccDb -> bool := eventExists eventId user_deleted.
Definition emailOf (db : AccDb) : option string := pu_email <$> ac_users db !! targetUserId.
Definition tombstone (u : AccountRow) : AccountRow :=
  mkAccount "Deleted user" deletedEmail None None None None (Some true) (Some "Deleted by administrator") None (Some now)
    (pu_metalPlacement u) (pu_accessGeneration u) now.
Definition tombstoneStatement : AccStmt := fun db =>
  if existsb (fun p => negb (fst p =s targetUserId) && (pu_email (snd p) =s deletedEmail)) (map_to_list (ac_users db))
     && eventGuard db && user_where (fun _ => true) db targetUserId
  then Err uq_user_email
  else updateUser targetUserId (fun db _ => eventGuard db) tombstone db.
Definition mine (userId : string) (db : AccDb) : bool := (userId =s targetUserId) && eventGuard db.
Definition isMine (userId : option string) (db : AccDb) : bool := is_user targetUserId userId && eventGuard db.

Definition deletionStatements : list AccStmt :=
  [insertDeletion;
   on_directory (fun db d => set_signupReservations d (delete_where (fun u => mine u db) (dr_signupReservations d)));
   on_credentials (fun db c => set_tokens c (delete_where (fun t => isMine (tk_userId t) db) (cr_accessTokens c)) (cr_refreshTokens c));
   on_credentials (fun db c => set_tokens c (cr_accessTokens c) (delete_where (fun t => isMine (tk_userId t) db) (cr_refreshTokens c)));
   on_credentials (fun db c => set_consents c (delete_where (fun x => isMine (cn_userId x) db) (cr_consents c)));
   on_credentials (fun db => deleteClients (fun ct => isMine (ct_userId ct) db));
   on_directory (fun db d => set_runtimeSlots d (delete_where (fun u => mine u db) (dr_runtimeSlots d)));
   on_credentials (fun db => deleteSessions (fun s => mine (ss_userId s) db));
   on_directory (fun db d => set_identities d (delete_where (fun i => mine (id_userId i) db) (dr_identities d)));
   on_credentials (fun db c => set_userKeys c (delete_where (fun k => mine (uk_userId k) db) (cr_sshKeys c)));
   on_directory (fun db d => set_members d (delete_where (fun m => mine (ms_userId m) db) (dr_members d)));
   on_directory (fun db d => set_invitations d (delete_where
     (fun i => eventGuard db && ((iv_inviterId i =s targetUserId)
        || sql_eq (Some (sql_lower (iv_email i))) (sql_lower <$> emailOf db))) (dr_invitations d)));
   on_credentials (fun db c => set_verifications c (delete_where
     (fun v => eventGuard db && ((vf_identifier v =s targetUserId) || sql_eq (Some (vf_identifier v)) (emailOf db)
        || json_text (vf_value v) "userId" targetUserId)) (cr_verifications c)));
   tombstoneStatement;
   fun db => Ok (db, user_where (fun u => bool_decide (pu_deletedAt u = Some now)) db targetUserId && eventGuard db)].
End deletion.

(** ** Disconnecting an identity: lib/account-links.ts *)

Definition RECENT_SIGN_IN_SECONDS : Z := 24 * 60 * 60.
Section disconnect.
Variable userId providerId currentSessionId : string.
Variable now : Z.

Record DisconnectState : Type := mkDisconnectState {
  dc_impersonating : bool;
  dc_recent : bool;
  dc_linked : bool;
  dc_otherSignIn : bool;
  dc_removed : bool;
}.
Definition linkedIdentity (i : IdentityRow) : bool := (id_userId i =s userId) && (id_providerId i =s providerId).
Definition readState (db : AccDb) : DisconnectState :=
  let current (p : SessionRow -> bool) := existsb (fun s => (ss_id s =s currentSessionId) && p s) (cr_sessions (ac_credentials db)) in
  mkDisconnectState (current (fun s => negb (isNull (ss_impersonatedBy s))))
    (current (fun s => now - RECENT_SIGN_IN_SECONDS * 1000 <? ss_createdAt s))
    (existsb linkedIdentity (dr_identities (ac_directory db)))
    (usableIdentityExistsSql (Some providerId) db userId) (removedThroughProviderSql db userId providerId).
Definition disconnectable (db : AccDb) : bool :=
  existsb linkedIdentity (dr_identities (ac_directory db)) && usableIdentityExistsSql (Some providerId) db userId
  && negb (removedThroughProviderSql db userId providerId).
Definition clear_username (u : AccountRow) : AccountRow :=
  mkAccount (pu_name u) (pu_email u) (pu_image u) None None (pu_role u) (pu_banned u) (pu_banReason u) (pu_banExpires u)
    (pu_deletedAt u) (pu_metalPlacement u) (pu_accessGeneration u) now.
Definition deleteIdentity : AccStmt := fun db =>
  let l := dr_identities (ac_directory db) in
  Ok (set_directory db (set_identities (ac_directory db) (delete_where (fun i => linkedIdentity i && disconnectable db) l)),
      existsb (fun i => linkedIdentity i && disconnectable db) l).
Definition disconnectStatements : list AccStmt :=
  signOutStatements (fun db column => is_user userId column && disconnectable db) (Some currentSessionId) ++
  [updateUser userId (fun db _ => (providerId =s "github") && disconnectable db) clear_username; deleteIdentity].
End disconnect.
