(* ===== verification/AccountRequests.v ===== *)
(** What administrators and account owners ask for: the programs of
    lib/access-revocation.ts, lib/access-revocation-store.ts,
    lib/platform-admin-authority.ts, lib/platform-user-deletion-store.ts,
    lib/personal-host-retirement.ts, lib/account-links.ts and
    lib/account-route-issuance.ts, as requests on the shared tables.

    Runs, routes, shares and host objects are outside: what they do is a call that
    is answered with anything. The ids a request creates are a sequence of its own,
    one for each place that creates one. *)
From stdpp Require Import base gmap list strings.
From Stdlib Require Import ZArith Lia Ascii.
From S2P Require Import Prelude Json Text Store Access Placement Requests RouteRevocation AccountStore.

Open Scope string_scope.
Open Scope list_scope.
Open Scope Z_scope.
Open Scope req_scope.

(** * Errors and calls *)

(** What can be thrown: an [AppError], a failed batch, or another error, with the
    [code] it carries if that is a string. *)
Inductive AccError : Type :=
| ae_app (r : Refusal)
| ae_d1 (c : AccConstraint)
| ae_other (code : option string).
Definition error_code (e : AccError) : option string :=
  match e with ae_app r => Some (rf_code r) | ae_d1 _ => None | ae_other code => code end.
Definition refused {A} (status : Z) (code : string) : result AccError A := Err (ae_app (refusal status code)).

Inductive AccCall : Type -> Type :=
| DateNow : AccCall Z
| DestroyScenarioRun (runId userId : string) : AccCall (result AccError ())
| RevokeScenarioRoutes (userId : string) : AccCall (result AccError ())
| StopRunShares (userId : string) : AccCall (result AccError ())
| RetireHostRuntime (hostId : string) : AccCall (result AccError ())
| WakeHostRuntime (hostId : string) : AccCall (result AccError ())
| CleanupRemovedHost (hostId : string) : AccCall (result AccError ())
| IssueRoute (routeId : string) : AccCall (result AccError (list string))
| RevokeRoute (routeId : string) : AccCall (result AccError ()).

Definition Acc (A : Type) : Type := Req AccCall AccDb (result AccError A).
Definition acc_ok {A} (a : A) : Acc A := Done (Ok a).
Definition acc_throw {A} (e : AccError) : Acc A := Done (Err e).
Definition acc_refuse {A} (status : Z) (code : string) : Acc A := Done (refused status code).
Definition acc_lift {A} (r : result AccError A) : Acc A := Done r.
(** A batch: a constraint it violates is thrown. *)
Definition acc_write (stmts : list AccStmt) : Acc (list bool) :=
  out <-- transaction (run_acc_batch stmts); match out with Ok rows => acc_ok rows | Err c => acc_throw (ae_d1 c) end.

(** * Validation *)

Definition validId (value code : string) : result AccError string :=
  let id := trim value in
  if negb (truthy id) || (255 <? Z.of_nat (String.length id)) then refused 400 code else Ok id.
Definition validUserId (value : string) : result AccError string := validId value "invalid_user_id".
Definition validRevocationId (value : string) : result AccError string := validId value "invalid_access_revocation_id".
Definition reason_start (n : N) : bool := in_range 97 122 n || in_range 48 57 n.
Definition reason_unit (n : N) : bool := reason_start n || existsb (N.eqb n) (code_units "._:-").
(** [^[a-z0-9][a-z0-9._:-]{0,119}$]. *)
Definition validReason (value : string) : result AccError string :=
  let reason := trim value in
  match code_units reason with
  | first :: rest =>
      if reason_start first && forallb reason_unit rest && (Nat.leb (length rest) 119)
      then Ok reason else refused 400 "invalid_access_reason"
  | [] => refused 400 "invalid_access_reason"
  end.
Definition validNow (code : string) (value : Z) : result AccError Z :=
  if negb (safe_integer value) || (value <? 0) then refused 500 code else Ok value.
Definition readClock (code : string) : Acc Z := now <-- call DateNow; acc_lift (validNow code now).

(** [cleanupFailureReason] and [ambiguousCleanupFailureReason]: the error's code in
    the characters of a reason, its other runs one underscore. *)
Fixpoint underscored (within : bool) (s : string) : string :=
  match s with
  | EmptyString => ""
  | String c s' =>
      if reason_unit (N_of_ascii c) then String c (underscored false s')
      else if within then underscored true s' else String "_" (underscored true s')
  end.
Definition first_units (n : nat) (s : string) : string := String.substring 0 n s.
Definition cleanupFailureReason (e : AccError) : string :=
  let code := nullish (error_code e) "unexpected_error" in
  first_units 120 ("cleanup_" +:+ or_str (underscored false (toLowerCase code)) "unexpected_error").
Definition ambiguousCleanupFailureReason (e : AccError) : string := first_units 120 ("ambiguous_" +:+ cleanupFailureReason e).

Definition staleRevocation : AccError := ae_app (refusal 409 "stale_access_revocation").
Definition adminRequiredError : AccError := ae_app (refusal 403 "admin_required").
Definition lastActiveAdminError : AccError := ae_app (refusal 409 "last_active_admin").
Definition userNotFound : AccError := ae_app (refusal 404 "user_not_found").

(** * lib/access-revocation-store.ts *)

(** Classifies a revocation that inserted nothing. *)
Definition revocationFailure (userId actorUserId : string) : Req AccCall AccDb AccError :=
  isAdmin <-- query (fun db => activeAdministrator db actorUserId);
  if negb isAdmin then Done adminRequiredError else
  target <-- query (fun db => (option_map pu_deletedAt (ac_users db !! userId), isNull (ac_revocations db !! userId)));
  match fst target with
  | Some None =>
      if negb (snd target) then Done (ae_app (refusal 409 "access_already_revoked")) else
      lastAdmin <-- query (fun db => isLastActiveAdmin db userId);
      if lastAdmin : bool then Done lastActiveAdminError
      else Done (ae_app (refusal 409 "access_revocation_conflict"))
  | _ => Done userNotFound
  end.
Definition revokeAccount (revocationId blockedEventId userId0 actor0 reason0 : string) : Acc string :=
  now <-! readClock "invalid_timestamp";
  userId <-! acc_lift (validUserId userId0);
  actorUserId <-! acc_lift (validUserId actor0);
  reason <-! acc_lift (validReason reason0);
  rows <-! acc_write (revokeStatements userId actorUserId reason revocationId blockedEventId now);
  match rows with
  | true :: _ => acc_ok revocationId
  | _ => e <-- revocationFailure userId actorUserId; acc_throw e
  end.

Inductive CleanupClaim : Type := claim_acquired (cleanupAttemptId : string) | claim_completed.
Definition acquireAccessRevocationCleanup (cleanupAttemptId userId0 revocationId0 : string) : Acc CleanupClaim :=
  now <-! readClock "invalid_timestamp";
  userId <-! acc_lift (validUserId userId0);
  revocationId <-! acc_lift (validRevocationId revocationId0);
  rows <-! acc_write [acquireStatement userId revocationId now cleanupAttemptId];
  match rows with
  | [true] => acc_ok (claim_acquired cleanupAttemptId)
  | _ =>
      row <-- query (fun db => ac_revocations db !! userId);
      match row with
      | Some r =>
          if negb (vo_revocationId r =s revocationId) then acc_throw staleRevocation else
          match vo_cleanupAttemptId r, vo_cleanupStartedAt r, vo_cleanupCompletedAt r with
          | Some attempt, Some _, Some _ => if truthy attempt then acc_ok claim_completed else acc_throw staleRevocation
          | Some attempt, _, _ =>
              if truthy attempt then acc_refuse 409 "access_revocation_cleanup_in_progress" else acc_throw staleRevocation
          | None, _, _ => acc_throw staleRevocation
          end
      | None => acc_throw staleRevocation
      end
  end.
Definition completeAccessRevocationCleanup (completedEventId userId0 revocationId0 attempt0 : string) : Acc () :=
  now <-! readClock "invalid_timestamp";
  userId <-! acc_lift (validUserId userId0);
  revocationId <-! acc_lift (validRevocationId revocationId0);
  cleanupAttemptId <-! acc_lift (validRevocationId attempt0);
  rows <-! acc_write (completeStatements userId revocationId now cleanupAttemptId completedEventId);
  match rows with
  | true :: _ => acc_ok ()
  | _ =>
      done <-- query (revocation_where (fun r => byAttempt cleanupAttemptId r && negb (isNull (vo_cleanupCompletedAt r))) userId revocationId);
      if done : bool then acc_ok () else acc_throw staleRevocation
  end.
(** [recordAccessRevocationCleanupFailure] and [recordAccessRevocationCleanupStall]. *)
Definition recordCleanup (batch : string -> string -> Z -> string -> option string -> string -> list AccStmt)
    (userId0 revocationId0 attempt0 : string) (actor0 : option string) (reason0 : string) : Acc () :=
  now <-! readClock "invalid_timestamp";
  userId <-! acc_lift (validUserId userId0);
  revocationId <-! acc_lift (validRevocationId revocationId0);
  cleanupAttemptId <-! acc_lift (validRevocationId attempt0);
  actor <-! match actor0 with None => acc_ok None | Some a => id <-! acc_lift (validUserId a); acc_ok (Some id) end;
  reason <-! acc_lift (validReason reason0);
  rows <-! acc_write (batch userId revocationId now cleanupAttemptId actor reason);
  match rows with true :: _ => acc_ok () | _ => acc_throw staleRevocation end.
Definition recordAccessRevocationCleanupFailure (eventId : string) :=
  recordCleanup (fun userId revocationId now attempt actor why => failureStatements userId revocationId now attempt eventId actor why).
Definition recordAccessRevocationCleanupStall (eventId : string) :=
  recordCleanup (fun userId revocationId now attempt actor why =>
    [cleanupEvent userId revocationId now attempt eventId access_revocation_cleanup_stalled actor why]).

Inductive AccessRestoreOutcome : Type := outcome_restored | outcome_already_restored.
Definition restoreFailure (userId actorUserId revocationId : string) : Acc AccessRestoreOutcome :=
  isAdmin <-- query (fun db => activeAdministrator db actorUserId);
  if negb isAdmin then acc_throw adminRequiredError else
  target <-- query (fun db => (ac_users db !! userId, ac_revocations db !! userId,
    existsb (fun e => sql_eq (ev_subjectUserId e) (Some userId) && sql_eq (ev_revocationId e) (Some revocationId)
      && bool_decide (ev_eventType e = access_restored)) (ac_events db)));
  match target with
  | (Some u, row, wasRestored) =>
      if negb (isNull (pu_deletedAt u)) then acc_throw userNotFound else
      match row with
      | None => if wasRestored && activeAccountSql u then acc_ok outcome_already_restored else acc_refuse 409 "access_not_revoked"
      | Some r =>
          if negb (vo_revocationId r =s revocationId) then acc_throw staleRevocation
          else if isNull (vo_cleanupCompletedAt r) then acc_refuse 409 "access_cleanup_incomplete"
          else acc_refuse 409 "access_restore_conflict"
      end
  | (None, _, _) => acc_throw userNotFound
  end.
Definition restoreAccount (eventId userId0 actor0 revocationId0 : string) : Acc AccessRestoreOutcome :=
  now <-! readClock "invalid_timestamp";
  userId <-! acc_lift (validUserId userId0);
  actorUserId <-! acc_lift (validUserId actor0);
  revocationId <-! acc_lift (validRevocationId revocationId0);
  rows <-! acc_write (restoreStatements userId actorUserId revocationId eventId now);
  match rows with
  | true :: _ => acc_ok outcome_restored
  | _ => restoreFailure userId actorUserId revocationId
  end.

(** * lib/access-revocation.ts *)

Inductive RevocationCleanup : Type := cleanup_pending | cleanup_running | cleanup_done.
Record AccessRevocationStatus : Type := mkStatus { rs_revocationId : string; rs_cleanup : RevocationCleanup }.
Definition statusOf (r : RevocationRow) : AccessRevocationStatus :=
  mkStatus (vo_revocationId r)
    (if negb (isNull (vo_cleanupCompletedAt r)) then cleanup_done
     else if negb (isNull (vo_cleanupAttemptId r)) then cleanup_running else cleanup_pending).
Definition readCurrentRevocation (userId : string) : Req AccCall AccDb (option RevocationRow) :=
  query (fun db => ac_revocations db !! userId).
Definition getAccessRevocationStatus (userId : string) : Req AccCall AccDb (option AccessRevocationStatus) :=
  current <-- readCurrentRevocation userId; Done (option_map statusOf current).
Definition assertRevocationFence (userId revocationId cleanupAttemptId : string) : Acc () :=
  current <-- readCurrentRevocation userId;
  match current with
  | Some r =>
      if (vo_revocationId r =s revocationId) && byAttempt cleanupAttemptId r && isNull (vo_cleanupCompletedAt r)
      then acc_ok () else acc_throw staleRevocation
  | None => acc_throw staleRevocation
  end.

(** The body of [cleanupAccessRevocation]: its outcome, and whether external
    cleanup was dispatched before it. *)
Definition CleanupAttempt : Type := Req AccCall AccDb (bool * result AccError ()).
Definition attempt {A} (dispatched : bool) (p : Acc A) (k : A -> CleanupAttempt) : CleanupAttempt :=
  r <-- p; match r with Ok a => k a | Err e => Done (dispatched, Err e) end.
(** An external cleanup: a failure is kept and the next goes on. *)
Definition tolerate (failures : list AccError) (c : AccCall (result AccError ())) (k : list AccError -> CleanupAttempt) : CleanupAttempt :=
  r <-- call c; k (failures ++ match r with Ok _ => [] | Err e => [e] end).

Section cleanup.
Variable userId revocationId cleanupAttemptId completedEventId : string.
#[local] Abbreviation fenced := (assertRevocationFence userId revocationId cleanupAttemptId).

Definition isActiveRun (run : UserRunRow) : bool :=
  (ur_userId run =s userId) && isNull (ur_hiddenAt run) && isNull (ur_completedAt run) && isNull (ur_failedAt run).
Fixpoint destroyRuns (runs : list UserRunRow) (dispatched : bool) (failures : list AccError)
    (k : bool -> list AccError -> CleanupAttempt) : CleanupAttempt :=
  match runs with
  | [] => k dispatched failures
  | run :: rest =>
      attempt dispatched fenced (fun _ =>
        tolerate failures (DestroyScenarioRun (ur_runId run) userId) (fun failures => destroyRuns rest true failures k))
  end.
(** A fenced call for each host. *)
Fixpoint eachHost (c : string -> AccCall (result AccError ())) (hosts : list string) (failures : list AccError)
    (k : list AccError -> CleanupAttempt) : CleanupAttempt :=
  match hosts with
  | [] => k failures
  | h :: rest => attempt true fenced (fun _ => tolerate failures (c h) (fun failures => eachHost c rest failures k))
  end.
Definition cleanupBody : CleanupAttempt :=
  attempt false fenced (fun _ =>
  personalHosts <-- query (fun db => map sh_id (List.filter (personalOf userId) (sv_hosts (ac_servers db))));
  activeUserRuns <-- query (fun db => List.filter isActiveRun (sv_runs (ac_servers db)));
  now <-- call DateNow;
  attempt false (acc_write (accountCredentialSweepStatements (cleanupFence userId revocationId cleanupAttemptId) userId now)) (fun _ =>
  attempt false fenced (fun _ =>
  destroyRuns activeUserRuns false [] (fun dispatched failures =>
  attempt dispatched fenced (fun _ =>
  tolerate failures (RevokeScenarioRoutes userId) (fun failures =>
  tolerate failures (StopRunShares userId) (fun failures =>
  eachHost RetireHostRuntime personalHosts failures (fun failures =>
  eachHost WakeHostRuntime (Set_new (personalHosts ++ map ur_hostId activeUserRuns)) failures (fun failures =>
  match failures with
  | e :: _ => Done (true, Err e)
  | [] =>
      r <-- completeAccessRevocationCleanup completedEventId userId revocationId cleanupAttemptId; Done (true, r)
  end))))))))).
End cleanup.

Definition cleanupAccessRevocation (attemptId completedEventId failureEventId userId revocationId actorUserId : string) : Acc () :=
  claim <-! acquireAccessRevocationCleanup attemptId userId revocationId;
  match claim with
  | claim_completed => acc_ok ()
  | claim_acquired cleanupAttemptId =>
      outcome <-- cleanupBody userId revocationId cleanupAttemptId completedEventId;
      match outcome with
      | (_, Ok _) => acc_ok ()
      | (dispatched, Err e) =>
          _ <-- (if dispatched : bool
                 then recordAccessRevocationCleanupStall failureEventId userId revocationId cleanupAttemptId (Some actorUserId)
                        (ambiguousCleanupFailureReason e)
                 else recordAccessRevocationCleanupFailure failureEventId userId revocationId cleanupAttemptId (Some actorUserId)
                        (cleanupFailureReason e));
          acc_throw e
      end
  end.

(** The ids a request creates: its revocation, the event of it, the attempt at its
    cleanup and that attempt's events, the event of a restore or deletion and the
    deleted account's address. *)
Section requests.
Variable ids : nat -> string.

Definition runRevocationCleanup (userId revocationId actorUserId : string) : Acc () :=
  r <-- cleanupAccessRevocation (ids 2%nat) (ids 3%nat) (ids 4%nat) userId revocationId actorUserId;
  match r with
  | Ok _ => acc_ok ()
  | Err (ae_app e) => if rf_status e =? 409 then acc_throw (ae_app e) else acc_refuse 503 "access_cleanup_incomplete"
  | Err _ => acc_refuse 503 "access_cleanup_incomplete"
  end.
Definition revokeAccess (userId actorUserId reason : string) : Acc string :=
  revocationId <-! revokeAccount (ids 0%nat) (ids 1%nat) userId actorUserId reason;
  _ <-! runRevocationCleanup userId revocationId actorUserId;
  acc_ok revocationId.
Definition finishAccessRevocationCleanup (userId revocationId actorUserId : string) : Acc () :=
  revocation <-- getAccessRevocationStatus userId;
  match revocation with
  | Some s =>
      if negb (rs_revocationId s =s revocationId) then acc_throw staleRevocation
      else match rs_cleanup s with cleanup_done => acc_ok () | _ => runRevocationCleanup userId revocationId actorUserId end
  | None => acc_throw staleRevocation
  end.
Definition already_revoked (e : AccError) : bool :=
  match e with ae_app r => rf_code r =s "access_already_revoked" | _ => false end.
(** The revocation [ensureAccessRevoked] goes on with. *)
Definition ensureRevocation (userId actorUserId reason : string) : Acc AccessRevocationStatus :=
  revocation <-- getAccessRevocationStatus userId;
  match revocation with
  | Some s => acc_ok s
  | None =>
      created <-- revokeAccount (ids 0%nat) (ids 1%nat) userId actorUserId reason;
      match created with
      | Ok revocationId => acc_ok (mkStatus revocationId cleanup_pending)
      | Err e =>
          if already_revoked e then
            again <-- getAccessRevocationStatus userId;
            match again with Some s => acc_ok s | None => acc_throw e end
          else acc_throw e
      end
  end.
Definition ensureAccessRevoked (userId actorUserId reason : string) : Acc string :=
  revocation <-! ensureRevocation userId actorUserId reason;
  match rs_cleanup revocation with
  | cleanup_done => acc_ok (rs_revocationId revocation)
  | _ =>
      _ <-! runRevocationCleanup userId (rs_revocationId revocation) actorUserId;
      acc_ok (rs_revocationId revocation)
  end.

Fixpoint finishRemovals (userId : string) (hosts : list string) (pending : Z) : Acc Z :=
  match hosts with
  | [] => acc_ok pending
  | h :: rest =>
      done <-- (_ <-! call (CleanupRemovedHost h); now <-- call DateNow; acc_write [completeRemoval h userId now]);
      finishRemovals userId rest (match done with Ok _ => pending | Err _ => pending + 1 end)
  end.
Definition restoreAccess (userId actorUserId revocationId : string) : Acc Z :=
  _ <-! restoreAccount (ids 5%nat) userId actorUserId revocationId;
  retired <-- query (fun db => map sh_id (List.filter (pendingRemoval userId) (sv_hosts (ac_servers db))));
  finishRemovals userId retired 0.

(** * lib/platform-user-deletion-store.ts and the administrators' route *)

Definition assertPlatformUserDeletionAllowed (target0 actor0 : string) : Acc () :=
  targetUserId <-! acc_lift (validUserId target0);
  actorUserId <-! acc_lift (validUserId actor0);
  if targetUserId =s actorUserId then acc_refuse 409 "platform_user_self_delete_forbidden" else
  target <-- query (fun db => option_map pu_deletedAt (ac_users db !! targetUserId));
  actorIsAdmin <-- query (fun db => activeAdministrator db actorUserId);
  lastAdmin <-- query (fun db => isLastActiveAdmin db targetUserId);
  soleOwned <-- query (ownsAlone targetUserId);
  match target with
  | Some None =>
      if negb actorIsAdmin then acc_throw adminRequiredError
      else if lastAdmin : bool then acc_throw lastActiveAdminError
      else if soleOwned : bool then acc_refuse 409 "platform_user_owns_organization"
      else acc_ok ()
  | _ => acc_throw userNotFound
  end.
Definition throwPlatformUserDeletionFailure (targetUserId actorUserId : string) : Acc () :=
  _ <-! assertPlatformUserDeletionAllowed targetUserId actorUserId;
  row <-- query (fun db => option_map vo_cleanupCompletedAt (ac_revocations db !! targetUserId));
  match row with
  | None => acc_refuse 409 "platform_user_access_active"
  | Some None => acc_refuse 409 "platform_user_cleanup_incomplete"
  | Some (Some _) => acc_refuse 409 "platform_user_delete_conflict"
  end.
Definition finalizePlatformUserDeletion (target0 actor0 : string) : Acc () :=
  targetUserId <-! acc_lift (validUserId target0);
  actorUserId <-! acc_lift (validUserId actor0);
  now <-! readClock "clock_invalid";
  _ <-! assertPlatformUserDeletionAllowed targetUserId actorUserId;
  rows <-! acc_write (deletionStatements targetUserId actorUserId (ids 5%nat) ("deleted-" +:+ ids 6%nat +:+ "@deleted.invalid") now);
  match last rows with
  | Some true => acc_ok ()
  | _ => throwPlatformUserDeletionFailure targetUserId actorUserId
  end.
(** [DELETE /api/admin/users/:userId]. *)
Definition deletePlatformUser (userId actorUserId : string) : Acc () :=
  let targetUserId := trim userId in
  if negb (truthy targetUserId) then acc_refuse 400 "user_id_required" else
  _ <-! assertPlatformUserDeletionAllowed targetUserId actorUserId;
  _ <-! ensureAccessRevoked targetUserId actorUserId "admin_deleted";
  finalizePlatformUserDeletion targetUserId actorUserId.

(** * lib/platform-admin-authority.ts *)

Definition throwPlatformUserMutationFailure (targetUserId actorUserId : string) (promote : bool) : Acc () :=
  target <-- query (fun db => option_map pu_deletedAt (ac_users db !! targetUserId));
  actorIsAdmin <-- query (fun db => activeAdministrator db actorUserId);
  match target with
  | Some None =>
      if negb actorIsAdmin then acc_throw adminRequiredError
      else if promote then acc_refuse 409 "admin_sign_in_required"
      else acc_throw lastActiveAdminError
  | _ => acc_throw userNotFound
  end.
Definition setPlatformUserRole (target0 actor0 : string) (role : PlatformUserRole) : Acc () :=
  targetUserId <-! acc_lift (validUserId target0);
  actorUserId <-! acc_lift (validUserId actor0);
  now <-! readClock "clock_invalid";
  rows <-! acc_write (setRoleStatements targetUserId actorUserId role now);
  match last rows with
  | Some true => acc_ok ()
  | _ => throwPlatformUserMutationFailure targetUserId actorUserId (promoting role)
  end.

(** * lib/personal-host-retirement.ts and lib/account-links.ts *)

Definition retirePersonalHost (hostId userId : string) (confirmReturnToCloud : bool) : Acc UserPlacement :=
  now <-- call DateNow;
  rows <-! acc_write (retirePersonalHostStatements hostId userId (ids 0%nat) confirmReturnToCloud now);
  result <-- query (fun db =>
    match List.find (fun h => ownedServer hostId userId db h) (sv_hosts (ac_servers db)) with
    | Some h => Some (sh_disabled h, sh_ownerRemovalId h, option_map pu_metalPlacement (ac_users db !! userId))
    | None => None
    end);
  match result with
  | Some (disabled, removal, Some placement) =>
      let removed := match rows with true :: _ => true | _ => false end in
      if negb removed && (negb disabled || negb (truthy_opt removal)) then acc_refuse 409 "last_server_confirmation_required"
      else acc_ok placement
  | _ => acc_refuse 404 "server_not_found"
  end.

Definition lastSignInMethodError : AccError := ae_app (refusal 409 "last_sign_in_method").
Definition disconnectRefusal (s : DisconnectState) : option AccError :=
  if dc_impersonating s then Some (ae_app (refusal 403 "impersonation_unlink_forbidden"))
  else if negb (dc_linked s) then Some (ae_app (refusal 404 "identity_not_found"))
  else if dc_removed s then Some (ae_app (refusal 409 "identity_removed"))
  else if negb (dc_otherSignIn s) then Some lastSignInMethodError
  else if negb (dc_recent s) then Some (ae_app (refusal 403 "session_not_fresh"))
  else None.
Definition disconnectIdentity (userId providerId currentSessionId : string) : Acc () :=
  now1 <-- call DateNow;
  before <-- query (readState userId providerId currentSessionId now1);
  match disconnectRefusal before with
  | Some e => acc_throw e
  | None =>
      now2 <-- call DateNow;
      rows <-! acc_write (disconnectStatements userId providerId currentSessionId now2);
      match last rows with
      | Some true => acc_ok ()
      | _ =>
          now3 <-- call DateNow;
          after <-- query (readState userId providerId currentSessionId now3);
          acc_throw (nullish (disconnectRefusal after) lastSignInMethodError)
      end
  end.
End requests.

(** * lib/account-route-issuance.ts *)

(** What an issuance throws: one error, or it and what kept its routes from being
    revoked. *)
Inductive RouteError : Type :=
| route_failed (e : AccError)
| route_not_revoked (e : AccError) (failures : list AccError).
Definition accountAccessRevoked : AccError := ae_app (refusal 403 "access_revoked").

Definition failClosed (issued : list string) (e : AccError) : Req AccCall AccDb (result RouteError (list string)) :=
  failures <-- revokeAllRoutes RevokeRoute issued;
  Done (Err (match failures with [] => route_failed e | _ => route_not_revoked e failures end)).
(** [issue] answers with the ids of the routes it made. *)
Definition issueAccountFencedRoute (userId routeId : string) : Req AccCall AccDb (result RouteError (list string)) :=
  generation <-- query (fun db => activeAccessGeneration db userId);
  match generation with
  | None => Done (Err (route_failed accountAccessRevoked))
  | Some g =>
      r <-- call (IssueRoute routeId);
      match r with
      | Err e => failClosed [routeId] e
      | Ok made =>
          after <-- query (fun db => activeAccessGeneration db userId);
          if bool_decide (after = Some g) then Done (Ok made) else failClosed (routeId :: made) accountAccessRevoked
      end
  end.

(** * lib/auth.ts: once a GitHub account was linked *)

Definition deleteLinkedIdentity (identityId : string) : AccStmt :=
  on_directory (fun _ d => set_identities d
    (delete_where (fun i => (id_id i =s identityId) && (id_providerId i =s "github")) (dr_identities d))).
(** The session that asked for the link has to be there still, and its account active
    at the generation the session acted at; else the identity goes again. *)
Definition confirmGithubLink (identityId userId linkSessionId : string) (linkAccessGeneration : option Z) : Acc () :=
  link <-- query (fun db =>
    (existsb (fun s => ss_id s =s linkSessionId) (cr_sessions (ac_credentials db)),
     user_where (fun u => activeAccountSql u && (pu_accessGeneration u =? nullish linkAccessGeneration (-1))) db userId));
  if fst link && snd link then acc_ok () else
  _ <-! acc_write [deleteLinkedIdentity identityId];
  acc_refuse 403 (if fst link : bool then "access_revoked" else "link_session_ended").
