(* ===== verification/AccountSafety.v ===== *)
(** What holds of accounts whatever administrators and owners do side by side: an
    administrator who can sign in remains, a revoked account is a banned one, access
    seen twice at one generation was held in between, and a cleanup completes once. *)
From stdpp Require Import base gmap list strings relations.
From Stdlib Require Import ZArith Lia.
From S2P Require Import Prelude Json Text Store Access Placement Requests Interference AccountStore AccountRequests.

Open Scope string_scope.
Open Scope list_scope.
Open Scope Z_scope.
Open Scope req_scope.

(** * Administrators who can sign in *)

Lemma user_where_spec p db id : user_where p db id = true <-> exists u, ac_users db !! id = Some u /\ p u = true.
Proof. unfold user_where. destruct (ac_users db !! id) as [u|]; naive_solver. Qed.

(** Organizations sign no administrator in, so it is GitHub that does. *)
Definition hasGithubIdentity (l : list IdentityRow) (id : string) : Prop :=
  exists i, In i l /\ id_userId i = id /\ id_providerId i = "github".
Lemma signingAdmin_spec db id :
  signingAdmin db id = true <-> activeAdministrator db id = true /\ hasGithubIdentity (dr_identities (ac_directory db)) id.
Proof.
  unfold signingAdmin, usableIdentityExistsSql, usableIdentitySql, organizationSignInAllowedSql. rewrite andb_true_iff, existsb_exists.
  split; intros [Ha H]; (split; [done|]).
  - destruct H as (i & Hi & Hu). reflect_bools. subst id. exists i. split_and!; [done|done|].
    destruct (id_providerId i =s "github") eqn:Eg; [by reflect_bools|]. cbn in *.
    match goal with Hx : existsb _ _ = true |- _ => apply existsb_exists in Hx as (p & _ & Hp) end. reflect_bools. congruence.
  - destruct H as (i & Hi & <- & Hp). exists i. split; [done|]. rewrite Hp. by rewrite String.eqb_refl.
Qed.

Lemma another_spec db id :
  existsb (fun p => negb (fst p =s id) && signingAdmin db (fst p)) (map_to_list (ac_users db)) = true
  <-> exists other, other <> id /\ signingAdmin db other = true.
Proof.
  rewrite existsb_exists. split.
  - intros ([o u] & _ & Hp). cbn in Hp. reflect_bools. eauto.
  - intros (o & Hne & Ho). pose proof Ho as [Ha _]%signingAdmin_spec. apply user_where_spec in Ha as (u & Hu & _).
    exists (o, u). split; [by apply list_elem_of_In, elem_of_map_to_list|]. cbn. rewrite Ho. apply String.eqb_neq in Hne. by rewrite Hne.
Qed.
Lemma lastAdministratorSafe_spec db id :
  lastAdministratorSafe db id = true <->
  (signingAdmin db id = true -> exists other, other <> id /\ signingAdmin db other = true).
Proof.
  unfold lastAdministratorSafe. rewrite orb_true_iff, another_spec, negb_true_iff. destruct (signingAdmin db id); naive_solver.
Qed.

(** * What the theorems are about *)

Definition administered (db : AccDb) : Prop := exists id, signingAdmin db id = true.

(** What no change takes back: an account keeps its row, its generation grows, it
    grows when access ends, and deletion is final. *)
Definition account_kept (u u' : AccountRow) : Prop :=
  pu_accessGeneration u <= pu_accessGeneration u' /\
  (activeAccountSql u = true -> activeAccountSql u' = true \/ pu_accessGeneration u < pu_accessGeneration u') /\
  (pu_deletedAt u <> None -> pu_deletedAt u' <> None).
Definition access_kept (db db' : AccDb) : Prop :=
  forall id u, ac_users db !! id = Some u -> exists u', ac_users db' !! id = Some u' /\ account_kept u u'.

Lemma account_kept_refl u : account_kept u u.
Proof. split_and!; [lia|auto|done]. Qed.
Lemma account_kept_trans a b c : account_kept a b -> account_kept b c -> account_kept a c.
Proof.
  intros (H1 & H2 & H3) (H4 & H5 & H6). split_and!; [lia| |auto]. intros Ha. destruct (H2 Ha) as [Hb|?]; [|right; lia].
  destruct (H5 Hb); [by left|right; lia].
Qed.
#[export] Instance access_kept_po : PreOrder access_kept.
Proof.
  split.
  - intros db id u Hu. exists u. split; [done|apply account_kept_refl].
  - intros a b c H1 H2 id u Hu. destruct (H1 id u Hu) as (v & Hv & ?). destruct (H2 id v Hv) as (w & Hw & ?). exists w.
    split; [done|by eapply account_kept_trans].
Qed.

Lemma access_kept_same db db' : ac_users db' = ac_users db -> access_kept db db'.
Proof. intros E id u Hu. exists u. rewrite E. split; [done|apply account_kept_refl]. Qed.

(** The revocations whose cleanup an event says completed. *)
Definition completions (es : list EventRow) : list string :=
  omap (fun e => if bool_decide (ev_eventType e = access_revocation_cleanup_completed) then ev_revocationId e else None) es.

Record acc_wf (db : AccDb) : Prop := mk_acc_wf {
  wf_revoked : forall id r, ac_revocations db !! id = Some r -> exists u, ac_users db !! id = Some u /\ pu_banned u = Some true;
  wf_banned : forall id u, ac_users db !! id = Some u -> pu_deletedAt u = None -> pu_banned u = Some true ->
    pu_banReason u = Some "access_revoked" /\ is_Some (ac_revocations db !! id);
  wf_cleanup : forall id r, ac_revocations db !! id = Some r -> cleanup_valid r = true;
  wf_distinct : forall id id' r r', ac_revocations db !! id = Some r -> ac_revocations db !! id' = Some r' ->
    vo_revocationId r = vo_revocationId r' -> id = id';
  wf_completed : forall id r, ac_revocations db !! id = Some r -> In (vo_revocationId r) (completions (ac_events db)) ->
    vo_cleanupCompletedAt r <> None;
  wf_recorded : forall id r a, ac_revocations db !! id = Some r -> vo_cleanupCompletedAt r <> None ->
    vo_cleanupAttemptId r = Some a -> completedBefore id (vo_revocationId r) a db = true;
  wf_once : NoDup (completions (ac_events db));
}.

(** The ids events and revocations bear. *)
Definition mentioned (db : AccDb) (x : string) : Prop :=
  (exists e, In e (ac_events db) /\ (ev_id e = x \/ ev_revocationId e = Some x)) \/
  (exists id r, ac_revocations db !! id = Some r /\ vo_revocationId r = x).

(** A permitted change, which mentions no id but these for the first time. *)
Definition changes (used : string -> Prop) (db db' : AccDb) : Prop :=
  access_kept db db' /\ (administered db -> administered db') /\ forall x, mentioned db' x -> mentioned db x \/ used x.

(** What these are about. *)
Record same_core (db db' : AccDb) : Prop := mk_same_core {
  core_users : ac_users db' = ac_users db;
  core_revocations : ac_revocations db' = ac_revocations db;
  core_events : ac_events db' = ac_events db;
  core_identities : dr_identities (ac_directory db') = dr_identities (ac_directory db);
}.
#[export] Instance same_core_po : PreOrder same_core.
Proof. split; [by intros db|]. intros a b c [] []. split; congruence. Qed.

Lemma administered_same db db' :
  (forall id, activeAdministrator db id = true -> activeAdministrator db' id = true) ->
  (forall id, activeAdministrator db id = true -> hasGithubIdentity (dr_identities (ac_directory db)) id ->
     hasGithubIdentity (dr_identities (ac_directory db')) id) ->
  administered db -> administered db'.
Proof. intros Ha Hi (id & [? ?]%signingAdmin_spec). exists id. apply signingAdmin_spec. auto. Qed.
Lemma core_wf db db' : same_core db db' -> acc_wf db -> acc_wf db'.
Proof.
  intros [E1 E2 E3 _] [H1 H2 H3 H4 H5 H6 H7]. split; rewrite ?E1, ?E2, ?E3; try done.
  unfold completedBefore. by rewrite E3.
Qed.
Lemma core_changes used db db' : same_core db db' -> changes used db db'.
Proof.
  intros [E1 E2 E3 E4]. split_and!.
  - by apply access_kept_same.
  - apply administered_same; unfold activeAdministrator, user_where; [by rewrite E1|by rewrite E4].
  - unfold mentioned. rewrite E2, E3. auto.
Qed.

(** ** Batches that leave them alone *)

Definition keeps_core (s : AccStmt) : Prop := forall db, exists db' b, s db = Ok (db', b) /\ same_core db db'.
Lemma batch_core l db : Forall keeps_core l -> exists db' bs, acc_batch l db = Ok (db', bs) /\ same_core db db'.
Proof.
  intros Hl. revert db. induction Hl as [|s l Hs _ IH]; intros db; [by exists db, []|].
  destruct (Hs db) as (d1 & b & E1 & H1). destruct (IH d1) as (d2 & bs & E2 & H2). exists d2, (b :: bs).
  cbn. rewrite E1. cbn. rewrite E2. split; [done|by etrans].
Qed.
Lemma acc_batch_app l1 l2 db :
  acc_batch (l1 ++ l2) db =
  match acc_batch l1 db with
  | Ok p => match acc_batch l2 (fst p) with Ok q => Ok (fst q, snd p ++ snd q) | Err c => Err c end
  | Err c => Err c
  end.
Proof.
  revert db. induction l1 as [|s l1 IH]; intros db; cbn.
  - by destruct (acc_batch l2 db) as [[? ?]|].
  - destruct (s db) as [[d b]|]; cbn; [|done]. rewrite IH. destruct (acc_batch l1 d) as [[d1 bs]|]; cbn; [|done].
    by destruct (acc_batch l2 d1) as [[d2 cs]|].
Qed.

Lemma core_credentials f : keeps_core (on_credentials f).
Proof. intros db. eexists _, _. by split. Qed.
Lemma core_servers f : keeps_core (on_servers f).
Proof. intros db. eexists _, _. by split. Qed.
Lemma core_members f : keeps_core (on_directory (fun db d => set_members d (f db d))).
Proof. intros db. eexists _, _. by split. Qed.
Lemma core_invitations f : keeps_core (on_directory (fun db d => set_invitations d (f db d))).
Proof. intros db. eexists _, _. by split. Qed.
Lemma core_reservations f : keeps_core (on_directory (fun db d => set_signupReservations d (f db d))).
Proof. intros db. eexists _, _. by split. Qed.
Lemma core_slots f : keeps_core (on_directory (fun db d => set_runtimeSlots d (f db d))).
Proof. intros db. eexists _, _. by split. Qed.
Lemma core_sign_out condition keep : Forall keeps_core (signOutStatements condition keep).
Proof. unfold signOutStatements. repeat constructor; apply core_credentials. Qed.
Lemma core_sweep guard userId now : Forall keeps_core (accountCredentialSweepStatements guard userId now).
Proof.
  apply Forall_app. split; [apply core_sign_out|].
  repeat constructor; (apply core_credentials || apply core_servers).
Qed.
Lemma core_retired retiredHost now : Forall keeps_core (retiredHostCredentialStatements retiredHost now).
Proof. repeat constructor; apply core_servers. Qed.
Create HintDb core_db.
#[export] Hint Resolve core_credentials core_servers core_members core_invitations core_reservations core_slots core_sign_out core_sweep core_retired : core_db.

(** * Every batch keeps them *)

Definition good (used : string -> Prop) (P : AccDb -> Prop) (l : list AccStmt) : Prop :=
  forall db db' bs, acc_wf db -> P db -> acc_batch l db = Ok (db', bs) -> acc_wf db' /\ changes used db db'.
Definition nothing (x : string) : Prop := False.
Definition anyway (db : AccDb) : Prop := True.

Lemma good_core used P l : Forall keeps_core l -> good used P l.
Proof.
  intros Hl db db' bs Hwf _ E. destruct (batch_core l db Hl) as (d & cs & E' & Hc). rewrite E' in E. simplify_eq.
  split; [by eapply core_wf|by apply core_changes].
Qed.
Lemma changes_trans used a b c : changes used a b -> changes used b c -> changes used a c.
Proof.
  intros (H1 & H2 & H3) (H4 & H5 & H6). split_and!; [by etrans|auto|]. intros x Hx. destruct (H6 x Hx) as [Hb|]; [|by right].
  by apply H3.
Qed.
Lemma changes_more (used used' : string -> Prop) a b : (forall x, used x -> used' x) -> changes used a b -> changes used' a b.
Proof. intros Hu (H1 & H2 & H3). split_and!; [done|done|]. intros x Hx. destruct (H3 x Hx); auto. Qed.
Lemma good_seq used P l1 l2 : good used P l1 -> good used anyway l2 -> good used P (l1 ++ l2).
Proof.
  intros H1 H2 db db' bs Hwf Hp E. rewrite acc_batch_app in E. destruct (acc_batch l1 db) as [[d cs]|] eqn:E1; cbn in E; [|done].
  destruct (acc_batch l2 d) as [[d2 ds]|] eqn:E2; cbn in E; [|done]. simplify_eq.
  destruct (H1 _ _ _ Hwf Hp E1) as [Hw1 Hc1]. destruct (H2 _ _ _ Hw1 I E2) as [Hw2 Hc2]. split; [done|by eapply changes_trans].
Qed.

(** ** Changes of one account *)

Section account.
Variables (db : AccDb) (id : string) (u u' : AccountRow).
Hypothesis Hu : ac_users db !! id = Some u.
#[local] Abbreviation db' := (set_users db (<[id := u']> (ac_users db))).

Lemma other_account id' : id' <> id -> ac_users db' !! id' = ac_users db !! id'.
Proof. intros. cbn. by rewrite lookup_insert_ne. Qed.
Lemma user_wf :
  pu_banned u' = pu_banned u -> pu_banReason u' = pu_banReason u -> (pu_deletedAt u' = None -> pu_deletedAt u = None) ->
  acc_wf db -> acc_wf db'.
Proof.
  intros Eb Er Ed [H1 H2 H3 H4 H5 H6 H7]. split; try done.
  - intros i r Hr. destruct (H1 i r Hr) as (v & Hv & Hb). destruct (decide (i = id)) as [->|Hne].
    + exists u'. cbn. rewrite lookup_insert_eq. split; [done|]. congruence.
    + exists v. by rewrite other_account.
  - intros i v Hv Hd Hb. destruct (decide (i = id)) as [->|Hne].
    + cbn in Hv. rewrite lookup_insert_eq in Hv. simplify_eq. rewrite Er. apply (H2 id u); [done|auto|congruence].
    + rewrite other_account in Hv by done. by apply (H2 i v).
Qed.
Lemma user_kept : account_kept u u' -> access_kept db db'.
Proof.
  intros Hk i v Hv. destruct (decide (i = id)) as [->|Hne].
  - exists u'. cbn. rewrite lookup_insert_eq. split; [done|]. by simplify_eq.
  - exists v. rewrite other_account by done. split; [done|apply account_kept_refl].
Qed.
Lemma user_administered :
  (signingAdmin db id = true -> activeAdminSql u' = true \/ exists other, other <> id /\ signingAdmin db other = true) ->
  administered db -> administered db'.
Proof.
  intros Hs (a & Ha).
  assert (Hother : forall o, o <> id -> signingAdmin db o = true -> administered db').
  { intros o Hne [Ho Hg]%signingAdmin_spec. exists o. apply signingAdmin_spec. split; [|done].
    unfold activeAdministrator, user_where. by rewrite other_account. }
  destruct (decide (a = id)) as [->|Hne]; [|by eapply Hother]. destruct (Hs Ha) as [Hact|(o & Hne & Ho)]; [|by eapply Hother].
  apply signingAdmin_spec in Ha as [_ Hg]. exists id. apply signingAdmin_spec. split; [|done].
  unfold activeAdministrator, user_where. cbn. by rewrite lookup_insert_eq.
Qed.
Lemma user_changes used :
  account_kept u u' ->
  (signingAdmin db id = true -> activeAdminSql u' = true \/ exists other, other <> id /\ signingAdmin db other = true) ->
  changes used db db'.
Proof. intros Hk Hs. split_and!; [by apply user_kept|by apply user_administered|]. intros x Hx. by left. Qed.
End account.

(** An update that leaves an account's role, ban and generation. *)
Definition same_access (u u' : AccountRow) : Prop :=
  pu_role u' = pu_role u /\ pu_banned u' = pu_banned u /\ pu_banReason u' = pu_banReason u /\
  pu_deletedAt u' = pu_deletedAt u /\ pu_accessGeneration u' = pu_accessGeneration u.
Lemma same_access_active u u' : same_access u u' -> activeAccountSql u' = activeAccountSql u.
Proof. intros (_ & E2 & _ & E4 & _). unfold activeAccountSql. by rewrite E2, E4. Qed.
Lemma same_access_admin u u' : same_access u u' -> activeAdminSql u' = activeAdminSql u.
Proof. intros E. pose proof (same_access_active _ _ E). destruct E as (E1 & _). unfold activeAdminSql, adminRoleSql. congruence. Qed.
Lemma same_access_kept u u' : same_access u u' -> account_kept u u'.
Proof.
  intros E. pose proof (same_access_active _ _ E) as Ea. destruct E as (_ & _ & _ & E4 & E5). split_and!; [lia| |congruence].
  intros Ha. left. congruence.
Qed.
Lemma good_update id p f used : (forall u, same_access u (f u)) -> good used anyway [updateUser id p f].
Proof.
  intros Hf db db' bs Hwf _ E. cbn in E. unfold updateUser in E. destruct (ac_users db !! id) as [u|] eqn:Eu; cbn in E.
  2:{ simplify_eq. split; [done|by apply core_changes]. }
  destruct (p db u); cbn in E; simplify_eq; [|split; [done|by apply core_changes]].
  pose proof (Hf u) as Hs. pose proof Hs as (_ & E2 & E3 & E4 & _). split.
  - apply (user_wf db id u); try done. by rewrite E4.
  - apply (user_changes db id u); [done|by apply same_access_kept|]. intros [Ha _]%signingAdmin_spec. left.
    rewrite (same_access_admin _ _ Hs). apply user_where_spec in Ha as (v & Hv & ?). by simplify_eq.
Qed.

(** ** Roles *)

Lemma good_role target actor role now used : good used anyway (setRoleStatements target actor role now).
Proof.
  unfold setRoleStatements. apply good_seq.
  { apply good_core. unfold roleSignOuts. destruct (promoting role); [auto with core_db|]. repeat constructor. apply core_credentials. }
  intros db db' bs Hwf _ E. cbn in E. unfold setRoleStatement, updateUser in E.
  destruct (ac_users db !! target) as [u|] eqn:Eu; cbn in E; [|simplify_eq; split; [done|by apply core_changes]].
  destruct (isNull (pu_deletedAt u) && _ && _) eqn:Ep; cbn in E; simplify_eq; [|split; [done|by apply core_changes]].
  split; [by apply (user_wf db target u)|]. apply (user_changes db target u); [done|split_and!; cbn; [lia|by left|done]|].
  intros Hs. apply andb_true_iff in Ep as [_ Ep]. unfold promoting in Ep. destruct role; cbn in Ep.
  - right. by apply lastAdministratorSafe_spec.
  - left. apply signingAdmin_spec in Hs as [Ha _]. apply user_where_spec in Ha as (v & Hv & Hact). simplify_eq.
    unfold activeAdminSql in *. apply andb_true_iff in Hact as [Hact _]. unfold activeAccountSql in *. cbn. by rewrite Hact.
Qed.

(** ** Servers and identities *)

Lemma good_retire hostId userId removalId confirm now used : good used anyway (retirePersonalHostStatements hostId userId removalId confirm now).
Proof.
  unfold retirePersonalHostStatements. apply (good_seq used anyway [_]).
  { apply good_core. repeat constructor. intros db. by eexists _, _. }
  apply (good_seq used anyway [_]); [by apply good_update|]. apply good_core. apply core_retired.
Qed.
Lemma delete_where_in {A} (p : A -> bool) l x : In x (delete_where p l) <-> In x l /\ p x = false.
Proof. unfold delete_where. rewrite filter_In, negb_true_iff. done. Qed.
(** An administrator keeps GitHub: no other identity would be usable. *)
Lemma good_disconnect userId providerId sessionId now used : good used anyway (disconnectStatements userId providerId sessionId now).
Proof.
  unfold disconnectStatements. apply good_seq; [apply good_core, core_sign_out|]. apply (good_seq used anyway [_]); [by apply good_update|].
  intros db db' bs Hwf _ E. cbn in E. simplify_eq. split; [by destruct Hwf; split|]. split_and!; [by apply access_kept_same| |by left].
  apply administered_same; [done|]. intros id Ha (i & Hi & <- & Hp). cbn.
  destruct (linkedIdentity userId providerId i && disconnectable userId providerId db) eqn:Eg.
  2:{ exists i. rewrite delete_where_in. by rewrite Eg. }
  exfalso. apply andb_true_iff in Eg as [El Ed]. unfold linkedIdentity in El. unfold disconnectable in Ed. reflect_bools. subst.
  unfold usableIdentityExistsSql in *. match goal with Hx : existsb _ _ = true, Hy : existsb _ _ = true |- _ => rename Hx into H1, Hy into H2 end.
  assert (Hno : forall j, id_userId j = id_userId i -> id_providerId j <> "github" -> usableIdentitySql db j = false).
  { intros j Ej Hj. unfold usableIdentitySql, organizationSignInAllowedSql. apply String.eqb_neq in Hj. rewrite Hj, Ej, Ha. cbn.
    apply not_true_is_false. intros (q & _ & Hq)%existsb_exists. by rewrite andb_false_r in Hq. }
  apply existsb_exists in H2 as (j & Hj & Hjp). reflect_bools. rewrite Hno in *; [done|done|congruence].
Qed.

(** ** Events *)

Lemma completions_app a b : completions (a ++ b) = completions a ++ completions b.
Proof. apply omap_app. Qed.
Lemma event_completedBefore db e id v a : completedBefore id v a db = true -> completedBefore id v a (set_events db (ac_events db ++ [e])) = true.
Proof. unfold completedBefore. cbn. rewrite existsb_app. by intros ->. Qed.
Lemma event_wf db e :
  acc_wf db -> ev_eventType e <> access_revocation_cleanup_completed -> acc_wf (set_events db (ac_events db ++ [e])).
Proof.
  intros [H1 H2 H3 H4 H5 H6 H7] He.
  assert (Ec : completions (ac_events db ++ [e]) = completions (ac_events db)).
  { rewrite completions_app. cbn. rewrite bool_decide_eq_false_2 by done. by rewrite app_nil_r. }
  split; cbn [set_events ac_events ac_users ac_revocations]; rewrite ?Ec; try done. intros id r a Hr Hn Ha. apply event_completedBefore. by eapply H6.
Qed.
Lemma event_changes used db e :
  (forall x, ev_id e = x \/ ev_revocationId e = Some x -> mentioned db x \/ used x) ->
  changes used db (set_events db (ac_events db ++ [e])).
Proof.
  intros He. split_and!; [by apply access_kept_same|by apply administered_same|]. intros x [(e' & Hin & Hx)|Hx]; [|left; by right].
  cbn in Hin. apply in_app_iff in Hin as [Hin|[<-|[]]]; [left; left; eauto|by apply He].
Qed.
(** What an event insert does, when it does not violate the key. *)
Lemma insertEvent_inv e db db' b :
  insertEvent e db = Ok (db', b) -> db' = set_events db (ac_events db ++ [e]) /\ b = true.
Proof. unfold insertEvent. destruct (existsb _ _); [done|]. by intros [= <- <-]. Qed.
Lemma insertRevocationEvent_inv userId v p e db db' b :
  insertRevocationEvent userId v p e db = Ok (db', b) ->
  (db' = db /\ b = false) \/
  exists r, ac_revocations db !! userId = Some r /\ vo_revocationId r = v /\ p db r = true /\
            db' = set_events db (ac_events db ++ [e db r]) /\ b = true.
Proof.
  unfold insertRevocationEvent. destruct (ac_revocations db !! userId) as [r|]; [|intros [= <- <-]; by left].
  destruct (_ && _) eqn:Ep; [|intros [= <- <-]; by left]. reflect_bools. intros [-> ->]%insertEvent_inv. right. exists r.
  by split_and!.
Qed.
Lemma good_revocation_event (used : string -> Prop) P userId v p eventId type actor attempt reason at_ :
  type <> access_revocation_cleanup_completed -> used eventId ->
  good used P [insertRevocationEvent userId v p
    (fun db r => revocationEvent db eventId type userId r (actor r) (attempt r) (reason r) (at_ r))].
Proof.
  intros Ht Hused db db' bs Hwf _ E. cbn in E.
  destruct (insertRevocationEvent _ _ _ _ db) as [[d b]|] eqn:Ei; cbn in E; simplify_eq.
  apply insertRevocationEvent_inv in Ei as [[-> _]|(r & Hr & Hv & _ & -> & _)]; [split; [done|by apply core_changes]|].
  split; [by apply event_wf|]. apply event_changes. cbn. intros x [<-|[= <-]]; [by right|]. left. right. eauto.
Qed.

(** ** The cleanup of a revocation *)

Section revocation_row.
Variables (db : AccDb) (id : string) (r r' : RevocationRow).
Hypothesis Hr : ac_revocations db !! id = Some r.
Hypothesis Hid : vo_revocationId r' = vo_revocationId r.
#[local] Abbreviation db' := (set_revocations db (<[id := r']> (ac_revocations db))).

Lemma row_cases i x : ac_revocations db' !! i = Some x -> (i = id /\ x = r') \/ (i <> id /\ ac_revocations db !! i = Some x).
Proof.
  cbn. destruct (decide (i = id)) as [->|Hne]; [rewrite lookup_insert_eq; naive_solver|]. rewrite lookup_insert_ne by done. auto.
Qed.
Lemma row_changes used : changes used db db'.
Proof.
  split_and!; [by apply access_kept_same|by apply administered_same|]. intros x [?|(i & y & [[-> ->]|[Hne Hy]]%row_cases & <-)]; left; [by left| |].
  - right. exists id, r. by rewrite Hid.
  - right. eauto.
Qed.
Lemma row_wf :
  acc_wf db -> cleanup_valid r' = true ->
  (In (vo_revocationId r) (completions (ac_events db)) -> vo_cleanupCompletedAt r' <> None) ->
  (forall a, vo_cleanupCompletedAt r' <> None -> vo_cleanupAttemptId r' = Some a -> completedBefore id (vo_revocationId r) a db = true) ->
  acc_wf db'.
Proof.
  intros [H1 H2 H3 H4 H5 H6 H7] Hv Hc Hrec. split; try done.
  - intros i x [[-> ->]|[_ Hx]]%row_cases; [by apply (H1 id r)|by apply (H1 i x)].
  - intros i u Hu Hd Hb. destruct (H2 i u Hu Hd Hb) as [? [x Hx]]. split; [done|]. cbn.
    destruct (decide (i = id)) as [->|Hne]; [rewrite lookup_insert_eq|rewrite lookup_insert_ne by done]; eauto.
  - intros i x [[-> ->]|[_ Hx]]%row_cases; [done|by apply (H3 i)].
  - intros i j x y [[-> ->]|[Hni Hx]]%row_cases [[-> ->]|[Hnj Hy]]%row_cases E; [done|..]; [| |by apply (H4 i j x y)].
    + by apply (H4 id j r y); [..|congruence].
    + by apply (H4 i id x r); [..|congruence].
  - intros i x [[-> ->]|[_ Hx]]%row_cases; [by rewrite Hid|by apply (H5 i)].
  - intros i x a [[-> ->]|[_ Hx]]%row_cases; [rewrite Hid; apply Hrec|by apply (H6 i)].
Qed.
End revocation_row.

Lemma updateRevocation_inv userId v p f db db' b :
  updateRevocation userId v p f db = Ok (db', b) ->
  (db' = db /\ b = false) \/
  exists r, ac_revocations db !! userId = Some r /\ vo_revocationId r = v /\ p db r = true /\ cleanup_valid (f r) = true /\
            db' = set_revocations db (<[userId := f r]> (ac_revocations db)) /\ b = true.
Proof.
  unfold updateRevocation. destruct (ac_revocations db !! userId) as [r|]; [|intros [= <- <-]; by left].
  destruct (_ && _) eqn:Ep; [|intros [= <- <-]; by left]. reflect_bools. destruct (cleanup_valid (f r)) eqn:Ev; [|done].
  intros [= <- <-]. right. exists r. by split_and!.
Qed.
(** An update of a row whose cleanup goes on. *)
Lemma pending_update used userId v p f :
  (forall r, vo_revocationId (f r) = vo_revocationId r) ->
  (forall r, cleanup_valid (f r) = true -> vo_cleanupCompletedAt (f r) = None -> vo_cleanupCompletedAt r = None) ->
  (forall db r, p db r = true -> cleanup_valid (f r) = true -> vo_cleanupCompletedAt (f r) = None) ->
  good used anyway [updateRevocation userId v p f].
Proof.
  intros Hid Hback Hp db db' bs Hwf _ E. cbn in E. destruct (updateRevocation _ _ _ _ db) as [[d b]|] eqn:Eu; cbn in E; simplify_eq.
  apply updateRevocation_inv in Eu as [[-> _]|(r & Hr & _ & Hpr & Hv & -> & _)]; [split; [done|by apply core_changes]|].
  pose proof (Hp _ _ Hpr Hv) as Hn. split; [|by apply (row_changes db userId r)].
  apply (row_wf db userId r); [done|done|done|done| |]; rewrite Hn; [|done].
  intros Hin. exfalso. apply (wf_completed db Hwf userId r Hr Hin). by apply Hback.
Qed.
Lemma good_acquire used userId v now attempt : good used anyway [acquireStatement userId v now attempt].
Proof.
  apply pending_update; [done|done|]. intros db r Hp _. cbn. reflect_bools. by destruct (vo_cleanupCompletedAt r).
Qed.
Lemma good_failure (used : string -> Prop) userId v now attempt eventId actor why :
  used eventId -> good used anyway (failureStatements userId v now attempt eventId actor why).
Proof.
  intros Hused. apply (good_seq used anyway [_] [_]).
  - apply (good_revocation_event used anyway _ _ _ eventId access_revocation_cleanup_failed (fun _ => actor) (fun _ => Some attempt) (fun _ => Some why) (fun _ => now)); [discriminate|exact Hused].
  - apply pending_update; [done|done|]. intros db r _ Hv. unfold cleanup_valid in Hv. cbn in *. by destruct (vo_cleanupCompletedAt r).
Qed.
Lemma good_stall (used : string -> Prop) userId v now attempt eventId actor why :
  used eventId ->
  good used anyway [cleanupEvent userId v now attempt eventId access_revocation_cleanup_stalled actor why].
Proof.
  intros Hused. apply (good_revocation_event used anyway _ _ _ eventId access_revocation_cleanup_stalled (fun _ => actor) (fun _ => Some attempt) (fun _ => Some why) (fun _ => now)); [discriminate|exact Hused].
Qed.

Lemma completions_In v es :
  In v (completions es) <-> exists e, In e es /\ ev_eventType e = access_revocation_cleanup_completed /\ ev_revocationId e = Some v.
Proof.
  unfold completions. rewrite <-list_elem_of_In, list_elem_of_omap. split.
  - intros (e & He & E). case_bool_decide; [|done]. exists e. by rewrite <-list_elem_of_In.
  - intros (e & He & Ht & E). exists e. rewrite list_elem_of_In. split; [done|]. by rewrite bool_decide_eq_true_2.
Qed.
Lemma completedBefore_In id v a db : completedBefore id v a db = true -> In v (completions (ac_events db)).
Proof.
  intros (e & He & Hp)%existsb_exists. apply completions_In. exists e. reflect_bools.
  repeat match goal with Hx : bool_decide _ = true |- _ => apply bool_decide_eq_true_1 in Hx end.
  split_and!; [done|done|]. destruct (ev_revocationId e); cbn in *; [|done]. reflect_bools. by subst.
Qed.

Section completing.
Variables (db : AccDb) (id : string) (r r' : RevocationRow) (e : EventRow) (a : string).
Hypothesis Hr : ac_revocations db !! id = Some r.
Hypothesis Hopen : vo_cleanupCompletedAt r = None.
Hypothesis Hid : vo_revocationId r' = vo_revocationId r.
Hypothesis Hvalid : cleanup_valid r' = true.
Hypothesis Hdone : vo_cleanupCompletedAt r' <> None.
Hypothesis Hattempt : vo_cleanupAttemptId r' = Some a.
Hypothesis Hevent : ev_eventType e = access_revocation_cleanup_completed /\ ev_subjectUserId e = Some id /\
  ev_revocationId e = Some (vo_revocationId r) /\ ev_cleanupAttemptId e = Some a.
#[local] Abbreviation db1 := (set_revocations db (<[id := r']> (ac_revocations db))).
#[local] Abbreviation db2 := (set_events db1 (ac_events db ++ [e])).

Lemma completing_wf : acc_wf db -> acc_wf db2.
Proof.
  intros Hwf. pose proof Hwf as [H1 H2 H3 H4 H5 H6 H7]. destruct Hevent as (Et & Es & Er & Ea).
  assert (Hnew : ~ In (vo_revocationId r) (completions (ac_events db))) by (intros Hin; by apply (H5 id r Hr Hin)).
  assert (Ec : completions (ac_events db ++ [e]) = completions (ac_events db) ++ [vo_revocationId r]).
  { rewrite completions_app. unfold completions at 2. cbn. by rewrite Et, Er. }
  assert (Hrows := row_cases db id r r' Hid).
  split; cbn [set_events ac_events ac_users].
  - intros i x [[-> ->]|[_ Hx]]%Hrows; [by apply (H1 id r)|by apply (H1 i x)].
  - intros i u Hu Hd Hb. destruct (H2 i u Hu Hd Hb) as [? [x Hx]]. split; [done|]. cbn.
    destruct (decide (i = id)) as [->|Hne]; [rewrite lookup_insert_eq|rewrite lookup_insert_ne by done]; eauto.
  - intros i x [[-> ->]|[_ Hx]]%Hrows; [done|by apply (H3 i)].
  - intros i j x y [[-> ->]|[Hni Hx]]%Hrows [[-> ->]|[Hnj Hy]]%Hrows E; [done|..]; [| |by apply (H4 i j x y)].
    + by apply (H4 id j r y); [..|congruence].
    + by apply (H4 i id x r); [..|congruence].
  - rewrite Ec. intros i x [[-> ->]|[Hni Hx]]%Hrows; [done|]. intros [Hin|[E|[]]]%in_app_iff; [by apply (H5 i)|].
    exfalso. apply Hni. by apply (H4 i id x r).
  - intros i x b [[-> ->]|[Hni Hx]]%Hrows.
    + intros _ Hb. rewrite Hattempt in Hb. simplify_eq. unfold completedBefore. cbn. rewrite existsb_app. cbn.
      rewrite Et, Es, Er, Ea, Hid. cbn. rewrite !String.eqb_refl. by rewrite orb_true_r.
    + intros Hn Hb. pose proof (H6 i x b Hx Hn Hb) as Hc. revert Hc. unfold completedBefore. cbn. rewrite existsb_app. by intros ->.
  - rewrite Ec. apply NoDup_app. split_and!; [done| |apply NoDup_singleton]. intros x Hx ->%list_elem_of_singleton. by apply Hnew, list_elem_of_In.
Qed.
End completing.

Lemma good_complete (used : string -> Prop) userId v now attempt eventId :
  used eventId -> good used anyway (completeStatements userId v now attempt eventId).
Proof.
  intros Hused db db' bs Hwf _ E. cbn in E.
  destruct (updateRevocation _ _ _ _ db) as [[d b]|] eqn:Eu; cbn in E; [|done].
  destruct (insertRevocationEvent _ _ _ _ d) as [[d2 b2]|] eqn:Ei; cbn in E; simplify_eq.
  apply updateRevocation_inv in Eu as [[-> _]|(r & Hr & Hv & Hp & Hvalid & -> & _)].
  - apply insertRevocationEvent_inv in Ei as [[-> _]|(r & Hr & Hv & Hp & _ & _)]; [split; [done|by apply core_changes]|].
    exfalso. unfold byAttempt in Hp. reflect_bools. destruct (vo_cleanupAttemptId r) as [a|] eqn:Ea; cbn in *; [|done].
    reflect_bools. subst. assert (Hc : completedBefore userId (vo_revocationId r) attempt db = true).
    { apply (wf_recorded db Hwf userId r); [done| |done]. by destruct (vo_cleanupCompletedAt r). }
    congruence.
  - unfold byAttempt in Hp. reflect_bools.
    assert (Hopen : vo_cleanupCompletedAt r = None) by (by destruct (vo_cleanupCompletedAt r)).
    destruct (vo_cleanupAttemptId r) as [a|] eqn:Ea; cbn in *; [|done]. reflect_bools. subst a.
    unfold insertRevocationEvent in Ei. cbn in Ei. rewrite lookup_insert_eq in Ei. cbn in Ei.
    unfold byAttempt in Ei. cbn in Ei. rewrite Hv, Ea, Z.eqb_refl in Ei. cbn in Ei. rewrite !String.eqb_refl in Ei. cbn in Ei.
    change (existsb _ (ac_events db)) with (completedBefore userId v attempt db) in Ei.
    destruct (completedBefore userId v attempt db) eqn:Ec; cbn in Ei.
    + exfalso. apply (wf_completed db Hwf userId r Hr); [|done]. rewrite Hv. by eapply (completedBefore_In userId v attempt), Ec.
    + apply insertEvent_inv in Ei as [-> _]. split.
      * apply (completing_wf db userId r (set_completed now r) _ attempt); done.
      * eapply changes_trans; [by apply (row_changes db userId r (set_completed now r))|]. apply event_changes. cbn. intros x [<-|[= <-]]; [by right|].
        left. right. exists userId, (set_completed now r). cbn. rewrite lookup_insert_eq. by rewrite Hv.
Qed.

(** ** Revoking *)

Definition one_of (l : list string) (x : string) : Prop := In x l.
Definition unmentioned (x : string) (db : AccDb) : Prop := ~ mentioned db x.

Lemma good_ban userId actor reason v eventId now :
  good (one_of [v; eventId]) (unmentioned v) [insertRevocation userId actor reason v now; banStatement userId v now].
Proof.
  intros db db' bs Hwf Hfresh E. pose proof Hwf as [H1 H2 H3 H4 H5 H6 H7]. cbn in E. unfold insertRevocation, banStatement, updateUser in E.
  destruct (revocable userId actor db) eqn:Erev.
  2:{ cbn in E. assert (Ecur : currentRevocation userId v db = false).
    { unfold currentRevocation, revocation_where. destruct (ac_revocations db !! userId) as [r|] eqn:Er; [|done].
      apply not_true_is_false. intros Hc. reflect_bools. apply Hfresh. right. eauto. }
    rewrite Ecur in E. destruct (ac_users db !! userId); cbn in E; simplify_eq; (split; [done|by apply core_changes]). }
  destruct (existsb _ _) eqn:Edup; [done|]. destruct (negb _); [done|]. cbn in E.
  unfold revocable in Erev. apply andb_true_iff in Erev as [Erev Hsafe]. reflect_bools.
  match goal with Hx : user_where _ _ userId = true |- _ => apply user_where_spec in Hx as (u & Hu & Hlive) end.
  rewrite Hu in E. unfold currentRevocation, revocation_where in E. cbn in E. rewrite lookup_insert_eq in E. cbn in E.
  rewrite String.eqb_refl in E. cbn in E. simplify_eq. set (u' := set_ban _ _ _ _ _ _ _). set (r' := newRevocation _ _ _ _).
  assert (Hnone : ac_revocations db !! userId = None) by (by destruct (ac_revocations db !! userId)).
  assert (Hrow : forall i x, <[userId := r']> (ac_revocations db) !! i = Some x ->
    (i = userId /\ x = r') \/ (i <> userId /\ ac_revocations db !! i = Some x)).
  { intros i x. destruct (decide (i = userId)) as [->|Hne]; [rewrite lookup_insert_eq; naive_solver|].
    rewrite lookup_insert_ne by done. auto. }
  assert (Hold : forall i x, ac_revocations db !! i = Some x -> vo_revocationId x <> v).
  { intros i x Hx Ev. apply Hfresh. right. eauto. }
  split.
  - split; cbn [ac_users ac_revocations ac_events set_users set_revocations].
    + intros i x [[-> ->]|[Hne Hx]]%Hrow; [exists u'; by rewrite lookup_insert_eq|].
      rewrite lookup_insert_ne by done. by apply (H1 i x).
    + intros i x Hx Hd Hb. destruct (decide (i = userId)) as [->|Hne].
      * rewrite lookup_insert_eq in Hx. simplify_eq. split; [done|]. rewrite lookup_insert_eq. by eexists.
      * rewrite lookup_insert_ne in Hx by done. rewrite lookup_insert_ne by done. by apply (H2 i x).
    + intros i x [[-> ->]|[_ Hx]]%Hrow; [done|by apply (H3 i)].
    + intros i j x y [[-> ->]|[Hni Hx]]%Hrow [[-> ->]|[Hnj Hy]]%Hrow Ev; [done|..]; [| |by apply (H4 i j x y)]; exfalso.
      * by apply (Hold j y).
      * by apply (Hold i x).
    + intros i x [[-> ->]|[_ Hx]]%Hrow; [|by apply (H5 i)]. intros (e & He & _ & Ev)%completions_In. exfalso.
      apply Hfresh. left. eauto.
    + intros i x a [[-> ->]|[_ Hx]]%Hrow; [done|by apply (H6 i)].
    + done.
  - apply (changes_trans _ _ (set_users db (<[userId := u']> (ac_users db)))).
    + apply (user_changes db userId u); [done|split_and!; cbn; [lia|right; lia|done]|]. intros Hs. right.
      by apply lastAdministratorSafe_spec.
    + split_and!; [by apply access_kept_same|by apply administered_same|]. intros x [Hx|(i & y & [[-> ->]|[_ Hy]]%Hrow & <-)].
      * left. by left.
      * right. by left.
      * left. right. eauto.
Qed.
Lemma good_revoke userId actor reason v eventId now :
  good (one_of [v; eventId]) (unmentioned v) (revokeStatements userId actor reason v eventId now).
Proof.
  apply (good_seq _ _ [_; _] [_; _; _]); [apply good_ban|]. apply (good_seq _ anyway [_; _] [_]).
  - apply good_core. repeat constructor; apply core_servers.
  - apply (good_revocation_event _ anyway _ _ _ eventId access_blocked (fun r => Some (vo_revokedBy r)) (fun _ => None)
      (fun r => Some (vo_reason r)) vo_revokedAt); [discriminate|]. right. by left.
Qed.

(** ** Restoring *)

Lemma eventExists_mentioned x type db : eventExists x type db = true -> mentioned db x.
Proof. intros (e & He & Hp)%existsb_exists. left. reflect_bools. eauto. Qed.
Lemma unmentioned_event x type db : unmentioned x db -> eventExists x type db = false.
Proof. intros Hx. apply not_true_is_false. intros ?%eventExists_mentioned. done. Qed.
Lemma event_added e db : eventExists (ev_id e) (ev_eventType e) (set_events db (ac_events db ++ [e])) = true.
Proof. unfold eventExists. cbn. rewrite existsb_app. cbn. rewrite String.eqb_refl, bool_decide_eq_true_2 by done. apply orb_true_r. Qed.
Lemma core_event x type db db' : same_core db db' -> eventExists x type db' = eventExists x type db.
Proof. intros [_ _ E _]. unfold eventExists. by rewrite E. Qed.

(** The statements of a restore between the event and the account. *)
Definition restoreSweep (userId eventId : string) (now : Z) : list AccStmt :=
  accountCredentialSweepStatements (restored eventId) userId now ++
  [on_credentials (fun db c => set_userKeys c (delete_where (fun k => (uk_userId k =s userId) && restored eventId db) (cr_sshKeys c)));
   on_credentials (fun db => deleteClients (fun ct => is_user userId (ct_userId ct) && restored eventId db));
   on_directory (fun db d => set_members d (delete_where
     (fun m => (ms_userId m =s userId) && restored eventId db && negb (soleOwnerMembershipSql db m)) (dr_members d)));
   on_servers (fun db v => set_hosts v (update_where
     (fun h => personalOf userId h && isNull (sh_ownerRemovalCompletedAt h) && restored eventId db) (retiredServer now (removalOf eventId)) (sv_hosts v)))] ++
  retiredHostCredentialStatements
    (fun db column => existsb (fun h => sql_eq column (Some (sh_id h)) && personalOf userId h) (sv_hosts (ac_servers db)) && restored eventId db) now.
Definition restoreEvent (userId actor v eventId : string) (now : Z) : AccStmt :=
  insertRevocationEvent userId v (restorable userId actor)
    (fun db r => revocationEvent db eventId access_restored userId r (Some actor) None (Some "admin_restored") now).
Definition restoredAccount (now : Z) (u : AccountRow) : AccountRow := set_ban u false None (Some "user") up_platform (pu_accessGeneration u) now.
Definition restoreAccess_ (userId v eventId : string) (now : Z) : list AccStmt :=
  [updateUser userId (fun db _ => restored eventId db) (restoredAccount now);
   fun db =>
     if revocation_where (fun _ => true) userId v db && restored eventId db
     then Ok (set_revocations db (delete userId (ac_revocations db)), true) else Ok (db, false)].
Lemma restoreStatements_split userId actor v eventId now :
  restoreStatements userId actor v eventId now =
  restoreEvent userId actor v eventId now :: restoreSweep userId eventId now ++ restoreAccess_ userId v eventId now.
Proof. reflexivity. Qed.
Lemma core_restore userId eventId now : Forall keeps_core (restoreSweep userId eventId now).
Proof.
  unfold restoreSweep. apply Forall_app. split; [apply core_sweep|]. apply Forall_app. split; [|apply core_retired].
  repeat constructor; (apply core_credentials || apply core_servers || apply core_members).
Qed.

(** Lifting the ban and deleting the row, of an account that was banned. *)
Lemma lift_ban db userId u r now :
  ac_users db !! userId = Some u -> ac_revocations db !! userId = Some r -> pu_banned u = Some true -> acc_wf db ->
  let db' := set_revocations (set_users db (<[userId := restoredAccount now u]> (ac_users db))) (delete userId (ac_revocations db)) in
  acc_wf db' /\ changes nothing db db'.
Proof.
  intros Hu Hr Hb [H1 H2 H3 H4 H5 H6 H7]. cbn zeta.
  assert (Hrow : forall i x, delete userId (ac_revocations db) !! i = Some x -> i <> userId /\ ac_revocations db !! i = Some x).
  { intros i x [? ?]%lookup_delete_Some. auto. }
  split.
  - split; cbn [ac_users ac_revocations ac_events set_users set_revocations].
    + intros i x [Hne Hx]%Hrow. rewrite lookup_insert_ne by done. by apply (H1 i x).
    + intros i x Hx Hd Hbx. destruct (decide (i = userId)) as [->|Hne]; [rewrite lookup_insert_eq in Hx; by simplify_eq|].
      rewrite lookup_insert_ne in Hx by done. rewrite lookup_delete_ne by done. by apply (H2 i x).
    + intros i x [_ Hx]%Hrow. by apply (H3 i).
    + intros i j x y [_ Hx]%Hrow [_ Hy]%Hrow. by apply H4.
    + intros i x [_ Hx]%Hrow. by apply (H5 i).
    + intros i x a [_ Hx]%Hrow. by apply (H6 i).
    + done.
  - apply (changes_trans _ _ (set_users db (<[userId := restoredAccount now u]> (ac_users db)))).
    + assert (Hina : activeAccountSql u = false) by (unfold activeAccountSql; rewrite Hb; by rewrite andb_false_r).
      apply (user_changes db userId u); [done|split_and!; cbn; [lia|by rewrite Hina|done]|].
      intros [(v & Hv & Ha)%user_where_spec _]%signingAdmin_spec. simplify_eq. unfold activeAdminSql in Ha. by rewrite Hina in Ha.
    + split_and!; [by apply access_kept_same|by apply administered_same|]. intros x [Hx|(i & y & [_ Hy]%Hrow & <-)]; left; [by left|right; eauto].
Qed.

Lemma restoreAccess_off d userId v eventId now :
  restored eventId d = false -> acc_batch (restoreAccess_ userId v eventId now) d = Ok (d, [false; false]).
Proof.
  intros E. unfold restoreAccess_. cbn [acc_batch]. unfold updateUser.
  assert (E' : (if revocation_where (fun _ => true) userId v d && restored eventId d
    then Ok (set_revocations d (delete userId (ac_revocations d)), true) else Ok (d, false)) = (Ok (d, false) : result AccConstraint _)).
  { by rewrite E, andb_false_r. }
  destruct (ac_users d !! userId); rewrite ?E; cbn [result_bind fst snd]; by rewrite E'.
Qed.
Lemma restoreAccess_on d userId u r eventId now :
  restored eventId d = true -> ac_users d !! userId = Some u -> ac_revocations d !! userId = Some r ->
  acc_batch (restoreAccess_ userId (vo_revocationId r) eventId now) d =
  Ok (set_revocations (set_users d (<[userId := restoredAccount now u]> (ac_users d))) (delete userId (ac_revocations d)), [true; true]).
Proof.
  intros E Hu Hr. unfold restoreAccess_. cbn [acc_batch]. unfold updateUser. rewrite Hu, E. cbn [result_bind fst snd].
  set (d1 := set_users d _). change (restored eventId d1) with (restored eventId d). rewrite E.
  unfold revocation_where. change (ac_revocations d1) with (ac_revocations d). rewrite Hr, String.eqb_refl. done.
Qed.

Lemma restorable_inv userId actor db r :
  restorable userId actor db r = true ->
  exists u, ac_users db !! userId = Some u /\ pu_banned u = Some true /\ pu_deletedAt u = None /\ vo_cleanupCompletedAt r <> None /\
    activeAdministrator db actor = true.
Proof.
  unfold restorable. rewrite !andb_true_iff. intros [[Hc (u & Hu & Hban)%user_where_spec] Ha]. rewrite !andb_true_iff in Hban.
  destruct Hban as [[Hd Hb] _]. exists u. destruct (pu_banned u) as [[]|], (pu_deletedAt u), (vo_cleanupCompletedAt r); by split_and!.
Qed.

Lemma batch_around s l1 l2 db db' bs :
  Forall keeps_core l1 -> acc_batch (s :: l1 ++ l2) db = Ok (db', bs) ->
  exists d b d1 cs ds, s db = Ok (d, b) /\ acc_batch l1 d = Ok (d1, cs) /\ same_core d d1 /\
    acc_batch l2 d1 = Ok (db', ds) /\ bs = b :: cs ++ ds.
Proof.
  intros Hl E. cbn in E. destruct (s db) as [[d b]|]; cbn in E; [|done]. rewrite acc_batch_app in E.
  destruct (batch_core l1 d Hl) as (d1 & cs & E1 & Hcore). rewrite E1 in E. cbn in E.
  destruct (acc_batch l2 d1) as [[d2 ds]|] eqn:E2; cbn in E; [|done]. simplify_eq. exists d, b, d1, cs, ds. by split_and!.
Qed.

(** What a restore does to the accounts: nothing, or its event, the ban lifted and
    the row gone. *)
Lemma restore_core userId actor v eventId now db db' bs :
  unmentioned eventId db -> acc_batch (restoreStatements userId actor v eventId now) db = Ok (db', bs) ->
  (same_core db db' /\ head bs = Some false) \/
  exists r u d1, ac_revocations db !! userId = Some r /\ vo_revocationId r = v /\ restorable userId actor db r = true /\
    ac_users db !! userId = Some u /\ pu_banned u = Some true /\ pu_deletedAt u = None /\ head bs = Some true /\
    let e := revocationEvent db eventId access_restored userId r (Some actor) None (Some "admin_restored") now in
    let d0 := set_events db (ac_events db ++ [e]) in
    (exists cs, acc_batch (restoreSweep userId eventId now) d0 = Ok (d1, cs)) /\ same_core d0 d1 /\ restored eventId d0 = true /\
    db' = set_revocations (set_users d1 (<[userId := restoredAccount now u]> (ac_users d1))) (delete userId (ac_revocations d1)).
Proof.
  intros Hfresh E. rewrite restoreStatements_split in E. apply (batch_around _ _ _ _ _ _ (core_restore userId eventId now)) in E.
  destruct E as (d & b & d1 & cs & ds & Ei & E1 & Hcore & E & ->). unfold restoreEvent in Ei.
  apply insertRevocationEvent_inv in Ei as [[-> ->]|(r & Hr & Hv & Hp & -> & ->)].
  - left. rewrite restoreAccess_off in E; [injection E as <- <-; by split|]. unfold restored. rewrite (core_event _ _ _ _ Hcore).
    by apply unmentioned_event.
  - right. destruct (restorable_inv _ _ _ _ Hp) as (u & Hu & Hb & Hd & _). exists r, u, d1. cbv zeta.
    set (e := revocationEvent _ _ _ _ _ _ _ _ _) in *. set (d0 := set_events db (ac_events db ++ [e])) in *.
    assert (Hex : restored eventId d0 = true) by apply (event_added e db).
    rewrite <-Hv in E. rewrite (restoreAccess_on d1 userId u r) in E;
      [injection E as <- <-|unfold restored; by rewrite (core_event _ _ _ _ Hcore)|by rewrite (core_users _ _ Hcore)|by rewrite (core_revocations _ _ Hcore)].
    split_and!; [exact Hr|exact Hv|exact Hp|exact Hu|exact Hb|exact Hd|reflexivity|exists cs; exact E1|exact Hcore|exact Hex|reflexivity].
Qed.
Lemma good_restore userId actor v eventId now :
  good (one_of [eventId]) (unmentioned eventId) (restoreStatements userId actor v eventId now).
Proof.
  intros db db' bs Hwf Hfresh E.
  destruct (restore_core _ _ _ _ _ _ _ _ Hfresh E) as [[Hc _]|(r & u & d1 & Hr & Hv & _ & Hu & Hb & _ & _ & _ & Hcore & _ & ->)].
  { split; [by eapply core_wf|by apply core_changes]. }
  set (e := revocationEvent _ _ _ _ _ _ _ _ _) in *. set (d0 := set_events db (ac_events db ++ [e])) in *.
  assert (Hwf0 : acc_wf d0) by (by apply event_wf).
  assert (Hc0 : changes (one_of [eventId]) db d0).
  { apply event_changes. intros x [Hx|Hx]; [right; by left|]. left. right. exists userId, r. by injection Hx. }
  destruct (lift_ban d1 userId u r now) as [Hw Hc];
    [by rewrite (core_users _ _ Hcore)|by rewrite (core_revocations _ _ Hcore)|done|by eapply core_wf|]. split; [exact Hw|].
  eapply changes_trans; [exact Hc0|]. eapply changes_trans; [by apply core_changes|]. eapply changes_more; [|exact Hc]. done.
Qed.

(** ** Deleting *)

Section deleting.
Variables target actor eventId email : string.
Variable now : Z.
#[local] Abbreviation guarded := (eventGuard eventId).

(** The statements of a deletion before and after the identities'. *)
Definition deletionBefore : list AccStmt :=
  [on_directory (fun db d => set_signupReservations d (delete_where (fun u => mine target eventId u db) (dr_signupReservations d)));
   on_credentials (fun db c => set_tokens c (delete_where (fun t => isMine target eventId (tk_userId t) db) (cr_accessTokens c)) (cr_refreshTokens c));
   on_credentials (fun db c => set_tokens c (cr_accessTokens c) (delete_where (fun t => isMine target eventId (tk_userId t) db) (cr_refreshTokens c)));
   on_credentials (fun db c => set_consents c (delete_where (fun x => isMine target eventId (cn_userId x) db) (cr_consents c)));
   on_credentials (fun db => deleteClients (fun ct => isMine target eventId (ct_userId ct) db));
   on_directory (fun db d => set_runtimeSlots d (delete_where (fun u => mine target eventId u db) (dr_runtimeSlots d)));
   on_credentials (fun db => deleteSessions (fun s => mine target eventId (ss_userId s) db))].
Definition deletionAfter : list AccStmt :=
  [on_credentials (fun db c => set_userKeys c (delete_where (fun k => mine target eventId (uk_userId k) db) (cr_sshKeys c)));
   on_directory (fun db d => set_members d (delete_where (fun m => mine target eventId (ms_userId m) db) (dr_members d)));
   on_directory (fun db d => set_invitations d (delete_where
     (fun i => eventGuard eventId db && ((iv_inviterId i =s target)
        || sql_eq (Some (sql_lower (iv_email i))) (sql_lower <$> emailOf target db))) (dr_invitations d)));
   on_credentials (fun db c => set_verifications c (delete_where
     (fun v => eventGuard eventId db && ((vf_identifier v =s target) || sql_eq (Some (vf_identifier v)) (emailOf target db)
        || json_text (vf_value v) "userId" target)) (cr_verifications c)))].
Definition deleteIdentities : AccStmt :=
  on_directory (fun db d => set_identities d (delete_where (fun i => mine target eventId (id_userId i) db) (dr_identities d))).
Definition deletedRow : AccStmt := fun db =>
  Ok (db, user_where (fun u => bool_decide (pu_deletedAt u = Some now)) db target && guarded db).
Lemma deletionStatements_split :
  deletionStatements target actor eventId email now =
  insertDeletion target actor eventId now :: deletionBefore ++ (deleteIdentities :: deletionAfter ++ [tombstoneStatement target eventId email now; deletedRow]).
Proof. reflexivity. Qed.
Lemma core_before : Forall keeps_core deletionBefore.
Proof. repeat constructor; (apply core_credentials || apply core_reservations || apply core_slots). Qed.
Lemma core_after : Forall keeps_core deletionAfter.
Proof.
  repeat constructor; [apply core_credentials|apply core_members| |apply core_credentials].
  apply (core_invitations (fun db d => delete_where _ (dr_invitations d))).
Qed.

(** Losing the identities of an account that is no administrator. *)
Definition withoutIdentities (db : AccDb) : AccDb :=
  set_directory db (set_identities (ac_directory db) (delete_where (fun i => mine target eventId (id_userId i) db) (dr_identities (ac_directory db)))).
Lemma identities_changes db :
  (guarded db = true -> activeAdministrator db target = false) -> acc_wf db ->
  acc_wf (withoutIdentities db) /\ changes nothing db (withoutIdentities db).
Proof.
  intros Hn Hwf. split; [by destruct Hwf; split|]. split_and!; [by apply access_kept_same| |by left].
  apply administered_same; [done|]. intros id Ha (i & Hi & <- & Hp). exists i. split_and!; [|done|done]. apply delete_where_in.
  split; [done|]. apply not_true_is_false. unfold mine. intros [E Hg]%andb_true_iff. apply String.eqb_eq in E. rewrite <-E in Hn.
  rewrite Hn in Ha by done. done.
Qed.
(** The account as a tombstone. *)
Lemma tombstone_wf db u :
  ac_users db !! target = Some u -> pu_banned u = Some true -> acc_wf db ->
  let db' := set_users db (<[target := tombstone email now u]> (ac_users db)) in acc_wf db' /\ changes nothing db db'.
Proof.
  intros Hu Hb [H1 H2 H3 H4 H5 H6 H7]. cbn zeta. split.
  - split; try done; cbn [ac_users ac_revocations ac_events set_users].
    + intros i r Hr. destruct (decide (i = target)) as [->|Hne]; [rewrite lookup_insert_eq; by eexists|].
      rewrite lookup_insert_ne by done. by apply (H1 i r).
    + intros i v Hv Hd Hbv. destruct (decide (i = target)) as [->|Hne]; [rewrite lookup_insert_eq in Hv; by simplify_eq|].
      rewrite lookup_insert_ne in Hv by done. by apply (H2 i v).
  - assert (Hina : activeAccountSql u = false) by (unfold activeAccountSql; rewrite Hb; by rewrite andb_false_r).
    apply (user_changes db target u); [done|split_and!; cbn; [lia|by rewrite Hina|done]|].
    intros [(v & Hv & Ha)%user_where_spec _]%signingAdmin_spec. simplify_eq. unfold activeAdminSql in Ha. by rewrite Hina in Ha.
Qed.

Lemma tombstone_off db : guarded db = false -> acc_batch [tombstoneStatement target eventId email now; deletedRow] db = Ok (db, [false; false]).
Proof.
  intros E. cbn [acc_batch]. unfold tombstoneStatement, updateUser, deletedRow. rewrite E, andb_false_r. cbn [andb].
  destruct (ac_users db !! target); cbn [result_bind fst snd]; by rewrite E, andb_false_r.
Qed.
Lemma tombstone_on db u db' bs :
  guarded db = true -> ac_users db !! target = Some u ->
  acc_batch [tombstoneStatement target eventId email now; deletedRow] db = Ok (db', bs) ->
  db' = set_users db (<[target := tombstone email now u]> (ac_users db)).
Proof.
  intros E Hu. cbn [acc_batch]. unfold tombstoneStatement, updateUser, deletedRow. rewrite Hu, E.
  destruct (_ && _ && _); [done|]. cbn [result_bind fst snd]. by intros [= <- _].
Qed.

Lemma good_deletion : good (one_of [eventId]) (unmentioned eventId) (deletionStatements target actor eventId email now).
Proof.
  intros db db' bs Hwf Hfresh E. rewrite deletionStatements_split in E. apply (batch_around _ _ _ _ _ _ core_before) in E.
  destruct E as (d & b & d1 & cs & ds & Ei & _ & Hcore & E & _). apply (batch_around _ _ _ _ _ _ core_after) in E.
  destruct E as (d2 & b2 & d3 & cs3 & ds3 & Ed & _ & Hcore3 & E & _).
  assert (d2 = withoutIdentities d1) as -> by (injection Ed; done). clear Ed.
  assert (Hcase : (d = db /\ guarded d = false) \/
    exists r u, ac_revocations db !! target = Some r /\ ac_users db !! target = Some u /\ guarded d = true /\
      d = set_events db (ac_events db ++ [revocationEvent db eventId user_deleted target r (Some actor) None (Some "admin_deleted") now])).
  { unfold insertDeletion in Ei. assert (Hg : guarded db = false) by (by apply unmentioned_event).
    destruct (ac_revocations db !! target) as [r|]; [|left; by injection Ei as <- <-].
    destruct (deletable _ _ _ _) eqn:Edel; [|left; by injection Ei as <- <-]. apply insertEvent_inv in Ei as [-> _]. right.
    unfold deletable in Edel. rewrite !andb_true_iff in Edel. destruct Edel as [[[[[_ (u & Hu & _)%user_where_spec] _] _] _] _].
    exists r, u. split_and!; [done|done|apply (event_added (revocationEvent _ _ _ _ _ _ _ _ _))|done]. }
  assert (Hg1 : guarded d1 = guarded d) by apply (core_event _ _ _ _ Hcore).
  assert (Hg3 : guarded d3 = guarded d) by (rewrite <-Hg1; apply (core_event _ _ _ _ Hcore3)).
  destruct Hcase as [[-> Hg]|(r & u & Hr & Hu & Hg & Ed0)].
  - rewrite tombstone_off in E by congruence. injection E as <- _.
    destruct (identities_changes d1) as [Hw1 Hc1]; [congruence|by eapply core_wf|]. split; [by eapply core_wf|].
    apply (changes_more nothing); [by intros x []|]. eapply changes_trans; [by apply core_changes|]. eapply changes_trans; [exact Hc1|by apply core_changes].
  - destruct (wf_revoked db Hwf target r Hr) as (u1 & Hu1 & Hb). assert (u1 = u) as -> by congruence.
    assert (Hw : acc_wf d) by (subst d; by apply event_wf).
    assert (Hc : changes (one_of [eventId]) db d).
    { subst d. apply event_changes. intros x [Hx|Hx]; [right; by left|]. left. right. exists target, r. by injection Hx. }
    assert (Hu_d1 : ac_users d1 !! target = Some u) by (rewrite (core_users _ _ Hcore); by subst d).
    destruct (identities_changes d1) as [Hw1 Hc1]; [|by eapply core_wf|].
    { intros _. unfold activeAdministrator, user_where. rewrite Hu_d1. unfold activeAdminSql, activeAccountSql. rewrite Hb. cbn.
      by rewrite andb_false_r. }
    assert (Hu3 : ac_users d3 !! target = Some u) by (by rewrite (core_users _ _ Hcore3)).
    apply (tombstone_on d3 u) in E; [subst db'|congruence|done].
    destruct (tombstone_wf d3 u Hu3 Hb) as [Hw3 Hc3]; [by eapply core_wf|]. split; [exact Hw3|].
    eapply changes_trans; [exact Hc|]. apply (changes_more nothing); [by intros x []|]. eapply changes_trans; [by apply core_changes|].
    eapply changes_trans; [exact Hc1|]. eapply changes_trans; [by apply core_changes|exact Hc3].
Qed.
End deleting.
