(* ===== verification/AccountPool.v ===== *)
(** Requests on accounts side by side: what each secures, whatever the others do, and
    what therefore holds of every state and between any two of them. *)
From stdpp Require Import base gmap list strings relations.
From Stdlib Require Import ZArith Lia.
From S2P Require Import Prelude Json Text Store Access Placement Requests RouteRevocation Interference AccountStore AccountRequests AccountSafety.

Open Scope string_scope.
Open Scope list_scope.
Open Scope Z_scope.
Open Scope req_scope.

(** * Requests that need no fresh id *)

Lemma run_good used P l db :
  good used P l -> acc_wf db -> P db -> acc_wf (fst (run_acc_batch l db)) /\ changes used db (fst (run_acc_batch l db)).
Proof.
  intros Hl Hwf Hp. unfold run_acc_batch. destruct (acc_batch l db) as [[db' bs]|c] eqn:E; cbn [fst]; [by eapply Hl|].
  split; [done|by apply core_changes].
Qed.

Section modest.
Variable used : string -> Prop.
Definition modest {A} (p : Req AccCall AccDb A) : Prop := upholds acc_wf (changes used) (fun _ _ => True) (fun _ => True) p.

Lemma modest_done {A} (a : A) : modest (Done a).
Proof. done. Qed.
Lemma modest_bind {A B} (p : Req AccCall AccDb A) (k : A -> Req AccCall AccDb B) :
  modest p -> (forall a, modest (k a)) -> modest (req_bind p k).
Proof. intros Hp Hk. eapply upholds_seq; [exact Hp|]. intros a _. apply Hk. Qed.
Lemma modest_try {A B} (p : Acc A) (k : A -> Acc B) : modest p -> (forall a, modest (k a)) -> modest (req_try p k).
Proof. intros Hp Hk. apply modest_bind; [done|]. by intros [a|e]; [apply Hk|]. Qed.
Lemma modest_attempt {A} d (p : Acc A) (k : A -> CleanupAttempt) : modest p -> (forall a, modest (k a)) -> modest (attempt d p k).
Proof. intros Hp Hk. apply modest_bind; [done|]. by intros [a|e]; [apply Hk|]. Qed.
Lemma modest_tolerate failures c (k : list AccError -> CleanupAttempt) : (forall f, modest (k f)) -> modest (tolerate failures c k).
Proof. intros Hk. split; [done|]. intros b. apply Hk. Qed.
Lemma modest_query {B} (g : AccDb -> B) : modest (query g).
Proof. intros db Hwf. split; [done|]. split; [by apply core_changes|done]. Qed.
Lemma modest_call {B} (c : AccCall B) : modest (call c).
Proof. by split. Qed.
Lemma modest_write l : good used anyway l -> modest (acc_write l).
Proof.
  intros Hl. apply modest_bind; [|by intros [?|?]]. intros db Hwf. destruct (run_good _ _ _ db Hl Hwf I). by split_and!.
Qed.
Lemma modest_clock code : modest (readClock code).
Proof. by split. Qed.
End modest.

(** Walks a program whose batches are good. *)
Ltac modestly :=
  repeat (intros; lazymatch goal with
    | |- modest _ (readClock _) => apply modest_clock
    | |- modest _ (query _) => apply modest_query
    | |- modest _ (call _) => apply modest_call
    | |- modest _ (acc_write _) => apply modest_write
    | |- modest _ (req_try _ _) => apply modest_try
    | |- modest _ (attempt _ _ _) => apply modest_attempt
    | |- modest _ (tolerate _ _ _) => apply modest_tolerate
    | |- modest _ (req_bind _ _) => apply modest_bind
    | |- modest _ (match ?x with _ => _ end) => destruct x
    | |- modest _ (Done _) => exact I
    | |- modest _ (acc_ok _) => exact I
    | |- modest _ (acc_throw _) => exact I
    | |- modest _ (acc_refuse _ _) => exact I
    | |- modest _ (acc_lift _) => exact I
    | |- modest _ (readCurrentRevocation _) => apply modest_query
    | |- modest _ (getAccessRevocationStatus _) => unfold getAccessRevocationStatus
    end).

Section programs.
Variable used : string -> Prop.

Lemma modest_revocationFailure userId actor : modest used (revocationFailure userId actor).
Proof. unfold revocationFailure. modestly. Qed.
Lemma modest_acquire attempt userId v : modest used (acquireAccessRevocationCleanup attempt userId v).
Proof. unfold acquireAccessRevocationCleanup. modestly. apply good_acquire. Qed.
Lemma modest_complete eventId userId v attempt : used eventId -> modest used (completeAccessRevocationCleanup eventId userId v attempt).
Proof. intros Hu. unfold completeAccessRevocationCleanup. modestly. by apply good_complete. Qed.
Lemma modest_failure eventId userId v attempt actor why :
  used eventId -> modest used (recordAccessRevocationCleanupFailure eventId userId v attempt actor why).
Proof. intros Hu. unfold recordAccessRevocationCleanupFailure, recordCleanup. modestly. by apply good_failure. Qed.
Lemma modest_stall eventId userId v attempt actor why :
  used eventId -> modest used (recordAccessRevocationCleanupStall eventId userId v attempt actor why).
Proof. intros Hu. unfold recordAccessRevocationCleanupStall, recordCleanup. modestly. by apply good_stall. Qed.
Lemma modest_restoreFailure userId actor v : modest used (restoreFailure userId actor v).
Proof. unfold restoreFailure. modestly. Qed.
Lemma modest_fence userId v attempt : modest used (assertRevocationFence userId v attempt).
Proof. unfold assertRevocationFence. modestly. Qed.
Lemma modest_destroy userId v attempt runs : forall d failures k,
  (forall d f, modest used (k d f)) -> modest used (destroyRuns userId v attempt runs d failures k).
Proof.
  induction runs as [|run runs IH]; intros d failures k Hk; cbn [destroyRuns]; [apply Hk|].
  apply modest_attempt; [apply modest_fence|]. intros _. apply modest_tolerate. intros f. by apply IH.
Qed.
Lemma modest_hosts userId v attempt c hosts : forall failures k,
  (forall f, modest used (k f)) -> modest used (eachHost userId v attempt c hosts failures k).
Proof.
  induction hosts as [|h hosts IH]; intros failures k Hk; cbn [eachHost]; [apply Hk|].
  apply modest_attempt; [apply modest_fence|]. intros _. apply modest_tolerate. intros f. by apply IH.
Qed.
Lemma modest_body userId v attempt eventId : used eventId -> modest used (cleanupBody userId v attempt eventId).
Proof.
  intros Hu. unfold cleanupBody. apply modest_attempt; [apply modest_fence|]. intros _. modestly; try apply modest_fence.
  - apply good_core, core_sweep.
  - intros _. apply modest_destroy. intros d f. apply modest_attempt; [apply modest_fence|]. intros _. apply modest_tolerate. intros f1.
    apply modest_tolerate. intros f2. apply modest_hosts. intros f3. apply modest_hosts. intros [|e f4]; [|done].
    apply modest_bind; [by apply modest_complete|done].
Qed.
Lemma modest_cleanup attempt completed failed userId v actor :
  used completed -> used failed -> modest used (cleanupAccessRevocation attempt completed failed userId v actor).
Proof.
  intros Hc Hf. unfold cleanupAccessRevocation. apply modest_try; [apply modest_acquire|]. intros [a|]; [|done].
  apply modest_bind; [by apply modest_body|]. intros [d [[]|e]]; [done|].
  apply modest_bind; [|done]. destruct d; [by apply modest_stall|by apply modest_failure].
Qed.
Lemma modest_removals userId hosts : forall pending, modest used (finishRemovals userId hosts pending).
Proof.
  induction hosts as [|h hosts IH]; intros pending; cbn [finishRemovals]; [done|]. apply modest_bind; [|intros r; apply IH].
  modestly. apply good_core. repeat constructor. apply core_servers.
Qed.
Lemma modest_allowed target actor : modest used (assertPlatformUserDeletionAllowed target actor).
Proof. unfold assertPlatformUserDeletionAllowed. modestly. Qed.
Lemma modest_role target actor role : modest used (setPlatformUserRole target actor role).
Proof. unfold setPlatformUserRole, throwPlatformUserMutationFailure. modestly. apply good_role. Qed.
Lemma modest_disconnect userId providerId sessionId : modest used (disconnectIdentity userId providerId sessionId).
Proof. unfold disconnectIdentity. modestly. apply good_disconnect. Qed.
Lemma modest_issue userId routeId : modest used (issueAccountFencedRoute userId routeId).
Proof.
  assert (Hc : forall l e, modest used (failClosed l e)).
  { intros l e. unfold failClosed, revokeAllRoutes. apply modest_bind; [|done].
    induction (Set_new l) as [|x rest IH]; cbn [revokeEach]; [done|]. by modestly. }
  unfold issueAccountFencedRoute. modestly; apply Hc.
Qed.

Variable ids : nat -> string.
Hypothesis Hused : used (ids 3%nat) /\ used (ids 4%nat).
Lemma modest_run userId v actor : modest used (runRevocationCleanup ids userId v actor).
Proof. unfold runRevocationCleanup. apply modest_bind; [apply modest_cleanup; apply Hused|]. intros [[]|[]]; modestly. Qed.
Lemma modest_finish userId v actor : modest used (finishAccessRevocationCleanup ids userId v actor).
Proof. unfold finishAccessRevocationCleanup. modestly; apply modest_run. Qed.
Lemma modest_retire hostId userId confirm : modest used (retirePersonalHost ids hostId userId confirm).
Proof. unfold retirePersonalHost. modestly. apply good_retire. Qed.
End programs.

(** * Requests with ids of their own *)

Section secured.
Variable ids : nat -> nat -> string.
Hypothesis Hids : forall r r' k k', ids r k = ids r' k' -> r = r' /\ k = k'.
Variable r : nat.

Definition owned (x : string) : Prop := exists k, x = ids r k.
(** What a request relies on, what it guarantees, and what it starts from. *)
Definition relies (db db' : AccDb) : Prop := forall k, mentioned db' (ids r k) -> mentioned db (ids r k).
Definition guarantees (db db' : AccDb) : Prop := changes owned db db'.
Definition unused (db : AccDb) : Prop := forall k, unmentioned (ids r k) db.
#[local] Abbreviation sec := (secures acc_wf relies guarantees).

(** The k-th id is still unused. *)
Lemma unmentioned_later k db db' : relies db db' -> unmentioned (ids r k) db -> unmentioned (ids r k) db'.
Proof. intros Hr Hu Hm. by apply Hu, Hr. Qed.
Lemma unmentioned_changes k (used : string -> Prop) db db' :
  changes used db db' -> ~ used (ids r k) -> unmentioned (ids r k) db -> unmentioned (ids r k) db'.
Proof. intros (_ & _ & Hm) Hn Hu Hx. destruct (Hm _ Hx); auto. Qed.

Definition spare (K : nat -> Prop) (db : AccDb) : Prop := forall k, K k -> unmentioned (ids r k) db.
Lemma modest_secured {A} (p : Req AccCall AccDb A) used K db :
  modest used p -> (forall x, used x -> owned x) -> (forall k, K k -> ~ used (ids r k)) -> spare K db ->
  sec (fun db' _ => spare K db') db p.
Proof.
  intros Hp Hown HK. revert db. induction p as [a|B f next IH|B c next IH]; intros db Hu; cbn; [done| |].
  - intros db1 Hwf Hr. destruct (Hp db1 Hwf) as (Hw & Hc & Hn). split; [done|]. split; [by eapply changes_more|].
    apply IH; [exact Hn|]. intros k Hk. eapply unmentioned_changes; [exact Hc|by apply HK|]. eapply unmentioned_later; [exact Hr|by apply Hu].
  - intros b. apply IH; [|done]. apply Hp.
Qed.
(** A request that needs no id secures nothing in particular. *)
Lemma modest_secured_any {A} (p : Req AccCall AccDb A) used db :
  modest used p -> (forall x, used x -> owned x) -> sec (fun _ _ => True) db p.
Proof.
  intros Hp Hown. revert db. induction p as [a|B f next IH|B c next IH]; intros db; cbn; [done| |].
  - intros db1 Hwf _. destruct (Hp db1 Hwf) as (Hw & Hc & Hn). split; [done|]. split; [by eapply changes_more|]. by apply IH.
  - intros b. apply IH. apply Hp.
Qed.

(** A batch that needs the k-th id unused. *)
Lemma write_secured k used l db (Q : AccDb -> result AccError (list bool) -> Prop) :
  good used (unmentioned (ids r k)) l -> (forall x, used x -> owned x) -> unmentioned (ids r k) db ->
  (forall db1 db2 out, relies db db1 -> changes used db1 db2 -> Q db2 out) ->
  sec Q db (acc_write l).
Proof.
  intros Hl Hown Hu HQ. unfold acc_write, transaction. cbn [req_bind]. intros db1 Hwf Hr.
  destruct (run_good _ _ _ db1 Hl Hwf) as [Hw Hc]; [by eapply unmentioned_later|]. split; [done|].
  split; [by eapply changes_more|]. destruct (snd _); cbn; by eapply HQ.
Qed.
Lemma one_owned k x : one_of [ids r k] x -> owned x.
Proof. intros [<-|[]]. by exists k. Qed.
Lemma two_owned k j x : one_of [ids r k; ids r j] x -> owned x.
Proof. intros [<-|[<-|[]]]; by eexists. Qed.

(** The j-th id stays unused by what uses others. *)
Lemma ids_apart k j : k <> j -> ids r k <> ids r j.
Proof. intros Hne E. apply Hne. by destruct (Hids _ _ _ _ E). Qed.
Definition cleanup_ids : string -> Prop := one_of [ids r 3%nat; ids r 4%nat].
Lemma cleanup_ids_used : cleanup_ids (ids r 3%nat) /\ cleanup_ids (ids r 4%nat).
Proof. split; [by left|right; by left]. Qed.
Lemma cleanup_ids_owned x : cleanup_ids x -> owned x.
Proof. apply two_owned. Qed.
Lemma cleanup_ids_spare k : k = 5%nat -> ~ cleanup_ids (ids r k).
Proof. intros -> [E|[E|[]]]; revert E; by apply ids_apart. Qed.

Lemma clock_then {A} code (k : Z -> Acc A) Q db :
  (forall now, sec Q db (k now)) -> (forall e, Q db (Err e)) -> sec Q db (req_try (readClock code) k).
Proof. intros Hk He b. cbn. destruct (validNow code b); [apply Hk|apply He]. Qed.
Lemma lift_then {A B} (x : result AccError B) (k : B -> Acc A) Q db :
  (forall b, sec Q db (k b)) -> (forall e, Q db (Err e)) -> sec Q db (req_try (acc_lift x) k).
Proof. intros Hk He. destruct x; [apply Hk|apply He]. Qed.
(** A part that leaves ids unused, before what needs them. *)
Lemma spare_then {A B} (p : Acc B) (k : B -> Acc A) used K db :
  modest used p -> (forall x, used x -> owned x) -> (forall j, K j -> ~ used (ids r j)) -> spare K db ->
  (forall db' b, spare K db' -> sec (fun _ _ => True) db' (k b)) -> sec (fun _ _ => True) db (req_try p k).
Proof.
  intros Hp Hown Hn Hu Hk. eapply secures_try; [|exact Hk]. eapply secures_weaken; [|by eapply modest_secured].
  intros db' [b|e] Hdb'; [exact Hdb'|exact I].
Qed.
Definition fifth (k : nat) : Prop := k = 5%nat.

Lemma revoke_secured userId actor reason db :
  unused db -> sec (fun db' _ => spare fifth db') db (revokeAccount (ids r 0%nat) (ids r 1%nat) userId actor reason).
Proof.
  intros Hu. assert (H5 : spare fifth db) by (by intros k _). unfold revokeAccount.
  apply clock_then; [intros now|intros; exact H5]. apply lift_then; [intros u|intros; exact H5].
  apply lift_then; [intros a|intros; exact H5]. apply lift_then; [intros why|intros; exact H5].
  apply (secures_try _ _ _ (fun db' _ => spare fifth db')).
  - apply (write_secured 0 (one_of [ids r 0%nat; ids r 1%nat])); [apply good_revoke|apply two_owned|apply Hu|].
    intros db1 db2 out Hr Hc. assert (spare fifth db2); [|by destruct out].
    intros k ->. eapply unmentioned_changes; [exact Hc| |eapply unmentioned_later; [exact Hr|apply Hu]].
    intros [E|[E|[]]]; revert E; by apply ids_apart.
  - intros db' rows Hs. assert (Hf : sec (fun db'' _ => spare fifth db'') db' (e <-- revocationFailure u a; acc_throw e : Acc string)).
    { eapply (modest_secured _ nothing); [|by intros ? []|by intros ? ? []|exact Hs]. apply modest_bind; [apply modest_revocationFailure|done]. }
    destruct rows as [|[] rows]; [exact Hf|exact Hs|exact Hf].
Qed.
Lemma modest_ran userId v actor : modest cleanup_ids (runRevocationCleanup (ids r) userId v actor).
Proof. apply modest_run, cleanup_ids_used. Qed.
Lemma revokeAccess_secured userId actor reason db :
  unused db -> sec (fun _ _ => True) db (revokeAccess (ids r) userId actor reason).
Proof.
  intros Hu. unfold revokeAccess. eapply secures_try.
  - eapply secures_weaken; [|by apply revoke_secured]. intros db' [v|e] H5; [exact H5|exact I].
  - intros db' v H5. eapply modest_secured_any; [|apply cleanup_ids_owned]. apply modest_try; [apply modest_ran|done].
Qed.
Lemma ensure_secured userId actor reason db :
  unused db -> sec (fun db' _ => spare fifth db') db (ensureAccessRevoked (ids r) userId actor reason).
Proof.
  intros Hu. unfold ensureAccessRevoked. apply (secures_try _ _ _ (fun db' _ => spare fifth db')).
  - unfold ensureRevocation, getAccessRevocationStatus, readCurrentRevocation. cbn [req_bind query]. intros db1 Hwf Hr.
    split; [done|]. split; [by apply core_changes|]. cbn [fst snd].
    assert (H1 : unused db1) by (intros k; eapply unmentioned_later; [exact Hr|apply Hu]).
    destruct (option_map _ _) as [s|]; [by intros k _|].
    apply (secures_seq _ _ _ (fun db' _ => spare fifth db')); [by apply revoke_secured|]. intros db2 [v|e] H5; [exact H5|].
    destruct (already_revoked e); [|exact H5]. eapply secures_weaken; [|eapply (modest_secured _ nothing); [|by intros ? []|by intros ? ? []|exact H5]].
    + intros db3 [s|e'] Hs; exact Hs.
    + intros db3 Hw3. split; [done|]. split; [by apply core_changes|]. cbn. by destruct (option_map _ _).
  - intros db1 [v [| |]] H5; cbn [rs_cleanup rs_revocationId]; [| |exact H5];
      (eapply modest_secured; [apply modest_try; [apply modest_ran|done]|apply cleanup_ids_owned|apply cleanup_ids_spare|exact H5]).
Qed.
Lemma restoreAccess_secured userId actor v db :
  unused db -> sec (fun _ _ => True) db (restoreAccess (ids r) userId actor v).
Proof.
  intros Hu. unfold restoreAccess. apply (secures_try _ _ _ (fun _ _ => True)).
  - unfold restoreAccount. apply clock_then; [intros now|done]. apply lift_then; [intros u|done]. apply lift_then; [intros a|done].
    apply lift_then; [intros x|done]. apply (secures_try _ _ _ (fun _ _ => True)).
    + apply (write_secured 5 (one_of [ids r 5%nat])); [apply good_restore|apply one_owned|apply Hu|]. by intros ? ? [].
    + intros db' rows _. assert (Hf : sec (fun db'' out => match out with Ok _ => True | Err _ => True end) db' (restoreFailure u a x)).
      { eapply secures_weaken; [|eapply (modest_secured_any _ nothing); [apply modest_restoreFailure|by intros ? []]]. by intros ? []. }
      destruct rows as [|[] rows]; [exact Hf|done|exact Hf].
  - intros db' o _. eapply (modest_secured_any _ nothing); [|by intros ? []]. apply modest_bind; [apply modest_query|].
    intros hosts. apply modest_removals.
Qed.
Lemma finalize_secured target actor db : spare fifth db -> sec (fun _ _ => True) db (finalizePlatformUserDeletion (ids r) target actor).
Proof.
  intros Hu. unfold finalizePlatformUserDeletion. apply lift_then; [intros t|done]. apply lift_then; [intros a|done].
  apply clock_then; [intros now|done]. apply (spare_then _ _ nothing fifth); [apply modest_allowed|by intros ? []|by intros ? ? []|done|].
  intros db' _ H5. apply (secures_try _ _ _ (fun _ _ => True)).
  - apply (write_secured 5 (one_of [ids r 5%nat])); [apply good_deletion|apply one_owned|by apply H5|]. by intros ? ? [].
  - intros db2 rows _. eapply (modest_secured_any _ nothing); [|by intros ? []].
    unfold throwPlatformUserDeletionFailure. destruct (last rows) as [[]|]; modestly; apply modest_allowed.
Qed.
Lemma delete_secured userId actor db : unused db -> sec (fun _ _ => True) db (deletePlatformUser (ids r) userId actor).
Proof.
  intros Hu. unfold deletePlatformUser. destruct (negb _); [done|].
  apply (spare_then _ _ nothing (fun _ => True)); [apply modest_allowed|by intros ? []|by intros ? ? []|by intros k _|].
  intros db1 [] Hu1. eapply secures_try.
  - eapply secures_weaken; [|apply ensure_secured; intros k; by apply Hu1]. intros db2 [v|e] H5; [exact H5|exact I].
  - intros db2 v H5. by apply finalize_secured.
Qed.
End secured.

(** * Every request, and the rest of the system *)

(** The answer of a request does not matter here. *)
Definition forget {A} (p : Req AccCall AccDb A) : Req AccCall AccDb () := req_bind p (fun _ => Done ()).
Inductive account_request (ids : nat -> nat -> string) (r : nat) : Req AccCall AccDb () -> Prop :=
| request_role target actor role : account_request ids r (forget (setPlatformUserRole target actor role))
| request_revoke userId actor reason : account_request ids r (forget (revokeAccess (ids r) userId actor reason))
| request_finish userId v actor : account_request ids r (forget (finishAccessRevocationCleanup (ids r) userId v actor))
| request_ensure userId actor reason : account_request ids r (forget (ensureAccessRevoked (ids r) userId actor reason))
| request_restore userId actor v : account_request ids r (forget (restoreAccess (ids r) userId actor v))
| request_delete userId actor : account_request ids r (forget (deletePlatformUser (ids r) userId actor))
| request_disconnect userId providerId sessionId : account_request ids r (forget (disconnectIdentity userId providerId sessionId))
| request_retire hostId userId confirm : account_request ids r (forget (retirePersonalHost (ids r) hostId userId confirm))
| request_route userId routeId : account_request ids r (forget (issueAccountFencedRoute userId routeId)).

(** What everything else does to the accounts: sign-ups and profile changes, new and
    removed identities, events of its own. It removes no account, revokes and bans
    nobody, changes no role, and leaves administrators their GitHub identity. *)
Record elsewhere (ids : nat -> nat -> string) (db db' : AccDb) : Prop := mk_elsewhere {
  ew_users : forall id u, ac_users db !! id = Some u -> exists u', ac_users db' !! id = Some u' /\ same_access u u';
  ew_new : forall id u', ac_users db !! id = None -> ac_users db' !! id = Some u' -> pu_banned u' <> Some true;
  ew_revocations : ac_revocations db' = ac_revocations db;
  ew_events : exists new, ac_events db' = ac_events db ++ new /\
    Forall (fun e => ev_revocationId e = None /\ forall r k, ev_id e <> ids r k) new;
  ew_identities : forall id, activeAdministrator db id = true -> hasGithubIdentity (dr_identities (ac_directory db)) id ->
    hasGithubIdentity (dr_identities (ac_directory db')) id;
}.

Definition anything (x : string) : Prop := True.
Lemma elsewhere_wf ids db db' : elsewhere ids db db' -> acc_wf db -> acc_wf db'.
Proof.
  intros [Hu Hn Hr (new & He & Hnew) Hi] [H1 H2 H3 H4 H5 H6 H7].
  assert (Ec : completions (ac_events db') = completions (ac_events db)).
  { rewrite He, completions_app. enough (completions new = []) as -> by apply app_nil_r. clear -Hnew.
    induction Hnew as [|e l [Hx _] _ IH]; [done|]. unfold completions in *. cbn. rewrite Hx. by case_bool_decide. }
  split; rewrite ?Hr, ?Ec; try done.
  - intros id r Hx. destruct (H1 id r Hx) as (u & Hu1 & Hb). destruct (Hu id u Hu1) as (u' & Hu' & _ & Eb & _). exists u'. split; [done|congruence].
  - intros id u' Hu' Hd Hb. destruct (ac_users db !! id) as [u|] eqn:E; [|by destruct (Hn id u' E Hu')].
    destruct (Hu id u E) as (u2 & Hu2 & _ & Eb & Er & Ed & _). simplify_eq. rewrite Er. apply (H2 id u); congruence.
  - intros id r a Hx Hc Ha. pose proof (H6 id r a Hx Hc Ha) as Hb. revert Hb. unfold completedBefore. rewrite He, existsb_app. by intros ->.
Qed.
Lemma elsewhere_changes ids db db' : elsewhere ids db db' -> changes anything db db'.
Proof.
  intros [Hu Hn Hr _ Hi]. split_and!; [| |by right].
  - intros id u Hx. destruct (Hu id u Hx) as (u' & Hu' & Hs). exists u'. split; [done|by apply same_access_kept].
  - apply administered_same; [|done]. intros id (u & Hx & Ha)%user_where_spec. destruct (Hu id u Hx) as (u' & Hu' & Hs).
    apply user_where_spec. exists u'. split; [done|]. by rewrite (same_access_admin _ _ Hs).
Qed.
Lemma elsewhere_relied ids r db db' : elsewhere ids db db' -> relies ids r db db'.
Proof.
  intros [_ _ Hr (new & He & Hnew) _] k [(e & Hin & Hx)|Hx]; [|right; by rewrite <-Hr].
  rewrite He in Hin. apply in_app_iff in Hin as [Hin|Hin]; [left; eauto|]. rewrite Forall_forall in Hnew.
  apply list_elem_of_In, Hnew in Hin as [Hv Hid]. destruct Hx as [Hx|Hx]; [by apply Hid in Hx|congruence].
Qed.

Section pool.
Variable ids : nat -> nat -> string.
Hypothesis Hids : forall r r' k k', ids r k = ids r' k' -> r = r' /\ k = k'.

Lemma forget_secured r {A} (p : Req AccCall AccDb A) Q db :
  secures acc_wf (relies ids r) (guarantees ids r) Q db p ->
  secures acc_wf (relies ids r) (guarantees ids r) (fun _ _ => True) db (forget p).
Proof. intros Hp. apply secures_bind. eapply secures_weaken; [|exact Hp]. done. Qed.
Lemma forget_modest r {A} (p : Req AccCall AccDb A) used db :
  modest used p -> (forall x, used x -> owned ids r x) ->
  secures acc_wf (relies ids r) (guarantees ids r) (fun _ _ => True) db (forget p).
Proof. intros Hp Hown. apply (forget_secured r p (fun _ _ => True)). by eapply modest_secured_any. Qed.

Lemma accounts_compatible :
  compatible (account_request ids) (elsewhere ids) acc_wf (relies ids) (guarantees ids) (unused ids).
Proof.
  split.
  - by intros r db k.
  - intros r a b c H1 H2 k Hk. by apply H1, H2.
  - intros r db db' Hr Hu k Hm. by apply (Hu k), Hr.
  - intros r r' db db' Hne _ (_ & _ & Hm) k Hk. destruct (Hm _ Hk) as [|(j & Ej)]; [done|]. by destruct (Hids _ _ _ _ Ej) as [-> _].
  - intros db db' He Hwf. split; [by eapply elsewhere_wf|]. intros r. by apply elsewhere_relied.
  - assert (Hn : forall r x, nothing x -> owned ids r x) by (by intros r x []).
    intros r p db [] Hwf Hu.
    + by apply (forget_modest r _ nothing); [apply modest_role|].
    + eapply forget_secured, revokeAccess_secured; done.
    + eapply forget_modest; [apply modest_finish, (cleanup_ids_used ids r)|apply cleanup_ids_owned].
    + eapply forget_secured, ensure_secured; done.
    + eapply forget_secured, restoreAccess_secured; done.
    + eapply forget_secured, delete_secured; done.
    + by apply (forget_modest r _ nothing); [apply modest_disconnect|].
    + by apply (forget_modest r _ nothing); [apply modest_retire|].
    + by apply (forget_modest r _ nothing); [apply modest_issue|].
Qed.

Variable db0 : AccDb.
Hypothesis Hwf0 : acc_wf db0.
Hypothesis Hnew : forall r, unused ids r db0.
Definition reached (c : Pool AccCall AccDb ()) : Prop := rtc (pool_step (account_request ids) (elsewhere ids)) (mkPool db0 0 []) c.

Lemma reached_step c c' :
  reached c -> pool_step (account_request ids) (elsewhere ids) c c' ->
  acc_wf (pl_state c) /\ acc_wf (pl_state c') /\ changes anything (pl_state c) (pl_state c').
Proof.
  intros Hc Hs. destruct (pool_secures _ _ _ _ _ _ accounts_compatible db0 0%nat c c' Hwf0 (fun r _ => Hnew r) Hc Hs) as (H1 & H2 & Hch).
  split_and!; [done|done|]. destruct Hch as [->|[He|(r & Hg)]].
  - by apply core_changes.
  - by eapply elsewhere_changes.
  - by eapply changes_more.
Qed.
Lemma reached_wf c : reached c -> acc_wf (pl_state c).
Proof. intros Hc. apply rtc_inv_r in Hc as [<-|(m & Hm & Hs)]; [done|]. by destruct (reached_step m c Hm Hs) as (_ & ? & _). Qed.
Lemma reached_later c c' :
  reached c -> rtc (pool_step (account_request ids) (elsewhere ids)) c c' ->
  reached c' /\ changes anything (pl_state c) (pl_state c').
Proof.
  intros Hc Hl. induction Hl as [a|a b d Hab _ IH]; [split; [done|by apply core_changes]|].
  destruct (reached_step a b Hc Hab) as (_ & _ & H1). destruct IH as [H2 H3]; [by eapply rtc_r|].
  split; [done|by eapply changes_trans].
Qed.
End pool.
