(* ===== verification/AccountSample.v ===== *)
(** Three accounts on which the theorems about access are tried: two administrators,
    and a person with a session, a token, an app and a server. *)
From stdpp Require Import base gmap list strings pretty relations.
From Stdlib Require Import ZArith Lia Ascii.
From S2P Require Import Prelude Json Text Store Access Placement Requests Interference AccountStore AccountRequests AccountSafety AccountPool.

Open Scope string_scope.
Open Scope list_scope.
Open Scope Z_scope.

Module AccountSample.
Definition person (name : string) (role : option string) : AccountRow :=
  mkAccount name (name +:+ "@example.com") None (Some name) None role None None None None up_platform 0 0.
Definition identity (name : string) : IdentityRow := mkIdentity ("identity-" +:+ name) ("github-" +:+ name) "github" name 0.
Definition work : IdentityRow := mkIdentity "identity-work" "subject-bob" "acme" "bob" 1.
Definition directory : Directory :=
  mkDirectory [identity "ada"; identity "eve"; identity "bob"; work] [mkProvider "acme" (Some "org")] []
    [mkMembership "org" "eve" "owner"; mkMembership "org" "bob" "member"] [] [] [].
Definition credentials : Credentials :=
  mkCredentials [mkAuthSession "session-ada" "ada" None 0; mkAuthSession "session-bob" "bob" None 0]
    [mkToken "token-bob" "app" (Some "session-bob") (Some "bob"); mkToken "token-ada" "app" None (Some "ada")] []
    [mkConsent "app" (Some "ada")] [mkClient "app" (Some "bob")] [] [mkUserKey "key-bob" "bob"].
Definition server : ServerRow := mkServer "host-bob" "bob" (Some scope_personal) false true true (Some "agent") 0 None 0 None None.
Definition servers : Servers :=
  mkServers [server] [mkBootstrapToken "host-bob" None] [] [] [] [mkUserRun "run" "bob" "host-bob" None None None].
Definition start : AccDb :=
  mkAccDb {["ada" := person "ada" (Some "admin"); "eve" := person "eve" (Some "Admin, user"); "bob" := person "bob" None]} ∅ []
    directory credentials servers.

(** The ids of request [r]. *)
Definition ids (r k : nat) : string := pretty (Z.of_nat r) +:+ "-" +:+ pretty (Z.of_nat k).
Lemma account_ids_distinct r r' k k' : ids r k = ids r' k' -> r = r' /\ k = k'.
Proof.
  intros E. apply (f_equal (str_split "-"%char)) in E. unfold ids in E.
  assert (Hf : forall x, unit_free "-"%char (pretty (Z.of_nat x)) = true).
  { intros x. eapply digits_unit_free; [|by apply digits_value_pretty; lia]. done. }
  assert (Hs : forall x y, str_split "-"%char (pretty (Z.of_nat x) +:+ "-" +:+ pretty (Z.of_nat y)) = [pretty (Z.of_nat x); pretty (Z.of_nat y)]).
  { intros x y. rewrite <-(str_split_free "-"%char (pretty (Z.of_nat y))) by apply Hf. by apply (str_split_join "-"%char). }
  rewrite !Hs in E. injection E as E1 E2. apply pretty_Z_inj in E1, E2; lia.
Qed.

Definition answer (B : Type) (c : AccCall B) : B :=
  match c with
  | DateNow => 1000
  | DestroyScenarioRun _ _ => Ok ()
  | RevokeScenarioRoutes _ => Ok ()
  | StopRunShares _ => Ok ()
  | RetireHostRuntime _ => Ok ()
  | WakeHostRuntime _ => Ok ()
  | CleanupRemovedHost _ => Ok ()
  | IssueRoute _ => Ok ["route"]
  | RevokeRoute _ => Ok ()
  end.

Lemma start_wf : acc_wf start.
Proof.
  split; cbn [start ac_users ac_revocations ac_events]; try (intros; by rewrite ?lookup_empty in * ); [|constructor].
  intros id u Hu _ Hb. exfalso. apply elem_of_map_to_list in Hu. revert Hu.
  assert (E : forallb (fun p => bool_decide (pu_banned (snd p) = None)) (map_to_list (ac_users start)) = true) by (vm_compute; reflexivity).
  rewrite forallb_forall in E. intros Hu%list_elem_of_In%E%bool_decide_eq_true_1. cbn in Hu. congruence.
Qed.
Lemma start_unused r : unused ids r start.
Proof. intros k [(e & [] & _)|(id & x & Hx & _)]. cbn in Hx. by rewrite lookup_empty in Hx. Qed.
Lemma start_administered : administered start.
Proof. exists "ada". vm_compute. reflexivity. Qed.
End AccountSample.
