(* ===== verification/AccountResults.v ===== *)
(** What revoking and restoring access come to: the theorems on accounts. *)
From stdpp Require Import base gmap list strings relations.
From Stdlib Require Import ZArith Lia.
From S2P Require Import Prelude Json Text Store Access Placement Requests RouteRevocation Interference AccountStore AccountRequests AccountSafety AccountPool AccountSample.

Open Scope string_scope.
Open Scope list_scope.
Open Scope Z_scope.

(** * A fresh start *)

(** The statements by the table group they change, under one guard. *)
Inductive SweepStep : Type :=
| sweep_credentials (f : bool -> Credentials -> Credentials)
| sweep_directory (f : bool -> Directory -> Directory)
| sweep_servers (f : bool -> Servers -> Servers).
Definition sweep_stmt (guard : AccDb -> bool) (s : SweepStep) : AccStmt :=
  match s with
  | sweep_credentials f => on_credentials (fun db c => f (guard db) c)
  | sweep_directory f => on_directory (fun db d => f (guard db) d)
  | sweep_servers f => on_servers (fun db v => f (guard db) v)
  end.
Definition sweep_apply (g : bool) (db : AccDb) (s : SweepStep) : AccDb :=
  match s with
  | sweep_credentials f => set_credentials db (f g (ac_credentials db))
  | sweep_directory f => set_directory db (f g (ac_directory db))
  | sweep_servers f => set_servers db (f g (ac_servers db))
  end.
Lemma sweep_run guard steps db :
  (forall a b, ac_events a = ac_events b -> guard a = guard b) ->
  exists cs, acc_batch (map (sweep_stmt guard) steps) db = Ok (fold_left (sweep_apply (guard db)) steps db, cs).
Proof.
  intros Hg. revert db. induction steps as [|s steps IH]; intros db; [by eexists|].
  assert (E : sweep_stmt guard s db = Ok (sweep_apply (guard db) db s, true)) by (by destruct s).
  assert (Hs : guard (sweep_apply (guard db) db s) = guard db) by (apply Hg; by destruct s).
  destruct (IH (sweep_apply (guard db) db s)) as [cs Ecs]. exists (true :: cs). cbn [map acc_batch fold_left]. rewrite E. cbn [result_bind fst snd].
  rewrite Ecs, Hs. done.
Qed.

Definition restoreSteps (userId eventId : string) (now : Z) : list SweepStep :=
  let retired (v : Servers) column := existsb (fun h => sql_eq column (Some (sh_id h)) && personalOf userId h) (sv_hosts v) in
  [sweep_credentials (fun g c => set_tokens c (delete_where (fun t => is_user userId (tk_userId t) && g) (cr_accessTokens c)) (cr_refreshTokens c));
   sweep_credentials (fun g c => set_tokens c (cr_accessTokens c) (delete_where (fun t => is_user userId (tk_userId t) && g) (cr_refreshTokens c)));
   sweep_credentials (fun g => deleteSessions (fun s => is_user userId (Some (ss_userId s)) && g && negb false));
   sweep_credentials (fun g => deleteSessions (fun s => is_user userId (ss_impersonatedBy s) && g && negb false));
   sweep_credentials (fun g c => set_consents c (delete_where (fun x => is_user userId (cn_userId x) && g) (cr_consents c)));
   sweep_credentials (fun g c => set_verifications c (delete_where (fun v => authorizationCodeOf userId v && g) (cr_verifications c)));
   sweep_servers (fun g v => set_enrollments v (update_where
     (fun e => (en_userId e =s userId) && isNull (en_claimedAt e) && isNull (en_revokedAt e) && g) (revokeEnrollment now) (sv_enrollments v)));
   sweep_servers (fun g v => set_preparations v (delete_where (fun u => (u =s userId) && g) (sv_preparations v)));
   sweep_credentials (fun g c => set_userKeys c (delete_where (fun k => (uk_userId k =s userId) && g) (cr_sshKeys c)));
   sweep_credentials (fun g => deleteClients (fun ct => is_user userId (ct_userId ct) && g));
   sweep_directory (fun g d => set_members d (delete_where (fun m => (ms_userId m =s userId) && g &&
     negb (listsRole "owner" (Some (ms_role m))
       && negb (existsb (fun other => (ms_organizationId other =s ms_organizationId m)
            && negb (ms_userId other =s ms_userId m) && listsRole "owner" (Some (ms_role other))) (dr_members d)))) (dr_members d)));
   sweep_servers (fun g v => set_hosts v (update_where (fun h => personalOf userId h && isNull (sh_ownerRemovalCompletedAt h) && g)
     (retiredServer now (removalOf eventId)) (sv_hosts v)));
   sweep_servers (fun g v => set_bootstrapTokens v (update_where (fun t => isNull (bt_revokedAt t) && (retired v (Some (bt_hostId t)) && g))
     (fun t => mkBootstrapToken (bt_hostId t) (Some now)) (sv_bootstrapTokens v)));
   sweep_servers (fun g v => set_enrollments v (update_where (fun e => isNull (en_revokedAt e) && (retired v (Some (en_hostId e)) && g))
     (revokeEnrollment now) (sv_enrollments v)));
   sweep_servers (fun g v => set_leases v (update_where
     (fun l => negb (bool_decide (le_state l = ex_archived)) && isNull (le_leaseExpiresAt l) && (retired v (le_hostId l) && g))
     (expireLease now) (sv_leases v)))].
Lemma restore_steps userId eventId now :
  restoreSweep userId eventId now = map (sweep_stmt (restored eventId)) (restoreSteps userId eventId now).
Proof. reflexivity. Qed.
Definition swept (userId eventId : string) (now : Z) (g : bool) (db : AccDb) : AccDb :=
  fold_left (sweep_apply g) (restoreSteps userId eventId now) db.
Lemma batch_same l db db1 db2 bs cs :
  acc_batch l db = Ok (db1, bs) -> acc_batch l db = Ok (db2, cs) -> db1 = db2.
Proof. congruence. Qed.
Lemma sweep_swept userId eventId now db db' bs :
  acc_batch (restoreSweep userId eventId now) db = Ok (db', bs) -> db' = swept userId eventId now (restored eventId db) db.
Proof.
  intros E. destruct (sweep_run (restored eventId) (restoreSteps userId eventId now) db) as [cs Ecs].
  { intros a b Ee. unfold restored, eventExists. by rewrite Ee. }
  rewrite <-restore_steps in Ecs. exact (batch_same _ _ _ _ _ _ E Ecs).
Qed.

Lemma is_user_spec userId column : is_user userId column = true <-> column = Some userId.
Proof. unfold is_user. destruct column; cbn; [rewrite String.eqb_eq; naive_solver|naive_solver]. Qed.
Lemma update_where_in {A} (p : A -> bool) f l y : In y (update_where p f l) <-> exists x, In x l /\ y = if p x then f x else x.
Proof. unfold update_where. rewrite in_map_iff. naive_solver. Qed.
Lemma not_is_user userId column : is_user userId column = false <-> column <> Some userId.
Proof. rewrite <-is_user_spec. by destruct (is_user userId column). Qed.

Section swept.
Variables userId eventId : string.
Variable now : Z.
Variable db : AccDb.
#[local] Abbreviation at_ g := (swept userId eventId now g db).
#[local] Abbreviation creds := (ac_credentials db).
#[local] Abbreviation servers := (ac_servers db).

Lemma swept_sessions s :
  In s (cr_sessions (ac_credentials (at_ true))) <->
  In s (cr_sessions creds) /\ ss_userId s <> userId /\ ss_impersonatedBy s <> Some userId.
Proof.
  assert (E : cr_sessions (ac_credentials (at_ true)) = delete_where (fun s => is_user userId (ss_impersonatedBy s) && true && negb false)
    (delete_where (fun s => is_user userId (Some (ss_userId s)) && true && negb false) (cr_sessions creds))) by reflexivity.
  rewrite E, !delete_where_in, !andb_true_r, !not_is_user. naive_solver.
Qed.
Lemma swept_clients ct : In ct (cr_clients (ac_credentials (at_ true))) <-> In ct (cr_clients creds) /\ ct_userId ct <> Some userId.
Proof.
  assert (E : cr_clients (ac_credentials (at_ true)) = delete_where (fun ct => is_user userId (ct_userId ct) && true) (cr_clients creds)) by reflexivity.
  by rewrite E, delete_where_in, andb_true_r, not_is_user.
Qed.
(** The clients of the account are gone, with all that was granted through them. *)
Definition theirClient (client : string) : Prop := exists ct, In ct (cr_clients creds) /\ ct_userId ct = Some userId /\ ct_clientId ct = client.
Lemma gone_clients client :
  str_mem client (map ct_clientId (List.filter (fun ct => is_user userId (ct_userId ct) && true) (cr_clients creds))) = false <-> ~ theirClient client.
Proof.
  rewrite str_mem_false, in_map_iff. split; intros Hn Hx; apply Hn.
  - destruct Hx as (ct & ? & ? & ?). exists ct. split; [done|]. apply filter_In. split; [done|]. rewrite andb_true_r. by apply is_user_spec.
  - destruct Hx as (ct & ? & [? Hu]%filter_In). rewrite andb_true_r in Hu. apply is_user_spec in Hu. by exists ct.
Qed.
(** A session of the account, or one it opened as somebody else. *)
Definition theirSession (s : SessionRow) : bool := (ss_userId s =s userId) || is_user userId (ss_impersonatedBy s).
(** A token that stays is kept as it is, but loses a session that ended. *)
Definition tokenAfter (t : TokenRow) : TokenRow :=
  if existsb (fun s => theirSession s && sql_eq (tk_sessionId t) (Some (ss_id s))) (cr_sessions creds)
  then mkToken (tk_id t) (tk_clientId t) None (tk_userId t) else t.
#[local] Abbreviation ended p t := (existsb (fun s => p s && sql_eq (tk_sessionId t) (Some (ss_id s)))).
Lemma gone_sessions (p : SessionRow -> bool) (t : TokenRow) l :
  existsb (fun id => sql_eq (tk_sessionId t) (Some id)) (map ss_id (List.filter p l)) = ended p t l.
Proof.
  induction l as [|x l IH]; [done|]. cbn [List.filter existsb]. destruct (p x); cbn [map existsb andb]; by rewrite IH.
Qed.
Lemma ended_either (p1 p2 p : SessionRow -> bool) t l :
  (forall s, p s = p1 s || p2 s) -> ended p t l = ended p1 t l || ended p2 t (delete_where p1 l).
Proof.
  intros Hp. unfold delete_where. induction l as [|x l IH]; [done|]. cbn [existsb List.filter]. rewrite Hp, IH.
  destruct (p1 x); cbn; destruct (p2 x), (sql_eq (tk_sessionId t) (Some (ss_id x))); cbn; by rewrite ?orb_true_r.
Qed.
(** What the two deletions of sessions and the other statements make of a list of tokens. *)
Definition tokensAfter (tokens : list TokenRow) : list TokenRow :=
  let p1 s := is_user userId (Some (ss_userId s)) && true && negb false in
  let p2 s := is_user userId (ss_impersonatedBy s) && true && negb false in
  let cleared gone (t : TokenRow) :=
    if existsb (fun s => sql_eq (tk_sessionId t) (Some s)) gone
    then mkToken (tk_id t) (tk_clientId t) None (tk_userId t) else t in
  delete_where (fun t => str_mem (tk_clientId t) (map ct_clientId (List.filter (fun ct => is_user userId (ct_userId ct) && true) (cr_clients creds))))
    (map (cleared (map ss_id (List.filter p2 (delete_where p1 (cr_sessions creds)))))
      (map (cleared (map ss_id (List.filter p1 (cr_sessions creds))))
        (delete_where (fun t => is_user userId (tk_userId t) && true) tokens))).
Lemma tokensAfter_in tokens t :
  In t (tokensAfter tokens) <->
  exists t0, In t0 tokens /\ tk_userId t0 <> Some userId /\ ~ theirClient (tk_clientId t0) /\ t = tokenAfter t0.
Proof.
  unfold tokensAfter. cbv zeta. rewrite map_map, delete_where_in, in_map_iff, gone_clients.
  assert (Hmap : forall t0, (let c := if existsb (fun s => sql_eq (tk_sessionId t0) (Some s)) (map ss_id (List.filter (fun s => is_user userId (Some (ss_userId s)) && true && negb false) (cr_sessions creds)))
      then mkToken (tk_id t0) (tk_clientId t0) None (tk_userId t0) else t0 in
    if existsb (fun s => sql_eq (tk_sessionId c) (Some s)) (map ss_id (List.filter (fun s => is_user userId (ss_impersonatedBy s) && true && negb false)
         (delete_where (fun s => is_user userId (Some (ss_userId s)) && true && negb false) (cr_sessions creds))))
    then mkToken (tk_id c) (tk_clientId c) None (tk_userId c) else c) = tokenAfter t0).
  { intros t0. cbv zeta. rewrite !gone_sessions. unfold tokenAfter.
    rewrite (ended_either (fun s => is_user userId (Some (ss_userId s)) && true && negb false)
      (fun s => is_user userId (ss_impersonatedBy s) && true && negb false) theirSession).
    2:{ intros s. cbn [negb]. rewrite !andb_true_r. done. }
    destruct (existsb _ (cr_sessions creds)); cbn [orb tk_sessionId tk_id tk_clientId tk_userId]; [|done].
    by destruct (existsb _ _). }
  assert (Hclient : forall t0, tk_clientId (tokenAfter t0) = tk_clientId t0) by (intros t0; unfold tokenAfter; by destruct (existsb _ _)).
  split.
  - intros [(t0 & <- & [Hin Hu]%delete_where_in) Hc]. rewrite Hmap, Hclient in Hc. rewrite andb_true_r, not_is_user in Hu.
    exists t0. split_and!; [done..|]. by rewrite Hmap.
  - intros (t0 & Hin & Hu & Hc & ->). split; [|by rewrite Hclient]. exists t0. rewrite Hmap. split; [done|].
    rewrite delete_where_in, andb_true_r, not_is_user. done.
Qed.
Lemma swept_access_tokens : cr_accessTokens (ac_credentials (at_ true)) = tokensAfter (cr_accessTokens creds).
Proof. reflexivity. Qed.
Lemma swept_refresh_tokens : cr_refreshTokens (ac_credentials (at_ true)) = tokensAfter (cr_refreshTokens creds).
Proof. reflexivity. Qed.
Lemma swept_consents x :
  In x (cr_consents (ac_credentials (at_ true))) <-> In x (cr_consents creds) /\ cn_userId x <> Some userId /\ ~ theirClient (cn_clientId x).
Proof.
  assert (E : cr_consents (ac_credentials (at_ true)) =
    delete_where (fun x => str_mem (cn_clientId x) (map ct_clientId (List.filter (fun ct => is_user userId (ct_userId ct) && true) (cr_clients creds))))
      (delete_where (fun x => is_user userId (cn_userId x) && true) (cr_consents creds))) by reflexivity.
  rewrite E, !delete_where_in, andb_true_r, not_is_user, gone_clients. naive_solver.
Qed.
Lemma swept_codes v :
  In v (cr_verifications (ac_credentials (at_ true))) <-> In v (cr_verifications creds) /\ authorizationCodeOf userId v = false.
Proof.
  assert (E : cr_verifications (ac_credentials (at_ true)) = delete_where (fun v => authorizationCodeOf userId v && true) (cr_verifications creds)) by reflexivity.
  by rewrite E, delete_where_in, andb_true_r.
Qed.
Lemma swept_keys k : In k (cr_sshKeys (ac_credentials (at_ true))) <-> In k (cr_sshKeys creds) /\ uk_userId k <> userId.
Proof.
  assert (E : cr_sshKeys (ac_credentials (at_ true)) = delete_where (fun k => (uk_userId k =s userId) && true) (cr_sshKeys creds)) by reflexivity.
  by rewrite E, delete_where_in, andb_true_r, String.eqb_neq.
Qed.
Lemma swept_members m :
  In m (dr_members (ac_directory (at_ true))) <->
  In m (dr_members (ac_directory db)) /\ (ms_userId m = userId -> soleOwnerMembershipSql db m = true).
Proof.
  assert (E : dr_members (ac_directory (at_ true)) =
    delete_where (fun m => (ms_userId m =s userId) && true && negb (soleOwnerMembershipSql db m)) (dr_members (ac_directory db))) by reflexivity.
  rewrite E, delete_where_in, andb_true_r. destruct (ms_userId m =s userId) eqn:Em; reflect_bools; cbn; [|naive_solver].
  rewrite negb_false_iff. naive_solver.
Qed.

(** A server of theirs that is not removed yet. *)
Definition leavesOwner (h : ServerRow) : bool := personalOf userId h && isNull (sh_ownerRemovalCompletedAt h).
Definition serverAfter (h : ServerRow) : ServerRow := if leavesOwner h then retiredServer now (removalOf eventId) h else h.
(** The column names a server of theirs. *)
Definition theirServer (column : option string) : bool :=
  existsb (fun h => sql_eq column (Some (sh_id h)) && personalOf userId h) (sv_hosts servers).
Lemma swept_hosts : sv_hosts (ac_servers (at_ true)) = map serverAfter (sv_hosts servers).
Proof.
  assert (E : sv_hosts (ac_servers (at_ true)) = update_where (fun h => personalOf userId h && isNull (sh_ownerRemovalCompletedAt h) && true)
    (retiredServer now (removalOf eventId)) (sv_hosts servers)) by reflexivity.
  rewrite E. apply map_ext. intros h. unfold serverAfter, leavesOwner. by rewrite andb_true_r.
Qed.
Lemma retired_servers h :
  In h (map serverAfter (sv_hosts servers)) -> personalOf userId h = true -> sh_ownerRemovalCompletedAt h = None ->
  sh_disabled h = true /\ sh_scenarioEnabled h = false /\ sh_activeSessionId h = None /\ sh_ownerRemovalId h <> None.
Proof.
  intros (x & <- & _)%in_map_iff. unfold serverAfter, leavesOwner. destruct (personalOf userId x && isNull _) eqn:E; cbn.
  - intros _ _. split_and!; try done. unfold removalOf. by destruct (sh_ownerRemovalId x).
  - intros Hp Hn. rewrite Hp, Hn in E. done.
Qed.
Lemma theirServer_kept column :
  existsb (fun h => sql_eq column (Some (sh_id h)) && personalOf userId h) (map serverAfter (sv_hosts servers)) = theirServer column.
Proof.
  unfold theirServer. induction (sv_hosts servers) as [|h l IH]; [done|]. cbn [map existsb]. rewrite IH. f_equal.
  unfold serverAfter. by destruct (leavesOwner h).
Qed.
Definition serverTokenAfter (t : BootstrapTokenRow) : BootstrapTokenRow :=
  if isNull (bt_revokedAt t) && theirServer (Some (bt_hostId t)) then mkBootstrapToken (bt_hostId t) (Some now) else t.
Lemma swept_server_tokens : sv_bootstrapTokens (ac_servers (at_ true)) = map serverTokenAfter (sv_bootstrapTokens servers).
Proof.
  assert (E : sv_bootstrapTokens (ac_servers (at_ true)) = update_where
    (fun t => isNull (bt_revokedAt t) && (existsb (fun h => sql_eq (Some (bt_hostId t)) (Some (sh_id h)) && personalOf userId h) (sv_hosts (ac_servers (at_ true))) && true))
    (fun t => mkBootstrapToken (bt_hostId t) (Some now)) (sv_bootstrapTokens servers)) by reflexivity.
  rewrite E, swept_hosts. apply map_ext. intros t. by rewrite andb_true_r, theirServer_kept.
Qed.
(** An enrollment of theirs that nobody claimed, or any of one of their servers. *)
Definition enrollmentAfter (e : EnrollmentRow) : EnrollmentRow :=
  if isNull (en_revokedAt e) && ((en_userId e =s userId) && isNull (en_claimedAt e) || theirServer (Some (en_hostId e)))
  then revokeEnrollment now e else e.
Lemma swept_enrollments : sv_enrollments (ac_servers (at_ true)) = map enrollmentAfter (sv_enrollments servers).
Proof.
  set (first := update_where (fun e => (en_userId e =s userId) && isNull (en_claimedAt e) && isNull (en_revokedAt e) && true) (revokeEnrollment now) (sv_enrollments servers)).
  assert (E : sv_enrollments (ac_servers (at_ true)) = update_where
    (fun e => isNull (en_revokedAt e) && (existsb (fun h => sql_eq (Some (en_hostId e)) (Some (sh_id h)) && personalOf userId h) (sv_hosts (ac_servers (at_ true))) && true))
    (revokeEnrollment now) first) by reflexivity.
  rewrite E, swept_hosts. unfold first, update_where. rewrite map_map. apply map_ext. intros e. rewrite !andb_true_r, !theirServer_kept.
  unfold enrollmentAfter. destruct (isNull (en_revokedAt e)) eqn:Er, (en_userId e =s userId), (isNull (en_claimedAt e)); cbn; rewrite ?Er; done.
Qed.
Definition leaseAfter (l : LeaseRow) : LeaseRow :=
  if negb (bool_decide (le_state l = ex_archived)) && isNull (le_leaseExpiresAt l) && theirServer (le_hostId l) then expireLease now l else l.
Lemma swept_leases : sv_leases (ac_servers (at_ true)) = map leaseAfter (sv_leases servers).
Proof.
  assert (E : sv_leases (ac_servers (at_ true)) = update_where
    (fun l => negb (bool_decide (le_state l = ex_archived)) && isNull (le_leaseExpiresAt l)
       && (existsb (fun h => sql_eq (le_hostId l) (Some (sh_id h)) && personalOf userId h) (sv_hosts (ac_servers (at_ true))) && true))
    (expireLease now) (sv_leases servers)) by reflexivity.
  rewrite E, swept_hosts. apply map_ext. intros l. by rewrite andb_true_r, theirServer_kept.
Qed.
Lemma swept_preparations u : In u (sv_preparations (ac_servers (at_ true))) <-> In u (sv_preparations servers) /\ u <> userId.
Proof.
  assert (E : sv_preparations (ac_servers (at_ true)) = delete_where (fun u => (u =s userId) && true) (sv_preparations servers)) by reflexivity.
  by rewrite E, delete_where_in, andb_true_r, String.eqb_neq.
Qed.
Lemma swept_identities : dr_identities (ac_directory (at_ true)) = dr_identities (ac_directory db).
Proof. reflexivity. Qed.
End swept.

(** ** Refused restores *)

Lemma delete_where_never {A} (p : A -> bool) l : (forall x, p x = false) -> delete_where p l = l.
Proof. intros Hp. unfold delete_where. induction l as [|x l IH]; cbn; [done|]. by rewrite Hp, IH. Qed.
Lemma update_where_never {A} (p : A -> bool) f l : (forall x, p x = false) -> update_where p f l = l.
Proof. intros Hp. unfold update_where. induction l as [|x l IH]; cbn; [done|]. by rewrite Hp, IH. Qed.
Lemma filter_never {A} (p : A -> bool) l : (forall x, p x = false) -> List.filter p l = [].
Proof. intros Hp. induction l as [|x l IH]; cbn; [done|]. by rewrite Hp. Qed.
Lemma deleteSessions_none p c : (forall s, p s = false) -> deleteSessions p c = c.
Proof.
  intros Hp. unfold deleteSessions. rewrite (filter_never p), (delete_where_never p) by done. destruct c.
  unfold set_tokens, set_sessions. cbn. by rewrite !List.map_id.
Qed.
Lemma deleteClients_none p c : (forall s, p s = false) -> deleteClients p c = c.
Proof.
  intros Hp. unfold deleteClients. rewrite (filter_never p), (delete_where_never p) by done. cbn [map].
  rewrite !(delete_where_never (fun _ => str_mem _ [])) by done. by destruct c.
Qed.
Lemma unswept userId eventId now db : swept userId eventId now false db = db.
Proof.
  assert (Hs : Forall (fun s => forall db, sweep_apply false db s = db) (restoreSteps userId eventId now)).
  { unfold restoreSteps. cbv zeta. repeat first [apply Forall_nil_2|apply Forall_cons_2]; intros d; cbn [sweep_apply];
      rewrite ?deleteSessions_none, ?deleteClients_none, ?delete_where_never, ?update_where_never by (intros; by rewrite ?andb_false_r);
      by destruct d as [? ? ? [] [] []]. }
  unfold swept. revert db. induction Hs as [|s steps H _ IH]; intros db; cbn [fold_left]; [done|]. by rewrite H.
Qed.

(** ** What a restore leaves *)

Record fresh_start (userId eventId : string) (now : Z) (db db' : AccDb) : Prop := mk_fresh_start {
  fs_account : exists u, ac_users db !! userId = Some u /\ pu_deletedAt u = None /\
    ac_users db' = <[userId := restoredAccount now u]> (ac_users db);
  fs_revocation : ac_revocations db' = delete userId (ac_revocations db);
  fs_identities : dr_identities (ac_directory db') = dr_identities (ac_directory db);
  fs_members : forall m, In m (dr_members (ac_directory db')) <->
    In m (dr_members (ac_directory db)) /\ (ms_userId m = userId -> soleOwnerMembershipSql db m = true);
  fs_sessions : forall s, In s (cr_sessions (ac_credentials db')) <->
    In s (cr_sessions (ac_credentials db)) /\ ss_userId s <> userId /\ ss_impersonatedBy s <> Some userId;
  fs_accessTokens : forall t, In t (cr_accessTokens (ac_credentials db')) <->
    exists t0, In t0 (cr_accessTokens (ac_credentials db)) /\ tk_userId t0 <> Some userId /\
      ~ theirClient userId db (tk_clientId t0) /\ t = tokenAfter userId db t0;
  fs_refreshTokens : forall t, In t (cr_refreshTokens (ac_credentials db')) <->
    exists t0, In t0 (cr_refreshTokens (ac_credentials db)) /\ tk_userId t0 <> Some userId /\
      ~ theirClient userId db (tk_clientId t0) /\ t = tokenAfter userId db t0;
  fs_consents : forall x, In x (cr_consents (ac_credentials db')) <->
    In x (cr_consents (ac_credentials db)) /\ cn_userId x <> Some userId /\ ~ theirClient userId db (cn_clientId x);
  fs_clients : forall ct, In ct (cr_clients (ac_credentials db')) <-> In ct (cr_clients (ac_credentials db)) /\ ct_userId ct <> Some userId;
  fs_codes : forall v, In v (cr_verifications (ac_credentials db')) <->
    In v (cr_verifications (ac_credentials db)) /\ authorizationCodeOf userId v = false;
  fs_keys : forall k, In k (cr_sshKeys (ac_credentials db')) <-> In k (cr_sshKeys (ac_credentials db)) /\ uk_userId k <> userId;
  fs_hosts : sv_hosts (ac_servers db') = map (serverAfter userId eventId now) (sv_hosts (ac_servers db));
  fs_retired : forall h, In h (sv_hosts (ac_servers db')) -> personalOf userId h = true -> sh_ownerRemovalCompletedAt h = None ->
    sh_disabled h = true /\ sh_scenarioEnabled h = false /\ sh_activeSessionId h = None /\ sh_ownerRemovalId h <> None;
  fs_server_tokens : sv_bootstrapTokens (ac_servers db') = map (serverTokenAfter userId now db) (sv_bootstrapTokens (ac_servers db));
  fs_enrollments : sv_enrollments (ac_servers db') = map (enrollmentAfter userId now db) (sv_enrollments (ac_servers db));
  fs_leases : sv_leases (ac_servers db') = map (leaseAfter userId now db) (sv_leases (ac_servers db));
  fs_preparations : forall u, In u (sv_preparations (ac_servers db')) <-> In u (sv_preparations (ac_servers db)) /\ u <> userId;
  fs_runs : sv_runs (ac_servers db') = sv_runs (ac_servers db);
  fs_directory : ac_directory db' = set_members (ac_directory db) (dr_members (ac_directory db'));
}.

(** C16. A restore writes nothing at all, or it gives the account a fresh start: only
    after the revocation it names finished its cleanup, and asked for by an active
    administrator. The account is active again as a user on the platform's servers, its
    generation where the revocation left it, the revocation gone; of what it held, its
    identities and the memberships it alone owns stay, and no session, token, consent,
    client, code, key, live server, server token or registration does. Everybody else
    keeps what is theirs, row by row: the sessions, consents, clients, codes, keys and
    memberships, the tokens - which lose only a session that ended, and go only with a
    client of the account - the servers, their tokens, enrollments and leases, and the
    preparations. *)
Theorem restore_is_fresh_start userId actor v eventId now db db' bs
  (Hfresh : unmentioned eventId db)
  (Hrun : acc_batch (restoreStatements userId actor v eventId now) db = Ok (db', bs)) :
  (head bs = Some false /\ db' = db) \/
  (head bs = Some true /\ activeAdministrator db actor = true /\
   (exists r, ac_revocations db !! userId = Some r /\ vo_revocationId r = v /\ vo_cleanupCompletedAt r <> None) /\
   fresh_start userId eventId now db db').
Proof.
  rewrite restoreStatements_split in Hrun. apply (batch_around _ _ _ _ _ _ (core_restore userId eventId now)) in Hrun.
  destruct Hrun as (d & b & d1 & cs & ds & Ei & E1 & Hcore & E & ->). apply sweep_swept in E1. unfold restoreEvent in Ei.
  apply insertRevocationEvent_inv in Ei as [[-> ->]|(r & Hr & Hv & Hp & -> & ->)].
  - left. assert (Hoff : restored eventId db = false) by (by apply unmentioned_event). rewrite Hoff, unswept in E1. subst d1.
    rewrite restoreAccess_off in E by done. injection E as <- _. done.
  - right. destruct (restorable_inv _ _ _ _ Hp) as (u & Hu & Hb & Hd & Hc & Ha). split; [done|]. split; [done|]. split; [by exists r|].
    set (e := revocationEvent _ _ _ _ _ _ _ _ _) in *. set (d0 := set_events db (ac_events db ++ [e])) in *.
    assert (Hex : restored eventId d0 = true) by apply (event_added e db). rewrite Hex in E1.
    rewrite <-Hv in E. rewrite (restoreAccess_on d1 userId u r) in E;
      [injection E as <- _|unfold restored; by rewrite (core_event _ _ _ _ Hcore)|by rewrite (core_users _ _ Hcore)|by rewrite (core_revocations _ _ Hcore)].
    split; cbn [set_revocations set_users ac_users ac_revocations ac_directory ac_credentials ac_servers]; rewrite ?E1.
    + exists u. split_and!; [done|done|reflexivity].
    + reflexivity.
    + reflexivity.
    + intros m. exact (swept_members userId eventId now d0 m).
    + intros s. exact (swept_sessions userId eventId now d0 s).
    + intros t. rewrite (swept_access_tokens userId eventId now d0). exact (tokensAfter_in userId d0 _ t).
    + intros t. rewrite (swept_refresh_tokens userId eventId now d0). exact (tokensAfter_in userId d0 _ t).
    + intros x. exact (swept_consents userId eventId now d0 x).
    + intros ct. exact (swept_clients userId eventId now d0 ct).
    + intros w. exact (swept_codes userId eventId now d0 w).
    + intros k. exact (swept_keys userId eventId now d0 k).
    + exact (swept_hosts userId eventId now d0).
    + intros h Hh. rewrite (swept_hosts userId eventId now d0) in Hh. exact (retired_servers _ _ _ _ h Hh).
    + exact (swept_server_tokens userId eventId now d0).
    + exact (swept_enrollments userId eventId now d0).
    + exact (swept_leases userId eventId now d0).
    + exact (swept_preparations userId eventId now d0).
    + reflexivity.
    + reflexivity.
Qed.

(** The account of the sample after its revocation, and after its restore. *)
Module AccessSample.
Import AccountSample.
(** A request of the sample after its first [n] accesses and calls. *)
Definition after (n : nat) (p : Req AccCall AccDb ()) : Pool AccCall AccDb () :=
  mkPool (fst (advanced answer n p start)) 1 ([] ++ [(0%nat, snd (advanced answer n p start))]).
Definition demoting : Req AccCall AccDb () := forget (setPlatformUserRole "eve" "ada" role_user).
Definition revoking : Req AccCall AccDb () := forget (revokeAccess (ids 0) "bob" "ada" "admin_revoked").
Definition revoked : AccDb.
Proof. let r := eval vm_compute in (fst (advanced answer 100 revoking start)) in exact r. Defined.
Definition restore_batch : result AccConstraint (AccDb * list bool) :=
  acc_batch (restoreStatements "bob" "eve" (ids 0 0) "restore" 2000) revoked.
Definition restored_db : AccDb.
Proof. let r := eval vm_compute in (match restore_batch with Ok p => fst p | Err _ => revoked end) in exact r. Defined.
Definition rows : list bool.
Proof. let r := eval vm_compute in (match restore_batch with Ok p => snd p | Err _ => [] end) in exact r. Defined.
End AccessSample.
Lemma restore_is_fresh_start_witness :
  (head AccessSample.rows = Some false /\ AccessSample.restored_db = AccessSample.revoked) \/
  (head AccessSample.rows = Some true /\ activeAdministrator AccessSample.revoked "eve" = true /\
   (exists r, ac_revocations AccessSample.revoked !! "bob" = Some r /\ vo_revocationId r = AccountSample.ids 0 0 /\ vo_cleanupCompletedAt r <> None) /\
   fresh_start "bob" "restore" 2000 AccessSample.revoked AccessSample.restored_db).
Proof.
  apply (restore_is_fresh_start "bob" "eve" (AccountSample.ids 0 0) "restore" 2000 AccessSample.revoked AccessSample.restored_db AccessSample.rows).
  - assert (E : forallb (fun e => negb (ev_id e =s "restore") && negb (sql_eq (ev_revocationId e) (Some "restore"))) (ac_events AccessSample.revoked)
      && forallb (fun p => negb (vo_revocationId (snd p) =s "restore")) (map_to_list (ac_revocations AccessSample.revoked)) = true) by (vm_compute; reflexivity).
    apply andb_true_iff in E as [E1 E2]. rewrite forallb_forall in E1, E2. intros [(e & Hin & Hx)|(id & r & Hr & Hx)].
    + apply E1 in Hin. reflect_bools. destruct Hx as [?|Hx]; [done|]. rewrite Hx in *. done.
    + apply elem_of_map_to_list, list_elem_of_In, E2 in Hr. cbn in Hr. reflect_bools. done.
  - vm_compute. reflexivity.
Defined.

(** * Whatever runs side by side *)

(** C8. An administrator who can sign in always remains: however many promotions,
    demotions, revocations, restores, deletions and disconnected identities run side by
    side, in any interleaving with sign-ups and the rest of the system. *)
Theorem an_administrator_always_remains ids db0 c
  (Hids : forall r r' k k', ids r k = ids r' k' -> r = r' /\ k = k')
  (Hwf : acc_wf db0) (Hnew : forall r, unused ids r db0) (Hadmin : administered db0)
  (Hreach : rtc (pool_step (account_request ids) (elsewhere ids)) (mkPool db0 0 []) c) :
  exists id, activeAdministrator (pl_state c) id = true /\ usableIdentityExistsSql None (pl_state c) id = true.
Proof.
  destruct (reached_later ids Hids db0 Hwf Hnew _ _ (rtc_refl _ _) Hreach) as (_ & _ & Hkeep & _).
  destruct (Hkeep Hadmin) as (id & Hid). exists id. unfold signingAdmin in Hid. by apply andb_true_iff in Hid.
Qed.

Lemma an_administrator_always_remains_witness :
  activeAdministrator (pl_state (AccessSample.after 100 AccessSample.demoting)) "eve" = false /\
  exists id, activeAdministrator (pl_state (AccessSample.after 100 AccessSample.demoting)) id = true /\
    usableIdentityExistsSql None (pl_state (AccessSample.after 100 AccessSample.demoting)) id = true.
Proof.
  split; [vm_compute; reflexivity|].
  apply (an_administrator_always_remains AccountSample.ids AccountSample.start (AccessSample.after 100 AccessSample.demoting)).
  - exact AccountSample.account_ids_distinct.
  - exact AccountSample.start_wf.
  - exact AccountSample.start_unused.
  - exact AccountSample.start_administered.
  - apply pool_alone. constructor.
Defined.

Lemma active_generation_spec db id g :
  activeAccessGeneration db id = Some g <->
  id <> "" /\ exists u, ac_users db !! id = Some u /\ activeAccountSql u = true /\ pu_accessGeneration u = g.
Proof.
  unfold activeAccessGeneration. rewrite <-truthy_spec. split.
  - destruct (truthy id); [|done]. destruct (ac_users db !! id) as [u|]; [|done]. destruct (activeAccountSql u) eqn:E; [|done].
    intros [= <-]. split; [done|]. by exists u.
  - intros (-> & u & -> & -> & ->). done.
Qed.
Lemma held_between a b c id g :
  access_kept a b -> access_kept b c ->
  activeAccessGeneration a id = Some g -> activeAccessGeneration c id = Some g -> activeAccessGeneration b id = Some g.
Proof.
  intros H1 H2 (Hn & u & Hu & Ha & Eg)%active_generation_spec (_ & w & Hw & _ & Ew)%active_generation_spec.
  destruct (H1 id u Hu) as (v & Hv & Hle & Hact & _). destruct (H2 id v Hv) as (w' & Hw' & Hle' & _ & _). simplify_eq.
  apply active_generation_spec. split; [done|]. exists v. split_and!; [done| |lia]. destruct (Hact Ha) as [?|?]; [done|lia].
Qed.

(** C11. An account that is active at the same access generation at two points was
    active at every point between them: a revocation in between would show even after
    access was restored. *)
Theorem access_held_between_checks ids db0 c1 c c2 userId g
  (Hids : forall r r' k k', ids r k = ids r' k' -> r = r' /\ k = k')
  (Hwf : acc_wf db0) (Hnew : forall r, unused ids r db0)
  (Hreach : rtc (pool_step (account_request ids) (elsewhere ids)) (mkPool db0 0 []) c1)
  (Hmiddle : rtc (pool_step (account_request ids) (elsewhere ids)) c1 c)
  (Hend : rtc (pool_step (account_request ids) (elsewhere ids)) c c2)
  (Hfirst : activeAccessGeneration (pl_state c1) userId = Some g)
  (Hsecond : activeAccessGeneration (pl_state c2) userId = Some g) :
  activeAccessGeneration (pl_state c) userId = Some g.
Proof.
  destruct (reached_later ids Hids db0 Hwf Hnew _ _ Hreach Hmiddle) as (Hc & H1 & _).
  destruct (reached_later ids Hids db0 Hwf Hnew _ _ Hc Hend) as (_ & H2 & _). by eapply held_between.
Qed.

Lemma access_held_between_checks_witness :
  activeAccessGeneration (pl_state (AccessSample.after 100 AccessSample.revoking)) "ada" = Some 0.
Proof.
  apply (access_held_between_checks AccountSample.ids AccountSample.start (mkPool AccountSample.start 0 [])
    (AccessSample.after 100 AccessSample.revoking) (AccessSample.after 100 AccessSample.revoking)).
  - exact AccountSample.account_ids_distinct.
  - exact AccountSample.start_wf.
  - exact AccountSample.start_unused.
  - apply rtc_refl.
  - apply pool_alone. constructor.
  - apply rtc_refl.
  - vm_compute. reflexivity.
  - vm_compute. reflexivity.
Defined.

(** C18. In every state, an account that is not deleted is active exactly when it has no
    revocation, whose ban says so, and its cleanup has completed exactly when an event
    says so, at most one for each revocation ever made. *)
Theorem revocations_and_bans_agree ids db0 c
  (Hids : forall r r' k k', ids r k = ids r' k' -> r = r' /\ k = k')
  (Hwf : acc_wf db0) (Hnew : forall r, unused ids r db0)
  (Hreach : rtc (pool_step (account_request ids) (elsewhere ids)) (mkPool db0 0 []) c) :
  (forall id u, ac_users (pl_state c) !! id = Some u -> pu_deletedAt u = None ->
     activeAccountSql u = isNull (ac_revocations (pl_state c) !! id) /\
     (activeAccountSql u = false -> pu_banReason u = Some "access_revoked")) /\
  (forall id r, ac_revocations (pl_state c) !! id = Some r ->
     (vo_cleanupCompletedAt r <> None <-> In (vo_revocationId r) (completions (ac_events (pl_state c))))) /\
  NoDup (completions (ac_events (pl_state c))).
Proof.
  destruct (reached_wf ids Hids db0 Hwf Hnew c Hreach) as [H1 H2 H3 _ H5 H6 H7]. split_and!; [| |done].
  - intros id u Hu Hd. unfold activeAccountSql. rewrite Hd. cbn. destruct (pu_banned u) as [[]|] eqn:Eb; cbn.
    + destruct (H2 id u Hu Hd Eb) as [Er [r Hr]]. by rewrite Hr.
    + split; [|done]. destruct (ac_revocations (pl_state c) !! id) as [r|] eqn:Er; [|done].
      destruct (H1 id r Er) as (v & Hv & Hb). congruence.
    + split; [|done]. destruct (ac_revocations (pl_state c) !! id) as [r|] eqn:Er; [|done].
      destruct (H1 id r Er) as (v & Hv & Hb). congruence.
  - intros id r Hr. split; [|by apply (H5 id)]. intros Hc. pose proof (H3 id r Hr) as Hv. unfold cleanup_valid in Hv.
    destruct (vo_cleanupAttemptId r) as [a|] eqn:Ea.
    + by eapply (completedBefore_In id _ a), H6.
    + by destruct (vo_cleanupStartedAt r), (vo_cleanupCompletedAt r).
Qed.

Lemma revocations_and_bans_agree_witness :
  completions (ac_events (pl_state (AccessSample.after 100 AccessSample.revoking))) = [AccountSample.ids 0 0] /\
  (forall id u, ac_users (pl_state (AccessSample.after 100 AccessSample.revoking)) !! id = Some u -> pu_deletedAt u = None ->
     activeAccountSql u = isNull (ac_revocations (pl_state (AccessSample.after 100 AccessSample.revoking)) !! id) /\
     (activeAccountSql u = false -> pu_banReason u = Some "access_revoked")).
Proof.
  split; [vm_compute; reflexivity|].
  refine (proj1 (revocations_and_bans_agree AccountSample.ids AccountSample.start (AccessSample.after 100 AccessSample.revoking) _ _ _ _)).
  - exact AccountSample.account_ids_distinct.
  - exact AccountSample.start_wf.
  - exact AccountSample.start_unused.
  - apply pool_alone. constructor.
Defined.

(** * Why an identity cannot sign in *)

(** For an active account, the reason an administrator is shown for an identity that
    cannot sign in is absent exactly when the identity can. *)
Theorem sign_in_blocker_explains db i u
  (Hproviders : NoDup (map sp_providerId (dr_providers (ac_directory db))))
  (Hu : ac_users db !! id_userId i = Some u) (Hactive : activeAccountSql u = true) :
  identitySignInBlockerSql db i = None <-> usableIdentitySql db i = true.
Proof.
  unfold identitySignInBlockerSql, usableIdentitySql, removedThroughProviderSql, organizationSignInAllowedSql, activeAdministrator, user_where.
  rewrite Hu. unfold activeAdminSql. rewrite Hactive. cbn [andb]. destruct (id_providerId i =s "github") eqn:Eg; [done|]. cbn [orb].
  set (l := dr_providers (ac_directory db)) in *. destruct (existsb (fun p => sp_providerId p =s id_providerId i) l) eqn:Ep; cbn [negb].
  2:{ split; [done|]. intros (p & Hp & Hx)%existsb_exists. apply not_true_iff_false in Ep. exfalso. apply Ep, existsb_exists. exists p.
      split; [done|]. by apply andb_true_iff in Hx as [[? _]%andb_true_iff _]. }
  apply existsb_exists in Ep as (p & Hp & Ei). apply String.eqb_eq in Ei.
  assert (Hone : forall q, In q l -> sp_providerId q = id_providerId i -> q = p).
  { intros q Hq Eq. eapply (NoDup_map_inj sp_providerId l); [done|done|done|congruence]. }
  destruct (removedFromOrganizationSql db (id_userId i) (sp_organizationId p)) eqn:Er.
  - assert (existsb (fun q => (sp_providerId q =s id_providerId i) && removedFromOrganizationSql db (id_userId i) (sp_organizationId q)) l = true) as ->.
    { apply existsb_exists. exists p. split; [done|]. by rewrite Ei, String.eqb_refl, Er. }
    split; [done|]. intros (q & Hq & Hx)%existsb_exists. reflect_bools. rewrite (Hone q) in * by done. congruence.
  - assert (existsb (fun q => (sp_providerId q =s id_providerId i) && removedFromOrganizationSql db (id_userId i) (sp_organizationId q)) l = false) as ->.
    { apply not_true_iff_false. intros (q & Hq & Hx)%existsb_exists. reflect_bools. rewrite (Hone q) in * by done. congruence. }
    destruct (adminRoleSql u) eqn:Ea; cbn.
    + split; [done|]. intros (q & Hq & Hx)%existsb_exists. by rewrite andb_false_r in Hx.
    + split; [|done]. intros _. apply existsb_exists. exists p. split; [done|]. by rewrite Ei, String.eqb_refl, Er.
Qed.

Lemma sign_in_blocker_explains_witness :
  identitySignInBlockerSql AccountSample.start AccountSample.work = None <-> usableIdentitySql AccountSample.start AccountSample.work = true.
Proof.
  apply (sign_in_blocker_explains AccountSample.start AccountSample.work (AccountSample.person "bob" None)).
  - apply NoDup_singleton.
  - vm_compute. reflexivity.
  - vm_compute. reflexivity.
Defined.

(** * Routes issued under the account fence *)

Lemma fails_closed issued e s calls s' res :
  runs access_kept (failClosed issued e) s calls s' res ->
  (exists x, res = Err x) /\ forall id, In id issued -> exists answer, In (existT _ (RevokeRoute id, answer)) calls.
Proof.
  intros H. unfold failClosed in H. apply runs_bind in H as (c1 & c2 & s1 & fs & -> & H1 & H2).
  apply runs_inv in H2 as (-> & _ & ->). split; [eauto|]. intros id Hin. rewrite app_nil_r.
  destruct (revoked_all _ _ _ _ _ _ _ H1 id Hin) as (answer & Ha & _). by exists answer.
Qed.

(** C25. Whatever happens to accounts while a route is issued: a route is handed out
    only if the request first read that its owner is active, then sent the issuance,
    and then read the same access generation again, so that the owner was active at
    it at every moment in between; without a generation at the first read nothing is
    sent; and once the issuance was sent, any other outcome asks for the revocation of
    the requested route and of every route it answered with. *)
Theorem route_issuance_fails_closed userId routeId s tr s' res
  (Hrun : traced access_kept (issueAccountFencedRoute userId routeId) s tr s' res) :
  match res with
  | Ok made =>
      exists g s1, tr = [accessed s1 s1; called (IssueRoute routeId) (Ok made); accessed s' s'] /\
        access_kept s s1 /\ access_kept s1 s' /\
        activeAccessGeneration s1 userId = Some g /\ activeAccessGeneration s' userId = Some g /\
        forall m, access_kept s1 m -> access_kept m s' -> activeAccessGeneration m userId = Some g
  | Err _ =>
      exists s1, access_kept s s1 /\
        ((activeAccessGeneration s1 userId = None /\ tr = [accessed s1 s1]) \/
         exists answer rest, tr = accessed s1 s1 :: called (IssueRoute routeId) answer :: rest /\
           forall id, id = routeId \/ (exists made, answer = Ok made /\ In id made) ->
             exists revoked, In (existT _ (RevokeRoute id, revoked)) (calls_of rest))
  end.
Proof.
  apply traced_inv in Hrun as (s1 & tr1 & -> & H1 & Hrun). cbn [fst snd] in Hrun |- *.
  destruct (activeAccessGeneration s1 userId) as [g|] eqn:Eg; [|apply traced_inv in Hrun as (-> & _ & ->); eauto].
  apply traced_inv in Hrun as (answer & rest & -> & Hrun). destruct answer as [made|e].
  - apply traced_inv in Hrun as (s2 & tr2 & -> & H2 & Hrun). cbn [fst snd] in Hrun |- *.
    cbn [req_bind] in Hrun. revert Hrun. case_bool_decide as E2; intros Hrun.
    + apply traced_inv in Hrun as (-> & -> & ->). exists g, s1. split_and!; [done..|].
      intros m Hm Hm'. by eapply held_between.
    + apply traced_runs, fails_closed in Hrun as [[x ->] Hall]. exists s1. split; [done|]. right.
      eexists (Ok made), _. split; [reflexivity|]. intros id [->|(made' & [= <-] & Hin)]; apply Hall; [by left|by right].
  - apply traced_runs, fails_closed in Hrun as [[x ->] Hall]. exists s1. split; [done|]. right.
    eexists (Err e), _. split; [reflexivity|]. intros id [->|(made' & ? & _)]; [|done]. apply Hall. by left.
Qed.

Lemma route_issuance_fails_closed_witness :
  let issuance := [accessed AccountSample.start AccountSample.start; called (IssueRoute "requested") (Ok ["route"]);
                   accessed AccountSample.start AccountSample.start] in
  traced access_kept (issueAccountFencedRoute "ada" "requested") AccountSample.start issuance AccountSample.start (Ok ["route"]) /\
  exists g, activeAccessGeneration AccountSample.start "ada" = Some g /\
    forall m, access_kept AccountSample.start m -> access_kept m AccountSample.start -> activeAccessGeneration m "ada" = Some g.
Proof.
  cbv zeta.
  assert (Hrun : traced access_kept (issueAccountFencedRoute "ada" "requested") AccountSample.start
    [accessed AccountSample.start AccountSample.start; called (IssueRoute "requested") (Ok ["route"]);
     accessed AccountSample.start AccountSample.start] AccountSample.start (Ok ["route"])).
  { refine (traced_atom _ _ _ _ _ AccountSample.start _ _ _ (access_kept_same _ _ eq_refl) _). vm_compute. apply traced_await.
    refine (traced_atom _ _ _ _ _ AccountSample.start _ _ _ (access_kept_same _ _ eq_refl) _). vm_compute. apply traced_done. }
  split; [exact Hrun|]. destruct (route_issuance_fails_closed "ada" "requested" _ _ _ _ Hrun) as (g & s1 & [= <-] & _ & _ & Hg & _ & Hm).
  by exists g.
Defined.

(** * A GitHub account linked while its owner is promoted *)

(** The removal of a linked identity does not ask whether it is the last
    administrator's: bob connects GitHub, is promoted before the link is confirmed,
    which ends the session that asked for it, and the other administrators are demoted,
    since bob can sign in. The confirmation then removes bob's GitHub identity, and no
    administrator can sign in. *)
Lemma late_link_check_locks_out :
  let step (db : AccDb) (p : Acc ()) := fst (answered AccountSample.answer p db) in
  let promoted := step AccountSample.start (setPlatformUserRole "bob" "ada" role_admin) in
  let alone := step (step promoted (setPlatformUserRole "eve" "ada" role_user)) (setPlatformUserRole "ada" "ada" role_user) in
  let confirmed := step alone (confirmGithubLink "identity-bob" "bob" "session-bob" (Some 0)) in
  signingAdmin alone "bob" = true /\
  activeAdministrator confirmed "bob" = true /\
  forallb (fun p => negb (signingAdmin confirmed (fst p))) (map_to_list (ac_users confirmed)) = true.
Proof. vm_compute. repeat split. Qed.
