(* ===== verification/RunEndingStore.v ===== *)
(** Ending a run: the tables and statements of lib/scenario-runs/lifecycle.ts,
    lib/scenario-runs/storage.ts and lib/scenario-runs/route-cleanup.ts, and the
    decisions of lib/scenario-run-leases.ts, lib/scenario-run-cleanup.ts and
    lib/host-workload-access.ts. *)
From stdpp Require Import base gmap list strings.
From Stdlib Require Import ZArith Lia.
From S2P Require Import Prelude Json RunState RunLifecycle RunView Store RuntimeExecutions RunProjection DesiredState Access.

Open Scope string_scope.
Open Scope list_scope.
Open Scope Z_scope.

(** * Tables *)

(** [scenario_run_artifacts] with the upload of each that has one. *)
Record StorageRecord : Type := mkStorageRecord {
  so_runId : string;
  so_r2Key : string;
  so_r2UploadId : option string;
  so_uploadStatus : string;
}.
(** The [access_events] of deleted runs. *)
Record DeletionEvent : Type := mkDeletionEvent {
  de_id : string;
  de_subjectUserId : string;
  de_actorUserId : string;
  de_runId : string;
  de_createdAt : Z;
}.
(** The tables, and by run the columns of [scenario_runs] that [RunRow] leaves out. *)
Record EndingDb : Type := mkEnding {
  eb_store : Db;
  eb_desired : list DesiredRow;
  eb_access : AccessTables;
  eb_routeCleanupId : gmap string string;
  eb_shareId : gmap string string;
  eb_hidden : list string;
  eb_artifacts : list StorageRecord;
  eb_events : list DeletionEvent;
}.
Definition set_store (s : EndingDb) d : EndingDb :=
  mkEnding d (eb_desired s) (eb_access s) (eb_routeCleanupId s) (eb_shareId s) (eb_hidden s) (eb_artifacts s) (eb_events s).
Definition set_desired (s : EndingDb) rows : EndingDb :=
  mkEnding (eb_store s) rows (eb_access s) (eb_routeCleanupId s) (eb_shareId s) (eb_hidden s) (eb_artifacts s) (eb_events s).
Definition set_routeCleanupId (s : EndingDb) m : EndingDb :=
  mkEnding (eb_store s) (eb_desired s) (eb_access s) m (eb_shareId s) (eb_hidden s) (eb_artifacts s) (eb_events s).
Definition endingDocuments (s : EndingDb) : DesiredDb := mkDesiredDb (eb_desired s) (db_hosts (eb_store s)).

(** * Loading: [loadRunRow] *)

(** A user id that is given narrows the search. *)
Definition loadRunRow (s : EndingDb) (runId : string) (userId : option string) : option RunRow :=
  List.find (fun r => (sr_runId r =s runId) && match userId ≫= or_null with Some u => sr_userId r =s u | None => true end)
    (db_runs (eb_store s)).
(** [fromDbRow(row).state]. *)
Definition stateOf (row : RunRow) : RunStateDocument := parseRunState (sr_stateJson row).

(** * Requests for cleanup: lib/scenario-runs/route-cleanup.ts *)

Record CleanupRow : Type := mkCleanup { cl_runId : string; cl_userId : string; cl_cleanupId : string }.
Definition with_deleteRequested (at_ : option Z) (updatedAt : Z) (r : RunRow) : RunRow :=
  mkRunRow (sr_runId r) (sr_userId r) (sr_organizationId r) (sr_runtimeExecutionId r) (sr_hostId r) (sr_state r) (sr_stateRank r)
    (sr_activeKey r) (sr_stateJson r) (sr_archiveEnteredAt r) at_ (sr_solvedAt r) (sr_completedAt r) (sr_failedAt r) (sr_createdAt r)
    updatedAt (sr_content r).
Definition requestCleanup (hostId : string) (runIds : list string) (cleanupId : string) (now : Z) (s : EndingDb)
  : EndingDb * list CleanupRow :=
  let hit r := (sr_hostId r =s hostId) && str_mem (sr_runId r) runIds in
  let idOf r := nullish (eb_routeCleanupId s !! sr_runId r) cleanupId in
  let hits := List.filter hit (db_runs (eb_store s)) in
  (set_routeCleanupId
     (set_store s (fst (updateRuns hit
        (fun r => with_deleteRequested (coalesce (sr_deleteRequestedAt r) (Some now)) (Z.max (sr_updatedAt r + 1) now) r) (eb_store s))))
     (fold_right (fun r m => <[sr_runId r := idOf r]> m) (eb_routeCleanupId s) hits),
   map (fun r => mkCleanup (sr_runId r) (sr_userId r) (idOf r)) hits).
(** A late completion cannot discard a newer request. *)
Definition completeCleanup (runId cleanupId : string) (s : EndingDb) : EndingDb :=
  if bool_decide (eb_routeCleanupId s !! runId = Some cleanupId)
  then set_routeCleanupId s (delete runId (eb_routeCleanupId s)) else s.

(** * Writing a run's state: [updateRunState] *)

Definition MAX_UPDATE_ATTEMPTS : nat := 8.
(** What is written over [row]; [deleteRequestedAt] replaces the row's when given. *)
Definition updateOf (mutate : RunStateDocument -> RunStateDocument) (deleteRequestedAt : option (option Z)) (releaseActiveSlot : bool)
    (clock : Z) (row : RunRow) : Projection :=
  let current := recomputeRunState (stateOf row) in
  let next := recomputeRunState (mutate current) in
  let deleteAt := nullish deleteRequestedAt (sr_deleteRequestedAt row) in
  let now := Z.max clock (sr_updatedAt row + 1) in
  mkProjection current next now deleteAt
    (nextSolvedAt (run_phase current) (run_phase next) (sr_solvedAt row) now)
    (if bool_decide (run_phase next = run_completed) then Some (nullish (sr_completedAt row) now) else None)
    (if bool_decide (run_phase next = run_failed) then Some (nullish (sr_failedAt row) now) else None)
    (if releaseActiveSlot || (isTerminal (run_phase next) && isNull deleteAt) then None else sr_activeKey row).
Definition updateMutation (runId : string) (updatedAt : Z) (p : Projection) : Stmt := fun db =>
  let written := updateRuns (fun r => (sr_runId r =s runId) && (sr_updatedAt r =? updatedAt)) (writeProjection p) db in
  throw_if negb (bool_decide (NoDup (omap sr_activeKey (db_runs (fst written))))) with uq_scenario_runs_active_key;
  Ok written.
(** Whether the update of a run leaves its slot to be released. *)
Definition leavesSlot (releaseActiveSlot : bool) (p : Projection) : bool :=
  releaseActiveSlot || (isTerminal (run_phase (pj_merged p)) && isNull (pj_deleteRequestedAt p)).

(** * Teardown: [destroyScenarioRunForUserWithDependencies] *)

Definition runVmsRequiringDesiredAbsence (state : RunStateDocument) : list RunVmStateDocument :=
  List.filter (fun vm => negb (bool_decide (vm_phase vm = vm_completed))) (run_vms state).
Definition with_vm_outcome (vm : RunVmStateDocument) (phase : VmPhase) (detail : string) (terminal : TerminalPhase) (reason : option string)
  : RunVmStateDocument :=
  mkVm (vm_id vm) (vm_ordinal vm) (vm_scenarioVmId vm) (vm_scenarioVmName vm) (vm_runtimeVmName vm) (vm_hostname vm) phase
    (vm_phaseTitle vm) detail (vm_progressPercent vm) terminal reason (vm_terminalObservedAt vm) (vm_canOpenTerminal vm)
    (vm_bootProbes vm) (vm_scenarioProbes vm) (vm_replayArtifacts vm) (vm_sessionTimeline vm) (vm_hasRecording vm)
    (vm_terminalTarget vm) (vm_runtimeConstraints vm) (vm_resourceState vm) (vm_retiredRuntimeGenerations vm) (vm_guestIp vm)
    (vm_launchSummary vm) (vm_runtimeState vm) (vm_runtimeObservedAt vm) (vm_vmCreatedAt vm) (vm_provisioning vm) (vm_legacy vm).
Definition with_run_phase (d : RunStateDocument) (phase : RunPhase) (title detail : string) : RunStateDocument :=
  mkRun phase title detail (run_progressPercent d) (run_terminalPhase d) (run_canOpenTerminal d) (run_canDestroy d) (run_bootProbes d)
    (run_scenarioProbes d) (run_replayArtifacts d) (run_terminalTarget d) (run_vms d) (run_candidateSource d).
Definition requestTeardown (teardownVmIds : list string) (current : RunStateDocument) : RunStateDocument :=
  recomputeRunState (RunLifecycle.with_vms
    (with_run_phase current run_teardown_requested "Teardown requested" "Waiting for the host to acknowledge teardown.")
    (map (fun vm => if str_mem (vm_id vm) teardownVmIds
                    then with_vm_outcome vm (vm_phase vm) "Teardown requested. Waiting for host delivery." (vm_terminalPhase vm) (vm_terminalReason vm)
                    else vm) (run_vms current))).
(** Terminal runs keep their outcome; only the request is recorded. *)
Definition recordDeletion (runId userId : string) (deleteRequestedAt : option Z) (acceptedAt : Z) (s : EndingDb) : EndingDb :=
  set_store s (fst (updateRuns (fun r => (sr_runId r =s runId) && (sr_userId r =s userId))
    (fun r => with_deleteRequested deleteRequestedAt (Z.max (sr_updatedAt r + 1) acceptedAt) r) (eb_store s))).
Definition markAllAbsent (runId : string) (vmNames : list string) (draft : HostDesiredState) : HostDesiredState :=
  fold_left (fun d name => fst (markDesiredVmAbsent d runId name)) vmNames draft.

(** * Leases: lib/scenario-run-leases.ts and [expireOverdueRunLeases] *)

Record OverdueRunLease : Type := mkOverdue { od_runId : string; od_vmNames : list string }.
Section leases.
Context `{Collation}.
Definition isOverdue (now : Z) (vm : DesiredVm) : bool :=
  bool_decide (dv_desired_phase vm = desired_running) && (dv_lease_expires_at_unix_ms vm <? now).
Definition addOverdue (byRunId : list (string * list string)) (vm : DesiredVm) : list (string * list string) :=
  Map_set (dv_run_id vm) (Set_new (nullish (Map_get (dv_run_id vm) byRunId) [] ++ [dv_vm_name vm])) byRunId.
Definition selectOverdueRunLeases (desiredState : HostDesiredState) (now : Z) : list OverdueRunLease :=
  sortBy od_runId (map (fun p => mkOverdue (fst p) (sortBy (fun name => name) (snd p)))
    (fold_left addOverdue (List.filter (isOverdue now) (ds_vms desiredState)) [])).
End leases.
Definition expireRun (expiredVmNames : list string) (current : RunStateDocument) : RunStateDocument :=
  recomputeRunState (RunLifecycle.with_vms
    (with_run_phase current run_failed (run_phaseTitle current) "The run lease expired before teardown completed.")
    (map (fun vm => if str_mem (vm_runtimeVmName vm) expiredVmNames
                    then with_vm_outcome vm vm_failed "The run lease expired." term_failed (Some "The run lease expired.")
                    else vm) (run_vms current))).
(** The run of an overdue lease that is failed: on this host, not over, with one of
    the VMs. *)
Definition expires (hostId : string) (vmNames : list string) (row : RunRow) : bool :=
  (sr_hostId row =s hostId) && isNull (sr_completedAt row) && isNull (sr_failedAt row)
  && existsb (fun vm => str_mem (vm_runtimeVmName vm) vmNames) (run_vms (stateOf row)).

(** * Deletion: [deleteFinishedScenarioRun] *)

Inductive ScenarioRunPurgeBlockReason : Type := vm_teardown_pending | artifact_upload_pending.
Definition scenarioRunPurgeBlockReason (state : RunStateDocument) (artifacts : list StorageRecord) : option ScenarioRunPurgeBlockReason :=
  if match run_vms state with [] => true | _ => false end
     || existsb (fun vm => negb (bool_decide (vm_phase vm = vm_completed))) (run_vms state)
  then Some vm_teardown_pending
  else if existsb (fun a => negb (so_uploadStatus a =s "uploaded")) artifacts then Some artifact_upload_pending else None.
Definition storageRecordsOf (s : EndingDb) (runId : string) : list StorageRecord :=
  List.filter (fun a => so_runId a =s runId) (eb_artifacts s).
(** The administrators' delete: a run that is not hidden, and its event. *)
Definition deleteVisibleRun (hidden : list string) (runId userId : string) : Stmt := fun db =>
  let hit r := (sr_runId r =s runId) && (sr_userId r =s userId) && negb (str_mem runId hidden) in
  Ok (set_runs db (delete_where hit (db_runs db)), count_where hit (db_runs db)).
Inductive DeletionOutcome : Type := deletion_done | deletion_none | deletion_failed (e : StoreError) | deletion_event_exists.
Definition forgetRun (runId : string) (events : list DeletionEvent) (s : EndingDb) (db : Db) : EndingDb :=
  mkEnding db (eb_desired s) (eb_access s) (delete runId (eb_routeCleanupId s)) (delete runId (eb_shareId s))
    (List.filter (fun r => negb (r =s runId)) (eb_hidden s)) (delete_where (fun a => so_runId a =s runId) (eb_artifacts s)) events.
(** [event] is given when an administrator deletes the run. *)
Definition deleteRun (runId userId : string) (event : option DeletionEvent) (s : EndingDb) : EndingDb * DeletionOutcome :=
  match deleteScenarioRunRuntimeProjection runId (Some userId)
          (match event with Some _ => Some [deleteVisibleRun (eb_hidden s) runId userId] | None => None end) (eb_store s) with
  | Err e => (s, deletion_failed e)
  | Ok (db, true) =>
      match event with
      | Some e =>
          if existsb (fun x => de_id x =s de_id e) (eb_events s) then (s, deletion_event_exists)
          else (forgetRun runId (eb_events s ++ [e]) s db, deletion_done)
      | None => (forgetRun runId (eb_events s) s db, deletion_done)
      end
  | Ok (db, false) => (set_store s db, deletion_none)
  end.

(** * Dispatch: lib/host-workload-access.ts *)

Section dispatch.
Variable s : EndingDb.
Variable hostId : string.
#[local] Abbreviation db := (eb_store s).

(** The runs of the host whose owner may still use them. *)
Definition permittedRun (run : RunRow) : bool :=
  (sr_hostId run =s hostId) && activeAccount db (sr_userId run) && isNull (sr_deleteRequestedAt run)
  && isNull (eb_routeCleanupId s !! sr_runId run) && isNull (sr_failedAt run) && isNull (sr_completedAt run)
  && currentScenarioRunContentAccessCondition db (eb_access s) run.
Definition liveExecution (e : ExecutionRow) : bool :=
  match re_state e with ex_queued | ex_provisioning | ex_ready => true | _ => false end && isNull (re_archiveRequestedAt e)
  && negb (existsb (fun n => (re_domainKind n =s re_domainKind e) && (re_domainId n =s re_domainId e) && (re_generation e <? re_generation n))
             (db_executions db)).
(** A desired VM that an allowed row names: run, execution, generation, owner, name. *)
Definition allowedVm (vm : DesiredVm) : bool :=
  existsb (fun run => (sr_runId run =s dv_run_id vm) && permittedRun run
    && existsb (fun e => (re_id e =s dv_runtime_execution_id vm) && (re_generation e =? dv_generation vm) && (re_userId e =s dv_owner_user_id vm)
         && sql_eq (Some (re_id e)) (sr_runtimeExecutionId run) && (re_domainId e =s sr_runId run) && (re_userId e =s sr_userId run)
         && liveExecution e
         && existsb (fun h => (ah_id h =s hostId) && sql_eq (re_hostId e) (Some (ah_id h)) && negb (ah_disabled h)
              && currentRunHostScopeCondition db (eb_access s) h run e) (db_hosts db)
         && existsb (fun v => (rv_executionId v =s re_id e) && (rv_runtimeVmName v =s dv_vm_name vm)) (db_vms db))
       (db_executions db)) (db_runs db).
(** The runs whose cleanup is still owed, with their owners. *)
Definition pendingCleanups : list (string * string) :=
  Map_new (map (fun r => (sr_runId r, sr_userId r))
    (List.filter (fun r => (sr_hostId r =s hostId)
       && (negb (isNull (eb_routeCleanupId s !! sr_runId r)) || (negb (isNull (sr_deleteRequestedAt r)) && negb (isNull (sr_activeKey r)))))
       (db_runs db))).
End dispatch.
Definition isRunning (vm : DesiredVm) : bool := bool_decide (dv_desired_phase vm = desired_running).
Definition deniedVms (allowed : DesiredVm -> bool) (state : HostDesiredState) : list DesiredVm :=
  List.filter (fun vm => isRunning vm && negb (allowed vm)) (ds_vms state).
(** [JSON.stringify([execution, generation, name])]. *)
Definition deniedIdentity (vm : DesiredVm) : string * Z * string := (dv_runtime_execution_id vm, dv_generation vm, dv_vm_name vm).
Definition isDenied (denied : list DesiredVm) (vm : DesiredVm) : bool :=
  existsb (fun d => bool_decide (deniedIdentity d = deniedIdentity vm)) denied.
Definition denyVms (denied : list DesiredVm) (draft : HostDesiredState) : HostDesiredState :=
  DesiredState.with_vms draft (map (fun vm => if isDenied denied vm then with_phase_absent vm else vm) (ds_vms draft)).
