(* ===== verification/RunEndingRequests.v ===== *)
(** The requests that end runs: lib/scenario-runs/lifecycle.ts with [updateRunState] of
    storage.ts, lib/host-workload-access.ts and lib/host-workload-retirement.ts, as
    programs on the shared tables.

    Routes, shares, stored objects, course completions and host objects are outside:
    what they do is a call that is answered with anything. A random id that a request
    creates is an argument. *)
From stdpp Require Import base gmap list strings.
From Stdlib Require Import ZArith Lia.
From S2P Require Import Prelude Json RunState RunView Store RuntimeExecutions RunProjection DesiredState Access Placement RunNames Requests RouteRevocation RunEndingStore.

Open Scope string_scope.
Open Scope list_scope.
Open Scope Z_scope.
Open Scope req_scope.

(** * Errors and calls *)

Inductive EndError : Type :=
| end_refused (r : Refusal)
| end_store (e : StoreError)
| end_desired (e : DesiredStateError)
| end_broken (message : string).

Inductive EndCall : Type -> Type :=
| EndClock : EndCall Z
| DeleteRoute (routeUsername : string) : EndCall (result EndError ())
| WakeHost (hostId : string) : EndCall ()
| RecordCompletion (runId : string) (now : Z) : EndCall (result EndError ())
| StopShare (runId shareId : string) : EndCall (result EndError ())
| AbortUpload (r2Key uploadId : string) : EndCall (result EndError ())
| DeleteObjects (keys : list string) : EndCall (result EndError ())
| RetireHost (hostId : string) : EndCall (result EndError ())
| WakeRemovedHost (hostId : string) : EndCall (result EndError ())
| RunChanged (runId : string) : EndCall ().

Definition Ending (A : Type) : Type := Req EndCall EndingDb (result EndError A).
Definition end_ok {A} (a : A) : Ending A := Done (Ok a).
Definition end_throw {A} (e : EndError) : Ending A := Done (Err e).
Definition end_refuse {A} (status : Z) (code : string) : Ending A := end_throw (end_refused (refusal status code)).
Definition end_lift {A} (r : result StoreError A) : Ending A := Done (match r with Ok a => Ok a | Err e => Err (end_store e) end).
Definition runNotFound {A} : Ending A := end_refuse 404 "scenario_run_not_found".

(** * Desired states: lib/desired-state-store.ts *)

Section requests.
Context `{Collation}.

Definition insertDocument (row : DesiredRow) (s : EndingDb) : EndingDb * bool :=
  let '(d, inserted) := insertDesired row (endingDocuments s) in (set_desired s (dd_rows d), inserted).
Definition storeDocument (hostId : string) (now version : Z) (next : HostDesiredState) (s : EndingDb) : EndingDb * bool :=
  let hit := writeHits hostId None (endingDocuments s) version in
  (set_desired s (update_where hit (writeDesired now next) (eb_desired s)), existsb hit (eb_desired s)).
Fixpoint loadDocumentFrom (hostId : string) (now : Z) (ownership : HostScope * string) (left : nat) : Ending HostDesiredState :=
  match left with
  | O => end_throw (end_desired lost_version_races)
  | S left' =>
      row <-- query (fun s => findDesired (endingDocuments s) hostId);
      match row with
      | Some r => match checkedDocument hostId ownership r with Ok d => end_ok d | Err e => end_throw (end_desired e) end
      | None =>
          let doc := createEmptyHostDesiredState hostId (fst ownership) (snd ownership) now in
          inserted <-- transaction (insertDocument (mkDesiredRow hostId (ds_version doc) doc now now));
          if inserted : bool then end_ok doc else loadDocumentFrom hostId now ownership left'
      end
  end.
Definition loadDocument (hostId : string) (now : Z) : Ending HostDesiredState :=
  ownership <-- query (fun s => hostOwnership hostId (endingDocuments s));
  match ownership with
  | Err e => end_throw (end_desired e)
  | Ok o => loadDocumentFrom hostId now o MUTATE_DESIRED_STATE_MAX_ATTEMPTS
  end.
(** The first attempt starts from [initial] when it is the host's. *)
Fixpoint mutateDocumentFrom (hostId : string) (now : Z) (mutator : HostDesiredState -> HostDesiredState)
    (initial : option HostDesiredState) (left : nat) : Ending HostDesiredState :=
  match left with
  | O => end_throw (end_desired lost_version_races)
  | S left' =>
      current <-! match initial with
        | Some d => if ds_host_id d =s hostId then end_ok d else loadDocument hostId now
        | None => loadDocument hostId now
        end;
      match mutateDesiredState current mutator now with
      | Err e => end_throw (end_desired e)
      | Ok None => end_ok current
      | Ok (Some next) =>
          hit <-- transaction (storeDocument hostId now (ds_version current) next);
          if hit : bool then end_ok next else mutateDocumentFrom hostId now mutator None left'
      end
  end.
Definition mutateDocument (hostId : string) (now : Z) (mutator : HostDesiredState -> HostDesiredState)
    (initial : option HostDesiredState) : Ending HostDesiredState :=
  mutateDocumentFrom hostId now mutator initial MUTATE_DESIRED_STATE_MAX_ATTEMPTS.

(** * Writing a run's state *)

(** [releaseActiveRuntimeSlot] of generation 1. *)
Definition freeRuntimeSlot (executionId : string) (t : Z) (s : EndingDb) : EndingDb * result StoreError Z :=
  match batch [clearActiveKey executionId 1 t; deleteSlot executionId 1] (eb_store s) with
  | Ok (db, changes) => (set_store s db, Ok (foldr Z.add 0 changes))
  | Err c => (s, Err (db_error c))
  end.
Definition releaseSlot (executionId : string) (now : Z) : Ending () :=
  read <-- query (fun s => requireCurrentRuntimeGeneration (eb_store s) executionId 1);
  execution <-! end_lift read;
  t <-! end_lift (validTimestamp now "now");
  out <-- transaction (freeRuntimeSlot (re_id (fst execution)) t);
  total <-! end_lift out;
  raced <-- query (fun s => rejectIfGenerationRaced (eb_store s) execution 1 total);
  end_lift raced.

Definition commitUpdate (runId : string) (updatedAt : Z) (p : Projection) (s : EndingDb) : EndingDb * result StoreError bool :=
  match executeScenarioRunRuntimeProjection runId [updateMutation runId updatedAt p] mode_update (eb_store s) with
  | Ok (db, changes) => (set_store s db, Ok (0 <? nullish (head changes) 0))
  | Err e => (s, Err e)
  end.
(** What follows a committed update. *)
Definition afterUpdate (runId : string) (executionId : option string) (releaseActiveSlot : bool) (p : Projection) : Ending (option Z) :=
  _ <-! (if bool_decide (run_phase (pj_merged p) = run_completed) && isSet (pj_solvedAt p)
         then call (RecordCompletion runId (pj_now p)) else end_ok tt);
  _ <-! match executionId ≫= or_null with
        | Some e => if leavesSlot releaseActiveSlot p then releaseSlot e (pj_now p) else end_ok tt
        | None => end_ok tt
        end;
  end_ok (Some (pj_now p)).
Fixpoint updateRunStateFrom (runId : string) (mutate : RunStateDocument -> RunStateDocument) (deleteRequestedAt : option (option Z))
    (releaseActiveSlot : bool) (left : nat) : Ending (option Z) :=
  match left with
  | O => end_throw (end_broken "run state CAS did not converge")
  | S left' =>
      row <-- query (fun s => loadRunRow s runId None);
      match row with
      | None => end_ok None
      | Some row =>
          clock <-- call EndClock;
          let p := updateOf mutate deleteRequestedAt releaseActiveSlot clock row in
          out <-- transaction (commitUpdate runId (sr_updatedAt row) p);
          updated <-! end_lift out;
          if updated : bool then afterUpdate runId (sr_runtimeExecutionId row) releaseActiveSlot p
          else updateRunStateFrom runId mutate deleteRequestedAt releaseActiveSlot left'
      end
  end.
Definition updateRunState (runId : string) (mutate : RunStateDocument -> RunStateDocument) (deleteRequestedAt : option (option Z))
    (releaseActiveSlot : bool) : Ending (option Z) :=
  updateRunStateFrom runId mutate deleteRequestedAt releaseActiveSlot MAX_UPDATE_ATTEMPTS.

(** * Teardown *)

Definition scenarioRunRoutes (runId : string) (state : RunStateDocument) : list string :=
  flat_map (fun vm => map (buildRunVmRouteUsername runId (run_vms state) (vm_id vm))
    [route_browser; route_native_profile_keys; route_native_issued_key]) (run_vms state).
Definition revokeScenarioRunRoutes (runId : string) (state : RunStateDocument) : Ending () :=
  failures <-- revokeAllRoutes DeleteRoute (scenarioRunRoutes runId state);
  match failures with [] => end_ok tt | _ => end_throw (end_broken "failed to revoke routes") end.

(** [n] is what the marker of absent VMs last answered with, kept when what follows
    throws. *)
Definition orStop {N A} (n : N) (p : Ending A) (k : A -> Req EndCall EndingDb (N * result EndError RunRow))
  : Req EndCall EndingDb (N * result EndError RunRow) :=
  r <-- p; match r with Ok a => k a | Err e => Done (n, Err e) end.
(** [try { ... } catch { throw appError(503, code) }]. *)
Definition orUnavailable {A} (code : string) (p : Ending A) : Ending A :=
  r <-- p; match r with Ok a => end_ok a | Err _ => end_refuse 503 code end.

Section teardown.
Context {N : Type}.
Variable markVmsAbsent : string -> string -> list string -> Z -> N -> Ending N.
Variable wakeHostRuntime : string -> Req EndCall EndingDb ().

Definition acceptTeardown (row : RunRow) (userId : string) (deleteRequestedAt : option Z) (acceptedAt : Z) : Ending () :=
  if negb (isTerminal (run_phase (stateOf row)))
  then _ <-! updateRunState (sr_runId row) (requestTeardown (map vm_id (runVmsRequiringDesiredAbsence (stateOf row))))
               (Some deleteRequestedAt) false; end_ok tt
  else _ <-- transaction (fun s => (recordDeletion (sr_runId row) userId deleteRequestedAt acceptedAt s, tt)); end_ok tt.
Definition markTeardown (row : RunRow) (acceptedAt : Z) (n : N) : Ending N :=
  match runVmsRequiringDesiredAbsence (stateOf row) with
  | [] => end_ok n
  | vms => orUnavailable "scenario_teardown_desired_state_failed"
             (markVmsAbsent (sr_hostId row) (sr_runId row) (map vm_runtimeVmName vms) acceptedAt n)
  end.
Definition finishTeardown (row : RunRow) (userId : string) (deleteRequestedAt : option Z) (cleanupId : string) : Ending RunRow :=
  revoked <-- revokeScenarioRunRoutes (sr_runId row) (stateOf row);
  _ <-- wakeHostRuntime (sr_hostId row);
  match revoked with
  | Err _ => end_refuse 503 "scenario_teardown_route_revocation_failed"
  | Ok _ =>
      _ <-! orUnavailable "scenario_teardown_slot_release_failed"
              (updateRunState (sr_runId row) (fun current => current) (Some deleteRequestedAt) true);
      accepted <-- query (fun s => loadRunRow s (sr_runId row) (Some userId));
      match accepted with
      | None => end_refuse 500 "scenario_run_snapshot_missing"
      | Some acceptedRow =>
          _ <-- transaction (fun s => (completeCleanup (sr_runId row) cleanupId s, tt));
          end_ok acceptedRow
      end
  end.
Definition destroyScenarioRunForUserWithDependencies (newCleanupId runId userId : string) (n : N)
  : Req EndCall EndingDb (N * result EndError RunRow) :=
  row <-- query (fun s => loadRunRow s runId (Some userId));
  match row with
  | None => orStop n (A := RunRow) runNotFound (fun r => Done (n, Ok r))
  | Some row =>
      acceptedAt <-- call EndClock;
      cleanups <-- transaction (requestCleanup (sr_hostId row) [sr_runId row] newCleanupId acceptedAt);
      match cleanups with
      | [] => orStop n (A := RunRow) runNotFound (fun r => Done (n, Ok r))
      | cleanup :: _ =>
          let deleteRequestedAt := Some (nullish (sr_deleteRequestedAt row) acceptedAt) in
          orStop n (acceptTeardown row userId deleteRequestedAt acceptedAt) (fun _ =>
          orStop n (markTeardown row acceptedAt n) (fun n' =>
          orStop n' (finishTeardown row userId deleteRequestedAt (cl_cleanupId cleanup)) (fun accepted =>
          Done (n', Ok accepted))))
      end
  end.
End teardown.

Definition markRunVmsAbsentInDesiredState (hostId runId : string) (vmNames : list string) (now : Z) (_ : ()) : Ending () :=
  match vmNames with
  | [] => end_ok tt
  | _ => _ <-! mutateDocument hostId now (markAllAbsent runId vmNames) None; end_ok tt
  end.
Definition destroyScenarioRunForUser (newCleanupId runId userId : string) : Ending RunRow :=
  r <-- destroyScenarioRunForUserWithDependencies markRunVmsAbsentInDesiredState (fun hostId => call (WakeHost hostId)) newCleanupId runId userId tt;
  Done (snd r).

(** * Overdue leases *)

Definition expireRunLease (hostId : string) (now : Z) (lease : OverdueRunLease) : Ending (option Z) :=
  row <-- query (fun s => loadRunRow s (od_runId lease) None);
  revision <-! match row with
    | Some row =>
        if expires hostId (od_vmNames lease) row
        then updateRunState (sr_runId row) (expireRun (od_vmNames lease)) (Some (sr_deleteRequestedAt row)) false
        else end_ok None
    | None => end_ok None
    end;
  _ <-! mutateDocument hostId now (markAllAbsent (od_runId lease) (od_vmNames lease)) None;
  end_ok revision.
Fixpoint expireLeases (hostId : string) (now : Z) (leases : list OverdueRunLease) : Ending (list (string * Z)) :=
  match leases with
  | [] => end_ok []
  | lease :: rest =>
      revision <-! expireRunLease hostId now lease;
      revisions <-! expireLeases hostId now rest;
      end_ok (match revision with Some t => (od_runId lease, t) :: revisions | None => revisions end)
  end.
(** The expired runs, and the revisions of those that were failed. *)
Definition expireOverdueRunLeases (hostId : string) (now : Z) (wake : bool) : Ending (list string * list (string * Z)) :=
  desiredState <-! loadDocument hostId now;
  let overdue := selectOverdueRunLeases desiredState now in
  revisions <-! expireLeases hostId now overdue;
  _ <-- match overdue with [] => Done tt | _ => if wake then call (WakeHost hostId) else Done tt end;
  end_ok (map od_runId overdue, revisions).

(** * Deleting a finished run *)

(** lib/scenario-artifact-storage.ts: a failed abort is tolerated, a failed delete is
    not. *)
Fixpoint abortUploads (records : list StorageRecord) : Req EndCall EndingDb () :=
  match records with
  | [] => Done tt
  | a :: rest =>
      match so_r2UploadId a ≫= or_null with
      | Some uploadId => _ <-- call (AbortUpload (so_r2Key a) uploadId); abortUploads rest
      | None => abortUploads rest
      end
  end.
Definition R2_DELETE_BATCH_SIZE : nat := 1000.
Fixpoint deleteKeys (keys : list string) (fuel : nat) : Ending () :=
  match fuel, keys with
  | _, [] => end_ok tt
  | O, _ => end_ok tt
  | S fuel', _ =>
      _ <-! call (DeleteObjects (take R2_DELETE_BATCH_SIZE keys));
      deleteKeys (drop R2_DELETE_BATCH_SIZE keys) fuel'
  end.
Definition deleteScenarioArtifactStorage (records : list StorageRecord) : Ending () :=
  let keys := Set_new (map so_r2Key records) in
  _ <-- abortUploads records;
  deleteKeys keys (length keys).

Definition purgeConflict {A} : Ending A := end_refuse 409 "scenario_run_delete_conflict".
(** [userId] is the owner who asks, or [actor] an administrator with the id of the
    event. *)
Definition deleteFinishedScenarioRun (runId : string) (userId : option string) (actor : option (string * string)) : Ending () :=
  loaded <-- query (fun s => (loadRunRow s runId userId, eb_shareId s !! runId));
  match loaded with
  | (None, _) => runNotFound
  | (Some row, shareId) =>
      if negb (isTerminal (run_phase (stateOf row))) then purgeConflict else
      storageRecords <-- query (fun s => storageRecordsOf s (sr_runId row));
      match scenarioRunPurgeBlockReason (stateOf row) storageRecords with
      | Some _ => purgeConflict
      | None =>
          _ <-! match shareId ≫= or_null with
                | Some share => call (StopShare (sr_runId row) share)
                | None => end_ok tt
                end;
          _ <-! revokeScenarioRunRoutes (sr_runId row) (stateOf row);
          _ <-! deleteScenarioArtifactStorage storageRecords;
          now <-- match actor with Some _ => call EndClock | None => Done 0 end;
          out <-- transaction (deleteRun (sr_runId row) (sr_userId row)
            (option_map (fun a => mkDeletionEvent (snd a) (sr_userId row) (fst a) (sr_runId row) now) actor));
          match out with
          | deletion_done => end_ok tt
          | deletion_none => runNotFound
          | deletion_failed e => end_throw (end_store e)
          | deletion_event_exists => end_throw (end_broken "access_events")
          end
      end
  end.

(** * Dispatch *)

(** A marker that keeps the dispatched document current. *)
Definition markInDispatched (hostId : string) (_ runId : string) (vmNames : list string) (now : Z) (next : HostDesiredState)
  : Ending HostDesiredState := mutateDocument hostId now (markAllAbsent runId vmNames) (Some next).
Fixpoint finishCleanups (hostId : string) (ids : nat -> string) (pending : list (string * string)) (next : HostDesiredState)
  : Req EndCall EndingDb HostDesiredState :=
  match pending with
  | [] => Done next
  | (runId, userId) :: rest =>
      r <-- destroyScenarioRunForUserWithDependencies (markInDispatched hostId) (fun _ => Done tt) (ids (length pending)) runId userId next;
      _ <-- call (RunChanged runId);
      finishCleanups hostId ids rest (fst r)
  end.
Definition enforceHostWorkloadAccess (ids : nat -> string) (state : HostDesiredState) : Ending HostDesiredState :=
  let hostId := ds_host_id state in
  found <-- query (fun s => (deniedVms (allowedVm s hostId) state, pendingCleanups s hostId));
  let denied := fst found in
  let newlyDenied := List.filter (fun runId => isNull (Map_get runId (snd found))) (Set_new (map dv_run_id denied)) in
  requested <-- match newlyDenied with
    | [] => Done []
    | _ => now <-- call EndClock; transaction (requestCleanup hostId newlyDenied (ids 0%nat) now)
    end;
  let pending := fold_left (fun m c => Map_set (cl_runId c) (cl_userId c) m) requested (snd found) in
  next <-! match denied with
    | [] => end_ok state
    | _ => now <-- call EndClock; mutateDocument hostId now (denyVms denied) (Some state)
    end;
  dispatched <-- finishCleanups hostId ids pending next;
  end_ok dispatched.

(** * Removed hosts: [cleanupRemovedHost] *)

Fixpoint cleanupRuns (ids : nat -> string) (rows : list (RunRow * option ExecutionState)) (failed : bool) : Req EndCall EndingDb bool :=
  match rows with
  | [] => Done failed
  | (row, executionState) :: rest =>
      ok <-- (if bool_decide (sr_state row = run_completed) || bool_decide (executionState = Some ex_archived)
              then r <-- revokeScenarioRunRoutes (sr_runId row) (stateOf row);
                   Done (match r with Ok _ => true | Err _ => false end)
              else r <-- destroyScenarioRunForUser (ids (length rows)) (sr_runId row) (sr_userId row);
                   Done (match r with Ok _ => true | Err _ => false end));
      cleanupRuns ids rest (failed || negb ok)
  end.
Definition cleanupRemovedHost (ids : nat -> string) (hostId : string) : Ending () :=
  rows <-- query (fun s => map (fun r => (r,
    option_map re_state (List.find (fun e => sql_eq (sr_runtimeExecutionId r) (Some (re_id e))) (db_executions (eb_store s)))))
    (List.filter (fun r => sr_hostId r =s hostId) (db_runs (eb_store s))));
  retired <-- call (RetireHost hostId);
  failed <-- cleanupRuns ids rows false;
  woken <-- call (WakeRemovedHost hostId);
  match retired, failed, woken with
  | Ok _, false, Ok _ => end_ok tt
  | _, _, _ => end_throw (end_broken "Server session and workload cleanup is pending")
  end.
End requests.
