(* ===== verification/RunEndingSafety.v ===== *)
(** What the requests that end runs keep and bring about, whatever happens around them:
    VMs that are not asked for again, and runs that hold no slot. *)
From stdpp Require Import base gmap list strings.
From Stdlib Require Import ZArith Lia.
From S2P Require Import Prelude Json RunState RunView Store RuntimeExecutions RunProjection DesiredState Access Placement RunNames Requests RouteRevocation Interference RunEndingStore RunEndingRequests.

Open Scope string_scope.
Open Scope list_scope.
Open Scope Z_scope.
Open Scope req_scope.

(** * VMs a document does not ask to run *)

Definition doc_ok (d : HostDesiredState) : Prop := NoDup (map desiredVmIdentity (ds_vms d)).
Definition quiet (q : DesiredVm -> bool) (d : HostDesiredState) : Prop :=
  forall v, In v (ds_vms d) -> q v = true -> dv_desired_phase v = desired_absent.
(** A choice of VMs by what never changes in them. *)
Definition by_identity (q : DesiredVm -> bool) : Prop := forall v, q (with_phase_absent v) = q v.
(** An edit that marks VMs absent, those of [q] at least, and does nothing else. *)
Definition absenting (q : DesiredVm -> bool) (m : HostDesiredState -> HostDesiredState) : Prop :=
  forall d, doc_ok d -> exists g, ds_vms (m d) = map g (ds_vms d) /\
    forall v, (g v = v \/ g v = with_phase_absent v) /\ (q v = true -> g v = with_phase_absent v).

Section documents.
Context `{Collation}.

Lemma marked_identity l g :
  (forall v, g v = v \/ g v = with_phase_absent v) -> map desiredVmIdentity (map g l) = map desiredVmIdentity l.
Proof. intros Hg. rewrite map_map. apply map_ext. intros v. by destruct (Hg v) as [->| ->]. Qed.

Lemma absenting_outcome q m current now o :
  absenting q m -> by_identity q -> doc_ok current -> mutateDesiredState current m now = Ok o ->
  doc_ok (outcomeOf current o) /\ quiet q (outcomeOf current o) /\
  forall q', by_identity q' -> quiet q' current -> quiet q' (outcomeOf current o).
Proof.
  intros Hm Hq Hok Ho. destruct (Hm (cloneDesiredState current) Hok) as (g & Eg & Hg).
  change (ds_vms (cloneDesiredState current)) with (ds_vms current) in Eg.
  assert (Hids : map desiredVmIdentity (map g (ds_vms current)) = map desiredVmIdentity (ds_vms current)) by (apply marked_identity, Hg).
  assert (Hp : ds_vms (outcomeOf current o) ≡ₚ map g (ds_vms current)).
  { apply mutate_inv in Ho as (_ & _ & _ & _ & [[-> E]|[-> _]]).
    - apply (f_equal ds_vms) in E. unfold comparableDesiredStatePayload in E. cbn [ds_vms normalizeDesiredState] in E. cbn [outcomeOf nullish].
      rewrite Eg in E. rewrite <-(normalizeBy_perm desiredVmIdentity (ds_vms current)) at 1 by exact Hok. rewrite E.
      apply normalizeBy_perm. by rewrite Hids.
    - cbn [outcomeOf nullish stamped ds_vms normalizeDesiredState]. rewrite Eg. apply normalizeBy_perm. by rewrite Hids. }
  assert (Hin : forall v, In v (ds_vms (outcomeOf current o)) -> exists w, In w (ds_vms current) /\ v = g w).
  { intros v Hv. apply (Permutation_in _ Hp) in Hv. apply in_map_iff in Hv as (w & <- & Hw). eauto. }
  split_and!.
  - unfold doc_ok. rewrite Hp, Hids. exact Hok.
  - intros v Hv Hqv. destruct (Hin v Hv) as (w & _ & ->). destruct (Hg w) as [Hor Hw].
    rewrite Hw; [done|]. destruct Hor as [E|E]; rewrite E in Hqv; [done|]. by rewrite <-Hq.
  - intros q' Hq' Hquiet v Hv Hqv. destruct (Hin v Hv) as (w & Hw & ->). destruct (Hg w) as [[E|E] _]; rewrite E in Hqv |- *; [auto|done].
Qed.

(** ** The edits of this code *)

Definition vmsOf (runId : string) (vmNames : list string) (v : DesiredVm) : bool :=
  existsb (fun name => isDesiredVmOf runId name v) vmNames.
Lemma vmsOf_by_identity runId vmNames : by_identity (vmsOf runId vmNames).
Proof. by intros v. Qed.
Lemma isDenied_by_identity denied : by_identity (isDenied denied).
Proof. by intros v. Qed.

Lemma markAllAbsent_vms runId vmNames d :
  doc_ok d -> ds_vms (markAllAbsent runId vmNames d)
              = map (fun v => if vmsOf runId vmNames v then with_phase_absent v else v) (ds_vms d).
Proof.
  unfold markAllAbsent, vmsOf. revert d. induction vmNames as [|name rest IH]; intros d Hok; cbn [fold_left existsb].
  - symmetry. apply List.map_id.
  - pose proof (mark_absent_vms d runId name Hok) as E. rewrite IH.
    + rewrite E, map_map. apply map_ext. intros v. destruct (isDesiredVmOf runId name v) eqn:Ev; cbn [orb]; [|done].
      change (existsb _ rest) with (vmsOf runId rest (with_phase_absent v)) at 1. by destruct (vmsOf runId rest _).
    + unfold doc_ok. rewrite E, marked_identity; [exact Hok|]. intros v. destruct (isDesiredVmOf _ _ _); auto.
Qed.
Lemma markAllAbsent_absenting runId vmNames : absenting (vmsOf runId vmNames) (markAllAbsent runId vmNames).
Proof.
  intros d Hok. eexists. split; [by apply markAllAbsent_vms|]. intros v. cbv beta. by destruct (vmsOf runId vmNames v); split; auto.
Qed.
Lemma denyVms_absenting denied : absenting (isDenied denied) (denyVms denied).
Proof. intros d _. eexists. split; [done|]. intros v. cbv beta. by destruct (isDenied denied v); split; auto. Qed.
End documents.

(** * Overdue leases *)

Definition names_in (byRunId : list (string * list string)) (runId vmName : string) : Prop :=
  exists names, In (runId, names) byRunId /\ In vmName names.
Lemma names_get byRunId runId vmName :
  NoDup byRunId.*1 -> names_in byRunId runId vmName <-> In vmName (nullish (Map_get runId byRunId) []).
Proof.
  intros Hn. split.
  - intros (names & Hin & Hv). rewrite (Map_get_nodup runId names byRunId Hn); [done|]. by apply list_elem_of_In.
  - intros Hv. destruct (Map_get runId byRunId) as [names|] eqn:E; [|done]. exists names. split; [by apply Map_get_In|done].
Qed.
Lemma addOverdue_names byRunId vm runId vmName :
  NoDup byRunId.*1 ->
  names_in (addOverdue byRunId vm) runId vmName <-> names_in byRunId runId vmName \/ (dv_run_id vm = runId /\ dv_vm_name vm = vmName).
Proof.
  intros Hn. rewrite !names_get by (done || by apply Map_set_nodup). unfold addOverdue.
  destruct (decide (runId = dv_run_id vm)) as [->|Hne].
  - rewrite Map_get_set_eq. cbn [nullish]. rewrite Set_new_In, in_app_iff. cbn. naive_solver.
  - rewrite Map_get_set_ne by done. naive_solver.
Qed.
Lemma sortBy_In `{Collation} {A} (identity : A -> string) l x : In x (sortBy identity l) <-> In x l.
Proof. split; intros Hin%list_elem_of_In; apply list_elem_of_In; revert Hin; unfold sortBy; by rewrite js_sort_perm. Qed.
Lemma overdue_selected `{Collation} d now vm :
  In vm (ds_vms d) -> isOverdue now vm = true ->
  exists lease, In lease (selectOverdueRunLeases d now) /\ od_runId lease = dv_run_id vm /\ In (dv_vm_name vm) (od_vmNames lease).
Proof.
  intros Hin Hover. assert (Hin' : In vm (List.filter (isOverdue now) (ds_vms d))) by (by apply filter_In).
  assert (Hnames : names_in (fold_left addOverdue (List.filter (isOverdue now) (ds_vms d)) []) (dv_run_id vm) (dv_vm_name vm)).
  { revert Hin'. generalize (List.filter (isOverdue now) (ds_vms d)) as vms. intros vms Hvms. clear Hin.
    assert (Hfold : forall acc, NoDup acc.*1 -> In vm vms \/ names_in acc (dv_run_id vm) (dv_vm_name vm) ->
      names_in (fold_left addOverdue vms acc) (dv_run_id vm) (dv_vm_name vm)).
    { clear Hvms. induction vms as [|x vms IH]; intros acc Hn Hor; cbn [fold_left]; [by destruct Hor as [[]|?]|].
      apply IH; [by apply Map_set_nodup|]. rewrite addOverdue_names by done. destruct Hor as [[->|?]|?]; auto. }
    apply Hfold; [constructor|auto]. }
  destruct Hnames as (names & Hn & Hv).
  exists (mkOverdue (dv_run_id vm) (sortBy (fun name => name) names)). unfold selectOverdueRunLeases. split_and!; [|done|].
  - apply sortBy_In, in_map_iff. by exists (dv_run_id vm, names).
  - by apply sortBy_In.
Qed.

(** * States *)

Record ending_wf (s : EndingDb) : Prop := mk_ending_wf {
  ew_store : db_wf (eb_store s);
  ew_hosts : NoDup (map dr_hostId (eb_desired s));
  ew_docs : Forall (fun r => doc_ok (dr_docJson r)) (eb_desired s);
}.
(** No stored document of the host asks for the VMs of [q]. *)
Definition unasked (hostId : string) (q : DesiredVm -> bool) (s : EndingDb) : Prop :=
  forall row, In row (eb_desired s) -> dr_hostId row = hostId -> quiet q (dr_docJson row).
(** No row of the run holds a slot. *)
Definition released (runId : string) (s : EndingDb) : Prop :=
  forall r, In r (db_runs (eb_store s)) -> sr_runId r = runId -> sr_activeKey r = None.

(** An access that leaves the documents and the store's integrity alone. *)
Definition store_only {B} (f : EndingDb -> EndingDb * B) : Prop :=
  forall s, eb_desired (fst (f s)) = eb_desired s /\ (db_wf (eb_store s) -> db_wf (eb_store (fst (f s)))).

Definition calm (hostId : string) (q : DesiredVm -> bool) (s : EndingDb) : Prop := ending_wf s /\ unasked hostId q s.
Lemma calm_kept {B} (f : EndingDb -> EndingDb * B) hostId q s : store_only f -> calm hostId q s -> calm hostId q (fst (f s)).
Proof.
  intros Hf [[H1 H2 H3] H4]. destruct (Hf s) as [E Hw]. split; [split|]; rewrite ?E; auto. intros row Hin. rewrite E in Hin. auto.
Qed.

Lemma writeProjection_identity p :
  forall r, pj_activeKey p = sr_activeKey r \/ pj_activeKey p = None -> sr_runId (writeProjection p r) = sr_runId r /\
    sr_userId (writeProjection p r) = sr_userId r /\ sr_runtimeExecutionId (writeProjection p r) = sr_runtimeExecutionId r.
Proof. done. Qed.
Lemma with_deleteRequested_identity d u : keeps_run_identity (fun r => with_deleteRequested (d r) (u r) r).
Proof. intros r. cbn. auto. Qed.
Lemma updateRuns_delete_wf p d u db : db_wf db -> db_wf (fst (updateRuns p (fun r => with_deleteRequested (d r) (u r) r) db)).
Proof. apply updateRuns_wf, with_deleteRequested_identity. Qed.

Lemma requestCleanup_store hostId runIds cleanupId now : store_only (requestCleanup hostId runIds cleanupId now).
Proof. intros s. split; [done|]. cbn [requestCleanup fst set_routeCleanupId set_store eb_store]. by apply updateRuns_delete_wf. Qed.
Lemma completeCleanup_store runId cleanupId : store_only (fun s => (completeCleanup runId cleanupId s, tt)).
Proof. intros s. cbn. unfold completeCleanup. by case_bool_decide. Qed.
Lemma recordDeletion_store runId userId d acceptedAt : store_only (fun s => (recordDeletion runId userId d acceptedAt s, tt)).
Proof. intros s. split; [done|]. cbn [fst recordDeletion set_store eb_store]. by apply updateRuns_delete_wf. Qed.

(** ** Updates of a run *)

Definition written (runId : string) (updatedAt : Z) (p : Projection) (rows : list RunRow) : list RunRow :=
  update_where (fun r => (sr_runId r =s runId) && (sr_updatedAt r =? updatedAt)) (writeProjection p) rows.
Lemma updateMutation_wf runId updatedAt p : keeps db_wf (updateMutation runId updatedAt p).
Proof.
  intros d d' n [] H. unfold updateMutation in H. cbv zeta in H. case_bool_decide as E; [|done]. cbn [negb] in H.
  unfold updateRuns in *. simplify_eq. cbn in E. constructor; cbn; auto.
  - by rewrite map_update_where.
  - by rewrite omap_update_same.
Qed.
Lemma commit_runs runId updatedAt p s s' hit :
  commitUpdate runId updatedAt p s = (s', Ok hit) ->
  db_runs (eb_store s') = written runId updatedAt p (db_runs (eb_store s)) /\
  hit = (0 <? count_where (fun r => (sr_runId r =s runId) && (sr_updatedAt r =? updatedAt)) (db_runs (eb_store s))).
Proof.
  unfold commitUpdate, executeScenarioRunRuntimeProjection. destruct (requiredId _ _) as [id|]; [|done]. cbn [result_bind].
  destruct (batch _ _) as [q|c] eqn:E; [|by destruct c]. destruct q as [db ch]. intros [= <- <-]. cbn [set_store eb_store].
  cbn [app batch] in E. unfold updateMutation in E at 1. cbv zeta in E. case_bool_decide; [|done]. cbn [negb result_bind fst snd] in E.
  destruct (batch _ _) as [[d c]|] eqn:E' in E; cbn in E; simplify_eq. apply update_projection_runs in E'. by rewrite E'.
Qed.
Lemma commitUpdate_store runId updatedAt p : store_only (commitUpdate runId updatedAt p).
Proof.
  intros s. unfold commitUpdate. destruct (executeScenarioRunRuntimeProjection _ _ _ _) as [[db ch]|e] eqn:E; [|done].
  split; [done|]. cbn [fst set_store eb_store]. intros Hwf. eapply execute_invariant; [|apply projectionStatements_wf|exact Hwf|exact E].
  constructor; [apply updateMutation_wf|constructor].
Qed.
Lemma freeRuntimeSlot_store executionId t : store_only (freeRuntimeSlot executionId t).
Proof.
  intros s. unfold freeRuntimeSlot. destruct (batch _ _) as [[db ch]|c] eqn:E; [|done]. split; [done|]. cbn [fst set_store eb_store].
  intros Hwf. eapply batch_invariant; [|exact Hwf|exact E].
  constructor; [apply clearActiveKey_wf|]. constructor; [apply deleteSlot_wf|constructor].
Qed.

(** ** Deleting a run *)

Lemma deleted_gone (hit : RunRow -> bool) runId db :
  db_wf db -> (forall r, hit r = true -> sr_runId r = runId) -> 0 < count_where hit (db_runs db) ->
  forall r, In r (delete_where hit (db_runs db)) -> sr_runId r <> runId.
Proof.
  intros Hwf Hhit Hc r Hr Er. apply Z.ltb_lt in Hc. rewrite count_where_zero in Hc. apply existsb_exists in Hc as (x & Hx & Ex).
  apply filter_In in Hr as [Hr Hn]. assert (r = x) as ->; [|by rewrite Ex in Hn].
  eapply (NoDup_map_inj sr_runId); [exact (wf_run_ids _ Hwf)|done|done|]. by rewrite (Hhit x Ex).
Qed.
Lemma deleteRun_gone runId userId event s s' :
  db_wf (eb_store s) -> read_opt_string (Some runId) = Some runId -> deleteRun runId userId event s = (s', deletion_done) ->
  (forall r, In r (db_runs (eb_store s')) -> sr_runId r <> runId) /\ (forall a, In a (eb_artifacts s') -> so_runId a <> runId).
Proof.
  intros Hwf Hid. unfold deleteRun, deleteScenarioRunRuntimeProjection, requiredId. rewrite Hid. cbn [result_bind].
  destruct (normalizedOptionalId _) as [user|]; [|done]. cbn [result_bind].
  assert (Hforget : forall events db, (forall a, In a (eb_artifacts (forgetRun runId events s db)) -> so_runId a <> runId)).
  { intros events db a Ha. cbn in Ha. apply filter_In in Ha as [_ Ha]. apply negb_true_iff, String.eqb_neq in Ha. done. }
  assert (Hrows : forall hit, (forall r, hit r = true -> sr_runId r = runId) -> 0 < count_where hit (db_runs (eb_store s)) ->
    forall r, In r (db_runs (deleteExecutions (fun e => (re_domainKind e =s "scenario") && (re_domainId e =s runId)
      && negb (existsb (fun r => sr_runId r =s runId) (delete_where hit (db_runs (eb_store s))))) (set_runs (eb_store s) (delete_where hit (db_runs (eb_store s)))))) ->
    sr_runId r <> runId).
  { intros hit Hhit Hc r Hr. cbn in Hr. apply in_map_iff in Hr as (x & <- & Hx). assert (Ex : sr_runId x <> runId) by by eapply deleted_gone.
    by destruct (match sr_runtimeExecutionId x with Some _ => _ | None => false end). }
  destruct event as [event|]; cbn [option_map nullish app batch deleteRunRows deleteVisibleRun deleteOrphanExecutions result_bind fst snd head db_runs set_runs];
    destruct (0 <? _) eqn:Ec; try done; apply Z.ltb_lt in Ec.
  - destruct (existsb _ (eb_events s)); [done|]. intros [= <-]. split; [|apply Hforget]. apply Hrows; [|exact Ec]. intros r Hr. by reflect_bools.
  - intros [= <-]. split; [|apply Hforget]. apply Hrows; [|exact Ec]. intros r Hr. by reflect_bools.
Qed.

(** * What requests keep *)

Definition anyhow (_ _ : EndingDb) : Prop := True.
(** A good document of [hostId], quiet when that is the host in question. *)
Definition good_doc (h : string) (q : DesiredVm -> bool) (hostId : string) (d : HostDesiredState) : Prop :=
  doc_ok d /\ (hostId = h -> quiet q d).

Lemma findDesired_stored s hostId row :
  ending_wf s -> findDesired (endingDocuments s) hostId = Some row ->
  doc_ok (dr_docJson row) /\ In row (eb_desired s) /\ dr_hostId row = hostId /\
  forall other, In other (eb_desired s) -> dr_hostId other = hostId -> other = row.
Proof.
  intros [_ Hn Hd] E. apply findDesired_host in E as [Hin Eh]. rewrite Forall_forall in Hd.
  split_and!; [|done|done|]. { by apply Hd, list_elem_of_In. }
  intros other Ho Eo. eapply (NoDup_map_inj dr_hostId); [exact Hn|done|done|congruence].
Qed.
Lemma checked_doc hostId o row d : checkedDocument hostId o row = Ok d -> d = dr_docJson row.
Proof.
  unfold checkedDocument. destruct (validateStoredHostDesiredState _ _ _); cbn [result_bind]; [|done]. destruct (_ || _); [done|]. congruence.
Qed.
Lemma insertDocument_state row s s' inserted :
  insertDocument row s = (s', inserted) -> ds_vms (dr_docJson row) = [] -> ending_wf s ->
  ending_wf s' /\ (forall h q, unasked h q s -> unasked h q s') /\
  (inserted = true -> forall other, In other (eb_desired s') -> dr_hostId other = dr_hostId row -> other = row).
Proof.
  unfold insertDocument, insertDesired. destruct (existsb _ _) eqn:Ex; intros [= <- <-] Hv [H1 H2 H3]; cbn [set_desired dd_rows eb_desired endingDocuments].
  - split_and!; [by split|by auto|done].
  - assert (Hnew : forall x, In x (eb_desired s) -> dr_hostId x <> dr_hostId row).
    { intros x Hx E. apply not_true_iff_false in Ex. apply Ex, existsb_exists. exists x. split; [done|]. by apply String.eqb_eq. }
    split_and!.
    + split; cbn [set_desired eb_store eb_desired]; [done| |].
      * rewrite map_app. apply NoDup_app. split_and!; [done| |apply NoDup_singleton]. intros x Hx Hr%list_elem_of_singleton. subst x.
        apply list_elem_of_In, in_map_iff in Hx as (y & Ey & Hy). by apply (Hnew y).
      * apply Forall_app. split; [done|]. constructor; [|constructor]. unfold doc_ok. rewrite Hv. constructor.
    + intros h q Hu x Hx Eh. apply in_app_iff in Hx as [Hx|[<-|[]]]; [by apply Hu|]. intros v Hin. by rewrite Hv in Hin.
    + intros _ x Hx Eh. apply in_app_iff in Hx as [Hx|[->|[]]]; [by destruct (Hnew x)|done].
Qed.
Lemma updated_from {A} (p : A -> bool) f l y : In y (update_where p f l) -> exists x, In x l /\ y = if p x then f x else x.
Proof. unfold update_where. intros (x & <- & Hx)%in_map_iff. eauto. Qed.
Lemma storeDocument_state hostId now version next s s' hit :
  storeDocument hostId now version next s = (s', hit) -> doc_ok next -> ending_wf s ->
  ending_wf s' /\ (forall h q, unasked h q s -> (hostId = h -> quiet q next) -> unasked h q s') /\
  (hit = true -> forall q, quiet q next -> unasked hostId q s').
Proof.
  unfold storeDocument. intros [= <- <-] Hok [H1 H2 H3]. cbn [set_desired eb_desired].
  assert (Hrow : forall row, In row (update_where (writeHits hostId None (endingDocuments s) version) (writeDesired now next) (eb_desired s)) ->
    In row (eb_desired s) \/ (dr_hostId row = hostId /\ dr_docJson row = next)).
  { intros row Hin. apply updated_from in Hin as (r & Hr & ->). destruct (writeHits _ _ _ _ r) eqn:E; [|by left].
    right. split; [|done]. unfold writeHits in E. cbn. reflect_bools. done. }
  split_and!.
  - split; cbn [set_desired eb_store eb_desired]; [done| |].
    + by rewrite map_update_where.
    + apply Forall_forall. intros row Hin%list_elem_of_In. apply Hrow in Hin as [Hin|[_ ->]]; [|done].
      rewrite Forall_forall in H3. by apply H3, list_elem_of_In.
  - intros h q Hu Hq row Hin Eh. apply Hrow in Hin as [Hin|[E ->]]; [by apply Hu|]. apply Hq. congruence.
  - intros Hx q Hq row Hin Eh. apply existsb_exists in Hx as (r & Hr & Hh).
    apply updated_from in Hin as (r' & Hr' & ->). assert (r' = r) as ->.
    { eapply (NoDup_map_inj dr_hostId); [exact H2|done|done|]. unfold writeHits in Hh. reflect_bools.
      destruct (writeHits _ _ _ _ r'); cbn in Eh; congruence. }
    by rewrite Hh.
Qed.

Section settled.
Context {I : EndingDb -> Prop}.

(** A request that keeps [I], and what it answers with. *)
Definition settled {A} (Q : A -> Prop) (p : Req EndCall EndingDb A) : Prop :=
  forall s, secures I anyhow anyhow (fun _ a => Q a) s p.
Definition whatever {A} (_ : A) : Prop := True.

Lemma settled_weaken {A} (Q Q' : A -> Prop) p : (forall a, Q a -> Q' a) -> settled Q p -> settled Q' p.
Proof. intros HQ Hp s. eapply secures_weaken; [|apply Hp]. auto. Qed.
Lemma settled_seq {A B} (P : A -> Prop) (Q : B -> Prop) (p : Req EndCall EndingDb A) k :
  settled P p -> (forall a, P a -> settled Q (k a)) -> settled Q (req_bind p k).
Proof. intros Hp Hk s. eapply secures_seq; [apply Hp|]. intros s' a Ha. by apply Hk. Qed.
Lemma settled_bind {A B} (Q : B -> Prop) (p : Req EndCall EndingDb A) k :
  settled whatever p -> (forall a, settled Q (k a)) -> settled Q (req_bind p k).
Proof. intros Hp Hk. eapply settled_seq; [exact Hp|auto]. Qed.
Lemma settled_done {A} (Q : A -> Prop) a : Q a -> settled Q (Done a).
Proof. intros Ha s. exact Ha. Qed.
Lemma settled_try {A B} (Q : result EndError B -> Prop) (p : Ending A) k :
  settled whatever p -> (forall a, settled Q (k a)) -> (forall e, Q (Err e)) -> settled Q (req_try p k).
Proof. intros Hp Hk He. apply settled_bind; [exact Hp|]. intros [a|e]; [apply Hk|by apply settled_done]. Qed.
Lemma settled_query {B} (Q : B -> Prop) (g : EndingDb -> B) : (forall s, I s -> Q (g s)) -> settled Q (query g).
Proof. intros Hg s. apply secures_query; [done|]. auto. Qed.
Lemma settled_call {B} (Q : B -> Prop) (c : EndCall B) : (forall b, Q b) -> settled Q (call c).
Proof. intros Hb s. by apply secures_call. Qed.
Lemma settled_step {B} (f : EndingDb -> EndingDb * B) : (forall s, I s -> I (fst (f s))) -> settled whatever (transaction f).
Proof. intros Hf s. apply secures_transaction. intros s1 Hi _. split_and!; [by apply Hf|done|done]. Qed.
Lemma lift_settled {A} (r : result StoreError A) : settled whatever (end_lift r).
Proof. by apply settled_done. Qed.

(** ** Requests that only free slots and revoke routes *)

Lemma revokeEach_settled (revoke : string -> EndCall (result EndError ())) routes : settled whatever (revokeEach revoke routes).
Proof.
  induction routes as [|x rest IH]; cbn [revokeEach]; [by apply settled_done|]. apply settled_bind; [by apply settled_call|].
  intros r. apply settled_bind; [exact IH|]. intros. by apply settled_done.
Qed.
Lemma revoke_settled runId state : settled whatever (revokeScenarioRunRoutes runId state).
Proof.
  unfold revokeScenarioRunRoutes. apply settled_bind; [apply revokeEach_settled|]. intros [|]; by apply settled_done.
Qed.

Hypothesis frees : forall executionId t s, I s -> I (fst (freeRuntimeSlot executionId t s)).
Lemma releaseSlot_settled executionId now : settled whatever (releaseSlot executionId now).
Proof.
  unfold releaseSlot. apply settled_bind; [by apply settled_query|]. intros read. apply settled_try; [apply lift_settled| |done].
  intros execution. apply settled_try; [apply lift_settled| |done]. intros t. apply settled_bind; [apply settled_step, frees|].
  intros out. apply settled_try; [apply lift_settled| |done]. intros total. apply settled_bind; [by apply settled_query|].
  intros raced. apply lift_settled.
Qed.
Lemma afterUpdate_settled runId executionId release p : settled whatever (afterUpdate runId executionId release p).
Proof.
  unfold afterUpdate. apply settled_try; [destruct (_ && _); [by apply settled_call|by apply settled_done]| |done]. intros _.
  apply settled_try; [|intros _; by apply settled_done|done].
  destruct (executionId ≫= or_null) as [e|]; [|by apply settled_done].
  destruct (leavesSlot release p); [apply releaseSlot_settled|by apply settled_done].
Qed.

Hypothesis commits : forall runId updatedAt p s, I s -> I (fst (commitUpdate runId updatedAt p s)).
Lemma updateRunState_settled runId mutate d release : settled whatever (updateRunState runId mutate d release).
Proof.
  unfold updateRunState. generalize MAX_UPDATE_ATTEMPTS as left. induction left as [|left IH]; [by apply settled_done|].
  cbn [updateRunStateFrom]. apply settled_bind; [by apply settled_query|]. intros [row|]; [|by apply settled_done].
  apply settled_bind; [by apply settled_call|]. intros clock. apply settled_bind; [apply settled_step, commits|].
  intros out. apply settled_try; [apply lift_settled| |done]. intros [|]; [apply afterUpdate_settled|exact IH].
Qed.
End settled.
Arguments settled I {A} Q p.

Section calm.
Context `{Collation}.
Variable h : string.
Variable q : DesiredVm -> bool.
Hypothesis Hq : by_identity q.
#[local] Abbreviation settles := (settled (calm h q)).

(** ** Documents *)

Definition ok_doc (hostId : string) (r : result EndError HostDesiredState) : Prop :=
  match r with Ok d => good_doc h q hostId d | Err _ => True end.
Lemma load_settled hostId now : settles (ok_doc hostId) (loadDocument hostId now).
Proof.
  unfold loadDocument. apply settled_bind; [by apply settled_query|]. intros [o|e]; [|by apply settled_done].
  generalize MUTATE_DESIRED_STATE_MAX_ATTEMPTS as left. induction left as [|left IH]; [by apply settled_done|]. cbn [loadDocumentFrom].
  apply (settled_seq (fun row => match row with Some r => good_doc h q hostId (dr_docJson r) | None => True end)).
  - apply settled_query. intros s [Hwf Hu]. destruct (findDesired _ _) as [row|] eqn:E; [|done].
    destruct (findDesired_stored _ _ _ Hwf E) as (? & Hin & Eh & _). split; [done|]. intros <-. by apply Hu.
  - intros [r|] Hrow.
    + destruct (checkedDocument hostId o r) as [d|e] eqn:E; apply settled_done; [|done]. apply checked_doc in E as ->. exact Hrow.
    + apply settled_bind.
      * intros s. apply secures_transaction. intros s1 [Hwf Hu] _. destruct (insertDocument _ _) as [s' i] eqn:E.
        apply insertDocument_state in E as (Hwf' & Hk & _); [|done|done]. split_and!; [split; auto|done|done].
      * intros [|]; [|exact IH]. apply settled_done. split; [constructor|by intros _ v []].
Qed.
Lemma mutate_settled hostId now m q' initial :
  absenting q' m -> by_identity q' -> (forall d, initial = Some d -> good_doc h q hostId d) ->
  settles (ok_doc hostId) (mutateDocument hostId now m initial).
Proof.
  intros Hm Hq'. unfold mutateDocument. generalize MUTATE_DESIRED_STATE_MAX_ATTEMPTS as left. intros left. revert initial.
  induction left as [|left IH]; intros initial Hi; [by apply settled_done|]. cbn [mutateDocumentFrom].
  apply (settled_seq (ok_doc hostId)).
  { destruct initial as [d|]; [|apply load_settled]. destruct (_ =s _); [apply settled_done; by apply Hi|apply load_settled]. }
  intros [current|e] Hc; [|by apply settled_done]. destruct Hc as [Hok Hquiet].
  destruct (mutateDesiredState current m now) as [[next|]|e] eqn:E; [|by apply settled_done|by apply settled_done].
  destruct (absenting_outcome q' m current now _ Hm Hq' Hok E) as (Hnext & _ & Hkeep). cbn [outcomeOf nullish] in *.
  assert (Hgood : good_doc h q hostId next) by (split; auto).
  apply settled_bind.
  - intros s. apply secures_transaction. intros s1 [Hwf Hu] _. destruct (storeDocument _ _ _ _ _) as [s' hit] eqn:Ew.
    apply storeDocument_state in Ew as (Hwf' & Hk & _); [|done|done]. split_and!; [split; [done|]|done|done].
    apply Hk; [done|]. apply Hgood.
  - intros [|]; [by apply settled_done|]. by apply IH.
Qed.

(** ** Runs *)

Lemma update_settled runId mutate d release : settles whatever (updateRunState runId mutate d release).
Proof. apply updateRunState_settled; intros; (apply calm_kept; [|done]); [apply freeRuntimeSlot_store|apply commitUpdate_store]. Qed.
Lemma step_settled {B} (f : EndingDb -> EndingDb * B) : store_only f -> settles whatever (transaction f).
Proof. intros Hf. apply settled_step. intros x. by apply calm_kept. Qed.
Lemma accept_settled row userId d at_ : settles whatever (acceptTeardown row userId d at_).
Proof.
  unfold acceptTeardown. destruct (negb _).
  - apply settled_try; [apply update_settled|intros _; by apply settled_done|done].
  - apply settled_bind; [apply step_settled, recordDeletion_store|]. intros _. by apply settled_done.
Qed.
Lemma finish_settled wake row userId d cleanupId :
  (forall host, settles whatever (wake host)) -> settles whatever (finishTeardown wake row userId d cleanupId).
Proof.
  intros Hw. unfold finishTeardown. apply settled_bind; [apply revoke_settled|]. intros revoked. apply settled_bind; [apply Hw|].
  intros _. destruct revoked as [[]|e]; [|by apply settled_done]. apply settled_try; [|intros _|done].
  - apply settled_bind; [apply update_settled|]. intros [?|?]; by apply settled_done.
  - apply settled_bind; [by apply settled_query|]. intros [row'|]; [|by apply settled_done].
    apply settled_bind; [apply step_settled, completeCleanup_store|]. intros _. by apply settled_done.
Qed.
End calm.

(** * What requests bring about *)

Definition cleared (hostId : string) (q : DesiredVm -> bool) (s : EndingDb) (r : result EndError HostDesiredState) : Prop :=
  match r with Ok d => doc_ok d /\ quiet q d /\ unasked hostId q s | Err _ => True end.

Section clearing.
Context `{Collation}.
Variable hostId : string.
Variable now : Z.
(** A loaded document is the one that is stored. *)
Definition loaded (s : EndingDb) (r : result EndError HostDesiredState) : Prop :=
  match r with
  | Ok d => doc_ok d /\ forall row, In row (eb_desired s) -> dr_hostId row = hostId -> dr_docJson row = d
  | Err _ => True
  end.
Lemma load_secures s : secures ending_wf anyhow anyhow loaded s (loadDocument hostId now).
Proof.
  unfold loadDocument. eapply (secures_seq _ _ _ (fun _ _ => True)); [by apply secures_query|]. clear s. intros s [o|e] _; [|done].
  revert s. generalize MUTATE_DESIRED_STATE_MAX_ATTEMPTS as left. induction left as [|left IH]; intros s; [done|]. cbn [loadDocumentFrom].
  eapply (secures_seq _ _ _ (fun s' row => match row with
    | Some r => doc_ok (dr_docJson r) /\ forall x, In x (eb_desired s') -> dr_hostId x = hostId -> x = r | None => True end)).
  - apply secures_query; [done|]. intros s1 Hwf _. destruct (findDesired _ _) as [row|] eqn:E; [|done].
    destruct (findDesired_stored _ _ _ Hwf E) as (? & _ & _ & ?). by split.
  - clear s. intros s [r|] Hrow.
    + destruct (checkedDocument hostId o r) as [d|e] eqn:E; [|done]. apply checked_doc in E as ->. destruct Hrow as [? Hx].
      split; [done|]. intros row Hin Eh. by rewrite (Hx row).
    + eapply (secures_seq _ _ _ (fun s' (inserted : bool) => inserted = true -> forall x, In x (eb_desired s') -> dr_hostId x = hostId ->
        dr_docJson x = createEmptyHostDesiredState hostId (fst o) (snd o) now)).
      * apply secures_transaction. intros s1 Hwf _. destruct (insertDocument _ _) as [s' i] eqn:E.
        apply insertDocument_state in E as (Hwf' & _ & Hx); [|done|done]. split_and!; [done|done|].
        cbn. intros -> x Hin Eh. by rewrite (Hx eq_refl x).
      * clear s. intros s [|] Hx; [|apply IH]. split; [constructor|auto].
Qed.

Variable m : HostDesiredState -> HostDesiredState.
Variable q : DesiredVm -> bool.
Hypothesis Hm : absenting q m.
Hypothesis Hq : by_identity q.
(** [initial] is no stored document when it still asks for one of the VMs. *)
Lemma mutate_secures initial s :
  (forall d, initial = Some d -> doc_ok d /\ ~ quiet q d) ->
  secures ending_wf anyhow anyhow (cleared hostId q) s (mutateDocument hostId now m initial).
Proof.
  unfold mutateDocument. generalize MUTATE_DESIRED_STATE_MAX_ATTEMPTS as left. intros left. revert initial s.
  induction left as [|left IH]; intros initial s Hi; [done|]. cbn [mutateDocumentFrom].
  eapply (secures_seq _ _ _ (fun s' r => match r with Ok d => doc_ok d /\ (quiet q d -> unasked hostId q s') | Err _ => True end)).
  - assert (Hload : secures ending_wf anyhow anyhow (fun s' r => match r with Ok d => doc_ok d /\ (quiet q d -> unasked hostId q s') | Err _ => True end)
              s (loadDocument hostId now)).
    { eapply secures_weaken; [|apply load_secures]. intros s' [d|e]; [|done]. intros [Hok Hx]. split; [done|].
      intros Hquiet row Hin Eh. by rewrite (Hx row). }
    destruct initial as [d|]; [|exact Hload]. destruct (_ =s _); [|exact Hload]. destruct (Hi d eq_refl) as [Hok Hn]. by split.
  - clear s. intros s [current|e]; [|done]. intros [Hok Hx]. cbn [req_bind].
    destruct (mutateDesiredState current m now) as [[next|]|e] eqn:E; [| |done];
      destruct (absenting_outcome q m current now _ Hm Hq Hok E) as (Hnext & Hquiet & _); cbn [outcomeOf nullish] in *.
    + eapply (secures_seq _ _ _ (fun s' (hit : bool) => hit = true -> unasked hostId q s')).
      * apply secures_transaction. intros s1 Hwf _. destruct (storeDocument _ _ _ _ _) as [s' hit] eqn:Ew.
        apply storeDocument_state in Ew as (Hwf' & _ & Hhit); [|done|done]. split_and!; [done|done|]. cbn. auto.
      * intros s2 [|] Hs; [split_and!; auto|by apply IH].
    + split_and!; auto.
Qed.
End clearing.

Lemma freeRuntimeSlot_released runId executionId t s : released runId s -> released runId (fst (freeRuntimeSlot executionId t s)).
Proof.
  unfold freeRuntimeSlot. intros Hr. destruct (batch _ _) as [[db ch]|c] eqn:E; [|done]. cbn [batch clearActiveKey deleteSlot result_bind fst snd] in E.
  simplify_eq. unfold released in *. cbn. intros r Hin Er. apply updated_from in Hin as (x & Hx & ->). destruct (_ && _); [done|]. auto.
Qed.
Lemma commit_released runId updatedAt p s s' :
  ending_wf s -> commitUpdate runId updatedAt p s = (s', Ok true) -> pj_activeKey p = None -> released runId s'.
Proof.
  intros Hwf E Hp. apply commit_runs in E as [E Hhit]. rewrite count_where_zero in Hhit.
  symmetry in Hhit. apply existsb_exists in Hhit as (x & Hx & Ex). intros r Hin Er. rewrite E in Hin. apply updated_from in Hin as (y & Hy & ->).
  assert (y = x) as ->; [|by rewrite Ex].
  reflect_bools. eapply (NoDup_map_inj sr_runId); [exact (wf_run_ids _ (ew_store _ Hwf))|done|done|].
  destruct (_ && _) in Er; cbn in Er; congruence.
Qed.

Definition keeps_released (runId : string) (x y : EndingDb) : Prop := True /\ (released runId x -> released runId y).
(** A slot that is released stays so. *)
Lemma update_releases runId mutate d s :
  secures ending_wf (keeps_released runId) anyhow (fun s' r => match r with Ok _ => released runId s' | Err _ => True end)
    s (updateRunState runId mutate d true).
Proof.
  unfold updateRunState. generalize MAX_UPDATE_ATTEMPTS as left. intros left. revert s. induction left as [|left IH]; intros s; [done|].
  cbn [updateRunStateFrom].
  eapply (secures_seq _ _ _ (fun s' row => row = None -> released runId s')).
  { apply secures_query; [done|]. intros s1 _ _ Hn r Hin Er. unfold loadRunRow in Hn. exfalso.
    eapply List.find_none in Hn; [|exact Hin]. apply andb_false_iff in Hn as [Hn|Hn]; [|done]. apply String.eqb_neq in Hn. done. }
  clear s. intros s [row|]; [intros _|intros Hs; by apply Hs].
  eapply (secures_seq _ _ _ (fun _ _ => True)); [by apply secures_call|]. clear s. intros s clock _.
  eapply (secures_seq _ _ _ (fun s' out => out = Ok true -> released runId s')).
  { apply secures_transaction. intros s1 Hwf _. destruct (commitUpdate _ _ _ _) as [s' out] eqn:E.
    split_and!; [|done|].
    - change s' with (fst (s', out)). rewrite <-E. by apply (calm_kept _ "" (fun _ => false) s1 (commitUpdate_store _ _ _)).
    - cbn. intros ->. eapply commit_released; [exact Hwf|exact E|done]. }
  clear s. intros s [[|]|e] Hs; [|apply IH|done]. cbn [end_lift req_try req_bind].
  eapply secures_weaken; [|apply secures_holding; [by apply Hs|]].
  { intros s' [t|e] [? _]; done. }
  apply (afterUpdate_settled (I := fun x => ending_wf x /\ released runId x)).
  intros e t x [Hwf Hr]. split; [|by apply freeRuntimeSlot_released].
  by apply (calm_kept _ "" (fun _ => false) x (freeRuntimeSlot_store e t)).
Qed.
