(* ===== verification/RunEndingSample.v ===== *)
(** The run that [AdmissionSample] starts, on the tables of run endings: the concrete
    inputs of the theorems about ending runs. *)
From stdpp Require Import base gmap list strings.
From Stdlib Require Import ZArith Lia.
From S2P Require Import Prelude Json RunState RunLifecycle RunView Store RuntimeExecutions RunProjection DesiredState CpuReservations Access Placement RunNames Requests AdmissionStore AdmissionRequests AdmissionSample RunEndingStore RunEndingRequests RunEndingSafety.

Open Scope string_scope.
Open Scope list_scope.
Open Scope Z_scope.

Module EndingSample.
Definition admission : AdmDb := fst (answered AdmissionSample.answer (AdmissionSample.start 0 "learner") AdmissionSample.store).
(** The run is shared and saved one artifact. *)
Definition started : EndingDb :=
  mkEnding (am_db admission) (cd_desired (am_cpu admission)) (am_access admission) ∅ {["0-0" := "share"]} []
    [mkStorageRecord "0-0" "runs/0-0/console" (Some "upload") "uploaded"] [].
Definition document : HostDesiredState :=
  nullish (option_map dr_docJson (head (eb_desired started))) (createEmptyHostDesiredState "host" scope_platform "owner" 0).
(** The other components answer, and the clock stands at 2000. *)
Definition answer (B : Type) (c : EndCall B) : B :=
  match c with
  | EndClock => 2000
  | DeleteRoute _ | RecordCompletion _ _ | StopShare _ _ | AbortUpload _ _ | DeleteObjects _ | RetireHost _ | WakeRemovedHost _ => Ok ()
  | WakeHost _ | RunChanged _ => ()
  end.
Definition torn : Ending RunRow := destroyScenarioRunForUser "cleanup" "0-0" "learner".
(** All VMs of the run are archived. *)
Definition archive (r : RunRow) : RunRow :=
  writeProjection (updateOf (fun d => RunLifecycle.with_vms (with_run_phase d run_completed "Completed" "")
    (map (fun vm => with_vm_outcome vm vm_completed "" term_failed None) (run_vms d))) None false 3000 r) r.
Definition finished : EndingDb := set_store started (set_runs (eb_store started) (map archive (db_runs (eb_store started)))).

Ltac decided := apply (bool_decide_unpack _); vm_compute; exact I.
Lemma started_wf : ending_wf started.
Proof. split; [split; decided| |]; decided. Qed.
Lemma finished_wf : ending_wf finished.
Proof. split; [split; decided| |]; decided. Qed.
End EndingSample.
