(* ===== verification/RunEndingResults.v ===== *)
(** What a request that ends a run has done when it succeeds, whatever the other
    requests do that it relies on. *)
From stdpp Require Import base gmap list strings.
From Stdlib Require Import ZArith Lia.
From S2P Require Import Prelude Json RunState RunView Store RuntimeExecutions RunProjection DesiredState Access Placement RunNames Requests RouteRevocation Interference RunEndingStore RunEndingRequests RunEndingSafety RunEndingSample.

Open Scope string_scope.
Open Scope list_scope.
Open Scope Z_scope.
Open Scope req_scope.

(** * Segments of a run *)

(** What others do between two accesses: they keep the tables sound, and do not ask
    again for the VMs of [q] on the host. *)
Definition calming (hostId : string) (q : DesiredVm -> bool) (others : EndingDb -> EndingDb -> Prop) : Prop :=
  forall x y, others x y -> ending_wf x -> ending_wf y /\ (unasked hostId q x -> unasked hostId q y).

Section segments.
Context `{Collation}.
Variable others : EndingDb -> EndingDb -> Prop.
Variable h : string.
Variable q : DesiredVm -> bool.
Hypothesis Ho : calming h q others.
Hypothesis Hq : by_identity q.

Lemma others_calm x y : others x y -> calm h q x -> calm h q y.
Proof. intros Hxy [Hwf Hu]. destruct (Ho x y Hxy Hwf) as [? Hk]. split; auto. Qed.
Lemma settled_runs {A} (Q : A -> Prop) p s calls s' a :
  settled (calm h q) Q p -> calm h q s -> runs others p s calls s' a -> calm h q s' /\ Q a.
Proof.
  intros Hp Hs H0. eapply (runs_secures _ anyhow anyhow _ (fun _ => Q)); [|exact Hs|apply Hp|exact H0].
  intros x y Hxy Hx. split; [by eapply others_calm|done].
Qed.
Lemma step_runs {B} (f : EndingDb -> EndingDb * B) s calls s' b :
  store_only f -> calm h q s -> runs others (transaction f : Req EndCall EndingDb B) s calls s' b -> calm h q s'.
Proof. intros Hf Hs H0. eapply proj1, settled_runs; [by apply step_settled|exact Hs|exact H0]. Qed.
Lemma update_runs runId mutate d release s calls s' r :
  calm h q s -> runs others (updateRunState runId mutate d release) s calls s' r -> calm h q s'.
Proof. intros Hs H0. eapply proj1, settled_runs; [apply update_settled|exact Hs|exact H0]. Qed.
Lemma revoke_runs runId state s calls s' r :
  calm h q s -> runs others (revokeScenarioRunRoutes runId state) s calls s' r -> calm h q s'.
Proof. intros Hs H0. eapply proj1, settled_runs; [apply revoke_settled|exact Hs|exact H0]. Qed.
(** The VMs that an edit of the host's document leaves are no longer asked for. *)
Lemma mutate_runs now m initial s calls s' d :
  absenting q m -> (forall d0, initial = Some d0 -> doc_ok d0 /\ ~ quiet q d0) -> ending_wf s ->
  runs others (mutateDocument h now m initial) s calls s' (Ok d) -> calm h q s' /\ doc_ok d /\ quiet q d.
Proof.
  intros Hm Hi Hs H0.
  assert (ending_wf s' /\ cleared h q s' (Ok d)) as (Hwf & Hok & Hd & Hu); [|exact (conj (conj Hwf Hu) (conj Hok Hd))].
  eapply (runs_secures ending_wf anyhow anyhow); [|exact Hs|by apply mutate_secures|exact H0].
  intros x y Hxy Hx. by destruct (Ho x y Hxy Hx).
Qed.
End segments.

Definition nothing (_ : DesiredVm) : bool := false.
Lemma calm_nothing h s : ending_wf s -> calm h nothing s.
Proof. intros Hwf. by split. Qed.
Lemma calming_nothing h q others : calming h q others -> calming h nothing others.
Proof. intros Ho x y Hxy Hx. by destruct (Ho x y Hxy Hx). Qed.

(** Routes that were asked to be revoked, and all were. *)
Definition revokedIn (calls : list {B : Type & (EndCall B * B)%type}) (runId : string) (state : RunStateDocument) : Prop :=
  forall route, In route (scenarioRunRoutes runId state) -> In (existT _ (DeleteRoute route, Ok tt)) calls.
Lemma revoked_routes others runId state s calls s' :
  runs others (revokeScenarioRunRoutes runId state) s calls s' (Ok tt) -> s' = s /\ revokedIn calls runId state.
Proof.
  intros H0. unfold revokeScenarioRunRoutes in H0. apply runs_bind in H0 as (c1 & c2 & s1 & fs & -> & H1 & H2).
  destruct fs as [|f fs]; apply runs_inv in H2 as (-> & -> & E); [|done]. rewrite app_nil_r.
  split; [by eapply revoked_state|]. intros route Hin.
  destruct (revoked_all _ _ _ _ _ _ _ H1 route Hin) as (answer & Hin' & Ha). by rewrite Ha in Hin'.
Qed.

Lemma runs_orStop {N A} others (n n' : N) (p : Ending A) k s calls s' a :
  runs others (orStop n p k) s calls s' (n', Ok a) ->
  exists calls1 calls2 s1 x, calls = calls1 ++ calls2 /\ runs others p s calls1 s1 (Ok x) /\ runs others (k x) s1 calls2 s' (n', Ok a).
Proof.
  intros H0. apply runs_bind in H0 as (c1 & c2 & s1 & [x|e] & -> & H1 & H2); [eauto 10|]. by apply runs_inv in H2 as (_ & _ & E).
Qed.
Lemma loaded_run s runId userId row : loadRunRow s runId userId = Some row -> In row (db_runs (eb_store s)) /\ sr_runId row = runId.
Proof. intros E. apply List.find_some in E as [Hin E]. reflect_bools. done. Qed.

(** * Ending a run *)

Section teardown.
Context `{Collation}.
Variable others : EndingDb -> EndingDb -> Prop.
Variable runId : string.
(** Others do not ask again for VMs of a run that is being ended, nor give it a slot. *)
Record leaves_ended : Prop := mk_leaves_ended {
  le_calm : forall hostId vmNames, calming hostId (vmsOf runId vmNames) others;
  le_released : forall x y, others x y -> released runId x -> released runId y;
}.
Hypothesis Ho : leaves_ended.

Definition absentVms (row : RunRow) : list string := map vm_runtimeVmName (runVmsRequiringDesiredAbsence (stateOf row)).
Definition endedVms (row : RunRow) : DesiredVm -> bool := vmsOf runId (absentVms row).
#[local] Abbreviation quietly row := (calm (sr_hostId row) (endedVms row)).

Lemma mark_runs row at_ s calls s' :
  ending_wf s -> runs others (markTeardown markRunVmsAbsentInDesiredState row at_ tt) s calls s' (Ok tt) ->
  sr_runId row = runId -> quietly row s'.
Proof.
  intros Hwf H0 Er. unfold markTeardown, endedVms, absentVms in *. destruct (runVmsRequiringDesiredAbsence (stateOf row)) as [|vm vms].
  { apply runs_inv in H0 as (_ & -> & _). by apply calm_nothing. }
  rewrite Er in H0. revert H0. generalize (map vm_runtimeVmName (vm :: vms)) as names. intros names H0.
  unfold orUnavailable in H0. apply runs_bind in H0 as (c1 & c2 & s1 & x & -> & H1 & H2).
  destruct x as [[]|e]; apply runs_inv in H2 as (_ & -> & E); [clear E|done].
  unfold markRunVmsAbsentInDesiredState in H1. destruct names as [|n names].
  { apply runs_inv in H1 as (_ & -> & _). by apply calm_nothing. }
  apply runs_try in H1 as [(e & E & _)|(c & c' & s2 & d & _ & Hm & H1)]; [done|]. apply runs_inv in H1 as (_ & -> & _).
  eapply mutate_runs in Hm as [Hc _]; [exact Hc|apply (le_calm Ho)|apply vmsOf_by_identity|apply markAllAbsent_absenting|done|exact Hwf].
Qed.
Lemma release_runs mutate d s calls s' t :
  ending_wf s -> runs others (updateRunState runId mutate d true) s calls s' (Ok t) -> released runId s'.
Proof.
  intros Hwf H0. refine (proj2 (runs_secures ending_wf (keeps_released runId) anyhow others
    (fun s' r => match r with Ok _ => released runId s' | Err _ => True end) _ _ _ _ _ _ Hwf (update_releases _ _ _ s) H0)).
  intros x y Hxy Hx. split; [by destruct (le_calm Ho "" [] x y Hxy Hx)|]. split; [done|]. by apply (le_released Ho).
Qed.
Lemma finish_runs row userId d cleanupId s calls s' accepted :
  sr_runId row = runId -> quietly row s -> runs others (finishTeardown (fun hostId => call (WakeHost hostId)) row userId d cleanupId) s calls s' (Ok accepted) ->
  quietly row s' /\ released runId s' /\ revokedIn calls runId (stateOf row).
Proof.
  intros Er Hs H0. unfold finishTeardown in H0. rewrite Er in H0. pose proof (le_calm Ho (sr_hostId row) (absentVms row)) as Hc.
  apply runs_bind in H0 as (c1 & c2 & s1 & revoked & -> & H1 & H0). eapply revoke_runs in Hs as Hs1; [|exact Hc|exact H1].
  apply runs_inv in H0 as ([] & c3 & -> & H0). cbn [req_bind] in H0. destruct revoked as [[]|e]; [|by apply runs_inv in H0 as (_ & _ & E)].
  apply revoked_routes in H1 as [_ H1]. apply runs_try in H0 as [(e & E & _)|(c4 & c5 & s2 & t & -> & H2 & H0)]; [done|].
  unfold orUnavailable in H2. apply runs_bind in H2 as (c6 & c7 & s3 & x & -> & H2 & H3).
  eapply update_runs in Hs1 as Hs3; [|exact Hc|exact H2].
  destruct x as [t'|e]; apply runs_inv in H3 as (-> & -> & E); [|done]. clear E. apply release_runs in H2; [|by destruct Hs1].
  apply runs_inv in H0 as (s4 & Ho4 & H0). cbn [fst snd req_bind] in H0.
  apply (others_calm _ _ _ Hc _ _ Ho4) in Hs3. apply (le_released Ho _ _ Ho4) in H2.
  destruct (loadRunRow _ _ _) as [row'|]; [|by apply runs_inv in H0 as (_ & _ & E)].
  apply runs_inv in H0 as (s5 & Ho5 & H0). cbn [fst snd req_bind] in H0. apply runs_inv in H0 as (-> & -> & _).
  apply (others_calm _ _ _ Hc _ _ Ho5) in Hs3. apply (le_released Ho _ _ Ho5) in H2. split_and!.
  - exact (calm_kept _ _ _ _ (completeCleanup_store _ _) Hs3).
  - intros r Hr. unfold completeCleanup in Hr. apply H2. by case_bool_decide.
  - intros route Hin. apply in_app_iff. left. auto.
Qed.
End teardown.

(** C9. A teardown that is accepted is complete. *)
Theorem accepted_teardown_is_complete `{Collation} others newCleanupId runId userId s calls s' accepted
  (Ho : leaves_ended others runId) (Hwf : ending_wf s)
  (Hrun : runs others (destroyScenarioRunForUser newCleanupId runId userId) s calls s' (Ok accepted)) :
  exists s0 row, others s s0 /\ loadRunRow s0 runId (Some userId) = Some row /\
    unasked (sr_hostId row) (endedVms runId row) s' /\ released runId s' /\ revokedIn calls runId (stateOf row).
Proof.
  pose proof (le_calm _ _ Ho "" []) as Hc0. pose proof (calm_nothing "" s Hwf) as Hs. apply calming_nothing in Hc0 as Hn.
  unfold destroyScenarioRunForUser in Hrun. apply runs_bind in Hrun as (calls1 & c & s1 & [n r] & -> & Hrun & Hr).
  apply runs_inv in Hr as (-> & -> & Er). cbn [snd] in Er. subst r. rewrite app_nil_r. unfold destroyScenarioRunForUserWithDependencies in Hrun.
  apply runs_inv in Hrun as (s0 & Ho0 & Hrun). cbn [fst snd req_bind] in Hrun. exists s0.
  apply (others_calm _ _ _ Hn _ _ Ho0) in Hs.
  destruct (loadRunRow s0 runId (Some userId)) as [row|] eqn:Erow; [|by apply runs_inv in Hrun as (_ & _ & E)].
  exists row. split; [done|]. split; [done|]. apply loaded_run in Erow as [_ Er].
  apply runs_inv in Hrun as (acceptedAt & c2 & -> & Hrun). cbn [req_bind] in Hrun.
  apply runs_inv in Hrun as (s2 & Ho2 & Hrun). cbn [req_bind] in Hrun. apply (others_calm _ _ _ Hn _ _ Ho2) in Hs.
  apply (calm_kept _ _ _ _ (requestCleanup_store (sr_hostId row) [sr_runId row] newCleanupId acceptedAt)) in Hs as [Hs _].
  destruct (snd (requestCleanup _ _ _ _ _)) as [|cleanup cleanups]; [by apply runs_inv in Hrun as (_ & _ & E)|].
  apply runs_orStop in Hrun as (c3 & c4 & s3 & [] & -> & H1 & Hrun). eapply settled_runs in H1 as [[H1 _] _]; [|exact Hn|apply accept_settled|by apply calm_nothing].
  apply runs_orStop in Hrun as (c5 & c6 & s4 & [] & -> & H2 & Hrun). eapply mark_runs in H2; [|exact Ho|exact H1|exact Er].
  apply runs_orStop in Hrun as (c7 & c8 & s5 & x & -> & H3 & Hrun). eapply finish_runs in H3 as ([_ Hu] & Hreleased & Hroutes); [|exact Ho|exact Er|exact H2].
  apply runs_inv in Hrun as (-> & -> & _). split; [exact Hu|]. split; [exact Hreleased|].
  intros route Hin. right. apply in_app_iff. right. apply in_app_iff. right. apply in_app_iff. left. auto.
Qed.

(** * Overdue leases *)

Section leases.
Context `{Collation}.
Variable others : EndingDb -> EndingDb -> Prop.
Variables hostId runId vmName : string.
Variable now : Z.
#[local] Abbreviation q := (vmsOf runId [vmName]).
Hypothesis Ho : calming hostId q others.

Lemma vmsOf_sub vmNames v : In vmName vmNames -> q v = true -> vmsOf runId vmNames v = true.
Proof.
  intros Hin Hv. unfold vmsOf in *. cbn [existsb] in Hv. rewrite orb_false_r in Hv. apply existsb_exists. eauto.
Qed.
Lemma absenting_sub vmNames : In vmName vmNames -> absenting q (markAllAbsent runId vmNames).
Proof.
  intros Hin d Hok. destruct (markAllAbsent_absenting runId vmNames d Hok) as (g & Eg & Hg). exists g. split; [done|].
  intros v. destruct (Hg v) as [? Hv]. split; [done|]. intros Hq. apply Hv. by eapply vmsOf_sub.
Qed.
(** A lease that names the VM clears it, and every lease keeps it cleared. *)
Lemma expire_runs lease s calls s' r :
  ending_wf s -> runs others (expireRunLease hostId now lease) s calls s' (Ok r) ->
  ending_wf s' /\ ((od_runId lease = runId /\ In vmName (od_vmNames lease)) \/ unasked hostId q s -> unasked hostId q s').
Proof.
  intros Hwf H0. unfold expireRunLease in H0. apply runs_inv in H0 as (s1 & Ho1 & H0). cbn [fst snd req_bind] in H0.
  destruct (Ho _ _ Ho1 Hwf) as [Hwf1 Hk1].
  apply runs_try in H0 as [(e & E & _)|(c1 & c2 & s2 & rev & -> & H1 & H0)]; [done|].
  apply runs_try in H0 as [(e & E & _)|(c3 & c4 & s3 & d & -> & H2 & H0)]; [done|]. apply runs_inv in H0 as (_ & -> & _).
  assert (Hkeep : forall q', calming hostId q' others -> calm hostId q' s1 -> calm hostId q' s2).
  { intros q' Ho' Hs1. destruct (loadRunRow _ _ _) as [row|]; [|by apply runs_inv in H1 as (_ & -> & _)].
    destruct (expires _ _ _); [|by apply runs_inv in H1 as (_ & -> & _)]. by eapply update_runs. }
  destruct (Hkeep nothing (calming_nothing _ _ _ Ho) (calm_nothing _ _ Hwf1)) as [Hwf2 _].
  split.
  - eapply (settled_runs others hostId nothing) in H2 as [[? _] _]; [done| | |by apply calm_nothing].
    + by eapply calming_nothing.
    + eapply mutate_settled; [done|apply markAllAbsent_absenting|apply vmsOf_by_identity|done].
  - intros [[Er Hin]|Hu].
    + rewrite Er in H2. eapply mutate_runs in H2 as [[_ ?] _]; [done|exact Ho|apply vmsOf_by_identity|by apply absenting_sub|done|done].
    + destruct (Hkeep q Ho (conj Hwf1 (Hk1 Hu))) as [_ Hu2].
      eapply (settled_runs others hostId q) in H2 as [[_ ?] _]; [done|exact Ho| |by split].
      eapply mutate_settled; [apply vmsOf_by_identity|apply markAllAbsent_absenting|apply vmsOf_by_identity|done].
Qed.
Lemma expire_all_runs leases s calls s' r :
  ending_wf s -> runs others (expireLeases hostId now leases) s calls s' (Ok r) ->
  (exists lease, In lease leases /\ od_runId lease = runId /\ In vmName (od_vmNames lease)) \/ unasked hostId q s -> unasked hostId q s'.
Proof.
  revert s calls r. induction leases as [|lease rest IH]; intros s calls r Hwf H0 Hor; cbn [expireLeases] in H0.
  { apply runs_inv in H0 as (_ & -> & _). by destruct Hor as [(lease & [] & _)|?]. }
  apply runs_try in H0 as [(e & E & _)|(c1 & c2 & s2 & rev & -> & H1 & H0)]; [done|].
  apply runs_try in H0 as [(e & E & _)|(c3 & c4 & s3 & revs & -> & H2 & H0)]; [done|]. apply runs_inv in H0 as (_ & -> & _).
  destruct (expire_runs _ _ _ _ _ Hwf H1) as [Hwf2 Hu]. eapply IH; [exact Hwf2|exact H2|].
  destruct Hor as [(l & [->|Hin] & ? & ?)|?]; [right; by apply Hu; left|left; by exists l|right; by apply Hu; right].
Qed.
End leases.

(** C27. Every VM with an overdue lease is cleared when leases are expired. *)
Theorem expired_leases_are_cleared `{Collation} others hostId now wake s calls s' ids revisions runId vmName
  (Ho : calming hostId (vmsOf runId [vmName]) others) (Hwf : ending_wf s)
  (Hrun : runs others (expireOverdueRunLeases hostId now wake) s calls s' (Ok (ids, revisions))) :
  exists calls1 s1 d, runs others (loadDocument hostId now) s calls1 s1 (Ok d) /\
    forall vm, In vm (ds_vms d) -> isOverdue now vm = true -> dv_run_id vm = runId -> dv_vm_name vm = vmName ->
      In runId ids /\ unasked hostId (vmsOf runId [vmName]) s'.
Proof.
  unfold expireOverdueRunLeases in Hrun.
  apply runs_try in Hrun as [(e & E & _)|(c1 & c2 & s1 & d & -> & H1 & Hrun)]; [done|]. exists c1, s1, d. split; [done|].
  apply runs_try in Hrun as [(e & E & _)|(c3 & c4 & s2 & revs & -> & H2 & Hrun)]; [done|].
  intros vm Hin Hover Er En. destruct (overdue_selected d now vm Hin Hover) as (lease & Hl & Hr & Hn). rewrite Er in Hr. rewrite En in Hn.
  assert (s' = s2 /\ ids = map od_runId (selectOverdueRunLeases d now)) as [-> ->].
  { destruct (selectOverdueRunLeases d now) as [|l ls]; [by apply runs_inv in Hrun as (_ & -> & [= -> _])|]. destruct wake.
    - apply runs_inv in Hrun as (b & c5 & _ & Hrun). cbn [req_bind] in Hrun. by apply runs_inv in Hrun as (_ & -> & [= -> _]).
    - by apply runs_inv in Hrun as (_ & -> & [= -> _]). }
  split; [rewrite <-Hr; by apply in_map|].
  eapply (settled_runs others hostId nothing) in H1 as [[Hwf1 _] _]; [|by eapply calming_nothing|by apply load_settled|by apply calm_nothing].
  eapply expire_all_runs; [exact Ho|exact Hwf1|exact H2|]. left. eauto.
Qed.

(** * Dispatch *)

Definition sameVm (v w : DesiredVm) : bool := bool_decide (deniedIdentity v = deniedIdentity w).
Lemma denied_absenting v denied : In v denied -> absenting (sameVm v) (denyVms denied).
Proof.
  intros Hin d Hok. destruct (denyVms_absenting denied d Hok) as (g & Eg & Hg). exists g. split; [done|].
  intros w. destruct (Hg w) as [? Hw]. split; [done|]. intros Hs. apply Hw, existsb_exists. by exists v.
Qed.

Section dispatch.
Context `{Collation}.
Variable hostId : string.
Variable q : DesiredVm -> bool.
Hypothesis Hq : by_identity q.
Definition harmless (d : HostDesiredState) : Prop := doc_ok d /\ quiet q d.
#[local] Abbreviation settles := (settled (calm hostId q)).

Lemma orStop_settled {N A} (P : N -> Prop) (n : N) (p : Ending A) k :
  P n -> settles whatever p -> (forall a, settles (fun x => P (fst x)) (k a)) -> settles (fun x => P (fst x)) (orStop n p k).
Proof. intros Hn Hp Hk. apply settled_bind; [exact Hp|]. intros [a|e]; [apply Hk|by apply settled_done]. Qed.
Lemma mark_settled row at_ n :
  harmless n -> settles (fun r => match r with Ok d => harmless d | Err _ => True end) (markTeardown (markInDispatched hostId) row at_ n).
Proof.
  intros Hn. unfold markTeardown. destruct (runVmsRequiringDesiredAbsence _) as [|vm vms]; [by apply settled_done|].
  unfold orUnavailable, markInDispatched. eapply (settled_seq (ok_doc hostId q hostId)).
  - eapply mutate_settled; [exact Hq|apply markAllAbsent_absenting|apply vmsOf_by_identity|]. intros d [= <-]. by destruct Hn.
  - intros [d|e] Hd; apply settled_done; [|done]. destruct Hd as [? Hd]. split; auto.
Qed.
Lemma destroy_settled newCleanupId runId userId n :
  harmless n -> settles (fun x => harmless (fst x))
    (destroyScenarioRunForUserWithDependencies (markInDispatched hostId) (fun _ => Done tt) newCleanupId runId userId n).
Proof.
  intros Hn. unfold destroyScenarioRunForUserWithDependencies. apply settled_bind; [by apply settled_query|].
  intros [row|]; [|by apply (orStop_settled harmless); [|apply settled_done|intros; apply settled_done]].
  apply settled_bind; [by apply settled_call|]. intros at_. apply settled_bind; [apply step_settled, requestCleanup_store|].
  intros [|cleanup cleanups]; [by apply (orStop_settled harmless); [|apply settled_done|intros; apply settled_done]|].
  apply (orStop_settled harmless); [done|apply accept_settled|]. intros _.
  eapply settled_seq; [apply mark_settled, Hn|]. intros [n'|e] Hn'; [|by apply settled_done].
  apply (orStop_settled harmless); [done|apply finish_settled; intros; by apply settled_done|]. intros. by apply settled_done.
Qed.
Lemma finishCleanups_settled ids pending n : harmless n -> settles harmless (finishCleanups hostId ids pending n).
Proof.
  revert n. induction pending as [|[runId userId] rest IH]; intros n Hn; cbn [finishCleanups]; [by apply settled_done|].
  eapply settled_seq; [by apply destroy_settled|]. intros [n' r] Hn'. apply settled_bind; [by apply settled_call|]. intros _. by apply IH.
Qed.
End dispatch.

(** What a desired VM of a host needs in the tables: a run of the host that is not
    over, not asked to be deleted and whose owner has an active account and may still
    use its content; the execution of that run the VM names, by id, generation and
    owner, live and its newest; the host, enabled and of a scope that may serve the
    run; and the VM itself, under its name. *)
Record run_permitted (s : EndingDb) (hostId : string) (run : RunRow) : Prop := mk_run_permitted {
  rp_host : sr_hostId run = hostId;
  rp_owner : exists u, In u (db_users (eb_store s)) /\ us_id u = sr_userId run /\ us_deletedAt u = None /\ us_banned u = false;
  rp_kept : sr_deleteRequestedAt run = None /\ eb_routeCleanupId s !! sr_runId run = None;
  rp_not_over : sr_failedAt run = None /\ sr_completedAt run = None;
  rp_content : currentScenarioRunContentAccessCondition (eb_store s) (eb_access s) run = true;
}.
Record execution_live (s : EndingDb) (e : ExecutionRow) : Prop := mk_execution_live {
  xl_state : re_state e = ex_queued \/ re_state e = ex_provisioning \/ re_state e = ex_ready;
  xl_kept : re_archiveRequestedAt e = None;
  xl_newest : forall n, In n (db_executions (eb_store s)) -> re_domainKind n = re_domainKind e -> re_domainId n = re_domainId e ->
    re_generation n <= re_generation e;
}.
Definition host_serves (s : EndingDb) (h : HostRow) (run : RunRow) (e : ExecutionRow) : Prop :=
  ah_disabled h = false /\ re_hostId e = Some (ah_id h) /\
  match ah_scope h with
  | scope_platform => True
  | scope_personal => ah_userId h = Some (re_userId e)
  | scope_organization => exists o, ah_organizationId h = Some o /\ sr_organizationId run = Some o
  end.
Definition workload_permitted (s : EndingDb) (hostId : string) (v : DesiredVm) : Prop :=
  exists run e h r,
    In run (db_runs (eb_store s)) /\ sr_runId run = dv_run_id v /\ run_permitted s hostId run /\
    In e (db_executions (eb_store s)) /\ re_id e = dv_runtime_execution_id v /\ re_generation e = dv_generation v /\
    re_userId e = dv_owner_user_id v /\ re_userId e = sr_userId run /\
    sr_runtimeExecutionId run = Some (re_id e) /\ re_domainId e = sr_runId run /\ execution_live s e /\
    In h (db_hosts (eb_store s)) /\ ah_id h = hostId /\ host_serves s h run e /\
    In r (db_vms (eb_store s)) /\ rv_executionId r = re_id e /\ rv_runtimeVmName r = dv_vm_name v.

Lemma isNull_true {A} (o : option A) : isNull o = true -> o = None.
Proof. by destruct o. Qed.
Lemma sql_eq_spec a b : sql_eq a b = true -> exists x, a = Some x /\ b = Some x.
Proof. destruct a as [x|], b as [y|]; try done. cbn. intros ->%String.eqb_eq. eauto. Qed.
Lemma activeAccount_user db id :
  activeAccount db id = true -> exists u, In u (db_users db) /\ us_id u = id /\ us_deletedAt u = None /\ us_banned u = false.
Proof.
  intros (u & Hu & H)%existsb_exists. reflect_bools. exists u. split_and!; try done.
  destruct (us_deletedAt u) eqn:E; [|done]. exfalso. apply bool_decide_eq_false in H1. by apply H1.
Qed.
Lemma permittedRun_spec s hostId run : permittedRun s hostId run = true -> run_permitted s hostId run.
Proof.
  unfold permittedRun. intros H. reflect_bools. constructor; auto using isNull_true, activeAccount_user.
Qed.
Lemma liveExecution_spec s e : liveExecution s e = true -> execution_live s e.
Proof.
  unfold liveExecution. intros H. reflect_bools. constructor.
  - destruct (re_state e); auto; done.
  - by apply isNull_true.
  - intros n Hn Ek Ei. apply Z.nlt_ge. intros Hlt. apply not_true_iff_false in H0. apply H0, existsb_exists. exists n.
    split; [done|]. rewrite Ek, Ei, !String.eqb_refl. by apply Z.ltb_lt.
Qed.
Lemma hostScope_serves s h run e :
  ah_disabled h = false -> re_hostId e = Some (ah_id h) ->
  currentRunHostScopeCondition (eb_store s) (eb_access s) h run e = true -> host_serves s h run e.
Proof.
  unfold host_serves, currentRunHostScopeCondition. intros Hd Hh Hs. split_and!; [done..|].
  destruct (ah_scope h); [done| |]; reflect_bools.
  - apply sql_eq_spec in Hs as (x & -> & E). done.
  - match goal with E : sql_eq _ _ = true |- _ => apply sql_eq_spec in E as (o & -> & ->) end. by exists o.
Qed.
(** The whole condition of the code means what [workload_permitted] says. *)
Lemma allowedVm_permitted s hostId v : allowedVm s hostId v = true -> workload_permitted s hostId v.
Proof.
  unfold allowedVm. intros (run & Hrun & H)%existsb_exists. apply andb_true_iff in H as [H (e & He & Hx)%existsb_exists].
  apply andb_true_iff in Hx as [Hx (r & Hr & Hrv)%existsb_exists]. apply andb_true_iff in Hx as [Hx (h & Hh & Hhost)%existsb_exists].
  reflect_bools. repeat match goal with E : sql_eq _ _ = true |- _ => apply sql_eq_spec in E as (? & ? & ?) end. simplify_eq.
  exists run, e, h, r. split_and!; try done; try congruence; [by apply permittedRun_spec|by apply liveExecution_spec|].
  by apply hostScope_serves.
Qed.

(** C14. What a host is sent runs only what the tables permit: a VM that the given
    document runs, and that the dispatched one still runs under the same execution,
    generation and name, was permitted in the state in which the request first read
    the tables - as long as nobody else asks again for that VM meanwhile. *)
Theorem dispatched_document_is_permitted `{Collation} others ids state s tr s' d
  (Hwf : ending_wf s) (Hok : doc_ok state)
  (Hrun : traced others (enforceHostWorkloadAccess ids state) s tr s' (Ok d)) :
  exists s0 rest, tr = accessed s0 s0 :: rest /\ others s s0 /\
    forall v w, In v (ds_vms state) -> isRunning v = true -> calming (ds_host_id state) (sameVm v) others ->
      In w (ds_vms d) -> deniedIdentity w = deniedIdentity v -> isRunning w = true ->
      workload_permitted s0 (ds_host_id state) v.
Proof.
  unfold enforceHostWorkloadAccess in Hrun. apply traced_inv in Hrun as (s0 & rest & -> & Ho0 & Hrun). exists s0, rest.
  split; [done|]. split; [done|]. apply traced_runs in Hrun. revert Hrun. generalize (calls_of rest) as calls. intros calls Hrun v w Hv Hvr Ho Hw Ew Hwr.
  destruct (allowedVm s0 (ds_host_id state) v) eqn:Hva; [by apply allowedVm_permitted|]. exfalso.
  apply not_false_iff_true in Hwr. apply Hwr. clear Hwr.
  cbn [fst snd req_bind] in Hrun. cbv zeta in Hrun.
  set (denied := deniedVms (allowedVm s0 (ds_host_id state)) state) in *.
  assert (Hin : In v denied) by (apply filter_In; by rewrite Hvr, Hva).
  pose proof (calming_nothing _ _ _ Ho) as Hn. assert (Hq : by_identity (sameVm v)) by done.
  pose proof (others_calm _ _ _ Hn _ _ Ho0 (calm_nothing (ds_host_id state) _ Hwf)) as Hs0.
  apply runs_bind in Hrun as (c1 & c2 & s1 & requested & -> & H1 & Hrun).
  assert (Hs1 : ending_wf s1).
  { destruct (List.filter _ _) as [|x xs]; [apply runs_inv in H1 as (_ & -> & _); by destruct Hs0|].
    apply runs_inv in H1 as (now & c3 & _ & H1). cbn [req_bind] in H1.
    eapply (step_runs others (ds_host_id state) nothing) in H1 as [? _]; [done|done|apply requestCleanup_store|done]. }
  apply runs_try in Hrun as [(e & E & _)|(c3 & c4 & s2 & next & -> & H2 & Hrun)]; [done|].
  assert (calm (ds_host_id state) (sameVm v) s2 /\ doc_ok next /\ quiet (sameVm v) next) as (Hs2 & Hnext).
  { destruct denied as [|x xs] eqn:Ed; [done|]. rewrite <-Ed in *. clear x xs Ed.
    apply runs_inv in H2 as (now & c5 & _ & H2). cbn [req_bind] in H2.
    eapply mutate_runs; [exact Ho|exact Hq|by apply denied_absenting| |exact Hs1|exact H2].
    intros d0 [= <-]. split; [done|]. intros Hquiet. unfold isRunning in Hvr. apply bool_decide_eq_true in Hvr.
    rewrite (Hquiet v Hv) in Hvr; [done|]. by apply bool_decide_eq_true. }
  apply runs_bind in Hrun as (c5 & c6 & s3 & d' & -> & H3 & Hrun). apply runs_inv in Hrun as (_ & -> & [= ->]).
  destruct (settled_runs _ _ _ Ho (harmless (sameVm v)) _ _ _ _ _ (finishCleanups_settled _ _ Hq _ _ _ Hnext) Hs2 H3) as [_ [_ Hd]].
  unfold isRunning. rewrite (Hd w Hw); [done|]. by apply bool_decide_eq_true.
Qed.

(** * Deleting a finished run *)

Lemma aborts_runs others records s calls s' u : runs others (abortUploads records) s calls s' u -> s' = s.
Proof.
  revert s calls. induction records as [|a rest IH]; intros s calls H0; cbn [abortUploads] in H0; [by apply runs_inv in H0 as (_ & -> & _)|].
  destruct (so_r2UploadId a ≫= or_null); [|by eapply IH]. apply runs_inv in H0 as (b & c & _ & H0). by eapply IH.
Qed.
Definition objectDeleted (calls : list {B : Type & (EndCall B * B)%type}) (key : string) : Prop :=
  exists keys, In key keys /\ In (existT _ (DeleteObjects keys, Ok tt)) calls.
Lemma deleteKeys_runs others keys fuel s calls s' :
  (length keys <= fuel)%nat -> runs others (deleteKeys keys fuel) s calls s' (Ok tt) ->
  s' = s /\ forall key, In key keys -> objectDeleted calls key.
Proof.
  revert keys s calls. induction fuel as [|fuel IH]; intros keys s calls Hl H0; destruct keys as [|k keys].
  1, 3: by apply runs_inv in H0 as (_ & -> & _). { cbn in Hl. lia. }
  cbn [deleteKeys] in H0. apply runs_try in H0 as [(e & E & _)|(c1 & c2 & s1 & u & -> & H1 & H0)]; [done|].
  apply runs_inv in H1 as (b & c3 & -> & H1). apply runs_inv in H1 as (-> & -> & <-). destruct u.
  apply IH in H0 as [-> Hk]; [|rewrite length_drop; cbn in Hl |- *; unfold R2_DELETE_BATCH_SIZE; lia].
  split; [done|]. intros key Hin. rewrite <-(take_drop R2_DELETE_BATCH_SIZE (k :: keys)) in Hin. apply in_app_iff in Hin as [Hin|Hin].
  - exists (take R2_DELETE_BATCH_SIZE (k :: keys)). split; [done|]. by left.
  - destruct (Hk key Hin) as (ks & ? & ?). exists ks. split; [done|]. by right.
Qed.
Lemma storage_runs others records s calls s' :
  runs others (deleteScenarioArtifactStorage records) s calls s' (Ok tt) ->
  s' = s /\ forall a, In a records -> objectDeleted calls (so_r2Key a).
Proof.
  unfold deleteScenarioArtifactStorage. intros H0. apply runs_bind in H0 as (c1 & c2 & s1 & u & -> & H1 & H0). apply aborts_runs in H1 as ->.
  apply deleteKeys_runs in H0 as [-> Hk]; [|done]. split; [done|]. intros a Ha.
  destruct (Hk (so_r2Key a)) as (keys & Hin & Hc); [by apply Set_new_In, in_map|]. exists keys. split; [done|]. apply in_app_iff. by right.
Qed.

Lemma purgeable_complete state records :
  scenarioRunPurgeBlockReason state records = None ->
  (forall vm, In vm (run_vms state) -> vm_phase vm = vm_completed) /\ (forall a, In a records -> so_uploadStatus a = "uploaded").
Proof.
  unfold scenarioRunPurgeBlockReason. destruct (_ || _) eqn:E1; [done|]. apply orb_false_iff in E1 as [_ E1].
  destruct (existsb _ records) eqn:E2; [done|]. intros _. split.
  - intros vm Hin. destruct (decide (vm_phase vm = vm_completed)) as [|Hne]; [done|]. exfalso. apply not_true_iff_false in E1.
    apply E1, existsb_exists. exists vm. split; [done|]. by rewrite bool_decide_eq_false_2.
  - intros a Hin. destruct (so_uploadStatus a =s "uploaded") eqn:E; [by apply String.eqb_eq|]. exfalso. apply not_true_iff_false in E2.
    apply E2, existsb_exists. exists a. by rewrite E.
Qed.

(** A request that goes out and never touches the tables. *)
Fixpoint at_most_calls {E : Type -> Type} {S A : Type} (p : Req E S A) : Prop :=
  match p with
  | Done _ => True
  | Atom _ _ => False
  | Await _ k => forall b, at_most_calls (k b)
  end.
Lemma calls_bind {E S A B} (p : Req E S A) (k : A -> Req E S B) :
  at_most_calls p -> (forall a, at_most_calls (k a)) -> at_most_calls (req_bind p k).
Proof. intros Hp Hk. induction p as [a|D f next IH|D c next IH]; cbn in *; auto. Qed.
Lemma revokeAll_calls routes : at_most_calls (revokeAllRoutes (S := EndingDb) DeleteRoute routes).
Proof.
  unfold revokeAllRoutes. generalize (Set_new routes) as each. induction each as [|route rest IH]; cbn; [done|]. intros b. by apply calls_bind.
Qed.
Lemma revokeRoutes_calls runId state : at_most_calls (revokeScenarioRunRoutes runId state).
Proof. unfold revokeScenarioRunRoutes. apply calls_bind; [apply revokeAll_calls|]. by intros [|]. Qed.
Lemma artifactStorage_calls records : at_most_calls (deleteScenarioArtifactStorage records).
Proof.
  unfold deleteScenarioArtifactStorage. apply calls_bind; [|intros _].
  - induction records as [|a rest IH]; cbn; [done|]. destruct (so_r2UploadId a ≫= or_null); [by intros _|done].
  - generalize (Set_new (map so_r2Key records)) as keys. intros keys. generalize (length keys) as fuel. intros fuel. revert keys.
    induction fuel as [|fuel IH]; intros [|k keys]; cbn; try done. intros [[]|e]; cbn; [apply IH|done].
Qed.
Lemma stopShare_calls runId (shareId : option string) :
  at_most_calls (match shareId ≫= or_null with Some share => call (StopShare runId share) | None => end_ok tt end : Ending ()).
Proof. destruct (shareId ≫= or_null); cbn; done. Qed.
Lemma actorClock_calls (actor : option (string * string)) :
  at_most_calls (match actor with Some _ => call EndClock | None => Done 0 end : Req EndCall EndingDb Z).
Proof. destruct actor; cbn; done. Qed.
Lemma no_access_traced {E S A} (others : S -> S -> Prop) (p : Req E S A) s tr s' a :
  at_most_calls p -> traced others p s tr s' a -> s' = s /\ Forall is_call tr.
Proof.
  intros Hp Ht. induction Ht; [by auto|by destruct Hp|]. destruct (IHHt (Hp b)) as [-> ?]. split; [done|]. by constructor.
Qed.


(** * A lost request *)

(** Leases are being expired, and the run has been read with no deletion requested. Its
    owner ends the run, which is accepted, and the row says so. Then the expiry goes
    on: it writes what it read as the time of the request, and the request is gone. *)
Lemma expiry_erases_delete_request :
  let begun := advanced EndingSample.answer 3 (expireOverdueRunLeases "host" 9999999 true) EndingSample.started in
  let ended := answered EndingSample.answer EndingSample.torn (fst begun) in
  let done_ := answered EndingSample.answer (snd begun) (fst ended) in
  match snd ended with Ok row => sr_deleteRequestedAt row = Some 2000 | Err _ => False end /\
  snd done_ = Ok (["0-0"], [("0-0", 2003)]) /\
  map (fun r => (sr_state r, sr_deleteRequestedAt r)) (db_runs (eb_store (fst done_))) = [(run_failed, None)].
Proof. vm_compute. repeat split. Qed.

(** * Concrete runs *)

Lemma eq_calming hostId q : calming hostId q eq.
Proof. by intros x y ->. Qed.
Lemma eq_ended runId : leaves_ended eq runId.
Proof. split; [intros; apply eq_calming|by intros x y ->]. Qed.

Module EndingWitness.
Import EndingSample.
Definition expiry : Ending (list string * list (string * Z)) := expireOverdueRunLeases "host" 9999999 true.
Definition ended : EndingDb := fst (answered answer torn started).
Definition dispatch : Ending HostDesiredState := enforceHostWorkloadAccess (fun _ => "id") document.
Definition deletion : Ending () := deleteFinishedScenarioRun "0-0" None (Some ("ada", "event")).
Lemma alone {A} (p : Ending A) s a : snd (answered answer p s) = Ok a -> runs eq p s (trace answer p s) (fst (answered answer p s)) (Ok a).
Proof. intros <-. by apply answered_runs. Qed.
End EndingWitness.

Lemma accepted_teardown_is_complete_witness :
  exists s0 row, EndingSample.started = s0 /\ loadRunRow s0 "0-0" (Some "learner") = Some row /\
    unasked (sr_hostId row) (endedVms "0-0" row) EndingWitness.ended /\ released "0-0" EndingWitness.ended /\
    revokedIn (trace EndingSample.answer EndingSample.torn EndingSample.started) "0-0" (stateOf row).
Proof.
  assert (E : exists a, snd (answered EndingSample.answer EndingSample.torn EndingSample.started) = Ok a) by (vm_compute; eexists; reflexivity).
  destruct E as [a E]. apply EndingWitness.alone in E.
  exact (accepted_teardown_is_complete eq "cleanup" "0-0" "learner" _ _ _ a (eq_ended _) EndingSample.started_wf E).
Defined.
Lemma expired_leases_are_cleared_witness :
  exists calls1 s1 d, runs eq (loadDocument "host" 9999999) EndingSample.started calls1 s1 (Ok d) /\
    forall vm, In vm (ds_vms d) -> isOverdue 9999999 vm = true -> dv_run_id vm = "0-0" -> dv_vm_name vm = "intro-web-0-0-1" ->
      In "0-0" ["0-0"] /\ unasked "host" (vmsOf "0-0" ["intro-web-0-0-1"]) (fst (answered EndingSample.answer EndingWitness.expiry EndingSample.started)).
Proof.
  assert (E : snd (answered EndingSample.answer EndingWitness.expiry EndingSample.started) = Ok (["0-0"], [("0-0", 2000)]))
    by (vm_compute; reflexivity).
  apply EndingWitness.alone in E.
  exact (expired_leases_are_cleared eq "host" 9999999 true _ _ _ _ _ "0-0" "intro-web-0-0-1" (eq_calming _ _) EndingSample.started_wf E).
Defined.
(** The document is from before the teardown, so that its VM is refused. *)
Lemma dispatched_document_is_permitted_witness :
  snd (answered EndingSample.answer EndingWitness.dispatch EndingSample.started) = Ok EndingSample.document /\
  existsb isRunning (ds_vms EndingSample.document) = true /\
  forall v, In v (ds_vms EndingSample.document) -> isRunning v = true -> workload_permitted EndingSample.started "host" v.
Proof.
  assert (E : snd (answered EndingSample.answer EndingWitness.dispatch EndingSample.started) = Ok EndingSample.document) by (vm_compute; reflexivity).
  assert (Ht := answered_traced eq EndingSample.answer EndingWitness.dispatch EndingSample.started (fun x => eq_refl)). rewrite E in Ht.
  split; [exact E|]. split; [vm_compute; reflexivity|]. intros v Hv Hr.
  edestruct (dispatched_document_is_permitted eq (fun _ => "id") EndingSample.document EndingSample.started) as (s0 & rest & _ & <- & H0); [..|exact Ht|].
  - exact EndingSample.started_wf.
  - EndingSample.decided.
  - exact (H0 v v Hv Hr (eq_calming _ _) Hv eq_refl Hr).
Defined.
